(* ===== verification/_CoqProject ===== *)
-Q . S2P
Prelude.v
Status.v
Memory.v
Regions.v
Arith.v
Strings.v
StringsProofs.v
Heap.v
HeapProofs.v
HeapClient.v
HeapTrace.v
Storage.v
StorageProofs.v
PartitionTables.v
PartitionProofs.v
GptProofs.v
Tokens.v
TokensProofs.v
Print.v
PrintProofs.v
Fs.v
FsProofs.v
Symbols.v
SymbolsProofs.v
Elf.v
ElfProofs.v
ElfImage.v
ElfSymbols.v
ElfReloc.v
ElfLoad.v
Fat.v
FatProofs.v
Ext.v
ExtProofs.v
Ntfs.v
NtfsProofs.v
NtfsTree.v
Font.v
Fb.v
FbProofs.v
Ports.v
Video.v
Bios.v
BiosProofs.v
Vbe.v
VbeProofs.v
Pci.v
PciProofs.v
Time.v
Uefi.v
UefiProofs.v
Gop.v
GopProofs.v
Pata.v
PataProofs.v
Mmio.v
Ahci.v
AhciProofs.v
Keyboard.v
KeyboardProofs.v
Usb.v
UsbKeyboard.v
UsbScsi.v
UsbProofs.v
UsbScsiProofs.v
HostController.v
Uhci.v
UhciProofs.v
Ohci.v
Ehci.v
Xhci.v
XhciProofs.v
Mtrr.v
Relocate.v
Screen.v
Gui.v
GuiProofs.v
Shell.v
ShellProofs.v
Init.v
