(* ===== verification/Prelude.v ===== *)
(** * The BL boot loader, modelled and verified

    BL is a boot loader for 32-bit x86, for BIOS and UEFI firmware, written in
    C.  A small core is loaded by the firmware; it owns the heap, the storage
    devices, the file systems, the screen and the shell, and it loads drivers
    as ELF modules from the boot medium, which register themselves in lists of
    the core.  File names below are relative to src/boot-loader, with the prefix
    core/ left out where that is not ambiguous.

    ** How programs are modelled

    The program is one of addresses, so the model is one too.  [Memory.machine]
    is a flat 32-bit memory (a finite map from addresses to bytes, 0 where
    nothing was written), the scalar globals that several parts share (the
    heap's base and counters, strtok's pointer) and the console's output.
    A C function is a function in the monad [Memory.M], the state monad [ST]
    below over that machine with partiality: [None] is a loop that does not end
    or a null dereference or division by zero.  A part that keeps its own
    state without aliasing it keeps it in a record that is passed along
    ([Fb.bl_fb_t], [Gui.bl_gui], the keyboards), and hardware is a state whose
    reaction is a parameter: to port accesses ([Ports.ports]), to accesses of
    registers in memory, and what a controller does to memory on its own
    ([Mmio.hardware]).  Drivers run in [Ports.D], the same monad over the machine
    and the hardware's state.  Integers are [Z] with
    the wrap-around written at every operation that can overflow ([u32], [s8],
    ...).  Objects on the stack that the code takes the address of are regions
    of memory at addresses that are arguments (the frames, [gpt_frame] and the
    like).

    Loops are [mwhile], which iterates its body up to [while_fuel] = 2^34 times.
    The loops of the program step through 32-bit counters and pointers, so those
    that end do so within about 2^32 rounds; and every theorem about a result
    says that the function returns [Some]: [wp_mwhile] asks for a measure below
    the fuel.  That a loop does
    not end is [mwhile_diverges], which is proved from an invariant for any
    fuel.

    ** Parts

    - Memory manager: Heap.v (memory/heap.c): the block list in memory and its
      search, extension and marking; the abstract allocator on a list of blocks
      ([alloc_spec], [free_spec]) is in the same file.  HeapProofs.v shows that
      the code refines it.  HeapClient.v is the interface the other parts are
      proved against: what a client may assume of the heap and of the memory
      that the heap leaves alone ([stable], [heap_step]), and which blocks a
      step brings into use and gives up ([heap_change]), aligned blocks included.  HeapTrace.v
      has whole programs of allocations, frees and writes.
    - Strings: Strings.v, Tokens.v (utils/string.c), Arith.v (utils/log2.c,
      utils/divmod64.c, the byte swaps of include/types.h) with the proofs in
      StringsProofs.v, TokensProofs.v and Arith.v.
    - Storage and partitions: Storage.v (storage/storage.c,
      storage/disk-controller.c, partition-table/partition-table.c),
      PartitionTables.v (modules/partition-table/mbr and gpt); StorageProofs.v,
      PartitionProofs.v and GptProofs.v.  A disk controller is a record of
      functions; [disk_reads] states what a working one does.
    - Disk drivers (modules/storage/): Pata.v (pata/), Ahci.v (ahci/), UsbScsi.v
      (usb-scsi/); PataProofs.v, AhciProofs.v, UsbScsiProofs.v.  What they need
      of the hardware is a class each ([AtaDrive], [AhciDisk], [ScsiDisk]).
    - File systems: Fs.v (fs/fs.c, fs/file.c), Fat.v (modules/fs/fat/fat.c),
      Ext.v (modules/fs/ext/ext.c), Ntfs.v (modules/fs/ntfs/ntfs.c); FsProofs.v,
      FatProofs.v, ExtProofs.v, NtfsProofs.v (run lists, names) and NtfsTree.v
      (directories, which are B-trees on the disk).  The walk along a path is
      proved for every file system that keeps the class [FileTree].
    - Modules: Elf.v (loader/loader.c, loader/elf/elf.c), Symbols.v
      (loader/symbols.c).  ElfProofs.v has the relocation of one section,
      ElfImage.v the placement of a module's sections, ElfSymbols.v its symbols,
      over any search for exported symbols that keeps the class [SymbolFinder]
      (SymbolsProofs.v has the search of the BIOS executable, an instance),
      ElfReloc.v all its relocations, ElfLoad.v the load as a whole.
    - Video: Print.v (video/print.c), Font.v (gui/font.c), Fb.v (video/fb.c,
      video/alpha-blending.c), Video.v (video/video.c, the initialisation of
      video/fb.c), the drivers Vbe.v (modules/video/vbe) and Gop.v
      (modules/video/uefi), Screen.v (video/screen.c), Gui.v (gui/gui-app.c,
      gui/bitmap.c); PrintProofs.v, FbProofs.v, VbeProofs.v, GopProofs.v,
      GuiProofs.v.
    - Firmware: Bios.v (arch/i386/real-mode: the interrupt thunk, bios.c, cpu.c,
      a20.c, sys-main.c) over a BIOS [bios], a function of the registers, memory
      and the hardware; Uefi.v (firmware/uefi and include/uefi/uefi.h: protocols,
      console, allocator, start) over [firmware], which says what a call of a
      function pointer does; BiosProofs.v, UefiProofs.v.  What the theorems need
      of the two is a class each ([VesaBios], [FirmwareHeap], [ModeQuery]).
      Init.v is bl_init, the order in which the parts start.
    - Shell and keyboards: Shell.v (shell/), Keyboard.v (keyboard/,
      modules/keyboard/ps2-kbd); ShellProofs.v, KeyboardProofs.v.
    - USB: Usb.v (bus/usb/ and include/usb/usb.h: types, transfers, hubs,
      identification), UsbKeyboard.v (modules/keyboard/usb-kbd); the drivers of
      the host controllers Uhci.v, Ohci.v, Ehci.v, Xhci.v (modules/usb/) with
      what they share in HostController.v; UsbProofs.v, UhciProofs.v,
      XhciProofs.v.  A host controller is a record of functions
      ([bl_usb_host_controller_functions]).
    - Buses and processor: Ports.v (include/io.h), Mmio.v (registers in memory),
      Pci.v (bus/pci/pci.c), Time.v (arch/i386/pit, firmware/uefi/time.c),
      Mtrr.v (arch/i386/mtrr/mtrr.c), Relocate.v
      (arch/i386/uefi/relocate-ia32.c); PciProofs.v.  The last three hold their
      proofs themselves.
    - Status.v: the status codes; Memory.v: the machine; Regions.v: lists of
      regions that lie apart and memories that agree outside of them, which the
      drivers that share memory with hardware are proved with; this file: words,
      the monad, its logic ([wp]) and lemmas on lists that the parts share.

    How they interact: strings that are duplicated, the scratch buffers of
    storage, partitions, nodes of paths and module images come from the heap;
    the partition tables and the file systems read through
    [bl_storage_device_read]; file systems walk paths with the tokenizer; the
    loader resolves names through the symbol table; the frame buffer asks for
    write-combining memory; the shell prints, reads keys and mounts.  Disk
    drivers find their controllers on the PCI bus and register disks with the
    storage layer; the USB stack finds devices through the functions of the host
    controllers and hands them to the keyboard and mass storage drivers, whose
    transfers go back through it; drivers that wait call the timer.

    ** What the theorems show

    - Refinement and safety of the heap: first fit as specified, blocks apart,
      aligned and inside the heap, freeing marks one block; no program of
      allocations, frees and writes into its own blocks breaks it.  The UEFI
      build's allocator gives back to the firmware exactly what it took.
    - Reading: exactly the bytes of the disk, with the scratch buffer given back;
      exactly the partitions of MBR and GPT disks; on a FAT16 volume exactly the
      clusters of a chain in the first sector of the table (later entries are
      looked up behind the cache); a path is followed name by name and nothing is
      left allocated but its last file; exactly the inode of an ext file system;
      the run lists of NTFS against their meaning with signed offsets, which the
      driver reads without the sign, and the look-up of a name through the B-tree
      of a directory, whose answer names a record that is free again.
    - Disk drivers: with hardware that carries out its commands, reading through
      commands in memory and through wrapped SCSI commands stores exactly the
      sectors asked for; the ATA driver, through ports, does so for the first
      2^24 sectors and 128 KiB at a time, as its 28-bit command can say no more.
    - Loading: a module that [bl_elf_load] accepts is its file, linked: every
      section at its own aligned place, every symbol with its value, every
      relocated word as its type says, every other byte the file's; one that
      cannot be linked is refused, but its image stays allocated.  Relocation of
      the UEFI image changes the named words and nothing else.
    - Data: memcpy is memmove, comparisons decide equality, tokens are cut as
      strtok does, division and logarithm are right; a command line runs the
      command that its first word names, with the words as arguments.
    - Pictures: the VESA driver sets the first suitable mode of the list and the
      UEFI driver chooses the first of the deepest ones; filled rectangles,
      blending between the colors, a cursor that stays on the page.
    - Hardware: the enumeration of the PCI bus meets every function;
      scan codes read back as the keys typed; a memory type entry matches exactly
      its range; with the timer chip as its data sheet has it, a sleep lasts the
      milliseconds asked for and at most 6.7 per cent more.
    - USB: the queue of hubs is a list; an interface's endpoints are copied
      exactly; a UHCI transfer is a chain of descriptors that holds the packets of
      the data (from an IN endpoint they may ask for up to two bytes more), and
      freeing it gives back exactly what was taken; an
      XHCI control transfer appends exactly its blocks to the ring.
    - Errors of the code that the model shows are theorems of their own (the
      last group): the probe that does not end, the byte behind a duplicated
      string, the cluster that is mapped behind its run, and the like.

    ** What is not modelled

    The BIOS, the UEFI services, the processor's cpuid and flags and all hardware
    are not in the repository; they are parameters.  Of assembly only the BIOS
    thunk is modelled: switches between processor modes and entry code have no
    counterpart in the model.  The ACPI code is under [#if 0].  Three functions
    have no meaning in C and do not compile: [bl_fat_open], [bl_gop_get_info] and
    the end of [bl_gop_set_video].  The functions named [*_unregister] have empty
    bodies.  The directories of FAT, the text screen, the USB keyboard, the
    start-up and the OHCI and EHCI drivers are modelled without theorems. *)
From Stdlib Require Import ZArith Lia.
From stdpp Require Export base list numbers gmap.
#[export] Set Default Goal Selector "!".
#[global] Open Scope Z_scope.

(** ** Machine-width integers

    The boot loader is a 32-bit program: [bl_size_t], [bl_addr_t] and pointers
    are 32 bits wide, [char] is signed. *)
Definition u8 (x : Z) : Z := x mod 256.
Definition u16 (x : Z) : Z := x mod 65536.
Definition u32 (x : Z) : Z := x mod 4294967296.
Definition u64 (x : Z) : Z := x mod 18446744073709551616.
Definition s8 (x : Z) : Z := if u8 x <? 128 then u8 x else u8 x - 256.
Definition s32 (x : Z) : Z := if u32 x <? 2147483648 then u32 x else u32 x - 4294967296.

(** C's truth value of an integer, and of a comparison. *)
Definition truth (x : Z) : bool := negb (x =? 0).
Definition b2z (b : bool) : Z := if b then 1 else 0.

(** C's unsigned complement at 32 and 64 bits. *)
Definition not32 (x : Z) : Z := u32 (Z.lnot x).
Definition not64 (x : Z) : Z := u64 (Z.lnot x).

Ltac unfold_words := unfold u8, u16, u32, u64, s8, s32 in *.
Ltac word_lia := unfold_words; Z.div_mod_to_equations; lia.

Create HintDb words.
Create Rewrite HintDb words_rw.

Lemma u8_range x : 0 <= u8 x < 256.
Proof. apply Z.mod_pos_bound; lia. Qed.
Lemma u16_range x : 0 <= u16 x < 65536.
Proof. apply Z.mod_pos_bound; lia. Qed.
Lemma u32_range x : 0 <= u32 x < 4294967296.
Proof. apply Z.mod_pos_bound; lia. Qed.
Lemma u64_range x : 0 <= u64 x < 18446744073709551616.
Proof. apply Z.mod_pos_bound; lia. Qed.
Lemma u8_small x : 0 <= x < 256 → u8 x = x.
Proof. apply Z.mod_small. Qed.
Lemma u16_small x : 0 <= x < 65536 → u16 x = x.
Proof. apply Z.mod_small. Qed.
Lemma u32_small x : 0 <= x < 4294967296 → u32 x = x.
Proof. apply Z.mod_small. Qed.
Lemma u64_small x : 0 <= x < 18446744073709551616 → u64 x = x.
Proof. apply Z.mod_small. Qed.
Lemma u8_idemp x : u8 (u8 x) = u8 x.
Proof. apply u8_small, u8_range. Qed.
Lemma s32_small x : 0 <= x < 2147483648 → s32 x = x.
Proof. intros. unfold s32. rewrite u32_small by lia. by destruct (Z.ltb_spec x 2147483648); [|lia]. Qed.
Lemma u32_idemp x : u32 (u32 x) = u32 x.
Proof. apply u32_small, u32_range. Qed.
Lemma u32_add_l x y : u32 (u32 x + y) = u32 (x + y).
Proof. unfold u32. by rewrite Zplus_mod_idemp_l. Qed.
Lemma u32_add_r x y : u32 (x + u32 y) = u32 (x + y).
Proof. unfold u32. by rewrite Zplus_mod_idemp_r. Qed.
Lemma u32_sub_l x y : u32 (u32 x - y) = u32 (x - y).
Proof. unfold u32. by rewrite Zminus_mod_idemp_l. Qed.
Lemma s8_range x : -128 <= s8 x < 128.
Proof. pose proof (u8_range x). unfold s8. destruct (Z.ltb_spec (u8 x) 128); lia. Qed.
Lemma s8_zero x : s8 x = 0 ↔ u8 x = 0.
Proof. pose proof (u8_range x). unfold s8. destruct (Z.ltb_spec (u8 x) 128); lia. Qed.
Lemma s8_inj x y : 0 <= x < 256 → 0 <= y < 256 → s8 x = s8 y → x = y.
Proof.
  intros Hx Hy. unfold s8. rewrite !u8_small by lia.
  destruct (Z.ltb_spec x 128), (Z.ltb_spec y 128); lia.
Qed.

Lemma truth_0 : truth 0 = false.
Proof. done. Qed.
Lemma truth_1 : truth 1 = true.
Proof. done. Qed.
Lemma truth_pos c : 0 < c → truth c = true.
Proof. intros. unfold truth. by destruct (Z.eqb_spec c 0); [lia|]. Qed.
Lemma truth_s8 c : 0 < c < 256 → truth (s8 c) = true.
Proof.
  intros. unfold truth. destruct (Z.eqb_spec (s8 c) 0) as [E|]; [|done].
  rewrite s8_zero, u8_small in E; lia.
Qed.
Lemma truth_nz c : c ≠ 0 → truth c = true.
Proof. intros. unfold truth. by destruct (Z.eqb_spec c 0). Qed.

#[export] Hint Resolve u8_range u16_range u32_range u64_range s8_range : words.
#[export] Hint Rewrite u8_idemp u32_idemp u32_add_l u32_add_r u32_sub_l : words_rw.

(** ** Alignment: [BL_MEMORY_ALIGN_UP] of include/memory/heap.h, at 32 bits *)
Definition BL_MEMORY_ALIGN_UP (addr align : Z) : Z :=
  Z.land (u32 (addr + align - 1)) (not32 (u32 (align - 1))).

(** [BL_MIN] of bl-utils.h, [MIN] of utils.h. *)
Definition BL_MIN (a b : Z) : Z := if b <? a then b else a.

(** [length] bytes cut into pieces of [size] bytes, the last one being what is left. *)
Definition pieces (size length : Z) : Z := (length + size - 1) / size.
Lemma pieces_more size length k : 0 < size → 0 <= k → (0 < length - k * size ↔ k < pieces size length).
Proof. intros. unfold pieces. split; intros; Z.div_mod_to_equations; nia. Qed.

Lemma pieces_bound size length : 0 < size → 0 <= length → 0 <= pieces size length <= length.
Proof. intros. unfold pieces. Z.div_mod_to_equations. nia. Qed.

(** ** Loops

    Every [while] and [for] loop of the code whose bound is not a literal is a
    step function [S → S + R]: [inl] goes round again, [inr] leaves the loop.
    [piter p] runs it at most [p] times and stops at the first [inr], so that a
    loop is executed with the huge fuel [while_fuel] in the time it really
    takes.  All counters of the code have at most 32 bits: a loop that is still
    running after [while_fuel] = 2^34 rounds does not end. *)
Fixpoint piter {S R : Type} (p : positive) (step : S → S + R) (s : S) : S + R :=
  match p with
  | xH => step s
  | xO p' =>
      match piter p' step s with
      | inl s' => piter p' step s'
      | inr r => inr r
      end
  | xI p' =>
      match step s with
      | inr r => inr r
      | inl s' =>
          match piter p' step s' with
          | inl s'' => piter p' step s''
          | inr r => inr r
          end
      end
  end.

Definition while_fuel : positive := 17179869184%positive.

Definition while {S R : Type} (step : S → S + R) (s : S) : option R :=
  match piter while_fuel step s with inr r => Some r | inl _ => None end.
#[global] Arguments while : simpl never.

Section Loops.
Context {S R : Type} (step : S → S + R).

(** The same loop with unary fuel, which inductions use. *)
Fixpoint niter (n : nat) (s : S) : S + R :=
  match n with
  | O => inl s
  | Datatypes.S n' => match step s with inl s' => niter n' s' | inr r => inr r end
  end.

Lemma niter_add n1 n2 s :
  niter (n1 + n2) s =
  match niter n1 s with inl s' => niter n2 s' | inr r => inr r end.
Proof.
  revert s. induction n1 as [|n1 IH]; intros s; simpl; [done|].
  destruct (step s); [apply IH|done].
Qed.

Lemma piter_niter p s : piter p step s = niter (Pos.to_nat p) s.
Proof.
  revert s. induction p as [p IH|p IH|]; intros s; simpl piter.
  - rewrite Pos2Nat.inj_xI. cbn [niter]. destruct (step s) as [s'|r]; [|done].
    rewrite IH. replace (2 * Pos.to_nat p)%nat with (Pos.to_nat p + Pos.to_nat p)%nat by lia.
    rewrite niter_add. destruct (niter (Pos.to_nat p) s'); [apply IH|done].
  - rewrite Pos2Nat.inj_xO, IH.
    replace (2 * Pos.to_nat p)%nat with (Pos.to_nat p + Pos.to_nat p)%nat by lia.
    rewrite niter_add. destruct (niter (Pos.to_nat p) s); [apply IH|done].
  - simpl. by destruct (step s).
Qed.

Lemma niter_ranked (P : Z → S → Prop) (Q : R → Prop) fuel n s :
  (∀ n s, P n s → match step s with
                  | inl s' => ∃ n', 0 <= n' < n ∧ P n' s'
                  | inr r => Q r
                  end) →
  P n s → 0 <= n < Z.of_nat fuel → ∃ r, niter fuel s = inr r ∧ Q r.
Proof.
  intros Hstep. revert n s. induction fuel as [|fuel IH]; intros n s Hs Hn; [lia|].
  simpl. specialize (Hstep n s Hs). destruct (step s) as [s'|r]; [|eauto].
  destruct Hstep as (n' & Hn' & Hs'). apply (IH n'); [done|lia].
Qed.

(** Total correctness of a loop: an invariant with a rank below the fuel, or an
    invariant and a measure. *)
Lemma while_ranked (P : Z → S → Prop) (Q : R → Prop) n s :
  (∀ n s, P n s → match step s with
                  | inl s' => ∃ n', 0 <= n' < n ∧ P n' s'
                  | inr r => Q r
                  end) →
  P n s → 0 <= n < Zpos while_fuel → ∃ r, while step s = Some r ∧ Q r.
Proof.
  unfold while. generalize while_fuel as fuel. intros fuel Hstep Hs Hn.
  rewrite <- (positive_nat_Z fuel) in Hn.
  destruct (niter_ranked P Q (Pos.to_nat fuel) n s Hstep Hs Hn) as (r & Hr & HQ).
  exists r. by rewrite piter_niter, Hr.
Qed.

Lemma while_total (P : S → Prop) (Q : R → Prop) (mu : S → Z) s :
  (∀ s, P s → match step s with
              | inl s' => P s' ∧ 0 <= mu s' < mu s
              | inr r => Q r
              end) →
  P s → 0 <= mu s < Zpos while_fuel → ∃ r, while step s = Some r ∧ Q r.
Proof.
  intros Hstep Hs Hmu. apply (while_ranked (λ n s, P s ∧ mu s = n) Q (mu s)); [|done|done].
  intros n s' [Hs' <-]. specialize (Hstep s' Hs'). destruct (step s') as [s''|r]; [|done].
  exists (mu s''). tauto.
Qed.

(** Partial correctness: what holds of every way out of the loop. *)
Lemma while_partial (P : S → Prop) (Q : R → Prop) s r :
  (∀ s, P s → match step s with inl s' => P s' | inr r => Q r end) →
  P s → while step s = Some r → Q r.
Proof.
  unfold while. rewrite piter_niter. generalize (Pos.to_nat while_fuel) as n.
  intros n Hstep. revert s. induction n as [|n IH]; intros s Hs; simpl; [done|].
  specialize (Hstep s Hs). destruct (step s) as [s'|r']; [by apply IH|by intros [= <-]].
Qed.

(** A loop whose invariant never lets it leave does not end. *)
Lemma while_diverges (P : S → Prop) s :
  (∀ s, P s → ∃ s', step s = inl s' ∧ P s') → P s → while step s = None.
Proof.
  intros Hstep Hs. unfold while. rewrite piter_niter.
  generalize (Pos.to_nat while_fuel) as n. intros n.
  assert (∃ s', niter n s = inl s' ∧ P s') as (s' & -> & _); [|done]. revert s Hs.
  induction n as [|n IH]; intros s Hs; simpl; [eauto|].
  destruct (Hstep s Hs) as (s' & -> & Hs'). by apply IH.
Qed.
End Loops.

(** ** Lists that loops with a counter run through *)
Lemma find_app {A} (f : A → bool) l1 l2 :
  List.find f (l1 ++ l2) = match List.find f l1 with Some x => Some x | None => List.find f l2 end.
Proof. induction l1 as [|x l1 IH]; simpl; [done|]. by destruct (f x). Qed.

Lemma foldl_ext_in {A B} (f g : A → B → A) x l : (∀ y b, b ∈ l → f y b = g y b) → foldl f x l = foldl g x l.
Proof.
  revert x. induction l as [|b l IH]; intros x H; [done|]. cbn [foldl]. rewrite H by apply list_elem_of_here.
  apply IH. intros y c Hc. apply H, elem_of_cons. by right.
Qed.

Lemma find_ext_in {A} (f g : A → bool) l : (∀ x, In x l → f x = g x) → List.find f l = List.find g l.
Proof.
  induction l as [|x l IH]; intros H; simpl; [done|]. rewrite (H x) by (by left). by rewrite IH by (intros y Hy; apply H; by right).
Qed.

Lemma seqZ_split i n : 0 <= i < n → ∃ tl, seqZ 0 n = seqZ 0 i ++ i :: tl.
Proof.
  intros. eexists. replace n with (i + (n - i)) at 1 by lia. rewrite seqZ_app by lia. f_equal.
  by rewrite seqZ_cons by lia.
Qed.

Lemma foldl_seqZ_snoc {A} (f : A → Z → A) x n :
  0 <= n → foldl f x (seqZ 0 (n + 1)) = f (foldl f x (seqZ 0 n)) n.
Proof. intros. by rewrite seqZ_app, foldl_app by lia. Qed.

(** ** State and non-termination

    [ST St A]: a computation over the state [St] that gives a value and the new
    state, or [None] when it does not end. *)
Definition ST (St A : Type) : Type := St → option (A * St).

#[export] Instance ST_ret {St} : MRet (ST St) := λ A x s, Some (x, s).
#[export] Instance ST_bind {St} : MBind (ST St) := λ A B k c s,
  match c s with Some (x, s') => k x s' | None => None end.

Definition get {St} : ST St St := λ s, Some (s, s).
Definition gets {St A} (f : St → A) : ST St A := λ s, Some (f s, s).
Definition modify {St} (f : St → St) : ST St () := λ s, Some ((), f s).
Definition diverge {St A} : ST St A := λ _, None.
Definition lift {St A} (o : option A) : ST St A := λ s,
  match o with Some x => Some (x, s) | None => None end.

(** [if (c) then-branch], with nothing to do otherwise. *)
Definition when {St} (b : bool) (c : ST St ()) : ST St () := if b then c else mret ().

(** A loop whose body reads and writes the state. *)
Definition mwhile {St S R} (body : S → ST St (S + R)) (x : S) : ST St R := λ s,
  match
    while (λ '(x, s), match body x s with
                      | None => inr None
                      | Some (inl x', s') => inl (x', s')
                      | Some (inr r, s') => inr (Some (r, s'))
                      end) (x, s)
  with
  | Some r => r
  | None => None
  end.
#[global] Arguments mwhile : simpl never.

(** Leaving and continuing a loop. *)
Definition break {St S R} (r : R) : ST St (S + R) := mret (inr r).
Definition continue {St S R} (x : S) : ST St (S + R) := mret (inl x).

(** ** A total-correctness logic for [ST] *)
Definition wp {St A} (c : ST St A) (Q : A → St → Prop) (s : St) : Prop :=
  match c s with Some (x, s') => Q x s' | None => False end.

Section Wp.
Context {St : Type}.
Implicit Types s : St.

Lemma wp_run {A} (c : ST St A) (Q : A → St → Prop) s :
  wp c Q s ↔ ∃ x s', c s = Some (x, s') ∧ Q x s'.
Proof.
  unfold wp. destruct (c s) as [[x s']|]; [|by split; [|intros (? & ? & ? & _)]].
  split; [by eauto|]. intros (? & ? & [= <- <-] & ?); done.
Qed.

Lemma wp_mono {A} (c : ST St A) (Q Q' : A → St → Prop) s :
  wp c Q s → (∀ x s', Q x s' → Q' x s') → wp c Q' s.
Proof. unfold wp. destruct (c s) as [[??]|]; [by eauto|done]. Qed.

Lemma wp_ret {A} (x : A) (Q : A → St → Prop) s : Q x s → wp (mret x) Q s.
Proof. done. Qed.

Lemma wp_bind {A B} (c : ST St A) (k : A → ST St B) (Q : B → St → Prop) s :
  wp c (λ x s', wp (k x) Q s') s → wp (c ≫= k) Q s.
Proof. unfold wp, mbind, ST_bind. by destruct (c s) as [[??]|]. Qed.

Lemma bind_run {A B} (c : ST St A) (k : A → ST St B) x s s' :
  c s = Some (x, s') → (c ≫= k) s = k x s'.
Proof. unfold mbind, ST_bind. by intros ->. Qed.

Lemma wp_mwhile_ranked {S R} (body : S → ST St (S + R)) (P : Z → S → St → Prop) (Q : R → St → Prop) n x s :
  (∀ n x s, P n x s → wp (body x) (λ o s', match o with
                                           | inl x' => ∃ n', 0 <= n' < n ∧ P n' x' s'
                                           | inr r => Q r s'
                                           end) s) →
  P n x s → 0 <= n < Zpos while_fuel → wp (mwhile body x) Q s.
Proof.
  intros Hbody HP Hn. unfold wp, mwhile.
  edestruct (while_ranked (λ '(x, s), match body x s with
                    | None => inr None
                    | Some (inl x', s') => inl (x', s')
                    | Some (inr r, s') => inr (Some (r, s'))
                    end)
    (λ n '(x, s), P n x s) (λ o, ∃ r s', o = Some (r, s') ∧ Q r s') n (x, s)) as (o & -> & r & s' & -> & HQ);
    [|exact HP|exact Hn|exact HQ].
  intros n' [x' s'] HP'. specialize (Hbody n' x' s' HP'). unfold wp in Hbody.
  destruct (body x' s') as [[[x''|r] s'']|]; [done|eauto|done].
Qed.

Lemma wp_mwhile {S R} (body : S → ST St (S + R)) (P : S → St → Prop)
    (Q : R → St → Prop) (mu : S → St → Z) x s :
  (∀ x s, P x s → wp (body x) (λ o s', match o with
                                       | inl x' => P x' s' ∧ 0 <= mu x' s' < mu x s
                                       | inr r => Q r s'
                                       end) s) →
  P x s → 0 <= mu x s < Zpos while_fuel → wp (mwhile body x) Q s.
Proof.
  intros Hbody HP Hmu. apply (wp_mwhile_ranked _ (λ n x s, P x s ∧ mu x s = n) _ (mu x s)); [|done|done].
  intros n x' s' [Hx <-]. eapply wp_mono; [by apply Hbody|]. intros [x''|r] s''; [|done]. exists (mu x'' s''). tauto.
Qed.

Lemma mwhile_diverges {S R} (body : S → ST St (S + R)) (P : S → St → Prop) x s :
  (∀ x s, P x s → match body x s with
                  | Some (inl x', s') => P x' s'
                  | Some (inr _, _) => False
                  | None => True
                  end) →
  P x s → mwhile body x s = None.
Proof.
  intros Hbody HP. unfold mwhile. match goal with |- context [while ?f ?y] =>
    destruct (while f y) as [o|] eqn:E; [|done];
    enough (o = None) by done; revert E; apply (while_partial f (λ '(x, s), P x s) (λ o, o = None)); [|done] end.
  intros [x' s'] HP'. specialize (Hbody x' s' HP').
  by destruct (body x' s') as [[[x''|r] s'']|].
Qed.
(** A counting loop: [for (k = 0; k < n; k++) c(k);]. *)
Lemma wp_count (c : Z → ST St ()) n (P : Z → St → Prop) s :
  0 <= n < 4294967296 →
  (∀ k s, 0 <= k < n → P k s → wp (c k) (λ _ s', P (k + 1) s') s) → P 0 s →
  wp (mwhile (λ k, if k <? n then c k;; continue (k + 1) else break ()) 0) (λ _ s', P n s') s.
Proof.
  intros Hn Hc H0.
  apply (wp_mwhile _ (λ k s, 0 <= k <= n ∧ P k s) _ (λ k _, n - k)); [|split; [lia|done]|unfold while_fuel; lia].
  intros k t [Hk HP]. destruct (Z.ltb_spec k n).
  - apply wp_bind. eapply wp_mono; [apply Hc; [lia|done]|]. intros [] t' Ht. apply wp_ret.
    split; [split; [lia|done]|lia].
  - apply wp_ret. by replace n with k by lia.
Qed.
End Wp.

(** A step whose result is known, at the front of a run and inside [wp]. *)
Ltac run_with H := rewrite (bind_run _ _ _ _ _ H); cbv beta iota.
Ltac wp_known H := apply wp_bind; unfold wp at 1; rewrite H; cbv beta iota.
