(* ===== verification/Memory.v ===== *)
(** * The machine: flat 32-bit memory, the program's scalar globals, the console

    The boot loader runs without paging on a flat 32-bit address space: every
    address can be read and written.  Memory is a finite map from addresses to
    bytes, absent bytes being 0; an access of [n] bytes is [n] byte accesses,
    little-endian, each address taken modulo 2^32. *)
From S2P Require Import Prelude.

(** ** Little-endian words as byte lists *)
Fixpoint le_combine (l : list Z) : Z :=
  match l with [] => 0 | b :: l => u8 b + 256 * le_combine l end.
Fixpoint le_split (n : nat) (v : Z) : list Z :=
  match n with O => [] | S n => u8 v :: le_split n (v / 256) end.

(** A list of bytes. *)
Definition bytes (l : list Z) : Prop := Forall (λ b, 0 <= b < 256) l.

Lemma length_le_split n v : length (le_split n v) = n.
Proof. revert v. induction n; intros; simpl; auto. Qed.

Lemma bytes_le_split n v : bytes (le_split n v).
Proof.
  revert v. induction n as [|n IH]; intros v; constructor; [apply u8_range|apply IH].
Qed.

Lemma le_combine_split n v : le_combine (le_split n v) = v mod 256 ^ Z.of_nat n.
Proof.
  revert v. induction n as [|n IH]; intros v; [by rewrite Z.mod_1_r|].
  cbn [le_split le_combine]. rewrite IH, u8_idemp. unfold u8.
  rewrite Nat2Z.inj_succ, Z.pow_succ_r, Z.rem_mul_r by lia. lia.
Qed.

Lemma le_combine_range l : 0 <= le_combine l < 256 ^ Z.of_nat (length l).
Proof.
  induction l as [|b l IH]; [simpl; lia|]. cbn [le_combine length].
  rewrite Nat2Z.inj_succ, Z.pow_succ_r by lia. pose proof (u8_range b). lia.
Qed.

Lemma le_split_combine l : bytes l → le_split (length l) (le_combine l) = l.
Proof.
  induction 1 as [|b l Hb Hl IH]; [done|]. cbn [le_combine length le_split].
  rewrite (u8_small b) by done. f_equal.
  - word_lia.
  - etrans; [|exact IH]. f_equal. Z.div_mod_to_equations; lia.
Qed.

Lemma le_combine_app l1 l2 :
  le_combine (l1 ++ l2) = le_combine l1 + 256 ^ Z.of_nat (length l1) * le_combine l2.
Proof.
  induction l1 as [|b l IH]; [change (256 ^ Z.of_nat (length [])) with 1; simpl; ring|].
  cbn [app le_combine length]. rewrite IH, Nat2Z.inj_succ, Z.pow_succ_r by lia. ring.
Qed.

(** ** Memory *)
Definition ld8 (m : gmap Z Z) (a : Z) : Z := u8 (default 0 (m !! u32 a)).
Definition st8 (m : gmap Z Z) (a v : Z) : gmap Z Z := <[u32 a := u8 v]> m.

Fixpoint ld_bytes (m : gmap Z Z) (a : Z) (n : nat) : list Z :=
  match n with O => [] | S n => ld8 m a :: ld_bytes m (a + 1) n end.
Fixpoint st_bytes (m : gmap Z Z) (a : Z) (l : list Z) : gmap Z Z :=
  match l with [] => m | b :: l => st_bytes (st8 m a b) (a + 1) l end.

Definition ld (n : nat) (m : gmap Z Z) (a : Z) : Z := le_combine (ld_bytes m a n).
Definition st (n : nat) (m : gmap Z Z) (a v : Z) : gmap Z Z := st_bytes m a (le_split n v).

#[global] Arguments ld : simpl never.
#[global] Arguments st : simpl never.
#[global] Arguments ld8 : simpl never.
#[global] Arguments st8 : simpl never.

(** A region [a, a + n) that does not run past the end of the address space. *)
Definition in_space (a n : Z) : Prop := 0 <= a ∧ 0 <= n ∧ a + n <= 4294967296.
(** [b] lies outside the region [a, a + n). *)
Definition outside (a n b : Z) : Prop := b < a ∨ a + n <= b.
(** Two regions do not overlap. *)
Definition disjoint (a n b k : Z) : Prop := a + n <= b ∨ b + k <= a.

Create HintDb memory.
Create Rewrite HintDb memory_rw.

Lemma ld8_range m a : 0 <= ld8 m a < 256.
Proof. apply u8_range. Qed.

Lemma ld8_st8 m a v b :
  ld8 (st8 m a v) b = if decide (u32 a = u32 b) then u8 v else ld8 m b.
Proof.
  unfold ld8, st8. rewrite lookup_insert. case_decide; [|done].
  simpl. by rewrite u8_idemp.
Qed.

Lemma ld8_st8_eq m a v : ld8 (st8 m a v) a = u8 v.
Proof. rewrite ld8_st8. by case_decide. Qed.

Lemma ld8_st8_ne m a v b :
  0 <= a < 4294967296 → 0 <= b < 4294967296 → a ≠ b → ld8 (st8 m a v) b = ld8 m b.
Proof.
  intros. rewrite ld8_st8. case_decide as E; [|done]. by rewrite !u32_small in E.
Qed.

Lemma length_ld_bytes m a n : length (ld_bytes m a n) = n.
Proof. revert a. induction n; intros; simpl; auto. Qed.

Lemma bytes_ld_bytes m a n : bytes (ld_bytes m a n).
Proof.
  revert a. induction n as [|n IH]; intros a; constructor; [apply ld8_range|apply IH].
Qed.

Lemma lookup_ld_bytes m a n i :
  (i < n)%nat → ld_bytes m a n !! i = Some (ld8 m (a + Z.of_nat i)).
Proof.
  revert a i. induction n as [|n IH]; intros a i Hi; [lia|].
  destruct i as [|i]; simpl; [by rewrite Z.add_0_r|].
  rewrite IH by lia. do 2 f_equal. lia.
Qed.

(** Reading after writing a list of bytes. *)
Lemma ld8_st_bytes_out m a l b :
  in_space a (Z.of_nat (length l)) → 0 <= b < 4294967296 →
  outside a (Z.of_nat (length l)) b → ld8 (st_bytes m a l) b = ld8 m b.
Proof.
  unfold in_space, outside. revert m a. induction l as [|c l IH]; intros m a Ha Hb Ho; [done|].
  cbn [st_bytes length] in *. rewrite IH by lia. apply ld8_st8_ne; lia.
Qed.

Lemma ld8_st_bytes_in m a l i c :
  in_space a (Z.of_nat (length l)) → l !! i = Some c →
  ld8 (st_bytes m a l) (a + Z.of_nat i) = u8 c.
Proof.
  unfold in_space. revert m a i. induction l as [|d l IH]; intros m a i Ha Hi; [done|].
  cbn [st_bytes length] in *. destruct i as [|i]; simpl in Hi.
  - simplify_eq. rewrite Z.add_0_r, ld8_st_bytes_out, ld8_st8_eq; unfold in_space, outside; try lia.
  - replace (a + Z.of_nat (S i)) with (a + 1 + Z.of_nat i) by lia. apply IH; [lia|done].
Qed.

Lemma ld_bytes_ext m m' a n :
  (∀ i, 0 <= i < Z.of_nat n → ld8 m (a + i) = ld8 m' (a + i)) →
  ld_bytes m a n = ld_bytes m' a n.
Proof.
  intros H. apply list_eq. intros i. destruct (decide (i < n)%nat).
  - rewrite !lookup_ld_bytes by done. f_equal. apply H. lia.
  - rewrite !lookup_ge_None_2 by (rewrite length_ld_bytes; lia). done.
Qed.

Lemma ld_bytes_st_bytes_out m a l b n :
  in_space a (Z.of_nat (length l)) → in_space b (Z.of_nat n) →
  disjoint a (Z.of_nat (length l)) b (Z.of_nat n) →
  ld_bytes (st_bytes m a l) b n = ld_bytes m b n.
Proof.
  unfold disjoint. intros Ha Hb Hd. apply ld_bytes_ext. intros i Hi. unfold in_space in Hb.
  apply ld8_st_bytes_out; [done|lia|unfold outside; lia].
Qed.

Lemma ld_bytes_st_bytes_in m a l :
  in_space a (Z.of_nat (length l)) → bytes l → ld_bytes (st_bytes m a l) a (length l) = l.
Proof.
  intros Ha Hl. apply list_eq. intros i. destruct (decide (i < length l)%nat) as [Hi|Hi].
  - rewrite lookup_ld_bytes by done. apply lookup_lt_is_Some in Hi as [c Hc].
    rewrite Hc. f_equal. rewrite (ld8_st_bytes_in _ _ _ _ c) by done.
    apply u8_small. by eapply Forall_lookup_1 in Hl.
  - rewrite !lookup_ge_None_2 by (rewrite ?length_ld_bytes; lia). done.
Qed.

Lemma ld_bytes_app m a n k :
  ld_bytes m a (n + k) = ld_bytes m a n ++ ld_bytes m (a + Z.of_nat n) k.
Proof.
  revert a. induction n as [|n IH]; intros a; simpl; [by rewrite Z.add_0_r|].
  rewrite IH. do 3 f_equal. lia.
Qed.

Lemma ld_bytes_snoc m a n : ld_bytes m a (S n) = ld_bytes m a n ++ [ld8 m (a + Z.of_nat n)].
Proof. by rewrite <- Nat.add_1_r, ld_bytes_app. Qed.

Lemma st_bytes_app m a l1 l2 :
  st_bytes m a (l1 ++ l2) = st_bytes (st_bytes m a l1) (a + Z.of_nat (length l1)) l2.
Proof.
  revert m a. induction l1 as [|b l1 IH]; intros m a; simpl; [by rewrite Z.add_0_r|].
  rewrite IH. f_equal. lia.
Qed.

(** Words. *)
Lemma ld_range n m a : 0 <= ld n m a < 256 ^ Z.of_nat n.
Proof. pose proof (le_combine_range (ld_bytes m a n)) as H. by rewrite length_ld_bytes in H. Qed.

Lemma ld4_range m a : 0 <= ld 4 m a < 4294967296.
Proof. apply (ld_range 4). Qed.

Lemma ld_st_same n m a v :
  in_space a (Z.of_nat n) → ld n (st n m a v) a = v mod 256 ^ Z.of_nat n.
Proof.
  intros Ha. unfold ld, st. rewrite <- le_combine_split.
  pose proof (ld_bytes_st_bytes_in m a (le_split n v)) as H.
  rewrite length_le_split in H. by rewrite H by eauto using bytes_le_split.
Qed.

Lemma ld_st_bytes_other n m a l b :
  in_space a (Z.of_nat (length l)) → in_space b (Z.of_nat n) →
  disjoint a (Z.of_nat (length l)) b (Z.of_nat n) → ld n (st_bytes m a l) b = ld n m b.
Proof. intros. unfold ld. by rewrite ld_bytes_st_bytes_out. Qed.

Lemma ld_st_other n k m a v b :
  in_space a (Z.of_nat k) → in_space b (Z.of_nat n) →
  disjoint a (Z.of_nat k) b (Z.of_nat n) → ld n (st k m a v) b = ld n m b.
Proof. intros. apply ld_st_bytes_other; by rewrite ?length_le_split. Qed.

Lemma ld8_st_other k m a v b :
  in_space a (Z.of_nat k) → 0 <= b < 4294967296 → outside a (Z.of_nat k) b →
  ld8 (st k m a v) b = ld8 m b.
Proof. intros. apply ld8_st_bytes_out; rewrite ?length_le_split; done. Qed.

Lemma ld4_st4_same m a v : in_space a 4 → 0 <= v < 4294967296 → ld 4 (st 4 m a v) a = v.
Proof. intros. rewrite ld_st_same by done. by apply Z.mod_small. Qed.

#[export] Hint Resolve ld8_range ld_range ld4_range bytes_ld_bytes bytes_le_split : memory.
#[export] Hint Rewrite length_ld_bytes length_le_split : memory_rw.

(** ** Memories with the same readable contents *)
Definition mem_equiv (m m' : gmap Z Z) : Prop := ∀ a, ld8 m a = ld8 m' a.
Infix "≡ₘ" := mem_equiv (at level 70).

#[export] Instance mem_equiv_equivalence : Equivalence mem_equiv.
Proof. split; [done|intros ??? ?; done|intros ??? H1 H2 a; by rewrite H1]. Qed.

#[export] Instance ld8_proper : Proper (mem_equiv ==> eq ==> eq) ld8.
Proof. intros m m' H a ? <-. apply H. Qed.

#[export] Instance st8_proper : Proper (mem_equiv ==> eq ==> eq ==> mem_equiv) st8.
Proof. intros m m' H a ? <- v ? <- b. rewrite !ld8_st8. by case_decide. Qed.

#[export] Instance ld_bytes_proper : Proper (mem_equiv ==> eq ==> eq ==> eq) ld_bytes.
Proof. intros m m' H a ? <- n ? <-. apply ld_bytes_ext. intros. apply H. Qed.

#[export] Instance st_bytes_proper : Proper (mem_equiv ==> eq ==> eq ==> mem_equiv) st_bytes.
Proof.
  intros m m' H a ? <- l ? <-. revert m m' a H.
  induction l as [|b l IH]; intros m m' a H; simpl; [done|]. apply IH. by rewrite H.
Qed.

#[export] Instance ld_proper n : Proper (mem_equiv ==> eq ==> eq) (ld n).
Proof. intros m m' H a ? <-. unfold ld. by rewrite H. Qed.

#[export] Instance st_proper n : Proper (mem_equiv ==> eq ==> eq ==> mem_equiv) (st n).
Proof. intros m m' H a ? <- v ? <-. unfold st. by rewrite H. Qed.

(** Writing back what is there changes nothing. *)
Lemma st_bytes_ld_bytes m a n : st_bytes m a (ld_bytes m a n) ≡ₘ m.
Proof.
  assert (∀ n m m' a, m ≡ₘ m' → st_bytes m' a (ld_bytes m a n) ≡ₘ m) as Hgen; [|by apply Hgen].
  clear. induction n as [|n IH]; intros m m' a Hm; [done|]. cbn [ld_bytes st_bytes].
  apply IH. intros b. rewrite ld8_st8. case_decide as E; [|done].
  unfold ld8. by rewrite u8_idemp, E.
Qed.

(** ** The machine state *)
Record machine := Machine {
  mem : gmap Z Z;
  bl_heap : Z;               (* memory/heap.c *)
  occupied_blocks : Z;
  free_blocks : Z;
  bl_strtok_str : Z;         (* utils/string.c *)
  bl_print_callback : bool;  (* video/print.c: whether a callback is installed *)
  console : list Z;          (* what the callback was given, most recent last *)
}.

Definition M : Type → Type := ST machine.

Definition set_mem (m : gmap Z Z) (s : machine) : machine :=
  Machine m (bl_heap s) (occupied_blocks s) (free_blocks s)
    (bl_strtok_str s) (bl_print_callback s) (console s).
Definition with_mem (f : gmap Z Z → gmap Z Z) (s : machine) : machine := set_mem (f (mem s)) s.
Definition with_strtok (p : Z) (s : machine) : machine :=
  Machine (mem s) (bl_heap s) (occupied_blocks s) (free_blocks s)
    p (bl_print_callback s) (console s).
Definition with_heap (h o f : Z) (s : machine) : machine :=
  Machine (mem s) h o f (bl_strtok_str s) (bl_print_callback s) (console s).
Definition with_console (c : list Z) (s : machine) : machine :=
  Machine (mem s) (bl_heap s) (occupied_blocks s) (free_blocks s)
    (bl_strtok_str s) (bl_print_callback s) c.
Definition with_callback (b : bool) (s : machine) : machine :=
  Machine (mem s) (bl_heap s) (occupied_blocks s) (free_blocks s)
    (bl_strtok_str s) b (console s).

#[global] Arguments set_mem : simpl never.

(** Loads and stores: [*(uN * )p], and [*(char * )p], which is signed. *)
Definition rd8 (p : Z) : M Z := gets (λ s, ld8 (mem s) p).
Definition rds8 (p : Z) : M Z := gets (λ s, s8 (ld8 (mem s) p)).
Definition rd16 (p : Z) : M Z := gets (λ s, ld 2 (mem s) p).
Definition rd32 (p : Z) : M Z := gets (λ s, ld 4 (mem s) p).
Definition rd64 (p : Z) : M Z := gets (λ s, ld 8 (mem s) p).
Definition wr8 (p v : Z) : M () := modify (with_mem (λ m, st8 m p v)).
Definition wr16 (p v : Z) : M () := modify (with_mem (λ m, st 2 m p v)).
Definition wr32 (p v : Z) : M () := modify (with_mem (λ m, st 4 m p v)).
Definition wr64 (p v : Z) : M () := modify (with_mem (λ m, st 8 m p v)).
Definition rd_bytes (p : Z) (n : Z) : M (list Z) := gets (λ s, ld_bytes (mem s) p (Z.to_nat n)).
Definition wr_bytes (p : Z) (l : list Z) : M () := modify (with_mem (λ m, st_bytes m p l)).

(** [/] and [%] on unsigned operands: a zero divisor is an exception of the
    processor, from which the program does not come back. *)
Definition udiv (a b : Z) : M Z := if b =? 0 then diverge else mret (a / b).
Definition umod (a b : Z) : M Z := if b =? 0 then diverge else mret (a mod b).

(** A machine at rest, for concrete runs. *)
Definition machine0 : machine := Machine ∅ 0 0 0 0 true [].

(** ** Proof rules for the commands of [M] *)
Lemma wp_gets {A} (f : machine → A) (Q : A → machine → Prop) s :
  Q (f s) s → wp (gets f) Q s.
Proof. done. Qed.

Lemma wp_modify (f : machine → machine) (Q : () → machine → Prop) s :
  Q () (f s) → wp (modify f) Q s.
Proof. done. Qed.

Lemma wp_lift {A} (o : option A) x (Q : A → machine → Prop) s :
  o = Some x → Q x s → wp (lift o) Q s.
Proof. by intros ->. Qed.

Lemma mem_set_mem m s : mem (set_mem m s) = m.
Proof. done. Qed.
Lemma set_mem_set_mem m m' s : set_mem m (set_mem m' s) = set_mem m s.
Proof. done. Qed.
Lemma mem_with_mem f s : mem (with_mem f s) = f (mem s).
Proof. done. Qed.
#[export] Hint Rewrite mem_set_mem set_mem_set_mem mem_with_mem : memory_rw.

Lemma set_mem_id s : set_mem (mem s) s = s.
Proof. by destruct s. Qed.

(** A run that gives exactly this value and this state. *)
Lemma wp_exact {A} (c : M A) (v : A) s s' :
  wp c (λ x t, x = v ∧ t = s') s ↔ c s = Some (v, s').
Proof.
  unfold wp. destruct (c s) as [[x t]|]; [|done].
  split; [by intros [-> ->]|by intros [= -> ->]].
Qed.

Ltac wp_step :=
  lazymatch goal with
  | |- wp (mbind _ _) _ _ => apply wp_bind; cbv beta
  | |- wp (mret _) _ _ => apply wp_ret; cbv beta
  | |- wp (break _) _ _ => apply wp_ret; cbv beta iota
  | |- wp (continue _) _ _ => apply wp_ret; cbv beta iota
  | |- wp (rd8 _) _ _ => apply wp_gets; cbv beta
  | |- wp (rds8 _) _ _ => apply wp_gets; cbv beta
  | |- wp (rd16 _) _ _ => apply wp_gets; cbv beta
  | |- wp (rd32 _) _ _ => apply wp_gets; cbv beta
  | |- wp (rd64 _) _ _ => apply wp_gets; cbv beta
  | |- wp (gets _) _ _ => apply wp_gets; cbv beta
  | |- wp (rd_bytes _ _) _ _ => apply wp_gets; cbv beta
  | |- wp (wr8 _ _) _ _ => apply wp_modify; unfold with_mem at 1
  | |- wp (wr16 _ _) _ _ => apply wp_modify; unfold with_mem at 1
  | |- wp (wr32 _ _) _ _ => apply wp_modify; unfold with_mem at 1
  | |- wp (wr64 _ _) _ _ => apply wp_modify; unfold with_mem at 1
  | |- wp (wr_bytes _ _) _ _ => apply wp_modify; unfold with_mem at 1
  | |- wp (modify _) _ _ => apply wp_modify; cbv beta
  end.
Ltac wp_steps := repeat wp_step.
Ltac machine_simpl := autorewrite with memory_rw.

(** A loop with an invariant and a measure: the body, the entry, the bound. *)
Tactic Notation "wp_loop" uconstr(P) uconstr(mu) :=
  apply (wp_mwhile _ P _ mu); cbv beta iota; [| |unfold while_fuel].

(** ** Bytes written over bytes *)
Lemma ld8_u32 m a : ld8 m (u32 a) = ld8 m a.
Proof. unfold ld8. by rewrite u32_idemp. Qed.

Lemma ld8_st_bytes_lookup m a l b :
  in_space a (Z.of_nat (length l)) → 0 <= b < 4294967296 →
  ld8 (st_bytes m a l) b =
  if decide (a <= b < a + Z.of_nat (length l)) then u8 (nth (Z.to_nat (b - a)) l 0) else ld8 m b.
Proof.
  intros Ha Hb. case_decide as H.
  - destruct (lookup_lt_is_Some_2 l (Z.to_nat (b - a))) as [c Hc]; [lia|].
    replace b with (a + Z.of_nat (Z.to_nat (b - a))) at 1 by lia.
    rewrite (ld8_st_bytes_in _ _ _ _ c) by done. by rewrite (nth_lookup_Some _ _ 0 c).
  - apply ld8_st_bytes_out; [done|done|unfold outside; lia].
Qed.

(** A field of a structure that was just written. *)
Lemma st_bytes_over m a l b l' :
  in_space a (Z.of_nat (length l)) → a <= b → b + Z.of_nat (length l') <= a + Z.of_nat (length l) →
  let k := Z.to_nat (b - a) in
  st_bytes (st_bytes m a l) b l' ≡ₘ st_bytes m a (take k l ++ l' ++ drop (k + length l') l).
Proof.
  intros Ha Hb Hl k x. rewrite <- !(ld8_u32 _ x). pose proof (u32_range x) as Hx. generalize dependent (u32 x).
  clear x. intros x Hx. unfold in_space in *.
  assert (Hlen : length (take k l ++ l' ++ drop (k + length l') l) = length l).
  { rewrite !length_app, length_take, length_drop. lia. }
  rewrite !ld8_st_bytes_lookup; rewrite ?Hlen; unfold in_space; try lia.
  destruct (decide (b <= x < b + Z.of_nat (length l'))), (decide (a <= x < a + Z.of_nat (length l))); try lia.
  - f_equal. rewrite app_nth2; rewrite length_take; [|lia]. rewrite app_nth1 by lia. f_equal. lia.
  - f_equal. destruct (decide (x < b)).
    + rewrite app_nth1 by (rewrite length_take; lia). rewrite nth_firstn.
      by destruct (Nat.ltb_spec (Z.to_nat (x - a)) k); [|lia].
    + rewrite app_nth2; rewrite length_take; [|lia]. rewrite app_nth2 by lia. rewrite nth_skipn. f_equal. lia.
Qed.

(** Writes to separate regions commute. *)
Lemma st_bytes_swap m a l b l' :
  in_space a (Z.of_nat (length l)) → in_space b (Z.of_nat (length l')) →
  disjoint a (Z.of_nat (length l)) b (Z.of_nat (length l')) →
  st_bytes (st_bytes m a l) b l' ≡ₘ st_bytes (st_bytes m b l') a l.
Proof.
  intros Ha Hb Hd x. rewrite <- !(ld8_u32 _ x). pose proof (u32_range x) as Hx. generalize dependent (u32 x).
  clear x. intros x Hx. unfold disjoint in Hd. rewrite !ld8_st_bytes_lookup by done.
  repeat case_decide; (done || lia).
Qed.
