(* ===== verification/Regions.v ===== *)
(** * Regions of memory

    What drivers that share memory with hardware say about it: lists of
    regions that lie apart, and memories that agree outside of such a list. *)
From S2P Require Import Prelude Memory.

Definition apart (r q : Z * Z) : Prop := disjoint r.1 r.2 q.1 q.2.
Definition separate : list (Z * Z) → Prop := ForallOrdPairs apart.

Definition each_apart (rs qs : list (Z * Z)) : Prop := Forall (λ r, Forall (apart r) qs) rs.
Definition good_region (r : Z * Z) : Prop := r.1 ≠ 0 ∧ in_space r.1 r.2.

(** [m'] is [m] but for the regions [rs]. *)
Definition keeps (rs : list (Z * Z)) (m m' : gmap Z Z) : Prop :=
  ∀ a, 0 <= a < 4294967296 → Forall (λ r, outside r.1 r.2 a) rs → ld8 m' a = ld8 m a.

Lemma apart_sym r q : apart r q → apart q r.
Proof. unfold apart, disjoint. lia. Qed.

Lemma separate_apart rs i j r q :
  separate rs → (i < j)%nat → rs !! i = Some r → rs !! j = Some q → apart r q.
Proof.
  intros H. revert i j. induction H as [|x rs Hx H IH]; intros i j Hij Hi Hj; [done|].
  destruct j as [|j]; [lia|]. destruct i as [|i]; [injection Hi as <-|apply (IH i j); (done || lia)].
  rewrite List.Forall_forall in Hx. apply Hx. by eapply list_elem_of_In, list_elem_of_lookup_2.
Qed.

Lemma keeps_refl rs m : keeps rs m m.
Proof. done. Qed.
Lemma keeps_trans rs m1 m2 m3 : keeps rs m1 m2 → keeps rs m2 m3 → keeps rs m1 m3.
Proof. intros H1 H2 a Ha Ho. by rewrite H2, H1. Qed.
Lemma keeps_weaken rs rs' m m' : keeps rs m m' → rs ⊆ rs' → keeps rs' m m'.
Proof.
  intros H Hsub a Ha Ho. apply H; [done|]. rewrite Forall_forall in *. intros r Hr. by apply Ho, Hsub.
Qed.
Lemma keeps_st_bytes m a l : in_space a (Z.of_nat (length l)) → keeps [(a, Z.of_nat (length l))] m (st_bytes m a l).
Proof. intros Hs b Hb [Ho _]%Forall_cons. by apply ld8_st_bytes_out. Qed.

Lemma keeps_ld_bytes rs m m' b n :
  keeps rs m m' → in_space b (Z.of_nat n) → Forall (λ r, apart r (b, Z.of_nat n)) rs →
  ld_bytes m' b n = ld_bytes m b n.
Proof.
  intros H Hs Hd. apply ld_bytes_ext. intros i Hi. apply H; [unfold in_space in *; lia|].
  eapply Forall_impl; [exact Hd|]. intros r. unfold apart, disjoint, outside. cbn [fst snd]. lia.
Qed.
Lemma keeps_ld rs m m' b n :
  keeps rs m m' → in_space b (Z.of_nat n) → Forall (λ r, apart r (b, Z.of_nat n)) rs → ld n m' b = ld n m b.
Proof. intros. unfold ld. by erewrite keeps_ld_bytes. Qed.

(** Two memories with the same bytes in a region. *)
Definition same_on (a n : Z) (m m' : gmap Z Z) : Prop := ∀ x, a <= x < a + n → ld8 m' x = ld8 m x.

Lemma same_on_sub a n b k m m' : same_on a n m m' → a <= b → b + k <= a + n → same_on b k m m'.
Proof. intros H ? ? x Hx. apply H. lia. Qed.
Lemma same_on_ld_bytes m m' b n : same_on b (Z.of_nat n) m m' → ld_bytes m' b n = ld_bytes m b n.
Proof. intros H. apply ld_bytes_ext. intros i Hi. apply H. lia. Qed.
Lemma same_on_ld m m' b n : same_on b (Z.of_nat n) m m' → ld n m' b = ld n m b.
Proof. intros H. unfold ld. f_equal. by apply same_on_ld_bytes. Qed.
Lemma same_on_trans a n m m1 m2 : same_on a n m m1 → same_on a n m1 m2 → same_on a n m m2.
Proof. intros H1 H2 x Hx. by rewrite H2, H1. Qed.
Lemma keeps_same_on rs m m' a n :
  keeps rs m m' → in_space a n → Forall (λ r, apart r (a, n)) rs → same_on a n m m'.
Proof.
  intros H Hs Hd x Hx. apply H; [unfold in_space in *; lia|].
  eapply Forall_impl; [exact Hd|]. intros r. unfold apart, disjoint, outside. cbn [fst snd]. lia.
Qed.

(** Parts of a block that is read. *)
Lemma slice_ld_bytes m a k i n :
  (i + n <= k)%nat → take n (drop i (ld_bytes m a k)) = ld_bytes m (a + Z.of_nat i) n.
Proof.
  intros H. replace k with (i + (n + (k - i - n)))%nat by lia. rewrite !ld_bytes_app.
  rewrite drop_app_length', take_app_length'; by rewrite ?length_ld_bytes.
Qed.
Lemma take_ld_bytes m a k n : (n <= k)%nat → take n (ld_bytes m a k) = ld_bytes m a n.
Proof. intros. rewrite <- (drop_0 (ld_bytes m a k)), slice_ld_bytes by lia. by rewrite Z.add_0_r. Qed.
Lemma nth_of_ld_bytes m a k i : (i < k)%nat → nth i (ld_bytes m a k) 0 = ld8 m (a + Z.of_nat i).
Proof. intros. apply nth_lookup_Some. by apply lookup_ld_bytes. Qed.

Lemma apart_each rs qs r q : each_apart rs qs → r ∈ rs → q ∈ qs → apart r q.
Proof.
  unfold each_apart. rewrite Forall_forall. intros H Hr Hq. specialize (H r Hr). rewrite Forall_forall in H.
  by apply H.
Qed.

(** A write inside one of the regions. *)
Lemma keeps_st_in rs m m' n a v r :
  keeps rs m m' → in_space a (Z.of_nat n) → r ∈ rs → r.1 <= a → a + Z.of_nat n <= r.1 + r.2 →
  keeps rs m (st n m' a v).
Proof.
  intros Hk Ha Hr H1 H2 b Hb Ho. rewrite ld8_st_other; [by apply Hk|done..|].
  rewrite Forall_forall in Ho. specialize (Ho r Hr). unfold outside in *. lia.
Qed.

(** A block with some of its bytes overwritten. *)
Definition patch {A} (L : list A) (w : nat * list A) : list A :=
  take w.1 L ++ w.2 ++ drop (w.1 + length w.2) L.
Lemma ld_bytes_patch m a k i l :
  in_space a (Z.of_nat k) → (i + length l <= k)%nat → bytes l →
  ld_bytes (st_bytes m (a + Z.of_nat i) l) a k = patch (ld_bytes m a k) (i, l).
Proof.
  intros Ha Hi Hl. rewrite <- (st_bytes_ld_bytes m a k) at 1.
  assert (Hlen : length (ld_bytes m a k) = k) by apply length_ld_bytes.
  rewrite st_bytes_over by (rewrite ?Hlen; (done || lia)).
  replace (Z.to_nat (a + Z.of_nat i - a)) with i by lia. fold (patch (ld_bytes m a k) (i, l)).
  assert (Hk : length (patch (ld_bytes m a k) (i, l)) = k).
  { unfold patch. cbn [fst snd]. rewrite !length_app, length_take, length_drop, Hlen. lia. }
  pose proof (ld_bytes_st_bytes_in m a (patch (ld_bytes m a k) (i, l))) as E. rewrite Hk in E.
  apply E; [done|]. unfold patch, bytes. cbn [fst snd]. pose proof (bytes_ld_bytes m a k).
  rewrite !Forall_app. split; [by apply Forall_take|]. split; [done|]. by apply Forall_drop.
Qed.

(** ** Facts about a field go through the writes around it *)
Lemma st8_bytes m a v : st8 m a v = st_bytes m a [v].
Proof. done. Qed.
Lemma ld8_one_byte m a v : ld8 (st_bytes m a [v]) a = u8 v.
Proof. apply (ld8_st8_eq m a v). Qed.

Lemma ld_bytes_st_same n m a v : in_space a (Z.of_nat n) → ld_bytes (st n m a v) a n = le_split n v.
Proof.
  intros H. unfold st. pose proof (ld_bytes_st_bytes_in m a (le_split n v)) as E. rewrite length_le_split in E.
  apply E; [done|apply bytes_le_split].
Qed.
Lemma ld_bytes_st_other n k m a v b :
  in_space a (Z.of_nat k) → in_space b (Z.of_nat n) → disjoint a (Z.of_nat k) b (Z.of_nat n) →
  ld_bytes (st k m a v) b n = ld_bytes m b n.
Proof. intros. apply ld_bytes_st_bytes_out; by rewrite ?length_le_split. Qed.

Ltac field_side :=
  rewrite ?length_le_split, ?length_replicate, ?length_ld_bytes; cbn [length];
  unfold apart, in_space, disjoint, outside in *; cbn [fst snd] in *; lia.
Ltac past_writes :=
  rewrite ?st8_bytes;
  repeat first [rewrite ld_st_other by field_side | rewrite ld_st_bytes_other by field_side
               | rewrite ld8_st_other by field_side | rewrite ld8_st_bytes_out by field_side
               | rewrite ld_bytes_st_other by field_side | rewrite ld_bytes_st_bytes_out by field_side].

(** Inclusion between lists of regions. *)
Ltac sublist :=
  let x := fresh in let H := fresh in
  intros x H; rewrite ?elem_of_app in *; rewrite ?list_elem_of_In in *; cbn [In] in *;
  rewrite ?in_app_iff in *; cbn [In app] in *; tauto.

(** The same, decided by computation. *)
Definition apartb (r q : Z * Z) : bool := (r.1 + r.2 <=? q.1) || (q.1 + q.2 <=? r.1).
Lemma apartb_ok r q : apartb r q = true → apart r q.
Proof. unfold apartb, apart, disjoint. rewrite orb_true_iff, !Z.leb_le. done. Qed.
Lemma each_apart_here rs qs : forallb (λ r, forallb (apartb r) qs) rs = true → each_apart rs qs.
Proof.
  rewrite forallb_forall. intros H. apply Forall_forall. intros r Hr. apply list_elem_of_In, H in Hr.
  rewrite forallb_forall in Hr. apply Forall_forall. intros q Hq. apply apartb_ok, Hr. by apply list_elem_of_In.
Qed.

(** Facts about concrete regions. *)
Ltac concrete_regions :=
  unfold separate, each_apart; cbn [app];
  repeat lazymatch goal with
  | |- Forall _ [] => constructor
  | |- Forall _ (_ :: _) => apply Forall_cons; split
  | |- ForallOrdPairs _ _ => constructor
  | |- _ ∧ _ => split
  | |- apart _ _ => first [left; by vm_compute | right; by vm_compute]
  | |- good_region _ => by vm_compute
  end.
