(* ===== verification/Arith.v ===== *)
(** * Integer helpers: core/utils/log2.c, core/utils/divmod64.c and the byte
    swaps of include/types.h *)
From S2P Require Import Prelude Memory.

(** ** [bl_log2] *)
Definition bl_log2 (n : Z) : option Z :=
  if n =? 0 then Some (-1)
  else if truth (Z.land n (u32 (n - 1))) then Some (-1)
  else
    while (λ '(i, n), if Z.land n 1 =? 0 then inl (i + 1, Z.shiftr n 1) else inr i)
      (0, n).

(** [bl_log2] as the amount of a shift: it always ends ([bl_log2_spec]). *)
Definition log2_shift (n : Z) : Z := default (-1) (bl_log2 n).

(** ** [bl_divmod64]: restoring division, one bit per round *)
Definition divmod64_step (d : Z) (x : Z * Z * Z) : Z * Z * Z :=
  let '(n, q, r) := x in
  let r := u64 (Z.shiftl r 1) in
  let r := if truth (Z.land n (Z.shiftl 1 63)) then Z.lor r 1 else r in
  let q := u64 (Z.shiftl q 1) in
  let n := u64 (Z.shiftl n 1) in
  if d <=? r then (n, Z.lor q 1, u64 (r - d)) else (n, q, r).

(** The loop: [(q, r)] after the 64 rounds. *)
Definition divmod64 (n d : Z) : Z * Z :=
  let '(_, q, r) := Nat.iter 64 (divmod64_step d) (n, 0, 0) in (q, r).

Definition bl_divmod64 (n d q r : Z) : M () :=
  let '(_q, _r) := divmod64 n d in
  when (truth q) (wr64 q _q);;
  when (truth r) (wr64 r _r).

(** ** Byte swaps *)
Definition bytes_swap16 (val : Z) : Z :=
  u16 (Z.lor (Z.shiftl (Z.land val 255) 8) (Z.shiftr val 8)).

Definition bytes_swap32 (val : Z) : Z :=
  u32 (Z.lor (Z.lor (Z.lor
    (Z.shiftl (Z.land val 255) 24)
    (Z.shiftl (Z.land (Z.shiftr val 8) 255) 16))
    (Z.shiftl (Z.land (Z.shiftr val 16) 255) 8))
    (Z.shiftr val 24)).

Definition bytes_swap64 (val : Z) : Z :=
  u64 (Z.lor (Z.lor (Z.lor (Z.lor (Z.lor (Z.lor (Z.lor
    (Z.shiftl (Z.land val 255) 56)
    (Z.shiftl (Z.land (Z.shiftr val 8) 255) 48))
    (Z.shiftl (Z.land (Z.shiftr val 16) 255) 40))
    (Z.shiftl (Z.land (Z.shiftr val 24) 255) 32))
    (Z.shiftl (Z.land (Z.shiftr val 32) 255) 24))
    (Z.shiftl (Z.land (Z.shiftr val 40) 255) 16))
    (Z.shiftl (Z.land (Z.shiftr val 48) 255) 8))
    (Z.land (Z.shiftr val 58) 255)).

(** ** Powers of two *)
Definition power_of_two (n : Z) : Prop := ∃ k, 0 <= k ∧ n = 2 ^ k.

Lemma land_pred_pow2 k : 0 <= k → Z.land (2 ^ k) (2 ^ k - 1) = 0.
Proof.
  intros. replace (2 ^ k - 1) with (Z.ones k) by (rewrite Z.ones_equiv; lia).
  rewrite Z.land_ones by done. by apply Z.mod_same, Z.pow_nonzero.
Qed.

(** [n & (n - 1)] clears the lowest set bit, so it is 0 only for powers of two. *)
Lemma land_pred_zero n : 0 < n → Z.land n (n - 1) = 0 → power_of_two n.
Proof.
  intros Hn Hl. exists (Z.log2 n). split; [apply Z.log2_nonneg|].
  pose proof (Z.log2_spec n Hn) as [Hlo Hhi]. pose proof (Z.log2_nonneg n) as Hnn.
  destruct (decide (n = 2 ^ Z.log2 n)) as [|Hne]; [done|exfalso].
  assert (Z.log2 (n - 1) = Z.log2 n) as Hlog by (apply Z.log2_unique; lia).
  assert (Z.testbit (Z.land n (n - 1)) (Z.log2 n) = true) as Hb.
  { rewrite Z.land_spec, Z.bit_log2 by done. rewrite <- Hlog.
    rewrite Z.bit_log2; [done|]. pose proof (Z.pow_pos_nonneg 2 (Z.log2 n)).
    pose proof (Z.log2_nonneg n). lia. }
  rewrite Hl, Z.bits_0 in Hb. done.
Qed.

Lemma land_1_mod n : Z.land n 1 = n mod 2.
Proof. change 1 with (Z.ones 1). by rewrite Z.land_ones. Qed.

(** The shift loop of [bl_log2], started in its middle. *)
Lemma log2_loop k : 0 <= k < 32 →
  while (λ '(i, n), if Z.land n 1 =? 0 then inl (i + 1, Z.shiftr n 1) else inr i)
    (0, 2 ^ k) = Some k.
Proof.
  intros Hk.
  destruct (while_total
    (λ '(i, n), if Z.land n 1 =? 0 then inl (i + 1, Z.shiftr n 1) else inr i)
    (λ '(i, n), 0 <= i <= k ∧ n = 2 ^ (k - i)) (λ r, r = k)
    (λ '(i, n), k - i) (0, 2 ^ k)) as (r & -> & ->); [| | |done].
  - intros [i n] [Hi ->]. rewrite land_1_mod, Z.shiftr_div_pow2 by lia.
    destruct (decide (i = k)) as [->|Hne].
    + by rewrite Z.sub_diag.
    + replace (k - i) with (Z.succ (k - i - 1)) by lia.
      rewrite Z.pow_succ_r, Z.mul_comm, Z.mod_mul by lia. simpl.
      rewrite Z.pow_1_r, Z.div_mul by lia.
      replace (k - (i + 1)) with (k - i - 1) by lia. lia.
  - split; [lia|]. by rewrite Z.sub_0_r.
  - unfold while_fuel. lia.
Qed.

(** C-prep: on 32-bit arguments [bl_log2] gives the exponent of a power of two
    and -1 on everything else, 0 included. *)
Lemma bl_log2_pow2 k : 0 <= k < 32 → bl_log2 (2 ^ k) = Some k.
Proof.
  intros Hk. unfold bl_log2.
  assert (0 < 2 ^ k) by (apply Z.pow_pos_nonneg; lia).
  assert (2 ^ k <= 2 ^ 31) by (apply Z.pow_le_mono_r; lia).
  destruct (Z.eqb_spec (2 ^ k) 0) as [|_]; [lia|].
  rewrite u32_small, land_pred_pow2 by lia. by apply log2_loop.
Qed.

Lemma bl_log2_other n :
  0 <= n < 4294967296 → (∀ k, 0 <= k < 32 → n ≠ 2 ^ k) → bl_log2 n = Some (-1).
Proof.
  intros Hn Hno. unfold bl_log2. destruct (Z.eqb_spec n 0) as [|Hn0]; [done|].
  rewrite u32_small by lia. unfold truth.
  destruct (Z.eqb_spec (Z.land n (n - 1)) 0) as [Hl|]; [|done]. exfalso.
  destruct (land_pred_zero n) as (k & Hk & ->); [lia|done|].
  destruct (decide (k < 32)) as [|Hge]; [by eapply Hno|].
  assert (2 ^ 32 <= 2 ^ k) by (apply Z.pow_le_mono_r; lia). lia.
Qed.

(** ** Division *)
Lemma truth_land_bit n k : 0 <= k → truth (Z.land n (Z.shiftl 1 k)) = Z.testbit n k.
Proof.
  intros Hk. rewrite Z.shiftl_1_l.
  assert (Z.land n (2 ^ k) = if Z.testbit n k then 2 ^ k else 0) as ->.
  { apply Z.bits_inj'. intros i Hi. rewrite Z.land_spec, Z.pow2_bits_eqb by lia.
    destruct (Z.eqb_spec k i) as [<-|].
    - destruct (Z.testbit n k); [by rewrite Z.pow2_bits_true|by rewrite Z.bits_0].
    - destruct (Z.testbit n k); [by rewrite Z.pow2_bits_false, andb_false_r|].
      by rewrite Z.bits_0, andb_false_r. }
  pose proof (Z.pow_pos_nonneg 2 k). unfold truth.
  destruct (Z.testbit n k); [|done]. by destruct (Z.eqb_spec (2 ^ k) 0); [lia|].
Qed.

Lemma lor_1_even x : Z.lor (2 * x) 1 = 2 * x + 1.
Proof.
  rewrite <- Z.lxor_lor, <- Z.add_nocarry_lxor; [done|..];
    by rewrite land_1_mod, Z.mul_comm, Z.mod_mul.
Qed.

Lemma shiftr_step n k : 0 <= k →
  Z.shiftr n k = 2 * Z.shiftr n (k + 1) + Z.b2z (Z.testbit n k).
Proof.
  intros Hk. rewrite <- Z.shiftr_shiftr by lia.
  rewrite <- (Z.div2_spec (Z.shiftr n k)), <- (Z.add_0_l k) at 1.
  rewrite (Z.div2_odd (Z.shiftr n (0 + k))) at 1. rewrite Z.add_0_l. f_equal.
  by rewrite <- Z.bit0_odd, Z.shiftr_spec, Z.add_0_l by lia.
Qed.

(** One round, once the bit shifted out of [n] is known. *)
Lemma divmod64_step_spec n d t :
  0 < d < 2 ^ 64 → 0 <= t < 2 ^ 63 →
  let t' := 2 * t + Z.b2z (Z.testbit n 63) in
  divmod64_step d (n, t / d, t mod d) = (u64 (2 * n), t' / d, t' mod d).
Proof.
  intros Hd Ht t'. unfold divmod64_step. rewrite truth_land_bit by lia.
  pose proof (Z.div_mod t d) as Hdm. pose proof (Z.mod_pos_bound t d) as Hm.
  assert (0 <= t / d <= t) by (split; [apply Z.div_pos|apply Z.div_le_upper_bound]; nia).
  assert (t mod d <= t) by (apply Z.mod_le; lia).
  rewrite !Z.shiftl_mul_pow2, !Z.pow_1_r, !(Z.mul_comm _ 2) by lia.
  rewrite (u64_small (2 * (t mod d))), (u64_small (2 * (t / d))) by lia.
  rewrite !lor_1_even.
  assert ((if Z.testbit n 63 then 2 * (t mod d) + 1 else 2 * (t mod d))
          = 2 * (t mod d) + Z.b2z (Z.testbit n 63)) as -> by (destruct (Z.testbit n 63); simpl; lia).
  assert (0 <= Z.b2z (Z.testbit n 63) <= 1) by (destruct (Z.testbit n 63); simpl; lia).
  set (r := 2 * (t mod d) + Z.b2z (Z.testbit n 63)) in *.
  destruct (Z.leb_spec d r) as [Hle|Hgt].
  - assert (2 * (t / d) + 1 = t' / d) as ->.
    { apply Z.div_unique with (r - d); unfold r, t' in *; [lia|nia]. }
    assert (u64 (r - d) = t' mod d) as ->; [|done].
    rewrite u64_small by lia.
    apply Z.mod_unique with (2 * (t / d) + 1); unfold r, t' in *; [lia|nia].
  - assert (2 * (t / d) = t' / d) as ->.
    { apply Z.div_unique with r; unfold r, t' in *; [lia|nia]. }
    assert (r = t' mod d) as ->; [|done].
    apply Z.mod_unique with (2 * (t / d)); unfold r, t' in *; [lia|nia].
Qed.

Lemma testbit_shifted n i : 0 <= i < 64 → Z.testbit (u64 (n * 2 ^ i)) 63 = Z.testbit n (63 - i).
Proof.
  intros Hi. change (u64 (n * 2 ^ i)) with ((n * 2 ^ i) mod 2 ^ 64).
  rewrite Z.mod_pow2_bits_low, Z.mul_pow2_bits by lia. done.
Qed.

(** After [i] rounds the quotient and the remainder are those of the top [i]
    bits of [n], and the rest of [n] has moved to the top. *)
Lemma divmod64_rounds n d (i : nat) :
  0 <= n < 2 ^ 64 → 0 < d < 2 ^ 64 → (i <= 64)%nat →
  let t := Z.shiftr n (64 - Z.of_nat i) in
  Nat.iter i (divmod64_step d) (n, 0, 0) = (u64 (n * 2 ^ Z.of_nat i), t / d, t mod d).
Proof.
  intros Hn Hd. induction i as [|i IH]; intros Hi t.
  { subst t. simpl Nat.iter. rewrite Z.shiftr_div_pow2 by lia.
    change (64 - Z.of_nat 0) with 64. rewrite (Z.div_small n) by lia.
    by rewrite Z.mul_1_r, u64_small, Z.div_0_l, Z.mod_0_l by lia. }
  rewrite Nat.iter_succ, IH by lia. clear IH.
  rewrite divmod64_step_spec, testbit_shifted; [..|].
  - replace (64 - Z.of_nat i) with (63 - Z.of_nat i + 1) by lia.
    rewrite <- shiftr_step by lia. subst t.
    replace (64 - Z.of_nat (S i)) with (63 - Z.of_nat i) by lia. do 2 f_equal.
    unfold u64. rewrite Zmult_mod_idemp_r. f_equal.
    rewrite Nat2Z.inj_succ, Z.pow_succ_r by lia. ring.
  - lia.
  - done.
  - rewrite Z.shiftr_div_pow2 by lia.
    assert (2 ^ 64 = 2 ^ (64 - Z.of_nat i) * 2 ^ Z.of_nat i)
      by (rewrite <- Z.pow_add_r by lia; f_equal; lia).
    assert (2 ^ Z.of_nat i <= 2 ^ 63) by (apply Z.pow_le_mono_r; lia).
    assert (0 < 2 ^ (64 - Z.of_nat i)) by (apply Z.pow_pos_nonneg; lia).
    split; [apply Z.div_pos; lia|apply Z.div_lt_upper_bound; nia].
Qed.

Lemma divmod64_correct n d :
  0 <= n < 2 ^ 64 → 0 < d < 2 ^ 64 → divmod64 n d = (n / d, n mod d).
Proof.
  intros Hn Hd. unfold divmod64. rewrite divmod64_rounds by (done || lia).
  change (64 - Z.of_nat 64) with 0. by rewrite Z.shiftr_0_r.
Qed.

(** ** Byte swaps *)
Lemma land_255 x : Z.land x 255 = u8 x.
Proof. change 255 with (Z.ones 8). by rewrite Z.land_ones. Qed.

(** [(hi << k) | lo] puts [lo] below [hi]. *)
Lemma lor_shiftl_add hi lo k :
  0 <= k → 0 <= lo < 2 ^ k → Z.lor (Z.shiftl hi k) lo = hi * 2 ^ k + lo.
Proof.
  intros Hk Hlo. rewrite <- Z.shiftl_mul_pow2 by lia.
  assert (Z.land (Z.shiftl hi k) lo = 0) as Hz.
  { apply Z.bits_inj'. intros i Hi. rewrite Z.land_spec, Z.bits_0, Z.shiftl_spec by lia.
    destruct (decide (i < k)).
    - rewrite Z.testbit_neg_r by lia. done.
    - rewrite <- (Z.mod_small lo (2 ^ k)), Z.mod_pow2_bits_high by lia. apply andb_false_r. }
  by rewrite <- Z.lxor_lor, <- Z.add_nocarry_lxor.
Qed.

(** Gluing bytes, most significant first, the way the swaps do. *)
Definition glue (hi lo : Z) : Z := Z.lor (Z.shiftl hi 8) lo.

Lemma glue_add hi lo : 0 <= lo < 256 → glue hi lo = 256 * hi + lo.
Proof. intros. unfold glue. rewrite lor_shiftl_add by lia. lia. Qed.

Ltac swap_bytes :=
  rewrite ?Z.shiftr_div_pow2, ?land_255 by lia; unfold u8; change (2 ^ 8) with 256;
  change (2 ^ 16) with 65536; change (2 ^ 24) with 16777216;
  Z.div_mod_to_equations; lia.

Lemma bytes_swap16_spec b0 b1 : bytes [b0; b1] →
  bytes_swap16 (le_combine [b0; b1]) = le_combine [b1; b0].
Proof.
  unfold bytes. rewrite !Forall_cons. intros (H0 & H1 & _).
  cbn [le_combine]. rewrite !u8_small by done.
  set (v := b0 + 256 * (b1 + 256 * 0)).
  assert (Z.land v 255 = b0) as E0 by (unfold v; swap_bytes).
  assert (Z.shiftr v 8 = b1) as E1 by (unfold v; swap_bytes).
  unfold bytes_swap16. rewrite E0, E1. change (Z.lor (Z.shiftl b0 8) b1) with (glue b0 b1).
  rewrite glue_add by done. rewrite u16_small; lia.
Qed.

Lemma bytes_swap32_spec b0 b1 b2 b3 : bytes [b0; b1; b2; b3] →
  bytes_swap32 (le_combine [b0; b1; b2; b3]) = le_combine [b3; b2; b1; b0].
Proof.
  unfold bytes. rewrite !Forall_cons. intros (H0 & H1 & H2 & H3 & _).
  cbn [le_combine]. rewrite !u8_small by done.
  set (v := b0 + 256 * (b1 + 256 * (b2 + 256 * (b3 + 256 * 0)))).
  assert (Z.land v 255 = b0) as E0 by (unfold v; swap_bytes).
  assert (Z.land (Z.shiftr v 8) 255 = b1) as E1 by (unfold v; swap_bytes).
  assert (Z.land (Z.shiftr v 16) 255 = b2) as E2 by (unfold v; swap_bytes).
  assert (Z.shiftr v 24 = b3) as E3 by (unfold v; swap_bytes).
  unfold bytes_swap32. rewrite E0, E1, E2, E3.
  assert (∀ a b c d, Z.lor (Z.lor (Z.lor (Z.shiftl a 24) (Z.shiftl b 16)) (Z.shiftl c 8)) d
          = glue (glue (glue a b) c) d) as ->.
  { intros. unfold glue. by rewrite !Z.shiftl_lor, !Z.shiftl_shiftl by lia. }
  rewrite !glue_add by done. rewrite u32_small; lia.
Qed.

(** [bytes_swap64] shifts by 58 where the top byte needs 56: it loses the low
    two bits of that byte. *)
Lemma bytes_swap64_spec b0 b1 b2 b3 b4 b5 b6 b7 : bytes [b0; b1; b2; b3; b4; b5; b6; b7] →
  bytes_swap64 (le_combine [b0; b1; b2; b3; b4; b5; b6; b7]) =
  le_combine [b7 / 4; b6; b5; b4; b3; b2; b1; b0].
Proof.
  unfold bytes. rewrite !Forall_cons. intros (H0 & H1 & H2 & H3 & H4 & H5 & H6 & H7 & _).
  assert (0 <= b7 / 4 < 256) by (Z.div_mod_to_equations; lia).
  cbn [le_combine]. rewrite !u8_small by done.
  set (w := b4 + 256 * (b5 + 256 * (b6 + 256 * (b7 + 256 * 0)))).
  set (v := b0 + 256 * (b1 + 256 * (b2 + 256 * (b3 + 256 * w)))).
  assert (Hw : ∀ k, 0 <= k → Z.shiftr v (32 + k) = Z.shiftr w k).
  { intros k Hk. rewrite <- Z.shiftr_shiftr by lia. f_equal. unfold v.
    rewrite Z.shiftr_div_pow2 by lia. change (2 ^ 32) with 4294967296.
    Z.div_mod_to_equations; lia. }
  assert (Z.land v 255 = b0) as E0 by (unfold v; swap_bytes).
  assert (Z.land (Z.shiftr v 8) 255 = b1) as E1 by (unfold v; swap_bytes).
  assert (Z.land (Z.shiftr v 16) 255 = b2) as E2 by (unfold v; swap_bytes).
  assert (Z.land (Z.shiftr v 24) 255 = b3) as E3 by (unfold v; swap_bytes).
  assert (Z.land (Z.shiftr v 32) 255 = b4) as E4.
  { rewrite (Hw 0 ltac:(lia) : Z.shiftr v 32 = Z.shiftr w 0), Z.shiftr_0_r. unfold w; swap_bytes. }
  assert (Z.land (Z.shiftr v 40) 255 = b5) as E5.
  { rewrite (Hw 8 ltac:(lia) : Z.shiftr v 40 = Z.shiftr w 8). unfold w; swap_bytes. }
  assert (Z.land (Z.shiftr v 48) 255 = b6) as E6.
  { rewrite (Hw 16 ltac:(lia) : Z.shiftr v 48 = Z.shiftr w 16). unfold w; swap_bytes. }
  assert (Z.land (Z.shiftr v 58) 255 = b7 / 4) as E7.
  { rewrite (Hw 26 ltac:(lia) : Z.shiftr v 58 = Z.shiftr w 26). unfold w. rewrite Z.shiftr_div_pow2, land_255 by lia. unfold u8.
    change (2 ^ 26) with 67108864. Z.div_mod_to_equations; lia. }
  unfold bytes_swap64. rewrite E0, E1, E2, E3, E4, E5, E6, E7.
  assert (∀ a b c d e f g h, Z.lor (Z.lor (Z.lor (Z.lor (Z.lor (Z.lor (Z.lor
    (Z.shiftl a 56) (Z.shiftl b 48)) (Z.shiftl c 40)) (Z.shiftl d 32)) (Z.shiftl e 24))
    (Z.shiftl f 16)) (Z.shiftl g 8)) h
    = glue (glue (glue (glue (glue (glue (glue a b) c) d) e) f) g) h) as ->.
  { intros. unfold glue. by rewrite !Z.shiftl_lor, !Z.shiftl_shiftl by lia. }
  rewrite !glue_add by done. rewrite u64_small; lia.
Qed.

(** ** Properties *)

(** On every 32-bit argument [bl_log2] ends; it gives the exponent of a power
    of two and -1 on everything else, 0 included. *)
Theorem bl_log2_spec n :
  0 <= n < 4294967296 →
  ∃ r, bl_log2 n = Some r ∧
    ((0 <= r < 32 ∧ n = 2 ^ r) ∨ (r = -1 ∧ ∀ k, 0 <= k → n ≠ 2 ^ k)).
Proof.
  intros Hn. destruct (decide (0 < n)) as [Hpos|].
  - destruct (decide (n = 2 ^ Z.log2 n)) as [E|Hne].
    + assert (Z.log2 n < 32) by (apply Z.log2_lt_pow2; lia).
      pose proof (Z.log2_nonneg n). exists (Z.log2 n). split; [|left; done].
      rewrite E at 1. by apply bl_log2_pow2.
    + assert (∀ k, 0 <= k → n ≠ 2 ^ k) as Hno.
      { intros k Hk ->. by rewrite Z.log2_pow2 in Hne. }
      exists (-1). split; [|by right]. apply bl_log2_other; [done|]. intros k Hk. apply Hno. lia.
  - assert (n = 0) as -> by lia. exists (-1). split; [done|]. right. split; [done|].
    intros k Hk. pose proof (Z.pow_pos_nonneg 2 k). lia.
Qed.

Lemma bl_log2_spec_witness :
  ∃ r, bl_log2 4096 = Some r ∧
    ((0 <= r < 32 ∧ 4096 = 2 ^ r) ∨ (r = -1 ∧ ∀ k, 0 <= k → 4096 ≠ 2 ^ k)).
Proof. apply (bl_log2_spec 4096). lia. Defined.

(** [bl_divmod64] stores the quotient and the remainder of its 64-bit
    operands through the two pointers, for every non-zero divisor: the shifted
    remainder never overflows, even for divisors above 2^63. *)
Theorem bl_divmod64_correct s n d q r :
  0 <= n < 2 ^ 64 → 0 < d < 2 ^ 64 → q ≠ 0 → r ≠ 0 →
  in_space q 8 → in_space r 8 → disjoint q 8 r 8 →
  ∃ s', bl_divmod64 n d q r s = Some ((), s') ∧
    ld 8 (mem s') q = n / d ∧ ld 8 (mem s') r = n mod d ∧
    ∀ a, 0 <= a < 4294967296 → outside q 8 a → outside r 8 a → ld8 (mem s') a = ld8 (mem s) a.
Proof.
  intros Hn Hd Hq0 Hr0 Hq Hr Hdis. unfold bl_divmod64. rewrite divmod64_correct by done.
  rewrite !truth_nz by done. eexists. split; [done|]. cbn -[ld st ld8].
  rewrite !mem_with_mem.
  assert (0 <= n / d < 2 ^ 64).
  { split; [apply Z.div_pos; lia|]. apply Z.le_lt_trans with n; [apply Z.div_le_upper_bound; nia|lia]. }
  pose proof (Z.mod_pos_bound n d). split_and!.
  - rewrite ld_st_other by (done || (unfold disjoint in *; lia)). rewrite ld_st_same by done. apply Z.mod_small. lia.
  - rewrite ld_st_same by done. apply Z.mod_small. lia.
  - intros a Ha Hoq Hor. by rewrite !ld8_st_other.
Qed.

Lemma bl_divmod64_correct_witness :
  ∃ s', bl_divmod64 133801234567890123 (2 ^ 63 + 5) 0x1000 0x1008 machine0 = Some ((), s') ∧
    ld 8 (mem s') 0x1000 = 133801234567890123 / (2 ^ 63 + 5) ∧
    ld 8 (mem s') 0x1008 = 133801234567890123 mod (2 ^ 63 + 5) ∧
    ∀ a, 0 <= a < 4294967296 → outside 0x1000 8 a → outside 0x1008 8 a →
      ld8 (mem s') a = ld8 (mem machine0) a.
Proof.
  apply (bl_divmod64_correct machine0 133801234567890123 (2 ^ 63 + 5) 0x1000 0x1008);
    unfold in_space, disjoint; lia.
Defined.

(** [bytes_swap16] and [bytes_swap32] reverse the bytes of their argument;
    [bytes_swap64] reverses all but the top byte, of which it keeps only the
    high six bits: it is a byte reversal exactly when that byte is 0. *)
Theorem bytes_swap_spec b0 b1 b2 b3 b4 b5 b6 b7 :
  bytes [b0; b1; b2; b3; b4; b5; b6; b7] →
  bytes_swap16 (le_combine [b0; b1]) = le_combine [b1; b0] ∧
  bytes_swap32 (le_combine [b0; b1; b2; b3]) = le_combine [b3; b2; b1; b0] ∧
  bytes_swap64 (le_combine [b0; b1; b2; b3; b4; b5; b6; b7]) =
    le_combine [b7 / 4; b6; b5; b4; b3; b2; b1; b0] ∧
  (bytes_swap64 (le_combine [b0; b1; b2; b3; b4; b5; b6; b7]) =
    le_combine [b7; b6; b5; b4; b3; b2; b1; b0] ↔ b7 = 0).
Proof.
  intros Hb. pose proof Hb as Hb'. unfold bytes in Hb'. rewrite !Forall_cons in Hb'.
  destruct Hb' as (H0 & H1 & H2 & H3 & H4 & H5 & H6 & H7 & _). split_and!.
  - apply bytes_swap16_spec. unfold bytes. by rewrite !Forall_cons.
  - apply bytes_swap32_spec. unfold bytes. by rewrite !Forall_cons.
  - by apply bytes_swap64_spec.
  - rewrite bytes_swap64_spec by done. cbn [le_combine].
    assert (0 <= b7 / 4 < 256) by (Z.div_mod_to_equations; lia).
    rewrite (u8_small b7), (u8_small (b7 / 4)) by done.
    split; [intros E; assert (b7 / 4 = b7) by lia; Z.div_mod_to_equations; lia|].
    by intros ->.
Qed.

Lemma bytes_swap_spec_witness :
  bytes [1; 2; 3; 4; 5; 6; 7; 0xf0] ∧
  bytes_swap16 (le_combine [1; 2]) = le_combine [2; 1] ∧
  bytes_swap32 (le_combine [1; 2; 3; 4]) = le_combine [4; 3; 2; 1] ∧
  bytes_swap64 (le_combine [1; 2; 3; 4; 5; 6; 7; 0xf0]) =
    le_combine [0xf0 / 4; 7; 6; 5; 4; 3; 2; 1] ∧
  (bytes_swap64 (le_combine [1; 2; 3; 4; 5; 6; 7; 0xf0]) =
    le_combine [0xf0; 7; 6; 5; 4; 3; 2; 1] ↔ 0xf0 = 0).
Proof.
  assert (bytes [1; 2; 3; 4; 5; 6; 7; 0xf0]) as H by (unfold bytes; rewrite !Forall_cons; split_and!; [lia..|constructor]).
  split; [exact H|]. exact (bytes_swap_spec 1 2 3 4 5 6 7 0xf0 H).
Defined.
