(* ===== verification/Strings.v ===== *)
(** * C strings and blocks: core/utils/string.c

    The functions that do not allocate; [bl_strdup], [bl_strndup] and
    [bl_strtok] are in Tokens.v, after the heap.  A pointer is a 32-bit
    address, [NULL] is 0. *)
From S2P Require Import Prelude Memory.

Definition NULL : Z := 0.

(** [!p] on a pointer. *)
Definition is_null (p : Z) : bool := p =? 0.

(** ** Characters *)
Definition bl_toupper (c : Z) : Z := if (97 <=? c) && (c <=? 122) then c - 32 else c.
Definition bl_tolower (c : Z) : Z := if (65 <=? c) && (c <=? 90) then c + 32 else c.
Definition bl_isprint (c : Z) : bool := (32 <=? c) && (c <=? 126).

(** ** Copies *)
Definition bl_strcpy (dest src : Z) : M Z :=
  if is_null dest || is_null src then mret NULL
  else
    mwhile (λ '(d, p),
      c ← rd8 p;
      wr8 d c;;
      if truth c then continue (d + 1, p + 1) else break ()) (dest, src);;
    mret dest.

Definition bl_strncpy (dest src n : Z) : M Z :=
  if is_null dest || is_null src then mret NULL
  else
    mwhile (λ '(d, p, n),
      c ← rd8 p;
      wr8 d c;;
      if truth c then
        let n := u32 (n - 1) in
        if truth n then continue (d + 1, p + 1, n) else break ()
      else break ()) (dest, src, n);;
    mret dest.

(** [while (--n) *d++ = c;] *)
Definition bl_memset (s c n : Z) : M Z :=
  if is_null s then mret NULL
  else
    mwhile (λ '(d, n),
      let n := u32 (n - 1) in
      if truth n then wr8 d c;; continue (d + 1, n) else break ()) (s, n);;
    mret s.

Definition bl_memcpy (dest src n : Z) : M Z :=
  if is_null dest || is_null src then mret NULL
  else
    (if dest <? src then
       mwhile (λ '(d, s, n),
         if truth n then
           c ← rd8 s; wr8 d c;; continue (d + 1, s + 1, u32 (n - 1))
         else break ()) (dest, src, n)
     else
       mwhile (λ '(d, s, n),
         if truth n then
           c ← rd8 (s - 1); wr8 (d - 1) c;; continue (d - 1, s - 1, u32 (n - 1))
         else break ()) (dest + n, src + n, n));;
    mret dest.

(** ** Comparisons

    The eight comparison functions of the file are the same loop; they differ
    in the character ([char] or [wchar_t], of [w] bytes), in what they apply to
    the characters they compare and in whether [&& --n] ends the condition. *)
Definition compare_loop (rd : Z → M Z) (w : Z) (key : Z → Z) (bounded : bool)
    (s1 s2 n : Z) : M Z :=
  mwhile (λ '(s1, s2, n),
    c1 ← rd s1;
    c2 ← rd s2;
    if (key c1 =? key c2) && truth c1 && truth c2 then
      if bounded then
        let n := u32 (n - 1) in
        if truth n then continue (s1 + w, s2 + w, n) else break (c1 - c2)
      else continue (s1 + w, s2 + w, n)
    else break (c1 - c2)) (s1, s2, n).

(** The tests on [NULL] (and on a zero count) that precede the loop. *)
Definition compare_guard (s1 s2 : Z) (empty : bool) (k : M Z) : M Z :=
  if (is_null s1 && is_null s2) || empty then mret 0
  else if is_null s1 && negb (is_null s2) then mret (-1)
  else if negb (is_null s1) && is_null s2 then mret 1
  else k.

Definition bl_strcmp (s1 s2 : Z) : M Z :=
  compare_guard s1 s2 false (compare_loop rds8 1 id false s1 s2 0).
Definition bl_wcscmp (s1 s2 : Z) : M Z :=
  compare_guard s1 s2 false (compare_loop rd16 2 id false s1 s2 0).
Definition bl_strncmp (s1 s2 n : Z) : M Z :=
  compare_guard s1 s2 (n =? 0) (compare_loop rds8 1 id true s1 s2 n).
Definition bl_wcsncmp (s1 s2 n : Z) : M Z :=
  compare_guard s1 s2 (n =? 0) (compare_loop rd16 2 id true s1 s2 n).
Definition bl_strcasecmp (s1 s2 : Z) : M Z :=
  compare_guard s1 s2 false (compare_loop rds8 1 bl_tolower false s1 s2 0).
Definition bl_strncasecmp (s1 s2 n : Z) : M Z :=
  compare_guard s1 s2 (n =? 0) (compare_loop rds8 1 bl_tolower true s1 s2 n).

Definition bl_memcmp (m1 m2 n : Z) : M Z :=
  mwhile (λ '(i, m1, m2),
    if i <? n then
      c1 ← rd8 m1;
      c2 ← rd8 m2;
      if c1 <? c2 then break (-1)
      else if c2 <? c1 then break 1
      else continue (u32 (i + 1), m1 + 1, m2 + 1)
    else break 0) (0, m1, m2).

(** ** Lengths and searches *)
Definition bl_strlen (s : Z) : M Z :=
  if is_null s then mret 0
  else
    mwhile (λ len,
      c ← rd8 (s + len);
      if truth c then continue (u32 (len + 1)) else break len) 0.

Definition bl_strnlen (s maxlen : Z) : M Z :=
  if is_null s then mret 0
  else
    mwhile (λ len,
      c ← rd8 (s + len);
      if truth c then
        if u32 (len + 1) =? maxlen then break maxlen else continue (u32 (len + 1))
      else break len) 0.

Definition bl_strchr (s c : Z) : M Z :=
  if is_null s then mret NULL
  else if c =? 0 then len ← bl_strlen s; mret (s + len)
  else
    mwhile (λ i,
      x ← rds8 (s + i);
      if truth x then
        if x =? c then break (s + i) else continue (i + 1)
      else break NULL) 0.

(** ** Case and encoding *)
Definition string_map (f : Z → Z) (str : Z) : M Z :=
  mwhile (λ p,
    c ← rds8 p;
    if truth c then wr8 p (f c);; continue (p + 1) else break ()) str;;
  mret str.

Definition bl_string_toupper (str : Z) : M Z := string_map bl_toupper str.
Definition bl_string_tolower (str : Z) : M Z := string_map bl_tolower str.

Definition bl_convert_utf16_to_utf8 (dest src n : Z) : M () :=
  mwhile (λ '(i, dest),
    if i <? n then
      c ← rd16 (src + 2 * i);
      if c <=? 127 then wr8 dest c;; continue (u32 (i + 1), dest + 1)
      else continue (u32 (i + 1), dest)
    else break ()) (0, dest).
