(* ===== verification/StringsProofs.v ===== *)
(** * Correctness of the string and block functions *)
From S2P Require Import Prelude Memory Strings.

(** [p] points to the characters [s] followed by a NUL. *)
Definition cstr (m : gmap Z Z) (p : Z) (s : list Z) : Prop :=
  0 < p ∧ p + Z.of_nat (length s) < 4294967296 ∧
  Forall (λ c, 0 < c < 256) s ∧
  (∀ i c, s !! i = Some c → ld8 m (p + Z.of_nat i) = c) ∧
  ld8 m (p + Z.of_nat (length s)) = 0.

Lemma char_lookup s i c : Forall (λ c, 0 < c < 256) s → s !! i = Some c → 0 < c < 256.
Proof. intros Hs Hi. apply (Forall_lookup_1 _ _ _ _ Hs Hi). Qed.

Lemma cstr_nil m p : cstr m p [] → ld8 m p = 0.
Proof. intros (_ & _ & _ & _ & H). by rewrite Z.add_0_r in H. Qed.

Lemma cstr_cons m p c s : cstr m p (c :: s) → ld8 m p = c ∧ 0 < c < 256 ∧ cstr m (p + 1) s.
Proof.
  intros (H0 & H1 & H2 & H3 & H4). apply Forall_cons in H2 as [Hc H2].
  pose proof (H3 O c eq_refl) as Hp. rewrite Z.add_0_r in Hp. cbn [length] in *.
  repeat split; try lia; try done.
  - intros i d Hd. rewrite <- (H3 (S i) d Hd). f_equal. lia.
  - rewrite <- H4. f_equal. lia.
Qed.

Lemma cstr_pos m p s : cstr m p s → is_null p = false.
Proof. intros (H & _). unfold is_null. apply Z.eqb_neq. lia. Qed.

Lemma cstr_ext m m' p s :
  (∀ i, 0 <= i <= Z.of_nat (length s) → ld8 m (p + i) = ld8 m' (p + i)) →
  cstr m p s → cstr m' p s.
Proof.
  intros H (H0 & H1 & H2 & H3 & H4). repeat split; try done.
  - intros i c Hi. pose proof (lookup_lt_Some _ _ _ Hi). rewrite <- H by lia. by apply H3.
  - rewrite <- H by lia. done.
Qed.

#[export] Instance cstr_proper : Proper (mem_equiv ==> eq ==> eq ==> iff) cstr.
Proof.
  intros m m' H p ? <- s ? <-. split; apply cstr_ext; intros i _; by rewrite H.
Qed.

(** ** Lengths *)
Lemma bl_strlen_run st p s :
  cstr (mem st) p s → bl_strlen p st = Some (Z.of_nat (length s), st).
Proof.
  intros Hs. apply wp_exact. unfold bl_strlen. rewrite (cstr_pos _ _ _ Hs).
  destruct Hs as (H0 & H1 & H2 & H3 & H4).
  wp_loop (λ i s', s' = st ∧ 0 <= i <= Z.of_nat (length s))
           (λ i _, Z.of_nat (length s) - i); [|split; [done|lia]|lia].
  intros i s' [-> Hi]. wp_step. wp_step.
  destruct (decide (i = Z.of_nat (length s))) as [->|Hne].
  - rewrite H4. simpl. wp_step. done.
  - destruct (lookup_lt_is_Some_2 s (Z.to_nat i)) as [c Hc]; [lia|].
    pose proof (char_lookup _ _ _ H2 Hc).
    specialize (H3 _ _ Hc). rewrite Z2Nat.id in H3 by lia. rewrite H3, truth_pos by lia.
    wp_step. rewrite u32_small by lia. split; [split; [done|lia]|lia].
Qed.

Lemma bl_strnlen_run st p s n :
  cstr (mem st) p s → 0 < n < 4294967296 →
  bl_strnlen p n st = Some (Z.min (Z.of_nat (length s)) n, st).
Proof.
  intros Hs Hn. apply wp_exact. unfold bl_strnlen. rewrite (cstr_pos _ _ _ Hs).
  destruct Hs as (H0 & H1 & H2 & H3 & H4).
  wp_loop (λ i s', s' = st ∧ 0 <= i <= Z.of_nat (length s) ∧ i < n)
           (λ i _, Z.of_nat (length s) - i); [|split; [done|lia]|lia].
  intros i s' (-> & Hi & Hin). wp_step. wp_step.
  destruct (decide (i = Z.of_nat (length s))) as [->|Hne].
  - rewrite H4. simpl. wp_step. split; [lia|done].
  - destruct (lookup_lt_is_Some_2 s (Z.to_nat i)) as [c Hc]; [lia|].
    pose proof (char_lookup _ _ _ H2 Hc).
    specialize (H3 _ _ Hc). rewrite Z2Nat.id in H3 by lia. rewrite H3, truth_pos by lia.
    rewrite u32_small by lia.
    destruct (Z.eqb_spec (i + 1) n); wp_step; [split; [lia|done]|].
    split; [split; [done|lia]|lia].
Qed.

(** ** Comparisons *)

(** What the comparison loop computes, on the strings themselves. *)
Fixpoint str_diff (key : Z → Z) (s1 s2 : list Z) : Z :=
  match s1, s2 with
  | [], [] => 0
  | [], c2 :: _ => - s8 c2
  | c1 :: _, [] => s8 c1
  | c1 :: s1, c2 :: s2 =>
      if key (s8 c1) =? key (s8 c2) then str_diff key s1 s2 else s8 c1 - s8 c2
  end.

Lemma compare_loop_run st key p1 p2 s1 s2 n :
  cstr (mem st) p1 s1 → cstr (mem st) p2 s2 →
  compare_loop rds8 1 key false p1 p2 n st = Some (str_diff key s1 s2, st).
Proof.
  intros Hs1 Hs2. apply wp_exact. unfold compare_loop.
  wp_loop (λ '(q1, q2, _) s', s' = st ∧ ∃ t1 t2,
      cstr (mem st) q1 t1 ∧ cstr (mem st) q2 t2 ∧
      q1 + Z.of_nat (length t1) = p1 + Z.of_nat (length s1) ∧
      str_diff key t1 t2 = str_diff key s1 s2)
    (λ '(q1, _, _) _, p1 + Z.of_nat (length s1) - q1); [|naive_solver|].
  2:{ destruct Hs1 as (? & ? & _). lia. }
  intros [[q1 q2] n'] s' (-> & t1 & t2 & H1 & H2 & Hl & Hd). do 2 (wp_step; wp_step).
  destruct t1 as [|c1 t1].
  - rewrite (cstr_nil _ _ H1). change (s8 0) with 0.
    rewrite andb_false_r. simpl. wp_step. split; [|done]. rewrite <- Hd.
    destruct t2 as [|c2 t2]; [by rewrite (cstr_nil _ _ H2)|].
    apply cstr_cons in H2 as (-> & _). simpl. lia.
  - apply cstr_cons in H1 as (-> & Hc1 & H1). rewrite (truth_s8 c1), andb_true_r by done.
    destruct t2 as [|c2 t2].
    + rewrite (cstr_nil _ _ H2). change (s8 0) with 0. rewrite andb_false_r. wp_step.
      split; [|done]. rewrite <- Hd. simpl. lia.
    + apply cstr_cons in H2 as (-> & Hc2 & H2). rewrite (truth_s8 c2), andb_true_r by done.
      simpl in Hd. destruct (Z.eqb_spec (key (s8 c1)) (key (s8 c2))); wp_step.
      * split; [|cbn [length] in Hl; lia]. split; [done|]. exists t1, t2.
        split_and!; try done. cbn [length] in Hl. lia.
      * split; [|done]. done.
Qed.

(** The bounded loop compares the first [n] characters. *)
Lemma compare_loop_bounded_run st p1 p2 s1 s2 n :
  cstr (mem st) p1 s1 → cstr (mem st) p2 s2 → 0 < n < 4294967296 →
  compare_loop rds8 1 id true p1 p2 n st =
  Some (str_diff id (take (Z.to_nat n) s1) (take (Z.to_nat n) s2), st).
Proof.
  intros Hs1 Hs2 Hn. apply wp_exact. unfold compare_loop.
  wp_loop (λ '(q1, q2, k) s', s' = st ∧ 0 < k <= n ∧ ∃ t1 t2,
      cstr (mem st) q1 t1 ∧ cstr (mem st) q2 t2 ∧
      str_diff id (take (Z.to_nat k) t1) (take (Z.to_nat k) t2) =
      str_diff id (take (Z.to_nat n) s1) (take (Z.to_nat n) s2))
    (λ '(_, _, k) _, k); [|split; [done|split; [lia|by exists s1, s2]]|lia].
  intros [[q1 q2] k] s' (-> & Hk & t1 & t2 & H1 & H2 & <-). do 2 (wp_step; wp_step).
  destruct (Z.to_nat k) as [|k'] eqn:Ek; [lia|].
  destruct t1 as [|c1 t1].
  - rewrite (cstr_nil _ _ H1). change (s8 0) with 0.
    rewrite andb_false_r. simpl. wp_step. split; [|done].
    destruct t2 as [|c2 t2]; [by rewrite (cstr_nil _ _ H2)|].
    apply cstr_cons in H2 as (-> & _). simpl. lia.
  - apply cstr_cons in H1 as (-> & Hc1 & H1). rewrite (truth_s8 c1), andb_true_r by done.
    destruct t2 as [|c2 t2].
    + rewrite (cstr_nil _ _ H2). change (s8 0) with 0. rewrite andb_false_r. wp_step.
      split; [|done]. simpl. lia.
    + apply cstr_cons in H2 as (-> & Hc2 & H2). rewrite (truth_s8 c2), andb_true_r by done.
      simpl. change (id (s8 c1)) with (s8 c1). change (id (s8 c2)) with (s8 c2).
      destruct (Z.eqb_spec (s8 c1) (s8 c2)) as [Ec|]; [|by wp_step].
      rewrite u32_small by lia. destruct (decide (k = 1)) as [->|].
      * change (Z.to_nat 1) with 1%nat in Ek. simplify_eq. simpl. wp_step.
        split; [lia|done].
      * rewrite truth_nz by lia. wp_step. split; [|lia]. split; [done|]. split; [lia|].
        exists t1, t2. split_and!; try done. by replace (Z.to_nat (k - 1)) with k' by lia.
Qed.

(** Wide characters that agree. *)
Lemma bl_wcsncmp_same st p1 p2 n :
  p1 ≠ 0 → p2 ≠ 0 → 0 < n < 4294967296 →
  (∀ i, 0 <= i < n → ld 2 (mem st) (p1 + 2 * i) = ld 2 (mem st) (p2 + 2 * i) ∧ ld 2 (mem st) (p2 + 2 * i) ≠ 0) →
  bl_wcsncmp p1 p2 n st = Some (0, st).
Proof.
  intros H1 H2 Hn Hsame. apply wp_exact. unfold bl_wcsncmp, compare_guard, is_null.
  destruct (Z.eqb_spec p1 0), (Z.eqb_spec p2 0), (Z.eqb_spec n 0); try lia. cbn [andb orb negb]. unfold compare_loop.
  wp_loop (λ '(q1, q2, k) t, t = st ∧ 0 < k <= n ∧ q1 = p1 + 2 * (n - k) ∧ q2 = p2 + 2 * (n - k)) (λ '(_, _, k) _, k).
  - intros [[q1 q2] k] t (-> & Hk & -> & ->). do 2 (wp_step; wp_step).
    destruct (Hsame (n - k) ltac:(lia)) as [E Hnz]. rewrite E, (truth_nz _ Hnz), Z.eqb_refl. cbn [andb].
    rewrite u32_small by lia. destruct (Z.eqb_spec (k - 1) 0) as [Ek|Ek].
    + rewrite Ek. change (truth 0) with false; cbv iota. wp_step. split; [lia|done].
    + rewrite truth_nz by done. wp_step. split; [|lia]. split; [done|]. split; [lia|]. split; lia.
  - split; [done|]. split; [lia|]. split; lia.
  - lia.
Qed.

Lemma compare_guard_run st p1 p2 s1 s2 empty (k : M Z) :
  cstr (mem st) p1 s1 → cstr (mem st) p2 s2 →
  compare_guard p1 p2 empty k st = if empty then Some (0, st) else k st.
Proof.
  intros H1%cstr_pos H2%cstr_pos. unfold compare_guard. rewrite H1, H2. by destruct empty.
Qed.

(** A difference of 0 means equal keys all along. *)
Lemma str_diff_zero key s1 s2 :
  (∀ c, key c = 0 ↔ c = 0) →
  Forall (λ c, 0 < c < 256) s1 → Forall (λ c, 0 < c < 256) s2 →
  str_diff key s1 s2 = 0 ↔ map (λ c, key (s8 c)) s1 = map (λ c, key (s8 c)) s2.
Proof.
  intros Hkey H1. revert s2. induction H1 as [|c1 s1 Hc1 H1 IH]; intros s2 H2.
  - destruct H2 as [|c2 s2 Hc2 H2]; [done|]. simpl.
    pose proof (s8_zero c2) as Hz. rewrite u8_small in Hz by lia. split; [lia|done].
  - destruct H2 as [|c2 s2 Hc2 H2]; simpl.
    { pose proof (s8_zero c1) as Hz. rewrite u8_small in Hz by lia. split; [lia|done]. }
    destruct (Z.eqb_spec (key (s8 c1)) (key (s8 c2))) as [E|E].
    + rewrite IH by done. rewrite E. split; [by intros ->|by intros [=]].
    + split; [|intros [=]; done]. intros Hd. destruct E. f_equal. lia.
Qed.

Lemma map_s8_inj s1 s2 :
  Forall (λ c, 0 < c < 256) s1 → Forall (λ c, 0 < c < 256) s2 →
  map s8 s1 = map s8 s2 → s1 = s2.
Proof.
  intros H1. revert s2. induction H1 as [|c1 s1 Hc1 H1 IH]; intros s2 H2 E; destruct H2; [done..|].
  simpl in E. simplify_eq. f_equal; [apply s8_inj; [lia..|done]|by apply IH].
Qed.

Lemma str_diff_id_zero s1 s2 :
  Forall (λ c, 0 < c < 256) s1 → Forall (λ c, 0 < c < 256) s2 →
  str_diff id s1 s2 = 0 ↔ s1 = s2.
Proof.
  intros H1 H2. rewrite (str_diff_zero id) by done.
  split; [intros E; by apply map_s8_inj|by intros ->].
Qed.

(** ** Copies *)

(** The memory of a copy is an exact list write; every other field stays. *)
Lemma st8_as_bytes m a v : st8 m a v = st_bytes m a [v].
Proof. done. Qed.

Lemma st_bytes_snoc m a l c :
  st_bytes m a (l ++ [c]) = st8 (st_bytes m a l) (a + Z.of_nat (length l)) c.
Proof. by rewrite st_bytes_app. Qed.

Lemma st8_comm m a b v w :
  0 <= a < 4294967296 → 0 <= b < 4294967296 → a ≠ b →
  st8 (st8 m a v) b w = st8 (st8 m b w) a v.
Proof. intros. unfold st8. apply insert_insert_ne. rewrite !u32_small; lia. Qed.

Lemma st_bytes_st8_comm m a l b v :
  in_space a (Z.of_nat (length l)) → 0 <= b < 4294967296 → outside a (Z.of_nat (length l)) b →
  st8 (st_bytes m a l) b v = st_bytes (st8 m b v) a l.
Proof.
  unfold in_space, outside. revert m a. induction l as [|c l IH]; intros m a Ha Hb Ho; [done|].
  cbn [st_bytes length] in *. rewrite IH by lia. f_equal. apply st8_comm; lia.
Qed.

Lemma cstr_ld_bytes m p s :
  cstr m p s → ld_bytes m p (S (length s)) = s ++ [0].
Proof.
  intros (H0 & H1 & H2 & H3 & H4). rewrite <- Nat.add_1_r, ld_bytes_app. f_equal.
  - apply list_eq. intros i. destruct (decide (i < length s)%nat) as [Hi|Hi].
    + destruct (lookup_lt_is_Some_2 s i Hi) as [c Hc].
      by rewrite lookup_ld_bytes, Hc, (H3 _ _ Hc).
    + rewrite !lookup_ge_None_2 by (rewrite ?length_ld_bytes; lia). done.
  - simpl. by rewrite H4.
Qed.

Lemma cstr_st_bytes m p s :
  0 < p → p + Z.of_nat (length s) < 4294967296 → Forall (λ c, 0 < c < 256) s →
  cstr (st_bytes m p (s ++ [0])) p s.
Proof.
  intros Hp Hl Hs. split_and!; try done.
  - intros i c Hi. rewrite (ld8_st_bytes_in _ _ _ _ c).
    + apply u8_small. pose proof (char_lookup _ _ _ Hs Hi). lia.
    + unfold in_space. rewrite length_app. simpl. lia.
    + by apply lookup_app_l_Some.
  - rewrite (ld8_st_bytes_in _ _ _ _ 0); [done|..].
    + unfold in_space. rewrite length_app. simpl. lia.
    + rewrite lookup_app_r, Nat.sub_diag by lia. done.
Qed.

(** [memmove] semantics: whatever the overlap, the destination holds what the
    source held.  [copied k] is the state of the two loops after [k] bytes. *)
Lemma bl_memcpy_run st d p n :
  d ≠ 0 → p ≠ 0 → in_space d n → in_space p n → n < 4294967296 →
  bl_memcpy d p n st =
  Some (d, set_mem (st_bytes (mem st) d (ld_bytes (mem st) p (Z.to_nat n))) st).
Proof.
  intros Hd0 Hp0 Hd Hp Hn. apply wp_exact. unfold bl_memcpy, is_null.
  destruct (Z.eqb_spec d 0) as [|_]; [done|]. destruct (Z.eqb_spec p 0) as [|_]; [done|].
  simpl orb. cbv iota. wp_step. destruct Hd as (Hd1 & Hn0 & Hd2), Hp as (Hp1 & _ & Hp2).
  destruct (Z.ltb_spec d p).
  - wp_loop (λ '(d', p', k) s', 0 <= k <= n ∧ d' = d + (n - k) ∧ p' = p + (n - k) ∧
        s' = set_mem (st_bytes (mem st) d (ld_bytes (mem st) p (Z.to_nat (n - k)))) st)
      (λ '(_, _, k) _, k).
    + intros [[d' p'] k] s' (Hk & -> & -> & ->).
      destruct (decide (k = 0)) as [->|]; [rewrite truth_0|rewrite truth_nz by done].
      * wp_step. wp_step. split; [done|]. do 3 f_equal. lia.
      * do 4 wp_step. wp_step. rewrite u32_small by lia.
        split; [|lia]. split; [lia|]. split; [lia|]. split; [lia|].
        machine_simpl. f_equal.
        replace (Z.to_nat (n - (k - 1))) with (S (Z.to_nat (n - k))) by lia.
        rewrite ld_bytes_snoc, st_bytes_snoc, length_ld_bytes, Z2Nat.id by lia.
        f_equal. apply ld8_st_bytes_out; unfold in_space, outside; rewrite ?length_ld_bytes; lia.
    + split; [lia|]. split; [lia|]. split; [lia|]. rewrite Z.sub_diag. by destruct st.
    + lia.
  - wp_loop (λ '(d', p', k) s', 0 <= k <= n ∧ d' = d + k ∧ p' = p + k ∧
        s' = set_mem (st_bytes (mem st) (d + k)
               (ld_bytes (mem st) (p + k) (Z.to_nat (n - k)))) st)
      (λ '(_, _, k) _, k).
    + intros [[d' p'] k] s' (Hk & -> & -> & ->).
      destruct (decide (k = 0)) as [->|]; [rewrite truth_0|rewrite truth_nz by done].
      * wp_step. wp_step. split; [done|]. by rewrite !Z.add_0_r, Z.sub_0_r.
      * do 4 wp_step. wp_step. rewrite u32_small by lia.
        split; [|lia]. split; [lia|]. split; [lia|]. split; [lia|].
        machine_simpl. f_equal.
        replace (Z.to_nat (n - (k - 1))) with (S (Z.to_nat (n - k))) by lia.
        cbn [ld_bytes st_bytes].
        replace (d + (k - 1) + 1) with (d + k) by lia.
        replace (p + (k - 1) + 1) with (p + k) by lia.
        replace (p + k - 1) with (p + (k - 1)) by lia.
        replace (d + k - 1) with (d + (k - 1)) by lia.
        rewrite st_bytes_st8_comm; unfold in_space, outside; rewrite ?length_ld_bytes; try lia.
        do 2 f_equal.
        apply ld8_st_bytes_out; unfold in_space, outside; rewrite ?length_ld_bytes; lia.
    + split; [lia|]. split; [done|]. split; [done|]. rewrite Z.sub_diag. by destruct st.
    + lia.
Qed.

Lemma bl_memcpy_null st d p n : d = 0 ∨ p = 0 → bl_memcpy d p n st = Some (NULL, st).
Proof.
  intros [->| ->]; unfold bl_memcpy, is_null; [done|]. by rewrite orb_true_r.
Qed.

(** [bl_memset] stops one byte early: [n - 1] bytes are set. *)
Lemma bl_memset_run st p c n :
  p ≠ 0 → in_space p n → 0 < n < 4294967296 →
  bl_memset p c n st =
  Some (p, set_mem (st_bytes (mem st) p (replicate (Z.to_nat (n - 1)) c)) st).
Proof.
  intros Hp0 Hp Hn. apply wp_exact. unfold bl_memset, is_null.
  destruct (Z.eqb_spec p 0) as [|_]; [done|]. wp_step. destruct Hp as (Hp1 & Hn0 & Hp2).
  wp_loop (λ '(p', k) s', 0 < k <= n ∧ p' = p + (n - k) ∧
        s' = set_mem (st_bytes (mem st) p (replicate (Z.to_nat (n - k)) c)) st)
      (λ '(_, k) _, k).
  - intros [p' k] s' (Hk & -> & ->). rewrite u32_small by lia.
    destruct (decide (k = 1)) as [->|].
    + simpl. wp_step. wp_step. done.
    + rewrite truth_nz by lia. do 3 wp_step. split; [|lia]. split; [lia|]. split; [lia|].
      machine_simpl. f_equal.
      replace (Z.to_nat (n - (k - 1))) with (Z.to_nat (n - k) + 1)%nat by lia.
      rewrite replicate_add. simpl replicate at 3.
      rewrite st_bytes_snoc, length_replicate, Z2Nat.id by lia. done.
  - split; [lia|]. split; [lia|]. rewrite Z.sub_diag. by destruct st.
  - lia.
Qed.

(** [bl_strcpy] copies the string and its NUL when source and destination do
    not overlap. *)
Lemma bl_strcpy_run st d p s :
  cstr (mem st) p s → 0 < d → in_space d (Z.of_nat (length s) + 1) →
  disjoint d (Z.of_nat (length s) + 1) p (Z.of_nat (length s) + 1) →
  bl_strcpy d p st = Some (d, set_mem (st_bytes (mem st) d (s ++ [0])) st).
Proof.
  intros Hs Hd0 Hd Hdisj. apply wp_exact. unfold bl_strcpy.
  rewrite (cstr_pos _ _ _ Hs). unfold is_null at 1.
  destruct (Z.eqb_spec d 0) as [|_]; [lia|]. simpl orb. cbv iota. wp_step.
  destruct Hs as (H0 & H1 & H2 & H3 & H4), Hd as (Hd1 & _ & Hd2). unfold disjoint in Hdisj.
  wp_loop (λ '(d', p') s', ∃ i : nat, (i <= length s)%nat ∧ d' = d + Z.of_nat i ∧
        p' = p + Z.of_nat i ∧ s' = set_mem (st_bytes (mem st) d (take i s)) st)
      (λ '(_, p') _, p + Z.of_nat (length s) - p').
  - intros [d' p'] s' (i & Hi & -> & -> & ->). do 4 wp_step.
    machine_simpl.
    rewrite ld8_st_bytes_out; [|unfold in_space, outside; rewrite ?length_take; lia..].
    destruct (decide (i = length s)) as [->|Hne].
    + rewrite H4, truth_0. wp_step. wp_step. split; [done|].
      rewrite firstn_all, st_bytes_snoc. done.
    + destruct (lookup_lt_is_Some_2 s i) as [c Hc]; [lia|].
      rewrite (H3 _ _ Hc). pose proof (char_lookup _ _ _ H2 Hc).
      rewrite truth_pos by lia. wp_step. split; [|lia]. exists (S i).
      split_and!; [lia..|]. rewrite (take_S_r _ _ _ Hc), st_bytes_snoc, length_take_le by lia.
      done.
  - exists O. split_and!; [lia..|]. by destruct st.
  - lia.
Qed.

(** [bl_strncpy] writes at most [n] bytes; the NUL only if the string is
    shorter than [n]. *)
Lemma bl_strncpy_run st d p s n :
  cstr (mem st) p s → 0 < d → 0 < n < 4294967296 →
  in_space d (Z.min (Z.of_nat (length s) + 1) n) →
  disjoint d (Z.min (Z.of_nat (length s) + 1) n) p (Z.of_nat (length s) + 1) →
  bl_strncpy d p n st =
  Some (d, set_mem (st_bytes (mem st) d (take (Z.to_nat n) (s ++ [0]))) st).
Proof.
  intros Hs Hd0 Hn Hd Hdisj. apply wp_exact. unfold bl_strncpy.
  rewrite (cstr_pos _ _ _ Hs). unfold is_null at 1.
  destruct (Z.eqb_spec d 0) as [|_]; [lia|]. simpl orb. cbv iota. wp_step.
  destruct Hs as (H0 & H1 & H2 & H3 & H4), Hd as (Hd1 & _ & Hd2). unfold disjoint in Hdisj.
  wp_loop (λ '(d', p', k) s', ∃ i : nat, (i <= length s)%nat ∧ d' = d + Z.of_nat i ∧
        p' = p + Z.of_nat i ∧ k = n - Z.of_nat i ∧ 0 < k ∧
        s' = set_mem (st_bytes (mem st) d (take i s)) st)
      (λ '(_, _, k) _, k).
  - intros [[d' p'] k] s' (i & Hi & -> & -> & -> & Hk & ->). do 4 wp_step.
    machine_simpl.
    rewrite ld8_st_bytes_out; [|unfold in_space, outside; rewrite ?length_take; lia..].
    destruct (decide (i = length s)) as [->|Hne].
    + rewrite H4, truth_0. wp_step. wp_step. split; [done|].
      rewrite firstn_all, (firstn_all2 (s ++ [0])), st_bytes_snoc; [done|].
      rewrite length_app. simpl. lia.
    + destruct (lookup_lt_is_Some_2 s i) as [c Hc]; [lia|].
      rewrite (H3 _ _ Hc). pose proof (char_lookup _ _ _ H2 Hc).
      rewrite truth_pos, u32_small by lia.
      assert (st8 (st_bytes (mem st) d (take i s)) (d + Z.of_nat i) c
              = st_bytes (mem st) d (take (S i) s)) as ->.
      { rewrite (take_S_r _ _ _ Hc), st_bytes_snoc, length_take_le by lia. done. }
      destruct (decide (n - Z.of_nat i = 1)) as [E|].
      * rewrite E. change (1 - 1) with 0. rewrite truth_0. wp_step. wp_step. split; [done|].
        replace (Z.to_nat n) with (S i) by lia. by rewrite take_app_le by lia.
      * rewrite truth_nz by lia. wp_step. split; [|lia]. exists (S i). split_and!; lia || done.
  - exists O. split_and!; try lia. by destruct st.
  - lia.
Qed.

(** ** [bl_memcmp] *)
Fixpoint bytes_diff (l1 l2 : list Z) : Z :=
  match l1, l2 with
  | c1 :: l1, c2 :: l2 =>
      if c1 <? c2 then -1 else if c2 <? c1 then 1 else bytes_diff l1 l2
  | _, _ => 0
  end.

Lemma bytes_diff_zero l1 l2 : length l1 = length l2 → bytes_diff l1 l2 = 0 ↔ l1 = l2.
Proof.
  revert l2. induction l1 as [|c1 l1 IH]; intros [|c2 l2] Hl; [done|done|done|].
  simpl in *. destruct (Z.ltb_spec c1 c2); [split; [done|intros [=]; lia]|].
  destruct (Z.ltb_spec c2 c1); [split; [done|intros [=]; lia]|].
  rewrite IH by lia. split; [intros ->; f_equal; lia|by intros [=]].
Qed.

Lemma bl_memcmp_run st p1 p2 n :
  0 <= n < 4294967296 →
  bl_memcmp p1 p2 n st =
  Some (bytes_diff (ld_bytes (mem st) p1 (Z.to_nat n)) (ld_bytes (mem st) p2 (Z.to_nat n)), st).
Proof.
  intros Hn. apply wp_exact. unfold bl_memcmp.
  wp_loop (λ '(i, q1, q2) s', s' = st ∧ 0 <= i <= n ∧
      bytes_diff (ld_bytes (mem st) q1 (Z.to_nat (n - i))) (ld_bytes (mem st) q2 (Z.to_nat (n - i))) =
      bytes_diff (ld_bytes (mem st) p1 (Z.to_nat n)) (ld_bytes (mem st) p2 (Z.to_nat n)))
    (λ '(i, _, _) _, n - i).
  - intros [[i q1] q2] s' (-> & Hi & <-). destruct (Z.ltb_spec i n); [|wp_step].
    + do 4 wp_step. replace (Z.to_nat (n - i)) with (S (Z.to_nat (n - (i + 1)))) by lia.
      cbn [ld_bytes bytes_diff].
      destruct (ld8 (mem st) q1 <? ld8 (mem st) q2); [by wp_step|].
      destruct (ld8 (mem st) q2 <? ld8 (mem st) q1); [by wp_step|].
      wp_step. rewrite u32_small by lia. split; [split; [done|split; [lia|done]]|lia].
    + replace (Z.to_nat (n - i)) with 0%nat by lia. done.
  - split; [done|]. split; [lia|]. by rewrite Z.sub_0_r.
  - lia.
Qed.

(** ** Searches and maps over a string *)
Fixpoint str_index (c : Z) (s : list Z) : option Z :=
  match s with
  | [] => None
  | x :: s => if s8 x =? c then Some 0 else Z.succ <$> str_index c s
  end.

Lemma bl_strchr_run st p s c :
  cstr (mem st) p s → c ≠ 0 →
  bl_strchr p c st = Some (match str_index c s with Some i => p + i | None => NULL end, st).
Proof.
  intros Hs Hc. apply wp_exact. unfold bl_strchr. rewrite (cstr_pos _ _ _ Hs).
  destruct (Z.eqb_spec c 0); [done|].
  wp_loop (λ i s', s' = st ∧ 0 <= i ∧ ∃ t, cstr (mem st) (p + i) t ∧
      i + Z.of_nat (length t) = Z.of_nat (length s) ∧
      match str_index c t with Some j => p + i + j | None => NULL end =
      match str_index c s with Some j => p + j | None => NULL end)
    (λ i _, Z.of_nat (length s) - i).
  - intros i s' (-> & Hi & t & Ht & Hl & <-). do 2 wp_step.
    destruct t as [|x t].
    + rewrite (cstr_nil _ _ Ht). change (truth (s8 0)) with false. cbv iota. by wp_step.
    + apply cstr_cons in Ht as (-> & Hx & Ht). rewrite truth_s8 by done.
      cbn [str_index length] in *. destruct (Z.eqb_spec (s8 x) c); wp_step.
      * split; [lia|done].
      * split; [|lia]. split; [done|]. split; [lia|]. exists t.
        rewrite <- Z.add_assoc in Ht. split; [done|]. split; [lia|].
        destruct (str_index c t); simpl; [lia|done].
  - split; [done|]. split; [lia|]. exists s. rewrite Z.add_0_r. done.
  - destruct Hs as (? & ? & _). lia.
Qed.

(** Case conversion in place: the string keeps its address and its length. *)
Lemma string_map_run st f p s :
  cstr (mem st) p s →
  string_map f p st = Some (p, set_mem (st_bytes (mem st) p (map (λ c, f (s8 c)) s)) st).
Proof.
  intros Hs. apply wp_exact. unfold string_map. wp_step.
  destruct Hs as (H0 & H1 & H2 & H3 & H4).
  wp_loop (λ q s', ∃ i : nat, (i <= length s)%nat ∧ q = p + Z.of_nat i ∧
      s' = set_mem (st_bytes (mem st) p (map (λ c, f (s8 c)) (take i s))) st)
    (λ q _, p + Z.of_nat (length s) - q).
  - intros q s' (i & Hi & -> & ->). do 2 wp_step. machine_simpl.
    rewrite ld8_st_bytes_out; [|unfold in_space, outside; rewrite ?length_map, ?length_take; lia..].
    destruct (decide (i = length s)) as [->|Hne].
    + rewrite H4. change (truth (s8 0)) with false. cbv iota. do 2 wp_step.
      by rewrite firstn_all.
    + destruct (lookup_lt_is_Some_2 s i) as [c Hc]; [lia|].
      rewrite (H3 _ _ Hc), truth_s8 by eauto using char_lookup. do 3 wp_step.
      split; [|lia]. exists (S i). split_and!; [lia..|]. machine_simpl. f_equal.
      rewrite (take_S_r _ _ _ Hc), map_app. cbn [map]. rewrite st_bytes_snoc, length_map, length_take_le by lia.
      done.
  - exists O. split_and!; [lia..|]. by destruct st.
  - lia.
Qed.

(** ** The exported comparisons *)
Lemma bl_strcmp_run st p1 p2 s1 s2 :
  cstr (mem st) p1 s1 → cstr (mem st) p2 s2 →
  bl_strcmp p1 p2 st = Some (str_diff id s1 s2, st).
Proof.
  intros H1 H2. unfold bl_strcmp. rewrite (compare_guard_run _ _ _ s1 s2) by done.
  by apply compare_loop_run.
Qed.

Lemma bl_strcasecmp_run st p1 p2 s1 s2 :
  cstr (mem st) p1 s1 → cstr (mem st) p2 s2 →
  bl_strcasecmp p1 p2 st = Some (str_diff bl_tolower s1 s2, st).
Proof.
  intros H1 H2. unfold bl_strcasecmp. rewrite (compare_guard_run _ _ _ s1 s2) by done.
  by apply compare_loop_run.
Qed.

Lemma bl_strncmp_run st p1 p2 s1 s2 n :
  cstr (mem st) p1 s1 → cstr (mem st) p2 s2 → 0 < n < 4294967296 →
  bl_strncmp p1 p2 n st =
  Some (str_diff id (take (Z.to_nat n) s1) (take (Z.to_nat n) s2), st).
Proof.
  intros H1 H2 Hn. unfold bl_strncmp. rewrite (compare_guard_run _ _ _ s1 s2) by done.
  destruct (Z.eqb_spec n 0); [lia|]. by apply compare_loop_bounded_run.
Qed.

Lemma bl_tolower_zero c : bl_tolower c = 0 ↔ c = 0.
Proof.
  unfold bl_tolower. destruct (Z.leb_spec 65 c), (Z.leb_spec c 90); simpl; lia.
Qed.

(** Strings of concrete memory. *)
Definition cstr_here (m : gmap Z Z) (p : Z) (l : list Z) : bool :=
  (0 <? p) && (p + Z.of_nat (length l) <? 4294967296) && forallb (λ c, (0 <? c) && (c <? 256)) l &&
  bool_decide (ld_bytes m p (S (length l)) = l ++ [0]).
Lemma cstr_here_ok m p l : cstr_here m p l = true → cstr m p l.
Proof.
  unfold cstr_here. rewrite !andb_true_iff, bool_decide_eq_true, forallb_forall.
  intros [[[H1 H2] H3] H4]. apply Z.ltb_lt in H1, H2. rewrite ld_bytes_snoc in H4.
  apply app_inj_2 in H4 as [H4 H5]; [|done]. injection H5 as H5.
  split_and!; [done|done| | |done].
  - apply Forall_forall. intros c Hc. apply list_elem_of_In, H3 in Hc. lia.
  - intros i c Hi. pose proof (lookup_lt_Some _ _ _ Hi). rewrite <- H4 in Hi. rewrite lookup_ld_bytes in Hi by lia. by injection Hi.
Qed.

(** ** Properties *)

(** [bl_memcpy] is [memmove]: whatever the overlap of the two regions, the
    destination receives the bytes the source held before the call, and nothing
    else changes. *)
Theorem bl_memcpy_moves st d p n :
  d ≠ 0 → p ≠ 0 → in_space d n → in_space p n → n < 4294967296 →
  ∃ st', bl_memcpy d p n st = Some (d, st') ∧
    ld_bytes (mem st') d (Z.to_nat n) = ld_bytes (mem st) p (Z.to_nat n) ∧
    (∀ a, 0 <= a < 4294967296 → outside d n a → ld8 (mem st') a = ld8 (mem st) a) ∧
    (d = p → mem st' ≡ₘ mem st).
Proof.
  intros Hd0 Hp0 Hd Hp Hn. eexists. split; [by apply bl_memcpy_run|]. rewrite mem_set_mem.
  assert (Z.of_nat (Z.to_nat n) = n) as En by (destruct Hd; lia). split_and!.
  - pose proof (ld_bytes_st_bytes_in (mem st) d (ld_bytes (mem st) p (Z.to_nat n))) as E.
    rewrite length_ld_bytes, En in E. apply E; [done|apply bytes_ld_bytes].
  - intros a Ha Ho. apply ld8_st_bytes_out; by rewrite ?length_ld_bytes, ?En.
  - intros ->. apply st_bytes_ld_bytes.
Qed.

Lemma bl_memcpy_moves_witness :
  let st := set_mem (st_bytes ∅ 0x1000 [1; 2; 3; 4; 5]) machine0 in
  ∃ st', bl_memcpy 0x1002 0x1000 5 st = Some (0x1002, st') ∧
    ld_bytes (mem st') 0x1002 (Z.to_nat 5) = ld_bytes (mem st) 0x1000 (Z.to_nat 5) ∧
    (∀ a, 0 <= a < 4294967296 → outside 0x1002 5 a → ld8 (mem st') a = ld8 (mem st) a) ∧
    (0x1002 = 0x1000 → mem st' ≡ₘ mem st).
Proof.
  intros st. apply (bl_memcpy_moves st 0x1002 0x1000 5); unfold in_space; lia.
Defined.

(** [bl_memset] sets [n - 1] bytes: the last byte of the region it is asked to
    fill keeps its value. *)
Theorem bl_memset_short st p c n :
  p ≠ 0 → in_space p n → 0 < n < 4294967296 →
  ∃ st', bl_memset p c n st = Some (p, st') ∧
    (∀ i, 0 <= i < n - 1 → ld8 (mem st') (p + i) = u8 c) ∧
    ld8 (mem st') (p + (n - 1)) = ld8 (mem st) (p + (n - 1)) ∧
    ∀ a, 0 <= a < 4294967296 → outside p n a → ld8 (mem st') a = ld8 (mem st) a.
Proof.
  intros Hp0 Hp Hn. eexists. split; [by apply bl_memset_run|]. rewrite mem_set_mem.
  destruct Hp as (Hp1 & _ & Hp2).
  assert (Hl : length (replicate (Z.to_nat (n - 1)) c) = Z.to_nat (n - 1)) by apply length_replicate.
  split_and!.
  - intros i Hi. rewrite <- (Z2Nat.id i) by lia. apply ld8_st_bytes_in.
    + unfold in_space. rewrite Hl. lia.
    + apply lookup_replicate. split; [done|lia].
  - apply ld8_st_bytes_out; unfold in_space, outside; rewrite ?Hl; lia.
  - unfold outside. intros a Ha Ho.
    apply ld8_st_bytes_out; unfold in_space, outside; rewrite ?Hl; lia.
Qed.

Lemma bl_memset_short_witness :
  let st := set_mem (st_bytes ∅ 0x1000 [7; 7; 7; 7]) machine0 in
  ∃ st', bl_memset 0x1000 0 4 st = Some (0x1000, st') ∧
    (∀ i, 0 <= i < 4 - 1 → ld8 (mem st') (0x1000 + i) = u8 0) ∧
    ld8 (mem st') (0x1000 + (4 - 1)) = ld8 (mem st) (0x1000 + (4 - 1)) ∧
    ∀ a, 0 <= a < 4294967296 → outside 0x1000 4 a → ld8 (mem st') a = ld8 (mem st) a.
Proof. intros st. apply (bl_memset_short st 0x1000 0 4); unfold in_space; lia. Defined.

(** The string comparisons end on NUL-terminated strings and answer 0 exactly
    on equal strings: all of them for [bl_strcmp], the first [n] characters for
    [bl_strncmp], and up to ASCII case for [bl_strcasecmp]. *)
Theorem string_comparisons_decide st p1 p2 s1 s2 n :
  cstr (mem st) p1 s1 → cstr (mem st) p2 s2 → 0 < n < 4294967296 →
  ∃ r rn rc,
    bl_strcmp p1 p2 st = Some (r, st) ∧ (r = 0 ↔ s1 = s2) ∧
    bl_strncmp p1 p2 n st = Some (rn, st) ∧
      (rn = 0 ↔ take (Z.to_nat n) s1 = take (Z.to_nat n) s2) ∧
    bl_strcasecmp p1 p2 st = Some (rc, st) ∧
      (rc = 0 ↔ map (λ c, bl_tolower (s8 c)) s1 = map (λ c, bl_tolower (s8 c)) s2).
Proof.
  intros H1 H2 Hn. eexists _, _, _. split_and!.
  - by apply bl_strcmp_run.
  - destruct H1 as (_ & _ & H1 & _), H2 as (_ & _ & H2 & _). by apply str_diff_id_zero.
  - by apply bl_strncmp_run.
  - destruct H1 as (_ & _ & H1 & _), H2 as (_ & _ & H2 & _).
    apply str_diff_id_zero; by apply Forall_take.
  - by apply bl_strcasecmp_run.
  - destruct H1 as (_ & _ & H1 & _), H2 as (_ & _ & H2 & _).
    apply str_diff_zero; [apply bl_tolower_zero|done|done].
Qed.

Lemma string_comparisons_decide_witness :
  let st := set_mem (st_bytes (st_bytes ∅ 0x1000 [72; 105; 0]) 0x2000 [104; 105; 33; 0]) machine0 in
  ∃ r rn rc,
    bl_strcmp 0x1000 0x2000 st = Some (r, st) ∧ (r = 0 ↔ [72; 105] = [104; 105; 33]) ∧
    bl_strncmp 0x1000 0x2000 2 st = Some (rn, st) ∧
      (rn = 0 ↔ take (Z.to_nat 2) [72; 105] = take (Z.to_nat 2) [104; 105; 33]) ∧
    bl_strcasecmp 0x1000 0x2000 st = Some (rc, st) ∧
      (rc = 0 ↔ map (λ c, bl_tolower (s8 c)) [72; 105] = map (λ c, bl_tolower (s8 c)) [104; 105; 33]).
Proof.
  intros st. apply (string_comparisons_decide st 0x1000 0x2000 [72; 105] [104; 105; 33] 2); [..|lia].
  - apply (cstr_ext (st_bytes ∅ 0x1000 [72; 105; 0])).
    + intros i Hi. simpl in Hi. cbv zeta delta [st]. rewrite mem_set_mem. symmetry.
      apply ld8_st_bytes_out; unfold in_space, outside; simpl; lia.
    + apply (cstr_st_bytes _ _ [72; 105]); [lia|simpl; lia|]. repeat constructor; lia.
  - apply (cstr_st_bytes _ _ [104; 105; 33]); [lia|simpl; lia|]. repeat constructor; lia.
Defined.

(** [bl_strncasecmp] calls two strings different although they agree, up to
    case, on the [n] characters it compares, whenever the last of these differ
    in case: it returns the difference of the raw characters. *)
Theorem bl_strncasecmp_last_case st p1 p2 c1 c2 t1 t2 :
  cstr (mem st) p1 (c1 :: t1) → cstr (mem st) p2 (c2 :: t2) →
  bl_tolower (s8 c1) = bl_tolower (s8 c2) → c1 ≠ c2 →
  ∃ r, bl_strncasecmp p1 p2 1 st = Some (r, st) ∧ r ≠ 0.
Proof.
  intros H1 H2 Hk Hne. unfold bl_strncasecmp.
  rewrite (compare_guard_run _ _ _ (c1 :: t1) (c2 :: t2)) by done.
  apply cstr_cons in H1 as (E1 & Hc1 & _). apply cstr_cons in H2 as (E2 & Hc2 & _).
  exists (s8 c1 - s8 c2). split.
  - unfold compare_loop, mwhile, rds8, gets, mbind, ST_bind.
    change (1 =? 0) with false. cbv iota.
    assert (∀ step : Z * Z * Z * machine → Z * Z * Z * machine + option (Z * machine), ∀ r,
      step (p1, p2, 1, st) = inr r → while step (p1, p2, 1, st) = Some r) as Hone.
    { intros step r Hr. destruct (while_total step (λ x, x = (p1, p2, 1, st)) (λ x, x = r) (λ _, 0)
        (p1, p2, 1, st)) as (? & -> & ->); [intros ? ->; by rewrite Hr|done|unfold while_fuel; lia|done]. }
    erewrite Hone; [reflexivity|]. cbn -[ld8 u32]. rewrite E1, E2, Hk, Z.eqb_refl.
    rewrite !truth_s8 by done. done.
  - intros E. apply Hne, s8_inj; lia.
Qed.

Lemma bl_strncasecmp_last_case_witness :
  let st := set_mem (st_bytes (st_bytes ∅ 0x1000 [65; 0]) 0x2000 [97; 0]) machine0 in
  ∃ r, bl_strncasecmp 0x1000 0x2000 1 st = Some (r, st) ∧ r ≠ 0.
Proof.
  intros st. apply (bl_strncasecmp_last_case st 0x1000 0x2000 65 97 [] []); [..|done|done].
  - apply (cstr_ext (st_bytes ∅ 0x1000 [65; 0])).
    + intros i Hi. simpl in Hi. cbv zeta delta [st]. rewrite mem_set_mem. symmetry.
      apply ld8_st_bytes_out; unfold in_space, outside; simpl; lia.
    + apply (cstr_st_bytes _ _ [65]); [lia|simpl; lia|]. repeat constructor; lia.
  - apply (cstr_st_bytes _ _ [97]); [lia|simpl; lia|]. repeat constructor; lia.
Defined.
