(* ===== verification/Heap.v ===== *)
(** * The heap: core/memory/heap.c

    A singly linked list of blocks, each a 16-byte header ([next], [magic],
    [size], 4 bytes of padding) followed by the payload.  The headers are in
    the machine's memory; [bl_heap], [occupied_blocks] and [free_blocks] are
    the scalar globals of the file. *)
From S2P Require Import Prelude Memory Arith Strings StringsProofs.

(** ** Definitions *)
Definition BL_HEAP_BLOCK_HEAD_USED_MAGIC : Z := 0x44455355.
Definition BL_HEAP_BLOCK_HEAD_FREE_MAGIC : Z := 0x45455246.
Definition BL_HEAP_MEM_ALIGN : Z := Z.shiftl 1 4.

(** [struct bl_heap_block_head]: offsets and size. *)
Definition head_next : Z := 0.
Definition head_magic : Z := 4.
Definition head_size : Z := 8.
Definition sizeof_head : Z := 16.

(** loader/module.h: the module list that the UEFI image carries. *)
Definition BL_MODULE_LIST_HEADER_MAGIC : Z := 0x54534c444f4d4c42.
Definition BL_MODULE_HEADER_MAGIC : Z := 0x000000444f4d4c42.
Definition sizeof_module_list_header : Z := 16.
Definition sizeof_module_header : Z := 12.

(** [bl_heap_init] under FIRMWARE_BIOS, and under UEFI, where the heap starts
    after the modules that follow the image at [__bl_modules_start]. *)
Definition set_bl_heap (p : Z) : M () :=
  modify (λ s, with_heap p (occupied_blocks s) (free_blocks s) s).

Definition bl_heap_init_bios : M () :=
  h ← gets bl_heap;
  if truth h then mret () else set_bl_heap 0x100000.

Definition bl_heap_init_uefi (__bl_modules_start : Z) : M () :=
  h ← gets bl_heap;
  if truth h then mret ()
  else
    magic ← rd64 __bl_modules_start;
    if magic =? BL_MODULE_LIST_HEADER_MAGIC then
      count ← rd32 (__bl_modules_start + 8);
      o ← mwhile (λ '(md, i),
            if i <? count then
              magic ← rd64 md;
              if negb (magic =? BL_MODULE_HEADER_MAGIC) then break None
              else
                size ← rd32 (md + 8);
                continue (u32 (md + sizeof_module_header + size), i + 1)
            else break (Some md))
          (u32 (__bl_modules_start + sizeof_module_list_header), 0);
      match o with
      | None => mret ()
      | Some md => set_bl_heap (BL_MEMORY_ALIGN_UP md BL_HEAP_MEM_ALIGN)
      end
    else set_bl_heap (BL_MEMORY_ALIGN_UP __bl_modules_start BL_HEAP_MEM_ALIGN).

(** [__bl_heap_alloc_align].  The loop leaves with [inl p] for [return p] and
    with [inr q] when [q] is the last block. *)
Definition heap_search (ptr sz align : Z) : M (Z + Z) :=
  p ← rd32 (ptr + head_next);
  mwhile (λ '(q, p),
    if truth p then
      magic ← rd32 (q + head_magic);
      size ← rd32 (q + head_size);
      if magic =? BL_HEAP_BLOCK_HEAD_FREE_MAGIC then
        if negb (truth (Z.land (u32 (q + sizeof_head)) (u32 (align - 1)))) && (sz <=? size) then
          wr32 (q + head_magic) BL_HEAP_BLOCK_HEAD_USED_MAGIC;;
          break (inl (u32 (q + sizeof_head)))
        else next ← rd32 (p + head_next); continue (p, next)
      else if negb (magic =? BL_HEAP_BLOCK_HEAD_USED_MAGIC) then break (inl NULL)
      else next ← rd32 (p + head_next); continue (p, next)
    else break (inr q)) (ptr, p).

Definition __bl_heap_alloc_align (ptr sz align : Z) : M Z :=
  o ← heap_search ptr sz align;
  match o with
  | inl r => mret r
  | inr q =>
      size ← rd32 (q + head_size);
      let alloc := BL_MEMORY_ALIGN_UP (q + sizeof_head + size + sizeof_head) BL_HEAP_MEM_ALIGN in
      let alloc := if truth (Z.land alloc (u32 (align - 1)))
                   then BL_MEMORY_ALIGN_UP alloc align else alloc in
      let p := u32 (alloc - sizeof_head) in
      wr32 (p + head_magic) BL_HEAP_BLOCK_HEAD_USED_MAGIC;;
      wr32 (p + head_size) sz;;
      wr32 (p + head_next) NULL;;
      wr32 (q + head_next) p;;
      mret alloc
  end.

(** The first block is copied from a local header whose padding is
    indeterminate; the padding, which nothing reads, is left alone here. *)
Definition bl_heap_alloc_align (sz align : Z) : M Z :=
  s ← get;
  if is_null (bl_heap s) then mret NULL
  else
    let align := if align =? 0 then 1 else align in
    if truth (Z.land align (u32 (align - 1))) then mret NULL
    else if negb (truth (occupied_blocks s)) && negb (truth (free_blocks s)) then
      let h := if truth (Z.land (bl_heap s) (u32 (align - 1)))
               then BL_MEMORY_ALIGN_UP (bl_heap s) align else bl_heap s in
      modify (λ s, with_heap h (s32 (occupied_blocks s + 1)) (free_blocks s) s);;
      wr_bytes h (le_split 4 NULL ++ le_split 4 BL_HEAP_BLOCK_HEAD_USED_MAGIC ++ le_split 4 sz);;
      mret (u32 (h + sizeof_head))
    else __bl_heap_alloc_align (bl_heap s) sz align.

Definition bl_heap_alloc (sz : Z) : M Z := bl_heap_alloc_align sz 1.

Definition bl_heap_free (block sz : Z) : M () :=
  if truth (Z.land block (BL_HEAP_MEM_ALIGN - 1)) then mret ()
  else
    let p := u32 (block - sizeof_head) in
    magic ← rd32 (p + head_magic);
    if magic =? BL_HEAP_BLOCK_HEAD_USED_MAGIC then
      wr32 (p + head_magic) BL_HEAP_BLOCK_HEAD_FREE_MAGIC;;
      modify (λ s, with_heap (bl_heap s) (occupied_blocks s) (s32 (free_blocks s + 1)) s)
    else mret ().

(** ** The abstract heap: a list of blocks in address order *)
Record block := Block { b_head : Z; b_size : Z; b_used : bool }.

Definition b_data (b : block) : Z := b_head b + sizeof_head.
Definition b_end (b : block) : Z := b_data b + b_size b.
Definition b_magic (b : block) : Z :=
  if b_used b then BL_HEAP_BLOCK_HEAD_USED_MAGIC else BL_HEAP_BLOCK_HEAD_FREE_MAGIC.

(** First fit over every block but the last, which the code never reuses. *)
Definition fits (sz align : Z) (b : block) : bool :=
  negb (b_used b) && (b_data b mod align =? 0) && (sz <=? b_size b).

Fixpoint take_block (sz align : Z) (bs : list block) : option (block * list block) :=
  match bs with
  | [] => None
  | b :: rest =>
      match rest with
      | [] => None
      | _ :: _ =>
          if fits sz align b then Some (b, Block (b_head b) (b_size b) true :: rest)
          else
            match take_block sz align rest with
            | Some (x, rest') => Some (x, b :: rest')
            | None => None
            end
      end
  end.

(** Rounding up to a multiple. *)
Definition round_up (a align : Z) : Z := (a + align - 1) / align * align.

(** Where a new block's payload goes after [last]. *)
Definition place (last : block) (align : Z) : Z :=
  round_up (round_up (b_end last + sizeof_head) 16) align.

Definition alloc_spec (sz align : Z) (bs : list block) : option (Z * list block) :=
  match take_block sz align bs with
  | Some (b, bs') => Some (b_data b, bs')
  | None =>
      last ← last bs;
      Some (place last align, bs ++ [Block (place last align - sizeof_head) sz true])
  end.

Definition free_spec (p : Z) (bs : list block) : list block :=
  map (λ b, if b_data b =? p then Block (b_head b) (b_size b) false else b) bs.

(** ** The invariant: the list in memory is the abstract one *)
Fixpoint chain (m : gmap Z Z) (bs : list block) : Prop :=
  match bs with
  | [] => True
  | b :: rest =>
      ld 4 m (b_head b + head_next) = match rest with [] => NULL | b' :: _ => b_head b' end ∧
      ld 4 m (b_head b + head_magic) = b_magic b ∧
      ld 4 m (b_head b + head_size) = b_size b ∧
      chain m rest
  end.

(** Headers are 16-aligned, blocks follow each other without overlap, and the
    last one ends inside the address space. *)
Fixpoint laid_out (bs : list block) : Prop :=
  match bs with
  | [] => True
  | b :: rest =>
      0 < b_head b ∧ b_head b mod 16 = 0 ∧ 0 <= b_size b ∧
      match rest with
      | [] => b_end b <= 4294967296
      | b' :: _ => b_end b <= b_head b'
      end ∧ laid_out rest
  end.

Definition heap_inv (s : machine) (bs : list block) : Prop :=
  match bs with
  | [] => 0 < bl_heap s < 4294967296 ∧ bl_heap s mod 16 = 0 ∧
          occupied_blocks s = 0 ∧ free_blocks s = 0
  | b :: _ => bl_heap s = b_head b ∧ occupied_blocks s = 1 ∧ laid_out bs ∧ chain (mem s) bs
  end.

(** The end of the heap, and room for one more block: the only bound the code
    relies on, since it never checks that the address space is exhausted. *)
Definition heap_end (s : machine) (bs : list block) : Z :=
  match last bs with None => bl_heap s | Some b => b_end b end.

Definition room (s : machine) (bs : list block) (n align : Z) : Prop :=
  heap_end s bs + 2 * sizeof_head + align + n <= 4294967296.

(** What [bl_heap_alloc] owns for its callers: a used block of at least [n]
    bytes with payload [p]. *)
Definition owned (bs : list block) (p n : Z) : Prop :=
  ∃ b, b ∈ bs ∧ b_used b = true ∧ b_data b = p ∧ n <= b_size b.
