(* ===== verification/HeapProofs.v ===== *)
(** * The heap refines the abstract block list *)
From S2P Require Import Prelude Memory Arith Strings StringsProofs Heap.

(** ** Alignment *)
Lemma land_mask x k : 0 <= k < 32 → Z.land x (2 ^ k - 1) = x mod 2 ^ k.
Proof.
  intros. replace (2 ^ k - 1) with (Z.ones k) by (rewrite Z.ones_equiv; lia).
  apply Z.land_ones. lia.
Qed.

Lemma pow2_32 k : 0 <= k < 32 → 0 < 2 ^ k < 4294967296.
Proof.
  intros. split; [apply Z.pow_pos_nonneg; lia|].
  change 4294967296 with (2 ^ 32). apply Z.pow_lt_mono_r; lia.
Qed.

Lemma align_up_pow2 a k :
  0 <= k < 32 → 0 <= a → a + 2 ^ k - 1 < 4294967296 →
  BL_MEMORY_ALIGN_UP a (2 ^ k) = round_up a (2 ^ k).
Proof.
  intros Hk Ha Hb. pose proof (pow2_32 k Hk) as Hp. unfold BL_MEMORY_ALIGN_UP, round_up.
  rewrite (u32_small (2 ^ k - 1)), (u32_small (a + 2 ^ k - 1)) by lia.
  set (x := a + 2 ^ k - 1) in *.
  assert (Z.land x (not32 (2 ^ k - 1)) = Z.ldiff x (Z.ones k)) as ->.
  { unfold not32. change (u32 ?y) with (y mod 2 ^ 32). rewrite Z.ones_equiv.
    replace (Z.pred (2 ^ k)) with (2 ^ k - 1) by lia.
    apply Z.bits_inj'. intros i Hi. rewrite Z.land_spec, Z.ldiff_spec.
    destruct (decide (i < 32)).
    - rewrite Z.mod_pow2_bits_low, Z.lnot_spec by lia. done.
    - assert (Z.testbit x i = false) as ->; [|done].
      rewrite <- (Z.mod_small x (2 ^ 32)), Z.mod_pow2_bits_high by lia. done. }
  by rewrite Z.ldiff_ones_r, Z.shiftl_mul_pow2, Z.shiftr_div_pow2 by lia.
Qed.

Lemma round_up_spec a al : 0 < al → a <= round_up a al < a + al ∧ round_up a al mod al = 0.
Proof.
  intros Hal. unfold round_up. split; [|by rewrite Z.mod_mul by lia].
  pose proof (Z.div_mod (a + al - 1) al). pose proof (Z.mod_pos_bound (a + al - 1) al). nia.
Qed.

Lemma round_up_id a al : 0 < al → a mod al = 0 → round_up a al = a.
Proof.
  intros Hal Hm. unfold round_up.
  pose proof (Z.div_mod a al). symmetry. rewrite <- (Z.div_unique (a + al - 1) al (a / al) (al - 1)); nia.
Qed.

Lemma round_up_divides a k j :
  0 <= j <= k → round_up a (2 ^ k) mod 2 ^ j = 0.
Proof.
  intros Hj. unfold round_up.
  assert (2 ^ k = 2 ^ (k - j) * 2 ^ j) as E by (rewrite <- Z.pow_add_r by lia; f_equal; lia).
  rewrite E at 3. rewrite Z.mul_assoc. apply Z.mod_mul.
  pose proof (Z.pow_pos_nonneg 2 j). lia.
Qed.

(** Rounding a multiple of 16 up to a power of two gives a multiple of 16. *)
Lemma round_up_16 a k : 0 <= k → a mod 16 = 0 → round_up a (2 ^ k) mod 16 = 0.
Proof.
  intros Hk Ha. destruct (decide (4 <= k)).
  - change 16 with (2 ^ 4). by apply round_up_divides.
  - rewrite round_up_id; [done|apply Z.pow_pos_nonneg; lia|].
    assert (16 = 2 ^ (4 - k) * 2 ^ k) as E.
    { rewrite <- Z.pow_add_r by lia. by replace (4 - k + k) with 4 by lia. }
    assert (0 < 2 ^ k) by (apply Z.pow_pos_nonneg; lia).
    apply Z.mod_divide in Ha; [|lia]. apply Z.mod_divide; [lia|].
    destruct Ha as [z ->]. exists (z * 2 ^ (4 - k)). rewrite E. ring.
Qed.

(** The two rounding tests of the code, at once. *)
Lemma align_if_needed a k :
  0 <= k < 32 → 0 <= a → a + 2 ^ k - 1 < 4294967296 →
  (if truth (Z.land a (u32 (2 ^ k - 1))) then BL_MEMORY_ALIGN_UP a (2 ^ k) else a)
  = round_up a (2 ^ k).
Proof.
  intros Hk Ha Hb. pose proof (pow2_32 k Hk). rewrite u32_small, land_mask by lia.
  unfold truth. destruct (Z.eqb_spec (a mod 2 ^ k) 0); simpl.
  - by rewrite round_up_id by lia.
  - by apply align_up_pow2.
Qed.

(** ** Shape lemmas *)
Lemma laid_out_head_in b rest :
  laid_out (b :: rest) → 0 < b_head b ∧ b_head b mod 16 = 0 ∧ 0 <= b_size b ∧
  b_end b <= 4294967296.
Proof.
  revert b. induction rest as [|b' rest IH]; intros b (H1 & H2 & H3 & H4 & H5); [done|].
  destruct (IH _ H5) as (? & ? & ? & ?). unfold b_end, b_data, sizeof_head in *. lia.
Qed.

Lemma laid_out_tail b rest : laid_out (b :: rest) → laid_out rest.
Proof. by intros (_ & _ & _ & _ & H). Qed.

Lemma laid_out_in bs b :
  laid_out bs → b ∈ bs →
  0 < b_head b ∧ b_head b mod 16 = 0 ∧ 0 <= b_size b ∧ b_end b <= 4294967296.
Proof.
  induction bs as [|b' bs IH]; intros Hl Hin; [by apply not_elem_of_nil in Hin|].
  apply elem_of_cons in Hin as [->|Hin]; [by eapply laid_out_head_in|].
  apply IH; [by eapply laid_out_tail|done].
Qed.

(** Everything after a block lies beyond its end. *)
Lemma laid_out_after b rest b' :
  laid_out (b :: rest) → b' ∈ rest → b_end b <= b_head b'.
Proof.
  revert b. induction rest as [|c rest IH]; intros b Hl Hin; [by apply not_elem_of_nil in Hin|].
  pose proof (laid_out_head_in _ _ (laid_out_tail _ _ Hl)) as (? & ? & ? & ?).
  destruct Hl as (_ & _ & _ & Hbc & Hl). apply elem_of_cons in Hin as [->|Hin]; [done|].
  specialize (IH _ Hl Hin). unfold b_end, b_data, sizeof_head in *. lia.
Qed.

(** Distinct blocks do not overlap, headers included. *)
Lemma laid_out_disjoint bs b b' :
  laid_out bs → b ∈ bs → b' ∈ bs → b = b' ∨ b_end b <= b_head b' ∨ b_end b' <= b_head b.
Proof.
  induction bs as [|c bs IH]; intros Hl Hb Hb'; [by apply not_elem_of_nil in Hb|].
  apply elem_of_cons in Hb as [->|Hb], Hb' as [->|Hb'].
  - by left.
  - right. left. by eapply laid_out_after.
  - right. right. by eapply laid_out_after.
  - apply IH; [by eapply laid_out_tail|done..].
Qed.

(** [chain] only reads the headers. *)
Definition header_of (bs : list block) (a : Z) : Prop :=
  ∃ b, b ∈ bs ∧ b_head b <= a < b_head b + sizeof_head.

Lemma ld4_ext m m' a :
  (∀ i, 0 <= i < 4 → ld8 m (a + i) = ld8 m' (a + i)) → ld 4 m a = ld 4 m' a.
Proof. intros H. unfold ld. f_equal. apply ld_bytes_ext. intros i Hi. apply H. lia. Qed.

Lemma chain_ext m m' bs :
  (∀ a, header_of bs a → ld8 m a = ld8 m' a) → chain m bs → chain m' bs.
Proof.
  induction bs as [|b bs IH]; intros H; [done|]. intros (H1 & H2 & H3 & H4).
  assert (∀ k, 0 <= k <= 12 → ld 4 m (b_head b + k) = ld 4 m' (b_head b + k)) as E.
  { intros k Hk. apply ld4_ext. intros i Hi. apply H. exists b. unfold sizeof_head.
    split; [apply elem_of_cons; by left|lia]. }
  cbn [chain]. rewrite <- !E by (unfold head_next, head_magic, head_size; lia).
  split_and!; try done. apply IH; [|done]. intros a (b' & Hb' & Ha). apply H. exists b'.
  split; [apply elem_of_cons; by right|done].
Qed.

Lemma chain_tail m b bs : chain m (b :: bs) → chain m bs.
Proof. by intros (_ & _ & _ & H). Qed.

(** ** Writing header fields *)
Ltac fields := unfold head_next, head_magic, head_size, in_space, disjoint,
  outside, b_end, b_data, sizeof_head, NULL in *.
Ltac field_lia := fields; cbn [b_head b_size] in *; simpl Z.of_nat in *; lia.

(** A store of four bytes inside a range that holds no header of [bs]. *)
Lemma chain_st4_out m bs a v lo hi :
  0 <= lo → hi <= 4294967296 → lo <= a → a + 4 <= hi →
  (∀ x, header_of bs x → 0 <= x < 4294967296 ∧ (x < lo ∨ hi <= x)) →
  chain m bs → chain (st 4 m a v) bs.
Proof.
  intros Hlo Hhi Ha Ha' Hout. apply chain_ext. intros x Hx. destruct (Hout x Hx).
  symmetry. apply ld8_st_other; field_lia.
Qed.

Lemma laid_out_headers_after b rest x :
  laid_out (b :: rest) → header_of rest x → b_end b <= x < 4294967296.
Proof.
  intros Hl (c & Hc & Hx). pose proof (laid_out_after _ _ _ Hl Hc).
  pose proof (laid_out_in _ _ (laid_out_tail _ _ Hl) Hc). field_lia.
Qed.

Lemma head_next_app pre (x x' : block) post :
  b_head x = b_head x' →
  match pre ++ x' :: post with [] => NULL | b :: _ => b_head b end =
  match pre ++ x :: post with [] => NULL | b :: _ => b_head b end.
Proof. intros E. by destruct pre. Qed.

(** Changing the magic of one block. *)
Lemma chain_set_magic m pre x post u :
  laid_out (pre ++ x :: post) → chain m (pre ++ x :: post) →
  chain (st 4 m (b_head x + head_magic) (b_magic (Block (b_head x) (b_size x) u)))
    (pre ++ Block (b_head x) (b_size x) u :: post).
Proof.
  intros Hl Hc. induction pre as [|c pre IH]; cbn [app] in *.
  - pose proof (laid_out_head_in _ _ Hl). destruct Hc as (H1 & H2 & H3 & H4).
    cbn [chain b_head b_size]. split_and!.
    + rewrite ld_st_other by field_lia. done.
    + rewrite ld4_st4_same; [done|field_lia|]. by destruct u.
    + rewrite ld_st_other by field_lia. done.
    + eapply (chain_st4_out _ _ _ _ (b_head x) (b_head x + 16)); try field_lia; [|done].
      intros y Hy. pose proof (laid_out_headers_after _ _ _ Hl Hy). field_lia.
  - assert (b_end c <= b_head x).
    { apply (laid_out_after c (pre ++ x :: post)); [done|]. apply elem_of_app; right.
      apply elem_of_cons; by left. }
    pose proof (laid_out_head_in _ _ Hl).
    pose proof (laid_out_in _ x (laid_out_tail _ _ Hl)) as Hx.
    destruct Hx as (? & ? & ? & ?). { apply elem_of_app; right. apply elem_of_cons; by left. }
    destruct Hc as (Hc1 & Hc2 & Hc3 & Hc4). cbn [chain].
    rewrite !ld_st_other by field_lia. rewrite (head_next_app pre x (Block (b_head x) (b_size x) u)) by done.
    split_and!; try done. apply IH; [by eapply laid_out_tail|done].
Qed.

Lemma laid_out_set_used pre x post u :
  laid_out (pre ++ x :: post) → laid_out (pre ++ Block (b_head x) (b_size x) u :: post).
Proof.
  induction pre as [|c pre IH]; cbn [app]; intros Hl; [done|].
  destruct Hl as (H1 & H2 & H3 & H4 & H5). cbn [laid_out]. split_and!; try done; [|by apply IH].
  destruct pre; done.
Qed.

(** Linking a new block after the last one: the four stores of the code. *)
Definition link_block (m : gmap Z Z) (q p sz : Z) : gmap Z Z :=
  st 4 (st 4 (st 4 (st 4 m (p + head_magic) BL_HEAP_BLOCK_HEAD_USED_MAGIC)
    (p + head_size) sz) (p + head_next) NULL) (q + head_next) p.

Lemma chain_link m bs q p sz :
  last bs = Some q → laid_out bs → chain m bs →
  b_end q <= p → p + sizeof_head <= 4294967296 → 0 <= sz < 4294967296 →
  chain (link_block m (b_head q) p sz) (bs ++ [Block p sz true]).
Proof.
  intros Hlast Hl Hc Hqp Hp Hsz. unfold link_block.
  induction bs as [|c bs IH]; [done|]. destruct bs as [|c' bs].
  - simpl in Hlast. simplify_eq. pose proof (laid_out_head_in _ _ Hl).
    destruct Hc as (Hc1 & Hc2 & Hc3 & Hc4). cbn [app chain b_head b_size]. split_and!; try done.
    all: rewrite ?ld_st_other by field_lia; try done; apply ld4_st4_same; try field_lia;
      unfold b_magic, BL_HEAP_BLOCK_HEAD_USED_MAGIC, BL_HEAP_BLOCK_HEAD_FREE_MAGIC;
      try (by destruct (b_used q)).
    all: done.
  - assert (last (c' :: bs) = Some q) as Hlast' by done.
    assert (b_end c <= b_head q).
    { apply (laid_out_after c (c' :: bs)); [done|]. by apply last_Some_elem_of. }
    pose proof (laid_out_head_in _ _ Hl).
    destruct (laid_out_in (c' :: bs) q (laid_out_tail _ _ Hl)) as (? & ? & ? & ?);
      [by apply last_Some_elem_of|].
    specialize (IH Hlast' (laid_out_tail _ _ Hl) (chain_tail _ _ _ Hc)).
    destruct Hc as (Hc1 & Hc2 & Hc3 & _). cbn [app chain] in *. split_and!; try apply IH.
    all: by rewrite !ld_st_other by field_lia.
Qed.

Lemma laid_out_snoc bs q nb :
  last bs = Some q → laid_out bs → b_end q <= b_head nb → b_head nb mod 16 = 0 →
  0 < b_head nb → 0 <= b_size nb → b_end nb <= 4294967296 → laid_out (bs ++ [nb]).
Proof.
  intros Hlast Hl ? ? ? ? ?. induction bs as [|c bs IH]; [done|]. destruct bs as [|c' bs].
  - simpl in Hlast. simplify_eq. destruct Hl as (? & ? & ? & ? & _). done.
  - specialize (IH Hlast (laid_out_tail _ _ Hl)). destruct Hl as (? & ? & ? & ? & _).
    cbn [app laid_out] in *. done.
Qed.

(** ** First fit *)
Lemma take_block_spec sz al bs x bs' :
  take_block sz al bs = Some (x, bs') →
  ∃ pre post, bs = pre ++ x :: post ∧ bs' = pre ++ Block (b_head x) (b_size x) true :: post ∧
    fits sz al x = true.
Proof.
  revert bs'. induction bs as [|b bs IH]; intros bs' H; [done|]. cbn [take_block] in H.
  destruct bs as [|b' bs]; [done|]. destruct (fits sz al b) eqn:Hf.
  - simplify_eq. by exists [], (b' :: bs).
  - destruct (take_block sz al (b' :: bs)) as [[y r]|]; [|done]. simplify_eq.
    destruct (IH r) as (pre & post & -> & -> & Hx); [done|]. by exists (b :: pre), post.
Qed.

(** The state of the search: the blocks behind [b] do not fit. *)
Definition searching (sz al : Z) (bs : list block) (q p : Z) : Prop :=
  ∃ pre b rest, bs = pre ++ b :: rest ∧ q = b_head b ∧
    p = match rest with [] => NULL | b' :: _ => b_head b' end ∧
    take_block sz al bs =
    match take_block sz al (b :: rest) with Some (x, r) => Some (x, pre ++ r) | None => None end.

Lemma searching_next sz al bs pre b b' rest :
  bs = pre ++ b :: b' :: rest → fits sz al b = false →
  take_block sz al bs =
  match take_block sz al (b :: b' :: rest) with Some (x, r) => Some (x, pre ++ r) | None => None end →
  searching sz al bs (b_head b') (match rest with [] => NULL | b'' :: _ => b_head b'' end).
Proof.
  intros -> Hf Ht. exists (pre ++ [b]), b', rest. split_and!; try done.
  - by rewrite <- app_assoc.
  - rewrite Ht. cbn [take_block]. rewrite Hf.
    destruct (match rest with [] => None | _ :: _ => _ end) as [[x r]|]; [|done].
    by rewrite <- app_assoc.
Qed.

Lemma chain_at m pre b rest : chain m (pre ++ b :: rest) → chain m (b :: rest).
Proof. induction pre as [|c pre IH]; [done|]. intros H. apply IH. by eapply chain_tail. Qed.

Lemma laid_out_at pre b rest : laid_out (pre ++ b :: rest) → laid_out (b :: rest).
Proof. induction pre as [|c pre IH]; [done|]. intros H. apply IH. by eapply laid_out_tail. Qed.

(** What the search returns, and what it leaves in memory. *)
Definition search_result (s : machine) (sz al : Z) (bs : list block) (r : Z + Z) (s' : machine) : Prop :=
  match take_block sz al bs with
  | Some (x, bs') =>
      r = inl (b_data x) ∧
      s' = set_mem (st 4 (mem s) (b_head x + head_magic) BL_HEAP_BLOCK_HEAD_USED_MAGIC) s
  | None => ∃ q, last bs = Some q ∧ r = inr (b_head q) ∧ s' = s
  end.

Lemma fits_test b sz k :
  0 <= k < 32 → 0 <= b_data b < 4294967296 →
  negb (truth (Z.land (u32 (b_head b + sizeof_head)) (u32 (2 ^ k - 1)))) && (sz <=? b_size b) =
  (b_data b mod 2 ^ k =? 0) && (sz <=? b_size b).
Proof.
  intros Hk Hd. pose proof (pow2_32 k Hk). fold (b_data b).
  rewrite u32_small, (u32_small (2 ^ k - 1)), land_mask by lia.
  unfold truth. by rewrite negb_involutive.
Qed.

Lemma heap_search_run s sz k bs b rest :
  bs = b :: rest → laid_out bs → chain (mem s) bs → 0 <= k < 32 →
  wp (heap_search (b_head b) sz (2 ^ k)) (search_result s sz (2 ^ k) bs) s.
Proof.
  intros Hbs Hl Hc Hk. unfold heap_search. do 2 wp_step.
  assert (Hn : ld 4 (mem s) (b_head b + head_next) =
               match rest with [] => NULL | b' :: _ => b_head b' end).
  { subst bs. by destruct Hc as (? & _). }
  wp_loop (λ '(q, p) s', s' = s ∧ searching sz (2 ^ k) bs q p) (λ '(q, _) _, 4294967296 - q).
  - intros [q p] s' (-> & pre & c & rest' & Hsplit & -> & -> & Ht).
    rewrite Hsplit in Hl, Hc. pose proof (laid_out_at _ _ _ Hl) as Hl'.
    destruct (chain_at _ _ _ _ Hc) as (Hc1 & Hc2 & Hc3 & Hc4).
    pose proof (laid_out_head_in _ _ Hl') as Hin.
    destruct rest' as [|c' rest'].
    + change (truth NULL) with false. cbv iota. wp_step. unfold search_result. rewrite Ht. cbn [take_block].
      exists c. split_and!; [|done..]. rewrite Hsplit. apply last_snoc.
    + pose proof (laid_out_after _ _ c' Hl' ltac:(apply elem_of_cons; by left)).
      pose proof (laid_out_head_in _ _ (laid_out_tail _ _ Hl')).
      rewrite truth_pos by field_lia. do 4 wp_step. rewrite Hc2, Hc3.
      rewrite fits_test by field_lia.
      destruct Hc4 as (Hn' & _). unfold b_magic.
      destruct (fits sz (2 ^ k) c) eqn:Hf.
      * unfold fits in Hf. destruct (b_used c) eqn:Hu; [done|]. simpl in Hf. simpl. rewrite Hf.
        do 3 wp_step. unfold search_result. rewrite Ht. cbn [take_block].
        unfold fits. rewrite Hu. simpl. rewrite Hf. split; [|done].
        f_equal. apply u32_small. field_lia.
      * destruct (b_used c) eqn:Hu; unfold fits in Hf; rewrite Hu in Hf; simpl in Hf; simpl.
        -- do 3 wp_step. split; [|field_lia]. split; [done|]. rewrite Hn'.
           eapply searching_next; [exact Hsplit| |done]. unfold fits. by rewrite Hu.
        -- rewrite Hf. do 3 wp_step. split; [|field_lia]. split; [done|]. rewrite Hn'.
           eapply searching_next; [exact Hsplit| |done]. unfold fits. by rewrite Hu.
  - split; [done|]. exists [], b, rest. split_and!; try done. rewrite Hbs.
    by destruct (take_block sz (2 ^ k) (b :: rest)) as [[??]|].
  - subst bs. pose proof (laid_out_head_in _ _ Hl). field_lia.
Qed.

(** ** Allocation *)
Definition heap_frame (s s' : machine) (bs' : list block) : Prop :=
  (∀ a, 0 <= a < 4294967296 → ¬ header_of bs' a → ld8 (mem s') a = ld8 (mem s) a) ∧
  bl_strtok_str s' = bl_strtok_str s ∧ console s' = console s ∧
  bl_print_callback s' = bl_print_callback s.

Lemma place_spec q k :
  0 < b_head q → b_head q mod 16 = 0 → 0 <= b_size q → 0 <= k < 32 →
  b_end q + sizeof_head <= place q (2 ^ k) ∧
  place q (2 ^ k) <= b_end q + sizeof_head + 15 + 2 ^ k - 1 ∧
  place q (2 ^ k) mod 2 ^ k = 0 ∧ (place q (2 ^ k) - sizeof_head) mod 16 = 0.
Proof.
  intros Hh Hm Hs Hk. pose proof (pow2_32 k Hk). unfold place.
  pose proof (round_up_spec (b_end q + sizeof_head) 16 ltac:(lia)) as [H1 H2].
  pose proof (round_up_spec (round_up (b_end q + sizeof_head) 16) (2 ^ k) ltac:(lia)) as [H3 H4].
  split_and!; [lia|lia|done|].
  unfold sizeof_head at 2. rewrite <- Zminus_mod_idemp_l, round_up_16 by (done || lia). done.
Qed.

Lemma header_of_app_new bs nb a :
  b_head nb <= a < b_head nb + sizeof_head → header_of (bs ++ [nb]) a.
Proof. intros Ha. exists nb. split; [|done]. apply elem_of_app. right. by apply list_elem_of_singleton. Qed.

Lemma link_block_frame m bs q p sz a :
  last bs = Some q → laid_out bs → b_end q <= p → p + sizeof_head <= 4294967296 →
  0 <= a < 4294967296 → ¬ header_of (bs ++ [Block p sz true]) a →
  ld8 (link_block m (b_head q) p sz) a = ld8 m a.
Proof.
  intros Hlast Hl Hqp Hp Ha Hno.
  destruct (laid_out_in bs q Hl) as (? & ? & ? & ?); [by apply last_Some_elem_of|].
  assert (a < p ∨ p + sizeof_head <= a).
  { destruct (decide (p <= a < p + sizeof_head)) as [Hin|]; [|lia].
    destruct Hno. by apply header_of_app_new. }
  assert (a < b_head q ∨ b_head q + sizeof_head <= a).
  { destruct (decide (b_head q <= a < b_head q + sizeof_head)) as [Hin|]; [|lia].
    destruct Hno. exists q. split; [|done]. apply elem_of_app. left. by apply last_Some_elem_of. }
  unfold link_block. rewrite !ld8_st_other by field_lia. done.
Qed.

Lemma with_heap_id s : with_heap (bl_heap s) (occupied_blocks s) (free_blocks s) s = s.
Proof. by destruct s. Qed.

(** Allocation in a non-empty heap implements [alloc_spec]. *)
Lemma alloc_align_run s bs sz k :
  heap_inv s bs → bs ≠ [] → 0 <= k < 32 → 0 <= sz < 4294967296 → room s bs sz (2 ^ k) →
  ∃ p bs' s', alloc_spec sz (2 ^ k) bs = Some (p, bs') ∧
    bl_heap_alloc_align sz (2 ^ k) s = Some (p, s') ∧ heap_inv s' bs' ∧ heap_frame s s' bs'.
Proof.
  intros Hinv Hne Hk Hsz Hroom. destruct bs as [|b rest]; [done|].
  destruct Hinv as (Hh & Hocc & Hl & Hc). pose proof (pow2_32 k Hk) as Hp2.
  pose proof (laid_out_head_in _ _ Hl) as (Hb0 & _).
  assert (Hun : bl_heap_alloc_align sz (2 ^ k) s = __bl_heap_alloc_align (b_head b) sz (2 ^ k) s).
  { unfold bl_heap_alloc_align, mbind, ST_bind, get, is_null. rewrite Hh, Hocc.
    destruct (Z.eqb_spec (b_head b) 0); [lia|]. destruct (Z.eqb_spec (2 ^ k) 0); [lia|].
    by rewrite u32_small, land_pred_pow2, truth_0, truth_1 by lia. }
  rewrite Hun. clear Hun.
  pose proof (heap_search_run s sz k _ b rest eq_refl Hl Hc Hk) as Hs.
  apply wp_run in Hs as (r & s1 & Hrun & Hres). unfold search_result in Hres.
  unfold __bl_heap_alloc_align, mbind at 1, ST_bind at 1. rewrite Hrun.
  unfold alloc_spec. destruct (take_block sz (2 ^ k) (b :: rest)) as [[x bs']|] eqn:Ht.
  - destruct Hres as (-> & ->).
    destruct (take_block_spec _ _ _ _ _ Ht) as (pre & post & Hsplit & -> & Hf).
    eexists _, _, _. split; [done|]. split; [done|].
    rewrite Hsplit in Hl, Hc. pose proof (chain_set_magic _ _ _ _ true Hl Hc) as Hc'.
    pose proof (laid_out_set_used _ _ _ true Hl) as Hl'.
    split.
    + destruct pre as [|c pre]; cbn [app] in *; simplify_eq; done.
    + split; [|done]. intros a Ha Hno. machine_simpl.
      destruct (laid_out_in _ x Hl) as (? & ? & ? & ?).
      { apply elem_of_app; right. apply elem_of_cons; by left. }
      assert (a < b_head x ∨ b_head x + sizeof_head <= a).
      { destruct (decide (b_head x <= a < b_head x + sizeof_head)) as [Hin|]; [|lia].
        destruct Hno. exists (Block (b_head x) (b_size x) true). split; [|exact Hin].
        apply elem_of_app; right. apply elem_of_cons; by left. }
      apply ld8_st_other; field_lia.
  - destruct Hres as (q & Hlast & -> & ->). rewrite Hlast. cbn [mbind option_bind].
    assert (Hq : q ∈ b :: rest) by (by apply last_Some_elem_of).
    destruct (laid_out_in _ q Hl Hq) as (Hq1 & Hq2 & Hq3 & Hq4).
    destruct (place_spec q k Hq1 Hq2 Hq3 Hk) as (Hp1 & Hp3 & Hp4 & Hp5).
    unfold room, heap_end in Hroom. rewrite Hlast in Hroom.
    assert (Hsize : ld 4 (mem s) (b_head q + head_size) = b_size q).
    { apply last_Some in Hlast as [l' El]. rewrite El in Hc.
      by destruct (chain_at _ _ _ _ Hc) as (_ & _ & ? & _). }
    set (al := place q (2 ^ k)) in *.
    assert (Hal : (let alloc := BL_MEMORY_ALIGN_UP (b_head q + sizeof_head + b_size q + sizeof_head)
                                  BL_HEAP_MEM_ALIGN in
                   if truth (Z.land alloc (u32 (2 ^ k - 1)))
                   then BL_MEMORY_ALIGN_UP alloc (2 ^ k) else alloc) = al).
    { pose proof (round_up_spec (b_end q + sizeof_head) 16 ltac:(lia)) as [? _].
      change BL_HEAP_MEM_ALIGN with (2 ^ 4). rewrite (align_up_pow2 _ 4); [|field_lia..].
      change (round_up _ (2 ^ 4)) with (round_up (b_end q + sizeof_head) 16).
      cbv zeta. apply align_if_needed; field_lia. }
    eexists al, _, _. split; [done|]. split.
    { unfold rd32, wr32, modify, gets, mbind, ST_bind. rewrite Hsize. cbv zeta in Hal.
      rewrite Hal, (u32_small (al - sizeof_head)) by field_lia. reflexivity. }
    change (with_mem ?f ?t) with (set_mem (f (mem t)) t). machine_simpl.
    fold (link_block (mem s) (b_head q) (al - sizeof_head) sz).
    split; [|split; [|done]].
    + assert (chain (link_block (mem s) (b_head q) (al - sizeof_head) sz)
                ((b :: rest) ++ [Block (al - sizeof_head) sz true])).
      { apply chain_link; try done; field_lia. }
      assert (laid_out ((b :: rest) ++ [Block (al - sizeof_head) sz true])).
      { eapply laid_out_snoc; try done; cbn [b_head b_size]; try field_lia. }
      done.
    + intros a Ha Hno. machine_simpl. eapply link_block_frame; try done; field_lia.
Qed.

(** The first allocation: only [bl_heap], not the payload, gets aligned. *)
Lemma alloc_first_run s sz k :
  heap_inv s [] → 0 <= k < 32 → 0 <= sz < 4294967296 → room s [] sz (2 ^ k) →
  let h := round_up (bl_heap s) (2 ^ k) in
  ∃ s', bl_heap_alloc_align sz (2 ^ k) s = Some (h + sizeof_head, s') ∧
    heap_inv s' [Block h sz true] ∧ heap_frame s s' [Block h sz true].
Proof.
  intros (Hh & Hm & Hocc & Hfree) Hk Hsz Hroom h. pose proof (pow2_32 k Hk).
  unfold room, heap_end in Hroom. simpl in Hroom.
  pose proof (round_up_spec (bl_heap s) (2 ^ k) ltac:(lia)) as [Hr1 Hr2]. fold h in Hr1, Hr2.
  assert (Hh16 : h mod 16 = 0) by (apply round_up_16; [lia|done]).
  exists (set_mem (st_bytes (mem s) h (le_split 4 NULL ++
      le_split 4 BL_HEAP_BLOCK_HEAD_USED_MAGIC ++ le_split 4 sz)) (with_heap h 1 0 s)).
  split.
  { unfold bl_heap_alloc_align, mbind, ST_bind, get, is_null.
    destruct (Z.eqb_spec (bl_heap s) 0); [lia|]. destruct (Z.eqb_spec (2 ^ k) 0); [lia|].
    rewrite u32_small, land_pred_pow2, truth_0, Hocc, Hfree by lia. cbn -[BL_MEMORY_ALIGN_UP Z.land st_bytes le_split u32 Z.pow].
    replace (Z.land (bl_heap s) (2 ^ k - 1)) with (Z.land (bl_heap s) (u32 (2 ^ k - 1)))
      by (by rewrite u32_small by lia).
    rewrite align_if_needed by field_lia. fold h. rewrite (u32_small (h + sizeof_head)) by field_lia.
    by rewrite Hocc, Hfree. }
  split.
  - cbn [heap_inv laid_out chain]. rewrite mem_set_mem. split_and!; try done; try field_lia.
    all: unfold ld.
    all: rewrite st_bytes_app, st_bytes_app; rewrite ?length_le_split.
    all: cbn [b_head b_size]; change (Z.of_nat 4) with 4.
    all: replace (h + 4 + 4) with (h + 8) by lia.
    + rewrite !ld_bytes_st_bytes_out by (rewrite ?length_le_split; field_lia).
      unfold head_next. rewrite Z.add_0_r.
      apply (ld4_st4_same _ h NULL); [field_lia|done].
    + rewrite ld_bytes_st_bytes_out by (rewrite ?length_le_split; field_lia).
      apply (ld4_st4_same _ (h + 4) BL_HEAP_BLOCK_HEAD_USED_MAGIC); [field_lia|done].
    + apply (ld4_st4_same _ (h + 8) sz); [field_lia|done].
  - split; [|done]. intros a Ha Hno. machine_simpl.
    assert (a < h ∨ h + sizeof_head <= a).
    { destruct (decide (h <= a < h + sizeof_head)) as [Hin|]; [|lia].
      destruct Hno. eexists. split; [by apply list_elem_of_singleton|done]. }
    rewrite ld8_st_bytes_out; [done|..]; rewrite ?length_app, ?length_le_split; field_lia.
Qed.

(** ** What an allocation gives its caller *)
Lemma elem_of_insert_block (x b : block) pre post :
  b ∈ pre ++ x :: post → b = x ∨ ∀ y, b ∈ pre ++ y :: post.
Proof.
  intros [Hb|Hb]%elem_of_app; [right; intros y; by apply elem_of_app; left|].
  apply elem_of_cons in Hb as [->|Hb]; [by left|].
  right. intros y. apply elem_of_app; right. by apply elem_of_cons; right.
Qed.

Lemma elem_of_block_mid (x : block) pre post : x ∈ pre ++ x :: post.
Proof. apply elem_of_app; right. apply elem_of_cons; by left. Qed.

Lemma alloc_spec_safe bs sz k p bs' :
  0 <= k < 32 → laid_out bs → laid_out bs' → 0 <= sz →
  alloc_spec sz (2 ^ k) bs = Some (p, bs') →
  p mod 2 ^ k = 0 ∧
  ∃ nb, nb ∈ bs' ∧ b_used nb = true ∧ b_data nb = p ∧ sz <= b_size nb ∧
    ∀ b, b ∈ bs → b_used b = true →
      b ∈ bs' ∧ (b_end b <= b_head nb ∨ b_end nb <= b_head b).
Proof.
  intros Hk Hl Hl' Hsz H. pose proof (pow2_32 k Hk). unfold alloc_spec in H.
  destruct (take_block sz (2 ^ k) bs) as [[x r]|] eqn:Ht.
  - simplify_eq. destruct (take_block_spec _ _ _ _ _ Ht) as (pre & post & -> & -> & Hf).
    unfold fits in Hf. apply andb_prop in Hf as [[Hu Hm]%andb_prop Hs].
    split; [by apply Z.eqb_eq|]. eexists. split; [apply elem_of_block_mid|].
    split_and!; [done|done|by apply Z.leb_le|]. intros b Hb Hbu.
    destruct (elem_of_insert_block _ _ _ _ Hb) as [->|Hin]; [by rewrite Hbu in Hu|].
    split; [apply Hin|].
    destruct (laid_out_disjoint _ b x Hl Hb (elem_of_block_mid _ _ _)) as [->|]; [|done].
    by rewrite Hbu in Hu.
  - destruct (last bs) as [q|] eqn:Hlast; [|done]. cbn in H. simplify_eq.
    assert (Hq : q ∈ bs) by (by apply last_Some_elem_of).
    destruct (laid_out_in _ q Hl Hq) as (Hq1 & Hq2 & Hq3 & Hq4).
    destruct (place_spec q k Hq1 Hq2 Hq3 Hk) as (Hp1 & _ & Hp2 & _).
    split; [done|]. eexists. split; [apply elem_of_block_mid|].
    split_and!; [done|field_lia|done|]. intros b Hb _. split; [by apply elem_of_app; left|].
    left. destruct (laid_out_in _ b Hl Hb) as (? & ? & ? & ?).
    apply last_Some in Hlast as [l ->]. pose proof Hb as Hb'.
    apply elem_of_app in Hb as [Hb| ->%list_elem_of_singleton]; [|field_lia].
    destruct (laid_out_disjoint _ b q Hl Hb' Hq) as [->|[?|Hbad]]; [field_lia..|].
    exfalso. clear -Hl Hb Hbad. induction l as [|c l IH]; [by apply not_elem_of_nil in Hb|].
    apply elem_of_cons in Hb as [->|Hb]; [|apply IH; [by eapply laid_out_tail|done]].
    pose proof (laid_out_after _ _ q Hl ltac:(apply elem_of_app; right; by apply list_elem_of_singleton)).
    pose proof (laid_out_head_in _ _ Hl).
    destruct (laid_out_in (c :: l ++ [q]) q Hl) as (? & ? & ? & ?).
    { apply elem_of_cons; right. apply elem_of_app; right. by apply list_elem_of_singleton. }
    field_lia.
Qed.

Lemma heap_inv_laid_out s bs : heap_inv s bs → laid_out bs.
Proof. destruct bs as [|b bs]; [done|]. by intros (_ & _ & ? & _). Qed.

(** The last block after an allocation does not end much further. *)
Lemma alloc_spec_end s s' bs sz k p bs' :
  0 <= k < 32 → laid_out bs → 0 <= sz → bs ≠ [] →
  alloc_spec sz (2 ^ k) bs = Some (p, bs') →
  heap_end s' bs' <= heap_end s bs + 2 * sizeof_head + 2 ^ k + sz ∧
  heap_end s bs <= heap_end s' bs'.
Proof.
  intros Hk Hl Hsz Hne H. pose proof (pow2_32 k Hk). unfold alloc_spec in H.
  destruct (take_block sz (2 ^ k) bs) as [[x r]|] eqn:Ht.
  - simplify_eq. destruct (take_block_spec _ _ _ _ _ Ht) as (pre & post & -> & -> & Hf).
    assert (heap_end s' (pre ++ Block (b_head x) (b_size x) true :: post)
            = heap_end s (pre ++ x :: post)) as ->; [|field_lia].
    unfold heap_end. rewrite !last_app_cons.
    destruct post as [|c post]; [done|]. rewrite !last_cons_cons.
    destruct (last (c :: post)) eqn:E; [done|by apply last_None in E].
  - destruct (last bs) as [q|] eqn:Hlast; [|done]. cbn in H. simplify_eq.
    destruct (laid_out_in bs q Hl) as (Hq1 & Hq2 & Hq3 & Hq4); [by apply last_Some_elem_of|].
    destruct (place_spec q k Hq1 Hq2 Hq3 Hk) as (Hp1 & Hp2 & _).
    unfold heap_end. rewrite last_snoc, Hlast. field_lia.
Qed.

(** Everything a client of an allocation relies on that lets the heap grow by at
    most [g] bytes. *)
Definition alloc_ok (s : machine) (bs : list block) (sz g p : Z) (s' : machine) (bs' : list block) : Prop :=
  heap_inv s' bs' ∧ bl_heap s' = bl_heap s ∧ heap_frame s s' bs' ∧ owned bs' p sz ∧
  0 < p ∧ p mod 16 = 0 ∧ p + sz <= 4294967296 ∧
  heap_end s' bs' <= heap_end s bs + g ∧ heap_end s bs <= heap_end s' bs' ∧
  (∀ b, b ∈ bs → b_used b = true → b ∈ bs' ∧ disjoint p sz (b_head b) (sizeof_head + b_size b)) ∧
  ∀ c, c ∈ bs' → c ∈ bs ∨ b_data c = p.

(** No block comes into use but the one that is returned. *)
Lemma alloc_spec_new sz al bs p bs' c :
  alloc_spec sz al bs = Some (p, bs') → c ∈ bs' → c ∈ bs ∨ b_data c = p.
Proof.
  unfold alloc_spec. destruct (take_block sz al bs) as [[x r]|] eqn:Ht.
  - intros [= <- <-] Hc. destruct (take_block_spec _ _ _ _ _ Ht) as (pre & post & -> & -> & _).
    apply elem_of_insert_block in Hc as [->|Hc]; [by right|by left].
  - destruct (last bs) as [q|]; [|done]. cbn. intros [= <- <-] Hc. apply elem_of_app in Hc as [Hc|Hc]; [by left|].
    apply list_elem_of_singleton in Hc as ->. right. unfold b_data. cbn [b_head]. lia.
Qed.

(** The first block stays where it is. *)
Lemma heap_inv_head s b bs : heap_inv s (b :: bs) → bl_heap s = b_head b.
Proof. by intros (? & _). Qed.
Lemma alloc_spec_head s s' bs sz al p bs' :
  bs ≠ [] → heap_inv s bs → heap_inv s' bs' → alloc_spec sz al bs = Some (p, bs') → bl_heap s' = bl_heap s.
Proof.
  intros Hne Hinv Hinv' Hspec. destruct bs as [|b0 bs]; [done|]. rewrite (heap_inv_head _ _ _ Hinv).
  unfold alloc_spec in Hspec. destruct (take_block sz al (b0 :: bs)) as [[x r]|] eqn:Ht.
  - injection Hspec as <- <-. destruct (take_block_spec _ _ _ _ _ Ht) as (pre & post & E & -> & _).
    destruct pre as [|c pre]; simpl in E; injection E as -> ->; exact (heap_inv_head _ _ _ Hinv').
  - destruct (last (b0 :: bs)) as [q|]; [|done]. injection Hspec as <- <-. exact (heap_inv_head _ _ _ Hinv').
Qed.

Lemma alloc_align_ok s bs sz k :
  heap_inv s bs → bs ≠ [] → 0 <= k < 32 → 0 <= sz < 4294967296 → room s bs sz (2 ^ k) →
  ∃ p bs' s', bl_heap_alloc_align sz (2 ^ k) s = Some (p, s') ∧ p mod 2 ^ k = 0 ∧
    alloc_ok s bs sz (2 * sizeof_head + 2 ^ k + sz) p s' bs'.
Proof.
  intros Hinv Hne Hk Hsz Hroom. pose proof (pow2_32 k Hk).
  destruct (alloc_align_run s bs sz k Hinv Hne) as (p & bs' & s' & Hspec & Hrun & Hinv' & Hfr); [done..|].
  exists p, bs', s'. split; [done|]. pose proof (heap_inv_laid_out _ _ Hinv) as Hl.
  pose proof (heap_inv_laid_out _ _ Hinv') as Hl'.
  destruct (alloc_spec_safe bs sz k p bs') as (Hmod & nb & Hnb & Hu & Hd & Hs & Hdisj); [lia|done..|lia|done|].
  destruct (alloc_spec_end s s' bs sz k p bs') as (He1 & He2); [lia|done|lia|done|done|].
  destruct (laid_out_in _ nb Hl' Hnb) as (Hn1 & Hn2 & Hn3 & Hn4). split; [done|].
  split; [done|]. split; [by eapply alloc_spec_head|]. split; [done|]. split; [by exists nb|]. subst p.
  split_and!; try field_lia.
  - unfold b_data, sizeof_head. rewrite Z.add_mod, Hn2 by lia. done.
  - intros b Hb Hbu. destruct (Hdisj b Hb Hbu) as [? ?]. split; [done|].
    destruct (laid_out_in _ b Hl Hb) as (? & ? & ? & ?). field_lia.
  - intros c Hc. by apply (alloc_spec_new _ _ _ _ _ _ Hspec).
Qed.

Lemma bl_heap_alloc_run s bs sz :
  heap_inv s bs → 0 <= sz < 4294967296 → room s bs sz 1 →
  ∃ p bs' s', bl_heap_alloc sz s = Some (p, s') ∧ alloc_ok s bs sz (3 * sizeof_head + sz) p s' bs'.
Proof.
  intros Hinv Hsz Hroom. unfold bl_heap_alloc. change 1 with (2 ^ 0) at 1.
  destruct (decide (bs = [])) as [->|Hne].
  - destruct (alloc_first_run s sz 0 Hinv) as (s' & Hrun & Hinv' & Hfr); [lia..|done|].
    change (2 ^ 0) with 1 in *.
    assert (Hru : round_up (bl_heap s) 1 = bl_heap s) by (by rewrite round_up_id; [|lia|apply Z.mod_1_r]).
    rewrite Hru in *. eexists _, _, _. split; [done|].
    destruct Hinv as (Hh & Hm & _). unfold room, heap_end in Hroom. simpl in Hroom.
    split; [done|]. split; [exact (heap_inv_head _ _ _ Hinv')|]. split; [done|]. split.
    { eexists. split; [by apply list_elem_of_singleton|]. done. }
    unfold heap_end. simpl. split_and!; try field_lia.
    + unfold sizeof_head. rewrite Z.add_mod, Hm by lia. done.
    + intros b Hb. by apply not_elem_of_nil in Hb.
    + intros c Hc. apply list_elem_of_singleton in Hc as ->. by right.
  - destruct (alloc_align_ok s bs sz 0 Hinv Hne) as (p & bs' & s' & Hrun & _ & Hok); [lia..|done|].
    exists p, bs', s'. split; [done|]. destruct Hok as (H1 & H2 & H3 & H4 & H5 & H6 & H7 & H8 & H9).
    split_and!; try done; try apply H9. change (2 ^ 0) with 1 in H8. unfold sizeof_head in *. lia.
Qed.

(** ** Freeing *)
Lemma free_spec_split pre b post :
  laid_out (pre ++ b :: post) →
  free_spec (b_data b) (pre ++ b :: post) = pre ++ Block (b_head b) (b_size b) false :: post.
Proof.
  intros Hl. unfold free_spec. rewrite map_app. cbn [map]. rewrite Z.eqb_refl.
  assert (Hid : ∀ l, (∀ c, c ∈ l → b_data c ≠ b_data b) →
    map (λ b0, if b_data b0 =? b_data b then Block (b_head b0) (b_size b0) false else b0) l = l).
  { induction l as [|c l IH]; intros Hc; [done|]. cbn [map].
    destruct (Z.eqb_spec (b_data c) (b_data b)) as [E|].
    - destruct (Hc c); [apply elem_of_cons; by left|done].
    - f_equal. apply IH. intros d Hd. apply Hc. apply elem_of_cons; by right. }
  f_equal; [|f_equal]; apply Hid; intros c Hc E.
  - induction pre as [|d pre IH]; [by apply not_elem_of_nil in Hc|].
    apply elem_of_cons in Hc as [->|Hc]; [|apply IH; [by eapply laid_out_tail|done]].
    pose proof (laid_out_after _ _ b Hl (elem_of_block_mid _ _ _)).
    pose proof (laid_out_head_in _ _ Hl). field_lia.
  - pose proof (laid_out_after _ _ c (laid_out_at _ _ _ Hl) Hc).
    pose proof (laid_out_head_in _ _ (laid_out_at _ _ _ Hl)). field_lia.
Qed.

Lemma bl_heap_free_run s bs b sz :
  heap_inv s bs → b ∈ bs →
  ∃ s', bl_heap_free (b_data b) sz s = Some ((), s') ∧
    heap_inv s' (free_spec (b_data b) bs) ∧ heap_frame s s' (free_spec (b_data b) bs) ∧
    heap_end s' (free_spec (b_data b) bs) = heap_end s bs.
Proof.
  intros Hinv Hb. pose proof (heap_inv_laid_out _ _ Hinv) as Hl.
  destruct (laid_out_in _ b Hl Hb) as (Hb1 & Hb2 & Hb3 & Hb4).
  apply list_elem_of_split in Hb as (pre & post & ->).
  assert (Hc : chain (mem s) (pre ++ b :: post) ∧ occupied_blocks s = 1 ∧
               bl_heap s = match pre ++ b :: post with [] => 0 | c :: _ => b_head c end).
  { by destruct pre; destruct Hinv as (? & ? & ? & ?). }
  destruct Hc as (Hc & Hocc & Hh). rewrite free_spec_split by done.
  pose proof (chain_set_magic _ _ _ _ false Hl Hc) as Hc'.
  pose proof (laid_out_set_used _ _ _ false Hl) as Hl'.
  destruct (chain_at _ _ _ _ Hc) as (_ & Hmag & _).
  assert (Hal : truth (Z.land (b_data b) (BL_HEAP_MEM_ALIGN - 1)) = false).
  { change (BL_HEAP_MEM_ALIGN - 1) with (2 ^ 4 - 1). rewrite land_mask by lia.
    change (2 ^ 4) with 16. unfold b_data, sizeof_head. by rewrite Z.add_mod, Hb2 by lia. }
  assert (Hp : u32 (b_data b - sizeof_head) = b_head b) by (rewrite u32_small; field_lia).
  unfold bl_heap_free. rewrite Hal, Hp. unfold mbind, ST_bind, rd32, gets. rewrite Hmag.
  assert (Hend : ∀ t t' (l1 l2 : list block) x y, b_end x = b_end y →
            bl_heap t = bl_heap t' → heap_end t (l1 ++ x :: l2) = heap_end t' (l1 ++ y :: l2)).
  { intros t t' l1 l2 x y Exy Et. unfold heap_end. rewrite !last_app_cons.
    destruct l2 as [|z l2]; [done|]. rewrite !last_cons_cons. by rewrite Et. }
  unfold b_magic at 1. destruct (b_used b) eqn:Hu.
  - rewrite Z.eqb_refl. eexists. split; [done|]. split; [|split].
    + destruct pre as [|c pre]; cbn [app] in *; done.
    + split; [|done]. intros a Ha Hno.
      change (ld8 (st 4 (mem s) (b_head b + head_magic) BL_HEAP_BLOCK_HEAD_FREE_MAGIC) a = ld8 (mem s) a).
      assert (a < b_head b ∨ b_head b + sizeof_head <= a).
      { destruct (decide (b_head b <= a < b_head b + sizeof_head)) as [Hin|]; [|lia].
        destruct Hno. exists (Block (b_head b) (b_size b) false). split; [|exact Hin].
        apply elem_of_block_mid. }
      apply ld8_st_other; field_lia.
    + by apply Hend.
  - assert (b = Block (b_head b) (b_size b) false) as E by (destruct b; cbn in *; by subst).
    rewrite <- E. exists s. split; [done|]. split; [done|]. split; [done|]. by apply Hend.
Qed.

(** ** Properties *)

(** C1: In a heap whose memory holds the block list [bs], an allocation of [sz]
    bytes aligned to 2^k gives exactly what the abstract first-fit allocator
    gives, leaves the invariant, and changes no byte outside block headers. *)
Theorem heap_alloc_refines s bs sz k :
  heap_inv s bs → bs ≠ [] → 0 <= k < 32 → 0 <= sz < 4294967296 → room s bs sz (2 ^ k) →
  ∃ p bs' s', alloc_spec sz (2 ^ k) bs = Some (p, bs') ∧
    bl_heap_alloc_align sz (2 ^ k) s = Some (p, s') ∧ heap_inv s' bs' ∧ heap_frame s s' bs'.
Proof. apply alloc_align_run. Qed.

(** C9: The block [bl_heap_alloc] returns is 16-aligned, large enough, inside
    the address space and disjoint from every block in use, all of which stay
    in use with their contents. *)
Theorem heap_alloc_safe s bs sz :
  heap_inv s bs → 0 <= sz < 4294967296 → room s bs sz 1 →
  ∃ p bs' s', bl_heap_alloc sz s = Some (p, s') ∧ heap_inv s' bs' ∧ owned bs' p sz ∧
    0 < p ∧ p mod 16 = 0 ∧ p + sz <= 4294967296 ∧
    ∀ b, b ∈ bs → b_used b = true →
      b ∈ bs' ∧ disjoint p sz (b_data b) (b_size b) ∧
      ld_bytes (mem s') (b_data b) (Z.to_nat (b_size b)) =
      ld_bytes (mem s) (b_data b) (Z.to_nat (b_size b)).
Proof.
  intros Hinv Hsz Hroom. destruct (bl_heap_alloc_run s bs sz Hinv Hsz Hroom)
    as (p & bs' & s' & Hrun & Hinv' & _ & (Hfr & _) & Hown & H1 & H2 & H3 & _ & _ & Hall & _).
  exists p, bs', s'. split_and!; try done. intros b Hb Hu. destruct (Hall b Hb Hu) as [Hb' Hd].
  pose proof (heap_inv_laid_out _ _ Hinv') as Hl'.
  destruct (laid_out_in _ b Hl' Hb') as (? & ? & ? & ?). split_and!; [done|field_lia|].
  apply ld_bytes_ext. intros i Hi. apply Hfr; [field_lia|]. intros (c & Hc & Hin).
  destruct (laid_out_in _ c Hl' Hc) as (? & ? & ? & ?).
  destruct (laid_out_disjoint _ b c Hl' Hb' Hc) as [->|[?|?]]; field_lia.
Qed.

(** C26: Freeing a block of the heap marks exactly that block free (again, if it
    was free already: a double free changes nothing) and touches no payload. *)
Theorem heap_free_refines s bs b sz :
  heap_inv s bs → b ∈ bs →
  ∃ s', bl_heap_free (b_data b) sz s = Some ((), s') ∧
    heap_inv s' (free_spec (b_data b) bs) ∧ heap_frame s s' (free_spec (b_data b) bs).
Proof. intros H1 H2. destruct (bl_heap_free_run s bs b sz H1 H2) as (s' & ? & ? & ? & _). by exists s'. Qed.

(** The very first allocation aligns the heap and not the payload: asked for
    an alignment of 32 or more, it returns an address that is 16 past it. *)
Theorem heap_first_alloc_misaligned s sz k :
  heap_inv s [] → 5 <= k < 32 → 0 <= sz < 4294967296 → room s [] sz (2 ^ k) →
  ∃ p s', bl_heap_alloc_align sz (2 ^ k) s = Some (p, s') ∧ p mod 2 ^ k = 16.
Proof.
  intros Hinv Hk Hsz Hroom. destruct (alloc_first_run s sz k Hinv) as (s' & Hrun & _); [lia..|done|].
  eexists _, _. split; [exact Hrun|]. pose proof (pow2_32 k ltac:(lia)).
  destruct (round_up_spec (bl_heap s) (2 ^ k)) as [_ Hm]; [lia|].
  rewrite <- Zplus_mod_idemp_l, Hm. apply Z.mod_small. unfold sizeof_head.
  assert (2 ^ 5 <= 2 ^ k) by (apply Z.pow_le_mono_r; lia). lia.
Qed.

(** ** Concrete runs *)

(** The state a program leaves, for closed runs. *)
Definition final {A} (c : M A) (s : machine) : machine :=
  match c s with Some (_, s') => s' | None => s end.

Ltac closed := vm_compute; repeat split; (reflexivity || discriminate).

(** A heap at 1 MiB; then three blocks, the second of them freed. *)
Definition heap_empty : machine := with_heap 0x100000 0 0 machine0.
Definition heap_three : machine :=
  final (bl_heap_alloc 100;; bl_heap_alloc 40;; bl_heap_alloc 200;; bl_heap_free 0x100090 40) heap_empty.
Definition three_blocks : list block :=
  [Block 0x100000 100 true; Block 0x100080 40 false; Block 0x1000c0 200 true].

Lemma heap_empty_inv : heap_inv heap_empty [].
Proof. closed. Qed.
Lemma heap_three_inv : heap_inv heap_three three_blocks.
Proof. closed. Qed.

Lemma heap_alloc_refines_witness :
  heap_inv heap_three three_blocks ∧
  ∃ p bs' s', alloc_spec 24 (2 ^ 4) three_blocks = Some (p, bs') ∧
    bl_heap_alloc_align 24 (2 ^ 4) heap_three = Some (p, s') ∧ heap_inv s' bs' ∧
    heap_frame heap_three s' bs'.
Proof.
  split; [exact heap_three_inv|].
  apply (heap_alloc_refines heap_three three_blocks 24 4);
    [exact heap_three_inv|discriminate|lia|lia|vm_compute; discriminate].
Defined.

Lemma heap_alloc_safe_witness :
  heap_inv heap_three three_blocks ∧
  ∃ p bs' s', bl_heap_alloc 300 heap_three = Some (p, s') ∧ heap_inv s' bs' ∧ owned bs' p 300 ∧
    0 < p ∧ p mod 16 = 0 ∧ p + 300 <= 4294967296 ∧
    ∀ b, b ∈ three_blocks → b_used b = true →
      b ∈ bs' ∧ disjoint p 300 (b_data b) (b_size b) ∧
      ld_bytes (mem s') (b_data b) (Z.to_nat (b_size b)) =
      ld_bytes (mem heap_three) (b_data b) (Z.to_nat (b_size b)).
Proof.
  split; [exact heap_three_inv|].
  apply (heap_alloc_safe heap_three three_blocks 300);
    [exact heap_three_inv|lia|vm_compute; discriminate].
Defined.

Lemma heap_free_refines_witness :
  heap_inv heap_three three_blocks ∧
  ∃ s', bl_heap_free 0x1000d0 200 heap_three = Some ((), s') ∧
    heap_inv s' (free_spec 0x1000d0 three_blocks) ∧
    heap_frame heap_three s' (free_spec 0x1000d0 three_blocks).
Proof.
  split; [exact heap_three_inv|].
  apply (heap_free_refines heap_three three_blocks (Block 0x1000c0 200 true) 200);
    [exact heap_three_inv|]. do 2 apply list_elem_of_further. apply list_elem_of_here.
Defined.

Lemma heap_first_alloc_misaligned_witness :
  ∃ p s', bl_heap_alloc_align 64 (2 ^ 12) heap_empty = Some (p, s') ∧ p mod 2 ^ 12 = 16.
Proof.
  apply (heap_first_alloc_misaligned heap_empty 64 12);
    [exact heap_empty_inv|lia|lia|vm_compute; discriminate].
Defined.
