(* ===== verification/HeapClient.v ===== *)
(** * What the clients of the heap rely on

    A client of [bl_heap_alloc] and [bl_heap_free] does not look at the block
    list: it knows which bytes the allocator never touches ([stable]) and how
    far the heap may grow. *)
From S2P Require Import Prelude Memory Regions Arith Strings StringsProofs Heap HeapProofs.

(** Growth of the heap for one allocation of [n] bytes. *)
Definition cost (n : Z) : Z := 3 * sizeof_head + n.

(** A block's payload and what is left of its last 16 bytes: no header starts
    there. *)
Definition slot_end (b : block) : Z := round_up (b_end b) 16.
Definition outside_slot (b : block) (a : Z) : Prop := outside (b_data b) (slot_end b - b_data b) a.

Lemma slot_bounds b : b_end b <= slot_end b <= b_end b + 15.
Proof. unfold slot_end, round_up. Z.div_mod_to_equations. lia. Qed.
Lemma slot_below b h : b_end b <= h → h mod 16 = 0 → slot_end b <= h.
Proof. unfold slot_end, round_up. intros. Z.div_mod_to_equations. lia. Qed.
Lemma outside_payload b a : outside_slot b a → outside (b_data b) (b_size b) a.
Proof. pose proof (slot_bounds b). unfold outside_slot, outside, b_end in *. lia. Qed.

(** Two blocks of a heap: the same, or one slot before the other's header. *)
Lemma slots_apart bs b c :
  laid_out bs → b ∈ bs → c ∈ bs → b = c ∨ slot_end b <= b_head c ∨ slot_end c <= b_head b.
Proof.
  intros Hl Hb Hc. destruct (laid_out_in _ b Hl Hb) as (? & Hb16 & ? & ?).
  destruct (laid_out_in _ c Hl Hc) as (? & Hc16 & ? & ?).
  destruct (laid_out_disjoint _ b c Hl Hb Hc) as [|[?|?]]; [by left|right; left|right; right]; by apply slot_below.
Qed.

(** A byte that allocations growing the heap by at most [g] leave alone: it is
    below the heap, above the part the heap may grow into, or in the slot of a
    block in use. *)
Definition stable (s : machine) (bs : list block) (g a : Z) : Prop :=
  0 <= a < 4294967296 ∧
  (a < bl_heap s ∨ heap_end s bs + g <= a ∨
   ∃ b, b ∈ bs ∧ b_used b = true ∧ b_data b <= a < slot_end b).

Definition stable_region (s : machine) (bs : list block) (g a n : Z) : Prop :=
  in_space a n ∧ ∀ x, a <= x < a + n → stable s bs g x.

(** One step of the program seen from its heap clients: the used blocks stay,
    the heap grows by at most [g] and the stable bytes that are not in [W] keep
    their value. *)
Record heap_step (s : machine) (bs : list block) (s' : machine) (bs' : list block) (g : Z)
    (W : Z → Prop) : Prop :=
  HeapStep {
    step_inv : heap_inv s' bs';
    step_heap : bl_heap s' = bl_heap s;
    step_end : heap_end s bs <= heap_end s' bs' <= heap_end s bs + g;
    step_used : ∀ b, b ∈ bs → b_used b = true → b ∈ bs';
    step_frame : ∀ a, stable s bs g a → ¬ W a → ld8 (mem s') a = ld8 (mem s) a;
  }.

Lemma stable_weaken s bs g g' a : g' <= g → stable s bs g a → stable s bs g' a.
Proof. intros ? (? & H). split; [done|]. destruct H as [|[]]; [by left|right; left; lia|by right; right]. Qed.

Lemma stable_step s bs s' bs' g W h a :
  heap_step s bs s' bs' g W → 0 <= h → stable s bs (g + h) a → stable s' bs' h a.
Proof.
  intros [_ Hh He Hu _] Hg (? & H). split; [done|]. rewrite Hh.
  destruct H as [?|[?|(b & Hb & Hbu & ?)]]; [by left|right; left; lia|].
  right; right. exists b. split; [by apply Hu|done].
Qed.

Lemma stable_region_step s bs s' bs' g W h a k :
  heap_step s bs s' bs' g W → 0 <= h →
  stable_region s bs (g + h) a k → stable_region s' bs' h a k.
Proof. intros Hs Hh [? H]. split; [done|]. intros x Hx. eapply stable_step; eauto. Qed.

Lemma stable_region_weaken s bs g g' a k :
  g' <= g → stable_region s bs g a k → stable_region s bs g' a k.
Proof. intros Hg [? H]. split; [done|]. intros x Hx. eapply stable_weaken; eauto. Qed.

Lemma heap_below s bs b : heap_inv s bs → b ∈ bs → bl_heap s <= b_head b ∧ b_end b <= heap_end s bs.
Proof.
  intros Hinv Hb. pose proof (heap_inv_laid_out _ _ Hinv) as Hl. split.
  - destruct bs as [|b0 bs]; [by apply not_elem_of_nil in Hb|].
    rewrite (heap_inv_head _ _ _ Hinv). apply elem_of_cons in Hb as [->|Hb]; [lia|].
    pose proof (laid_out_after _ _ _ Hl Hb). pose proof (laid_out_head_in _ _ Hl). field_lia.
  - clear Hinv. revert Hl. unfold heap_end. induction bs as [|c bs IH]; intros Hl; [by apply not_elem_of_nil in Hb|].
    destruct bs as [|d bs].
    { apply list_elem_of_singleton in Hb as ->. simpl. lia. }
    rewrite last_cons_cons. pose proof (laid_out_tail _ _ Hl) as Hl'.
    apply elem_of_cons in Hb as [->|Hb]; [|by apply IH].
    destruct (last (d :: bs)) as [q|] eqn:Hq; [|by apply last_None in Hq].
    apply last_Some_elem_of in Hq. pose proof (laid_out_after _ _ q Hl Hq).
    destruct (laid_out_in _ q Hl') as (? & ? & ? & ?); [done|]. field_lia.
Qed.

(** A block in use is stable, with the rest of its slot. *)
Lemma payload_stable s bs g b a :
  heap_inv s bs → b ∈ bs → b_used b = true → b_data b <= a < b_end b → stable s bs g a.
Proof.
  intros Hinv Hb Hu Ha. destruct (laid_out_in _ b (heap_inv_laid_out _ _ Hinv) Hb) as (? & ? & ? & ?).
  pose proof (slot_bounds b). split; [field_lia|]. right; right. exists b. split_and!; [done..|lia|lia].
Qed.

(** Stable bytes are not in headers. *)
Lemma stable_no_header s bs g a :
  heap_inv s bs → 0 <= g → stable s bs g a → ¬ header_of bs a.
Proof.
  intros Hinv Hg (Ha & H) (c & Hc & Hin). pose proof (heap_inv_laid_out _ _ Hinv) as Hl.
  pose proof (heap_below _ _ _ Hinv Hc). destruct (laid_out_in _ c Hl Hc) as (? & ? & ? & ?).
  destruct H as [?|[?|(b & Hb & Hu & Hr)]]; [field_lia|field_lia|].
  destruct (laid_out_in _ b Hl Hb) as (? & ? & ? & ?). pose proof (slot_bounds b). pose proof (slot_bounds c).
  destruct (slots_apart _ b c Hl Hb Hc) as [->|[]]; field_lia.
Qed.

Lemma payload_no_header s bs c a : heap_inv s bs → c ∈ bs → b_data c <= a < b_end c → ¬ header_of bs a.
Proof.
  intros Hinv Hc Ha (b & Hb & Hin). pose proof (heap_inv_laid_out _ _ Hinv) as Hl.
  destruct (laid_out_in _ b Hl Hb) as (? & ? & ? & ?), (laid_out_in _ c Hl Hc) as (? & ? & ? & ?).
  destruct (laid_out_disjoint _ b c Hl Hb Hc) as [->|[?|?]]; field_lia.
Qed.

(** Allocation, as its clients use it. *)
Definition in_use (bs : list block) (b : block) : Prop := b ∈ bs ∧ b_used b = true.
#[export] Instance block_eq_dec : EqDecision block.
Proof. solve_decision. Defined.

(** What an allocation gives, seen from its client. *)
Definition alloc_result (s : machine) (bs : list block) (sz g p : Z) (s' : machine) (bs' : list block) (b : block) : Prop :=
  p = b_data b ∧ heap_step s bs s' bs' g (λ _, False) ∧ b ∈ bs' ∧ b_used b = true ∧ sz <= b_size b ∧
  0 < b_data b ∧ b_data b + sz <= 4294967296 ∧ b_data b mod 16 = 0 ∧
  (∀ h a, g <= h → stable s bs h a → outside (b_data b) (b_size b) a) ∧
  (∀ h a, 0 <= h → b_data b <= a < b_end b → stable s' bs' h a) ∧
  (0 < sz → ¬ in_use bs b ∧ ∀ c, in_use bs' c ↔ in_use bs c ∨ c = b) ∧ bl_strtok_str s' = bl_strtok_str s.

Lemma alloc_ok_result s bs sz g p s' bs' :
  heap_inv s bs → 0 <= sz → 0 <= g → alloc_ok s bs sz g p s' bs' → ∃ b, alloc_result s bs sz g p s' bs' b.
Proof.
  intros Hinv Hsz Hg0 (Hinv' & Hsame & (Hfr & Htok & _) & (b & Hb & Hu & <- & Hn) & Hp & Hmod & Hsp & He & He' & Hall & Hnew).
  pose proof (heap_inv_laid_out _ _ Hinv') as Hl'. pose proof (heap_below _ _ _ Hinv' Hb) as Hbelow.
  destruct (laid_out_in _ b Hl' Hb) as (? & ? & ? & ?).
  assert (Hstep : heap_step s bs s' bs' g (λ _, False)).
  { split; [done|done|lia| |].
    - intros c Hc Hcu. by apply Hall.
    - intros a Ha _. apply Hfr; [apply Ha|]. apply (stable_no_header s' bs' 0); [done|lia|].
      destruct Ha as (Ha & Ho). split; [done|]. rewrite Hsame.
      destruct Ho as [?|[?|(c & Hc & Hcu & ?)]]; [by left|right; left; lia|].
      right; right. exists c. split; [by apply Hall|done]. }
  exists b. split; [done|]. split; [exact Hstep|]. do 3 (split; [done|]).
  split; [done|]. split; [done|]. split; [done|]. split; [|split; [|split; [|done]]].
  - intros h a Hg Ha.
    assert (Ha' : stable s' bs' 0 a).
    { eapply stable_step; [exact Hstep|lia|]. eapply stable_weaken; [|exact Ha]. lia. }
    destruct Ha as (Ha & Ho). destruct Ho as [?|[?|(c & Hc & Hcu & ?)]].
    + unfold outside. field_lia.
    + unfold outside in *. field_lia.
    + destruct (Hall c Hc Hcu) as [Hc' Hd]. destruct (laid_out_in _ c Hl' Hc') as (? & ? & ? & ?).
      pose proof (slot_bounds b). pose proof (slot_bounds c).
      destruct (slots_apart _ b c Hl' Hb Hc') as [<-|[?|?]]; unfold outside, disjoint in *; field_lia.
  - intros h a Hg Ha. by apply (payload_stable s' bs' h b).
  - intros Hpos. split.
    + intros [Hbs Hbu]. destruct (Hall b Hbs Hbu) as [_ Hd]. unfold disjoint in Hd. field_lia.
    + intros c. split; [|by intros [[Hc Hcu]| ->]; [split; [by apply Hall|]|]].
      intros [Hc Hcu]. destruct (Hnew c Hc) as [|E]; [by left|right].
      destruct (laid_out_in _ c Hl' Hc) as (? & ? & ? & ?).
      destruct (laid_out_disjoint _ c b Hl' Hc Hb) as [|[?|?]]; [done|field_lia..].
Qed.

Lemma alloc_exact s bs sz :
  heap_inv s bs → 0 <= sz < 4294967296 → room s bs sz 1 →
  ∃ b bs' s', bl_heap_alloc sz s = Some (b_data b, s') ∧ alloc_result s bs sz (cost sz) (b_data b) s' bs' b.
Proof.
  intros Hinv Hsz Hroom. destruct (bl_heap_alloc_run s bs sz Hinv Hsz Hroom) as (p & bs' & s' & Hrun & Hok).
  destruct (alloc_ok_result s bs sz (cost sz) p s' bs') as (b & Hres); [done|lia|unfold cost, sizeof_head; lia|done|].
  pose proof Hres as (-> & _). by exists b, bs', s'.
Qed.

Lemma alloc_client s bs sz :
  heap_inv s bs → 0 <= sz < 4294967296 → room s bs sz 1 →
  ∃ b bs' s', bl_heap_alloc sz s = Some (b_data b, s') ∧
    heap_step s bs s' bs' (cost sz) (λ _, False) ∧ b ∈ bs' ∧ b_used b = true ∧ sz <= b_size b ∧
    0 < b_data b ∧ b_data b + sz <= 4294967296 ∧ b_data b mod 16 = 0 ∧
    (∀ g a, cost sz <= g → stable s bs g a → outside (b_data b) (b_size b) a) ∧
    (∀ g a, 0 <= g → b_data b <= a < b_end b → stable s' bs' g a).
Proof.
  intros Hinv Hsz Hroom. destruct (alloc_exact s bs sz Hinv Hsz Hroom)
    as (b & bs' & s' & H1 & _ & H2 & H3 & H4 & H5 & H6 & H7 & H8 & H9 & H10 & _).
  by exists b, bs', s'.
Qed.

(** Freeing a block the client owns: only its own slot stops being stable, and
    even there nothing is written. *)
Lemma free_client s bs b sz :
  heap_inv s bs → b ∈ bs →
  ∃ s', bl_heap_free (b_data b) sz s = Some ((), s') ∧
    heap_inv s' (free_spec (b_data b) bs) ∧ bl_heap s' = bl_heap s ∧
    heap_end s' (free_spec (b_data b) bs) = heap_end s bs ∧
    (∀ c, c ∈ bs → b_used c = true → b_data c ≠ b_data b → c ∈ free_spec (b_data b) bs) ∧
    (∀ g a, 0 <= g → stable s bs g a →
       ld8 (mem s') a = ld8 (mem s) a ∧ (outside_slot b a → stable s' (free_spec (b_data b) bs) g a)).
Proof.
  intros Hinv Hb. destruct (bl_heap_free_run s bs b sz Hinv Hb) as (s' & Hrun & Hinv' & (Hfr & _) & He).
  assert (Hh : bl_heap s' = bl_heap s).
  { destruct bs as [|c bs]; [by apply not_elem_of_nil in Hb|].
    rewrite (heap_inv_head _ _ _ Hinv). unfold free_spec in Hinv'. cbn [map] in Hinv'.
    rewrite (heap_inv_head _ _ _ Hinv'). by case_match. }
  assert (Hkeep : ∀ c, c ∈ bs → b_used c = true → b_data c ≠ b_data b → c ∈ free_spec (b_data b) bs).
  { intros c Hc _ Hne. unfold free_spec. apply list_elem_of_In, in_map_iff. exists c.
    destruct (Z.eqb_spec (b_data c) (b_data b)); [done|]. split; [done|by apply list_elem_of_In]. }
  exists s'. split_and!; try done. intros g a Hg Ha. split.
  { apply Hfr; [by destruct Ha|]. intros (c & Hc & Hr). apply (stable_no_header s bs g a Hinv Hg Ha).
    unfold free_spec in Hc. apply list_elem_of_In, in_map_iff in Hc as (d & <- & Hd). exists d.
    split; [by apply list_elem_of_In|]. by case_match. }
  intros Ho. destruct Ha as (Ha & Hd). split; [done|]. rewrite Hh, He.
  destruct Hd as [?|[?|(c & Hc & Hcu & ?)]]; [by left|by right; left|].
  right; right. exists c. split; [|done]. apply Hkeep; [done|done|].
  intros E. pose proof (heap_inv_laid_out _ _ Hinv) as Hl. destruct (laid_out_in _ b Hl Hb) as (? & ? & ? & ?).
  destruct (laid_out_in _ c Hl Hc) as (? & ? & ? & ?). pose proof (slot_bounds b). pose proof (slot_bounds c).
  unfold outside_slot, outside in *. destruct (slots_apart _ c b Hl Hc Hb) as [->|[?|?]]; [lia|field_lia..].
Qed.

(** The bytes of a region. *)
Definition within (a n x : Z) : Prop := a <= x < a + n.

(** Writing client memory. *)
Lemma write_client s bs a l :
  heap_inv s bs → stable_region s bs 0 a (Z.of_nat (length l)) →
  heap_step s bs (set_mem (st_bytes (mem s) a l) s) bs 0 (within a (Z.of_nat (length l))).
Proof.
  intros Hinv [Hsp Hreg]. split; [|done|unfold heap_end; simpl; lia|done|].
  - destruct bs as [|b bs]; [done|].
    pose proof (heap_inv_laid_out _ _ Hinv) as Hl. destruct (Hinv) as (? & ? & _ & Hc).
    split; [done|]. split; [done|]. split; [done|].
    refine (chain_ext (mem s) _ (b :: bs) _ Hc). intros x Hx. symmetry.
    apply ld8_st_bytes_out; [done|..].
    + destruct Hx as (c & Hc' & Hx). destruct (laid_out_in _ c Hl Hc') as (? & ? & ? & ?). field_lia.
    + destruct (decide (x < a ∨ a + Z.of_nat (length l) <= x)); [done|]. exfalso.
      by apply (stable_no_header s (b :: bs) 0 x Hinv ltac:(lia) (Hreg x ltac:(lia))).
  - intros x [Hx _] Hw. apply ld8_st_bytes_out; [done|done|]. unfold within in Hw. unfold outside. lia.
Qed.

Lemma heap_step_refl s bs : heap_inv s bs → heap_step s bs s bs 0 (λ _, False).
Proof. intros. split; try done. lia. Qed.

Lemma heap_step_trans s bs s1 bs1 s2 bs2 g1 g2 (W1 W2 : Z → Prop) :
  0 <= g1 → 0 <= g2 →
  heap_step s bs s1 bs1 g1 W1 → heap_step s1 bs1 s2 bs2 g2 W2 →
  heap_step s bs s2 bs2 (g1 + g2) (λ a, W1 a ∨ W2 a).
Proof.
  intros ?? H1 H2. split; [apply H2|by rewrite (step_heap _ _ _ _ _ _ H2), (step_heap _ _ _ _ _ _ H1)| | |].
  - pose proof (step_end _ _ _ _ _ _ H1). pose proof (step_end _ _ _ _ _ _ H2). lia.
  - intros b Hb Hu. by apply (step_used _ _ _ _ _ _ H2); [apply (step_used _ _ _ _ _ _ H1)|].
  - intros a Ha Hw. rewrite (step_frame _ _ _ _ _ _ H2), (step_frame _ _ _ _ _ _ H1); [done|..].
    + eapply stable_weaken; [|exact Ha]. lia.
    + tauto.
    + by eapply stable_step.
    + tauto.
Qed.

Lemma heap_step_weaken s bs s' bs' g g' (W W' : Z → Prop) :
  g <= g' → (∀ a, stable s bs g' a → W a → W' a) →
  heap_step s bs s' bs' g W → heap_step s bs s' bs' g' W'.
Proof.
  intros Hg HW [H1 H2 H3 H4 H5]. split; [done|done|lia|done|].
  intros a Ha Hw. apply H5; [by eapply stable_weaken|]. intros Hc. apply Hw, HW; done.
Qed.

Lemma block_data_inj s bs b c : heap_inv s bs → b ∈ bs → c ∈ bs → b_data b = b_data c → b = c.
Proof.
  intros Hinv Hb Hc E. pose proof (heap_inv_laid_out _ _ Hinv) as Hl.
  destruct (laid_out_in _ b Hl Hb) as (? & ? & ? & ?), (laid_out_in _ c Hl Hc) as (? & ? & ? & ?).
  destruct (laid_out_disjoint _ b c Hl Hb Hc) as [|[?|?]]; [done|field_lia..].
Qed.

(** ** Steps that also say which blocks come into use and which are given up *)
Record heap_change (s : machine) (bs : list block) (s' : machine) (bs' gone new : list block) (g : Z)
    (W : Z → Prop) : Prop :=
  HeapChange {
    ch_inv : heap_inv s' bs';
    ch_heap : bl_heap s' = bl_heap s;
    ch_end : heap_end s bs <= heap_end s' bs' <= heap_end s bs + g;
    ch_used : ∀ b, in_use bs' b ↔ (in_use bs b ∧ b ∉ gone) ∨ b ∈ new;
    ch_fresh : ∀ b, b ∈ new → ¬ in_use bs b;
    ch_strtok : bl_strtok_str s' = bl_strtok_str s;
    ch_frame : ∀ a, stable s bs g a → (∀ b, b ∈ gone → outside_slot b a) → ¬ W a → ld8 (mem s') a = ld8 (mem s) a;
  }.

Lemma change_refl s bs : heap_inv s bs → heap_change s bs s bs [] [] 0 (λ _, False).
Proof.
  intros Hinv. split; try done; [lia| |by intros b ?%not_elem_of_nil].
  intros b. split; [intros Hb; left; split; [done|by intros ?%not_elem_of_nil]|by intros [[? _]|?%not_elem_of_nil]].
Qed.

(** A step that gives up no block. *)
Lemma change_step s bs s' bs' new g W : heap_change s bs s' bs' [] new g W → heap_step s bs s' bs' g W.
Proof.
  intros [C1 C2 C3 C4 C5 C6 C7]. split; try done.
  - intros b Hb Hu. apply (C4 b). left. split; [done|by intros ?%not_elem_of_nil].
  - intros a Ha HW. apply C7; [done| |done]. by intros b ?%not_elem_of_nil.
Qed.

Lemma slot_stable s bs g b a :
  heap_inv s bs → in_use bs b → b_data b <= a < slot_end b → a < 4294967296 → stable s bs g a.
Proof.
  intros Hinv [Hb Hu] Ha Ha'. destruct (laid_out_in _ b (heap_inv_laid_out _ _ Hinv) Hb) as (? & ? & ? & ?).
  split; [field_lia|]. right; right. by exists b.
Qed.
Lemma in_use_apart s bs b c a :
  heap_inv s bs → in_use bs b → in_use bs c → b ≠ c → b_data b <= a < slot_end b → outside_slot c a.
Proof.
  intros Hinv [Hb _] [Hc _] Hne Ha. pose proof (heap_inv_laid_out _ _ Hinv) as Hl.
  destruct (laid_out_in _ b Hl Hb) as (? & ? & ? & ?), (laid_out_in _ c Hl Hc) as (? & ? & ? & ?).
  destruct (slots_apart _ b c Hl Hb Hc) as [|[?|?]]; [done|unfold outside_slot, outside; field_lia..].
Qed.

Lemma in_use_disjoint s bs b c :
  heap_inv s bs → in_use bs b → in_use bs c → b ≠ c → b_end b <= b_data c ∨ b_end c <= b_data b.
Proof.
  intros Hinv [Hb _] [Hc _] Hne. destruct (laid_out_disjoint _ b c (heap_inv_laid_out _ _ Hinv) Hb Hc) as [|[?|?]];
    [done|left; field_lia|right; field_lia].
Qed.

(** Blocks that are not given up keep their contents. *)
Lemma change_slot s bs s' bs' gone new g W b a :
  heap_change s bs s' bs' gone new g W → heap_inv s bs → Forall (in_use bs) gone → in_use bs b → b ∉ gone →
  b_data b <= a < slot_end b → a < 4294967296 → ¬ W a → ld8 (mem s') a = ld8 (mem s) a.
Proof.
  intros Hch Hinv Hgone Hb Hng Ha Ha' HW. apply (ch_frame _ _ _ _ _ _ _ _ Hch); [by eapply slot_stable| |done].
  intros c Hc. rewrite Forall_forall in Hgone. eapply (in_use_apart s bs b c); [done..|by apply Hgone|congruence|done].
Qed.
Lemma change_same_on s bs s' bs' new g W b :
  heap_change s bs s' bs' [] new g W → heap_inv s bs → in_use bs b → b_end b <= 4294967296 →
  (∀ x, within (b_data b) (b_size b) x → ¬ W x) → same_on (b_data b) (b_size b) (mem s) (mem s').
Proof.
  intros Hch Hinv Hb Hend HW x Hx. pose proof (slot_bounds b).
  eapply (change_slot s bs s' bs' [] new g W b x); [done|done|constructor|done|apply not_elem_of_nil|..];
    unfold b_end in *; [lia|lia|apply HW; unfold within; lia].
Qed.
Lemma change_stable s bs s' bs' gone new g W h a :
  heap_change s bs s' bs' gone new g W → 0 <= h → stable s bs (g + h) a → (∀ b, b ∈ gone → outside_slot b a) →
  stable s' bs' h a.
Proof.
  intros Hch Hh (Ha & H) Ho. split; [done|]. rewrite (ch_heap _ _ _ _ _ _ _ _ Hch).
  pose proof (ch_end _ _ _ _ _ _ _ _ Hch). destruct H as [?|[?|(b & Hb & Hbu & ?)]]; [by left|right; left; lia|].
  right; right. exists b. assert (Hin : in_use bs' b).
  { apply (ch_used _ _ _ _ _ _ _ _ Hch). left. split; [done|]. intros Hg. specialize (Ho b Hg).
    unfold outside_slot, outside in Ho. lia. }
  by destruct Hin.
Qed.

(** Giving up blocks, one after another. *)
Lemma change_gone s bs s1 bs1 s2 bs2 gone1 gone2 :
  heap_change s bs s1 bs1 gone1 [] 0 (λ _, False) → heap_change s1 bs1 s2 bs2 gone2 [] 0 (λ _, False) →
  heap_change s bs s2 bs2 (gone2 ++ gone1) [] 0 (λ _, False).
Proof.
  intros H1 H2. pose proof (ch_end _ _ _ _ _ _ _ _ H1). pose proof (ch_end _ _ _ _ _ _ _ _ H2). split.
  - apply H2.
  - by rewrite (ch_heap _ _ _ _ _ _ _ _ H2), (ch_heap _ _ _ _ _ _ _ _ H1).
  - lia.
  - intros b. rewrite (ch_used _ _ _ _ _ _ _ _ H2), (ch_used _ _ _ _ _ _ _ _ H1), elem_of_app. split; [|tauto].
    intros [[[[? ?]|?%not_elem_of_nil] ?]|?%not_elem_of_nil]; [left; split; [done|by intros [?|?]]|done..].
  - intros b ?%not_elem_of_nil. done.
  - by rewrite (ch_strtok _ _ _ _ _ _ _ _ H2), (ch_strtok _ _ _ _ _ _ _ _ H1).
  - intros a Ha Ho HW. rewrite (ch_frame _ _ _ _ _ _ _ _ H2), (ch_frame _ _ _ _ _ _ _ _ H1); try done.
    + intros b Hb. apply Ho, elem_of_app. by right.
    + eapply change_stable; [exact H1|lia|by rewrite Z.add_0_r|]. intros b Hb. apply Ho, elem_of_app. by right.
    + intros b Hb. apply Ho, elem_of_app. by left.
Qed.

(** Blocks that come into use, one after another. *)
Lemma change_new s bs s1 bs1 s2 bs2 new1 new2 g1 g2 W :
  0 <= g1 → 0 <= g2 → heap_change s bs s1 bs1 [] new1 g1 W → heap_change s1 bs1 s2 bs2 [] new2 g2 W →
  heap_change s bs s2 bs2 [] (new1 ++ new2) (g1 + g2) W.
Proof.
  intros Hg1 Hg2 H1 H2. pose proof (ch_end _ _ _ _ _ _ _ _ H1). pose proof (ch_end _ _ _ _ _ _ _ _ H2).
  assert (Hnone : ∀ (b : block), b ∉ []) by apply not_elem_of_nil. split.
  - apply H2.
  - by rewrite (ch_heap _ _ _ _ _ _ _ _ H2), (ch_heap _ _ _ _ _ _ _ _ H1).
  - lia.
  - intros b. rewrite (ch_used _ _ _ _ _ _ _ _ H2), (ch_used _ _ _ _ _ _ _ _ H1), elem_of_app. specialize (Hnone b). tauto.
  - intros b [Hb|Hb]%elem_of_app; [by apply (ch_fresh _ _ _ _ _ _ _ _ H1)|]. intros Hu.
    apply (ch_fresh _ _ _ _ _ _ _ _ H2 b Hb), (ch_used _ _ _ _ _ _ _ _ H1). by left.
  - by rewrite (ch_strtok _ _ _ _ _ _ _ _ H2), (ch_strtok _ _ _ _ _ _ _ _ H1).
  - intros a Ha Ho HW. rewrite (ch_frame _ _ _ _ _ _ _ _ H2), (ch_frame _ _ _ _ _ _ _ _ H1); try done.
    + eapply stable_weaken; [|exact Ha]. lia.
    + eapply change_stable; [exact H1|lia|exact Ha|]. by intros b ?%not_elem_of_nil.
Qed.

(** A block that comes into use is none of the bytes that were stable. *)
Lemma change_new_outside s bs s' bs' gone new g W b a :
  heap_change s bs s' bs' gone new g W → b ∈ new → stable s bs (g + 16) a → (∀ c, c ∈ gone → outside_slot c a) →
  outside_slot b a.
Proof.
  intros Hch Hb (Hr & Hs) Ho. pose proof (ch_inv _ _ _ _ _ _ _ _ Hch) as Hinv'.
  assert (Hb' : in_use bs' b) by (apply (ch_used _ _ _ _ _ _ _ _ Hch); by right).
  pose proof (heap_below s' bs' b Hinv' (proj1 Hb')) as [? ?]. pose proof (slot_bounds b).
  pose proof (ch_heap _ _ _ _ _ _ _ _ Hch) as Hh. pose proof (ch_end _ _ _ _ _ _ _ _ Hch) as He.
  destruct Hs as [?|[?|(c & Hc & Hcu & Hin)]].
  - unfold outside_slot, outside, b_data, sizeof_head in *. lia.
  - unfold outside_slot, outside in *. lia.
  - assert (Hc' : in_use bs' c).
    { apply (ch_used _ _ _ _ _ _ _ _ Hch). left. split; [done|]. intros Hg. specialize (Ho c Hg).
      unfold outside_slot, outside in Ho. lia. }
    apply (in_use_apart s' bs' c b a Hinv' Hc' Hb'); [|done]. intros ->. by apply (ch_fresh _ _ _ _ _ _ _ _ Hch b Hb).
Qed.

Lemma write_change s bs a l :
  heap_inv s bs → stable_region s bs 0 a (Z.of_nat (length l)) →
  heap_change s bs (set_mem (st_bytes (mem s) a l) s) bs [] [] 0 (within a (Z.of_nat (length l))).
Proof.
  intros Hinv Hreg. destruct (write_client s bs a l Hinv Hreg) as [H1 H2 H3 H4 H5]. split; try done.
  - intros b. split; [intros H; left; split; [done|by intros ?%not_elem_of_nil]|intros [[? _]|?%not_elem_of_nil]; done].
  - intros b ?%not_elem_of_nil. done.
  - intros x Hx _. by apply H5.
Qed.

(** Freeing a block: it is marked free, and nothing else in the blocks changes. *)
Record freed (s : machine) (bs : list block) (b : block) (s' : machine) (bs' : list block) : Prop := Freed {
  fr_change : heap_change s bs s' bs' [b] [] 0 (λ _, False);
  fr_blocks : bs' = free_spec (b_data b) bs;
  fr_stable : ∀ a, stable s bs 0 a → ld8 (mem s') a = ld8 (mem s) a;
  fr_payload : ∀ c a, c ∈ bs → b_data c <= a < b_end c → ld8 (mem s') a = ld8 (mem s) a;
}.

Lemma free_freed s bs b sz :
  heap_inv s bs → in_use bs b → ∃ s' bs', bl_heap_free (b_data b) sz s = Some ((), s') ∧ freed s bs b s' bs'.
Proof.
  intros Hinv [Hb Hu]. destruct (free_client s bs b sz Hinv Hb) as (s' & Hrun & Hinv' & Hh & He & Hkeep & Hst).
  destruct (bl_heap_free_run s bs b sz Hinv Hb) as (s1 & Hrun1 & Hinv1 & (Hfr & Htok & _) & _).
  rewrite Hrun in Hrun1. injection Hrun1 as <-. pose proof (heap_inv_laid_out _ _ Hinv) as Hl.
  assert (Hsame : ∀ c, c ∈ bs → b_data c = b_data b → c = b) by (intros c Hc; by apply (block_data_inj s bs)).
  exists s', (free_spec (b_data b) bs). split; [done|]. split; [|done|intros a Ha; by apply (Hst 0)|].
  2:{ intros c a Hc Ha. destruct (laid_out_in _ c Hl Hc) as (? & ? & ? & ?). apply Hfr; [field_lia|].
      apply (payload_no_header s' _ (if b_data c =? b_data b then Block (b_head c) (b_size c) false else c)); [done| |].
      - apply list_elem_of_In, in_map_iff. exists c. split; [done|]. by apply list_elem_of_In.
      - by case_match. }
  split; try done; [lia| | |intros a Ha _ _; by apply (Hst 0)].
  - intros c. rewrite list_elem_of_singleton. split.
    + intros [Hc Hcu]. left. unfold free_spec in Hc. apply list_elem_of_In, in_map_iff in Hc as (d & E & Hd).
      apply list_elem_of_In in Hd. destruct (Z.eqb_spec (b_data d) (b_data b)); [by subst c|]. subst d.
      split; [done|]. by intros ->.
    + intros [[[Hc Hcu] Hne]|?%not_elem_of_nil]; [|done]. split; [|done]. apply Hkeep; [done|done|].
      intros E. by apply Hne, Hsame.
  - intros c ?%not_elem_of_nil. done.
Qed.

(** The block that was freed, and the others. *)
Lemma freed_block s bs b s' bs' :
  freed s bs b s' bs' → b ∈ bs → ∃ c, c ∈ bs' ∧ b_used c = false ∧ b_data c = b_data b ∧ b_size c = b_size b.
Proof.
  intros [_ -> _ _] Hb. exists (Block (b_head b) (b_size b) false). split; [|done].
  apply list_elem_of_In, in_map_iff. exists b. rewrite Z.eqb_refl. split; [done|]. by apply list_elem_of_In.
Qed.
Lemma freed_other s bs b s' bs' c : freed s bs b s' bs' → heap_inv s bs → b ∈ bs → c ∈ bs → c ≠ b → c ∈ bs'.
Proof.
  intros [_ -> _ _] Hinv Hb Hc Hne. apply list_elem_of_In, in_map_iff. exists c. split; [|by apply list_elem_of_In].
  destruct (Z.eqb_spec (b_data c) (b_data b)) as [E|]; [|done]. by destruct (Hne (block_data_inj s bs c b Hinv Hc Hb E)).
Qed.

Lemma free_change s bs b sz :
  heap_inv s bs → in_use bs b →
  ∃ s' bs', bl_heap_free (b_data b) sz s = Some ((), s') ∧ heap_change s bs s' bs' [b] [] 0 (λ _, False) ∧
    ∀ a, stable s bs 0 a → ld8 (mem s') a = ld8 (mem s) a.
Proof.
  intros Hinv Hb. destruct (free_freed s bs b sz Hinv Hb) as (s' & bs' & Hrun & [Hch _ Hst _]). by exists s', bs'.
Qed.

Lemma alloc_result_change s bs sz g p s' bs' b :
  0 < sz → alloc_result s bs sz g p s' bs' b →
  heap_change s bs s' bs' [] [b] g (λ _, False) ∧ sz <= b_size b ∧ 0 < b_data b ∧ b_end b <= 4294967296.
Proof.
  intros Hsz (_ & [S1 S2 S3 S4 S5] & Hb & Hu & Hn & Hpos & _ & _ & _ & _ & Hex & Htok).
  destruct (Hex Hsz) as [Hnew Hused].
  destruct (laid_out_in _ b (heap_inv_laid_out _ _ S1) Hb) as (? & ? & ? & ?).
  split; [|split; [done|split; [done|lia]]]. split; try done.
  - intros c. rewrite Hused, list_elem_of_singleton. split; [intros [?| ->]|intros [[? _]| ->]]; auto.
    left. split; [done|by intros ?%not_elem_of_nil].
  - by intros c ->%list_elem_of_singleton.
  - intros a Ha _. by apply S5.
Qed.

Lemma alloc_change s bs sz :
  heap_inv s bs → 0 < sz < 4294967296 → room s bs sz 1 →
  ∃ b bs' s', bl_heap_alloc sz s = Some (b_data b, s') ∧ heap_change s bs s' bs' [] [b] (cost sz) (λ _, False) ∧
    sz <= b_size b ∧ 0 < b_data b ∧ b_end b <= 4294967296.
Proof.
  intros Hinv Hsz Hroom. destruct (alloc_exact s bs sz Hinv ltac:(lia) Hroom) as (b & bs' & s' & Hrun & Hres).
  exists b, bs', s'. split; [done|]. eapply alloc_result_change; [|done]. lia.
Qed.

(** An aligned allocation from a heap that is not empty. *)
Definition align_cost (n k : Z) : Z := 2 * sizeof_head + 2 ^ k + n.

Lemma alloc_align_change s bs sz k :
  heap_inv s bs → bs ≠ [] → 0 <= k < 32 → 0 < sz < 4294967296 → room s bs sz (2 ^ k) →
  ∃ b bs' s', bl_heap_alloc_align sz (2 ^ k) s = Some (b_data b, s') ∧ b_data b mod 2 ^ k = 0 ∧
    heap_change s bs s' bs' [] [b] (align_cost sz k) (λ _, False) ∧
    sz <= b_size b ∧ 0 < b_data b ∧ b_end b <= 4294967296.
Proof.
  intros Hinv Hne Hk Hsz Hroom. pose proof (pow2_32 k Hk).
  destruct (alloc_align_ok s bs sz k Hinv Hne Hk ltac:(lia) Hroom) as (p & bs' & s' & Hrun & Hmod & Hok).
  destruct (alloc_ok_result s bs sz (align_cost sz k) p s' bs') as (b & Hres);
    [done|lia|unfold align_cost, sizeof_head; lia|done|].
  pose proof Hres as (-> & _). exists b, bs', s'. split; [done|]. split; [done|].
  eapply alloc_result_change; [|done]. lia.
Qed.

Lemma change_weaken s bs s' bs' gone new g g' (W W' : Z → Prop) :
  g <= g' → (∀ a, W a → W' a) → heap_change s bs s' bs' gone new g W → heap_change s bs s' bs' gone new g' W'.
Proof.
  intros Hg HW [C1 C2 C3 C4 C5 C6 C7]. split; try done; [lia|].
  intros a Ha Ho Hn. apply C7; [by eapply stable_weaken|done|]. intros H. by apply Hn, HW.
Qed.

(** The payload of a block that came into use was not stable before. *)
Lemma change_new_payload s bs s' bs' gone new g W b x :
  heap_change s bs s' bs' gone new g W → b ∈ new → stable s bs g x → (∀ c, c ∈ gone → outside_slot c x) →
  outside (b_data b) (b_size b) x.
Proof.
  intros Hch Hb (Hr & Hs) Ho. pose proof (ch_inv _ _ _ _ _ _ _ _ Hch) as Hinv'.
  assert (Hb' : in_use bs' b) by (apply (ch_used _ _ _ _ _ _ _ _ Hch); by right).
  pose proof (heap_below s' bs' b Hinv' (proj1 Hb')) as [? ?].
  pose proof (ch_heap _ _ _ _ _ _ _ _ Hch) as Hh. pose proof (ch_end _ _ _ _ _ _ _ _ Hch) as He.
  destruct Hs as [?|[?|(c & Hc & Hcu & Hin)]].
  - unfold outside, b_data, sizeof_head in *. lia.
  - unfold outside, b_end in *. lia.
  - assert (Hc' : in_use bs' c).
    { apply (ch_used _ _ _ _ _ _ _ _ Hch). left. split; [done|]. intros Hg. specialize (Ho c Hg).
      unfold outside_slot, outside in Ho. lia. }
    apply outside_payload, (in_use_apart s' bs' c b x Hinv' Hc' Hb'); [|done].
    intros ->. by apply (ch_fresh _ _ _ _ _ _ _ _ Hch b Hb).
Qed.

(** Blocks that came into use, and regions that the step may write, may be
    written before anything else happens. *)
Lemma change_keeps_in s bs s' bs' gone new g (W : Z → Prop) rs m' :
  heap_change s bs s' bs' gone new g W → keeps rs (mem s') m' →
  (∀ r, r ∈ rs → (∃ b, b ∈ new ∧ b_data b <= r.1 ∧ r.1 + r.2 <= b_end b) ∨
                 (stable_region s' bs' 0 r.1 r.2 ∧ ∀ x, within r.1 r.2 x → W x)) →
  heap_change s bs (set_mem m' s') bs' gone new g W.
Proof.
  intros Hch Hk Hrs. pose proof (ch_inv _ _ _ _ _ _ _ _ Hch) as Hinv'.
  assert (Hnew : ∀ b, b ∈ new → in_use bs' b) by (intros b Hb; apply (ch_used _ _ _ _ _ _ _ _ Hch); by right).
  pose proof Hch as [_ C2 C3 C4 C5 C6 C7]. split; try done.
  - destruct bs' as [|c0 bs']; [done|]. pose proof (heap_inv_laid_out _ _ Hinv') as Hl. pose proof Hinv' as (? & ? & _ & Hc).
    do 3 (split; [done|]). refine (chain_ext (mem s') _ (c0 :: bs') _ Hc). intros x (c & Hc' & Hx). symmetry.
    destruct (laid_out_in _ c Hl Hc') as (? & ? & ? & ?).
    apply Hk; [field_lia|]. apply Forall_forall. intros r Hr. destruct (Hrs r Hr) as [(b & Hb & ? & ?)|[[_ Hst] _]].
    + destruct (Hnew b Hb) as [Hb' _]. destruct (laid_out_in _ b Hl Hb') as (? & ? & ? & ?).
      unfold outside. destruct (laid_out_disjoint _ b c Hl Hb' Hc') as [->|[?|?]]; field_lia.
    + destruct (decide (x < r.1 ∨ r.1 + r.2 <= x)) as [|Hin]; [done|exfalso].
      apply (stable_no_header _ _ 0 x Hinv' ltac:(lia) (Hst x ltac:(lia))). by exists c.
  - intros x Hx Ho HW. rewrite mem_set_mem, <- (C7 x Hx Ho HW). apply Hk; [by destruct Hx|]. apply Forall_forall.
    intros r Hr. destruct (Hrs r Hr) as [(b & Hb & ? & ?)|[_ Hw]].
    + pose proof (change_new_payload _ _ _ _ _ _ _ _ b x Hch Hb Hx Ho) as Hout. unfold outside, b_end in *. lia.
    + destruct (decide (x < r.1 ∨ r.1 + r.2 <= x)) as [|Hin]; [done|exfalso]. apply HW, Hw. unfold within. lia.
Qed.

Lemma change_keeps s bs s' bs' gone new g W rs m' :
  heap_change s bs s' bs' gone new g W → keeps rs (mem s') m' →
  (∀ r, r ∈ rs → ∃ b, b ∈ new ∧ b_data b <= r.1 ∧ r.1 + r.2 <= b_end b) →
  heap_change s bs (set_mem m' s') bs' gone new g W.
Proof. intros Hch Hk Hrs. eapply change_keeps_in; [done..|]. intros r Hr. left. by apply Hrs. Qed.

(** Writes into blocks that came into use are none that anyone else sees. *)
Lemma change_drop s bs s' bs' gone new g (W W' : Z → Prop) :
  heap_change s bs s' bs' gone new g W → (∀ x, W x → W' x ∨ ∃ b, b ∈ new ∧ b_data b <= x < b_end b) →
  heap_change s bs s' bs' gone new g W'.
Proof.
  intros Hch HW. pose proof Hch as [C1 C2 C3 C4 C5 C6 C7]. split; try done. intros x Hx Ho Hn. apply C7; [done..|].
  intros Hw. destruct (HW x Hw) as [|(b & Hb & ?)]; [done|].
  pose proof (change_new_payload _ _ _ _ _ _ _ _ b x Hch Hb Hx Ho) as Hout. unfold outside, b_end in *. lia.
Qed.

(** One more block. *)
Lemma alloc_more s0 bs0 s bs new g W sz :
  heap_change s0 bs0 s bs [] new g W → 0 <= g → 0 < sz < 4294967296 → heap_end s bs + cost sz <= 4294967296 →
  ∃ b s' bs', bl_heap_alloc sz s = Some (b_data b, s') ∧ heap_change s bs s' bs' [] [b] (cost sz) (λ _, False) ∧
    heap_change s0 bs0 s' bs' [] (new ++ [b]) (g + cost sz) W ∧ (b ∉ new) ∧ sz <= b_size b ∧ 0 < b_data b ∧ b_end b <= 4294967296.
Proof.
  intros Hch Hg Hsz Hend.
  destruct (alloc_change s bs sz (ch_inv _ _ _ _ _ _ _ _ Hch)) as (b & bs' & s' & Hal & Hch' & Hrest);
    [lia|unfold room, cost, sizeof_head in *; lia|].
  exists b, s', bs'. split; [done|]. split; [done|]. split; [|split; [|done]].
  - eapply change_new; [done|unfold cost, sizeof_head; lia|done|]. eapply change_weaken; [reflexivity| |exact Hch']. by intros x [].
  - intros Hb. apply (ch_fresh _ _ _ _ _ _ _ _ Hch' b); [left|]. apply (ch_used _ _ _ _ _ _ _ _ Hch). by right.
Qed.

(** The order of the blocks does not matter. *)
Lemma change_permute s bs s' bs' new new' g W :
  (∀ b, b ∈ new ↔ b ∈ new') → heap_change s bs s' bs' [] new g W → heap_change s bs s' bs' [] new' g W.
Proof.
  intros H [C1 C2 C3 C4 C5 C6 C7]. split; try done; [intros b; by rewrite C4, H|]. intros b Hb. by apply C5, H.
Qed.

(** A block that came into use and is freed again. *)
Lemma change_free s bs s1 bs1 b new g W sz :
  heap_change s bs s1 bs1 [] (b :: new) g W → b ∉ new →
  ∃ s2 bs2, bl_heap_free (b_data b) sz s1 = Some ((), s2) ∧ heap_change s bs s2 bs2 [] new g W ∧
    freed s1 bs1 b s2 bs2.
Proof.
  intros Hch Hn. assert (Hu : in_use bs1 b) by (apply (ch_used _ _ _ _ _ _ _ _ Hch); right; apply list_elem_of_here).
  destruct (free_freed s1 bs1 b sz (ch_inv _ _ _ _ _ _ _ _ Hch) Hu) as (s2 & bs2 & Hrun & Hfd). pose proof Hfd as [Hf _ Hst _].
  exists s2, bs2. split; [done|]. split; [|done]. pose proof Hch as [C1 C2 C3 C4 C5 C6 C7]. destruct Hf as [F1 F2 F3 F4 F5 F6 F7]. split.
  - exact F1.
  - by rewrite F2.
  - lia.
  - intros c. rewrite F4, C4, elem_of_cons, list_elem_of_singleton. split; [intros [[[[? ?]|[->|?]] ?]|?%not_elem_of_nil]; auto; done|].
    intros [[Hc Hg]|Hc]; left; (split; [auto|]); intros ->; [|done]. by apply (C5 b (list_elem_of_here _ _)).
  - intros c Hc. apply C5, elem_of_cons. by right.
  - by rewrite F6.
  - intros x Hx Ho HW. rewrite Hst; [by apply C7|]. eapply change_stable; [exact Hch|lia|by rewrite Z.add_0_r|done].
Qed.

Lemma change_write_new s bs s' bs' gone new g W b a l :
  heap_inv s bs → heap_change s bs s' bs' gone new g W → b ∈ new → b_data b <= a → a + Z.of_nat (length l) <= b_end b →
  heap_change s bs (set_mem (st_bytes (mem s') a l) s') bs' gone new g W.
Proof.
  intros Hinv Hch Hb Ha Hl. pose proof (ch_inv _ _ _ _ _ _ _ _ Hch) as Hinv'.
  assert (Hb' : in_use bs' b) by (apply (ch_used _ _ _ _ _ _ _ _ Hch); by right).
  destruct (laid_out_in _ b (heap_inv_laid_out _ _ Hinv') (proj1 Hb')) as (? & ? & ? & ?).
  eapply change_keeps; [done|apply keeps_st_bytes; unfold in_space; field_lia|].
  intros r ->%list_elem_of_singleton. by exists b.
Qed.

Lemma change_st_new n s bs s' bs' gone new g W b a v :
  heap_inv s bs → heap_change s bs s' bs' gone new g W → b ∈ new → b_data b <= a → a + Z.of_nat n <= b_end b →
  heap_change s bs (set_mem (st n (mem s') a v) s') bs' gone new g W.
Proof. intros. eapply change_write_new; [done..|]. by rewrite length_le_split. Qed.

(** Writing where the step may write anyway. *)
Lemma change_write_in s bs s' bs' gone new g (W : Z → Prop) a l :
  heap_change s bs s' bs' gone new g W → stable_region s' bs' 0 a (Z.of_nat (length l)) →
  (∀ x, within a (Z.of_nat (length l)) x → W x) →
  heap_change s bs (set_mem (st_bytes (mem s') a l) s') bs' gone new g W.
Proof.
  intros Hch Hreg HW. pose proof (step_inv _ _ _ _ _ _ (write_client s' bs' a l (ch_inv _ _ _ _ _ _ _ _ Hch) Hreg)) as Hinv.
  destruct Hch as [C1 C2 C3 C4 C5 C6 C7]. split; try done. intros x Hx Ho Hn. rewrite mem_set_mem, <- (C7 x Hx Ho Hn).
  apply ld8_st_bytes_out; [apply Hreg|by destruct Hx|]. unfold outside. destruct (decide (within a (Z.of_nat (length l)) x)) as [Hin|Hin].
  - by destruct (Hn (HW x Hin)).
  - unfold within in Hin. lia.
Qed.
