(* ===== verification/HeapTrace.v ===== *)
(** * Programs that use the heap: sequences of allocations, frees and writes into
    blocks that they hold *)
From S2P Require Import Prelude Memory Regions Arith Strings StringsProofs Heap HeapProofs HeapClient.

(** What a client does with the heap.  The blocks it holds are numbered, the last
    one first; an operation on a block that it does not hold, or a write that does
    not fit in its block, is no operation. *)
Inductive heap_op : Set :=
  | HAlloc (n : Z)
  | HFree (i : nat)
  | HWrite (i off : nat) (l : list Z).

(** The blocks that a client holds are lists of addresses and contents. *)
Definition run_op (o : heap_op) (live : list (Z * list Z)) : M (list (Z * list Z)) :=
  match o with
  | HAlloc n =>
      p ← bl_heap_alloc n;
      c ← rd_bytes p n;
      mret ((p, c) :: live)
  | HFree i =>
      match live !! i with
      | Some (p, c) => bl_heap_free p (Z.of_nat (length c));; mret (delete i live)
      | None => mret live
      end
  | HWrite i off l =>
      match live !! i with
      | Some (p, c) =>
          if decide (off + length l <= length c)%nat then
            wr_bytes (p + Z.of_nat off) l;; mret (<[i := (p, patch c (off, l))]> live)
          else mret live
      | None => mret live
      end
  end.
Fixpoint run_ops (ops : list heap_op) (live : list (Z * list Z)) : M (list (Z * list Z)) :=
  match ops with [] => mret live | o :: ops => live ← run_op o live; run_ops ops live end.

Definition op_ok (o : heap_op) : Prop :=
  match o with HAlloc n => 0 < n < 4294967296 | HFree _ => True | HWrite _ _ l => bytes l end.

(** How far the operations may let the heap grow. *)
Definition op_cost (o : heap_op) : Z := match o with HAlloc n => cost n | _ => 0 end.
Definition ops_cost (ops : list heap_op) : Z := foldr (λ o x, op_cost o + x) 0 ops.

(** The blocks are used blocks of the heap, all different, and memory has their
    contents. *)
Definition held (s : machine) (bs : list block) (e : Z * list Z) : Prop :=
  e.2 ≠ [] ∧ bytes e.2 ∧ owned bs e.1 (Z.of_nat (length e.2)) ∧ ld_bytes (mem s) e.1 (length e.2) = e.2.
Definition well_held (s : machine) (bs : list block) (live : list (Z * list Z)) : Prop :=
  heap_inv s bs ∧ NoDup live.*1 ∧ Forall (held s bs) live.

(** ** A held block lies in the payload of a used block *)
Lemma held_block s bs e :
  heap_inv s bs → held s bs e →
  ∃ b, b ∈ bs ∧ b_used b = true ∧ b_data b = e.1 ∧ (0 < Z.of_nat (length e.2) <= b_size b) ∧
    in_space e.1 (Z.of_nat (length e.2)) ∧ ∀ g a, e.1 <= a < e.1 + Z.of_nat (length e.2) → stable s bs g a.
Proof.
  intros Hinv (Hne & _ & (b & Hb & Hu & Hp & Hn) & _). exists b. do 3 (split; [done|]).
  destruct e as [p c]. cbn [fst snd] in *. destruct c as [|x c]; [done|]. cbn [length] in *.
  destruct (laid_out_in _ b (heap_inv_laid_out _ _ Hinv) Hb) as (? & ? & ? & ?).
  split; [lia|]. split; [field_lia|]. intros g a Ha. apply (payload_stable s bs g b); [done..|field_lia].
Qed.

(** Steps of the heap keep what is held, where they do not write. *)
Lemma held_step s bs s' bs' g W e :
  heap_step s bs s' bs' g W → heap_inv s bs → held s bs e →
  (∀ a, W a → outside e.1 (Z.of_nat (length e.2)) a) → held s' bs' e.
Proof.
  intros Hstep Hinv He Hout. destruct (held_block _ _ _ Hinv He) as (b & Hb & Hu & Hp & Hlen & Hsp & Hst).
  destruct He as (Hne & Hby & _ & Hld). split; [done|]. split; [done|]. split.
  - exists b. split; [by apply (step_used _ _ _ _ _ _ Hstep)|]. split; [done|]. split; [done|lia].
  - rewrite <- Hld at 2. apply ld_bytes_ext. intros i Hi. apply (step_frame _ _ _ _ _ _ Hstep); [apply Hst; lia|].
    intros Hw. specialize (Hout _ Hw). unfold outside in Hout. lia.
Qed.

(** ** The operations *)

(** What an operation that grows the heap by at most [g] leaves. *)
Definition op_result (s : machine) (bs : list block) (g : Z) (live' : list (Z * list Z)) (s' : machine) : Prop :=
  ∃ bs', well_held s' bs' live' ∧ bl_heap s' = bl_heap s ∧ heap_end s bs <= heap_end s' bs' <= heap_end s bs + g ∧
    ∀ a, 0 <= a < 4294967296 → (a < bl_heap s ∨ heap_end s bs + g <= a) → ld8 (mem s') a = ld8 (mem s) a.

Lemma alloc_op s bs live n :
  well_held s bs live → op_ok (HAlloc n) → heap_end s bs + cost n <= 4294967296 →
  ∃ live' s', run_op (HAlloc n) live s = Some (live', s') ∧ op_result s bs (cost n) live' s'.
Proof.
  intros (Hinv & Hdup & Hlive) Hn Hroom. cbn [op_ok] in Hn.
  destruct (alloc_client s bs n Hinv ltac:(lia)) as (b & bs' & s' & Hrun & Hstep & Hb & Hu & Hsz & Hpos & Hend & _ & Hout & _).
  { unfold room, cost, sizeof_head in *. lia. }
  set (c := ld_bytes (mem s') (b_data b) (Z.to_nat n)).
  assert (Hc : Z.of_nat (length c) = n) by (unfold c; rewrite length_ld_bytes; lia).
  exists ((b_data b, c) :: live), s'. split; [by unfold run_op; run_with Hrun|].
  exists bs'. split; [|split; [by apply Hstep|split; [by apply Hstep|]]].
  - split; [apply Hstep|]. split.
    + cbn [fmap list_fmap]. apply NoDup_cons. split; [|done]. intros ([p c'] & E & He)%list_elem_of_fmap. cbn [fst] in E.
      rewrite Forall_forall in Hlive. destruct (held_block _ _ _ Hinv (Hlive _ He)) as (d & _ & _ & _ & Hlen & _ & Hst).
      specialize (Hout (cost n) (b_data b) ltac:(lia) (Hst (cost n) (b_data b) ltac:(cbn [fst snd] in *; lia))).
      unfold outside in Hout. lia.
    + apply Forall_cons. split.
      * split; [cbn [snd]; intros E; rewrite E in Hc; cbn in Hc; lia|]. split; [apply bytes_ld_bytes|]. split.
        -- exists b. cbn [fst snd]. do 3 (split; [done|]). lia.
        -- cbn [fst snd]. unfold c at 1. by rewrite length_ld_bytes.
      * eapply Forall_impl; [exact Hlive|]. intros e He. eapply (held_step s bs); [exact Hstep|done..].
  - intros a Ha Ho. apply (step_frame _ _ _ _ _ _ Hstep); [|intros []]. split; [done|].
    destruct Ho; [by left|right; left; lia].
Qed.

(** What is left when a block is taken away has other addresses. *)
Lemma other_addresses (live : list (Z * list Z)) i p c e :
  NoDup live.*1 → live !! i = Some (p, c) → e ∈ delete i live → e ∈ live ∧ e.1 ≠ p.
Proof.
  intros Hdup Hi He. apply list_elem_of_lookup in He as [j Hj]. assert (∃ k, k ≠ i ∧ live !! k = Some e) as (k & Hk & Hlk).
  { destruct (decide (j < i)%nat).
    - exists j. split; [lia|]. by rewrite list_lookup_delete_lt in Hj.
    - exists (S j). split; [lia|]. by rewrite list_lookup_delete_ge in Hj by lia. }
  split; [by eapply list_elem_of_lookup_2|]. intros E. apply Hk. eapply NoDup_lookup; [exact Hdup| |].
  - rewrite list_lookup_fmap, Hlk. done.
  - rewrite list_lookup_fmap, Hi. cbn. by rewrite E.
Qed.

(** Blocks at different addresses do not meet. *)
Lemma held_apart s bs b e a :
  heap_inv s bs → b ∈ bs → held s bs e → e.1 ≠ b_data b →
  e.1 <= a < e.1 + Z.of_nat (length e.2) → outside (b_data b) (b_size b) a.
Proof.
  intros Hinv Hb He Hne Ha. destruct (held_block _ _ _ Hinv He) as (c & Hc & Hu & Hp & Hlen & _).
  pose proof (heap_inv_laid_out _ _ Hinv) as Hl.
  destruct (laid_out_in _ b Hl Hb) as (? & ? & ? & ?), (laid_out_in _ c Hl Hc) as (? & ? & ? & ?).
  destruct (laid_out_disjoint _ b c Hl Hb Hc) as [->|[?|?]]; [done|unfold outside; field_lia..].
Qed.

Lemma free_op s bs live i :
  well_held s bs live → ∃ live' s', run_op (HFree i) live s = Some (live', s') ∧ op_result s bs 0 live' s'.
Proof.
  intros (Hinv & Hdup & Hlive). unfold run_op. destruct (live !! i) as [[p c]|] eqn:Hi.
  2: { exists live, s. split; [done|]. exists bs. split; [done|]. split; [done|]. split; [lia|done]. }
  destruct (held_block _ _ _ Hinv (Forall_lookup_1 _ _ _ _ Hlive Hi)) as (b & Hb & Hu & Hp & _). cbn [fst snd] in Hp.
  destruct (free_client s bs b (Z.of_nat (length c)) Hinv Hb) as (s' & Hrun & Hinv' & Hh & He & Hkeep & Hframe).
  subst p. exists (delete i live), s'. split; [by run_with Hrun|].
  exists (free_spec (b_data b) bs). split; [|split; [done|split; [lia|]]].
  - split; [done|]. rewrite list_fmap_delete. split.
    + eapply sublist_NoDup; [exact Hdup|apply sublist_delete].
    + apply Forall_forall. intros e Hin. destruct (other_addresses _ _ _ _ _ Hdup Hi Hin) as [Hin' Hne].
      rewrite Forall_forall in Hlive. pose proof (Hlive _ Hin') as Hheld.
      destruct (held_block _ _ _ Hinv Hheld) as (d & Hd & Hud & Hpd & Hlen & _ & Hst).
      destruct Hheld as (Hne' & Hby & Hown & Hld). split; [done|]. split; [done|]. split.
      * exists d. split; [apply Hkeep; [done|done|by rewrite Hpd]|]. do 2 (split; [done|]). lia.
      * rewrite <- Hld at 2. apply ld_bytes_ext. intros k Hk.
        apply (Hframe 0); [lia|apply Hst; lia].
  - intros a Ha Ho. destruct (Hframe 0 a) as [E _]; [lia| |done].
    split; [done|]. destruct Ho; [by left|right; left; lia].
Qed.

Lemma write_op s bs live i off l :
  well_held s bs live → op_ok (HWrite i off l) →
  ∃ live' s', run_op (HWrite i off l) live s = Some (live', s') ∧ op_result s bs 0 live' s'.
Proof.
  intros (Hinv & Hdup & Hlive) Hl. unfold run_op.
  assert (Hid : op_result s bs 0 live s).
  { exists bs. split; [done|]. split; [done|]. split; [lia|done]. }
  destruct (live !! i) as [[p c]|] eqn:Hi; [|by exists live, s].
  destruct (decide (off + length l <= length c)%nat) as [Hfit|]; [|by exists live, s]. clear Hid.
  pose proof (Forall_lookup_1 _ _ _ _ Hlive Hi) as Hheld.
  destruct (held_block _ _ _ Hinv Hheld) as (b & Hb & Hu & Hp & Hlen & Hsp & Hst). cbn [fst snd] in *.
  assert (Hstable : stable_region s bs 0 (p + Z.of_nat off) (Z.of_nat (length l))).
  { split; [unfold in_space in *; lia|]. intros x Hx. apply Hst. lia. }
  pose proof (write_client s bs (p + Z.of_nat off) l Hinv Hstable) as Hstep.
  set (s' := set_mem (st_bytes (mem s) (p + Z.of_nat off) l) s) in *.
  exists (<[i := (p, patch c (off, l))]> live), s'. split; [done|].
  exists bs. split; [|split; [done|split; [apply Hstep|]]].
  - split; [apply Hstep|]. split; [by rewrite list_fmap_insert, list_insert_id by (by rewrite list_lookup_fmap, Hi)|].
    apply Forall_lookup_2. intros j e [(-> & <- & _)|[Hne Hj]]%list_lookup_insert_Some.
    + destruct Hheld as (Hne & Hby & (d & Hd) & Hld). cbn [fst snd] in *.
      assert (Hlen' : length (patch c (off, l)) = length c).
      { unfold patch. cbn [fst snd]. rewrite !length_app, length_take, length_drop. lia. }
      unfold held. cbn [fst snd]. rewrite Hlen'. split; [intros E; rewrite E in Hlen'; by destruct c|].
      assert (Hld' : ld_bytes (mem s') p (length c) = patch c (off, l)).
      { unfold s'. rewrite mem_set_mem, ld_bytes_patch by done. by rewrite Hld. }
      split; [rewrite <- Hld'; apply bytes_ld_bytes|]. split; [by exists d|done].
    + eapply (held_step s bs); [exact Hstep|done|by eapply Forall_lookup_1|]. intros a Ha.
      destruct (decide (e.1 <= a < e.1 + Z.of_nat (length e.2))) as [Hin|]; [exfalso|unfold outside; lia].
      assert (e.1 ≠ b_data b) as Hd.
      { rewrite Hp. intros E. apply Hne. eapply NoDup_lookup; [exact Hdup| |].
        - rewrite list_lookup_fmap, Hi. done.
        - rewrite list_lookup_fmap, Hj. cbn. by rewrite E. }
      pose proof (held_apart s bs b e a Hinv Hb (Forall_lookup_1 _ _ _ _ Hlive Hj) Hd Hin).
      unfold within, outside in *. lia.
  - intros a Ha Ho. apply (step_frame _ _ _ _ _ _ Hstep).
    + split; [done|]. destruct Ho; [by left|right; left; lia].
    + pose proof (heap_below _ _ _ Hinv Hb). destruct (laid_out_in _ b (heap_inv_laid_out _ _ Hinv) Hb) as (? & ? & ? & ?).
      unfold within. field_lia.
Qed.

Lemma op_cost_pos o : op_ok o → 0 <= op_cost o.
Proof. destruct o; cbn [op_ok op_cost]; unfold cost, sizeof_head; lia. Qed.

Lemma run_op_ok o s bs live :
  well_held s bs live → op_ok o → heap_end s bs + op_cost o <= 4294967296 →
  ∃ live' s', run_op o live s = Some (live', s') ∧ op_result s bs (op_cost o) live' s'.
Proof.
  destruct o as [n|i|i off l]; intros; [by apply alloc_op|by apply free_op|by apply write_op].
Qed.

(** C10: A program that allocates, frees and writes into the blocks it holds, in any
    order, never breaks the heap: every operation returns, memory holds a
    well-formed list of blocks after it, the blocks that the program holds are
    different used blocks of it, their bytes are those that were last written
    through them, and nothing outside the part of memory that the heap may grow
    into is touched. *)
Theorem heap_programs_well_held ops live s bs :
  well_held s bs live → Forall op_ok ops → heap_end s bs + ops_cost ops <= 4294967296 →
  ∃ live' s' bs', run_ops ops live s = Some (live', s') ∧ well_held s' bs' live' ∧
    heap_end s' bs' <= heap_end s bs + ops_cost ops ∧
    ∀ a, 0 <= a < 4294967296 → (a < bl_heap s ∨ heap_end s bs + ops_cost ops <= a) → ld8 (mem s') a = ld8 (mem s) a.
Proof.
  intros Hheld Hops. revert live s bs Hheld. induction Hops as [|o ops Ho Hops IH]; intros live s bs Hheld Hroom.
  - exists live, s, bs. split; [done|]. split; [done|]. cbn in *. split; [lia|done].
  - cbn [ops_cost foldr] in *. fold (ops_cost ops) in *. pose proof (op_cost_pos _ Ho).
    assert (0 <= ops_cost ops).
    { clear -Hops. induction Hops as [|o' ops Ho' Hops IH]; [done|]. cbn. pose proof (op_cost_pos _ Ho').
      unfold ops_cost in IH. lia. }
    destruct (run_op_ok o s bs live Hheld Ho ltac:(lia)) as (live1 & s1 & Hrun & bs1 & Hheld1 & Hh & He & Hframe).
    destruct (IH live1 s1 bs1 Hheld1 ltac:(lia)) as (live' & s' & bs' & Hrun' & Hheld' & He' & Hframe').
    exists live', s', bs'. split; [cbn [run_ops]; by run_with Hrun|]. split; [done|]. split; [lia|].
    intros a Ha Hout. rewrite Hframe', Hframe; [done|done|lia|done|lia].
Qed.

Definition ops_example : list heap_op :=
  [HAlloc 24; HAlloc 100; HWrite 1 2 [7; 8]; HFree 0; HAlloc 64; HWrite 0 63 [9]; HFree 5].
Lemma heap_programs_well_held_witness :
  Forall op_ok ops_example ∧
  ∃ live' s' bs', run_ops ops_example [] heap_empty = Some (live', s') ∧ well_held s' bs' live'.
Proof.
  assert (Hops : Forall op_ok ops_example).
  { repeat (apply Forall_cons; split; [first [done | by repeat constructor]|]). constructor. }
  split; [done|].
  destruct (heap_programs_well_held ops_example [] heap_empty []) as (live' & s' & bs' & Hrun & Hheld & _).
  - split; [exact heap_empty_inv|]. split; constructor.
  - exact Hops.
  - by vm_compute.
  - exists live', s', bs'. split; [exact Hrun|exact Hheld].
Defined.

(** The blocks of the example: the freed block was the last of the list, where the
    search never arrives, so the third allocation lies behind it. *)
Example ops_example_run :
  match run_ops ops_example [] heap_empty with
  | Some (live, _) => live = [(0x1000c0, replicate 63 0 ++ [9]); (0x100010, [0; 0; 7; 8] ++ replicate 20 0)]
  | None => False
  end.
Proof. by vm_compute. Qed.
