(* ===== verification/Storage.v ===== *)
(** * Disks, controllers and partitions: core/storage/storage.c,
    core/storage/disk-controller.c, core/partition-table/partition-table.c,
    include/storage/storage.h

    The registries (disks, controllers, partition-table drivers) are lists of
    records: their nodes are static objects of the drivers, holding function
    pointers.  Partitions are heap objects and live in the machine's memory. *)
From S2P Require Import Prelude Memory Arith Status Strings StringsProofs Heap HeapProofs.

Definition BL_STORAGE_SECTOR_SIZE : Z := 512.

Inductive bl_disk_controller_t : Set :=
  | BL_DISK_CONTROLLER_TYPE_PATA
  | BL_DISK_CONTROLLER_TYPE_AHCI
  | BL_DISK_CONTROLLER_TYPE_USB_SCSI.
#[export] Instance bl_disk_controller_t_eq_dec : EqDecision bl_disk_controller_t.
Proof. solve_decision. Defined.

Inductive bl_storage_t : Set := BL_STORAGE_TYPE_HARD_DRIVE | BL_STORAGE_TYPE_USB_DRIVE.

(** What [get_info] may set in a disk. *)
Record disk_info := DiskInfo { sector_size : Z; sector_count : Z }.

(** [struct bl_disk_controller_functions].  The driver knows a disk by its
    [data] pointer and its sizes; [read info data buf lba count] fills [buf]. *)
Record bl_disk_controller_functions := DiskFunctions {
  ctl_type : bl_disk_controller_t;
  ctl_read : disk_info → Z → Z → Z → Z → M bl_status_t;
  ctl_get_info : option (Z → disk_info → M (bl_status_t * disk_info));
}.

Record bl_storage_device := Disk {
  disk_type : bl_storage_t;
  disk_inf : disk_info;
  disk_partitions : Z;                                  (* struct bl_partition * *)
  disk_controller : option bl_disk_controller_functions;
  disk_data : Z;
}.

Definition with_partitions (p : Z) (d : bl_storage_device) : bl_storage_device :=
  Disk (disk_type d) (disk_inf d) p (disk_controller d) (disk_data d).
Definition with_controller (c : bl_disk_controller_functions) (d : bl_storage_device) :=
  Disk (disk_type d) (disk_inf d) (disk_partitions d) (Some c) (disk_data d).
Definition with_info (i : disk_info) (d : bl_storage_device) : bl_storage_device :=
  Disk (disk_type d) i (disk_partitions d) (disk_controller d) (disk_data d).

(** [struct bl_partition]: 20 bytes on i386. *)
Definition sizeof_partition : Z := 20.
Definition part_lba : Z := 0.
Definition part_sectors : Z := 8.
Definition part_next : Z := 16.

(** [struct bl_storage_device] and [struct bl_disk_controller] as the drivers
    that allocate them see them in memory. *)
Definition storage_type : Z := 0.
Definition storage_sector_size : Z := 12.
Definition storage_sector_count : Z := 16.
Definition storage_partitions : Z := 24.
Definition storage_controller : Z := 28.
Definition storage_data : Z := 32.
Definition storage_next : Z := 36.
Definition sizeof_storage_device : Z := 40.
Definition sizeof_disk_controller : Z := 12.

(** ** disk-controller.c *)
Fixpoint bl_disk_controller_match_type (type : bl_disk_controller_t)
    (controller_list : list bl_disk_controller_functions) : option bl_disk_controller_functions :=
  match controller_list with
  | [] => None
  | curr :: next =>
      if decide (type = ctl_type curr) then Some curr
      else bl_disk_controller_match_type type next
  end.

Definition bl_disk_controller_register (controller : bl_disk_controller_functions)
    (controller_list : list bl_disk_controller_functions) : list bl_disk_controller_functions :=
  controller :: controller_list.

(** ** Look-ups by index *)
Definition bl_storage_device_get (index : Z) (devices : list bl_storage_device) :
    option bl_storage_device :=
  if index <? 0 then None
  else
    (fix go (i : Z) (disk : list bl_storage_device) :=
       match disk with
       | [] => None
       | d :: next => if i =? index then Some d else go (i + 1) next
       end) 0 devices.

Definition bl_storage_partition_get (disk : bl_storage_device) (index : Z) : M Z :=
  if index <? 0 then mret NULL
  else
    mwhile (λ '(i, partition),
      if negb (is_null partition) then
        if i =? index then break partition
        else next ← rd32 (partition + part_next); continue (i + 1, next)
      else break NULL) (0, disk_partitions disk).

Definition bl_storage_device_register (disk : bl_storage_device)
    (devices : list bl_storage_device) : list bl_storage_device := disk :: devices.

(** ** Partition tables: partition-table.c *)
Definition partition_table : Type :=
  bl_storage_device → M (bl_status_t * bl_storage_device).

Definition bl_partition_table_register (table : partition_table) (l : list partition_table) :
    list partition_table := table :: l.

(** The tables are tried in order until one accepts the disk. *)
Fixpoint bl_partition_table_probe (tables : list partition_table) (disk : bl_storage_device) :
    M (bl_status_t * bl_storage_device) :=
  match tables with
  | [] => mret (BL_STATUS_UNPROPER_DISK, disk)
  | iterate :: next =>
      '(status, disk) ← iterate disk;
      if failed status then bl_partition_table_probe next disk
      else mret (BL_STATUS_SUCCESS, disk)
  end.

(** ** [bl_storage_probe]: the loop state is the disks already probed (most
    recent first) and those that are left; a disk without a controller for
    which no USB SCSI controller is registered makes the loop [continue]
    without advancing. *)
Definition bl_storage_probe (controllers : list bl_disk_controller_functions)
    (tables : list partition_table) (devices : list bl_storage_device) :
    M (bl_status_t * list bl_storage_device) :=
  mwhile (λ '(visited, todo),
    match todo with
    | [] => break (BL_STATUS_SUCCESS, rev visited)
    | disk :: next =>
        let controller :=
          match disk_controller disk with
          | Some c => Some c
          | None => bl_disk_controller_match_type BL_DISK_CONTROLLER_TYPE_USB_SCSI controllers
          end in
        match controller with
        | None => continue (visited, todo)
        | Some c =>
            let disk := with_controller c disk in
            '(status, disk) ←
              match ctl_get_info c with
              | Some get_info =>
                  '(status, i) ← get_info (disk_data disk) (disk_inf disk);
                  mret (status, with_info i disk)
              | None => mret (BL_STATUS_SUCCESS, disk)
              end;
            if failed status then break (status, rev visited ++ disk :: next)
            else
              '(_, disk) ← bl_partition_table_probe tables disk;
              continue (disk :: visited, next)
        end
    end) ([], devices).

(** ** [bl_storage_device_read] *)
Definition bl_storage_device_read (disk : bl_storage_device) (buf lba size offset : Z) :
    M bl_status_t :=
  let sectors_size := BL_MEMORY_ALIGN_UP (offset + size) BL_STORAGE_SECTOR_SIZE in
  raw_disk_data ← bl_heap_alloc sectors_size;
  if is_null raw_disk_data then mret BL_STATUS_MEMORY_ALLOCATION_FAILED
  else
    match disk_controller disk with
    | None => diverge  (* a null dereference: no disk reaches this unprobed *)
    | Some c =>
        status ← ctl_read c (disk_inf disk) (disk_data disk) raw_disk_data (u64 lba)
                   (sectors_size / BL_STORAGE_SECTOR_SIZE);
        (if failed status then mret ()
         else bl_memcpy buf (u32 (raw_disk_data + offset)) size;; mret ());;
        bl_heap_free raw_disk_data sectors_size;;
        mret status
    end.

(** File-system drivers keep a pointer to the disk they are mounted on. *)
Definition disk_table : Type := Z → option bl_storage_device.
Definition disk_of (disks : disk_table) (p : Z) : M bl_storage_device :=
  match disks p with Some d => mret d | None => diverge end.
