(* ===== verification/StorageProofs.v ===== *)
(** * Proofs about disks and partitions *)
From S2P Require Import Prelude Memory Regions Arith Status Strings StringsProofs Heap HeapProofs HeapClient Storage.

(** ** Disk images *)

(** [n] bytes of an image from byte [a]. *)
Definition slice (image : Z → Z) (a n : Z) : list Z :=
  (λ i, u8 (image (a + i))) <$> seqZ 0 n.

Lemma length_slice image a n : 0 <= n → Z.of_nat (length (slice image a n)) = n.
Proof. intros. unfold slice. rewrite length_fmap, length_seqZ. lia. Qed.

Lemma bytes_slice image a n : bytes (slice image a n).
Proof. apply Forall_fmap, Forall_forall. intros i _. apply u8_range. Qed.

Lemma slice_app image a n k : 0 <= n → 0 <= k → slice image a (n + k) = slice image a n ++ slice image (a + n) k.
Proof.
  intros. unfold slice. rewrite seqZ_app, fmap_app by lia. f_equal.
  rewrite Z.add_0_l, <- (Z.add_0_r n) at 1. rewrite <- fmap_add_seqZ, <- list_fmap_compose.
  apply list_fmap_ext. intros i x _. unfold compose. do 2 f_equal. lia.
Qed.

Lemma lookup_slice image a n i :
  0 <= i < n → slice image a n !! Z.to_nat i = Some (u8 (image (a + i))).
Proof.
  intros Hi. unfold slice.
  rewrite list_lookup_fmap, lookup_seqZ_lt by lia. simpl. do 3 f_equal. lia.
Qed.

(** What a disk driver promises: a read inside the disk fills the buffer with
    the sectors asked for and changes nothing else that the program sees. *)
Class ReadsFrom (c : bl_disk_controller_functions) (data : Z) (image : Z → Z) (sectors : Z) : Prop :=
  reads_from inf s buf lba count :
    0 <= lba → 0 <= count → lba + count <= sectors → in_space buf (512 * count) →
    ctl_read c inf data buf lba count s =
    Some (BL_STATUS_SUCCESS, set_mem (st_bytes (mem s) buf (slice image (512 * lba) (512 * count))) s).

Definition disk_reads (d : bl_storage_device) (image : Z → Z) (sectors : Z) : Prop :=
  ∃ c, disk_controller d = Some c ∧ ReadsFrom c (disk_data d) image sectors.

(** A disk in memory. *)
Definition ram_controller (type : bl_disk_controller_t) (image : Z → Z) : bl_disk_controller_functions :=
  DiskFunctions type
    (λ _ _ buf lba count, wr_bytes buf (slice image (512 * lba) (512 * count));; mret BL_STATUS_SUCCESS)
    None.
Definition ram_disk (image : Z → Z) : bl_storage_device :=
  Disk BL_STORAGE_TYPE_HARD_DRIVE (DiskInfo 512 1024) NULL
    (Some (ram_controller BL_DISK_CONTROLLER_TYPE_PATA image)) 0.

#[export] Instance ram_reads_from type image data sectors :
  ReadsFrom (ram_controller type image) data image sectors.
Proof. done. Qed.

Lemma ram_disk_reads image sectors : disk_reads (ram_disk image) image sectors.
Proof. eexists. split; [done|apply _]. Qed.

(** The part of a sector-aligned copy that was asked for. *)
Lemma slice_of_slice m raw image a n offset size :
  0 <= offset → 0 <= size → offset + size <= n → in_space raw n →
  ld_bytes (st_bytes m raw (slice image a n)) (raw + offset) (Z.to_nat size) =
  slice image (a + offset) size.
Proof.
  intros Ho Hs Hn Hsp. apply list_eq. intros i.
  destruct (decide (i < Z.to_nat size)%nat) as [Hi|Hi].
  - rewrite lookup_ld_bytes by done.
    replace (raw + offset + Z.of_nat i) with (raw + Z.of_nat (Z.to_nat (offset + Z.of_nat i))) by lia.
    erewrite ld8_st_bytes_in; [|by rewrite length_slice by lia|apply lookup_slice; lia].
    rewrite u8_idemp. replace i with (Z.to_nat (Z.of_nat i)) at 2 by lia.
    rewrite lookup_slice by lia. do 3 f_equal. lia.
  - rewrite !lookup_ge_None_2; [done|..]; rewrite ?length_ld_bytes; [|lia].
    pose proof (length_slice image (a + offset) size). lia.
Qed.

Definition sector_round (n : Z) : Z := round_up n BL_STORAGE_SECTOR_SIZE.

Lemma sector_round_spec n :
  0 <= n → n <= sector_round n < n + 512 ∧ 512 * (sector_round n / 512) = sector_round n.
Proof.
  intros. unfold sector_round. change BL_STORAGE_SECTOR_SIZE with 512.
  destruct (round_up_spec n 512) as [? ?]; [lia|]. split; [lia|].
  pose proof (Z.div_mod (round_up n 512) 512). lia.
Qed.

Lemma sector_align n :
  0 <= n → n + 512 <= 4294967296 → BL_MEMORY_ALIGN_UP n BL_STORAGE_SECTOR_SIZE = sector_round n.
Proof. intros. change BL_STORAGE_SECTOR_SIZE with (2 ^ 9). apply align_up_pow2; lia. Qed.

(** The conditions under which a read of the disk succeeds. *)
Record readable (s : machine) (bs : list block) (sectors buf lba size offset : Z) : Prop := Readable {
  rd_size : 0 < size;
  rd_offset : 0 <= offset;
  rd_fits : offset + size + 512 <= 4294967296;
  rd_lba : 0 <= lba < 18446744073709551616;
  rd_in_disk : lba + sector_round (offset + size) / 512 <= sectors;
  rd_room : room s bs (sector_round (offset + size)) 1;
  rd_buf : buf ≠ 0;
  rd_stable : stable_region s bs (cost (sector_round (offset + size))) buf size;
}.

Lemma copy_out s buf raw image a n offset size :
  0 <= offset → 0 < size → offset + size <= n → in_space raw n → buf ≠ 0 → 0 < raw → in_space buf size →
  (bl_memcpy buf (raw + offset) size;; mret ()) (set_mem (st_bytes (mem s) raw (slice image a n)) s) =
  Some ((), set_mem (st_bytes (st_bytes (mem s) raw (slice image a n)) buf
                       (slice image (a + offset) size)) s).
Proof.
  intros Ho Hs Hn Hraw Hb Hr Hbuf. set (s2 := set_mem _ s).
  pose proof (bl_memcpy_run s2 buf (raw + offset) size Hb ltac:(lia) Hbuf
    ltac:(unfold in_space in *; lia) ltac:(unfold in_space in *; lia)) as Hc.
  run_with Hc. unfold s2. rewrite mem_set_mem, set_mem_set_mem. do 3 f_equal. rewrite slice_of_slice; [done|lia..|done].
Qed.

(** A read through any driver: what the driver does with the scratch block is
    asked for the states in which it is called.  The scratch block is given back:
    the blocks in use are the same. *)
Lemma storage_change_via d c image a sectors s bs buf lba size offset :
  disk_controller d = Some c → heap_inv s bs → readable s bs sectors buf lba size offset →
  (∀ b s1 bs1, let n := sector_round (offset + size) in
     heap_step s bs s1 bs1 (cost n) (λ _, False) → 0 < b_data b → in_space (b_data b) n → n <= b_size b →
     (∀ g x, cost n <= g → stable s bs g x → outside (b_data b) (b_size b) x) →
     ctl_read c (disk_inf d) (disk_data d) (b_data b) lba (n / 512) s1 =
     Some (BL_STATUS_SUCCESS, set_mem (st_bytes (mem s1) (b_data b) (slice image a n)) s1)) →
  ∃ s' bs', bl_storage_device_read d buf lba size offset s = Some (BL_STATUS_SUCCESS, s') ∧
    heap_change s bs s' bs' [] [] (cost (sector_round (offset + size))) (within buf size) ∧
    ld_bytes (mem s') buf (Z.to_nat size) = slice image (a + offset) size.
Proof.
  intros Hc Hinv [Hsz Hoff Hfit Hlba _ Hroom Hbuf [Hsp Hst]] Hrd.
  destruct (sector_round_spec (offset + size)) as [Hr1 Hr2]; [lia|].
  set (n := sector_round (offset + size)) in *.
  destruct (alloc_exact s bs n Hinv) as (b & bs1 & s1 & Hal & Hres); [lia|done|].
  destruct (alloc_result_change s bs n _ _ _ _ _ ltac:(lia) Hres) as (Hch & Hn & Hp0 & Hpe).
  pose proof Hres as (_ & Hstep & _ & _ & _ & _ & Hpsp & _ & Hout & _ & _).
  assert (Hspb : in_space (b_data b) n) by (unfold in_space; lia).
  set (img := slice image a n). set (dat := slice image (a + offset) size).
  assert (Hli : Z.of_nat (length img) = n) by (apply length_slice; lia).
  assert (Hld : Z.of_nat (length dat) = size) by (apply length_slice; lia).
  set (s2 := set_mem (st_bytes (mem s1) (b_data b) img) s1).
  set (s3 := set_mem (st_bytes (mem s2) buf dat) s2).
  assert (Hch2 : heap_change s bs s2 bs1 [] [b] (cost n) (within buf size)).
  { apply (change_weaken _ _ _ _ _ _ (cost n) _ (λ _, False)); [reflexivity|by intros x []|]. eapply change_keeps; [exact Hch|by apply keeps_st_bytes; rewrite Hli|].
    intros r ->%list_elem_of_singleton. exists b. split; [left|]. unfold b_end. cbn [fst snd]. lia. }
  assert (Hst2 : stable_region s2 bs1 0 buf size).
  { split; [done|]. intros x Hx. eapply change_stable; [exact Hch2|lia|rewrite Z.add_0_r; by apply Hst|].
    by intros q ?%not_elem_of_nil. }
  assert (Hch3 : heap_change s bs s3 bs1 [] [b] (cost n) (within buf size)).
  { apply change_write_in; [exact Hch2|by rewrite Hld|by rewrite Hld]. }
  destruct (change_free _ _ _ _ _ _ _ _ n Hch3 ltac:(apply not_elem_of_nil)) as (s4 & bs4 & Hfree & Hch4 & [_ _ Hf _]).
  exists s4, bs4. split; [|split; [done|]].
  - unfold bl_storage_device_read. rewrite sector_align by lia. fold n. run_with Hal. unfold is_null.
    destruct (Z.eqb_spec (b_data b) 0) as [|_]; [lia|]. rewrite Hc. cbv iota.
    change (n / BL_STORAGE_SECTOR_SIZE) with (n / 512). rewrite (u64_small lba) by done.
    assert (Hread : ctl_read c (disk_inf d) (disk_data d) (b_data b) lba (n / 512) s1 = Some (BL_STATUS_SUCCESS, s2)).
    { apply (Hrd b s1 bs1); done. }
    run_with Hread. change (failed BL_STATUS_SUCCESS) with false. cbv iota.
    rewrite (u32_small (b_data b + offset)) by lia.
    pose proof (copy_out s1 buf (b_data b) image a n offset size) as Hcopy.
    specialize (Hcopy Hoff Hsz ltac:(lia) Hspb Hbuf Hp0 Hsp). fold img s2 in Hcopy.
    run_with Hcopy. by run_with Hfree.
  - assert (E : ld_bytes (mem s3) buf (length dat) = dat).
    { apply ld_bytes_st_bytes_in; [by rewrite Hld|apply bytes_slice]. }
    replace (length dat) with (Z.to_nat size) in E by lia. rewrite <- E.
    apply ld_bytes_ext. intros i Hi. apply Hf. eapply change_stable; [exact Hch3|lia|rewrite Z.add_0_r; apply Hst; lia|].
    by intros q ?%not_elem_of_nil.
Qed.

Lemma storage_change_run d image sectors s bs buf lba size offset :
  disk_reads d image sectors → heap_inv s bs → readable s bs sectors buf lba size offset →
  ∃ s' bs', bl_storage_device_read d buf lba size offset s = Some (BL_STATUS_SUCCESS, s') ∧
    heap_change s bs s' bs' [] [] (cost (sector_round (offset + size))) (within buf size) ∧
    ld_bytes (mem s') buf (Z.to_nat size) = slice image (512 * lba + offset) size.
Proof.
  intros (c & Hc & Hrd) Hinv Hread. eapply storage_change_via; [done..|].
  intros b s1 bs1 n _ Hb Hsp _ _. destruct Hread as [Hsz Hoff _ Hlba Hdisk _ _ _].
  destruct (sector_round_spec (offset + size)) as [Hr1 Hr2]; [lia|]. fold n in Hr1, Hr2, Hdisk.
  rewrite (Hrd (disk_inf d) s1 (b_data b) lba (n / 512)), Hr2; [done|lia|lia|lia|by rewrite Hr2].
Qed.

Lemma storage_read_run d image sectors s bs buf lba size offset :
  disk_reads d image sectors → heap_inv s bs → readable s bs sectors buf lba size offset →
  ∃ s' bs', bl_storage_device_read d buf lba size offset s = Some (BL_STATUS_SUCCESS, s') ∧
    heap_step s bs s' bs' (cost (sector_round (offset + size))) (within buf size) ∧
    ld_bytes (mem s') buf (Z.to_nat size) = slice image (512 * lba + offset) size.
Proof.
  intros Hd Hinv Hread.
  destruct (storage_change_run d image sectors s bs buf lba size offset) as (s' & bs' & H1 & H2 & H3); [done..|].
  exists s', bs'. split; [done|]. split; [by eapply change_step|done].
Qed.
