(* ===== verification/PartitionTables.v ===== *)
(** * Partition-table drivers: modules/partition-table/mbr/mbr.c,
    modules/partition-table/gpt/gpt.c, include/mbr.h, gpt/gpt.h

    The local structures of the C functions are buffers at addresses that the
    definitions take as arguments (the stack frame). *)
From S2P Require Import Prelude Memory Arith Status Strings Heap Storage.

(** ** include/mbr.h *)
Definition BL_MBR_SIGNATURE : Z := 0xaa55.
Definition BL_MBR_PARTITION_TYPE_NONE : Z := 0x00.
Definition BL_MBR_PARTITION_TYPE_GPT_DISK : Z := 0xee.

(** [struct bl_mbr] and [struct bl_mbr_partition_entry]. *)
Definition sizeof_mbr : Z := 512.
Definition mbr_entry (mbr i : Z) : Z := mbr + 446 + 16 * i.
Definition mbr_signature : Z := 510.
Definition entry_partition_type : Z := 4.
Definition entry_start : Z := 8.
Definition entry_length : Z := 12.

(** ** Adding a partition to a disk, the common end of both drivers *)
Definition add_partition (disk : bl_storage_device) (lba sectors : M Z) :
    M (option bl_storage_device) :=
  partition ← bl_heap_alloc sizeof_partition;
  if is_null partition then mret None
  else
    lba ← lba;
    wr64 (partition + part_lba) lba;;
    sectors ← sectors;
    wr64 (partition + part_sectors) sectors;;
    wr32 (partition + part_next) (disk_partitions disk);;
    mret (Some (with_partitions partition disk)).

(** ** mbr.c *)
Definition bl_mbr_iterate (mbr : Z) : partition_table := λ disk,
  status ← bl_storage_device_read disk mbr 0 sizeof_mbr 0;
  if failed status then mret (status, disk)
  else
    signature ← rd16 (mbr + mbr_signature);
    if negb (signature =? BL_MBR_SIGNATURE) then mret (BL_STATUS_UNSUPPORTED, disk)
    else
      mwhile (λ '(i, disk),
        if i <? 4 then
          type ← rd8 (mbr_entry mbr i + entry_partition_type);
          if type =? BL_MBR_PARTITION_TYPE_NONE then continue (i + 1, disk)
          else
            o ← add_partition disk (rd32 (mbr_entry mbr i + entry_start))
                  (rd32 (mbr_entry mbr i + entry_length));
            match o with
            | None => break (BL_STATUS_MEMORY_ALLOCATION_FAILED, disk)
            | Some disk => continue (i + 1, disk)
            end
        else break (BL_STATUS_SUCCESS, disk)) (0, disk).

(** ** gpt.h *)
Definition sizeof_gpt_header : Z := 92.
Definition gpt_signature : Z := 0.
Definition gpt_partitions_lba : Z := 72.
Definition gpt_partitions_count : Z := 80.
Definition gpt_partition_entry_size : Z := 84.

Definition sizeof_gpt_partition_entry : Z := 128.
Definition gpt_partition_type_guid : Z := 0.
Definition gpt_first_lba : Z := 32.
Definition gpt_last_lba : Z := 40.
Definition sizeof_guid : Z := 16.

(** ** gpt.c: the locals of [bl_gpt_iterate], and where the literal
    [BL_GPT_SIGNATURE] ("EFI PART") is stored. *)
Record gpt_frame := GptFrame {
  f_mbr : Z; f_gpt : Z; f_entry : Z; f_empty_guid : Z; BL_GPT_SIGNATURE : Z;
}.

(** Is it a GPT device?  The index of the protective entry, or 4. *)
Definition find_protective (f : gpt_frame) : M Z :=
  mwhile (λ i,
    if i <? 4 then
      type ← rd8 (mbr_entry (f_mbr f) i + entry_partition_type);
      if type =? BL_MBR_PARTITION_TYPE_GPT_DISK then break i else continue (i + 1)
    else break i) 0.

(** One round of the loop over the entries. *)
Definition gpt_body (f : gpt_frame) (x : Z * Z * bl_storage_device) :
    M ((Z * Z * bl_storage_device) + (bl_status_t * bl_storage_device)) :=
  let '(i, entry_offset, disk) := x in
  count ← rd32 (f_gpt f + gpt_partitions_count);
  if i <? count then
    lba ← rd64 (f_gpt f + gpt_partitions_lba);
    entry_size ← rd32 (f_gpt f + gpt_partition_entry_size);
    let entry_offset' := u64 (entry_offset + entry_size) in
    status ← bl_storage_device_read disk (f_entry f)
      (u64 (lba + entry_offset / BL_STORAGE_SECTOR_SIZE))
      sizeof_gpt_partition_entry (entry_offset mod BL_STORAGE_SECTOR_SIZE);
    if failed status then break (status, disk)
    else
      wr_bytes (f_empty_guid f) (replicate (Z.to_nat sizeof_guid) 0);;
      c ← bl_memcmp (f_entry f + gpt_partition_type_guid) (f_empty_guid f) sizeof_guid;
      if negb (truth c) then continue (u32 (i + 1), entry_offset', disk)
      else
        o ← add_partition disk (rd64 (f_entry f + gpt_first_lba))
              (first ← rd64 (f_entry f + gpt_first_lba);
               last ← rd64 (f_entry f + gpt_last_lba);
               mret (u64 (last - first)));
        match o with
        | None => break (BL_STATUS_MEMORY_ALLOCATION_FAILED, disk)
        | Some disk => continue (u32 (i + 1), entry_offset', disk)
        end
  else break (BL_STATUS_SUCCESS, disk).

Definition bl_gpt_iterate (f : gpt_frame) : partition_table := λ disk,
  status ← bl_storage_device_read disk (f_mbr f) 0 sizeof_mbr 0;
  if failed status then mret (status, disk)
  else
    signature ← rd16 (f_mbr f + mbr_signature);
    if negb (signature =? BL_MBR_SIGNATURE) then mret (BL_STATUS_UNSUPPORTED, disk)
    else
      i ← find_protective f;
      if i =? 4 then mret (BL_STATUS_UNSUPPORTED, disk)
      else
        status ← bl_storage_device_read disk (f_gpt f) 1 sizeof_gpt_header 0;
        if failed status then mret (status, disk)
        else
          c ← bl_memcmp (f_gpt f + gpt_signature) (BL_GPT_SIGNATURE f) 8;
          if truth c then mret (BL_STATUS_UNSUPPORTED, disk)
          else mwhile (gpt_body f) (0, 0, disk).
