(* ===== verification/PartitionProofs.v ===== *)
(** * Proofs about the partition-table drivers *)
From S2P Require Import Prelude Memory Arith Status Strings StringsProofs Heap HeapProofs HeapClient Storage StorageProofs PartitionTables.

(** ** Partitions in memory: a list of heap objects *)
Fixpoint partition_list (s : machine) (bs : list block) (p : Z) (l : list (Z * Z)) : Prop :=
  match l with
  | [] => p = NULL
  | (lba, sectors) :: l =>
      p ≠ NULL ∧ owned bs p sizeof_partition ∧
      ld 8 (mem s) (p + part_lba) = lba ∧ ld 8 (mem s) (p + part_sectors) = sectors ∧
      partition_list s bs (ld 4 (mem s) (p + part_next)) l
  end.

Ltac part_lia := unfold part_lba, part_sectors, part_next, sizeof_partition in *; field_lia.

(** A region of the program that is not in the heap, nor where it may grow. *)
Definition off_heap (s : machine) (bs : list block) (g a n : Z) : Prop :=
  a ≠ 0 ∧ in_space a n ∧ ∀ x, a <= x < a + n → x < bl_heap s ∨ heap_end s bs + g <= x.

Lemma off_heap_stable s bs g a n : off_heap s bs g a n → stable_region s bs g a n.
Proof.
  intros (_ & Hsp & H). split; [done|]. intros x Hx. split; [unfold in_space in *; lia|].
  destruct (H x Hx); [by left|by right; left].
Qed.

Lemma off_heap_step s bs s' bs' g h W a n :
  heap_step s bs s' bs' g W → off_heap s bs (g + h) a n → off_heap s' bs' h a n.
Proof.
  intros Hs (? & ? & H). split_and!; [done|done|]. intros x Hx.
  rewrite (step_heap _ _ _ _ _ _ Hs). pose proof (step_end _ _ _ _ _ _ Hs).
  destruct (H x Hx); [by left|right; lia].
Qed.

Lemma off_heap_weaken s bs g h a n : h <= g → off_heap s bs g a n → off_heap s bs h a n.
Proof. intros Hg (? & ? & H). split_and!; [done|done|]. intros x Hx. destruct (H x Hx); lia. Qed.

Lemma off_heap_owned s bs g a n b x :
  heap_inv s bs → 0 <= g → off_heap s bs g a n → b ∈ bs → b_data b <= x < b_end b → ¬ within a n x.
Proof.
  intros Hinv Hg (_ & _ & H) Hb Hx Hw. destruct (heap_below _ _ _ Hinv Hb).
  destruct (H x Hw); field_lia.
Qed.

(** Words of client memory survive a step that does not write them. *)
Lemma ld_step n s bs s' bs' g W a :
  heap_step s bs s' bs' g W → stable_region s bs g a (Z.of_nat n) →
  (∀ x, within a (Z.of_nat n) x → ¬ W x) → ld n (mem s') a = ld n (mem s) a.
Proof.
  intros Hs [Hsp Hst] HW. unfold ld. f_equal. apply ld_bytes_ext. intros i Hi.
  apply (step_frame _ _ _ _ _ _ Hs); [apply Hst; lia|apply HW; unfold within; lia].
Qed.

Lemma owned_stable s bs g p n k j :
  heap_inv s bs → owned bs p n → 0 <= j → 0 <= k → j + k <= n → stable_region s bs g (p + j) k.
Proof.
  intros Hinv (b & Hb & Hu & <- & Hn) Hj Hk Hjk.
  destruct (laid_out_in _ b (heap_inv_laid_out _ _ Hinv) Hb) as (? & ? & ? & ?).
  split; [unfold in_space; field_lia|]. intros x Hx. apply (payload_stable s bs g b); [done..|field_lia].
Qed.

(** The steps of the program that keep the partitions (and every other object
    in a used block). *)
Definition keeps_used (bs : list block) (W : Z → Prop) : Prop :=
  ∀ b x, b ∈ bs → b_used b = true → b_data b <= x < b_end b → ¬ W x.

Lemma partition_list_step s bs s' bs' g W p l :
  heap_step s bs s' bs' g W → heap_inv s bs → keeps_used bs W →
  partition_list s bs p l → partition_list s' bs' p l.
Proof.
  intros Hs Hinv HW. revert p. induction l as [|[lba sectors] l IH]; intros p; [done|].
  intros (Hp & Ho & H1 & H2 & H3).
  assert (E : ∀ n j, 0 <= j → j + Z.of_nat n <= 20 → ld n (mem s') (p + j) = ld n (mem s) (p + j)).
  { intros n j ??. eapply ld_step; [exact Hs|eapply owned_stable; [done|exact Ho|lia..|part_lia]|].
    intros x Hx. destruct Ho as (b & Hb & Hu & <- & Hn). apply (HW b x Hb Hu).
    unfold within in Hx. part_lia. }
  split; [done|]. split.
  { destruct Ho as (b & Hb & Hu & ?). exists b. split; [|done]. by apply (step_used _ _ _ _ _ _ Hs). }
  rewrite !E by part_lia. split_and!; [done|done|by apply IH].
Qed.

Lemma keeps_used_none bs : keeps_used bs (λ _, False).
Proof. intros b x _ _ _ []. Qed.

Lemma partition_list_range s bs p l :
  heap_inv s bs → partition_list s bs p l → 0 <= p < 4294967296.
Proof.
  destruct l as [|[??] l]; intros Hinv; [intros ->; unfold NULL; lia|].
  intros (_ & (b & Hb & _ & <- & Hn) & _).
  destruct (laid_out_in _ b (heap_inv_laid_out _ _ Hinv) Hb) as (? & ? & ? & ?). part_lia.
Qed.

Lemma keeps_used_off s bs g a n : heap_inv s bs → 0 <= g → off_heap s bs g a n → keeps_used bs (within a n).
Proof. intros Hi Hg Ho b x Hb _ Hx. exact (off_heap_owned s bs g a n b x Hi Hg Ho Hb Hx). Qed.

(** Both word lists of a partition are written in one go. *)
Lemma st_partition m p lba sectors next :
  st 4 (st 8 (st 8 m (p + part_lba) lba) (p + part_sectors) sectors) (p + part_next) next =
  st_bytes m p (le_split 8 lba ++ le_split 8 sectors ++ le_split 4 next).
Proof.
  rewrite !st_bytes_app, !length_le_split. unfold st. by rewrite Z.add_0_r, <- Z.add_assoc.
Qed.

(** What [add_partition] does. *)
Lemma add_partition_run d s bs old (rlba rsectors : M Z) (flba fsectors : machine → Z) lba sectors g :
  heap_inv s bs → room s bs sizeof_partition 1 → partition_list s bs (disk_partitions d) old →
  (∀ s, rlba s = Some (flba s, s)) → (∀ s, rsectors s = Some (fsectors s, s)) →
  0 <= lba < 2 ^ 64 → 0 <= sectors < 2 ^ 64 → 0 <= g →
  (∀ s' bs' W, heap_step s bs s' bs' (cost sizeof_partition) W →
     (∀ x, stable s bs (cost sizeof_partition) x → ¬ W x) → flba s' = lba ∧ fsectors s' = sectors) →
  ∃ p s' bs', add_partition d rlba rsectors s = Some (Some (with_partitions p d), s') ∧
    heap_step s bs s' bs' (cost sizeof_partition) (λ _, False) ∧
    partition_list s' bs' p ((lba, sectors) :: old).
Proof.
  intros Hinv Hroom Hold Hrl Hrs Hlba Hsec Hg Hval.
  destruct (alloc_client s bs sizeof_partition Hinv)
    as (b & bs1 & s1 & Hal & Hstep & Hb & Hu & Hn & Hp0 & Hpsp & Hpm & Hout & Hin); [part_lia|done|].
  set (p := b_data b) in *.
  assert (Hw : ∀ l, Z.of_nat (length l) <= sizeof_partition →
    heap_step s bs (set_mem (st_bytes (mem s1) p l) s1) bs1 (cost sizeof_partition)
      (within p (Z.of_nat (length l)))).
  { intros l Hl. replace (cost sizeof_partition) with (cost sizeof_partition + 0) by lia.
    eapply heap_step_weaken; [reflexivity| |eapply heap_step_trans; [| |exact Hstep|apply write_client]].
    - by intros a _ [[]|Ha].
    - unfold cost. part_lia.
    - lia.
    - apply Hstep.
    - split; [unfold in_space; part_lia|]. intros x Hx. apply Hin; [lia|].
      unfold b_end, p in *. lia. }
  assert (Hns : ∀ x n, n <= sizeof_partition → stable s bs (cost sizeof_partition) x → ¬ within p n x).
  { intros x n Hn' Hx Hw'. specialize (Hout (cost sizeof_partition) x ltac:(lia) Hx).
    unfold outside, within, p in *. lia. }
  destruct (Hval s1 bs1 _ Hstep ltac:(tauto)) as [Hv1 _].
  pose proof (Hw (le_split 8 lba) ltac:(rewrite length_le_split; part_lia)) as Hw1.
  destruct (Hval _ _ _ Hw1) as [_ Hv2].
  { intros x. apply Hns. rewrite length_le_split. part_lia. }
  set (data := le_split 8 lba ++ le_split 8 sectors ++ le_split 4 (disk_partitions d)).
  assert (Hld : Z.of_nat (length data) = 20).
  { unfold data. by rewrite !length_app, !length_le_split. }
  set (s2 := set_mem (st_bytes (mem s1) p data) s1).
  pose proof (Hw data ltac:(rewrite Hld; part_lia)) as Hw2. fold s2 in Hw2. rewrite Hld in Hw2.
  exists p, s2, bs1. split; [|split].
  - unfold add_partition. run_with Hal. unfold is_null. fold p.
    destruct (Z.eqb_spec p 0) as [|_]; [lia|]. rewrite (bind_run _ _ _ _ _ (Hrl s1)), Hv1.
    set (s1' := set_mem (st_bytes (mem s1) p (le_split 8 lba)) s1) in *.
    assert (E1 : wr64 (p + part_lba) lba s1 = Some ((), s1')).
    { unfold wr64, modify, with_mem, st, s1', part_lba. by rewrite Z.add_0_r. }
    run_with E1. rewrite (bind_run _ _ _ _ _ (Hrs s1')), Hv2.
    trans (Some (Some (with_partitions p d), set_mem (st 4 (st 8 (mem s1') (p + part_sectors) sectors)
             (p + part_next) (disk_partitions d)) s1)); [done|].
    unfold s2, data. rewrite <- st_partition. unfold st at 5. by rewrite Z.add_0_r.
  - eapply heap_step_weaken; [reflexivity| |exact Hw2]. intros x Hx Hx'. by apply (Hns x 20) in Hx; [|part_lia].
  - assert (Em : mem s2 = st 4 (st 8 (st 8 (mem s1) (p + part_lba) lba) (p + part_sectors) sectors)
                        (p + part_next) (disk_partitions d)) by (by rewrite st_partition).
    split; [unfold NULL; lia|]. split; [by exists b|]. rewrite Em. split_and!.
    + rewrite !ld_st_other by part_lia. rewrite ld_st_same by part_lia. by apply Z.mod_small.
    + rewrite ld_st_other by part_lia. rewrite ld_st_same by part_lia. by apply Z.mod_small.
    + rewrite ld_st_same by part_lia. rewrite Z.mod_small.
      * eapply partition_list_step; [exact Hw2|done| |done]. intros c x Hc Hcu Hx. apply Hns; [part_lia|].
        by apply (payload_stable s bs _ c).
      * by eapply partition_list_range.
Qed.

(** ** Copies of the disk in memory *)
Definition img_le (n : nat) (image : Z → Z) (a : Z) : Z := le_combine (slice image a (Z.of_nat n)).

Definition copy_of (s : machine) (a : Z) (image : Z → Z) (off n : Z) : Prop :=
  ∀ k, 0 <= k < n → ld8 (mem s) (a + k) = u8 (image (off + k)).

Lemma copy_of_read s a image off n :
  0 <= n → ld_bytes (mem s) a (Z.to_nat n) = slice image off n → copy_of s a image off n.
Proof.
  intros Hn E k Hk. pose proof (lookup_slice image off n k Hk) as H. rewrite <- E in H.
  rewrite lookup_ld_bytes in H by lia. injection H as <-. do 2 f_equal. lia.
Qed.

Lemma copy_of_bytes s a image off n k j :
  copy_of s a image off n → 0 <= k → k + Z.of_nat j <= n →
  ld_bytes (mem s) (a + k) j = slice image (off + k) (Z.of_nat j).
Proof.
  intros Hc Hk Hn. apply list_eq. intros i. destruct (decide (i < j)%nat) as [Hi|Hi].
  - rewrite lookup_ld_bytes by done. replace i with (Z.to_nat (Z.of_nat i)) at 2 by lia.
    rewrite lookup_slice by lia. f_equal. rewrite <- !Z.add_assoc. apply Hc. lia.
  - rewrite !lookup_ge_None_2; [done|..]; rewrite ?length_ld_bytes; [|lia].
    pose proof (length_slice image (off + k) (Z.of_nat j)). lia.
Qed.

Lemma copy_of_ld s a image off n k j :
  copy_of s a image off n → 0 <= k → k + Z.of_nat j <= n → ld j (mem s) (a + k) = img_le j image (off + k).
Proof. intros. unfold ld, img_le. by erewrite copy_of_bytes. Qed.

Lemma copy_of_step s bs s' bs' g W a image off n :
  heap_step s bs s' bs' g W → stable_region s bs g a n → (∀ x, within a n x → ¬ W x) →
  copy_of s a image off n → copy_of s' a image off n.
Proof.
  intros Hs [_ Hst] HW Hc k Hk. rewrite <- (Hc k Hk).
  apply (step_frame _ _ _ _ _ _ Hs); [apply Hst; lia|apply HW; unfold within; lia].
Qed.

(** ** The master boot record, decoded from the disk *)
Definition mbr_partition (image : Z → Z) (i : Z) : option (Z * Z) :=
  if u8 (image (446 + 16 * i + entry_partition_type)) =? BL_MBR_PARTITION_TYPE_NONE then None
  else Some (img_le 4 image (446 + 16 * i + entry_start), img_le 4 image (446 + 16 * i + entry_length)).

Definition mbr_partitions (image : Z → Z) (n : Z) : list (Z * Z) := omap (mbr_partition image) (seqZ 0 n).

Lemma seqZ_snoc n : 0 <= n → seqZ 0 (n + 1) = seqZ 0 n ++ [n].
Proof. intros. rewrite seqZ_app by lia. by rewrite Z.add_0_l. Qed.

Lemma mbr_partitions_snoc image n :
  0 <= n → mbr_partitions image (n + 1) =
           mbr_partitions image n ++ match mbr_partition image n with Some x => [x] | None => [] end.
Proof. intros. unfold mbr_partitions. rewrite seqZ_snoc, omap_app by done. simpl. by case_match. Qed.

Lemma img_le_range n image a : 0 <= img_le n image a < 256 ^ Z.of_nat n.
Proof.
  unfold img_le. pose proof (le_combine_range (slice image a (Z.of_nat n))) as H.
  rewrite length_slice in H; lia.
Qed.

Ltac mbr_lia := unfold mbr_entry, mbr_signature, entry_partition_type, entry_start, entry_length,
  sizeof_mbr, cost in *; part_lia.

(** What the loops over a partition table keep: the heap, the disk's partitions,
    and that the disk differs from the original one in its partitions only. *)
Definition table_state (d : bl_storage_device) (old : list (Z * Z)) (g : Z) (s : machine)
    (bs : list block) (d' : bl_storage_device) (l : list (Z * Z)) : Prop :=
  heap_inv s bs ∧ d' = with_partitions (disk_partitions d') d ∧
  partition_list s bs (disk_partitions d') (rev l ++ old) ∧ heap_end s bs + g <= 4294967296.

Lemma table_add d old g s bs d' l rlba rsectors flba fsectors lba sectors :
  table_state d old (cost sizeof_partition + g) s bs d' l → 0 <= g →
  (∀ s, rlba s = Some (flba s, s)) → (∀ s, rsectors s = Some (fsectors s, s)) →
  0 <= lba < 2 ^ 64 → 0 <= sectors < 2 ^ 64 →
  (∀ s' bs' W, heap_step s bs s' bs' (cost sizeof_partition) W →
     (∀ x, stable s bs (cost sizeof_partition) x → ¬ W x) → flba s' = lba ∧ fsectors s' = sectors) →
  ∃ d'' s' bs', add_partition d' rlba rsectors s = Some (Some d'', s') ∧
    heap_step s bs s' bs' (cost sizeof_partition) (λ _, False) ∧
    table_state d old g s' bs' d'' (l ++ [(lba, sectors)]).
Proof.
  intros (Hinv & Hd & Hl & Hend) Hg H1 H2 H3 H4 H5.
  destruct (add_partition_run d' s bs (rev l ++ old) rlba rsectors flba fsectors lba sectors g)
    as (p & s' & bs' & Hrun & Hstep & Hl'); try done; [unfold room; mbr_lia|].
  exists (with_partitions p d'), s', bs'. split; [done|]. split; [done|].
  pose proof (step_end _ _ _ _ _ _ Hstep).
  split_and!; [apply Hstep|by rewrite Hd| |lia]. by rewrite rev_app_distr.
Qed.

(** The loop of [bl_mbr_iterate]. *)
Definition mbr_loop (image : Z → Z) (d : bl_storage_device) (old : list (Z * Z)) (mbr : Z)
    (x : Z * bl_storage_device) (s : machine) : Prop :=
  0 <= x.1 <= 4 ∧ ∃ bs, table_state d old ((4 - x.1) * cost sizeof_partition) s bs x.2
    (mbr_partitions image x.1) ∧
    off_heap s bs ((4 - x.1) * cost sizeof_partition) mbr sizeof_mbr ∧ copy_of s mbr image 0 sizeof_mbr.

Lemma mbr_loop_step image d old mbr i d' s :
  mbr_loop image d old mbr (i, d') s → i < 4 → ∀ d'' s' bs bs' l,
  table_state d old ((4 - i) * cost sizeof_partition) s bs d' (mbr_partitions image i) →
  off_heap s bs ((4 - i) * cost sizeof_partition) mbr sizeof_mbr → copy_of s mbr image 0 sizeof_mbr →
  heap_step s bs s' bs' (cost sizeof_partition) (λ _, False) →
  l = mbr_partitions image (i + 1) →
  table_state d old ((4 - (i + 1)) * cost sizeof_partition) s' bs' d'' l →
  mbr_loop image d old mbr (i + 1, d'') s'.
Proof.
  intros (Hi & _) Hlt d'' s' bs bs' l Ht Ho Hc Hs -> Ht'. simpl in *. split; [simpl; lia|].
  exists bs'. simpl. split; [done|]. split.
  - eapply off_heap_step; [exact Hs|].
    by replace (cost sizeof_partition + (4 - (i + 1)) * cost sizeof_partition)
      with ((4 - i) * cost sizeof_partition) by lia.
  - eapply copy_of_step; [exact Hs| |tauto|done]. apply off_heap_stable.
    eapply off_heap_weaken; [|exact Ho]. mbr_lia.
Qed.

Lemma mbr_reads s mbr image i :
  0 <= i < 4 → copy_of s mbr image 0 sizeof_mbr →
  ld8 (mem s) (mbr_entry mbr i + entry_partition_type) = u8 (image (446 + 16 * i + entry_partition_type)) ∧
  ld 4 (mem s) (mbr_entry mbr i + entry_start) = img_le 4 image (446 + 16 * i + entry_start) ∧
  ld 4 (mem s) (mbr_entry mbr i + entry_length) = img_le 4 image (446 + 16 * i + entry_length).
Proof.
  intros Hi Hc. split_and!.
  - replace (mbr_entry mbr i + entry_partition_type)
      with (mbr + (446 + 16 * i + entry_partition_type)) by mbr_lia.
    rewrite Hc by mbr_lia. done.
  - replace (mbr_entry mbr i + entry_start) with (mbr + (446 + 16 * i + entry_start)) by mbr_lia.
    rewrite (copy_of_ld _ _ _ _ _ _ _ Hc) by mbr_lia. done.
  - replace (mbr_entry mbr i + entry_length) with (mbr + (446 + 16 * i + entry_length)) by mbr_lia.
    rewrite (copy_of_ld _ _ _ _ _ _ _ Hc) by mbr_lia. done.
Qed.

(** One entry that is in use. *)
Lemma mbr_add image d old mbr i d' s :
  mbr_loop image d old mbr (i, d') s → i < 4 →
  u8 (image (446 + 16 * i + entry_partition_type)) ≠ BL_MBR_PARTITION_TYPE_NONE →
  ∃ d'' s', add_partition d' (rd32 (mbr_entry mbr i + entry_start)) (rd32 (mbr_entry mbr i + entry_length)) s =
    Some (Some d'', s') ∧ mbr_loop image d old mbr (i + 1, d'') s'.
Proof.
  intros Hl Hlt Hne. pose proof Hl as (Hi & bs & Ht & Ho & Hc). simpl in *.
  pose proof (mbr_partitions_snoc image i ltac:(lia)) as Hsnoc. unfold mbr_partition in Hsnoc.
  destruct (Z.eqb_spec (u8 (image (446 + 16 * i + entry_partition_type))) BL_MBR_PARTITION_TYPE_NONE) as [|_]; [done|].
  pose proof (img_le_range 4 image (446 + 16 * i + entry_start)).
  pose proof (img_le_range 4 image (446 + 16 * i + entry_length)).
  destruct (table_add d old ((4 - (i + 1)) * cost sizeof_partition) s bs d' (mbr_partitions image i)
    (rd32 (mbr_entry mbr i + entry_start)) (rd32 (mbr_entry mbr i + entry_length))
    (λ s, ld 4 (mem s) (mbr_entry mbr i + entry_start)) (λ s, ld 4 (mem s) (mbr_entry mbr i + entry_length))
    (img_le 4 image (446 + 16 * i + entry_start)) (img_le 4 image (446 + 16 * i + entry_length)))
    as (d'' & s'' & bs'' & Hadd & Hstep' & Ht''); [|mbr_lia|done|done|lia|lia| |].
  - replace (cost sizeof_partition + (4 - (i + 1)) * cost sizeof_partition)
      with ((4 - i) * cost sizeof_partition) by lia. done.
  - intros t bt W Hst HW. destruct (mbr_reads t mbr image i) as (_ & ? & ?); [lia| |done].
    apply off_heap_stable in Ho. eapply (stable_region_weaken _ _ _ (cost sizeof_partition)) in Ho; [|mbr_lia].
    eapply copy_of_step; [exact Hst|done| |exact Hc].
    intros x Hx. apply HW. by apply Ho.
  - exists d'', s''. split; [done|]. by eapply mbr_loop_step.
Qed.

(** The first read of both drivers. *)
Lemma mbr_read_run d image sectors s bs mbr old g :
  disk_reads d image sectors → 1 <= sectors → heap_inv s bs →
  partition_list s bs (disk_partitions d) old → 0 <= g →
  heap_end s bs + (cost 512 + g) <= 4294967296 → off_heap s bs (cost 512 + g) mbr sizeof_mbr →
  ∃ s' bs', bl_storage_device_read d mbr 0 sizeof_mbr 0 s = Some (BL_STATUS_SUCCESS, s') ∧
    heap_step s bs s' bs' (cost 512) (within mbr sizeof_mbr) ∧
    table_state d old g s' bs' d [] ∧ off_heap s' bs' g mbr sizeof_mbr ∧ copy_of s' mbr image 0 sizeof_mbr.
Proof.
  intros Hd Hsec Hinv Hold Hg Hend Ho. change (cost 512) with (cost (sector_round (0 + sizeof_mbr))) in *.
  assert (Hr : readable s bs sectors mbr 0 sizeof_mbr 0).
  { change sizeof_mbr with 512 in *.
    assert (E : sector_round (0 + 512) = 512) by reflexivity. rewrite E in *.
    split; rewrite ?E; try lia; [change (0 + 512 / 512) with 1; lia| |apply Ho|].
    - unfold room, cost in *. field_lia.
    - apply off_heap_stable. eapply off_heap_weaken; [|exact Ho]. lia. }
  destruct (storage_read_run d image sectors s bs mbr 0 sizeof_mbr 0 Hd Hinv Hr)
    as (s' & bs' & Hrun & Hstep & Hdata).
  exists s', bs'. split; [done|]. split; [done|]. pose proof (step_end _ _ _ _ _ _ Hstep).
  split; [split_and!|split].
  - apply Hstep.
  - by destruct d.
  - eapply partition_list_step; [exact Hstep|done| |done]. eapply keeps_used_off; [done| |exact Ho].
    unfold cost. change (sector_round (0 + sizeof_mbr)) with 512. field_lia.
  - lia.
  - by eapply off_heap_step.
  - by apply copy_of_read.
Qed.

Lemma mbr_iterate_run d image sectors s bs mbr old :
  disk_reads d image sectors → 1 <= sectors → heap_inv s bs →
  partition_list s bs (disk_partitions d) old →
  heap_end s bs + (cost 512 + 4 * cost sizeof_partition) <= 4294967296 →
  off_heap s bs (cost 512 + 4 * cost sizeof_partition) mbr sizeof_mbr →
  ∃ s' bs' st p, bl_mbr_iterate mbr d s = Some ((st, with_partitions p d), s') ∧ heap_inv s' bs' ∧
    if img_le 2 image mbr_signature =? BL_MBR_SIGNATURE
    then st = BL_STATUS_SUCCESS ∧ partition_list s' bs' p (rev (mbr_partitions image 4) ++ old)
    else st = BL_STATUS_UNSUPPORTED ∧ p = disk_partitions d ∧ partition_list s' bs' p old.
Proof.
  intros Hd Hsec Hinv Hold Hend Ho.
  destruct (mbr_read_run d image sectors s bs mbr old (4 * cost sizeof_partition)) as
    (s1 & bs1 & Hrun & Hstep & Ht & Ho1 & Hc); try done.
  unfold bl_mbr_iterate. run_with Hrun. change (failed BL_STATUS_SUCCESS) with false. cbv iota.
  unfold rd16. run_with (eq_refl : gets (λ s, ld 2 (mem s) (mbr + mbr_signature)) s1 = Some (_, s1)).
  rewrite (copy_of_ld _ _ _ _ _ _ _ Hc) by mbr_lia. rewrite Z.add_0_l.
  destruct (Z.eqb_spec (img_le 2 image mbr_signature) BL_MBR_SIGNATURE) as [Hsig|Hsig]; cbn [negb]; cycle 1.
  { exists s1, bs1, BL_STATUS_UNSUPPORTED, (disk_partitions d). destruct Ht as (? & ? & ? & ?).
    split; [by destruct d|]. done. }
  match goal with |- context [mwhile ?body ?x s1] =>
    assert (Hw : wp (mwhile body x) (λ r s', ∃ bs', r.1 = BL_STATUS_SUCCESS ∧
      table_state d old 0 s' bs' r.2 (mbr_partitions image 4)) s1) end.
  { wp_loop (mbr_loop image d old mbr) (λ x _, 4 - x.1); [|split; [simpl; lia|by exists bs1]|simpl; lia].
    intros [i d'] s' Hl. pose proof Hl as (Hi & bs' & Ht' & Ho' & Hc'). simpl in *.
    destruct (Z.ltb_spec i 4) as [Hlt|Hge]; cycle 1.
    { wp_step. exists bs'. split; [done|]. replace i with 4 in * by lia. done. }
    destruct (mbr_reads s' mbr image i) as (E1 & E2 & E3); [lia|done|]. do 2 wp_step. rewrite E1.
    pose proof (mbr_partitions_snoc image i ltac:(lia)) as Hsnoc. unfold mbr_partition in Hsnoc.
    destruct (Z.eqb_spec (u8 (image (446 + 16 * i + entry_partition_type))) BL_MBR_PARTITION_TYPE_NONE).
    - wp_step. split; [|simpl; lia]. split; [simpl; lia|]. exists bs'. rewrite app_nil_r in Hsnoc. simpl. rewrite Hsnoc.
      destruct Ht' as (? & ? & ? & ?). assert (0 <= cost sizeof_partition) by mbr_lia.
      split; [split_and!; [done..|lia]|]. split; [|done]. eapply off_heap_weaken; [|exact Ho']. lia.
    - wp_step. destruct (mbr_add image d old mbr i d' s') as (d'' & s'' & Hadd & Hl'); [done|lia|done|].
      apply wp_run. eexists _, _. split; [exact Hadd|]. cbv beta iota. apply wp_ret.
      split; [done|simpl; lia]. }
  apply wp_run in Hw as ([st d'] & s' & Hrun' & bs' & Hst & Ht'). simpl in Hst, Ht'. subst st.
  destruct Ht' as (Hinv' & Hd' & Hl' & _). rewrite Hd' in Hrun'.
  exists s', bs', BL_STATUS_SUCCESS, (disk_partitions d'). done.
Qed.

(** ** Properties *)

(** C6: Reading from a disk whose driver keeps its contract copies exactly the
    [size] bytes at byte [512 * lba + offset] of the disk and succeeds.  The
    temporary sector buffer is given back: the blocks in use afterwards are
    exactly those in use before, and no other byte that a client of the heap can
    hold has changed. *)
Theorem storage_read_correct d image sectors s bs buf lba size offset :
  disk_reads d image sectors → heap_inv s bs → readable s bs sectors buf lba size offset →
  ∃ s' bs', bl_storage_device_read d buf lba size offset s = Some (BL_STATUS_SUCCESS, s') ∧
    heap_change s bs s' bs' [] [] (cost (sector_round (offset + size))) (within buf size) ∧
    ld_bytes (mem s') buf (Z.to_nat size) = slice image (512 * lba + offset) size.
Proof. apply storage_change_run. Qed.

Definition low_machine : machine := with_heap 0x100000 0 0 machine0.

Lemma low_off_heap g a n : 0 < a → 0 <= n → a + n <= 0x100000 → off_heap low_machine [] g a n.
Proof.
  intros. split; [lia|]. split; [unfold in_space; lia|]. intros x Hx. left.
  change (bl_heap low_machine) with 0x100000. lia.
Qed.

Lemma storage_read_correct_witness :
  let image := λ a, a / 512 in
  ∃ s' bs', bl_storage_device_read (ram_disk image) 0x8000 3 100 500 low_machine =
      Some (BL_STATUS_SUCCESS, s') ∧
    heap_change low_machine [] s' bs' [] [] (cost (sector_round (500 + 100))) (within 0x8000 100) ∧
    ld_bytes (mem s') 0x8000 (Z.to_nat 100) = slice image (512 * 3 + 500) 100.
Proof.
  intros image. apply (storage_read_correct (ram_disk image) image 1024).
  - apply ram_disk_reads.
  - by vm_compute.
  - split; try lia; [by vm_compute|by vm_compute|]. apply off_heap_stable, low_off_heap; lia.
Defined.

(** C17: [bl_mbr_iterate] takes exactly the disks that end in the MBR signature
    and prepends to their partitions the entries of the table whose type is not
    0, with their start and length; other disks are refused with
    BL_STATUS_UNSUPPORTED. *)
Theorem mbr_iterate_correct d image sectors s bs mbr old :
  disk_reads d image sectors → 1 <= sectors → heap_inv s bs →
  partition_list s bs (disk_partitions d) old →
  heap_end s bs + (cost 512 + 4 * cost sizeof_partition) <= 4294967296 →
  off_heap s bs (cost 512 + 4 * cost sizeof_partition) mbr sizeof_mbr →
  ∃ s' bs' st p, bl_mbr_iterate mbr d s = Some ((st, with_partitions p d), s') ∧ heap_inv s' bs' ∧
    if img_le 2 image mbr_signature =? BL_MBR_SIGNATURE
    then st = BL_STATUS_SUCCESS ∧ partition_list s' bs' p (rev (mbr_partitions image 4) ++ old)
    else st = BL_STATUS_UNSUPPORTED ∧ p = disk_partitions d ∧ partition_list s' bs' p old.
Proof. apply mbr_iterate_run. Qed.

Definition mbr_image : Z → Z :=
  ld8 (st_bytes (st_bytes ∅ (446 + 4) ([0x83; 0; 0; 0] ++ le_split 4 63 ++ le_split 4 1000)) 510 [0x55; 0xaa]).

Lemma mbr_iterate_correct_witness :
  mbr_partitions mbr_image 4 = [(63, 1000)] ∧
  ∃ s' bs' st p, bl_mbr_iterate 0x8000 (ram_disk mbr_image) low_machine =
      Some ((st, with_partitions p (ram_disk mbr_image)), s') ∧ heap_inv s' bs' ∧
    if img_le 2 mbr_image mbr_signature =? BL_MBR_SIGNATURE
    then st = BL_STATUS_SUCCESS ∧ partition_list s' bs' p (rev (mbr_partitions mbr_image 4) ++ [])
    else st = BL_STATUS_UNSUPPORTED ∧ p = disk_partitions (ram_disk mbr_image) ∧ partition_list s' bs' p [].
Proof.
  split; [by vm_compute|].
  apply (mbr_iterate_correct (ram_disk mbr_image) mbr_image 1024 low_machine [] 0x8000 []);
    [apply ram_disk_reads|lia|by vm_compute|done|by vm_compute|apply low_off_heap; by vm_compute].
Defined.

(** C39: [bl_storage_probe] never ends once it meets a disk that has no
    controller while no USB SCSI controller is registered: the loop continues
    without advancing. *)
Theorem storage_probe_diverges controllers tables before disk after s :
  bl_disk_controller_match_type BL_DISK_CONTROLLER_TYPE_USB_SCSI controllers = None →
  disk_controller disk = None →
  Forall (λ d, ∃ c, disk_controller d = Some c ∧ ctl_get_info c = None) before →
  bl_storage_probe controllers tables (before ++ disk :: after) s = None.
Proof.
  intros Hm Hd Hb. unfold bl_storage_probe.
  apply (mwhile_diverges _ (λ x _, ∃ l, x.2 = l ++ disk :: after ∧
    Forall (λ d, ∃ c, disk_controller d = Some c ∧ ctl_get_info c = None) l)); [|by exists before].
  intros [visited todo] t (l & Hl & Hall). simpl in Hl. subst todo.
  destruct l as [|d l]; simpl.
  - rewrite Hd, Hm. simpl. by exists [].
  - apply Forall_cons in Hall as ((c & Hc & Hi) & Hall). rewrite Hc, Hi. simpl.
    unfold mbind, ST_bind, mret, ST_ret. change (failed BL_STATUS_SUCCESS) with false. cbv iota beta.
    destruct (bl_partition_table_probe tables (with_controller c d) t) as [[[??]?]|]; [|done].
    simpl. by exists l.
Qed.

Lemma storage_probe_diverges_witness :
  bl_storage_probe [] [] ([ram_disk mbr_image] ++ Disk BL_STORAGE_TYPE_USB_DRIVE (DiskInfo 0 0) NULL None 0 :: [])
    machine0 = None.
Proof.
  apply storage_probe_diverges; [done|done|]. constructor; [|constructor]. eexists; split; reflexivity.
Defined.
