(* ===== verification/GptProofs.v ===== *)
(** * Proofs about the GUID partition table driver *)
From S2P Require Import Prelude Memory Arith Status Strings StringsProofs Heap HeapProofs HeapClient Storage StorageProofs PartitionTables PartitionProofs.

(** ** The table, decoded from the disk *)
Definition gpt_header (n : nat) (image : Z → Z) (field : Z) : Z := img_le n image (512 + field).
Definition gpt_lba (image : Z → Z) : Z := gpt_header 8 image gpt_partitions_lba.
Definition gpt_count (image : Z → Z) : Z := gpt_header 4 image gpt_partitions_count.
Definition gpt_entry_size (image : Z → Z) : Z := gpt_header 4 image gpt_partition_entry_size.

Definition gpt_base (image : Z → Z) (i : Z) : Z := 512 * gpt_lba image + i * gpt_entry_size image.

(** An entry whose type GUID is zero is unused.  The size of a partition is the
    difference of its last and first block, as the code has it. *)
Definition gpt_partition (image : Z → Z) (i : Z) : option (Z * Z) :=
  let base := gpt_base image i in
  if decide (slice image (base + gpt_partition_type_guid) 16 = replicate 16 0) then None
  else Some (img_le 8 image (base + gpt_first_lba),
             u64 (img_le 8 image (base + gpt_last_lba) - img_le 8 image (base + gpt_first_lba))).

Definition gpt_partitions (image : Z → Z) (n : Z) : list (Z * Z) := omap (gpt_partition image) (seqZ 0 n).

Lemma gpt_partitions_snoc image n :
  0 <= n → gpt_partitions image (n + 1) =
           gpt_partitions image n ++ match gpt_partition image n with Some x => [x] | None => [] end.
Proof. intros. unfold gpt_partitions. rewrite seqZ_snoc, omap_app by done. simpl. by case_match. Qed.

Definition efi_part : list Z := [69; 70; 73; 32; 80; 65; 82; 84].

(** The disks that the driver takes: the MBR signature, a protective partition,
    the header's signature. *)
Definition protective (image : Z → Z) (i : Z) : Prop :=
  u8 (image (446 + 16 * i + entry_partition_type)) = BL_MBR_PARTITION_TYPE_GPT_DISK.
#[export] Instance protective_dec image i : Decision (protective image i) := Z.eq_dec _ _.

Definition gpt_disk (image : Z → Z) : Prop :=
  img_le 2 image mbr_signature = BL_MBR_SIGNATURE ∧ Exists (protective image) [0; 1; 2; 3] ∧
  slice image 512 8 = efi_part.
#[export] Instance gpt_disk_dec image : Decision (gpt_disk image) := _.

(** ** The frame *)
Record frame_ok (s : machine) (bs : list block) (g : Z) (f : gpt_frame) : Prop := FrameOk {
  fr_mbr : off_heap s bs g (f_mbr f) sizeof_mbr;
  fr_gpt : off_heap s bs g (f_gpt f) sizeof_gpt_header;
  fr_entry : off_heap s bs g (f_entry f) sizeof_gpt_partition_entry;
  fr_guid : off_heap s bs g (f_empty_guid f) sizeof_guid;
  fr_gpt_entry : disjoint (f_gpt f) sizeof_gpt_header (f_entry f) sizeof_gpt_partition_entry;
  fr_gpt_guid : disjoint (f_gpt f) sizeof_gpt_header (f_empty_guid f) sizeof_guid;
  fr_entry_guid : disjoint (f_entry f) sizeof_gpt_partition_entry (f_empty_guid f) sizeof_guid;
}.

Ltac gpt_lia := unfold gpt_signature, gpt_partitions_lba, gpt_partitions_count,
  gpt_partition_entry_size, sizeof_gpt_header, sizeof_gpt_partition_entry, sizeof_guid,
  gpt_partition_type_guid, gpt_first_lba, gpt_last_lba in *; mbr_lia.

Lemma frame_step s bs s' bs' g h W f :
  heap_step s bs s' bs' g W → frame_ok s bs (g + h) f → frame_ok s' bs' h f.
Proof. intros Hs []. split; try done; by eapply off_heap_step. Qed.

Lemma frame_weaken s bs g h f : h <= g → frame_ok s bs g f → frame_ok s bs h f.
Proof. intros ? []. split; try done; by eapply off_heap_weaken. Qed.

(** The most that one round of the loop takes from the heap. *)
Definition entry_cost : Z := cost 1024 + cost sizeof_partition.

(** What the loop keeps, with [g] bytes of the heap left for it. *)
Definition gpt_ok (image : Z → Z) (d : bl_storage_device) (old : list (Z * Z)) (f : gpt_frame)
    (g : Z) (s : machine) (bs : list block) (d' : bl_storage_device) (l : list (Z * Z)) : Prop :=
  table_state d old g s bs d' l ∧ frame_ok s bs g f ∧ copy_of s (f_gpt f) image 512 sizeof_gpt_header.

Definition scratch (f : gpt_frame) (x : Z) : Prop :=
  within (f_entry f) sizeof_gpt_partition_entry x ∨ within (f_empty_guid f) sizeof_guid x.

Lemma table_step d old g h s bs s' bs' W d' l :
  table_state d old (h + g) s bs d' l → heap_step s bs s' bs' h W → keeps_used bs W →
  table_state d old g s' bs' d' l.
Proof.
  intros (? & ? & ? & ?) Hs HW. pose proof (step_end _ _ _ _ _ _ Hs).
  split_and!; [apply Hs|done|by eapply partition_list_step|lia].
Qed.

Lemma gpt_ok_step image d old f g h s bs s' bs' W d' l :
  gpt_ok image d old f (h + g) s bs d' l → heap_step s bs s' bs' h W → 0 <= h → 0 <= g →
  (∀ x, W x → scratch f x) → gpt_ok image d old f g s' bs' d' l.
Proof.
  intros (Ht & Hf & Hc) Hs Hh Hg HW. split_and!.
  - eapply table_step; [done..|]. intros b x Hb Hu Hx Hwx. destruct Ht as (Hinv & _).
    destruct (HW x Hwx) as [Hin|Hin].
    + exact (off_heap_owned _ _ (h + g) _ _ _ _ Hinv ltac:(lia) (fr_entry _ _ _ _ Hf) Hb Hx Hin).
    + exact (off_heap_owned _ _ (h + g) _ _ _ _ Hinv ltac:(lia) (fr_guid _ _ _ _ Hf) Hb Hx Hin).
  - by eapply frame_step.
  - eapply copy_of_step; [exact Hs| | |done].
    + apply off_heap_stable. eapply off_heap_weaken; [|apply Hf]. lia.
    + intros x Hx Hwx. destruct Hf. unfold disjoint, within in *.
      destruct (HW x Hwx); unfold within in *; lia.
Qed.

Lemma gpt_header_reads image d old f g s bs d' l :
  gpt_ok image d old f g s bs d' l →
  ld 4 (mem s) (f_gpt f + gpt_partitions_count) = gpt_count image ∧
  ld 8 (mem s) (f_gpt f + gpt_partitions_lba) = gpt_lba image ∧
  ld 4 (mem s) (f_gpt f + gpt_partition_entry_size) = gpt_entry_size image.
Proof. intros (_ & _ & Hc). split_and!; apply (copy_of_ld _ _ _ _ _ _ _ Hc); gpt_lia. Qed.

(** Where an entry is read from. *)
Definition gpt_in_disk (image : Z → Z) (sectors : Z) : Prop :=
  sectors <= 2 ^ 64 ∧ gpt_count image * gpt_entry_size image < 2 ^ 64 ∧
  ∀ i, 0 <= i < gpt_count image → gpt_lba image + i * gpt_entry_size image / 512 + 2 <= sectors.

Lemma gpt_ranges image :
  0 <= gpt_lba image < 2 ^ 64 ∧ 0 <= gpt_count image < 2 ^ 32 ∧ 0 <= gpt_entry_size image < 2 ^ 32.
Proof.
  pose proof (img_le_range 8 image (512 + gpt_partitions_lba)).
  pose proof (img_le_range 4 image (512 + gpt_partitions_count)).
  pose proof (img_le_range 4 image (512 + gpt_partition_entry_size)).
  unfold gpt_lba, gpt_count, gpt_entry_size, gpt_header. lia.
Qed.

(** The read of one entry. *)
Lemma gpt_read_entry image sectors d old f g s bs d' l i :
  disk_reads d image sectors → gpt_in_disk image sectors → 0 <= i < gpt_count image → 0 <= g →
  gpt_ok image d old f (cost 1024 + g) s bs d' l →
  ∃ s' bs', bl_storage_device_read d' (f_entry f)
      (u64 (gpt_lba image + i * gpt_entry_size image / BL_STORAGE_SECTOR_SIZE))
      sizeof_gpt_partition_entry ((i * gpt_entry_size image) mod BL_STORAGE_SECTOR_SIZE) s =
      Some (BL_STATUS_SUCCESS, s') ∧
    gpt_ok image d old f g s' bs' d' l ∧
    copy_of s' (f_entry f) image (gpt_base image i) sizeof_gpt_partition_entry.
Proof.
  intros Hd (Hsec & Hsz & Hdisk) Hi Hg Hok. pose proof Hok as ((Hinv & Hd' & Hl & Hend) & Hf & _).
  pose proof (gpt_ranges image) as (? & ? & ?). specialize (Hdisk i Hi).
  change BL_STORAGE_SECTOR_SIZE with 512. set (off := i * gpt_entry_size image) in *.
  assert (Hoff : 0 <= off) by (unfold off; nia).
  pose proof (Z.mod_pos_bound off 512 ltac:(lia)). pose proof (Z.div_pos off 512 Hoff ltac:(lia)).
  rewrite u64_small by lia.
  destruct (sector_round_spec (off mod 512 + 128)) as [Hr1 Hr2]; [lia|].
  assert (Hr : sector_round (off mod 512 + 128) <= 1024).
  { pose proof (Z.div_le_upper_bound (sector_round (off mod 512 + 128)) 512 2). 
    destruct (Z.le_gt_cases (sector_round (off mod 512 + 128) / 512) 2); lia. }
  assert (Hdr : disk_reads d' image sectors) by (by rewrite Hd').
  assert (Hrd : readable s bs sectors (f_entry f) (gpt_lba image + off / 512)
    sizeof_gpt_partition_entry (off mod 512)).
  { change sizeof_gpt_partition_entry with 128. split; try lia; [|apply Hf|].
    - unfold room, cost in *. field_lia.
    - apply off_heap_stable. eapply off_heap_weaken; [|apply Hf]. unfold cost. lia. }
  destruct (storage_read_run d' image sectors s bs _ _ _ _ Hdr Hinv Hrd) as (s' & bs' & Hrun & Hstep & Hdata).
  exists s', bs'. split; [done|]. split.
  - eapply gpt_ok_step; [|eapply heap_step_weaken; [|intros x _ Hx; exact Hx|exact Hstep]|..].
    + exact Hok.
    + unfold cost. change sizeof_gpt_partition_entry with 128. lia.
    + unfold cost, sizeof_head. lia.
    + lia.
    + intros x Hx. by left.
  - apply copy_of_read; [done|]. rewrite Hdata. f_equal. unfold gpt_base. fold off.
    pose proof (Z.div_mod off 512). lia.
Qed.

(** The comparison with the empty GUID. *)
Lemma gpt_clear_guid image d old f g s bs d' l base :
  gpt_ok image d old f g s bs d' l → 0 <= g →
  copy_of s (f_entry f) image base sizeof_gpt_partition_entry →
  ∃ s', wr_bytes (f_empty_guid f) (replicate (Z.to_nat sizeof_guid) 0) s = Some ((), s') ∧
    gpt_ok image d old f g s' bs d' l ∧ copy_of s' (f_entry f) image base sizeof_gpt_partition_entry ∧
    bl_memcmp (f_entry f + gpt_partition_type_guid) (f_empty_guid f) sizeof_guid s' =
    Some (bytes_diff (slice image (base + gpt_partition_type_guid) 16) (replicate 16 0), s').
Proof.
  intros Hok Hg Hc. pose proof Hok as ((Hinv & _) & Hf & _).
  set (zs := replicate (Z.to_nat sizeof_guid) 0).
  assert (Hlen : Z.of_nat (length zs) = sizeof_guid) by done.
  pose proof (off_heap_stable _ _ _ _ _ (fr_guid _ _ _ _ Hf)) as Hst.
  assert (Hstep : heap_step s bs (set_mem (st_bytes (mem s) (f_empty_guid f) zs) s) bs 0
                    (within (f_empty_guid f) sizeof_guid)).
  { rewrite <- Hlen. apply write_client; [done|]. rewrite Hlen.
    eapply stable_region_weaken; [|exact Hst]. done. }
  eexists. split; [done|].
  assert (Hc' : copy_of (set_mem (st_bytes (mem s) (f_empty_guid f) zs) s) (f_entry f) image base
                  sizeof_gpt_partition_entry).
  { eapply copy_of_step; [exact Hstep| | |exact Hc].
    - apply off_heap_stable. eapply off_heap_weaken; [|apply (fr_entry _ _ _ _ Hf)]. done.
    - intros x Hx Hw. pose proof (fr_entry_guid _ _ _ _ Hf). unfold disjoint, within in *. lia. }
  split; [|split; [done|]].
  - apply (gpt_ok_step image d old f g 0 s bs _ _ _ _ _ Hok Hstep); [done|done|]. intros x Hx. by right.
  - rewrite bl_memcmp_run by done. do 3 f_equal.
    + exact (copy_of_bytes _ _ _ _ _ gpt_partition_type_guid 16 Hc' ltac:(done) ltac:(done)).
    + change (replicate 16 0) with zs. change (Z.to_nat sizeof_guid) with (length zs).
      apply ld_bytes_st_bytes_in; [apply Hst|]. unfold zs, bytes. by repeat constructor.
Qed.

(** An entry in use becomes a partition. *)
Lemma gpt_add image d old f g s bs d' l i x :
  gpt_ok image d old f (cost sizeof_partition + g) s bs d' l → 0 <= g →
  copy_of s (f_entry f) image (gpt_base image i) sizeof_gpt_partition_entry →
  gpt_partition image i = Some x →
  ∃ d'' s' bs', add_partition d' (rd64 (f_entry f + gpt_first_lba))
      (first ← rd64 (f_entry f + gpt_first_lba); last ← rd64 (f_entry f + gpt_last_lba);
       mret (u64 (last - first))) s = Some (Some d'', s') ∧
    gpt_ok image d old f g s' bs' d'' (l ++ [x]).
Proof.
  intros (Ht & Hf & Hc) Hg He Hx. unfold gpt_partition in Hx. case_decide; [done|]. injection Hx as <-.
  set (first := img_le 8 image (gpt_base image i + gpt_first_lba)).
  set (last := img_le 8 image (gpt_base image i + gpt_last_lba)).
  pose proof (img_le_range 8 image (gpt_base image i + gpt_first_lba)).
  pose proof (u64_range (last - first)).
  destruct (table_add d old g s bs d' l (rd64 (f_entry f + gpt_first_lba))
    (first ← rd64 (f_entry f + gpt_first_lba); last ← rd64 (f_entry f + gpt_last_lba);
     mret (u64 (last - first)))
    (λ s, ld 8 (mem s) (f_entry f + gpt_first_lba))
    (λ s, u64 (ld 8 (mem s) (f_entry f + gpt_last_lba) - ld 8 (mem s) (f_entry f + gpt_first_lba)))
    first (u64 (last - first)))
    as (d'' & s'' & bs'' & Hadd & Hstep & Ht'); [done..|lia|lia| |].
  - intros t bt W Hst HW. assert (Hc' : copy_of t (f_entry f) image (gpt_base image i) sizeof_gpt_partition_entry).
    { pose proof (off_heap_stable _ _ _ _ _ (fr_entry _ _ _ _ Hf)) as Hs.
      eapply (stable_region_weaken _ _ _ (cost sizeof_partition)) in Hs; [|lia].
      eapply copy_of_step; [exact Hst|done| |exact He]. intros y Hy. apply HW. by apply Hs. }
    rewrite !(copy_of_ld _ _ _ _ _ _ _ Hc') by gpt_lia. done.
  - exists d'', s'', bs''. split; [done|]. split_and!; [done|by eapply frame_step|].
    eapply copy_of_step; [exact Hstep| |tauto|done].
    apply off_heap_stable. eapply off_heap_weaken; [|apply (fr_gpt _ _ _ _ Hf)]. lia.
Qed.

(** The loop over the entries. *)
Definition gpt_loop (image : Z → Z) (d : bl_storage_device) (old : list (Z * Z)) (f : gpt_frame)
    (x : Z * Z * bl_storage_device) (s : machine) : Prop :=
  let '(i, off, d') := x in
  0 <= i <= gpt_count image ∧ off = i * gpt_entry_size image ∧
  ∃ bs, gpt_ok image d old f ((gpt_count image - i) * entry_cost) s bs d' (gpt_partitions image i).

Lemma gpt_ok_weaken image d old f g h s bs d' l :
  h <= g → gpt_ok image d old f g s bs d' l → gpt_ok image d old f h s bs d' l.
Proof.
  intros ? ((? & ? & ? & ?) & ? & ?). split_and!; [|by eapply frame_weaken|done].
  split_and!; try done. lia.
Qed.

Lemma gpt_body_step image sectors d old f i off d' s :
  disk_reads d image sectors → gpt_in_disk image sectors → i < gpt_count image →
  gpt_loop image d old f (i, off, d') s →
  ∃ off' d'' s', gpt_body f (i, off, d') s = Some (inl (i + 1, off', d''), s') ∧
    gpt_loop image d old f (i + 1, off', d'') s'.
Proof.
  intros Hd Hin Hlt (Hi & -> & bs & Hok).
  pose proof (gpt_ranges image) as (_ & ? & ?). pose proof Hin as (_ & Hsz & _).
  set (g := (gpt_count image - (i + 1)) * entry_cost).
  assert (Hcost : 0 <= cost sizeof_partition) by mbr_lia.
  assert (Hg : 0 <= g) by (unfold g, entry_cost; assert (0 <= cost 1024) by mbr_lia; nia).
  replace ((gpt_count image - i) * entry_cost) with (cost 1024 + (cost sizeof_partition + g)) in Hok
    by (unfold g, entry_cost; lia).
  destruct (gpt_header_reads _ _ _ _ _ _ _ _ _ Hok) as (E1 & E2 & E3).
  destruct (gpt_read_entry image sectors d old f (cost sizeof_partition + g) s bs d'
    (gpt_partitions image i) i Hd Hin)
    as (s1 & bs1 & Hrun & Hok1 & Hc1); [lia|lia|done|].
  destruct (gpt_clear_guid image d old f _ s1 bs1 d' _ _ Hok1 ltac:(lia) Hc1)
    as (s2 & Hclr & Hok2 & Hc2 & Hcmp).
  unfold gpt_body. unfold rd32, rd64 at 1.
  run_with (eq_refl : gets (λ s, ld 4 (mem s) (f_gpt f + gpt_partitions_count)) s = Some (_, s)).
  rewrite E1. destruct (Z.ltb_spec i (gpt_count image)); [|lia].
  run_with (eq_refl : gets (λ s, ld 8 (mem s) (f_gpt f + gpt_partitions_lba)) s = Some (_, s)).
  run_with (eq_refl : gets (λ s, ld 4 (mem s) (f_gpt f + gpt_partition_entry_size)) s = Some (_, s)).
  rewrite E2, E3. run_with Hrun. change (failed BL_STATUS_SUCCESS) with false. cbv iota.
  run_with Hclr. run_with Hcmp. rewrite (u32_small (i + 1)) by lia.
  assert (Eo : u64 (i * gpt_entry_size image + gpt_entry_size image) = (i + 1) * gpt_entry_size image).
  { rewrite u64_small; [lia|]. nia. }
  rewrite Eo. clear Eo.
  pose proof (gpt_partitions_snoc image i ltac:(lia)) as Hsnoc.
  assert (Hz : bytes_diff (slice image (gpt_base image i + gpt_partition_type_guid) 16) (replicate 16 0) = 0 ↔
               slice image (gpt_base image i + gpt_partition_type_guid) 16 = replicate 16 0).
  { apply bytes_diff_zero. pose proof (length_slice image (gpt_base image i + gpt_partition_type_guid) 16).
    rewrite length_replicate. lia. }
  destruct (gpt_partition image i) as [x|] eqn:Hx.
  - rewrite truth_nz.
    2: { rewrite Hz. unfold gpt_partition in Hx. by case_decide. }
    destruct (gpt_add image d old f g s2 bs1 d' _ i x Hok2 Hg Hc2 Hx) as (d'' & s3 & bs3 & Hadd & Hok3).
    cbn [negb]. run_with Hadd. eexists _, d'', s3. split; [done|]. split; [lia|]. split; [done|].
    exists bs3. by rewrite Hsnoc.
  - assert (Ez : bytes_diff (slice image (gpt_base image i + gpt_partition_type_guid) 16) (replicate 16 0) = 0).
    { apply Hz. unfold gpt_partition in Hx. by case_decide. }
    rewrite Ez. eexists _, d', s2. split; [done|]. split; [lia|]. split; [done|].
    exists bs1. rewrite Hsnoc, app_nil_r. eapply gpt_ok_weaken; [|exact Hok2]. fold g. lia.
Qed.

Lemma gpt_loop_run image sectors d old f s bs :
  disk_reads d image sectors → gpt_in_disk image sectors →
  gpt_ok image d old f (gpt_count image * entry_cost) s bs d [] →
  ∃ d' s' bs', mwhile (gpt_body f) (0, 0, d) s = Some ((BL_STATUS_SUCCESS, d'), s') ∧
    table_state d old 0 s' bs' d' (gpt_partitions image (gpt_count image)).
Proof.
  intros Hd Hin Hok. pose proof (gpt_ranges image) as (_ & ? & ?).
  assert (Hw : wp (mwhile (gpt_body f) (0, 0, d)) (λ r s', ∃ bs', r.1 = BL_STATUS_SUCCESS ∧
    table_state d old 0 s' bs' r.2 (gpt_partitions image (gpt_count image))) s).
  { wp_loop (gpt_loop image d old f) (λ x _, gpt_count image - x.1.1); [| |simpl; lia].
    - intros [[i off] d'] t Hl. pose proof Hl as (Hi & Hoff & bs' & Hok').
      destruct (decide (i < gpt_count image)).
      + destruct (gpt_body_step image sectors d old f i off d' t) as (off' & d'' & t' & Hrun & Hl'); try done.
        apply wp_run. eexists _, _. split; [exact Hrun|]. split; [done|simpl; lia].
      + replace i with (gpt_count image) in * by lia.
        destruct (gpt_header_reads _ _ _ _ _ _ _ _ _ Hok') as (E1 & _ & _).
        unfold gpt_body. do 2 wp_step. rewrite E1, Z.ltb_irrefl. wp_step. exists bs'. split; [done|].
        destruct Hok' as (Ht & _). by rewrite Z.sub_diag in Ht.
    - split; [lia|]. split; [done|]. exists bs. by rewrite Z.sub_0_r. }
  apply wp_run in Hw as ([st d'] & s' & Hrun & bs' & Hst & Ht). simpl in *. subst st. by exists d', s', bs'.
Qed.

(** The search for a protective partition. *)
Lemma find_protective_run f image s :
  copy_of s (f_mbr f) image 0 sizeof_mbr →
  ∃ i, find_protective f s = Some (i, s) ∧ (i = 4 ↔ ¬ Exists (protective image) [0; 1; 2; 3]).
Proof.
  intros Hc. assert (Hw : wp (find_protective f) (λ i s', s' = s ∧
    (i = 4 ↔ ¬ Exists (protective image) [0; 1; 2; 3])) s); [|apply wp_run in Hw as (i & ? & ? & -> & ?); by exists i].
  unfold find_protective.
  wp_loop (λ i s', s' = s ∧ 0 <= i <= 4 ∧ ∀ j, 0 <= j < i → ¬ protective image j) (λ i _, 4 - i);
    [|split_and!; [done|lia|lia|lia]|lia].
  intros i s' (-> & Hi & Hno). destruct (Z.ltb_spec i 4).
  - do 2 wp_step. destruct (mbr_reads s (f_mbr f) image i) as (-> & _); [lia|done|].
    destruct (Z.eqb_spec (u8 (image (446 + 16 * i + entry_partition_type))) BL_MBR_PARTITION_TYPE_GPT_DISK) as [Hp|Hp];
      wp_step.
    + split; [done|]. split; [lia|]. intros []. apply Exists_exists. exists i. split; [|done].
      assert (i = 0 ∨ i = 1 ∨ i = 2 ∨ i = 3) as [->|[->|[->| ->]]] by lia; repeat constructor.
    + split; [|lia]. split_and!; [done|lia|lia|]. intros j Hj. destruct (decide (j = i)) as [->|]; [done|].
      apply Hno. lia.
  - wp_step. split; [done|]. split; [|lia]. intros ->. rewrite Exists_exists.
    intros (j & Hj & Hp). apply (Hno j); [|done].
    repeat (apply elem_of_cons in Hj as [->|Hj]; [lia|]). by apply not_elem_of_nil in Hj.
Qed.

(** The literal and its distance from the structures that are read. *)
Definition literal_ok (s : machine) (bs : list block) (g : Z) (f : gpt_frame) : Prop :=
  off_heap s bs g (BL_GPT_SIGNATURE f) 8 ∧ ld_bytes (mem s) (BL_GPT_SIGNATURE f) 8 = efi_part ∧
  disjoint (BL_GPT_SIGNATURE f) 8 (f_mbr f) sizeof_mbr ∧
  disjoint (BL_GPT_SIGNATURE f) 8 (f_gpt f) sizeof_gpt_header.

Lemma literal_step s bs s' bs' g h a n f :
  heap_step s bs s' bs' g (within a n) → 0 <= g → 0 <= h →
  disjoint (BL_GPT_SIGNATURE f) 8 a n → literal_ok s bs (g + h) f → literal_ok s' bs' h f.
Proof.
  intros Hs Hg Hh Hd (Ho & He & ? & ?). split; [by eapply off_heap_step|]. split; [|done].
  rewrite <- He. apply ld_bytes_ext. intros i Hi. apply (step_frame _ _ _ _ _ _ Hs).
  - apply (off_heap_weaken _ _ _ g) in Ho; [|lia]. apply off_heap_stable in Ho as [_ Ho]. apply Ho. lia.
  - unfold within, disjoint in *. lia.
Qed.

(** The second read: the header. *)
Lemma gpt_read_header d image sectors s bs old f g :
  disk_reads d image sectors → 2 <= sectors → 0 <= g →
  table_state d old (cost 512 + g) s bs d [] → frame_ok s bs (cost 512 + g) f →
  literal_ok s bs (cost 512 + g) f →
  ∃ s' bs', bl_storage_device_read d (f_gpt f) 1 sizeof_gpt_header 0 s = Some (BL_STATUS_SUCCESS, s') ∧
    gpt_ok image d old f g s' bs' d [] ∧ literal_ok s' bs' g f.
Proof.
  intros Hd Hsec Hg Ht Hf Hlit. pose proof Ht as (Hinv & _ & _ & Hend).
  assert (E : sector_round (0 + sizeof_gpt_header) = 512) by reflexivity.
  assert (Hr : readable s bs sectors (f_gpt f) 1 sizeof_gpt_header 0).
  { split; rewrite ?E; [gpt_lia..|change (1 + 512 / 512) with 2; lia| |apply Hf|].
    - unfold room, cost in *. field_lia.
    - apply off_heap_stable. eapply off_heap_weaken; [|apply (fr_gpt _ _ _ _ Hf)]. lia. }
  destruct (storage_read_run d image sectors s bs _ 1 _ 0 Hd Hinv Hr) as (s' & bs' & Hrun & Hstep & Hdata).
  rewrite E in Hstep. assert (0 <= cost 512) by mbr_lia.
  exists s', bs'. split; [done|]. split; [split; [|split]|].
  - eapply table_step; [done..|]. eapply keeps_used_off; [done| |apply (fr_gpt _ _ _ _ Hf)]. lia.
  - by eapply frame_step.
  - by apply copy_of_read.
  - eapply literal_step; [exact Hstep|done|done| |done]. apply Hlit.
Qed.

Definition gpt_budget (image : Z → Z) : Z := cost 512 + (cost 512 + gpt_count image * entry_cost).

(** What the driver needs: the disk, the heap with the old partitions, and
    room on the stack and in the heap. *)
Record gpt_ready (d : bl_storage_device) (image : Z → Z) (sectors : Z) (s : machine)
    (bs : list block) (f : gpt_frame) (old : list (Z * Z)) : Prop := GptReady {
  gr_disk : disk_reads d image sectors;
  gr_sectors : 2 <= sectors;
  gr_in_disk : gpt_in_disk image sectors;
  gr_heap : heap_inv s bs;
  gr_old : partition_list s bs (disk_partitions d) old;
  gr_room : heap_end s bs + gpt_budget image <= 4294967296;
  gr_frame : frame_ok s bs (gpt_budget image) f;
  gr_literal : literal_ok s bs (gpt_budget image) f;
}.

Lemma gpt_iterate_run d image sectors s bs f old :
  gpt_ready d image sectors s bs f old →
  ∃ st p s' bs', bl_gpt_iterate f d s = Some ((st, with_partitions p d), s') ∧ heap_inv s' bs' ∧
    if decide (gpt_disk image)
    then st = BL_STATUS_SUCCESS ∧
         partition_list s' bs' p (rev (gpt_partitions image (gpt_count image)) ++ old)
    else st = BL_STATUS_UNSUPPORTED ∧ p = disk_partitions d ∧ partition_list s' bs' p old.
Proof.
  intros [Hd Hsec Hin Hinv Hold Hend Hf Hlit]. unfold gpt_budget in *.
  pose proof (gpt_ranges image) as (_ & ? & _). assert (Hc512 : 0 <= cost 512) by mbr_lia.
  set (B := gpt_count image * entry_cost) in *.
  assert (HB : 0 <= B) by (unfold B, entry_cost; assert (0 <= cost 1024 + cost sizeof_partition) by mbr_lia; nia).
  destruct (mbr_read_run d image sectors s bs (f_mbr f) old (cost 512 + B)) as
    (s1 & bs1 & Hrun & Hstep & Ht & _ & Hc); [done|lia|done|done|lia|lia|apply Hf|].
  assert (Hd0 : d = with_partitions (disk_partitions d) d) by (by destruct d).
  assert (Hno : ∀ t bt, table_state d old B t bt d [] ∨ table_state d old (cost 512 + B) t bt d [] →
    (mret (BL_STATUS_UNSUPPORTED, d) : M _) t = Some ((BL_STATUS_UNSUPPORTED, d), t) ∧ ¬ gpt_disk image →
    ∃ st p s' bs', Some ((BL_STATUS_UNSUPPORTED, d), t) = Some ((st, with_partitions p d), s') ∧ heap_inv s' bs' ∧
    if decide (gpt_disk image) then st = BL_STATUS_SUCCESS ∧
         partition_list s' bs' p (rev (gpt_partitions image (gpt_count image)) ++ old)
    else st = BL_STATUS_UNSUPPORTED ∧ p = disk_partitions d ∧ partition_list s' bs' p old).
  { intros t bt Ht' [_ Hnd]. exists BL_STATUS_UNSUPPORTED, (disk_partitions d), t, bt. rewrite <- Hd0.
    destruct (decide (gpt_disk image)); [done|]. by destruct Ht' as [(? & ? & ? & ?)|(? & ? & ? & ?)]. }
  unfold bl_gpt_iterate. run_with Hrun. change (failed BL_STATUS_SUCCESS) with false. cbv iota.
  unfold rd16. run_with (eq_refl : gets (λ s, ld 2 (mem s) (f_mbr f + mbr_signature)) s1 = Some (_, s1)).
  rewrite (copy_of_ld _ _ _ _ _ _ _ Hc) by mbr_lia. rewrite Z.add_0_l.
  destruct (Z.eqb_spec (img_le 2 image mbr_signature) BL_MBR_SIGNATURE) as [Hsig|Hsig]; cbn [negb]; cycle 1.
  { apply (Hno s1 bs1); [by right|]. split; [done|]. by intros (? & _). }
  destruct (find_protective_run f image s1 Hc) as (i & Hfind & Hi).
  run_with Hfind. destruct (Z.eqb_spec i 4) as [E4|E4].
  { apply (Hno s1 bs1); [by right|]. split; [done|]. intros (_ & ? & _). by apply Hi in E4. }
  destruct (gpt_read_header d image sectors s1 bs1 old f B) as (s2 & bs2 & Hrun2 & Hok & Hlit2); try done.
  { by eapply frame_step. }
  { eapply literal_step; [exact Hstep|lia|lia|apply Hlit|done]. }
  run_with Hrun2. change (failed BL_STATUS_SUCCESS) with false. cbv iota.
  assert (Hcmp : bl_memcmp (f_gpt f + gpt_signature) (BL_GPT_SIGNATURE f) 8 s2 =
                 Some (bytes_diff (slice image 512 8) efi_part, s2)).
  { rewrite bl_memcmp_run by lia. change (Z.to_nat 8) with 8%nat. destruct Hlit2 as (_ & -> & _). destruct Hok as (_ & _ & Hc2).
    do 3 f_equal. exact (copy_of_bytes _ _ _ _ _ 0 8 Hc2 ltac:(done) ltac:(done)). }
  run_with Hcmp. assert (Hz : bytes_diff (slice image 512 8) efi_part = 0 ↔ slice image 512 8 = efi_part).
  { by apply bytes_diff_zero. }
  destruct (decide (slice image 512 8 = efi_part)) as [Hefi|Hefi]; cycle 1.
  { rewrite truth_nz by tauto. apply (Hno s2 bs2); [left; apply Hok|]. split; [done|]. by intros (_ & _ & ?). }
  rewrite (proj2 Hz Hefi). change (truth 0) with false. cbv iota.
  destruct (gpt_loop_run image sectors d old f s2 bs2 Hd Hin Hok) as (d' & s3 & bs3 & Hloop & Ht3).
  rewrite Hloop. destruct Ht3 as (Hinv3 & Hd3 & Hl3 & _).
  exists BL_STATUS_SUCCESS, (disk_partitions d'), s3, bs3. rewrite <- Hd3. split; [done|]. split; [done|].
  destruct (decide (gpt_disk image)) as [|Hn]; [done|]. destruct Hn. split; [done|]. split; [|done].
  destruct (decide (Exists (protective image) [0; 1; 2; 3])); [done|]. by destruct E4; apply Hi.
Qed.

(** ** Properties *)

(** C5: [bl_gpt_iterate] decides exactly which disks carry a GUID partition
    table (MBR signature, protective partition, header signature) and, for
    those, prepends to the disk's partitions every used entry of the table, in
    order, at the address the header gives; other disks are refused with
    BL_STATUS_UNSUPPORTED and their partitions are left alone. *)
Theorem gpt_iterate_correct d image sectors s bs f old :
  gpt_ready d image sectors s bs f old →
  ∃ st p s' bs', bl_gpt_iterate f d s = Some ((st, with_partitions p d), s') ∧ heap_inv s' bs' ∧
    if decide (gpt_disk image)
    then st = BL_STATUS_SUCCESS ∧
         partition_list s' bs' p (rev (gpt_partitions image (gpt_count image)) ++ old)
    else st = BL_STATUS_UNSUPPORTED ∧ p = disk_partitions d ∧ partition_list s' bs' p old.
Proof. apply gpt_iterate_run. Qed.

(** A disk with a two-entry table, the first entry unused. *)
Definition gpt_image_list : list (Z * list Z) :=
  [(446 + 4, [0xee]); (510, [0x55; 0xaa]); (512, efi_part); (512 + 72, le_split 8 2);
   (512 + 80, le_split 4 2); (512 + 84, le_split 4 128);
   (1024 + 128, replicate 16 7); (1024 + 128 + 32, le_split 8 2048); (1024 + 128 + 40, le_split 8 4095)].
Definition gpt_image : Z → Z :=
  ld8 (foldr (λ '(a, l) m, st_bytes m a l) ∅ gpt_image_list).
Definition gpt_frame0 : gpt_frame := GptFrame 0x1000 0x2000 0x3000 0x4000 0x5000.
Definition gpt_machine : machine := with_heap 0x100000 0 0 (set_mem (st_bytes ∅ 0x5000 efi_part) machine0).

Lemma gpt_ready0 : gpt_ready (ram_disk gpt_image) gpt_image 1024 gpt_machine [] gpt_frame0 [].
Proof.
  assert (Eb : gpt_budget gpt_image = 3400) by (by vm_compute).
  assert (Ec : gpt_count gpt_image = 2) by (by vm_compute).
  assert (El : gpt_lba gpt_image = 2) by (by vm_compute).
  assert (Es : gpt_entry_size gpt_image = 128) by (by vm_compute).
  assert (Ho : ∀ a n, 0 < a → 0 <= n → a + n <= 0x100000 → off_heap gpt_machine [] 3400 a n).
  { intros. split; [lia|]. split; [unfold in_space; lia|]. intros x Hx. left.
    change (bl_heap gpt_machine) with 0x100000. lia. }
  split; rewrite ?Eb.
  - apply ram_disk_reads.
  - lia.
  - split; [lia|]. rewrite Ec, El, Es. split; [lia|]. intros i Hi. Z.div_mod_to_equations. lia.
  - repeat split; reflexivity.
  - done.
  - done.
  - split; [apply Ho; done..| | |]; left; done.
  - split; [apply Ho; done|]. split; [by vm_compute|]. split; right; done.
Qed.

Lemma gpt_iterate_correct_witness :
  gpt_disk gpt_image ∧ gpt_partitions gpt_image 2 = [(2048, 2047)] ∧
  ∃ st p s' bs', bl_gpt_iterate gpt_frame0 (ram_disk gpt_image) gpt_machine =
      Some ((st, with_partitions p (ram_disk gpt_image)), s') ∧ heap_inv s' bs' ∧
    if decide (gpt_disk gpt_image)
    then st = BL_STATUS_SUCCESS ∧
         partition_list s' bs' p (rev (gpt_partitions gpt_image (gpt_count gpt_image)) ++ [])
    else st = BL_STATUS_UNSUPPORTED ∧ p = disk_partitions (ram_disk gpt_image) ∧ partition_list s' bs' p [].
Proof.
  split; [split; [by vm_compute|]; split; [|by vm_compute]|split; [by vm_compute|]].
  - apply Exists_cons_hd. by vm_compute.
  - apply (gpt_iterate_correct (ram_disk gpt_image) gpt_image 1024 gpt_machine [] gpt_frame0 []), gpt_ready0.
Defined.
