(* ===== verification/Tokens.v ===== *)
(** * Strings on the heap and tokens: the end of core/utils/string.c

    [bl_strdup] and [bl_strndup] return heap blocks; [bl_strtok] keeps the rest
    of the string in the static [bl_strtok_str]. *)
From S2P Require Import Prelude Memory Arith Strings Heap.

(** ** Copies on the heap: a terminator is stored at [res + len], then [len]
    bytes are copied over the block. *)
Definition strdup_with (s len : Z) : M Z :=
  res ← bl_heap_alloc len;
  if is_null res then mret NULL
  else
    wr8 (res + len) 0;;
    bl_memcpy res s len.

Definition bl_strdup (s : Z) : M Z :=
  if is_null s then mret NULL
  else n ← bl_strlen s; strdup_with s (u32 (n + 1)).

Definition bl_strndup (s n : Z) : M Z :=
  if is_null s then mret NULL
  else
    k ← bl_strlen s;
    let len := u32 (k + 1) in
    strdup_with s (if n <? len then u32 (n + 1) else len).

(** ** Tokens *)
Definition bl_isdelim (c delim : Z) : M bool :=
  mwhile (λ i,
    d ← rds8 (delim + i);
    if truth d then
      if c =? d then break true else continue (i + 1)
    else break false) 0.

Definition bl_strtok (s delim : Z) : M Z :=
  (if is_null s then mret () else modify (with_strtok s));;
  if is_null delim then p ← gets bl_strtok_str; mret p
  else
    p ← gets bl_strtok_str;
    p ← mwhile (λ p,
          c ← rds8 p;
          d ← bl_isdelim c delim;
          if (d : bool) then continue (u32 (p + 1)) else break p) p;
    modify (with_strtok p);;
    c ← rds8 p;
    if negb (truth c) then mret NULL
    else
      e ← mwhile (λ e,
            c ← rds8 e;
            if truth c then
              d ← bl_isdelim c delim;
              if (d : bool) then break e else continue (u32 (e + 1))
            else break e) p;
      wr8 e 0;;
      modify (with_strtok (u32 (e + 1)));;
      mret p.
