(* ===== verification/TokensProofs.v ===== *)
(** * Proofs about the tokenizer and the duplicated strings *)
From S2P Require Import Prelude Memory Arith Strings StringsProofs Heap HeapProofs HeapClient Tokens.

(** ** Delimiters *)
Definition is_delim (dl : list Z) (c : Z) : bool := bool_decide (c ∈ dl).

Lemma is_delim_cons d dl c : is_delim (d :: dl) c = (c =? d) || is_delim dl c.
Proof.
  unfold is_delim. destruct (Z.eqb_spec c d) as [->|Hne]; [by rewrite bool_decide_true by left|].
  apply bool_decide_ext. rewrite elem_of_cons. split; [by intros [?|?]|by right].
Qed.

Lemma bl_isdelim_run s delim dl c :
  cstr (mem s) delim dl → 0 <= c < 256 → bl_isdelim (s8 c) delim s = Some (is_delim dl c, s).
Proof.
  intros Hd Hc. apply wp_exact. unfold bl_isdelim. pose proof Hd as (Hp & Hend & _).
  wp_loop (λ i t, t = s ∧ 0 <= i ∧ ∃ rest, cstr (mem s) (delim + i) rest ∧
      i + Z.of_nat (length rest) = Z.of_nat (length dl) ∧ is_delim dl c = is_delim rest c)
    (λ i _, Z.of_nat (length dl) - i); [|split; [done|]; split; [done|]; exists dl; rewrite Z.add_0_r; done|lia].
  intros i t (-> & Hi & rest & Hr & Hl & He). wp_step. wp_step. destruct rest as [|d rest].
  - rewrite (cstr_nil _ _ Hr). simpl. wp_step. by rewrite He.
  - apply cstr_cons in Hr as (-> & Hdr & Hr). rewrite truth_s8 by done. rewrite He, is_delim_cons.
    destruct (Z.eqb_spec (s8 c) (s8 d)) as [E|E]; wp_step.
    + apply s8_inj in E; [|lia|lia]. by rewrite E, Z.eqb_refl.
    + split; [|simpl in Hl; lia]. split; [done|]. split; [lia|]. exists rest. rewrite Z.add_assoc. split; [done|].
      split; [simpl in Hl; lia|]. destruct (Z.eqb_spec c d) as [->|]; [done|]. done.
Qed.

(** ** The two scans *)
Lemma cstr_app m p l1 l2 : cstr m p (l1 ++ l2) → cstr m (p + Z.of_nat (length l1)) l2.
Proof.
  revert p. induction l1 as [|c l1 IH]; intros p H; [by rewrite Z.add_0_r|].
  apply cstr_cons in H as (_ & _ & H). apply IH in H. cbn [length].
  replace (p + Z.of_nat (S (length l1))) with (p + 1 + Z.of_nat (length l1)) by lia. done.
Qed.

(** A string cut by a NUL. *)
Lemma cstr_cut m p l1 l2 :
  cstr m p (l1 ++ l2) → cstr (st8 m (p + Z.of_nat (length l1)) 0) p l1.
Proof.
  intros (Hp & Hend & Hc & Hl & _). rewrite length_app in Hend. apply Forall_app in Hc as [Hc _].
  split_and!; try done; [lia| |].
  - intros i c Hi. pose proof (lookup_lt_Some _ _ _ Hi). rewrite ld8_st8_ne by lia.
    apply Hl. by apply lookup_app_l_Some.
  - by rewrite ld8_st8_eq.
Qed.

Lemma cstr_above m p l a v : cstr m p l → 0 <= a < p → cstr (st8 m a v) p l.
Proof.
  intros H Ha. pose proof H as (_ & Hend & _). revert H. apply cstr_ext. intros i Hi.
  by rewrite ld8_st8_ne by lia.
Qed.

Lemma skip_delims_run s delim dl p pre l :
  cstr (mem s) delim dl → cstr (mem s) p (pre ++ l) → Forall (λ c, is_delim dl c = true) pre →
  match l with [] => True | c :: _ => is_delim dl c = false end → ¬ (0 ∈ dl) →
  mwhile (λ p, c ← rds8 p; d ← bl_isdelim c delim; if (d : bool) then continue (u32 (p + 1)) else break p : M _) p s =
  Some (p + Z.of_nat (length pre), s).
Proof.
  intros Hd Hs Hpre Hl H0. apply wp_exact. pose proof Hs as (Hp & Hend & _). rewrite length_app in Hend.
  wp_loop (λ q t, t = s ∧ p <= q ∧ ∃ rest, cstr (mem s) q (rest ++ l) ∧ Forall (λ c, is_delim dl c = true) rest ∧
      q + Z.of_nat (length rest) = p + Z.of_nat (length pre))
    (λ q _, p + Z.of_nat (length pre) - q); [|split; [done|]; split; [lia|]; by exists pre|lia].
  intros q t (-> & Hq & rest & Hr & Hrest & Hlen). wp_step. wp_step. wp_step. apply wp_run. eexists _, _.
  split; [by apply (bl_isdelim_run _ _ dl); [|apply ld8_range]|]. destruct rest as [|c rest].
  - assert (E : is_delim dl (ld8 (mem s) q) = false).
    { destruct l as [|c l]; simpl in Hr.
      - rewrite (cstr_nil _ _ Hr). by apply bool_decide_false.
      - by apply cstr_cons in Hr as (-> & _). }
    rewrite E. wp_step. split; [|done]. simpl in Hlen. lia.
  - apply Forall_cons in Hrest as [Hc Hrest]. simpl in Hr. apply cstr_cons in Hr as (-> & Hcr & Hr). rewrite Hc.
    wp_step. simpl in Hlen. rewrite u32_small by (destruct Hr as (? & ? & _); lia).
    split; [|lia]. split; [done|]. split; [lia|]. exists rest. split; [done|]. split; [done|lia].
Qed.

Lemma token_end_run s delim dl p tok rest :
  cstr (mem s) delim dl → cstr (mem s) p (tok ++ rest) → Forall (λ c, is_delim dl c = false) tok →
  match rest with [] => True | c :: _ => is_delim dl c = true end →
  mwhile (λ e, c ← rds8 e;
    if truth c then d ← bl_isdelim c delim; if (d : bool) then break e else continue (u32 (e + 1)) else break e : M _) p s =
  Some (p + Z.of_nat (length tok), s).
Proof.
  intros Hd Hs Htok Hrest. apply wp_exact. pose proof Hs as (Hp & Hend & _). rewrite length_app in Hend.
  wp_loop (λ q t, t = s ∧ p <= q ∧ ∃ l, cstr (mem s) q (l ++ rest) ∧ Forall (λ c, is_delim dl c = false) l ∧
      q + Z.of_nat (length l) = p + Z.of_nat (length tok))
    (λ q _, p + Z.of_nat (length tok) - q); [|split; [done|]; split; [lia|]; by exists tok|lia].
  intros q t (-> & Hq & l & Hr & Hl & Hlen). wp_step. wp_step. destruct l as [|c l]; simpl in Hr, Hlen.
  - destruct rest as [|c rest].
    + rewrite (cstr_nil _ _ Hr). simpl. wp_step. split; [lia|done].
    + apply cstr_cons in Hr as (-> & Hc & Hr). rewrite truth_s8 by done. wp_step. apply wp_run. eexists _, _.
      split; [by apply (bl_isdelim_run _ _ dl); [|lia]|]. rewrite Hrest. wp_step. split; [lia|done].
  - apply Forall_cons in Hl as [Hcl Hl]. apply cstr_cons in Hr as (-> & Hc & Hr). rewrite truth_s8 by done.
    wp_step. apply wp_run. eexists _, _. split; [by apply (bl_isdelim_run _ _ dl); [|lia]|]. rewrite Hcl. wp_step.
    rewrite u32_small by (destruct Hr as (? & ? & _); lia). split; [|lia]. split; [done|]. split; [lia|]. exists l.
    split; [done|]. split; [done|lia].
Qed.

(** A string that an allocation leaves alone. *)
Lemma cstr_step s bs s' bs' g p l :
  heap_step s bs s' bs' g (λ _, False) → stable_region s bs g p (Z.of_nat (length l) + 1) →
  cstr (mem s) p l → cstr (mem s') p l.
Proof.
  intros Hstep [_ Hreg]. apply cstr_ext. intros i Hi. symmetry.
  apply (step_frame _ _ _ _ _ _ Hstep); [apply Hreg; lia|by intros []].
Qed.

(** What [bl_strdup] does after the allocation: the terminator beyond the
    copy, then the copy over the block. *)
Definition copied (m : gmap Z Z) (r : Z) (l : list Z) : gmap Z Z :=
  st_bytes (st8 m (r + (Z.of_nat (length l) + 1)) 0) r (l ++ [0]).

Lemma copied_cstr m r l :
  0 < r → r + Z.of_nat (length l) < 4294967296 → Forall (λ c, 0 < c < 256) l → cstr (copied m r l) r l.
Proof. intros. by apply cstr_st_bytes. Qed.

Lemma copied_beyond m r l :
  0 < r → r + (Z.of_nat (length l) + 1) < 4294967296 → ld8 (copied m r l) (r + (Z.of_nat (length l) + 1)) = 0.
Proof.
  intros Hr Hend. unfold copied. rewrite ld8_st_bytes_out; [by rewrite ld8_st8_eq|..];
    unfold in_space, outside; rewrite ?length_app; simpl; lia.
Qed.

Lemma copied_other m r l a :
  0 < r → r + (Z.of_nat (length l) + 1) < 4294967296 → 0 <= a < 4294967296 →
  outside r (Z.of_nat (length l) + 2) a → ld8 (copied m r l) a = ld8 m a.
Proof.
  intros Hr Hend Ha Ho. unfold copied, outside in *. rewrite ld8_st_bytes_out.
  - apply ld8_st8_ne; lia.
  - unfold in_space. rewrite length_app. simpl. lia.
  - done.
  - unfold outside. rewrite length_app. simpl. lia.
Qed.

Lemma strdup_after_alloc s s1 p l r :
  cstr (mem s) p l → 0 < r → r + (Z.of_nat (length l) + 1) < 4294967296 → Z.of_nat (length l) + 1 < 4294967296 →
  bl_heap_alloc (Z.of_nat (length l) + 1) s = Some (r, s1) → cstr (mem s1) p l →
  outside p (Z.of_nat (length l) + 1) (r + (Z.of_nat (length l) + 1)) →
  bl_strdup p s = Some (r, set_mem (copied (mem s1) r l) s1).
Proof.
  intros Hs Hr Hend Hlen Halloc Hs1 Ho. unfold bl_strdup. rewrite (cstr_pos _ _ _ Hs).
  rewrite (bind_run _ _ _ _ _ (bl_strlen_run _ _ _ Hs)), u32_small by lia. unfold strdup_with.
  rewrite (bind_run _ _ _ _ _ Halloc). unfold is_null. destruct (Z.eqb_spec r 0) as [|_]; [lia|].
  set (n := Z.of_nat (length l) + 1) in *. pose proof Hs1 as (Hp & Hpe & _).
  unfold mbind at 1, ST_bind at 1, wr8, modify, with_mem.
  rewrite bl_memcpy_run; [|lia|lia|unfold in_space; lia|unfold in_space; lia|lia].
  do 2 f_equal. rewrite mem_set_mem, set_mem_set_mem. unfold copied. fold n. do 2 f_equal.
  replace (Z.to_nat n) with (S (length l)) by lia. apply cstr_ld_bytes.
  revert Hs1. apply cstr_ext. intros i Hi. symmetry. apply ld8_st8_ne; unfold outside in Ho; lia.
Qed.

(** One call of [bl_strtok], from the static pointer or with a string. *)
Definition continues (q p : Z) (s : machine) : Prop := q = p ∨ q = NULL ∧ bl_strtok_str s = p.

Definition token_taken (e : Z) (s : machine) : machine :=
  with_strtok (u32 (e + 1)) (set_mem (st8 (mem s) e 0) s).

Lemma strtok_run s p q delim dl pre tok rest :
  cstr (mem s) delim dl → cstr (mem s) p (pre ++ tok ++ rest) → continues q p s →
  Forall (λ c, is_delim dl c = true) pre → tok ≠ [] → Forall (λ c, is_delim dl c = false) tok →
  match rest with [] => True | c :: _ => is_delim dl c = true end →
  bl_strtok q delim s =
  Some (p + Z.of_nat (length pre), token_taken (p + Z.of_nat (length pre) + Z.of_nat (length tok)) s).
Proof.
  intros Hd Hs Hq Hpre Hne Htok Hrest. pose proof Hs as (Hp & Hend & _). rewrite !length_app in Hend.
  assert (H0 : ¬ (0 ∈ dl)).
  { intros H. destruct Hd as (_ & _ & Hc & _). rewrite Forall_forall in Hc. specialize (Hc _ H). lia. }
  pose proof (cstr_app _ _ _ _ Hs) as Hs'.
  set (s1 := with_strtok p s).
  assert (Hset : (if is_null q then mret () else modify (with_strtok q)) s = Some ((), s1)).
  { destruct Hq as [->|[-> Hst]].
    - by rewrite (cstr_pos _ _ _ Hs).
    - unfold is_null. simpl. unfold s1. rewrite <- Hst. by destruct s. }
  unfold bl_strtok. rewrite (bind_run _ _ _ _ _ Hset), (cstr_pos _ _ _ Hd).
  rewrite (bind_run _ _ p s1 s1) by done.
  rewrite (bind_run _ _ _ _ _ (skip_delims_run s1 delim dl p pre (tok ++ rest) Hd Hs Hpre
    ltac:(destruct tok as [|c tok]; [done|]; by apply Forall_cons in Htok as [? _]) H0)).
  set (t := p + Z.of_nat (length pre)) in *. set (s2 := with_strtok t s).
  rewrite (bind_run _ _ () s1 s2) by done.
  rewrite (bind_run _ _ (s8 (ld8 (mem s) t)) s2 s2) by done.
  assert (Hc : truth (s8 (ld8 (mem s) t)) = true).
  { destruct tok as [|c tok]; [done|]. simpl in Hs'. apply cstr_cons in Hs' as (-> & Hc & _). by apply truth_s8. }
  rewrite Hc. cbn [negb]. by rewrite (bind_run _ _ _ _ _ (token_end_run s2 delim dl t tok rest Hd Hs' Htok Hrest)).
Qed.

(** ** Properties *)

(** a call of [bl_strtok] on a string, given or continued, that starts with
    delimiters [pre] and the token [tok] returns the token as a string of its
    own: it skips [pre], overwrites only the byte behind the token with NUL and
    saves the position behind it, from which the rest of the string continues. *)
Theorem strtok_splits s p q delim dl pre tok rest :
  cstr (mem s) delim dl → cstr (mem s) p (pre ++ tok ++ rest) → continues q p s →
  Forall (λ c, is_delim dl c = true) pre → tok ≠ [] → Forall (λ c, is_delim dl c = false) tok →
  match rest with [] => True | c :: _ => is_delim dl c = true end →
  let e := p + Z.of_nat (length pre) + Z.of_nat (length tok) in
  ∃ s', bl_strtok q delim s = Some (p + Z.of_nat (length pre), s') ∧
    cstr (mem s') (p + Z.of_nat (length pre)) tok ∧ bl_strtok_str s' = u32 (e + 1) ∧
    (∀ a, 0 <= a < 4294967296 → a ≠ e → ld8 (mem s') a = ld8 (mem s) a) ∧
    match rest with [] => True | _ :: rest' => cstr (mem s') (bl_strtok_str s') rest' end.
Proof.
  intros Hd Hs Hq Hpre Hne Htok Hrest e. exists (token_taken e s). pose proof Hs as (Hp & Hend & _).
  rewrite !length_app in Hend. pose proof (cstr_app _ _ _ _ Hs) as Hs'.
  split; [by apply (strtok_run _ _ _ _ dl _ _ rest)|]. split; [by eapply cstr_cut|]. split; [done|]. split.
  - intros a Ha Hae. apply ld8_st8_ne; [lia|done|done].
  - destruct rest as [|c rest]; [done|]. simpl in Hend.
    change (bl_strtok_str (token_taken e s)) with (u32 (e + 1)). rewrite u32_small by lia.
    apply cstr_above; [|lia]. apply cstr_app in Hs'. fold e in Hs'. by apply cstr_cons in Hs' as (_ & _ & Hs').
Qed.

(** A path and its delimiter. *)
Definition example_path : machine :=
  set_mem (st_bytes (st_bytes ∅ 0x1000 [47; 98; 111; 111; 116; 47; 107; 0]) 0x2000 [47; 0]) machine0.

Lemma example_delim : cstr (mem example_path) 0x2000 [47].
Proof. apply (cstr_st_bytes _ 0x2000 [47]); [done|done|]. by constructor. Qed.

Lemma example_cstr : cstr (mem example_path) 0x1000 ([47] ++ [98; 111; 111; 116] ++ [47; 107]).
Proof.
  eapply cstr_ext; [|apply (cstr_st_bytes ∅ 0x1000 [47; 98; 111; 111; 116; 47; 107]); [done|done|]].
  - intros i Hi. cbn [mem example_path set_mem]. symmetry.
    apply ld8_st_bytes_out; unfold in_space, outside; simpl in *; lia.
  - repeat constructor; lia.
Qed.

Lemma strtok_splits_witness :
  let e := 0x1000 + Z.of_nat (length [47]) + Z.of_nat (length [98; 111; 111; 116]) in
  ∃ s', bl_strtok 0x1000 0x2000 example_path = Some (0x1000 + Z.of_nat (length [47]), s') ∧
    cstr (mem s') (0x1000 + Z.of_nat (length [47])) [98; 111; 111; 116] ∧ bl_strtok_str s' = u32 (e + 1) ∧
    (∀ a, 0 <= a < 4294967296 → a ≠ e → ld8 (mem s') a = ld8 (mem example_path) a) ∧
    cstr (mem s') (bl_strtok_str s') [107].
Proof.
  apply (strtok_splits example_path 0x1000 0x1000 0x2000 [47] [47] [98; 111; 111; 116] [47; 107]);
    [exact example_delim|exact example_cstr|by left|by repeat constructor|done|by repeat constructor|done].
Defined.

(** behind the last token [bl_strtok] saves a pointer past the end of the
    string: if another string lies there, the next call does not report the end
    but returns a token of that other string. *)
Theorem strtok_runs_past_end s p delim dl tok other :
  cstr (mem s) delim dl → cstr (mem s) p tok → cstr (mem s) (p + Z.of_nat (length tok) + 1) other →
  tok ≠ [] → other ≠ [] → Forall (λ c, is_delim dl c = false) (tok ++ other) →
  disjoint p (Z.of_nat (length tok) + 1) delim (Z.of_nat (length dl) + 1) →
  ∃ s1 s2, bl_strtok p delim s = Some (p, s1) ∧
    bl_strtok NULL delim s1 = Some (p + Z.of_nat (length tok) + 1, s2).
Proof.
  intros Hd Hs Ho Hne Hone Hall Hdis. apply Forall_app in Hall as [Htok Hother].
  pose proof Ho as (_ & Hoe & _). pose proof Hs as (Hp & _). set (e := p + Z.of_nat (length tok)) in *.
  exists (token_taken e s), (token_taken (e + 1 + Z.of_nat (length other)) (token_taken e s)). split.
  - rewrite (strtok_run s p p delim dl [] tok []); [simpl; by rewrite Z.add_0_r|done|simpl; by rewrite app_nil_r|
      by left|constructor|done|done|done].
  - rewrite (strtok_run _ (e + 1) NULL delim dl [] other []); [simpl; by rewrite !Z.add_0_r| | | |constructor|done|done|done].
    + pose proof Hd as (? & ? & _). revert Hd. apply cstr_ext. intros i Hi. symmetry. apply ld8_st8_ne; unfold disjoint in Hdis; lia.
    + simpl. rewrite app_nil_r. apply cstr_above; [done|lia].
    + right. split; [done|]. simpl. apply u32_small. lia.
Qed.

Lemma strtok_runs_past_end_witness :
  let s := set_mem (st_bytes (st_bytes (st_bytes ∅ 0x1000 [97; 98; 0]) 0x1003 [99; 0]) 0x2000 [47; 0]) machine0 in
  ∃ s1 s2, bl_strtok 0x1000 0x2000 s = Some (0x1000, s1) ∧
    bl_strtok NULL 0x2000 s1 = Some (0x1000 + Z.of_nat (length [97; 98]) + 1, s2).
Proof.
  intros s. apply (strtok_runs_past_end s 0x1000 0x2000 [47] [97; 98] [99]).
  - apply (cstr_st_bytes _ 0x2000 [47]); [done|done|by constructor].
  - eapply cstr_ext; [|apply (cstr_st_bytes ∅ 0x1000 [97; 98]); [done|done|by repeat constructor]].
    intros i Hi. unfold s. rewrite mem_set_mem. rewrite (ld8_st_bytes_out _ 0x2000), (ld8_st_bytes_out _ 0x1003);
      [done|..]; unfold in_space, outside; simpl in *; lia.
  - eapply cstr_ext; [|apply (cstr_st_bytes (st_bytes ∅ 0x1000 [97; 98; 0]) 0x1003 [99]); [done|done|by repeat constructor]].
    intros i Hi. unfold s. rewrite mem_set_mem. rewrite (ld8_st_bytes_out _ 0x2000); [done|..]; unfold in_space, outside; simpl in *; lia.
  - done.
  - done.
  - by repeat constructor.
  - unfold disjoint. simpl. lia.
Defined.

(** ** The words of a line: the reference *)
Fixpoint words_from (dl cur l : list Z) : list (list Z) :=
  match l with
  | [] => match cur with [] => [] | _ => [cur] end
  | c :: l =>
      if is_delim dl c then match cur with [] => words_from dl [] l | _ => cur :: words_from dl [] l end
      else words_from dl (cur ++ [c]) l
  end.
Definition words (dl l : list Z) : list (list Z) := words_from dl [] l.

Lemma words_skip dl pre l : Forall (λ c, is_delim dl c = true) pre → words dl (pre ++ l) = words dl l.
Proof. induction 1 as [|c pre Hc _ IH]; [done|]. unfold words in *. cbn. by rewrite Hc. Qed.
Lemma words_from_token dl cur tok l :
  Forall (λ c, is_delim dl c = false) tok → words_from dl cur (tok ++ l) = words_from dl (cur ++ tok) l.
Proof.
  intros H. revert cur. induction H as [|c tok Hc _ IH]; intros cur; [by rewrite app_nil_r|].
  cbn. rewrite Hc, IH. by rewrite <- app_assoc.
Qed.

(** What [bl_strtok] leaves of [rest], and the words of it. *)
Definition after (rest : list Z) : list Z := match rest with [] => [] | _ :: r => r end.
Lemma words_split dl pre tok rest :
  Forall (λ c, is_delim dl c = true) pre → tok ≠ [] → Forall (λ c, is_delim dl c = false) tok →
  match rest with [] => True | c :: _ => is_delim dl c = true end →
  words dl (pre ++ tok ++ rest) = tok :: words dl (after rest).
Proof.
  intros Hpre Hne Htok Hrest. rewrite words_skip by done. unfold words. rewrite words_from_token by done. cbn [app].
  destruct rest as [|c rest]; cbn; [by destruct tok|]. rewrite Hrest. by destruct tok.
Qed.

Lemma split_first dl l :
  (Forall (λ c, is_delim dl c = true) l) ∨
  ∃ pre tok rest, l = pre ++ tok ++ rest ∧ Forall (λ c, is_delim dl c = true) pre ∧ tok ≠ [] ∧
    Forall (λ c, is_delim dl c = false) tok ∧ match rest with [] => True | c :: _ => is_delim dl c = true end.
Proof.
  induction l as [|c l IH]; [left; constructor|]. destruct (is_delim dl c) eqn:Hc.
  - destruct IH as [H|(pre & tok & rest & -> & H1 & H2)]; [left; by constructor|right].
    exists (c :: pre), tok, rest. split; [done|]. split; [by constructor|done].
  - right. destruct IH as [H|(pre & tok & rest & -> & H1 & H2 & H3 & H4)].
    + exists [], [c], l. split; [done|]. split; [constructor|]. split; [done|]. split; [by repeat constructor|].
      destruct H; done.
    + destruct pre as [|d pre].
      * exists [], (c :: tok), rest. split; [done|]. split; [constructor|]. split; [done|]. split; [by constructor|done].
      * exists [], [c], ((d :: pre) ++ tok ++ rest). split; [done|]. split; [constructor|]. split; [done|].
        split; [by repeat constructor|]. by apply Forall_cons in H1 as [H1 _].
Qed.

Lemma only_delims dl l : Forall (λ c, is_delim dl c = true) l → words dl l = [].
Proof. intros H. rewrite <- (app_nil_r l), words_skip by done. done. Qed.

(** ** The tokenizer over a line that is followed by a second NUL, as
    [bl_strndup] leaves it: behind the last word it stands on that NUL. *)
Definition pending (q : Z) (rest : list Z) (m : gmap Z Z) : Prop :=
  cstr m q rest ∧ (rest ≠ [] → q + Z.of_nat (length rest) + 1 < 4294967296 ∧ ld8 m (q + Z.of_nat (length rest) + 1) = 0).
Definition inside (P L q : Z) (rest : list Z) : Prop :=
  P <= q ∧ (q + Z.of_nat (length rest) = P + L ∨ rest = [] ∧ q = P + L + 1).

Lemma strtok_no_word s a delim dl q rest :
  cstr (mem s) delim dl → cstr (mem s) q rest → continues a q s → Forall (λ c, is_delim dl c = true) rest →
  bl_strtok a delim s = Some (NULL, with_strtok (q + Z.of_nat (length rest)) s).
Proof.
  intros Hd Hs Ha Hrest. pose proof Hs as (Hq & Hend & _).
  assert (H0 : ¬ 0 ∈ dl).
  { destruct Hd as (_ & _ & Hd & _). rewrite Forall_forall in Hd. intros H. specialize (Hd _ H). lia. }
  set (s1 := with_strtok q s).
  assert (Hset : (if is_null a then mret () else modify (with_strtok a)) s = Some ((), s1)).
  { unfold s1. destruct Ha as [->|[-> Hstr]].
    - unfold is_null, NULL. destruct (Z.eqb_spec q 0); [lia|done].
    - cbn. rewrite <- Hstr. by destruct s. }
  unfold bl_strtok. run_with Hset. rewrite (cstr_pos _ _ _ Hd). rewrite (bind_run _ _ q _ s1) by done.
  assert (Hskip := skip_delims_run s1 delim dl q rest [] Hd). rewrite app_nil_r in Hskip.
  rewrite (bind_run _ _ _ _ _ (Hskip Hs Hrest I H0)).
  set (e := q + Z.of_nat (length rest)). rewrite (bind_run _ _ () _ (with_strtok e s1)) by done.
  rewrite (bind_run _ _ 0 _ (with_strtok e s1)); [done|]. unfold rds8, gets.
  change (mem (with_strtok e s1)) with (mem s). destruct Hs as (_ & _ & _ & _ & Hz). fold e in Hz. by rewrite Hz.
Qed.

Lemma strtok_word s a delim dl P L q rest w ws :
  cstr (mem s) delim dl → pending q rest (mem s) →
  inside P L q rest → continues a q s → words dl rest = w :: ws →
  ∃ t e q' rest', let s' := with_strtok q' (set_mem (st8 (mem s) e 0) s) in
    bl_strtok a delim s = Some (t, s') ∧ P <= e <= P + L ∧ P <= t ∧ t + Z.of_nat (length w) <= P + L ∧
    t + Z.of_nat (length w) < q' ∧
    cstr (mem s') t w ∧ pending q' rest' (mem s') ∧ inside P L q' rest' ∧ words dl rest' = ws.
Proof.
  intros Hd [Hs Hz] [HPq Hin] Ha Hw.
  destruct (split_first dl rest) as [H|(pre & tok & more & -> & Hpre & Hne & Htok & Hmore)]; [by rewrite only_delims in Hw|].
  rewrite words_split in Hw by done. injection Hw as -> <-.
  assert (Hrest : pre ++ w ++ more ≠ []) by (by destruct pre, w).
  destruct (Hz Hrest) as [Hz1 Hz2]. destruct Hin as [Hin|[? _]]; [|done]. pose proof Hs as (Hq & Hend & _).
  rewrite !length_app in Hz1, Hz2, Hin, Hend.
  set (t := q + Z.of_nat (length pre)). set (e := t + Z.of_nat (length w)).
  exists t, e, (e + 1), (after more).
  assert (Hst : token_taken e s = with_strtok (e + 1) (set_mem (st8 (mem s) e 0) s)).
  { unfold token_taken. by rewrite u32_small by lia. }
  cbv zeta. rewrite <- Hst.
  split; [by apply (strtok_run s q a delim dl pre w more)|]. split; [lia|]. split; [lia|]. split; [lia|]. split; [lia|].
  pose proof (cstr_app _ _ _ _ Hs) as Hs'. fold t in Hs'.
  split; [by eapply cstr_cut|]. change (mem (token_taken e s)) with (st8 (mem s) e 0).
  destruct more as [|c more]; cbn [after].
  - cbn [length] in *. split; [|split; [split; [lia|right; split; [done|lia]]|done]].
    split; [|done]. split_and!; [lia|cbn; lia|constructor|done|]. cbn [length]. rewrite Z.add_0_r, ld8_st8_ne by lia.
    rewrite <- Hz2. f_equal. lia.
  - cbn [length] in *. split; [|split; [split; [lia|left; lia]|done]]. split.
    + apply cstr_above; [|lia]. apply cstr_app in Hs'. fold e in Hs'. by apply cstr_cons in Hs' as (_ & _ & Hs').
    + intros _. split; [lia|]. rewrite ld8_st8_ne by lia. rewrite <- Hz2. f_equal. lia.
Qed.

(** ** Duplicated strings *)

(** The byte behind a copy in a fresh block belongs to no client. *)
Lemma stable_not_behind s bs s1 bs1 b n a :
  heap_step s bs s1 bs1 (cost n) (λ _, False) → b ∈ bs1 → 0 < n <= b_size b →
  (∀ g a, cost n <= g → stable s bs g a → outside (b_data b) (b_size b) a) →
  stable s bs (cost n + 1) a → a ≠ b_data b + n.
Proof.
  intros Hstep Hb Hn Hout Ha ->. pose proof (Hout (cost n + 1) _ ltac:(lia) Ha) as Ho.
  pose proof (heap_below _ _ _ (step_inv _ _ _ _ _ _ Hstep) Hb) as [Hlo Hhi].
  pose proof (step_end _ _ _ _ _ _ Hstep) as [_ He]. pose proof (step_heap _ _ _ _ _ _ Hstep) as Hh.
  pose proof (heap_inv_laid_out _ _ (step_inv _ _ _ _ _ _ Hstep)) as Hl.
  destruct (laid_out_in _ b Hl Hb) as (? & ? & ? & ?). unfold outside in Ho.
  destruct Ha as (Ha & [?|[?|(c & Hc & Hcu & ?)]]); [field_lia|field_lia|].
  pose proof (step_used _ _ _ _ _ _ Hstep c Hc Hcu) as Hc1.
  destruct (laid_out_in _ c Hl Hc1) as (? & ? & ? & ?).
  pose proof (slot_bounds b). pose proof (slot_bounds c).
  destruct (slots_apart _ c b Hl Hc1 Hb) as [->|[?|?]]; [|field_lia..].
  destruct (Hout (cost n) (b_data b)) as [?|?]; [lia| |lia|field_lia].
  split; [field_lia|]. right; right. exists b. split_and!; [done..|lia|field_lia].
Qed.

(** In a heap with room, [bl_strdup] returns a used block that holds a copy
    of the string; besides the block it stores a NUL at the byte behind the
    copy, which a block of exactly that size does not contain; every other byte
    that the allocator leaves alone keeps its value. *)
Lemma strdup_run s bs p l :
  heap_inv s bs → cstr (mem s) p l → let n := Z.of_nat (length l) + 1 in
  stable_region s bs (cost n + 1) p n → heap_end s bs + cost n < 4294967296 →
  ∃ (b : block) (s' : machine), bl_strdup p s = Some (b_data b, s') ∧ n <= b_size b ∧ b_data b + n < 4294967296 ∧
    cstr (mem s') (b_data b) l ∧ ld8 (mem s') (b_data b + n) = 0 ∧
    (∀ a, stable s bs (cost n + 1) a →
       outside (b_data b) (n + 1) a ∧ ld8 (mem s') a = ld8 (mem s) a).
Proof.
  intros Hinv Hs n Hreg Hroom. pose proof Hs as (Hp & Hend & Hc & _). unfold cost, sizeof_head in Hroom.
  destruct (alloc_client s bs n Hinv) as (b & bs1 & s1 & Hrun & Hstep & Hb & Hu & Hn & Hpos & Hfit & Hmod & Hout & _);
    [lia|unfold room, sizeof_head; lia|].
  assert (Hs1 : cstr (mem s1) p l).
  { eapply cstr_step; [exact Hstep| |done]. eapply stable_region_weaken; [|exact Hreg]. lia. }
  assert (Hbe : b_data b + n < 4294967296).
  { pose proof (step_end _ _ _ _ _ _ Hstep) as [_ He].
    pose proof (heap_below _ _ _ (step_inv _ _ _ _ _ _ Hstep) Hb) as [_ Hbe]. unfold b_end, cost, sizeof_head in *. lia. }
  assert (Hfar : ∀ a, stable s bs (cost n + 1) a → a ≠ b_data b + n) by (intros a; eapply stable_not_behind; [done|done|lia|done]).
  exists b, (set_mem (copied (mem s1) (b_data b) l) s1). split; [|split; [done|split; [done|split; [|split]]]].
  - apply (strdup_after_alloc s); try done; [lia|].
    destruct Hreg as [_ Hreg]. unfold outside.
    destruct (decide (p <= b_data b + n < p + n)) as [Hin|]; [|lia]. by destruct (Hfar _ (Hreg _ Hin)).
  - apply copied_cstr; [done|lia|done].
  - apply copied_beyond; [done|lia].
  - intros a Ha. pose proof (Hout (cost n + 1) a ltac:(lia) Ha) as Ho. pose proof (Hfar a Ha).
    split; [unfold outside in *; lia|].
    rewrite <- (step_frame _ _ _ _ _ _ Hstep a); [|eapply stable_weaken; [|exact Ha]; lia|by intros []].
    apply copied_other; [done|lia|by destruct Ha|]. unfold outside in *. lia.
Qed.

(** [bl_strndup] of a whole string. *)
Lemma strndup_whole p l s : cstr (mem s) p l → bl_strndup p (Z.of_nat (length l)) s = bl_strdup p s.
Proof.
  intros Hs. unfold bl_strndup, bl_strdup. rewrite (cstr_pos _ _ _ Hs).
  rewrite !(bind_run _ _ _ _ _ (bl_strlen_run _ _ _ Hs)). destruct Hs as (Hp & Hend & _).
  rewrite u32_small by lia. by destruct (Z.ltb_spec (Z.of_nat (length l)) (Z.of_nat (length l) + 1)); [|lia].
Qed.

(** When the copy does not end with its last 16 bytes, the NUL behind it is in
    the block's slot: the heap stays well-formed and the NUL lasts. *)
Lemma strdup_change s bs p l :
  heap_inv s bs → cstr (mem s) p l → let n := Z.of_nat (length l) + 1 in n mod 16 ≠ 0 →
  stable_region s bs (cost n + 1) p n → heap_end s bs + cost n < 4294967296 →
  ∃ b s' bs', bl_strdup p s = Some (b_data b, s') ∧ heap_change s bs s' bs' [] [b] (cost n + 1) (λ _, False) ∧
    0 < b_data b ∧ b_data b + n < slot_end b ∧ b_data b + n < 4294967296 ∧
    cstr (mem s') (b_data b) l ∧ ld8 (mem s') (b_data b + n) = 0.
Proof.
  intros Hinv Hs n Hmod Hreg Hroom. pose proof Hs as (Hp & Hend & Hc & _). unfold cost, sizeof_head in Hroom.
  destruct (alloc_change s bs n Hinv) as (b & bs1 & s1 & Hrun & Hch & Hn & Hpos & Hfit);
    [lia|unfold room, sizeof_head; lia|].
  assert (Hb : in_use bs1 b) by (apply (ch_used _ _ _ _ _ _ _ _ Hch); right; left).
  pose proof (ch_inv _ _ _ _ _ _ _ _ Hch) as Hinv1. pose proof (heap_inv_laid_out _ _ Hinv1) as Hl.
  destruct (laid_out_in _ b Hl (proj1 Hb)) as (? & Hb16 & ? & ?).
  assert (Hslot : b_data b + n < slot_end b).
  { unfold slot_end, round_up, b_end, b_data, sizeof_head in *. Z.div_mod_to_equations. lia. }
  assert (Hbe : b_data b + n <= heap_end s bs + cost n).
  { pose proof (ch_end _ _ _ _ _ _ _ _ Hch) as [_ He]. pose proof (heap_below _ _ _ Hinv1 (proj1 Hb)) as [_ Hbe].
    unfold b_end in *. lia. }
  assert (Hsp : b_data b + n < 4294967296) by (unfold cost, sizeof_head in Hbe; lia).
  assert (Hfar : ∀ x, stable s bs (cost n + 1) x → x < b_data b ∨ b_data b + n < x).
  { intros x (Hx & [Hlow|[?|(c & Hcb & Hcu & Hin)]]); [|lia|].
    - pose proof (heap_below _ _ _ Hinv1 (proj1 Hb)) as [Hlo _]. rewrite (ch_heap _ _ _ _ _ _ _ _ Hch) in Hlo.
      unfold b_data, sizeof_head. lia.
    - assert (Hc1 : in_use bs1 c) by (apply (ch_used _ _ _ _ _ _ _ _ Hch); left; split; [done|apply not_elem_of_nil]).
      assert (c ≠ b) as Hne by (intros ->; by destruct (ch_fresh _ _ _ _ _ _ _ _ Hch b ltac:(left))).
      destruct (in_use_apart s1 bs1 c b x Hinv1 Hc1 Hb Hne Hin) as [?|?]; lia. }
  assert (Hslots : ∀ a k, b_data b <= a → 0 <= k → a + k <= b_data b + n + 1 → stable_region s1 bs1 0 a k).
  { intros a k Ha Hk0 Hk. split; [unfold in_space; lia|]. intros x Hx. apply (slot_stable s1 bs1 0 b); [done|done|lia|lia]. }
  set (m1 := st8 (mem s1) (b_data b + n) 0).
  pose proof (step_inv _ _ _ _ _ _ (write_client s1 bs1 (b_data b + n) [0] Hinv1
    (Hslots (b_data b + n) 1 ltac:(lia) ltac:(lia) ltac:(lia)))) as Hinv2.
  change (st_bytes (mem s1) (b_data b + n) [0]) with m1 in Hinv2.
  assert (Hlen : Z.of_nat (length (l ++ [0])) = n) by (rewrite length_app; cbn; lia).
  pose proof (step_inv _ _ _ _ _ _ (write_client (set_mem m1 s1) bs1 (b_data b) (l ++ [0]) Hinv2
    (Hslots (b_data b) (Z.of_nat (length (l ++ [0]))) ltac:(lia) ltac:(lia) ltac:(lia)))) as Hinv3.
  rewrite mem_set_mem, set_mem_set_mem in Hinv3. change (st_bytes m1 (b_data b) (l ++ [0])) with (copied (mem s1) (b_data b) l) in Hinv3.
  assert (Hs1 : cstr (mem s1) p l).
  { revert Hs. apply cstr_ext. intros i Hi. symmetry. apply (ch_frame _ _ _ _ _ _ _ _ Hch); [|by intros ? ?%not_elem_of_nil|by intros []].
    eapply stable_weaken; [|apply Hreg; lia]. lia. }
  exists b, (set_mem (copied (mem s1) (b_data b) l) s1), bs1. split; [|split; [|split; [done|split; [done|split; [done|split]]]]].
  - apply (strdup_after_alloc s); try done; [lia|]. unfold outside.
    destruct (decide (p <= b_data b + n < p + n)) as [Hin|]; [|lia]. destruct Hreg as [_ Hreg]. specialize (Hfar _ (Hreg _ Hin)). lia.
  - destruct Hch as [_ C2 C3 C4 C5 C6 C7]. split; [exact Hinv3|done|change (heap_end (set_mem _ s1) bs1) with (heap_end s1 bs1); lia|done|done|done|].
    intros a Ha _ _. rewrite mem_set_mem, copied_other; [apply C7| | | |].
    + eapply stable_weaken; [|exact Ha]. lia.
    + by intros ? ?%not_elem_of_nil.
    + by intros [].
    + done.
    + lia.
    + by destruct Ha.
    + specialize (Hfar a Ha). unfold outside. lia.
  - apply copied_cstr; [done|lia|done].
  - apply copied_beyond; [done|lia].
Qed.

(** The heap block list after [bl_strdup] into a freed block that exactly fits. *)
Definition low_byte_cleared (v : Z) : Z := v / 256 * 256.

Lemma ld4_clear_low m a : in_space a 4 → ld 4 (st8 m a 0) a = low_byte_cleared (ld 4 m a).
Proof.
  intros Ha. unfold in_space in Ha. unfold ld, low_byte_cleared. cbn [ld_bytes le_combine].
  rewrite ld8_st8_eq, !ld8_st8_ne by lia. change (u8 (u8 0)) with 0.
  pose proof (u8_range (ld8 m a)).
  match goal with |- context [u8 (ld8 m a) + 256 * ?y] => set (x := y) end.
  replace (u8 (ld8 m a) + 256 * x) with (x * 256 + u8 (ld8 m a)) by lia. rewrite Z.div_add_l, Z.div_small by lia. lia.
Qed.

(** C40: when the block that [bl_strdup] reuses is exactly as large as the copy
    and another block follows it directly, the NUL behind the copy clears the low
    byte of the next pointer in that block's header: the heap's list no longer
    leads to the blocks behind it. *)
Theorem strdup_breaks_block_list s b c d bs p l :
  let n := Z.of_nat (length l) + 1 in
  heap_inv s (b :: c :: d :: bs) → b_used b = false → b_size b = n → b_end b = b_head c → b_head d mod 256 ≠ 0 →
  cstr (mem s) p l → stable_region s (b :: c :: d :: bs) (cost n + 1) p n →
  room s (b :: c :: d :: bs) n 1 →
  ∃ s', bl_strdup p s = Some (b_data b, s') ∧ ld 4 (mem s') (b_head c + head_next) ≠ b_head d.
Proof.
  intros n Hinv Hbu Hsize Hadj Hmod Hs Hreg Hroom. pose proof Hs as (Hp & Hend & Hc & _).
  destruct (alloc_align_run s (b :: c :: d :: bs) n 0 Hinv) as (r & bs1 & s1 & Hspec & Hrun & Hinv1 & Hfr & _);
    [done|lia|lia|exact Hroom|].
  assert (Hfits : fits n (2 ^ 0) b = true).
  { unfold fits. rewrite Hbu, Hsize, Z.leb_refl. change (2 ^ 0) with 1. by rewrite Z.mod_1_r. }
  unfold alloc_spec in Hspec. cbn [take_block] in Hspec. rewrite Hfits in Hspec. injection Hspec as <- <-.
  pose proof (heap_inv_laid_out _ _ Hinv1) as Hl. set (b' := Block (b_head b) (b_size b) true) in *.
  assert (Hmem : ∀ a, stable s (b :: c :: d :: bs) (cost n + 1) a → ld8 (mem s1) a = ld8 (mem s) a).
  { intros a Ha. apply Hfr; [by destruct Ha|].
    pose proof (stable_no_header _ _ (cost n + 1) a Hinv ltac:(unfold cost, sizeof_head; lia) Ha) as Hno.
    intros (x & Hx & Hin). apply Hno. apply elem_of_cons in Hx as [->|Hx]; [by exists b; split; [left|]|].
    exists x. split; [by right|done]. }
  assert (Hcb : b_end b' = b_head c) by done.
  destruct (laid_out_in _ b' Hl ltac:(by left)) as (? & ? & ? & ?).
  destruct (laid_out_in _ c Hl ltac:(right; by left)) as (? & ? & ? & ?).
  assert (Hs1 : cstr (mem s1) p l).
  { revert Hs. apply cstr_ext. intros i Hi. symmetry. apply Hmem. destruct Hreg as [_ Hreg]. apply Hreg. unfold n. lia. }
  assert (Hnext : ld 4 (mem s1) (b_head c + head_next) = b_head d).
  { destruct Hinv1 as (_ & _ & _ & (_ & _ & _ & (E & _))). exact E. }
  assert (Hbd : b_data b + n = b_head c) by (rewrite <- Hadj; unfold b_end; lia).
  exists (set_mem (copied (mem s1) (b_data b) l) s1). split.
  - apply (strdup_after_alloc s); try done; [unfold b'  in *; field_lia|unfold b' in *; field_lia|lia|].
    fold n. rewrite Hbd. unfold outside. destruct (decide (p <= b_head c < p + n)) as [Hin|]; [|lia].
    destruct Hreg as [_ Hreg]. specialize (Hreg _ Hin).
    destruct (stable_no_header _ _ (cost n + 1) _ Hinv ltac:(unfold cost, sizeof_head; lia) Hreg).
    exists c. split; [right; by left|]. field_lia.
  - rewrite mem_set_mem. unfold copied. fold n. rewrite Hbd. unfold head_next. rewrite Z.add_0_r.
    unfold ld. rewrite ld_bytes_st_bytes_out; [fold (ld 4 (st8 (mem s1) (b_head c) 0) (b_head c))|..].
    + rewrite ld4_clear_low by field_lia. unfold head_next in Hnext. rewrite Z.add_0_r in Hnext. rewrite Hnext.
      intros E. apply Hmod. rewrite <- E. apply Z.mod_mul. lia.
    + unfold in_space. rewrite length_app. simpl length. unfold b' in *. field_lia.
    + unfold in_space. field_lia.
    + unfold disjoint. rewrite length_app. simpl length. unfold b' in *. field_lia.
Qed.

(** Three blocks, the first of them freed again, and a string of 15 characters. *)
Definition example_blocks : list block :=
  [Block 0x100000 16 false; Block 0x100020 40 true; Block 0x100060 200 true].
Definition example_text : list Z := replicate 15 97.
Definition example_freed : machine :=
  set_mem (st_bytes (mem (final (bl_heap_alloc 16;; bl_heap_alloc 40;; bl_heap_alloc 200;; bl_heap_free 0x100010 16) heap_empty))
             0x1000 (example_text ++ [0]))
    (final (bl_heap_alloc 16;; bl_heap_alloc 40;; bl_heap_alloc 200;; bl_heap_free 0x100010 16) heap_empty).

Lemma strdup_breaks_block_list_witness :
  ∃ s', bl_strdup 0x1000 example_freed = Some (0x100010, s') ∧ ld 4 (mem s') (0x100020 + head_next) ≠ 0x100060.
Proof.
  apply (strdup_breaks_block_list example_freed (Block 0x100000 16 false) (Block 0x100020 40 true)
    (Block 0x100060 200 true) [] 0x1000 example_text).
  - by vm_compute.
  - done.
  - done.
  - done.
  - done.
  - apply cstr_st_bytes; [done|done|]. by repeat constructor.
  - split; [by vm_compute|]. intros x Hx. change (Z.of_nat (length example_text) + 1) with 16 in Hx.
    split; [lia|]. left. change (bl_heap example_freed) with 0x100000. lia.
  - by vm_compute.
Defined.
