(* ===== verification/Print.v ===== *)
(** * Output: core/video/print.c

    The output callback (the frame buffer's or the firmware's text console) is
    a device: what it is given is recorded in [console].  Characters printed
    from the two-byte local strings of the C code are emitted directly. *)
From Stdlib Require Import Ascii String.
From S2P Require Import Prelude Memory Arith Strings.
#[local] Open Scope Z_scope.

Definition bl_print_set_output_callback (callback : bool) : M () := modify (with_callback callback).

(** One character through the callback, if there is one. *)
Definition emit (c : Z) : M () :=
  modify (λ s, if bl_print_callback s then with_console (console s ++ [c]) s else s).

Definition bl_print_str (str : Z) : M () :=
  cb ← gets bl_print_callback;
  if cb : bool then
    mwhile (λ p,
      c ← rd8 p;
      if truth c then emit c;; continue (p + 1) else break ()) str
  else mret ().

(** [bl_print_str] on a string literal. *)
Fixpoint literal (s : string) : list Z :=
  match s with
  | EmptyString => []
  | String.String c s => Z.of_N (N_of_ascii c) :: literal s
  end.
Definition print_literal (s : string) : M () := foldr (λ c k, emit c;; k) (mret ()) (literal s).

(** [BL_PRINT_HEX] at [w] bits. *)
Definition hex_digit (digit : Z) : Z := if digit <? 10 then 48 + digit else 97 + digit - 10.

Definition print_hex (w number : Z) : M () :=
  if number =? 0 then emit 48
  else
    mwhile (λ '(bits, zero),
      if 0 <=? bits then
        let digit := Z.land (Z.shiftr number bits) 15 in
        if (digit =? 0) && negb zero then continue (bits - 4, zero)
        else
          let zero := if digit =? 0 then zero else true in
          emit (hex_digit digit);;
          continue (bits - 4, zero)
      else break ()) (w - 4, false).

Definition bl_print_hex (number : Z) : M () := print_hex 32 number.
Definition bl_print_hex64 (number : Z) : M () := print_hex 64 number.

(** The decimal printers reverse the digits in a variable of the same type. *)
Definition bl_print_decimal (number : Z) : M () :=
  reverse ← mwhile (λ '(number, reverse),
              if truth number then
                continue (number / 10, u32 (10 * reverse + number mod 10))
              else break reverse) (number, 0);
  mwhile (λ reverse,
    if truth reverse then
      emit (48 + reverse mod 10);;
      continue (reverse / 10)
    else break ()) reverse.

(** [q] and [r] are the addresses of the locals that [bl_divmod64] fills. *)
Definition bl_print_decimal64 (q r number : Z) : M () :=
  reverse ← mwhile (λ '(number, reverse),
              if truth number then
                bl_divmod64 number 10 q r;;
                vr ← rd64 r;
                vq ← rd64 q;
                continue (vq, u64 (10 * reverse + vr))
              else break reverse) (number, 0);
  mwhile (λ reverse,
    if truth reverse then
      bl_divmod64 reverse 10 q r;;
      vr ← rd64 r;
      emit (48 + vr);;
      vq ← rd64 q;
      continue vq
    else break ()) reverse.
