(* ===== verification/PrintProofs.v ===== *)
(** * Proofs about the number printers *)
From S2P Require Import Prelude Memory Arith Strings StringsProofs Heap HeapProofs HeapClient Print.

(** What the callback receives: with one installed, every character in order. *)
Definition emitted (l : list Z) (s : machine) : machine :=
  if bl_print_callback s then with_console (console s ++ l) s else s.

Lemma with_console_id s : with_console (console s) s = s.
Proof. by destruct s. Qed.

Lemma emitted_nil s : emitted [] s = s.
Proof. unfold emitted. rewrite app_nil_r, with_console_id. by case_match. Qed.

Lemma emitted_app l1 l2 s : emitted l2 (emitted l1 s) = emitted (l1 ++ l2) s.
Proof.
  unfold emitted. destruct (bl_print_callback s) eqn:E; [|by rewrite E].
  unfold with_console at 1. simpl. rewrite E. unfold with_console. simpl. by rewrite app_assoc.
Qed.

Lemma emit_run c s : emit c s = Some ((), emitted [c] s).
Proof. done. Qed.

Lemma wp_emit c (Q : () → machine → Prop) s : Q () (emitted [c] s) → wp (emit c) Q s.
Proof. done. Qed.

Lemma mem_emitted l s : mem (emitted l s) = mem s.
Proof. unfold emitted. by case_match. Qed.

(** ** Strings *)
Lemma print_literal_run l s : print_literal l s = Some ((), emitted (literal l) s).
Proof.
  unfold print_literal. generalize (literal l) as cs. intros cs. revert s. induction cs as [|c cs IH]; intros s.
  - by rewrite emitted_nil.
  - cbn [foldr]. rewrite (bind_run _ _ _ _ _ (emit_run c s)), IH, emitted_app. done.
Qed.

Lemma print_str_run p str s : cstr (mem s) p str → bl_print_str p s = Some ((), emitted str s).
Proof.
  intros Hs. apply wp_exact. unfold bl_print_str. wp_step. wp_step. destruct (bl_print_callback s) eqn:E; cycle 1.
  { wp_step. unfold emitted. by rewrite E. }
  wp_loop (λ q t, ∃ pre post, str = pre ++ post ∧ t = emitted pre s ∧ q = p + Z.of_nat (length pre) ∧ cstr (mem s) q post)
    (λ q _, p + Z.of_nat (length str) - q).
  - intros q t (pre & post & -> & -> & -> & Hq). wp_step. wp_step. rewrite mem_emitted. destruct post as [|c post].
    + rewrite (cstr_nil _ _ Hq). change (truth 0) with false; cbv iota. wp_step. split; [done|]. by rewrite app_nil_r.
    + destruct (cstr_cons _ _ _ _ Hq) as (-> & Hc & Hq'). rewrite truth_pos by lia. wp_step. apply wp_emit. wp_step.
      rewrite emitted_app. split; [|rewrite length_app; cbn [length]; lia]. exists (pre ++ [c]), post.
      split; [by rewrite <- app_assoc|]. split; [done|]. rewrite length_app. cbn [length]. split; [lia|].
      done.
  - exists [], str. rewrite emitted_nil. cbn [app length]. rewrite Z.add_0_r. done.
  - destruct Hs as (? & ? & _). lia.
Qed.

(** Printing is none of the heap's business. *)
Lemma change_emitted s bs s' bs' gone new g W l :
  heap_change s bs s' bs' gone new g W → heap_change s bs (emitted l s') bs' gone new g W.
Proof. intros [C1 C2 C3 C4 C5 C6 C7]. unfold emitted. by destruct (bl_print_callback s'). Qed.

(** ** Hexadecimal *)

(** The value of a digit and of a list of digits, most significant first. *)
Definition hex_value (c : Z) : Z := if c <? 97 then c - 48 else c - 97 + 10.
Definition hex_decode (l : list Z) : Z := foldl (λ n c, 16 * n + hex_value c) 0 l.

Lemma hex_decode_snoc l c : hex_decode (l ++ [c]) = 16 * hex_decode l + hex_value c.
Proof. unfold hex_decode. by rewrite foldl_app. Qed.

Lemma hex_value_digit d : 0 <= d < 16 → hex_value (hex_digit d) = d.
Proof.
  intros. unfold hex_value, hex_digit. destruct (Z.ltb_spec d 10).
  - destruct (Z.ltb_spec (48 + d) 97); lia.
  - destruct (Z.ltb_spec (97 + d - 10) 97); lia.
Qed.

Lemma hex_digit_nz d : 0 < d < 16 → hex_digit d ≠ 48.
Proof. intros. unfold hex_digit. destruct (Z.ltb_spec d 10); lia. Qed.

Lemma digit_at n bits : 0 <= n → 0 <= bits → Z.land (Z.shiftr n bits) 15 = (n / 2 ^ bits) mod 16.
Proof.
  intros. rewrite Z.shiftr_div_pow2 by lia. change 15 with (Z.ones 4). by rewrite Z.land_ones by lia.
Qed.

Lemma digit_step n bits : 0 <= n → 0 <= bits →
  n / 2 ^ bits = 16 * (n / 2 ^ (bits + 4)) + (n / 2 ^ bits) mod 16.
Proof.
  intros. rewrite Z.pow_add_r, <- Zdiv_Zdiv by (try apply Z.pow_nonneg; lia).
  change (2 ^ 4) with 16. pose proof (Z.div_mod (n / 2 ^ bits) 16). lia.
Qed.

(** The digits printed so far, before the digit at [bits] is looked at. *)
Definition hex_prefix (n bits : Z) (zero : bool) (l : list Z) : Prop :=
  hex_decode l = n / 2 ^ (bits + 4) ∧ zero = bool_decide (l ≠ []) ∧
  match l with [] => True | c :: _ => c ≠ 48 end.

Lemma hex_prefix_emit n bits zero l d :
  0 <= n → 0 <= bits → d = (n / 2 ^ bits) mod 16 → d ≠ 0 ∨ zero = true →
  hex_prefix n bits zero l →
  hex_prefix n (bits - 4) (if d =? 0 then zero else true) (l ++ [hex_digit d]).
Proof.
  intros Hn Hb Hd Hor (Hdec & Hz & Hnz). pose proof (digit_step n bits Hn Hb) as Hs.
  pose proof (Z.mod_pos_bound (n / 2 ^ bits) 16 ltac:(lia)) as Hr. rewrite <- Hd in *.
  assert (Hne : l ++ [hex_digit d] ≠ []) by (by destruct l).
  split; [|split].
  - rewrite hex_decode_snoc, hex_value_digit by lia. replace (bits - 4 + 4) with bits by lia. lia.
  - rewrite (bool_decide_true _ Hne). destruct (Z.eqb_spec d 0); [by destruct Hor|done].
  - destruct l as [|c l]; [|done]. apply hex_digit_nz. destruct Hor as [?|Ht]; [lia|].
    rewrite Ht in Hz. rewrite bool_decide_false in Hz; [done|]. intros H'. by apply H'.
Qed.

Lemma hex_prefix_skip n bits l :
  0 <= n → 0 <= bits → (n / 2 ^ bits) mod 16 = 0 → hex_prefix n bits false l → hex_prefix n (bits - 4) false l.
Proof.
  intros Hn Hb Hd (Hdec & Hz & Hnz). pose proof (digit_step n bits Hn Hb) as Hs.
  split; [|done]. replace (bits - 4 + 4) with bits by lia.
  assert (l = []) as -> by (destruct l; [done|]; by rewrite bool_decide_true in Hz).
  change (hex_decode []) with 0 in *. lia.
Qed.

Lemma print_hex_run w n s :
  w mod 4 = 0 → 0 < w <= 64 → 0 < n < 2 ^ w →
  ∃ l, print_hex w n s = Some ((), emitted l s) ∧ hex_decode l = n ∧
    match l with [] => False | c :: _ => c ≠ 48 end.
Proof.
  intros Hw4 Hw Hn. assert (Hwp : wp (print_hex w n) (λ _ t, ∃ l, t = emitted l s ∧ hex_prefix n (-4) true l) s).
  - unfold print_hex. destruct (Z.eqb_spec n 0); [lia|].
    wp_loop (λ '(bits, zero) t, bits mod 4 = 0 ∧ -4 <= bits <= w - 4 ∧
        ∃ l, t = emitted l s ∧ hex_prefix n bits zero l) (λ '(bits, _) _, bits + 4).
    + intros [bits zero] t (Hb4 & Hb & l & -> & Hp).
      assert (Hnext : (bits - 4) mod 4 = 0) by (Z.div_mod_to_equations; lia).
      destruct (Z.leb_spec 0 bits) as [Hb0|Hb0]; cycle 1.
      { wp_step. exists l. split; [done|]. replace bits with (-4) in * by (Z.div_mod_to_equations; lia).
        destruct Hp as (Hdec & Hz & Hnz). split; [done|]. split; [|done].
        destruct l; [|by rewrite bool_decide_true]. change (2 ^ (-4 + 4)) with 1 in Hdec.
        rewrite Z.div_1_r in Hdec. change (hex_decode []) with 0 in Hdec. lia. }
      cbv zeta. rewrite digit_at by lia.
      destruct (((n / 2 ^ bits) mod 16 =? 0) && negb zero) eqn:E.
      * apply andb_prop in E as [E%Z.eqb_eq Hz%negb_true_iff]. subst zero.
        wp_step. split; [|lia]. split; [done|]. split; [lia|]. exists l. split; [done|]. apply hex_prefix_skip; lia || done.
      * wp_step. apply wp_emit. wp_step. split; [|lia]. split; [done|]. split; [lia|].
        eexists. split; [by rewrite emitted_app|]. apply hex_prefix_emit; [lia|done|done| |done].
        apply andb_false_iff in E as [E%Z.eqb_neq|E%negb_false_iff]; [by left|by right].
    + split; [Z.div_mod_to_equations; lia|]. split; [lia|]. exists []. split; [by rewrite emitted_nil|].
      split; [|by split]. replace (w - 4 + 4) with w by lia. by rewrite Z.div_small by lia.
    + lia.
  - apply wp_run in Hwp as ([] & t & Hrun & l & -> & Hdec & Hz & Hnz). exists l. split; [exact Hrun|].
    change (2 ^ (-4 + 4)) with 1 in Hdec. rewrite Z.div_1_r in Hdec. split; [done|]. by destruct l.
Qed.

(** ** Decimal *)

(** The digits of a number, least significant first. *)
Fixpoint dec_digits (fuel : nat) (n : Z) : list Z :=
  match fuel with
  | O => []
  | S fuel => if n =? 0 then [] else n mod 10 :: dec_digits fuel (n / 10)
  end.

(** What [bl_print_decimal] computes before it prints. *)
Definition reversed (l : list Z) : Z := foldl (λ r d, u32 (10 * r + d)) 0 l.

Lemma reverse_loop fuel n r s :
  0 <= n < 10 ^ Z.of_nat fuel → n < 4294967296 →
  mwhile (λ '(number, reverse),
     if truth number then continue (number / 10, u32 (10 * reverse + number mod 10))
     else break reverse : M _) (n, r) s =
  Some (foldl (λ r d, u32 (10 * r + d)) r (dec_digits fuel n), s).
Proof.
  intros Hn Hf. apply wp_exact.
  wp_loop (λ '(m, q) t, t = s ∧ ∃ k, (k <= fuel)%nat ∧ 0 <= m < 10 ^ Z.of_nat k ∧ m <= n ∧
      foldl (λ r d, u32 (10 * r + d)) q (dec_digits k m) = foldl (λ r d, u32 (10 * r + d)) r (dec_digits fuel n))
    (λ '(m, _) _, m).
  - intros [m q] t (-> & k & Hk & Hm & Hmn & Hfold). destruct (Z.eqb_spec m 0) as [->|Hm0].
    + change (truth 0) with false. cbv iota. wp_step. split; [|done]. rewrite <- Hfold. by destruct k.
    + rewrite truth_nz by done. wp_step. pose proof (Z.div_lt m 10 ltac:(lia) ltac:(lia)).
      split; [|Z.div_mod_to_equations; lia]. split; [done|].
      destruct k as [|k]; [change (10 ^ Z.of_nat 0) with 1 in Hm; lia|].
      exists k. split; [lia|]. split; [|split; [lia|]].
      * rewrite Nat2Z.inj_succ, Z.pow_succ_r in Hm by lia. Z.div_mod_to_equations; lia.
      * rewrite <- Hfold. cbn [dec_digits]. destruct (Z.eqb_spec m 0); [done|]. done.
  - split; [done|]. by exists fuel.
  - lia.
Qed.

Lemma print_loop fuel r s :
  0 <= r < 10 ^ Z.of_nat fuel → r < 4294967296 →
  mwhile (λ reverse,
    if truth reverse then emit (48 + reverse mod 10);; continue (reverse / 10) else break () : M _) r s =
  Some ((), emitted (map (Z.add 48) (dec_digits fuel r)) s).
Proof.
  intros Hr Hlt. apply wp_exact.
  wp_loop (λ q t, ∃ k l, (k <= fuel)%nat ∧ 0 <= q < 10 ^ Z.of_nat k ∧ q <= r ∧
      t = emitted l s ∧ l ++ map (Z.add 48) (dec_digits k q) = map (Z.add 48) (dec_digits fuel r))
    (λ q _, q).
  - intros q t (k & l & Hk & Hq & Hqr & -> & Hl). destruct (Z.eqb_spec q 0) as [->|Hq0].
    + change (truth 0) with false. cbv iota. wp_step. split; [done|]. rewrite <- Hl.
      destruct k; simpl; by rewrite app_nil_r.
    + rewrite truth_nz by done. wp_step. apply wp_emit. wp_step.
      pose proof (Z.div_lt q 10 ltac:(lia) ltac:(lia)). split; [|Z.div_mod_to_equations; lia].
      destruct k as [|k]; [change (10 ^ Z.of_nat 0) with 1 in Hq; lia|].
      exists k, (l ++ [48 + q mod 10]). split; [lia|]. split; [|split; [lia|]].
      * rewrite Nat2Z.inj_succ, Z.pow_succ_r in Hq by lia. Z.div_mod_to_equations; lia.
      * split; [by rewrite emitted_app|]. rewrite <- Hl. cbn [dec_digits].
        destruct (Z.eqb_spec q 0); [done|]. rewrite <- app_assoc. done.
  - exists fuel, []. split; [lia|]. split; [done|]. split; [lia|]. split; [by rewrite emitted_nil|done].
  - lia.
Qed.

Lemma reversed_range l : 0 <= reversed l < 4294967296.
Proof.
  unfold reversed. induction l as [|d l IH] using rev_ind; [done|]. rewrite foldl_app. apply u32_range.
Qed.

Lemma print_decimal_run n s :
  0 <= n < 4294967296 →
  bl_print_decimal n s =
  Some ((), emitted (map (Z.add 48) (dec_digits 10 (reversed (dec_digits 10 n)))) s).
Proof.
  intros Hn. unfold bl_print_decimal. assert (H10 : 10 ^ Z.of_nat 10 = 10000000000) by done.
  rewrite (bind_run _ _ _ _ _ (reverse_loop 10 n 0 s ltac:(lia) ltac:(lia))).
  apply print_loop; pose proof (reversed_range (dec_digits 10 n)); unfold reversed in *; lia.
Qed.

(** Decimal digits and their value. *)
Definition dec_value (l : list Z) : Z := foldl (λ r d, 10 * r + d) 0 l.
Definition is_digit (d : Z) : Prop := 0 <= d < 10.

Lemma dec_digits_are fuel n : Forall is_digit (dec_digits fuel n).
Proof.
  revert n. induction fuel as [|fuel IH]; intros n; simpl; [constructor|]. case_match; [constructor|].
  constructor; [apply Z.mod_pos_bound; lia|apply IH].
Qed.

Lemma dec_value_snoc l d : dec_value (l ++ [d]) = 10 * dec_value l + d.
Proof. unfold dec_value. by rewrite foldl_app. Qed.

Lemma dec_value_digits fuel n :
  0 <= n < 10 ^ Z.of_nat fuel → dec_value (rev (dec_digits fuel n)) = n.
Proof.
  revert n. induction fuel as [|fuel IH]; intros n Hn; [change (10 ^ Z.of_nat 0) with 1 in Hn; simpl; unfold dec_value; simpl; lia|].
  cbn [dec_digits]. destruct (Z.eqb_spec n 0) as [->|]; [done|]. cbn [rev]. rewrite dec_value_snoc, IH.
  - pose proof (Z.div_mod n 10). lia.
  - rewrite Nat2Z.inj_succ, Z.pow_succ_r in Hn by lia. Z.div_mod_to_equations; lia.
Qed.

Lemma dec_value_bound l : Forall is_digit l → 0 <= dec_value l < 10 ^ Z.of_nat (length l).
Proof.
  induction l as [|d l IH] using rev_ind; intros Hl; [done|]. rewrite dec_value_snoc.
  apply Forall_app in Hl as [Hl Hd]. rewrite Forall_singleton in Hd. unfold is_digit in Hd.
  specialize (IH Hl). rewrite length_app. simpl.
  rewrite Nat2Z.inj_add, Z.pow_add_r by lia. change (10 ^ Z.of_nat 1) with 10. lia.
Qed.

Lemma reversed_small l : Forall is_digit l → (length l <= 9)%nat → reversed l = dec_value l.
Proof.
  induction l as [|d l IH] using rev_ind; intros Hl Hlen; [done|].
  pose proof (dec_value_bound _ Hl) as Hb. apply Forall_app in Hl as [Hl Hd]. rewrite length_app in Hlen. simpl in Hlen.
  unfold reversed in *. rewrite foldl_app. simpl. rewrite IH by (done || lia).
  rewrite dec_value_snoc in *. apply u32_small.
  assert (10 ^ Z.of_nat (length (l ++ [d])) <= 10 ^ 9).
  { apply Z.pow_le_mono_r; [lia|]. rewrite length_app. simpl. lia. }
  lia.
Qed.

(** The digits of a value whose most significant digit is not 0. *)
Lemma dec_digits_value fuel l :
  Forall is_digit l → (length l <= fuel)%nat → match l with [] => True | d :: _ => d ≠ 0 end →
  dec_digits fuel (dec_value l) = rev l.
Proof.
  revert fuel. induction l as [|d l IH] using rev_ind; intros fuel Hl Hlen Hnz; [by destruct fuel|].
  rewrite length_app in Hlen. simpl in Hlen. destruct fuel as [|fuel]; [lia|].
  apply Forall_app in Hl as [Hl Hd]. rewrite Forall_singleton in Hd. unfold is_digit in Hd.
  rewrite dec_value_snoc, rev_app_distr. simpl. pose proof (dec_value_bound l Hl).
  destruct (Z.eqb_spec (10 * dec_value l + d) 0) as [E|_].
  - destruct l as [|c l]; [simpl in Hnz; unfold dec_value in E; simpl in E; lia|]. exfalso.
    assert (Hv : dec_value (c :: l) = 0) by lia.
    specialize (IH (length (c :: l)) Hl ltac:(lia) Hnz). rewrite Hv in IH. simpl in IH.
    by destruct (rev l).
  - f_equal.
    + rewrite Z.add_comm, Z.mul_comm, Z.mod_add by lia. apply Z.mod_small. lia.
    + replace ((10 * dec_value l + d) / 10) with (dec_value l) by (Z.div_mod_to_equations; lia).
      apply IH; [done|lia|by destruct l].
Qed.

(** The digits of a number with a non-zero last digit, at most nine of them,
    survive the double reversal. *)
Lemma print_decimal_digits n :
  0 < n < 10 ^ 9 → n mod 10 ≠ 0 →
  dec_digits 10 (reversed (dec_digits 10 n)) = rev (dec_digits 10 n).
Proof.
  intros Hn Hm. pose proof (dec_digits_are 10 n) as Hd.
  assert (Hlen : (length (dec_digits 10 n) <= 9)%nat).
  { assert (Hmono : ∀ f g m, 0 <= m < 10 ^ Z.of_nat f → (f <= g)%nat → (length (dec_digits g m) <= f)%nat).
    { induction f as [|f IH]; intros g m Hm' Hfg.
      - change (10 ^ Z.of_nat 0) with 1 in Hm'. assert (m = 0) as -> by lia. destruct g; simpl; lia.
      - destruct g as [|g]; [lia|]. cbn [dec_digits]. destruct (m =? 0); simpl; [lia|].
        rewrite Nat2Z.inj_succ, Z.pow_succ_r in Hm' by lia.
        specialize (IH g (m / 10) ltac:(Z.div_mod_to_equations; lia) ltac:(lia)). lia. }
    apply Hmono; [|lia]. change (Z.of_nat 9) with 9. lia. }
  rewrite reversed_small by done. apply dec_digits_value; [done|lia|].
  cbn [dec_digits]. by destruct (n =? 0).
Qed.

(** ** Properties *)

(** [bl_print_hex] and [bl_print_hex64] print a non-zero number as its
    hexadecimal digits without leading zeros, and nothing else: read back, the
    digits are the number. *)
Theorem print_hex_roundtrip w n s :
  (w = 32 ∨ w = 64) → 0 < n < 2 ^ w → bl_print_callback s = true →
  ∃ l, (if w =? 32 then bl_print_hex n else bl_print_hex64 n) s =
         Some ((), with_console (console s ++ l) s) ∧
    hex_decode l = n ∧ match l with [] => False | c :: _ => c ≠ 48 end.
Proof.
  intros Hw Hn Hcb. destruct (print_hex_run w n s) as (l & Hrun & Hdec & Hnz).
  - by destruct Hw as [-> | ->].
  - destruct Hw as [-> | ->]; lia.
  - done.
  - exists l. split; [|done]. unfold emitted in Hrun. rewrite Hcb in Hrun. by destruct Hw as [-> | ->].
Qed.

Lemma print_hex_roundtrip_witness :
  ∃ l, (if 32 =? 32 then bl_print_hex 0xb0070ade else bl_print_hex64 0xb0070ade) machine0 =
         Some ((), with_console (console machine0 ++ l) machine0) ∧
    hex_decode l = 0xb0070ade ∧ match l with [] => False | c :: _ => c ≠ 48 end.
Proof. apply (print_hex_roundtrip 32 0xb0070ade machine0); [by left|lia|done]. Defined.

(** [bl_print_decimal] prints the decimal digits of a number of at most nine
    digits whose last digit is not 0: read back, they are the number. *)
Theorem print_decimal_roundtrip n s :
  0 < n < 10 ^ 9 → n mod 10 ≠ 0 → bl_print_callback s = true →
  ∃ l, bl_print_decimal n s = Some ((), with_console (console s ++ map (Z.add 48) l) s) ∧
    Forall is_digit l ∧ dec_value l = n.
Proof.
  intros Hn Hm Hcb. exists (rev (dec_digits 10 n)). rewrite print_decimal_run by lia.
  rewrite print_decimal_digits by done. unfold emitted. rewrite Hcb. split; [done|]. split.
  - apply Forall_rev, dec_digits_are.
  - apply dec_value_digits. change (10 ^ Z.of_nat 10) with 10000000000. lia.
Qed.

Lemma print_decimal_roundtrip_witness :
  ∃ l, bl_print_decimal 80386 machine0 =
         Some ((), with_console (console machine0 ++ map (Z.add 48) l) machine0) ∧
    Forall is_digit l ∧ dec_value l = 80386.
Proof. apply (print_decimal_roundtrip 80386 machine0); [lia|done|done]. Defined.

(** [bl_print_decimal] drops trailing zeros: a number and its tenfold print
    the same, and 0 prints nothing. *)
Theorem print_decimal_drops_zeros n s :
  0 <= n → 10 * n < 4294967296 → bl_print_decimal (10 * n) s = bl_print_decimal n s.
Proof.
  intros Hn H10. rewrite !print_decimal_run by lia. do 4 f_equal.
  destruct (decide (n = 0)) as [->|Hne]; [done|].
  assert (E : dec_digits 10 (10 * n) = 0 :: dec_digits 9 n).
  { cbn [dec_digits]. destruct (Z.eqb_spec (10 * n) 0); [lia|].
    replace ((10 * n) mod 10) with 0 by (rewrite Z.mul_comm; symmetry; apply Z.mod_mul; lia).
    replace (10 * n / 10) with n by (rewrite Z.mul_comm; symmetry; apply Z.div_mul; lia). done. }
  rewrite E. change (reversed (0 :: dec_digits 9 n)) with (reversed (dec_digits 9 n)).
  assert (Hmono : ∀ f g m, 0 <= m < 10 ^ Z.of_nat f → (f <= g)%nat → dec_digits g m = dec_digits f m).
  { induction f as [|f IH]; intros g m Hm' Hfg.
    - change (10 ^ Z.of_nat 0) with 1 in Hm'. assert (m = 0) as -> by lia. by destruct g.
    - destruct g as [|g]; [lia|]. cbn [dec_digits]. destruct (m =? 0); [done|]. f_equal.
      rewrite Nat2Z.inj_succ, Z.pow_succ_r in Hm' by lia.
      apply IH; [Z.div_mod_to_equations; lia|lia]. }
  rewrite (Hmono 9%nat 10%nat n); [done|change (10 ^ Z.of_nat 9) with 1000000000; lia|lia].
Qed.

Lemma print_decimal_drops_zeros_witness :
  bl_print_decimal (10 * 48) machine0 = bl_print_decimal 48 machine0.
Proof. apply print_decimal_drops_zeros; lia. Defined.
