(* ===== verification/Fs.v ===== *)
(** * Mounting and files: core/fs/fs.c, core/fs/file.c, include/fs/fs.h

    A file-system driver is a record of functions with the address of its
    static [struct bl_fs], which mounted handles hold. *)
From S2P Require Import Prelude Memory Arith Status Strings Heap Storage Tokens.

Record bl_fs := Fs {
  fs_addr : Z;
  fs_mount : option (Z → Z → Z → M bl_status_t);   (* disk, partition, &info *)
  fs_umount : option (Z → M bl_status_t);
  fs_open : option (Z → Z → Z → M bl_status_t);
  fs_close : option (Z → M bl_status_t);
  fs_ls : option (Z → M bl_status_t);
}.

(** [struct bl_fs_handle], [struct bl_file], [struct bl_file_tree_node]. *)
Definition sizeof_handle : Z := 8.
Definition handle_fs : Z := 0.
Definition handle_info : Z := 4.

Definition sizeof_file : Z := 12.
Definition file_name : Z := 0.
Definition file_handle : Z := 4.
Definition file_fdata : Z := 8.

Definition sizeof_tree_node : Z := 8.
Definition node_fdata : Z := 0.
Definition node_prev : Z := 4.

(** General file types. *)
Definition BL_FILE_TYPE_UNKNOWN : Z := 0.
Definition BL_FILE_TYPE_REGULAR : Z := 1.
Definition BL_FILE_TYPE_DIRECTORY : Z := 2.

(** ** fs.c *)
Definition bl_fs_register (fs : bl_fs) (l : list bl_fs) : list bl_fs := fs :: l.

Definition bl_fs_try_mount (bl_fs_list : list bl_fs) (disk partition : Z) : M Z :=
  handle ← bl_heap_alloc sizeof_handle;
  if is_null handle then mret NULL
  else
    (fix go (l : list bl_fs) : M Z :=
       match l with
       | [] => mret NULL
       | fs :: next =>
           match fs_mount fs with
           | None => go next
           | Some mount =>
               status ← mount disk partition (handle + handle_info);
               if failed status then go next
               else wr32 (handle + handle_fs) (fs_addr fs);; mret handle
           end
       end) bl_fs_list.

(** The driver behind a pointer to [struct bl_fs]; following a pointer that is
    not one of the registered drivers' is undefined. *)
Definition fs_at (bl_fs_list : list bl_fs) (addr : Z) : M bl_fs :=
  match List.find (λ fs, fs_addr fs =? addr) bl_fs_list with
  | Some fs => mret fs
  | None => diverge
  end.

(** ** file.c *)
Definition callback_t : Type := Z → bool → Z → Z → M bl_status_t.

(** The local [node] and the three literals of the function. *)
Record path_frame := PathFrame {
  p_node : Z; bl_path_delimiter : Z; bl_current_directory : Z; bl_previous_directory : Z;
}.

Definition close_node (fs : bl_fs) (node : Z) : M () :=
  match fs_close fs with
  | None => diverge
  | Some close =>
      fdata ← rd32 (node + node_fdata);
      close fdata;;
      bl_heap_free node sizeof_tree_node
  end.

(** The label [_exit]: every ancestor of [top] is closed and freed, [top] is
    freed. *)
Definition iterate_exit (fs : bl_fs) (top copy_path len : Z) (status : bl_status_t) : M bl_status_t :=
  (if is_null top then mret ()
   else
     node ← rd32 (top + node_prev);
     mwhile (λ node,
       if is_null node then break ()
       else
         close_node fs node;;
         prev ← rd32 (node + node_prev);
         continue prev) node;;
     bl_heap_free top sizeof_tree_node);;
  bl_heap_free copy_path len;;
  mret status.

(** One component of the path. *)
Definition iterate_component (f : path_frame) (fs : bl_fs) (path len root : Z) (callback : callback_t)
    (x : Z * Z) : M ((Z * Z) + (Z * bl_status_t)) :=
  let '(filename, top) := x in
  if is_null filename then break (top, BL_STATUS_SUCCESS)
  else
    next_filename ← bl_strtok NULL (bl_path_delimiter f);
    last ← rds8 (path + len - 1);
    let directory := negb (is_null next_filename) || (last =? 47) in
    c ← bl_strcmp filename (bl_previous_directory f);
    if negb (truth c) then
      if negb (top =? root) then
        wr32 (p_node f) top;;
        prev ← rd32 (top + node_prev);
        close_node fs top;;
        continue (next_filename, prev)
      else continue (next_filename, top)
    else
      c ← bl_strcmp filename (bl_current_directory f);
      if truth c then
        fdata ← rd32 (top + node_fdata);
        status ← callback filename directory fdata (p_node f);
        if failed status then break (top, status)
        else
          node ← rd32 (p_node f);
          wr32 (node + node_prev) top;;
          continue (next_filename, node)
      else continue (next_filename, top).

Definition bl_file_iterate_path (f : path_frame) (fs : option bl_fs) (path root : Z)
    (callback : option callback_t) (fdata : Z) : M bl_status_t :=
  match fs, callback with
  | Some fs, Some callback =>
      if is_null path || is_null root then mret BL_STATUS_INVALID_PARAMETERS
      else
        len ← bl_strlen path;
        copy_path ← bl_strndup path len;
        if is_null copy_path then mret BL_STATUS_FAILURE
        else
          filename ← bl_strtok copy_path (bl_path_delimiter f);
          '(top, status) ← mwhile (iterate_component f fs path len root callback) (filename, root);
          (if failed status then mret ()
           else d ← rd32 (top + node_fdata); wr32 fdata d);;
          iterate_exit fs top copy_path len status
  | _, _ => mret BL_STATUS_INVALID_PARAMETERS
  end.

(** [pfile] is the address of the local [file]. *)
Definition bl_file_open (pfile : Z) (bl_fs_list : list bl_fs) (handle path : Z) : M Z :=
  if is_null path then mret NULL
  else
    c ← rds8 path;
    if negb (c =? 47) then mret NULL
    else if is_null handle then mret NULL
    else
      p ← rd32 (handle + handle_fs);
      if is_null p then mret NULL
      else
        fs ← fs_at bl_fs_list p;
        match fs_open fs, fs_close fs with
        | Some open, Some _ =>
            status ← open handle path pfile;
            if failed status then mret NULL
            else
              file ← rd32 pfile;
              wr32 (file + file_handle) handle;;
              mret file
        | _, _ => mret NULL
        end.

Definition bl_file_close (bl_fs_list : list bl_fs) (file : Z) : M () :=
  if is_null file then mret ()
  else
    handle ← rd32 (file + file_handle);
    if is_null handle then mret ()
    else
      p ← rd32 (handle + handle_fs);
      if is_null p then mret ()
      else
        fs ← fs_at bl_fs_list p;
        match fs_close fs with
        | None => mret ()
        | Some close =>
            fdata ← rd32 (file + file_fdata);
            close fdata;;
            mret ()
        end.

Definition bl_file_ls (pfile : Z) (bl_fs_list : list bl_fs) (handle path : Z) : M bl_status_t :=
  if is_null path then mret BL_STATUS_INVALID_PARAMETERS
  else
    c ← rds8 path;
    if negb (c =? 47) then mret BL_STATUS_INVALID_PARAMETERS
    else if is_null handle then mret BL_STATUS_INVALID_PARAMETERS
    else
      p ← rd32 (handle + handle_fs);
      if is_null p then mret BL_STATUS_INVALID_PARAMETERS
      else
        fs ← fs_at bl_fs_list p;
        match fs_ls fs with
        | None => mret BL_STATUS_INVALID_PARAMETERS
        | Some ls =>
            file ← bl_file_open pfile bl_fs_list handle path;
            if is_null file then mret BL_STATUS_FILE_NOT_FOUND
            else
              fdata ← rd32 (file + file_fdata);
              status ← ls fdata;
              bl_file_close bl_fs_list file;;
              mret status
        end.
