(* ===== verification/FsProofs.v ===== *)
(** * Proofs about paths: the walk of [bl_file_iterate_path] over its nodes

    A file system is an interface: what its callback opens and what closing
    gives back.  The walk holds a stack of nodes, the current directory first. *)
From S2P Require Import Prelude Memory Regions Arith Status Strings StringsProofs Heap HeapProofs HeapClient.
From S2P Require Import Storage Tokens TokensProofs Fs.

(** ** Paths as lists of names *)
Definition slash : list Z := [47].
Definition dot : list Z := [46].
Definition dotdot : list Z := [46; 46].

Section Walk.
Context {Node : Type} (child : Node → list Z → bool → option Node).

(** The directories from the current one up to the root after the names [ws],
    and whether every one of them was found; [trailing]: the path ends in a
    slash, so its last name is a directory's. *)
Fixpoint walk (trailing : bool) (st : list Node) (ws : list (list Z)) : list Node * bool :=
  match ws with
  | [] => (st, true)
  | w :: rest =>
      let directory := match rest with [] => trailing | _ :: _ => true end in
      if decide (w = dotdot) then walk trailing (match st with _ :: (_ :: _) as up => up | _ => st end) rest
      else if decide (w = dot) then walk trailing st rest
      else
        match st with
        | [] => (st, false)
        | x :: _ => match child x w directory with Some y => walk trailing (y :: st) rest | None => (st, false) end
        end
  end.
End Walk.

(** ** What the walk asks of a file system

    [file m d x B]: [d] points to the open file [x], whose data is in the blocks
    [B].  The callback opens a child, with a node for it and at most [growth]
    more bytes of heap, and leaves the node at [p_node]; closing gives the
    file's blocks back. *)
Class FileTree {Node : Type} (child : Node → list Z → bool → option Node) (file : gmap Z Z → Z → Node → list block → Prop)
    (fs : bl_fs) (callback : callback_t) (p_node growth : Z) (close_file : Z → M bl_status_t) : Prop := {
  close_is : fs_close fs = Some close_file;
  growth_nonneg : 0 <= growth;
  file_local m m' d x B :
    (∀ b a, b ∈ B → b_data b <= a < slot_end b → a < 4294967296 → ld8 m' a = ld8 m a) → file m d x B → file m' d x B;
  close_ok s bs d x B :
    heap_inv s bs → file (mem s) d x B → Forall (in_use bs) B →
    ∃ st s' bs', close_file d s = Some (st, s') ∧ heap_change s bs s' bs' B [] 0 (λ _, False);
  callback_ok s bs name w directory d x B :
    heap_inv s bs → cstr (mem s) name w → stable_region s bs (growth + 16) name (Z.of_nat (length w) + 1) →
    file (mem s) d x B → Forall (in_use bs) B → stable_region s bs (growth + 16) p_node 4 → heap_end s bs + growth < 4294967296 →
    match child x w directory with
    | Some y => ∃ s' bs' node d' B', callback name directory d p_node s = Some (BL_STATUS_SUCCESS, s') ∧
        heap_change s bs s' bs' [] (node :: B') growth (within p_node 4) ∧ NoDup (node :: B') ∧
        sizeof_tree_node <= b_size node ∧ ld 4 (mem s') p_node = b_data node ∧
        ld 4 (mem s') (b_data node + node_fdata) = d' ∧ file (mem s') d' y B'
    | None => ∃ st s' bs', callback name directory d p_node s = Some (st, s') ∧ failed st = true ∧
        heap_change s bs s' bs' [] [] growth (within p_node 4)
    end;
}.

(** ** The stack of nodes *)
Section Stack.
Context {Node : Type} (child : Node → list Z → bool → option Node) (file : gmap Z Z → Z → Node → list block → Prop).

Record entry := Entry { e_node : block; e_data : Z; e_file : Node; e_own : list block }.
Definition entry_blocks (e : entry) : list block := e_node e :: e_own e.
Definition blocks (st : list entry) : list block := st ≫= entry_blocks.
Definition top_of (st : list entry) : Z := match st with [] => NULL | e :: _ => b_data (e_node e) end.
Fixpoint linked (m : gmap Z Z) (st : list entry) : Prop :=
  match st with
  | [] => True
  | e :: up =>
      sizeof_tree_node <= b_size (e_node e) ∧ ld 4 m (b_data (e_node e) + node_fdata) = e_data e ∧
      ld 4 m (b_data (e_node e) + node_prev) = top_of up ∧ file m (e_data e) (e_file e) (e_own e) ∧ linked m up
  end.

Lemma in_use_space s bs b : heap_inv s bs → in_use bs b → 16 < b_data b ∧ b_end b <= 4294967296.
Proof.
  intros Hinv [Hb _]. destruct (laid_out_in _ b (heap_inv_laid_out _ _ Hinv) Hb) as (? & ? & ? & ?). field_lia.
Qed.
Lemma in_use_data s bs b c : heap_inv s bs → in_use bs b → in_use bs c → b_data b = b_data c → b = c.
Proof.
  intros Hinv [Hb _] [Hc _] E. pose proof (heap_inv_laid_out _ _ Hinv) as Hl.
  destruct (laid_out_in _ b Hl Hb) as (? & ? & ? & ?), (laid_out_in _ c Hl Hc) as (? & ? & ? & ?).
  destruct (laid_out_disjoint _ b c Hl Hb Hc) as [|[?|?]]; [done|field_lia..].
Qed.

(** The walk between two of its steps: the blocks in use are [base]'s and the
    stack's, and the bytes [Kept] are neither the stack's nor in reach of the
    allocations to come. *)
Record walking (base : block → Prop) (Kept : Z → Prop) (g : Z) (st : list entry) (s : machine) (bs : list block) : Prop := {
  w_inv : heap_inv s bs;
  w_used : ∀ b, in_use bs b ↔ base b ∨ b ∈ blocks st;
  w_nodup : NoDup (blocks st);
  w_base : ∀ b, base b → b ∉ blocks st;
  w_linked : linked (mem s) st;
  w_kept : ∀ a, Kept a → stable s bs (g + 16) a ∧ ∀ b, b ∈ blocks st → outside_slot b a;
  w_room : heap_end s bs + g < 4294967296;
}.

Context (fs : bl_fs) (callback : callback_t) (p_node growth : Z) (close_file : Z → M bl_status_t).
Context `{HT : !FileTree child file fs callback p_node growth close_file}.

Lemma linked_local m m' st :
  Forall (λ b, 16 < b_data b ∧ b_end b <= 4294967296) (blocks st) →
  (∀ b a, b ∈ blocks st → b_data b <= a < slot_end b → a < 4294967296 → ld8 m' a = ld8 m a) → linked m st → linked m' st.
Proof.
  induction st as [|e up IH]; [done|]. change (blocks (e :: up)) with (entry_blocks e ++ blocks up).
  intros [Hsp Hup]%Forall_app Hsame (H1 & H2 & H3 & H4 & H5). apply Forall_cons in Hsp as [[Hsp1 Hsp2] _].
  assert (Hld : ∀ k, 0 <= k → k + 4 <= 8 → ld 4 m' (b_data (e_node e) + k) = ld 4 m (b_data (e_node e) + k)).
  { intros k Hk Hk'. unfold ld. f_equal. apply ld_bytes_ext. intros i Hi. pose proof (slot_bounds (e_node e)).
    apply (Hsame (e_node e)); [apply elem_of_app; left; left|..]; unfold sizeof_tree_node, b_end in *; lia. }
  split; [done|]. rewrite !Hld by (unfold node_fdata, node_prev; lia). split; [done|]. split; [done|]. split.
  - eapply file_local; [|exact H4]. intros b a Hb. apply Hsame. apply elem_of_app. left. by right.
  - apply IH; [done| |done]. intros b a Hb. apply Hsame. apply elem_of_app. by right.
Qed.

Context (base : block → Prop) (Kept : Z → Prop).
#[local] Abbreviation walk_at := (walking base Kept).

Lemma walking_space g st s bs : walk_at g st s bs → Forall (λ b, 16 < b_data b ∧ b_end b <= 4294967296) (blocks st).
Proof.
  intros Hw. apply Forall_forall. intros b Hb. eapply in_use_space; [apply Hw|]. apply (w_used _ _ _ _ _ _ Hw). by right.
Qed.
Lemma walking_in_use g st s bs l : walk_at g st s bs → l ⊆ blocks st → Forall (in_use bs) l.
Proof. intros Hw Hl. apply Forall_forall. intros b Hb. apply (w_used _ _ _ _ _ _ Hw). right. by apply Hl. Qed.

(** Any step of the program: the kept bytes stay, and so do the nodes of the
    part [st'] of the stack whose blocks are not given up. *)
Lemma walking_kept g k st s bs s' bs' gone new W a :
  walk_at (g + k) st s bs → heap_change s bs s' bs' gone new k W → 0 <= g → gone ⊆ blocks st → Kept a → ¬ W a →
  ld8 (mem s') a = ld8 (mem s) a.
Proof.
  intros Hw Hch Hg Hgone Ha HW. destruct (w_kept _ _ _ _ _ _ Hw a Ha) as [Hst Ho].
  apply (ch_frame _ _ _ _ _ _ _ _ Hch); [eapply stable_weaken; [|exact Hst]; lia| |done]. intros b Hb. by apply Ho, Hgone.
Qed.
Lemma walking_linked g k st st' s bs s' bs' gone new W :
  walk_at (g + k) st s bs → heap_change s bs s' bs' gone new k W → gone ⊆ blocks st → blocks st' ⊆ blocks st →
  (∀ b, b ∈ blocks st' → b ∉ gone) → (∀ b a, b ∈ blocks st' → b_data b <= a < slot_end b → ¬ W a) →
  linked (mem s) st' → linked (mem s') st'.
Proof.
  intros Hw Hch Hgone Hsub Hng HW. apply linked_local.
  - pose proof (walking_space _ _ _ _ Hw) as Hsp. rewrite Forall_forall in *. auto.
  - intros b a Hb Ha Ha'. eapply change_slot; [exact Hch|apply Hw|by eapply walking_in_use| |by apply Hng|done|done|by apply (HW b)].
    apply (w_used _ _ _ _ _ _ Hw). right. by apply Hsub.
Qed.
Lemma walking_change g k st st' s bs s' bs' gone new W :
  walk_at (g + k) st s bs → heap_change s bs s' bs' gone new k W → 0 <= g → gone ⊆ blocks st →
  (∀ b, b ∈ blocks st' ↔ (b ∈ blocks st ∧ b ∉ gone) ∨ b ∈ new) → NoDup (blocks st') → linked (mem s') st' →
  walk_at g st' s' bs'.
Proof.
  intros Hw Hch Hg Hgone Hst' Hdup Hlinked. pose proof (ch_inv _ _ _ _ _ _ _ _ Hch) as Hinv'. split; try done.
  - intros b. rewrite (ch_used _ _ _ _ _ _ _ _ Hch), (w_used _ _ _ _ _ _ Hw), Hst'. split; [tauto|].
    intros [Hb|[[Hb Hng]|Hb]]; [left; split; [by left|]|tauto|tauto]. intros Hbg. by apply (w_base _ _ _ _ _ _ Hw b Hb), Hgone.
  - intros b Hb Hin. apply Hst' in Hin as [[Hin _]|Hin]; [by apply (w_base _ _ _ _ _ _ Hw b)|].
    apply (ch_fresh _ _ _ _ _ _ _ _ Hch b Hin). apply (w_used _ _ _ _ _ _ Hw). by left.
  - intros a Ha. destruct (w_kept _ _ _ _ _ _ Hw a Ha) as [Hs Ho].
    assert (Hs' : stable s' bs' (g + 16) a).
    { eapply change_stable; [exact Hch|lia| |by intros b Hb; apply Ho, Hgone]. eapply stable_weaken; [|exact Hs]. lia. }
    split; [done|]. intros b Hb. apply Hst' in Hb as [[Hb _]|Hb]; [by apply Ho|].
    eapply change_new_outside; [exact Hch|done| |by intros c Hc; apply Ho, Hgone]. eapply stable_weaken; [|exact Hs]. lia.
  - pose proof (ch_end _ _ _ _ _ _ _ _ Hch). pose proof (w_room _ _ _ _ _ _ Hw). lia.
Qed.

(** Closing the current directory: even the node's own link can still be read. *)
Lemma pop_node_run g e up s bs :
  walk_at g (e :: up) s bs → 0 <= g →
  ∃ s' bs', close_node fs (b_data (e_node e)) s = Some ((), s') ∧ walk_at g up s' bs' ∧
    (∀ a, Kept a → ld8 (mem s') a = ld8 (mem s) a) ∧ bl_strtok_str s' = bl_strtok_str s ∧
    ld 4 (mem s') (b_data (e_node e) + node_prev) = top_of up.
Proof.
  intros Hw Hg. pose proof Hw as [Hinv Hused Hdup Hbase (Hsz & Hd & Hprev & Hfile & Hup) _ _].
  change (blocks (e :: up)) with (e_node e :: (e_own e ++ blocks up)) in *.
  apply NoDup_cons in Hdup as [Hnode Hdup]. pose proof Hdup as [_ [Hdis Hdup']]%NoDup_app.
  assert (Hsub : e_own e ⊆ blocks (e :: up)) by (intros b Hb; right; apply elem_of_app; by left).
  destruct (close_ok s bs (e_data e) (e_file e) (e_own e) Hinv Hfile (walking_in_use _ _ _ _ _ Hw Hsub))
    as (r & s1 & bs1 & Hrun1 & Hch1).
  assert (Hin : in_use bs (e_node e)) by (apply Hused; right; left).
  assert (Hno : e_node e ∉ e_own e) by (intros H; apply Hnode, elem_of_app; by left).
  assert (Hin1 : in_use bs1 (e_node e)) by (apply (ch_used _ _ _ _ _ _ _ _ Hch1); by left).
  destruct (free_change s1 bs1 (e_node e) sizeof_tree_node (ch_inv _ _ _ _ _ _ _ _ Hch1) Hin1)
    as (s2 & bs2 & Hrun2 & Hch2 & Hsame2).
  pose proof (change_gone _ _ _ _ _ _ _ _ Hch1 Hch2) as Hch. cbn [app] in Hch.
  assert (Hgone : e_node e :: e_own e ⊆ blocks (e :: up)).
  { intros b [->|Hb]%elem_of_cons; [left|by apply Hsub]. }
  rewrite <- (Z.add_0_r g) in Hw.
  assert (Hrest : ∀ b, b ∈ blocks up → b ∉ e_node e :: e_own e).
  { intros b Hb [->|Hb']%elem_of_cons; [apply Hnode, elem_of_app; by right|by apply (Hdis b)]. }
  exists s2, bs2. split; [|split; [|split; [|split]]].
  - unfold close_node. rewrite close_is. apply wp_exact. wp_step. wp_step. rewrite Hd. wp_known Hrun1. by apply wp_exact.
  - eapply walking_change; [exact Hw|exact Hch|done|exact Hgone| |done|].
    + intros b. change (blocks (e :: up)) with ((e_node e :: e_own e) ++ blocks up). rewrite elem_of_app. split.
      * intros Hb. left. split; [by right|by apply Hrest].
      * intros [[[?|?] ?]|?%not_elem_of_nil]; done.
    + eapply walking_linked; [exact Hw|exact Hch|exact Hgone| |exact Hrest|by intros ? ? ? ? []|done].
      intros b Hb. right. apply elem_of_app. by right.
  - intros a Ha. eapply walking_kept; [exact Hw|exact Hch|done|exact Hgone|done|by intros []].
  - apply Hch.
  - rewrite <- Hprev. destruct (in_use_space _ _ _ Hinv Hin). pose proof (slot_bounds (e_node e)).
    unfold ld. f_equal. apply ld_bytes_ext. intros i Hi. unfold node_prev, sizeof_tree_node, b_end in *.
    rewrite Hsame2 by (apply (slot_stable s1 bs1 0 (e_node e)); [apply Hch1|done|lia|lia]).
    eapply change_slot; [exact Hch1|done|by eapply walking_in_use; [exact Hw|]|exact Hin|done|lia|lia|by intros []].
Qed.

Lemma top_not_null g e up s bs : walk_at g (e :: up) s bs → is_null (b_data (e_node e)) = false.
Proof.
  intros Hw. pose proof (walking_space _ _ _ _ Hw) as [[H _] _]%Forall_cons. unfold is_null. by destruct (Z.eqb_spec (b_data (e_node e)) 0); [lia|].
Qed.

(** The loop that closes every directory above. *)
Lemma ancestors_run g up s bs :
  walk_at g up s bs → 0 <= g → Z.of_nat (length up) < 4294967296 →
  wp (mwhile (λ node, if is_null node then break ()
                      else close_node fs node;; prev ← rd32 (node + node_prev); continue prev) (top_of up))
    (λ _ t, (∃ bs', walk_at g [] t bs') ∧ ∀ a, Kept a → ld8 (mem t) a = ld8 (mem s) a) s.
Proof.
  intros Hw Hg Hlen.
  apply (wp_mwhile_ranked _ (λ n node t, ∃ up' bs', n = Z.of_nat (length up') ∧ node = top_of up' ∧ walk_at g up' t bs' ∧
    ∀ a, Kept a → ld8 (mem t) a = ld8 (mem s) a) _ (Z.of_nat (length up))).
  - intros n node t (up' & bs' & -> & -> & Hw' & Hk). destruct up' as [|e up']; cbn [top_of].
    { change (is_null NULL) with true. cbv iota. wp_step. eauto. }
    rewrite (top_not_null _ _ _ _ _ Hw'). destruct (pop_node_run g e up' t bs' Hw' Hg) as (t1 & bs1 & Hrun & Hw1 & Hk1 & _ & Hprev).
    wp_known Hrun. wp_steps. rewrite Hprev. exists (Z.of_nat (length up')). split; [cbn [length]; lia|].
    exists up', bs1. split_and!; try done. intros a Ha. by rewrite Hk1, Hk.
  - exists up, bs. done.
  - unfold while_fuel. lia.
Qed.
End Stack.
#[global] Arguments Entry {Node}. #[global] Arguments e_node {Node}. #[global] Arguments e_data {Node}.
#[global] Arguments e_file {Node}. #[global] Arguments e_own {Node}.

(** ** Leaving the walk *)
Section Exit.
Context {Node : Type} {child : Node → list Z → bool → option Node} {file : gmap Z Z → Z → Node → list block → Prop}.
Context (fs : bl_fs) (callback : callback_t) (p_node growth : Z) (close_file : Z → M bl_status_t).
Context `{HT : !FileTree child file fs callback p_node growth close_file} (base : block → Prop) (Kept : Z → Prop).

(** The bytes of a list of blocks. *)
Definition slot_bytes (l : list block) (a : Z) : Prop := ∃ b, b ∈ l ∧ b_data b <= a < slot_end b ∧ a < 4294967296.

(** The node on top counts as one of the other blocks. *)
Lemma walking_rebase g e up s bs :
  walking file base Kept g (e :: up) s bs →
  walking file (λ b, base b ∨ b ∈ entry_blocks e) (λ a, Kept a ∨ slot_bytes (entry_blocks e) a) g up s bs.
Proof.
  intros Hw. pose proof Hw as [Hinv Hused Hdup Hbase (_ & _ & _ & _ & Hup) Hkept Hroom].
  change (blocks (e :: up)) with (entry_blocks e ++ blocks up) in *. apply NoDup_app in Hdup as (Hdup1 & Hdis & Hdup2).
  split; try done.
  - intros b. rewrite Hused, elem_of_app. tauto.
  - intros b [Hb|Hb]; [|by apply Hdis]. intros Hin. apply (Hbase b Hb), elem_of_app. by right.
  - intros a [Ha|(b & Hb & Hin & Ha)].
    + destruct (Hkept a Ha) as [Hs Ho]. split; [done|]. intros b Hb. apply Ho, elem_of_app. by right.
    + assert (Hub : in_use bs b) by (apply Hused; right; apply elem_of_app; by left).
      split; [by eapply slot_stable|]. intros c Hc. eapply (in_use_apart s bs b c); [done|done| | |done].
      * apply Hused. right. apply elem_of_app. by right.
      * intros ->. by apply (Hdis c).
Qed.

Lemma exit_run g e up copy len status s bs :
  walking file base Kept g (e :: up) s bs → 0 <= g → Z.of_nat (length up) < 4294967296 → base copy →
  ∃ s' bs', iterate_exit fs (b_data (e_node e)) (b_data copy) len status s = Some (status, s') ∧ heap_inv s' bs' ∧
    (∀ b, in_use bs' b ↔ (base b ∧ b ≠ copy) ∨ b ∈ e_own e) ∧ file (mem s') (e_data e) (e_file e) (e_own e) ∧
    ∀ a, Kept a → ld8 (mem s') a = ld8 (mem s) a.
Proof.
  intros Hw Hg Hlen Hcopy. pose proof Hw as [Hinv Hused Hdup Hbase (_ & _ & Hprev & Hfile & _) Hkept Hroom].
  pose proof (ancestors_run child file fs callback p_node growth close_file _ _ g up s bs (walking_rebase _ _ _ _ _ Hw) Hg Hlen) as Hanc.
  apply wp_run in Hanc as ([] & s1 & Hrun1 & (bs1 & Hw1) & Hk1). pose proof Hw1 as [Hinv1 Hused1 _ _ _ Hkept1 _].
  change (blocks (e :: up)) with (e_node e :: (e_own e ++ blocks up)) in *. apply NoDup_cons in Hdup as [Hnode Hdup].
  assert (Hused1' : ∀ b, in_use bs1 b ↔ base b ∨ b ∈ entry_blocks e).
  { intros b. rewrite Hused1. split; [intros [?|?%not_elem_of_nil]; done|by left]. }
  assert (Hnode1 : in_use bs1 (e_node e)) by (apply Hused1'; right; left).
  destruct (free_change s1 bs1 (e_node e) sizeof_tree_node Hinv1 Hnode1) as (s2 & bs2 & Hrun2 & Hch2 & Hk2).
  assert (Hused2 : ∀ b, in_use bs2 b ↔ base b ∨ b ∈ e_own e).
  { intros b. rewrite (ch_used _ _ _ _ _ _ _ _ Hch2), Hused1', list_elem_of_singleton. unfold entry_blocks. rewrite elem_of_cons. split.
    - intros [[[?|[?|?]] ?]|?%not_elem_of_nil]; tauto.
    - intros [Hb|Hb]; left; (split; [tauto|]); intros ->; [apply (Hbase _ Hb); left|apply Hnode, elem_of_app; by left]. }
  pose proof (ch_inv _ _ _ _ _ _ _ _ Hch2) as Hinv2.
  assert (Hcopy2 : in_use bs2 copy) by (apply Hused2; by left).
  destruct (free_change s2 bs2 copy len Hinv2 Hcopy2) as (s3 & bs3 & Hrun3 & Hch3 & Hk3).
  exists s3, bs3. split; [|split; [apply Hch3|split; [|split]]].
  - apply wp_exact. unfold iterate_exit. rewrite (top_not_null file base Kept g e up s bs Hw). apply wp_bind.
    wp_step. wp_step. rewrite Hprev. wp_known Hrun1. apply wp_exact in Hrun2. eapply wp_mono; [exact Hrun2|].
    intros _ t [_ ->]. wp_known Hrun3. by wp_step.
  - intros b. rewrite (ch_used _ _ _ _ _ _ _ _ Hch3), Hused2, list_elem_of_singleton. split.
    + intros [[[?|?] ?]|?%not_elem_of_nil]; tauto.
    + intros [[? ?]|Hb]; left; [tauto|]. split; [tauto|]. intros ->. apply (Hbase _ Hcopy). right. apply elem_of_app. by left.
  - eapply file_local; [|exact Hfile]. intros b a Hb Hin Ha.
    rewrite Hk3 by (eapply (slot_stable s2 bs2 0 b); [done|apply Hused2; by right|done|done]).
    rewrite Hk2 by (eapply (slot_stable s1 bs1 0 b); [done|apply Hused1'; right; by right|done|done]).
    apply Hk1. right. exists b. split; [by right|done].
  - intros a Ha. destruct (Hkept1 a (or_introl Ha)) as [Hs1 _]. destruct (Hkept a Ha) as [_ Ho].
    assert (Hs1' : stable s1 bs1 0 a) by (eapply stable_weaken; [|exact Hs1]; lia).
    rewrite Hk3, Hk2; [apply Hk1; by left|done|]. eapply change_stable; [exact Hch2|lia|done|].
    intros b ->%list_elem_of_singleton. apply Ho. left.
Qed.
End Exit.

(** ** The names of the path, one after another in the copy *)
Section Names.
Context (P L delim : Z).

(** The position in the copy while the names [ws] are still to come. *)
Definition at_words (ws : list (list Z)) (x : Z) (t : machine) : Prop :=
  match ws with
  | [] => x = NULL
  | w :: ws' => ∃ q rest, cstr (mem t) x w ∧ P <= x ∧ x + Z.of_nat (length w) < q ∧
      pending q rest (mem t) ∧ inside P L q rest ∧ words slash rest = ws' ∧ bl_strtok_str t = q
  end.

Lemma at_words_null ws x t : at_words ws x t → is_null x = match ws with [] => true | _ => false end.
Proof.
  destruct ws as [|w ws]; [by intros ->|]. intros (q & rest & (Hx & _) & _). unfold is_null.
  by destruct (Z.eqb_spec x 0); [lia|].
Qed.

Lemma pending_same q rest m m' :
  inside P L q rest → (∀ a, P <= a < P + L + 2 → ld8 m' a = ld8 m a) → pending q rest m → pending q rest m'.
Proof.
  intros [HPq Hin] Hsame [Hs Hz].
  assert (Hend : q + Z.of_nat (length rest) <= P + L + 1) by (destruct Hin as [?|[-> ?]]; [lia|cbn; lia]).
  split; [revert Hs; apply cstr_ext; intros i Hi; symmetry; apply Hsame; lia|].
  intros Hne. destruct (Hz Hne) as [Hlt Hz']. split; [done|]. destruct Hin as [?|[? _]]; [|done].
  rewrite <- Hz'. apply Hsame. lia.
Qed.

Lemma at_words_same ws x t t' :
  (∀ a, P <= a < P + L + 2 → ld8 (mem t') a = ld8 (mem t) a) → bl_strtok_str t' = bl_strtok_str t →
  at_words ws x t → at_words ws x t'.
Proof.
  intros Hsame Htok. destruct ws as [|w ws]; [done|]. intros (q & rest & Hw & HPx & Hxq & Hp & Hin & Hws & Hq).
  exists q, rest. rewrite Htok. split_and!; try done; [|by eapply pending_same].
  assert (q <= P + L + 1) by (destruct Hin as [_ [?|[-> ?]]]; cbn in *; lia).
  revert Hw. apply cstr_ext. intros i Hi. symmetry. apply Hsame. lia.
Qed.

Lemma no_words dl l : words dl l = [] → Forall (λ c, is_delim dl c = true) l.
Proof.
  intros Hw. destruct (split_first dl l) as [H|(pre & tok & rest & -> & Hpre & Hne & Htok & Hrest)]; [done|].
  by rewrite words_split in Hw.
Qed.

Lemma token_run a q rest t :
  cstr (mem t) delim slash → pending q rest (mem t) → inside P L q rest → continues a q t →
  ∃ y q' m, let t' := with_strtok q' (set_mem m t) in
    bl_strtok a delim t = Some (y, t') ∧ (m = mem t ∨ ∃ e, q <= e <= P + L ∧ m = st8 (mem t) e 0) ∧
    at_words (words slash rest) y t'.
Proof.
  intros Hd Hp Hin Ha. destruct (words slash rest) as [|w ws] eqn:Hw.
  - exists NULL, (q + Z.of_nat (length rest)), (mem t). rewrite set_mem_id. split; [|split; [by left|done]].
    apply (strtok_no_word t a delim slash q rest); [done|apply Hp|done|by apply no_words].
  - assert (Hin' : inside q (P + L - q) q rest).
    { destruct Hin as [? [?|[-> _]]]; [split; [lia|left; lia]|done]. }
    destruct (strtok_word t a delim slash q (P + L - q) q rest w ws Hd Hp Hin' Ha Hw)
      as (y & e & q' & rest' & Hrun & He & Hy & Hyl & Hyq & Hc & Hp' & [Hi1 Hi2] & Hws).
    exists y, q', (st8 (mem t) e 0). split; [done|]. split; [right; exists e; split; [lia|done]|].
    destruct Hin as [HPq _]. exists q', rest'. split_and!; try done; [lia|]. split; [lia|].
    destruct Hi2 as [?|[? ?]]; [left; lia|right; split; [done|lia]].
Qed.
End Names.

(** ** The walk *)
Section Loop.
Context {Node : Type} {child : Node → list Z → bool → option Node} {file : gmap Z Z → Z → Node → list block → Prop}.
Context (fs : bl_fs) (callback : callback_t) (growth : Z) (close_file : Z → M bl_status_t) (f : path_frame).
Context `{HT : !FileTree child file fs callback (p_node f) growth close_file} (base : block → Prop) (Kept : Z → Prop).
Context (path : Z) (l : list Z) (copy : block) (e0 : @entry Node) (s0 : machine).
#[local] Abbreviation P := (b_data copy).
#[local] Abbreviation L := (Z.of_nat (length l)).
#[local] Abbreviation walk_at := (walking file base Kept).
#[local] Abbreviation files st := (e_file <$> st).

Definition trailing : bool := match last l with Some c => c =? 47 | None => false end.
Definition statics (m : gmap Z Z) : Prop :=
  cstr m path l ∧ cstr m (bl_path_delimiter f) slash ∧ cstr m (bl_current_directory f) dot ∧
  cstr m (bl_previous_directory f) dotdot.
Definition static_byte (a : Z) : Prop :=
  within path (L + 1) a ∨ within (bl_path_delimiter f) 2 a ∨ within (bl_current_directory f) 2 a ∨
  within (bl_previous_directory f) 3 a.
(** What the walk writes besides the heap: the local [node] and the copy. *)
Definition scratch (a : Z) : Prop := within (p_node f) 4 a ∨ within P (L + 2) a.

Context (Hpath : l ≠ []) (Hcopy : base copy) (Hfit : P + L + 2 <= slot_end copy) (Hspace : 0 < P ∧ P + L + 2 <= 4294967296).
Context (Hstatic : ∀ a, static_byte a → Kept a ∧ ¬ scratch a) (Hscratch : ∀ a, scratch a → Kept a).
Context (Hnode : ∀ a, within (p_node f) 4 a → ¬ within P (L + 2) a) (Hnode_space : in_space (p_node f) 4).

Lemma statics_same m m' : (∀ a, static_byte a → ld8 m' a = ld8 m a) → statics m → statics m'.
Proof.
  intros Hs (H1 & H2 & H3 & H4).
  split; [|split; [|split]]; [revert H1|revert H2|revert H3|revert H4]; apply cstr_ext; intros i Hi; symmetry; apply Hs;
    unfold static_byte, within, slash, dot, dotdot in *; cbn [length] in *; [left|right; left|right; right; left|right; right; right]; lia.
Qed.

(** The walk at the beginning of a round: [ws] are the names to come. *)
Record at_round (ws : list (list Z)) (x top : Z) (st : list entry) (t : machine) (bs : list block) : Prop := {
  r_walking : walk_at (growth * Z.of_nat (length ws)) st t bs;
  r_top : top = top_of st;
  r_root : ∃ up, st = up ++ [e0];
  r_statics : statics (mem t);
  r_frame : ∀ a, Kept a → ¬ scratch a → ld8 (mem t) a = ld8 (mem s0) a;
  r_words : at_words P L ws x t;
}.

Lemma walking_weaken g g' st t bs : g' <= g → walk_at g st t bs → walk_at g' st t bs.
Proof.
  intros Hg [H1 H2 H3 H4 H5 H6 H7]. split; try done; [|lia]. intros a Ha. destruct (H6 a Ha) as [Hs Ho].
  split; [|done]. eapply stable_weaken; [|exact Hs]. lia.
Qed.
Lemma walking_strtok g st t bs q : walk_at g st t bs → walk_at g st (with_strtok q t) bs.
Proof. intros [H1 H2 H3 H4 H5 H6 H7]. by split. Qed.

Lemma kept_region g st t bs h a n :
  walk_at g st t bs → h <= g + 16 → in_space a n → (∀ x, within a n x → Kept x) → stable_region t bs h a n.
Proof.
  intros Hw Hh Hsp Hk. split; [done|]. intros x Hx. eapply stable_weaken; [exact Hh|]. by apply (w_kept _ _ _ _ _ _ _ Hw), Hk.
Qed.

(** Writing into memory that is kept. *)
Lemma walking_write g st t bs a bytes :
  walk_at g st t bs → 0 <= g → in_space a (Z.of_nat (length bytes)) → (∀ x, within a (Z.of_nat (length bytes)) x → Kept x) →
  walk_at g st (set_mem (st_bytes (mem t) a bytes) t) bs.
Proof.
  intros Hw Hg Hsp Hk. assert (Hreg : stable_region t bs 0 a (Z.of_nat (length bytes))).
  { eapply kept_region; [exact Hw|lia|done|done]. }
  pose proof (write_change t bs a bytes (w_inv _ _ _ _ _ _ _ Hw) Hreg) as Hch.
  assert (Hw' : walk_at (g + 0) st t bs) by (by rewrite Z.add_0_r).
  eapply (walking_change file base Kept); [exact Hw'|exact Hch|done|by intros ? ?%not_elem_of_nil| |apply Hw|].
  - intros b. split; [intros Hb; left; split; [done|apply not_elem_of_nil]|intros [[? _]|?%not_elem_of_nil]; done].
  - eapply (walking_linked child file fs callback (p_node f) growth close_file); [exact Hw'|exact Hch|by intros ? ?%not_elem_of_nil|done|by intros ? _ ?%not_elem_of_nil| |apply Hw].
    intros b x Hb Hin Hx. destruct (w_kept _ _ _ _ _ _ _ Hw x (Hk x Hx)) as [_ Ho]. specialize (Ho b Hb).
    unfold outside_slot, outside in Ho. lia.
Qed.

(** The tokenizer writes into the copy only. *)
Lemma walking_token g st t bs q m :
  walk_at g st t bs → 0 <= g → (m = mem t ∨ ∃ e, P <= e <= P + L ∧ m = st8 (mem t) e 0) →
  walk_at g st (with_strtok q (set_mem m t)) bs ∧
  ∀ a, 0 <= a < 4294967296 → ¬ within P (L + 2) a → ld8 m a = ld8 (mem t) a.
Proof.
  intros Hw Hg [-> |(e & He & ->)]; (split; [apply walking_strtok|]); [by rewrite set_mem_id|done| |].
  - rewrite st8_as_bytes. apply walking_write; [done|done|unfold in_space; cbn; lia|].
    intros a Ha. apply Hscratch. right. unfold within in *. cbn in Ha. lia.
  - intros a Ha Hout. apply ld8_st8_ne; [lia|done|]. intros <-. apply Hout. unfold within. lia.
Qed.

Lemma round_token w ws x top st t bs :
  0 <= growth → at_round (w :: ws) x top st t bs →
  ∃ y t', bl_strtok NULL (bl_path_delimiter f) t = Some (y, t') ∧ at_words P L ws y t' ∧
    cstr (mem t') x w ∧ within P (L + 2) x ∧ x + Z.of_nat (length w) <= P + L ∧
    walk_at (growth * Z.of_nat (length (w :: ws))) st t' bs ∧
    ∀ a, 0 <= a < 4294967296 → ¬ within P (L + 2) a → ld8 (mem t') a = ld8 (mem t) a.
Proof.
  intros Hg [Hw Htop Hroot Hst Hfr (q & rest & Hx & HPx & Hxq & Hp & Hin & Hws & Hq)].
  destruct (token_run P L (bl_path_delimiter f) NULL q rest t) as (y & q' & m & Hrun & Hm & Haw); [apply Hst|done|done|by right|].
  assert (HqL : P <= q <= P + L + 1) by (destruct Hin as [? [?|[-> ?]]]; cbn in *; lia).
  rewrite Hws in Haw. exists y, (with_strtok q' (set_mem m t)). split; [done|]. split; [done|].
  change (mem (with_strtok q' (set_mem m t))) with m. assert (Hxp : within P (L + 2) x) by (unfold within; lia).
  destruct (walking_token _ _ _ _ q' m Hw ltac:(nia)) as [Hw' Hsame].
  { destruct Hm as [-> |(e & He & ->)]; [by left|right; exists e; split; [lia|done]]. }
  split; [|split; [done|split; [lia|split; [done|done]]]].
  destruct Hm as [-> |(e & He & ->)]; [done|]. revert Hx. apply cstr_ext. intros i Hi. symmetry. apply ld8_st8_ne; lia.
Qed.

Lemma statics_step m m' : (∀ a, Kept a → ¬ scratch a → ld8 m' a = ld8 m a) → statics m → statics m'.
Proof. intros H. apply statics_same. intros a Ha. by apply H; apply Hstatic. Qed.

Lemma at_root g st t bs up :
  walk_at g st t bs → st = up ++ [e0] → (top_of st =? b_data (e_node e0)) = match up with [] => true | _ => false end.
Proof.
  intros Hw ->. destruct up as [|e up]; cbn [app top_of]; [by apply Z.eqb_refl|]. apply Z.eqb_neq. intros E.
  pose proof Hw as [Hinv Hused Hdup _ _ _ _].
  assert (Hin0 : e_node e0 ∈ blocks (up ++ [e0])).
  { unfold blocks. rewrite bind_app. apply elem_of_app. right. by left. }
  assert (E' : e_node e = e_node e0).
  { apply (in_use_data t bs); [done|apply Hused; right; left|apply Hused; right|done]. right. apply elem_of_app. by right. }
  change (blocks (e :: up ++ [e0])) with (e_node e :: (e_own e ++ blocks (up ++ [e0]))) in Hdup.
  apply NoDup_cons in Hdup as [Hn _]. apply Hn. rewrite E'. apply elem_of_app. by right.
Qed.

(** The middle of a round, behind the tokenizer. *)
Record in_round (w : list Z) (ws : list (list Z)) (x y top : Z) (st : list entry) (t : machine) (bs : list block) : Prop := {
  i_walking : walk_at (growth * Z.of_nat (length (w :: ws))) st t bs;
  i_top : top = top_of st;
  i_root : ∃ up, st = up ++ [e0];
  i_statics : statics (mem t);
  i_frame : ∀ a, Kept a → ¬ scratch a → ld8 (mem t) a = ld8 (mem s0) a;
  i_words : at_words P L ws y t;
  i_name : cstr (mem t) x w ∧ within P (L + 2) x ∧ x + Z.of_nat (length w) <= P + L;
}.

Lemma enter_round w ws x top st t bs :
  0 <= growth → at_round (w :: ws) x top st t bs →
  ∃ y t', bl_strtok NULL (bl_path_delimiter f) t = Some (y, t') ∧ in_round w ws x y top st t' bs.
Proof.
  intros Hg Hr. destruct (round_token w ws x top st t bs Hg Hr) as (y & t' & Hrun & Hy & Hx & Hxp & Hxl & Hw' & Hsame).
  destruct Hr as [Hw Htop Hroot Hst Hfr _].
  assert (Hsame' : ∀ a, Kept a → ¬ scratch a → ld8 (mem t') a = ld8 (mem t) a).
  { intros a Ha Hs. destruct (w_kept _ _ _ _ _ _ _ Hw a Ha) as [[Hr _] _]. apply Hsame; [done|]. intros H. apply Hs. by right. }
  exists y, t'. split; [done|]. split; try done; [by eapply statics_step|]. intros a Ha Hs. by rewrite Hsame', Hfr.
Qed.

(** Leaving a round: the heap and the stack have changed, the copy has not. *)
Lemma leave_round w ws x y top st st' t t' bs bs' :
  0 <= growth → in_round w ws x y top st t bs → walk_at (growth * Z.of_nat (length ws)) st' t' bs' → (∃ up, st' = up ++ [e0]) →
  (∀ a, Kept a → ¬ within (p_node f) 4 a → ld8 (mem t') a = ld8 (mem t) a) → bl_strtok_str t' = bl_strtok_str t →
  at_round ws y (top_of st') st' t' bs'.
Proof.
  intros Hg [Hw _ _ Hst Hfr Hy _] Hw' Hroot Hsame Htok.
  assert (Hsame' : ∀ a, Kept a → ¬ scratch a → ld8 (mem t') a = ld8 (mem t) a).
  { intros a Ha Hs. apply Hsame; [done|]. intros H. apply Hs. by left. }
  split; try done.
  - by eapply statics_step.
  - intros a Ha Hs. by rewrite Hsame', Hfr.
  - eapply at_words_same; [|exact Htok|exact Hy]. intros a Ha. apply Hsame; [apply Hscratch; right; unfold within; lia|].
    intros H. apply (Hnode a H). unfold within. lia.
Qed.

(** [..] *)
Lemma round_up_dir w ws x y top st t bs :
  0 <= growth → in_round w ws x y top st t bs →
  wp (if negb (top =? b_data (e_node e0)) then
        wr32 (p_node f) top;; prev ← rd32 (top + node_prev); close_node fs top;; continue (y, prev)
      else continue (y, top) : M ((Z * Z) + (Z * bl_status_t)))
    (λ o t', match o with
             | inl (x', top') => ∃ st' bs', at_round ws x' top' st' t' bs' ∧ (length st' <= length st)%nat ∧
                 files st' = match files st with _ :: (_ :: _) as up => up | _ => files st end
             | inr _ => False
             end) t.
Proof.
  intros Hg Hi. pose proof Hi as [Hw Htop [up Hst] Hstat Hfr Hy Hx]. rewrite Htop, (at_root _ _ _ _ _ Hw Hst).
  destruct up as [|e up]; cbn [app] in Hst; cbn [negb].
  - wp_step. exists st, bs. subst st. split; [|done]. eapply leave_round; [done|exact Hi| |by exists []|done|done].
    eapply walking_weaken; [|exact Hw]. cbn [length]. nia.
  - set (m1 := st_bytes (mem t) (p_node f) (le_split 4 (top_of st))).
    assert (Hk : ∀ a, within (p_node f) (Z.of_nat (length (le_split 4 (top_of st)))) a → Kept a).
    { intros a. rewrite length_le_split. intros Ha. apply Hscratch. by left. }
    pose proof (walking_write _ _ _ _ (p_node f) (le_split 4 (top_of st)) Hw ltac:(nia) ltac:(by rewrite length_le_split) Hk) as Hw1.
    fold m1 in Hw1. rewrite Hst in Hw1. pose proof (w_linked _ _ _ _ _ _ _ Hw1) as (_ & _ & Hprev & _).
    destruct (pop_node_run child file fs callback (p_node f) growth close_file base Kept _ _ _ _ _ Hw1 ltac:(nia))
      as (t2 & bs2 & Hrun & Hw2 & Hk2 & Htok & _).
    subst st. cbn [top_of] in *. wp_step. wp_step. change (st 4 (mem t) (p_node f) (b_data (e_node e))) with m1.
    wp_step. wp_step. rewrite mem_set_mem in *. rewrite Hprev. wp_known Hrun. wp_step.
    exists (up ++ [e0]), bs2. split; [|split].
    + eapply leave_round; [done|exact Hi| |by exists up| |exact Htok].
      * eapply walking_weaken; [|exact Hw2]. cbn [length]. nia.
      * intros a Ha Hn. rewrite Hk2 by done. unfold m1. destruct (w_kept _ _ _ _ _ _ _ Hw a Ha) as [[Hr _] _].
        apply ld8_st_bytes_out; rewrite ?length_le_split; [done|done|unfold within, outside in *; lia].
    + cbn [length]. lia.
    + by destruct up.
Qed.

(** A name: the callback's node becomes the current directory. *)
Definition open_next (name : Z) (directory : bool) (top y : Z) : M ((Z * Z) + (Z * bl_status_t)) :=
  fdata ← rd32 (top + node_fdata);
  status ← callback name directory fdata (p_node f);
  if failed status then break (top, status)
  else
    node ← rd32 (p_node f);
    wr32 (node + node_prev) top;;
    continue (y, node).

(** A node that was just opened, linked to the directory above. *)
Lemma push_linked g ns t bs s' bs' node d' z B' :
  0 <= g → walk_at (g + growth) ns t bs → heap_change t bs s' bs' [] (node :: B') growth (within (p_node f) 4) →
  NoDup (node :: B') → sizeof_tree_node <= b_size node → ld 4 (mem s') (b_data node + node_fdata) = d' →
  file (mem s') d' z B' → 0 <= top_of ns < 4294967296 →
  let t' := set_mem (st 4 (mem s') (b_data node + node_prev) (top_of ns)) s' in
  walk_at g (Entry node d' z B' :: ns) t' bs' ∧ ∀ a, Kept a → ¬ within (p_node f) 4 a → ld8 (mem t') a = ld8 (mem t) a.
Proof.
  intros Hg Hw Hch Hdup Hsz Hd Hfile Htop t'. pose proof (ch_inv _ _ _ _ _ _ _ _ Hch) as Hinv'.
  assert (Hch' : heap_change t bs t' bs' [] (node :: B') growth (within (p_node f) 4)).
  { apply (change_write_new t bs s' bs' [] (node :: B') growth _ node); [apply Hw|exact Hch|left|unfold node_prev; lia|].
    rewrite length_le_split. unfold node_prev, sizeof_tree_node, b_end in *. lia. }
  assert (Hnew : ∀ b, b ∈ node :: B' → in_use bs' b) by (intros b Hb; apply (ch_used _ _ _ _ _ _ _ _ Hch'); by right).
  destruct (in_use_space _ _ _ Hinv' (Hnew node ltac:(left))) as [H16 Hend].
  assert (Hnsp : in_space (b_data node + node_prev) 4) by (unfold in_space, node_prev, sizeof_tree_node, b_end in *; lia).
  apply NoDup_cons in Hdup as [Hnb Hdup]. split.
  - eapply (walking_change file base Kept); [exact Hw|exact Hch'|done|by intros ? ?%not_elem_of_nil| | |].
    + intros b. change (blocks (Entry node d' z B' :: ns)) with ((node :: B') ++ blocks ns). rewrite elem_of_app. split.
      * intros [?|?]; [by right|left; split; [done|apply not_elem_of_nil]].
      * intros [[? _]|?]; tauto.
    + change (blocks (Entry node d' z B' :: ns)) with ((node :: B') ++ blocks ns). apply NoDup_app. split; [by constructor|].
      split; [|apply Hw]. intros b Hb Hin. apply (ch_fresh _ _ _ _ _ _ _ _ Hch' b Hb). apply (w_used _ _ _ _ _ _ _ Hw). by right.
    + split; [done|]. unfold t' at 1 2 3. rewrite mem_set_mem.
      split; [|split; [|split]].
      * cbn [e_node e_data]. rewrite ld_st_other; [done|done|..]; unfold in_space, disjoint, node_fdata, node_prev in *; lia.
      * rewrite (ld_st_same 4) by done. by apply Z.mod_small.
      * eapply file_local; [|exact Hfile]. intros b a Hb Hin Ha. cbn [e_own] in Hb.
        destruct (in_use_space _ _ _ Hinv' (Hnew b ltac:(by right))). apply ld8_st_other; [done|lia|].
        assert (Hne : b ≠ node) by (intros ->; done).
        pose proof (in_use_apart s' bs' b node a Hinv' (Hnew b ltac:(by right)) (Hnew node ltac:(left)) Hne Hin) as Ho.
        apply outside_payload in Ho. unfold outside, node_prev, sizeof_tree_node in *. lia.
      * eapply (walking_linked child file fs callback (p_node f) growth close_file);
          [exact Hw|exact Hch'|by intros ? ?%not_elem_of_nil|done|by intros ? _ ?%not_elem_of_nil| |apply Hw].
        intros b a Hb Hin Ha. destruct (w_kept _ _ _ _ _ _ _ Hw a (Hscratch a (or_introl Ha))) as [_ Ho].
        specialize (Ho b Hb). unfold outside_slot, outside in Ho. lia.
  - intros a Ha Hn. eapply (walking_kept file base Kept); [exact Hw|exact Hch'|done|by intros ? ?%not_elem_of_nil|done|done].
Qed.

Lemma round_open w ws x y top e up t bs directory :
  in_round w ws x y top (e :: up) t bs →
  wp (open_next x directory top y)
    (λ o t', match o with
             | inl (x', top') => ∃ z st' bs', child (e_file e) w directory = Some z ∧ at_round ws x' top' st' t' bs' ∧
                 (length st' <= S (length (e :: up)))%nat ∧ files st' = z :: files (e :: up)
             | inr (top', status) => child (e_file e) w directory = None ∧ failed status = true ∧ top' = top_of (e :: up) ∧
                 (∃ bs', walk_at 0 (e :: up) t' bs') ∧ ∀ a, Kept a → ¬ scratch a → ld8 (mem t') a = ld8 (mem s0) a
             end) t.
Proof.
  intros Hi. pose proof (growth_nonneg : 0 <= growth) as Hg. pose proof Hi as [Hw -> [up0 Hroot] Hstat Hfr Hy (Hx & Hxp & Hxl)].
  set (g := growth * Z.of_nat (length ws)) in *.
  assert (Hg' : 0 <= g) by (unfold g; nia).
  assert (Hw' : walk_at (g + growth) (e :: up) t bs) by (eapply walking_weaken; [|exact Hw]; cbn [length]; unfold g; nia).
  pose proof Hw' as [Hinv Hused _ _ (Hsz & Hd & _ & Hfile & _) _ Hroom].
  destruct (in_use_space t bs (e_node e) Hinv ltac:(apply Hused; right; left)) as [H16 Hend].
  assert (Htop : 0 <= top_of (e :: up) < 4294967296) by (cbn [top_of]; unfold sizeof_tree_node, b_end in *; lia).
  unfold open_next. wp_step. wp_step. cbn [top_of] in *. rewrite Hd.
  assert (Hname : stable_region t bs (growth + 16) x (Z.of_nat (length w) + 1)).
  { eapply kept_region; [exact Hw'|lia|unfold in_space, within in *; lia|]. intros a Ha. apply Hscratch. right. unfold within in *. lia. }
  assert (Hnreg : stable_region t bs (growth + 16) (p_node f) 4).
  { eapply kept_region; [exact Hw'|lia|done|]. intros a Ha. apply Hscratch. by left. }
  assert (Hown : Forall (in_use bs) (e_own e)).
  { eapply (walking_in_use file base Kept); [exact Hw'|]. intros b Hb. right. apply elem_of_app. by left. }
  pose proof (callback_ok t bs x w directory (e_data e) (e_file e) (e_own e) Hinv Hx Hname Hfile Hown Hnreg ltac:(lia)) as Hcb.
  destruct (child (e_file e) w directory) as [z|] eqn:Hchild.
  - destruct Hcb as (s' & bs' & node & d' & B' & Hrun & Hch & Hdup & Hnsz & Hpn & Hnd & Hf').
    wp_known Hrun. change (failed BL_STATUS_SUCCESS) with false. cbv iota. wp_step. wp_step. rewrite Hpn. wp_step. wp_step. wp_step.
    destruct (push_linked g (e :: up) t bs s' bs' node d' z B' Hg' Hw' Hch Hdup Hnsz Hnd Hf' Htop) as [Hw2 Hk2].
    cbn [top_of] in Hw2, Hk2. exists z, (Entry node d' z B' :: e :: up), bs'. split; [done|]. split; [|done].
    refine (leave_round w ws x y _ _ (Entry node d' z B' :: e :: up) _ _ _ _ Hg Hi Hw2 _ Hk2 _); [|apply Hch].
    exists (Entry node d' z B' :: up0). by rewrite Hroot.
  - destruct Hcb as (status & s' & bs' & Hrun & Hfail & Hch). wp_known Hrun. rewrite Hfail. wp_step.
    assert (Hk : ∀ a, Kept a → ¬ within (p_node f) 4 a → ld8 (mem s') a = ld8 (mem t) a).
    { intros a Ha Hn. eapply (walking_kept file base Kept); [exact Hw'|exact Hch|done|by intros ? ?%not_elem_of_nil|done|done]. }
    split; [done|]. split; [done|]. split; [done|]. split.
    + exists bs'. apply (walking_weaken g); [done|].
      eapply (walking_change file base Kept); [exact Hw'|exact Hch|done|by intros ? ?%not_elem_of_nil| |apply Hw'|].
      * intros b. split; [intros Hb; left; split; [done|apply not_elem_of_nil]|intros [[? _]|?%not_elem_of_nil]; done].
      * eapply (walking_linked child file fs callback (p_node f) growth close_file);
          [exact Hw'|exact Hch|by intros ? ?%not_elem_of_nil|done|by intros ? _ ?%not_elem_of_nil| |apply Hw'].
        intros b a Hb Hin Ha. destruct (w_kept _ _ _ _ _ _ _ Hw' a (Hscratch a (or_introl Ha))) as [_ Ho].
        specialize (Ho b Hb). unfold outside_slot, outside in Ho. lia.
    + intros a Ha Hs. rewrite Hk, Hfr; [done|done|done|done|]. intros H. apply Hs. by left.
Qed.

Lemma last_name s : statics (mem s) → rds8 (path + L - 1) s = Some (s8 (default 0 (last l)), s).
Proof.
  intros ((_ & _ & _ & Hl & _) & _). unfold rds8, gets. do 3 f_equal.
  destruct (last l) as [c|] eqn:Hc; [|by apply last_None in Hc]. rewrite last_lookup in Hc.
  pose proof (Hl _ _ Hc) as E. cbn. rewrite <- E. f_equal. destruct l; [done|cbn; lia].
Qed.

Lemma last_slash : Forall (λ c, 0 < c < 256) l → (s8 (default 0 (last l)) =? 47) = trailing.
Proof.
  intros Hl. unfold trailing. destruct (last l) as [c|] eqn:Hc; [|by apply last_None in Hc].
  apply last_Some_elem_of in Hc. rewrite Forall_forall in Hl. specialize (Hl _ Hc). cbn. unfold s8, u8.
  repeat case_match; try lia; destruct (Z.eqb_spec c 47); try lia; Z.div_mod_to_equations; lia.
Qed.

Lemma compare_run s p q w v :
  cstr (mem s) p w → cstr (mem s) q v →
  ∃ n, bl_strcmp p q s = Some (n, s) ∧ truth n = bool_decide (w ≠ v).
Proof.
  intros Hw Hv. exists (str_diff id w v). split; [by apply bl_strcmp_run|].
  pose proof Hw as (_ & _ & Hwr & _). pose proof Hv as (_ & _ & Hvr & _).
  pose proof (str_diff_id_zero w v Hwr Hvr) as Hz. unfold truth. case_bool_decide as Hd.
  - destruct (Z.eqb_spec (str_diff id w v) 0); [|done]. exfalso. apply Hd. by apply Hz.
  - destruct (Z.eqb_spec (str_diff id w v) 0) as [|Hn]; [done|]. destruct Hn. apply Hz. by destruct (decide (w = v)).
Qed.

(** One round of the loop is one step of the walk. *)
Lemma walk_round_run w ws x top e up t bs :
  at_round (w :: ws) x top (e :: up) t bs →
  wp (iterate_component f fs path L (b_data (e_node e0)) callback (x, top))
    (λ o t', match o with
             | inl (x', top') => ∃ st' bs', at_round ws x' top' st' t' bs' ∧ (length st' <= S (length (e :: up)))%nat ∧
                 walk child trailing (files st') ws = walk child trailing (files (e :: up)) (w :: ws)
             | inr (top', status) => walk child trailing (files (e :: up)) (w :: ws) = (files (e :: up), false) ∧
                 failed status = true ∧ top' = top_of (e :: up) ∧ (∃ bs', walk_at 0 (e :: up) t' bs') ∧
                 ∀ a, Kept a → ¬ scratch a → ld8 (mem t') a = ld8 (mem s0) a
             end) t.
Proof.
  intros Hr. pose proof (growth_nonneg : 0 <= growth) as Hg. unfold iterate_component.
  rewrite (at_words_null _ _ _ _ _ (r_words _ _ _ _ _ _ Hr)). cbv iota.
  destruct (enter_round w ws x top (e :: up) t bs Hg Hr) as (y & t1 & Hrun1 & Hi). wp_known Hrun1.
  pose proof Hi as [Hw1 Htop Hroot Hstat1 Hfr1 Hy (Hx & _)]. wp_known (last_name t1 Hstat1).
  pose proof Hstat1 as (Hl & _ & Hdot & Hdd). rewrite last_slash by apply Hl.
  rewrite (at_words_null _ _ _ _ _ Hy).
  destruct (compare_run t1 x (bl_previous_directory f) w dotdot Hx Hdd) as (n1 & Hn1 & Hc1). wp_known Hn1. rewrite Hc1. clear Hc1.
  case_bool_decide as Hdd'; cbn [negb].
  2: { assert (w = dotdot) as Ew by (by destruct (decide (w = dotdot))).
    eapply wp_mono; [by apply (round_up_dir w ws x y top (e :: up) t1 bs Hg Hi)|]. intros [[x' top']|[??]] t'; [|done].
    intros (st' & bs' & Hr' & Hlen & Hfiles). exists st', bs'. split; [done|]. split; [lia|]. rewrite Hfiles. cbn [walk].
    by rewrite decide_True by done. }
  destruct (compare_run t1 x (bl_current_directory f) w dot Hx Hdot) as (n2 & Hn2 & Hc2).
  wp_known Hn2. rewrite Hc2. clear Hc2. case_bool_decide as Hd'.
  2: { assert (w = dot) as Ew by (by destruct (decide (w = dot))). wp_step. exists (e :: up), bs. split; [|split; [lia|]].
    - rewrite Htop. eapply leave_round; [done|exact Hi| |done|done|done]. eapply walking_weaken; [|exact Hw1]. cbn [length]. nia.
    - cbn [walk]. by rewrite decide_False, decide_True by done. }
  set (directory := negb (match ws with [] => true | _ => false end) || trailing).
  assert (Hdir : directory = match ws with [] => trailing | _ :: _ => true end) by (unfold directory; by destruct ws).
  eapply wp_mono; [exact (round_open w ws x y top e up t1 bs directory Hi)|]. intros [[x' top']|[top' status]] t'; cbn beta iota.
  - intros (z & st' & bs' & Hz & Hr' & Hlen & Hfiles). exists st', bs'. split; [done|]. split; [done|]. rewrite Hfiles.
    cbn [walk fmap list_fmap]. rewrite !decide_False by done. rewrite <- Hdir. by rewrite Hz.
  - intros (Hz & Hfail & Htop' & Hw' & Hfr'). split; [|done].
    cbn [walk fmap list_fmap]. rewrite !decide_False by done. rewrite <- Hdir. by rewrite Hz.
Qed.

Lemma loop_run ws x t bs :
  at_round ws x (b_data (e_node e0)) [e0] t bs → Z.of_nat (length ws) < 4294967295 →
  wp (mwhile (iterate_component f fs path L (b_data (e_node e0)) callback) (x, b_data (e_node e0)))
    (λ r t', ∃ e up bs', r.1 = top_of (e :: up) ∧ walk_at 0 (e :: up) t' bs' ∧ Z.of_nat (length up) < 4294967296 ∧
       (∀ a, Kept a → ¬ scratch a → ld8 (mem t') a = ld8 (mem s0) a) ∧
       walk child trailing [e_file e0] ws = (files (e :: up), negb (failed r.2)) ∧
       (failed r.2 = false → r.2 = BL_STATUS_SUCCESS)) t.
Proof.
  intros Hr Hlen.
  apply (wp_mwhile_ranked _ (λ n '(x', top') t', ∃ ws' e up bs', n = Z.of_nat (length ws') ∧ at_round ws' x' top' (e :: up) t' bs' ∧
    (length up + length ws' <= length ws)%nat ∧
    walk child trailing (files (e :: up)) ws' = walk child trailing [e_file e0] ws) _ (Z.of_nat (length ws))).
  - intros n [x' top'] t' (ws' & e & up & bs' & -> & Hr' & Hle & Hwalk). destruct ws' as [|w ws'].
    { pose proof Hr' as [Hw Htop _ _ Hfr Hx]. cbn in Hx. rewrite Hx. unfold iterate_component. change (is_null NULL) with true.
      cbv iota. wp_step. exists e, up, bs'. split; [done|]. split; [eapply walking_weaken; [|exact Hw]; cbn; lia|].
      cbn [length] in Hle. split; [lia|]. split; [done|]. split; [by rewrite <- Hwalk|done]. }
    eapply wp_mono; [by apply (walk_round_run w ws' x' top' e up t' bs')|]. intros [[x1 top1]|[top1 status]] t1.
    + intros (st' & bs1 & Hr1 & Hlen1 & Hwalk1). destruct (r_root _ _ _ _ _ _ Hr1) as [up1 Hst1].
      exists (Z.of_nat (length ws')). split; [cbn [length]; lia|]. destruct st' as [|e1 up2]; [by destruct up1|].
      exists ws', e1, up2, bs1. split; [done|]. split; [done|]. split; [cbn [length] in *; lia|]. by rewrite Hwalk1.
    + intros (Hwalk1 & Hfail & -> & (bs1 & Hw1) & Hfr1). exists e, up, bs1. cbn [fst snd]. rewrite Hfail.
      split; [done|]. split; [done|]. cbn [length] in Hle. split; [lia|]. split; [done|]. split; [by rewrite <- Hwalk|done].
  - exists ws, e0, [], bs. done.
  - unfold while_fuel. lia.
Qed.

(** Everything behind the copy of the path. *)
Lemma walk_run fdata t bs :
  walk_at (growth * Z.of_nat (length (words slash l))) [e0] t bs → statics (mem t) → pending P l (mem t) →
  (∀ a, Kept a → ¬ scratch a → ld8 (mem t) a = ld8 (mem s0) a) →
  in_space fdata 4 → (∀ a, within fdata 4 a → Kept a) → Z.of_nat (length (words slash l)) < 4294967295 →
  wp (filename ← bl_strtok P (bl_path_delimiter f);
      '(top, status) ← mwhile (iterate_component f fs path L (b_data (e_node e0)) callback) (filename, b_data (e_node e0));
      (if failed status then mret () else d ← rd32 (top + node_fdata); wr32 fdata d);;
      iterate_exit fs top P L status)
    (λ status t', ∃ e up bs', walk child trailing [e_file e0] (words slash l) = (e_file e :: up, negb (failed status)) ∧
       (failed status = false → status = BL_STATUS_SUCCESS ∧ ld 4 (mem t') fdata = e_data e) ∧
       file (mem t') (e_data e) (e_file e) (e_own e) ∧ heap_inv t' bs' ∧
       (∀ b, in_use bs' b ↔ (base b ∧ b ≠ copy) ∨ b ∈ e_own e) ∧
       ∀ a, Kept a → ¬ scratch a → ¬ within fdata 4 a → ld8 (mem t') a = ld8 (mem s0) a) t.
Proof.
  intros Hw Hstat Hpend Hfr Hfsp Hfd Hlen. pose proof (growth_nonneg : 0 <= growth) as Hg.
  destruct (token_run P L (bl_path_delimiter f) P P l t) as (x & q & m & Hrun & Hm & Hwords);
    [apply Hstat|done|split; [lia|left; lia]|by left|]. wp_known Hrun.
  destruct (walking_token _ _ _ _ q m Hw ltac:(nia) Hm) as [Hw1 Hsame1].
  assert (Hsame1' : ∀ a, Kept a → ¬ scratch a → ld8 m a = ld8 (mem t) a).
  { intros a Ha Hs. destruct (w_kept _ _ _ _ _ _ _ Hw a Ha) as [[Hr _] _]. apply Hsame1; [done|]. intros H. apply Hs. by right. }
  apply wp_bind. eapply wp_mono; [apply (loop_run (words slash l) x _ bs); [|done]|].
  { split; [done|done|by exists []|by apply (statics_step (mem t))| |done]. intros a Ha Hs.
    change (ld8 m a = ld8 (mem s0) a). by rewrite Hsame1', Hfr. }
  intros [top status] t2 (e & up & bs2 & Htop & Hw2 & Hup & Hfr2 & Hwalk & Hst). cbn [fst snd] in *.
  apply wp_bind.
  assert (Hstore : wp (if failed status then mret () else d ← rd32 (top + node_fdata); wr32 fdata d)
    (λ _ t3, walk_at 0 (e :: up) t3 bs2 ∧ (failed status = false → ld 4 (mem t3) fdata = e_data e) ∧
      ∀ a, Kept a → ¬ within fdata 4 a → ld8 (mem t3) a = ld8 (mem t2) a) t2).
  { destruct (failed status); [by wp_step|]. pose proof (w_linked _ _ _ _ _ _ _ Hw2) as (_ & Hd & _). rewrite Htop. cbn [top_of].
    wp_step. wp_step. rewrite Hd. wp_step. split; [|split].
    - apply (walking_write 0 (e :: up) t2 bs2 fdata (le_split 4 (e_data e)) Hw2); rewrite ?length_le_split; done.
    - intros _. match goal with |- ld 4 ?m _ = _ => change m with (st 4 (mem t2) fdata (e_data e)) end. rewrite (ld_st_same 4) by done. rewrite <- Hd. apply Z.mod_small, ld_range.
    - intros a Ha Hn. destruct (w_kept _ _ _ _ _ _ _ Hw2 a Ha) as [[Hr _] _].
      apply ld8_st_other; [done|done|unfold within, outside in *; lia]. }
  eapply wp_mono; [exact Hstore|]. intros [] t3 (Hw3 & Hd3 & Hsame3).
  destruct (exit_run fs callback (p_node f) growth close_file base Kept 0 e up copy L status t3 bs2 Hw3 ltac:(done) Hup Hcopy)
    as (s' & bs' & Hexit & Hinv' & Hused' & Hfile' & Hk'). rewrite Htop. apply wp_exact in Hexit.
  eapply wp_mono; [exact Hexit|]. intros r t4 [-> ->]. exists e, (files up), bs'. split; [exact Hwalk|]. split.
  { intros Hok. split; [by apply Hst|]. rewrite <- (Hd3 Hok). unfold ld. f_equal. apply ld_bytes_ext. intros i Hi.
    apply Hk', Hfd. unfold within. lia. }
  split; [done|]. split; [done|]. split; [done|]. intros a Ha Hs Hn. by rewrite Hk', Hsame3, Hfr2.
Qed.
End Loop.

Lemma words_from_length dl cur l : (length (words_from dl cur l) <= length l + match cur with [] => 0 | _ => 1 end)%nat.
Proof.
  revert cur. induction l as [|c l IH]; intros cur; cbn; [by destruct cur; cbn; lia|].
  destruct (is_delim dl c); [destruct cur|]; cbn; [specialize (IH []); cbn in IH; lia..|].
  specialize (IH (cur ++ [c])). destruct cur; cbn in *; lia.
Qed.
Lemma words_length dl l : (length (words dl l) <= length l)%nat.
Proof. pose proof (words_from_length dl [] l). unfold words. cbn in *. lia. Qed.

(** ** The copy of the path *)
Section Start.
Context {Node : Type} {child : Node → list Z → bool → option Node} {file : gmap Z Z → Z → Node → list block → Prop}.
Context (fs : bl_fs) (callback : callback_t) (growth : Z) (close_file : Z → M bl_status_t) (f : path_frame).
Context `{HT : !FileTree child file fs callback (p_node f) growth close_file}.
Context (path fdata : Z) (l : list Z) (e0 : @entry Node) (s : machine) (bs : list block).
#[local] Abbreviation L := (Z.of_nat (length l)).
#[local] Abbreviation ws := (words slash l).

(** How far the heap may grow: the copy, and a step for every name. *)
Definition walk_cost : Z := cost (L + 1) + 1 + growth * Z.of_nat (length ws).
(** The bytes outside of the heap that the walk reads and writes. *)
Definition cell (a : Z) : Prop := static_byte f path l a ∨ within (p_node f) 4 a ∨ within fdata 4 a.

(** The program when the walk begins: a heap with room, whose blocks in use
    hold the root's node and what the root owns; the strings and the two cells
    lie where the heap does not reach.  The copy of the path does not fill its
    last 16 bytes: the NUL behind it, which the tokenizer reads, is not the
    beginning of another block. *)
Record walk_start : Prop := {
  ws_heap : heap_inv s bs;
  ws_path : l ≠ [];
  ws_tail : (L + 1) mod 16 ≠ 0;
  ws_statics : statics f path l (mem s);
  ws_root : linked file (mem s) [e0];
  ws_own : Forall (in_use bs) (entry_blocks e0);
  ws_nodup : NoDup (entry_blocks e0);
  ws_cells : ∀ a, cell a → stable s bs (walk_cost + 16) a ∧ ∀ b, b ∈ entry_blocks e0 → outside_slot b a;
  ws_apart : ∀ a, static_byte f path l a → ¬ within (p_node f) 4 a;
  ws_spaces : in_space (p_node f) 4 ∧ in_space fdata 4;
  ws_room : heap_end s bs + walk_cost < 4294967296;
}.

Context (Hstart : walk_start).

(** The walk begins behind the allocation of the copy. *)
Definition walk_base (bs1 : list block) (b : block) : Prop := in_use bs1 b ∧ b ∉ entry_blocks e0.
Definition walk_kept (copy : block) (a : Z) : Prop :=
  (stable s bs (walk_cost + 16) a ∧ ∀ b, b ∈ entry_blocks e0 → outside_slot b a) ∨ within (b_data copy) (L + 2) a.

Lemma path_region : stable_region s bs (cost (L + 1) + 1) path (L + 1).
Proof.
  destruct Hstart as [_ _ _ ((Hp & Hend & _) & _) _ _ _ Hcells _ _ _]. split; [unfold in_space; lia|].
  intros x Hx. eapply stable_weaken; [|apply Hcells; left; left; unfold within; lia].
  pose proof (growth_nonneg : 0 <= growth). unfold walk_cost. nia.
Qed.

Lemma start_walking copy s1 bs1 :
  heap_change s bs s1 bs1 [] [copy] (cost (L + 1) + 1) (λ _, False) → b_data copy + (L + 1) < slot_end copy →
  b_data copy + (L + 1) < 4294967296 →
  walking file (walk_base bs1) (walk_kept copy) (growth * Z.of_nat (length ws)) [e0] s1 bs1 ∧
  (∀ a, stable s bs (walk_cost + 16) a → outside_slot copy a ∧ ld8 (mem s1) a = ld8 (mem s) a).
Proof.
  intros Hch Hslot Hsp. destruct Hstart as [Hinv _ _ _ Hroot Hown Hdup _ _ _ Hroom]. pose proof (growth_nonneg : 0 <= growth) as Hg.
  set (g := growth * Z.of_nat (length ws)). assert (Hg' : 0 <= g) by (unfold g; nia).
  assert (Hcost : walk_cost = cost (L + 1) + 1 + g) by done. assert (0 <= cost (L + 1)) by (unfold cost, sizeof_head; lia).
  assert (Hblocks : blocks [e0] = entry_blocks e0) by (unfold blocks; cbn; by rewrite app_nil_r).
  assert (Hown1 : ∀ b, b ∈ entry_blocks e0 → in_use bs1 b ∧ b ≠ copy).
  { rewrite Forall_forall in Hown. intros b Hb. split; [apply (ch_used _ _ _ _ _ _ _ _ Hch); left; split; [by apply Hown|apply not_elem_of_nil]|].
    intros ->. apply (ch_fresh _ _ _ _ _ _ _ _ Hch copy); [left|by apply Hown]. }
  assert (Hnone : ∀ a (b : block), b ∈ ([] : list block) → outside_slot b a) by (intros ? ? ?%not_elem_of_nil; done).
  split; [|intros a Ha; split].
  - split; rewrite ?Hblocks; try done.
    + apply Hch.
    + intros b. unfold walk_base. destruct (decide (b ∈ entry_blocks e0)) as [Hb|Hb]; [|tauto].
      split; [by right|]. intros _. by apply Hown1.
    + by intros b [_ Hb].
    + eapply (linked_local child file fs callback (p_node f) growth close_file); [rewrite Hblocks| |exact Hroot].
      * eapply Forall_impl; [exact Hown|]. intros b Hb. by eapply in_use_space.
      * rewrite Hblocks. intros b a Hb Hin Ha. rewrite Forall_forall in Hown.
        eapply change_slot; [exact Hch|done|done|by apply Hown|apply not_elem_of_nil|done|done|by intros []].
    + intros a [[Ha Ho]|Hin].
      * split; [|done]. eapply change_stable; [exact Hch|lia| |apply Hnone]. eapply stable_weaken; [|exact Ha]. lia.
      * assert (Hcopy1 : in_use bs1 copy) by (apply (ch_used _ _ _ _ _ _ _ _ Hch); right; left).
        unfold within in Hin. split; [eapply (slot_stable s1 bs1 _ copy); [apply Hch|done|lia|lia]|].
        intros b Hb. destruct (Hown1 b Hb) as [Hb1 Hne]. eapply (in_use_apart s1 bs1 copy b); [apply Hch|done|done|congruence|lia].
    + pose proof (ch_end _ _ _ _ _ _ _ _ Hch). lia.
  - eapply change_new_outside; [exact Hch|left| |apply Hnone]. eapply stable_weaken; [|exact Ha]. lia.
  - apply (ch_frame _ _ _ _ _ _ _ _ Hch); [eapply stable_weaken; [|exact Ha]; lia|apply Hnone|by intros []].
Qed.

(** What is left of the program behind the copy. *)
Lemma start_run copy s1 bs1 :
  heap_change s bs s1 bs1 [] [copy] (cost (L + 1) + 1) (λ _, False) → 0 < b_data copy →
  b_data copy + (L + 1) < slot_end copy → b_data copy + (L + 1) < 4294967296 →
  cstr (mem s1) (b_data copy) l → ld8 (mem s1) (b_data copy + (L + 1)) = 0 →
  wp (filename ← bl_strtok (b_data copy) (bl_path_delimiter f);
      '(top, status) ← mwhile (iterate_component f fs path L (b_data (e_node e0)) callback) (filename, b_data (e_node e0));
      (if failed status then mret () else d ← rd32 (top + node_fdata); wr32 fdata d);;
      iterate_exit fs top (b_data copy) L status)
    (λ status t', ∃ e up bs', walk child (trailing l) [e_file e0] ws = (e_file e :: up, negb (failed status)) ∧
       (failed status = false → status = BL_STATUS_SUCCESS ∧ ld 4 (mem t') fdata = e_data e) ∧
       file (mem t') (e_data e) (e_file e) (e_own e) ∧ heap_inv t' bs' ∧
       (∀ b, in_use bs' b ↔ (walk_base bs1 b ∧ b ≠ copy) ∨ b ∈ e_own e) ∧
       ∀ a, walk_kept copy a → ¬ scratch f l copy a → ¬ within fdata 4 a → ld8 (mem t') a = ld8 (mem s1) a) s1.
Proof.
  intros Hch Hpos Hslot Hsp Hcopy Hnul. pose proof Hstart as [_ Hl _ Hstat _ Hown _ Hcells Hapart [Hnsp Hfsp] _].
  pose proof Hstat as (Hpath & _). destruct (start_walking copy s1 bs1 Hch Hslot Hsp) as [Hw Hout].
  assert (Hcell : ∀ a, cell a → walk_kept copy a ∧ ¬ within (b_data copy) (L + 2) a).
  { intros a Ha. split; [left; by apply Hcells|]. destruct (Hcells a Ha) as [Hs _]. destruct (Hout a Hs) as [Ho _].
    unfold outside_slot, outside, within in *. lia. }
  assert (Hpend : pending (b_data copy) l (mem s1)).
  { split; [done|]. intros _. split; [lia|]. rewrite <- Hnul. f_equal. lia. }
  assert (Hstat1 : statics f path l (mem s1)).
  { eapply (statics_same f path l (mem s)); [|exact Hstat]. intros a Ha. apply Hout, Hcells. by left. }
  assert (Hbase : walk_base bs1 copy).
  { split; [apply (ch_used _ _ _ _ _ _ _ _ Hch); right; left|]. intros Hin. rewrite Forall_forall in Hown.
    by apply (ch_fresh _ _ _ _ _ _ _ _ Hch copy ltac:(left)), Hown. }
  assert (Hws : Z.of_nat (length (words slash l)) < 4294967295).
  { pose proof (words_length slash l). destruct Hpath as (? & ? & _). lia. }
  pose proof (walk_run fs callback growth close_file f (walk_base bs1) (walk_kept copy) path l copy e0 s1
    Hl Hbase ltac:(lia) ltac:(lia)) as Hrun.
  assert (Hst : ∀ a, static_byte f path l a → walk_kept copy a ∧ ¬ scratch f l copy a).
  { intros a Ha. destruct (Hcell a (or_introl Ha)) as [Hk Hn]. split; [done|]. intros [H|H]; [by apply (Hapart a Ha)|done]. }
  assert (Hscr : ∀ a, scratch f l copy a → walk_kept copy a).
  { intros a [Ha|Ha]; [apply Hcell; right; by left|by right]. }
  assert (Hnn : ∀ a, within (p_node f) 4 a → ¬ within (b_data copy) L a ∧ ¬ within (b_data copy) (L + 2) a).
  { intros a Ha. destruct (Hcell a ltac:(right; by left)) as [_ Hn]. split; [|done]. intros H. apply Hn. unfold within in *. lia. }
  exact (Hrun Hst Hscr (λ a Ha, proj2 (Hnn a Ha)) Hnsp fdata s1 bs1 Hw Hstat1 Hpend ltac:(done) Hfsp
    (λ a Ha, proj1 (Hcell a (or_intror (or_intror Ha)))) Hws).
Qed.
End Start.

(** ** Properties *)

(** C7: A path is followed name by name: with any file system that keeps the
    interface, [bl_file_iterate_path] ends with the directory that the walk of
    the path's names gives, [.] and [..] included (and [..] staying at the
    root); it succeeds exactly when every name was found, and then hands out
    the data of the last file, which stays open.  Of the blocks in use before,
    it has given up the root's node and what the root owned (unless the walk
    ended there); of the blocks it allocated, only the last file's are left:
    every other directory is closed, and every node and the copy of the path
    are freed.  (On failure the last directory stays open as well, although
    nobody gets its data.) *)
Theorem file_path_walk {Node : Type} {child : Node → list Z → bool → option Node}
    {file : gmap Z Z → Z → Node → list block → Prop} fs callback growth close_file f
    `{HT : !FileTree child file fs callback (p_node f) growth close_file} path fdata l e0 s bs :
  walk_start (file := file) growth f path fdata l e0 s bs →
  ∃ status s' e above bs',
    bl_file_iterate_path f (Some fs) path (b_data (e_node e0)) (Some callback) fdata s = Some (status, s') ∧
    walk child (trailing l) [e_file e0] (words slash l) = (e_file e :: above, negb (failed status)) ∧
    (failed status = false → status = BL_STATUS_SUCCESS ∧ ld 4 (mem s') fdata = e_data e) ∧
    file (mem s') (e_data e) (e_file e) (e_own e) ∧ heap_inv s' bs' ∧
    (∀ b, in_use bs' b ↔ (in_use bs b ∧ b ∉ entry_blocks e0) ∨ b ∈ e_own e) ∧
    ∀ a, stable s bs (walk_cost growth l + 16) a → (∀ b, b ∈ entry_blocks e0 → outside_slot b a) →
      ¬ within (p_node f) 4 a → ¬ within fdata 4 a → ld8 (mem s') a = ld8 (mem s) a.
Proof.
  intros Hstart. pose proof Hstart as [Hinv Hl Hmod Hstat Hroot Hown Hdup Hcells Hapart [Hnsp Hfsp] Hroom].
  pose proof Hstat as (Hpath & _). pose proof (growth_nonneg : 0 <= growth) as Hg.
  destruct (strdup_change s bs path l Hinv Hpath Hmod (path_region fs callback growth close_file f path fdata l e0 s bs Hstart))
    as (copy & s1 & bs1 & Hrun1 & Hch & Hpos & Hslot & Hsp & Hcopy & Hnul).
  { unfold walk_cost in Hroom. nia. }
  destruct (start_walking fs callback growth close_file f path fdata l e0 s bs Hstart copy s1 bs1 Hch Hslot Hsp) as [Hw Hout].
  pose proof (start_run fs callback growth close_file f path fdata l e0 s bs Hstart copy s1 bs1 Hch Hpos Hslot Hsp Hcopy Hnul) as Hrun.
  apply wp_run in Hrun as (status & s' & Hrun & e & above & bs' & Hwalk & Hok & Hfile & Hinv' & Hused & Hfr).
  exists status, s', e, above, bs'. split; [|split; [done|split; [done|split; [done|split; [done|split]]]]].
  - unfold bl_file_iterate_path. rewrite (cstr_pos _ _ _ Hpath).
    rewrite (top_not_null file _ _ _ e0 [] s1 bs1 Hw). cbn [orb].
    run_with (bl_strlen_run _ _ _ Hpath). rewrite (bind_run _ _ (b_data copy) _ s1) by (by rewrite strndup_whole).
    unfold is_null. destruct (Z.eqb_spec (b_data copy) 0); [lia|]. exact Hrun.
  - intros b. rewrite Hused. unfold walk_base. rewrite (ch_used _ _ _ _ _ _ _ _ Hch), list_elem_of_singleton. split.
    + intros [[[[[? _]| ->] ?] ?]|?]; [by left; split|done|by right].
    + intros [[? ?]|?]; [|by right]. left. split; [split; [left; split; [done|apply not_elem_of_nil]|done]|].
      intros ->. by apply (ch_fresh _ _ _ _ _ _ _ _ Hch copy ltac:(left)).
  - intros a Ha Ho Hn1 Hn2. destruct (Hout a Ha) as [Hoc Hs1]. rewrite Hfr; [done|by left| |done].
    intros [H|H]; [done|]. unfold outside_slot, outside, within in *. lia.
Qed.

(** ** A small file system: files are numbers in blocks of their own, and every
    name but those that begin with [n] leads somewhere *)
Definition toy_child (x : Z) (w : list Z) (_ : bool) : option Z :=
  if hd 0 w =? 110 then None else Some (u32 (x + hd 0 w)).
Definition toy_file (m : gmap Z Z) (d x : Z) (B : list block) : Prop :=
  ∃ b, B = [b] ∧ d = b_data b ∧ 0 < b_data b ∧ 4 <= b_size b ∧ b_end b <= 4294967296 ∧ ld 4 m d = x.
Definition toy_close (d : Z) : M bl_status_t := bl_heap_free d 4;; mret BL_STATUS_SUCCESS.
Definition toy_callback : callback_t := λ name _ d p_node,
  c ← rd8 name;
  if c =? 110 then mret BL_STATUS_FAILURE
  else
    x ← rd32 d;
    node ← bl_heap_alloc sizeof_tree_node;
    data ← bl_heap_alloc 4;
    wr32 data (u32 (x + c));;
    wr32 (node + node_fdata) data;;
    wr32 p_node node;;
    mret BL_STATUS_SUCCESS.
Definition toy_fs : bl_fs := Fs 0x9000 None None None (Some toy_close) None.
Definition toy_growth : Z := cost sizeof_tree_node + cost 4.

Lemma hd_read m p w : cstr m p w → ld8 m p = hd 0 w.
Proof.
  intros H. destruct w as [|c w]; [by apply cstr_nil|]. by apply cstr_cons in H as (-> & _).
Qed.

(** The two blocks of a new node. *)
Lemma toy_alloc s bs :
  heap_inv s bs → heap_end s bs + toy_growth < 4294967296 →
  ∃ s1 s2 bs2 node b, bl_heap_alloc sizeof_tree_node s = Some (b_data node, s1) ∧ bl_heap_alloc 4 s1 = Some (b_data b, s2) ∧
    heap_change s bs s2 bs2 [] [node; b] toy_growth (λ _, False) ∧ node ≠ b ∧ sizeof_tree_node <= b_size node ∧ 4 <= b_size b.
Proof.
  intros Hinv Hroom. unfold toy_growth, cost, sizeof_head, sizeof_tree_node in Hroom.
  destruct (alloc_change s bs sizeof_tree_node Hinv) as (node & bs1 & s1 & Hrun1 & Hch1 & Hn & _);
    [done|unfold room, sizeof_head, sizeof_tree_node; lia|].
  pose proof (ch_end _ _ _ _ _ _ _ _ Hch1) as [_ He]. unfold cost, sizeof_head, sizeof_tree_node in He.
  destruct (alloc_change s1 bs1 4 (ch_inv _ _ _ _ _ _ _ _ Hch1)) as (b & bs2 & s2 & Hrun2 & Hch2 & Hb & _);
    [done|unfold room, sizeof_head; lia|].
  exists s1, s2, bs2, node, b. split; [done|]. split; [done|]. split; [|split; [|done]].
  - apply (change_new s bs s1 bs1 s2 bs2 [node] [b]); [by vm_compute|by vm_compute|exact Hch1|exact Hch2].
  - intros ->. apply (ch_fresh _ _ _ _ _ _ _ _ Hch2 b ltac:(left)), (ch_used _ _ _ _ _ _ _ _ Hch1). right. left.
Qed.

(** The addresses of the two blocks and of [p_node]. *)
Lemma toy_space s bs s2 bs2 node b p :
  heap_change s bs s2 bs2 [] [node; b] toy_growth (λ _, False) → node ≠ b → 4 <= b_size b → 8 <= b_size node →
  stable_region s bs (toy_growth + 16) p 4 →
  Forall (λ c, 16 < b_data c ∧ b_end c <= 4294967296 ∧ disjoint p 4 (b_data c) 4) [node; b] ∧
  disjoint (b_data node) 4 (b_data b) 4 ∧ stable_region s2 bs2 0 p 4.
Proof.
  intros Hch Hne Hb Hn [Hsp Hp]. pose proof (ch_inv _ _ _ _ _ _ _ _ Hch) as Hinv.
  assert (Hin : ∀ c, c ∈ [node; b] → in_use bs2 c) by (intros c Hc; apply (ch_used _ _ _ _ _ _ _ _ Hch); by right).
  assert (Hout : ∀ c x, c ∈ [node; b] → p <= x < p + 4 → outside (b_data c) (b_size c) x).
  { intros c x Hc Hx. apply outside_payload. eapply change_new_outside; [exact Hch|done|by apply Hp|by intros ? ?%not_elem_of_nil]. }
  assert (Hdis : ∀ c, c ∈ [node; b] → 4 <= b_size c → disjoint p 4 (b_data c) 4).
  { intros c Hc Hc4. pose proof (Hout c p Hc ltac:(lia)). pose proof (Hout c (p + 3) Hc ltac:(lia)). unfold disjoint, outside in *. lia. }
  split; [|split].
  - repeat apply Forall_cons_2; [..|apply Forall_nil_2].
    + destruct (in_use_space s2 bs2 node Hinv (Hin _ ltac:(left))). split_and!; [done|done|apply Hdis; [left|lia]].
    + destruct (in_use_space s2 bs2 b Hinv (Hin _ ltac:(right; left))). split_and!; [done|done|apply Hdis; [right; left|lia]].
  - destruct (laid_out_disjoint _ node b (heap_inv_laid_out _ _ Hinv)) as [|[?|?]]; [apply Hin; left|apply Hin; right; left|done|..];
      unfold disjoint, b_end, b_data, sizeof_head in *; lia.
  - split; [done|]. intros x Hx. eapply change_stable; [exact Hch|done| |by intros ? ?%not_elem_of_nil].
    eapply stable_weaken; [|by apply Hp]. lia.
Qed.

Lemma toy_open s bs name w directory d x B p :
  heap_inv s bs → cstr (mem s) name w → toy_file (mem s) d x B → stable_region s bs (toy_growth + 16) p 4 →
  heap_end s bs + toy_growth < 4294967296 → hd 0 w ≠ 110 →
  ∃ s' bs' node b, toy_callback name directory d p s = Some (BL_STATUS_SUCCESS, s') ∧
    heap_change s bs s' bs' [] [node; b] toy_growth (within p 4) ∧ NoDup [node; b] ∧ sizeof_tree_node <= b_size node ∧
    ld 4 (mem s') p = b_data node ∧ ld 4 (mem s') (b_data node + node_fdata) = b_data b ∧
    toy_file (mem s') (b_data b) (u32 (x + hd 0 w)) [b].
Proof.
  intros Hinv Hname (b0 & _ & -> & _ & _ & _ & Hx) Hp Hroom Hc.
  destruct (toy_alloc s bs Hinv Hroom) as (s1 & s2 & bs2 & node & b & Hrun1 & Hrun2 & Hch & Hne & Hn & Hb).
  unfold sizeof_tree_node in Hn.
  destruct (toy_space s bs s2 bs2 node b p Hch Hne Hb Hn Hp) as (Hsp & Hdis & Hp2).
  apply Forall_cons in Hsp as [(Hn1 & Hn2 & Hnd) [(Hb1 & Hb2 & Hbd) _]%Forall_cons]. destruct Hp as [Hpsp _].
  assert (Hch' : heap_change s bs s2 bs2 [] [node; b] toy_growth (within p 4)).
  { destruct Hch as [C1 C2 C3 C4 C5 C6 C7]. split; try done. intros a Ha Ho _. by apply C7; [| |intros []]. }
  set (v := u32 (x + hd 0 w)).
  pose proof (change_write_new _ _ _ _ _ _ _ _ b (b_data b) (le_split 4 v) Hinv Hch' ltac:(right; left) ltac:(lia)
    ltac:(rewrite length_le_split; unfold b_end; lia)) as Hch3. set (s3 := set_mem _ s2) in Hch3.
  pose proof (change_write_new _ _ _ _ _ _ _ _ node (b_data node) (le_split 4 (b_data b)) Hinv Hch3 ltac:(left) ltac:(lia)
    ltac:(rewrite length_le_split; unfold b_end; lia)) as Hch4. set (s4 := set_mem _ s3) in Hch4.
  assert (Hreg4 : stable_region s4 bs2 0 p (Z.of_nat (length (le_split 4 (b_data node))))) by (rewrite length_le_split; exact Hp2).
  pose proof (change_write_in _ _ _ _ _ _ _ _ p (le_split 4 (b_data node)) Hch4 Hreg4
    ltac:(by rewrite length_le_split)) as Hch5. set (s5 := set_mem _ s4) in Hch5.
  assert (Hm : mem s5 = st 4 (st 4 (st 4 (mem s2) (b_data b) v) (b_data node) (b_data b)) p (b_data node)) by done.
  assert (Hspaces : in_space (b_data b) 4 ∧ in_space (b_data node) 4) by (unfold in_space, b_end in *; lia).
  destruct Hspaces as [Hbsp Hnsp].
  assert (Hdis' : disjoint (b_data b) 4 (b_data node) 4) by (unfold disjoint in *; lia).
  exists s5, bs2, node, b. split; [|split; [exact Hch5|split; [|split; [done|split; [|split]]]]].
  - unfold toy_callback. apply wp_exact. wp_step. wp_step. rewrite (hd_read _ _ _ Hname).
    destruct (Z.eqb_spec (hd 0 w) 110); [done|]. wp_step. wp_step. rewrite Hx. wp_known Hrun1. wp_known Hrun2.
    fold v. unfold node_fdata. rewrite Z.add_0_r. wp_steps. done.
  - apply NoDup_cons. split; [by intros ->%list_elem_of_singleton|apply NoDup_singleton].
  - rewrite Hm, (ld_st_same 4) by done. apply Z.mod_small. unfold in_space in Hnsp. lia.
  - unfold node_fdata. rewrite Z.add_0_r, Hm, ld_st_other, (ld_st_same 4) by done. apply Z.mod_small. unfold in_space in Hbsp. lia.
  - exists b. split; [done|]. split; [done|]. split; [lia|]. split; [done|]. split; [done|].
    rewrite Hm, !ld_st_other, (ld_st_same 4) by done. apply Z.mod_small. unfold v. apply u32_range.
Qed.

#[export] Instance toy_tree p : FileTree toy_child toy_file toy_fs toy_callback p toy_growth toy_close.
Proof.
  split; [done|by vm_compute| | |].
  - intros m m' d x B Hsame (b & -> & -> & Hpos & Hsz & Hend & Hx). exists b. do 5 (split; [done|]). rewrite <- Hx.
    unfold ld. f_equal. apply ld_bytes_ext. intros i Hi. pose proof (slot_bounds b).
    apply (Hsame b); [left|unfold b_end in *; lia|unfold b_end in *; lia].
  - intros s bs d x B Hinv (b & -> & -> & _) [Hb _]%Forall_cons.
    destruct (free_change s bs b 4 Hinv Hb) as (s' & bs' & Hrun & Hch & _). exists BL_STATUS_SUCCESS, s', bs'.
    split; [|done]. unfold toy_close. by run_with Hrun.
  - intros s bs name w directory d x B Hinv Hname _ Hfile _ Hp Hroom. unfold toy_child. destruct (Z.eqb_spec (hd 0 w) 110) as [E|E].
    + exists BL_STATUS_FAILURE, s, bs. split; [|split; [done|]].
      * unfold toy_callback. apply wp_exact. wp_step. wp_step. rewrite (hd_read _ _ _ Hname), E.
        change (110 =? 110) with true. cbv iota. by wp_step.
      * split; try done; [unfold toy_growth, cost, sizeof_head, sizeof_tree_node; lia| |by intros ? ?%not_elem_of_nil].
        intros b. split; [intros H; left; split; [done|apply not_elem_of_nil]|intros [[? _]|?%not_elem_of_nil]; done].
    + destruct (toy_open s bs name w directory d x B p Hinv Hname Hfile Hp Hroom E)
        as (s' & bs' & node & b & Hrun & Hch & Hdup & Hn & Hpn & Hnd & Hf). by exists s', bs', node, (b_data b), [b].
Qed.

(** The root is the number 7; the path is [/b/../c/./d]. *)
Definition toy_path : list Z := [47; 98; 47; 46; 46; 47; 99; 47; 46; 47; 100].
Definition toy_frame : path_frame := PathFrame 0x2030 0x2000 0x2010 0x2020.
Definition toy_root : @entry Z := Entry (Block 0x100000 8 true) 0x100030 7 [Block 0x100020 4 true].
Definition toy_heap : machine := final (bl_heap_alloc 8;; bl_heap_alloc 4) heap_empty.
Definition toy_start : machine :=
  set_mem (foldr (λ p m, st_bytes m p.1 p.2) (mem toy_heap)
    [(0x100010, le_split 4 0x100030 ++ le_split 4 0); (0x100030, le_split 4 7); (0x1000, toy_path ++ [0]);
     (0x2000, slash ++ [0]); (0x2010, dot ++ [0]); (0x2020, dotdot ++ [0])]) toy_heap.
Definition toy_blocks : list block := [Block 0x100000 8 true; Block 0x100020 4 true].

Lemma toy_started : walk_start (file := toy_file) toy_growth toy_frame 0x1000 0x2040 toy_path toy_root toy_start toy_blocks.
Proof.
  assert (Hcell : ∀ a, cell toy_frame 0x1000 0x2040 toy_path a → 0x1000 <= a < 0x2044).
  { intros a. unfold cell, static_byte, within. change (Z.of_nat (length toy_path)) with 11. cbn [p_node bl_path_delimiter bl_current_directory bl_previous_directory toy_frame]. lia. }
  assert (Hlow : ∀ a, 0x1000 <= a < 0x2044 → stable toy_start toy_blocks (walk_cost toy_growth toy_path + 16) a ∧
    ∀ b, b ∈ entry_blocks toy_root → outside_slot b a).
  { intros a Ha. split; [split; [lia|left; change (bl_heap toy_start) with 0x100000; lia]|].
    intros b Hb. apply list_elem_of_In in Hb. destruct Hb as [<-|[<-|[]]]; left; unfold b_data, sizeof_head; cbn [b_head e_node]; cbn; lia. }
  split.
  - closed.
  - done.
  - by vm_compute.
  - split; [|split; [|split]]; apply cstr_here_ok; by vm_compute.
  - split; [by vm_compute|]. split; [by vm_compute|]. split; [by vm_compute|]. split; [|done].
    exists (Block 0x100020 4 true). split; [done|]. split; [done|]. split; [by vm_compute|]. split; [done|]. split; [by vm_compute|by vm_compute].
  - apply Forall_forall. intros b Hb. apply list_elem_of_In in Hb.
    destruct Hb as [<-|[<-|[]]]; (split; [|done]); apply list_elem_of_In; cbn; tauto.
  - apply NoDup_cons. split; [|apply NoDup_singleton]. by intros ?%list_elem_of_singleton.
  - intros a Ha. by apply Hlow, Hcell.
  - intros a Ha. unfold static_byte, within in *. change (Z.of_nat (length toy_path)) with 11 in Ha.
    cbn [p_node bl_path_delimiter bl_current_directory bl_previous_directory toy_frame] in *. lia.
  - split; by vm_compute.
  - by vm_compute.
Qed.

Lemma file_path_walk_witness :
  ∃ status s' e above bs',
    bl_file_iterate_path toy_frame (Some toy_fs) 0x1000 0x100010 (Some toy_callback) 0x2040 toy_start = Some (status, s') ∧
    ([206; 106; 7], true) = (e_file e :: above, negb (failed status)) ∧
    (failed status = false → status = BL_STATUS_SUCCESS ∧ ld 4 (mem s') 0x2040 = e_data e) ∧
    toy_file (mem s') (e_data e) (e_file e) (e_own e) ∧ heap_inv s' bs' ∧
    (∀ b, in_use bs' b ↔ (in_use toy_blocks b ∧ b ∉ entry_blocks toy_root) ∨ b ∈ e_own e) ∧
    ∀ a, stable toy_start toy_blocks (walk_cost toy_growth toy_path + 16) a → (∀ b, b ∈ entry_blocks toy_root → outside_slot b a) →
      ¬ within 0x2030 4 a → ¬ within 0x2040 4 a → ld8 (mem s') a = ld8 (mem toy_start) a.
Proof.
  apply (file_path_walk (child := toy_child) (file := toy_file) toy_fs toy_callback toy_growth toy_close toy_frame
    0x1000 0x2040 toy_path toy_root toy_start toy_blocks toy_started).
Defined.
