(* ===== verification/Symbols.v ===== *)
(** * Exported symbols: core/loader/symbols.c, include/export.h

    [bl_symbols_find] has two versions: a scan of the table the linker collects
    in the BIOS executable, and a look-up in the ELF hash table of the UEFI
    shared library. *)
From S2P Require Import Prelude Memory Arith Status Strings.

(** [struct bl_export_symbol] and [bl_export_t]. *)
Definition sizeof_export_symbol : Z := 12.
Definition ex_address : Z := 0.
Definition ex_type : Z := 4.
Definition ex_name : Z := 8.
Definition BL_EXPORT_TYPE_UNKNOWN : Z := 4294967295.
Definition BL_EXPORT_TYPE_FUNC : Z := 0.
Definition BL_EXPORT_TYPE_VAR : Z := 1.

Definition BL_MODULE_MAX_NAME_LEN : Z := 64.

(** ** BL_EXECUTABLE: [tab] and [fin] are the bounds of the symbol table,
    [_exsymbol] the address of the static result. *)
Definition bl_symbols_find (tab fin _exsymbol name exsymbol : Z) : M bl_status_t :=
  if is_null name || is_null exsymbol then mret BL_STATUS_INVALID_PARAMETERS
  else
    wr32 exsymbol NULL;;
    mwhile (λ i,
      let sym := u32 (tab + sizeof_export_symbol * i) in
      if negb (sym =? fin) then
        p ← rd32 (sym + ex_name);
        c ← bl_strncmp p name BL_MODULE_MAX_NAME_LEN;
        if c =? 0 then
          bl_memcpy _exsymbol sym sizeof_export_symbol;;
          wr32 exsymbol _exsymbol;;
          break BL_STATUS_SUCCESS
        else continue (i + 1)
      else break BL_STATUS_UNKNOWN_SYMBOL) 0.

(** ** BL_SHARED_LIBRARY *)
Definition hash_step (h c : Z) : Z :=
  let h := u32 (Z.shiftl h 4 + c) in
  let g := Z.land h 0xf0000000 in
  let h := if truth g then Z.lxor h (Z.shiftr g 24) else h in
  Z.land h (not32 g).

Definition bl_symbols_elf_hash (name : Z) : M Z :=
  mwhile (λ '(i, h),
    c ← rd8 (name + i);
    if truth c then continue (i + 1, hash_step h c) else break h) (0, 0).

(** [Elf32_Sym] (include/elf/elf32.h). *)
Definition sizeof_Elf32_Sym : Z := 16.
Definition st_name : Z := 0.
Definition st_value : Z := 4.
Definition st_size : Z := 8.
Definition st_info : Z := 12.
Definition st_shndx : Z := 14.
Definition ELF32_ST_TYPE (val : Z) : Z := Z.land val 15.
Definition ELF32_ST_INFO (bind type : Z) : Z := u8 (Z.shiftl bind 4 + Z.land type 15).
Definition STT_NOTYPE : Z := 0.
Definition STT_OBJECT : Z := 1.
Definition STT_FUNC : Z := 2.
Definition STT_SECTION : Z := 3.
Definition STT_FILE : Z := 4.

(** The sections of the image: [__bl_hash_start], [__bl_dynsym_start] and
    [__bl_dynstr_start]. *)
Record dynamic_image := DynamicImage { hash_start : Z; dynsym_start : Z; dynstr_start : Z }.

(** [struct bl_elf_hash_table]: [nbucket], [nchain], then the two arrays. *)
Definition hash_info (hash_table i : Z) : M Z := rd32 (hash_table + 8 + 4 * i).

Definition bl_symbols_elf_find_symbol (img : dynamic_image) (name : Z) : M Z :=
  let hash_table := hash_start img in
  nbucket ← rd32 hash_table;
  h ← bl_symbols_elf_hash name;
  if nbucket =? 0 then diverge  (* division by zero *)
  else
    bucket ← hash_info hash_table (h mod nbucket);
    mwhile (λ i,
      if truth i then
        n ← rd32 (dynsym_start img + sizeof_Elf32_Sym * i + st_name);
        c ← bl_strcmp (u32 (dynstr_start img + n)) name;
        if negb (truth c) then break (u32 (dynsym_start img + sizeof_Elf32_Sym * i))
        else
          next ← hash_info hash_table (u32 (i + nbucket));
          continue next
      else break NULL) bucket.

Definition bl_symbols_find_dynamic (img : dynamic_image) (_exsymbol name exsymbol : Z) : M bl_status_t :=
  if is_null name || is_null exsymbol then mret BL_STATUS_INVALID_PARAMETERS
  else
    wr32 exsymbol NULL;;
    elfsymbol ← bl_symbols_elf_find_symbol img name;
    if is_null elfsymbol then mret BL_STATUS_UNKNOWN_SYMBOL
    else
      bl_memset _exsymbol 0 sizeof_export_symbol;;
      value ← rd32 (elfsymbol + st_value);
      wr32 (_exsymbol + ex_address) value;;
      info ← rd8 (elfsymbol + st_info);
      let type := ELF32_ST_TYPE info in
      if negb ((type =? STT_FUNC) || (type =? STT_OBJECT)) then mret BL_STATUS_UNKNOWN_SYMBOL
      else
        wr32 (_exsymbol + ex_type)
          (if type =? STT_FUNC then BL_EXPORT_TYPE_FUNC else BL_EXPORT_TYPE_VAR);;
        n ← rd32 (elfsymbol + st_name);
        wr32 (_exsymbol + ex_name) (dynstr_start img + n);;
        wr32 exsymbol _exsymbol;;
        mret BL_STATUS_SUCCESS.
