(* ===== verification/SymbolsProofs.v ===== *)
(** * Proofs about the exported symbols of the BIOS executable. *)
From S2P Require Import Prelude Memory Arith Status Strings StringsProofs Symbols.

(** ** The table *)
Definition symbol_at (tab i : Z) : Z := tab + sizeof_export_symbol * i.
Definition symbol_name (m : gmap Z Z) (tab i : Z) : Z := ld 4 m (symbol_at tab i + ex_name).

(** [k] entries at [tab] with the names [names]. *)
Record symbol_table (m : gmap Z Z) (tab k : Z) (names : Z → list Z) : Prop := SymbolTable {
  sy_room : 0 < tab ∧ 0 <= k ∧ tab + sizeof_export_symbol * k < 4294967296;
  sy_names i : 0 <= i < k → cstr m (symbol_name m tab i) (names i);
}.

(** Names are compared up to their maximal length. *)
Definition name_prefix (l : list Z) : list Z := take (Z.to_nat BL_MODULE_MAX_NAME_LEN) l.
Definition same_name (names : Z → list Z) (l : list Z) (i : Z) : bool :=
  bool_decide (name_prefix (names i) = name_prefix l).

(** Storing 4 bytes at [a] does not touch the table or the names. *)
Record symbols_apart (m : gmap Z Z) (a tab k : Z) (names : Z → list Z) (name : Z) (l : list Z) : Prop := SymbolsApart {
  sa_space : in_space a 4;
  sa_table : disjoint a 4 tab (sizeof_export_symbol * k);
  sa_names i : 0 <= i < k → disjoint a 4 (symbol_name m tab i) (Z.of_nat (length (names i)) + 1);
  sa_name : disjoint a 4 name (Z.of_nat (length l) + 1);
}.

Lemma cstr_st4 m a v p l :
  in_space a 4 → disjoint a 4 p (Z.of_nat (length l) + 1) → cstr m p l → cstr (st 4 m a v) p l.
Proof.
  intros Ha Hd Hs. pose proof Hs as (Hp & Hend & _). revert Hs. apply cstr_ext. intros i Hi. symmetry.
  apply ld8_st_other; [done|lia|]. unfold disjoint, outside in *. simpl. lia.
Qed.

Lemma symbol_table_st m a v tab k names name l :
  symbols_apart m a tab k names name l → symbol_table m tab k names →
  symbol_table (st 4 m a v) tab k names ∧
  ∀ i, 0 <= i < k → symbol_name (st 4 m a v) tab i = symbol_name m tab i.
Proof.
  intros [Ha Ht Hn _] [Hroom Hnames]. unfold sizeof_export_symbol in *.
  assert (E : ∀ i, 0 <= i < k → symbol_name (st 4 m a v) tab i = symbol_name m tab i).
  { intros i Hi. unfold symbol_name, symbol_at, ex_name, sizeof_export_symbol.
    apply ld_st_other; [done|unfold in_space; simpl; lia|unfold disjoint in *; simpl; lia]. }
  split; [|done]. split; [done|]. intros i Hi. rewrite E by done. apply cstr_st4; [done|by apply Hn|by apply Hnames].
Qed.

(** One comparison. *)
Lemma name_compare_run s p q l1 l2 :
  cstr (mem s) p l1 → cstr (mem s) q l2 →
  ∃ r, bl_strncmp p q BL_MODULE_MAX_NAME_LEN s = Some (r, s) ∧
    (r =? 0) = bool_decide (name_prefix l1 = name_prefix l2).
Proof.
  intros H1 H2. eexists. split; [by apply bl_strncmp_run|].
  assert (Hf : ∀ l, cstr (mem s) p l ∨ cstr (mem s) q l → Forall (λ c, 0 < c < 256) (name_prefix l)).
  { intros l Hl. apply Forall_take. by destruct Hl as [(_ & _ & ? & _)|(_ & _ & ? & _)]. }
  pose proof (str_diff_id_zero (name_prefix l1) (name_prefix l2) ltac:(apply Hf; by left) ltac:(apply Hf; by right)) as E.
  unfold name_prefix in *. destruct (Z.eqb_spec (str_diff id (take (Z.to_nat BL_MODULE_MAX_NAME_LEN) l1)
    (take (Z.to_nat BL_MODULE_MAX_NAME_LEN) l2)) 0) as [E0|E0].
  - symmetry. apply bool_decide_true. by apply E.
  - symmetry. apply bool_decide_false. intros H. by apply E0, E.
Qed.

(** The state after the search, from a memory in which [exsymbol] is NULL. *)
Definition symbol_result (tab _exsymbol exsymbol : Z) (m : gmap Z Z) (o : option Z) : gmap Z Z :=
  match o with
  | Some i => st 4 (st_bytes m _exsymbol (ld_bytes m (symbol_at tab i) 12)) exsymbol _exsymbol
  | None => m
  end.

Definition search_loop (tab fin _exsymbol name exsymbol : Z) : M bl_status_t :=
  mwhile (λ i,
    let sym := u32 (tab + sizeof_export_symbol * i) in
    if negb (sym =? fin) then
      p ← rd32 (sym + ex_name);
      c ← bl_strncmp p name BL_MODULE_MAX_NAME_LEN;
      if c =? 0 then
        bl_memcpy _exsymbol sym sizeof_export_symbol;;
        wr32 exsymbol _exsymbol;;
        break BL_STATUS_SUCCESS
      else continue (i + 1)
    else break BL_STATUS_UNKNOWN_SYMBOL) 0.

Lemma bl_symbols_find_eq tab fin _exsymbol name exsymbol :
  bl_symbols_find tab fin _exsymbol name exsymbol =
  if is_null name || is_null exsymbol then mret BL_STATUS_INVALID_PARAMETERS
  else wr32 exsymbol NULL;; search_loop tab fin _exsymbol name exsymbol.
Proof. unfold bl_symbols_find, search_loop. reflexivity. Qed.

Lemma search_loop_run tab k names _exsymbol exsymbol name l s :
  symbol_table (mem s) tab k names → cstr (mem s) name l → _exsymbol ≠ 0 → in_space _exsymbol 12 →
  let o := List.find (same_name names l) (seqZ 0 k) in
  search_loop tab (tab + sizeof_export_symbol * k) _exsymbol name exsymbol s =
  Some (match o with Some _ => BL_STATUS_SUCCESS | None => BL_STATUS_UNKNOWN_SYMBOL end,
        set_mem (symbol_result tab _exsymbol exsymbol (mem s) o) s).
Proof.
  intros [Hroom Hnames] Hl Hex Hexs o. unfold sizeof_export_symbol in Hroom. apply wp_exact. unfold search_loop.
  apply (wp_mwhile _ (λ i t, t = s ∧ 0 <= i <= k ∧ List.find (same_name names l) (seqZ 0 i) = None) _ (λ i _, k - i));
    [|split; [done|]; split; [lia|done]|unfold while_fuel; lia].
  intros i t (-> & Hi & Hf). rewrite u32_small by (unfold sizeof_export_symbol; lia).
  destruct (Z.eqb_spec (tab + sizeof_export_symbol * i) (tab + sizeof_export_symbol * k)) as [E|E]; cbn [negb].
  { wp_step. assert (i = k) as -> by (unfold sizeof_export_symbol in E; lia). unfold o. rewrite Hf. cbn [symbol_result]. by rewrite set_mem_id. }
  assert (i < k) by (destruct (decide (i = k)) as [->|]; [done|lia]).
  destruct (seqZ_split i k ltac:(lia)) as [tl Hsplit].
  wp_step. wp_step. fold (symbol_at tab i). fold (symbol_name (mem s) tab i).
  destruct (name_compare_run s (symbol_name (mem s) tab i) name (names i) l) as (r & Hr & Hz); [by apply Hnames; lia|done|].
  fold (same_name names l i) in Hz. wp_step. apply wp_run. eexists _, _. split; [exact Hr|]. rewrite Hz.
  destruct (same_name names l i) eqn:Es.
  - wp_step. apply wp_run. eexists _, _. split; [apply bl_memcpy_run|].
    + done.
    + unfold symbol_at, sizeof_export_symbol. lia.
    + done.
    + unfold in_space, symbol_at, sizeof_export_symbol. lia.
    + done.
    + wp_steps. unfold o. rewrite Hsplit, find_app, Hf. cbn [List.find]. rewrite Es. split; [done|].
      rewrite mem_set_mem, set_mem_set_mem. done.
  - wp_step. split; [|lia]. split; [done|]. split; [lia|]. rewrite seqZ_app, find_app, Hf by lia.
    change (seqZ (0 + i) 1) with [i]. cbn [List.find]. by rewrite Es.
Qed.

(** The whole function: what it finds and what it changes. *)
Lemma symbols_find_run tab k names _exsymbol exsymbol name l s :
  symbol_table (mem s) tab k names → cstr (mem s) name l →
  symbols_apart (mem s) exsymbol tab k names name l → exsymbol ≠ 0 →
  _exsymbol ≠ 0 → in_space _exsymbol 12 → disjoint exsymbol 4 _exsymbol 12 →
  ∃ m', bl_symbols_find tab (tab + sizeof_export_symbol * k) _exsymbol name exsymbol s =
      Some (match List.find (same_name names l) (seqZ 0 k) with
            | Some _ => BL_STATUS_SUCCESS | None => BL_STATUS_UNKNOWN_SYMBOL end, set_mem m' s) ∧
    match List.find (same_name names l) (seqZ 0 k) with
    | Some i => ld 4 m' exsymbol = _exsymbol ∧ ld_bytes m' _exsymbol 12 = ld_bytes (mem s) (symbol_at tab i) 12
    | None => ld 4 m' exsymbol = NULL
    end ∧
    ∀ b, 0 <= b < 4294967296 → outside exsymbol 4 b → outside _exsymbol 12 b → ld8 m' b = ld8 (mem s) b.
Proof.
  intros Htab Hname Hap Hne Hex Hexs Hdis. pose proof Hap as [Hsp Hat _ Han].
  destruct (symbol_table_st (mem s) exsymbol NULL tab k names name l Hap Htab) as [Htab' _].
  set (m1 := st 4 (mem s) exsymbol NULL) in *. set (o := List.find (same_name names l) (seqZ 0 k)).
  exists (symbol_result tab _exsymbol exsymbol m1 o). split; [|split].
  - rewrite bl_symbols_find_eq, (cstr_pos _ _ _ Hname). unfold is_null; destruct (Z.eqb_spec exsymbol 0); [done|].
    cbn [orb].
    rewrite (bind_run _ _ () s (set_mem m1 s)) by done.
    rewrite (search_loop_run tab k names _exsymbol exsymbol name l); [|exact Htab'|by apply cstr_st4|done|done].
    by rewrite mem_set_mem, set_mem_set_mem.
  - destruct o as [i|] eqn:Eo; cbn [symbol_result].
    + unfold in_space in Hexs. rewrite ld4_st4_same by (done || lia). split; [done|].
      rewrite <- (ld_bytes_ext (st_bytes m1 _exsymbol (ld_bytes m1 (symbol_at tab i) 12))).
      * replace 12%nat with (length (ld_bytes m1 (symbol_at tab i) 12)) at 2 by apply length_ld_bytes.
        rewrite ld_bytes_st_bytes_in; [|by rewrite length_ld_bytes|apply bytes_ld_bytes].
        apply ld_bytes_ext. intros j Hj. apply find_some in Eo as [Hin _]. apply list_elem_of_In, elem_of_seqZ in Hin.
        destruct Htab as [Hroom _]. unfold symbol_at, disjoint, sizeof_export_symbol in *. simpl in Hj.
        apply ld8_st_other; [done|lia|]. unfold outside. simpl. lia.
      * intros j Hj. symmetry. simpl in Hj. unfold disjoint in Hdis. apply ld8_st_other; [done|lia|]. unfold outside. simpl. lia.
    + by apply ld4_st4_same.
  - intros b Hb Ho1 Ho2. destruct o as [i|]; cbn [symbol_result].
    + rewrite ld8_st_other by done. rewrite ld8_st_bytes_out by (rewrite ?length_ld_bytes; done). by apply ld8_st_other.
    + by apply ld8_st_other.
Qed.

(** ** Properties *)

(** [bl_symbols_find] of the BIOS executable ends; it finds the first entry
    of the export table whose name agrees with [name] up to 64 characters,
    copies the entry to its static result and points [exsymbol] at the copy; if
    no entry has the name it reports so and leaves [exsymbol] NULL.  It changes
    nothing but these two places. *)
Theorem symbols_find_first tab k names _exsymbol exsymbol name l s :
  symbol_table (mem s) tab k names → cstr (mem s) name l →
  symbols_apart (mem s) exsymbol tab k names name l → exsymbol ≠ 0 →
  _exsymbol ≠ 0 → in_space _exsymbol 12 → disjoint exsymbol 4 _exsymbol 12 →
  ∃ m', bl_symbols_find tab (tab + sizeof_export_symbol * k) _exsymbol name exsymbol s =
      Some (match List.find (same_name names l) (seqZ 0 k) with
            | Some _ => BL_STATUS_SUCCESS | None => BL_STATUS_UNKNOWN_SYMBOL end, set_mem m' s) ∧
    match List.find (same_name names l) (seqZ 0 k) with
    | Some i => ld 4 m' exsymbol = _exsymbol ∧ ld_bytes m' _exsymbol 12 = ld_bytes (mem s) (symbol_at tab i) 12
    | None => ld 4 m' exsymbol = NULL
    end ∧
    ∀ b, 0 <= b < 4294967296 → outside exsymbol 4 b → outside _exsymbol 12 b → ld8 m' b = ld8 (mem s) b.
Proof. apply symbols_find_run. Qed.

(** Two exported functions, "a" and "b". *)
Definition example_table : gmap Z Z :=
  foldl (λ m '(a, v), st 4 m a v) ∅
    [(0x1000, 0x500); (0x1008, 0x2000); (0x100c, 0x600); (0x1014, 0x2004); (0x2000, 97); (0x2004, 98); (0x3000, 98)].
Definition example_names (i : Z) : list Z := if i =? 0 then [97] else [98].

Lemma table_cstr p c :
  1 <= c <= 127 → 1 <= p < 65535 → ld8 example_table p = c → ld8 example_table (p + 1) = 0 → cstr example_table p [c].
Proof.
  intros Hc Hp H0 H1. split; [lia|]. split; [simpl; lia|]. split; [apply Forall_cons; split; [lia|constructor]|]. split; [|exact H1].
  intros [|i] d Hd; [injection Hd as <-; by rewrite Z.add_0_r|done].
Qed.

Lemma symbols_find_first_witness :
  let s := set_mem example_table machine0 in
  ∃ m', bl_symbols_find 0x1000 (0x1000 + sizeof_export_symbol * 2) 0x4000 0x3000 0x5000 s =
      Some (match List.find (same_name example_names [98]) (seqZ 0 2) with
            | Some _ => BL_STATUS_SUCCESS | None => BL_STATUS_UNKNOWN_SYMBOL end, set_mem m' s) ∧
    match List.find (same_name example_names [98]) (seqZ 0 2) with
    | Some i => ld 4 m' 0x5000 = 0x4000 ∧ ld_bytes m' 0x4000 12 = ld_bytes (mem s) (symbol_at 0x1000 i) 12
    | None => ld 4 m' 0x5000 = NULL
    end ∧
    ∀ b, 0 <= b < 4294967296 → outside 0x5000 4 b → outside 0x4000 12 b → ld8 m' b = ld8 (mem s) b.
Proof.
  assert (Hn : ∀ i, 0 <= i < 2 → symbol_name example_table 0x1000 i = 0x2000 + 4 * i ∧ example_names i = [97 + i]
      ∧ cstr example_table (0x2000 + 4 * i) [97 + i]).
  { intros i Hi. assert (i = 0 ∨ i = 1) as [-> | ->] by lia; (split; [vm_compute; reflexivity|split; [reflexivity|]]);
      apply table_cstr; first [lia|vm_compute; reflexivity]. }
  assert (Hc : cstr example_table 0x3000 [98]) by (apply table_cstr; first [lia|vm_compute; reflexivity]).
  apply (symbols_find_first 0x1000 2 example_names 0x4000 0x5000 0x3000 [98] (set_mem example_table machine0));
    rewrite ?mem_set_mem.
  - split; [vm_compute; repeat split; congruence|]. intros i Hi. destruct (Hn i Hi) as (-> & -> & Hs). exact Hs.
  - exact Hc.
  - split; [vm_compute; repeat split; congruence|right; vm_compute; congruence| |right; vm_compute; congruence].
    intros i Hi. destruct (Hn i Hi) as (-> & -> & _). unfold disjoint. change (Z.of_nat (length [97 + i])) with 1. lia.
  - lia.
  - lia.
  - vm_compute. repeat split; congruence.
  - right. vm_compute. congruence.
Defined.
