(* ===== verification/Elf.v ===== *)
(** * Loading modules: core/loader/loader.c, core/loader/elf/elf.c,
    include/elf/elf32.h, include/loader/module.h *)
From S2P Require Import Prelude Memory Arith Status Strings Heap Print Symbols.
From Stdlib Require Import String.
#[local] Open Scope Z_scope.

(** ** elf32.h: [Elf32_Ehdr], [Elf32_Shdr], [Elf32_Rel] *)
Definition e_type : Z := 16.
Definition e_machine : Z := 18.
Definition e_version : Z := 20.
Definition e_shoff : Z := 32.
Definition e_shentsize : Z := 46.
Definition e_shnum : Z := 48.
Definition e_shstrndx : Z := 50.

Definition sizeof_Elf32_Shdr : Z := 40.
Definition sh_name : Z := 0.
Definition sh_type : Z := 4.
Definition sh_flags : Z := 8.
Definition sh_offset : Z := 16.
Definition sh_size : Z := 20.
Definition sh_link : Z := 24.
Definition sh_info : Z := 28.
Definition sh_addralign : Z := 32.
Definition sh_entsize : Z := 36.

Definition sizeof_Elf32_Rel : Z := 8.
Definition r_offset : Z := 0.
Definition r_info : Z := 4.
Definition ELF32_R_SYM (val : Z) : Z := Z.shiftr val 8.
Definition ELF32_R_TYPE (val : Z) : Z := Z.land val 255.

Definition EV_CURRENT : Z := 1.
Definition ET_REL : Z := 1.
Definition EM_386 : Z := 3.
Definition SHN_UNDEF : Z := 0.
Definition SHT_PROGBITS : Z := 1.
Definition SHT_SYMTAB : Z := 2.
Definition SHT_NOBITS : Z := 8.
Definition SHT_REL : Z := 9.
Definition SHF_ALLOC : Z := 2.
Definition R_386_32 : Z := 1.
Definition R_386_PC32 : Z := 2.
Definition R_386_16 : Z := 20.
Definition R_386_PC16 : Z := 21.

(** ** module.h: [struct bl_segment], [struct bl_module] *)
Definition sizeof_segment : Z := 12.
Definition seg_address : Z := 0.
Definition seg_size : Z := 4.
Definition seg_index : Z := 8.

Definition sizeof_module : Z := 84.
Definition mod_name : Z := 0.
Definition mod_count : Z := 64.
Definition mod_segments : Z := 68.
Definition mod_init : Z := 72.
Definition mod_uninit : Z := 76.
Definition mod_next : Z := 80.

(** The program around the loader: the addresses of its globals and literals,
    the local [exsymbol], which version of [bl_symbols_find] is linked, the
    address added to its results, and the call of a loaded module's entry. *)
Record loader_env := LoaderEnv {
  g_mods : Z;                    (* &bl_mods *)
  g_mod_list : Z;                (* &bl_mod_list *)
  lit_mod_name : Z;              (* ".bl_mod_name" *)
  lit_initialize : Z;            (* "bl_module_initialize" *)
  lit_uninitialize : Z;          (* "bl_module_uninitialize" *)
  l_exsymbol : Z;
  symbols_find : Z → Z → M bl_status_t;
  image_base : Z;
  call_init : Z → M ();
}.

(** ** elf.c *)
Definition section_at (elf shoff i : Z) : Z := u32 (elf + shoff + sizeof_Elf32_Shdr * i).

Definition bl_elf_check (elf size : Z) : M bl_status_t :=
  ident ← rd_bytes elf 7;
  type ← rd16 (elf + e_type);
  machine ← rd16 (elf + e_machine);
  version ← rd32 (elf + e_version);
  if negb (bool_decide (ident = [127; 69; 76; 70; 1; 1; EV_CURRENT])) ||
     negb (type =? ET_REL) || negb (machine =? EM_386) || negb (version =? EV_CURRENT)
  then mret BL_STATUS_INVALID_ELF
  else
    shoff ← rd32 (elf + e_shoff);
    shnum ← rd16 (elf + e_shnum);
    shentsize ← rd16 (elf + e_shentsize);
    if negb (size =? u32 (shoff + shnum * shentsize)) then mret BL_STATUS_INVALID_MODULE_SIZE
    else mret BL_STATUS_SUCCESS.

(** The size, the alignment and the number of segments of the image, as the
    first loop of [bl_elf_load_image] accumulates them over the sections. *)
Definition image_step (size addralign flags : Z) (x : Z * Z * Z) : Z * Z * Z :=
  let '(image_size, alignment, count) := x in
  (u32 (BL_MEMORY_ALIGN_UP image_size alignment + size),
   (if alignment <? addralign then addralign else alignment),
   (if truth (Z.land flags SHF_ALLOC) && truth size then count + 1 else count)).

Definition image_layout (elf shoff shnum : Z) : M (Z * Z * Z) :=
  mwhile (λ '(i, x),
    if i <? shnum then
      let section := section_at elf shoff i in
      size ← rd32 (section + sh_size);
      addralign ← rd32 (section + sh_addralign);
      flags ← rd32 (section + sh_flags);
      continue (i + 1, image_step size addralign flags x)
    else break x) (0, (0, 1, 0)).

(** The second loop: every allocated section gets its place in the image, is
    filled, and is recorded as segment [j]. *)
Definition load_sections (elf shoff m image_ptr : Z) : M () :=
  mwhile (λ '(i, j, image_ptr),
    shnum ← rd16 (elf + e_shnum);
    if i <? shnum then
      let section := section_at elf shoff i in
      flags ← rd32 (section + sh_flags);
      size ← rd32 (section + sh_size);
      if truth (Z.land flags SHF_ALLOC) && truth size then
        addralign ← rd32 (section + sh_addralign);
        let image_ptr := BL_MEMORY_ALIGN_UP image_ptr addralign in
        type ← rd32 (section + sh_type);
        (if type =? SHT_PROGBITS then
           offset ← rd32 (section + sh_offset);
           bl_memcpy image_ptr (u32 (elf + offset)) size;; mret ()
         else if type =? SHT_NOBITS then bl_memset image_ptr 0 size;; mret ()
         else mret ());;
        size ← rd32 (section + sh_size);
        segments ← rd32 (m + mod_segments);
        let seg := u32 (segments + sizeof_segment * j) in
        wr16 (seg + seg_index) i;;
        wr32 (seg + seg_address) image_ptr;;
        wr32 (seg + seg_size) size;;
        continue (i + 1, j + 1, u32 (image_ptr + size))
      else continue (i + 1, j, image_ptr)
    else break ()) (0, 0, image_ptr).

Definition bl_elf_load_image (elf m : Z) : M bl_status_t :=
  shoff ← rd32 (elf + e_shoff);
  shnum ← rd16 (elf + e_shnum);
  '(image_size, alignment, count) ← image_layout elf shoff shnum;
  wr32 (m + mod_count) count;;
  segments ← bl_heap_alloc (u32 (count * sizeof_segment));
  wr32 (m + mod_segments) segments;;
  if is_null segments then mret BL_STATUS_MEMORY_ALLOCATION_FAILED
  else
    image_ptr ← bl_heap_alloc_align image_size alignment;
    if is_null image_ptr then
      bl_heap_free segments (u32 (count * sizeof_segment));;
      mret BL_STATUS_MEMORY_ALLOCATION_FAILED
    else
      load_sections elf shoff m image_ptr;;
      mret BL_STATUS_SUCCESS.

Definition bl_elf_section_by_name (elf name : Z) : M Z :=
  shoff ← rd32 (elf + e_shoff);
  shnum ← rd16 (elf + e_shnum);
  shstrndx ← rd16 (elf + e_shstrndx);
  shentsize ← rd16 (elf + e_shentsize);
  str_offset ← rd32 (u32 (elf + shoff + shstrndx * shentsize) + sh_offset);
  mwhile (λ i,
    if i <? shnum then
      let section := section_at elf shoff i in
      n ← rd32 (section + sh_name);
      c ← bl_strncmp (u32 (elf + str_offset + n)) name BL_MODULE_MAX_NAME_LEN;
      if negb (truth c) then
        offset ← rd32 (section + sh_offset);
        break (u32 (elf + offset))
      else continue (i + 1)
    else break 0) 0.

Definition bl_elf_section_by_index (m index : Z) : M Z :=
  count ← rd32 (m + mod_count);
  segments ← rd32 (m + mod_segments);
  mwhile (λ i,
    if i <? s32 count then
      let seg := u32 (segments + sizeof_segment * i) in
      idx ← rd16 (seg + seg_index);
      if idx =? index then address ← rd32 (seg + seg_address); break address
      else continue (i + 1)
    else break 0) 0.

Definition report_unknown (name : Z) : M () :=
  print_literal "`"%string;;
  bl_print_str name;;
  print_literal "' is either unexported or doesn't exist
"%string.

Definition bl_elf_resolve_symbol (env : loader_env) (symbol name m : Z) : M bl_status_t :=
  info ← rd8 (symbol + st_info);
  shndx ← rd16 (symbol + st_shndx);
  let type := ELF32_ST_TYPE info in
  let add_section :=
    value ← rd32 (symbol + st_value);
    base ← bl_elf_section_by_index m shndx;
    wr32 (symbol + st_value) (value + base) in
  if type =? STT_FUNC then
    add_section;;
    value ← rd32 (symbol + st_value);
    c ← bl_strcmp name (lit_initialize env);
    (if negb (truth c) then wr32 (m + mod_init) value else mret ());;
    c ← bl_strcmp name (lit_uninitialize env);
    (if negb (truth c) then wr32 (m + mod_uninit) value else mret ());;
    mret BL_STATUS_SUCCESS
  else if (type =? STT_NOTYPE) || (type =? STT_OBJECT) then
    n ← rd32 (symbol + st_name);
    if truth n && (shndx =? SHN_UNDEF) then
      status ← symbols_find env name (l_exsymbol env);
      if failed status then report_unknown name;; mret status
      else
        ex ← rd32 (l_exsymbol env);
        address ← rd32 (ex + ex_address);
        wr32 (symbol + st_value) (address + image_base env);;
        xtype ← rd32 (ex + ex_type);
        (if xtype =? BL_EXPORT_TYPE_FUNC
         then wr8 (symbol + st_info) (ELF32_ST_INFO (ELF32_ST_TYPE info) STT_FUNC)
         else mret ());;
        mret BL_STATUS_SUCCESS
    else add_section;; mret BL_STATUS_SUCCESS
  else if type =? STT_SECTION then
    base ← bl_elf_section_by_index m shndx;
    wr32 (symbol + st_value) base;;
    mret BL_STATUS_SUCCESS
  else if type =? STT_FILE then
    wr32 (symbol + st_value) 0;;
    mret BL_STATUS_SUCCESS
  else mret BL_STATUS_INVALID_ELF.

(** [sh_size / sh_entsize]. *)
Definition entries (section : Z) : M Z :=
  size ← rd32 (section + sh_size);
  entsize ← rd32 (section + sh_entsize);
  udiv size entsize.

Definition load_symtab (env : loader_env) (elf shoff section m : Z) : M bl_status_t :=
  offset ← rd32 (section + sh_offset);
  link ← rd32 (section + sh_link);
  shentsize ← rd16 (elf + e_shentsize);
  str_offset ← rd32 (u32 (elf + shoff + link * shentsize) + sh_offset);
  mwhile (λ j,
    n ← entries section;
    if j <? n then
      let symbol := u32 (elf + offset + sizeof_Elf32_Sym * j) in
      sname ← rd32 (symbol + st_name);
      status ← bl_elf_resolve_symbol env symbol (u32 (elf + str_offset + sname)) m;
      if failed status then break status else continue (u32 (j + 1))
    else break BL_STATUS_SUCCESS) 0.

Definition bl_elf_load_symbols (env : loader_env) (elf m : Z) : M bl_status_t :=
  shoff ← rd32 (elf + e_shoff);
  mwhile (λ i,
    shnum ← rd16 (elf + e_shnum);
    if i <? shnum then
      let section := section_at elf shoff i in
      type ← rd32 (section + sh_type);
      if negb (type =? SHT_SYMTAB) then continue (i + 1)
      else
        status ← load_symtab env elf shoff section m;
        if failed status then break status else continue (i + 1)
    else break BL_STATUS_SUCCESS) 0.

(** One relocation: the addend is in place. *)
Definition apply_relocation (applied_section symtab rel : Z) : M () :=
  offset ← rd32 (rel + r_offset);
  info ← rd32 (rel + r_info);
  let addr := u32 (applied_section + offset) in
  value ← rd32 (u32 (symtab + sizeof_Elf32_Sym * ELF32_R_SYM info) + st_value);
  let type := ELF32_R_TYPE info in
  if type =? R_386_16 then a ← rd16 addr; wr16 addr (a + value)
  else if type =? R_386_PC16 then a ← rd16 addr; wr16 addr (a + value - addr)
  else if type =? R_386_32 then a ← rd32 addr; wr32 addr (a + value)
  else if type =? R_386_PC32 then a ← rd32 addr; wr32 addr (a + value - addr)
  else mret ().

Definition bl_elf_relocate_section (m elf rel_section sym_section : Z) : M bl_status_t :=
  info ← rd32 (rel_section + sh_info);
  applied_section ← bl_elf_section_by_index m (u16 info);
  rel_offset ← rd32 (rel_section + sh_offset);
  sym_offset ← rd32 (sym_section + sh_offset);
  mwhile (λ i,
    n ← entries rel_section;
    if i <? n then
      apply_relocation applied_section (u32 (elf + sym_offset))
        (u32 (elf + rel_offset + sizeof_Elf32_Rel * i));;
      continue (u32 (i + 1))
    else break BL_STATUS_SUCCESS) 0.

Definition bl_elf_relocate_symbols (elf m : Z) : M bl_status_t :=
  shoff ← rd32 (elf + e_shoff);
  mwhile (λ i,
    shnum ← rd16 (elf + e_shnum);
    if i <? shnum then
      let section := section_at elf shoff i in
      type ← rd32 (section + sh_type);
      if type =? SHT_REL then
        link ← rd32 (section + sh_link);
        status ← bl_elf_relocate_section m elf section (section_at elf shoff link);
        if failed status then break status else continue (i + 1)
      else continue (i + 1)
    else break BL_STATUS_SUCCESS) 0.

(** ** loader.c *)
Definition bl_loader_get_module (env : loader_env) (name : Z) : M Z :=
  mods ← rd32 (g_mods env);
  mwhile (λ m,
    if is_null m then break NULL
    else
      c ← bl_strncmp (m + mod_name) name BL_MODULE_MAX_NAME_LEN;
      if negb (truth c) then break m
      else next ← rd32 (m + mod_next); continue next) mods.

Definition bl_loader_set_module_list (env : loader_env) (ptr : Z) : M () :=
  l ← rd32 (g_mod_list env);
  if negb (is_null ptr) && is_null l then wr32 (g_mod_list env) ptr else mret ().

(** [bl_elf_load]: the label [_exit] frees the module. *)
Definition bl_elf_load (env : loader_env) (elf size : Z) : M bl_status_t :=
  status ← bl_elf_check elf size;
  if failed status then mret status
  else
    name ← bl_elf_section_by_name elf (lit_mod_name env);
    if is_null name then
      print_literal ".bl_mod_name ELF section doesn't exist
"%string;;
      mret BL_STATUS_INVALID_ELF
    else
      loaded ← bl_loader_get_module env name;
      if negb (is_null loaded) then mret BL_STATUS_MODULE_ALREADY_LOADED
      else
        m ← bl_heap_alloc sizeof_module;
        if is_null m then mret BL_STATUS_MEMORY_ALLOCATION_FAILED
        else
          let exit (status : bl_status_t) : M bl_status_t :=
            bl_heap_free m sizeof_module;; mret status in
          bl_strncpy (m + mod_name) name BL_MODULE_MAX_NAME_LEN;;
          wr32 (m + mod_init) NULL;;
          wr32 (m + mod_uninit) NULL;;
          wr32 (m + mod_next) NULL;;
          status ← bl_elf_load_image elf m;
          if failed status then exit status
          else
            status ← bl_elf_load_symbols env elf m;
            if failed status then exit status
            else
              status ← bl_elf_relocate_symbols elf m;
              if failed status then exit status
              else
                init ← rd32 (m + mod_init);
                if is_null init then exit BL_STATUS_INVALID_ELF
                else
                  call_init env init;;
                  mods ← rd32 (g_mods env);
                  wr32 (m + mod_next) mods;;
                  wr32 (g_mods env) m;;
                  mret BL_STATUS_SUCCESS.

(** [BL_MODULE_LIST_HEADER_MAGIC] and the headers are in Heap.v, since the UEFI
    heap starts after the module list. *)
Definition bl_loader_init (env : loader_env) : M bl_status_t :=
  l ← rd32 (g_mod_list env);
  magic ← rd64 l;
  if is_null l || negb (magic =? BL_MODULE_LIST_HEADER_MAGIC) then
    mret BL_STATUS_INVALID_MODULE_LIST
  else
    mwhile (λ '(i, m),
      count ← rd32 (l + 8);
      if i <? count then
        magic ← rd64 m;
        if negb (magic =? BL_MODULE_HEADER_MAGIC) then break BL_STATUS_INVALID_MODULE
        else
          size ← rd32 (m + 8);
          status ← bl_elf_load env (u32 (m + sizeof_module_header)) size;
          if failed status then break status
          else
            size ← rd32 (m + 8);
            continue (u32 (i + 1), u32 (m + sizeof_module_header + size))
      else break BL_STATUS_SUCCESS) (0, u32 (l + sizeof_module_list_header)).
