(* ===== verification/ElfProofs.v ===== *)
(** * Proofs about the ELF loader: sections by index, and what the relocation of
    a section does to memory. *)
From S2P Require Import Prelude Memory Arith Status Strings StringsProofs Heap Symbols Elf.

(** ** Segments by section index *)

(** The segment table of a loaded module: the address of each section index. *)
Definition segment_index (m : gmap Z Z) (segments i : Z) : Z := ld 2 m (segments + sizeof_segment * i + seg_index).
Definition segment_address (m : gmap Z Z) (segments i : Z) : Z := ld 4 m (segments + sizeof_segment * i + seg_address).

Definition address_of_index (m : gmap Z Z) (segments count index : Z) : Z :=
  match List.find (λ i, segment_index m segments i =? index) (seqZ 0 count) with
  | Some i => segment_address m segments i
  | None => 0
  end.

Lemma section_by_index_run s m index :
  let count := ld 4 (mem s) (m + mod_count) in let segments := ld 4 (mem s) (m + mod_segments) in
  count < 2147483648 → segments + sizeof_segment * count <= 4294967296 →
  bl_elf_section_by_index m index s = Some (address_of_index (mem s) segments count index, s).
Proof.
  intros count segments Hc Hend. pose proof (ld4_range (mem s) (m + mod_count)) as Hcr. fold count in Hcr.
  pose proof (ld4_range (mem s) (m + mod_segments)) as Hsr. fold segments in Hsr. unfold sizeof_segment in Hend.
  set (res := address_of_index _ _ _ _).
  apply wp_exact. unfold bl_elf_section_by_index. wp_steps. fold count segments.
  assert (Hs : s32 count = count) by (unfold s32; rewrite u32_small by lia; destruct (Z.ltb_spec count 2147483648); lia).
  rewrite Hs. apply (wp_mwhile _ (λ i t, t = s ∧ 0 <= i <= count ∧
    List.find (λ i, segment_index (mem s) segments i =? index) (seqZ 0 i) = None) _ (λ i _, count - i));
    [|split; [done|]; split; [lia|done]|unfold while_fuel; lia].
  intros i t (-> & Hi & Hf). destruct (Z.ltb_spec i count) as [Hlt|]; cycle 1.
  { wp_step. split; [|done]. replace i with count in Hf by lia. unfold res, address_of_index. by rewrite Hf. }
  destruct (seqZ_split i count ltac:(lia)) as [tl Hsplit].
  rewrite (u32_small (segments + sizeof_segment * i)) by (unfold sizeof_segment; lia).
  wp_step. wp_step. fold (segment_index (mem s) segments i).
  destruct (segment_index (mem s) segments i =? index) eqn:E.
  - wp_steps. split; [|done]. unfold res, address_of_index. rewrite Hsplit, find_app, Hf. cbn [List.find]. by rewrite E.
  - wp_step. split; [|lia]. split; [done|]. split; [lia|]. rewrite seqZ_app by lia.
    rewrite find_app, Hf. change (seqZ (0 + i) 1) with [i]. cbn [List.find]. by rewrite E.
Qed.

(** ** Words that are replaced one after another *)
Section Patches.
Context {I : Type} (addr : I → Z) (width : I → nat) (value : I → Z → Z).
Abbreviation w i := (Z.of_nat (width i)).

Definition apply_patch (m : gmap Z Z) (i : I) : gmap Z Z := st (width i) m (addr i) (value i (ld (width i) m (addr i))).
Definition patches : gmap Z Z → list I → gmap Z Z := foldl apply_patch.

Lemma patches_ld8 m l b :
  (∀ i, i ∈ l → in_space (addr i) (w i)) → 0 <= b < 4294967296 → (∀ i, i ∈ l → outside (addr i) (w i) b) →
  ld8 (patches m l) b = ld8 m b.
Proof.
  intros Hs Hb. revert m. induction l as [|i l IH]; intros m Ho; [done|]. cbn [patches foldl]. fold (patches (apply_patch m i) l).
  rewrite IH by (intros j Hj; (apply Hs || apply Ho); by apply elem_of_cons; right).
  apply ld8_st_other; [apply Hs, list_elem_of_here|done|apply Ho, list_elem_of_here].
Qed.

Lemma patches_ld m l a k :
  (∀ i, i ∈ l → in_space (addr i) (w i)) → in_space a (Z.of_nat k) → (∀ i, i ∈ l → disjoint (addr i) (w i) a (Z.of_nat k)) →
  ld k (patches m l) a = ld k m a.
Proof.
  intros Hs Ha Hd. unfold ld. f_equal. apply ld_bytes_ext. intros x Hx. apply patches_ld8; [done|unfold in_space in Ha; lia|].
  intros i Hi. specialize (Hd i Hi). unfold disjoint, outside in *. lia.
Qed.

Lemma patches_target m l i :
  (∀ i, i ∈ l → in_space (addr i) (w i)) → NoDup l →
  (∀ i j, i ∈ l → j ∈ l → i ≠ j → disjoint (addr i) (w i) (addr j) (w j)) → i ∈ l →
  ld (width i) (patches m l) (addr i) = value i (ld (width i) m (addr i)) mod 256 ^ w i.
Proof.
  intros Hs Hnd Hd Hi. pose proof (Hs i Hi) as Hsi. apply list_elem_of_split in Hi as (l1 & l2 & ->).
  apply NoDup_app in Hnd as (_ & Hn1 & [Hn2 _]%NoDup_cons).
  assert (H1 : ∀ j, j ∈ l1 → j ∈ l1 ++ i :: l2) by (intros; apply elem_of_app; by left).
  assert (H2 : ∀ j, j ∈ l2 → j ∈ l1 ++ i :: l2) by (intros; apply elem_of_app; right; apply elem_of_cons; by right).
  assert (Hin : i ∈ l1 ++ i :: l2) by (apply elem_of_app; right; apply list_elem_of_here).
  unfold patches. rewrite foldl_app. cbn [foldl]. fold (patches m l1). fold (patches (apply_patch (patches m l1) i) l2).
  rewrite patches_ld; [|by auto|done|intros j Hj; apply Hd; [by auto|done|by intros ->]].
  unfold apply_patch at 1. rewrite ld_st_same by done. f_equal. f_equal.
  apply patches_ld; [by auto|done|]. intros j Hj. apply Hd; [by auto|done|]. intros ->. apply (Hn1 i Hj), list_elem_of_here.
Qed.
End Patches.

Lemma patches_fmap {I J} (f : J → I) addr width value addr' width' value' m l :
  (∀ j, j ∈ l → addr' j = addr (f j) ∧ width' j = width (f j) ∧ ∀ old, value' j old = value (f j) old) →
  patches addr' width' value' m l = patches addr width value m (f <$> l).
Proof.
  revert m. induction l as [|j l IH]; intros m H; [done|]. cbn [patches foldl fmap list_fmap].
  destruct (H j (list_elem_of_here _ _)) as (E1 & E2 & E3).
  fold (patches addr' width' value' (apply_patch addr' width' value' m j) l).
  fold (patches addr width value (apply_patch addr width value m (f j)) (f <$> l)).
  rewrite IH by (intros k Hk; apply H, elem_of_cons; by right). f_equal. unfold apply_patch. by rewrite E1, E2, E3.
Qed.

(** ** One relocation *)

(** The width in bytes of what a relocation type changes (0: nothing), and the
    new contents from the old, the symbol's value and the place. *)
Definition reloc_width (type : Z) : nat :=
  if (type =? R_386_16) || (type =? R_386_PC16) then 2
  else if (type =? R_386_32) || (type =? R_386_PC32) then 4 else 0.
Definition reloc_value (type old value addr : Z) : Z :=
  if (type =? R_386_PC16) || (type =? R_386_PC32) then old + value - addr else old + value.

(** The fields of entry [i] of the table at [tbl], for a section at [applied]
    and the symbol table at [symtab], in memory [m]. *)
Section Entries.
Context (m : gmap Z Z) (applied symtab tbl : Z).

Definition entry_at (i : Z) : Z := tbl + sizeof_Elf32_Rel * i.
Definition entry_type (i : Z) : Z := ELF32_R_TYPE (ld 4 m (entry_at i + r_info)).
Definition entry_addr (i : Z) : Z := u32 (applied + ld 4 m (entry_at i + r_offset)).
Definition symbol_place (i : Z) : Z :=
  u32 (symtab + sizeof_Elf32_Sym * ELF32_R_SYM (ld 4 m (entry_at i + r_info))) + st_value.
Definition symbol_value (i : Z) : Z := ld 4 m (symbol_place i).
Definition entry_width (i : Z) : nat := reloc_width (entry_type i).

(** Memory after entry [i], and after the first [i] entries. *)
Definition effect (m' : gmap Z Z) (i : Z) : gmap Z Z :=
  st (entry_width i) m' (entry_addr i)
    (reloc_value (entry_type i) (ld (entry_width i) m' (entry_addr i)) (symbol_value i) (entry_addr i)).
Definition effects (i : Z) : gmap Z Z := foldl effect m (seqZ 0 i).

(** A region that none of the first [n] entries touches. *)
Definition untouched (n a k : Z) : Prop :=
  in_space a k ∧ ∀ i, 0 <= i < n → disjoint (entry_addr i) (Z.of_nat (entry_width i)) a k.

(** The targets are in memory and do not overlap. *)
Definition targets_apart (n : Z) : Prop :=
  (∀ i, 0 <= i < n → in_space (entry_addr i) (Z.of_nat (entry_width i))) ∧
  ∀ i j, 0 <= i < n → 0 <= j < n → i ≠ j →
    disjoint (entry_addr i) (Z.of_nat (entry_width i)) (entry_addr j) (Z.of_nat (entry_width j)).

Lemma effects_snoc i : 0 <= i → effects (i + 1) = effect (effects i) i.
Proof. intros. unfold effects. by rewrite foldl_seqZ_snoc. Qed.

Lemma effects_patches i :
  effects i = patches entry_addr entry_width (λ j old, reloc_value (entry_type j) old (symbol_value j) (entry_addr j)) m (seqZ 0 i).
Proof. done. Qed.

Lemma effects_ld n i a k :
  targets_apart n → 0 <= i <= n → untouched i a (Z.of_nat k) → ld k (effects i) a = ld k m a.
Proof.
  intros [Hsp _] Hi [Ha Hu]. rewrite effects_patches. apply patches_ld; [|done|]; intros j Hj%elem_of_seqZ; [apply Hsp|apply Hu]; lia.
Qed.

Lemma effects_ld8 n i b :
  targets_apart n → 0 <= i <= n → 0 <= b < 4294967296 →
  (∀ j, 0 <= j < i → outside (entry_addr j) (Z.of_nat (entry_width j)) b) → ld8 (effects i) b = ld8 m b.
Proof.
  intros [Hsp _] Hi Hb Ho. rewrite effects_patches. apply patches_ld8; [|done|]; intros j Hj%elem_of_seqZ; [apply Hsp|apply Ho]; lia.
Qed.

(** The word of entry [i], after all of them. *)
Lemma effects_target n i :
  targets_apart n → 0 <= i < n →
  ld (entry_width i) (effects n) (entry_addr i) =
  reloc_value (entry_type i) (ld (entry_width i) m (entry_addr i)) (symbol_value i) (entry_addr i)
    mod 256 ^ Z.of_nat (entry_width i).
Proof.
  intros [Hsp Hd] Hi. rewrite effects_patches.
  rewrite (patches_target _ _ (λ j old, reloc_value (entry_type j) old (symbol_value j) (entry_addr j))); [done|..].
  - intros j Hj%elem_of_seqZ. apply Hsp. lia.
  - apply NoDup_seqZ.
  - intros j j' Hj%elem_of_seqZ Hj'%elem_of_seqZ ?. apply Hd; (done || lia).
  - apply elem_of_seqZ. lia.
Qed.
End Entries.

Lemma st_0 m a v : st 0 m a v = m.
Proof. done. Qed.

(** [apply_relocation] in a memory that agrees with [m] on what it reads. *)
Lemma apply_relocation_run m applied symtab tbl i s :
  ld 4 (mem s) (entry_at tbl i + r_offset) = ld 4 m (entry_at tbl i + r_offset) →
  ld 4 (mem s) (entry_at tbl i + r_info) = ld 4 m (entry_at tbl i + r_info) →
  ld 4 (mem s) (symbol_place m symtab tbl i) = symbol_value m symtab tbl i →
  apply_relocation applied symtab (entry_at tbl i) s =
  Some ((), set_mem (effect m applied symtab tbl (mem s) i) s).
Proof.
  intros Ho Hi Hv. apply wp_exact. unfold apply_relocation. wp_step. wp_step. wp_step. wp_step. wp_step. wp_step.
  rewrite Ho, Hi. fold (symbol_place m symtab tbl i). rewrite Hv. fold (entry_addr m applied tbl i). fold (entry_type m tbl i).
  unfold effect, entry_width, reloc_width, reloc_value.
  destruct (Z.eqb_spec (entry_type m tbl i) R_386_16) as [E|?]; [try rewrite E; by wp_steps|].
  destruct (Z.eqb_spec (entry_type m tbl i) R_386_PC16) as [E|?]; [try rewrite E; by wp_steps|].
  destruct (Z.eqb_spec (entry_type m tbl i) R_386_32) as [E|?]; [try rewrite E; by wp_steps|].
  destruct (Z.eqb_spec (entry_type m tbl i) R_386_PC32) as [E|?]; [try rewrite E; by wp_steps|].
  wp_step. cbn [orb]. by rewrite st_0, set_mem_id.
Qed.

(** ** The relocation of a section *)

(** What [bl_elf_relocate_section] finds in memory [m]: the module's segments,
    the relocation section's header and table, the symbol table. *)
Record relocation_ready (m : gmap Z Z) (md elf rel sym n : Z) : Prop := RelocationReady {
  rr_count : ld 4 m (md + mod_count) < 2147483648;
  rr_segments : ld 4 m (md + mod_segments) + sizeof_segment * ld 4 m (md + mod_count) <= 4294967296;
  rr_entsize : ld 4 m (rel + sh_entsize) ≠ 0;
  rr_entries : ld 4 m (rel + sh_size) / ld 4 m (rel + sh_entsize) = n;
  rr_table : 0 <= elf + ld 4 m (rel + sh_offset) ∧
             elf + ld 4 m (rel + sh_offset) + sizeof_Elf32_Rel * n <= 4294967296;
}.

Definition applied_at (m : gmap Z Z) (md rel : Z) : Z :=
  address_of_index m (ld 4 m (md + mod_segments)) (ld 4 m (md + mod_count)) (u16 (ld 4 m (rel + sh_info))).
Definition table_at (m : gmap Z Z) (elf rel : Z) : Z := elf + ld 4 m (rel + sh_offset).
Definition symtab_at (m : gmap Z Z) (elf sym : Z) : Z := u32 (elf + ld 4 m (sym + sh_offset)).

(** The targets do not overlap each other, nor the header, the table and the
    symbol values that the loop goes on reading. *)
Record relocation_apart (m : gmap Z Z) (applied symtab tbl rel n : Z) : Prop := RelocationApart {
  ra_targets : targets_apart m applied tbl n;
  ra_size : untouched m applied tbl n (rel + sh_size) 4;
  ra_entsize : untouched m applied tbl n (rel + sh_entsize) 4;
  ra_offsets i : 0 <= i < n → untouched m applied tbl n (entry_at tbl i + r_offset) 4;
  ra_infos i : 0 <= i < n → untouched m applied tbl n (entry_at tbl i + r_info) 4;
  ra_symbols i : 0 <= i < n → untouched m applied tbl n (symbol_place m symtab tbl i) 4;
}.

Lemma untouched_prefix m applied tbl n i a k : i <= n → untouched m applied tbl n a k → untouched m applied tbl i a k.
Proof. intros Hi [Ha Hu]. split; [done|]. intros j Hj. apply Hu. lia. Qed.

Lemma relocate_section_run md elf rel sym n s :
  let m := mem s in
  relocation_ready m md elf rel sym n →
  relocation_apart m (applied_at m md rel) (symtab_at m elf sym) (table_at m elf rel) rel n →
  bl_elf_relocate_section md elf rel sym s =
  Some (BL_STATUS_SUCCESS, set_mem (effects m (applied_at m md rel) (symtab_at m elf sym) (table_at m elf rel) n) s).
Proof.
  intros m [Hcount Hseg Hent Hn Htab] Hap.
  set (applied := applied_at m md rel) in *. set (symtab := symtab_at m elf sym) in *. set (tbl := table_at m elf rel) in *.
  pose proof (ra_targets _ _ _ _ _ _ Hap) as Hta.
  assert (Hn0 : 0 <= n < 4294967296).
  { pose proof (ld4_range m (rel + sh_size)). pose proof (ld4_range m (rel + sh_entsize)). rewrite <- Hn.
    split; [apply Z.div_pos; lia|]. apply Z.div_lt_upper_bound; nia. }
  assert (Hread : ∀ i a, 0 <= i <= n → untouched m applied tbl n a 4 → ld 4 (effects m applied symtab tbl i) a = ld 4 m a).
  { intros i a Hi Hu. apply (effects_ld _ _ _ _ n); [done|done|]. by eapply untouched_prefix; [|exact Hu]; lia. }
  apply wp_exact. unfold bl_elf_relocate_section. wp_step. wp_step. wp_step. apply wp_run. eexists _, _.
  split; [by apply section_by_index_run|]. fold m. fold (applied_at m md rel). fold applied. do 4 wp_step.
  apply (wp_mwhile _ (λ i t, 0 <= i <= n ∧ t = set_mem (effects m applied symtab tbl i) s) _ (λ i _, n - i));
    [|split; [lia|]; unfold effects, m; simpl; by rewrite set_mem_id|unfold while_fuel; lia].
  intros i t [Hi ->]. wp_step. unfold entries. wp_step. wp_step. wp_step. wp_step. rewrite mem_set_mem.
  rewrite !Hread by (done || apply Hap). unfold udiv. destruct (Z.eqb_spec (ld 4 m (rel + sh_entsize)) 0); [done|].
  wp_step. rewrite Hn. destruct (Z.ltb_spec i n); cycle 1.
  { wp_step. by replace n with i by lia. }
  wp_step. apply wp_run. eexists _, _. split.
  - fold m. replace (u32 (elf + ld 4 m (rel + sh_offset) + sizeof_Elf32_Rel * i)) with (entry_at tbl i).
    + apply (apply_relocation_run m); rewrite mem_set_mem; apply Hread; [lia|apply (ra_offsets _ _ _ _ _ _ Hap); lia|lia|
        apply (ra_infos _ _ _ _ _ _ Hap); lia|lia|apply (ra_symbols _ _ _ _ _ _ Hap); lia].
    + unfold entry_at, tbl, table_at, sizeof_Elf32_Rel in *. rewrite u32_small; lia.
  - wp_step. rewrite u32_small by lia. split; [|lia]. split; [lia|].
    by rewrite effects_snoc, mem_set_mem, set_mem_set_mem by lia.
Qed.

(** ** Properties *)

(** C3: on a relocation section whose targets do not overlap,
    [bl_elf_relocate_section] ends with success; the target of every entry of a
    known type holds its old contents plus the symbol's value, less its own
    address for a relative type, cut to the width of the type; entries of other
    types change nothing, and every byte outside the targets is as it was. *)
Theorem elf_relocate_section_correct md elf rel sym n s :
  let m := mem s in
  let applied := applied_at m md rel in let symtab := symtab_at m elf sym in let tbl := table_at m elf rel in
  relocation_ready m md elf rel sym n → relocation_apart m applied symtab tbl rel n →
  ∃ m', bl_elf_relocate_section md elf rel sym s = Some (BL_STATUS_SUCCESS, set_mem m' s) ∧
    (∀ i, 0 <= i < n →
       ld (entry_width m tbl i) m' (entry_addr m applied tbl i) =
       reloc_value (entry_type m tbl i) (ld (entry_width m tbl i) m (entry_addr m applied tbl i))
         (symbol_value m symtab tbl i) (entry_addr m applied tbl i) mod 256 ^ Z.of_nat (entry_width m tbl i)) ∧
    (∀ b, 0 <= b < 4294967296 →
       (∀ i, 0 <= i < n → outside (entry_addr m applied tbl i) (Z.of_nat (entry_width m tbl i)) b) →
       ld8 m' b = ld8 m b).
Proof.
  intros m applied symtab tbl Hready Hap. pose proof (ra_targets _ _ _ _ _ _ Hap) as Hta.
  exists (effects m applied symtab tbl n). split; [by apply relocate_section_run|]. split.
  - intros i Hi. by apply effects_target.
  - intros b Hb Ho. destruct (decide (0 <= n)); [by apply (effects_ld8 _ _ _ _ n)|].
    unfold effects. by rewrite seqZ_nil by lia.
Qed.

(** A module with one segment, at 0x3000, for section 1; two entries for it, one
    absolute and one relative, and a symbol table with a symbol of value 0x500. *)
Definition example_elf : gmap Z Z :=
  foldl (λ m '(a, v), st 4 m a v) ∅
    [(0x1000 + mod_count, 1); (0x1000 + mod_segments, 0x1100); (0x1100, 0x3000); (0x1108, 1);
     (0x2000 + sh_offset, 0x200); (0x2000 + sh_size, 16); (0x2000 + sh_info, 1); (0x2000 + sh_entsize, 8);
     (0x2040 + sh_offset, 0x300); (0x2200, 0); (0x2204, 0x101); (0x2208, 8); (0x220c, 0x102); (0x2314, 0x500);
     (0x3000, 4); (0x3008, 0xfffffffc)].

Lemma example_elf_ready : relocation_ready example_elf 0x1000 0x2000 0x2000 0x2040 2.
Proof. split; by vm_compute. Qed.

Lemma example_elf_entries i :
  0 <= i < 2 →
  entry_addr example_elf 0x3000 0x2200 i = 0x3000 + 8 * i ∧ entry_width example_elf 0x2200 i = 4%nat ∧
  symbol_place example_elf 0x2300 0x2200 i = 0x2314.
Proof. intros Hi. assert (i = 0 ∨ i = 1) as [->| ->] by lia; by vm_compute. Qed.

Lemma example_elf_apart : relocation_apart example_elf 0x3000 0x2300 0x2200 0x2000 2.
Proof.
  assert (Hun : ∀ a, 0x2000 <= a < 0x2400 → untouched example_elf 0x3000 0x2200 2 a 4).
  { intros a Ha. split; [unfold in_space; lia|]. intros j Hj. destruct (example_elf_entries j Hj) as (-> & -> & _).
    unfold disjoint. lia. }
  split.
  - split; intros i.
    + intros Hi. destruct (example_elf_entries i Hi) as (-> & -> & _). unfold in_space. lia.
    + intros j Hi Hj Hne. destruct (example_elf_entries i Hi) as (-> & -> & _).
      destruct (example_elf_entries j Hj) as (-> & -> & _). unfold disjoint. lia.
  - apply Hun. unfold sh_size. lia.
  - apply Hun. unfold sh_entsize. lia.
  - intros i Hi. apply Hun. unfold entry_at, sizeof_Elf32_Rel, r_offset. lia.
  - intros i Hi. apply Hun. unfold entry_at, sizeof_Elf32_Rel, r_info. lia.
  - intros i Hi. destruct (example_elf_entries i Hi) as (_ & _ & ->). apply Hun. lia.
Qed.

Lemma elf_relocate_section_correct_witness :
  let s := set_mem example_elf machine0 in let m := mem s in
  let applied := applied_at m 0x1000 0x2000 in let symtab := symtab_at m 0x2000 0x2040 in
  let tbl := table_at m 0x2000 0x2000 in
  ∃ m', bl_elf_relocate_section 0x1000 0x2000 0x2000 0x2040 s = Some (BL_STATUS_SUCCESS, set_mem m' s) ∧
    (∀ i, 0 <= i < 2 →
       ld (entry_width m tbl i) m' (entry_addr m applied tbl i) =
       reloc_value (entry_type m tbl i) (ld (entry_width m tbl i) m (entry_addr m applied tbl i))
         (symbol_value m symtab tbl i) (entry_addr m applied tbl i) mod 256 ^ Z.of_nat (entry_width m tbl i)) ∧
    (∀ b, 0 <= b < 4294967296 →
       (∀ i, 0 <= i < 2 → outside (entry_addr m applied tbl i) (Z.of_nat (entry_width m tbl i)) b) →
       ld8 m' b = ld8 m b).
Proof.
  apply (elf_relocate_section_correct 0x1000 0x2000 0x2000 0x2040 2 (set_mem example_elf machine0));
    rewrite mem_set_mem; [exact example_elf_ready|].
  assert (E1 : applied_at example_elf 0x1000 0x2000 = 0x3000) by (by vm_compute).
  assert (E2 : symtab_at example_elf 0x2000 0x2040 = 0x2300) by (by vm_compute).
  assert (E3 : table_at example_elf 0x2000 0x2000 = 0x2200) by (by vm_compute).
  rewrite E1, E2, E3. exact example_elf_apart.
Defined.
