(* ===== verification/ElfImage.v ===== *)
(** * Proofs about the ELF loader: the image of a module

    [bl_elf_load_image] measures the sections, allocates the segment table and
    the image, and places every section that is to be loaded. *)
From S2P Require Import Prelude Memory Regions Arith Status Strings StringsProofs Heap HeapProofs HeapClient Symbols Elf ElfProofs.

(** ** Rounding up *)
Lemma round_up_in_space a k :
  0 <= k < 32 → 0 <= a → round_up a (2 ^ k) < 4294967296 → a + 2 ^ k - 1 < 4294967296.
Proof.
  intros Hk Ha H. destruct (decide (a + 2 ^ k - 1 < 4294967296)) as [|Hge]; [done|exfalso].
  pose proof (pow2_32 k Hk). assert (E : 4294967296 = 2 ^ (32 - k) * 2 ^ k).
  { rewrite <- Z.pow_add_r by lia. by replace (32 - k + k) with 32 by lia. }
  unfold round_up in H. assert (2 ^ (32 - k) <= (a + 2 ^ k - 1) / 2 ^ k) by (apply Z.div_le_lower_bound; lia). nia.
Qed.

Lemma round_up_least a b al : 0 < al → a <= b → b mod al = 0 → round_up a al <= b.
Proof.
  intros Hal Hab Hb. apply Z.div_exact in Hb; [|lia]. unfold round_up.
  assert ((a + al - 1) / al <= b / al); [|nia].
  apply Z.lt_succ_r, Z.div_lt_upper_bound; lia.
Qed.

Lemma round_up_shift b x al : 0 < al → b mod al = 0 → round_up (b + x) al = b + round_up x al.
Proof.
  intros Hal Hb. unfold round_up. apply Z.div_exact in Hb; [|lia].
  replace (b + x + al - 1) with (x + al - 1 + b / al * al) by lia. rewrite Z.div_add by lia. lia.
Qed.

(** ** The sections of a file in memory [m] *)
Section Placement.
Context (m : gmap Z Z) (elf shoff : Z).

Definition sh_field (k f : Z) : Z := ld 4 m (section_at elf shoff k + f).
Abbreviation size k := (sh_field k sh_size).
Abbreviation addralign k := (sh_field k sh_addralign).
Definition is_loaded (k : Z) : bool := truth (Z.land (sh_field k sh_flags) SHF_ALLOC) && truth (size k).

(** Where the sections before [n] go in an image at [base], and where the next
    one starts at the earliest. *)
Definition place_step (x : list (Z * Z) * Z) (k : Z) : list (Z * Z) * Z :=
  if is_loaded k then
    let a := round_up x.2 (addralign k) in (x.1 ++ [(k, a)], a + size k)
  else x.
Definition placed (base n : Z) : list (Z * Z) * Z := foldl place_step ([], base) (seqZ 0 n).
Definition places (base n : Z) : list (Z * Z) := (placed base n).1.
Definition image_end (base n : Z) : Z := (placed base n).2.
Definition segments_of (n : Z) : Z := Z.of_nat (length (places 0 n)).

(** The alignments are powers of two; that of a section to load is not 0. *)
Definition aligned_sections (n : Z) : Prop :=
  ∀ k, 0 <= k < n → (∃ e, 0 <= e < 32 ∧ addralign k = 2 ^ e) ∨ (addralign k = 0 ∧ is_loaded k = false).

Lemma placed_snoc base n : 0 <= n → placed base (n + 1) = place_step (placed base n) n.
Proof. intros. unfold placed. by rewrite foldl_seqZ_snoc. Qed.

Lemma loaded_size k : is_loaded k = true → 0 < size k < 4294967296.
Proof.
  intros [_ H]%andb_true_iff. pose proof (ld4_range m (section_at elf shoff k + sh_size)) as Hr. fold (size k) in Hr.
  unfold truth in H. destruct (Z.eqb_spec (size k) 0); [done|lia].
Qed.
Lemma loaded_align n k :
  aligned_sections n → 0 <= k < n → is_loaded k = true → ∃ e, 0 <= e < 32 ∧ addralign k = 2 ^ e.
Proof. intros Hal Hk Hl. destruct (Hal k Hk) as [|[_ E]]; [done|by rewrite Hl in E]. Qed.

(** What is known of the sections placed so far. *)
Definition well_placed (base e n : Z) (ps : list (Z * Z)) : Prop :=
  (∀ j k a, ps !! j = Some (k, a) →
     0 <= k < n ∧ is_loaded k = true ∧ base <= a ∧ a + size k <= e ∧ a mod addralign k = 0) ∧
  (∀ i j k k' a a', (i < j)%nat → ps !! i = Some (k, a) → ps !! j = Some (k', a') → k < k' ∧ a + size k <= a') ∧
  ∀ k, 0 <= k < n → is_loaded k = true → ∃ j a, ps !! j = Some (k, a).

Lemma placed_well base n n' :
  aligned_sections n' → 0 <= n <= n' →
  well_placed base (image_end base n) n (places base n) ∧ base <= image_end base n.
Proof.
  intros Hal. unfold image_end, places. intros Hn. destruct (Z_of_nat_complete n) as [c ->]; [lia|].
  revert Hn. induction c as [|c IH]; intros Hn.
  - change (placed base (Z.of_nat 0)) with (@nil (Z * Z), base). split; [|done].
    split_and!; [by intros j k a H|by intros i j k k' a a' _ H|lia].
  - rewrite Nat2Z.inj_succ, <- Z.add_1_r in *. rewrite placed_snoc by lia. set (x := placed base (Z.of_nat c)) in *.
    destruct (IH ltac:(lia)) as [(H1 & H2 & H3) H4]. clear IH. unfold place_step.
    destruct (is_loaded (Z.of_nat c)) eqn:El; cycle 1.
    { split; [|done]. split_and!; [|done|].
      - intros j k a Hj. destruct (H1 j k a Hj) as (? & ?). split; [lia|done].
      - intros k Hk Hl. apply H3; [|done]. destruct (decide (k = Z.of_nat c)) as [->|]; [by rewrite El in Hl|lia]. }
    destruct (loaded_align n' (Z.of_nat c) Hal) as (e & He & Ee); [lia|done|].
    pose proof (loaded_size _ El) as Hsz. pose proof (pow2_32 e He) as Hp.
    destruct (round_up_spec x.2 (2 ^ e) ltac:(lia)) as [Hr1 Hr2]. rewrite Ee. cbn [fst snd].
    split; [|lia]. split_and!.
    + intros j k a [Hj|[_ Hj]]%lookup_app_Some.
      * destruct (H1 j k a Hj) as (? & ? & ? & ? & ?). split_and!; (done || lia).
      * apply list_lookup_singleton_Some in Hj as [_ [= <- <-]]. rewrite Ee. split_and!; (done || lia).
    + intros i j k k' a a' Hij Hi Hj. apply lookup_app_Some in Hi as [Hi|[Hlen Hi]]; cycle 1.
      { apply list_lookup_singleton_Some in Hi as [Hi _]. apply lookup_lt_Some in Hj. rewrite length_app in Hj. cbn in Hj. lia. }
      apply lookup_app_Some in Hj as [Hj|[_ Hj]]; [by apply (H2 i j k k' a a')|].
      apply list_lookup_singleton_Some in Hj as [_ [= <- <-]]. destruct (H1 i k a Hi) as (? & ? & ? & ? & ?). lia.
    + intros k Hk Hl. destruct (decide (k = Z.of_nat c)) as [->|].
      * exists (length x.1), (round_up x.2 (2 ^ e)). by rewrite lookup_app_r, Nat.sub_diag by lia.
      * destruct (H3 k ltac:(lia) Hl) as (j & a & Hj). exists j, a. by apply lookup_app_l_Some.
Qed.

(** Later sections go behind the earlier ones. *)
Lemma placed_grows base n n' :
  aligned_sections n' → 0 <= n <= n' →
  image_end base n <= image_end base n' ∧ (length (places base n) <= length (places base n'))%nat.
Proof.
  intros Hal Hn. unfold image_end, places.
  assert (H : ∀ c : nat, n + Z.of_nat c <= n' →
    (placed base n).2 <= (placed base (n + Z.of_nat c)).2 ∧
    (length (placed base n).1 <= length (placed base (n + Z.of_nat c)).1)%nat).
  { induction c as [|c IH]; intros Hc; [rewrite Z.add_0_r; lia|].
    replace (n + Z.of_nat (S c)) with (n + Z.of_nat c + 1) by lia. destruct (IH ltac:(lia)) as [IH1 IH2].
    rewrite placed_snoc by lia. unfold place_step. set (k := n + Z.of_nat c) in *.
    destruct (is_loaded k) eqn:El; [|done]. destruct (loaded_align n' k Hal ltac:(lia) El) as (e & He & ->).
    pose proof (loaded_size _ El). pose proof (pow2_32 e He). destruct (round_up_spec (placed base k).2 (2 ^ e) ltac:(lia)) as [Hr _].
    cbn [fst snd]. rewrite length_app. cbn [length]. lia. }
  specialize (H (Z.to_nat (n' - n))). rewrite Z2Nat.id in H by lia. replace (n + (n' - n)) with n' in H by lia.
  apply H. lia.
Qed.

(** An image moves with its base, if the base has every alignment. *)
Lemma placed_shift base n :
  0 <= n → (∀ k, 0 <= k < n → is_loaded k = true → 0 < addralign k ∧ base mod addralign k = 0) →
  placed base n = ((λ '(k, a), (k, base + a)) <$> places 0 n, base + image_end 0 n).
Proof.
  unfold places, image_end. intros Hn. destruct (Z_of_nat_complete n) as [c ->]; [done|]. clear Hn.
  induction c as [|c IH]; [intros _; change (Z.of_nat 0) with 0; change (placed ?b 0) with (@nil (Z * Z), b); cbn; by rewrite Z.add_0_r|].
  rewrite Nat2Z.inj_succ, <- Z.add_1_r. intros Hal. rewrite !placed_snoc by lia. rewrite IH by (intros k Hk; apply Hal; lia).
  unfold place_step. destruct (is_loaded (Z.of_nat c)) eqn:El; [|done].
  destruct (Hal (Z.of_nat c) ltac:(lia) El) as [? ?]. cbn [fst snd].
  rewrite round_up_shift by done. rewrite fmap_app. cbn. f_equal. lia.
Qed.
End Placement.

(** ** Measuring *)
Section Measure.
Context (m : gmap Z Z) (elf shoff : Z).
Abbreviation size k := (sh_field m elf shoff k sh_size).
Abbreviation addralign k := (sh_field m elf shoff k sh_addralign).

Definition measured (n : Z) : Z * Z * Z :=
  foldl (λ x k, image_step (size k) (addralign k) (sh_field m elf shoff k sh_flags) x) (0, 1, 0) (seqZ 0 n).
Definition image_size (n : Z) : Z := (measured n).1.1.
Definition image_align (n : Z) : Z := (measured n).1.2.

Lemma measured_snoc n :
  0 <= n → measured (n + 1) = image_step (size n) (addralign n) (sh_field m elf shoff n sh_flags) (measured n).
Proof. intros. unfold measured. by rewrite foldl_seqZ_snoc. Qed.

(** The segments that are counted are those that will be placed. *)
Lemma measured_count n : 0 <= n → (measured n).2 = segments_of m elf shoff n.
Proof.
  intros Hn. destruct (Z_of_nat_complete n) as [c ->]; [done|]. clear Hn. induction c as [|c IH]; [done|].
  rewrite Nat2Z.inj_succ, <- Z.add_1_r, measured_snoc by lia. unfold segments_of, places in *. rewrite placed_snoc by lia.
  destruct (measured (Z.of_nat c)) as [[sz al] n]. cbn [image_step snd] in *. unfold place_step, is_loaded.
  destruct (truth _ && truth _); [|done]. cbn [fst]. rewrite length_app. cbn [length]. lia.
Qed.

(** The alignment of the image is the largest of its sections. *)
Lemma measured_align n :
  aligned_sections m elf shoff n → 0 <= n →
  ∃ e, 0 <= e < 32 ∧ image_align n = 2 ^ e ∧
    ∀ k, 0 <= k < n → is_loaded m elf shoff k = true → ∃ e', 0 <= e' <= e ∧ addralign k = 2 ^ e'.
Proof.
  intros Hal Hn. unfold image_align.
  destruct (Z_of_nat_complete n) as [c ->]; [done|]. clear Hn. induction c as [|c IH]; [exists 0; split; [lia|]; split; [done|lia]|].
  destruct IH as (e & He & E & Hk); [intros k ?; apply Hal; lia|].
  rewrite Nat2Z.inj_succ, <- Z.add_1_r in *. rewrite measured_snoc by lia.
  destruct (measured (Z.of_nat c)) as [[sz al] x]. cbn [fst snd image_step] in *. subst al.
  destruct (Hal (Z.of_nat c) ltac:(lia)) as [(d & Hd & Ed)|[Ed El]]; rewrite Ed.
  - exists (Z.max e d). split; [lia|]. split.
    + destruct (Z.ltb_spec (2 ^ e) (2 ^ d)) as [Hlt|Hge].
      * apply Z.pow_lt_mono_r_iff in Hlt; [|lia..]. f_equal. lia.
      * apply Z.pow_le_mono_r_iff in Hge; [|lia..]. f_equal. lia.
    + intros k Hkr Hl. destruct (decide (k = Z.of_nat c)) as [->|]; [exists d; split; [lia|done]|].
      destruct (Hk k ltac:(lia) Hl) as (e' & ? & ?). exists e'. split; [lia|done].
  - exists e. split; [lia|]. split; [destruct (Z.ltb_spec (2 ^ e) 0); [|done]; pose proof (pow2_32 e He); lia|].
    intros k Hkr Hl. destruct (decide (k = Z.of_nat c)) as [->|]; [by rewrite El in Hl|]. apply Hk; [lia|done].
Qed.

Lemma divides_pow2 b e e' : 0 <= e' <= e → b mod 2 ^ e = 0 → b mod 2 ^ e' = 0.
Proof.
  intros He Hb. apply Z.div_exact in Hb; [|apply Z.pow_nonzero; lia]. rewrite Hb.
  replace e with (e - e' + e') by lia. rewrite Z.pow_add_r, <- Z.mul_assoc, (Z.mul_comm (2 ^ (e - e'))), <- Z.mul_assoc by lia.
  rewrite Z.mul_comm. apply Z_mod_mult.
Qed.
End Measure.

Lemma image_layout_run elf shoff n s :
  0 <= n < 4294967296 → image_layout elf shoff n s = Some (measured (mem s) elf shoff n, s).
Proof.
  intros Hn. apply wp_exact. unfold image_layout.
  wp_loop (λ '(i, x) t, t = s ∧ 0 <= i <= n ∧ x = measured (mem s) elf shoff i) (λ '(i, _) _, n - i).
  - intros [i x] t (-> & Hi & ->). destruct (Z.ltb_spec i n); [|wp_steps; split; [|done]; by replace i with n by lia].
    wp_steps. split; [|lia]. split; [done|]. split; [lia|]. by rewrite measured_snoc by lia.
  - split; [done|]. split; [lia|done].
  - lia.
Qed.

(** ** Filling *)
Section File.
Context (m : gmap Z Z) (elf fsize : Z).
Abbreviation shoff := (ld 4 m (elf + e_shoff)).
Abbreviation shnum := (ld 2 m (elf + e_shnum)).
Abbreviation field := (sh_field m elf shoff).

(** The bytes that are written for a section: its data, or zeros for all but the
    last byte of an empty section ([bl_memset] stops one byte early). *)
Definition fill (k : Z) : list Z :=
  if field k sh_type =? SHT_PROGBITS then
    ld_bytes m (elf + field k sh_offset) (Z.to_nat (field k sh_size))
  else if field k sh_type =? SHT_NOBITS then replicate (Z.to_nat (field k sh_size - 1)) 0
  else [].

(** A file whose section table and whose data to load lie inside of it. *)
Record elf_file : Prop := ElfFile {
  ef_space : 0 < elf ∧ in_space elf fsize;
  ef_header : 52 <= fsize;
  ef_table : shoff + sizeof_Elf32_Shdr * shnum <= fsize;
  ef_aligned : aligned_sections m elf shoff shnum;
  ef_data k : 0 <= k < shnum → is_loaded m elf shoff k = true → field k sh_type = SHT_PROGBITS →
    field k sh_offset + field k sh_size <= fsize;
}.

Lemma shnum_range : 0 <= shnum < 65536.
Proof. apply (ld_range 2). Qed.

Lemma section_at_exact k : elf_file → 0 <= k < shnum → section_at elf shoff k = elf + shoff + sizeof_Elf32_Shdr * k.
Proof.
  intros [(H1 & H2) H3 H4 _ _] Hk. unfold section_at. pose proof (ld4_range m (elf + e_shoff)).
  apply u32_small. unfold in_space, sizeof_Elf32_Shdr in *. lia.
Qed.

Lemma length_fill k :
  is_loaded m elf shoff k = true → Z.of_nat (length (fill k)) <= field k sh_size.
Proof.
  intros H%loaded_size. unfold fill. destruct (_ =? SHT_PROGBITS); [rewrite length_ld_bytes; lia|].
  destruct (_ =? SHT_NOBITS); [rewrite length_replicate; lia|cbn; lia].
Qed.
Lemma bytes_fill k : bytes (fill k).
Proof.
  unfold fill. destruct (_ =? SHT_PROGBITS); [apply bytes_ld_bytes|].
  destruct (_ =? SHT_NOBITS); [apply Forall_replicate; lia|constructor].
Qed.

(** Memory that still has the file. *)
Lemma file_ld n m' a :
  elf_file → (∀ x, elf <= x < elf + fsize → ld8 m' x = ld8 m x) → elf <= a → a + Z.of_nat n <= elf + fsize →
  ld_bytes m' a n = ld_bytes m a n.
Proof. intros _ H Ha He. apply ld_bytes_ext. intros i Hi. apply H. lia. Qed.

Lemma file_field m' k f :
  elf_file → (∀ x, elf <= x < elf + fsize → ld8 m' x = ld8 m x) → 0 <= k < shnum → 0 <= f <= 36 →
  ld 4 m' (section_at elf shoff k + f) = field k f.
Proof.
  intros Hf H Hk Hfd. unfold sh_field, ld. f_equal. pose proof Hf as [[_ Hsp] ? ? _ _]. pose proof (ld4_range m (elf + e_shoff)).
  rewrite section_at_exact by done. unfold sizeof_Elf32_Shdr, in_space in *. apply file_ld; [done|done|lia|lia].
Qed.

(** The branch of the loop that fills a section at [a]. *)
Lemma fill_run k a t :
  elf_file → (∀ x, elf <= x < elf + fsize → ld8 (mem t) x = ld8 m x) → 0 <= k < shnum → is_loaded m elf shoff k = true →
  0 < a → a + field k sh_size <= 4294967296 →
  (if field k sh_type =? SHT_PROGBITS then
     offset ← rd32 (section_at elf shoff k + sh_offset);
     bl_memcpy a (u32 (elf + offset)) (field k sh_size);; mret ()
   else if field k sh_type =? SHT_NOBITS then bl_memset a 0 (field k sh_size);; mret ()
   else mret ()) t = Some ((), set_mem (st_bytes (mem t) a (fill k)) t).
Proof.
  intros Hf Hm Hk Hl Ha Hend. pose proof (loaded_size _ _ _ _ Hl) as Hsz. unfold fill.
  destruct (Z.eqb_spec (field k sh_type) SHT_PROGBITS) as [E|_].
  - apply wp_exact. wp_steps. rewrite file_field by (done || unfold sh_offset; lia).
    pose proof (ef_data Hf k Hk Hl E) as Hd. pose proof Hf as [[He Hsp] _ _ _ _]. unfold in_space in Hsp.
    pose proof (ld4_range m (section_at elf shoff k + sh_offset)) as Hor. fold (field k sh_offset) in Hor.
    rewrite u32_small by lia. apply wp_run. eexists _, _.
    split; [apply bl_memcpy_run; unfold in_space; lia|]. wp_step. split; [done|]. by rewrite (file_ld _ (mem t)) by (done || lia).
  - destruct (_ =? SHT_NOBITS); [|cbn [st_bytes]; by rewrite set_mem_id].
    apply wp_exact. wp_step. apply wp_run. eexists _, _. split; [apply bl_memset_run; unfold in_space; lia|]. by wp_step.
Qed.
End File.

(** ** Loading *)
Section Loading.
Context (m : gmap Z Z) (s : machine) (elf fsize md base segs : Z).
#[local] Abbreviation shoff := (ld 4 m (elf + e_shoff)).
#[local] Abbreviation shnum := (ld 2 m (elf + e_shnum)).
#[local] Abbreviation field := (sh_field m elf shoff).
#[local] Abbreviation put := (places m elf shoff base).
#[local] Abbreviation put_end := (image_end m elf shoff base).

(** The file is as it is in [m]; the image and the segment table are in memory,
    apart from each other and from the file and the module's descriptor. *)
Record image_ready : Prop := ImageReady {
  ir_file : elf_file m elf fsize;
  ir_same x : elf <= x < elf + fsize → ld8 (mem s) x = ld8 m x;
  ir_segments : ld 4 (mem s) (md + mod_segments) = segs;
  ir_base : 0 < base ∧ put_end shnum < 4294967296;
  ir_segs : in_space segs (sizeof_segment * Z.of_nat (length (put shnum)));
  ir_md : in_space md sizeof_module;
  ir_apart : disjoint base (put_end shnum - base) segs (sizeof_segment * Z.of_nat (length (put shnum)));
  ir_readers : each_apart [(base, put_end shnum - base); (segs, sizeof_segment * Z.of_nat (length (put shnum)))]
                 [(elf, fsize); (md, sizeof_module)];
}.

(** Segment [j] is section [k] at [a], filled. *)
Definition segment_ok (m' : gmap Z Z) (j : nat) (k a : Z) : Prop :=
  segment_index m' segs (Z.of_nat j) = k ∧ segment_address m' segs (Z.of_nat j) = a ∧
  ld 4 m' (segs + sizeof_segment * Z.of_nat j + seg_size) = field k sh_size ∧
  ld_bytes m' a (length (fill m elf k)) = fill m elf k.

Definition loaded_upto (n : Z) (m' : gmap Z Z) : Prop :=
  keeps [(base, put_end n - base); (segs, sizeof_segment * Z.of_nat (length (put n)))] (mem s) m' ∧
  ∀ j k a, put n !! j = Some (k, a) → segment_ok m' j k a.

(** The three fields of a new segment and what was filled before it. *)
Definition store_section (m' : gmap Z Z) (j : nat) (k a : Z) : gmap Z Z :=
  let seg := segs + sizeof_segment * Z.of_nat j in
  st 4 (st 4 (st 2 (st_bytes m' a (fill m elf k)) (seg + seg_index) k) (seg + seg_address) a) (seg + seg_size) (field k sh_size).

(** The place of the next section. *)
Abbreviation next_place n := (round_up (put_end n) (field n sh_addralign)).
Lemma next_placed n :
  image_ready → 0 <= n < shnum → is_loaded m elf shoff n = true →
  put (n + 1) = put n ++ [(n, next_place n)] ∧ put_end (n + 1) = next_place n + field n sh_size ∧
  base <= put_end n <= next_place n ∧ next_place n + field n sh_size <= put_end shnum ∧
  (length (put n) + 1 <= length (put shnum))%nat ∧
  BL_MEMORY_ALIGN_UP (put_end n) (field n sh_addralign) = next_place n.
Proof.
  intros Hr Hn Hl. pose proof (ef_aligned _ _ _ (ir_file Hr)) as Hal. pose proof (ir_base Hr) as [Hb Hend].
  destruct (placed_grows _ _ _ base (n + 1) shnum Hal ltac:(lia)) as [Hg1 Hg2].
  destruct (placed_well _ _ _ base n shnum Hal ltac:(lia)) as [_ Hb0].
  pose proof (loaded_size _ _ _ _ Hl) as Hsz.
  destruct (loaded_align _ _ _ _ _ Hal Hn Hl) as (e & He & Ee). pose proof (pow2_32 e He) as Hp.
  destruct (round_up_spec (put_end n) (field n sh_addralign) ltac:(lia)) as [Hru _].
  assert (E : placed m elf shoff base (n + 1) = (put n ++ [(n, next_place n)], next_place n + field n sh_size)).
  { rewrite placed_snoc by lia. unfold place_step. by rewrite Hl. }
  assert (E1 : put (n + 1) = put n ++ [(n, next_place n)]) by (unfold places at 1; by rewrite E).
  assert (E2 : put_end (n + 1) = next_place n + field n sh_size) by (unfold image_end at 1; by rewrite E).
  rewrite E1, length_app in Hg2. rewrite E2 in Hg1. cbn [length] in Hg2. do 2 (split; [done|]).
  split; [lia|]. split; [lia|]. split; [lia|].
  rewrite Ee in *. apply align_up_pow2; [done|lia|]. apply round_up_in_space; lia.
Qed.

Lemma loaded_next n m' :
  image_ready → 0 <= n < shnum → is_loaded m elf shoff n = true → loaded_upto n m' →
  loaded_upto (n + 1) (store_section m' (length (put n)) n (next_place n)).
Proof.
  intros Hr Hn Hl [Hk Hs]. pose proof (ef_aligned _ _ _ (ir_file Hr)) as Hal.
  pose proof (ir_base Hr) as [Hb Hend]. pose proof (ir_segs Hr) as Hsegs. pose proof (ir_apart Hr) as Hap.
  destruct (placed_well _ _ _ base n shnum Hal ltac:(lia)) as [(Hw & _ & _) Hb0].
  destruct (next_placed n Hr Hn Hl) as (E1 & E2 & Hru & Hg1 & Hg2 & _).
  pose proof (loaded_size _ _ _ _ Hl) as Hsz. pose proof (length_fill _ _ n Hl) as Hfill.
  unfold loaded_upto. rewrite E1, E2, length_app. cbn [length].
  set (a := next_place n) in *. set (j := length (put n)) in *.
  pose proof (shnum_range m elf) as Hshn. unfold sizeof_segment, in_space, disjoint in Hsegs, Hap.
  unfold store_section, segment_ok, segment_index, segment_address, sizeof_segment, seg_index, seg_address, seg_size in *.
  rewrite !Z.add_0_r in *. split.
  - intros x Hx [Ho1 [Ho2 _]%Forall_cons]%Forall_cons. unfold outside in Ho1, Ho2. cbn [fst snd] in Ho1, Ho2.
    past_writes. apply Hk; [done|]. apply Forall_cons. split; [|apply Forall_cons; split; [|constructor]].
    all: unfold outside; cbn [fst snd]; lia.
  - intros i k b [Hi|[Hij Hi]]%lookup_app_Some.
    + destruct (Hs i k b Hi) as (S1 & S2 & S3 & S4). destruct (Hw i k b Hi) as (W1 & W2 & W3 & W4 & _).
      pose proof (lookup_lt_Some _ _ _ Hi) as Hij. fold j in Hij. pose proof (length_fill _ _ k W2) as Hfk.
      split_and!; [rewrite <- S1|rewrite <- S2|rewrite <- S3|rewrite <- S4 at 2]; by past_writes.
    + apply list_lookup_singleton_Some in Hi as [Hi [= <- <-]]. fold j in Hij, Hi. replace i with j by lia. rewrite ?Z.add_0_r.
      split_and!.
      * past_writes. rewrite ld_st_same by field_side. apply Z.mod_small. change (256 ^ Z.of_nat 2) with 65536. lia.
      * past_writes. rewrite ld_st_same by field_side. apply Z.mod_small. change (256 ^ Z.of_nat 4) with 4294967296. lia.
      * rewrite ld_st_same by field_side. apply Z.mod_small. change (256 ^ Z.of_nat 4) with 4294967296. lia.
      * past_writes. apply ld_bytes_st_bytes_in; [field_side|apply bytes_fill].
Qed.
Lemma readers_kept n m' x :
  image_ready → 0 <= n <= shnum → loaded_upto n m' → (elf <= x < elf + fsize ∨ md <= x < md + sizeof_module) →
  ld8 m' x = ld8 (mem s) x.
Proof.
  intros Hr Hn [Hk _] Hx. pose proof (ef_aligned _ _ _ (ir_file Hr)) as Hal.
  destruct (placed_grows _ _ _ base n shnum Hal Hn) as [Hg1 Hg2]. pose proof (ir_readers Hr) as Hrd.
  apply Forall_cons in Hrd as [[R1 [R2 _]%Forall_cons]%Forall_cons [[R3 [R4 _]%Forall_cons]%Forall_cons _]%Forall_cons].
  pose proof (ir_md Hr) as Hmd. pose proof (ef_space _ _ _ (ir_file Hr)) as [_ Hsp].
  unfold apart, disjoint, in_space, sizeof_segment in *. cbn [fst snd] in *.
  apply Hk; [lia|]. apply Forall_cons. split; [|apply Forall_cons; split; [|constructor]]; unfold outside, sizeof_segment; cbn [fst snd]; lia.
Qed.

Lemma load_sections_run :
  image_ready → ∃ m', load_sections elf shoff md base s = Some ((), set_mem m' s) ∧ loaded_upto shnum m'.
Proof.
  intros Hr. pose proof (ir_file Hr) as Hf. pose proof (ef_aligned _ _ _ Hf) as Hal. pose proof (shnum_range m elf) as Hshn.
  assert (Hgoal : wp (load_sections elf shoff md base) (λ _ t, ∃ m', t = set_mem m' s ∧ loaded_upto shnum m') s).
  2:{ apply wp_run in Hgoal as ([] & t & Hrun & m' & -> & H). by exists m'. }
  unfold load_sections.
  wp_loop (λ '(i, j, ptr) t, ∃ m', t = set_mem m' s ∧ 0 <= i <= shnum ∧ j = Z.of_nat (length (put i)) ∧
      ptr = put_end i ∧ loaded_upto i m') (λ '(i, _, _) _, shnum - i); [| |lia].
  2:{ exists (mem s). split; [by rewrite set_mem_id|]. split; [lia|]. split; [done|]. split; [done|]. split; [done|]. by intros j k a H. }
  intros [[i j] ptr] t (m' & -> & Hi & -> & -> & Hlo).
  assert (Hfile : ∀ x, elf <= x < elf + fsize → ld8 m' x = ld8 m x) by (intros x Hx; rewrite (readers_kept i) by auto; by apply (ir_same Hr)).
  pose proof (ef_space _ _ _ Hf) as [He Hsp]. pose proof (ef_header _ _ _ Hf) as Hhd. unfold in_space in Hsp.
  wp_step. wp_step. rewrite mem_set_mem. replace (ld 2 m' (elf + e_shnum)) with shnum.
  2:{ unfold ld. f_equal. symmetry. apply (file_ld m elf fsize); [done..|unfold e_shnum; lia|unfold e_shnum; lia]. }
  destruct (Z.ltb_spec i shnum) as [Hlt|]; cycle 1.
  { wp_step. exists m'. split; [done|]. by replace shnum with i by lia. }
  wp_steps. rewrite !mem_set_mem, !(file_field m elf fsize m') by (done || (unfold sh_flags, sh_size; lia)).
  fold (is_loaded m elf shoff i). destruct (is_loaded m elf shoff i) eqn:El; cycle 1.
  { wp_step. split; [|lia]. exists m'. split; [done|]. split; [lia|]. unfold loaded_upto, places, image_end.
    rewrite !placed_snoc by lia. unfold place_step. rewrite El. done. }
  destruct (next_placed i Hr ltac:(lia) El) as (E1 & E2 & Hru & Hg1 & Hg2 & Ea).
  pose proof (loaded_size _ _ _ _ El) as Hsz. pose proof (ir_base Hr) as [Hb Hend].
  pose proof (loaded_next i m' Hr ltac:(lia) El Hlo) as Hnext.
  wp_step. wp_step. rewrite mem_set_mem, (file_field m elf fsize m'), Ea by (done || (unfold sh_addralign; lia)).
  set (a := next_place i) in *. wp_step. wp_step. rewrite mem_set_mem, (file_field m elf fsize m') by (done || (unfold sh_type; lia)).
  wp_step. apply wp_run. eexists _, _. split; [apply (fill_run m elf fsize); (done || lia)|]. rewrite mem_set_mem, set_mem_set_mem.
  pose proof (length_fill m elf i El) as Hfl.
  assert (Hkept : ∀ x, elf <= x < elf + fsize ∨ md <= x < md + sizeof_module → ld8 (st_bytes m' a (fill m elf i)) x = ld8 (mem s) x).
  { intros x Hx. rewrite <- (readers_kept i m' x) by done. pose proof (ir_md Hr) as Hmd. pose proof (ir_readers Hr) as Hrd.
    apply Forall_cons in Hrd as [[R1 [R2 _]%Forall_cons]%Forall_cons _].
    unfold in_space, apart, disjoint in *. cbn [fst snd] in *. apply ld8_st_bytes_out; unfold in_space, outside; lia. }
  wp_step. wp_step. wp_step. wp_step. rewrite mem_set_mem, (file_field m elf fsize (st_bytes _ _ _))
    by (done || (unfold sh_size; lia) || (intros x Hx; rewrite Hkept by auto; by apply (ir_same Hr))).
  replace (ld 4 (st_bytes m' a (fill m elf i)) (md + mod_segments)) with segs.
  2:{ rewrite <- (ir_segments Hr). unfold ld. f_equal. apply ld_bytes_ext. intros x Hx. symmetry. apply Hkept. right.
      unfold mod_segments, sizeof_module. lia. }
  pose proof (ir_segs Hr) as Hsegs. unfold in_space, sizeof_segment in Hsegs. rewrite !u32_small by (unfold sizeof_segment; lia).
  wp_steps. rewrite !mem_set_mem, !set_mem_set_mem. split; [|lia]. eexists. split; [reflexivity|]. split; [lia|].
  split; [rewrite E1, length_app; cbn [length]; lia|]. split; [by rewrite E2|exact Hnext].
Qed.
End Loading.

(** ** Finding the sections again *)
Lemma address_of_places m' segs ps j k a :
  (∀ j k a, ps !! j = Some (k, a) → segment_index m' segs (Z.of_nat j) = k ∧ segment_address m' segs (Z.of_nat j) = a) →
  (∀ i j k k' a a', (i < j)%nat → ps !! i = Some (k, a) → ps !! j = Some (k', a') → k < k') →
  ps !! j = Some (k, a) → address_of_index m' segs (Z.of_nat (length ps)) k = a.
Proof.
  intros Hps Hinc Hj. destruct (Hps j k a Hj) as [Hjk Hja]. unfold address_of_index.
  pose proof (lookup_lt_Some _ _ _ Hj) as Hlt. destruct (List.find _ _) as [i|] eqn:Ef.
  - apply List.find_some in Ef as [Hi Hik]. apply Z.eqb_eq in Hik. apply list_elem_of_In, elem_of_seqZ in Hi.
    destruct (lookup_lt_is_Some_2 ps (Z.to_nat i)) as [[k' a'] Hi']; [lia|].
    destruct (Hps _ _ _ Hi') as [Hik' Hia']. rewrite Z2Nat.id in Hik', Hia' by lia.
    assert (k' = k) as -> by congruence. destruct (decide (Z.to_nat i = j)) as [E|Hne].
    + rewrite E in Hi'. congruence.
    + exfalso. assert ((Z.to_nat i < j)%nat ∨ (j < Z.to_nat i)%nat) as [H|H] by lia.
      * specialize (Hinc _ _ _ _ _ _ H Hi' Hj). lia.
      * specialize (Hinc _ _ _ _ _ _ H Hj Hi'). lia.
  - exfalso. pose proof (List.find_none _ _ Ef (Z.of_nat j)) as Hn. rewrite <- list_elem_of_In, elem_of_seqZ in Hn.
    specialize (Hn ltac:(lia)). cbv beta in Hn. by rewrite Hjk, Z.eqb_refl in Hn.
Qed.

Lemma address_of_absent m' segs (ps : list (Z * Z)) k :
  (∀ j k a, ps !! j = Some (k, a) → segment_index m' segs (Z.of_nat j) = k) →
  (∀ j a, ps !! j ≠ Some (k, a)) → address_of_index m' segs (Z.of_nat (length ps)) k = 0.
Proof.
  intros Hps Hno. unfold address_of_index. destruct (List.find _ _) as [i|] eqn:Ef; [|done]. exfalso.
  apply List.find_some in Ef as [Hi Hik]. apply Z.eqb_eq in Hik. apply list_elem_of_In, elem_of_seqZ in Hi.
  destruct (lookup_lt_is_Some_2 ps (Z.to_nat i)) as [[k' a'] Hi']; [lia|].
  pose proof (Hps _ _ _ Hi') as Hik'. rewrite Z2Nat.id in Hik' by lia. apply (Hno (Z.to_nat i) a'). congruence.
Qed.

(** The address that [bl_elf_section_by_index] finds for a section of the module at [md]. *)
Definition section_address (m' : gmap Z Z) (md k : Z) : Z :=
  address_of_index m' (ld 4 m' (md + mod_segments)) (ld 4 m' (md + mod_count)) k.

(** ** The image of a file *)
Section Image.
Context (m : gmap Z Z) (elf : Z).
#[local] Abbreviation shoff := (ld 4 m (elf + e_shoff)).
#[local] Abbreviation shnum := (ld 2 m (elf + e_shnum)).
#[local] Abbreviation field := (sh_field m elf shoff).
#[local] Abbreviation loaded := (is_loaded m elf shoff).

(** Every section to load has its place between [lo] and [hi], aligned and
    filled; the places are in the order of the sections and do not overlap; the
    other sections have no address. *)
Record image_loaded (m' : gmap Z Z) (md lo hi : Z) : Prop := ImageLoaded {
  il_count : ld 4 m' (md + mod_count) = segments_of m elf shoff shnum;
  il_table : in_space (ld 4 m' (md + mod_segments)) (sizeof_segment * ld 4 m' (md + mod_count));
  il_section k : 0 <= k < shnum → loaded k = true →
    lo <= section_address m' md k ∧ section_address m' md k + field k sh_size <= hi ∧
    section_address m' md k mod field k sh_addralign = 0 ∧
    ld_bytes m' (section_address m' md k) (length (fill m elf k)) = fill m elf k;
  il_order k k' : 0 <= k < k' → k' < shnum → loaded k = true → loaded k' = true →
    section_address m' md k + field k sh_size <= section_address m' md k';
  il_absent k : 0 <= k < shnum → loaded k = false → section_address m' md k = 0;
}.

Lemma loaded_image s fsize md base segs hi m' :
  image_ready m s elf fsize md base segs → loaded_upto m s elf base segs shnum m' →
  ld 4 (mem s) (md + mod_count) = segments_of m elf shoff shnum →
  Z.of_nat (length (places m elf shoff base shnum)) = segments_of m elf shoff shnum →
  image_end m elf shoff base shnum <= hi → image_loaded m' md base hi.
Proof.
  intros Hr Hup Hcount Hlen Hhi. pose proof (ef_aligned _ _ _ (ir_file _ _ _ _ _ _ _ Hr)) as Hal.
  pose proof (shnum_range m elf) as Hn.
  destruct (placed_well m elf shoff base shnum shnum Hal ltac:(lia)) as [(W1 & W2 & W3) _].
  assert (Hmd : ∀ f, 0 <= f <= 80 → ld 4 m' (md + f) = ld 4 (mem s) (md + f)).
  { intros f Hf. unfold ld. f_equal. apply ld_bytes_ext. intros i Hi.
    eapply (readers_kept m s elf fsize md base segs shnum); [done|lia|done|right; unfold sizeof_module; lia]. }
  assert (Haddr : ∀ k, section_address m' md k =
    address_of_index m' segs (Z.of_nat (length (places m elf shoff base shnum))) k).
  { intros k. unfold section_address. rewrite !Hmd by (unfold mod_segments, mod_count; lia).
    by rewrite Hcount, (ir_segments _ _ _ _ _ _ _ Hr), Hlen. }
  pose proof (proj2 Hup) as Hseg.
  assert (Hput : ∀ j k a, places m elf shoff base shnum !! j = Some (k, a) → section_address m' md k = a).
  { intros j k a Hj. rewrite Haddr. eapply address_of_places; [| |exact Hj].
    - intros j' k' a' Hj'. destruct (Hseg _ _ _ Hj') as (? & ? & _). done.
    - intros i' j' k1 k2 a1 a2 Hij Hi' Hj'. by apply (W2 i' j' k1 k2 a1 a2). }
  split.
  - by rewrite Hmd by (unfold mod_count; lia).
  - rewrite !Hmd by (unfold mod_count, mod_segments; lia). rewrite Hcount, <- Hlen, (ir_segments _ _ _ _ _ _ _ Hr).
    apply (ir_segs _ _ _ _ _ _ _ Hr).
  - intros k Hk Hl. destruct (W3 k Hk Hl) as (j & a & Hj). rewrite (Hput j k a Hj).
    destruct (W1 j k a Hj) as (_ & _ & ? & ? & ?). destruct (Hseg j k a Hj) as (_ & _ & _ & ?).
    split_and!; (done || lia).
  - intros k k' Hk Hk' Hl Hl'. destruct (W3 k ltac:(lia) Hl) as (j & a & Hj). destruct (W3 k' ltac:(lia) Hl') as (j' & a' & Hj').
    rewrite (Hput j k a Hj), (Hput j' k' a' Hj'). assert ((j < j')%nat ∨ j = j' ∨ (j' < j)%nat) as [H|[->|H]] by lia.
    + by apply (W2 j j' k k' a a').
    + rewrite Hj in Hj'. injection Hj' as -> _. lia.
    + destruct (W2 j' j k' k a' a H Hj' Hj). lia.
  - intros k Hk Hl. rewrite Haddr. apply address_of_absent.
    + intros j' k' a' Hj'. by destruct (Hseg _ _ _ Hj').
    + intros j a Hj. destruct (W1 j k a Hj) as (_ & E & _). by rewrite Hl in E.
Qed.
End Image.

(** ** Loading an image *)
Lemma segments_bound m elf shoff n : 0 <= n → 0 <= segments_of m elf shoff n <= n.
Proof.
  intros Hn. destruct (Z_of_nat_complete n) as [c ->]; [done|]. clear Hn. unfold segments_of, places.
  induction c as [|c IH]; [done|]. rewrite Nat2Z.inj_succ, <- Z.add_1_r, placed_snoc by lia. unfold place_step.
  destruct (is_loaded _ _ _ _); [|lia]. cbn [fst]. rewrite length_app. cbn [length]. lia.
Qed.

Lemma image_size_range m elf shoff n : 0 <= n → 0 <= image_size m elf shoff n < 4294967296.
Proof.
  intros Hn. destruct (Z_of_nat_complete n) as [c ->]; [done|]. clear Hn. destruct c as [|c]; [done|].
  rewrite Nat2Z.inj_succ, <- Z.add_1_r. unfold image_size. rewrite measured_snoc by lia.
  destruct (measured _ _ _ _) as [[sz al] x]. apply u32_range.
Qed.

(** How far the heap may grow for the image of a file. *)
Definition image_cost (m : gmap Z Z) (elf : Z) : Z :=
  let shoff := ld 4 m (elf + e_shoff) in let n := ld 2 m (elf + e_shnum) in
  cost (sizeof_segment * segments_of m elf shoff n) +
  (2 * sizeof_head + image_align m elf shoff n + image_size m elf shoff n).

(** A file with something to load and a module descriptor that the heap does not
    touch; the image is as large as the loop over the sections thinks. *)
Record load_ready (s : machine) (bs : list block) (elf fsize md : Z) : Prop := LoadReady {
  lr_heap : heap_inv s bs;
  lr_file : elf_file (mem s) elf fsize;
  lr_count : 0 < segments_of (mem s) elf (ld 4 (mem s) (elf + e_shoff)) (ld 2 (mem s) (elf + e_shnum));
  lr_fits : image_end (mem s) elf (ld 4 (mem s) (elf + e_shoff)) 0 (ld 2 (mem s) (elf + e_shnum))
            <= image_size (mem s) elf (ld 4 (mem s) (elf + e_shoff)) (ld 2 (mem s) (elf + e_shnum));
  lr_stable : stable_region s bs (image_cost (mem s) elf + 16) elf fsize;
  lr_md : stable_region s bs (image_cost (mem s) elf + 16) md sizeof_module;
  lr_apart : disjoint elf fsize md sizeof_module;
  lr_room : heap_end s bs + image_cost (mem s) elf < 4294967296;
}.

Lemma change_bytes s bs s' bs' new g W a n x :
  heap_change s bs s' bs' [] new g W → stable_region s bs g a n → (∀ y, W y → outside a n y) → a <= x < a + n →
  ld8 (mem s') x = ld8 (mem s) x.
Proof.
  intros Hch [_ Hs] HW Hx. apply (ch_frame _ _ _ _ _ _ _ _ Hch); [by apply Hs|by intros b ?%not_elem_of_nil|].
  intros Hw. specialize (HW _ Hw). unfold outside in HW. lia.
Qed.

Lemma stable_sub s bs g a n b k :
  stable_region s bs g a n → a <= b → 0 <= k → b + k <= a + n → stable_region s bs g b k.
Proof. intros [Hsp H] ???. unfold in_space in Hsp. split; [unfold in_space; lia|]. intros x Hx. apply H. lia. Qed.
Lemma change_stable_region s bs s' bs' new g W h a n :
  heap_change s bs s' bs' [] new g W → 0 <= h → stable_region s bs (g + h) a n → stable_region s' bs' h a n.
Proof.
  intros Hch Hh [Hsp H]. split; [done|]. intros x Hx. eapply change_stable; [done|done|by apply H|by intros b ?%not_elem_of_nil].
Qed.

(** The two blocks of a module whose descriptor is at [md]: [count] segments and
    an image of [sz] bytes. *)
Lemma allocate_blocks s bs md count sz e :
  let g1 := cost (sizeof_segment * count) in let g2 := align_cost sz e in let W := within (md + mod_count) 8 in
  heap_inv s bs → 0 < count < 65536 → 0 < sz < 4294967296 → 0 <= e < 32 →
  stable_region s bs (g1 + g2) md sizeof_module → heap_end s bs + (g1 + g2) < 4294967296 →
  ∃ segs img s2 s4 bs4,
    bl_heap_alloc (u32 (count * sizeof_segment)) (set_mem (st 4 (mem s) (md + mod_count) count) s) = Some (b_data segs, s2) ∧
    bl_heap_alloc_align sz (2 ^ e) (set_mem (st 4 (mem s2) (md + mod_segments) (b_data segs)) s2) = Some (b_data img, s4) ∧
    heap_change s bs s4 bs4 [] [segs; img] (g1 + g2) W ∧ segs ≠ img ∧
    (sizeof_segment * count <= b_size segs ∧ sz <= b_size img ∧ b_data img mod 2 ^ e = 0 ∧ 0 < b_data segs ∧ 0 < b_data img) ∧
    ld 4 (mem s4) (md + mod_count) = count ∧ ld 4 (mem s4) (md + mod_segments) = b_data segs.
Proof.
  intros g1 g2 W Hinv Hc Hsz He Hmd Hroom. pose proof (pow2_32 e He) as Hp.
  assert (Hg : 0 <= g1 ∧ 0 <= g2) by (unfold g1, g2, cost, align_cost, sizeof_head, sizeof_segment; lia). pose proof Hmd as [Hsp _].
  unfold in_space, sizeof_module, mod_count, mod_segments in *.
  assert (C1 : heap_change s bs (set_mem (st 4 (mem s) (md + 64) count) s) bs [] [] 0 W).
  { eapply change_weaken; [| |apply write_change; [done|]]; [lia| |].
    - intros x. unfold W, within, mod_count. cbn [length le_split]. lia.
    - eapply stable_region_weaken; [|eapply (stable_sub _ _ _ _ _ _ _ Hmd); cbn [length le_split]; lia]. lia. }
  set (s1 := set_mem _ s) in *. pose proof (ch_end _ _ _ _ _ _ _ _ C1) as He1.
  destruct (alloc_change s1 bs (sizeof_segment * count)) as (segs & bs2 & s2 & Hrun1 & C2 & Hs1 & Hs2 & Hs3);
    [apply C1|unfold sizeof_segment; lia|unfold room, g1, g2, cost, align_cost, sizeof_head, sizeof_segment in *; lia|].
  fold g1 in C2. pose proof (change_new s bs s1 bs s2 bs2 [] [segs] 0 g1 W ltac:(lia) ltac:(lia) C1
    (change_weaken _ _ _ _ _ _ g1 g1 (λ _, False) W ltac:(lia) ltac:(done) C2)) as C12. cbn [app] in C12. rewrite Z.add_0_l in C12.
  pose proof (change_stable_region _ _ _ _ _ g1 _ g2 _ _ C12 ltac:(lia) Hmd) as Hmd2.
  assert (C3 : heap_change s bs (set_mem (st 4 (mem s2) (md + 68) (b_data segs)) s2) bs2 [] [segs] g1 W).
  { eapply change_write_in; [done|eapply stable_region_weaken; [|eapply (stable_sub _ _ _ _ _ _ _ Hmd2)]; cbn [length le_split]; lia|].
    intros x. unfold W, within, mod_count. cbn [length le_split]. lia. }
  set (s3 := set_mem _ s2) in *. pose proof (ch_end _ _ _ _ _ _ _ _ C3) as He3.
  assert (Hu2 : in_use bs2 segs) by (apply (ch_used _ _ _ _ _ _ _ _ C12); right; by apply list_elem_of_singleton).
  destruct (alloc_align_change s3 bs2 sz e) as (img & bs4 & s4 & Hrun2 & Hmod & C4 & Hi1 & Hi2 & Hi3);
    [apply C3|intros ->; by destruct Hu2 as [?%not_elem_of_nil _]|done|done|unfold room, g2, align_cost, sizeof_head in *; lia|].
  fold g2 in C4. pose proof (change_new s bs s3 bs2 s4 bs4 [segs] [img] g1 g2 W ltac:(lia) ltac:(lia) C3
    (change_weaken _ _ _ _ _ _ g2 g2 (λ _, False) W ltac:(lia) ltac:(done) C4)) as C. cbn [app] in C.
  assert (Hne : segs ≠ img).
  { intros ->. by apply (ch_fresh _ _ _ _ _ _ _ _ C4 img (list_elem_of_here _ _)). }
  exists segs, img, s2, s4, bs4. rewrite u32_small by (unfold sizeof_segment; lia). rewrite (Z.mul_comm count).
  split; [done|]. split; [done|]. split; [done|]. split; [done|]. split; [done|].
  pose proof (change_stable_region _ _ _ _ _ g1 _ g2 _ _ C3 ltac:(lia) Hmd) as Hmd3.
  assert (Hlast : ∀ f, 0 <= f <= 80 → ld 4 (mem s4) (md + f) = ld 4 (mem s3) (md + f)).
  { intros f Hf. unfold ld. f_equal. apply ld_bytes_ext. intros i Hi. eapply change_bytes; [exact C4|exact Hmd3|done|lia]. }
  rewrite !Hlast by lia. unfold s3. rewrite mem_set_mem. split.
  - rewrite ld_st_other by field_side. replace (ld 4 (mem s2) (md + 64)) with (ld 4 (mem s1) (md + 64)).
    + unfold s1. rewrite mem_set_mem, ld_st_same by field_side. apply Z.mod_small. change (256 ^ Z.of_nat 4) with 4294967296. lia.
    + unfold ld. f_equal. apply ld_bytes_ext. intros i Hi. symmetry.
      eapply (change_bytes _ _ _ _ _ _ _ md 84); [exact C2| |done|lia].
      apply (change_stable_region _ _ _ _ _ 0 _ g1 _ _ C1); [lia|]. eapply stable_region_weaken; [|exact Hmd]. lia.
  - rewrite ld_st_same by field_side. apply Z.mod_small. change (256 ^ Z.of_nat 4) with 4294967296. unfold b_end, sizeof_segment in *; lia.
Qed.

Lemma disjoint_points a n b k :
  0 < n → 0 < k → (∀ x, a <= x < a + n → outside b k x) → disjoint b k a n.
Proof. intros Hn Hk H. specialize (H (Z.max a b)). unfold outside, disjoint in *. lia. Qed.

(** The blocks are ready to be filled. *)
Lemma blocks_ready s bs elf fsize md segs img s4 bs4 e :
  let m := mem s in let shoff := ld 4 m (elf + e_shoff) in let n := ld 2 m (elf + e_shnum) in
  load_ready s bs elf fsize md → image_align m elf shoff n = 2 ^ e → 0 <= e < 32 →
  (∀ k, 0 <= k < n → is_loaded m elf shoff k = true → ∃ e', 0 <= e' <= e ∧ sh_field m elf shoff k sh_addralign = 2 ^ e') →
  heap_change s bs s4 bs4 [] [segs; img] (image_cost m elf) (within (md + mod_count) 8) → segs ≠ img →
  sizeof_segment * segments_of m elf shoff n <= b_size segs → image_size m elf shoff n <= b_size img →
  b_data img mod 2 ^ e = 0 → 0 < b_data segs → 0 < b_data img → ld 4 (mem s4) (md + mod_segments) = b_data segs →
  Z.of_nat (length (places m elf shoff (b_data img) n)) = segments_of m elf shoff n ∧
  image_end m elf shoff (b_data img) n <= b_end img ∧
  image_ready m s4 elf fsize md (b_data img) (b_data segs).
Proof.
  intros m shoff n Hr Eal He Hdiv C Hne Hs1 Hi1 Hmod Hs2 Hi2 Hseg.
  pose proof (shnum_range m elf) as Hn. fold n in Hn.
  assert (Hsh : placed m elf shoff (b_data img) n =
    ((λ '(k, a), (k, b_data img + a)) <$> places m elf shoff 0 n, b_data img + image_end m elf shoff 0 n)).
  { apply placed_shift; [lia|]. intros k Hk Hl. destruct (Hdiv k Hk Hl) as (e' & He' & ->).
    split; [apply pow2_32; lia|]. by apply (divides_pow2 _ e). }
  assert (Hlen : length (places m elf shoff (b_data img) n) = length (places m elf shoff 0 n)).
  { unfold places at 1. rewrite Hsh. cbn [fst]. apply length_fmap. }
  assert (Hend : image_end m elf shoff (b_data img) n = b_data img + image_end m elf shoff 0 n).
  { unfold image_end at 1. by rewrite Hsh. }
  pose proof (lr_fits _ _ _ _ _ Hr) as Hfit. pose proof (lr_count _ _ _ _ _ Hr) as Hcount. fold m shoff n in Hfit, Hcount.
  pose proof (ch_inv _ _ _ _ _ _ _ _ C) as Hinv. pose proof (heap_inv_laid_out _ _ Hinv) as Hl.
  assert (Hus : in_use bs4 segs) by (apply (ch_used _ _ _ _ _ _ _ _ C); right; apply list_elem_of_here).
  assert (Hui : in_use bs4 img) by (apply (ch_used _ _ _ _ _ _ _ _ C); right; apply list_elem_of_further, list_elem_of_here).
  pose proof (ch_end _ _ _ _ _ _ _ _ C) as He4. pose proof (lr_room _ _ _ _ _ Hr) as Hroom. fold m in Hroom.
  pose proof (heap_below _ _ _ Hinv (proj1 Hus)) as [_ ?]. pose proof (heap_below _ _ _ Hinv (proj1 Hui)) as [_ ?].
  destruct (placed_well m elf shoff (b_data img) n n) as [(W1 & _) Hb0]; [apply (lr_file _ _ _ _ _ Hr)|lia|].
  unfold segments_of in *. rewrite Hlen. split; [done|]. split; [unfold b_end; lia|].
  pose proof (lr_md _ _ _ _ _ Hr) as Hmd. pose proof (lr_stable _ _ _ _ _ Hr) as Hst. fold m in Hmd, Hst.
  pose proof (slot_bounds segs). pose proof (slot_bounds img).
  assert (Hout : ∀ a k b len, stable_region s bs (image_cost m elf + 16) a k → 0 < k → b ∈ [segs; img] → 0 < len <= b_size b →
    disjoint (b_data b) len a k).
  { intros a k b len [_ Hstb] Hk Hb Hbl. apply disjoint_points; [done|lia|]. intros x Hx.
    pose proof (outside_payload _ _ (change_new_outside _ _ _ _ _ _ _ _ b x C Hb (Hstb x Hx)
      ltac:(by intros c ?%not_elem_of_nil))) as Ho. unfold outside in *. lia. }
  assert (Hpos : 0 < image_end m elf shoff (b_data img) n - b_data img).
  { destruct (lookup_lt_is_Some_2 (places m elf shoff (b_data img) n) 0) as [[k a] Hk]; [unfold segments_of in *; lia|].
    destruct (W1 _ _ _ Hk) as (_ & Hlk%loaded_size & ? & ? & _). lia. }
  pose proof (lr_file _ _ _ _ _ Hr) as Hf. pose proof (ef_header _ _ _ Hf).
  split.
  - done.
  - intros x Hx. eapply change_bytes; [exact C| | |exact Hx].
    + eapply stable_region_weaken; [|exact Hst]. lia.
    + pose proof (lr_apart _ _ _ _ _ Hr) as Hap. unfold within, outside, disjoint, mod_count, sizeof_module in *. lia.
  - done.
  - fold shoff n. unfold b_end in *. lia.
  - fold shoff n. rewrite Hlen. destruct (laid_out_in _ segs Hl (proj1 Hus)) as (? & ? & ? & ?). unfold in_space, b_end, b_data, sizeof_head, sizeof_segment in *. lia.
  - apply Hmd.
  - fold shoff n. rewrite Hlen, Hend. destruct (slots_apart _ segs img Hl (proj1 Hus) (proj1 Hui)) as [|[?|?]]; [done|..].
    all: unfold disjoint, b_end, b_data, sizeof_head, sizeof_segment in *; lia.
  - fold shoff n. rewrite Hlen, Hend. assert (0 < fsize) by lia. assert (0 < sizeof_module) by (unfold sizeof_module; lia).
    assert (0 < sizeof_segment) by (unfold sizeof_segment; lia).
    constructor; [|constructor; [|constructor]]; (constructor; [|constructor; [|constructor]]); unfold apart; cbn [fst snd];
      apply Hout; try done; rewrite ?Hend in Hpos; try nia; (apply list_elem_of_here || apply list_elem_of_further, list_elem_of_here).
Qed.

Lemma load_image_run s bs elf fsize md :
  load_ready s bs elf fsize md →
  ∃ segs img bs' s', bl_elf_load_image elf md s = Some (BL_STATUS_SUCCESS, s') ∧
    heap_change s bs s' bs' [] [segs; img] (image_cost (mem s) elf) (within (md + mod_count) 8) ∧
    image_loaded (mem s) elf (mem s') md (b_data img) (b_end img) ∧ segs ≠ img ∧
    ld 4 (mem s') (md + mod_segments) = b_data segs ∧ sizeof_segment * ld 4 (mem s') (md + mod_count) <= b_size segs.
Proof.
  intros Hr. set (m := mem s). set (shoff := ld 4 m (elf + e_shoff)). set (n := ld 2 m (elf + e_shnum)).
  pose proof (shnum_range m elf) as Hn. fold n in Hn.
  pose proof (ef_aligned _ _ _ (lr_file _ _ _ _ _ Hr)) as Hal. fold m shoff n in Hal.
  pose proof (segments_bound m elf shoff n ltac:(lia)) as Hcn. pose proof (image_size_range m elf shoff n ltac:(lia)) as Hszr.
  pose proof (lr_count _ _ _ _ _ Hr) as Hcount. pose proof (lr_fits _ _ _ _ _ Hr) as Hfit. fold m shoff n in Hcount, Hfit.
  destruct (measured_align m elf shoff n Hal ltac:(lia)) as (e & He & Eal & Hdiv).
  assert (Ecost : image_cost m elf = cost (sizeof_segment * segments_of m elf shoff n) + align_cost (image_size m elf shoff n) e).
  { unfold image_cost, align_cost. fold shoff n. by rewrite Eal. }
  assert (Hpos : 0 < image_size m elf shoff n).
  { destruct (placed_well m elf shoff 0 n n Hal ltac:(lia)) as [(W1 & _) _].
    destruct (lookup_lt_is_Some_2 (places m elf shoff 0 n) 0) as [[k a] Hk]; [unfold segments_of in *; lia|].
    destruct (W1 _ _ _ Hk) as (_ & Hlk%loaded_size & ? & ? & _). lia. }
  destruct (allocate_blocks s bs md (segments_of m elf shoff n) (image_size m elf shoff n) e)
    as (segs & img & s2 & s4 & bs4 & Hrun1 & Hrun2 & C & Hne & (Hs1 & Hi1 & Hmod & Hs2 & Hi2) & Hmc & Hms);
    [apply Hr|lia|lia|done|rewrite <- Ecost; eapply stable_region_weaken; [|apply (lr_md _ _ _ _ _ Hr)]; fold m; lia|
     rewrite <- Ecost; apply (lr_room _ _ _ _ _ Hr)|].
  rewrite <- Ecost in C.
  destruct (blocks_ready s bs elf fsize md segs img s4 bs4 e) as (Hlen & Hend & Hready); [done..|].
  change (image_end m elf shoff (b_data img) n <= b_end img) in Hend.
  change (Z.of_nat (length (places m elf shoff (b_data img) n)) = segments_of m elf shoff n) in Hlen.
  destruct (load_sections_run m s4 elf fsize md _ _ Hready) as (m' & Hrun3 & Hup).
  assert (Hmd : ∀ f, 0 <= f <= 80 → ld 4 m' (md + f) = ld 4 (mem s4) (md + f)).
  { intros f Hf. apply same_on_ld. intros x Hx. eapply (readers_kept m s4 elf fsize md _ _ n); [exact Hready|lia|exact Hup|].
    right. unfold sizeof_module. lia. }
  exists segs, img, bs4, (set_mem m' s4). split_and!.
  - apply wp_exact. unfold bl_elf_load_image. wp_step. wp_step. wp_step. wp_step. fold m shoff n. wp_known (image_layout_run elf shoff n s ltac:(lia)).
    fold m. destruct (measured m elf shoff n) as [[sz al] c] eqn:Em. pose proof (measured_count m elf shoff n ltac:(lia)) as Ec.
    unfold image_size, image_align in *. rewrite Em in *. cbn [fst snd] in *. subst al c.
    wp_step. wp_step. wp_known Hrun1. wp_step. wp_step. unfold is_null.
    destruct (Z.eqb_spec (b_data segs) 0); [lia|]. wp_known Hrun2. destruct (Z.eqb_spec (b_data img) 0); [lia|].
    fold shoff in Hrun3. wp_known Hrun3. by wp_step.
  - pose proof (proj1 Hup) as Hk. fold shoff n in Hk. eapply change_keeps; [exact C|exact Hk|].
    intros r [->|[->|?%not_elem_of_nil]%elem_of_cons]%elem_of_cons; [| |done]; cbn [fst snd].
    + exists img. split; [apply list_elem_of_further, list_elem_of_here|]. lia.
    + exists segs. split; [apply list_elem_of_here|]. rewrite Hlen. unfold b_end. lia.
  - rewrite mem_set_mem. eapply loaded_image; [exact Hready|exact Hup|exact Hmc|exact Hlen|exact Hend].
  - done.
  - rewrite mem_set_mem, <- Hms. by apply Hmd.
  - rewrite mem_set_mem, Hmd, Hmc by (unfold mod_count; lia). done.
Qed.

(** An image fits if no alignment is larger than those before it, but for the
    sections before the first one that is loaded. *)
Lemma image_fits m elf shoff n :
  aligned_sections m elf shoff n → 0 <= n →
  (∀ k, 0 <= k < n → image_size m elf shoff k + image_align m elf shoff k + sh_field m elf shoff k sh_size < 4294967296) →
  (∀ k, 0 <= k < n → is_loaded m elf shoff k = true →
     sh_field m elf shoff k sh_addralign <= image_align m elf shoff k ∨ image_end m elf shoff 0 k = 0) →
  image_end m elf shoff 0 n <= image_size m elf shoff n.
Proof.
  intros Hal Hn. destruct (Z_of_nat_complete n) as [c ->]; [done|]. clear Hn. induction c as [|c IH]; [done|].
  rewrite Nat2Z.inj_succ, <- Z.add_1_r in *. intros Hsum Hgrow.
  assert (IH' : image_end m elf shoff 0 (Z.of_nat c) <= image_size m elf shoff (Z.of_nat c)).
  { apply IH; intros k Hk; [apply Hal|apply Hsum|apply Hgrow]; lia. }
  clear IH. set (k := Z.of_nat c) in *. specialize (Hsum k ltac:(lia)). specialize (Hgrow k ltac:(lia)).
  destruct (measured_align m elf shoff k) as (e & He & Eal & _); [intros j Hj; apply Hal; lia|lia|].
  destruct (placed_well m elf shoff 0 k (k + 1) Hal ltac:(lia)) as [_ H0].
  pose proof (pow2_32 e He) as Hp. pose proof (image_size_range m elf shoff k ltac:(lia)) as Hszr.
  pose proof (ld4_range m (section_at elf shoff k + sh_size)) as Hsz. fold (sh_field m elf shoff k sh_size) in Hsz.
  unfold image_size, image_align, image_end in *. rewrite measured_snoc, placed_snoc by lia.
  destruct (measured m elf shoff k) as [[isz al] x]. cbn [fst snd image_step] in *. subst al.
  destruct (round_up_spec isz (2 ^ e) ltac:(lia)) as [Hr1 Hr2]. rewrite align_up_pow2, u32_small by lia.
  unfold place_step. destruct (is_loaded m elf shoff k) eqn:El; [|lia]. cbn [snd].
  destruct (loaded_align _ _ _ _ k Hal ltac:(lia) El) as (d & Hd & Ed). rewrite Ed in *. pose proof (pow2_32 d Hd) as Hpd.
  assert (round_up (placed m elf shoff 0 k).2 (2 ^ d) <= round_up isz (2 ^ e)); [|lia].
  destruct (Hgrow eq_refl) as [Hle|E0].
  - apply Z.pow_le_mono_r_iff in Hle; [|lia..]. apply round_up_least; [lia|lia|]. apply (divides_pow2 _ e); [lia|done].
  - rewrite E0, round_up_id by (lia || by rewrite Z.mod_0_l by lia). lia.
Qed.

(** ** Properties *)

(** C4: On a file whose alignments are powers of two and whose image is as large
    as [bl_elf_load_image] measures it, with room in the heap, the function
    succeeds and takes two blocks from the heap, the segment table and the
    image.  Afterwards [bl_elf_section_by_index] finds every section that is to
    be loaded at an aligned place inside the image, in the order of the file and
    without overlap; the place holds the section's data, or zeros up to the last
    byte when it is empty in the file; it finds no other section.  Nothing
    changes outside the new blocks and the two fields of the module's descriptor
    that refer to them. *)
Theorem elf_load_image_correct s bs elf fsize md :
  load_ready s bs elf fsize md →
  ∃ segs img bs' s', bl_elf_load_image elf md s = Some (BL_STATUS_SUCCESS, s') ∧
    heap_change s bs s' bs' [] [segs; img] (image_cost (mem s) elf) (within (md + mod_count) 8) ∧
    image_loaded (mem s) elf (mem s') md (b_data img) (b_end img) ∧
    ∀ k, bl_elf_section_by_index md k s' = Some (section_address (mem s') md k, s').
Proof.
  intros Hr. destruct (load_image_run s bs elf fsize md Hr) as (segs & img & bs' & s' & Hrun & Hch & Hil & _).
  exists segs, img, bs', s'. do 3 (split; [done|]). intros k.
  pose proof (shnum_range (mem s) elf). pose proof (il_table _ _ _ _ _ _ Hil) as Ht. pose proof (il_count _ _ _ _ _ _ Hil) as Hc.
  pose proof (segments_bound (mem s) elf (ld 4 (mem s) (elf + e_shoff)) (ld 2 (mem s) (elf + e_shnum)) ltac:(lia)).
  apply section_by_index_run; [lia|apply Ht].
Qed.

(** A file at 0x10000 with three sections to load, [.text], [.data] and [.bss];
    a module descriptor at 0x11000, and an empty heap. *)
Definition file_of (sections : list (Z * Z * Z * Z)) : gmap Z Z :=
  let m := st 2 (st 4 ∅ (0x10000 + e_shoff) 52) (0x10000 + e_shnum) (Z.of_nat (length sections)) in
  (foldl (λ '(m, h) '(type, flags, sz, al),
     (st 4 (st 4 (st 4 (st 4 (st 4 m (h + sh_type) type) (h + sh_flags) flags) (h + sh_offset) 220) (h + sh_size) sz)
        (h + sh_addralign) al, h + sizeof_Elf32_Shdr)) (m, 0x10000 + 52) sections).1.
Definition text_data_bss : machine :=
  set_mem (st_bytes (file_of [(0, 0, 0, 0); (SHT_PROGBITS, 6, 5, 16); (SHT_PROGBITS, 3, 4, 4); (SHT_NOBITS, 3, 8, 4)])
             (0x10000 + 220) [1; 2; 3; 4; 5]) heap_empty.

Lemma text_data_bss_ready : load_ready text_data_bss [] 0x10000 256 0x11000.
Proof.
  assert (Hsec : ∀ k, 0 <= k < 4 → k = 0 ∨ k = 1 ∨ k = 2 ∨ k = 3) by lia. split.
  - exact heap_empty_inv.
  - split; [split; [lia|unfold in_space; lia]|lia|by vm_compute|..].
    + intros k [->|[->|[->| ->]]]%Hsec; [right; by vm_compute|left..]; [exists 4|exists 2|exists 2]; split; (lia || by vm_compute).
    + intros k [->|[->|[->| ->]]]%Hsec _ _; by vm_compute.
  - by vm_compute.
  - by vm_compute.
  - split; [unfold in_space; lia|]. intros x Hx. split; [lia|]. left. change (bl_heap text_data_bss) with 0x100000. lia.
  - split; [unfold in_space, sizeof_module; lia|]. intros x Hx. unfold sizeof_module in Hx. split; [lia|]. left.
    change (bl_heap text_data_bss) with 0x100000. lia.
  - unfold disjoint. lia.
  - by vm_compute.
Qed.

Lemma elf_load_image_correct_witness :
  ∃ segs img bs' s', bl_elf_load_image 0x10000 0x11000 text_data_bss = Some (BL_STATUS_SUCCESS, s') ∧
    heap_change text_data_bss [] s' bs' [] [segs; img] (image_cost (mem text_data_bss) 0x10000) (within (0x11000 + mod_count) 8) ∧
    image_loaded (mem text_data_bss) 0x10000 (mem s') 0x11000 (b_data img) (b_end img) ∧
    ∀ k, bl_elf_section_by_index 0x11000 k s' = Some (section_address (mem s') 0x11000 k, s').
Proof. apply (elf_load_image_correct text_data_bss [] 0x10000 256 0x11000), text_data_bss_ready. Defined.

(** The image is measured with the alignment seen so far.  A section of 4 bytes
    aligned to 4 and one aligned to 16 get an image of 8 bytes; the second one is
    loaded 16 bytes behind its start, where the next header of the heap goes. *)
Definition growing_alignment : machine :=
  set_mem (file_of [(0, 0, 0, 0); (SHT_PROGBITS, 3, 4, 4); (SHT_PROGBITS, 3, 4, 16)]) heap_empty.

Example image_overflows :
  ∃ s', bl_elf_load_image 0x10000 0x11000 growing_alignment = Some (BL_STATUS_SUCCESS, s') ∧
    heap_inv s' [Block 0x100000 24 true; Block 0x100030 8 true] ∧
    section_address (mem s') 0x11000 1 = 0x100040 ∧ section_address (mem s') 0x11000 2 = 0x100050.
Proof. eexists. split; [vm_compute; reflexivity|]. by vm_compute. Qed.

(** A section without an alignment (0) is loaded at address 0, and not copied. *)
Definition no_alignment : machine :=
  set_mem (st_bytes (file_of [(0, 0, 0, 0); (SHT_PROGBITS, 3, 4, 0)]) (0x10000 + 220) [1; 2; 3; 4]) heap_empty.

Example unaligned_section_lost :
  ∃ s', bl_elf_load_image 0x10000 0x11000 no_alignment = Some (BL_STATUS_SUCCESS, s') ∧
    section_address (mem s') 0x11000 1 = 0 ∧ ld_bytes (mem s') 0 4 = [0; 0; 0; 0].
Proof. eexists. split; [vm_compute; reflexivity|]. by vm_compute. Qed.
