(* ===== verification/ElfSymbols.v ===== *)
(** * Proofs about the ELF loader: the symbols of a module

    [bl_elf_load_symbols] gives every symbol its value: the address of its
    section, or of the exported symbol it refers to.  The search among the
    exported symbols is an interface, [SymbolFinder]; the table of the BIOS
    executable implements it. *)
From Stdlib Require Import String.
From S2P Require Import Prelude Memory Regions Arith Status Strings StringsProofs Heap Print PrintProofs.
From S2P Require Import Symbols SymbolsProofs Elf ElfProofs ElfImage.
#[local] Open Scope Z_scope.

(** ** What the loader asks of [bl_symbols_find] *)
Definition region_of (p : Z) (l : list Z) : Z * Z := (p, Z.of_nat (length l) + 1).

Class SymbolFinder (env : loader_env) := {
  exports : list Z → option (Z * Z);          (* the address and the type of a name *)
  finder_ok : gmap Z Z → Prop;
  finder_reads : list (Z * Z);
  finder_writes : list (Z * Z);
  finder_apart : each_apart finder_writes finder_reads;
  finder_space m : finder_ok m → Forall (λ r, in_space r.1 r.2) finder_reads;
  finder_frame m m' : finder_ok m → Forall (λ r, same_on r.1 r.2 m m') finder_reads → finder_ok m';
  finder_run s name l :
    finder_ok (mem s) → cstr (mem s) name l → Forall (λ r, apart r (region_of name l)) finder_writes →
    ∃ m', symbols_find env name (l_exsymbol env) s =
        Some (match exports l with Some _ => BL_STATUS_SUCCESS | None => BL_STATUS_UNKNOWN_SYMBOL end, set_mem m' s) ∧
      keeps finder_writes (mem s) m' ∧
      match exports l with
      | Some (a, type) =>
          let ex := ld 4 m' (l_exsymbol env) in
          (ex, sizeof_export_symbol) ∈ finder_writes ∧ in_space ex sizeof_export_symbol ∧
          ld 4 m' (ex + ex_address) = a ∧ ld 4 m' (ex + ex_type) = type
      | None => True
      end;
}.
#[global] Arguments exports env {_} _.
#[global] Arguments finder_ok env {_} _.
#[global] Arguments finder_reads env {_}.
#[global] Arguments finder_writes env {_}.

(** ** Reading what a step keeps *)
Lemma same_on_cstr m m' p l : same_on p (Z.of_nat (length l) + 1) m m' → cstr m p l → cstr m' p l.
Proof. intros H. apply cstr_ext. intros i Hi. symmetry. apply H. lia. Qed.
Lemma keeps_cstr rs m m' p l :
  keeps rs m m' → Forall (λ r, apart r (region_of p l)) rs → cstr m p l → cstr m' p l.
Proof.
  intros Hk Hap Hc. pose proof Hc as (Hp & Hend & _). revert Hc. apply cstr_ext. intros i Hi. symmetry.
  apply Hk; [lia|]. eapply Forall_impl; [exact Hap|]. intros r. unfold apart, disjoint, outside, region_of. cbn [fst snd]. lia.
Qed.

(** A section's address depends on two fields of the descriptor and on the table of segments. *)
Lemma keeps_section_address rs m m' md k :
  keeps rs m m' → in_space md sizeof_module →
  in_space (ld 4 m (md + mod_segments)) (sizeof_segment * ld 4 m (md + mod_count)) →
  Forall (λ r, apart r (md + mod_count, 8)) rs →
  Forall (λ r, apart r (ld 4 m (md + mod_segments), sizeof_segment * ld 4 m (md + mod_count))) rs →
  section_address m' md k = section_address m md k ∧
  ld 4 m' (md + mod_segments) = ld 4 m (md + mod_segments) ∧ ld 4 m' (md + mod_count) = ld 4 m (md + mod_count).
Proof.
  intros Hk Hmd Hseg H1 H2. unfold in_space, sizeof_module in Hmd.
  assert (E : ∀ f, f = mod_count ∨ f = mod_segments → ld 4 m' (md + f) = ld 4 m (md + f)).
  { intros f Hf. apply (keeps_ld rs); [done|unfold mod_count, mod_segments, in_space in *; lia|].
    eapply Forall_impl; [exact H1|]. intros r. unfold apart, disjoint, mod_count, mod_segments in *. cbn [fst snd]. lia. }
  unfold section_address. rewrite !E by auto. split; [|done].
  set (segs := ld 4 m (md + mod_segments)) in *. set (count := ld 4 m (md + mod_count)) in *. unfold address_of_index.
  assert (Eseg : ∀ i f n, 0 <= i < count → 0 <= f → f + Z.of_nat n <= 12 →
    ld n m' (segs + sizeof_segment * i + f) = ld n m (segs + sizeof_segment * i + f)).
  { intros i f n Hi Hf Hn. unfold sizeof_segment, in_space in *. apply (keeps_ld rs); [done|unfold in_space; lia|].
    eapply Forall_impl; [exact H2|]. intros r. unfold apart, disjoint. cbn [fst snd]. lia. }
  assert (Ef : List.find (λ i, segment_index m' segs i =? k) (seqZ 0 count) = List.find (λ i, segment_index m segs i =? k) (seqZ 0 count)).
  { apply find_ext_in. intros i Hi. apply list_elem_of_In, elem_of_seqZ in Hi. unfold segment_index.
    by rewrite Eseg by (unfold seg_index; lia). }
  rewrite Ef. destruct (List.find (λ i, segment_index m segs i =? k) (seqZ 0 count)) as [i|] eqn:Ei; [|done].
  apply List.find_some in Ei as [Hi _]. apply list_elem_of_In, elem_of_seqZ in Hi.
  unfold segment_address. apply Eseg; unfold seg_address; lia.
Qed.

(** ** What becomes of a symbol *)
Definition initialize_name : list Z := literal "bl_module_initialize".
Definition uninitialize_name : list Z := literal "bl_module_uninitialize".

Section Table.
Context `{SymbolFinder env} (m : gmap Z Z) (md symtab : Z) (name_at : Z → Z) (names : Z → list Z).

Definition sym (j : Z) : Z := symtab + sizeof_Elf32_Sym * j.
Definition sym_type (j : Z) : Z := ELF32_ST_TYPE (ld8 m (sym j + st_info)).
Definition sym_shndx (j : Z) : Z := ld 2 m (sym j + st_shndx).
Definition sym_value (j : Z) : Z := ld 4 m (sym j + st_value).

(** A data symbol without a section refers to an exported symbol. *)
Definition is_import (j : Z) : bool :=
  ((sym_type j =? STT_NOTYPE) || (sym_type j =? STT_OBJECT)) &&
  (truth (ld 4 m (sym j + st_name)) && (sym_shndx j =? SHN_UNDEF)).

(** The value a symbol gets, if it can be resolved, when the sections are at [address]. *)
Definition resolved_at (address : Z → Z) (j : Z) : option Z :=
  if is_import j then
    match exports env (names j) with Some (a, _) => Some (u32 (a + image_base env)) | None => None end
  else if (sym_type j =? STT_FUNC) || (sym_type j =? STT_NOTYPE) || (sym_type j =? STT_OBJECT) then
    Some (u32 (sym_value j + address (sym_shndx j)))
  else if sym_type j =? STT_SECTION then Some (address (sym_shndx j))
  else if sym_type j =? STT_FILE then Some 0
  else None.
Definition resolved : Z → option Z := resolved_at (section_address m md).

(** Its new [st_info]: that of an imported function is replaced. *)
Definition new_info (j : Z) : Z :=
  match is_import j, exports env (names j) with
  | true, Some (_, type) =>
      if type =? BL_EXPORT_TYPE_FUNC then ELF32_ST_INFO (sym_type j) STT_FUNC else ld8 m (sym j + st_info)
  | _, _ => ld8 m (sym j + st_info)
  end.

(** The status of a symbol that cannot be resolved, and what is printed. *)
Definition symbol_failure (j : Z) : bl_status_t := if is_import j then BL_STATUS_UNKNOWN_SYMBOL else BL_STATUS_INVALID_ELF.
Definition symbol_message (j : Z) : list Z :=
  if is_import j then literal "`" ++ names j ++ literal "' is either unexported or doesn't exist
" else [].

(** The entry points after symbol [j]: a function with their name sets them. *)
Definition entry_point_at (address : Z → Z) (lit : list Z) (j old : Z) : Z :=
  if (sym_type j =? STT_FUNC) && bool_decide (names j = lit) then default 0 (resolved_at address j) else old.
Definition entry_point : list Z → Z → Z → Z := entry_point_at (section_address m md).

(** What the loop writes, and what it goes on reading. *)
Definition symbol_writes (j : Z) : list (Z * Z) := [(sym j + st_value, 4); (sym j + st_info, 1); (md + mod_init, 8)].
Definition segment_table : Z * Z :=
  (ld 4 m (md + mod_segments), sizeof_segment * ld 4 m (md + mod_count)).

Record symbol_ready (j : Z) : Prop := SymbolReady {
  sr_symbol : in_space (sym j) sizeof_Elf32_Sym;
  sr_md : in_space md sizeof_module;
  sr_segments : in_space (ld 4 m (md + mod_segments)) (sizeof_segment * ld 4 m (md + mod_count)) ∧ ld 4 m (md + mod_count) < 2147483648;
  sr_name : cstr m (name_at j) (names j);
  sr_initialize : cstr m (lit_initialize env) initialize_name;
  sr_uninitialize : cstr m (lit_uninitialize env) uninitialize_name;
  sr_reads : each_apart (symbol_writes j ++ finder_writes env)
    [(md + mod_count, 8); segment_table; region_of (name_at j) (names j);
     region_of (lit_initialize env) initialize_name; region_of (lit_uninitialize env) uninitialize_name];
  sr_apart : each_apart (finder_writes env) [(sym j, sizeof_Elf32_Sym); (md, sizeof_module)] ∧
             apart (sym j, sizeof_Elf32_Sym) (md, sizeof_module);
  sr_finder : finder_ok env m;
}.
End Table.

(** What is known of a symbol depends on its 16 bytes. *)
Lemma symbol_bytes `{SymbolFinder env} m symtab names m' j :
  ld_bytes m' (sym symtab j) 16 = ld_bytes m (sym symtab j) 16 →
  sym_type m' symtab j = sym_type m symtab j ∧ is_import m' symtab j = is_import m symtab j ∧
  (∀ address, resolved_at m' symtab names address j = resolved_at m symtab names address j) ∧
  new_info m' symtab names j = new_info m symtab names j ∧
  ld 4 m' (sym symtab j + st_name) = ld 4 m (sym symtab j + st_name).
Proof.
  intros Hb.
  assert (E : ∀ i k, (i + k <= 16)%nat → ld k m' (sym symtab j + Z.of_nat i) = ld k m (sym symtab j + Z.of_nat i)).
  { intros i k Hik. unfold ld. by rewrite <- !(slice_ld_bytes _ (sym symtab j) 16), Hb by done. }
  assert (E1 : ld8 m' (sym symtab j + st_info) = ld8 m (sym symtab j + st_info)).
  { change st_info with (Z.of_nat 12). rewrite <- !(nth_of_ld_bytes _ (sym symtab j) 16) by lia. by rewrite Hb. }
  pose proof (E 0%nat 4%nat ltac:(lia)) as E2. pose proof (E 4%nat 4%nat ltac:(lia)) as E3. pose proof (E 14%nat 2%nat ltac:(lia)) as E4.
  change (Z.of_nat 0) with st_name in E2. change (Z.of_nat 4) with st_value in E3. change (Z.of_nat 14) with st_shndx in E4.
  unfold new_info, resolved_at, is_import, sym_value, sym_type, sym_shndx. by rewrite E1, E2, E3, E4.
Qed.
Lemma resolved_ext `{SymbolFinder env} m symtab names A B j :
  (∀ k, A k = B k) → resolved_at m symtab names A j = resolved_at m symtab names B j.
Proof. intros H'. unfold resolved_at. by rewrite !H'. Qed.

Ltac in_list := unfold symbol_writes; rewrite ?elem_of_app, ?elem_of_cons; solve [auto 12].

Lemma each_apart_col rs qs q : each_apart rs qs → q ∈ qs → Forall (λ r, apart r q) rs.
Proof. intros H Hq. apply Forall_forall. intros r Hr. by eapply apart_each. Qed.

Section Symbol.
Context `{SymbolFinder env} (s : machine) (md symtab : Z) (name_at : Z → Z) (names : Z → list Z) (j : Z).
#[local] Abbreviation m := (mem s).
#[local] Abbreviation place := (sym symtab j).
#[local] Abbreviation writes := (symbol_writes md symtab j ++ finder_writes env).
Hypothesis Hready : symbol_ready m md symtab name_at names j.

Lemma section_run m' k :
  keeps writes m m' → bl_elf_section_by_index md k (set_mem m' s) = Some (section_address m md k, set_mem m' s).
Proof.
  intros Hk. destruct Hready as [_ Hmd [Hseg Hc] _ _ _ Hr _ _].
  destruct (keeps_section_address writes m m' md k) as (Ea & Es & Ec); [done..|eapply each_apart_col; [exact Hr|in_list]|
    eapply each_apart_col; [exact Hr|in_list]|].
  rewrite <- Ea. unfold in_space in Hseg. apply section_by_index_run; rewrite mem_set_mem; rewrite ?Es, ?Ec; lia.
Qed.

(** The string of the symbol is compared with one of the two entry points. *)
Lemma entry_compare_run m' lit l :
  keeps writes m m' → (lit, l) = (lit_initialize env, initialize_name) ∨ (lit, l) = (lit_uninitialize env, uninitialize_name) →
  ∃ c, bl_strcmp (name_at j) lit (set_mem m' s) = Some (c, set_mem m' s) ∧ negb (truth c) = bool_decide (names j = l).
Proof.
  intros Hk Hlit. destruct Hready as [_ _ _ Hn Hi Hu Hr _ _].
  assert (cstr m lit l ∧ Forall (λ r, apart r (region_of lit l)) writes) as [Hl Hap].
  { destruct Hlit as [[= -> ->]|[= -> ->]]; (split; [done|]); (eapply each_apart_col; [exact Hr|in_list]). }
  assert (Hn' : cstr m' (name_at j) (names j)).
  { eapply keeps_cstr; [exact Hk| |exact Hn]. eapply each_apart_col; [exact Hr|in_list]. }
  assert (Hl' : cstr m' lit l) by (eapply keeps_cstr; [exact Hk|exact Hap|exact Hl]).
  eexists. split; [by apply bl_strcmp_run; rewrite mem_set_mem|].
  pose proof Hn' as (_ & _ & F1 & _). pose proof Hl' as (_ & _ & F2 & _). pose proof (str_diff_id_zero _ _ F1 F2) as E.
  unfold truth. rewrite negb_involutive. destruct (Z.eqb_spec (str_diff id (names j) l) 0) as [E0|E0].
  - symmetry. apply bool_decide_true. by apply E.
  - symmetry. apply bool_decide_false. intros Heq. by apply E0, E.
Qed.

(** The fields of the descriptor are no part of the symbol. *)
Lemma symbol_md : disjoint place sizeof_Elf32_Sym md sizeof_module ∧ in_space place sizeof_Elf32_Sym ∧ in_space md sizeof_module.
Proof. destruct Hready as [H1 H2 _ _ _ _ _ [_ H3] _]. done. Qed.

(** Storing the value of a symbol, and of an entry point. *)
Lemma keeps_value m' v : keeps writes m m' → keeps writes m (st 4 m' (place + st_value) v).
Proof.
  intros Hk. destruct symbol_md as (_ & Hp & _). unfold in_space, sizeof_Elf32_Sym in Hp.
  apply (keeps_st_in _ _ _ _ _ _ (place + st_value, 4)); [done|unfold in_space, st_value; lia|in_list|cbn [fst]; lia|cbn [fst snd]; lia].
Qed.
Lemma keeps_entry m' f v : keeps writes m m' → f = mod_init ∨ f = mod_uninit → keeps writes m (st 4 m' (md + f) v).
Proof.
  intros Hk Hf. destruct symbol_md as (_ & _ & Hp). unfold in_space, sizeof_module, mod_init, mod_uninit in *.
  apply (keeps_st_in _ _ _ _ _ _ (md + mod_init, 8)); [done|unfold in_space; lia|in_list|cbn [fst]; unfold mod_init; lia|cbn [fst snd]; unfold mod_init; lia].
Qed.
Definition symbol_done (m' : gmap Z Z) (v : Z) : Prop :=
  keeps writes m m' ∧ ld 4 m' (place + st_value) = v ∧ ld8 m' (place + st_info) = new_info m symtab names j ∧
  ld 4 m' (md + mod_init) = entry_point m md symtab names initialize_name j (ld 4 m (md + mod_init)) ∧
  ld 4 m' (md + mod_uninit) = entry_point m md symtab names uninitialize_name j (ld 4 m (md + mod_uninit)).

(** A symbol that gets the value [v] and is no function. *)
Lemma value_done v :
  sym_type m symtab j ≠ STT_FUNC → is_import m symtab j = false → symbol_done (st 4 m (place + st_value) v) (u32 v).
Proof.
  intros Hf Hi. destruct symbol_md as (Hd & Hp & Hmd).
  unfold in_space, disjoint, sizeof_Elf32_Sym, sizeof_module in *.
  split; [by apply keeps_value, keeps_refl|]. unfold entry_point, entry_point_at, new_info. rewrite Hi.
  destruct (Z.eqb_spec (sym_type m symtab j) STT_FUNC); [done|]. cbn [andb].
  unfold st_value, st_info, mod_init, mod_uninit in *. split; [|split; [|split]].
  - by rewrite ld_st_same by field_side.
  - by past_writes.
  - by past_writes.
  - by past_writes.
Qed.

Lemma function_run :
  sym_type m symtab j = STT_FUNC →
  ∃ m', bl_elf_resolve_symbol env place (name_at j) md s = Some (BL_STATUS_SUCCESS, set_mem m' s) ∧
    symbol_done m' (u32 (sym_value m symtab j + section_address m md (sym_shndx m symtab j))).
Proof.
  intros Hf. destruct symbol_md as (Hd & Hp & Hmd). set (base := section_address m md (sym_shndx m symtab j)).
  unfold in_space, disjoint, sizeof_Elf32_Sym, sizeof_module in *.
  set (v := u32 (sym_value m symtab j + base)). set (m1 := st 4 m (place + st_value) (sym_value m symtab j + base)).
  assert (Hk1 : keeps writes m m1) by (by apply keeps_value, keeps_refl).
  assert (Hv : ld 4 m1 (place + st_value) = v) by (unfold m1; rewrite ld_st_same by (unfold st_value; field_side); done).
  set (m2 := if bool_decide (names j = initialize_name) then st 4 m1 (md + mod_init) v else m1).
  assert (Hk2 : keeps writes m m2) by (unfold m2; destruct (bool_decide _); [apply keeps_entry; auto|done]).
  set (m3 := if bool_decide (names j = uninitialize_name) then st 4 m2 (md + mod_uninit) v else m2).
  exists m3. split.
  - apply wp_exact. unfold bl_elf_resolve_symbol. wp_steps. fold (sym_type m symtab j). rewrite Hf. change (STT_FUNC =? STT_FUNC) with true.
    cbv beta iota. wp_steps. fold (sym_shndx m symtab j) (sym_value m symtab j).
    pose proof (section_run m (sym_shndx m symtab j) (keeps_refl _ _)) as Hsec. rewrite set_mem_id in Hsec.
    apply wp_run. eexists _, _. split; [exact Hsec|]. wp_steps. fold base m1. rewrite mem_set_mem, Hv.
    destruct (entry_compare_run m1 (lit_initialize env) initialize_name Hk1 ltac:(auto)) as (c & Hc & Ec).
    apply wp_run. eexists _, _. split; [exact Hc|]. rewrite Ec. wp_step.
    assert (wp (if bool_decide (names j = initialize_name) then wr32 (md + mod_init) v else mret ()) (λ _ t, t = set_mem m2 s) (set_mem m1 s)) as Hw.
    { unfold m2. destruct (bool_decide _); by wp_steps. }
    eapply wp_mono; [exact Hw|]. intros [] t ->. wp_step.
    destruct (entry_compare_run m2 (lit_uninitialize env) uninitialize_name Hk2 ltac:(auto)) as (c' & Hc' & Ec').
    apply wp_run. eexists _, _. split; [exact Hc'|]. rewrite Ec'. unfold m3.
    destruct (bool_decide (names j = uninitialize_name)); by wp_steps.
  - unfold symbol_done, entry_point, entry_point_at, new_info, resolved, resolved_at, is_import. fold base. rewrite Hf.
    change (STT_FUNC =? STT_NOTYPE) with false. change (STT_FUNC =? STT_OBJECT) with false. change (STT_FUNC =? STT_FUNC) with true.
    cbn [orb andb default]. fold v. split; [unfold m3; destruct (bool_decide (names j = uninitialize_name)); [apply keeps_entry; auto|done]|].
    assert (Hvr : 0 <= v < 4294967296) by apply u32_range. unfold st_value, st_info, mod_init, mod_uninit in *.
    unfold m3, m2.
    destruct (bool_decide (names j = initialize_name)), (bool_decide (names j = uninitialize_name)); split_and!; past_writes; rewrite ?ld4_st4_same by (done || field_side);
      rewrite ?Hv; unfold m1; by past_writes.
Qed.
Lemma finder_keeps m' a n :
  keeps (finder_writes env) m m' →
  (place <= a ∧ a + Z.of_nat n <= place + sizeof_Elf32_Sym) ∨ (md <= a ∧ a + Z.of_nat n <= md + sizeof_module) →
  ld_bytes m' a n = ld_bytes m a n.
Proof.
  intros Hk Ha. destruct Hready as [_ _ _ _ _ _ _ [Hap _] _]. destruct symbol_md as (_ & Hp & Hmd). unfold in_space in *.
  apply (keeps_ld_bytes (finder_writes env)); [done|unfold in_space; lia|].
  destruct Ha as [Ha|Ha]; [pose proof (each_apart_col _ _ (place, sizeof_Elf32_Sym) Hap ltac:(in_list)) as Hc|
    pose proof (each_apart_col _ _ (md, sizeof_module) Hap ltac:(in_list)) as Hc];
    (eapply Forall_impl; [exact Hc|]); intros r; unfold apart, disjoint; cbn [fst snd]; lia.
Qed.
Lemma keeps_st8_in rs m1 m2 a v : keeps rs m1 m2 → 0 <= a < 4294967296 → (a, 1) ∈ rs → keeps rs m1 (st8 m2 a v).
Proof.
  intros Hk Ha Hin b Hb Ho. rewrite Forall_forall in Ho. pose proof (Ho _ Hin) as Hba. cbn [fst snd] in Hba.
  rewrite ld8_st8_ne; [apply Hk; [done|by apply Forall_forall]|done|done|]. unfold outside in Hba. lia.
Qed.

(** The memory after an import: the value, and the kind of the symbol if it is a function. *)
Lemma import_done m' a type :
  is_import m symtab j = true → exports env (names j) = Some (a, type) → keeps (finder_writes env) m m' →
  let m1 := st 4 m' (place + st_value) (a + image_base env) in
  symbol_done (if type =? BL_EXPORT_TYPE_FUNC then st8 m1 (place + st_info) (ELF32_ST_INFO (sym_type m symtab j) STT_FUNC) else m1)
    (u32 (a + image_base env)).
Proof.
  intros Hi Ex Hkf m1. destruct symbol_md as (Hd & Hp & Hmd).
  assert (Hk : keeps writes m m') by (eapply keeps_weaken; [exact Hkf|]; intros r ?; apply elem_of_app; by right).
  unfold symbol_done, new_info, entry_point, entry_point_at. rewrite Hi, Ex. pose proof Hi as Ht.
  unfold is_import in Ht. apply andb_true_iff in Ht as [Ht _].
  assert (Hf : (sym_type m symtab j =? STT_FUNC) = false).
  { apply orb_true_iff in Ht as [E|E]; apply Z.eqb_eq in E; rewrite E; done. }
  rewrite Hf. cbn [andb].
  assert (Hb : ld8 m' (place + st_info) = ld8 m (place + st_info)).
  { pose proof (finder_keeps m' (place + st_info) 1 Hkf ltac:(left; unfold sizeof_Elf32_Sym, st_info; lia)) as E. by injection E. }
  assert (Hm : ∀ f, 0 <= f <= 80 → ld 4 m' (md + f) = ld 4 m (md + f)).
  { intros f ?. unfold ld. f_equal. apply finder_keeps; [done|]. right. unfold sizeof_module. lia. }
  unfold in_space, disjoint, sizeof_Elf32_Sym, sizeof_module in *.
  assert (Hk1 : keeps writes m m1) by (by apply keeps_value).
  assert (Hv : ld 4 m1 (place + st_value) = u32 (a + image_base env)).
  { unfold m1. rewrite ld_st_same by (unfold st_value; field_side). done. }
  split; [destruct (type =? BL_EXPORT_TYPE_FUNC); [apply keeps_st8_in; [done|unfold st_info; lia|in_list]|done]|].
  unfold m1, st_value, st_info, mod_init, mod_uninit in *. destruct (type =? BL_EXPORT_TYPE_FUNC); rewrite ?st8_bytes; split_and!.
  all: try (rewrite ld8_one_byte; apply u8_idemp).
  all: rewrite ?ld_st_bytes_other by field_side; try done.
  all: past_writes; try done; apply Hm; lia.
Qed.

(** An imported symbol: the search, and what is made of its result. *)
Lemma import_run :
  is_import m symtab j = true →
  match resolved m md symtab names j with
  | Some v => ∃ m', bl_elf_resolve_symbol env place (name_at j) md s = Some (BL_STATUS_SUCCESS, set_mem m' s) ∧ symbol_done m' v
  | None => ∃ m', bl_elf_resolve_symbol env place (name_at j) md s =
      Some (symbol_failure m symtab j, emitted (symbol_message m symtab names j) (set_mem m' s)) ∧ keeps (finder_writes env) m m'
  end.
Proof.
  intros Hi. pose proof Hready as [_ _ _ Hn _ _ Hr [Hfa _] Hfok]. destruct symbol_md as (Hd & Hp & Hmd).
  destruct (finder_run s (name_at j) (names j)) as (m' & Hrun & Hkf & Hres); [done|done| |].
  { eapply Forall_app. eapply each_apart_col; [exact Hr|in_list]. }
  assert (Hk : keeps writes m m') by (eapply keeps_weaken; [exact Hkf|]; intros r ?; apply elem_of_app; by right).
  unfold resolved, resolved_at. rewrite Hi. pose proof Hi as Hi'. unfold is_import in Hi'. apply andb_true_iff in Hi' as [Ht Hu].
  assert (Hf : (sym_type m symtab j =? STT_FUNC) = false).
  { apply orb_true_iff in Ht as [E|E]; apply Z.eqb_eq in E; rewrite E; done. }
  assert (Hcode : ∀ v t, wp (
      status ← symbols_find env (name_at j) (l_exsymbol env);
      if failed status then report_unknown (name_at j);; mret status
      else
        ex ← rd32 (l_exsymbol env);
        address ← rd32 (ex + ex_address);
        wr32 (place + st_value) (address + image_base env);;
        xtype ← rd32 (ex + ex_type);
        (if xtype =? BL_EXPORT_TYPE_FUNC
         then wr8 (place + st_info) (ELF32_ST_INFO (sym_type m symtab j) STT_FUNC)
         else mret ());;
        mret BL_STATUS_SUCCESS) (λ x t', x = v ∧ t' = t) s → bl_elf_resolve_symbol env place (name_at j) md s = Some (v, t)).
  { intros v t Hw. apply wp_exact. unfold bl_elf_resolve_symbol. wp_step. wp_step. wp_step. wp_step.
    fold (sym_type m symtab j) (sym_shndx m symtab j). rewrite Hf, Ht. cbv beta iota. wp_step. wp_step. rewrite Hu. exact Hw. }
  destruct (exports env (names j)) as [[a type]|] eqn:Ex.
  - destruct Hres as (Hin & Hxs & Ha & Hty). set (ex := ld 4 m' (l_exsymbol env)) in *.
    pose proof (apart_each _ _ _ (place, sizeof_Elf32_Sym) Hfa Hin ltac:(in_list)) as Hap1.
    unfold apart, disjoint, in_space, sizeof_Elf32_Sym, sizeof_module, sizeof_export_symbol in *. cbn [fst snd] in Hap1.
    set (m1 := st 4 m' (place + st_value) (a + image_base env)).
    exists (if type =? BL_EXPORT_TYPE_FUNC then st8 m1 (place + st_info) (ELF32_ST_INFO (sym_type m symtab j) STT_FUNC) else m1). split.
    + apply Hcode. wp_step. apply wp_run. eexists _, _. split; [exact Hrun|]. change (failed BL_STATUS_SUCCESS) with false. cbv iota.
      wp_steps. rewrite !mem_set_mem. fold ex. rewrite Ha, set_mem_set_mem. fold m1.
      replace (ld 4 m1 (ex + ex_type)) with type by (unfold m1, ex_type, st_value in *; rewrite ld_st_other by field_side; done).
      destruct (type =? BL_EXPORT_TYPE_FUNC); by wp_steps.
    + apply import_done; [done|by rewrite Ex|done].
  - exists m'. split; [|done]. apply Hcode. wp_step. apply wp_run. eexists _, _. split; [exact Hrun|].
    change (failed BL_STATUS_UNKNOWN_SYMBOL) with true. cbv iota. wp_step. unfold report_unknown. wp_step.
    apply wp_run. eexists _, _. split; [apply print_literal_run|]. wp_step. apply wp_run. eexists _, _. split.
    { apply (print_str_run _ (names j)). rewrite mem_emitted, mem_set_mem. eapply keeps_cstr; [exact Hk| |exact Hn].
      eapply each_apart_col; [exact Hr|in_list]. }
    apply wp_run. eexists _, _. split; [apply print_literal_run|]. wp_step. unfold symbol_failure, symbol_message. rewrite Hi.
    by rewrite !emitted_app.
Qed.
Lemma section_address_range m' k : 0 <= section_address m' md k < 4294967296.
Proof. unfold section_address, address_of_index. destruct (List.find _ _); [apply ld4_range|lia]. Qed.

(** The other kinds of symbols. *)
Lemma local_run :
  is_import m symtab j = false → sym_type m symtab j ≠ STT_FUNC →
  match resolved m md symtab names j with
  | Some v => ∃ m', bl_elf_resolve_symbol env place (name_at j) md s = Some (BL_STATUS_SUCCESS, set_mem m' s) ∧ symbol_done m' v
  | None => bl_elf_resolve_symbol env place (name_at j) md s = Some (BL_STATUS_INVALID_ELF, s)
  end.
Proof.
  intros Hi Hf. pose proof (section_run m (sym_shndx m symtab j) (keeps_refl _ _)) as Hsec. rewrite set_mem_id in Hsec.
  assert (Hcode : ∀ v t, wp (
      if (sym_type m symtab j =? STT_NOTYPE) || (sym_type m symtab j =? STT_OBJECT) then
        (value ← rd32 (place + st_value);
         base ← bl_elf_section_by_index md (sym_shndx m symtab j);
         wr32 (place + st_value) (value + base));; mret BL_STATUS_SUCCESS
      else if sym_type m symtab j =? STT_SECTION then
        base ← bl_elf_section_by_index md (sym_shndx m symtab j);
        wr32 (place + st_value) base;; mret BL_STATUS_SUCCESS
      else if sym_type m symtab j =? STT_FILE then wr32 (place + st_value) 0;; mret BL_STATUS_SUCCESS
      else mret BL_STATUS_INVALID_ELF) (λ x t', x = v ∧ t' = t) s → bl_elf_resolve_symbol env place (name_at j) md s = Some (v, t)).
  { intros v t Hw. apply wp_exact. unfold bl_elf_resolve_symbol. wp_step. wp_step. wp_step. wp_step.
    fold (sym_type m symtab j) (sym_shndx m symtab j). destruct (Z.eqb_spec (sym_type m symtab j) STT_FUNC); [done|]. cbv zeta.
    unfold is_import in Hi. destruct ((sym_type m symtab j =? STT_NOTYPE) || _); [|exact Hw]. cbn [andb] in Hi.
    wp_step. wp_step. rewrite Hi. exact Hw. }
  unfold resolved, resolved_at. rewrite Hi. destruct (Z.eqb_spec (sym_type m symtab j) STT_FUNC); [done|]. cbn [orb].
  destruct ((sym_type m symtab j =? STT_NOTYPE) || (sym_type m symtab j =? STT_OBJECT)).
  - eexists. split; [|by apply value_done]. apply Hcode. wp_steps. apply wp_run. eexists _, _. split; [exact Hsec|]. by wp_steps.
  - destruct (sym_type m symtab j =? STT_SECTION).
    { rewrite <- (u32_small (section_address m md _)) by apply section_address_range.
      eexists. split; [|by apply value_done]. apply Hcode. wp_steps. apply wp_run. eexists _, _. split; [exact Hsec|]. by wp_steps. }
    destruct (sym_type m symtab j =? STT_FILE).
    { eexists. split; [|change 0 with (u32 0); by apply value_done]. apply Hcode. by wp_steps. }
    apply Hcode. by wp_steps.
Qed.

Lemma resolve_run :
  match resolved m md symtab names j with
  | Some v => ∃ m', bl_elf_resolve_symbol env place (name_at j) md s = Some (BL_STATUS_SUCCESS, set_mem m' s) ∧ symbol_done m' v
  | None => ∃ m', bl_elf_resolve_symbol env place (name_at j) md s =
      Some (symbol_failure m symtab j, emitted (symbol_message m symtab names j) (set_mem m' s)) ∧ keeps (finder_writes env) m m'
  end.
Proof.
  destruct (is_import m symtab j) eqn:Hi; [by apply import_run|].
  destruct (decide (sym_type m symtab j = STT_FUNC)) as [Hf|Hf].
  - destruct (function_run Hf) as (m' & Hrun & Hd). unfold resolved, resolved_at. rewrite Hi, Hf. by exists m'.
  - pose proof (local_run Hi Hf) as Hr. destruct (resolved _ _ _ _ _); [done|]. exists m. split; [|apply keeps_refl].
    unfold symbol_failure, symbol_message. by rewrite Hr, Hi, emitted_nil, set_mem_id.
Qed.
End Symbol.

(** ** A table of symbols *)
Lemma each_apart_cols rs qs : (∀ q, q ∈ qs → Forall (λ r, apart r q) rs) → each_apart rs qs.
Proof.
  intros H'. apply Forall_forall. intros r Hr. apply Forall_forall. intros q Hq. specialize (H' q Hq).
  rewrite Forall_forall in H'. by apply H'.
Qed.
Lemma apart_sub a n b k q : apart (a, n) q → a <= b → b + k <= a + n → apart (b, k) q.
Proof. unfold apart, disjoint. cbn [fst snd]. lia. Qed.
Lemma keeps_cover rs qs m m' :
  keeps rs m m' → (∀ r, r ∈ rs → ∃ q, q ∈ qs ∧ q.1 <= r.1 ∧ r.1 + r.2 <= q.1 + q.2) → keeps qs m m'.
Proof.
  intros Hk Hin a Ha Ho. apply Hk; [done|]. rewrite Forall_forall in *. intros r Hr. destruct (Hin r Hr) as (q & Hq & ? & ?).
  specialize (Ho q Hq). unfold outside in *. lia.
Qed.

Section SymbolTable.
Context `{SymbolFinder env} (m : gmap Z Z) (md symtab n : Z) (name_at : Z → Z) (names : Z → list Z).
#[local] Abbreviation place j := (sym symtab j).
#[local] Abbreviation value_of := (resolved m md symtab names).

Definition table_writes : list (Z * Z) := [(symtab, sizeof_Elf32_Sym * n); (md + mod_init, 8)] ++ finder_writes env.

(** The table, the descriptor and what the search writes lie apart from each
    other and from everything that the loop reads. *)
Record table_ready : Prop := TableReady {
  tr_symbols : 0 <= n ∧ in_space symtab (sizeof_Elf32_Sym * n);
  tr_md : in_space md sizeof_module;
  tr_segments : in_space (ld 4 m (md + mod_segments)) (sizeof_segment * ld 4 m (md + mod_count)) ∧ ld 4 m (md + mod_count) < 2147483648;
  tr_names j : 0 <= j < n → cstr m (name_at j) (names j);
  tr_initialize : cstr m (lit_initialize env) initialize_name;
  tr_uninitialize : cstr m (lit_uninitialize env) uninitialize_name;
  tr_reads : each_apart table_writes
    ([(md + mod_count, 8); segment_table m md; region_of (lit_initialize env) initialize_name;
      region_of (lit_uninitialize env) uninitialize_name] ++ finder_reads env);
  tr_name_reads j : 0 <= j < n → each_apart table_writes [region_of (name_at j) (names j)];
  tr_apart : each_apart (finder_writes env) [(symtab, sizeof_Elf32_Sym * n); (md, sizeof_module)] ∧
             apart (symtab, sizeof_Elf32_Sym * n) (md, sizeof_module);
  tr_finder : finder_ok env m;
}.

(** Memory after the first [k] symbols. *)
Definition entry_after (lit : list Z) (k old : Z) : Z := foldl (λ old j, entry_point m md symtab names lit j old) old (seqZ 0 k).
Record table_result (k : Z) (m' : gmap Z Z) : Prop := TableResult {
  ts_keeps : keeps table_writes m m';
  ts_done j : 0 <= j < k → value_of j = Some (ld 4 m' (place j + st_value)) ∧ ld8 m' (place j + st_info) = new_info m symtab names j;
  ts_rest j : k <= j < n → ld_bytes m' (place j) 16 = ld_bytes m (place j) 16;
  ts_init : ld 4 m' (md + mod_init) = entry_after initialize_name k (ld 4 m (md + mod_init));
  ts_uninit : ld 4 m' (md + mod_uninit) = entry_after uninitialize_name k (ld 4 m (md + mod_uninit));
}.

(** A symbol that is as it was, with the sections where they were. *)
Lemma same_symbol m' j :
  ld_bytes m' (place j) 16 = ld_bytes m (place j) 16 → (∀ k, section_address m' md k = section_address m md k) →
  sym_type m' symtab j = sym_type m symtab j ∧ is_import m' symtab j = is_import m symtab j ∧
  resolved m' md symtab names j = value_of j ∧ new_info m' symtab names j = new_info m symtab names j ∧
  ld 4 m' (place j + st_name) = ld 4 m (place j + st_name).
Proof.
  intros Hb Hs. destruct (symbol_bytes m symtab names m' j Hb) as (E1 & E2 & E3 & E4 & E5). split_and!; [done|done| |done|done].
  unfold resolved. rewrite E3. by apply resolved_ext.
Qed.
Hypothesis Hready : table_ready.

Lemma table_place j : 0 <= j < n → in_space (place j) sizeof_Elf32_Sym ∧ symtab <= place j ∧ place j + sizeof_Elf32_Sym <= symtab + sizeof_Elf32_Sym * n.
Proof. intros Hj. destruct (tr_symbols Hready) as [_ Hs]. unfold in_space, sym, sizeof_Elf32_Sym in *. lia. Qed.

Lemma table_section m' k :
  keeps table_writes m m' →
  section_address m' md k = section_address m md k ∧
  ld 4 m' (md + mod_segments) = ld 4 m (md + mod_segments) ∧ ld 4 m' (md + mod_count) = ld 4 m (md + mod_count).
Proof.
  intros Hk. apply (keeps_section_address table_writes); [done|apply Hready|apply Hready|..].
  - eapply each_apart_col; [apply (tr_reads Hready)|]. in_list.
  - eapply each_apart_col; [apply (tr_reads Hready)|]. unfold segment_table. in_list.
Qed.

(** What a symbol writes is part of what the table writes. *)
Lemma writes_covered j r :
  0 <= j < n → r ∈ symbol_writes md symtab j ++ finder_writes env →
  ∃ q, q ∈ table_writes ∧ q.1 <= r.1 ∧ r.1 + r.2 <= q.1 + q.2.
Proof.
  intros Hj [Hr|Hr]%elem_of_app; [|exists r; split; [unfold table_writes; apply elem_of_app; by right|lia]].
  destruct (table_place j Hj) as (_ & ? & ?). unfold symbol_writes, table_writes in *.
  repeat (apply elem_of_cons in Hr as [->|Hr]); [..|by apply not_elem_of_nil in Hr].
  - exists (symtab, sizeof_Elf32_Sym * n). split; [in_list|]. unfold st_value, sizeof_Elf32_Sym in *. cbn [fst snd]. lia.
  - exists (symtab, sizeof_Elf32_Sym * n). split; [in_list|]. unfold st_info, sizeof_Elf32_Sym in *. cbn [fst snd]. lia.
  - exists (md + mod_init, 8). split; [in_list|lia].
Qed.
Lemma symbol_apart j qs : 0 <= j < n → each_apart table_writes qs → each_apart (symbol_writes md symtab j ++ finder_writes env) qs.
Proof.
  intros Hj Hqs. apply Forall_forall. intros r Hr. destruct (writes_covered j r Hj Hr) as (q & Hq & ? & ?).
  apply Forall_forall. intros x Hx. pose proof (apart_each _ _ _ _ Hqs Hq Hx) as Ha. unfold apart, disjoint in *. lia.
Qed.

Lemma table_symbol m' j :
  0 <= j < n → keeps table_writes m m' → symbol_ready m' md symtab name_at names j.
Proof.
  intros Hj Hk. destruct (table_place j Hj) as (Hp & Hp1 & Hp2). destruct (table_section m' 0 Hk) as (_ & Es & Ec).
  pose proof (tr_reads Hready) as Hrd. pose proof (tr_name_reads Hready j Hj) as Hnr.
  assert (Hcol : ∀ q, q ∈ [(md + mod_count, 8); segment_table m md; region_of (lit_initialize env) initialize_name;
      region_of (lit_uninitialize env) uninitialize_name] ++ finder_reads env → Forall (λ r, apart r q) table_writes)
    by (intros q Hq; exact (each_apart_col _ _ _ Hrd Hq)).
  split.
  - done.
  - apply Hready.
  - rewrite Es, Ec. apply (tr_segments Hready).
  - eapply keeps_cstr; [exact Hk| |by apply (tr_names Hready)]. eapply each_apart_col; [exact Hnr|in_list].
  - eapply keeps_cstr; [exact Hk|apply Hcol; in_list|apply Hready].
  - eapply keeps_cstr; [exact Hk|apply Hcol; in_list|apply Hready].
  - apply symbol_apart; [done|]. unfold segment_table. rewrite Es, Ec. fold (segment_table m md). apply each_apart_cols.
    intros q Hq. repeat (apply elem_of_cons in Hq as [->|Hq]); [..|by apply not_elem_of_nil in Hq]; try (apply Hcol; in_list).
    eapply each_apart_col; [exact Hnr|in_list].
  - destruct (tr_apart Hready) as [Ha1 Ha2]. split; [|by eapply apart_sub].
    apply each_apart_cols. intros q Hq. apply elem_of_cons in Hq as [->|Hq%list_elem_of_singleton].
    + pose proof (each_apart_col _ _ (symtab, sizeof_Elf32_Sym * n) Ha1 ltac:(in_list)) as Hc.
      eapply Forall_impl; [exact Hc|]. intros r Hr. apply apart_sym. apply (apart_sub symtab (sizeof_Elf32_Sym * n)); [apply apart_sym, Hr|done|done].
    + subst q. eapply each_apart_col; [exact Ha1|in_list].
  - eapply finder_frame; [apply (tr_finder Hready)|]. apply Forall_forall. intros q Hq. eapply keeps_same_on; [exact Hk| |].
    + pose proof (finder_space m (tr_finder Hready)) as Hsp. rewrite Forall_forall in Hsp. by apply Hsp.
    + destruct q as [a k]. apply Hcol. apply elem_of_app. by right.
Qed.
(** A step at symbol [j] does not touch the others. *)
Lemma other_symbols m1 m2 i j :
  0 <= i < n → 0 <= j < n → i ≠ j → keeps (symbol_writes md symtab j ++ finder_writes env) m1 m2 →
  ld_bytes m2 (place i) 16 = ld_bytes m1 (place i) 16.
Proof.
  intros Hi Hj Hne Hk. destruct (table_place i Hi) as (Hpi & Hi1 & Hi2), (table_place j Hj) as (Hpj & _). destruct (tr_apart Hready) as [Ha1 Ha2].
  pose proof (tr_md Hready) as Hmd.
  eapply keeps_ld_bytes; [exact Hk|exact Hpi|]. change (Z.of_nat 16) with sizeof_Elf32_Sym. apply Forall_app. split.
  - unfold symbol_writes. repeat (apply Forall_cons; split); [..|constructor];
      unfold apart, disjoint, sym, sizeof_Elf32_Sym, sizeof_module, st_value, st_info, mod_init, in_space in *; cbn [fst snd] in *; lia.
  - pose proof (each_apart_col _ _ (symtab, sizeof_Elf32_Sym * n) Ha1 ltac:(in_list)) as Hc.
    eapply Forall_impl; [exact Hc|]. intros r Hr. apply apart_sym. apply (apart_sub symtab (sizeof_Elf32_Sym * n)); [apply apart_sym, Hr|done|done].
Qed.

(** Fields of a symbol whose bytes are kept. *)
Lemma symbol_fields m1 m2 i :
  ld_bytes m2 (place i) 16 = ld_bytes m1 (place i) 16 →
  ld 4 m2 (place i + st_value) = ld 4 m1 (place i + st_value) ∧ ld8 m2 (place i + st_info) = ld8 m1 (place i + st_info).
Proof.
  intros Hb. split.
  - unfold ld. change st_value with (Z.of_nat 4). by rewrite <- !(slice_ld_bytes _ (place i) 16), Hb by lia.
  - change st_info with (Z.of_nat 12). rewrite <- !(nth_of_ld_bytes _ (place i) 16) by lia. by rewrite Hb.
Qed.

Lemma entry_after_snoc lit k old : 0 <= k → entry_after lit (k + 1) old = entry_point m md symtab names lit k (entry_after lit k old).
Proof. intros. unfold entry_after. by rewrite foldl_seqZ_snoc. Qed.

Lemma table_start : table_result 0 m.
Proof. split; [apply keeps_refl|lia|done|done|done]. Qed.

Lemma symtab_step m' k s :
  table_result k m' → 0 <= k < n →
  match value_of k with
  | Some v => ∃ m2, bl_elf_resolve_symbol env (place k) (name_at k) md (set_mem m' s) = Some (BL_STATUS_SUCCESS, set_mem m2 s) ∧
      table_result (k + 1) m2
  | None => ∃ m2, bl_elf_resolve_symbol env (place k) (name_at k) md (set_mem m' s) =
      Some (symbol_failure m symtab k, emitted (symbol_message m symtab names k) (set_mem m2 s)) ∧ table_result k m2
  end.
Proof.
  intros [T1 T2 T3 T4 T5] Hk. pose proof (table_symbol m' k Hk T1) as Hsym.
  pose proof (λ i, proj1 (table_section m' i T1)) as Hsec. pose proof (T3 k ltac:(lia)) as Hbytes.
  destruct (same_symbol m' k Hbytes Hsec) as (Et & Ei & Er & En & _).
  pose proof (resolve_run (set_mem m' s) md symtab name_at names k) as Hrun. rewrite mem_set_mem in Hrun. specialize (Hrun Hsym).
  rewrite Er in Hrun. destruct (value_of k) as [v|] eqn:Ev.
  - destruct Hrun as (m2 & Hrun & Hd). rewrite set_mem_set_mem in Hrun. exists m2. split; [done|].
    destruct Hd as (D1 & D2 & D3 & D4 & D5). rewrite mem_set_mem in *.
    assert (Hoth : ∀ i, 0 <= i < n → i ≠ k → ld_bytes m2 (place i) 16 = ld_bytes m' (place i) 16).
    { intros i Hi Hne. by apply (other_symbols m' m2 i k). }
    split.
    + eapply keeps_trans; [exact T1|]. eapply keeps_cover; [exact D1|]. intros r Hr. by apply (writes_covered k).
    + intros i Hi. destruct (decide (i = k)) as [->|Hne]; [by rewrite Ev, D2, D3|].
      destruct (symbol_fields m' m2 i (Hoth i ltac:(lia) Hne)) as [-> ->]. apply T2. lia.
    + intros i Hi. rewrite Hoth by lia. apply T3. lia.
    + rewrite entry_after_snoc, D4, <- T4 by lia. unfold entry_point, entry_point_at. fold (resolved m' md symtab names) (resolved m md symtab names). by rewrite Et, Er, Ev.
    + rewrite entry_after_snoc, D5, <- T5 by lia. unfold entry_point, entry_point_at. fold (resolved m' md symtab names) (resolved m md symtab names). by rewrite Et, Er, Ev.
  - destruct Hrun as (m2 & Hrun & Hd). rewrite set_mem_set_mem in Hrun. unfold symbol_failure, symbol_message in *. rewrite Ei in Hrun.
    exists m2. split; [done|].
    pose proof (λ a c, finder_keeps (set_mem m' s) md symtab name_at names k Hsym m2 a c) as Hfk. rewrite mem_set_mem in Hfk.
    assert (Hall : ∀ i, 0 <= i < n → ld_bytes m2 (place i) 16 = ld_bytes m' (place i) 16).
    { intros i Hi. destruct (decide (i = k)) as [->|Hne]; [apply Hfk; [done|left; unfold sizeof_Elf32_Sym; lia]|].
      apply (other_symbols m' m2 i k); [done|done|done|]. eapply keeps_weaken; [exact Hd|]. intros r ?. apply elem_of_app. by right. }
    split.
    + eapply keeps_trans; [exact T1|]. eapply keeps_weaken; [exact Hd|]. intros r ?. apply elem_of_app. by right.
    + intros i Hi. destruct (symbol_fields m' m2 i (Hall i ltac:(lia))) as [-> ->]. by apply T2.
    + intros i Hi. rewrite Hall by lia. by apply T3.
    + rewrite <- T4. unfold ld. f_equal. apply Hfk; [done|right; unfold mod_init, sizeof_module; lia].
    + rewrite <- T5. unfold ld. f_equal. apply Hfk; [done|right; unfold mod_uninit, sizeof_module; lia].
Qed.

(** ** The loops *)
Context (elf k : Z).
#[local] Abbreviation shoff := (ld 4 m (elf + e_shoff)).
#[local] Abbreviation shnum := (ld 2 m (elf + e_shnum)).
#[local] Abbreviation field := (sh_field m elf shoff).

(** Section [k] of the file is the only symbol table; the headers are none of
    the bytes that are written. *)
Record symbols_file : Prop := SymbolsFile {
  sf_space : in_space elf 52 ∧ in_space (elf + shoff) (sizeof_Elf32_Shdr * shnum);
  sf_index : 0 <= k < shnum;
  sf_only i : 0 <= i < shnum → field i sh_type = SHT_SYMTAB → i = k;
  sf_type : field k sh_type = SHT_SYMTAB;
  sf_table : symtab = elf + field k sh_offset;
  sf_entries : field k sh_entsize ≠ 0 ∧ field k sh_size / field k sh_entsize = n;
  sf_names j : 0 <= j < n →
    name_at j = u32 (elf + ld 4 m (u32 (elf + shoff + field k sh_link * ld 2 m (elf + e_shentsize)) + sh_offset) + ld 4 m (place j + st_name));
  sf_reads : each_apart table_writes [(elf, 52); (elf + shoff, sizeof_Elf32_Shdr * shnum)];
}.

(** The first symbol that cannot be resolved ends the loop. *)
Definition first_unresolved : option Z := List.find (λ j, bool_decide (value_of j = None)) (seqZ 0 n).
Definition table_status : bl_status_t :=
  match first_unresolved with Some j => symbol_failure m symtab j | None => BL_STATUS_SUCCESS end.
Definition table_output : list Z :=
  match first_unresolved with Some j => symbol_message m symtab names j | None => [] end.
Definition table_count : Z := match first_unresolved with Some j => j | None => n end.

Hypothesis Hfile : symbols_file.

Lemma symbols_section i : 0 <= i < shnum → section_at elf shoff i = elf + shoff + sizeof_Elf32_Shdr * i.
Proof.
  intros Hi. destruct (sf_space Hfile) as [_ Hs]. unfold section_at, in_space, sizeof_Elf32_Shdr in *. apply u32_small. lia.
Qed.
Lemma symbols_header m' i f :
  keeps table_writes m m' → 0 <= i < shnum → 0 <= f <= 36 → ld 4 m' (section_at elf shoff i + f) = field i f.
Proof.
  intros Hk Hi Hf. unfold sh_field. destruct (sf_space Hfile) as [_ Hs]. rewrite symbols_section by done.
  unfold in_space, sizeof_Elf32_Shdr in *. apply (keeps_ld table_writes); [done|unfold in_space; lia|].
  pose proof (each_apart_col _ _ (elf + shoff, sizeof_Elf32_Shdr * shnum) (sf_reads Hfile) ltac:(in_list)) as Hc.
  eapply Forall_impl; [exact Hc|]. intros r. unfold apart, disjoint, sizeof_Elf32_Shdr. cbn [fst snd]. lia.
Qed.
Lemma symbols_shnum m' : keeps table_writes m m' → ld 2 m' (elf + e_shnum) = shnum.
Proof.
  intros Hk. destruct (sf_space Hfile) as [Hs _]. unfold in_space in *. apply (keeps_ld table_writes); [done|unfold in_space, e_shnum; lia|].
  pose proof (each_apart_col _ _ (elf, 52) (sf_reads Hfile) ltac:(in_list)) as Hc.
  eapply Forall_impl; [exact Hc|]. intros r. unfold apart, disjoint, e_shnum. cbn [fst snd]. lia.
Qed.

Lemma failed_symbol j : failed (symbol_failure m symtab j) = true.
Proof. unfold symbol_failure. by destruct (is_import _ _ _). Qed.

Lemma load_symtab_run s :
  mem s = m → ∃ m', load_symtab env elf shoff (section_at elf shoff k) md s = Some (table_status, emitted table_output (set_mem m' s)) ∧
    table_result table_count m'.
Proof.
  intros Hm. pose proof (sf_index Hfile) as Hki. destruct (sf_entries Hfile) as [Hent Hn]. destruct (tr_symbols Hready) as [Hn0 Hsp].
  assert (Hn32 : n < 4294967296).
  { pose proof (ld4_range m (section_at elf shoff k + sh_size)). pose proof (ld4_range m (section_at elf shoff k + sh_entsize)).
    unfold sh_field in *. rewrite <- Hn. apply Z.div_lt_upper_bound; nia. }
  assert (Hgoal : wp (load_symtab env elf shoff (section_at elf shoff k) md)
    (λ st t, ∃ m', st = table_status ∧ t = emitted table_output (set_mem m' s) ∧ table_result table_count m') s).
  2:{ apply wp_run in Hgoal as (st & t & Hrun & m' & -> & -> & Hres). by exists m'. }
  unfold load_symtab. do 8 wp_step. rewrite Hm. fold (field k sh_offset) (field k sh_link).
  wp_loop (λ j t, ∃ m', t = set_mem m' s ∧ 0 <= j <= n ∧ table_result j m' ∧
      List.find (λ j, bool_decide (value_of j = None)) (seqZ 0 j) = None) (λ j _, n - j); [| |lia].
  2:{ exists m. split; [by rewrite <- Hm, set_mem_id|]. split; [lia|]. split; [apply table_start|done]. }
  intros j t (m' & -> & Hj & Hres & Hfind). pose proof (ts_keeps _ _ Hres) as Hk.
  wp_step. unfold entries. wp_step. wp_step. wp_step. wp_step. rewrite mem_set_mem, !symbols_header by (done || (unfold sh_size, sh_entsize; lia)).
  unfold udiv. destruct (Z.eqb_spec (field k sh_entsize) 0); [done|]. wp_step. rewrite Hn.
  destruct (Z.ltb_spec j n) as [Hlt|]; cycle 1.
  { wp_step. exists m'. assert (j = n) as -> by lia. unfold table_status, table_output, table_count, first_unresolved. rewrite Hfind.
    by rewrite emitted_nil. }
  destruct (seqZ_split j n ltac:(lia)) as [tl Hsplit].
  replace (u32 (elf + field k sh_offset + sizeof_Elf32_Sym * j)) with (place j).
  2:{ destruct (table_place j ltac:(lia)) as (Hp & _). rewrite <- (sf_table Hfile). unfold sym, in_space, sizeof_Elf32_Sym in *. rewrite u32_small by lia. done. }
  wp_step. wp_step. rewrite mem_set_mem.
  destruct (same_symbol m' j (ts_rest _ _ Hres j ltac:(lia)) (λ i, proj1 (table_section m' i Hk))) as (_ & _ & _ & _ & ->).
  rewrite <- (sf_names Hfile j) by lia. wp_step. pose proof (symtab_step m' j s Hres ltac:(lia)) as Hstep.
  destruct (value_of j) as [v|] eqn:Ev.
  - destruct Hstep as (m2 & Hrun & Hres2). apply wp_run. eexists _, _. split; [exact Hrun|]. change (failed BL_STATUS_SUCCESS) with false. cbv iota.
    wp_step. rewrite u32_small by lia. split; [|lia]. exists m2. split; [done|]. split; [lia|]. split; [done|].
    rewrite seqZ_app, find_app, Hfind by lia. change (seqZ (0 + j) 1) with [j]. cbn [List.find]. by rewrite Ev.
  - destruct Hstep as (m2 & Hrun & Hres2). apply wp_run. eexists _, _. split; [exact Hrun|]. rewrite failed_symbol. wp_step. exists m2.
    assert (Hfirst : first_unresolved = Some j).
    { unfold first_unresolved. rewrite Hsplit, find_app, Hfind. cbn [List.find]. by rewrite Ev. }
    unfold table_status, table_output, table_count. by rewrite Hfirst.
Qed.

Lemma load_symbols_run s :
  mem s = m → ∃ m', bl_elf_load_symbols env elf md s = Some (table_status, emitted table_output (set_mem m' s)) ∧
    table_result table_count m'.
Proof.
  intros Hm. destruct (load_symtab_run s Hm) as (m' & Hrun & Hres). pose proof (sf_index Hfile) as Hki. exists m'. split; [|done].
  pose proof (shnum_range m elf) as Hsn. apply wp_exact. unfold bl_elf_load_symbols. wp_step. wp_step. rewrite Hm.
  wp_loop (λ i t, 0 <= i <= shnum ∧ ((i <= k ∧ t = s) ∨ (k < i ∧ t = set_mem m' s ∧ first_unresolved = None))) (λ i _, shnum - i); [| |lia].
  2:{ split; [lia|]. left. split; [lia|done]. }
  intros i t (Hi & Hst).
  assert (Hk : keeps table_writes m (mem t)).
  { destruct Hst as [[_ ->]|(_ & -> & _)]; [rewrite Hm; apply keeps_refl|rewrite mem_set_mem; apply Hres]. }
  wp_step. wp_step. rewrite symbols_shnum by done. destruct (Z.ltb_spec i shnum) as [Hlt|]; cycle 1.
  { destruct Hst as [[? ?]|(_ & -> & Hnone)]; [lia|]. wp_step. unfold table_status, table_output. by rewrite Hnone, emitted_nil. }
  wp_step. wp_step. rewrite symbols_header by (done || (unfold sh_type; lia)).
  destruct (Z.eqb_spec (field i sh_type) SHT_SYMTAB) as [E|E]; cbn [negb].
  - apply (sf_only Hfile) in E; [|lia]. subst i. destruct Hst as [[_ ->]|(? & _)]; [|lia]. wp_step. apply wp_run. eexists _, _.
    split; [exact Hrun|]. unfold table_status, table_output. destruct first_unresolved as [j|] eqn:Ef.
    + rewrite failed_symbol. by wp_step.
    + change (failed BL_STATUS_SUCCESS) with false. cbv iota. wp_step. rewrite emitted_nil. split; [|lia]. split; [lia|].
      right. split; [lia|done].
  - wp_step. split; [|lia]. split; [lia|]. destruct Hst as [[? ->]|(? & -> & ?)].
    + left. split; [|done]. destruct (decide (i = k)) as [->|]; [by rewrite (sf_type Hfile) in E|lia].
    + right. split; [lia|done].
Qed.
End SymbolTable.

(** ** The table of the BIOS executable is a symbol finder *)
Section BiosFinder.
Context (env : loader_env) (tab cnt _exsymbol : Z) (entry : Z → list Z) (ns : Z → list Z).

(** The fields of an entry. *)
Definition entry_word (i : Z) (f : nat) : Z := le_combine (take 4 (drop f (entry i))).
Definition bios_exports (l : list Z) : option (Z * Z) :=
  i ← List.find (same_name ns l) (seqZ 0 cnt); Some (entry_word i 0, entry_word i 4).
Definition bios_ok (m : gmap Z Z) : Prop :=
  ∀ i, 0 <= i < cnt → ld_bytes m (symbol_at tab i) 12 = entry i ∧ cstr m (entry_word i 8) (ns i).
Definition bios_reads : list (Z * Z) :=
  (tab, sizeof_export_symbol * cnt) :: ((λ i, region_of (entry_word i 8) (ns i)) <$> seqZ 0 cnt).
Definition bios_writes : list (Z * Z) := [(l_exsymbol env, 4); (_exsymbol, sizeof_export_symbol)].

Record bios_symbols : Prop := BiosSymbols {
  bs_find : symbols_find env = bl_symbols_find tab (tab + sizeof_export_symbol * cnt) _exsymbol;
  bs_table : 0 < tab ∧ 0 <= cnt ∧ tab + sizeof_export_symbol * cnt < 4294967296;
  bs_result : 0 < l_exsymbol env ∧ in_space (l_exsymbol env) 4;
  bs_static : 0 < _exsymbol ∧ in_space _exsymbol sizeof_export_symbol;
  bs_apart : apart (l_exsymbol env, 4) (_exsymbol, sizeof_export_symbol);
  bs_reads : each_apart bios_writes bios_reads;
}.
Hypothesis Hbios : bios_symbols.

Lemma bios_name i : 0 <= i < cnt → region_of (entry_word i 8) (ns i) ∈ bios_reads.
Proof.
  intros Hi. apply elem_of_cons. right. apply list_elem_of_fmap. exists i. split; [done|]. apply elem_of_seqZ. lia.
Qed.
Lemma ld_of_bytes m a n k f : (f + k <= n)%nat → ld k m (a + Z.of_nat f) = le_combine (take k (drop f (ld_bytes m a n))).
Proof. intros. unfold ld. by rewrite slice_ld_bytes. Qed.

Lemma bios_space m : bios_ok m → Forall (λ r, in_space r.1 r.2) bios_reads.
Proof.
  intros Hok. pose proof (bs_table Hbios) as Ht. unfold bios_reads. apply Forall_cons. split; [unfold in_space, sizeof_export_symbol in *; cbn [fst snd]; lia|].
  apply Forall_fmap, Forall_forall. intros i Hi%elem_of_seqZ. destruct (Hok i ltac:(lia)) as [_ (? & ? & _)].
  unfold compose, in_space, region_of. cbn [fst snd]. lia.
Qed.

Lemma bios_frame m m' : bios_ok m → Forall (λ r, same_on r.1 r.2 m m') bios_reads → bios_ok m'.
Proof.
  intros Hok Hs. rewrite Forall_forall in Hs. intros i Hi. destruct (Hok i Hi) as [He Hn]. split.
  - rewrite <- He. apply same_on_ld_bytes. eapply same_on_sub; [apply (Hs (tab, sizeof_export_symbol * cnt)); unfold bios_reads; in_list|..];
      unfold symbol_at, sizeof_export_symbol; cbn [fst snd]; lia.
  - eapply same_on_cstr; [|exact Hn]. by apply (Hs _ (bios_name i Hi)).
Qed.

Lemma bios_run s name l :
  bios_ok (mem s) → cstr (mem s) name l → Forall (λ r, apart r (region_of name l)) bios_writes →
  ∃ m', symbols_find env name (l_exsymbol env) s =
      Some (match bios_exports l with Some _ => BL_STATUS_SUCCESS | None => BL_STATUS_UNKNOWN_SYMBOL end, set_mem m' s) ∧
    keeps bios_writes (mem s) m' ∧
    match bios_exports l with
    | Some (a, type) =>
        let ex := ld 4 m' (l_exsymbol env) in
        (ex, sizeof_export_symbol) ∈ bios_writes ∧ in_space ex sizeof_export_symbol ∧
        ld 4 m' (ex + ex_address) = a ∧ ld 4 m' (ex + ex_type) = type
    | None => True
    end.
Proof.
  intros Hok Hname Hap. destruct (bs_result Hbios) as [Hr1 Hr2], (bs_static Hbios) as [Hs1 Hs2]. pose proof (bs_reads Hbios) as Hrd.
  assert (Hptr : ∀ i, 0 <= i < cnt → symbol_name (mem s) tab i = entry_word i 8).
  { intros i Hi. destruct (Hok i Hi) as [He _]. unfold symbol_name, entry_word. change ex_name with (Z.of_nat 8).
    by rewrite (ld_of_bytes _ _ 12), He by lia. }
  apply Forall_cons in Hap as [Hap1 _].
  destruct (symbols_find_run tab cnt ns _exsymbol (l_exsymbol env) name l s) as (m' & Hrun & Hres & Hfr).
  - split; [apply (bs_table Hbios)|]. intros i Hi. rewrite Hptr by done. by apply Hok.
  - done.
  - split; [done|..|exact Hap1].
    + exact (apart_each _ _ (l_exsymbol env, 4) (tab, sizeof_export_symbol * cnt) Hrd ltac:(unfold bios_writes; in_list) ltac:(unfold bios_reads; in_list)).
    + intros i Hi. rewrite Hptr by done.
      exact (apart_each _ _ (l_exsymbol env, 4) _ Hrd ltac:(unfold bios_writes; in_list) (bios_name i Hi)).
  - lia.
  - lia.
  - done.
  - exact (bs_apart Hbios).
  - exists m'. rewrite (bs_find Hbios), Hrun. unfold bios_exports. split; [by destruct (List.find _ _)|]. split.
    { intros b Hb [Ho1 [Ho2 _]%Forall_cons]%Forall_cons. by apply Hfr. }
    destruct (List.find (same_name ns l) (seqZ 0 cnt)) as [i|] eqn:Ef; [|done]. cbn.
    destruct Hres as [-> Hb]. split; [unfold bios_writes; in_list|]. split; [done|].
    apply List.find_some in Ef as [Hi _]. apply list_elem_of_In, elem_of_seqZ in Hi. destruct (Hok i ltac:(lia)) as [He _]. rewrite He in Hb.
    unfold entry_word. rewrite <- Hb. change ex_address with (Z.of_nat 0). change ex_type with (Z.of_nat 4).
    by rewrite !(ld_of_bytes _ _ 12) by lia.
Qed.

Definition bios_finder : SymbolFinder env :=
  {| exports := bios_exports; finder_ok := bios_ok; finder_reads := bios_reads; finder_writes := bios_writes;
     finder_apart := bs_reads Hbios; finder_space := bios_space; finder_frame := bios_frame; finder_run := bios_run |}.
End BiosFinder.

(** ** Properties *)

(** C20: [bl_elf_load_symbols] takes the symbols of the file's symbol table one
    after another: a function, an object or an untyped symbol gets its offset
    plus the address of its section, an imported symbol the address of the
    export with its name, a section's symbol the section's address and a file's
    symbol 0; the last function with the name of one of the two entry points
    sets it.  The first symbol that has no value, an import without an export or
    a symbol of another type, ends the loop with a failure, which is printed for
    an import; the symbols behind it stay as they were.  Nothing else changes
    but the result of the search.  The search itself is any [SymbolFinder]. *)
Theorem elf_load_symbols_resolves `{SymbolFinder env} s elf md symtab n name_at names k :
  table_ready (mem s) md symtab n name_at names → symbols_file (mem s) md symtab n name_at elf k →
  ∃ m', bl_elf_load_symbols env elf md s =
      Some (table_status (mem s) md symtab n names, emitted (table_output (mem s) md symtab n names) (set_mem m' s)) ∧
    table_result (mem s) md symtab n names (table_count (mem s) md symtab n names) m'.
Proof. intros Hready Hfile. by eapply load_symbols_run. Qed.

(** A file at 0x10000 with a symbol table of two symbols, the function
    bl_module_initialize at 0x10 in section 1 and the import "a"; section 1 of
    the module at 0x7000 is at 0x9000, and "a" is exported as the function at
    0x500. *)
Definition symbols_example : machine :=
  let words := foldl (λ m '(a, v), st 4 m a v) ∅
    [(0x1000, 0x500); (0x1004, BL_EXPORT_TYPE_FUNC); (0x1008, 0x2000); (0x2000, 97);
     (0x7000 + mod_count, 1); (0x7000 + mod_segments, 0x7100); (0x7100 + seg_address, 0x9000); (0x7100 + seg_index, 1);
     (0x10000 + e_shoff, 64); (0x10000 + e_shentsize, 40 + 65536 * 4);
     (0x10040 + 80 + sh_type, SHT_SYMTAB); (0x10040 + 80 + sh_offset, 0x300); (0x10040 + 80 + sh_size, 32);
     (0x10040 + 80 + sh_link, 3); (0x10040 + 80 + sh_entsize, 16); (0x10040 + 120 + sh_type, 3); (0x10040 + 120 + sh_offset, 0x400);
     (0x10300 + st_name, 1); (0x10300 + st_value, 0x10); (0x10300 + st_info, 0x12 + 65536 * 1);
     (0x10310 + st_name, 30); (0x10310 + st_info, 0x10); (0x1041e, 97)] in
  set_mem (st_bytes (st_bytes (st_bytes words 0x10401 initialize_name) 0x6000 initialize_name) 0x6100 uninitialize_name) machine0.
Definition symbols_env : loader_env :=
  LoaderEnv 0 0 0 0x6000 0x6100 0x5000 (bl_symbols_find 0x1000 (0x1000 + sizeof_export_symbol * 1) 0x4000) 0 (λ _, mret ()).
Definition symbols_entry (i : Z) : list Z := ld_bytes (mem symbols_example) (symbol_at 0x1000 i) 12.
Definition export_names (i : Z) : list Z := [97].

Lemma symbols_env_bios : bios_symbols symbols_env 0x1000 1 0x4000 symbols_entry export_names.
Proof.
  split; [reflexivity|by vm_compute|by vm_compute|by vm_compute|right; by vm_compute|]. apply each_apart_here. by vm_compute.
Qed.
Definition example_finder : SymbolFinder symbols_env := bios_finder _ _ _ _ _ _ symbols_env_bios.

Definition example_name_at (j : Z) : Z := if j =? 0 then 0x10401 else 0x1041e.
Definition example_symbol_names (j : Z) : list Z := if j =? 0 then initialize_name else [97].

Lemma two_symbols j : 0 <= j < 2 → j = 0 ∨ j = 1.
Proof. lia. Qed.
Lemma symbols_example_table :
  @table_ready symbols_env example_finder (mem symbols_example) 0x7000 0x10300 2 example_name_at example_symbol_names.
Proof.
  split; [by vm_compute|by vm_compute|by vm_compute| | | | | |split; [|apply apartb_ok; by vm_compute]|].
  - intros j [->| ->]%two_symbols; apply cstr_here_ok; by vm_compute.
  - apply cstr_here_ok; by vm_compute.
  - apply cstr_here_ok; by vm_compute.
  - apply each_apart_here. by vm_compute.
  - intros j [->| ->]%two_symbols; apply each_apart_here; by vm_compute.
  - apply each_apart_here. by vm_compute.
  - intros i Hi. assert (i = 0) as -> by lia. split; [done|apply cstr_here_ok; by vm_compute].
Qed.

Lemma symbols_example_file :
  @symbols_file symbols_env example_finder (mem symbols_example) 0x7000 0x10300 2 example_name_at 0x10000 2.
Proof.
  split; [by vm_compute|by vm_compute| |by vm_compute|by vm_compute|by vm_compute| |].
  - intros i Hi. assert (i = 0 ∨ i = 1 ∨ i = 2 ∨ i = 3) as [->|[->|[->| ->]]] by (revert Hi; vm_compute ld; lia); by vm_compute.
  - intros j [->| ->]%two_symbols; by vm_compute.
  - apply each_apart_here. by vm_compute.
Qed.

Lemma elf_load_symbols_resolves_witness :
  ∃ m', bl_elf_load_symbols symbols_env 0x10000 0x7000 symbols_example =
      Some (@table_status symbols_env example_finder (mem symbols_example) 0x7000 0x10300 2 example_symbol_names,
            emitted (@table_output symbols_env example_finder (mem symbols_example) 0x7000 0x10300 2 example_symbol_names)
              (set_mem m' symbols_example)) ∧
    @table_result symbols_env example_finder (mem symbols_example) 0x7000 0x10300 2 example_symbol_names
      (@table_count symbols_env example_finder (mem symbols_example) 0x7000 0x10300 2 example_symbol_names) m'.
Proof.
  apply (@elf_load_symbols_resolves symbols_env example_finder symbols_example 0x10000 0x7000 0x10300 2 example_name_at example_symbol_names 2);
    [exact symbols_example_table|exact symbols_example_file].
Defined.

(** What becomes of the two symbols. *)
Example symbols_example_values :
  @first_unresolved symbols_env example_finder (mem symbols_example) 0x7000 0x10300 2 example_symbol_names = None ∧
  @resolved symbols_env example_finder (mem symbols_example) 0x7000 0x10300 example_symbol_names 0 = Some 0x9010 ∧
  @resolved symbols_env example_finder (mem symbols_example) 0x7000 0x10300 example_symbol_names 1 = Some 0x500 ∧
  @new_info symbols_env example_finder (mem symbols_example) 0x10300 example_symbol_names 1 = STT_FUNC.
Proof. by vm_compute. Qed.
