(* ===== verification/ElfReloc.v ===== *)
(** * Proofs about the ELF loader: all relocations of a module

    [bl_elf_relocate_symbols] goes through the relocation sections of a file.
    When the words that it changes lie in the image, apart from each other, they
    are replaced one after another and nothing that the loops read changes. *)
From S2P Require Import Prelude Memory Regions Arith Status Strings StringsProofs Heap.
From S2P Require Import Symbols Elf ElfProofs ElfImage ElfSymbols.

Section Relocations.
Context (m : gmap Z Z) (elf fsize md lo hi : Z).
#[local] Abbreviation shoff := (ld 4 m (elf + e_shoff)).
#[local] Abbreviation shnum := (ld 2 m (elf + e_shnum)).
#[local] Abbreviation field := (sh_field m elf shoff).

(** Relocation section [i]: its entries, its table, its symbol table and the
    section it applies to. *)
Definition is_rel (i : Z) : bool := field i sh_type =? SHT_REL.
Definition rel_count (i : Z) : Z := field i sh_size / field i sh_entsize.
Definition rel_section (i : Z) : Z := u16 (field i sh_info).
Definition rel_table (i : Z) : Z := elf + field i sh_offset.
Definition rel_symtab (i : Z) : Z := u32 (elf + field (field i sh_link) sh_offset).
Definition rel_applied (i : Z) : Z := section_address m md (rel_section i).

(** Entry [j] of section [i]: the place it changes, and how. *)
Definition target_addr (x : Z * Z) : Z := entry_addr m (rel_applied x.1) (rel_table x.1) x.2.
Definition target_width (x : Z * Z) : nat := entry_width m (rel_table x.1) x.2.
Definition target_symbol (x : Z * Z) : Z := symbol_place m (rel_symtab x.1) (rel_table x.1) x.2.
Definition target_value (x : Z * Z) (old : Z) : Z :=
  reloc_value (entry_type m (rel_table x.1) x.2) old (ld 4 m (target_symbol x)) (target_addr x).

Definition is_entry (x : Z * Z) : Prop := 0 <= x.1 < shnum ∧ is_rel x.1 = true ∧ 0 <= x.2 < rel_count x.1.
Definition section_entries (i : Z) : list (Z * Z) := if is_rel i then (λ j, (i, j)) <$> seqZ 0 (rel_count i) else [].
Definition rel_entries (n : Z) : list (Z * Z) := seqZ 0 n ≫= section_entries.

(** Memory after the first [n] sections. *)
Definition relocated (n : Z) : gmap Z Z := patches target_addr target_width target_value m (rel_entries n).

(** The tables and the symbols lie in the file, the targets in the image, apart
    from each other; the image is apart from all that the loops read. *)
Record relocations_ready : Prop := RelocationsReady {
  rl_file : elf_file m elf fsize;
  rl_md : in_space md sizeof_module;
  rl_segments : in_space (ld 4 m (md + mod_segments)) (sizeof_segment * ld 4 m (md + mod_count)) ∧ ld 4 m (md + mod_count) < 2147483648;
  rl_image : in_space lo (hi - lo);
  rl_reads : each_apart [(lo, hi - lo)] [(elf, fsize); (md + mod_count, 8); segment_table m md];
  rl_section i : 0 <= i < shnum → is_rel i = true →
    field i sh_entsize ≠ 0 ∧ field i sh_offset + sizeof_Elf32_Rel * rel_count i <= fsize ∧ 0 <= field i sh_link < shnum;
  rl_target x : is_entry x → lo <= target_addr x ∧ target_addr x + Z.of_nat (target_width x) <= hi;
  rl_symbol x : is_entry x → elf <= target_symbol x ∧ target_symbol x + 4 <= elf + fsize;
  rl_apart x y : is_entry x → is_entry y → x ≠ y →
    disjoint (target_addr x) (Z.of_nat (target_width x)) (target_addr y) (Z.of_nat (target_width y));
}.

Lemma elem_of_rel_entries n x : 0 <= n <= shnum → x ∈ rel_entries n → is_entry x ∧ x.1 < n.
Proof.
  intros Hn (i & Hx & Hi%elem_of_seqZ)%list_elem_of_bind. unfold section_entries in Hx. unfold is_entry.
  destruct (is_rel i) eqn:E; [|by apply not_elem_of_nil in Hx]. apply list_elem_of_fmap in Hx as (j & -> & Hj%elem_of_seqZ).
  cbn [fst snd]. split; [split; [lia|]; split; [done|lia]|lia].
Qed.
Lemma is_entry_in x : is_entry x → x ∈ rel_entries shnum.
Proof.
  intros (H1 & H2 & H3). apply list_elem_of_bind. exists x.1. split; [|apply elem_of_seqZ; lia]. unfold section_entries. rewrite H2.
  apply list_elem_of_fmap. exists x.2. split; [by destruct x|]. apply elem_of_seqZ. lia.
Qed.
Lemma NoDup_rel_entries n : NoDup (rel_entries n).
Proof.
  apply NoDup_bind; [|intros i _|apply NoDup_seqZ].
  - intros i j x _ _ Hi Hj. unfold section_entries in *. destruct (is_rel i), (is_rel j); try by apply not_elem_of_nil in Hi || by apply not_elem_of_nil in Hj.
    apply list_elem_of_fmap in Hi as (? & -> & _), Hj as (? & [= ->] & _). done.
  - unfold section_entries. destruct (is_rel i); [|constructor]. apply NoDup_fmap_2; [by intros ?? [= ->]|apply NoDup_seqZ].
Qed.
Lemma rel_entries_snoc n : 0 <= n → rel_entries (n + 1) = rel_entries n ++ section_entries n.
Proof.
  intros. unfold rel_entries. rewrite seqZ_app, bind_app by lia. f_equal. change (seqZ (0 + n) 1) with [n]. cbn. by rewrite app_nil_r.
Qed.
Hypothesis Hready : relocations_ready.
#[local] Abbreviation image := [(lo, hi - lo)].

Lemma target_space x : is_entry x → in_space (target_addr x) (Z.of_nat (target_width x)).
Proof. intros Hx. pose proof (rl_target Hready x Hx). pose proof (rl_image Hready). unfold in_space in *. lia. Qed.

Lemma relocated_keeps n : 0 <= n <= shnum → keeps image m (relocated n).
Proof.
  intros Hn a Ha [Ho _]%Forall_cons. unfold relocated. apply patches_ld8; [|done|]; intros x [Hx _]%elem_of_rel_entries; try done.
  - by apply target_space.
  - pose proof (rl_target Hready x Hx). unfold outside in *. cbn [fst snd] in Ho. lia.
Qed.

Lemma relocated_target x :
  is_entry x →
  ld (target_width x) (relocated shnum) (target_addr x) =
  target_value x (ld (target_width x) m (target_addr x)) mod 256 ^ Z.of_nat (target_width x).
Proof.
  intros Hx. pose proof (shnum_range m elf). unfold relocated.
  rewrite (patches_target _ _ target_value); [done|..|by apply is_entry_in]; [|apply NoDup_rel_entries|].
  - intros y [Hy _]%elem_of_rel_entries; [by apply target_space|lia].
  - intros y z [Hy _]%elem_of_rel_entries [Hz _]%elem_of_rel_entries; [by apply (rl_apart Hready)|lia..].
Qed.
Lemma relocated_elsewhere b :
  0 <= b < 4294967296 → (∀ x, is_entry x → outside (target_addr x) (Z.of_nat (target_width x)) b) → ld8 (relocated shnum) b = ld8 m b.
Proof.
  intros Hb Ho. pose proof (shnum_range m elf). apply patches_ld8; [|done|]; intros x [Hx _]%elem_of_rel_entries; try lia.
  - by apply target_space.
  - by apply Ho.
Qed.

(** ** Memory that differs from [m] in the image only *)
Section Same.
Context (m' : gmap Z Z).
Hypothesis Hkeep : keeps image m m'.

Lemma image_file : same_on elf fsize m m'.
Proof.
  apply (keeps_same_on image); [done|apply (ef_space _ _ _ (rl_file Hready))|].
  eapply each_apart_col; [apply (rl_reads Hready)|in_list].
Qed.
Lemma image_field i f : 0 <= i < shnum → 0 <= f <= 36 → ld 4 m' (section_at elf shoff i + f) = field i f.
Proof. apply (file_field m elf fsize m'); [apply Hready|apply image_file]. Qed.
Lemma image_section k :
  section_address m' md k = section_address m md k ∧
  ld 4 m' (md + mod_segments) = ld 4 m (md + mod_segments) ∧ ld 4 m' (md + mod_count) = ld 4 m (md + mod_count).
Proof.
  apply (keeps_section_address image); [done|apply Hready|apply Hready|..]; (eapply each_apart_col; [apply (rl_reads Hready)|in_list]).
Qed.

Section Entry.
Context (i : Z) (Hi : 0 <= i < shnum) (Hrel : is_rel i = true).
#[local] Abbreviation rel := (section_at elf shoff i).
#[local] Abbreviation sym := (section_at elf shoff (field i sh_link)).

Lemma entry_here j : 0 <= j < rel_count i → is_entry (i, j).
Proof. done. Qed.
Lemma image_header f : 0 <= f <= 36 → ld 4 m' (rel + f) = field i f.
Proof. by apply image_field. Qed.
Lemma image_applied : applied_at m' md rel = rel_applied i.
Proof.
  unfold applied_at. rewrite image_header by (unfold sh_info; lia). destruct (image_section (u16 (field i sh_info))) as (E & E1 & E2).
  exact E.
Qed.
Lemma image_table : table_at m' elf rel = rel_table i.
Proof. unfold table_at. by rewrite image_header by (unfold sh_offset; lia). Qed.
Lemma image_symtab : symtab_at m' elf sym = rel_symtab i.
Proof.
  unfold symtab_at. destruct (rl_section Hready i Hi Hrel) as (_ & _ & Hl).
  by rewrite image_field by (done || (unfold sh_offset; lia)).
Qed.

Lemma table_in_file j f :
  0 <= j < rel_count i → 0 <= f <= 4 → same_on (entry_at (rel_table i) j + f) 4 m m' ∧
  elf <= entry_at (rel_table i) j + f ∧ entry_at (rel_table i) j + f + 4 <= elf + fsize.
Proof.
  intros Hj Hf. destruct (rl_section Hready i Hi Hrel) as (_ & Hend & _). pose proof (ld4_range m (rel + sh_offset)) as Hr.
  fold (field i sh_offset) in Hr. unfold entry_at, rel_table, sizeof_Elf32_Rel in *. split; [|lia].
  apply (same_on_sub elf fsize); [apply image_file|lia|lia].
Qed.

Lemma image_entry j :
  0 <= j < rel_count i →
  entry_addr m' (rel_applied i) (rel_table i) j = target_addr (i, j) ∧
  entry_width m' (rel_table i) j = target_width (i, j) ∧ entry_type m' (rel_table i) j = entry_type m (rel_table i) j ∧
  symbol_place m' (rel_symtab i) (rel_table i) j = target_symbol (i, j) ∧
  symbol_value m' (rel_symtab i) (rel_table i) j = ld 4 m (target_symbol (i, j)).
Proof.
  intros Hj.
  assert (E1 : ld 4 m' (entry_at (rel_table i) j + r_offset) = ld 4 m (entry_at (rel_table i) j + r_offset)).
  { apply same_on_ld, table_in_file; [done|unfold r_offset; lia]. }
  assert (E2 : ld 4 m' (entry_at (rel_table i) j + r_info) = ld 4 m (entry_at (rel_table i) j + r_info)).
  { apply same_on_ld, table_in_file; [done|unfold r_info; lia]. }
  assert (E3 : symbol_place m' (rel_symtab i) (rel_table i) j = target_symbol (i, j)) by (unfold symbol_place; by rewrite E2).
  unfold target_addr, target_width, entry_width, entry_addr, entry_type, symbol_value. cbn [fst snd]. rewrite E1, E2, E3.
  split_and!; try done. destruct (rl_symbol Hready (i, j)) as [? ?]; [by apply entry_here|].
  apply same_on_ld. apply (same_on_sub elf fsize); [apply image_file|lia|lia].
Qed.

Lemma section_ready : relocation_ready m' md elf rel sym (rel_count i).
Proof.
  destruct (rl_section Hready i Hi Hrel) as (Hent & Hend & Hl). destruct (rl_segments Hready) as [Hs Hc].
  destruct (image_section 0) as (_ & E1 & E2). pose proof (ef_space _ _ _ (rl_file Hready)) as [? Hsp]. unfold in_space in *. split.
  - by rewrite E2.
  - rewrite E1, E2. lia.
  - rewrite image_header by (unfold sh_entsize; lia). done.
  - rewrite !image_header by (unfold sh_size, sh_entsize; lia). done.
  - rewrite image_header by (unfold sh_offset; lia). pose proof (ld4_range m (rel + sh_offset)) as Hr. fold (field i sh_offset) in Hr. lia.
Qed.

(** What lies in the file is no target. *)
Lemma file_untouched a k :
  elf <= a → 0 <= k → a + k <= elf + fsize → untouched m' (rel_applied i) (rel_table i) (rel_count i) a k.
Proof.
  intros Ha Hk Hend. pose proof (ef_space _ _ _ (rl_file Hready)) as [? Hsp]. unfold in_space in Hsp. split; [unfold in_space; lia|].
  intros j Hj. destruct (image_entry j Hj) as (-> & -> & _). pose proof (rl_target Hready (i, j) ltac:(by apply entry_here)).
  pose proof (apart_each _ _ (lo, hi - lo) (elf, fsize) (rl_reads Hready) ltac:(in_list) ltac:(in_list)) as Hap.
  unfold apart, disjoint in *. cbn [fst snd] in Hap. lia.
Qed.

Lemma section_apart : relocation_apart m' (rel_applied i) (rel_symtab i) (rel_table i) rel (rel_count i).
Proof.
  pose proof (rl_file Hready) as Hf. pose proof (ef_table _ _ _ Hf) as Ht. pose proof (ld4_range m (elf + e_shoff)).
  pose proof (section_at_exact m elf fsize i Hf Hi) as E. unfold sizeof_Elf32_Shdr in *. split.
  - split.
    + intros j Hj. destruct (image_entry j Hj) as (-> & -> & _). apply target_space. by apply entry_here.
    + intros j j' Hj Hj' Hne. destruct (image_entry j Hj) as (-> & -> & _), (image_entry j' Hj') as (-> & -> & _).
      apply (rl_apart Hready); [by apply entry_here|by apply entry_here|intros E0; injection E0; lia].
  - rewrite E. apply file_untouched; unfold sh_size; lia.
  - rewrite E. apply file_untouched; unfold sh_entsize; lia.
  - intros j Hj. apply file_untouched; [|lia|]; apply (table_in_file j r_offset); (done || unfold r_offset; lia).
  - intros j Hj. apply file_untouched; [|lia|]; apply (table_in_file j r_info); (done || unfold r_info; lia).
  - intros j Hj. destruct (image_entry j Hj) as (_ & _ & _ & -> & _). pose proof (rl_symbol Hready (i, j) ltac:(by apply entry_here)).
    apply file_untouched; lia.
Qed.

Lemma section_patches :
  effects m' (rel_applied i) (rel_symtab i) (rel_table i) (rel_count i) = patches target_addr target_width target_value m' (section_entries i).
Proof.
  unfold section_entries. rewrite Hrel, effects_patches. apply patches_fmap. intros j Hj%elem_of_seqZ.
  destruct (image_entry j ltac:(lia)) as (E1 & E2 & E3 & _ & E5). split; [done|]. split; [done|]. intros old.
  unfold target_value. cbn [fst snd]. by rewrite E1, E3, E5.
Qed.

Lemma image_relocate s :
  mem s = m' → bl_elf_relocate_section md elf rel sym s =
  Some (BL_STATUS_SUCCESS, set_mem (patches target_addr target_width target_value m' (section_entries i)) s).
Proof.
  intros Hs. pose proof (relocate_section_run md elf rel sym (rel_count i) s) as Hrun. cbv zeta in Hrun.
  rewrite Hs, image_applied, image_table, image_symtab, section_patches in Hrun. apply Hrun; [apply section_ready|apply section_apart].
Qed.
End Entry.
End Same.

Lemma relocate_symbols_run s :
  mem s = m → bl_elf_relocate_symbols elf md s = Some (BL_STATUS_SUCCESS, set_mem (relocated shnum) s).
Proof.
  intros Hm. pose proof (shnum_range m elf) as Hsn. apply wp_exact. unfold bl_elf_relocate_symbols. wp_step. wp_step. rewrite Hm.
  wp_loop (λ i t, 0 <= i <= shnum ∧ t = set_mem (relocated i) s) (λ i _, shnum - i); [| |lia].
  2:{ split; [lia|]. unfold relocated, rel_entries. change (seqZ 0 0) with (@nil Z). cbn. by rewrite <- Hm, set_mem_id. }
  intros i t [Hi ->]. pose proof (relocated_keeps i Hi) as Hk. pose proof (image_file _ Hk) as Hfile.
  wp_step. wp_step. rewrite mem_set_mem. replace (ld 2 (relocated i) (elf + e_shnum)) with shnum.
  2:{ symmetry. apply same_on_ld. pose proof (ef_header _ _ _ (rl_file Hready)).
      apply (same_on_sub elf fsize); [done|unfold e_shnum; lia|unfold e_shnum; lia]. }
  destruct (Z.ltb_spec i shnum) as [Hlt|]; cycle 1.
  { wp_step. by replace shnum with i by lia. }
  assert (Hnext : relocated (i + 1) = patches target_addr target_width target_value (relocated i) (section_entries i)).
  { unfold relocated. rewrite rel_entries_snoc by lia. unfold patches. by rewrite foldl_app. }
  wp_step. wp_step. rewrite mem_set_mem, (image_field _ Hk) by (done || lia || (unfold sh_type; lia)). fold (is_rel i).
  destruct (is_rel i) eqn:Er.
  - wp_step. wp_step. rewrite mem_set_mem, (image_field _ Hk) by (done || lia || (unfold sh_link; lia)).
    wp_step. apply wp_run. eexists _, _. split; [apply (image_relocate _ Hk); (done || lia)|].
    change (failed BL_STATUS_SUCCESS) with false. cbv iota. wp_step. split; [|lia]. split; [lia|]. by rewrite Hnext, set_mem_set_mem.
  - wp_step. split; [|lia]. split; [lia|]. rewrite Hnext. unfold section_entries. by rewrite Er.
Qed.
End Relocations.
