(* ===== verification/ElfLoad.v ===== *)
(** * Proofs about the ELF loader: loading a module

    [bl_elf_load] as a whole: a relocatable file is checked, named, placed,
    resolved and relocated.  The steps are those of ElfImage.v, ElfSymbols.v and
    ElfReloc.v; this file carries what each of them needs of the file from one
    step to the next. *)
From Stdlib Require Import String.
From S2P Require Import Prelude Memory Regions Arith Status Strings StringsProofs Heap HeapProofs HeapClient Print PrintProofs.
From S2P Require Import Symbols SymbolsProofs Elf ElfProofs ElfImage ElfSymbols ElfReloc.
#[local] Open Scope Z_scope.

(** ** Memories with the same headers *)
Section Headers.
Context (m m' : gmap Z Z) (elf : Z).
#[local] Abbreviation shoff := (ld 4 m (elf + e_shoff)).
#[local] Abbreviation shnum := (ld 2 m (elf + e_shnum)).

Record same_headers : Prop := SameHeaders {
  hd_shoff : ld 4 m' (elf + e_shoff) = shoff;
  hd_shnum : ld 2 m' (elf + e_shnum) = shnum;
  hd_field k f : 0 <= k < shnum → 0 <= f <= 36 → sh_field m' elf shoff k f = sh_field m elf shoff k f;
}.
Hypothesis Hsame : same_headers.
Ltac header := unfold sh_name, sh_type, sh_flags, sh_offset, sh_size, sh_link, sh_info, sh_addralign, sh_entsize; lia.

Lemma headers_loaded k : 0 <= k < shnum → is_loaded m' elf shoff k = is_loaded m elf shoff k.
Proof. intros Hk. unfold is_loaded. by rewrite !(hd_field Hsame) by (done || header). Qed.

Lemma headers_placed base n : 0 <= n <= shnum → placed m' elf shoff base n = placed m elf shoff base n.
Proof.
  intros Hn. apply foldl_ext_in. intros x k Hk%elem_of_seqZ. unfold place_step.
  by rewrite headers_loaded, !(hd_field Hsame) by (lia || header).
Qed.
Lemma headers_measured n : 0 <= n <= shnum → measured m' elf shoff n = measured m elf shoff n.
Proof. intros Hn. apply foldl_ext_in. intros x k Hk%elem_of_seqZ. by rewrite !(hd_field Hsame) by (lia || header). Qed.

Lemma headers_segments n : 0 <= n <= shnum → segments_of m' elf shoff n = segments_of m elf shoff n.
Proof. intros Hn. unfold segments_of, places. by rewrite headers_placed. Qed.

Lemma headers_cost : image_cost m' elf = image_cost m elf.
Proof.
  pose proof (shnum_range m elf). unfold image_cost, image_align, image_size.
  rewrite (hd_shoff Hsame), (hd_shnum Hsame), headers_segments, headers_measured by lia. done.
Qed.

Lemma headers_file fsize : elf_file m elf fsize → elf_file m' elf fsize.
Proof.
  intros [H1 H2 H3 H4 H5]. split; rewrite ?(hd_shoff Hsame), ?(hd_shnum Hsame); [done..| |].
  - intros k Hk. rewrite headers_loaded, (hd_field Hsame) by (done || header). by apply H4.
  - intros k Hk. rewrite headers_loaded, !(hd_field Hsame) by (done || header). by apply H5.
Qed.
End Headers.

Section SameFile.
Context (m m' : gmap Z Z) (elf fsize : Z).
#[local] Abbreviation shoff := (ld 4 m (elf + e_shoff)).
#[local] Abbreviation shnum := (ld 2 m (elf + e_shnum)).
Hypothesis Hfile : elf_file m elf fsize.
Hypothesis Hon : same_on elf fsize m m'.

Lemma file_word n a : elf <= a → a + Z.of_nat n <= elf + fsize → ld n m' a = ld n m a.
Proof. intros ? ?. apply same_on_ld. by apply (same_on_sub elf fsize). Qed.

Lemma file_headers : same_headers m m' elf.
Proof.
  pose proof (ef_header _ _ _ Hfile). split.
  - apply file_word; unfold e_shoff; lia.
  - apply file_word; unfold e_shnum; lia.
  - intros k f Hk Hf. by apply (file_field m elf fsize m').
Qed.

Lemma file_fill k : 0 <= k < shnum → is_loaded m elf shoff k = true → fill m' elf k = fill m elf k.
Proof.
  intros Hk Hl. pose proof file_headers as Hh. unfold fill. rewrite (hd_shoff _ _ _ Hh).
  rewrite !(hd_field _ _ _ Hh) by (done || (unfold sh_type, sh_offset, sh_size; lia)).
  destruct (Z.eqb_spec (sh_field m elf shoff k sh_type) SHT_PROGBITS) as [E|]; [|done].
  pose proof (ef_data _ _ _ Hfile k Hk Hl E). pose proof (loaded_size _ _ _ _ Hl).
  pose proof (ld4_range m (section_at elf shoff k + sh_offset)) as Hr. fold (sh_field m elf shoff k sh_offset) in Hr.
  apply same_on_ld_bytes, (same_on_sub elf fsize); [done|lia|lia].
Qed.

Lemma file_image m2 md lo hi : image_loaded m' elf m2 md lo hi → image_loaded m elf m2 md lo hi.
Proof.
  intros [H1 H2 H3 H4 H5]. pose proof file_headers as Hh. pose proof (shnum_range m elf).
  rewrite (hd_shoff _ _ _ Hh), (hd_shnum _ _ _ Hh) in *. split.
  - by rewrite H1, (headers_segments m m') by (done || lia).
  - done.
  - intros k Hk Hl. specialize (H3 k Hk). rewrite (headers_loaded m m') in H3 by done. specialize (H3 Hl).
    rewrite file_fill, !(hd_field _ _ _ Hh) in H3 by (done || (unfold sh_size, sh_addralign; lia)). exact H3.
  - intros k k' Hk Hk' Hl Hl'. specialize (H4 k k' Hk Hk').
    rewrite !(headers_loaded m m'), (hd_field _ _ _ Hh) in H4 by (done || lia || (unfold sh_size; lia)). by apply H4.
  - intros k Hk Hl. apply H5; [done|]. by rewrite (headers_loaded m m').
Qed.
End SameFile.

(** ** Checking and naming *)
Definition elf_ident : list Z := [127; 69; 76; 70; 1; 1; EV_CURRENT].

(** The header of a relocatable file for the i386 that is [size] bytes long. *)
Record elf_header (m : gmap Z Z) (elf size : Z) : Prop := ElfHeader {
  eh_ident : ld_bytes m elf 7 = elf_ident;
  eh_type : ld 2 m (elf + e_type) = ET_REL;
  eh_machine : ld 2 m (elf + e_machine) = EM_386;
  eh_version : ld 4 m (elf + e_version) = EV_CURRENT;
  eh_size : size = u32 (ld 4 m (elf + e_shoff) + ld 2 m (elf + e_shnum) * ld 2 m (elf + e_shentsize));
}.

Lemma check_run elf size s : elf_header (mem s) elf size → bl_elf_check elf size s = Some (BL_STATUS_SUCCESS, s).
Proof.
  intros [H1 H2 H3 H4 H5]. apply wp_exact. unfold bl_elf_check. wp_steps. change (Z.to_nat 7) with 7%nat. rewrite H1, H2, H3, H4, bool_decide_true by done.
  change (ET_REL =? ET_REL) with true. change (EM_386 =? EM_386) with true. change (EV_CURRENT =? EV_CURRENT) with true.
  cbn [negb orb]. wp_steps. rewrite <- H5, Z.eqb_refl. by wp_steps.
Qed.

(** Comparing the first bytes with a string that is shorter. *)
Lemma short_compare s p q l1 l2 :
  cstr (mem s) p l1 → cstr (mem s) q l2 → (length l2 < 64)%nat →
  ∃ c, bl_strncmp p q BL_MODULE_MAX_NAME_LEN s = Some (c, s) ∧ negb (truth c) = bool_decide (l1 = l2).
Proof.
  intros H1 H2 Hl. eexists. split; [by apply bl_strncmp_run|].
  destruct H1 as (_ & _ & F1 & _), H2 as (_ & _ & F2 & _). change (Z.to_nat BL_MODULE_MAX_NAME_LEN) with 64%nat.
  rewrite (take_ge l2) by lia. pose proof (str_diff_id_zero (take 64 l1) l2 (Forall_take _ _ _ F1) F2) as E.
  assert (Et : take 64 l1 = l2 ↔ l1 = l2).
  { split; [|intros ->; by rewrite take_ge by lia]. intros <-. rewrite length_take in Hl. by rewrite take_ge by lia. }
  unfold truth. rewrite negb_involutive. destruct (Z.eqb_spec (str_diff id (take 64 l1) l2) 0) as [E0|E0].
  - symmetry. apply bool_decide_true. by apply Et, E.
  - symmetry. apply bool_decide_false. intros Heq. by apply E0, E, Et.
Qed.

Definition section_name_at (m : gmap Z Z) (elf i : Z) : Z :=
  u32 (elf + ld 4 m (u32 (elf + ld 4 m (elf + e_shoff) + ld 2 m (elf + e_shstrndx) * ld 2 m (elf + e_shentsize)) + sh_offset) +
       sh_field m elf (ld 4 m (elf + e_shoff)) i sh_name).

Lemma section_by_name_run elf name l snames s :
  let m := mem s in let shnum := ld 2 m (elf + e_shnum) in
  cstr m name l → (length l < 64)%nat → (∀ i, 0 <= i < shnum → cstr m (section_name_at m elf i) (snames i)) →
  bl_elf_section_by_name elf name s =
  Some (match List.find (λ i, bool_decide (snames i = l)) (seqZ 0 shnum) with
        | Some i => u32 (elf + sh_field m elf (ld 4 m (elf + e_shoff)) i sh_offset)
        | None => 0
        end, s).
Proof.
  intros m shnum Hname Hl Hs. pose proof (shnum_range m elf) as Hn. fold shnum in Hn. apply wp_exact. unfold bl_elf_section_by_name.
  do 10 wp_step. fold m shnum.
  wp_loop (λ i t, t = s ∧ 0 <= i <= shnum ∧ List.find (λ i, bool_decide (snames i = l)) (seqZ 0 i) = None) (λ i _, shnum - i); [| |lia].
  2:{ split; [done|]. split; [lia|done]. }
  intros i t (-> & Hi & Hf). destruct (Z.ltb_spec i shnum) as [Hlt|]; cycle 1.
  { wp_step. split; [|done]. replace i with shnum in Hf by lia. by rewrite Hf. }
  destruct (seqZ_split i shnum ltac:(lia)) as [tl Hsplit]. cbv zeta. wp_step. wp_step. fold m.
  fold (sh_field m elf (ld 4 m (elf + e_shoff)) i sh_name). fold (section_name_at m elf i).
  destruct (short_compare s (section_name_at m elf i) name (snames i) l) as (c & Hc & Ec); [apply Hs; lia|done|done|].
  wp_known Hc. rewrite Ec. case_bool_decide as E.
  - wp_steps. split; [|done]. rewrite Hsplit, find_app, Hf. cbn [List.find]. by rewrite bool_decide_true.
  - wp_step. split; [|lia]. split; [done|]. split; [lia|]. rewrite seqZ_app, find_app, Hf by lia.
    change (seqZ (0 + i) 1) with [i]. cbn [List.find]. by rewrite bool_decide_false.
Qed.

(** The list of loaded modules: their descriptors and names. *)
Fixpoint module_chain (m : gmap Z Z) (p : Z) (mods : list (Z * list Z)) : Prop :=
  match mods with
  | [] => p = 0
  | (a, l) :: mods => p = a ∧ cstr m (a + mod_name) l ∧ module_chain m (ld 4 m (a + mod_next)) mods
  end.

Lemma get_module_run env name l mods s :
  cstr (mem s) name l → (length l < 64)%nat → module_chain (mem s) (ld 4 (mem s) (g_mods env)) mods →
  Z.of_nat (length mods) < 4294967296 →
  bl_loader_get_module env name s =
  Some (match List.find (λ x, bool_decide (x.2 = l)) mods with Some x => x.1 | None => 0 end, s).
Proof.
  intros Hname Hl Hmods Hlen. apply wp_exact. unfold bl_loader_get_module. wp_step. wp_step.
  set (res := match List.find _ mods with Some x => x.1 | None => 0 end).
  apply (wp_mwhile_ranked _ (λ k p t, t = s ∧ ∃ rest, k = Z.of_nat (length rest) ∧ module_chain (mem s) p rest ∧
    match List.find (λ x, bool_decide (x.2 = l)) rest with Some x => x.1 | None => 0 end = res) _ (Z.of_nat (length mods)));
    [|split; [done|by exists mods]|unfold while_fuel; lia].
  intros k p t (-> & rest & -> & Hch & Hres). destruct rest as [|[a nm] rest]; cbn [module_chain] in Hch.
  { subst p. change (is_null 0) with true. cbv iota. wp_step. done. }
  destruct Hch as (-> & Hnm & Hch). assert (Ha : is_null a = false).
  { unfold is_null. apply Z.eqb_neq. destruct Hnm as (? & _). unfold mod_name in *. lia. }
  rewrite Ha. cbv iota. destruct (short_compare s (a + mod_name) name nm l) as (c & Hc & Ec); [done..|].
  wp_known Hc. rewrite Ec. cbn [List.find] in Hres. cbn [snd fst] in Hres. case_bool_decide as E.
  - wp_step. done.
  - wp_steps. exists (Z.of_nat (length rest)). split; [cbn [length]; lia|]. split; [done|]. by exists rest.
Qed.

(** ** Files that can be linked *)
Section Linkable.
Context (m : gmap Z Z) (elf fsize ks n : Z) (names : Z → list Z).
#[local] Abbreviation shoff := (ld 4 m (elf + e_shoff)).
#[local] Abbreviation shnum := (ld 2 m (elf + e_shnum)).
#[local] Abbreviation field := (sh_field m elf shoff).

(** The symbol table, section [ks], and the names of its symbols. *)
Definition symtab_of : Z := elf + field ks sh_offset.
Definition symtab_region : Z * Z := (symtab_of, sizeof_Elf32_Sym * n).
Definition symbol_name_at (j : Z) : Z :=
  u32 (elf + ld 4 m (u32 (elf + shoff + field ks sh_link * ld 2 m (elf + e_shentsize)) + sh_offset) + ld 4 m (sym symtab_of j + st_name)).

(** What relocation entry [x] says: the place in its section, the symbol. *)
Definition rel_place (x : Z * Z) : Z := entry_at (rel_table m elf x.1) x.2.
Definition rel_offset (x : Z * Z) : Z := ld 4 m (rel_place x + r_offset).
Definition rel_symbol (x : Z * Z) : Z := ELF32_R_SYM (ld 4 m (rel_place x + r_info)).
Definition rel_width (x : Z * Z) : nat := entry_width m (rel_table m elf x.1) x.2.

(** A file with one symbol table whose parts lie inside of it; its sections fit
    the image that is measured for them, and every relocation is for a section
    that is loaded, refers to a symbol of the table and changes bytes of its own. *)
Record linkable : Prop := Linkable {
  lk_file : elf_file m elf fsize;
  lk_header : elf_header m elf fsize;
  lk_shentsize : ld 2 m (elf + e_shentsize) = sizeof_Elf32_Shdr;
  lk_loads : 0 < segments_of m elf shoff shnum;
  lk_fits : image_end m elf shoff 0 shnum <= image_size m elf shoff shnum;
  lk_index : 0 <= ks < shnum ∧ 0 <= field ks sh_link < shnum;
  lk_type i : 0 <= i < shnum → (field i sh_type = SHT_SYMTAB ↔ i = ks);
  lk_entries : field ks sh_entsize ≠ 0 ∧ field ks sh_size / field ks sh_entsize = n ∧
               field ks sh_offset + sizeof_Elf32_Sym * n <= fsize;
  lk_names j : 0 <= j < n → cstr m (symbol_name_at j) (names j) ∧
    elf <= symbol_name_at j ∧ symbol_name_at j + Z.of_nat (length (names j)) + 1 <= elf + fsize ∧
    apart symtab_region (region_of (symbol_name_at j) (names j));
  lk_table : each_apart [symtab_region] [(elf, 52); (elf + shoff, sizeof_Elf32_Shdr * shnum)];
  lk_rel i : 0 <= i < shnum → is_rel m elf i = true →
    field i sh_link = ks ∧ field i sh_entsize ≠ 0 ∧ field i sh_offset + sizeof_Elf32_Rel * rel_count m elf i <= fsize ∧
    apart symtab_region (rel_table m elf i, sizeof_Elf32_Rel * rel_count m elf i) ∧
    rel_section m elf i < shnum ∧ is_loaded m elf shoff (rel_section m elf i) = true;
  lk_entry x : is_entry m elf x → rel_symbol x < n ∧
    rel_offset x + Z.of_nat (rel_width x) <= Z.of_nat (length (fill m elf (rel_section m elf x.1)));
  lk_apart x y : is_entry m elf x → is_entry m elf y → x ≠ y → rel_section m elf x.1 = rel_section m elf y.1 →
    disjoint (rel_offset x) (Z.of_nat (rel_width x)) (rel_offset y) (Z.of_nat (rel_width y));
}.

Lemma rel_symbol_range x : 0 <= rel_symbol x.
Proof. unfold rel_symbol, ELF32_R_SYM. apply Z.shiftr_nonneg. apply (ld4_range m). Qed.
Lemma rel_section_range i : 0 <= rel_section m elf i.
Proof. apply u16_range. Qed.

Hypothesis Hlink : linkable.
Lemma symtab_in_file : elf <= symtab_of ∧ symtab_of + sizeof_Elf32_Sym * n <= elf + fsize ∧ 0 <= n.
Proof.
  destruct (lk_entries Hlink) as (He & Hn & Hend). unfold symtab_of.
  pose proof (ld4_range m (section_at elf shoff ks + sh_offset)) as Hr. fold (field ks sh_offset) in Hr. split; [lia|]. split; [lia|].
  pose proof (ld4_range m (section_at elf shoff ks + sh_entsize)) as H1. pose proof (ld4_range m (section_at elf shoff ks + sh_size)) as H2.
  fold (field ks sh_size) in H2. fold (field ks sh_entsize) in H1. rewrite <- Hn. apply Z.div_pos; lia.
Qed.

Lemma rel_place_in_file x f :
  is_entry m elf x → 0 <= f <= 4 → elf <= rel_place x + f ∧ rel_place x + f + 4 <= elf + fsize ∧
  rel_table m elf x.1 <= rel_place x + f ∧ rel_place x + f + 4 <= rel_table m elf x.1 + sizeof_Elf32_Rel * rel_count m elf x.1.
Proof.
  intros (H1 & H2 & H3) Hf. destruct (lk_rel Hlink _ H1 H2) as (_ & _ & Hend & _).
  pose proof (ld4_range m (section_at elf shoff x.1 + sh_offset)) as Hr. fold (field x.1 sh_offset) in Hr.
  unfold rel_place, entry_at, rel_table, sizeof_Elf32_Rel in *. lia.
Qed.

Lemma strings_header : u32 (elf + shoff + field ks sh_link * ld 2 m (elf + e_shentsize)) = section_at elf shoff (field ks sh_link).
Proof. rewrite (lk_shentsize Hlink). unfold section_at. f_equal. lia. Qed.
End Linkable.

(** ** Modules that are linked *)
Section Linked.
Context `{SymbolFinder env} (m : gmap Z Z) (elf ks n : Z) (names : Z → list Z) (m' : gmap Z Z) (md lo hi : Z).
#[local] Abbreviation shoff := (ld 4 m (elf + e_shoff)).
#[local] Abbreviation shnum := (ld 2 m (elf + e_shnum)).
#[local] Abbreviation field := (sh_field m elf shoff).
#[local] Abbreviation loaded := (is_loaded m elf shoff).
#[local] Abbreviation address := (section_address m' md).
#[local] Abbreviation symtab := (symtab_of m elf ks).

Definition linked_symbol (j : Z) : option Z := resolved_at m symtab names address j.
Definition linked_entry (lit : list Z) : Z := foldl (λ old j, entry_point_at m symtab names address lit j old) 0 (seqZ 0 n).

(** The word of a relocation: the file's, adjusted by the symbol and the place. *)
Definition linked_addr (x : Z * Z) : Z := address (rel_section m elf x.1) + rel_offset m elf x.
Definition rel_addend (x : Z * Z) : Z :=
  le_combine (take (rel_width m elf x) (drop (Z.to_nat (rel_offset m elf x)) (fill m elf (rel_section m elf x.1)))).
Definition linked_word (x : Z * Z) : Z :=
  reloc_value (entry_type m (rel_table m elf x.1) x.2) (rel_addend x) (default 0 (linked_symbol (rel_symbol m elf x))) (linked_addr x).

(** The module at [md] whose image lies between [lo] and [hi] is the file in [m],
    linked: its sections have their places, every symbol its value, every
    relocated word its new value, and every other byte is the file's. *)
Record module_linked (mname : list Z) : Prop := ModuleLinked {
  ml_name : cstr m' (md + mod_name) mname;
  ml_place k : 0 <= k < shnum → loaded k = true →
    lo <= address k ∧ address k + field k sh_size <= hi ∧ address k mod field k sh_addralign = 0;
  ml_order k k' : 0 <= k < k' → k' < shnum → loaded k = true → loaded k' = true → address k + field k sh_size <= address k';
  ml_absent k : 0 <= k < shnum → loaded k = false → address k = 0;
  ml_symbol j : 0 <= j < n → linked_symbol j = Some (ld 4 m' (sym symtab j + st_value));
  ml_word x : is_entry m elf x →
    ld (rel_width m elf x) m' (linked_addr x) = linked_word x mod 256 ^ Z.of_nat (rel_width m elf x);
  ml_byte k i : 0 <= k < shnum → loaded k = true → (i < length (fill m elf k))%nat →
    (∀ x, is_entry m elf x → rel_section m elf x.1 = k → outside (rel_offset m elf x) (Z.of_nat (rel_width m elf x)) (Z.of_nat i)) →
    ld8 m' (address k + Z.of_nat i) = nth i (fill m elf k) 0;
  ml_initialize : ld 4 m' (md + mod_init) = linked_entry initialize_name;
  ml_uninitialize : ld 4 m' (md + mod_uninit) = linked_entry uninitialize_name;
}.
End Linked.

(** ** The program around a load *)
Definition mod_name_section : list Z := literal ".bl_mod_name".

(** How far the heap may grow for a module. *)
Definition module_cost (m : gmap Z Z) (elf : Z) : Z := cost sizeof_module + image_cost m elf.

(** A region that is not empty and that the heap leaves alone. *)
Definition held (s : machine) (bs : list block) (g : Z) (r : Z * Z) : Prop := stable_region s bs g r.1 r.2 ∧ 0 < r.2.

(** What a load finds: a heap with room; the file, the literals and what the
    search reads and writes in memory that is not the heap's to give away; the
    module's name in the file, which no loaded module has. *)
Record load_context `{SymbolFinder env} (s : machine) (bs : list block) (elf fsize kn : Z) (mname : list Z)
    (snames : Z → list Z) (mods : list (Z * list Z)) : Prop := LoadContext {
  lc_heap : heap_inv s bs;
  lc_room : heap_end s bs + module_cost (mem s) elf < 4294967296;
  lc_file : held s bs (module_cost (mem s) elf + 16) (elf, fsize);
  lc_initialize : cstr (mem s) (lit_initialize env) initialize_name;
  lc_uninitialize : cstr (mem s) (lit_uninitialize env) uninitialize_name;
  lc_reads : Forall (held s bs (module_cost (mem s) elf + 16))
    ([region_of (lit_initialize env) initialize_name; region_of (lit_uninitialize env) uninitialize_name] ++ finder_reads env);
  lc_writes : Forall (held s bs (module_cost (mem s) elf + 16)) (finder_writes env);
  lc_apart : each_apart ((elf, fsize) :: finder_writes env)
    ([region_of (lit_initialize env) initialize_name; region_of (lit_uninitialize env) uninitialize_name] ++ finder_reads env);
  lc_file_apart : each_apart (finder_writes env) [(elf, fsize)];
  lc_finder : finder_ok env (mem s);
  lc_lit_name : cstr (mem s) (lit_mod_name env) mod_name_section;
  lc_snames i : 0 <= i < ld 2 (mem s) (elf + e_shnum) → cstr (mem s) (section_name_at (mem s) elf i) (snames i);
  lc_section : List.find (λ i, bool_decide (snames i = mod_name_section)) (seqZ 0 (ld 2 (mem s) (elf + e_shnum))) = Some kn;
  lc_name : let p := elf + sh_field (mem s) elf (ld 4 (mem s) (elf + e_shoff)) kn sh_offset in
    cstr (mem s) p mname ∧ (length mname < 64)%nat ∧ p + Z.of_nat (length mname) + 1 <= elf + fsize;
  lc_mods : module_chain (mem s) (ld 4 (mem s) (g_mods env)) mods ∧ Z.of_nat (length mods) < 4294967296 ∧
    List.find (λ x, bool_decide (x.2 = mname)) mods = None;
}.

(** ** New blocks lie apart from what the heap does not touch *)
Lemma fresh_disjoint s bs s' bs' new g W b a k len x :
  heap_change s bs s' bs' [] new g W → b ∈ new → stable_region s bs g a k → 0 < k →
  0 < len → b_data b <= x → x + len <= b_end b → disjoint a k x len.
Proof.
  intros Hch Hb [_ Hst] Hk Hl Hx Hend. apply disjoint_points; [done|done|]. intros y Hy.
  destruct (decide (y < a ∨ a + k <= y)) as [|Hin]; [done|exfalso].
  pose proof (change_new_payload _ _ _ _ _ _ _ _ b y Hch Hb (Hst y ltac:(lia)) ltac:(by intros ? ?%not_elem_of_nil)) as Ho.
  unfold outside, b_end in *. lia.
Qed.

Lemma block_region s bs g b : heap_inv s bs → in_use bs b → stable_region s bs g (b_data b) (b_size b).
Proof.
  intros Hinv [Hb Hu]. destruct (laid_out_in _ b (heap_inv_laid_out _ _ Hinv) Hb) as (? & ? & ? & ?). split; [unfold in_space; field_lia|].
  intros x Hx. apply (payload_stable _ _ _ b); (done || field_lia).
Qed.

Lemma blocks_disjoint s bs b c x y k l :
  heap_inv s bs → in_use bs b → in_use bs c → b ≠ c →
  b_data b <= x → x + k <= b_end b → b_data c <= y → y + l <= b_end c → disjoint x k y l.
Proof.
  intros Hinv [Hb _] [Hc _] Hne ????. pose proof (heap_inv_laid_out _ _ Hinv) as Hl.
  destruct (laid_out_in _ b Hl Hb) as (? & ? & ? & ?), (laid_out_in _ c Hl Hc) as (? & ? & ? & ?). unfold disjoint.
  destruct (laid_out_disjoint _ b c Hl Hb Hc) as [|[?|?]]; [done|field_lia..].
Qed.

Section Load.
Context `{SymbolFinder env} (s : machine) (bs : list block) (elf fsize ks n kn : Z) (names : Z → list Z).
Context (mname : list Z) (snames : Z → list Z) (mods : list (Z * list Z)).
#[local] Abbreviation m := (mem s).
#[local] Abbreviation shoff := (ld 4 m (elf + e_shoff)).
#[local] Abbreviation shnum := (ld 2 m (elf + e_shnum)).
#[local] Abbreviation field := (sh_field m elf shoff).
Hypothesis Hlink : linkable m elf fsize ks n names.
Hypothesis Hctx : load_context s bs elf fsize kn mname snames mods.

Lemma costs_positive : 0 < cost sizeof_module ∧ 0 <= image_cost m elf.
Proof.
  unfold image_cost, cost, sizeof_head, sizeof_segment, sizeof_module.
  pose proof (shnum_range m elf) as Hn. pose proof (segments_bound m elf shoff shnum ltac:(lia)).
  pose proof (image_size_range m elf shoff shnum ltac:(lia)).
  destruct (measured_align m elf shoff shnum) as (e & He & -> & _); [apply (lk_file _ _ _ _ _ _ Hlink)|lia|].
  pose proof (pow2_32 e He). lia.
Qed.

(** The descriptor of the module, with its name and empty fields. *)
Lemma new_descriptor :
  ∃ mb bs1 s0 p s1, bl_heap_alloc sizeof_module s = Some (b_data mb, s0) ∧
    bl_strncpy (b_data mb + mod_name) (u32 (elf + field kn sh_offset)) BL_MODULE_MAX_NAME_LEN s0 = Some (p, s1) ∧
    let m1 := st 4 (st 4 (st 4 (mem s1) (b_data mb + mod_init) 0) (b_data mb + mod_uninit) 0) (b_data mb + mod_next) 0 in
    heap_change s bs (set_mem m1 s1) bs1 [] [mb] (cost sizeof_module) (λ _, False) ∧
    sizeof_module <= b_size mb ∧ 0 < b_data mb ∧ b_end mb <= 4294967296 ∧
    cstr m1 (b_data mb + mod_name) mname ∧ ld 4 m1 (b_data mb + mod_init) = 0 ∧ ld 4 m1 (b_data mb + mod_uninit) = 0.
Proof.
  destruct costs_positive as [Hc1 Hc2]. destruct (lc_name _ _ _ _ _ _ _ _ Hctx) as (Hname & Hlen & Hnend).
  pose proof (lc_room _ _ _ _ _ _ _ _ Hctx) as Hroom. unfold module_cost in Hroom.
  destruct (alloc_change s bs sizeof_module) as (mb & bs1 & s0 & Hrun & C & Hs1 & Hs2 & Hs3);
    [apply Hctx|unfold sizeof_module; lia|unfold room, cost, sizeof_module, sizeof_head in *; lia|].
  destruct (lc_file _ _ _ _ _ _ _ _ Hctx) as [Hst Hpos]. cbn [fst snd] in Hst, Hpos. unfold module_cost in Hst.
  set (np := elf + field kn sh_offset) in *. pose proof (ld4_range m (section_at elf shoff kn + sh_offset)) as Hor. fold (field kn sh_offset) in Hor.
  assert (Hon : same_on elf fsize m (mem s0)).
  { intros x Hx. eapply change_bytes; [exact C| |done|done]. eapply stable_region_weaken; [|exact Hst]. lia. }
  assert (Hname0 : cstr (mem s0) np mname).
  { eapply same_on_cstr; [|exact Hname]. apply (same_on_sub elf fsize); [done|unfold np; lia|lia]. }
  pose proof (fresh_disjoint _ _ _ _ _ _ _ mb elf fsize 64 (b_data mb + mod_name) C (list_elem_of_here _ _)
    ltac:(eapply stable_region_weaken; [|exact Hst]; lia) Hpos ltac:(lia)
    ltac:(unfold mod_name; lia) ltac:(unfold b_end, mod_name, sizeof_module in *; lia)) as Hdis.
  exists mb, bs1, s0. unfold b_end, sizeof_module, mod_name, mod_init, mod_uninit, mod_next, BL_MODULE_MAX_NAME_LEN in *.
  rewrite Z.add_0_r in *. set (md := b_data mb) in *.
  assert (Htake : take (Z.to_nat 64) (mname ++ [0]) = mname ++ [0]) by (apply take_ge; rewrite length_app; cbn [length]; lia).
  pose proof (bl_strncpy_run s0 md np mname 64 Hname0 Hs2 ltac:(lia)) as Hcpy. rewrite Htake in Hcpy.
  exists md, (set_mem (st_bytes (mem s0) md (mname ++ [0])) s0). split; [done|]. split.
  { rewrite u32_small by (destruct Hname as (? & ? & _); fold np; lia). fold np. apply Hcpy; [unfold in_space; lia|unfold disjoint, np in *; lia]. }
  rewrite mem_set_mem, set_mem_set_mem. set (ms := st_bytes (mem s0) md (mname ++ [0])).
  assert (Hl1 : Z.of_nat (length (mname ++ [0])) <= 64) by (rewrite length_app; cbn [length]; lia).
  assert (Hn1 : cstr ms md mname) by (apply cstr_st_bytes; [unfold in_space; destruct Hname as (_ & _ & ? & _); lia..|apply Hname]).
  split_and!; try done.
  - eapply change_keeps; [exact C| |].
    + apply (keeps_st_in [(md, 84)] _ _ _ _ _ (md, 84)); [|unfold in_space; lia|apply list_elem_of_here|cbn; lia|cbn [fst snd]; lia].
      apply (keeps_st_in [(md, 84)] _ _ _ _ _ (md, 84)); [|unfold in_space; lia|apply list_elem_of_here|cbn; lia|cbn [fst snd]; lia].
      apply (keeps_st_in [(md, 84)] _ _ _ _ _ (md, 84)); [|unfold in_space; lia|apply list_elem_of_here|cbn; lia|cbn [fst snd]; lia].
      eapply keeps_cover; [apply keeps_st_bytes; unfold in_space; lia|]. intros r ->%list_elem_of_singleton.
      exists (md, 84). split; [apply list_elem_of_here|]. cbn [fst snd]. lia.
    + intros r ->%list_elem_of_singleton. exists mb. split; [apply list_elem_of_here|]. cbn [fst snd]. unfold b_end, md. lia.
  - eapply same_on_cstr; [|exact Hn1]. intros x Hx. by past_writes.
  - past_writes. by rewrite ld_st_same by field_side.
  - past_writes. by rewrite ld_st_same by field_side.
Qed.

(** After the image has been loaded. *)
Record image_placed (mb segs img : block) (bs2 : list block) (s2 : machine) : Prop := ImagePlaced {
  ip_change : heap_change s bs s2 bs2 [] [mb; segs; img] (module_cost m elf) (λ _, False);
  ip_md : sizeof_module <= b_size mb ∧ 0 < b_data mb;
  ip_blocks : mb ≠ segs ∧ mb ≠ img ∧ segs ≠ img;
  ip_image : image_loaded m elf (mem s2) (b_data mb) (b_data img) (b_end img);
  ip_segments : ld 4 (mem s2) (b_data mb + mod_segments) = b_data segs ∧
                sizeof_segment * ld 4 (mem s2) (b_data mb + mod_count) <= b_size segs;
  ip_name : cstr (mem s2) (b_data mb + mod_name) mname;
  ip_entries : ld 4 (mem s2) (b_data mb + mod_init) = 0 ∧ ld 4 (mem s2) (b_data mb + mod_uninit) = 0;
}.

Lemma file_held : stable_region s bs (module_cost m elf + 16) elf fsize ∧ 0 < fsize.
Proof. exact (lc_file _ _ _ _ _ _ _ _ Hctx). Qed.

Lemma image_placed_run mb bs1 s1 :
  heap_change s bs s1 bs1 [] [mb] (cost sizeof_module) (λ _, False) → sizeof_module <= b_size mb → 0 < b_data mb →
  cstr (mem s1) (b_data mb + mod_name) mname → ld 4 (mem s1) (b_data mb + mod_init) = 0 → ld 4 (mem s1) (b_data mb + mod_uninit) = 0 →
  ∃ segs img bs2 s2, bl_elf_load_image elf (b_data mb) s1 = Some (BL_STATUS_SUCCESS, s2) ∧ image_placed mb segs img bs2 s2.
Proof.
  intros C1 Hs1 Hs2 Hn1 Hi1 Hu1. destruct costs_positive as [Hc1 Hc2]. destruct file_held as [Hst Hpos].
  pose proof (lc_room _ _ _ _ _ _ _ _ Hctx) as Hroom. unfold module_cost in *. set (md := b_data mb) in *.
  assert (Hu : in_use bs1 mb) by (apply (ch_used _ _ _ _ _ _ _ _ C1); right; apply list_elem_of_here).
  pose proof (ch_inv _ _ _ _ _ _ _ _ C1) as Hinv1. pose proof (ch_end _ _ _ _ _ _ _ _ C1) as He1.
  assert (Hon : same_on elf fsize m (mem s1)).
  { intros x Hx. eapply change_bytes; [exact C1| |done|done]. eapply stable_region_weaken; [|exact Hst]. lia. }
  pose proof (lk_file _ _ _ _ _ _ Hlink) as Hf. pose proof (file_headers _ _ _ _ Hf Hon) as Hh. pose proof (shnum_range m elf) as Hsn.
  pose proof (headers_cost _ _ _ Hh) as Ecost.
  assert (Hmdst : ∀ g, stable_region s1 bs1 g md sizeof_module).
  { intros g. eapply stable_sub; [by apply (block_region s1 bs1 g mb)|unfold md; lia|unfold sizeof_module; lia|unfold md; lia]. }
  assert (Hr : load_ready s1 bs1 elf fsize md).
  { split.
    - done.
    - by eapply headers_file.
    - rewrite (hd_shoff _ _ _ Hh), (hd_shnum _ _ _ Hh), (headers_segments m (mem s1)) by (done || lia). apply Hlink.
    - rewrite (hd_shoff _ _ _ Hh), (hd_shnum _ _ _ Hh). unfold image_end, image_size.
      rewrite (headers_placed m (mem s1)), (headers_measured m (mem s1)) by (done || lia). apply (lk_fits _ _ _ _ _ _ Hlink).
    - rewrite Ecost. eapply change_stable_region; [exact C1|lia|]. by rewrite Z.add_assoc.
    - apply Hmdst.
    - eapply fresh_disjoint; [exact C1|apply list_elem_of_here|eapply stable_region_weaken; [|exact Hst]; lia|done|..];
        unfold b_end, md, sizeof_module in *; lia.
    - rewrite Ecost. lia. }
  destruct (load_image_run s1 bs1 elf fsize md Hr) as (segs & img & bs2 & s2 & Hrun & C2 & Hil & Hne & Hsg1 & Hsg2).
  rewrite Ecost in C2. exists segs, img, bs2, s2. split; [done|].
  assert (Hfresh : ∀ b, b ∈ [segs; img] → mb ≠ b).
  { intros b Hb ->. by apply (ch_fresh _ _ _ _ _ _ _ _ C2 b Hb). }
  assert (Hmd : ∀ f k, 0 <= f → f + k <= sizeof_module → f + k <= mod_count ∨ mod_init <= f → same_on (md + f) k (mem s1) (mem s2)).
  { intros f k Hf0 Hk Ho x Hx. eapply (change_bytes _ _ _ _ _ _ _ (md + f) k); [exact C2| | |exact Hx].
    - eapply stable_sub; [apply (Hmdst (image_cost m elf))|lia|lia|lia].
    - intros y. unfold within, outside, mod_count, mod_init in *. lia. }
  split.
  - apply (change_drop s bs s2 bs2 [] [mb; segs; img] (cost sizeof_module + image_cost m elf) (within (md + mod_count) 8)).
    + change [mb; segs; img] with ([mb] ++ [segs; img]). eapply change_new; [lia|lia| |exact C2].
      eapply change_weaken; [| |exact C1]; [lia|done].
    + intros x Hx. right. exists mb. split; [apply list_elem_of_here|]. unfold within, b_end, md, mod_count, sizeof_module in *. lia.
  - done.
  - split; [apply Hfresh, list_elem_of_here|]. split; [apply Hfresh, list_elem_of_further, list_elem_of_here|done].
  - by eapply file_image.
  - done.
  - destruct (lc_name _ _ _ _ _ _ _ _ Hctx) as (_ & Hlen & _).
    eapply same_on_cstr; [|exact Hn1]. apply Hmd; unfold mod_name, sizeof_module, mod_count; lia.
  - split; [rewrite <- Hi1|rewrite <- Hu1]; (apply same_on_ld, Hmd; unfold mod_init, mod_uninit, sizeof_module; lia).
Qed.

(** ** The symbols, when the image is in place *)
Section Placed.
Context (mb segs img : block) (bs2 : list block) (s2 : machine).
Hypothesis Hip : image_placed mb segs img bs2 s2.
#[local] Abbreviation md := (b_data mb).
#[local] Abbreviation m2 := (mem s2).
#[local] Abbreviation symtab := (symtab_of m elf ks).
#[local] Abbreviation name_at := (symbol_name_at m elf ks).

Lemma placed_in_use b : b ∈ [mb; segs; img] → in_use bs2 b.
Proof. intros Hb. apply (ch_used _ _ _ _ _ _ _ _ (ip_change _ _ _ _ _ Hip)). by right. Qed.

(** What the heap leaves alone is as it was, and apart from the new blocks. *)
Lemma held_same r : held s bs (module_cost m elf + 16) r → same_on r.1 r.2 m m2.
Proof.
  intros [Hst _] x Hx. eapply change_bytes; [apply (ip_change _ _ _ _ _ Hip)| |done|exact Hx].
  eapply stable_region_weaken; [|exact Hst]. lia.
Qed.
Lemma held_block_apart r b x len :
  held s bs (module_cost m elf + 16) r → b ∈ [mb; segs; img] → 0 < len → b_data b <= x → x + len <= b_end b → apart r (x, len).
Proof.
  intros [Hst Hpos] Hb ???. unfold apart. cbn [fst snd].
  eapply fresh_disjoint; [apply (ip_change _ _ _ _ _ Hip)|exact Hb|eapply stable_region_weaken; [|exact Hst]; lia|done..].
Qed.
Lemma held_md r f len : held s bs (module_cost m elf + 16) r → 0 < len → 0 <= f → f + len <= sizeof_module → apart r (md + f, len).
Proof.
  intros Hr ???. destruct (ip_md _ _ _ _ _ Hip) as [? ?]. apply (held_block_apart r mb); [done|apply list_elem_of_here|done|lia|unfold b_end; lia].
Qed.
Lemma count_positive : 0 < ld 4 m2 (md + mod_count) < 65536.
Proof.
  rewrite (il_count _ _ _ _ _ _ (ip_image _ _ _ _ _ Hip)). pose proof (shnum_range m elf) as Hn.
  pose proof (segments_bound m elf shoff shnum ltac:(lia)). pose proof (lk_loads _ _ _ _ _ _ Hlink). lia.
Qed.
Lemma held_segments r : held s bs (module_cost m elf + 16) r → apart r (segment_table m2 md).
Proof.
  intros Hr. destruct (ip_segments _ _ _ _ _ Hip) as [E Hsz]. pose proof count_positive. unfold segment_table. rewrite E.
  apply (held_block_apart r segs); [done|apply list_elem_of_further, list_elem_of_here|unfold sizeof_segment; lia|lia|unfold b_end; lia].
Qed.
Lemma md_segments f len : 0 <= f → f + len <= sizeof_module → apart (md + f, len) (segment_table m2 md).
Proof.
  intros ??. destruct (ip_segments _ _ _ _ _ Hip) as [E Hsz], (ip_md _ _ _ _ _ Hip) as [? ?], (ip_blocks _ _ _ _ _ Hip) as (? & _).
  unfold segment_table, apart. rewrite E. cbn [fst snd].
  apply (blocks_disjoint s2 bs2 mb segs); [apply (ip_change _ _ _ _ _ Hip)| | |done|lia|unfold b_end; lia|lia|unfold b_end; lia];
    apply placed_in_use; [apply list_elem_of_here|apply list_elem_of_further, list_elem_of_here].
Qed.

Lemma placed_file : same_on elf fsize m m2.
Proof. apply (held_same (elf, fsize)), (lc_file _ _ _ _ _ _ _ _ Hctx). Qed.
Lemma placed_md : in_space md sizeof_module.
Proof.
  destruct (ip_md _ _ _ _ _ Hip) as [? ?]. pose proof (placed_in_use mb (list_elem_of_here _ _)) as [Hu _].
  destruct (laid_out_in _ mb (heap_inv_laid_out _ _ (ch_inv _ _ _ _ _ _ _ _ (ip_change _ _ _ _ _ Hip))) Hu) as (? & ? & ? & ?).
  unfold in_space, sizeof_module in *. field_lia.
Qed.

Lemma held_reads q :
  q ∈ [region_of (lit_initialize env) initialize_name; region_of (lit_uninitialize env) uninitialize_name] ++ finder_reads env →
  held s bs (module_cost m elf + 16) q.
Proof. pose proof (lc_reads _ _ _ _ _ _ _ _ Hctx) as Hr. rewrite Forall_forall in Hr. apply Hr. Qed.
Lemma held_writes q : q ∈ finder_writes env → held s bs (module_cost m elf + 16) q.
Proof. pose proof (lc_writes _ _ _ _ _ _ _ _ Hctx) as Hr. rewrite Forall_forall in Hr. apply Hr. Qed.
Lemma held_file : held s bs (module_cost m elf + 16) (elf, fsize).
Proof. apply (lc_file _ _ _ _ _ _ _ _ Hctx). Qed.

(** Everything that the symbols' loop writes is the symbol table, the entry
    points or the search's; what holds for the three holds for all. *)
Lemma writes_apart q :
  apart (symtab_region m elf ks n) q → apart (md + mod_init, 8) q → Forall (λ r, apart r q) (finder_writes env) →
  Forall (λ r, apart r q) (table_writes md symtab n).
Proof. intros H1 H2 H3. unfold table_writes. by apply Forall_cons; split; [|apply Forall_cons]. Qed.

Lemma symtab_sub q : apart (elf, fsize) q → apart (symtab_region m elf ks n) q.
Proof. intros Hq. destruct (symtab_in_file _ _ _ _ _ _ Hlink) as (? & ? & _). by apply (apart_sub elf fsize). Qed.
Lemma file_sub a k r : apart r (elf, fsize) → elf <= a → a + k <= elf + fsize → apart r (a, k).
Proof. intros Hr ??. apply apart_sym. by apply (apart_sub elf fsize); [apply apart_sym|..]. Qed.

(** Parts of the file that the symbol table does not overlap. *)
Lemma file_part_apart a k :
  0 < k → elf <= a → a + k <= elf + fsize → apart (symtab_region m elf ks n) (a, k) → Forall (λ r, apart r (a, k)) (table_writes md symtab n).
Proof.
  intros Hk Ha Hend Hs. apply writes_apart; [done|apply apart_sym|].
  - apply (apart_sub elf fsize); [|done|done]. apply held_md; [apply held_file|lia|unfold mod_init; lia|unfold mod_init, sizeof_module; lia].
  - pose proof (each_apart_col _ _ (elf, fsize) (lc_file_apart _ _ _ _ _ _ _ _ Hctx) (list_elem_of_here _ _)) as Hc.
    eapply Forall_impl; [exact Hc|]. intros r Hr. by apply file_sub.
Qed.

Lemma name_region j :
  0 <= j < n → cstr m2 (name_at j) (names j) ∧
  Forall (λ r, apart r (region_of (name_at j) (names j))) (table_writes md symtab n).
Proof.
  intros Hj. destruct (lk_names _ _ _ _ _ _ Hlink j Hj) as (Hc & H1 & H2 & H3). split.
  - eapply same_on_cstr; [|exact Hc]. apply (same_on_sub elf fsize); [apply placed_file|done|lia].
  - apply file_part_apart; [lia|done|lia|done].
Qed.

Lemma placed_table_ready : table_ready m2 md symtab n name_at names.
Proof.
  destruct (symtab_in_file _ _ _ _ _ _ Hlink) as (Hs1 & Hs2 & Hn). pose proof (ef_space _ _ _ (lk_file _ _ _ _ _ _ Hlink)) as [_ Hsp].
  pose proof placed_md as Hmd. pose proof count_positive as Hcp. pose proof (ip_md _ _ _ _ _ Hip) as [Hmb1 Hmb2].
  pose proof (il_table _ _ _ _ _ _ (ip_image _ _ _ _ _ Hip)) as Htab.
  assert (Hlit : ∀ p l, region_of p l ∈ [region_of (lit_initialize env) initialize_name; region_of (lit_uninitialize env) uninitialize_name] →
    cstr m p l → cstr m2 p l).
  { intros p l Hin Hc. eapply same_on_cstr; [|exact Hc]. apply (held_same (region_of p l)). apply held_reads, elem_of_app. by left. }
  split.
  - split; [done|]. unfold in_space, sizeof_Elf32_Sym in *. lia.
  - done.
  - split; [done|lia].
  - intros j Hj. by apply name_region.
  - apply Hlit; [in_list|apply (lc_initialize _ _ _ _ _ _ _ _ Hctx)].
  - apply Hlit; [in_list|apply (lc_uninitialize _ _ _ _ _ _ _ _ Hctx)].
  - pose proof (lc_apart _ _ _ _ _ _ _ _ Hctx) as Hap. apply each_apart_cols.
    assert (Hreads : ∀ q, q ∈ [region_of (lit_initialize env) initialize_name; region_of (lit_uninitialize env) uninitialize_name] ++ finder_reads env →
      Forall (λ r, apart r q) (table_writes md symtab n)).
    { intros q Hq. pose proof (each_apart_col _ _ q Hap Hq) as [H1 H2]%Forall_cons. apply writes_apart; [by apply symtab_sub| |done].
      apply apart_sym, held_md; [by apply held_reads|lia|unfold mod_init; lia|unfold mod_init, sizeof_module; lia]. }
    assert (Hw : ∀ q, (∀ r, held s bs (module_cost m elf + 16) r → apart r q) → Forall (λ r, apart r q) (finder_writes env)).
    { intros q Hq. apply Forall_forall. intros r Hr. by apply Hq, held_writes. }
    intros q Hq. change (q ∈ [(md + mod_count, 8); segment_table m2 md] ++
      ([region_of (lit_initialize env) initialize_name; region_of (lit_uninitialize env) uninitialize_name] ++ finder_reads env)) in Hq.
    apply elem_of_app in Hq as [Hq|Hq]; [|by apply Hreads].
    apply elem_of_cons in Hq as [->|Hq%list_elem_of_singleton]; [|subst q]; apply writes_apart.
    + apply symtab_sub, held_md; [apply held_file|lia|unfold mod_count; lia|unfold mod_count, sizeof_module; lia].
    + unfold apart, disjoint, mod_init, mod_count. cbn [fst snd]. lia.
    + apply Hw. intros r Hr. apply held_md; [done|lia|unfold mod_count; lia|unfold mod_count, sizeof_module; lia].
    + apply symtab_sub, held_segments, held_file.
    + apply md_segments; unfold mod_init, sizeof_module; lia.
    + apply Hw. intros r Hr. by apply held_segments.
  - intros j Hj. apply each_apart_cols. intros q ->%list_elem_of_singleton. by apply name_region.
  - assert (Hmdr : ∀ r, held s bs (module_cost m elf + 16) r → apart r (md, sizeof_module)).
    { intros r Hr. rewrite <- (Z.add_0_r md). apply held_md; [done|unfold sizeof_module; lia..]. }
    split; [|apply symtab_sub, Hmdr, held_file]. apply each_apart_cols.
    intros q Hq. apply elem_of_cons in Hq as [->|Hq%list_elem_of_singleton]; [|subst q].
    + pose proof (each_apart_col _ _ (elf, fsize) (lc_file_apart _ _ _ _ _ _ _ _ Hctx) (list_elem_of_here _ _)) as Hc.
      eapply Forall_impl; [exact Hc|]. intros r Hr. by apply file_sub.
    + apply Forall_forall. intros r Hr. by apply Hmdr, held_writes.
  - eapply finder_frame; [apply (lc_finder _ _ _ _ _ _ _ _ Hctx)|]. apply Forall_forall. intros q Hq.
    apply held_same, held_reads, elem_of_app. by right.
Qed.

(** The headers and the symbols, as the loop finds them. *)
Lemma placed_headers : same_headers m m2 elf.
Proof. eapply file_headers; [apply (lk_file _ _ _ _ _ _ Hlink)|apply placed_file]. Qed.
Lemma placed_word k a : elf <= a → a + Z.of_nat k <= elf + fsize → ld k m2 a = ld k m a.
Proof. eapply file_word, placed_file. Qed.
Lemma symbol_in_file j f k : 0 <= j < n → 0 <= f → f + k <= sizeof_Elf32_Sym → elf <= sym symtab j + f ∧ sym symtab j + f + k <= elf + fsize.
Proof. intros ???. destruct (symtab_in_file _ _ _ _ _ _ Hlink) as (? & ? & _). unfold sym, sizeof_Elf32_Sym in *. lia. Qed.

Lemma placed_symbols_file : symbols_file m2 md symtab n name_at elf ks.
Proof.
  destruct (lk_index _ _ _ _ _ _ Hlink) as [Hki Hli]. pose proof (lk_file _ _ _ _ _ _ Hlink) as Hf.
  destruct (lk_entries _ _ _ _ _ _ Hlink) as (He & Hn & Hend). pose proof placed_headers as Hh.
  pose proof (ef_space _ _ _ Hf) as [_ Hsp]. pose proof (ef_header _ _ _ Hf) as Hhd. pose proof (ef_table _ _ _ Hf) as Htb.
  pose proof (ld4_range m (elf + e_shoff)) as Hor. pose proof (shnum_range m elf) as Hsn.
  split; rewrite ?(hd_shoff _ _ _ Hh), ?(hd_shnum _ _ _ Hh).
  - unfold in_space, sizeof_Elf32_Shdr in *. lia.
  - done.
  - intros i Hi. rewrite (hd_field _ _ _ Hh) by (done || (unfold sh_type; lia)). by apply (lk_type _ _ _ _ _ _ Hlink).
  - rewrite (hd_field _ _ _ Hh) by (done || (unfold sh_type; lia)). by apply (lk_type _ _ _ _ _ _ Hlink).
  - rewrite (hd_field _ _ _ Hh) by (done || (unfold sh_offset; lia)). done.
  - rewrite !(hd_field _ _ _ Hh) by (done || (unfold sh_size, sh_entsize; lia)). done.
  - intros j Hj. rewrite (hd_field _ _ _ Hh) by (done || (unfold sh_link; lia)).
    rewrite (placed_word 2 (elf + e_shentsize)) by (unfold e_shentsize; lia). unfold symbol_name_at.
    rewrite (strings_header _ _ _ _ _ _ Hlink). rewrite !placed_word; [done|..].
    + apply (symbol_in_file j st_name 4); [done|unfold st_name; lia|unfold st_name, sizeof_Elf32_Sym; lia].
    + apply (symbol_in_file j st_name 4); [done|unfold st_name; lia|unfold st_name, sizeof_Elf32_Sym; lia].
    + rewrite (section_at_exact m elf fsize) by done. unfold sizeof_Elf32_Shdr, sh_offset in *. lia.
    + rewrite (section_at_exact m elf fsize) by done. unfold sizeof_Elf32_Shdr, sh_offset in *. lia.
  - pose proof (lk_table _ _ _ _ _ _ Hlink) as [Ht _]%Forall_cons. apply Forall_cons in Ht as [Ht1 [Ht2 _]%Forall_cons].
    apply each_apart_cols. intros q Hq. apply elem_of_cons in Hq as [->|Hq%list_elem_of_singleton]; [|subst q].
    + apply file_part_apart; [lia|lia|lia|done].
    + apply file_part_apart; [unfold sizeof_Elf32_Shdr; lia|lia|unfold sizeof_Elf32_Shdr in *; lia|done].
Qed.

Lemma symbol_same j :
  0 <= j < n → sym_type m2 symtab j = sym_type m symtab j ∧ is_import m2 symtab j = is_import m symtab j ∧
  ∀ A, resolved_at m2 symtab names A j = resolved_at m symtab names A j.
Proof.
  intros Hj. destruct (symbol_bytes m symtab names m2 j) as (E1 & E2 & E3 & _); [|done].
  apply same_on_ld_bytes, (same_on_sub elf fsize); [apply placed_file|..];
    destruct (symbol_in_file j 0 16 Hj ltac:(lia) ltac:(unfold sizeof_Elf32_Sym; lia)); lia.
Qed.

(** ** The relocations, when the symbols are resolved *)
Section Resolved.
Context (m3 : gmap Z Z).
Hypothesis Hres : table_result m2 md symtab n names n m3.
#[local] Abbreviation lo := (b_data img).
#[local] Abbreviation hi := (b_end img).
#[local] Abbreviation address := (section_address m2 md).

Lemma file_part_same a k :
  elf <= a → a + k <= elf + fsize → apart (symtab_region m elf ks n) (a, k) → same_on a k m m3.
Proof.
  intros Ha Hend Hs. destruct (decide (0 < k)) as [Hk|]; [|intros x Hx; lia].
  apply (same_on_trans _ _ _ m2); [by apply (same_on_sub elf fsize); [apply placed_file|..]|].
  eapply keeps_same_on; [apply (ts_keeps _ _ _ _ _ _ _ Hres)| |by apply file_part_apart].
  pose proof (ef_space _ _ _ (lk_file _ _ _ _ _ _ Hlink)) as [_ Hsp]. unfold in_space in *. lia.
Qed.

Lemma resolved_section k :
  section_address m3 md k = address k ∧ ld 4 m3 (md + mod_segments) = ld 4 m2 (md + mod_segments) ∧
  ld 4 m3 (md + mod_count) = ld 4 m2 (md + mod_count).
Proof. eapply table_section; [apply placed_table_ready|apply (ts_keeps _ _ _ _ _ _ _ Hres)]. Qed.

Lemma resolved_headers : same_headers m m3 elf.
Proof.
  pose proof (lk_file _ _ _ _ _ _ Hlink) as Hf. pose proof (ef_header _ _ _ Hf) as Hhd. pose proof (ef_table _ _ _ Hf) as Htb.
  pose proof (ld4_range m (elf + e_shoff)) as Hor.
  pose proof (lk_table _ _ _ _ _ _ Hlink) as [Ht _]%Forall_cons. apply Forall_cons in Ht as [Ht1 [Ht2 _]%Forall_cons].
  pose proof (file_part_same elf 52 ltac:(lia) ltac:(lia) Ht1) as H1.
  pose proof (file_part_same (elf + shoff) (sizeof_Elf32_Shdr * shnum) ltac:(lia) ltac:(unfold sizeof_Elf32_Shdr in *; lia) Ht2) as H2.
  split.
  - apply same_on_ld, (same_on_sub elf 52); [done|unfold e_shoff; lia|unfold e_shoff; lia].
  - apply same_on_ld, (same_on_sub elf 52); [done|unfold e_shnum; lia|unfold e_shnum; lia].
  - intros k f Hk Hfr. unfold sh_field. rewrite (section_at_exact m elf fsize) by done.
    apply same_on_ld, (same_on_sub (elf + shoff) (sizeof_Elf32_Shdr * shnum)); [done|unfold sizeof_Elf32_Shdr; lia|unfold sizeof_Elf32_Shdr; lia].
Qed.

Lemma rel_same i :
  0 <= i < shnum → is_rel m3 elf i = is_rel m elf i ∧ rel_count m3 elf i = rel_count m elf i ∧
  rel_section m3 elf i = rel_section m elf i ∧ rel_table m3 elf i = rel_table m elf i.
Proof.
  intros Hi. pose proof resolved_headers as Hh. unfold is_rel, rel_count, rel_section, rel_table. rewrite (hd_shoff _ _ _ Hh).
  by rewrite !(hd_field _ _ _ Hh) by (done || (unfold sh_type, sh_size, sh_entsize, sh_info, sh_offset; lia)).
Qed.
Lemma rel_symtab_same i : 0 < n → 0 <= i < shnum → is_rel m elf i = true → rel_symtab m3 elf i = symtab.
Proof.
  intros Hn Hi Hr. pose proof resolved_headers as Hh. destruct (lk_rel _ _ _ _ _ _ Hlink i Hi Hr) as (Hl & _).
  unfold rel_symtab. rewrite (hd_shoff _ _ _ Hh), (hd_field _ _ _ Hh i) by (done || (unfold sh_link; lia)). rewrite Hl.
  destruct (lk_index _ _ _ _ _ _ Hlink) as [Hki _]. rewrite (hd_field _ _ _ Hh) by (done || (unfold sh_offset; lia)).
  destruct (symtab_in_file _ _ _ _ _ _ Hlink) as (H1 & H2 & H3). pose proof (ef_space _ _ _ (lk_file _ _ _ _ _ _ Hlink)) as [? Hsp].
  fold (symtab_of m elf ks). apply u32_small. unfold in_space, sizeof_Elf32_Sym in *. lia.
Qed.

Lemma entry_same x : is_entry m3 elf x ↔ is_entry m elf x.
Proof.
  unfold is_entry. rewrite (hd_shnum _ _ _ resolved_headers).
  split; intros (H1 & H2); (split; [done|]); destruct (rel_same x.1 H1) as (E1 & E2 & _); by rewrite ?E1, ?E2 in *.
Qed.

Lemma entry_words x :
  is_entry m elf x → ld 4 m3 (rel_place m elf x + r_offset) = rel_offset m elf x ∧
  ld 4 m3 (rel_place m elf x + r_info) = ld 4 m (rel_place m elf x + r_info).
Proof.
  intros Hx. pose proof Hx as (H1 & H2 & H3). destruct (lk_rel _ _ _ _ _ _ Hlink _ H1 H2) as (_ & _ & Hend & Hap & _).
  pose proof (ld4_range m (section_at elf shoff x.1 + sh_offset)) as Hr. fold (field x.1 sh_offset) in Hr.
  assert (Hon : same_on (rel_table m elf x.1) (sizeof_Elf32_Rel * rel_count m elf x.1) m m3).
  { apply file_part_same; [unfold rel_table; lia|unfold rel_table; lia|done]. }
  destruct (rel_place_in_file _ _ _ _ _ _ Hlink x r_offset Hx ltac:(unfold r_offset; lia)) as (_ & _ & ? & ?).
  destruct (rel_place_in_file _ _ _ _ _ _ Hlink x r_info Hx ltac:(unfold r_info; lia)) as (_ & _ & ? & ?).
  split; (eapply same_on_ld, same_on_sub; [exact Hon|lia|lia]).
Qed.

Lemma image_below : hi < 4294967296.
Proof.
  pose proof (ip_change _ _ _ _ _ Hip) as C. pose proof (placed_in_use img ltac:(in_list)) as [Hu _].
  pose proof (heap_below _ _ _ (ch_inv _ _ _ _ _ _ _ _ C) Hu) as [_ ?]. pose proof (ch_end _ _ _ _ _ _ _ _ C).
  pose proof (lc_room _ _ _ _ _ _ _ _ Hctx). lia.
Qed.
Lemma image_at_least : 0 < lo.
Proof.
  pose proof (placed_in_use img ltac:(in_list)) as [Hu _].
  destruct (laid_out_in _ img (heap_inv_laid_out _ _ (ch_inv _ _ _ _ _ _ _ _ (ip_change _ _ _ _ _ Hip))) Hu) as (? & ? & ? & ?). field_lia.
Qed.

Lemma image_positive : 0 < hi - lo.
Proof.
  destruct (lookup_lt_is_Some_2 (places m elf shoff 0 shnum) 0) as [[k a] Hk].
  { pose proof (lk_loads _ _ _ _ _ _ Hlink). unfold segments_of in *. lia. }
  pose proof (shnum_range m elf). destruct (placed_well m elf shoff 0 shnum shnum) as [(W1 & _) _]; [apply (lk_file _ _ _ _ _ _ Hlink)|lia|].
  destruct (W1 _ _ _ Hk) as (Hkr & Hl & _). pose proof (loaded_size _ _ _ _ Hl).
  destruct (il_section _ _ _ _ _ _ (ip_image _ _ _ _ _ Hip) k Hkr Hl) as (? & ? & _). lia.
Qed.

(** Where a relocated word lies. *)
Lemma entry_in_image x :
  is_entry m elf x →
  let k := rel_section m elf x.1 in
  0 <= k < shnum ∧ is_loaded m elf shoff k = true ∧ lo <= address k ∧ address k + field k sh_size <= hi ∧
  0 <= rel_offset m elf x ∧ rel_offset m elf x + Z.of_nat (rel_width m elf x) <= Z.of_nat (length (fill m elf k)) <= field k sh_size.
Proof.
  intros Hx k. pose proof Hx as (H1 & H2 & H3). destruct (lk_rel _ _ _ _ _ _ Hlink _ H1 H2) as (_ & _ & _ & _ & Hk & Hl).
  pose proof (rel_section_range m elf x.1). destruct (lk_entry _ _ _ _ _ _ Hlink x Hx) as [_ Ho].
  destruct (il_section _ _ _ _ _ _ (ip_image _ _ _ _ _ Hip) k ltac:(unfold k; lia) Hl) as (? & ? & _).
  split_and!; try done; [apply (ld4_range m)|by apply length_fill].
Qed.

Lemma entry_target x :
  is_entry m elf x → target_addr m3 elf md x = address (rel_section m elf x.1) + rel_offset m elf x ∧
  target_width m3 elf x = rel_width m elf x ∧ entry_type m3 (rel_table m3 elf x.1) x.2 = entry_type m (rel_table m elf x.1) x.2 ∧
  target_symbol m3 elf x = sym symtab (rel_symbol m elf x) + st_value.
Proof.
  intros Hx. pose proof Hx as (H1 & H2 & H3). destruct (rel_same _ H1) as (_ & _ & E3 & E4). destruct (entry_words x Hx) as [W1 W2].
  destruct (entry_in_image x Hx) as (_ & _ & ? & ? & ? & ?). pose proof image_below. pose proof image_at_least.
  destruct (lk_entry _ _ _ _ _ _ Hlink x Hx) as [Hsym _]. pose proof (rel_symbol_range m elf x).
  assert (Et : entry_type m3 (rel_table m3 elf x.1) x.2 = entry_type m (rel_table m elf x.1) x.2).
  { unfold entry_type. rewrite E4. fold (rel_place m elf x). by rewrite W2. }
  split; [|split; [|split; [exact Et|]]].
  - unfold target_addr, entry_addr, rel_applied. rewrite E3, E4. fold (rel_place m elf x).
    rewrite W1, (proj1 (resolved_section _)). apply u32_small. lia.
  - unfold target_width, rel_width, entry_width. by rewrite Et.
  - unfold target_symbol, symbol_place. rewrite E4, (rel_symtab_same x.1) by (done || lia). fold (rel_place m elf x). rewrite W2.
    fold (rel_symbol m elf x). destruct (symbol_in_file (rel_symbol m elf x) 0 16) as [? ?]; [lia|lia|unfold sizeof_Elf32_Sym; lia|].
    pose proof (ef_space _ _ _ (lk_file _ _ _ _ _ _ Hlink)) as [? Hsp]. unfold in_space in Hsp. unfold sym in *. by rewrite u32_small by lia.
Qed.

Lemma image_apart :
  each_apart [(lo, hi - lo)] [(elf, fsize); (md, sizeof_module); segment_table m2 md].
Proof.
  destruct (ip_segments _ _ _ _ _ Hip) as [E Hsz], (ip_md _ _ _ _ _ Hip) as [? ?], (ip_blocks _ _ _ _ _ Hip) as (? & ? & ?).
  pose proof image_positive as Hpos.
  pose proof (ch_inv _ _ _ _ _ _ _ _ (ip_change _ _ _ _ _ Hip)) as Hinv.
  apply each_apart_cols. intros q Hq. apply Forall_singleton. apply apart_sym.
  apply elem_of_cons in Hq as [->|Hq]; [|apply elem_of_cons in Hq as [->|Hq%list_elem_of_singleton]; [|subst q]].
  - apply (held_block_apart _ img); [apply held_file|in_list|lia|lia|unfold b_end; lia].
  - apply (blocks_disjoint s2 bs2 mb img); [done|apply placed_in_use; in_list..|done|cbn [fst]; lia|cbn [fst snd]; unfold b_end; lia|cbn [fst]; lia|cbn [fst snd]; lia].
  - unfold segment_table. rewrite E.
    apply (blocks_disjoint s2 bs2 segs img); [done|apply placed_in_use; in_list..|done|cbn [fst]; lia|cbn [fst snd]; unfold b_end; lia|cbn [fst]; lia|cbn [fst snd]; lia].
Qed.

Lemma resolved_relocations : relocations_ready m3 elf fsize md lo hi.
Proof.
  pose proof resolved_headers as Hh. pose proof (lk_file _ _ _ _ _ _ Hlink) as Hf.
  destruct (resolved_section 0) as (_ & Es & Ec). pose proof count_positive. pose proof image_below. pose proof image_at_least.
  pose proof image_apart as [Him _]%Forall_cons. apply Forall_cons in Him as [I1 [I2 [I3 _]%Forall_cons]%Forall_cons].
  pose proof (ip_segments _ _ _ _ _ Hip). pose proof (shnum_range m elf). split.
  - by eapply headers_file.
  - apply placed_md.
  - rewrite Es, Ec. split; [apply (il_table _ _ _ _ _ _ (ip_image _ _ _ _ _ Hip))|lia].
  - unfold in_space, b_end. pose proof (placed_in_use img ltac:(in_list)) as [Hu _].
    destruct (laid_out_in _ img (heap_inv_laid_out _ _ (ch_inv _ _ _ _ _ _ _ _ (ip_change _ _ _ _ _ Hip))) Hu) as (? & ? & ? & ?). field_lia.
  - apply each_apart_cols. intros q Hq. apply Forall_singleton. unfold segment_table in Hq. rewrite Es, Ec in Hq. fold (segment_table m2 md) in Hq.
    apply elem_of_cons in Hq as [->|Hq]; [done|]. apply elem_of_cons in Hq as [->|Hq%list_elem_of_singleton]; [|by subst q].
    unfold apart, disjoint, mod_count, sizeof_module in *. cbn [fst snd] in *. lia.
  - intros i Hi Hr. rewrite (hd_shnum _ _ _ Hh), (hd_shoff _ _ _ Hh) in *. destruct (rel_same i Hi) as (E1 & E2 & _).
    rewrite E1 in Hr. rewrite E2, !(hd_field _ _ _ Hh) by (done || (unfold sh_entsize, sh_offset, sh_link; lia)).
    destruct (lk_rel _ _ _ _ _ _ Hlink i Hi Hr) as (-> & ? & ? & _). split; [done|]. split; [done|]. apply (lk_index _ _ _ _ _ _ Hlink).
  - intros x Hx%entry_same. destruct (entry_target x Hx) as (-> & -> & _). destruct (entry_in_image x Hx) as (_ & _ & ? & ? & ? & ?). lia.
  - intros x Hx%entry_same. destruct (entry_target x Hx) as (_ & _ & _ & ->).
    destruct (lk_entry _ _ _ _ _ _ Hlink x Hx) as [? _]. pose proof (rel_symbol_range m elf x).
    apply (symbol_in_file (rel_symbol m elf x) st_value 4); [lia|unfold st_value; lia|unfold st_value, sizeof_Elf32_Sym; lia].
  - intros x y Hx%entry_same Hy%entry_same Hne. destruct (entry_target x Hx) as (-> & -> & _), (entry_target y Hy) as (-> & -> & _).
    destruct (entry_in_image x Hx) as (Hk1 & Hl1 & ? & ? & ? & ?), (entry_in_image y Hy) as (Hk2 & Hl2 & ? & ? & ? & ?).
    destruct (decide (rel_section m elf x.1 = rel_section m elf y.1)) as [E|Hs].
    + pose proof (lk_apart _ _ _ _ _ _ Hlink x y Hx Hy Hne E). rewrite E. unfold disjoint in *. lia.
    + assert (rel_section m elf x.1 < rel_section m elf y.1 ∨ rel_section m elf y.1 < rel_section m elf x.1) as [Hlt|Hlt] by lia.
      * pose proof (il_order _ _ _ _ _ _ (ip_image _ _ _ _ _ Hip) _ _ ltac:(split; [apply Hk1|exact Hlt]) (proj2 Hk2) Hl1 Hl2). unfold disjoint. lia.
      * pose proof (il_order _ _ _ _ _ _ (ip_image _ _ _ _ _ Hip) _ _ ltac:(split; [apply Hk2|exact Hlt]) (proj2 Hk1) Hl2 Hl1). unfold disjoint. lia.
Qed.

(** ** The linked module *)
#[local] Abbreviation m4 := (relocated m3 elf md (ld 2 m3 (elf + e_shnum))).

Lemma linked_keeps : keeps [(lo, hi - lo)] m3 m4.
Proof. apply (relocated_keeps m3 elf fsize md lo hi resolved_relocations). pose proof (shnum_range m3 elf). lia. Qed.
Lemma linked_section k : section_address m4 md k = address k.
Proof.
  rewrite <- (proj1 (resolved_section k)). exact (proj1 (image_section m3 elf fsize md lo hi resolved_relocations m4 linked_keeps k)).
Qed.

(** Outside of the image nothing changes any more. *)
Lemma linked_same a k q : q ∈ [(elf, fsize); (md, sizeof_module)] → q.1 <= a → a + k <= q.1 + q.2 → same_on a k m3 m4.
Proof.
  intros Hq Ha Hend. destruct (decide (0 < k)) as [Hk|]; [|intros x Hx; lia].
  assert (in_space q.1 q.2) as Hsp.
  { apply elem_of_cons in Hq as [->|Hq%list_elem_of_singleton]; [apply (lk_file _ _ _ _ _ _ Hlink)|subst q; apply placed_md]. }
  unfold in_space in Hsp. eapply keeps_same_on; [exact linked_keeps|unfold in_space; lia|].
  assert (Hq' : q ∈ [(elf, fsize); (md, sizeof_module); segment_table m2 md]).
  { apply elem_of_cons in Hq as [->|Hq%list_elem_of_singleton]; [|subst q]; in_list. }
  pose proof (each_apart_col _ _ q image_apart Hq') as Hc. eapply Forall_impl; [exact Hc|]. intros r.
  unfold apart, disjoint. cbn [fst snd]. lia.
Qed.

(** The bytes of the image before the relocations. *)
Lemma image_same : same_on lo (hi - lo) m2 m3.
Proof.
  assert (Hsp : in_space lo (hi - lo)) by apply (rl_image _ _ _ _ _ _ resolved_relocations).
  eapply keeps_same_on; [apply (ts_keeps _ _ _ _ _ _ _ Hres)|done|]. pose proof image_apart as [Him _]%Forall_cons.
  apply Forall_cons in Him as [I1 [I2 _]%Forall_cons]. apply writes_apart.
  - apply symtab_sub, apart_sym, I1.
  - apply (apart_sub md sizeof_module); [by apply apart_sym|unfold mod_init; lia|unfold mod_init, sizeof_module; lia].
  - apply Forall_forall. intros r Hr. pose proof image_positive.
    apply (held_block_apart r img); [by apply held_writes|in_list|done|lia|unfold b_end; lia].
Qed.

Lemma linked_symbol_value j : 0 <= j < n → linked_symbol m elf ks names m4 md j = Some (ld 4 m3 (sym symtab j + st_value)).
Proof.
  intros Hj. destruct (ts_done _ _ _ _ _ _ _ Hres j Hj) as [<- _]. unfold linked_symbol, resolved.
  destruct (symbol_same j Hj) as (_ & _ & E). rewrite E. apply resolved_ext. intros k. apply linked_section.
Qed.

Lemma linked_entry_value lit :
  entry_after m2 md symtab names lit n 0 = linked_entry m elf ks n names m4 md lit.
Proof.
  apply foldl_ext_in. intros old j Hj%elem_of_seqZ. destruct (symbol_same j ltac:(lia)) as (E1 & _ & E2).
  unfold entry_point, entry_point_at. rewrite E1, E2. by rewrite (resolved_ext _ _ _ (section_address m4 md) address) by apply linked_section.
Qed.

Lemma fill_byte k i :
  0 <= k < shnum → is_loaded m elf shoff k = true → (i < length (fill m elf k))%nat →
  lo <= address k + Z.of_nat i < hi ∧ ld8 m3 (address k + Z.of_nat i) = nth i (fill m elf k) 0.
Proof.
  intros Hk Hl Hi. destruct (il_section _ _ _ _ _ _ (ip_image _ _ _ _ _ Hip) k Hk Hl) as (? & ? & _ & Hfill).
  pose proof (length_fill m elf k Hl). split; [lia|]. rewrite image_same by lia.
  pose proof (nth_of_ld_bytes m2 (address k) (length (fill m elf k)) i Hi) as E. by rewrite Hfill in E.
Qed.

Lemma rel_addend_value x :
  is_entry m elf x → ld (rel_width m elf x) m3 (address (rel_section m elf x.1) + rel_offset m elf x) = rel_addend m elf x.
Proof.
  intros Hx. destruct (entry_in_image x Hx) as (Hk & Hl & ? & ? & ? & ? & ?).
  destruct (il_section _ _ _ _ _ _ (ip_image _ _ _ _ _ Hip) _ Hk Hl) as (_ & _ & _ & Hfill).
  unfold rel_addend. rewrite <- Hfill, slice_ld_bytes by lia. rewrite Z2Nat.id by lia. unfold ld. f_equal.
  apply same_on_ld_bytes, (same_on_sub lo (hi - lo)); [apply image_same|lia|lia].
Qed.

Lemma linked_module : module_linked m elf ks n names m4 md lo hi mname.
Proof.
  pose proof (ip_image _ _ _ _ _ Hip) as [_ _ I3 I4 I5]. pose proof resolved_headers as Hh.
  destruct (ip_entries _ _ _ _ _ Hip) as [Ei Eu]. destruct (lc_name _ _ _ _ _ _ _ _ Hctx) as (_ & Hlen & _).
  assert (Hmd : ∀ f k, 0 <= f → f + k <= sizeof_module → f + k <= mod_init → same_on (md + f) k m2 m4).
  { intros f k ???. apply (same_on_trans _ _ _ m3).
    - destruct (decide (0 < k)) as [Hk|]; [|intros x Hx; lia]. pose proof placed_md as Hsp. unfold in_space, sizeof_module in *.
      eapply keeps_same_on; [apply (ts_keeps _ _ _ _ _ _ _ Hres)|unfold in_space; lia|]. apply writes_apart.
      + apply symtab_sub, held_md; [apply held_file|done|done|unfold sizeof_module; lia].
      + unfold apart, disjoint. cbn [fst snd]. lia.
      + apply Forall_forall. intros r Hr. apply held_md; [by apply held_writes|done|done|unfold sizeof_module; lia].
    - apply (linked_same _ _ (md, sizeof_module)); [in_list|cbn [fst]; lia|cbn [fst snd]; lia]. }
  split.
  - eapply same_on_cstr; [|apply (ip_name _ _ _ _ _ Hip)]. apply Hmd; unfold mod_name, sizeof_module, mod_init; lia.
  - intros k Hk Hl. rewrite linked_section. by destruct (I3 k Hk Hl) as (? & ? & ? & _).
  - intros k k' Hk Hk' Hl Hl'. rewrite !linked_section. by apply I4.
  - intros k Hk Hl. rewrite linked_section. by apply I5.
  - intros j Hj. rewrite linked_symbol_value by done. f_equal. symmetry. apply same_on_ld.
    destruct (symbol_in_file j st_value 4 Hj ltac:(unfold st_value; lia) ltac:(unfold st_value, sizeof_Elf32_Sym; lia)).
    apply (linked_same _ _ (elf, fsize)); [in_list|done|cbn [fst snd]; lia].
  - intros x Hx. destruct (entry_target x Hx) as (E1 & E2 & E3 & E4). unfold linked_word, linked_addr. rewrite linked_section, <- E1, <- E2.
    rewrite (relocated_target m3 elf fsize md lo hi resolved_relocations) by (by apply entry_same). f_equal.
    unfold target_value. rewrite E3, E4, E2, E1, rel_addend_value by done. f_equal.
    destruct (lk_entry _ _ _ _ _ _ Hlink x Hx) as [? _]. pose proof (rel_symbol_range m elf x). by rewrite linked_symbol_value by lia.
  - intros k i Hk Hl Hi Hno. rewrite linked_section. destruct (fill_byte k i Hk Hl Hi) as [Hin <-].
    pose proof image_below. pose proof image_at_least.
    apply (relocated_elsewhere m3 elf fsize md lo hi resolved_relocations); [lia|]. intros x Hx%entry_same.
    destruct (entry_target x Hx) as (-> & -> & _). destruct (entry_in_image x Hx) as (Hk' & Hl' & ? & ? & ? & ? & ?).
    destruct (decide (rel_section m elf x.1 = k)) as [E|Hne].
    + specialize (Hno x Hx E). rewrite E. unfold outside in *. lia.
    + pose proof (length_fill m elf k Hl). assert (rel_section m elf x.1 < k ∨ k < rel_section m elf x.1) as [Hlt|Hlt] by lia.
      * pose proof (I4 _ _ ltac:(split; [apply Hk'|exact Hlt]) (proj2 Hk) Hl' Hl). unfold outside. lia.
      * pose proof (I4 _ _ ltac:(split; [apply Hk|exact Hlt]) (proj2 Hk') Hl Hl'). unfold outside. lia.
  - rewrite <- linked_entry_value, <- Ei, <- (ts_init _ _ _ _ _ _ _ Hres). apply same_on_ld.
    apply (linked_same _ _ (md, sizeof_module)); [in_list|cbn [fst]; unfold mod_init; lia|cbn [fst snd]; unfold mod_init, sizeof_module; lia].
  - rewrite <- linked_entry_value, <- Eu, <- (ts_uninit _ _ _ _ _ _ _ Hres). apply same_on_ld.
    apply (linked_same _ _ (md, sizeof_module)); [in_list|cbn [fst]; unfold mod_uninit; lia|cbn [fst snd]; unfold mod_uninit, sizeof_module; lia].
Qed.
End Resolved.

(** ** What a load writes outside of its own blocks: the symbol table of the
    file, and what the search writes. *)
Definition load_writes (x : Z) : Prop :=
  within symtab (sizeof_Elf32_Sym * n) x ∨ ∃ r, r ∈ finder_writes env ∧ within r.1 r.2 x.

Lemma symbols_change k m3 :
  table_result m2 md symtab n names k m3 →
  heap_change s bs (set_mem m3 s2) bs2 [] [mb; segs; img] (module_cost m elf) load_writes.
Proof.
  intros Hres. pose proof (ip_change _ _ _ _ _ Hip) as C. destruct costs_positive as [Hc1 Hc2].
  assert (Hheld : ∀ r, held s bs (module_cost m elf + 16) r → stable_region s2 bs2 0 r.1 r.2).
  { intros r [Hst _]. eapply change_stable_region; [exact C|lia|]. eapply stable_region_weaken; [|exact Hst]. lia. }
  eapply change_keeps_in; [|apply (ts_keeps _ _ _ _ _ _ _ Hres)|].
  - eapply change_weaken; [| |exact C]; [lia|done].
  - destruct (symtab_in_file _ _ _ _ _ _ Hlink) as (? & ? & ?). destruct (ip_md _ _ _ _ _ Hip) as [? ?].
    intros r [Hr|Hr]%elem_of_app; [apply elem_of_cons in Hr as [->|Hr%list_elem_of_singleton]; [|subst r]|].
    + right. split; [|intros x Hx; by left]. cbn [fst snd]. eapply stable_sub; [apply (Hheld _ held_file)|done|unfold sizeof_Elf32_Sym; lia|done].
    + left. exists mb. split; [in_list|]. cbn [fst snd]. unfold mod_init, b_end, sizeof_module in *. lia.
    + right. split; [by apply Hheld, held_writes|]. intros x Hx. right. by exists r.
Qed.

Lemma relocations_change m3 :
  table_result m2 md symtab n names n m3 →
  heap_change s bs (set_mem (relocated m3 elf md (ld 2 m3 (elf + e_shnum))) s2) bs2 [] [mb; segs; img] (module_cost m elf) load_writes.
Proof.
  intros Hres. pose proof (symbols_change n m3 Hres) as C.
  assert (E : set_mem (relocated m3 elf md (ld 2 m3 (elf + e_shnum))) s2 =
    set_mem (relocated m3 elf md (ld 2 m3 (elf + e_shnum))) (set_mem m3 s2)) by by rewrite set_mem_set_mem.
  rewrite E. eapply change_keeps; [exact C| |].
  - rewrite mem_set_mem. by apply linked_keeps.
  - intros r ->%list_elem_of_singleton. exists img. split; [in_list|]. cbn [fst snd]. lia.
Qed.

(** The first symbol that cannot be resolved is a matter of the file. *)
Definition unresolved_symbol : option Z :=
  List.find (λ j, bool_decide (resolved_at m symtab names (λ _, 0) j = None)) (seqZ 0 n).

Lemma resolved_none A B j : resolved_at m symtab names A j = None ↔ resolved_at m symtab names B j = None.
Proof.
  unfold resolved_at. destruct (is_import m symtab j); [done|]. destruct (_ || _); [done|]. destruct (_ =? STT_SECTION); [done|].
  by destruct (_ =? STT_FILE).
Qed.

Lemma unresolved_file : first_unresolved m2 md symtab n names = unresolved_symbol.
Proof.
  apply find_ext_in. intros j Hj%list_elem_of_In%elem_of_seqZ. apply bool_decide_ext. unfold resolved.
  destruct (symbol_same j ltac:(lia)) as (_ & _ & E). rewrite E. apply resolved_none.
Qed.
End Placed.

(** ** Loading *)

(** What happens to a module that is linked: its initialisation runs and it
    becomes the first of the list. *)
Definition listed (md : Z) (t : machine) : machine :=
  let m' := st 4 (mem t) (md + mod_next) (ld 4 (mem t) (g_mods env)) in set_mem (st 4 m' (g_mods env) md) t.

(** The outcome: a symbol that cannot be resolved or a module without an
    initialisation gives its descriptor back. *)
Definition load_outcome (mb segs img : block) (s3 : machine) : Prop :=
  let md := b_data mb in
  match unresolved_symbol with
  | Some j => bl_elf_load env elf fsize s = (bl_heap_free md sizeof_module;; mret (symbol_failure m (symtab_of m elf ks) j)) s3
  | None =>
      let init := linked_entry m elf ks n names (mem s3) md initialize_name in
      module_linked m elf ks n names (mem s3) md (b_data img) (b_end img) mname ∧
      bl_elf_load env elf fsize s =
      if init =? 0 then (bl_heap_free md sizeof_module;; mret BL_STATUS_INVALID_ELF) s3
      else match call_init env init s3 with Some (_, t) => Some (BL_STATUS_SUCCESS, listed md t) | None => None end
  end.

(** The steps up to the image, and those after it. *)
Definition load_rest (md : Z) : M bl_status_t :=
  let exit (status : bl_status_t) : M bl_status_t := bl_heap_free md sizeof_module;; mret status in
  status ← bl_elf_load_symbols env elf md;
  if failed status then exit status
  else
    status ← bl_elf_relocate_symbols elf md;
    if failed status then exit status
    else
      init ← rd32 (md + mod_init);
      if is_null init then exit BL_STATUS_INVALID_ELF
      else
        call_init env init;;
        mods ← rd32 (g_mods env);
        wr32 (md + mod_next) mods;;
        wr32 (g_mods env) md;;
        mret BL_STATUS_SUCCESS.

Lemma load_rest_fails md st t t1 :
  bl_elf_load_symbols env elf md t = Some (st, t1) → failed st = true →
  load_rest md t = (bl_heap_free md sizeof_module;; mret st) t1.
Proof. intros H1 Hf. unfold load_rest. cbv zeta. by rewrite (bind_run _ _ _ _ _ H1), Hf. Qed.

Lemma load_rest_links md t t1 t2 init :
  bl_elf_load_symbols env elf md t = Some (BL_STATUS_SUCCESS, t1) →
  bl_elf_relocate_symbols elf md t1 = Some (BL_STATUS_SUCCESS, t2) → ld 4 (mem t2) (md + mod_init) = init →
  load_rest md t =
  if init =? 0 then (bl_heap_free md sizeof_module;; mret BL_STATUS_INVALID_ELF) t2
  else match call_init env init t2 with Some (_, t) => Some (BL_STATUS_SUCCESS, listed md t) | None => None end.
Proof.
  intros H1 H2 Hi. unfold load_rest. cbv zeta. rewrite (bind_run _ _ _ _ _ H1). change (failed BL_STATUS_SUCCESS) with false. cbv iota.
  rewrite (bind_run _ _ _ _ _ H2). change (failed BL_STATUS_SUCCESS) with false. cbv iota.
  assert (Hrd : rd32 (md + mod_init) t2 = Some (init, t2)) by (unfold rd32, gets; by rewrite Hi).
  rewrite (bind_run _ _ _ _ _ Hrd). unfold is_null. destruct (init =? 0); [done|].
  destruct (call_init env init t2) as [[[] t']|] eqn:Ec; [|unfold mbind, ST_bind; by rewrite Ec].
  rewrite (bind_run _ _ _ _ _ Ec). done.
Qed.

Lemma image_steps :
  ∃ mb segs img bs2 s2, image_placed mb segs img bs2 s2 ∧ bl_elf_load env elf fsize s = load_rest (b_data mb) s2.
Proof.
  destruct new_descriptor as (mb & bs1 & s0 & p & s1 & Halloc & Hcpy & C1 & Hs1 & Hs2 & Hs3 & Hn1 & Hi1 & Hu1).
  set (m1 := st 4 (st 4 (st 4 (mem s1) _ 0) _ 0) _ 0) in *.
  destruct (image_placed_run mb bs1 (set_mem m1 s1)) as (segs & img & bs2 & s2 & Himg & Hip); [done..|].
  exists mb, segs, img, bs2, s2. split; [done|].
  pose proof (lk_header _ _ _ _ _ _ Hlink) as Hhd. destruct (lc_name _ _ _ _ _ _ _ _ Hctx) as (Hname & Hlen & _).
  destruct (lc_mods _ _ _ _ _ _ _ _ Hctx) as (Hm1 & Hm2 & Hm3).
  pose proof (section_by_name_run elf (lit_mod_name env) mod_name_section snames s (lc_lit_name _ _ _ _ _ _ _ _ Hctx)
    ltac:(unfold mod_name_section; vm_compute; lia) (lc_snames _ _ _ _ _ _ _ _ Hctx)) as Hsec.
  rewrite (lc_section _ _ _ _ _ _ _ _ Hctx) in Hsec. unfold bl_elf_load.
  rewrite (bind_run _ _ _ _ _ (check_run elf fsize s Hhd)). change (failed BL_STATUS_SUCCESS) with false. cbv iota.
  rewrite (bind_run _ _ _ _ _ Hsec). destruct Hname as (Hp1 & Hp2 & Hp3). pose proof (conj Hp1 (conj Hp2 Hp3)) as Hname.
  rewrite u32_small by lia. rewrite u32_small in Hcpy by lia. unfold is_null at 1. destruct (Z.eqb_spec (elf + field kn sh_offset) 0); [lia|].
  pose proof (get_module_run env _ mname mods s Hname Hlen Hm1 Hm2) as Hget. rewrite Hm3 in Hget.
  rewrite (bind_run _ _ _ _ _ Hget). change (negb (is_null 0)) with false. cbv iota.
  rewrite (bind_run _ _ _ _ _ Halloc). unfold is_null at 1. destruct (Z.eqb_spec (b_data mb) 0); [lia|]. cbv zeta.
  rewrite (bind_run _ _ _ _ _ Hcpy).
  assert (Hw : ∀ a v t, wr32 a v t = Some ((), set_mem (st 4 (mem t) a v) t)) by done.
  rewrite (bind_run _ _ _ _ _ (Hw _ _ _)), (bind_run _ _ _ _ _ (Hw _ _ _)), (bind_run _ _ _ _ _ (Hw _ _ _)).
  rewrite !mem_set_mem, !set_mem_set_mem. fold m1. rewrite (bind_run _ _ _ _ _ Himg). change (failed BL_STATUS_SUCCESS) with false. cbv iota.
  unfold load_rest. cbv zeta. reflexivity.
Qed.


Lemma load_run :
  ∃ mb segs img bs3 s3, heap_change s bs s3 bs3 [] [mb; segs; img] (module_cost m elf) load_writes ∧
    (mb ≠ segs ∧ mb ≠ img ∧ segs ≠ img) ∧ load_outcome mb segs img s3.
Proof.
  destruct image_steps as (mb & segs & img & bs2 & s2 & Hip & Hrun). set (md := b_data mb) in *.
  pose proof (ip_blocks _ _ _ _ _ Hip) as Hne.
  pose proof (load_symbols_run _ _ _ _ _ _ (placed_table_ready _ _ _ _ _ Hip) elf ks (placed_symbols_file _ _ _ _ _ Hip) s2 eq_refl) as (m3 & Hsym & Hres).
  pose proof (unresolved_file _ _ _ _ _ Hip) as Eun. fold md in Hsym, Hres, Eun.
  unfold load_outcome, table_status, table_output, table_count in *. rewrite Eun in *.
  destruct unresolved_symbol as [j|] eqn:Ej.
  - exists mb, segs, img, bs2, (emitted (symbol_message (mem s2) (symtab_of m elf ks) names j) (set_mem m3 s2)).
    split; [apply change_emitted; by eapply symbols_change|]. split; [done|]. rewrite Hrun, (load_rest_fails _ _ _ _ Hsym) by apply failed_symbol.
    apply List.find_some in Ej as [Hj%list_elem_of_In%elem_of_seqZ _].
    unfold symbol_failure. by rewrite (proj1 (proj2 (symbol_same _ _ _ _ _ Hip j ltac:(lia)))).
  - pose proof (linked_module _ _ _ _ _ Hip m3 Hres) as Hlm. pose proof (relocations_change _ _ _ _ _ Hip m3 Hres) as C.
    exists mb, segs, img, bs2, (set_mem (relocated m3 elf md (ld 2 m3 (elf + e_shnum))) s2).
    split; [exact C|]. split; [done|]. fold md in Hlm. rewrite mem_set_mem. fold md. split; [exact Hlm|].
    rewrite emitted_nil in Hsym.
    pose proof (relocate_symbols_run m3 elf fsize md (b_data img) (b_end img) (resolved_relocations _ _ _ _ _ Hip m3 Hres)
      (set_mem m3 s2) (mem_set_mem _ _)) as Hrel. rewrite set_mem_set_mem in Hrel.
    rewrite Hrun. apply (load_rest_links md s2 _ _ _ Hsym Hrel). rewrite mem_set_mem.
    apply (ml_initialize _ _ _ _ _ _ _ _ _ _ Hlm).
Qed.
End Load.

(** ** Properties *)

(** C2: [bl_elf_load] of a relocatable file that can be linked, whose symbols
    can all be resolved: the module takes three blocks from the heap, its
    descriptor, its segments and its image.  The image is the file linked: every
    section lies at its own aligned place and holds the file's bytes, except for
    the words that the relocation entries name; such a word holds its old
    contents plus the value of the symbol of the entry, less its own address if
    the entry is a relative one.  The values are the addresses of the symbols'
    sections plus their offsets, and those of the exports for imported symbols.
    Then the module's initialisation is called and the module becomes the first
    of the list, or, when it has none, its descriptor is freed.  Nothing changes
    outside the new blocks but the file's symbol table and what the search for
    exported symbols writes. *)
Theorem elf_load_links `{SymbolFinder env} s bs elf fsize ks n kn names mname snames mods :
  linkable (mem s) elf fsize ks n names → load_context s bs elf fsize kn mname snames mods →
  unresolved_symbol s elf ks n names = None →
  ∃ mb segs img bs' s',
    heap_change s bs s' bs' [] [mb; segs; img] (module_cost (mem s) elf) (load_writes s elf ks n) ∧
    (mb ≠ segs ∧ mb ≠ img ∧ segs ≠ img) ∧
    module_linked (mem s) elf ks n names (mem s') (b_data mb) (b_data img) (b_end img) mname ∧
    bl_elf_load env elf fsize s =
    let init := linked_entry (mem s) elf ks n names (mem s') (b_data mb) initialize_name in
    if init =? 0 then (bl_heap_free (b_data mb) sizeof_module;; mret BL_STATUS_INVALID_ELF) s'
    else match call_init env init s' with Some (_, t) => Some (BL_STATUS_SUCCESS, listed (env := env) (b_data mb) t) | None => None end.
Proof.
  intros Hlink Hctx Hres. destruct (load_run s bs elf fsize ks n kn names mname snames mods Hlink Hctx)
    as (mb & segs & img & bs3 & s3 & C & Hne & Hout).
  unfold load_outcome in Hout. rewrite Hres in Hout. destruct Hout as [Hlm Hrun].
  by exists mb, segs, img, bs3, s3.
Qed.

(** C38: [bl_elf_load] of a file with a symbol that cannot be resolved, or without
    an initialisation, fails and gives back the descriptor of the module only:
    the segments and the image stay allocated. *)
Theorem elf_load_failure_leaks `{SymbolFinder env} s bs elf fsize ks n kn names mname snames mods :
  linkable (mem s) elf fsize ks n names → load_context s bs elf fsize kn mname snames mods →
  unresolved_symbol s elf ks n names ≠ None ∨
    (∀ j, 0 <= j < n → sym_type (mem s) (symtab_of (mem s) elf ks) j = STT_FUNC → names j ≠ initialize_name) →
  ∃ segs img bs' s', segs ≠ img ∧
    bl_elf_load env elf fsize s =
      Some (match unresolved_symbol s elf ks n names with
            | Some j => symbol_failure (mem s) (symtab_of (mem s) elf ks) j
            | None => BL_STATUS_INVALID_ELF
            end, s') ∧
    heap_change s bs s' bs' [] [segs; img] (module_cost (mem s) elf) (load_writes s elf ks n).
Proof.
  intros Hlink Hctx Hbad. destruct (load_run s bs elf fsize ks n kn names mname snames mods Hlink Hctx)
    as (mb & segs & img & bs3 & s3 & C & (H1 & H2 & H3) & Hout).
  destruct (change_free s bs s3 bs3 mb [segs; img] _ _ sizeof_module C) as (s4 & bs4 & Hfree & C4 & _).
  { intros [E|E%list_elem_of_singleton]%elem_of_cons; congruence. }
  exists segs, img, bs4, s4. split; [done|]. split; [|done]. unfold load_outcome in Hout.
  destruct (unresolved_symbol s elf ks n names) as [j|].
  - by rewrite Hout, (bind_run _ _ _ _ _ Hfree).
  - destruct Hout as [Hlm Hrun]. destruct Hbad as [?|Hno]; [done|]. rewrite Hrun. cbv zeta.
    assert (E : linked_entry (mem s) elf ks n names (mem s3) (b_data mb) initialize_name = 0).
    { unfold linked_entry. rewrite (foldl_ext_in _ (λ old _, old)).
      - by induction (seqZ 0 n).
      - intros old j Hj%elem_of_seqZ. unfold entry_point_at. destruct (Z.eqb_spec (sym_type (mem s) (symtab_of (mem s) elf ks) j) STT_FUNC) as [Et|]; [|done].
        rewrite bool_decide_false; [done|]. by apply Hno; [lia|]. }
    rewrite E. change (0 =? 0) with true. cbv iota. by rewrite (bind_run _ _ _ _ _ Hfree).
Qed.

(** A module "m" of 404 bytes at 0x10000: the section [.text] with two words to
    relocate, for the function bl_module_initialize at its end and for the import
    "a"; the program exports the single name [name] as the function at 0x500. *)
Definition file_header : list (Z * Z) :=
  [(e_type, ET_REL + 65536 * EM_386); (e_version, EV_CURRENT); (e_shoff, 164); (e_shentsize, 40 + 65536 * 6); (e_shstrndx, 4);
   (52, 4); (56, 0xfffffffc);
   (60, 0); (64, 256 * 1 + R_386_32); (68, 4); (72, 256 * 2 + R_386_PC32);
   (92 + st_name, 1); (92 + st_value, 4); (92 + st_info, 0x12 + 65536 * 1); (108 + st_name, 22); (108 + st_info, 0x10)].
Definition file_sections : list (Z * Z) :=
  let section i (fields : list (Z * Z)) := map (λ '(f, v), (164 + 40 * i + f, v)) fields in
  section 1 [(sh_type, SHT_PROGBITS); (sh_flags, 6); (sh_offset, 52); (sh_size, 8); (sh_addralign, 4)] ++
  section 2 [(sh_type, SHT_REL); (sh_offset, 60); (sh_size, 16); (sh_link, 3); (sh_info, 1); (sh_entsize, 8)] ++
  section 3 [(sh_type, SHT_SYMTAB); (sh_offset, 76); (sh_size, 48); (sh_link, 4); (sh_entsize, 16)] ++
  section 4 [(sh_type, 3); (sh_offset, 124); (sh_size, 37)] ++
  section 5 [(sh_name, 24); (sh_type, SHT_PROGBITS); (sh_offset, 161); (sh_size, 2)].
Definition put_words (base : Z) (m : gmap Z Z) (l : list (Z * Z)) : gmap Z Z := foldl (λ m '(a, v), st 4 m (base + a) v) m l.

Definition module_file (name : Z) : machine :=
  let m := put_words 0 ∅ [(0x1000, 0x500); (0x1004, BL_EXPORT_TYPE_FUNC); (0x1008, 0x2000); (0x2000, name)] in
  let m := st_bytes (st_bytes (st_bytes m 0x3100 mod_name_section) 0x3200 initialize_name) 0x3300 uninitialize_name in
  let m := put_words 0x10000 (put_words 0x10000 m file_header) file_sections in
  let m := st_bytes m 0x10000 elf_ident in
  let m := st_bytes m (0x10000 + 125) (initialize_name ++ [0; 97; 0] ++ mod_name_section) in
  set_mem (st_bytes m (0x10000 + 161) [109]) heap_empty.
Definition module_env : loader_env :=
  LoaderEnv 0x3000 0x3004 0x3100 0x3200 0x3300 0x5000 (bl_symbols_find 0x1000 (0x1000 + sizeof_export_symbol * 1) 0x4000) 0 (λ _, mret ()).
Definition module_entry (i : Z) : list Z := ld_bytes (mem (module_file 97)) (symbol_at 0x1000 i) 12.
Definition module_exports (name i : Z) : list Z := [name].

Lemma module_bios name : 97 <= name <= 98 → bios_symbols module_env 0x1000 1 0x4000 module_entry (module_exports name).
Proof.
  intros Hn. assert (name = 97 ∨ name = 98) as [->| ->] by lia;
    (split; [reflexivity|by vm_compute|by vm_compute|by vm_compute|right; by vm_compute|apply each_apart_here; by vm_compute]).
Qed.
Definition module_finder (name : Z) (Hn : 97 <= name <= 98) : SymbolFinder module_env := bios_finder _ _ _ _ _ _ (module_bios name Hn).

Definition module_names (j : Z) : list Z := if j =? 1 then initialize_name else if j =? 2 then [97] else [].
Definition module_sections (i : Z) : list Z := if i =? 5 then mod_name_section else [].

Lemma six i : 0 <= i < 6 → i = 0 ∨ i = 1 ∨ i = 2 ∨ i = 3 ∨ i = 4 ∨ i = 5.
Proof. lia. Qed.
Lemma three j : 0 <= j < 3 → j = 0 ∨ j = 1 ∨ j = 2.
Proof. lia. Qed.

(** A region below the heap. *)
Definition below_heap (s : machine) (r : Z * Z) : bool := (0 <=? r.1) && (0 <? r.2) && (r.1 + r.2 <=? bl_heap s) && (bl_heap s <? 4294967296).
Lemma held_below s bs g r : below_heap s r = true → held s bs g r.
Proof.
  unfold below_heap. rewrite !andb_true_iff, !Z.leb_le, !Z.ltb_lt. intros [[[H1 H2] H3] H4]. split; [|done]. split; [unfold in_space; lia|].
  intros x Hx. split; [lia|]. left. lia.
Qed.
Lemma held_all_below s bs g l : forallb (below_heap s) l = true → Forall (held s bs g) l.
Proof. intros Hl. rewrite forallb_forall in Hl. apply Forall_forall. intros r Hr. by apply held_below, Hl, list_elem_of_In. Qed.

Section Example.
Context (name : Z) (Hname : name = 97 ∨ name = 98).

Lemma module_elf_file : elf_file (mem (module_file name)) 0x10000 404.
Proof.
  destruct Hname as [->| ->]; (split; [split; [lia|unfold in_space; lia]|lia|by vm_compute| |]; intros k Hk);
    change (ld 2 _ _) with 6 in Hk; pose proof (six k Hk) as [->|[->|[->|[->|[->| ->]]]]]; first
    [right; by vm_compute|left; exists 2; split; [lia|by vm_compute]|left; exists 0; split; [lia|by vm_compute]|by vm_compute].
Qed.

Lemma module_shnum : ld 2 (mem (module_file name)) (0x10000 + e_shnum) = 6.
Proof. destruct Hname as [->| ->]; by vm_compute. Qed.
Lemma module_rel_entry x : is_entry (mem (module_file name)) 0x10000 x → x = (2, 0) ∨ x = (2, 1).
Proof.
  intros Hx%is_entry_in.
  assert (E : rel_entries (mem (module_file name)) 0x10000 (ld 2 (mem (module_file name)) (0x10000 + e_shnum)) = [(2, 0); (2, 1)])
    by (destruct Hname as [->| ->]; by vm_compute).
  rewrite E in Hx. apply elem_of_cons in Hx as [->|Hx%list_elem_of_singleton]; auto.
Qed.

Lemma module_linkable : linkable (mem (module_file name)) 0x10000 404 3 3 module_names.
Proof.
  split.
  - exact module_elf_file.
  - destruct Hname as [->| ->]; split; by vm_compute.
  - destruct Hname as [->| ->]; by vm_compute.
  - destruct Hname as [->| ->]; by vm_compute.
  - destruct Hname as [->| ->]; by vm_compute.
  - destruct Hname as [->| ->]; by vm_compute.
  - intros i Hi. rewrite module_shnum in Hi. destruct Hname as [->| ->]; pose proof (six i Hi) as [->|[->|[->|[->|[->| ->]]]]]; vm_compute; by split.
  - destruct Hname as [->| ->]; by vm_compute.
  - intros j Hj. destruct Hname as [->| ->]; pose proof (three j Hj) as [->|[->| ->]];
      (split; [apply cstr_here_ok; by vm_compute|]; split; [by vm_compute|]; split; [by vm_compute|apply apartb_ok; by vm_compute]).
  - destruct Hname as [->| ->]; apply each_apart_here; by vm_compute.
  - intros i Hi Hr. rewrite module_shnum in Hi. destruct Hname as [->| ->]; pose proof (six i Hi) as [->|[->|[->|[->|[->| ->]]]]]; vm_compute in Hr; try discriminate Hr;
      (split; [by vm_compute|]; split; [by vm_compute|]; split; [by vm_compute|]; split; [apply apartb_ok; by vm_compute|]; split; by vm_compute).
  - intros x [->| ->]%module_rel_entry; destruct Hname as [->| ->]; by vm_compute.
  - intros x y [->| ->]%module_rel_entry [->| ->]%module_rel_entry Hne _; [by destruct Hne|clear Hne|clear Hne|by destruct Hne];
      [left|right]; destruct Hname as [->| ->]; by vm_compute.
Qed.
End Example.

Lemma module_context name (Hn : 97 <= name <= 98) :
  @load_context module_env (module_finder name Hn) (module_file name) [] 0x10000 404 5 [109] module_sections [].
Proof.
  assert (Hc : name = 97 ∨ name = 98) by lia.
  split.
  - destruct Hc as [->| ->]; exact heap_empty_inv.
  - destruct Hc as [->| ->]; by vm_compute.
  - apply held_below. destruct Hc as [->| ->]; by vm_compute.
  - apply cstr_here_ok. destruct Hc as [->| ->]; by vm_compute.
  - apply cstr_here_ok. destruct Hc as [->| ->]; by vm_compute.
  - apply held_all_below. destruct Hc as [->| ->]; by vm_compute.
  - apply held_all_below. destruct Hc as [->| ->]; by vm_compute.
  - apply each_apart_here. destruct Hc as [->| ->]; by vm_compute.
  - apply each_apart_here. destruct Hc as [->| ->]; by vm_compute.
  - intros i Hi. assert (i = 0) as -> by lia. destruct Hc as [->| ->]; (split; [by vm_compute|apply cstr_here_ok; by vm_compute]).
  - apply cstr_here_ok. destruct Hc as [->| ->]; by vm_compute.
  - intros i Hi. rewrite module_shnum in Hi by done. apply cstr_here_ok. destruct Hc as [->| ->]; pose proof (six i Hi) as [->|[->|[->|[->|[->| ->]]]]]; by vm_compute.
  - destruct Hc as [->| ->]; by vm_compute.
  - destruct Hc as [->| ->]; (split; [apply cstr_here_ok; by vm_compute|split; [cbn; lia|by vm_compute]]).
  - destruct Hc as [->| ->]; by vm_compute.
Qed.

Lemma module_resolved : @unresolved_symbol module_env (module_finder 97 ltac:(lia)) (module_file 97) 0x10000 3 3 module_names = None.
Proof. by vm_compute. Qed.
Lemma module_unresolved : @unresolved_symbol module_env (module_finder 98 ltac:(lia)) (module_file 98) 0x10000 3 3 module_names = Some 2.
Proof. by vm_compute. Qed.

#[local] Instance finder97 : SymbolFinder module_env := module_finder 97 ltac:(lia).

Lemma elf_load_links_witness :
  let s := module_file 97 in
  ∃ mb segs img bs' s',
    heap_change s [] s' bs' [] [mb; segs; img] (module_cost (mem s) 0x10000) (load_writes s 0x10000 3 3) ∧
    (mb ≠ segs ∧ mb ≠ img ∧ segs ≠ img) ∧
    module_linked (mem s) 0x10000 3 3 module_names (mem s') (b_data mb) (b_data img) (b_end img) [109] ∧
    bl_elf_load module_env 0x10000 404 s =
    let init := linked_entry (mem s) 0x10000 3 3 module_names (mem s') (b_data mb) initialize_name in
    if init =? 0 then (bl_heap_free (b_data mb) sizeof_module;; mret BL_STATUS_INVALID_ELF) s'
    else match call_init module_env init s' with Some (_, t) => Some (BL_STATUS_SUCCESS, listed (env := module_env) (b_data mb) t) | None => None end.
Proof.
  apply (elf_load_links (module_file 97) [] 0x10000 404 3 3 5 module_names [109] module_sections []).
  - apply module_linkable. by left.
  - apply module_context.
  - exact module_resolved.
Defined.

(** The module of the example, loaded: its name and entry point in the
    descriptor, its section with both words relocated. *)
Definition loaded_view (s : machine) : Z * list Z * Z * Z * list Z :=
  let md := ld 4 (mem s) 0x3000 in let text := section_address (mem s) md 1 in
  (md, ld_bytes (mem s) md 2, text, ld 4 (mem s) (md + mod_init), [ld 4 (mem s) text; ld 4 (mem s) (text + 4)]).
Example module_loaded :
  option_map (λ '(st, s), (st, loaded_view s)) (bl_elf_load module_env 0x10000 404 (module_file 97)) =
  Some (BL_STATUS_SUCCESS, (0x100010, [109; 0], 0x1000a0, 0x1000a4,
    [0x1000a4 + 4; u32 (0xfffffffc + 0x500 - 0x1000a4)])).
Proof. vm_compute. reflexivity. Qed.

#[local] Instance finder98 : SymbolFinder module_env := module_finder 98 ltac:(lia).

Lemma elf_load_failure_leaks_witness :
  let s := module_file 98 in
  ∃ segs img bs' s', segs ≠ img ∧
    bl_elf_load module_env 0x10000 404 s =
      Some (match unresolved_symbol s 0x10000 3 3 module_names with
            | Some j => symbol_failure (mem s) (symtab_of (mem s) 0x10000 3) j
            | None => BL_STATUS_INVALID_ELF
            end, s') ∧
    heap_change s [] s' bs' [] [segs; img] (module_cost (mem s) 0x10000) (load_writes s 0x10000 3 3).
Proof.
  apply (elf_load_failure_leaks (module_file 98) [] 0x10000 404 3 3 5 module_names [109] module_sections []).
  - apply module_linkable. by right.
  - apply module_context.
  - left. intros E. pose proof module_unresolved as E2.
    assert (E3 : @unresolved_symbol module_env (module_finder 98 ltac:(lia)) (module_file 98) 0x10000 3 3 module_names = None) by exact E.
    congruence.
Defined.
