(* ===== verification/Fat.v ===== *)
(** * FAT 12/16/32: modules/fs/fat/fat.c, fat/fat.h

    [bl_fat_open] is not modelled: it takes [&file->fdata] of a
    [struct bl_file **], which is not C. *)
From S2P Require Import Prelude Memory Arith Status Strings Heap Storage PartitionTables Fs.

(** ** fat.h *)
Definition BL_FAT12_TYPE : Z := 12.
Definition BL_FAT16_TYPE : Z := 16.
Definition BL_FAT32_TYPE : Z := 32.
Definition BL_FAT12_MAX_CLUSTERS : Z := 0xff5.
Definition BL_FAT16_MAX_CLUSTERS : Z := 0xfff5.
Definition BL_FAT12_EOF : Z := 0xff8.
Definition BL_FAT16_EOF : Z := 0xfff8.
Definition BL_FAT32_EOF : Z := 0xffffff8.

(** [struct bl_fat_vbr]. *)
Definition sizeof_vbr : Z := 512.
Definition bytes_per_sector : Z := 0x0b.
Definition sectors_per_cluster : Z := 0x0d.
Definition reserved_sectors : Z := 0x0e.
Definition num_of_fats : Z := 0x10.
Definition rootdir_entries : Z := 0x11.
Definition total_sectors16 : Z := 0x13.
Definition sectors_per_fat16 : Z := 0x16.
Definition total_sectors32 : Z := 0x20.
Definition sectors_per_fat32 : Z := 0x24.
Definition vbr_signature : Z := 0x1fe.

Definition BL_FAT_SHORT_FILE_NAME_LENGTH : Z := 8.
Definition BL_FAT_SHORT_FILE_EXTENSION_LENGTH : Z := 3.
Definition BL_FAT_NAME_PADDING : Z := 32.
Definition BL_FAT_AVAILABLE_ENTRY_FLAG : Z := 0.
Definition BL_FAT_DIR_ENTRY_ATTR_VOLUME : Z := 8.
Definition BL_FAT_DIR_ENTRY_ATTR_DIR : Z := 16.

(** [struct bl_fat_dir_entry]. *)
Definition sizeof_dir_entry : Z := 32.
Definition dir_name : Z := 0x00.
Definition dir_attributes : Z := 0x0b.
Definition dir_start : Z := 0x1a.

(** [struct bl_fat_info], [struct bl_fat_file_data], [struct bl_fat_iterator]. *)
Definition sizeof_fat_info : Z := 84.
Definition fi_fat_type : Z := 0.
Definition fi_disk : Z := 4.
Definition fi_sector_size : Z := 8.
Definition fi_cluster_size : Z := 12.
Definition fi_eof : Z := 16.
Definition fi_total_sectors : Z := 20.
Definition fi_total_clusters : Z := 28.
Definition fi_fat_lba : Z := 36.
Definition fi_sectors_per_fat : Z := 44.
Definition fi_fat_cache : Z := 52.
Definition fi_fat_cache_size : Z := 56.
Definition fi_fat_cache_sector : Z := 60.
Definition fi_rootdir_lba : Z := 64.
Definition fi_rootdir_entries : Z := 72.
Definition fi_data_lba : Z := 76.

Definition sizeof_fat_file_data : Z := 12.
Definition fd_rootdir : Z := 0.
Definition fd_cluster : Z := 4.
Definition fd_info : Z := 8.

Definition sizeof_fat_iterator : Z := 24.
Definition it_type : Z := 0.
Definition it_filename : Z := 4.
Definition it_empty : Z := 8.
Definition it_entry : Z := 12.
Definition it_cluster : Z := 16.
Definition it_fdata : Z := 20.

(** ** Names *)
Definition invalid_name_char (c : Z) : bool :=
  bool_decide (c ∈ [34; 42; 47; 58; 60; 62; 63; 92; 124; 127]) || ((1 <=? c) && (c <=? 31)).

Definition bl_fat_check_regular_name (filename : Z) : M bl_status_t :=
  mwhile (λ i,
    c ← rds8 (filename + i);
    if truth c then
      if invalid_name_char c then break BL_STATUS_INVALID_FILE_NAME else continue (i + 1)
    else break BL_STATUS_SUCCESS) 0.

(** [sizeof('.')] is the size of an [int]. *)
Definition sizeof_short_name : Z := 11 + 4.

Definition bl_fat_short_name_free (filename : Z) : M () := bl_heap_free filename sizeof_short_name.

(** [for (i = from; i >= 0 && base[i] == ' '; i--) ;] *)
Definition skip_padding (base from : Z) : M Z :=
  mwhile (λ i,
    if 0 <=? i then
      c ← rd8 (base + i);
      if c =? BL_FAT_NAME_PADDING then continue (i - 1) else break i
    else break i) from.

(** [for (i = 0; i < n; i++) d[i] = s[i];] *)
Definition copy_chars (d s n : Z) : M () :=
  mwhile (λ i,
    if i <? n then c ← rd8 (s + i); wr8 (d + i) c;; continue (i + 1) else break ()) 0.

Definition bl_fat_short_name_to_regular_name (entry : Z) : M Z :=
  s ← bl_heap_alloc sizeof_short_name;
  if is_null s then mret NULL
  else
    let name := entry + dir_name in
    i ← skip_padding name (BL_FAT_SHORT_FILE_NAME_LENGTH - 1);
    let length1 := i + 1 in
    copy_chars s name length1;;
    i ← skip_padding (name + BL_FAT_SHORT_FILE_NAME_LENGTH) (BL_FAT_SHORT_FILE_EXTENSION_LENGTH - 1);
    if i <? 0 then mret s
    else
      wr8 (s + length1) 46;;
      copy_chars (s + (length1 + 1)) (name + BL_FAT_SHORT_FILE_NAME_LENGTH) (i + 1);;
      mret s.

(** ** Sectors and clusters *)
Definition info_disk (disks : disk_table) (info : Z) : M bl_storage_device :=
  p ← rd32 (info + fi_disk); disk_of disks p.

Definition bl_fat_read_rootdir (disks : disk_table) (info buf size offset : Z) : M bl_status_t :=
  disk ← info_disk disks info;
  rootdir_lba ← rd64 (info + fi_rootdir_lba);
  sector_size ← rd32 (info + fi_sector_size);
  bl_storage_device_read disk buf
    (u64 (rootdir_lba + Z.shiftr offset (log2_shift sector_size))) size
    (Z.land offset (u32 (sector_size - 1))).

Definition BL_FAT_SECTORS_PER_CLUSTER (info : Z) : M Z :=
  cluster_size ← rd32 (info + fi_cluster_size);
  sector_size ← rd32 (info + fi_sector_size);
  udiv cluster_size sector_size.

Definition bl_fat_entry_to_data_sector (info fat_entry : Z) : M Z :=
  data_lba ← rd64 (info + fi_data_lba);
  spc ← BL_FAT_SECTORS_PER_CLUSTER info;
  mret (u32 (data_lba + u32 (u32 (fat_entry - 2) * spc))).

Definition bl_fat_entry_to_sector (info fat_entry : Z) : M Z :=
  fat_lba ← rd64 (info + fi_fat_lba);
  cache_size ← rd32 (info + fi_fat_cache_size);
  fat_type ← rd32 (info + fi_fat_type);
  per_sector ← udiv (u32 (Z.shiftl cache_size 3)) fat_type;
  q ← udiv fat_entry per_sector;
  mret (u32 (fat_lba + q)).

(** The cache holds one sector of the table, and is indexed with the entry's
    number in the whole table. *)
Definition bl_fat_get_next_entry (disks : disk_table) (info fat_entry : Z) : M Z :=
  fat_sector ← bl_fat_entry_to_sector info fat_entry;
  cached ← rd32 (info + fi_fat_cache_sector);
  status ←
    (if negb (fat_sector =? cached) then
       disk ← info_disk disks info;
       cache ← rd32 (info + fi_fat_cache);
       cache_size ← rd32 (info + fi_fat_cache_size);
       status ← bl_storage_device_read disk cache fat_sector cache_size 0;
       (if failed status then mret () else wr32 (info + fi_fat_cache_sector) fat_sector);;
       mret status
     else mret BL_STATUS_SUCCESS);
  if failed status then mret 0
  else
    fat_type ← rd32 (info + fi_fat_type);
    cache ← rd32 (info + fi_fat_cache);
    if fat_type =? BL_FAT12_TYPE then x ← rd16 (u32 (cache + 2 * fat_entry)); mret (Z.land x 0xfff)
    else if fat_type =? BL_FAT16_TYPE then rd16 (u32 (cache + 2 * fat_entry))
    else if fat_type =? BL_FAT32_TYPE then rd32 (u32 (cache + 4 * fat_entry))
    else mret 0.

(** ** Reads *)
Definition bl_fat_read_cluster_chain (disks : disk_table) (fdata buf size offset : Z) : M bl_status_t :=
  info ← rd32 (fdata + fd_info);
  cluster ← rd32 (fdata + fd_cluster);
  o ← mwhile (λ '(i, fat_entry),
        cluster_size ← rd32 (info + fi_cluster_size);
        n ← udiv offset cluster_size;
        if i <? n then
          fat_entry ← bl_fat_get_next_entry disks info fat_entry;
          eof ← rd32 (info + fi_eof);
          if (fat_entry =? 0) || (fat_entry =? eof) then break None
          else continue (u32 (i + 1), fat_entry)
        else break (Some fat_entry)) (0, cluster);
  match o with
  | None => mret BL_STATUS_FILE_NOT_FOUND
  | Some fat_entry =>
      mwhile (λ '(fat_entry, size, read_bytes),
        cluster_size ← rd32 (info + fi_cluster_size);
        let single_read_size := BL_MIN size cluster_size in
        disk ← info_disk disks info;
        sector ← bl_fat_entry_to_data_sector info fat_entry;
        within ← umod offset cluster_size;
        status ← bl_storage_device_read disk (u32 (buf + read_bytes)) sector single_read_size within;
        if failed status then break status
        else
          let size := u32 (size - single_read_size) in
          if size =? 0 then break BL_STATUS_SUCCESS
          else
            fat_entry ← bl_fat_get_next_entry disks info fat_entry;
            eof ← rd32 (info + fi_eof);
            if (fat_entry =? 0) || (fat_entry =? eof) then break BL_STATUS_FILE_NOT_FOUND
            else continue (fat_entry, size, u32 (read_bytes + single_read_size)))
        (fat_entry, size, 0)
  end.

Definition bl_fat_generic_read (disks : disk_table) (fdata buf size offset : Z) : M bl_status_t :=
  rootdir ← rd32 (fdata + fd_rootdir);
  info ← rd32 (fdata + fd_info);
  fat_type ← rd32 (info + fi_fat_type);
  if truth rootdir && ((fat_type =? BL_FAT12_TYPE) || (fat_type =? BL_FAT16_TYPE))
  then bl_fat_read_rootdir disks info buf size offset
  else bl_fat_read_cluster_chain disks fdata buf size offset.

(** ** Directories: [it] is a [struct bl_fat_iterator], [entry] the local of
    [bl_fat_iterator_next]. *)
Definition bl_fat_iterator_next (disks : disk_table) (entry it : Z) : M bl_status_t :=
  fdata ← rd32 (it + it_fdata);
  n ← rd32 (it + it_entry);
  status ← bl_fat_generic_read disks fdata entry sizeof_dir_entry (u32 ((n - 1) * sizeof_dir_entry));
  if failed status then mret status
  else
    c ← rd8 (entry + dir_name);
    if c =? BL_FAT_AVAILABLE_ENTRY_FLAG then wr32 (it + it_empty) 1;; mret BL_STATUS_SUCCESS
    else
      attributes ← rd8 (entry + dir_attributes);
      ok ←
        (if Z.land attributes BL_FAT_DIR_ENTRY_ATTR_VOLUME =? 0 then
           wr32 (it + it_type)
             (if truth (Z.land attributes BL_FAT_DIR_ENTRY_ATTR_DIR)
              then BL_FILE_TYPE_DIRECTORY else BL_FILE_TYPE_REGULAR);;
           old ← rd32 (it + it_filename);
           (if is_null old then mret () else bl_fat_short_name_free old);;
           s ← bl_fat_short_name_to_regular_name entry;
           wr32 (it + it_filename) s;;
           mret (negb (is_null s))
         else
           wr32 (it + it_type) BL_FILE_TYPE_UNKNOWN;;
           wr32 (it + it_filename) NULL;;
           mret true);
      if negb ok then mret BL_STATUS_FAILURE
      else
        start ← rd16 (entry + dir_start);
        wr32 (it + it_cluster) start;;
        n ← rd32 (it + it_entry);
        wr32 (it + it_entry) (n + 1);;
        mret BL_STATUS_SUCCESS.

Definition bl_fat_iterator_end (it : Z) : M bool := e ← rd32 (it + it_empty); mret (truth e).

Definition bl_fat_iterator_uninit (it : Z) : M () :=
  filename ← rd32 (it + it_filename);
  (if is_null filename then mret () else bl_fat_short_name_free filename);;
  bl_memset it 0 sizeof_fat_iterator;;
  mret ().

Definition bl_fat_iterator_init (fdata it : Z) : M () :=
  wr32 (it + it_type) BL_FILE_TYPE_UNKNOWN;;
  wr32 (it + it_filename) NULL;;
  wr32 (it + it_empty) 0;;
  wr32 (it + it_entry) 1;;
  wr32 (it + it_fdata) fdata.

(** The node of a directory entry that was found: [None] when an allocation
    fails, the tree node being freed again. *)
Definition make_node (it fdata : Z) : M (option Z) :=
  _node ← bl_heap_alloc sizeof_tree_node;
  if is_null _node then mret None
  else
    wr32 (_node + node_fdata) NULL;;
    d ← bl_heap_alloc sizeof_fat_file_data;
    wr32 (_node + node_fdata) d;;
    if is_null d then
      bl_heap_free _node sizeof_tree_node;;
      d ← rd32 (_node + node_fdata);
      (if is_null d then mret () else bl_heap_free d sizeof_fat_file_data);;
      mret None
    else
      wr32 (d + fd_rootdir) 0;;
      cluster ← rd32 (it + it_cluster);
      wr32 (d + fd_cluster) cluster;;
      info ← rd32 (fdata + fd_info);
      wr32 (d + fd_info) info;;
      mret (Some _node).

(** The locals [it] and [entry] of the two functions. *)
Record fat_frame := FatFrame { l_it : Z; l_entry : Z }.

Definition bl_fat_iterate_directory_callback (disks : disk_table) (f : fat_frame) : callback_t :=
  λ filename directory dirdata node,
  wr32 node NULL;;
  status ← bl_fat_check_regular_name filename;
  if failed status then mret status
  else
    let it := l_it f in
    bl_fat_iterator_init dirdata it;;
    status ← bl_fat_iterator_next disks (l_entry f) it;
    status ← mwhile (λ status,
        e ← bl_fat_iterator_end it;
        if e : bool then break BL_STATUS_SUCCESS
        else if failed status then break status
        else
          type ← rd32 (it + it_type);
          if directory && negb (type =? BL_FILE_TYPE_DIRECTORY) then
            break BL_STATUS_INVALID_FILE_TYPE
          else
            name ← rd32 (it + it_filename);
            found ← (if negb (type =? BL_FILE_TYPE_UNKNOWN)
                     then c ← bl_strcasecmp name filename; mret (negb (truth c))
                     else mret false);
            if found : bool then
              o ← make_node it dirdata;
              match o with
              | None => break BL_STATUS_MEMORY_ALLOCATION_FAILED
              | Some _node => wr32 node _node;; break BL_STATUS_SUCCESS
              end
            else
              status ← bl_fat_iterator_next disks (l_entry f) it;
              continue status) status;
    bl_fat_iterator_uninit it;;
    mret status.

(** ** Mounting *)
Definition bl_fat_close (fdata : Z) : M bl_status_t :=
  if is_null fdata then mret BL_STATUS_INVALID_PARAMETERS
  else
    wr32 (fdata + fd_rootdir) (-1);;
    wr32 (fdata + fd_cluster) (-1);;
    wr32 (fdata + fd_info) NULL;;
    mret BL_STATUS_SUCCESS.

(** The type and the end-of-chain mark by the number of clusters. *)
Definition fat_type_of (clusters : Z) : Z * Z :=
  if clusters <? BL_FAT12_MAX_CLUSTERS then (BL_FAT12_TYPE, BL_FAT12_EOF)
  else if clusters <? BL_FAT16_MAX_CLUSTERS then (BL_FAT16_TYPE, BL_FAT16_EOF)
  else (BL_FAT32_TYPE, BL_FAT32_EOF).

(** The part of [bl_fat_check_fat] that follows the checks: [vbr] holds the
    volume boot record. *)
Definition fat_fill_info (vbr partition info : Z) : M bl_status_t :=
  bps ← rd16 (vbr + bytes_per_sector);
  spc ← rd8 (vbr + sectors_per_cluster);
  wr32 (info + fi_sector_size) bps;;
  wr32 (info + fi_cluster_size) (bps * spc);;
  t16 ← rd16 (vbr + total_sectors16);
  t32 ← rd32 (vbr + total_sectors32);
  let total_sectors := if truth t16 then t16 else t32 in
  wr64 (info + fi_total_sectors) total_sectors;;
  lba ← rd64 (partition + part_lba);
  reserved ← rd16 (vbr + reserved_sectors);
  let fat_lba := u64 (lba + reserved) in
  wr64 (info + fi_fat_lba) fat_lba;;
  f16 ← rd16 (vbr + sectors_per_fat16);
  f32 ← rd32 (vbr + sectors_per_fat32);
  let sectors_per_fat := if truth f16 then f16 else f32 in
  wr64 (info + fi_sectors_per_fat) sectors_per_fat;;
  fats ← rd8 (vbr + num_of_fats);
  let rootdir_lba := u64 (fat_lba + sectors_per_fat * fats) in
  wr64 (info + fi_rootdir_lba) rootdir_lba;;
  entries ← rd16 (vbr + rootdir_entries);
  wr16 (info + fi_rootdir_entries) entries;;
  let data_lba := u64 (rootdir_lba +
    BL_MEMORY_ALIGN_UP (entries * sizeof_dir_entry) BL_STORAGE_SECTOR_SIZE / BL_STORAGE_SECTOR_SIZE) in
  wr64 (info + fi_data_lba) data_lba;;
  let total_clusters := Z.shiftr (u64 (lba + total_sectors - data_lba)) (log2_shift spc) in
  wr64 (info + fi_total_clusters) total_clusters;;
  let '(fat_type, eof) := fat_type_of total_clusters in
  wr32 (info + fi_fat_type) fat_type;;
  wr32 (info + fi_eof) eof;;
  let cache_size := if fat_type =? BL_FAT12_TYPE then u32 (bps + (3 - bps mod 3)) else bps in
  wr32 (info + fi_fat_cache_size) cache_size;;
  cache ← bl_heap_alloc cache_size;
  wr32 (info + fi_fat_cache) cache;;
  if is_null cache then mret BL_STATUS_MEMORY_ALLOCATION_FAILED
  else
    wr32 (info + fi_fat_cache_sector) (-1);;
    mret BL_STATUS_SUCCESS.

Definition bl_fat_check_fat (disks : disk_table) (vbr disk partition info : Z) : M bl_status_t :=
  wr32 (info + fi_disk) disk;;
  d ← disk_of disks disk;
  lba ← rd64 (partition + part_lba);
  status ← bl_storage_device_read d vbr lba sizeof_vbr 0;
  if failed status then mret status
  else
    fats ← rd8 (vbr + num_of_fats);
    entries ← rd16 (vbr + rootdir_entries);
    signature ← rd16 (vbr + vbr_signature);
    bps ← rd16 (vbr + bytes_per_sector);
    spc ← rd8 (vbr + sectors_per_cluster);
    if (fats =? 0) || (entries =? 0) || negb (signature =? BL_MBR_SIGNATURE) ||
       (log2_shift bps =? -1) || (log2_shift spc =? -1)
    then mret BL_STATUS_INVALID_FILE_SYSTEM
    else fat_fill_info vbr partition info.

Definition bl_fat_mount (disks : disk_table) (vbr disk partition info : Z) : M bl_status_t :=
  _info ← bl_heap_alloc sizeof_fat_info;
  if is_null _info then mret BL_STATUS_MEMORY_ALLOCATION_FAILED
  else
    status ← bl_fat_check_fat disks vbr disk partition _info;
    if failed status then mret status
    else wr32 info _info;; mret BL_STATUS_SUCCESS.

Definition bl_fat_umount (info : Z) : M bl_status_t :=
  if is_null info then mret BL_STATUS_INVALID_PARAMETERS
  else
    cache ← rd32 (info + fi_fat_cache);
    cache_size ← rd32 (info + fi_fat_cache_size);
    bl_heap_free cache cache_size;;
    bl_memset info 0 sizeof_fat_info;;
    mret BL_STATUS_SUCCESS.
