(* ===== verification/FatProofs.v ===== *)
(** * Proofs about the FAT driver: reading files along their cluster chains

    The cache of the table holds one sector, which the driver indexes with the
    number of an entry in the whole table: chains in the first sector of a FAT16
    table, where that is the same, are followed, and later entries are looked up
    behind the cache. *)
From S2P Require Import Prelude Memory Regions Arith Status Strings StringsProofs Heap HeapProofs HeapClient Storage.
From S2P Require Import StorageProofs PartitionProofs Fs Fat.

(** ** A mounted FAT16 volume of 512-byte sectors *)
Record fat16 := Fat16 {
  v_disk : Z; v_spc : Z; v_fat_lba : Z; v_data_lba : Z; v_cache : Z;
}.

Record fat_mounted (m : gmap Z Z) (info : Z) (x : fat16) : Prop := FatMounted {
  fm_type : ld 4 m (info + fi_fat_type) = BL_FAT16_TYPE;
  fm_disk : ld 4 m (info + fi_disk) = v_disk x;
  fm_sector : ld 4 m (info + fi_sector_size) = 512;
  fm_cluster : ld 4 m (info + fi_cluster_size) = 512 * v_spc x;
  fm_eof : ld 4 m (info + fi_eof) = BL_FAT16_EOF;
  fm_fat : ld 8 m (info + fi_fat_lba) = v_fat_lba x;
  fm_cache : ld 4 m (info + fi_fat_cache) = v_cache x;
  fm_cache_size : ld 4 m (info + fi_fat_cache_size) = 512;
  fm_data : ld 8 m (info + fi_data_lba) = v_data_lba x;
}.

(** The table on the disk, and the bytes of a cluster. *)
Definition table_entry (image : Z → Z) (x : fat16) (e : Z) : Z := le_combine (slice image (512 * v_fat_lba x + 2 * e) 2).
Definition cluster_lba (x : fat16) (c : Z) : Z := v_data_lba x + (c - 2) * v_spc x.
Definition cluster_bytes (image : Z → Z) (x : fat16) (c : Z) : list Z :=
  slice image (512 * cluster_lba x c) (512 * v_spc x).

(** A chain of clusters in the first sector of the table. *)
Fixpoint chain_from (image : Z → Z) (x : fat16) (c : Z) (next : list Z) : Prop :=
  2 <= c < 256 ∧
  match next with [] => True | c' :: rest => table_entry image x c = c' ∧ chain_from image x c' rest end.

Section Fat.
Context (disks : disk_table) (d : bl_storage_device) (image : Z → Z) (sectors : Z).
Context (Hdisk : disk_reads d image sectors) (info : Z) (x : fat16) (Hd : disks (v_disk x) = Some d).
Context (buf size : Z) (Hbuf : 0 < buf) (Hcache : 0 < v_cache x) (Hspc : 0 < v_spc x <= 128).
Context (Hfat : 0 <= v_fat_lba x < 4294967296) (Hfat' : v_fat_lba x < sectors).
Context (Hdata : 0 <= v_data_lba x) (Hdata' : v_data_lba x + 254 * v_spc x <= sectors) (Hdata32 : v_data_lba x + 254 * v_spc x < 4294967296).

(** What the driver writes: the cache, the number of the sector in it, and the
    buffer. *)
Definition cache_area (a : Z) : Prop := within (v_cache x) 512 a ∨ within (info + fi_fat_cache_sector) 4 a.

Context (Hapart1 : disjoint info sizeof_fat_info (v_cache x) 512).
Context (Hapart2 : disjoint info sizeof_fat_info buf size) (Hapart3 : disjoint (v_cache x) 512 buf size).

Definition coherent (m : gmap Z Z) : Prop :=
  ld 4 m (info + fi_fat_cache_sector) = v_fat_lba x → ld_bytes m (v_cache x) 512 = slice image (512 * v_fat_lba x) 512.

(** The state of the driver while the heap may still grow by [g]. *)
Record fat_state (s : machine) (bs : list block) (g : Z) : Prop := FatState {
  fs_inv : heap_inv s bs;
  fs_mounted : fat_mounted (mem s) info x;
  fs_coherent : coherent (mem s);
  fs_info : stable_region s bs g info sizeof_fat_info;
  fs_cache : stable_region s bs g (v_cache x) 512;
  fs_buf : stable_region s bs g buf size;
  fs_room : heap_end s bs + g <= 4294967296;
}.

(** Fields of the information block that a step does not write. *)
Lemma field_step s bs s' bs' g W a n :
  heap_step s bs s' bs' g W → stable_region s bs g info sizeof_fat_info → 0 <= a → a + Z.of_nat n <= sizeof_fat_info →
  (∀ b, W b → outside (info + a) (Z.of_nat n) b) → ld n (mem s') (info + a) = ld n (mem s) (info + a).
Proof.
  intros Hstep [Hsp Hst] Ha Hn HW. unfold ld. f_equal. apply ld_bytes_ext. intros i Hi.
  apply (step_frame _ _ _ _ _ _ Hstep); [apply Hst; lia|]. intros Hw. specialize (HW _ Hw). unfold outside in HW. lia.
Qed.

Lemma mounted_step s bs s' bs' g W :
  heap_step s bs s' bs' g W → stable_region s bs g info sizeof_fat_info →
  (∀ b, W b → cache_area b ∨ within buf size b) → fat_mounted (mem s) info x → fat_mounted (mem s') info x.
Proof.
  intros Hstep Hst HW [H1 H2 H3 H4 H5 H6 H7 H8 H9].
  assert (Hf : ∀ a n, 0 <= a → a + Z.of_nat n <= sizeof_fat_info → (a + Z.of_nat n <= 60 ∨ 64 <= a) →
    ld n (mem s') (info + a) = ld n (mem s) (info + a)).
  { intros a n Ha Hn Ho. eapply field_step; [done..|]. intros b Hb.
    unfold cache_area, within, disjoint, outside, fi_fat_cache_sector, sizeof_fat_info in *.
    destruct (HW b Hb) as [[?|?]|?]; lia. }
  split; rewrite Hf by first [by vm_compute | by left; vm_compute | by right; vm_compute]; done.
Qed.

(** A step of the heap that leaves the table's sector in the cache or does not
    touch it, and writes in the driver's areas. *)
Lemma fat_state_step s bs s' bs' g h W :
  0 <= g → 0 <= h → heap_step s bs s' bs' g W → (∀ b, W b → cache_area b ∨ within buf size b) → coherent (mem s') →
  fat_state s bs (g + h) → fat_state s' bs' h.
Proof.
  intros Hg Hh Hstep HW Hco [H1 H2 H3 H4 H5 H6 H7].
  assert (Hst : ∀ a n, stable_region s bs (g + h) a n → stable_region s' bs' h a n) by (intros; by eapply stable_region_step).
  split; [apply Hstep| |done|by apply Hst..|].
  - eapply mounted_step; [exact Hstep| |exact HW|done]. eapply stable_region_weaken; [|exact H4]. lia.
  - pose proof (step_end _ _ _ _ _ _ Hstep). lia.
Qed.

Lemma coherent_step s bs s' bs' g W :
  heap_step s bs s' bs' g W → stable_region s bs g info sizeof_fat_info → stable_region s bs g (v_cache x) 512 →
  (∀ b, W b → within buf size b) → coherent (mem s) → coherent (mem s').
Proof.
  intros Hstep Hi [Hcs Hc] HW Hco Heq.
  assert (Hsec : ld 4 (mem s') (info + fi_fat_cache_sector) = ld 4 (mem s) (info + fi_fat_cache_sector)).
  { eapply (field_step _ _ _ _ _ _ _ 4); [exact Hstep|done|by vm_compute..|]. intros b Hb. specialize (HW b Hb).
    unfold within, disjoint, outside, fi_fat_cache_sector, sizeof_fat_info in *. lia. }
  rewrite Hsec in Heq. rewrite <- (Hco Heq). apply ld_bytes_ext. intros i Hi'.
  apply (step_frame _ _ _ _ _ _ Hstep); [apply Hc; lia|]. intros Hw. specialize (HW _ Hw).
  unfold within, disjoint in *. lia.
Qed.

Lemma fat_state_weaken s bs g h : h <= g → fat_state s bs g → fat_state s bs h.
Proof.
  intros Hh [H1 H2 H3 H4 H5 H6 H7]. split; [done..| | | |lia]; by eapply stable_region_weaken.
Qed.

(** Reading a sector of the table into the cache. *)
Lemma load_cache_run s bs h :
  0 <= h → fat_state s bs (cost 512 + h) →
  ∃ s' bs', (status ← bl_storage_device_read d (v_cache x) (v_fat_lba x) 512 0;
             (if failed status then mret () else wr32 (info + fi_fat_cache_sector) (v_fat_lba x));;
             mret status) s = Some (BL_STATUS_SUCCESS, s') ∧
    heap_step s bs s' bs' (cost 512) cache_area ∧ ld 4 (mem s') (info + fi_fat_cache_sector) = v_fat_lba x ∧
    coherent (mem s').
Proof.
  intros Hh [H1 H2 H3 H4 H5 H6 H7].
  assert (Hcost : cost (sector_round (0 + 512)) = cost 512) by done.
  destruct (storage_read_run d image sectors s bs (v_cache x) (v_fat_lba x) 512 0 Hdisk H1) as (s1 & bs1 & Hrun & Hstep & Hbytes).
  { split; [lia..| | | |]. 
    - change (sector_round (0 + 512) / 512) with 1. lia.
    - change (sector_round (0 + 512)) with 512. unfold room, cost, sizeof_head in *. lia.
    - lia.
    - rewrite Hcost. eapply stable_region_weaken; [|exact H5]. lia. }
  rewrite Hcost in Hstep. rewrite Z.add_0_r in Hbytes.
  assert (Hsector : stable_region s1 bs1 0 (info + fi_fat_cache_sector) 4).
  { assert (Hi : stable_region s1 bs1 h info sizeof_fat_info) by (eapply stable_region_step; done).
    destruct Hi as [Hsp Hst]. unfold fi_fat_cache_sector, sizeof_fat_info, in_space in *. split; [unfold in_space; lia|].
    intros a Ha. eapply stable_weaken; [|apply Hst]; lia. }
  pose proof (write_client s1 bs1 (info + fi_fat_cache_sector) (le_split 4 (v_fat_lba x)) (step_inv _ _ _ _ _ _ Hstep)) as Hw.
  rewrite length_le_split in Hw. specialize (Hw Hsector).
  eexists (set_mem (st 4 (mem s1) (info + fi_fat_cache_sector) (v_fat_lba x)) s1), bs1. split; [|split; [|split]].
  - run_with Hrun. rewrite failed_success. done.
  - eapply heap_step_weaken; [| |eapply heap_step_trans; [| |exact Hstep|exact Hw]]; [lia| |by vm_compute|done].
    by intros a _ Ha.
  - rewrite mem_set_mem, (ld_st_same 4) by apply Hsector. apply Z.mod_small. lia.
  - intros _. rewrite mem_set_mem, ld_bytes_st_other; [exact Hbytes|apply Hsector|apply H5|].
    unfold disjoint, fi_fat_cache_sector, sizeof_fat_info in *. lia.
Qed.

Lemma entry_sector_run e s :
  fat_mounted (mem s) info x → 0 <= e → v_fat_lba x + e / 256 < 4294967296 →
  bl_fat_entry_to_sector info e s = Some (v_fat_lba x + e / 256, s).
Proof.
  intros [H1 _ _ _ _ H6 _ H8 _] He Hend. apply wp_exact. unfold bl_fat_entry_to_sector. wp_steps. rewrite H1, H8.
  change (u32 (Z.shiftl 512 3)) with 4096. change (udiv 4096 BL_FAT16_TYPE) with (mret 256 : M Z). wp_steps.
  change (udiv e 256) with (mret (e / 256) : M Z). wp_steps. rewrite H6.
  split; [|done]. apply u32_small. pose proof (Z.div_pos e 256). lia.
Qed.
Lemma entry_to_sector_run e s :
  fat_mounted (mem s) info x → 0 <= e < 256 → bl_fat_entry_to_sector info e s = Some (v_fat_lba x, s).
Proof.
  intros Hm He. pose proof (entry_sector_run e s Hm) as E. rewrite Z.div_small, Z.add_0_r in E by lia. apply E; lia.
Qed.

(** The word of an entry in the cache. *)
Lemma cached_entry m e :
  0 <= e < 256 → v_cache x + 512 <= 4294967296 → ld_bytes m (v_cache x) 512 = slice image (512 * v_fat_lba x) 512 →
  ld 2 m (u32 (v_cache x + 2 * e)) = table_entry image x e.
Proof.
  intros He Hend Hc. rewrite u32_small by lia. unfold ld, table_entry. f_equal.
  replace (2 * e) with (Z.of_nat (Z.to_nat (2 * e))) at 1 by lia.
  rewrite <- (slice_ld_bytes m (v_cache x) 512), Hc by lia.
  replace 512 with (2 * e + (2 + (510 - 2 * e))) at 2 by lia. rewrite slice_app by lia.
  pose proof (length_slice image (512 * v_fat_lba x) (2 * e) ltac:(lia)).
  rewrite drop_app_length' by lia. rewrite slice_app by lia.
  pose proof (length_slice image (512 * v_fat_lba x + 2 * e) 2 ltac:(lia)). by rewrite take_app_length' by lia.
Qed.

Lemma info_disk_run s : fat_mounted (mem s) info x → info_disk disks info s = Some (d, s).
Proof.
  intros [_ H2 _ _ _ _ _ _ _]. unfold info_disk, rd32, gets, mbind, ST_bind. rewrite H2. unfold disk_of. by rewrite Hd.
Qed.

Lemma read_cached_run e s :
  fat_mounted (mem s) info x → ld 2 (mem s) (u32 (v_cache x + 2 * e)) = table_entry image x e →
  (fat_type ← rd32 (info + fi_fat_type); cache ← rd32 (info + fi_fat_cache);
   if fat_type =? BL_FAT12_TYPE then w ← rd16 (u32 (cache + 2 * e)); mret (Z.land w 0xfff)
   else if fat_type =? BL_FAT16_TYPE then rd16 (u32 (cache + 2 * e))
   else if fat_type =? BL_FAT32_TYPE then rd32 (u32 (cache + 4 * e))
   else mret 0) s = Some (table_entry image x e, s).
Proof.
  intros [H1 _ _ _ _ _ H7 _ _] Hld. apply wp_exact. wp_steps. rewrite H1, H7.
  change (BL_FAT16_TYPE =? BL_FAT12_TYPE) with false. change (BL_FAT16_TYPE =? BL_FAT16_TYPE) with true. cbv iota.
  wp_steps. by rewrite Hld.
Qed.

(** An entry of a later sector is looked up behind the cache, although its sector
    is there: the driver takes its number in the whole table. *)
Theorem fat_entry_beyond_cache e s :
  fat_mounted (mem s) info x → 256 <= e < 65536 → v_fat_lba x + e / 256 < 4294967296 → v_cache x + 2 * e < 4294967296 →
  ld 4 (mem s) (info + fi_fat_cache_sector) = v_fat_lba x + e / 256 →
  bl_fat_get_next_entry disks info e s = Some (ld 2 (mem s) (v_cache x + 2 * e), s) ∧ outside (v_cache x) 512 (v_cache x + 2 * e).
Proof.
  intros Hm He Hend Hsp Hc. split; [|unfold outside; lia]. pose proof (entry_sector_run e s Hm ltac:(lia) Hend) as Hsec.
  unfold bl_fat_get_next_entry. run_with Hsec. rewrite (bind_run _ _ (v_fat_lba x + e / 256) _ s) by (unfold rd32, gets; by rewrite Hc).
  rewrite Z.eqb_refl. cbn [negb]. rewrite (bind_run _ _ BL_STATUS_SUCCESS _ s) by done. rewrite failed_success.
  destruct Hm as [H1 _ _ _ _ _ H7 _ _]. apply wp_exact. wp_steps. rewrite H1, H7.
  change (BL_FAT16_TYPE =? BL_FAT12_TYPE) with false. change (BL_FAT16_TYPE =? BL_FAT16_TYPE) with true. cbv iota.
  wp_steps. by rewrite u32_small by lia.
Qed.

(** The entry that follows in the table, whether its sector is in the cache or
    not. *)
Lemma next_entry_run e s bs h :
  0 <= h → 0 <= e < 256 → fat_state s bs (cost 512 + h) →
  ∃ s' bs', bl_fat_get_next_entry disks info e s = Some (table_entry image x e, s') ∧
    heap_step s bs s' bs' (cost 512) cache_area ∧ fat_state s' bs' h.
Proof.
  intros Hh He Hst. pose proof (entry_to_sector_run e s (fs_mounted _ _ _ Hst) He) as Hsec.
  assert (Hend : v_cache x + 512 <= 4294967296).
  { destruct (fs_cache _ _ _ Hst) as [Hsp _]. unfold in_space in Hsp. lia. }
  unfold bl_fat_get_next_entry. rewrite (bind_run _ _ _ _ _ Hsec).
  rewrite (bind_run _ _ (ld 4 (mem s) (info + fi_fat_cache_sector)) _ s) by done.
  destruct (Z.eqb_spec (v_fat_lba x) (ld 4 (mem s) (info + fi_fat_cache_sector))) as [Heq|Hne]; cbn [negb].
  - exists s, bs. split; [|split].
    + rewrite (bind_run _ _ BL_STATUS_SUCCESS _ s) by done. rewrite failed_success.
      apply read_cached_run; [apply Hst|]. apply cached_entry; [done..|]. by apply (fs_coherent _ _ _ Hst).
    + eapply heap_step_weaken; [| |apply heap_step_refl, Hst]; [by vm_compute|done].
    + eapply fat_state_weaken; [|exact Hst]. unfold cost, sizeof_head. lia.
  - destruct (load_cache_run s bs h Hh Hst) as (s' & bs' & Hrun & Hstep & Hload & Hco).
    assert (Hst' : fat_state s' bs' h).
    { eapply (fat_state_step s bs s' bs' (cost 512)); [by vm_compute|done|exact Hstep|by left|done|done]. }
    exists s', bs'. split; [|by split]. destruct (fs_mounted _ _ _ Hst) as [_ _ _ _ _ _ H7 H8 _].
    rewrite (bind_run _ _ BL_STATUS_SUCCESS _ s').
    + rewrite failed_success. apply read_cached_run; [apply Hst'|]. apply cached_entry; [done..|by apply Hco].
    + rewrite (bind_run _ _ d _ s (info_disk_run s (fs_mounted _ _ _ Hst))).
      rewrite (bind_run _ _ (v_cache x) _ s) by (unfold rd32, gets; by rewrite H7).
      rewrite (bind_run _ _ 512 _ s) by (unfold rd32, gets; by rewrite H8). exact Hrun.
Qed.

(** ** One cluster *)
Lemma cluster_offset c : 2 <= c < 256 → 0 <= (c - 2) * v_spc x <= 253 * v_spc x.
Proof. intros Hc. clear -Hc Hspc. nia. Qed.
Lemma data_sector_run c s :
  fat_mounted (mem s) info x → 2 <= c < 256 → bl_fat_entry_to_data_sector info c s = Some (cluster_lba x c, s).
Proof.
  intros [_ _ H3 H4 _ _ _ _ H9] Hc. apply wp_exact. unfold bl_fat_entry_to_data_sector, BL_FAT_SECTORS_PER_CLUSTER.
  wp_steps. rewrite H3, H4. change (udiv (512 * v_spc x) 512) with (mret (512 * v_spc x / 512) : M Z). wp_steps.
  rewrite H9. replace (512 * v_spc x / 512) with (v_spc x) by (rewrite Z.mul_comm, Z.div_mul by lia; done).
  pose proof (cluster_offset c Hc).
  unfold cluster_lba. split; [|done]. rewrite (u32_small (c - 2)) by lia.
  rewrite (u32_small ((c - 2) * _)) by lia. apply u32_small. lia.
Qed.

(** The heap growth of one round. *)
Definition round_cost : Z := cost 512 + cost (512 * v_spc x).

Lemma round_cost_pos : 0 < cost 512 ∧ 0 < cost (512 * v_spc x).
Proof. unfold cost, sizeof_head. lia. Qed.

Lemma rounds_pos n : 0 <= Z.of_nat n * round_cost.
Proof. destruct round_cost_pos. unfold round_cost. apply Z.mul_nonneg_nonneg; lia. Qed.

Lemma cluster_read_run c rb n s bs h :
  0 <= h → 2 <= c < 256 → 0 < n <= 512 * v_spc x → 0 <= rb → rb + n <= size →
  fat_state s bs (cost (512 * v_spc x) + h) →
  ∃ s' bs', bl_storage_device_read d (u32 (buf + rb)) (cluster_lba x c) n 0 s = Some (BL_STATUS_SUCCESS, s') ∧
    heap_step s bs s' bs' (cost (512 * v_spc x)) (within (buf + rb) n) ∧ fat_state s' bs' h ∧
    ld_bytes (mem s') (buf + rb) (Z.to_nat n) = slice image (512 * cluster_lba x c) n.
Proof.
  intros Hh Hc Hn Hrb Hfit Hst. pose proof (fs_buf _ _ _ Hst) as [Hsp Hstable]. unfold in_space in Hsp.
  rewrite u32_small by lia.
  destruct (sector_round_spec n) as [Hr1 Hr2]; [lia|].
  assert (Hround : sector_round n <= 512 * v_spc x) by lia.
  assert (Hcost : cost (sector_round (0 + n)) <= cost (512 * v_spc x)) by (rewrite Z.add_0_l; unfold cost; lia).
  pose proof (fs_room _ _ _ Hst) as Hroom. destruct round_cost_pos as [_ Hpos].
  assert (Hdisk' : cluster_lba x c + v_spc x <= sectors ∧ 0 <= cluster_lba x c < 4294967296).
  { pose proof (cluster_offset c Hc). unfold cluster_lba. lia. }
  destruct (storage_read_run d image sectors s bs (buf + rb) (cluster_lba x c) n 0 Hdisk (fs_inv _ _ _ Hst))
    as (s' & bs' & Hrun & Hstep & Hbytes).
  { split; [lia..| | | |].
    - rewrite Z.add_0_l. apply (Z.le_trans _ (cluster_lba x c + v_spc x)); [|lia]. lia.
    - rewrite Z.add_0_l. unfold room, cost, sizeof_head in *. lia.
    - lia.
    - split; [unfold in_space; lia|]. intros a Ha. eapply stable_weaken; [|apply Hstable; lia]. lia. }
  rewrite Z.add_0_r in Hbytes. exists s', bs'. split; [done|].
  assert (Hstep' : heap_step s bs s' bs' (cost (512 * v_spc x)) (within (buf + rb) n)).
  { eapply heap_step_weaken; [exact Hcost| |exact Hstep]. done. }
  split; [done|]. split; [|done].
  eapply (fat_state_step s bs s' bs' (cost (512 * v_spc x))); [lia|done|exact Hstep'| | |exact Hst].
  - intros a Ha. right. unfold within in *. lia.
  - eapply (coherent_step s bs); [exact Hstep'| | | |apply Hst].
    + eapply stable_region_weaken; [|apply (fs_info _ _ _ Hst)]. lia.
    + eapply stable_region_weaken; [|apply (fs_cache _ _ _ Hst)]. lia.
    + intros a Ha. unfold within in *. lia.
Qed.

(** ** Chains *)
Definition file_bytes (cs : list Z) : list Z := concat (cluster_bytes image x <$> cs).

Lemma length_cluster c : Z.of_nat (length (cluster_bytes image x c)) = 512 * v_spc x.
Proof. apply length_slice. lia. Qed.

(** The part of the file from cluster [c] on. *)
Lemma file_bytes_last c next n :
  0 <= n <= 512 * v_spc x → take (Z.to_nat n) (file_bytes (c :: next)) = slice image (512 * cluster_lba x c) n.
Proof.
  intros Hn. unfold file_bytes. cbn [fmap list_fmap concat]. pose proof (length_cluster c).
  rewrite take_app_le by lia. unfold cluster_bytes.
  replace (512 * v_spc x) with (n + (512 * v_spc x - n)) by lia. rewrite slice_app by lia.
  pose proof (length_slice image (512 * cluster_lba x c) n ltac:(lia)). by rewrite take_app_length' by lia.
Qed.
Lemma file_bytes_next c next n :
  512 * v_spc x <= n →
  take (Z.to_nat n) (file_bytes (c :: next)) =
  slice image (512 * cluster_lba x c) (512 * v_spc x) ++ take (Z.to_nat (n - 512 * v_spc x)) (file_bytes next).
Proof.
  intros Hn. unfold file_bytes. cbn [fmap list_fmap concat]. pose proof (length_cluster c).
  rewrite take_app_ge by lia. f_equal. f_equal. lia.
Qed.

Definition written (a : Z) : Prop := cache_area a ∨ within buf size a.

Lemma chain_next c c' next : chain_from image x c (c' :: next) → 2 <= c < 256 ∧ table_entry image x c = c' ∧ chain_from image x c' next.
Proof. by intros (? & ? & ?). Qed.
Lemma chain_first c next : chain_from image x c next → 2 <= c < 256.
Proof. destruct next; by intros [? _]. Qed.

(** What is true before the round that reads cluster [c]: [rb] bytes are in the
    buffer, [n] are missing. *)
Definition reading (s0 : machine) (bs0 : list block) (g0 : Z) (target : list Z) (y : Z * Z * Z) (s : machine) : Prop :=
  let '(c, n, rb) := y in
  ∃ next bs u, chain_from image x c next ∧ 0 < n <= 512 * v_spc x * Z.of_nat (S (length next)) ∧
    0 <= rb ∧ rb + n = size ∧ fat_state s bs (Z.of_nat (S (length next)) * round_cost) ∧
    ld_bytes (mem s) buf (Z.to_nat rb) ++ take (Z.to_nat n) (file_bytes (c :: next)) = target ∧
    heap_step s0 bs0 s bs u written ∧ 0 <= u ∧ u + Z.of_nat (S (length next)) * round_cost <= g0.
Definition read_result (s0 : machine) (bs0 : list block) (g0 : Z) (target : list Z) (st : bl_status_t) (s : machine) : Prop :=
  st = BL_STATUS_SUCCESS ∧ ld_bytes (mem s) buf (Z.to_nat size) = target ∧ ∃ bs, heap_step s0 bs0 s bs g0 written.

(** Bytes of the buffer that a step does not write. *)
Lemma buffer_step s bs s' bs' g W n :
  heap_step s bs s' bs' g W → stable_region s bs g buf size → 0 <= n <= size →
  (∀ a, W a → outside buf n a) → ld_bytes (mem s') buf (Z.to_nat n) = ld_bytes (mem s) buf (Z.to_nat n).
Proof.
  intros Hstep [_ Hst] Hn HW. apply ld_bytes_ext. intros i Hi. apply (step_frame _ _ _ _ _ _ Hstep); [apply Hst; lia|].
  intros Hw. specialize (HW _ Hw). unfold outside in HW. lia.
Qed.

(** After the bytes of a round are in the buffer. *)
Lemma round_bytes rb n s bs s' bs' W c :
  heap_step s bs s' bs' (cost (512 * v_spc x)) W → stable_region s bs (cost (512 * v_spc x)) buf size →
  0 <= rb → 0 < n → rb + n <= size → (∀ a, W a → within (buf + rb) n a) →
  ld_bytes (mem s') (buf + rb) (Z.to_nat n) = slice image (512 * cluster_lba x c) n →
  ld_bytes (mem s') buf (Z.to_nat (rb + n)) = ld_bytes (mem s) buf (Z.to_nat rb) ++ slice image (512 * cluster_lba x c) n.
Proof.
  intros Hstep Hst Hrb Hn Hfit HW Hbytes. rewrite Z2Nat.inj_add, ld_bytes_app, Z2Nat.id, Hbytes by lia. f_equal.
  eapply buffer_step; [exact Hstep|done|lia|]. intros a Ha. specialize (HW a Ha). unfold within, outside in *. lia.
Qed.

Lemma u_step s0 bs0 s bs s' bs' u g (W : Z → Prop) :
  0 <= u → 0 <= g → heap_step s0 bs0 s bs u written → heap_step s bs s' bs' g W → (∀ a, W a → written a) →
  heap_step s0 bs0 s' bs' (u + g) written.
Proof.
  intros Hu Hg H1 H2 HW. eapply heap_step_weaken; [reflexivity| |exact (heap_step_trans _ _ _ _ _ _ _ _ _ _ Hu Hg H1 H2)].
  intros a _ [Ha|Ha]; [done|by apply HW].
Qed.

Lemma round_run s0 bs0 g0 target offset c n rb s :
  offset mod (512 * v_spc x) = 0 → reading s0 bs0 g0 target (c, n, rb) s →
  wp (cluster_size ← rd32 (info + fi_cluster_size);
      let single_read_size := BL_MIN n cluster_size in
      disk ← info_disk disks info;
      sector ← bl_fat_entry_to_data_sector info c;
      within ← umod offset cluster_size;
      status ← bl_storage_device_read disk (u32 (buf + rb)) sector single_read_size within;
      if failed status then break status
      else
        let size := u32 (n - single_read_size) in
        if size =? 0 then break BL_STATUS_SUCCESS
        else
          fat_entry ← bl_fat_get_next_entry disks info c;
          eof ← rd32 (info + fi_eof);
          if (fat_entry =? 0) || (fat_entry =? eof) then break BL_STATUS_FILE_NOT_FOUND
          else continue (fat_entry, size, u32 (rb + single_read_size)))
    (λ o t, match o with
            | inl y => reading s0 bs0 g0 target y t ∧ 0 <= y.1.2 < n
            | inr st => read_result s0 bs0 g0 target st t
            end) s.
Proof.
  intros Hoff (next & bs & u & Hchain & Hn & Hrb & Hsz & Hst & Hbytes & Hstep & Hu & Hg).
  destruct round_cost_pos as [Hp1 Hp2]. pose proof (chain_first _ _ Hchain) as Hc.
  pose proof (fs_mounted _ _ _ Hst) as Hm. destruct (fs_buf _ _ _ Hst) as [Hsp _]. unfold in_space in Hsp.
  set (cs := 512 * v_spc x) in *. set (k := BL_MIN n cs).
  assert (Hk : 0 < k <= cs ∧ k <= n ∧ (n ≠ k → k = cs)) by (unfold k, BL_MIN; destruct (Z.ltb_spec cs n); lia).
  wp_known (eq_trans (f_equal (λ v, Some (v, s)) (fm_cluster _ _ _ Hm)) eq_refl : rd32 (info + fi_cluster_size) s = Some (cs, s)).
  fold k. clearbody k. wp_known (info_disk_run s Hm). wp_known (data_sector_run c s Hm Hc).
  assert (Hmod : umod offset cs s = Some (0, s)).
  { unfold umod. destruct (Z.eqb_spec cs 0); [lia|]. unfold mret, ST_ret. by rewrite Hoff. }
  wp_known Hmod.
  set (h := cost 512 + Z.of_nat (length next) * round_cost).
  assert (Hcost : Z.of_nat (S (length next)) * round_cost = cost cs + h) by (unfold h, round_cost; fold cs; lia).
  assert (Hh : 0 <= h) by (pose proof (rounds_pos (length next)); unfold h; lia). rewrite Hcost in Hst, Hg.
  destruct (cluster_read_run c rb k s bs h Hh Hc ltac:(lia) Hrb ltac:(lia) Hst) as (s1 & bs1 & Hrun & Hstep1 & Hst1 & Hbytes1).
  fold cs in Hstep1. wp_known Hrun. rewrite failed_success.
  assert (HW1 : ∀ a, within (buf + rb) k a → written a) by (intros a Ha; right; unfold within in *; lia).
  pose proof (u_step _ _ _ _ _ _ _ (cost cs) _ Hu ltac:(lia) Hstep Hstep1 HW1) as Hstep01.
  assert (Hstb : stable_region s bs (cost cs) buf size).
  { eapply stable_region_weaken; [|apply (fs_buf _ _ _ Hst)]. lia. }
  pose proof (round_bytes rb k s bs s1 bs1 _ c Hstep1 Hstb Hrb ltac:(lia) ltac:(lia) ltac:(done) Hbytes1) as Hread.
  rewrite u32_small by lia. destruct (Z.eqb_spec (n - k) 0) as [E|E].
  - assert (n = k) as -> by lia. apply wp_ret. split; [done|]. split.
    + rewrite <- Hsz, Hread, <- Hbytes. f_equal. symmetry. apply file_bytes_last. lia.
    + exists bs1. eapply heap_step_weaken; [|intros a _ Ha; exact Ha|exact Hstep01]. lia.
  - assert (k = cs) as Hkcs by lia.
    destruct next as [|c' rest]; [cbn [length] in Hn; lia|].
    destruct (chain_next _ _ _ Hchain) as (_ & Hentry & Hchain'). pose proof (chain_first _ _ Hchain') as Hc'.
    assert (Hh' : h = cost 512 + Z.of_nat (S (length rest)) * round_cost) by done.
    destruct (next_entry_run c s1 bs1 (Z.of_nat (S (length rest)) * round_cost)) as (s2 & bs2 & Hnext & Hstep2 & Hst2);
      [apply rounds_pos|lia|by rewrite <- Hh'|].
    rewrite Hentry in Hnext. wp_known Hnext.
    wp_known (eq_trans (f_equal (λ v, Some (v, s2)) (fm_eof _ _ _ (fs_mounted _ _ _ Hst2))) eq_refl :
      rd32 (info + fi_eof) s2 = Some (BL_FAT16_EOF, s2)).
    unfold BL_FAT16_EOF. destruct (Z.eqb_spec c' 0); [lia|]. destruct (Z.eqb_spec c' 0xfff8); [lia|]. cbn [orb].
    apply wp_ret. split; [|cbn [fst snd]; lia]. exists rest, bs2, (u + cost cs + cost 512).
    cbn [length] in Hn. rewrite !Nat2Z.inj_succ, !Z.mul_succ_r in Hn.
    split; [done|]. split; [rewrite Nat2Z.inj_succ, Z.mul_succ_r; fold cs; lia|]. rewrite u32_small by lia.
    split; [lia|]. split; [lia|].
    split; [done|]. split; [|split; [|split]].
    + rewrite <- Hbytes, (file_bytes_next c (c' :: rest) n) by (fold cs; lia). fold cs. rewrite <- Hkcs, app_assoc. f_equal.
      rewrite <- Hread. eapply (buffer_step _ _ _ _ (cost 512)); [exact Hstep2| |lia|].
      * eapply stable_region_weaken; [|apply (fs_buf _ _ _ Hst1)]. pose proof (rounds_pos (S (length rest))). lia.
      * intros a [Ha|Ha]; unfold within, outside, disjoint, fi_fat_cache_sector, sizeof_fat_info in *; lia.
    + eapply u_step; [lia|lia|exact Hstep01|exact Hstep2|by left].
    + lia.
    + lia.
Qed.

(** ** Skipping clusters *)
Definition skipping (s0 : machine) (bs0 : list block) (g0 : Z) (cs : list Z) (k : nat) (y : Z * Z) (s : machine) : Prop :=
  ∃ i rest bs u, y.1 = Z.of_nat i ∧ (i <= k)%nat ∧ drop i cs = y.2 :: rest ∧ chain_from image x y.2 rest ∧
    fat_state s bs (Z.of_nat (S (length rest)) * round_cost) ∧
    heap_step s0 bs0 s bs u written ∧ 0 <= u ∧ u + Z.of_nat (S (length rest)) * round_cost <= g0.

Lemma skip_run s0 bs0 g0 cs k offset s c next :
  cs = c :: next → chain_from image x c next → (k < length cs)%nat → Z.of_nat (length cs) < 4294967296 →
  offset = 512 * v_spc x * Z.of_nat k → g0 = Z.of_nat (length cs) * round_cost → fat_state s0 bs0 g0 → s = s0 →
  wp (mwhile (λ '(i, fat_entry),
        cluster_size ← rd32 (info + fi_cluster_size);
        n ← udiv offset cluster_size;
        if i <? n then
          fat_entry ← bl_fat_get_next_entry disks info fat_entry;
          eof ← rd32 (info + fi_eof);
          if (fat_entry =? 0) || (fat_entry =? eof) then break None
          else continue (u32 (i + 1), fat_entry)
        else break (Some fat_entry)) (0, c))
    (λ o t, ∃ e, o = Some e ∧ skipping s0 bs0 g0 cs k (Z.of_nat k, e) t) s.
Proof.
  intros Hcs Hchain Hk Hlen Hoff Hg0 Hst ->.
  wp_loop (skipping s0 bs0 g0 cs k) (λ '(i, _) _, Z.of_nat k - i); [| |lia].
  2: { exists 0%nat, next, bs0, 0. subst cs. split; [done|]. split; [lia|]. split; [done|]. split; [done|].
       split; [by rewrite Hg0 in Hst|]. split; [|split; [done|by rewrite Hg0]].
       eapply heap_step_weaken; [reflexivity| |apply heap_step_refl, Hst]. done. }
  intros [y e] t (i & rest & bs & u & Hi & Hik & Hdrop & Hch & Hst' & Hstep & Hu & Hg). cbn [fst snd] in *. subst y.
  pose proof (chain_first _ _ Hch) as He. pose proof (fs_mounted _ _ _ Hst') as Hm.
  wp_known (eq_trans (f_equal (λ v, Some (v, t)) (fm_cluster _ _ _ Hm)) eq_refl :
    rd32 (info + fi_cluster_size) t = Some (512 * v_spc x, t)).
  assert (Hdiv : udiv offset (512 * v_spc x) t = Some (Z.of_nat k, t)).
  { unfold udiv. destruct (Z.eqb_spec (512 * v_spc x) 0); [lia|]. rewrite Hoff, Z.mul_comm, Z.div_mul by done. done. }
  wp_known Hdiv. destruct (Z.ltb_spec (Z.of_nat i) (Z.of_nat k)) as [Hlt|Hge].
  - destruct rest as [|e' rest].
    { apply (f_equal length) in Hdrop. rewrite length_drop in Hdrop. cbn in Hdrop. lia. }
    destruct (chain_next _ _ _ Hch) as (_ & Hentry & Hch'). pose proof (chain_first _ _ Hch') as He'.
    destruct round_cost_pos as [Hp1 Hp2]. pose proof (rounds_pos (S (length rest))) as Hpos.
    assert (Hsplit : Z.of_nat (S (length (e' :: rest))) * round_cost =
      cost 512 + Z.of_nat (S (length rest)) * round_cost + cost (512 * v_spc x)).
    { cbn [length]. rewrite (Nat2Z.inj_succ (S _)), Z.mul_succ_l. unfold round_cost. lia. }
    rewrite Hsplit in Hst', Hg.
    destruct (next_entry_run e t bs (Z.of_nat (S (length rest)) * round_cost) Hpos ltac:(lia)) as (t1 & bs1 & Hrun & Hstep1 & Hst1).
    { eapply fat_state_weaken; [|exact Hst']. lia. }
    rewrite Hentry in Hrun. wp_known Hrun.
    wp_known (eq_trans (f_equal (λ v, Some (v, t1)) (fm_eof _ _ _ (fs_mounted _ _ _ Hst1))) eq_refl :
      rd32 (info + fi_eof) t1 = Some (BL_FAT16_EOF, t1)).
    unfold BL_FAT16_EOF. destruct (Z.eqb_spec e' 0); [lia|]. destruct (Z.eqb_spec e' 0xfff8); [lia|]. cbn [orb].
    rewrite u32_small by lia. apply wp_ret. split; [|lia]. exists (S i), rest, bs1, (u + cost 512). cbn [fst snd].
    split; [lia|]. split; [lia|]. split; [|split; [done|split; [done|split; [|split; lia]]]].
    + replace (S i) with (i + 1)%nat by lia. rewrite <- drop_drop, Hdrop. done.
    + eapply u_step; [lia|lia|exact Hstep|exact Hstep1|by left].
  - apply wp_ret. exists e. split; [done|]. exists i, rest, bs, u. cbn [fst snd].
    split; [lia|]. split; [lia|]. done.
Qed.

(** C14: Reading from the start of a cluster of a file whose chain lies in the
    first sector of the table, on a FAT16 volume of 512-byte sectors: from its
    cluster number [k] on, up to the end of the chain, it succeeds and stores exactly
    the bytes of the clusters in the order of the chain, up to the size asked for;
    of stable memory only the buffer and the cached sector change.  Chains that
    leave the first sector are outside of it: their entries are looked up behind
    the cache ([fat_entry_beyond_cache]). *)
Theorem fat_reads_first_sector_chain fdata c next (k : nat) s bs :
  let cs := c :: next in
  chain_from image x c next → (k < length cs)%nat → Z.of_nat (length cs) < 4294967296 →
  0 < size <= 512 * v_spc x * Z.of_nat (length cs - k) →
  fat_state s bs (Z.of_nat (length cs) * round_cost) →
  ld 4 (mem s) (fdata + fd_info) = info → ld 4 (mem s) (fdata + fd_cluster) = c →
  ∃ s' bs', bl_fat_read_cluster_chain disks fdata buf size (512 * v_spc x * Z.of_nat k) s = Some (BL_STATUS_SUCCESS, s') ∧
    ld_bytes (mem s') buf (Z.to_nat size) = take (Z.to_nat size) (file_bytes (drop k cs)) ∧
    heap_step s bs s' bs' (Z.of_nat (length cs) * round_cost) written.
Proof.
  intros cs Hchain Hk Hlen Hsz Hst Hinfo Hcluster.
  set (offset := 512 * v_spc x * Z.of_nat k). set (g0 := Z.of_nat (length cs) * round_cost).
  assert (Hoff : offset mod (512 * v_spc x) = 0) by (unfold offset; rewrite Z.mul_comm; apply Z.mod_mul; lia).
  enough (H : wp (bl_fat_read_cluster_chain disks fdata buf size offset)
    (read_result s bs g0 (take (Z.to_nat size) (file_bytes (drop k cs)))) s).
  { apply wp_run in H as (st & s' & Hrun & -> & Hbytes & bs' & Hstep). by exists s', bs'. }
  unfold bl_fat_read_cluster_chain.
  wp_known (eq_trans (f_equal (λ v, Some (v, s)) Hinfo) eq_refl : rd32 (fdata + fd_info) s = Some (info, s)).
  wp_known (eq_trans (f_equal (λ v, Some (v, s)) Hcluster) eq_refl : rd32 (fdata + fd_cluster) s = Some (c, s)).
  apply wp_bind. eapply wp_mono; [by apply (skip_run s bs g0 cs k offset s c next)|]. cbv beta.
  intros o t (e & -> & i & rest & bst & u & Hi & _ & Hdrop & Hch & Hst' & Hstep & Hu & Hg). cbn [fst snd] in *.
  assert (i = k) as -> by lia. fold cs in Hdrop. rewrite Hdrop.
  wp_loop (reading s bs g0 (take (Z.to_nat size) (file_bytes (e :: rest)))) (λ '(_, n, _) _, n).
  - intros [[e' n] rb] t' Hreading. eapply wp_mono; [exact (round_run s bs g0 _ offset e' n rb t' Hoff Hreading)|].
    cbv beta. intros [[[e1 n1] rb1]|st] t1; [|done]. intros [H1 H2]. split; [done|]. cbn [fst snd] in H2. lia.
  - exists rest, bst, u. split; [done|]. split.
    { apply (f_equal length) in Hdrop. rewrite length_drop in Hdrop. cbn [length] in Hdrop. rewrite <- Hdrop. lia. }
    split; [done|]. split; [lia|]. by split.
  - destruct (fs_buf _ _ _ Hst) as [Hsp _]. unfold in_space in Hsp. lia.
Qed.
End Fat.

(** A volume with its table in sector 1 and its data from sector 40 on, where the
    chain is 2, 5, 3. *)
Definition fat_image (a : Z) : Z := if a =? 516 then 5 else if a =? 522 then 3 else if a <? 1024 then 0 else a / 512.
Definition example_fat : fat16 := Fat16 0x9000 1 1 40 0x3000.
Definition example_fat_memory : gmap Z Z :=
  foldl (λ m '(a, v), st 4 m a v) ∅
    [(0x2000 + fi_fat_type, 16); (0x2000 + fi_disk, 0x9000); (0x2000 + fi_sector_size, 512);
     (0x2000 + fi_cluster_size, 512); (0x2000 + fi_eof, 0xfff8); (0x2000 + fi_fat_lba, 1);
     (0x2000 + fi_fat_cache, 0x3000); (0x2000 + fi_fat_cache_size, 512); (0x2000 + fi_data_lba, 40);
     (0x2000 + fi_fat_cache_sector, 0xffffffff); (0x2100 + fd_info, 0x2000); (0x2100 + fd_cluster, 2)].

Lemma fat_reads_first_sector_chain_witness :
  let s := set_mem example_fat_memory low_machine in
  ∃ s' bs', bl_fat_read_cluster_chain (λ _, Some (ram_disk fat_image)) 0x2100 0x8000 600 (512 * 1 * Z.of_nat 1) s =
      Some (BL_STATUS_SUCCESS, s') ∧
    ld_bytes (mem s') 0x8000 600 = replicate 512 43 ++ replicate 88 41 ∧
    heap_step s [] s' bs' (Z.of_nat 3 * round_cost example_fat) (written 0x2000 example_fat 0x8000 600).
Proof.
  intros s.
  assert (Hst : ∀ a n, 0 <= a → 0 <= n → a + n <= 0x100000 →
    stable_region s [] (Z.of_nat 3 * round_cost example_fat) a n).
  { intros a n Ha Hn Hend. split; [unfold in_space; lia|]. intros y Hy. split; [lia|]. left.
    change (bl_heap s) with 0x100000. lia. }
  change (replicate 512 43 ++ replicate 88 41) with (take 600 (file_bytes fat_image example_fat (drop 1 [2; 5; 3]))).
  apply (fat_reads_first_sector_chain (λ _, Some (ram_disk fat_image)) (ram_disk fat_image) fat_image 4096) with
    (x := example_fat) (size := 600) (k := 1%nat) (c := 2) (next := [5; 3]).
  1: apply ram_disk_reads.
  1: reflexivity.
  9-11: left; by vm_compute.
  1-8: vm_compute; repeat split; first [discriminate | reflexivity].
  1: repeat split; by vm_compute.
  1-3: cbn; first [lia | by vm_compute].
  2-3: by vm_compute.
  - split.
    + by vm_compute.
    + split; by vm_compute.
    + intros E. by vm_compute in E.
    + apply Hst; by vm_compute.
    + apply Hst; by vm_compute.
    + apply Hst; by vm_compute.
    + by vm_compute.
Defined.
