(* ===== verification/Ext.v ===== *)
(** * EXT2/3/4: modules/fs/ext/ext.c, ext/ext.h

    The code under [#if 0] is not part of the program. *)
From Stdlib Require Import String.
From S2P Require Import Prelude Memory Arith Status Strings Heap Storage Tokens Print Fs.
#[local] Open Scope Z_scope.

(** ** ext.h *)
Definition BL_EXT_MAGIC : Z := 0xef53.
Definition BL_EXT_SUPER_BLOCK_OFFSET : Z := 0x400.
Definition BL_EXT_BLOCK_SIZE (log_block_size : Z) : Z := u32 (Z.shiftl 1024 log_block_size).
Definition BL_EXT_FEATURE_INCOMPAT_EXTENTS : Z := 0x0040.

(** [struct bl_ext_super_block]. *)
Definition sizeof_super_block : Z := 1024.
Definition sb_blocks_count : Z := 4.
Definition sb_log_block_size : Z := 24.
Definition sb_blocks_per_group : Z := 32.
Definition sb_inodes_per_group : Z := 40.
Definition sb_magic : Z := 56.
Definition sb_inode_size : Z := 88.
Definition sb_feature_compat : Z := 92.
Definition sb_feature_incompat : Z := 96.
Definition sb_feature_ro_compat : Z := 100.

(** [struct bl_ext_group_descriptor], [struct bl_ext_inode] and the extent
    header in it. *)
Definition sizeof_group_descriptor : Z := 32.
Definition gd_inode_table : Z := 8.
Definition sizeof_ext_inode : Z := 128.
Definition inode_eheader : Z := 40.
Definition eheader_magic : Z := 0.

(** ** ext.c: [struct bl_ext_info], [struct bl_ext_file_data] *)
Definition BL_EXT2_TYPE : Z := 0.
Definition BL_EXT3_TYPE : Z := 1.
Definition BL_EXT4_TYPE : Z := 2.

Definition sizeof_ext_info : Z := 52.
Definition ei_type : Z := 0.
Definition ei_lba : Z := 4.
Definition ei_disk : Z := 12.
Definition ei_block_size : Z := 24.
Definition ei_blocks_count : Z := 28.
Definition ei_blocks_per_group : Z := 32.
Definition ei_inode_size : Z := 36.
Definition ei_inodes_per_group : Z := 40.
Definition ei_groups_count : Z := 44.
Definition ei_groups : Z := 48.

Definition sizeof_ext_file_data : Z := 8.
Definition efd_inode : Z := 0.
Definition efd_info : Z := 4.

(** ** Inodes and blocks *)
Definition bl_ext_inode_index_block_group (info inode_number : Z) : M Z :=
  n ← rd32 (info + ei_inodes_per_group); umod (u32 (inode_number - 1)) n.

Definition inode_table_offset (info inode_number : Z) : M Z :=
  size ← rd16 (info + ei_inode_size);
  index ← bl_ext_inode_index_block_group info inode_number;
  mret (u32 (size * index)).

Definition bl_ext_inode_offset_to_sectors (info inode_number : Z) : M Z :=
  o ← inode_table_offset info inode_number; mret (o / BL_STORAGE_SECTOR_SIZE).

Definition bl_ext_inode_sector_offset (info inode_number : Z) : M Z :=
  o ← inode_table_offset info inode_number; mret (o mod BL_STORAGE_SECTOR_SIZE).

Definition bl_ext_block_to_lba (info block : Z) : M Z :=
  lba ← rd64 (info + ei_lba);
  block_size ← rd32 (info + ei_block_size);
  mret (u32 (lba + u32 (block * block_size) / BL_STORAGE_SECTOR_SIZE)).

Definition bl_ext_inode_block_group (info inode_number : Z) : M Z :=
  n ← rd32 (info + ei_inodes_per_group); udiv (u32 (inode_number - 1)) n.

Definition bl_ext_get_inode (disks : disk_table) (info inode_number inode : Z) : M bl_status_t :=
  block_group ← bl_ext_inode_block_group info inode_number;
  p ← rd32 (info + ei_disk);
  disk ← disk_of disks p;
  groups ← rd32 (info + ei_groups);
  table ← rd32 (u32 (groups + sizeof_group_descriptor * block_group) + gd_inode_table);
  lba ← bl_ext_block_to_lba info table;
  sectors ← bl_ext_inode_offset_to_sectors info inode_number;
  offset ← bl_ext_inode_sector_offset info inode_number;
  bl_storage_device_read disk inode (u32 (lba + sectors)) sizeof_ext_inode offset.

Definition bl_ext_get_block (disks : disk_table) (info block data : Z) : M bl_status_t :=
  p ← rd32 (info + ei_disk);
  disk ← disk_of disks p;
  lba ← bl_ext_block_to_lba info block;
  block_size ← rd32 (info + ei_block_size);
  bl_storage_device_read disk data lba block_size 0.

Definition bl_ext4_get_first_extent_node (eheader : Z) : Z := u32 (eheader + 12).

(** ** Directories: the iteration only prints the extent header so far. *)
Definition bl_ext4_iterate_directory (name : Z) (directory : bool) (fdata node : Z) : M bl_status_t :=
  inode ← rd32 (fdata + efd_inode);
  magic ← rd16 (inode + inode_eheader + eheader_magic);
  bl_print_hex magic;;
  emit 10;;
  mret BL_STATUS_SUCCESS.

Definition bl_ext_iterate_directory_callback : callback_t := λ name directory tree node,
  info ← rd32 (tree + efd_info);
  type ← rd32 (info + ei_type);
  status ←
    (if type =? BL_EXT4_TYPE then
       bl_print_str name;;
       emit 10;;
       bl_ext4_iterate_directory name directory tree node
     else mret BL_STATUS_SUCCESS);
  if failed status then mret status else mret BL_STATUS_FAILURE.

(** ** Opening: [fs_of] is the driver that the handle points to, [p_fdata] the
    local [fdata]. *)
Definition bl_ext_open (disks : disk_table) (fs_of : Z → option bl_fs) (f : path_frame)
    (p_fdata handle path file : Z) : M bl_status_t :=
  root ← bl_heap_alloc sizeof_tree_node;
  if is_null root then mret BL_STATUS_MEMORY_ALLOCATION_FAILED
  else
    wr32 (root + node_fdata) NULL;;
    wr32 (root + node_prev) NULL;;
    d ← bl_heap_alloc sizeof_ext_file_data;
    wr32 (root + node_fdata) d;;
    if is_null d then mret BL_STATUS_MEMORY_ALLOCATION_FAILED
    else
      info ← rd32 (handle + handle_info);
      wr32 (d + efd_info) info;;
      inode ← bl_heap_alloc sizeof_ext_inode;
      if is_null inode then mret BL_STATUS_MEMORY_ALLOCATION_FAILED
      else
        status ← bl_ext_get_inode disks info 2 inode;
        if failed status then mret status
        else
          d ← rd32 (root + node_fdata);
          wr32 (d + efd_inode) inode;;
          fs ← rd32 (handle + handle_fs);
          status ← bl_file_iterate_path f (fs_of fs) path root
                     (Some bl_ext_iterate_directory_callback) p_fdata;
          if failed status then mret status
          else
            _file ← bl_heap_alloc sizeof_file;
            if is_null _file then mret BL_STATUS_MEMORY_ALLOCATION_FAILED
            else
              wr32 (_file + file_handle) handle;;
              fdata ← rd32 p_fdata;
              wr32 (_file + file_fdata) fdata;;
              wr32 file _file;;
              mret BL_STATUS_SUCCESS.

Definition bl_ext_close (somedata : Z) : M bl_status_t := mret BL_STATUS_SUCCESS.

(** ** Mounting: [sblock] is the local super block. *)
Definition ext_print_features (sblock : Z) : M () :=
  compat ← rd32 (sblock + sb_feature_compat);
  bl_print_hex compat;;
  emit 32;;
  incompat ← rd32 (sblock + sb_feature_incompat);
  bl_print_hex incompat;;
  emit 32;;
  ro_compat ← rd32 (sblock + sb_feature_ro_compat);
  bl_print_hex ro_compat;;
  emit 10.

(** The number of block groups, and the read of their descriptors from the block
    that follows the first one. *)
Definition ext_read_groups (disks : disk_table) (disk sblock partition info : Z) : M bl_status_t :=
  lba ← rd64 (partition + part_lba);
  wr64 (info + ei_lba) lba;;
  log_block_size ← rd32 (sblock + sb_log_block_size);
  let block_size := BL_EXT_BLOCK_SIZE log_block_size in
  wr32 (info + ei_block_size) block_size;;
  blocks_count ← rd32 (sblock + sb_blocks_count);
  wr32 (info + ei_blocks_count) blocks_count;;
  blocks_per_group ← rd32 (sblock + sb_blocks_per_group);
  wr32 (info + ei_blocks_per_group) blocks_per_group;;
  q ← udiv blocks_count blocks_per_group;
  r ← umod blocks_count blocks_per_group;
  let groups_count := u32 (q + b2z (0 <? r)) in
  wr32 (info + ei_groups_count) groups_count;;
  let size := u32 (groups_count * sizeof_group_descriptor) in
  groups ← bl_heap_alloc size;
  wr32 (info + ei_groups) groups;;
  if is_null groups then mret BL_STATUS_MEMORY_ALLOCATION_FAILED
  else
    d ← disk_of disks disk;
    lba ← rd64 (info + ei_lba);
    bl_storage_device_read d groups (u64 (lba + block_size / BL_STORAGE_SECTOR_SIZE)) size 0.

Definition bl_ext_check_ext (disks : disk_table) (sblock disk partition info : Z) : M bl_status_t :=
  wr32 (info + ei_disk) disk;;
  d ← disk_of disks disk;
  lba ← rd64 (partition + part_lba);
  status ← bl_storage_device_read d sblock
             (u64 (lba + BL_EXT_SUPER_BLOCK_OFFSET / BL_STORAGE_SECTOR_SIZE)) sizeof_super_block 0;
  if failed status then mret status
  else
    magic ← rd16 (sblock + sb_magic);
    inode_size ← rd16 (sblock + sb_inode_size);
    incompat ← rd32 (sblock + sb_feature_incompat);
    if negb (magic =? BL_EXT_MAGIC) then mret BL_STATUS_INVALID_FILE_SYSTEM
    else
      let go (type : Z) : M bl_status_t :=
        wr32 (info + ei_type) type;;
        status ← ext_read_groups disks disk sblock partition info;
        if failed status then mret status
        else
          wr16 (info + ei_inode_size) inode_size;;
          ipg ← rd32 (sblock + sb_inodes_per_group);
          wr32 (info + ei_inodes_per_group) ipg;;
          ext_print_features sblock;;
          mret BL_STATUS_SUCCESS in
      if inode_size =? 0x80 then go BL_EXT2_TYPE
      else if inode_size =? 0x100 then
        if Z.land incompat BL_EXT_FEATURE_INCOMPAT_EXTENTS =? 0 then mret BL_STATUS_UNSUPPORTED
        else go BL_EXT4_TYPE
      else mret BL_STATUS_INVALID_FILE_SYSTEM.

Definition bl_ext_mount (disks : disk_table) (sblock disk partition info : Z) : M bl_status_t :=
  _info ← bl_heap_alloc sizeof_ext_info;
  if is_null _info then mret BL_STATUS_MEMORY_ALLOCATION_FAILED
  else
    status ← bl_ext_check_ext disks sblock disk partition _info;
    if failed status then mret status
    else wr32 info _info;; mret BL_STATUS_SUCCESS.
