(* ===== verification/ExtProofs.v ===== *)
(** * Proofs about the ext driver: where inodes and blocks are read from. *)
From S2P Require Import Prelude Memory Arith Status Strings StringsProofs Heap HeapProofs HeapClient Storage.
From S2P Require Import StorageProofs PartitionProofs Tokens Print Fs Ext.

(** ** The mounted file system, as the driver keeps it in memory *)
Record ext_fs := ExtFs {
  x_disk : Z; x_lba : Z; x_block_size : Z; x_inode_size : Z; x_inodes_per_group : Z; x_groups : Z;
}.

Record ext_mounted (m : gmap Z Z) (info : Z) (x : ext_fs) : Prop := ExtMounted {
  xm_disk : ld 4 m (info + ei_disk) = x_disk x;
  xm_lba : ld 8 m (info + ei_lba) = x_lba x;
  xm_block_size : ld 4 m (info + ei_block_size) = x_block_size x;
  xm_inode_size : ld 2 m (info + ei_inode_size) = x_inode_size x;
  xm_inodes : ld 4 m (info + ei_inodes_per_group) = x_inodes_per_group x;
  xm_groups : ld 4 m (info + ei_groups) = x_groups x;
}.

(** The descriptor of group [g], the first block of its inode table. *)
Definition inode_table (m : gmap Z Z) (x : ext_fs) (g : Z) : Z :=
  ld 4 m (x_groups x + sizeof_group_descriptor * g + gd_inode_table).

(** Where inode [k] is on the disk, in bytes: the reference. *)
Definition inode_byte (m : gmap Z Z) (x : ext_fs) (k : Z) : Z :=
  512 * x_lba x + inode_table m x ((k - 1) / x_inodes_per_group x) * x_block_size x +
  x_inode_size x * ((k - 1) mod x_inodes_per_group x).

Lemma block_to_lba_run info x block s :
  ext_mounted (mem s) info x →
  bl_ext_block_to_lba info block s =
  Some (u32 (x_lba x + u32 (block * x_block_size x) / BL_STORAGE_SECTOR_SIZE), s).
Proof.
  intros [? Hl Hb ? ? ?]. apply wp_exact. unfold bl_ext_block_to_lba. wp_steps. by rewrite Hl, Hb.
Qed.

Lemma inode_table_offset_run info x k s :
  ext_mounted (mem s) info x → x_inodes_per_group x ≠ 0 →
  inode_table_offset info k s = Some (u32 (x_inode_size x * (u32 (k - 1) mod x_inodes_per_group x)), s).
Proof.
  intros [? ? ? Hsz Hn ?] Hne. apply wp_exact. unfold inode_table_offset, bl_ext_inode_index_block_group.
  wp_step. wp_step. wp_step. wp_step. wp_step. rewrite Hn. unfold umod.
  destruct (Z.eqb_spec (x_inodes_per_group x) 0); [done|]. wp_steps. by rewrite Hsz.
Qed.

(** The conditions under which the 32-bit arithmetic of the driver is exact. *)
Record ext_in_range (m : gmap Z Z) (x : ext_fs) (k : Z) : Prop := ExtInRange {
  xr_inode : 0 < k < 4294967296;
  xr_groups : 0 < x_inodes_per_group x ∧ 0 <= x_groups x ∧
    x_groups x + sizeof_group_descriptor * ((k - 1) / x_inodes_per_group x) < 4294967296;
  xr_size : 0 <= x_inode_size x ∧ x_inode_size x * ((k - 1) mod x_inodes_per_group x) < 4294967296;
  xr_block : 0 <= x_block_size x ∧ x_block_size x mod 512 = 0 ∧
    inode_table m x ((k - 1) / x_inodes_per_group x) * x_block_size x < 4294967296;
  xr_lba : 0 <= x_lba x ∧ inode_byte m x k / 512 < 4294967296;
}.

Lemma get_inode_run disks d info x k inode s :
  let m := mem s in
  ext_mounted m info x → ext_in_range m x k → disks (x_disk x) = Some d →
  bl_ext_get_inode disks info k inode s =
  bl_storage_device_read d inode (inode_byte m x k / 512) sizeof_ext_inode (inode_byte m x k mod 512) s.
Proof.
  intros m Hm [Hk (Hn & Hg & Hge) (Hz & Hze) (Hb & Hbm & Hbe) (Hl & Hle)] Hd. pose proof Hm as [Ex ? ? ? En Eg].
  set (g := (k - 1) / x_inodes_per_group x) in *. set (j := (k - 1) mod x_inodes_per_group x) in *.
  assert (Hj : 0 <= j) by (apply Z.mod_pos_bound; done). assert (Hg0 : 0 <= g) by (apply Z.div_pos; lia).
  set (t := inode_table m x g) in *. assert (Ht : 0 <= t) by (unfold t, inode_table; pose proof (ld4_range m (x_groups x + sizeof_group_descriptor * g + gd_inode_table)); lia).
  assert (Hbyte : inode_byte m x k = 512 * (x_lba x + t * x_block_size x / 512 + x_inode_size x * j / 512) +
      x_inode_size x * j mod 512).
  { unfold inode_byte. fold g j t. pose proof (Z.div_mod (x_inode_size x * j) 512 ltac:(lia)).
    assert (t * x_block_size x = 512 * (t * x_block_size x / 512)); [|lia].
    apply Z_div_exact_full_2; [lia|]. rewrite <- Z.mul_mod_idemp_r, Hbm, Z.mul_0_r by lia. done. }
  pose proof (Z.mod_pos_bound (x_inode_size x * j) 512 ltac:(lia)) as Hmod.
  assert (Hdiv : inode_byte m x k / 512 = x_lba x + t * x_block_size x / 512 + x_inode_size x * j / 512).
  { rewrite Hbyte. symmetry. apply (Z.div_unique_pos _ _ _ (x_inode_size x * j mod 512)); lia. }
  assert (Hrem : inode_byte m x k mod 512 = x_inode_size x * j mod 512).
  { rewrite Hbyte. symmetry. apply (Z.mod_unique_pos _ _ (x_lba x + t * x_block_size x / 512 + x_inode_size x * j / 512)); lia. }
  rewrite Hdiv in Hle. rewrite Hdiv, Hrem.
  assert (Hq : 0 <= t * x_block_size x / 512) by (apply Z.div_pos; nia).
  assert (Hq' : 0 <= x_inode_size x * j / 512) by (apply Z.div_pos; nia).
  unfold bl_ext_get_inode.
  assert (Hgroup : bl_ext_inode_block_group info k s = Some (g, s)).
  { apply wp_exact. unfold bl_ext_inode_block_group. wp_step. wp_step. fold m. rewrite En. unfold udiv.
    destruct (Z.eqb_spec (x_inodes_per_group x) 0); [lia|]. wp_step. by rewrite u32_small by lia. }
  run_with Hgroup. rewrite (bind_run _ _ (x_disk x) s s) by (unfold rd32, gets; fold m; by rewrite Ex).
  assert (Hdisk : disk_of disks (x_disk x) s = Some (d, s)) by (unfold disk_of; by rewrite Hd).
  run_with Hdisk. rewrite (bind_run _ _ (x_groups x) s s) by (unfold rd32, gets; fold m; by rewrite Eg).
  rewrite (bind_run _ _ t s s).
  2:{ unfold rd32, gets, t, inode_table. fold m. rewrite u32_small by (unfold sizeof_group_descriptor in *; lia). done. }
  pose proof (block_to_lba_run info x t s Hm) as Hlba. rewrite (u32_small (t * _)) in Hlba by nia.
  change BL_STORAGE_SECTOR_SIZE with 512 in Hlba. rewrite u32_small in Hlba by lia. run_with Hlba.
  pose proof (inode_table_offset_run info x k s Hm ltac:(lia)) as Hoff. rewrite (u32_small (k - 1)) in Hoff by lia.
  fold j in Hoff. rewrite u32_small in Hoff by nia.
  assert (Hsec : bl_ext_inode_offset_to_sectors info k s = Some (x_inode_size x * j / 512, s)).
  { unfold bl_ext_inode_offset_to_sectors. by run_with Hoff. }
  assert (Hso : bl_ext_inode_sector_offset info k s = Some (x_inode_size x * j mod 512, s)).
  { unfold bl_ext_inode_sector_offset. by run_with Hoff. }
  run_with Hsec. run_with Hso. by rewrite u32_small by lia.
Qed.

(** ** Properties *)

(** C23: on a mounted file system whose positions fit in 32 bits,
    [bl_ext_get_inode] reads exactly the 128 bytes of the inode: entry
    [(k - 1) mod inodes_per_group] of the inode table that the descriptor of
    group [(k - 1) / inodes_per_group] names. *)
Theorem ext_get_inode_correct disks d image sectors info x k inode s bs :
  let m := mem s in
  disk_reads d image sectors → heap_inv s bs → ext_mounted m info x → ext_in_range m x k → disks (x_disk x) = Some d →
  readable s bs sectors inode (inode_byte m x k / 512) sizeof_ext_inode (inode_byte m x k mod 512) →
  ∃ s' bs', bl_ext_get_inode disks info k inode s = Some (BL_STATUS_SUCCESS, s') ∧
    heap_step s bs s' bs' (cost (sector_round (inode_byte m x k mod 512 + sizeof_ext_inode)))
      (within inode sizeof_ext_inode) ∧
    ld_bytes (mem s') inode 128 = slice image (inode_byte m x k) sizeof_ext_inode.
Proof.
  intros m Hdisk Hinv Hm Hr Hd Hread. rewrite (get_inode_run disks d info x) by done. fold m.
  destruct (storage_read_run d image sectors s bs _ _ _ _ Hdisk Hinv Hread) as (s' & bs' & Hrun & Hstep & Hbytes).
  exists s', bs'. split; [done|]. split; [done|].
  rewrite <- (Z.div_mod (inode_byte m x k) 512) in Hbytes by lia. exact Hbytes.
Qed.

(** An ext file system at sector 2048 with 4 KiB blocks, mounted at 0x2000. *)
Definition example_ext : ext_fs := ExtFs 0x9000 2048 4096 256 8192 0x3000.
Definition example_ext_memory : gmap Z Z :=
  foldl (λ m '(a, v), st 4 m a v) ∅
    [(0x2000 + ei_disk, 0x9000); (0x2000 + ei_lba, 2048); (0x2000 + ei_block_size, 4096);
     (0x2000 + ei_inode_size, 256); (0x2000 + ei_inodes_per_group, 8192); (0x2000 + ei_groups, 0x3000);
     (0x3000 + gd_inode_table, 35)].

Lemma ext_get_inode_correct_witness :
  let image := λ a, a / 512 in
  let s := set_mem example_ext_memory low_machine in let m := mem s in let x := example_ext in
  ∃ s' bs', bl_ext_get_inode (λ _, Some (ram_disk image)) 0x2000 2 0x8000 s = Some (BL_STATUS_SUCCESS, s') ∧
    heap_step s [] s' bs' (cost (sector_round (inode_byte m x 2 mod 512 + sizeof_ext_inode)))
      (within 0x8000 sizeof_ext_inode) ∧
    ld_bytes (mem s') 0x8000 128 = slice image (inode_byte m x 2) sizeof_ext_inode.
Proof.
  intros image s m x.
  assert (E : inode_byte m x 2 = 1192192) by (by vm_compute).
  apply (ext_get_inode_correct (λ _, Some (ram_disk image)) (ram_disk image) image 4096).
  - apply ram_disk_reads.
  - by vm_compute.
  - split; by vm_compute.
  - split; by vm_compute.
  - done.
  - fold m. fold x. rewrite E.
    split; [by vm_compute|by vm_compute|by vm_compute|by vm_compute|by vm_compute|by vm_compute|by vm_compute|].
    split; [by vm_compute|]. intros y Hy. split; [unfold sizeof_ext_inode in Hy; lia|]. left.
    change (bl_heap s) with 0x100000. unfold sizeof_ext_inode in Hy. lia.
Defined.

(** the byte position of a block is computed in 32 bits: blocks that are
    4 GiB apart are read from the same sector, so that a file system larger than
    that cannot be read correctly. *)
Theorem ext_block_position_wraps info x block k s :
  ext_mounted (mem s) info x → 0 <= k <= 21 → x_block_size x = BL_EXT_BLOCK_SIZE k →
  bl_ext_block_to_lba info (block + 2 ^ (22 - k)) s = bl_ext_block_to_lba info block s.
Proof.
  intros Hm Hk Hb. rewrite !(block_to_lba_run info x) by done.
  assert (Hbs : x_block_size x = 2 ^ (10 + k)).
  { rewrite Hb. unfold BL_EXT_BLOCK_SIZE. rewrite Z.shiftl_mul_pow2, Z.pow_add_r by lia. apply u32_small.
    assert (2 ^ 0 <= 2 ^ k <= 2 ^ 21) as H by (split; apply Z.pow_le_mono_r; lia).
    change (2 ^ 0) with 1 in H. change (2 ^ 21) with 2097152 in H. lia. }
  assert (E : u32 ((block + 2 ^ (22 - k)) * x_block_size x) = u32 (block * x_block_size x)); [|by rewrite E].
  rewrite Hbs, Z.mul_add_distr_r, <- Z.pow_add_r by lia. replace (22 - k + (10 + k)) with 32 by lia.
  unfold u32. change (2 ^ 32) with (1 * 4294967296). by rewrite Z.mod_add.
Qed.

Lemma ext_block_position_wraps_witness :
  bl_ext_block_to_lba 0x2000 (7 + 2 ^ (22 - 2)) (set_mem example_ext_memory low_machine) =
  bl_ext_block_to_lba 0x2000 7 (set_mem example_ext_memory low_machine).
Proof. apply (ext_block_position_wraps 0x2000 example_ext 7 2); [split; by vm_compute|lia|done]. Defined.
