(* ===== verification/Ntfs.v ===== *)
(** * NTFS: modules/fs/ntfs/ntfs.c, ntfs.h

    The code under [#if 0] is not part of the program.  Records of the disk are
    read into heap blocks and used in place, without applying their update
    sequences. *)
From Stdlib Require Import String.
From S2P Require Import Prelude Memory Arith Status Strings Heap Storage PartitionTables Tokens Print Fs.
#[local] Open Scope Z_scope.

(** ** ntfs.h: offsets of the packed structures *)

(** [struct bl_ntfs_vbr]. *)
Definition sizeof_ntfs_vbr : Z := 512.
Definition vbr_oem : Z := 3.
Definition vbr_bytes_per_sector : Z := 11.
Definition vbr_sectors_per_cluster : Z := 13.
Definition vbr_mft_lcn : Z := 48.
Definition vbr_clusters_per_mft_record : Z := 64.
Definition vbr_signature : Z := 510.

Definition BL_NTFS_FILE_ROOT : Z := 5.
Definition MFT_RECORD (record : Z) : Z := Z.land record (Z.shiftl 1 48 - 1).

(** [struct bl_ntfs_mft_record]. *)
Definition mft_attributes_offset : Z := 20.

Definition BL_NTFS_ATTR_FILE_NAME : Z := 0x30.
Definition BL_NTFS_ATTR_INDEX_ROOT : Z := 0x90.
Definition BL_NTFS_ATTR_INDEX_ALLOCATION : Z := 0xa0.
Definition BL_NTFS_ATTR_END : Z := 0xffffffff.

(** [struct bl_ntfs_attribute_header]. *)
Definition at_type : Z := 0.
Definition at_total_size : Z := 4.
Definition at_nonresident_flag : Z := 8.
Definition at_name_length : Z := 9.
Definition at_attribute_offset : Z := 20.
Definition at_resident_name : Z := 24.
Definition at_data_run_offset : Z := 32.
Definition at_nonresident_name : Z := 64.

Definition BL_NTFS_FILE_FLAGS_SYSTEM : Z := 0x00000004.
Definition BL_NTFS_FILE_FLAGS_ARCHIVE : Z := 0x00000020.
Definition BL_NTFS_FILE_FLAGS_COMPRESSED : Z := 0x00000800.
Definition BL_NTFS_FILE_FLAGS_ENCRYPTED : Z := 0x00004000.
Definition BL_NTFS_FILE_FLAGS_DIRECTORY : Z := 0x10000000.

(** [struct bl_ntfs_file_name]. *)
Definition fn_creation_time : Z := 8.
Definition fn_flags : Z := 56.
Definition fn_filename_length : Z := 64.
Definition fn_filename : Z := 66.

Definition BL_NTFS_IS_DIRECTORY (filename : Z) : M Z :=
  flags ← rd32 (filename + fn_flags); mret (Z.land flags BL_NTFS_FILE_FLAGS_DIRECTORY).

(** [struct bl_ntfs_index_root], [struct bl_ntfs_index_header] and the node
    header in both. *)
Definition ir_attribute_type : Z := 0.
Definition ir_index_record_size : Z := 8.
Definition ir_node : Z := 16.
Definition ih_magic : Z := 0.
Definition ih_node : Z := 24.
Definition node_entries_offset : Z := 0.

(** [struct bl_ntfs_index_entry_descriptor]. *)
Definition BL_NTFS_INDEX_ENTRY_PARENT : Z := 0x1.
Definition BL_NTFS_INDEX_ENTRY_LAST_ENTRY : Z := 0x2.
Definition ie_undefined : Z := 0.
Definition ie_total_size : Z := 8.
Definition ie_flags : Z := 12.
Definition ie_data : Z := 16.

(** ** ntfs.c: [struct bl_ntfs_info], [struct bl_ntfs_file_data] *)
Definition sizeof_ntfs_info : Z := 40.
Definition ni_lba : Z := 0.
Definition ni_disk : Z := 8.
Definition ni_sector_size : Z := 12.
Definition ni_cluster_size : Z := 16.
Definition ni_mft_lba : Z := 20.
Definition ni_mft_record_size : Z := 28.
Definition ni_mft_root : Z := 32.
Definition ni_iroot : Z := 36.

Definition sizeof_ntfs_file_data : Z := 20.
Definition nfd_dir : Z := 0.
Definition nfd_iroot : Z := 4.
Definition nfd_rootdir : Z := 8.
Definition nfd_mft_record : Z := 12.
Definition nfd_info : Z := 16.

(** The addresses of the literals and of the locals that the code points to. *)
Record ntfs_frame := NtfsFrame {
  lit_oem : Z;                        (* the OEM name, 8 characters *)
  lit_i30 : Z;                        (* L"$I30" *)
  lit_indx : Z;                       (* "INDX" *)
  loc_s : Z;                          (* char s[2] of bl_ntfs_print_filename *)
  loc_secs : Z; loc_ns : Z; loc_days : Z; loc_hhmmss : Z;
  loc_q : Z; loc_r : Z;               (* the locals of bl_print_decimal64 *)
  loc_vbr : Z;
}.

(** A 64-bit shift by a computed amount, as the processor's: C leaves amounts
    outside 0 .. 63 undefined. *)
Definition shl64 (x n : Z) : Z := u64 (Z.shiftl x (n mod 64)).

Definition bl_ntfs_lcn_to_lba (info lcn : Z) : M Z :=
  lba ← rd64 (info + ni_lba);
  cluster_size ← rd32 (info + ni_cluster_size);
  sector_size ← rd16 (info + ni_sector_size);
  n ← udiv cluster_size sector_size;
  mret (u64 (lba + shl64 lcn (log2_shift n))).

Definition bl_ntfs_mft_record_lba (info record : Z) : M Z :=
  mft_lba ← rd64 (info + ni_mft_lba);
  mft_record_size ← rd16 (info + ni_mft_record_size);
  sector_size ← rd16 (info + ni_sector_size);
  n ← udiv mft_record_size sector_size;
  mret (u64 (mft_lba + shl64 (MFT_RECORD record) (log2_shift n))).

(** ** Attributes and entries *)
Definition bl_ntfs_attribute_first (mft_record : Z) : M Z :=
  o ← rd16 (mft_record + mft_attributes_offset); mret (u32 (mft_record + o)).

Definition bl_ntfs_attribute_next (attr : Z) : M Z :=
  size ← rd32 (attr + at_total_size); mret (u32 (attr + size)).

Definition bl_ntfs_attribute_end (attr : Z) : M bool :=
  type ← rd32 (attr + at_type); mret (type =? BL_NTFS_ATTR_END).

Definition bl_ntfs_get_resident_attribute (attr : Z) : M Z :=
  o ← rd16 (attr + at_attribute_offset); mret (u32 (attr + o)).

Definition bl_ntfs_get_child_vcn (entry : Z) : M Z :=
  size ← rd16 (entry + ie_total_size); rd64 (entry + size - 8).

Definition bl_ntfs_iroot_get_first_entry (iroot : Z) : M Z :=
  o ← rd32 (iroot + ir_node + node_entries_offset); mret (u32 (iroot + ir_node + o)).

Definition bl_ntfs_ialloc_get_first_entry (ialloc : Z) : M Z :=
  o ← rd32 (ialloc + ih_node + node_entries_offset); mret (u32 (ialloc + ih_node + o)).

Definition bl_ntfs_get_next_entry (entry : Z) : M Z :=
  size ← rd16 (entry + ie_total_size); mret (u32 (entry + size)).

(** The mask is an [int]: for lengths of 4 and more the shift is undefined in C,
    and taken here as the processor's, modulo 32. *)
Definition bl_ntfs_read_bytes (ptr length : Z) : M Z :=
  if (8 <? length) || (length =? 0) then mret (u64 (-1))
  else v ← rd64 ptr; mret (Z.land v (Z.shiftl 1 (8 * length mod 32) - 1)).

Definition bl_ntfs_print_filename (f : ntfs_frame) (filename : Z) : M () :=
  wr8 (loc_s f + 1) 0;;
  mwhile (λ i,
    length ← rd8 (filename + fn_filename_length);
    if i <? length then
      c ← rd16 (filename + fn_filename + 2 * i);
      wr8 (loc_s f) c;;
      bl_print_str (loc_s f);;
      continue (u8 (i + 1))
    else break ()) 0.

Definition bl_ntfs_strcmp (name filename : Z) : M Z :=
  length ← rd8 (filename + fn_filename_length);
  mwhile (λ '(i, length),
    c ← rds8 (name + i);
    w ← rd16 (filename + fn_filename + 2 * i);
    let d := bl_toupper c - bl_toupper (s8 w) in
    if d =? 0 then
      let length := u8 (length - 1) in
      if truth length then continue (i + 1, length) else break d
    else break d) (0, length).

Definition bl_ntfs_check_attribute_name (attr index : Z) : M bl_status_t :=
  name_length ← rd8 (attr + at_name_length);
  if name_length =? 0 then mret BL_STATUS_UNSUPPORTED
  else
    nonresident ← rd8 (attr + at_nonresident_flag);
    let name := if truth nonresident then u32 (attr + at_nonresident_name)
                else u32 (attr + at_resident_name) in
    c ← bl_wcsncmp index name name_length;
    mret (if c =? 0 then BL_STATUS_SUCCESS else BL_STATUS_FAILURE).

(** The runs of a nonresident attribute: from virtual to logical clusters. *)
Definition bl_ntfs_vcn_to_lcn (attr vcn : Z) : M Z :=
  let vcn := MFT_RECORD vcn in
  o ← rd16 (attr + at_data_run_offset);
  mwhile (λ '(run, cluster, offset),
    head ← rd8 run;
    if head =? 0 then break (u64 (-1))
    else
      let run_length := Z.land head 0x7 in
      let run_offset := Z.land (Z.shiftr head 4) 0x7 in
      length ← bl_ntfs_read_bytes (run + 1) run_length;
      let cluster := u64 (cluster + length) in
      delta ← bl_ntfs_read_bytes (run + 1 + run_length) run_offset;
      let offset := u64 (offset + delta) in
      if vcn <=? cluster then break (u64 (offset + vcn - (cluster - length)))
      else continue (u32 (run + (1 + run_length + run_offset)), cluster, offset))
    (u32 (attr + o), 0, 0).

Section Ntfs.
Context (disks : disk_table) (f : ntfs_frame).

Definition ntfs_disk (info : Z) : M bl_storage_device :=
  p ← rd32 (info + ni_disk); disk_of disks p.

Definition index_record_size (info : Z) : M Z :=
  iroot ← rd32 (info + ni_iroot); rd32 (iroot + ir_index_record_size).

Definition free_index (info index : Z) : M () :=
  size ← index_record_size info; bl_heap_free index size.

(** [data] points to a [struct bl_ntfs_index_allocation_info]: a virtual cluster
    and the file system's information. *)
Definition bl_ntfs_get_index_allocation (attr : Z) (data : option (Z * Z)) : M Z :=
  status ← bl_ntfs_check_attribute_name attr (lit_i30 f);
  if failed status then mret NULL
  else
    match data with
    | None => mret NULL
    | Some (vcn, info) =>
        lcn ← bl_ntfs_vcn_to_lcn attr vcn;
        size ← index_record_size info;
        index ← bl_heap_alloc size;
        if is_null index then mret NULL
        else
          disk ← ntfs_disk info;
          lba ← bl_ntfs_lcn_to_lba info lcn;
          size ← index_record_size info;
          status ← bl_storage_device_read disk index lba size 0;
          if failed status then free_index info index;; mret NULL
          else
            c ← bl_memcmp (lit_indx f) (index + ih_magic) 4;
            if truth c then free_index info index;; mret NULL
            else mret index
    end.

Definition bl_ntfs_get_index_root (attr : Z) : M Z :=
  status ← bl_ntfs_check_attribute_name attr (lit_i30 f);
  if failed status then mret NULL else bl_ntfs_get_resident_attribute attr.

Definition bl_ntfs_get_filename (attr : Z) : M Z := bl_ntfs_get_resident_attribute attr.

(** The first attribute of the type, as far as the type is known. *)
Definition bl_ntfs_get_mft_record_attribute (mft_record type : Z) (data : option (Z * Z)) : M Z :=
  attr ← bl_ntfs_attribute_first mft_record;
  mwhile (λ attr,
    last ← bl_ntfs_attribute_end attr;
    if last : bool then break NULL
    else
      t ← rd32 (attr + at_type);
      if negb (t =? type) then next ← bl_ntfs_attribute_next attr; continue next
      else
        nonresident ← rd8 (attr + at_nonresident_flag);
        if truth nonresident then
          if t =? BL_NTFS_ATTR_INDEX_ALLOCATION then
            p ← bl_ntfs_get_index_allocation attr data; break p
          else break NULL
        else
          if t =? BL_NTFS_ATTR_FILE_NAME then p ← bl_ntfs_get_filename attr; break p
          else if t =? BL_NTFS_ATTR_INDEX_ROOT then p ← bl_ntfs_get_index_root attr; break p
          else break NULL) attr.

Definition bl_ntfs_read_mft (info mft_record record : Z) : M bl_status_t :=
  disk ← ntfs_disk info;
  lba ← bl_ntfs_mft_record_lba info record;
  size ← rd16 (info + ni_mft_record_size);
  bl_storage_device_read disk mft_record lba size 0.

Definition bl_ntfs_read_child_node (entry mft_dir info : Z) : M Z :=
  flags ← rd8 (entry + ie_flags);
  if Z.land flags BL_NTFS_INDEX_ENTRY_PARENT =? 0 then mret NULL
  else
    vcn ← bl_ntfs_get_child_vcn entry;
    bl_ntfs_get_mft_record_attribute mft_dir BL_NTFS_ATTR_INDEX_ALLOCATION (Some (vcn, info)).

(** ** Looking a name up in a directory's B-tree *)

(** The label [_exit].  The record [mft_next] is freed on every path. *)
Definition ntfs_exit (info _node mft_next index : Z) (status : bl_status_t) : M bl_status_t :=
  (if is_null _node then mret ()
   else
     fdata ← rd32 (_node + node_fdata);
     (if is_null fdata then mret () else bl_heap_free fdata sizeof_ntfs_file_data);;
     bl_heap_free _node sizeof_tree_node);;
  (if is_null mft_next then mret ()
   else size ← rd16 (info + ni_mft_record_size); bl_heap_free mft_next size);;
  (if is_null index then mret () else free_index info index);;
  mret status.

(** Behind the loop. *)
Definition ntfs_finish (name info node mft_next index : Z) : M bl_status_t :=
  n ← rd32 node;
  if truth n then ntfs_exit info NULL mft_next index BL_STATUS_SUCCESS
  else
    bl_print_str name;;
    print_literal " - File not found";; emit 10;;
    ntfs_exit info NULL mft_next index BL_STATUS_FILE_NOT_FOUND.

(** Behind the label [_match]: the record of the entry that was found, for the
    new node. *)
Definition ntfs_fill_node (name info node _node fdata entry index : Z) : M bl_status_t :=
  let filename := u32 (entry + ie_data) in
  size ← rd16 (info + ni_mft_record_size);
  mft_dir_next ← bl_heap_alloc size;
  if is_null mft_dir_next then ntfs_exit info _node NULL index BL_STATUS_MEMORY_ALLOCATION_FAILED
  else
    record ← rd64 (entry + ie_undefined);
    status ← bl_ntfs_read_mft info mft_dir_next record;
    if failed status then ntfs_exit info _node mft_dir_next index status
    else
      wr32 (fdata + nfd_mft_record) mft_dir_next;;
      is_dir ← BL_NTFS_IS_DIRECTORY filename;
      (if truth is_dir then
         iroot ← bl_ntfs_get_mft_record_attribute mft_dir_next BL_NTFS_ATTR_INDEX_ROOT None;
         wr32 (fdata + nfd_iroot) iroot
       else mret ());;
      wr32 (fdata + nfd_info) info;;
      wr32 node _node;;
      ntfs_finish name info node mft_dir_next index.

(** The label [_match]: the node of the entry that was found. *)
Definition ntfs_match (name : Z) (directory : bool) (info node entry index : Z) : M bl_status_t :=
  let filename := u32 (entry + ie_data) in
  is_dir ← BL_NTFS_IS_DIRECTORY filename;
  if directory && negb (truth is_dir) then ntfs_exit info NULL NULL index BL_STATUS_INVALID_FILE_TYPE
  else
    _node ← bl_heap_alloc sizeof_tree_node;
    if is_null _node then ntfs_exit info NULL NULL index BL_STATUS_MEMORY_ALLOCATION_FAILED
    else
      wr32 (_node + node_prev) NULL;;
      fdata ← bl_heap_alloc sizeof_ntfs_file_data;
      wr32 (_node + node_fdata) fdata;;
      if is_null fdata then ntfs_exit info _node NULL index BL_STATUS_MEMORY_ALLOCATION_FAILED
      else
        is_dir ← BL_NTFS_IS_DIRECTORY filename;
        wr32 (fdata + nfd_dir) is_dir;;
        wr32 (fdata + nfd_rootdir) 0;;
        ntfs_fill_node name info node _node fdata entry index.

(** One round of the loop: whether an entry was found, the entry, the index
    block it is in. *)
Definition ntfs_descend (mft_dir info entry index : Z) : M ((Z * Z) + (bool * Z * Z)) :=
  child ← bl_ntfs_read_child_node entry mft_dir info;
  if is_null child then break (false, entry, NULL)
  else
    (if is_null index then mret () else free_index info index);;
    first ← bl_ntfs_ialloc_get_first_entry child;
    continue (first, child).

Definition ntfs_search (name mft_dir info entry : Z) : M (bool * Z * Z) :=
  mwhile (λ '(entry, index),
    flags ← rd8 (entry + ie_flags);
    let parent := truth (Z.land flags BL_NTFS_INDEX_ENTRY_PARENT) in
    let last := truth (Z.land flags BL_NTFS_INDEX_ENTRY_LAST_ENTRY) in
    if parent && last then ntfs_descend mft_dir info entry index
    else if last then break (false, entry, index)
    else
      res ← bl_ntfs_strcmp name (u32 (entry + ie_data));
      if parent && (res <? 0) then ntfs_descend mft_dir info entry index
      else if res =? 0 then break (true, entry, index)
      else next ← bl_ntfs_get_next_entry entry; continue (next, index)) (entry, NULL).

Definition bl_ntfs_iterate_directory_callback : callback_t := λ name directory btree node,
  wr32 node NULL;;
  info ← rd32 (btree + nfd_info);
  dir ← rd32 (btree + nfd_dir);
  if negb (truth dir) then mret BL_STATUS_INVALID_FILE_TYPE
  else
    mft_dir ← rd32 (btree + nfd_mft_record);
    iroot ← rd32 (btree + nfd_iroot);
    entry ← bl_ntfs_iroot_get_first_entry iroot;
    '(found, entry, index) ← ntfs_search name mft_dir info entry;
    if found : bool then ntfs_match name directory info node entry index
    else ntfs_finish name info node NULL index.

(** ** Opening and closing: [p_fdata] is the local [fdata]. *)
Definition bl_ntfs_open (fs_of : Z → option bl_fs) (pf : path_frame) (p_fdata handle path file : Z) :
    M bl_status_t :=
  root ← bl_heap_alloc sizeof_tree_node;
  if is_null root then mret BL_STATUS_MEMORY_ALLOCATION_FAILED
  else
    wr32 (root + node_fdata) NULL;;
    wr32 (root + node_prev) NULL;;
    d ← bl_heap_alloc sizeof_ntfs_file_data;
    wr32 (root + node_fdata) d;;
    if is_null d then mret BL_STATUS_MEMORY_ALLOCATION_FAILED
    else
      wr32 (d + nfd_dir) 1;;
      wr32 (d + nfd_rootdir) 1;;
      info ← rd32 (handle + handle_info);
      mft_root ← rd32 (info + ni_mft_root);
      wr32 (d + nfd_mft_record) mft_root;;
      iroot ← rd32 (info + ni_iroot);
      wr32 (d + nfd_iroot) iroot;;
      wr32 (d + nfd_info) info;;
      fs ← rd32 (handle + handle_fs);
      status ← bl_file_iterate_path pf (fs_of fs) path root
                 (Some bl_ntfs_iterate_directory_callback) p_fdata;
      if failed status then mret status
      else
        _file ← bl_heap_alloc sizeof_file;
        if is_null _file then mret BL_STATUS_MEMORY_ALLOCATION_FAILED
        else
          wr32 (_file + file_handle) handle;;
          fdata ← rd32 p_fdata;
          wr32 (_file + file_fdata) fdata;;
          wr32 file _file;;
          mret BL_STATUS_SUCCESS.

Definition bl_ntfs_close (btree : Z) : M bl_status_t :=
  if is_null btree then mret BL_STATUS_INVALID_PARAMETERS
  else
    rootdir ← rd32 (btree + nfd_rootdir);
    (if truth rootdir then mret ()
     else
       mft_record ← rd32 (btree + nfd_mft_record);
       info ← rd32 (btree + nfd_info);
       size ← rd16 (info + ni_mft_record_size);
       bl_heap_free mft_record size);;
    bl_memset btree 0 sizeof_ntfs_file_data;;
    mret BL_STATUS_SUCCESS.

(** ** Listing *)
Definition dump_flag (flags bit : Z) (name : string) : M () :=
  when (truth (Z.land flags bit)) (print_literal name).

Definition bl_ntfs_dump_file_type (filename : Z) : M () :=
  flags ← rd32 (filename + fn_flags);
  dump_flag flags BL_NTFS_FILE_FLAGS_SYSTEM " SYSTEM ";;
  dump_flag flags BL_NTFS_FILE_FLAGS_ARCHIVE " ARCHIVE ";;
  dump_flag flags BL_NTFS_FILE_FLAGS_COMPRESSED " COMPRESSED ";;
  dump_flag flags BL_NTFS_FILE_FLAGS_ENCRYPTED " ENCRYPTED ";;
  dump_flag flags BL_NTFS_FILE_FLAGS_DIRECTORY " DIRECTORY ".

Definition IS_LEAP_YEAR (yy : Z) : bool :=
  ((yy mod 4 =? 0) && negb (yy mod 100 =? 0)) || (yy mod 400 =? 0).
Definition year_lengths (leap : bool) : Z := if leap then 366 else 365.
Definition month_lengths (leap : bool) : list Z :=
  [31; if leap then 29 else 28; 31; 30; 31; 30; 31; 31; 30; 31; 30; 31].

(** The year of day [days], and the days up to its end. *)
Definition ntfs_year (days : Z) : M (Z * Z) :=
  mwhile (λ '(yy, d),
    let d := u64 (d + year_lengths (IS_LEAP_YEAR yy)) in
    if days <? d then break (yy, d) else continue (u32 (yy + 1), d)) (1601, 0).

(** The month and the day that the loop prints for [left] days to the end of the
    year, if it prints any. *)
Fixpoint ntfs_month (lengths : list Z) (previous mmdd i left : Z) : option (Z * Z) :=
  match lengths with
  | [] => None
  | length :: rest =>
      if left <=? mmdd then Some (u32 (i + 1), u32 (left - (mmdd - previous)))
      else ntfs_month rest length (mmdd + length) (i + 1) left
  end.

Definition bl_ntfs_dump_file_time (time : Z) : M () :=
  bl_divmod64 time 10000000 (loc_secs f) (loc_ns f);;
  secs ← rd64 (loc_secs f);
  bl_divmod64 secs 86400 (loc_days f) (loc_hhmmss f);;
  days ← rd64 (loc_days f);
  '(yy, d) ← ntfs_year days;
  bl_print_decimal yy;;
  print_literal "/";;
  match ntfs_month (month_lengths (IS_LEAP_YEAR yy)) 0 0 0 (u32 (d - days)) with
  | Some (month, day) =>
      bl_print_decimal month;; print_literal "/";; bl_print_decimal day;; print_literal ","
  | None => mret ()
  end;;
  hhmmss ← rd64 (loc_hhmmss f);
  let hhmmss := u32 hhmmss in
  bl_print_decimal (hhmmss / 3600);;
  print_literal ":";;
  bl_print_decimal (hhmmss mod 3600 / 60);;
  print_literal ":";;
  bl_print_decimal (hhmmss mod 60);;
  print_literal ".";;
  ns ← rd64 (loc_ns f);
  bl_print_decimal64 (loc_q f) (loc_r f) ns.

Definition bl_ntfs_dump_file_info (filename : Z) : M () :=
  print_literal "[-] ";;
  bl_ntfs_print_filename f filename;;
  bl_ntfs_dump_file_type filename;;
  print_literal "C: ";;
  t ← rd64 (filename + fn_creation_time);
  bl_ntfs_dump_file_time t;;
  emit 10.

(** The recursive call is the last thing that the function does, with a new
    local [index]: it goes round the loop again.  An index block is never freed. *)
Definition bl_ntfs_b_tree_recursion (mft_dir info entry : Z) : M () :=
  mwhile (λ entry,
    flags ← rd8 (entry + ie_flags);
    if truth (Z.land flags BL_NTFS_INDEX_ENTRY_PARENT) then
      index ← bl_ntfs_read_child_node entry mft_dir info;
      if is_null index then break ()
      else first ← bl_ntfs_ialloc_get_first_entry index; continue first
    else if truth (Z.land flags BL_NTFS_INDEX_ENTRY_LAST_ENTRY) then break ()
    else
      bl_ntfs_dump_file_info (u32 (entry + ie_data));;
      next ← bl_ntfs_get_next_entry entry;
      continue next) entry.

Definition bl_ntfs_ls (btree : Z) : M bl_status_t :=
  if is_null btree then mret BL_STATUS_INVALID_PARAMETERS
  else
    info ← rd32 (btree + nfd_info);
    dir ← rd32 (btree + nfd_dir);
    mft_record ← rd32 (btree + nfd_mft_record);
    (if truth dir then
       iroot ← rd32 (btree + nfd_iroot);
       entry ← bl_ntfs_iroot_get_first_entry iroot;
       bl_ntfs_b_tree_recursion mft_record info entry
     else
       filename ← bl_ntfs_get_mft_record_attribute mft_record BL_NTFS_ATTR_FILE_NAME None;
       bl_ntfs_dump_file_info filename);;
    mret BL_STATUS_SUCCESS.

(** ** Mounting *)
Definition ntfs_fill_info (partition info : Z) : M () :=
  lba ← rd64 (partition + part_lba);
  wr64 (info + ni_lba) lba;;
  sector_size ← rd16 (loc_vbr f + vbr_bytes_per_sector);
  wr16 (info + ni_sector_size) sector_size;;
  sectors_per_cluster ← rd8 (loc_vbr f + vbr_sectors_per_cluster);
  wr32 (info + ni_cluster_size) (sectors_per_cluster * sector_size);;
  mft_lcn ← rd64 (loc_vbr f + vbr_mft_lcn);
  mft_lba ← bl_ntfs_lcn_to_lba info mft_lcn;
  wr64 (info + ni_mft_lba) mft_lba;;
  clusters ← rds8 (loc_vbr f + vbr_clusters_per_mft_record);
  cluster_size ← rd32 (info + ni_cluster_size);
  (* a shift by 32 and more is undefined; the processor's is taken *)
  wr16 (info + ni_mft_record_size)
    (if 0 <? clusters then clusters * cluster_size else Z.shiftl 1 (- clusters mod 32)).

Definition bl_ntfs_check_ntfs (disk partition info : Z) : M bl_status_t :=
  wr32 (info + ni_disk) disk;;
  d ← ntfs_disk info;
  lba ← rd64 (partition + part_lba);
  status ← bl_storage_device_read d (loc_vbr f) lba sizeof_ntfs_vbr 0;
  if failed status then mret status
  else
    c ← bl_memcmp (loc_vbr f + vbr_oem) (lit_oem f) 8;
    signature ← rd16 (loc_vbr f + vbr_signature);
    bytes_per_sector ← rd16 (loc_vbr f + vbr_bytes_per_sector);
    sectors_per_cluster ← rd8 (loc_vbr f + vbr_sectors_per_cluster);
    if truth c || negb (signature =? BL_MBR_SIGNATURE) || (log2_shift bytes_per_sector =? -1) ||
       (log2_shift sectors_per_cluster =? -1)
    then mret BL_STATUS_INVALID_FILE_SYSTEM
    else
      ntfs_fill_info partition info;;
      size ← rd16 (info + ni_mft_record_size);
      mft_root ← bl_heap_alloc size;
      wr32 (info + ni_mft_root) mft_root;;
      if is_null mft_root then mret BL_STATUS_MEMORY_ALLOCATION_FAILED
      else
        status ← bl_ntfs_read_mft info mft_root BL_NTFS_FILE_ROOT;
        if failed status then mret status
        else
          iroot ← bl_ntfs_get_mft_record_attribute mft_root BL_NTFS_ATTR_INDEX_ROOT None;
          wr32 (info + ni_iroot) iroot;;
          if is_null iroot then mret BL_STATUS_UNSUPPORTED
          else
            type ← rd32 (iroot + ir_attribute_type);
            mret (if negb (type =? BL_NTFS_ATTR_FILE_NAME) then BL_STATUS_UNSUPPORTED
                  else BL_STATUS_SUCCESS).

Definition bl_ntfs_mount (disk partition info : Z) : M bl_status_t :=
  _info ← bl_heap_alloc sizeof_ntfs_info;
  if is_null _info then mret BL_STATUS_MEMORY_ALLOCATION_FAILED
  else
    status ← bl_ntfs_check_ntfs disk partition _info;
    if failed status then mret status
    else wr32 info _info;; mret BL_STATUS_SUCCESS.

Definition bl_ntfs_umount (info : Z) : M bl_status_t :=
  if is_null info then mret BL_STATUS_INVALID_PARAMETERS
  else
    mft_root ← rd32 (info + ni_mft_root);
    (if is_null mft_root then mret ()
     else size ← rd16 (info + ni_mft_record_size); bl_heap_free mft_root size);;
    bl_memset info 0 sizeof_ntfs_info;;
    mret BL_STATUS_SUCCESS.

(** The static [bl_ntfs_fs], at address [addr], and [BL_MODULE_INIT]. *)
Definition bl_ntfs_fs (addr : Z) (fs_of : Z → option bl_fs) (pf : path_frame) (p_fdata : Z) : bl_fs :=
  Fs addr (Some bl_ntfs_mount) (Some bl_ntfs_umount) (Some (bl_ntfs_open fs_of pf p_fdata))
    (Some bl_ntfs_close) (Some bl_ntfs_ls).

Definition ntfs_module_init (addr : Z) (fs_of : Z → option bl_fs) (pf : path_frame) (p_fdata : Z)
    (l : list bl_fs) : list bl_fs := bl_fs_register (bl_ntfs_fs addr fs_of pf p_fdata) l.
End Ntfs.
