(* ===== verification/NtfsProofs.v ===== *)
(** * Proofs about NTFS: the decoding of runs and the comparison of names *)
From S2P Require Import Prelude Memory Arith Status Strings StringsProofs Heap Storage Tokens Print Fs Ntfs.

(** ** Run lists

    A nonresident attribute ends in pairs of a length and a signed offset from
    the previous run's first cluster, each with its width in bytes; a zero byte
    ends the list. *)
Record data_run := DataRun { run_len : Z; run_delta : Z; len_width : nat; delta_width : nat }.

Definition run_ok (r : data_run) : Prop :=
  (1 <= len_width r <= 3)%nat ∧ (1 <= delta_width r <= 3)%nat ∧
  1 <= run_len r < 256 ^ Z.of_nat (len_width r) ∧
  - 256 ^ Z.of_nat (delta_width r) <= 2 * run_delta r < 256 ^ Z.of_nat (delta_width r).

Definition run_bytes (r : data_run) : list Z :=
  (Z.of_nat (len_width r) + 16 * Z.of_nat (delta_width r)) ::
  le_split (len_width r) (run_len r) ++ le_split (delta_width r) (run_delta r).
Definition run_size (r : data_run) : Z := 1 + Z.of_nat (len_width r) + Z.of_nat (delta_width r).

Fixpoint runs_at (m : gmap Z Z) (p : Z) (rs : list data_run) : Prop :=
  match rs with
  | [] => ld8 m p = 0
  | r :: rest => run_ok r ∧ ld_bytes m p (Z.to_nat (run_size r)) = run_bytes r ∧ runs_at m (p + run_size r) rest
  end.
Definition runs_size (rs : list data_run) : Z := foldr (λ r n, run_size r + n) 1 rs.

(** The reference: the runs follow each other in virtual clusters; each starts
    where its offset says. *)
Fixpoint lcn_from (rs : list data_run) (start base vcn : Z) : option Z :=
  match rs with
  | [] => None
  | r :: rest =>
      let base := base + run_delta r in
      if vcn <? start + run_len r then Some (base + (vcn - start))
      else lcn_from rest (start + run_len r) base vcn
  end.
Definition lcn_of (rs : list data_run) (vcn : Z) : option Z := lcn_from rs 0 0 vcn.

Definition clusters (rs : list data_run) : Z := foldr (λ r n, run_len r + n) 0 rs.
Definition deltas (rs : list data_run) : Z := foldr (λ r n, run_delta r + n) 0 rs.

(** What the driver reads of a run: it does not extend the sign of the offset. *)
Definition read_run (r : data_run) : data_run :=
  DataRun (run_len r) (run_delta r mod 256 ^ Z.of_nat (delta_width r)) (len_width r) (delta_width r).

(** What is added so up to the run of [vcn]: a whole range of the field for each
    run that goes backward. *)
Definition excess (r : data_run) : Z := if run_delta r <? 0 then 256 ^ Z.of_nat (delta_width r) else 0.
Fixpoint surplus_from (rs : list data_run) (start vcn : Z) : Z :=
  match rs with
  | [] => 0
  | r :: rest => excess r + if vcn <? start + run_len r then 0 else surplus_from rest (start + run_len r) vcn
  end.
Definition surplus (rs : list data_run) (vcn : Z) : Z := surplus_from rs 0 vcn.

(** The first clusters of the runs but the first one. *)
Fixpoint starts_from (rs : list data_run) (start : Z) : list Z :=
  match rs with
  | [] | [_] => []
  | r :: rest => (start + run_len r) :: starts_from rest (start + run_len r)
  end.
Definition later_starts (rs : list data_run) : list Z := starts_from rs 0.

(** ** Reading the fields *)
Lemma read_bytes_run p k s :
  1 <= k <= 3 →
  bl_ntfs_read_bytes p k s = Some (le_combine (ld_bytes (mem s) p (Z.to_nat k)), s).
Proof.
  intros Hk. unfold bl_ntfs_read_bytes. destruct (Z.ltb_spec 8 k); [lia|]. destruct (Z.eqb_spec k 0); [lia|].
  cbn [orb]. unfold rd64, gets, mbind, ST_bind, mret, ST_ret. do 2 f_equal. rewrite Z.mod_small by lia.
  replace (Z.shiftl 1 (8 * k) - 1) with (Z.ones (8 * k)) by (unfold Z.ones; lia).
  rewrite Z.land_ones by lia. unfold ld.
  replace 8%nat with (Z.to_nat k + (8 - Z.to_nat k))%nat by lia.
  rewrite ld_bytes_app, le_combine_app, length_ld_bytes, Z2Nat.id by lia.
  rewrite Z.pow_mul_r by lia. change (2 ^ 8) with 256.
  rewrite Z.mul_comm, Z_mod_plus_full, Z.mod_small; [done|].
  pose proof (le_combine_range (ld_bytes (mem s) p (Z.to_nat k))) as Hr.
  by rewrite length_ld_bytes, Z2Nat.id in Hr by lia.
Qed.

Lemma run_fields m p r :
  run_ok r → ld_bytes m p (Z.to_nat (run_size r)) = run_bytes r →
  ld8 m p = Z.of_nat (len_width r) + 16 * Z.of_nat (delta_width r) ∧
  le_combine (ld_bytes m (p + 1) (len_width r)) = run_len r ∧
  le_combine (ld_bytes m (p + 1 + Z.of_nat (len_width r)) (delta_width r)) = run_delta (read_run r).
Proof.
  intros (Hl & Hd & Hlen & Hdel) H. unfold run_size, run_bytes in H.
  replace (Z.to_nat (1 + Z.of_nat (len_width r) + Z.of_nat (delta_width r)))
    with (S (len_width r + delta_width r)) in H by lia.
  cbn [ld_bytes] in H. injection H as Hh H. split; [done|].
  rewrite ld_bytes_app in H. apply app_inj_1 in H as [-> ->]; [|by rewrite length_ld_bytes, length_le_split].
  rewrite !le_combine_split, (Z.mod_small (run_len r)) by lia. done.
Qed.

Lemma head_fields a b : (1 <= a <= 3)%nat → (1 <= b <= 3)%nat →
  let h := Z.of_nat a + 16 * Z.of_nat b in
  h ≠ 0 ∧ Z.land h 0x7 = Z.of_nat a ∧ Z.land (Z.shiftr h 4) 0x7 = Z.of_nat b.
Proof.
  intros Ha Hb. assert (a = 1 ∨ a = 2 ∨ a = 3)%nat as [-> | [-> | ->]] by lia;
    assert (b = 1 ∨ b = 2 ∨ b = 3)%nat as [-> | [-> | ->]] by lia; by vm_compute.
Qed.

(** ** The loop

    It leaves at the first run with [vcn <= cluster]: one cluster later than the
    reference. *)
Fixpoint lcn_loop (rs : list data_run) (cluster offset vcn : Z) : option Z :=
  match rs with
  | [] => None
  | r :: rest =>
      if vcn <=? cluster + run_len r then Some (offset + run_delta r + (vcn - cluster))
      else lcn_loop rest (cluster + run_len r) (offset + run_delta r) vcn
  end.

Lemma lcn_loop_pred rs cl off vcn :
  lcn_loop rs cl off vcn = (λ l, l + 1) <$> lcn_from rs cl off (vcn - 1).
Proof.
  revert cl off. induction rs as [|r rs IH]; intros cl off; simpl; [done|].
  destruct (Z.leb_spec vcn (cl + run_len r)), (Z.ltb_spec (vcn - 1) (cl + run_len r)); try lia.
  - simpl. f_equal. lia.
  - apply IH.
Qed.

Lemma runs_size_pos rs : Forall run_ok rs → 0 < runs_size rs.
Proof. induction 1 as [|r rs Hr H IH]; simpl; [lia|]. unfold run_size. lia. Qed.

Lemma runs_at_ok m p rs : runs_at m p rs → Forall run_ok rs.
Proof. revert p. induction rs as [|r rs IH]; intros p; simpl; [by constructor|]. intros (? & _ & ?). constructor; eauto. Qed.

(** Runs that are not empty. *)
Definition some_clusters (r : data_run) : Prop := 1 <= run_len r.
Lemma runs_ok_some rs : Forall run_ok rs → Forall some_clusters rs.
Proof. intros H. eapply Forall_impl; [exact H|]. by intros r (_ & _ & [? _] & _). Qed.
Lemma clusters_nonneg rs : Forall some_clusters rs → 0 <= clusters rs.
Proof. unfold some_clusters. induction 1 as [|r rs ? H IH]; simpl; lia. Qed.

(** The runs as they are read. *)
Lemma read_delta_nonneg r : 0 <= run_delta (read_run r).
Proof. apply Z.mod_pos_bound. lia. Qed.
Lemma read_deltas_nonneg rs : 0 <= deltas (read_run <$> rs).
Proof.
  induction rs as [|r rs IH]; [done|]. pose proof (read_delta_nonneg r). cbn [fmap list_fmap deltas foldr].
  fold (deltas (read_run <$> rs)). lia.
Qed.
Lemma read_clusters rs : clusters (read_run <$> rs) = clusters rs.
Proof. unfold clusters. induction rs as [|r rs IH]; [done|]. cbn in *. by rewrite IH. Qed.
Lemma read_starts rs start : starts_from (read_run <$> rs) start = starts_from rs start.
Proof.
  revert start. induction rs as [|r [|r' rs] IH]; intros start; [done..|]. cbn in *. f_equal. apply IH.
Qed.
Lemma read_some rs : Forall some_clusters rs → Forall some_clusters (read_run <$> rs).
Proof. intros H. by apply Forall_fmap. Qed.

Lemma read_delta r : run_ok r → run_delta (read_run r) = run_delta r + excess r.
Proof.
  intros (_ & _ & _ & Hd). cbn [read_run run_delta]. unfold excess. destruct (Z.ltb_spec (run_delta r) 0).
  - rewrite <- (Z_mod_plus_full _ 1), Z.mod_small; lia.
  - rewrite Z.mod_small; lia.
Qed.

Lemma lcn_from_read rs start base k vcn :
  Forall run_ok rs →
  lcn_from (read_run <$> rs) start (base + k) vcn = (λ l, l + (k + surplus_from rs start vcn)) <$> lcn_from rs start base vcn.
Proof.
  intros H. revert start base k. induction H as [|r rs Hr H IH]; intros start base k; [done|].
  cbn [fmap list_fmap lcn_from surplus_from]. rewrite (read_delta r Hr). change (run_len (read_run r)) with (run_len r).
  destruct (Z.ltb_spec vcn (start + run_len r)).
  - cbn [fmap option_fmap option_map]. f_equal. lia.
  - replace (base + k + (run_delta r + excess r)) with (base + run_delta r + (k + excess r)) by lia. rewrite IH.
    destruct (lcn_from rs (start + run_len r) (base + run_delta r) vcn); [|done]. cbn [fmap option_fmap option_map]. f_equal. lia.
Qed.
Lemma lcn_of_read rs vcn : Forall run_ok rs → lcn_of (read_run <$> rs) vcn = (λ l, l + surplus rs vcn) <$> lcn_of rs vcn.
Proof. intros H. apply (lcn_from_read rs 0 0 0 vcn H). Qed.

Definition two48 : Z := 281474976710656.

Lemma vcn_to_lcn_run attr vcn rs s :
  let p := attr + ld 2 (mem s) (attr + at_data_run_offset) in
  0 <= attr → 0 <= vcn < two48 → runs_at (mem s) p rs → p + runs_size rs <= 4294967296 →
  clusters rs < two48 → deltas (read_run <$> rs) < two48 →
  bl_ntfs_vcn_to_lcn attr vcn s =
  Some (match lcn_loop (read_run <$> rs) 0 0 vcn with Some l => l | None => u64 (-1) end, s).
Proof.
  intros p Hattr Hv Hrs Hsp Hcl Hde. unfold two48 in *. apply wp_exact. unfold bl_ntfs_vcn_to_lcn.
  replace (MFT_RECORD vcn) with vcn.
  2:{ unfold MFT_RECORD. change (Z.shiftl 1 48 - 1) with (Z.ones 48). rewrite Z.land_ones by lia.
      symmetry. apply Z.mod_small. lia. }
  cbv zeta. wp_step. wp_step. fold p.
  pose proof (runs_size_pos rs (runs_at_ok _ _ _ Hrs)). pose proof (ld_range 2 (mem s) (attr + at_data_run_offset)).
  rewrite u32_small by lia.
  set (result := match lcn_loop (read_run <$> rs) 0 0 vcn with Some l => l | None => u64 (-1) end).
  wp_loop (λ '(run, cl, off) t, t = s ∧ 0 <= run ∧ 0 <= cl ∧ 0 <= off ∧ (cl = 0 ∨ cl < vcn) ∧
      ∃ post, runs_at (mem s) run post ∧ run + runs_size post <= 4294967296 ∧
      cl + clusters post < 281474976710656 ∧ off + deltas (read_run <$> post) < 281474976710656 ∧
      result = match lcn_loop (read_run <$> post) cl off vcn with Some l => l | None => u64 (-1) end)
    (λ '(run, _, _) _, 4294967296 - run).
  - intros [[run cl] off] t (-> & Hr0 & Hc0 & Ho0 & Hcv & post & Hat & Hend & Hc & Hd & Hres).
    wp_step. wp_step. destruct post as [|r post]; cbn [runs_at fmap list_fmap lcn_loop] in Hat, Hres.
    { rewrite Hat. cbn [Z.eqb]. wp_steps. done. }
    destruct Hat as (Hok & Hb & Hat). destruct (run_fields _ _ _ Hok Hb) as (Hh & Hlen & Hdel).
    pose proof (clusters_nonneg post (runs_ok_some _ (runs_at_ok _ _ _ Hat))) as Hcp.
    pose proof (read_deltas_nonneg post) as Hdp. pose proof (read_delta_nonneg r) as Hdr.
    pose proof (runs_size_pos post (runs_at_ok _ _ _ Hat)) as Hsz.
    destruct Hok as (Hlw & Hdw & Hl & _). cbn [runs_size clusters deltas fmap list_fmap foldr] in *.
    change (run_len (read_run r)) with (run_len r) in *.
    destruct (head_fields _ _ Hlw Hdw) as (Hnz & H1 & H2). rewrite Hh, H1, H2.
    destruct (Z.eqb_spec (Z.of_nat (len_width r) + 16 * Z.of_nat (delta_width r)) 0); [done|].
    fold (clusters post) (deltas (read_run <$> post)) (runs_size post) in *.
    wp_known (read_bytes_run (run + 1) (Z.of_nat (len_width r)) s ltac:(lia)).
    wp_known (read_bytes_run (run + 1 + Z.of_nat (len_width r)) (Z.of_nat (delta_width r)) s ltac:(lia)).
    rewrite !Nat2Z.id, Hlen, Hdel, (u64_small (cl + run_len r)), (u64_small (off + run_delta (read_run r))) by lia.
    unfold run_size in *. destruct (Z.leb_spec vcn (cl + run_len r)).
    + wp_steps. split; [|done]. rewrite Hres, u64_small by lia. lia.
    + wp_steps. rewrite u32_small by lia.
      split; [|lia]. split_and!; [done|lia|lia|lia|by right; lia|]. exists post.
      split_and!; [|lia|lia|lia|done].
      by replace (run + (1 + Z.of_nat (len_width r) + Z.of_nat (delta_width r)))
        with (run + (1 + Z.of_nat (len_width r) + Z.of_nat (delta_width r))) by lia.
  - split_and!; [done|lia|lia|lia|by left|]. exists rs. split_and!; [done|lia|lia|lia|done].
  - lia.
Qed.

(** ** The loop against the reference *)
Lemma lcn_from_none rs start base vcn : clusters rs + start <= vcn → Forall some_clusters rs → lcn_from rs start base vcn = None.
Proof.
  intros Hv H. revert start base Hv. induction H as [|r rs Hr H IH]; intros start base Hv; [done|].
  cbn [clusters foldr] in Hv. fold (clusters rs) in Hv. simpl. pose proof (clusters_nonneg rs H).
  destruct (Z.ltb_spec vcn (start + run_len r)); [lia|]. apply IH. lia.
Qed.

Lemma lcn_from_some rs start base vcn :
  start <= vcn < clusters rs + start → ∃ l, lcn_from rs start base vcn = Some l.
Proof.
  revert start base. induction rs as [|r rs IH]; intros start base Hv; cbn [clusters foldr] in Hv; [lia|].
  fold (clusters rs) in Hv. simpl. destruct (Z.ltb_spec vcn (start + run_len r)); [eauto|]. apply IH. lia.
Qed.

(** Two neighbouring clusters of one run. *)
Lemma lcn_from_succ rs start base vcn :
  Forall some_clusters rs → start < vcn → vcn ∉ starts_from rs start → vcn < clusters rs + start →
  lcn_from rs start base vcn = (λ l, l + 1) <$> lcn_from rs start base (vcn - 1).
Proof.
  intros H. revert start base. induction H as [|r rs Hr H IH]; intros start base Hv Hs Hc; [done|].
  cbn [clusters foldr] in Hc. fold (clusters rs) in Hc. simpl.
  assert (vcn ≠ start + run_len r ∧ (start + run_len r < vcn → vcn ∉ starts_from rs (start + run_len r)))
    as [Hne Hs'].
  { destruct rs as [|r' rs]; [cbn in Hc; split; [lia|intros; by apply not_elem_of_nil]|].
    cbn [starts_from] in Hs. rewrite not_elem_of_cons in Hs. tauto. }
  destruct (Z.ltb_spec vcn (start + run_len r)), (Z.ltb_spec (vcn - 1) (start + run_len r)); try lia.
  - simpl. f_equal. lia.
  - apply IH; [lia|apply Hs'; lia|lia].
Qed.

Lemma starts_bounds rs start x : Forall some_clusters rs → x ∈ starts_from rs start → start < x < clusters rs + start.
Proof.
  intros H. revert start. induction H as [|r rs Hr H IH]; intros start Hx; [by apply not_elem_of_nil in Hx|].
  destruct rs as [|r' rs]; [by apply not_elem_of_nil in Hx|]. unfold some_clusters at 1 in Hr.
  pose proof (clusters_nonneg _ H). inversion H as [|? ? Hr' H'']; subst. unfold some_clusters in Hr'. pose proof (clusters_nonneg _ H'').
  cbn [starts_from] in Hx. apply elem_of_cons in Hx as [->|Hx].
  - cbn [clusters foldr] in *. fold (clusters rs) in *. lia.
  - apply IH in Hx. cbn [clusters foldr] in *. lia.
Qed.

(** The clusters that the loop maps as the reference does, for the runs that it
    reads. *)
Lemma lcn_loop_of rs vcn :
  Forall some_clusters rs → 0 <= vcn < clusters rs → vcn ∉ later_starts rs → lcn_loop rs 0 0 vcn = lcn_of rs vcn.
Proof.
  intros Hok Hv Hs. rewrite lcn_loop_pred. unfold lcn_of. destruct (decide (vcn = 0)) as [->|Hv0].
  - destruct Hok as [|r rs' Hr _]; unfold some_clusters in *; [cbn in Hv; lia|]. cbn [lcn_from].
    destruct (Z.ltb_spec 0 (0 + run_len r)), (Z.ltb_spec (0 - 1) (0 + run_len r)); try lia.
    cbn [fmap option_fmap option_map]. f_equal. lia.
  - symmetry. apply lcn_from_succ; (done || lia).
Qed.

(** The loop on a run list. *)
Lemma lcn_loop_read rs vcn :
  Forall run_ok rs → 0 <= vcn < clusters rs → vcn ∉ later_starts rs →
  lcn_loop (read_run <$> rs) 0 0 vcn = (λ l, l + surplus rs vcn) <$> lcn_of rs vcn.
Proof.
  intros Hok Hv Hs. rewrite lcn_loop_of; [by apply lcn_of_read|by apply read_some, runs_ok_some|by rewrite read_clusters|].
  unfold later_starts. by rewrite read_starts.
Qed.

Lemma surplus_forward rs start vcn : Forall (λ r, 0 <= run_delta r) rs → surplus_from rs start vcn = 0.
Proof.
  intros H. revert start. induction H as [|r rs Hr H IH]; intros start; [done|]. cbn [surplus_from]. unfold excess.
  destruct (Z.ltb_spec (run_delta r) 0); [lia|]. destruct (vcn <? start + run_len r); [done|]. by rewrite IH.
Qed.

(** ** Names *)

(** A name matches an entry when the entry's name is a prefix of it, without
    regard to case. *)
Definition upper (c : Z) : Z := bl_toupper (s8 c).
Definition is_prefix (entry name : list Z) : Prop :=
  ∃ rest, upper <$> name = (upper <$> entry) ++ rest.

Lemma upper_nonzero c : 0 < c < 256 → upper c ≠ 0.
Proof.
  intros Hc E. unfold upper, bl_toupper in E.
  assert (s8 c ≠ 0) by (rewrite s8_zero, u8_small by lia; lia).
  destruct (Z.leb_spec 97 (s8 c)), (Z.leb_spec (s8 c) 122); simpl in E; lia.
Qed.

(** The comparison: the first difference at a character of the entry. *)
Fixpoint name_diff (name entry : list Z) : Z :=
  match entry with
  | [] => 0
  | c :: entry =>
      let d := upper (hd 0 name) - upper c in
      if d =? 0 then name_diff (tl name) entry else d
  end.

Lemma name_diff_prefix name entry :
  Forall (λ c, 0 < c < 256) entry → name_diff name entry = 0 ↔ is_prefix entry name.
Proof.
  intros H. revert name. induction H as [|c entry Hc H IH]; intros name; cbn [name_diff].
  { split; [|done]. intros _. by exists (upper <$> name). }
  pose proof (upper_nonzero c Hc). destruct name as [|a name]; cbn [hd tl].
  - change (upper 0) with 0. destruct (Z.eqb_spec (0 - upper c) 0); [lia|]. split; [lia|]. by intros [rest ?].
  - destruct (Z.eqb_spec (upper a - upper c) 0) as [E|E].
    + rewrite IH. unfold is_prefix. cbn [fmap list_fmap app]. assert (upper a = upper c) as -> by lia.
      split; intros [rest Hr]; exists rest; [by rewrite Hr|by injection Hr as ->].
    + split; [done|]. intros [rest Hr]. cbn [fmap list_fmap app] in Hr. injection Hr as E' _. lia.
Qed.

(** The characters of an entry's name, 16 bits each, of which the comparison
    looks at the low 8. *)
Definition entry_name (m : gmap Z Z) (filename : Z) (chars : list Z) : Prop :=
  ld8 m (filename + fn_filename_length) = Z.of_nat (length chars) ∧
  (∀ i c, chars !! i = Some c → u8 (ld 2 m (filename + fn_filename + 2 * Z.of_nat i)) = c) ∧
  Forall (λ c, 0 < c < 256) chars ∧ (0 < length chars < 256)%nat.

Lemma s8_u8 x : s8 (u8 x) = s8 x.
Proof. unfold s8. by rewrite u8_idemp. Qed.

Lemma ntfs_strcmp_run name str filename chars s :
  cstr (mem s) name str → entry_name (mem s) filename chars →
  bl_ntfs_strcmp name filename s = Some (name_diff str chars, s).
Proof.
  intros Hstr (Hlen & Hch & Hpos & Hl). apply wp_exact. unfold bl_ntfs_strcmp. wp_step. wp_step. rewrite Hlen.
  wp_loop (λ '(i, l) t, t = s ∧ ∃ k, i = Z.of_nat k ∧ l = Z.of_nat (length chars - k) ∧ (k < length chars)%nat ∧
      ∃ str', cstr (mem s) (name + i) str' ∧ name_diff str' (drop k chars) = name_diff str chars)
    (λ '(_, l) _, l).
  - intros [i l] t (-> & k & -> & -> & Hk & str' & Hs' & Hp). wp_steps.
    destruct (lookup_lt_is_Some_2 chars k Hk) as [c Hc].
    assert (Hw8 : s8 (ld 2 (mem s) (filename + fn_filename + 2 * Z.of_nat k)) = s8 c).
    { rewrite <- (Hch _ _ Hc). by rewrite s8_u8. }
    assert (Hcr : 0 < c < 256) by exact (Forall_lookup_1 _ _ _ _ Hpos Hc).
    rewrite Hw8. rewrite (drop_S _ _ _ Hc) in Hp. cbn [name_diff] in Hp.
    assert (Ha : bl_toupper (s8 (ld8 (mem s) (name + Z.of_nat k))) = upper (hd 0 str')).
    { destruct str' as [|a str']; [by rewrite (cstr_nil _ _ Hs')|]. by destruct (cstr_cons _ _ _ _ Hs') as (-> & _). }
    rewrite Ha. fold (upper c). destruct (Z.eqb_spec (upper (hd 0 str') - upper c) 0) as [E|E].
    + destruct str' as [|a str']; [pose proof (upper_nonzero c Hcr); change (upper (hd 0 [])) with 0 in E; lia|].
      destruct (cstr_cons _ _ _ _ Hs') as (_ & _ & Hs'').
      destruct (decide (S k = length chars)) as [Hlast|Hlast].
      * rewrite u8_small by lia. replace (Z.of_nat (length chars - k) - 1) with 0 by lia. wp_steps.
        split; [|done]. rewrite Hlast, drop_all in Hp. cbn [tl name_diff] in Hp. lia.
      * rewrite u8_small by lia. rewrite truth_pos by lia. wp_steps. split; [|lia].
        split; [done|]. exists (S k). split; [lia|]. split; [lia|]. split; [lia|].
        exists str'. split; [|done]. by replace (name + (Z.of_nat k + 1)) with (name + Z.of_nat k + 1) by lia.
    + wp_steps. by split.
  - split; [done|]. exists 0%nat. split; [done|]. rewrite Nat.sub_0_r. split; [done|]. split; [lia|].
    exists str. rewrite Z.add_0_r. done.
  - lia.
Qed.

(** ** Years *)
Definition year_start (yy : Z) : Z :=
  foldr (λ y n, year_lengths (IS_LEAP_YEAR y) + n) 0 (seqZ 1601 (yy - 1601)).

Lemma year_start_next yy : 1601 <= yy → year_start (yy + 1) = year_start yy + year_lengths (IS_LEAP_YEAR yy).
Proof.
  intros H. unfold year_start. replace (yy + 1 - 1601) with (yy - 1601 + 1) by lia.
  rewrite seqZ_app, foldr_app by lia. replace (1601 + (yy - 1601)) with yy by lia.
  generalize (seqZ 1601 (yy - 1601)) as l. intros l.
  assert (∀ a, foldr (λ y n, year_lengths (IS_LEAP_YEAR y) + n) a l =
    foldr (λ y n, year_lengths (IS_LEAP_YEAR y) + n) 0 l + a) as Hl.
  { induction l as [|y l IH]; intros a; simpl; [lia|]. rewrite IH. lia. }
  rewrite Hl, seqZ_cons, seqZ_nil by lia. cbn [foldr]. lia.
Qed.

Lemma year_lengths_range b : 365 <= year_lengths b <= 366.
Proof. destruct b; simpl; lia. Qed.

Lemma ntfs_year_run days s :
  0 <= days < 1000000000 →
  ∃ yy, ntfs_year days s = Some ((yy, year_start (yy + 1)), s) ∧ 1601 <= yy ∧
    year_start yy <= days < year_start (yy + 1).
Proof.
  intros Hd.
  assert (Hw : wp (ntfs_year days) (λ r t, t = s ∧ r.2 = year_start (r.1 + 1) ∧ 1601 <= r.1 ∧
    year_start r.1 <= days < year_start (r.1 + 1)) s).
  { unfold ntfs_year. wp_loop (λ '(yy, d) t, t = s ∧ 1601 <= yy ∧ d = year_start yy ∧ 0 <= d <= days ∧ yy <= 1601 + d)
      (λ '(_, d) _, days - d).
    - intros [yy d] t (-> & Hy & -> & Hle & Hyd). pose proof (year_lengths_range (IS_LEAP_YEAR yy)).
      rewrite u64_small, <- year_start_next by lia.
      pose proof (year_start_next yy Hy) as E. destruct (Z.ltb_spec days (year_start (yy + 1))).
      + wp_steps. cbn [fst snd]. split_and!; [done|done|lia|lia|lia].
      + wp_steps. rewrite u32_small by lia. split; [|lia]. split_and!; [done|lia|done|lia|lia|lia].
    - split_and!; [done|lia|done|lia|lia|lia].
    - lia. }
  apply wp_run in Hw as ([yy d] & t & Hrun & -> & Hd' & Hy & Hr). cbn [fst snd] in *. subst d. eauto.
Qed.

(** ** Properties *)

(** C24: [bl_ntfs_vcn_to_lcn] against the mapping that the run list describes,
    whose offsets are signed, for fields of up to three bytes.  At every cluster
    but the first one of a later run it is that mapping plus [surplus], which is 0
    when no run up to there goes backward; each run that does adds the range of
    its field, since the sign is not extended.  The first cluster of a later run
    is mapped behind the end of the run before it.  Clusters behind the last run
    are refused, but for the first. *)
Theorem vcn_to_lcn_equiv attr vcn rs s :
  let p := attr + ld 2 (mem s) (attr + at_data_run_offset) in
  0 <= attr → 0 <= vcn < two48 → runs_at (mem s) p rs → p + runs_size rs <= 4294967296 →
  clusters rs < two48 → deltas (read_run <$> rs) < two48 →
  ∃ l, bl_ntfs_vcn_to_lcn attr vcn s = Some (l, s) ∧
    (vcn < clusters rs → vcn ∉ later_starts rs →
      ∃ l', lcn_of rs vcn = Some l' ∧ l = l' + surplus rs vcn ∧ (Forall (λ r, 0 <= run_delta r) rs → l = l')) ∧
    (vcn ∈ later_starts rs → ∃ l', lcn_of rs (vcn - 1) = Some l' ∧ l = l' + surplus rs (vcn - 1) + 1) ∧
    (clusters rs < vcn → l = u64 (-1)).
Proof.
  intros p Hattr Hv Hrs Hsp Hcl Hde. pose proof (runs_at_ok _ _ _ Hrs) as Hok. pose proof (runs_ok_some _ Hok) as Hsome.
  eexists. split; [by apply (vcn_to_lcn_run attr vcn rs s)|]. split_and!.
  - intros Hlt Hns. rewrite lcn_loop_read by (done || lia). destruct (lcn_from_some rs 0 0 vcn) as [l E]; [lia|].
    unfold lcn_of. rewrite E. exists l. split; [done|]. split; [done|]. intros Hf. cbn. unfold surplus. rewrite (surplus_forward rs 0 vcn Hf). lia.
  - intros Hs. apply starts_bounds in Hs; [|done]. rewrite lcn_loop_pred. unfold lcn_of.
    destruct (lcn_from_some rs 0 0 (vcn - 1)) as [l E]; [lia|].
    pose proof (lcn_of_read rs (vcn - 1) Hok) as Er. unfold lcn_of in Er. rewrite Er, E. by exists l.
  - intros Hgt. rewrite lcn_loop_pred, lcn_from_none; [done|rewrite read_clusters; lia|by apply read_some].
Qed.

(** A run of five clusters from 32 on, and one of three that starts 16 clusters
    before: the driver is 256 clusters off. *)
Definition runs_memory : machine :=
  set_mem (st_bytes (st 2 ∅ 0x1020 64) 0x1040 [0x11; 5; 32; 0x11; 3; 0xf0; 0]) machine0.
Definition runs_example : list data_run := [DataRun 5 32 1 1; DataRun 3 (-16) 1 1].

Lemma vcn_to_lcn_equiv_witness :
  let rs := runs_example in
  ∃ l, bl_ntfs_vcn_to_lcn 0x1000 6 runs_memory = Some (l, runs_memory) ∧
    (6 < clusters rs → 6 ∉ later_starts rs →
      ∃ l', lcn_of rs 6 = Some l' ∧ l = l' + surplus rs 6 ∧ (Forall (λ r, 0 <= run_delta r) rs → l = l')) ∧
    (6 ∈ later_starts rs → ∃ l', lcn_of rs (6 - 1) = Some l' ∧ l = l' + surplus rs (6 - 1) + 1) ∧
    (clusters rs < 6 → l = u64 (-1)).
Proof.
  intros rs. apply (vcn_to_lcn_equiv 0x1000 6 rs runs_memory);
    [lia|unfold two48; lia| |by vm_compute|by vm_compute|by vm_compute].
  change (0x1000 + ld 2 (mem runs_memory) (0x1000 + at_data_run_offset)) with 0x1040.
  unfold rs, runs_example. cbn [runs_at]. unfold run_ok. split_and!; (by vm_compute) || (cbn; lia).
Defined.

Example runs_example_off : lcn_of runs_example 6 = Some 17 ∧ bl_ntfs_vcn_to_lcn 0x1000 6 runs_memory = Some (273, runs_memory).
Proof. by vm_compute. Qed.

(** The search for the year of a time stamp ends, with the year that the day
    lies in and the number of days up to its end. *)
Theorem ntfs_year_correct days s :
  0 <= days < 1000000000 →
  ∃ yy, ntfs_year days s = Some ((yy, year_start (yy + 1)), s) ∧ 1601 <= yy ∧
    year_start yy <= days < year_start (yy + 1).
Proof. apply ntfs_year_run. Qed.

Lemma ntfs_year_correct_witness :
  ∃ yy, ntfs_year 153000 machine0 = Some ((yy, year_start (yy + 1)), machine0) ∧ 1601 <= yy ∧
    year_start yy <= 153000 < year_start (yy + 1).
Proof. apply (ntfs_year_correct 153000 machine0). lia. Defined.

(** The day is then counted from the end of the year: of 31 December, 1 day
    before it, the second month and its first day are printed, and of 1 January
    nothing. *)
Example ntfs_month_mirrored :
  ntfs_month (month_lengths false) 0 0 0 1 = Some (2, 1) ∧ ntfs_month (month_lengths false) 0 0 0 365 = None.
Proof. done. Qed.
