(* ===== verification/NtfsTree.v ===== *)
(** * Looking a name up in an NTFS directory

    A directory is a B-tree: its root node is in the directory's record, the
    other nodes are index blocks on the disk, which the search reads into heap
    blocks one at a time.  Here are the tree as a value, how it lies on the
    disk, the search through all of it and what the callback makes of the entry
    that was found. *)
From stdpp Require Import sorting strings.
From S2P Require Import Prelude Memory Regions Arith Status Strings StringsProofs Heap HeapProofs HeapClient Storage.
From S2P Require Import StorageProofs PartitionProofs Tokens Print PrintProofs Fs Ntfs NtfsProofs.

(** ** Directories as values *)
Record dir_entry := DirEntry { de_record : Z; de_flags : Z; de_chars : list Z }.

(** A node is a chain of entries; entries of inner nodes lead to a child, which
    holds the names before them, and so does the entry marked last, which has
    no name. *)
Inductive index_tree :=
| Stop
| Down (vcn : Z) (child : index_tree)
| Item (e : dir_entry) (rest : index_tree)
| Fork (e : dir_entry) (vcn : Z) (child rest : index_tree).

Fixpoint entries (t : index_tree) : list dir_entry :=
  match t with
  | Stop => []
  | Down _ child => entries child
  | Item e rest => e :: entries rest
  | Fork e _ child rest => entries child ++ e :: entries rest
  end.

Fixpoint depth (t : index_tree) : Z :=
  match t with
  | Stop => 0
  | Down _ child => 1 + depth child
  | Item _ rest => depth rest
  | Fork _ _ child rest => Z.max (1 + depth child) (depth rest)
  end.

Lemma depth_nonneg t : 0 <= depth t.
Proof. induction t; cbn [depth]; lia. Qed.

(** What the search does. *)
Fixpoint tree_find (name : list Z) (t : index_tree) : option dir_entry :=
  match t with
  | Stop => None
  | Down _ child => tree_find name child
  | Item e rest => if name_diff name (de_chars e) =? 0 then Some e else tree_find name rest
  | Fork e _ child rest =>
      let d := name_diff name (de_chars e) in
      if d <? 0 then tree_find name child else if d =? 0 then Some e else tree_find name rest
  end.

(** ** The order of names: that of their characters in upper case, as if zeros
    followed them. *)
Fixpoint name_lt (x y : list Z) : Prop :=
  match x, y with
  | [], [] => False
  | [], c :: _ => 0 < upper c
  | a :: _, [] => upper a < 0
  | a :: x, c :: y => upper a < upper c ∨ (upper a = upper c ∧ name_lt x y)
  end.
Definition same_name (x y : list Z) : Prop := upper <$> x = upper <$> y.
Definition entry_lt (e1 e2 : dir_entry) : Prop := name_lt (de_chars e1) (de_chars e2).
Definition sorted (t : index_tree) : Prop := StronglySorted entry_lt (entries t).
Definition named (e : dir_entry) : Prop := Forall (λ c, 0 < c < 256) (de_chars e).

Lemma name_lt_same x y e : same_name x y → (name_lt e x ↔ name_lt e y) ∧ (name_lt x e ↔ name_lt y e).
Proof.
  unfold same_name. revert y e. induction x as [|a x IH]; intros [|c y] e H; try done. injection H as Hac H.
  destruct e as [|d e]; cbn [name_lt]; [lia|]. destruct (IH y e H). rewrite Hac. tauto.
Qed.

Lemma name_diff_lt x e : Forall (λ c, 0 < c < 256) e → name_diff x e < 0 → ¬ name_lt e x.
Proof.
  intros He. revert x. induction He as [|c e Hc He IH]; intros x; cbn [name_diff]; [lia|].
  pose proof (upper_nonzero c Hc). destruct x as [|a x]; cbn [hd tl name_lt].
  - change (upper 0) with 0. destruct (Z.eqb_spec (0 - upper c) 0); lia.
  - destruct (Z.eqb_spec (upper a - upper c) 0); [|lia]. intros Hd [?|[_ Hlt]]; [lia|]. by apply (IH x).
Qed.

Lemma name_diff_gt x e : Forall (λ c, 0 < c < 256) e → 0 < name_diff x e → ¬ name_lt x e.
Proof.
  intros He. revert x. induction He as [|c e Hc He IH]; intros x; cbn [name_diff]; [lia|].
  pose proof (upper_nonzero c Hc). destruct x as [|a x]; cbn [hd tl name_lt].
  - change (upper 0) with 0. destruct (Z.eqb_spec (0 - upper c) 0); lia.
  - destruct (Z.eqb_spec (upper a - upper c) 0); [|lia]. intros Hd [?|[_ Hlt]]; [lia|]. by apply (IH x).
Qed.

Lemma name_diff_other x e : Forall (λ c, 0 < c < 256) e → name_diff x e ≠ 0 → ¬ same_name e x.
Proof. intros He Hd H. apply Hd, name_diff_prefix; [done|]. exists []. by rewrite app_nil_r. Qed.

(** The search against the list of the entries, in their order. *)
Lemma tree_find_some name t e :
  Forall named (entries t) → tree_find name t = Some e → e ∈ entries t ∧ is_prefix (de_chars e) name.
Proof.
  induction t as [|vcn c IHc|e' t IH|e' vcn c IHc t IH]; cbn [tree_find entries]; intros Hn Hf; [done|by apply IHc| |].
  - apply Forall_cons in Hn as [He Hn]. destruct (Z.eqb_spec (name_diff name (de_chars e')) 0) as [E|].
    + injection Hf as ->. split; [left|]. by apply name_diff_prefix.
    + destruct (IH Hn Hf). split; [by right|done].
  - apply Forall_app in Hn as [Hnc [He Hn]%Forall_cons]. rewrite elem_of_app, elem_of_cons.
    destruct (_ <? 0); [destruct (IHc Hnc Hf); tauto|].
    destruct (Z.eqb_spec (name_diff name (de_chars e')) 0) as [E|]; [|destruct (IH Hn Hf); tauto].
    injection Hf as ->. split; [by right; left|]. by apply name_diff_prefix.
Qed.

Lemma tree_find_none name t e :
  Forall named (entries t) → sorted t → tree_find name t = None → e ∈ entries t → ¬ same_name (de_chars e) name.
Proof.
  unfold sorted. induction t as [|vcn c IHc|e' t IH|e' vcn c IHc t IH]; cbn [tree_find entries]; intros Hn Hs Hf Hin;
    [by apply not_elem_of_nil in Hin|by apply IHc| |].
  - apply Forall_cons in Hn as [He Hn]. apply StronglySorted_inv in Hs as [Hs _].
    destruct (Z.eqb_spec (name_diff name (de_chars e')) 0) as [|E]; [done|].
    apply elem_of_cons in Hin as [->|Hin]; [by apply name_diff_other|by apply IH].
  - apply Forall_app in Hn as [Hnc [He Hn]%Forall_cons]. rewrite elem_of_app, elem_of_cons in Hin.
    apply StronglySorted_app in Hs as (Hmid & Hsc & Hs). apply StronglySorted_inv in Hs as [Hs Hlt].
    rewrite Forall_forall in Hlt.
    destruct (Z.ltb_spec (name_diff name (de_chars e')) 0) as [Hd|Hd].
    + destruct Hin as [Hin|[->|Hin]]; [by apply IHc|apply name_diff_other; [done|lia]|]. intros Hsame.
      apply (name_diff_lt name (de_chars e') He Hd). apply (name_lt_same _ _ _ Hsame). by apply Hlt.
    + destruct (Z.eqb_spec (name_diff name (de_chars e')) 0) as [|E]; [done|].
      destruct Hin as [Hin|[->|Hin]]; [|by apply name_diff_other|by apply IH]. intros Hsame.
      apply (name_diff_gt name (de_chars e') He ltac:(lia)). apply (name_lt_same _ _ _ Hsame). apply Hmid; [done|left].
Qed.

(** ** Bytes, of the disk or of memory *)
Lemma img_le_same n b b' a a' :
  (∀ i, 0 <= i < Z.of_nat n → u8 (b' (a' + i)) = u8 (b (a + i))) → img_le n b' a' = img_le n b a.
Proof.
  intros H. unfold img_le, slice. f_equal. apply list_fmap_ext. intros k i Hi%lookup_seqZ. apply H. lia.
Qed.

Lemma img_le_ld8 n m a : img_le n (ld8 m) a = ld n m a.
Proof.
  unfold img_le, ld, slice. f_equal. apply list_eq. intros i. rewrite list_lookup_fmap.
  destruct (decide (i < n)%nat) as [Hi|Hi].
  - rewrite lookup_ld_bytes, lookup_seqZ_lt by lia. cbn [fmap option_fmap option_map].
    rewrite u8_small by apply ld8_range. do 2 f_equal.
  - rewrite lookup_ge_None_2 by (rewrite length_seqZ; lia). symmetry. apply lookup_ge_None_2. rewrite length_ld_bytes. lia.
Qed.

(** ** Nodes: the entry at [o] of a node that ends at [hi] *)
Definition entry_size (b : Z → Z) (o : Z) : Z := img_le 2 b (o + ie_total_size).
Definition is_parent (b : Z → Z) (o : Z) : bool := truth (Z.land (img_le 1 b (o + ie_flags)) BL_NTFS_INDEX_ENTRY_PARENT).
Definition is_last (b : Z → Z) (o : Z) : bool := truth (Z.land (img_le 1 b (o + ie_flags)) BL_NTFS_INDEX_ENTRY_LAST_ENTRY).

Definition entry_in (b : Z → Z) (hi o : Z) (e : dir_entry) : Prop :=
  img_le 8 b (o + ie_undefined) = de_record e ∧
  img_le 4 b (o + ie_data + fn_flags) = de_flags e ∧
  img_le 1 b (o + ie_data + fn_filename_length) = Z.of_nat (length (de_chars e)) ∧
  (∀ i c, de_chars e !! i = Some c → u8 (img_le 2 b (o + ie_data + fn_filename + 2 * Z.of_nat i)) = c) ∧
  Forall (λ c, 0 < c < 256) (de_chars e) ∧ (0 < length (de_chars e) < 256)%nat ∧
  o + ie_data + fn_filename + 2 * Z.of_nat (length (de_chars e)) <= hi.

(** A volume, as the driver keeps it: the disk, the first sector, the sizes of
    sectors, clusters (as a power of two of sectors), index blocks and records. *)
Record ntfs_volume := NtfsVolume {
  nv_disk : Z; nv_lba : Z; nv_sector_size : Z; nv_shift : Z; nv_iroot : Z; nv_index_size : Z;
  nv_mft_lba : Z; nv_record_size : Z; nv_record_shift : Z;
}.

Section Index.
Context (image : Z → Z) (sectors : Z) (v : ntfs_volume) (rs : list data_run).
#[local] Abbreviation isize := (nv_index_size v).

Definition cluster_lba (lcn : Z) : Z := nv_lba v + lcn * 2 ^ nv_shift v.
Definition cluster_byte (lcn : Z) : Z := 512 * cluster_lba lcn.
Definition indx : list Z := [73; 78; 68; 88].

(** The cluster of a block, by the runs; the driver maps wrongly the first
    cluster of a later run and what comes behind a run that goes backward. *)
Definition block_cluster (vcn lcn : Z) : Prop :=
  0 <= vcn < two48 ∧ (vcn ∉ later_starts rs) ∧ vcn < clusters rs ∧ lcn_of rs vcn = Some lcn ∧
  surplus rs vcn = 0 ∧ 0 <= lcn ∧ cluster_lba lcn + sector_round isize / 512 <= sectors < 2 ^ 64.

(** An index block that holds the tree [P]. *)
Definition index_block (vcn : Z) (P : Z → Z → Prop) : Prop :=
  ∃ lcn, block_cluster vcn lcn ∧ slice image (cluster_byte lcn) 4 = indx ∧
    let node := cluster_byte lcn + ih_node in
    P (cluster_byte lcn + isize) (node + img_le 4 image (node + node_entries_offset)).

Fixpoint tree_in (b : Z → Z) (hi o : Z) (t : index_tree) : Prop :=
  let child vcn c :=
    16 <= entry_size b o ∧ o + entry_size b o <= hi ∧ img_le 8 b (o + entry_size b o - 8) = vcn ∧
    index_block vcn (λ hi o, tree_in image hi o c) in
  let next rest := 16 <= entry_size b o ∧ tree_in b hi (o + entry_size b o) rest in
  0 <= o ∧ o + 16 <= hi ∧
  match t with
  | Stop => is_parent b o = false ∧ is_last b o = true
  | Down vcn c => is_parent b o = true ∧ is_last b o = true ∧ child vcn c
  | Item e rest => is_parent b o = false ∧ is_last b o = false ∧ entry_in b hi o e ∧ next rest
  | Fork e vcn c rest => is_parent b o = true ∧ is_last b o = false ∧ entry_in b hi o e ∧ child vcn c ∧ next rest
  end.

Lemma tree_in_bounds b hi o t : tree_in b hi o t → 0 <= o ∧ o + 16 <= hi.
Proof. destruct t; cbn [tree_in]; tauto. Qed.

Lemma tree_in_named b hi o t : tree_in b hi o t → Forall named (entries t).
Proof.
  revert b hi o. induction t as [|vcn c IHc|e t IH|e vcn c IHc t IH]; intros b hi o; cbn [tree_in entries].
  - by constructor.
  - intros (_ & _ & _ & _ & _ & _ & _ & lcn & _ & _ & Hc). by eapply IHc.
  - intros (_ & _ & _ & _ & He & _ & Hr). constructor; [apply He|by eapply IH].
  - intros (_ & _ & _ & _ & He & (_ & _ & _ & lcn & _ & _ & Hc) & _ & Hr).
    apply Forall_app. split; [by eapply IHc|]. constructor; [apply He|by eapply IH].
Qed.

(** The same bytes elsewhere. *)
Section Shift.
Context (b b' : Z → Z) (lo hi d : Z).
Context (Hsame : ∀ x, lo <= x < hi → u8 (b' (x + d)) = u8 (b x)) (Hd : 0 <= lo + d).

Lemma img_le_shift n o : lo <= o → o + Z.of_nat n <= hi → img_le n b' (o + d) = img_le n b o.
Proof. intros H1 H2. apply img_le_same. intros i Hi. rewrite <- (Hsame (o + i)) by lia. do 2 f_equal. lia. Qed.

Lemma entry_in_shift o e : lo <= o → o + 16 <= hi → entry_in b hi o e → entry_in b' (hi + d) (o + d) e.
Proof.
  intros Ho Hhi (H1 & H2 & H3 & H4 & H5 & H6 & H7).
  unfold ie_undefined, ie_data, fn_flags, fn_filename_length, fn_filename in *.
  unfold entry_in, ie_undefined, ie_data, fn_flags, fn_filename_length, fn_filename.
  replace (o + d + 0) with (o + 0 + d) by lia. replace (o + d + 16 + 56) with (o + 16 + 56 + d) by lia.
  replace (o + d + 16 + 64) with (o + 16 + 64 + d) by lia. rewrite !img_le_shift by lia.
  split_and!; try done; try lia. intros i c Hc. pose proof (lookup_lt_Some _ _ _ Hc).
  replace (o + d + 16 + 66 + 2 * Z.of_nat i) with (o + 16 + 66 + 2 * Z.of_nat i + d) by lia.
  rewrite img_le_shift by lia. by apply H4.
Qed.

Lemma tree_in_shift o t : lo <= o → tree_in b hi o t → tree_in b' (hi + d) (o + d) t.
Proof.
  revert o. induction t as [|vcn c IHc|e t IH|e vcn c IHc t IH]; intros o Hlo; cbn [tree_in]; intros (H0 & H1 & H);
    assert (Es : entry_size b' (o + d) = entry_size b o)
      by (unfold entry_size, ie_total_size; replace (o + d + 8) with (o + 8 + d) by lia; apply img_le_shift; lia);
    assert (Ef : img_le 1 b' (o + d + ie_flags) = img_le 1 b (o + ie_flags))
      by (unfold ie_flags; replace (o + d + 12) with (o + 12 + d) by lia; apply img_le_shift; lia);
    unfold is_parent, is_last in *; rewrite ?Es, Ef;
    replace (o + d + entry_size b o) with (o + entry_size b o + d) by lia; (split; [lia|]); (split; [lia|]).
  - done.
  - destruct H as (Hp & Hl & Hz & He & Hv & Hc). split_and!; try done; [lia|].
    rewrite <- Hv. replace (o + entry_size b o + d - 8) with (o + entry_size b o - 8 + d) by lia. apply img_le_shift; lia.
  - destruct H as (Hp & Hl & He & Hz & Hr). split_and!; try done; [by apply entry_in_shift|apply IH; [lia|done]].
  - destruct H as (Hp & Hl & He & (Hz & Hhe & Hv & Hc) & _ & Hr).
    split_and!; try done; [by apply entry_in_shift|lia| |apply IH; [lia|done]].
    rewrite <- Hv. replace (o + entry_size b o + d - 8) with (o + entry_size b o - 8 + d) by lia. apply img_le_shift; lia.
Qed.
End Shift.
End Index.

(** ** What the driver has in memory *)
Definition i30 : list Z := [36; 0; 73; 0; 51; 0; 48; 0].

(** The attribute of a type, behind attributes of the given sizes and of other
    types. *)
Fixpoint attribute_from (b : Z → Z) (hi a : Z) (sizes : list Z) (type p : Z) : Prop :=
  0 <= a ∧ a + 72 <= hi ∧
  match sizes with
  | [] => a = p ∧ img_le 4 b (a + at_type) = type
  | n :: rest =>
      img_le 4 b (a + at_type) ≠ type ∧ img_le 4 b (a + at_type) ≠ BL_NTFS_ATTR_END ∧
      img_le 4 b (a + at_total_size) = n ∧ 0 < n ∧ attribute_from b hi (a + n) rest type p
  end.
Definition attribute_in (b : Z → Z) (lo hi : Z) (sizes : list Z) (type p : Z) : Prop :=
  lo + 72 <= hi ∧ attribute_from b hi (lo + img_le 2 b (lo + mft_attributes_offset)) sizes type p.

(** The index allocation of the directory in the record at [lo]. *)
Record allocation_in (m : gmap Z Z) (lo hi : Z) (sizes : list Z) (p : Z) (rs : list data_run) : Prop := AllocationIn {
  ai_attribute : attribute_in (ld8 m) lo hi sizes BL_NTFS_ATTR_INDEX_ALLOCATION p;
  ai_nonresident : ld8 m (p + at_nonresident_flag) ≠ 0;
  ai_name : ld8 m (p + at_name_length) = 4 ∧ ld_bytes m (p + at_nonresident_name) 8 = i30;
  ai_runs : runs_at m (p + ld 2 m (p + at_data_run_offset)) rs ∧
    p + ld 2 m (p + at_data_run_offset) + runs_size rs <= hi <= 4294967296;
  ai_small : clusters rs < two48 ∧ deltas (read_run <$> rs) < two48;
}.

Record volume_in (m : gmap Z Z) (info : Z) (v : ntfs_volume) : Prop := VolumeIn {
  vi_disk : ld 4 m (info + ni_disk) = nv_disk v;
  vi_lba : ld 8 m (info + ni_lba) = nv_lba v;
  vi_sector : ld 2 m (info + ni_sector_size) = nv_sector_size v;
  vi_cluster : ld 4 m (info + ni_cluster_size) = nv_sector_size v * 2 ^ nv_shift v;
  vi_mft : ld 8 m (info + ni_mft_lba) = nv_mft_lba v;
  vi_record : ld 2 m (info + ni_mft_record_size) = nv_record_size v;
  vi_iroot : ld 4 m (info + ni_iroot) = nv_iroot v;
  vi_index : ld 4 m (nv_iroot v + ir_index_record_size) = nv_index_size v;
}.

Record volume_ok (v : ntfs_volume) : Prop := VolumeOk {
  vo_sector : 0 < nv_sector_size v;
  vo_shift : 0 <= nv_shift v < 32;
  vo_record : nv_record_size v = nv_sector_size v * 2 ^ nv_record_shift v ∧ 0 <= nv_record_shift v < 32;
  vo_index : 32 <= nv_index_size v ∧ nv_index_size v + 1024 <= 4294967296;
}.

(** What reading one index block may make the heap grow by. *)
Definition block_cost (n : Z) : Z := cost n + cost (sector_round n).

Lemma runs_at_same m m' p rs :
  same_on p (runs_size rs) m m' → runs_at m p rs → runs_at m' p rs.
Proof.
  revert p. induction rs as [|r rs IH]; intros p Hs; cbn [runs_at runs_size foldr] in *.
  - intros H. rewrite <- H. apply Hs. lia.
  - fold (runs_size rs) in Hs. intros (Hr & Hb & H). pose proof (runs_size_pos rs (runs_at_ok _ _ _ H)).
    assert (0 <= run_size r) by (unfold run_size; lia).
    split; [done|]. split.
    + rewrite <- Hb. apply same_on_ld_bytes. intros x Hx. apply Hs. lia.
    + apply IH; [|done]. intros x Hx. apply Hs. lia.
Qed.

Lemma attribute_from_bounds b hi a sizes type p :
  attribute_from b hi a sizes type p → 0 <= a ∧ a <= p ∧ p + 72 <= hi.
Proof.
  revert a. induction sizes as [|n sizes IH]; intros a; cbn [attribute_from].
  - intros (? & ? & -> & _). lia.
  - intros (? & ? & _ & _ & _ & ? & H). apply IH in H. lia.
Qed.

Lemma attribute_from_same m m' lo hi a sizes type p :
  same_on lo (hi - lo) m m' → lo <= a → attribute_from (ld8 m) hi a sizes type p → attribute_from (ld8 m') hi a sizes type p.
Proof.
  intros Hs. revert a. induction sizes as [|n sizes IH]; intros a Ha; cbn [attribute_from]; rewrite !img_le_ld8; intros (? & ? & H);
    unfold at_type, at_total_size in *; rewrite ?(same_on_ld m m') by (eapply same_on_sub; [exact Hs|lia..]).
  - tauto.
  - destruct H as (? & ? & ? & ? & H). split_and!; try done. apply IH; [lia|done].
Qed.

Lemma allocation_in_same m m' lo hi sizes p rs :
  same_on lo (hi - lo) m m' → allocation_in m lo hi sizes p rs → allocation_in m' lo hi sizes p rs.
Proof.
  intros Hs [[Hhi Ha] Hn [Hl Hi] [Hr Hre] Hc]. rewrite img_le_ld8 in Ha.
  pose proof (ld_range 2 m (lo + mft_attributes_offset)). pose proof (attribute_from_bounds _ _ _ _ _ _ Ha) as (? & ? & ?).
  pose proof (ld_range 2 m (p + at_data_run_offset)).
  unfold mft_attributes_offset, at_nonresident_flag, at_name_length, at_nonresident_name, at_data_run_offset in *.
  assert (E : ∀ n k, lo <= k → k + Z.of_nat n <= hi → ld n m' k = ld n m k).
  { intros n k Hk1 Hk2. apply same_on_ld. eapply same_on_sub; [exact Hs|lia..]. }
  split; unfold at_nonresident_flag, at_name_length, at_nonresident_name, at_data_run_offset; [| | | |done].
  - split; [done|]. rewrite img_le_ld8. unfold mft_attributes_offset. rewrite E by lia.
    eapply attribute_from_same; [exact Hs|lia|done].
  - rewrite Hs by lia. done.
  - rewrite Hs by lia. split; [done|]. rewrite <- Hi. apply same_on_ld_bytes. eapply same_on_sub; [exact Hs|lia..].
  - rewrite E by lia. split; [|done]. eapply runs_at_same; [|done]. eapply same_on_sub; [exact Hs|lia..].
Qed.

Lemma volume_in_same m m' info v :
  same_on info sizeof_ntfs_info m m' → same_on (nv_iroot v + ir_index_record_size) 4 m m' →
  volume_in m info v → volume_in m' info v.
Proof.
  unfold sizeof_ntfs_info. intros H1 H2 [? ? ? ? ? ? ? ?].
  split; (rewrite (same_on_ld m m'); [done|first [exact H2|eapply same_on_sub; [exact H1|..]]]);
    unfold ni_disk, ni_lba, ni_sector_size, ni_cluster_size, ni_mft_lba, ni_mft_record_size, ni_iroot; lia.
Qed.

Lemma shift_run n ss k :
  0 < ss → 0 <= k < 32 → 0 <= n → n * 2 ^ k < 2 ^ 64 → shl64 n (log2_shift (ss * 2 ^ k / ss)) = n * 2 ^ k.
Proof.
  intros Hss Hk Hn Hb. rewrite Z.mul_comm, Z.div_mul by lia. unfold shl64, log2_shift. rewrite bl_log2_pow2 by done.
  change (default (-1) (Some k)) with k. rewrite Z.mod_small by lia. rewrite Z.shiftl_mul_pow2 by lia. apply u64_small.
  change (2 ^ 64) with 18446744073709551616 in Hb. split; [|done]. apply Z.mul_nonneg_nonneg; [done|]. apply Z.pow_nonneg. lia.
Qed.

Lemma lcn_to_lba_run v info lcn s :
  volume_in (mem s) info v → volume_ok v → 0 <= lcn → cluster_lba v lcn < 2 ^ 64 →
  bl_ntfs_lcn_to_lba info lcn s = Some (cluster_lba v lcn, s).
Proof.
  intros [_ Hl Hs Hc _ _ _ _] [Hss Hsh _ _] Hlcn Hlt. apply wp_exact. unfold bl_ntfs_lcn_to_lba.
  do 6 wp_step. rewrite Hl, Hs, Hc. pose proof (ld_range 8 (mem s) (info + ni_lba)) as Hr. rewrite Hl in Hr.
  wp_step. unfold udiv. destruct (Z.eqb_spec (nv_sector_size v) 0); [lia|]. wp_steps. unfold cluster_lba in *.
  rewrite shift_run by lia. split; [|done]. apply u64_small. change (2 ^ 64) with 18446744073709551616 in Hlt.
  pose proof (Z.pow_nonneg 2 (nv_shift v) ltac:(lia)). nia.
Qed.

(** ** Finding an attribute *)

(** What the search does with the attribute that it finds. *)
Definition attribute_value (disks : disk_table) (f : ntfs_frame) (attr t : Z) (data : option (Z * Z)) : M Z :=
  nonresident ← rd8 (attr + at_nonresident_flag);
  if truth nonresident then
    if t =? BL_NTFS_ATTR_INDEX_ALLOCATION then bl_ntfs_get_index_allocation disks f attr data else mret NULL
  else if t =? BL_NTFS_ATTR_FILE_NAME then bl_ntfs_get_filename attr
  else if t =? BL_NTFS_ATTR_INDEX_ROOT then bl_ntfs_get_index_root f attr
  else mret NULL.

Lemma attribute_walk disks f lo hi sizes type p data Q s :
  attribute_in (ld8 (mem s)) lo hi sizes type p → 0 <= lo → hi <= 4294967296 → type ≠ BL_NTFS_ATTR_END →
  wp (attribute_value disks f p type data) Q s → wp (bl_ntfs_get_mft_record_attribute disks f lo type data) Q s.
Proof.
  intros [Hl Ha] Hlo Hhi Ht HQ. rewrite img_le_ld8 in Ha. unfold bl_ntfs_get_mft_record_attribute, bl_ntfs_attribute_first.
  do 3 wp_step. pose proof (attribute_from_bounds _ _ _ _ _ _ Ha) as (? & ? & ?).
  rewrite u32_small by lia.
  wp_loop (λ a t, t = s ∧ ∃ sizes, attribute_from (ld8 (mem s)) hi a sizes type p) (λ a _, hi - a).
  - intros a' t (-> & sizes' & Ha'). unfold bl_ntfs_attribute_end, bl_ntfs_attribute_next. do 4 wp_step.
    destruct sizes' as [|n sizes']; cbn [attribute_from] in Ha'; rewrite !img_le_ld8 in Ha'.
    + destruct Ha' as (_ & _ & -> & Et). rewrite Et. destruct (Z.eqb_spec type BL_NTFS_ATTR_END); [done|].
      do 2 wp_step. rewrite Et, Z.eqb_refl. cbn [negb]. unfold attribute_value in HQ.
      revert HQ. unfold wp at 1 2, mbind, ST_bind, rd8, gets, mret, ST_ret, break.
      repeat case_match; try done; unfold mret, ST_ret in *; naive_solver.
    + destruct Ha' as (_ & _ & Hne & Hend & Hn & Hpos & Ha'). destruct (Z.eqb_spec (ld 4 (mem s) (a' + at_type)) BL_NTFS_ATTR_END); [done|].
      do 2 wp_step. destruct (Z.eqb_spec (ld 4 (mem s) (a' + at_type)) type); [done|]. cbn [negb]. do 4 wp_step. rewrite Hn.
      pose proof (attribute_from_bounds _ _ _ _ _ _ Ha') as (? & ? & ?). rewrite u32_small by lia. wp_steps.
      split; [|lia]. split; [done|]. by exists sizes'.
  - split; [done|]. by exists sizes.
  - lia.
Qed.

(** ** Reading an index block *)
Section Search.
Context (disks : disk_table) (f : ntfs_frame) (d : bl_storage_device) (image : Z → Z) (sectors : Z) (v : ntfs_volume).
Context (Hdisk : disk_reads d image sectors) (Hd : disks (nv_disk v) = Some d) (Hv : volume_ok v).
Context (name info lo hi : Z) (sizes : list Z) (p : Z) (rs : list data_run) (str : list Z).
#[local] Abbreviation isize := (nv_index_size v).

(** The bytes that the search relies on. *)
Definition static (a : Z) : Prop :=
  within name (Z.of_nat (length str) + 1) a ∨ within info sizeof_ntfs_info a ∨
  within (nv_iroot v + ir_index_record_size) 4 a ∨ within lo (hi - lo) a ∨ within (lit_i30 f) 8 a ∨ within (lit_indx f) 4 a.

Record scene (m : gmap Z Z) : Prop := Scene {
  sc_name : cstr m name str;
  sc_volume : volume_in m info v;
  sc_directory : 0 <= lo ∧ allocation_in m lo hi sizes p rs;
  sc_i30 : ld_bytes m (lit_i30 f) 8 = i30 ∧ lit_i30 f ≠ 0;
  sc_indx : ld_bytes m (lit_indx f) 4 = indx;
}.

Lemma scene_same m m' : (∀ a, static a → ld8 m' a = ld8 m a) → scene m → scene m'.
Proof.
  unfold static. intros Hs [H1 H2 [H3 H3'] [H4 H5] H6].
  assert (Hon : ∀ a n, (∀ x, within a n x → static x) → same_on a n m m') by (intros a n H x Hx; apply Hs, H, Hx).
  unfold static in Hon. split.
  - revert H1. apply cstr_ext. intros i Hi. symmetry. apply Hs. left. unfold within. lia.
  - revert H2. apply volume_in_same; apply Hon; tauto.
  - split; [done|]. revert H3'. apply allocation_in_same. apply Hon; tauto.
  - split; [|done]. rewrite <- H4. apply same_on_ld_bytes, Hon. tauto.
  - rewrite <- H6. apply same_on_ld_bytes, Hon. tauto.
Qed.

(** A state in which the heap may grow by [g] more. *)
Definition roomy (s : machine) (bs : list block) (g : Z) : Prop :=
  heap_inv s bs ∧ scene (mem s) ∧ (∀ a, static a → stable s bs g a) ∧ heap_end s bs + g <= 4294967296.

Lemma roomy_change_in s bs s' bs' new g h W :
  0 <= g → 0 <= h → roomy s bs (g + h) → heap_change s bs s' bs' [] new g W → (∀ a, static a → ¬ W a) → roomy s' bs' h.
Proof.
  intros Hg Hh (_ & Hsc & Hst & Hend) Hch HW. pose proof (ch_end _ _ _ _ _ _ _ _ Hch).
  assert (Hno : ∀ b : block, b ∉ []) by (intros b; apply not_elem_of_nil).
  split; [apply Hch|]. split; [|split; [|lia]].
  - eapply scene_same; [|exact Hsc]. intros a Ha. apply (ch_frame _ _ _ _ _ _ _ _ Hch); [|by intros b ?%Hno|by apply HW].
    eapply stable_weaken; [|by apply Hst]. lia.
  - intros a Ha. eapply change_stable; [exact Hch|done|by apply Hst|by intros b ?%Hno].
Qed.
Lemma roomy_change s bs s' bs' new g h :
  0 <= g → 0 <= h → roomy s bs (g + h) → heap_change s bs s' bs' [] new g (λ _, False) → roomy s' bs' h.
Proof. intros Hg Hh Hr Hch. eapply roomy_change_in; [exact Hg|exact Hh|exact Hr|exact Hch|tauto]. Qed.
Lemma roomy_less s bs g h : g <= h → roomy s bs h → roomy s bs g.
Proof.
  intros Hg (H1 & H2 & H3 & H4). split; [done|]. split; [done|]. split; [|lia].
  intros a Ha. eapply stable_weaken; [exact Hg|by apply H3].
Qed.

Lemma i30_chars m a i :
  ld_bytes m a 8 = i30 → 0 <= i < 4 → ld 2 m (a + 2 * i) = nth (Z.to_nat i) [36; 73; 51; 48] 0.
Proof.
  intros E Hi. replace (2 * i) with (Z.of_nat (Z.to_nat (2 * i))) by lia. unfold ld.
  rewrite <- (slice_ld_bytes m a 8) by lia. rewrite E.
  assert (i = 0 ∨ i = 1 ∨ i = 2 ∨ i = 3) as [-> | [-> | [-> | ->]]] by lia; reflexivity.
Qed.

Lemma check_name_run s : scene (mem s) → bl_ntfs_check_attribute_name p (lit_i30 f) s = Some (BL_STATUS_SUCCESS, s).
Proof.
  intros [_ _ [Hlo [[_ Ha] Hn [Hl Hi] [_ Hhi] _]] [Hlit Hlit0] _].
  apply attribute_from_bounds in Ha as (? & ? & Hp). rewrite img_le_ld8 in *. 
  pose proof (ld_range 2 (mem s) (lo + mft_attributes_offset)).
  assert (E : bl_wcsncmp (lit_i30 f) (p + at_nonresident_name) 4 s = Some (0, s)).
  { apply bl_wcsncmp_same; [done|unfold at_nonresident_name; lia|lia|]. intros i Hr.
    rewrite !(i30_chars (mem s)) by done. split; [done|].
    assert (i = 0 ∨ i = 1 ∨ i = 2 ∨ i = 3) as [-> | [-> | [-> | ->]]] by lia; done. }
  apply wp_exact. unfold bl_ntfs_check_attribute_name. wp_step. wp_step. rewrite Hl. change (4 =? 0) with false. cbv iota.
  wp_step. wp_step. rewrite truth_nz by done. cbv iota zeta. unfold at_nonresident_name in *. rewrite u32_small by lia.
  wp_known E. by wp_step.
Qed.

Lemma vcn_run s vcn lcn :
  scene (mem s) → block_cluster sectors v rs vcn lcn → bl_ntfs_vcn_to_lcn p vcn s = Some (lcn, s).
Proof.
  intros [_ _ [Hlo [[_ Ha] _ _ [Hr Hhi] [Hc Hde]]] _ _] (Hvcn & Hns & Hlt & Hl & Hsur & _ & _).
  apply attribute_from_bounds in Ha as (? & ? & ?). rewrite img_le_ld8 in *.
  pose proof (ld_range 2 (mem s) (lo + mft_attributes_offset)).
  rewrite (vcn_to_lcn_run p vcn rs s) by (done || lia).
  rewrite lcn_loop_read; [|by eapply runs_at_ok|lia|done]. rewrite Hl, Hsur. cbn. by rewrite Z.add_0_r.
Qed.

Lemma record_size_run s : scene (mem s) → index_record_size info s = Some (isize, s).
Proof.
  intros [_ [_ _ _ _ _ _ Hi Hz] _ _ _]. apply wp_exact. unfold index_record_size. wp_steps. by rewrite Hi, Hz.
Qed.

Lemma ntfs_disk_run s : scene (mem s) → ntfs_disk disks info s = Some (d, s).
Proof.
  intros [_ [Hk _ _ _ _ _ _ _] _ _ _]. apply wp_exact. unfold ntfs_disk. wp_step. wp_step. rewrite Hk.
  unfold disk_of. rewrite Hd. by wp_step.
Qed.

(** A read of the disk into a block that has come into use. *)
Lemma read_new_run s bs s1 bs1 b new g1 (W : Z → Prop) lba size :
  heap_change s bs s1 bs1 [] new g1 W → b ∈ new → 0 <= g1 → 0 < size <= b_size b → size + 512 <= 4294967296 →
  0 <= lba < 2 ^ 64 → lba + sector_round size / 512 <= sectors → 0 < b_data b → b_end b <= 4294967296 →
  heap_end s1 bs1 + cost (sector_round size) <= 4294967296 →
  ∃ s' bs', bl_storage_device_read d (b_data b) lba size 0 s1 = Some (BL_STATUS_SUCCESS, s') ∧
    heap_change s1 bs1 s' bs' [] [] (cost (sector_round size)) (within (b_data b) size) ∧
    heap_change s bs s' bs' [] new (g1 + cost (sector_round size)) W ∧
    ld_bytes (mem s') (b_data b) (Z.to_nat size) = slice image (512 * lba) size.
Proof.
  intros Hch Hb Hg Hsz Hsp Hlba Hin Hb0 Hbe Hroom.
  destruct (sector_round_spec size) as [Hr _]; [lia|]. assert (0 <= sector_round size) by lia.
  assert (Hbu : in_use bs1 b) by (apply (ch_used _ _ _ _ _ _ _ _ Hch); by right).
  destruct (storage_change_run d image sectors s1 bs1 (b_data b) lba size 0 Hdisk (ch_inv _ _ _ _ _ _ _ _ Hch))
    as (s' & bs' & Hrun & Hread & Hbytes).
  { split; rewrite ?Z.add_0_l; try lia; try done.
    - unfold room, cost, sizeof_head in *. lia.
    - split; [unfold in_space, b_end in *; lia|]. intros x Hx. eapply slot_stable; [apply Hch|exact Hbu| |unfold b_end in *; lia].
      pose proof (slot_bounds b). unfold b_end in *. lia. }
  rewrite Z.add_0_l, Z.add_0_r in *. exists s', bs'. split; [done|]. split; [done|]. split; [|done].
  rewrite <- (app_nil_r new). apply (change_drop _ _ _ _ _ _ _ (λ x, W x ∨ within (b_data b) size x)).
  - eapply change_new; [exact Hg|unfold cost, sizeof_head; lia| |].
    + eapply change_weaken; [reflexivity| |exact Hch]. auto.
    + eapply change_weaken; [reflexivity| |exact Hread]. auto.
  - intros x [Hx|Hx]; [by left|right]. exists b. rewrite app_nil_r. split; [done|]. unfold within, b_end in *. lia.
Qed.

Lemma index_allocation_run s bs vcn lcn :
  roomy s bs (block_cost isize) → block_cluster sectors v rs vcn lcn → slice image (cluster_byte v lcn) 4 = indx →
  ∃ b s' bs', bl_ntfs_get_index_allocation disks f p (Some (vcn, info)) s = Some (b_data b, s') ∧
    heap_change s bs s' bs' [] [b] (block_cost isize) (λ _, False) ∧ isize <= b_size b ∧ 0 < b_data b ∧
    b_end b <= 4294967296 ∧ ld_bytes (mem s') (b_data b) (Z.to_nat isize) = slice image (cluster_byte v lcn) isize.
Proof.
  intros Hro Hvcn Hmagic. pose proof Hro as (Hinv & Hsc & _ & Hend). pose proof (vo_index _ Hv) as [Hi Hi'].
  pose proof Hvcn as (_ & _ & _ & _ & _ & Hlcn & Hdk & Hs64). unfold block_cost in *.
  destruct (sector_round_spec isize) as [Hr _]; [lia|].
  assert (Hlba : 0 <= cluster_lba v lcn < 2 ^ 64).
  { destruct Hsc as [_ [_ Hl _ _ _ _ _ _] _ _ _]. pose proof (ld_range 8 (mem s) (info + ni_lba)) as Hrl. rewrite Hl in Hrl.
    unfold cluster_lba in *. pose proof (Z.pow_nonneg 2 (nv_shift v) ltac:(lia)).
    pose proof (Z.div_pos (sector_round isize) 512 ltac:(lia) ltac:(lia)). nia. }
  destruct (alloc_change s bs isize Hinv) as (b & bs1 & s1 & Hal & Hch1 & Hbz & Hb0 & Hbe);
    [lia|unfold room, cost, sizeof_head in *; lia|].
  assert (Hro1 : roomy s1 bs1 (cost (sector_round isize))).
  { eapply roomy_change; [| |exact Hro|exact Hch1]; unfold cost, sizeof_head; lia. }
  destruct (read_new_run s bs s1 bs1 b [b] (cost isize) _ (cluster_lba v lcn) isize Hch1)
    as (s2 & bs2 & Hread & Hch12 & Hch2 & Hbytes); [left|unfold cost, sizeof_head; lia|lia|lia|done|done|done|done|apply Hro1|].
  assert (Hro2 : roomy s2 bs2 0).
  { eapply roomy_change; [| |rewrite Z.add_0_r; exact Hro|exact Hch2]; unfold cost, sizeof_head; lia. }
  assert (Hcmp : bl_memcmp (lit_indx f) (b_data b + ih_magic) 4 s2 = Some (0, s2)).
  { rewrite bl_memcmp_run by lia. f_equal. f_equal. apply bytes_diff_zero; [by rewrite !length_ld_bytes|].
    destruct Hro2 as (_ & Hsc2 & _). change (Z.to_nat 4) with 4%nat. rewrite (sc_indx _ Hsc2), <- Hmagic.
    unfold ih_magic. rewrite Z.add_0_r, <- (take_ld_bytes _ _ (Z.to_nat isize)), Hbytes by lia.
    fold (cluster_byte v lcn). replace isize with (4 + (isize - 4)) by lia. rewrite slice_app by lia.
    rewrite take_app_length'; [done|]. pose proof (length_slice image (cluster_byte v lcn) 4). lia. }
  exists b, s2, bs2. split; [|done]. unfold bl_ntfs_get_index_allocation.
  pose proof (check_name_run s Hsc) as E1. run_with E1. change (failed BL_STATUS_SUCCESS) with false. cbv iota.
  pose proof (vcn_run s vcn lcn Hsc Hvcn) as E2. run_with E2. pose proof (record_size_run s Hsc) as E3. run_with E3.
  run_with Hal. unfold is_null at 1. destruct (Z.eqb_spec (b_data b) 0); [lia|].
  pose proof Hro1 as (_ & Hsc1 & _). pose proof (ntfs_disk_run s1 Hsc1) as E4. run_with E4.
  pose proof (lcn_to_lba_run v info lcn s1 (sc_volume _ Hsc1) Hv Hlcn ltac:(lia)) as E5. run_with E5.
  pose proof (record_size_run s1 Hsc1) as E6. run_with E6. run_with Hread.
  change (failed BL_STATUS_SUCCESS) with false. cbv iota. by run_with Hcmp.
Qed.

Lemma flag_byte m a : img_le 1 (ld8 m) a = ld8 m a.
Proof. rewrite img_le_ld8. unfold ld. cbn [ld_bytes le_combine]. rewrite u8_small by apply ld8_range. lia. Qed.

Lemma read_child_run s bs entry vcn lcn :
  roomy s bs (block_cost isize) → is_parent (ld8 (mem s)) entry = true →
  img_le 8 (ld8 (mem s)) (entry + entry_size (ld8 (mem s)) entry - 8) = vcn →
  block_cluster sectors v rs vcn lcn → slice image (cluster_byte v lcn) 4 = indx →
  ∃ b s' bs', bl_ntfs_read_child_node disks f entry lo info s = Some (b_data b, s') ∧
    heap_change s bs s' bs' [] [b] (block_cost isize) (λ _, False) ∧ isize <= b_size b ∧ 0 < b_data b ∧
    b_end b <= 4294967296 ∧ ld_bytes (mem s') (b_data b) (Z.to_nat isize) = slice image (cluster_byte v lcn) isize.
Proof.
  intros Hro Hpar Hv8 Hcl Hmagic. unfold entry_size in Hv8. rewrite !img_le_ld8 in Hv8.
  unfold is_parent in Hpar. rewrite flag_byte in Hpar.
  destruct (index_allocation_run s bs vcn lcn Hro Hcl Hmagic) as (b & s' & bs' & Hrun & Hrest).
  exists b, s', bs'. split; [|exact Hrest]. apply wp_exact. unfold bl_ntfs_read_child_node. wp_step. wp_step.
  destruct (Z.eqb_spec (Z.land (ld8 (mem s) (entry + ie_flags)) BL_NTFS_INDEX_ENTRY_PARENT) 0) as [E|_]; [by rewrite E in Hpar|].
  unfold bl_ntfs_get_child_vcn. wp_steps. rewrite Hv8.
  destruct Hro as (_ & Hsc & _). pose proof (sc_directory _ Hsc) as [Hlo [Ha Hn _ [_ Hhi] _]].
  eapply attribute_walk; [exact Ha|done|apply Hhi|done|]. unfold attribute_value. wp_step. wp_step. rewrite truth_nz by done.
  change (BL_NTFS_ATTR_INDEX_ALLOCATION =? BL_NTFS_ATTR_INDEX_ALLOCATION) with true. cbv iota. by apply wp_exact.
Qed.

(** ** The search *)

(** Where the current node is: in the directory's record, or in the index block
    that was read last, which is the only block taken. *)
Definition node_home (L : list block) (index entry hi' : Z) : Prop :=
  (L = [] ∧ index = NULL ∧ lo <= entry ∧ hi' = hi) ∨
  (∃ b, L = [b] ∧ index = b_data b ∧ 0 < b_data b ∧ b_end b <= 4294967296 ∧ b_data b <= entry ∧
     hi' = b_data b + isize ∧ isize <= b_size b).

Definition index_tree_in (b : Z → Z) (hi o : Z) (t : index_tree) : Prop := tree_in image sectors v rs b hi o t.

Lemma free_index_run s index : scene (mem s) → free_index info index s = bl_heap_free index isize s.
Proof. intros Hsc. unfold free_index. pose proof (record_size_run s Hsc) as E. by run_with E. Qed.

(** The node in an index block that was read. *)
Lemma child_first_run s b lcn c :
  0 < b_data b → isize <= b_size b → b_end b <= 4294967296 → copy_of s (b_data b) image (cluster_byte v lcn) isize →
  let node := cluster_byte v lcn + ih_node in
  index_tree_in image (cluster_byte v lcn + isize) (node + img_le 4 image (node + node_entries_offset)) c →
  ∃ first, bl_ntfs_ialloc_get_first_entry (b_data b) s = Some (first, s) ∧ b_data b <= first ∧
    index_tree_in (ld8 (mem s)) (b_data b + isize) first c.
Proof.
  intros Hb0 Hbz Hbe Hc node Htree. pose proof (vo_index _ Hv) as [Hi _]. set (dd := b_data b - cluster_byte v lcn).
  assert (Hb : ∀ x, cluster_byte v lcn <= x < cluster_byte v lcn + isize → u8 (ld8 (mem s) (x + dd)) = u8 (image x)).
  { intros x Hx. replace (x + dd) with (b_data b + (x - cluster_byte v lcn)) by (unfold dd; lia). rewrite Hc by lia.
    rewrite u8_idemp. do 2 f_equal. lia. }
  set (o := img_le 4 image _) in Htree. pose proof (tree_in_bounds _ _ _ _ _ _ _ _ Htree) as [_ Hob].
  pose proof (img_le_range 4 image (cluster_byte v lcn + ih_node + node_entries_offset)) as Hor.
  unfold node in *. fold o in Hor. unfold ih_node, node_entries_offset in *.
  assert (Eo : ld 4 (mem s) (b_data b + 24 + 0) = o).
  { rewrite <- img_le_ld8. unfold o. replace (b_data b + 24 + 0) with (cluster_byte v lcn + 24 + 0 + dd) by (unfold dd; lia).
    apply (img_le_shift _ _ _ _ _ Hb); lia. }
  exists (b_data b + 24 + o). split; [|split; [lia|]].
  - apply wp_exact. unfold bl_ntfs_ialloc_get_first_entry, ih_node, node_entries_offset. wp_steps. rewrite Eo. split; [|done].
    apply u32_small. unfold b_end in *. lia.
  - unfold index_tree_in in *. replace (b_data b + isize) with (cluster_byte v lcn + isize + dd) by (unfold dd; lia).
    replace (b_data b + 24 + o) with (cluster_byte v lcn + 24 + o + dd) by (unfold dd; lia).
    apply (tree_in_shift image sectors v rs image _ (cluster_byte v lcn)); [done|unfold dd; lia|lia|done].
Qed.

Lemma descend_run s0 bs0 s bs L index entry hi' g vcn c :
  heap_change s0 bs0 s bs [] L g (λ _, False) → 0 <= g → roomy s0 bs0 (g + block_cost isize) →
  node_home L index entry hi' → is_parent (ld8 (mem s)) entry = true →
  img_le 8 (ld8 (mem s)) (entry + entry_size (ld8 (mem s)) entry - 8) = vcn →
  index_block image sectors v rs vcn (λ hi o, index_tree_in image hi o c) →
  ∃ b first s' bs', ntfs_descend disks f lo info entry index s = Some (inl (first, b_data b), s') ∧
    heap_change s0 bs0 s' bs' [] [b] (g + block_cost isize) (λ _, False) ∧
    node_home [b] (b_data b) first (b_data b + isize) ∧ index_tree_in (ld8 (mem s')) (b_data b + isize) first c.
Proof.
  intros Hch Hg Hro Hhome Hpar Hv8 (lcn & Hcl & Hmagic & Htree). pose proof (vo_index _ Hv) as [Hi Hi'].
  assert (Hbc : 0 <= block_cost isize).
  { destruct (sector_round_spec isize) as [? _]; [lia|]. unfold block_cost, cost, sizeof_head. lia. }
  pose proof (roomy_change _ _ _ _ _ _ _ Hg Hbc Hro Hch) as Hro1.
  destruct (read_child_run s bs entry vcn lcn Hro1 Hpar Hv8 Hcl Hmagic) as (b & s1 & bs1 & Hrun & Hch1 & Hbz & Hb0 & Hbe & Hbytes).
  assert (Hro2 : roomy s1 bs1 0).
  { eapply roomy_change; [exact Hbc|lia|rewrite Z.add_0_r; exact Hro1|exact Hch1]. }
  assert (Hcopy : ∀ s', (∀ x, b_data b <= x < b_data b + isize → ld8 (mem s') x = ld8 (mem s1) x) →
    ∃ first, bl_ntfs_ialloc_get_first_entry (b_data b) s' = Some (first, s') ∧ b_data b <= first ∧
      index_tree_in (ld8 (mem s')) (b_data b + isize) first c).
  { intros s' Hsame. apply (child_first_run s' b lcn c); try done. intros k Hk. rewrite Hsame by lia.
    by apply (copy_of_read s1 _ image _ isize); [lia| |]. }
  assert (Hhome' : ∀ first, b_data b <= first → node_home [b] (b_data b) first (b_data b + isize)).
  { intros first Hf. right. exists b. done. }
  pose proof (change_new _ _ _ _ _ _ _ _ _ _ _ Hg Hbc Hch Hch1) as Hall.
  unfold ntfs_descend. run_with Hrun. unfold is_null at 1. destruct (Z.eqb_spec (b_data b) 0); [lia|].
  destruct Hhome as [(-> & -> & _)|(b0 & -> & -> & Hb00 & _)].
  - destruct (Hcopy s1) as (first & Hfirst & Hle & Ht); [done|]. exists b, first, s1, bs1.
    change (is_null NULL) with true. cbv iota. rewrite (bind_run _ _ () s1 s1) by done. run_with Hfirst.
    split; [done|]. split; [done|]. split; [by apply Hhome'|done].
  - unfold is_null at 1. destruct (Z.eqb_spec (b_data b0) 0); [lia|].
    assert (Hne : b ≠ b0).
    { intros ->. apply (ch_fresh _ _ _ _ _ _ _ _ Hch1 b0); [left|]. apply (ch_used _ _ _ _ _ _ _ _ Hch). right; left. }
    destruct (change_free s0 bs0 s1 bs1 b0 [b] _ _ isize Hall) as (s2 & bs2 & Hfree & Hch2 & [_ _ Hkeep _]).
    { by intros ->%list_elem_of_singleton. }
    destruct (Hcopy s2) as (first & Hfirst & Hle & Ht).
    { intros x Hx. apply Hkeep. pose proof (slot_bounds b). unfold b_end in *. apply (slot_stable s1 bs1 0 b); [apply Hro2| |lia..].
      apply (ch_used _ _ _ _ _ _ _ _ Hch1). right; left. }
    exists b, first, s2, bs2. pose proof Hro2 as (_ & Hsc2 & _). pose proof (free_index_run s1 (b_data b0) Hsc2) as Ef.
    rewrite Hfree in Ef. run_with Ef. run_with Hfirst. split; [done|]. split; [done|]. split; [by apply Hhome'|done].
Qed.

Lemma entry_in_name m hi' o e : entry_in (ld8 m) hi' o e → entry_name m (o + ie_data) (de_chars e).
Proof.
  intros (_ & _ & Hl & Hc & Hn & Hlen & _). rewrite flag_byte in Hl. split; [done|].
  split; [|done]. intros i c Hi. rewrite <- img_le_ld8. by apply Hc.
Qed.

(** What the loop keeps: the tree of the current node stands for the whole. *)
Definition searching (t0 : index_tree) (s0 : machine) (bs0 : list block) (n : Z) (x : Z * Z) (s : machine) : Prop :=
  ∃ t bs L hi' k, 0 <= k ∧ depth t + k <= depth t0 ∧ heap_change s0 bs0 s bs [] L (k * block_cost isize) (λ _, False) ∧
    node_home L x.2 x.1 hi' ∧ index_tree_in (ld8 (mem s)) hi' x.1 t ∧ tree_find str t = tree_find str t0 ∧
    n = depth t * 2 ^ 28 + (hi' - x.1) / 16.

Definition found_entry (o : option dir_entry) (s0 : machine) (bs0 : list block) (g : Z) (r : bool * Z * Z) (s : machine) : Prop :=
  ∃ bs L hi', heap_change s0 bs0 s bs [] L g (λ _, False) ∧ node_home L r.2 r.1.2 hi' ∧
    match o with
    | Some e => r.1.1 = true ∧ entry_in (ld8 (mem s)) hi' r.1.2 e
    | None => r.1.1 = false
    end.

Lemma block_cost_nonneg : 0 <= block_cost isize.
Proof.
  pose proof (vo_index _ Hv) as [Hi _]. destruct (sector_round_spec isize) as [? _]; [lia|].
  unfold block_cost, cost, sizeof_head. lia.
Qed.

Lemma node_home_end L index entry hi' : node_home L index entry hi' → hi <= 4294967296 → hi' <= 4294967296.
Proof. intros [(_ & _ & _ & ->)|(b & _ & _ & _ & ? & _ & -> & ?)] ?; unfold b_end in *; lia. Qed.

(** The next entry of the same node. *)
Lemma index_next t0 s0 bs0 s L bs hi' k entry index rest e n :
  0 <= k → depth rest + k <= depth t0 → heap_change s0 bs0 s bs [] L (k * block_cost isize) (λ _, False) →
  node_home L index entry hi' → index_tree_in (ld8 (mem s)) hi' e rest → tree_find str rest = tree_find str t0 →
  entry + 16 <= e → depth rest * 2 ^ 28 + (hi' - entry) / 16 <= n →
  ∃ n', 0 <= n' < n ∧ searching t0 s0 bs0 n' (e, index) s.
Proof.
  intros Hk Hdep Hch Hhome Ht Hf He Hn. pose proof (tree_in_bounds _ _ _ _ _ _ _ _ Ht). pose proof (depth_nonneg rest).
  exists (depth rest * 2 ^ 28 + (hi' - e) / 16). split.
  - split; [|eapply Z.lt_le_trans; [|exact Hn]; Z.div_mod_to_equations; lia]. Z.div_mod_to_equations. lia.
  - exists rest, bs, L, hi', k. split_and!; try done. destruct Hhome as [(? & ? & ? & ?)|(b & ? & ? & ? & ? & ? & ?)].
    + left. cbn [fst snd]. split_and!; (done || lia).
    + right. exists b. cbn [fst snd]. split_and!; (done || lia || tauto).
Qed.

(** A child of the current entry. *)
Lemma index_descend t0 s0 bs0 s bs L hi' k entry index vcn c n :
  0 <= k → 1 + depth c + k <= depth t0 → heap_change s0 bs0 s bs [] L (k * block_cost isize) (λ _, False) →
  roomy s0 bs0 (depth t0 * block_cost isize) → node_home L index entry hi' →
  is_parent (ld8 (mem s)) entry = true →
  img_le 8 (ld8 (mem s)) (entry + entry_size (ld8 (mem s)) entry - 8) = vcn →
  index_block image sectors v rs vcn (λ hi o, index_tree_in image hi o c) → tree_find str c = tree_find str t0 →
  (1 + depth c) * 2 ^ 28 <= n →
  wp (ntfs_descend disks f lo info entry index) (λ o s', match o with
    | inl x => ∃ n', 0 <= n' < n ∧ searching t0 s0 bs0 n' x s'
    | inr r => False
    end) s.
Proof.
  intros Hk Hdep Hch Hro Hhome Hpar Hv8 Hblock Hf Hn. pose proof block_cost_nonneg as Hbc. pose proof (depth_nonneg c).
  destruct (descend_run s0 bs0 s bs L index entry hi' (k * block_cost isize) vcn c Hch) as (b & first & s' & bs' & Hrun & Hch' & Hhome' & Ht');
    [nia|eapply roomy_less; [|exact Hro]; nia|done..|].
  apply wp_run. exists (inl (first, b_data b)), s'. split; [done|].
  pose proof (tree_in_bounds _ _ _ _ _ _ _ _ Ht') as [? ?].
  exists (depth c * 2 ^ 28 + (b_data b + isize - first) / 16). split.
  - assert (b_data b + isize <= 4294967296 ∧ 0 < first).
    { destruct Hhome' as [(? & _)|(b' & E & _ & ? & ? & ? & _ & ?)]; [done|]. injection E as <-. unfold b_end in *. lia. }
    Z.div_mod_to_equations. lia.
  - exists c, bs', [b], (b_data b + isize), (k + 1). split_and!; try done; [lia|lia|].
    by replace ((k + 1) * block_cost isize) with (k * block_cost isize + block_cost isize) by lia.
Qed.

Lemma search_run t0 entry0 s0 bs0 :
  roomy s0 bs0 (depth t0 * block_cost isize) → depth t0 < 60 → lo <= entry0 → index_tree_in (ld8 (mem s0)) hi entry0 t0 →
  wp (ntfs_search disks f name lo info entry0) (found_entry (tree_find str t0) s0 bs0 (depth t0 * block_cost isize)) s0.
Proof.
  intros Hro Hdep Hlo0 Ht0. pose proof block_cost_nonneg as Hbc. pose proof (depth_nonneg t0).
  pose proof Hro as (Hinv & Hsc & _). pose proof (sc_directory _ Hsc) as [Hlo [_ _ _ [_ [_ Hhi]] _]].
  unfold ntfs_search. apply (wp_mwhile_ranked _ (searching t0 s0 bs0) _ (depth t0 * 2 ^ 28 + (hi - entry0) / 16)).
  2:{ exists t0, bs0, [], hi, 0. split_and!; try done; [lia|by apply change_refl|by left]. }
  2:{ pose proof (tree_in_bounds _ _ _ _ _ _ _ _ Ht0). unfold while_fuel. Z.div_mod_to_equations. lia. }
  intros n [entry index] s (t & bs & L & hi' & k & Hk & Hd' & Hch & Hhome & Ht & Hf & Hn). cbn [fst snd] in *.
  pose proof (node_home_end _ _ _ _ Hhome Hhi) as Hhi'. pose proof (depth_nonneg t).
  assert (Hsc' : scene (mem s)).
  { eapply (roomy_change s0 bs0 s bs _ (k * block_cost isize) 0); [nia|lia| |exact Hch].
    eapply roomy_less; [|exact Hro]. nia. }
  assert (Hdone : ∀ b, (if b : bool then ∃ e, tree_find str t = Some e ∧ entry_in (ld8 (mem s)) hi' entry e
      else tree_find str t = None) → found_entry (tree_find str t0) s0 bs0 (depth t0 * block_cost isize) (b, entry, index) s).
  { intros b Hb. exists bs, L, hi'. split; [|split; [done|]].
    - eapply change_weaken; [| |exact Hch]; [nia|done].
    - rewrite <- Hf. destruct b; [by destruct Hb as (e & -> & He)|by rewrite Hb]. }
  pose proof (tree_in_bounds _ _ _ _ _ _ _ _ Ht) as [Hent0 Hent1].
  assert (Hdiv : 0 <= (hi' - entry) / 16) by (apply Z.div_pos; lia).
  assert (Hflags : ∀ bit, truth (Z.land (ld8 (mem s) (entry + ie_flags)) bit) = truth (Z.land (img_le 1 (ld8 (mem s)) (entry + ie_flags)) bit))
    by (intros bit; by rewrite flag_byte).
  assert (Hcmp : ∀ e, entry_in (ld8 (mem s)) hi' entry e → bl_ntfs_strcmp name (u32 (entry + ie_data)) s = Some (name_diff str (de_chars e), s)).
  { intros e He. rewrite u32_small by (destruct He as (_ & _ & _ & _ & _ & _ & He); unfold ie_data, fn_filename in *; lia).
    eapply ntfs_strcmp_run; [apply Hsc'|by eapply entry_in_name]. }
  assert (Hnext : ∀ rest, 16 <= entry_size (ld8 (mem s)) entry → index_tree_in (ld8 (mem s)) hi' (entry + entry_size (ld8 (mem s)) entry) rest →
    bl_ntfs_get_next_entry entry s = Some (entry + entry_size (ld8 (mem s)) entry, s)).
  { intros rest Hz Hr. pose proof (tree_in_bounds _ _ _ _ _ _ _ _ Hr). apply wp_exact. unfold bl_ntfs_get_next_entry. wp_steps.
    split; [|done]. unfold entry_size in *. rewrite img_le_ld8 in *. apply u32_small. lia. }
  wp_step. wp_step. rewrite !Hflags. fold (is_parent (ld8 (mem s)) entry) (is_last (ld8 (mem s)) entry).
  destruct t as [|vcn c|e rest|e vcn c rest]; cbn [index_tree_in tree_in] in Ht; destruct Ht as (_ & _ & Ht); cbn [depth tree_find] in *.
  - destruct Ht as (-> & ->). cbn [andb]. wp_step. by apply (Hdone false).
  - destruct Ht as (Hpar & -> & Hz & Hze & Hvc & Hblock). rewrite Hpar. cbn [andb].
    eapply wp_mono; [apply (index_descend t0 s0 bs0 s bs L hi' k entry index vcn c n); try done; lia|]. by intros [x|r] s' Hx.
  - destruct Ht as (-> & -> & He & Hz & Hr). cbn [andb]. wp_known (Hcmp e He).
    destruct (Z.eqb_spec (name_diff str (de_chars e)) 0) as [E|E]; [wp_step; apply (Hdone true); eauto|].
    wp_known (Hnext rest Hz Hr). wp_step. apply (index_next t0 s0 bs0 s L bs hi' k entry index rest); (done || lia).
  - destruct Ht as (Hpar & -> & He & (_ & Hze & Hvc & Hblock) & Hz & Hr). rewrite Hpar. cbn [andb]. wp_known (Hcmp e He).
    destruct (Z.ltb_spec (name_diff str (de_chars e)) 0) as [Hneg|Hneg].
    + eapply wp_mono; [apply (index_descend t0 s0 bs0 s bs L hi' k entry index vcn c n); try done; lia|]. by intros [x|r] s' Hx.
    + destruct (Z.eqb_spec (name_diff str (de_chars e)) 0) as [E|E]; [wp_step; apply (Hdone true); eauto|].
      wp_known (Hnext rest Hz Hr). wp_step. apply (index_next t0 s0 bs0 s L bs hi' k entry index rest); (done || lia).
Qed.

(** ** The node of the entry that was found *)
Definition is_dir (e : dir_entry) : Z := Z.land (de_flags e) BL_NTFS_FILE_FLAGS_DIRECTORY.

(** The entry at [entry] stays while the heap grows by at most [g]. *)
Definition entry_stays (s : machine) (bs : list block) (g hi' entry : Z) (e : dir_entry) : Prop :=
  entry_in (ld8 (mem s)) hi' entry e ∧ 0 <= entry ∧ hi' <= 4294967296 ∧ entry + 16 <= hi' ∧
  ∀ x, entry <= x < hi' → stable s bs g x.

Lemma entry_in_flags m hi' entry e :
  entry_in (ld8 m) hi' entry e → ld 4 m (entry + ie_data + fn_flags) = de_flags e.
Proof. intros (_ & H & _). by rewrite <- img_le_ld8. Qed.

Lemma is_dir_range m hi' entry e : entry_in (ld8 m) hi' entry e → 0 <= is_dir e < 4294967296.
Proof.
  intros He. pose proof (ld4_range m (entry + ie_data + fn_flags)) as Hr. rewrite (entry_in_flags _ _ _ _ He) in Hr.
  assert (H0 : 0 <= is_dir e) by (apply Z.land_nonneg; lia). split; [done|].
  destruct (Z.eq_dec (is_dir e) 0) as [->|Hnz]; [done|]. change 4294967296 with (2 ^ 32). apply Z.log2_lt_pow2; [lia|].
  eapply Z.le_lt_trans; [apply Z.log2_land; unfold BL_NTFS_FILE_FLAGS_DIRECTORY; lia|].
  eapply Z.le_lt_trans; [apply Z.le_min_r|]. done.
Qed.

Lemma is_directory_run s hi' entry e :
  entry_in (ld8 (mem s)) hi' entry e → 0 <= entry → hi' <= 4294967296 →
  BL_NTFS_IS_DIRECTORY (u32 (entry + ie_data)) s = Some (is_dir e, s).
Proof.
  intros He H0 Hhi. pose proof He as (_ & _ & _ & _ & _ & _ & Hend).
  apply wp_exact. unfold BL_NTFS_IS_DIRECTORY. wp_steps. rewrite u32_small by (unfold ie_data, fn_filename in *; lia).
  by rewrite (entry_in_flags _ _ _ _ He).
Qed.

Lemma entry_stays_change s bs s' bs' new g h W hi' entry e :
  0 <= g → 0 <= h → entry_stays s bs (g + h) hi' entry e → heap_change s bs s' bs' [] new g W →
  (∀ x, entry <= x < hi' → ¬ W x) → entry_stays s' bs' h hi' entry e.
Proof.
  intros Hg Hh (He & H0 & H1 & H2 & Hst) Hch HW. assert (Hno : ∀ b : block, b ∉ []) by (intros b; apply not_elem_of_nil).
  split; [|split; [done|split; [done|split; [done|]]]].
  - replace hi' with (hi' + 0) by lia. replace entry with (entry + 0) by lia.
    apply (entry_in_shift (ld8 (mem s)) _ entry hi' 0); [|lia|done|done].
    intros x Hx. rewrite Z.add_0_r. f_equal. apply (ch_frame _ _ _ _ _ _ _ _ Hch); [|by intros b ?%Hno|by apply HW].
    eapply stable_weaken; [|by apply Hst]. lia.
  - intros x Hx. eapply change_stable; [exact Hch|done|by apply Hst|by intros b ?%Hno].
Qed.

Definition node_cost : Z := cost sizeof_tree_node + cost sizeof_ntfs_file_data.

Lemma match_alloc_run s bs directory node entry index hi' e g :
  roomy s bs (node_cost + g) → 0 <= g → entry_stays s bs (node_cost + g) hi' entry e →
  directory && negb (truth (is_dir e)) = false →
  ∃ nb db s' bs', ntfs_match disks f name directory info node entry index s =
      ntfs_fill_node disks f name info node (b_data nb) (b_data db) entry index s' ∧
    heap_change s bs s' bs' [] [nb; db] node_cost (λ _, False) ∧ nb ≠ db ∧
    (sizeof_tree_node <= b_size nb ∧ 0 < b_data nb ∧ b_end nb <= 4294967296) ∧
    (sizeof_ntfs_file_data <= b_size db ∧ 0 < b_data db ∧ b_end db <= 4294967296) ∧
    ld 4 (mem s') (b_data nb + node_prev) = NULL ∧ ld 4 (mem s') (b_data nb + node_fdata) = b_data db ∧
    ld 4 (mem s') (b_data db + nfd_dir) = is_dir e ∧ ld 4 (mem s') (b_data db + nfd_rootdir) = 0.
Proof.
  intros Hro Hg He Hdir. pose proof Hro as (Hinv & _ & _ & Hend). unfold node_cost in *.
  assert (Hc8 : 0 <= cost sizeof_tree_node ∧ 0 <= cost sizeof_ntfs_file_data) by (unfold cost, sizeof_head, sizeof_tree_node, sizeof_ntfs_file_data; lia).
  destruct (alloc_more s bs s bs [] 0 (λ _, False) sizeof_tree_node (change_refl s bs Hinv))
    as (nb & s1 & bs1 & Hal1 & _ & C1 & _ & Hnz & Hn0 & Hne); [lia|unfold sizeof_tree_node; lia|lia|].
  cbn [app] in C1. rewrite Z.add_0_l in C1. set (m2 := st 4 (mem s1) (b_data nb + node_prev) NULL).
  unfold sizeof_tree_node, sizeof_ntfs_file_data in Hnz.
  assert (C2 : heap_change s bs (set_mem m2 s1) bs1 [] [nb] (cost sizeof_tree_node) (λ _, False)).
  { eapply change_st_new; [done|exact C1|left|unfold node_prev, b_end; lia..]. }
  pose proof (ch_end _ _ _ _ _ _ _ _ C2) as He2.
  destruct (alloc_more s bs (set_mem m2 s1) bs1 [nb] _ _ sizeof_ntfs_file_data C2)
    as (db & s3 & bs3 & Hal3 & C23 & C3 & Hnew & Hdz & Hd0 & Hde); [lia|unfold sizeof_ntfs_file_data; lia|lia|].
  unfold sizeof_ntfs_file_data in Hdz. assert (Hne' : nb ≠ db) by (intros ->; apply Hnew; left).
  assert (Hprev : ld 4 (mem s3) (b_data nb + node_prev) = NULL).
  { assert (Hs : same_on (b_data nb) (b_size nb) m2 (mem s3)).
    { apply (change_same_on _ _ _ _ _ _ _ _ C23 (ch_inv _ _ _ _ _ _ _ _ C2)); [|done|tauto].
      apply (ch_used _ _ _ _ _ _ _ _ C2); right; left. }
    rewrite (same_on_ld m2); [|eapply same_on_sub; [exact Hs|..]; unfold node_prev; lia].
    apply ld4_st4_same; [unfold node_prev, in_space, b_end in *; lia|unfold NULL; lia]. }
  set (s4 := set_mem (st 4 (mem s3) (b_data nb + node_fdata) (b_data db)) s3).
  assert (C4 : heap_change s bs s4 bs3 [] [nb; db] (cost sizeof_tree_node + cost sizeof_ntfs_file_data) (λ _, False)).
  { eapply change_st_new; [done|exact C3|left|unfold node_fdata, b_end; lia..]. }
  set (m4 := st 4 (st 4 (mem s4) (b_data db + nfd_dir) (is_dir e)) (b_data db + nfd_rootdir) 0).
  assert (C5 : heap_change s bs (set_mem m4 s4) bs3 [] [nb; db] (cost sizeof_tree_node + cost sizeof_ntfs_file_data) (λ _, False)).
  { assert (Hdb : db ∈ [nb; db]) by (right; left). unfold m4.
    assert (C4' : heap_change s bs (set_mem (st 4 (mem s4) (b_data db + nfd_dir) (is_dir e)) s4) bs3 [] [nb; db]
                    (cost sizeof_tree_node + cost sizeof_ntfs_file_data) (λ _, False)).
    { eapply change_st_new; [done|exact C4|exact Hdb|unfold nfd_dir, b_end; lia..]. }
    rewrite <- (set_mem_set_mem _ (st 4 (mem s4) (b_data db + nfd_dir) (is_dir e))).
    rewrite <- (mem_set_mem (st 4 (mem s4) (b_data db + nfd_dir) (is_dir e)) s4) at 1.
    eapply change_st_new; [done|exact C4'|exact Hdb|unfold nfd_rootdir, b_end; lia..]. }
  assert (Hap : b_end nb <= b_data db ∨ b_end db <= b_data nb).
  { apply (in_use_disjoint s3 bs3); [apply C3|..|done]; apply (ch_used _ _ _ _ _ _ _ _ C3); right; [left|right; left]. }
  exists nb, db, (set_mem m4 s4), bs3. split; [|split; [done|]].
  - unfold ntfs_match. pose proof He as (He' & H0 & Hhi & _ & _).
    pose proof (is_directory_run s hi' entry e He' H0 Hhi) as Er. run_with Er. rewrite Hdir. run_with Hal1.
    unfold is_null at 1. destruct (Z.eqb_spec (b_data nb) 0); [lia|]. rewrite (bind_run _ _ () s1 (set_mem m2 s1)) by done.
    run_with Hal3. rewrite (bind_run _ _ () s3 s4) by done.
    unfold is_null at 1. destruct (Z.eqb_spec (b_data db) 0); [lia|].
    assert (Er4 : BL_NTFS_IS_DIRECTORY (u32 (entry + ie_data)) s4 = Some (is_dir e, s4)).
    { eapply (is_directory_run _ hi'); [|done|done].
      eapply (entry_stays_change s bs s4 bs3 _ _ g); [|exact Hg|exact He|exact C4|tauto]. lia. }
    run_with Er4. done.
  - do 3 (split; [done|]). rewrite mem_set_mem.
    unfold m4, s4, node_fdata, node_prev, nfd_dir, nfd_rootdir, b_end in *. rewrite mem_set_mem.
    pose proof (is_dir_range _ _ _ _ (proj1 He)).
    repeat first [rewrite ld4_st4_same by (lia || field_side) | rewrite ld_st_other by field_side]. done.
Qed.

(** ** The record of the entry *)
#[local] Abbreviation rsize := (nv_record_size v).
Definition record_lba (e : dir_entry) : Z := nv_mft_lba v + MFT_RECORD (de_record e) * 2 ^ nv_record_shift v.
Definition record_byte (e : dir_entry) : Z := 512 * record_lba e.

Lemma mft_record_range r : 0 <= MFT_RECORD r < two48.
Proof.
  unfold MFT_RECORD. change (Z.shiftl 1 48 - 1) with (Z.ones 48). rewrite Z.land_ones by lia. by apply Z.mod_pos_bound.
Qed.

Lemma read_mft_run s r buf :
  scene (mem s) → bl_ntfs_read_mft disks info buf r s =
  bl_storage_device_read d buf (nv_mft_lba v + MFT_RECORD r * 2 ^ nv_record_shift v) rsize 0 s ∨
  2 ^ 64 <= nv_mft_lba v + MFT_RECORD r * 2 ^ nv_record_shift v.
Proof.
  intros Hsc. destruct (decide (nv_mft_lba v + MFT_RECORD r * 2 ^ nv_record_shift v < 2 ^ 64)) as [Hlt|]; [left|right; lia].
  pose proof (sc_volume _ Hsc) as [_ _ Hs _ Hm Hr _ _]. pose proof Hv as [Hss _ [Ers Hrs] _].
  pose proof (ld_range 8 (mem s) (info + ni_mft_lba)) as Hml. rewrite Hm in Hml. pose proof (mft_record_range r).
  pose proof (Z.pow_nonneg 2 (nv_record_shift v) ltac:(lia)).
  assert (E : bl_ntfs_mft_record_lba info r s = Some (nv_mft_lba v + MFT_RECORD r * 2 ^ nv_record_shift v, s)).
  { apply wp_exact. unfold bl_ntfs_mft_record_lba. do 6 wp_step. rewrite Hm, Hr, Hs. wp_step. unfold udiv.
    destruct (Z.eqb_spec (nv_sector_size v) 0); [lia|]. wp_steps. rewrite Ers, shift_run by lia. split; [|done].
    apply u64_small. change (2 ^ 64) with 18446744073709551616 in Hlt. nia. }
  unfold bl_ntfs_read_mft. pose proof (ntfs_disk_run s Hsc) as Ed. run_with Ed. run_with E.
  rewrite (bind_run _ _ rsize s s); [done|]. unfold rd16, gets. by rewrite Hr.
Qed.

(** The index root in a record, at [off] from its begin. *)
Definition root_in (b : Z → Z) (lo hi off : Z) : Prop :=
  ∃ sizes p, attribute_in b lo hi sizes BL_NTFS_ATTR_INDEX_ROOT p ∧ img_le 1 b (p + at_nonresident_flag) = 0 ∧
    img_le 1 b (p + at_name_length) = 4 ∧
    (∀ i, 0 <= i < 4 → img_le 2 b (p + at_resident_name + 2 * i) = nth (Z.to_nat i) [36; 73; 51; 48] 0) ∧
    off = p + img_le 2 b (p + at_attribute_offset) - lo ∧ lo + off < hi.

Lemma attribute_from_shift b b' l0 h0 dd a zs type q0 :
  (∀ x, l0 <= x < h0 → u8 (b' (x + dd)) = u8 (b x)) → 0 <= l0 + dd → l0 <= a →
  attribute_from b h0 a zs type q0 → attribute_from b' (h0 + dd) (a + dd) zs type (q0 + dd).
Proof.
  intros Hs Hd0. revert a. induction zs as [|n zs IH]; intros a Ha; cbn [attribute_from]; intros (? & ? & H);
    unfold at_type, at_total_size in *;
    replace (a + dd + 0) with (a + 0 + dd) by lia; replace (a + dd + 4) with (a + 4 + dd) by lia;
    rewrite ?(img_le_shift b b' l0 h0 dd Hs) by lia; (split; [lia|]); (split; [lia|]).
  - destruct H as [-> ?]. by split.
  - destruct H as (? & ? & ? & ? & H). replace (a + dd + n) with (a + n + dd) by lia. split_and!; try done. apply IH; [lia|done].
Qed.

Lemma root_in_shift b b' l0 h0 dd off :
  (∀ x, l0 <= x < h0 → u8 (b' (x + dd)) = u8 (b x)) → 0 <= l0 + dd → 0 <= l0 → root_in b l0 h0 off → root_in b' (l0 + dd) (h0 + dd) off.
Proof.
  intros Hs Hd0 Hlo (zs' & q & [Hl Ha] & Hn & Hln & Hname & -> & Hoff). pose proof (img_le_range 2 b (l0 + mft_attributes_offset)).
  pose proof (attribute_from_bounds _ _ _ _ _ _ Ha) as (? & ? & ?).
  unfold at_nonresident_flag, at_name_length, at_resident_name, at_attribute_offset, mft_attributes_offset in *.
  exists zs', (q + dd). unfold at_nonresident_flag, at_name_length, at_resident_name, at_attribute_offset.
  replace (q + dd + 8) with (q + 8 + dd) by lia. replace (q + dd + 9) with (q + 9 + dd) by lia.
  replace (q + dd + 20) with (q + 20 + dd) by lia. rewrite !(img_le_shift b b' l0 h0 dd Hs) by lia.
  split_and!; try done; try lia.
  - split; [lia|]. unfold mft_attributes_offset. replace (l0 + dd + 20) with (l0 + 20 + dd) by lia.
    rewrite (img_le_shift b b' l0 h0 dd Hs) by lia.
    replace (l0 + dd + img_le 2 b (l0 + 20)) with (l0 + img_le 2 b (l0 + 20) + dd) by lia.
    apply (attribute_from_shift b b' l0 h0 dd); (done || lia).
  - intros i Hi. replace (q + dd + 24 + 2 * i) with (q + 24 + 2 * i + dd) by lia.
    rewrite (img_le_shift b b' l0 h0 dd Hs) by lia. by apply Hname.
Qed.

Lemma root_in_range b l0 h0 off : root_in b l0 h0 off → 0 <= off < h0 - l0.
Proof.
  intros (zs & q0 & [_ Ha] & _ & _ & _ & -> & Hoff). apply attribute_from_bounds in Ha as (_ & Ha & _).
  pose proof (img_le_range 2 b (l0 + mft_attributes_offset)). pose proof (img_le_range 2 b (q0 + at_attribute_offset)). lia.
Qed.

Lemma root_run s lo' hi' off :
  scene (mem s) → root_in (ld8 (mem s)) lo' hi' off → 0 <= lo' → hi' <= 4294967296 →
  bl_ntfs_get_mft_record_attribute disks f lo' BL_NTFS_ATTR_INDEX_ROOT None s = Some (u32 (lo' + off), s).
Proof.
  intros Hsc (sizes' & q & Ha & Hn & Hl & Hname & Hoff & Hoe) Hlo Hhi. pose proof Ha as [? Ha']. rewrite img_le_ld8 in Ha'.
  pose proof (ld_range 2 (mem s) (lo' + mft_attributes_offset)). pose proof (attribute_from_bounds _ _ _ _ _ _ Ha') as (? & ? & ?).
  pose proof (sc_i30 _ Hsc) as [Hi Hi0]. rewrite !flag_byte in *. rewrite img_le_ld8 in Hoff.
  apply wp_exact. eapply attribute_walk; [exact Ha|done|done|done|]. unfold attribute_value. wp_step. wp_step. rewrite Hn.
  change (truth 0) with false. cbv iota. change (BL_NTFS_ATTR_INDEX_ROOT =? BL_NTFS_ATTR_FILE_NAME) with false.
  change (BL_NTFS_ATTR_INDEX_ROOT =? BL_NTFS_ATTR_INDEX_ROOT) with true. cbv iota. unfold bl_ntfs_get_index_root.
  assert (E : bl_wcsncmp (lit_i30 f) (q + at_resident_name) 4 s = Some (0, s)).
  { apply bl_wcsncmp_same; [done|unfold at_resident_name; lia|lia|]. intros i Hr.
    rewrite (i30_chars (mem s)) by done. rewrite <- (img_le_ld8 2 (mem s) (q + at_resident_name + 2 * i)), Hname by done.
    split; [done|]. assert (i = 0 ∨ i = 1 ∨ i = 2 ∨ i = 3) as [-> | [-> | [-> | ->]]] by lia; done. }
  wp_step. unfold bl_ntfs_check_attribute_name. wp_step. wp_step. rewrite Hl. change (4 =? 0) with false. cbv iota.
  wp_step. wp_step. rewrite Hn. change (truth 0) with false. cbv iota zeta. unfold at_resident_name in *.
  rewrite (u32_small (q + 24)) by lia. wp_known E. wp_step. change (failed _) with false. cbv iota.
  unfold bl_ntfs_get_resident_attribute. wp_steps. split; [|done]. f_equal. lia.
Qed.

Lemma record_size_range s : scene (mem s) → 0 < rsize < 65536.
Proof.
  intros Hsc. pose proof (vi_record _ _ _ (sc_volume _ Hsc)) as Hr. pose proof (ld_range 2 (mem s) (info + ni_mft_record_size)) as Hb.
  rewrite Hr in Hb. change (256 ^ Z.of_nat 2) with 65536 in Hb. split; [|lia]. pose proof Hv as [? _ [-> ?] _].
  pose proof (Z.pow_pos_nonneg 2 (nv_record_shift v) ltac:(lia) ltac:(lia)). nia.
Qed.

Lemma info_range s bs g : roomy s bs g → 0 <= info < 4294967296.
Proof.
  intros (_ & _ & Hst & _). destruct (Hst info) as [Hr _]; [|done]. unfold static, within, sizeof_ntfs_info. right; left. lia.
Qed.

Section Fill.
Context (s : machine) (bs : list block) (nb db : block) (node entry index hi' : Z) (e : dir_entry) (off : Z).
Context (Hro : roomy s bs (block_cost rsize)) (He : entry_stays s bs (block_cost rsize) hi' entry e).
Context (Hrec : record_lba e + sector_round rsize / 512 <= sectors < 2 ^ 64).
Context (Hroot : truth (is_dir e) = true → root_in image (record_byte e) (record_byte e + rsize) off).
Context (Hnb : in_use bs nb ∧ sizeof_tree_node <= b_size nb ∧ 0 < b_data nb ∧ b_end nb <= 4294967296).
Context (Hdb : in_use bs db ∧ sizeof_ntfs_file_data <= b_size db ∧ 0 < b_data db ∧ b_end db <= 4294967296) (Hne : nb ≠ db).
Context (Hnode : stable_region s bs (block_cost rsize) node 4).
Context (Hnode' : ∀ x, within node 4 x → ¬ static x ∧ ¬ (entry <= x < hi') ∧ ¬ within (b_data nb) (b_size nb) x).
Context (Hapart : ∀ x, static x ∨ entry <= x < hi' ∨ within node 4 x → ¬ within (b_data db) (b_size db) x).

(** What is written besides the new record. *)
Definition fill_writes (x : Z) : Prop := within node 4 x ∨ within (b_data db) (b_size db) x.
#[local] Abbreviation fill_regions := [(b_data db, b_size db); (node, 4)].

(** A state behind the read of the record, with writes to the new node's data. *)
Record filling (rb : block) (s' : machine) (bs' : list block) : Prop := Filling {
  fi_change : heap_change s bs s' bs' [] [rb] (block_cost rsize) fill_writes;
  fi_scene : scene (mem s');
  fi_entry : entry_in (ld8 (mem s')) hi' entry e;
  fi_record : copy_of s' (b_data rb) image (record_byte e) rsize;
  fi_node : same_on (b_data nb) sizeof_tree_node (mem s) (mem s');
}.

Lemma record_read_run :
  ∃ rb s1 s2 bs2, bl_heap_alloc rsize s = Some (b_data rb, s1) ∧ rd64 (entry + ie_undefined) s1 = Some (de_record e, s1) ∧
    bl_ntfs_read_mft disks info (b_data rb) (de_record e) s1 = Some (BL_STATUS_SUCCESS, s2) ∧
    heap_change s bs s2 bs2 [] [rb] (block_cost rsize) (λ _, False) ∧ copy_of s2 (b_data rb) image (record_byte e) rsize ∧
    0 < b_data rb ∧ rsize <= b_size rb ∧ b_end rb <= 4294967296.
Proof.
  pose proof Hro as (Hinv & Hsc & _ & Hend). pose proof (record_size_range s Hsc) as Hr. unfold block_cost in *.
  destruct (sector_round_spec rsize) as [Hrd _]; [lia|].
  assert (Hcc : 0 <= cost rsize ∧ 0 <= cost (sector_round rsize)) by (unfold cost, sizeof_head; lia).
  destruct (alloc_more s bs s bs [] 0 (λ _, False) rsize (change_refl s bs Hinv))
    as (rb & s1 & bs1 & Hal & C1 & _ & _ & Hrz & Hr0 & Hre); [lia|lia|lia|].
  assert (Hro1 : roomy s1 bs1 (cost (sector_round rsize))) by (eapply roomy_change; [| |exact Hro|exact C1]; lia).
  assert (He1 : entry_stays s1 bs1 0 hi' entry e).
  { eapply (entry_stays_change s bs s1 bs1 _ (cost rsize) 0); [lia|lia| |exact C1|tauto].
    destruct He as (H1 & H2 & H3 & H4 & H5). split; [done|]. split; [done|]. split; [done|]. split; [done|].
    intros x Hx. eapply stable_weaken; [|by apply H5]. lia. }
  destruct (read_new_run s bs s1 bs1 rb [rb] (cost rsize) _ (record_lba e) rsize C1) as (s2 & bs2 & Hread & _ & C2 & Hbytes);
    [left|lia|lia|lia| |lia|done|done|apply Hro1|].
  { pose proof (ld_range 8 (mem s) (info + ni_mft_lba)) as Hml. rewrite (vi_mft _ _ _ (sc_volume _ Hsc)) in Hml.
    pose proof (mft_record_range (de_record e)). pose proof (Z.pow_nonneg 2 (nv_record_shift v) ltac:(lia)).
    pose proof (Z.div_pos (sector_round rsize) 512 ltac:(lia) ltac:(lia)). unfold record_lba in *. nia. }
  exists rb, s1, s2, bs2. split; [done|]. split; [|split; [|split; [done|split; [|done]]]].
  - unfold rd64, gets. destruct He1 as ((Hrecord & _) & _). rewrite img_le_ld8 in Hrecord. by rewrite Hrecord.
  - destruct (read_mft_run s1 (de_record e) (b_data rb)) as [->|Hbig]; [apply Hro1|exact Hread|].
    pose proof (Z.div_pos (sector_round rsize) 512 ltac:(lia) ltac:(lia)). unfold record_lba in *. lia.
  - apply copy_of_read; [lia|]. exact Hbytes.
Qed.

Lemma filling_write rb s2 bs2 m' :
  heap_change s bs s2 bs2 [] [rb] (block_cost rsize) (λ _, False) → copy_of s2 (b_data rb) image (record_byte e) rsize →
  0 < b_data rb → rsize <= b_size rb → b_end rb <= 4294967296 → keeps fill_regions (mem s2) m' → filling rb (set_mem m' s2) bs2.
Proof.
  intros C2 Hcopy Hr0 Hrz Hre Hk. pose proof Hro as (Hinv & Hsc & Hst & _). destruct Hdb as (Hdu & Hdz & Hd0 & Hde), Hnb as (Hnu & Hnz & Hn0 & Hnend).
  pose proof (record_size_range s Hsc) as Hr. destruct Hnode as [Hnsp Hnst]. unfold sizeof_tree_node, sizeof_ntfs_file_data in *.
  assert (Hno : ∀ b : block, b ∉ []) by (intros b; apply not_elem_of_nil).
  assert (Hg : 0 <= block_cost rsize).
  { destruct (sector_round_spec rsize) as [? _]; [lia|]. unfold block_cost, cost, sizeof_head. lia. }
  assert (C3 : heap_change s bs (set_mem m' s2) bs2 [] [rb] (block_cost rsize) fill_writes).
  { eapply change_keeps_in; [eapply change_weaken; [reflexivity| |exact C2]; by intros x []|exact Hk|].
    intros r Hin. right. apply elem_of_cons in Hin as [->|Hin]; [|apply list_elem_of_singleton in Hin as ->]; cbn [fst snd].
    - split; [|intros x Hx; by right]. split; [unfold in_space, b_end in *; lia|]. intros x Hx. pose proof (slot_bounds db).
      apply (slot_stable s2 bs2 0 db); [apply C2| |unfold b_end in *; lia..]. apply (ch_used _ _ _ _ _ _ _ _ C2). left. by split.
    - split; [|intros x Hx; by left]. split; [done|]. intros x Hx.
      eapply change_stable; [exact C2|lia|rewrite Z.add_0_r; by apply Hnst|by intros b ?%Hno]. }
  assert (Hw : ∀ x, static x ∨ entry <= x < hi' → ¬ fill_writes x).
  { intros x Hx [Hx'|Hx']; [destruct (Hnode' x Hx') as (? & ? & _); tauto|]. apply (Hapart x); tauto. }
  split; [done|..].
  - apply (scene_same (mem s)); [|exact Hsc]. intros a Ha. apply (ch_frame _ _ _ _ _ _ _ _ C3); [by apply Hst|by intros b ?%Hno|apply Hw; tauto].
  - eapply (entry_stays_change s bs (set_mem m' s2) bs2 _ (block_cost rsize) 0); [done|lia|by rewrite Z.add_0_r|exact C3|].
    intros x Hx. apply Hw. tauto.
  - intros k Hkr. rewrite <- (Hcopy k Hkr), mem_set_mem. apply Hk; [unfold b_end in *; lia|].
    assert (Hru : in_use bs2 rb) by (apply (ch_used _ _ _ _ _ _ _ _ C2); right; left).
    assert (Hdu2 : in_use bs2 db) by (apply (ch_used _ _ _ _ _ _ _ _ C2); left; by split).
    assert (Hrd : rb ≠ db) by (intros ->; by apply (ch_fresh _ _ _ _ _ _ _ _ C2 db ltac:(left))).
    constructor; [|constructor; [|done]]; unfold outside; cbn [fst snd].
    + destruct (in_use_disjoint s2 bs2 rb db (ch_inv _ _ _ _ _ _ _ _ C2) Hru Hdu2 Hrd); unfold b_end in *; lia.
    + destruct (decide (b_data rb + k < node ∨ node + 4 <= b_data rb + k)) as [|Hin]; [done|exfalso].
      pose proof (change_new_payload _ _ _ _ _ _ _ _ rb (b_data rb + k) C2 ltac:(left) (Hnst (b_data rb + k) ltac:(lia)) ltac:(by intros b ?%Hno)) as Ho.
      unfold outside in Ho. lia.
  - assert (Hs : same_on (b_data nb) (b_size nb) (mem s) (mem (set_mem m' s2))).
    { apply (change_same_on _ _ _ _ _ _ _ _ C3 Hinv Hnu Hnend). intros x Hx [Hx'|Hx'].
      - destruct (Hnode' x Hx') as (_ & _ & Hc). by apply Hc.
      - destruct (in_use_disjoint s bs nb db Hinv Hnu Hdu Hne); unfold within, b_end in *; lia. }
    eapply same_on_sub; [exact Hs|unfold sizeof_tree_node; lia..].
Qed.

(** What the new node says. *)
Record filled (rb : block) (m : gmap Z Z) : Prop := Filled {
  fd_node : ld 4 m node = b_data nb;
  fd_dir : ld 4 m (b_data db + nfd_dir) = ld 4 (mem s) (b_data db + nfd_dir);
  fd_rootdir : ld 4 m (b_data db + nfd_rootdir) = ld 4 (mem s) (b_data db + nfd_rootdir);
  fd_record : ld 4 m (b_data db + nfd_mft_record) = b_data rb;
  fd_info : ld 4 m (b_data db + nfd_info) = info;
  fd_iroot : truth (is_dir e) = true → ld 4 m (b_data db + nfd_iroot) = b_data rb + off;
}.

Lemma fill_node_run :
  ∃ rb s' bs', ntfs_fill_node disks f name info node (b_data nb) (b_data db) entry index s =
      ntfs_exit info NULL (b_data rb) index BL_STATUS_SUCCESS s' ∧
    filling rb s' bs' ∧ filled rb (mem s') ∧ 0 < b_data rb ∧ rsize <= b_size rb ∧ b_end rb <= 4294967296.
Proof.
  pose proof Hro as (Hinv & Hsc & _ & _). destruct Hdb as (Hdu & Hdz & Hd0 & Hde), Hnb as (_ & Hnz & Hn0 & Hnend). pose proof (info_range _ _ _ Hro) as Hir.
  destruct record_read_run as (rb & s1 & s2 & bs2 & Hal & Hrd & Hread & C2 & Hcopy & Hr0 & Hrz & Hre).
  pose proof (record_size_range s Hsc) as Hr.
  assert (Hwr : ∀ m', keeps fill_regions (mem s2) m' → filling rb (set_mem m' s2) bs2) by (intros m' Hk; by apply (filling_write rb)).
  assert (Hw : ∀ m' k w, 0 <= k → k + 4 <= sizeof_ntfs_file_data → keeps fill_regions (mem s2) m' → keeps fill_regions (mem s2) (st 4 m' (b_data db + k) w)).
  { intros m' k w Hk0 Hk Hm. eapply (keeps_st_in _ _ _ _ _ _ (b_data db, b_size db)); [exact Hm| |left|cbn [fst snd]; lia..].
    unfold in_space, b_end in *. lia. }
  set (m3 := st 4 (mem s2) (b_data db + nfd_mft_record) (b_data rb)).
  assert (K3 : keeps fill_regions (mem s2) m3) by (apply Hw; [done|done|apply keeps_refl]).
  set (m4 := if truth (is_dir e) then st 4 m3 (b_data db + nfd_iroot) (u32 (b_data rb + off)) else m3).
  assert (K4 : keeps fill_regions (mem s2) m4) by (unfold m4; destruct (truth (is_dir e)); [apply Hw; done|done]).
  set (m5 := st 4 m4 (b_data db + nfd_info) info).
  assert (K5 : keeps fill_regions (mem s2) m5) by (by apply Hw).
  set (m6 := st 4 m5 node (b_data nb)).
  assert (K6 : keeps fill_regions (mem s2) m6).
  { destruct Hnode as [Hnsp _]. eapply (keeps_st_in _ _ _ _ _ _ (node, 4)); [exact K5|done|right; left|cbn [fst snd]; lia..]. }
  exists rb, (set_mem m6 s2), bs2. split; [|split; [by apply Hwr|split; [|done]]].
  - unfold ntfs_fill_node. destruct He as (_ & He0 & Hhi' & _ & _).
    rewrite (bind_run _ _ rsize s s) by (unfold rd16, gets; by rewrite (vi_record _ _ _ (sc_volume _ Hsc))).
    run_with Hal. unfold is_null at 1. destruct (Z.eqb_spec (b_data rb) 0); [lia|]. run_with Hrd. run_with Hread.
    change (failed BL_STATUS_SUCCESS) with false. cbv iota. rewrite (bind_run _ _ () s2 (set_mem m3 s2)) by done.
    destruct (Hwr m3 K3) as [_ Hsc3 He3 Hcopy3 _].
    pose proof (is_directory_run _ hi' entry e He3 He0 Hhi') as Er. run_with Er.
    rewrite (bind_run _ _ () (set_mem m3 s2) (set_mem m4 s2)).
    2:{ unfold m4. destruct (truth (is_dir e)) eqn:Edir; [|done]. pose proof (Hroot eq_refl) as Hroot'.
        assert (Hr' : root_in (ld8 m3) (b_data rb) (b_data rb + rsize) off).
        { set (dd := b_data rb - record_byte e). replace (b_data rb) with (record_byte e + dd) at 1 by (unfold dd; lia).
          replace (b_data rb + rsize) with (record_byte e + rsize + dd) by (unfold dd; lia).
          assert (0 <= record_byte e).
          { unfold record_byte, record_lba. pose proof (mft_record_range (de_record e)). pose proof (Z.pow_nonneg 2 (nv_record_shift v) ltac:(lia)).
            pose proof (ld_range 8 (mem s) (info + ni_mft_lba)) as Hml. rewrite (vi_mft _ _ _ (sc_volume _ Hsc)) in Hml. nia. }
          apply (root_in_shift image); [|unfold dd; lia|lia|done]. intros x Hx. pose proof (Hcopy3 (x - record_byte e) ltac:(lia)) as E.
          rewrite mem_set_mem in E. replace (x + dd) with (b_data rb + (x - record_byte e)) by (unfold dd; lia). rewrite E, u8_idemp.
          do 2 f_equal. lia. }
        pose proof (root_run (set_mem m3 s2) (b_data rb) (b_data rb + rsize) off Hsc3 Hr' ltac:(lia) ltac:(unfold b_end in *; lia)) as Ei.
        by run_with Ei. }
    rewrite (bind_run _ _ () (set_mem m4 s2) (set_mem m5 s2)) by done.
    rewrite (bind_run _ _ () (set_mem m5 s2) (set_mem m6 s2)) by done.
    unfold ntfs_finish. rewrite (bind_run _ _ (b_data nb) (set_mem m6 s2) (set_mem m6 s2)); [by rewrite truth_pos by lia|].
    unfold rd32, gets. do 2 f_equal. rewrite mem_set_mem. unfold m6. apply ld4_st4_same; [apply Hnode|unfold b_end, sizeof_tree_node in *; lia].
  - assert (Hsn : in_space node 4) by apply Hnode.
    assert (Hap : node + 4 <= b_data db ∨ b_data db + b_size db <= node).
    { destruct (decide (node + 4 <= b_data db ∨ b_data db + b_size db <= node)) as [|Hc]; [done|exfalso].
      apply (Hapart (Z.max node (b_data db))); unfold within; [right; right; lia|]. unfold sizeof_ntfs_file_data in *. lia. }
    assert (Hsd : same_on (b_data db) (b_size db) (mem s) (mem s2)).
    { apply (change_same_on _ _ _ _ _ _ _ _ C2 Hinv Hdu Hde). tauto. }
    assert (Hnbr : 0 <= b_data nb < 4294967296) by (unfold b_end, sizeof_tree_node in *; lia).
    unfold sizeof_ntfs_file_data, b_end in *. rewrite mem_set_mem.
    split; unfold m6, m5, m4, m3, nfd_dir, nfd_rootdir, nfd_mft_record, nfd_info, nfd_iroot in *; [apply ld4_st4_same; done|..];
      destruct (truth (is_dir e)) eqn:Edir;
      repeat first [rewrite ld4_st4_same by (lia || field_side) | rewrite ld_st_other by field_side]; try done;
      try (apply same_on_ld; eapply same_on_sub; [exact Hsd|lia..]).
    intros _. pose proof (root_in_range _ _ _ _ (Hroot eq_refl)) as Hor. rewrite u32_small by lia.
    apply ld4_st4_same; [field_side|lia].
Qed.
End Fill.

(** ** Leaving: what was read is given back *)
Lemma exit_index_run s0 bs0 s bs L index entry hi' new g W :
  0 <= g → roomy s0 bs0 g → (∀ a, static a → ¬ W a) → heap_change s0 bs0 s bs [] (L ++ new) g W →
  (∀ b, b ∈ L → b ∉ new) → node_home L index entry hi' →
  ∃ s' bs', (if is_null index then mret () else free_index info index) s = Some ((), s') ∧
    heap_change s0 bs0 s' bs' [] new g W ∧ (∀ a, stable s0 bs0 g a → ld8 (mem s') a = ld8 (mem s) a) ∧
    (∀ c a, c ∈ bs → b_data c <= a < b_end c → ld8 (mem s') a = ld8 (mem s) a) ∧
    (∀ c, c ∈ bs → b_used c = false → c ∈ bs').
Proof.
  intros Hg Hro HW Hch HL [(-> & -> & _)|(b & -> & -> & Hb0 & _)]; cbn [app] in Hch.
  { exists s, bs. change (is_null NULL) with true. by split_and!. }
  destruct (change_free s0 bs0 s bs b new g W isize Hch) as (s' & bs' & Hrun & Hch' & Hfd); [apply HL; left|].
  exists s', bs'. unfold is_null. destruct (Z.eqb_spec (b_data b) 0); [lia|].
  assert (Hsc : scene (mem s)) by (eapply (roomy_change_in s0 bs0 s bs _ g 0); [done|lia|by rewrite Z.add_0_r|exact Hch|done]).
  rewrite free_index_run by done. split; [done|]. split; [done|]. split; [|split].
  - intros a Ha. apply (fr_stable _ _ _ _ _ Hfd). eapply change_stable; [exact Hch|lia|by rewrite Z.add_0_r|]. by intros c ?%not_elem_of_nil.
  - apply Hfd.
  - intros c Hc Hu. assert (Hb : in_use bs b) by (apply (ch_used _ _ _ _ _ _ _ _ Hch); right; left).
    apply (freed_other _ _ _ _ _ _ Hfd (ch_inv _ _ _ _ _ _ _ _ Hch) (proj1 Hb) Hc). intros ->. destruct Hb as [_ Hb]. congruence.
Qed.

Lemma ntfs_exit_run s0 bs0 s bs L index entry hi' rb new g W st :
  0 <= g → roomy s0 bs0 g → (∀ a, static a → ¬ W a) → heap_change s0 bs0 s bs [] (rb :: L ++ new) g W →
  rb ∉ L ++ new → (∀ b, b ∈ L → b ∉ new) → node_home L index entry hi' → 0 < b_data rb →
  ∃ s' bs', ntfs_exit info NULL (b_data rb) index st s = Some (st, s') ∧ heap_change s0 bs0 s' bs' [] new g W ∧
    (∀ a, stable s0 bs0 g a → ld8 (mem s') a = ld8 (mem s) a) ∧
    (∀ b a, b ∈ rb :: new → b_data b <= a < b_end b → ld8 (mem s') a = ld8 (mem s) a) ∧
    ∃ c, c ∈ bs' ∧ b_used c = false ∧ b_data c = b_data rb ∧ b_size c = b_size rb.
Proof.
  intros Hg Hro HW Hch Hrb HL Hhome Hr0.
  assert (Hsc : scene (mem s)) by (eapply (roomy_change_in s0 bs0 s bs _ g 0); [done|lia|by rewrite Z.add_0_r|exact Hch|done]).
  destruct (change_free s0 bs0 s bs rb (L ++ new) g W rsize Hch Hrb) as (s1 & bs1 & Hrun1 & Hch1 & Hfd).
  destruct (exit_index_run s0 bs0 s1 bs1 L index entry hi' new g W Hg Hro HW Hch1 HL Hhome) as (s2 & bs2 & Hrun2 & Hch2 & Hst & Hpay & Hfree).
  assert (Hin : in_use bs rb) by (apply (ch_used _ _ _ _ _ _ _ _ Hch); right; left).
  destruct (freed_block _ _ _ _ _ Hfd (proj1 Hin)) as (c & Hc & Hcu & Hcd & Hcz).
  exists s2, bs2. split; [|split; [done|split; [|split]]].
  - unfold ntfs_exit. change (is_null NULL) with true. cbv iota. rewrite (bind_run _ _ () s s) by done.
    assert (Enull : is_null (b_data rb) = false) by (by apply Z.eqb_neq; lia). rewrite Enull.
    rewrite (bind_run _ _ () s s1).
    2:{ rewrite (bind_run _ _ rsize s s); [done|]. unfold rd16, gets. by rewrite (vi_record _ _ _ (sc_volume _ Hsc)). }
    by run_with Hrun2.
  - intros a Ha. rewrite Hst by done. apply (fr_stable _ _ _ _ _ Hfd).
    eapply change_stable; [exact Hch|lia|by rewrite Z.add_0_r|]. by intros x ?%not_elem_of_nil.
  - intros b a Hb Ha. assert (Hbs : in_use bs b) by (apply (ch_used _ _ _ _ _ _ _ _ Hch); right; revert Hb; rewrite !elem_of_cons, elem_of_app; tauto).
    assert (∃ b', b' ∈ bs1 ∧ b_data b' = b_data b ∧ b_size b' = b_size b) as (b' & Hb' & Ed & Es).
    { apply elem_of_cons in Hb as [->|Hb]; [by exists c|]. exists b. split; [|done]. apply (ch_used _ _ _ _ _ _ _ _ Hch1). right.
      apply elem_of_app. by right. }
    rewrite (Hpay b' a Hb') by (unfold b_end in *; lia). apply (fr_payload _ _ _ _ _ Hfd b); [apply Hbs|done].
  - exists c. split; [by apply Hfree|done].
Qed.

Lemma exit_nothing_run s0 bs0 s bs L index entry hi' g W st :
  0 <= g → roomy s0 bs0 g → (∀ a, static a → ¬ W a) → heap_change s0 bs0 s bs [] L g W → node_home L index entry hi' →
  ∃ s' bs', ntfs_exit info NULL NULL index st s = Some (st, s') ∧ heap_change s0 bs0 s' bs' [] [] g W ∧
    ∀ a, stable s0 bs0 g a → ld8 (mem s') a = ld8 (mem s) a.
Proof.
  intros Hg Hro HW Hch Hhome. rewrite <- (app_nil_r L) in Hch.
  destruct (exit_index_run s0 bs0 s bs L index entry hi' [] g W Hg Hro HW Hch) as (s' & bs' & Hrun & Hch' & Hst & _);
    [intros b _; apply not_elem_of_nil|done|].
  exists s', bs'. split; [|done]. unfold ntfs_exit. change (is_null NULL) with true. cbv iota.
  rewrite (bind_run _ _ () s s) by done. rewrite (bind_run _ _ () s s) by done. by run_with Hrun.
Qed.

(** ** The callback *)
Section Callback.
Context (btree node iroot entry0 : Z) (t : index_tree) (directory : bool).

(** A call for a directory's node, whose index root is in its record. *)
Record called (s : machine) (bs : list block) (g : Z) : Prop := Called {
  ca_roomy : roomy s bs g;
  ca_dir : ld 4 (mem s) (btree + nfd_dir) ≠ 0;
  ca_record : ld 4 (mem s) (btree + nfd_mft_record) = lo;
  ca_info : ld 4 (mem s) (btree + nfd_info) = info;
  ca_iroot : ld 4 (mem s) (btree + nfd_iroot) = iroot;
  ca_root : lo <= iroot ∧ iroot + ir_node + node_entries_offset + 4 <= hi;
  ca_first : iroot + ir_node + ld 4 (mem s) (iroot + ir_node + node_entries_offset) = entry0;
  ca_tree : index_tree_in (ld8 (mem s)) hi entry0 t;
  ca_btree : in_space btree sizeof_ntfs_file_data;
  ca_node : stable_region s bs g node 4;
  ca_apart : ∀ x, within node 4 x → ¬ static x ∧ ¬ within btree sizeof_ntfs_file_data x;
}.

Definition record_here (e : dir_entry) : Prop :=
  record_lba e + sector_round rsize / 512 <= sectors < 2 ^ 64 ∧
  (truth (is_dir e) = true → ∃ off, root_in image (record_byte e) (record_byte e + rsize) off).

(** The node of [e], in the blocks [nb] and [db]; its record is in [c], a block
    of the heap that is free. *)
Record new_node (e : dir_entry) (nb db c : block) (s : machine) (bs : list block) : Prop := NewNode {
  nn_node : ld 4 (mem s) node = b_data nb;
  nn_prev : ld 4 (mem s) (b_data nb + node_prev) = NULL;
  nn_fdata : ld 4 (mem s) (b_data nb + node_fdata) = b_data db;
  nn_dir : ld 4 (mem s) (b_data db + nfd_dir) = is_dir e;
  nn_rootdir : ld 4 (mem s) (b_data db + nfd_rootdir) = 0;
  nn_info : ld 4 (mem s) (b_data db + nfd_info) = info;
  nn_record : ld 4 (mem s) (b_data db + nfd_mft_record) = b_data c;
  nn_iroot : truth (is_dir e) = true → ∃ off, root_in image (record_byte e) (record_byte e + rsize) off ∧
               ld 4 (mem s) (b_data db + nfd_iroot) = b_data c + off;
  nn_bytes : copy_of s (b_data c) image (record_byte e) rsize;
  nn_free : c ∈ bs ∧ b_used c = false ∧ rsize <= b_size c;
}.

Lemma node_stays s0 bs0 s bs L index entry hi' e g h :
  0 <= g → 0 <= h → roomy s0 bs0 (g + h) → (∀ x, within node 4 x → ¬ static x) → heap_change s0 bs0 s bs [] L g (within node 4) →
  node_home L index entry hi' → entry_in (ld8 (mem s)) hi' entry e → entry_stays s bs h hi' entry e.
Proof.
  intros Hg Hh Hro Hap Hch Hhome He.
  assert (Hro' : roomy s bs h) by (eapply (roomy_change_in s0 bs0 s bs _ g h); [done|done|done|exact Hch|by intros a ? ?%Hap]).
  pose proof Hro' as (Hinv & Hsc & Hst & _). pose proof (sc_directory _ Hsc) as [Hlo [_ _ _ [_ [_ Hhi]] _]].
  pose proof (node_home_end _ _ _ _ Hhome Hhi). pose proof He as (_ & _ & _ & _ & _ & Hlen & Hend).
  unfold ie_data, fn_filename in Hend. split; [done|].
  destruct Hhome as [(-> & -> & Hle & ->)|(b & -> & -> & Hb0 & Hbe & Hle & -> & Hbz)].
  - split; [lia|]. split; [done|]. split; [lia|]. intros x Hx. apply Hst. unfold static, within. do 3 right; left. lia.
  - split; [lia|]. split; [done|]. split; [lia|]. intros x Hx. pose proof (slot_bounds b). unfold b_end in *.
    apply (slot_stable s bs h b); [done| |lia..]. apply (ch_used _ _ _ _ _ _ _ _ Hch). right; left.
Qed.

(** Where the new node's blocks are. *)
Lemma made_apart s0 bs0 s bs L index entry hi' e g h nb db s' bs' :
  0 <= g → 0 <= h → roomy s0 bs0 (g + h) → stable_region s0 bs0 (g + h) node 4 → (∀ x, within node 4 x → ¬ static x) →
  heap_change s0 bs0 s bs [] L g (within node 4) → node_home L index entry hi' → entry_stays s bs h hi' entry e →
  heap_change s bs s' bs' [] [nb; db] h (λ _, False) → nb ≠ db →
  (∀ x, within node 4 x → ¬ static x ∧ ¬ (entry <= x < hi') ∧ ¬ within (b_data nb) (b_size nb) x) ∧
  (∀ x, static x ∨ entry <= x < hi' ∨ within node 4 x → ¬ within (b_data db) (b_size db) x).
Proof.
  intros Hg Hh Hro [Hsp Hn] Hap Hch Hhome (_ & _ & _ & _ & He) Hch' Hne.
  assert (Hno : ∀ b : block, b ∉ []) by (intros b; apply not_elem_of_nil).
  assert (Hns : ∀ x, within node 4 x → stable s bs h x).
  { intros x Hx. eapply change_stable; [exact Hch|done|apply Hn; unfold within in Hx; lia|by intros b ?%Hno]. }
  assert (Hout : ∀ b x, b ∈ [nb; db] → stable s bs h x → ¬ within (b_data b) (b_size b) x).
  { intros b x Hb Hx. pose proof (change_new_payload _ _ _ _ _ _ _ _ b x Hch' Hb Hx ltac:(by intros c ?%Hno)) as Ho.
    unfold outside, within in *. lia. }
  split.
  - intros x Hx. split; [by apply Hap|]. split; [|apply Hout; [left|by apply Hns]]. intros Hin.
    destruct Hhome as [(-> & -> & Hle & ->)|(b & -> & -> & Hb0 & Hbe & Hle & -> & Hbz)].
    + apply (Hap x Hx). unfold static, within. do 3 right; left. lia.
    + pose proof (change_new_payload _ _ _ _ _ _ _ _ b x Hch ltac:(left)) as Ho. unfold outside in Ho.
      destruct (Ho ltac:(eapply stable_weaken; [|apply Hn; unfold within in Hx; lia]; lia) ltac:(by intros c ?%Hno)); lia.
  - intros x Hx. apply Hout; [right; left|]. destruct Hx as [Hx|[Hx|Hx]]; [|by apply He|by apply Hns].
    assert (Hro' : roomy s bs h) by (eapply (roomy_change_in s0 bs0 s bs _ g h); [done|done|done|exact Hch|by intros a ? ?%Hap]).
    by apply Hro'.
Qed.

Lemma made_change s0 bs0 s bs L g nb db h1 s1 bs1 rb h2 s2 bs2 :
  0 <= g → 0 <= h1 → 0 <= h2 → heap_change s0 bs0 s bs [] L g (within node 4) →
  heap_change s bs s1 bs1 [] [nb; db] h1 (λ _, False) → heap_change s1 bs1 s2 bs2 [] [rb] h2 (fill_writes db node) →
  heap_change s0 bs0 s2 bs2 [] (rb :: L ++ [nb; db]) (g + (h1 + h2)) (within node 4).
Proof.
  intros Hg Hh1 Hh2 C0 C1 C2.
  assert (C01 : heap_change s0 bs0 s1 bs1 [] (L ++ [nb; db]) (g + h1) (within node 4)).
  { eapply change_new; [done|done|exact C0|]. eapply change_weaken; [reflexivity| |exact C1]; by intros x []. }
  apply (change_permute _ _ _ _ ((L ++ [nb; db]) ++ [rb])).
  { intros b. rewrite !elem_of_cons, !elem_of_app, !elem_of_cons. pose proof (not_elem_of_nil b). tauto. }
  apply (change_drop _ _ _ _ _ _ _ (fill_writes db node)).
  - rewrite Z.add_assoc. eapply change_new; [lia|done| |exact C2]. eapply change_weaken; [reflexivity| |exact C01]. intros x Hx. by left.
  - intros x [Hx|Hx]; [by left|right]. exists db. split; [|unfold within, b_end in *; lia].
    rewrite !elem_of_app, !elem_of_cons. tauto.
Qed.

Lemma made_blocks s0 bs0 s bs L g W nb db h1 s1 bs1 rb s2 bs2 h2 W' :
  heap_change s0 bs0 s bs [] L g W → heap_change s bs s1 bs1 [] [nb; db] h1 (λ _, False) →
  heap_change s1 bs1 s2 bs2 [] [rb] h2 W' → (rb ∉ L ++ [nb; db]) ∧ (∀ b, b ∈ L → b ∉ [nb; db]).
Proof.
  intros C0 C1 C2. assert (HL : ∀ b, b ∈ L → in_use bs b) by (intros b Hb; apply (ch_used _ _ _ _ _ _ _ _ C0); by right).
  split.
  - intros Hb. apply (ch_fresh _ _ _ _ _ _ _ _ C2 rb); [left|]. apply (ch_used _ _ _ _ _ _ _ _ C1).
    apply elem_of_app in Hb as [Hb|Hb]; [left|by right]. split; [by apply HL|apply not_elem_of_nil].
  - intros b Hb Hn. apply (ch_fresh _ _ _ _ _ _ _ _ C1 b Hn). by apply HL.
Qed.

(** What is said about the node holds behind the exit. *)
Lemma made_node s1 bs1 s2 bs2 s3 bs3 nb db rb c entry hi' e off :
  ld 4 (mem s1) (b_data nb + node_prev) = NULL → ld 4 (mem s1) (b_data nb + node_fdata) = b_data db →
  ld 4 (mem s1) (b_data db + nfd_dir) = is_dir e → ld 4 (mem s1) (b_data db + nfd_rootdir) = 0 →
  (truth (is_dir e) = true → root_in image (record_byte e) (record_byte e + rsize) off) →
  filling s1 bs1 nb db node entry hi' e rb s2 bs2 → filled s1 nb db node e off rb (mem s2) →
  sizeof_tree_node <= b_size nb → sizeof_ntfs_file_data <= b_size db → rsize <= b_size rb → same_on node 4 (mem s2) (mem s3) →
  (∀ b a, b ∈ [rb; nb; db] → b_data b <= a < b_end b → ld8 (mem s3) a = ld8 (mem s2) a) →
  c ∈ bs3 → b_used c = false → b_data c = b_data rb → b_size c = b_size rb → new_node e nb db c s3 bs3.
Proof.
  intros Hprev Hfd Hdd Hrd Hoff Hfi [F1 F2 F3 F4 F5 F6] Hnz Hdz Hrz Hsn Hpay Hc Hcu Hcd Hcz.
  assert (Hsb : ∀ b, b ∈ [rb; nb; db] → same_on (b_data b) (b_size b) (mem s2) (mem s3)).
  { intros b Hb x Hx. apply (Hpay b); [done|by unfold b_end]. }
  pose proof (Hsb rb ltac:(left)) as Hs_rb. pose proof (Hsb nb ltac:(right; left)) as Hs_nb.
  pose proof (Hsb db ltac:(right; right; left)) as Hs_db. pose proof (fi_node _ _ _ _ _ _ _ _ _ _ _ Hfi) as Hs_n.
  unfold sizeof_tree_node, sizeof_ntfs_file_data in *.
  assert (Ln : ∀ k, 0 <= k → k + 4 <= 8 → ld 4 (mem s3) (b_data nb + k) = ld 4 (mem s1) (b_data nb + k)).
  { intros k ? ?. rewrite (same_on_ld (mem s2)) by (eapply same_on_sub; [exact Hs_nb|lia..]).
    apply same_on_ld. eapply same_on_sub; [exact Hs_n|lia..]. }
  assert (Ld : ∀ k, 0 <= k → k + 4 <= 20 → ld 4 (mem s3) (b_data db + k) = ld 4 (mem s2) (b_data db + k)).
  { intros k ? ?. apply same_on_ld. eapply same_on_sub; [exact Hs_db|lia..]. }
  split; unfold node_prev, node_fdata, nfd_dir, nfd_rootdir, nfd_info, nfd_mft_record, nfd_iroot in *; rewrite ?Hcd.
  - by rewrite (same_on_ld (mem s2)).
  - by rewrite Ln.
  - by rewrite Ln.
  - by rewrite Ld, F2.
  - by rewrite Ld, F3.
  - by rewrite Ld.
  - by rewrite Ld.
  - intros Hd'. exists off. split; [by apply Hoff|]. by rewrite Ld, F6.
  - intros k Hk. rewrite (Hs_rb _) by lia. by apply (fi_record _ _ _ _ _ _ _ _ _ _ _ Hfi).
  - split; [done|]. split; [done|lia].
Qed.

Lemma made_run s0 bs0 s bs L index entry hi' e g :
  0 <= g → roomy s0 bs0 (g + (node_cost + block_cost rsize)) → stable_region s0 bs0 (g + (node_cost + block_cost rsize)) node 4 →
  (∀ x, within node 4 x → ¬ static x) → heap_change s0 bs0 s bs [] L g (within node 4) → node_home L index entry hi' →
  entry_in (ld8 (mem s)) hi' entry e → record_here e → directory && negb (truth (is_dir e)) = false →
  ∃ nb db c s' bs', ntfs_match disks f name directory info node entry index s = Some (BL_STATUS_SUCCESS, s') ∧
    heap_change s0 bs0 s' bs' [] [nb; db] (g + (node_cost + block_cost rsize)) (within node 4) ∧ new_node e nb db c s' bs'.
Proof.
  intros Hg Hro Hnode Hap Hch Hhome He [Hrec Hroot] Hdir. pose proof (record_size_range s0 (proj1 (proj2 Hro))) as Hr.
  assert (Hrc : 0 <= block_cost rsize). { destruct (sector_round_spec rsize) as [? _]; [lia|]. unfold block_cost, cost, sizeof_head. lia. }
  assert (Hnc : 0 <= node_cost) by (unfold node_cost, cost, sizeof_head, sizeof_tree_node, sizeof_ntfs_file_data; lia).
  set (h := node_cost + block_cost rsize) in *. assert (Hh : 0 <= h) by (unfold h; lia).
  pose proof (node_stays s0 bs0 s bs L index entry hi' e g h Hg Hh Hro Hap Hch Hhome He) as Hst.
  assert (Hro1 : roomy s bs h) by (eapply (roomy_change_in s0 bs0 s bs _ g h); [done|done|done|exact Hch|by intros a ? ?%Hap]).
  destruct (match_alloc_run s bs directory node entry index hi' e (block_cost rsize) Hro1 Hrc Hst Hdir)
    as (nb & db & s1 & bs1 & Hrun1 & C1 & Hne & Hnb & Hdb & Hprev & Hfd & Hdd & Hrd).
  assert (C1' : heap_change s bs s1 bs1 [] [nb; db] h (λ _, False)) by (eapply change_weaken; [| |exact C1]; [unfold h; lia|done]).
  destruct (made_apart s0 bs0 s bs L index entry hi' e g h nb db s1 bs1) as [Hap1 Hap2]; [done..|].
  assert (Hdec : ∃ off, truth (is_dir e) = true → root_in image (record_byte e) (record_byte e + rsize) off).
  { destruct (truth (is_dir e)); [|by exists 0]. destruct (Hroot eq_refl) as [off ?]. by exists off. }
  destruct Hdec as [off Hoff].
  assert (Hu1 : ∀ b, b ∈ [nb; db] → in_use bs1 b) by (intros b Hb; apply (ch_used _ _ _ _ _ _ _ _ C1); by right).
  assert (Hro2 : roomy s1 bs1 (block_cost rsize)) by (eapply (roomy_change s bs s1 bs1 _ node_cost); [done|done|done|exact C1]).
  assert (Hst1 : entry_stays s1 bs1 (block_cost rsize) hi' entry e).
  { eapply (entry_stays_change s bs s1 bs1 _ node_cost); [done|done|done|exact C1|tauto]. }
  assert (Hnode1 : stable_region s1 bs1 (block_cost rsize) node 4).
  { destruct Hnode as [Hsp Hn]. split; [done|]. intros x Hx. assert (Hno : ∀ b : block, b ∉ []) by (intros b; apply not_elem_of_nil).
    eapply change_stable; [exact C1|done| |by intros b ?%Hno]. eapply change_stable; [exact Hch|done|by apply Hn|by intros b ?%Hno]. }
  destruct (fill_node_run s1 bs1 nb db node entry index hi' e off) as (rb & s2 & bs2 & Hrun2 & Hfi & Hfl & Hr0 & Hrz & Hre);
    [done|done|done|done|split; [apply Hu1; left|done]|split; [apply Hu1; right; left|done]|done|done|done|done|].
  assert (C2 : heap_change s0 bs0 s2 bs2 [] (rb :: L ++ [nb; db]) (g + h) (within node 4)).
  { eapply made_change; [done|exact Hnc|exact Hrc|exact Hch|exact C1|apply Hfi]. }
  destruct (made_blocks s0 bs0 s bs L g _ nb db node_cost s1 bs1 rb s2 bs2 _ _ Hch C1 (fi_change _ _ _ _ _ _ _ _ _ _ _ Hfi)) as [Hb1 Hb2].
  destruct (ntfs_exit_run s0 bs0 s2 bs2 L index entry hi' rb [nb; db] (g + h) (within node 4) BL_STATUS_SUCCESS)
    as (s3 & bs3 & Hrun3 & C3 & Hst3 & Hpay & c & Hc & Hcu & Hcd & Hcz);
    [lia|done|by intros a ? ?%Hap|done|done|done|done|done|].
  exists nb, db, c, s3, bs3. split; [by rewrite Hrun1, Hrun2|]. split; [done|].
  eapply (made_node s1 bs1 s2 bs2); [done|done|done|done|exact Hoff|exact Hfi|exact Hfl|apply Hnb|apply Hdb|done| |exact Hpay|done..].
  intros x Hx. by apply Hst3, Hnode.
Qed.
Definition callback_cost : Z := depth t * block_cost isize + (node_cost + block_cost rsize).

Lemma called_node s bs g :
  0 <= g → called s bs g → ∃ s1, wr32 node NULL s = Some ((), s1) ∧ heap_change s bs s1 bs [] [] 0 (within node 4) ∧
    called s1 bs g ∧ ld 4 (mem s1) node = NULL.
Proof.
  intros Hg [Hro Hd' Hrec Hinf Hir Hroot Hfirst Ht Hbt [Hsp Hn] Hap]. pose proof Hro as (Hinv & Hsc & Hst & _).
  set (m1 := st 4 (mem s) node NULL). exists (set_mem m1 s). split; [done|].
  assert (Hk : keeps [(node, 4)] (mem s) m1).
  { eapply (keeps_st_in _ _ _ _ _ _ (node, 4)); [apply keeps_refl|done|left|cbn [fst snd]; lia..]. }
  assert (C1 : heap_change s bs (set_mem m1 s) bs [] [] 0 (within node 4)).
  { eapply change_keeps_in; [eapply change_weaken; [reflexivity| |apply change_refl, Hinv]; by intros x []|exact Hk|].
    intros r ->%list_elem_of_singleton. right. split; [|done]. split; [done|]. intros x Hx. eapply stable_weaken; [|by apply Hn]. done. }
  assert (Hsame : ∀ a, 0 <= a < 4294967296 → ¬ within node 4 a → ld8 m1 a = ld8 (mem s) a).
  { intros a Hr Ha. apply ld8_st_other; [done|done|]. unfold outside, within in *. lia. }
  split; [done|]. split; [|apply ld4_st4_same; [done|unfold NULL; lia]].
  assert (Hbs : same_on btree sizeof_ntfs_file_data (mem s) m1).
  { intros x Hx. apply Hsame; [unfold in_space in Hbt; lia|]. intros Hx'. by destruct (Hap x Hx'). }
  assert (Hls : same_on lo (hi - lo) (mem s) m1).
  { intros x Hx. assert (Hs : static x) by (unfold static; do 3 right; left; exact Hx).
    apply Hsame; [apply (Hst x Hs)|]. intros Hx'. by destruct (Hap x Hx'). }
  unfold sizeof_ntfs_file_data in *.
  assert (Hb4 : ∀ k, 0 <= k → k + 4 <= 20 → ld 4 m1 (btree + k) = ld 4 (mem s) (btree + k)).
  { intros k ? ?. apply same_on_ld. eapply same_on_sub; [exact Hbs|lia..]. }
  split; rewrite ?mem_set_mem; unfold nfd_dir, nfd_mft_record, nfd_info, nfd_iroot in *; rewrite ?Hb4 by lia; try done.
  - eapply (roomy_change_in s bs _ bs [] 0 g); [done|done|by rewrite Z.add_0_l|exact C1|by intros a Ha [? _]%Hap].
  - rewrite (same_on_ld (mem s)); [done|]. eapply same_on_sub; [exact Hls|unfold ir_node, node_entries_offset in *; lia..].
  - pose proof (tree_in_bounds _ _ _ _ _ _ _ _ Ht) as [? ?]. pose proof (ld_range 4 (mem s) (iroot + ir_node + node_entries_offset)).
    replace hi with (hi + 0) by lia. replace entry0 with (entry0 + 0) by lia. pose proof (sc_directory _ Hsc) as [Hlo _].
    apply (tree_in_shift image sectors v rs (ld8 (mem s)) _ lo hi 0); [|lia|unfold ir_node in *; lia|done].
    intros x Hx. rewrite Z.add_0_r. f_equal. apply Hls. lia.
Qed.

(** The ways in which the call can end. *)
Inductive answer (s' : machine) (bs' : list block) : bl_status_t → list block → Prop :=
| AnswerNode e nb db c :
    e ∈ entries t → is_prefix (de_chars e) str → (directory = true → is_dir e ≠ 0) → new_node e nb db c s' bs' →
    answer s' bs' BL_STATUS_SUCCESS [nb; db]
| AnswerFile e :
    e ∈ entries t → is_prefix (de_chars e) str → directory = true → is_dir e = 0 → ld 4 (mem s') node = NULL →
    answer s' bs' BL_STATUS_INVALID_FILE_TYPE []
| AnswerNone :
    (∀ e, e ∈ entries t → ¬ same_name (de_chars e) str) → ld 4 (mem s') node = NULL →
    answer s' bs' BL_STATUS_FILE_NOT_FOUND [].

Lemma callback_search_run s s1 bs g found entry index s2 :
  called s1 bs g → wr32 node NULL s = Some ((), s1) →
  ntfs_search disks f name lo info entry0 s1 = Some ((found, entry, index), s2) →
  bl_ntfs_iterate_directory_callback disks f name directory btree node s =
  (if found : bool then ntfs_match disks f name directory info node entry index else ntfs_finish name info node NULL index) s2.
Proof.
  intros Hc Hrun Hs. pose proof (tree_in_bounds _ _ _ _ _ _ _ _ (ca_tree _ _ _ Hc)) as [? ?].
  pose proof (sc_directory _ (proj1 (proj2 (ca_roomy _ _ _ Hc)))) as [Hlo [_ _ _ [_ [_ Hhi]] _]].
  unfold bl_ntfs_iterate_directory_callback. run_with Hrun.
  rewrite (bind_run _ _ info s1 s1) by (unfold rd32, gets; by rewrite (ca_info _ _ _ Hc)).
  rewrite (bind_run _ _ (ld 4 (mem s1) (btree + nfd_dir)) s1 s1) by done. rewrite (truth_nz _ (ca_dir _ _ _ Hc)). cbn [negb].
  rewrite (bind_run _ _ lo s1 s1) by (unfold rd32, gets; by rewrite (ca_record _ _ _ Hc)).
  rewrite (bind_run _ _ iroot s1 s1) by (unfold rd32, gets; by rewrite (ca_iroot _ _ _ Hc)).
  rewrite (bind_run _ _ entry0 s1 s1); [by run_with Hs|].
  apply wp_exact. unfold bl_ntfs_iroot_get_first_entry. wp_steps. rewrite (ca_first _ _ _ Hc). split; [|done]. apply u32_small. lia.
Qed.

Lemma block_cost_record s bs g : called s bs g → 0 <= block_cost rsize.
Proof.
  intros Hc. pose proof (record_size_range s (proj1 (proj2 (ca_roomy _ _ _ Hc)))). destruct (sector_round_spec rsize) as [? _]; [lia|].
  unfold block_cost, cost, sizeof_head. lia.
Qed.

Lemma node_cost_nonneg : 0 <= node_cost.
Proof. unfold node_cost, cost, sizeof_head, sizeof_tree_node, sizeof_ntfs_file_data. lia. Qed.

(** Nothing was found. *)
Lemma finish_none_run s0 bs0 s bs L index entry hi' g :
  0 <= g → roomy s0 bs0 g → stable_region s0 bs0 g node 4 → (∀ x, within node 4 x → ¬ static x) →
  heap_change s0 bs0 s bs [] L g (within node 4) → node_home L index entry hi' → ld 4 (mem s) node = NULL →
  ∃ s' bs', ntfs_finish name info node NULL index s = Some (BL_STATUS_FILE_NOT_FOUND, s') ∧
    heap_change s0 bs0 s' bs' [] [] g (within node 4) ∧ ld 4 (mem s') node = NULL.
Proof.
  intros Hg Hro [Hsp Hn] Hap Hch Hhome Hnull.
  assert (Hsc : scene (mem s)) by (eapply (roomy_change_in s0 bs0 s bs _ g 0); [done|lia|by rewrite Z.add_0_r|exact Hch|by intros a ? ?%Hap]).
  destruct (exit_nothing_run s0 bs0 (emitted [10] (emitted (literal " - File not found"%string) (emitted str s))) bs L index entry hi' g
    (within node 4) BL_STATUS_FILE_NOT_FOUND Hg Hro) as (s' & bs' & Hrun & Hch' & Hst); [by intros a ? ?%Hap|by do 3 apply change_emitted|done|].
  exists s', bs'. split; [|split; [done|]].
  - unfold ntfs_finish. rewrite (bind_run _ _ NULL s s) by (unfold rd32, gets; by rewrite Hnull). change (truth NULL) with false. cbv iota.
    rewrite (bind_run _ _ _ _ _ (print_str_run _ _ _ (sc_name _ Hsc))), (bind_run _ _ _ _ _ (print_literal_run _ _)).
    by rewrite (bind_run _ _ _ _ _ (emit_run 10 _)).
  - rewrite (same_on_ld (mem s)); [done|]. intros x Hx. rewrite Hst, !mem_emitted by (by apply Hn). done.
Qed.

(** An entry was found. *)
Lemma answer_found s0 bs0 s bs L index entry hi' g e :
  0 <= g → called s0 bs0 (g + (node_cost + block_cost rsize)) → heap_change s0 bs0 s bs [] L g (within node 4) →
  node_home L index entry hi' → entry_in (ld8 (mem s)) hi' entry e → record_here e → ld 4 (mem s) node = NULL →
  e ∈ entries t → is_prefix (de_chars e) str →
  ∃ status s' bs' new, ntfs_match disks f name directory info node entry index s = Some (status, s') ∧
    heap_change s0 bs0 s' bs' [] new (g + (node_cost + block_cost rsize)) (within node 4) ∧ answer s' bs' status new.
Proof.
  intros Hg Hc Hch Hhome He Hrec Hnull Hin Hpre. pose proof (block_cost_record _ _ _ Hc) as Hrc. pose proof node_cost_nonneg as Hnc.
  pose proof Hc as [Hro _ _ _ _ _ _ _ _ Hnode Hap]. assert (Hap' : ∀ x, within node 4 x → ¬ static x) by (intros x Hx; apply (Hap x Hx)).
  destruct (directory && negb (truth (is_dir e))) eqn:Edir.
  - assert (Hro' : roomy s0 bs0 g) by (eapply roomy_less; [|exact Hro]; lia).
    destruct (exit_nothing_run s0 bs0 s bs L index entry hi' g (within node 4) BL_STATUS_INVALID_FILE_TYPE Hg Hro')
      as (s' & bs' & Hrun & Hch' & Hst); [by intros a ? ?%Hap'|done|done|].
    exists BL_STATUS_INVALID_FILE_TYPE, s', bs', []. split; [|split].
    + pose proof (node_stays s0 bs0 s bs L index entry hi' e g 0 Hg ltac:(lia) ltac:(by rewrite Z.add_0_r) Hap' Hch Hhome He) as (_ & ? & ? & _).
      unfold ntfs_match. pose proof (is_directory_run s hi' entry e He ltac:(done) ltac:(done)) as Er. run_with Er. by rewrite Edir.
    + eapply change_weaken; [|done|exact Hch']. lia.
    + apply andb_prop in Edir as [Hd' Hnd]. apply (AnswerFile _ _ e); try done.
      * unfold truth in Hnd. rewrite negb_involutive in Hnd. by apply Z.eqb_eq.
      * rewrite (same_on_ld (mem s)); [done|]. intros x Hx. apply Hst. eapply stable_weaken; [|by apply Hnode]. lia.
  - destruct (made_run s0 bs0 s bs L index entry hi' e g) as (nb & db & c & s' & bs' & Hrun & Hch' & Hnn); [done..|].
    exists BL_STATUS_SUCCESS, s', bs', [nb; db]. split; [done|]. split; [done|]. apply (AnswerNode _ _ e nb db c); try done.
    intros ->. unfold truth in Edir. intros E. by rewrite E in Edir.
Qed.

Lemma callback_run s bs :
  called s bs callback_cost → depth t < 60 → sorted t → (∀ e, e ∈ entries t → record_here e) →
  ∃ status s' bs' new, bl_ntfs_iterate_directory_callback disks f name directory btree node s = Some (status, s') ∧
    heap_change s bs s' bs' [] new callback_cost (within node 4) ∧ answer s' bs' status new.
Proof.
  intros Hc Hdep Hsort Hrec. pose proof (block_cost_record _ _ _ Hc) as Hrc. pose proof node_cost_nonneg as Hnc.
  pose proof block_cost_nonneg as Hbc. pose proof (depth_nonneg t) as Hd0. unfold callback_cost in *. set (g := depth t * block_cost isize) in *.
  assert (Hg : 0 <= g) by (unfold g; nia).
  destruct (called_node s bs (g + (node_cost + block_cost rsize)) ltac:(lia) Hc) as (s1 & Hrun1 & C1 & Hc1 & Hnull).
  pose proof Hc1 as [Hro1 _ _ _ _ [Hr1 Hr2] Hfirst Ht _ [Hsp Hn] Hap]. pose proof (tree_in_named _ _ _ _ _ _ _ _ Ht) as Hnamed.
  pose proof (ld_range 4 (mem s1) (iroot + ir_node + node_entries_offset)) as Hor. unfold ir_node in *.
  assert (Hrog : roomy s1 bs g) by (eapply roomy_less; [|exact Hro1]; lia).
  pose proof (search_run t entry0 s1 bs Hrog Hdep ltac:(lia) Ht) as Hw.
  apply wp_run in Hw as ([[found entry] index] & s2 & Hrun2 & bs2 & L & hi' & C2 & Hhome & Hres). cbn [fst snd] in *. fold g in C2.
  pose proof (callback_search_run s s1 bs _ found entry index s2 Hc1 Hrun1 Hrun2) as Hrun.
  assert (C : heap_change s bs s2 bs2 [] L g (within node 4)).
  { eapply (change_new _ _ _ _ _ _ [] L 0 g); [done|done|exact C1|]. eapply change_weaken; [reflexivity| |exact C2]. by intros x []. }
  assert (Hnull2 : ld 4 (mem s2) node = NULL).
  { rewrite (same_on_ld (mem s1)); [done|]. intros x Hx. apply (ch_frame _ _ _ _ _ _ _ _ C2); [|by intros b ?%not_elem_of_nil|tauto].
    eapply stable_weaken; [|by apply Hn]. lia. }
  rewrite Hrun. destruct (tree_find str t) as [e|] eqn:E.
  - destruct Hres as [-> He]. destruct (tree_find_some _ _ _ Hnamed E) as [Hin Hpre].
    apply (answer_found s bs s2 bs2 L index entry hi' g e); try done. by apply Hrec.
  - subst found. destruct (finish_none_run s bs s2 bs2 L index entry hi' g) as (s' & bs' & Hrun' & C' & Hnull'); try done.
    all: cycle -1.
    + exists BL_STATUS_FILE_NOT_FOUND, s', bs', []. split; [done|]. split; [eapply change_weaken; [|done|exact C']; lia|].
      apply AnswerNone; [|done]. intros e He. by eapply tree_find_none.
    + eapply roomy_less; [|apply Hc]. lia.
    + split; [done|]. intros x Hx. eapply stable_weaken; [|by apply (ca_node _ _ _ Hc)]. lia.
    + intros x Hx. by apply Hap.
Qed.
End Callback.
End Search.

(** ** Properties *)

(** C25: Looking a name up in a directory of any depth, through the whole
    callback: it reads the index blocks on its way, gives each back, changes
    nothing of what was there but the caller's pointer, and answers.  In a
    directory whose entries are in the order of their names: [SUCCESS] with a
    node for an entry whose name is the name looked for or a prefix of it,
    without regard to case (a longer name that starts with an entry's is
    therefore found too); [INVALID_FILE_TYPE] when a directory was wanted and the
    entry is a file; [FILE_NOT_FOUND] only when no entry has the name; and the
    last two with nothing taken from the heap.  The node names the directory's
    record and the index root in it, but their block was given back: it is free
    on return, although its bytes are still those of the record. *)
Theorem ntfs_callback_tree disks f d image sectors v name info lo hi sizes p rs str btree node iroot entry t directory s bs :
  disk_reads d image sectors → disks (nv_disk v) = Some d → volume_ok v →
  called f image sectors v name info lo hi sizes p rs str btree node iroot entry t s bs (callback_cost v t) →
  depth t < 60 → sorted t → (∀ e, e ∈ entries t → record_here image sectors v e) →
  ∃ status s' bs' new,
    bl_ntfs_iterate_directory_callback disks f name directory btree node s = Some (status, s') ∧
    heap_change s bs s' bs' [] new (callback_cost v t) (within node 4) ∧
    answer image v info str node t directory s' bs' status new.
Proof.
  intros Hdisk Hd Hv. by apply (callback_run disks f d image sectors v Hdisk Hd Hv name info lo hi sizes p rs str btree node iroot).
Qed.

(** A directory with the entries "A.C", "M" (a directory) and "Z.TXT" in three
    nodes; the two index blocks are clusters 5 and 6 of a disk with clusters of
    one sector. *)
Definition entry_bytes (e : dir_entry) (size flags vcn : Z) : list Z :=
  let named := le_split 8 (de_record e) ++ le_split 2 size ++ [0; 0; flags; 0; 0; 0] ++ repeat 0 56 ++
    le_split 4 (de_flags e) ++ [0; 0; 0; 0; Z.of_nat (length (de_chars e)); 0] ++ flat_map (le_split 2) (de_chars e) in
  take (Z.to_nat (size - 8)) (named ++ repeat 0 256) ++ le_split 8 vcn.
Definition last_bytes (flags vcn : Z) : list Z := entry_bytes (DirEntry 0 0 []) 24 flags vcn.
Definition file_a : dir_entry := DirEntry 40 0x20 [65; 46; 67].
Definition dir_m : dir_entry := DirEntry 41 0x10000000 [77].
Definition file_z : dir_entry := DirEntry 42 0x20 [90; 46; 84; 88; 84].
Definition block_bytes (l : list Z) : list Z := indx ++ repeat 0 20 ++ le_split 4 40 ++ repeat 0 36 ++ l.

Definition example_tree : index_tree := Fork dir_m 0 (Item file_a Stop) (Down 1 (Item file_z Stop)).
Definition record_m : list Z :=
  repeat 0 20 ++ [0x30; 0] ++ repeat 0 26 ++
  le_split 4 0x90 ++ le_split 4 0x40 ++ [0; 4] ++ repeat 0 10 ++ [0x20; 0] ++ repeat 0 2 ++ i30.
Definition example_index_disk (a : Z) : Z :=
  if a <? 2560 then 0
  else if a <? 3072 then nth (Z.to_nat (a - 2560)) (block_bytes (entry_bytes file_a 0x68 0 0 ++ last_bytes 2 0)) 0
  else if a <? 3584 then nth (Z.to_nat (a - 3072)) (block_bytes (entry_bytes file_z 0x68 0 0 ++ last_bytes 2 0)) 0
  else nth (Z.to_nat (a - 50176)) record_m 0.
Definition example_volume : ntfs_volume := NtfsVolume 0x9000 0 512 0 0x4100 512 16 1024 1.
Definition example_runs : list data_run := [DataRun 2 5 1 1].

(** The record at 0x4000: its index root at 0x40e0, the index allocation at
    0x4200; the name at 0x2000, the volume at 0x3000,
    the directory's node at 0x5000.  The record of "M" is at sector 98. *)
Definition example_directory : machine :=
  set_mem (foldl (λ m '(a, l), st_bytes m a l) ∅
    [(0x2000, [109; 0]); (0x2100, i30); (0x2200, indx);
     (0x3000 + ni_disk, le_split 4 0x9000); (0x3000 + ni_sector_size, le_split 2 512); (0x3000 + ni_cluster_size, le_split 4 512);
     (0x3000 + ni_mft_lba, le_split 8 16); (0x3000 + ni_mft_record_size, le_split 2 1024); (0x3000 + ni_iroot, le_split 4 0x4100);
     (0x4014, le_split 2 0xe0); (0x40e0, le_split 4 0x90 ++ le_split 4 0x120);
     (0x4100 + ir_index_record_size, le_split 4 512); (0x4110, le_split 4 16);
     (0x4120, entry_bytes dir_m 0x68 1 0 ++ last_bytes 3 1);
     (0x4200, le_split 4 0xa0 ++ le_split 4 0x100 ++ [1; 4]); (0x4200 + at_data_run_offset, le_split 2 0x48);
     (0x4240, i30 ++ [0x11; 2; 5; 0]);
     (0x5000, le_split 4 1 ++ le_split 4 0x4100 ++ le_split 4 0 ++ le_split 4 0x4000 ++ le_split 4 0x3000)]) low_machine.
Definition example_ntfs_frame : ntfs_frame := NtfsFrame 0 0x2100 0x2200 0 0 0 0 0 0 0 0.

Lemma entry_in_here b hi o e :
  img_le 8 b (o + ie_undefined) = de_record e → img_le 4 b (o + ie_data + fn_flags) = de_flags e →
  img_le 1 b (o + ie_data + fn_filename_length) = Z.of_nat (length (de_chars e)) →
  (λ i, u8 (img_le 2 b (o + ie_data + fn_filename + 2 * i))) <$> seqZ 0 (Z.of_nat (length (de_chars e))) = de_chars e →
  forallb (λ c, (0 <? c) && (c <? 256)) (de_chars e) = true → (0 < length (de_chars e) < 256)%nat →
  o + ie_data + fn_filename + 2 * Z.of_nat (length (de_chars e)) <= hi → entry_in b hi o e.
Proof.
  intros H1 H2 H3 H4 H5 H6 H7. split_and!; try done; try lia.
  - intros i c Hc. rewrite <- H4, list_lookup_fmap in Hc.
    destruct (seqZ 0 (Z.of_nat (length (de_chars e))) !! i) as [x|] eqn:E; [|done].
    apply lookup_seqZ in E as [-> _]. cbn in Hc. by injection Hc as <-.
  - apply Forall_forall. intros c Hc. rewrite forallb_forall in H5. apply list_elem_of_In, H5 in Hc. lia.
Qed.

(** Concrete trees: positions are computed first. *)
Ltac tree_here :=
  lazymatch goal with
  | |- tree_in _ _ _ _ _ ?hi ?o _ =>
      let hi' := eval vm_compute in hi in let o' := eval vm_compute in o in
      replace hi with hi' by (vm_compute; reflexivity); replace o with o' by (vm_compute; reflexivity);
      cbn [tree_in]; cbv zeta; tree_here
  | |- _ ∧ _ => split; tree_here
  | |- entry_in _ _ _ _ => apply entry_in_here; ((by vm_compute) || (cbn; lia))
  | |- index_block _ _ _ _ ?vcn _ => exists (5 + vcn); cbv beta zeta; tree_here
  | |- block_cluster _ _ _ _ _ => split_and!; ((by vm_compute) || (by apply not_elem_of_nil))
  | |- _ => by vm_compute
  end.

Lemma example_tree_in :
  index_tree_in example_index_disk 4096 example_volume example_runs (ld8 (mem example_directory)) 0x4400 0x4120 example_tree.
Proof. unfold index_tree_in, example_tree. tree_here. Qed.

Lemma example_scene :
  scene example_ntfs_frame example_volume 0x2000 0x3000 0x4000 0x4400 [0x120] 0x4200 example_runs [109] (mem example_directory).
Proof.
  split.
  - by apply cstr_here_ok; vm_compute.
  - split; by vm_compute.
  - split; [lia|]. split.
    + by vm_compute.
    + by vm_compute.
    + by vm_compute.
    + change (0x4200 + ld 2 (mem example_directory) (0x4200 + at_data_run_offset)) with 0x4248.
      unfold example_runs. cbn [runs_at]. unfold run_ok. split_and!; (by vm_compute) || (cbn; lia).
    + by vm_compute.
  - by vm_compute.
  - by vm_compute.
Qed.

Lemma example_roomy g :
  0 <= g <= 0xfff00000 →
  roomy example_ntfs_frame example_volume 0x2000 0x3000 0x4000 0x4400 [0x120] 0x4200 example_runs [109] example_directory [] g.
Proof.
  intros Hg. split; [by vm_compute|]. split; [apply example_scene|]. change (heap_end example_directory []) with 0x100000.
  split; [|lia]. intros a Ha. split; [|left; change (bl_heap example_directory) with 0x100000]; revert Ha;
    unfold static, within, example_volume, example_ntfs_frame, sizeof_ntfs_info, ir_index_record_size;
    cbn [nv_iroot lit_i30 lit_indx length]; lia.
Qed.

Lemma example_called g :
  0 <= g <= 0xfff00000 →
  called example_ntfs_frame example_index_disk 4096 example_volume 0x2000 0x3000 0x4000 0x4400 [0x120] 0x4200 example_runs [109]
    0x5000 0x6000 0x4100 0x4120 example_tree example_directory [] g.
Proof.
  intros Hg. split.
  - by apply example_roomy.
  - by vm_compute.
  - by vm_compute.
  - by vm_compute.
  - by vm_compute.
  - by vm_compute.
  - by vm_compute.
  - apply example_tree_in.
  - by vm_compute.
  - split; [by vm_compute|]. intros x Hx. split; [lia|left]. change (bl_heap example_directory) with 0x100000. lia.
  - intros x. unfold static, within, example_volume, example_ntfs_frame, sizeof_ntfs_info, ir_index_record_size, sizeof_ntfs_file_data.
    cbn [nv_iroot lit_i30 lit_indx length]. lia.
Qed.

Lemma example_records e : e ∈ entries example_tree → record_here example_index_disk 4096 example_volume e.
Proof.
  assert (Hr : ∀ e, 40 <= de_record e <= 42 → record_lba example_volume e + sector_round 1024 / 512 <= 4096 < 2 ^ 64).
  { intros e' He. assert (de_record e' = 40 ∨ de_record e' = 41 ∨ de_record e' = 42) as E by lia. unfold record_lba.
    destruct E as [-> | [-> | ->]]; by vm_compute. }
  cbn [entries app example_tree]. rewrite !elem_of_cons. intros [->|[->|[->|?%not_elem_of_nil]]]; [| | |done];
    (split; [apply Hr; cbn; lia|intros Hd]); [discriminate Hd| |discriminate Hd].
  exists 0x50, [], 50224. split_and!; [by vm_compute..| |by vm_compute|by vm_compute].
  intros i Hi. assert (i = 0 ∨ i = 1 ∨ i = 2 ∨ i = 3) as [-> | [-> | [-> | ->]]] by lia; by vm_compute.
Qed.

Lemma ntfs_callback_tree_witness :
  let t := example_tree in let v := example_volume in let s := example_directory in let image := example_index_disk in
  ∃ status s' bs' new,
    bl_ntfs_iterate_directory_callback (λ _, Some (ram_disk image)) example_ntfs_frame 0x2000 true 0x5000 0x6000 s = Some (status, s') ∧
    heap_change s [] s' bs' [] new (callback_cost v t) (within 0x6000 4) ∧ answer image v 0x3000 [109] 0x6000 t true s' bs' status new.
Proof.
  intros t v s image.
  apply (ntfs_callback_tree (λ _, Some (ram_disk image)) example_ntfs_frame (ram_disk image)
    image 4096 v 0x2000 0x3000 0x4000 0x4400 [0x120] 0x4200 example_runs [109] 0x5000 0x6000 0x4100 0x4120 t true s []).
  - apply ram_disk_reads.
  - done.
  - split; [done|done|done|done].
  - apply example_called. vm_compute. split; discriminate.
  - done.
  - unfold sorted, t. cbn [entries app example_tree]. repeat constructor; vm_compute; auto.
  - apply example_records.
Defined.
