(* ===== verification/Font.v ===== *)
(** * The font: core/gui/font.c, include/gui/font.h

    8x16 glyphs, a byte per row with the leftmost pixel in the highest bit, and
    the tables that expand pairs and quadruples of pixels to masks. *)
From S2P Require Import Prelude.

Definition BL_FONT_CHARACTER_WIDTH : Z := 8.
Definition BL_FONT_CHARACTER_HEIGHT : Z := 16.

Definition bl_font_lookup_table2 : list Z :=
  [0x0;
   0xffff000000000000;
   0xffff00000000;
   0xffffffff00000000;
   0xffff0000;
   0xffff0000ffff0000;
   0xffffffff0000;
   0xffffffffffff0000;
   0xffff;
   0xffff00000000ffff;
   0xffff0000ffff;
   0xffffffff0000ffff;
   0xffffffff;
   0xffff0000ffffffff;
   0xffffffffffff;
   0xffffffffffffffff].

Definition bl_font_lookup_table4 : list Z :=
  [0x0;
   0xffffffff00000000;
   0xffffffff;
   0xffffffffffffffff].

(** The control characters have empty glyphs. *)
Definition bl_font_control : list (list Z) := replicate 32 (replicate 16 0).

Definition bl_font_symbols : list (list Z) :=
  [[0; 0; 0; 0; 0; 0; 0; 0; 0; 0; 0; 0; 0; 0; 0; 0];
   [0; 0; 0; 0x18; 0x18; 0x18; 0x18; 0x18; 0x18; 0; 0; 0x18; 0x18; 0; 0; 0];
   [0; 0; 0; 0x44; 0x44; 0x44; 0x44; 0; 0; 0; 0; 0; 0; 0; 0; 0];
   [0; 0; 0; 0x24; 0x24; 0x7e; 0x24; 0x24; 0x24; 0x24; 0x7e; 0x24; 0x24; 0; 0; 0];
   [0; 0; 0x08; 0x3f; 0x29; 0x28; 0x28; 0x28; 0x3e; 0x0b; 0x0b; 0x2b; 0x3e; 0x08; 0; 0];
   [0; 0; 0; 0x67; 0x66; 0x0c; 0x0c; 0x18; 0x18; 0x30; 0x30; 0x67; 0x67; 0; 0; 0];
   [0; 0; 0; 0x3c; 0x42; 0x42; 0x44; 0x28; 0x10; 0x28; 0x49; 0x45; 0x7f; 0; 0; 0];
   [0; 0; 0; 0x08; 0x08; 0x08; 0x08; 0; 0; 0; 0; 0; 0; 0; 0; 0];
   [0; 0; 0; 0x0f; 0x18; 0x30; 0x60; 0x60; 0x60; 0x60; 0x30; 0x18; 0x0f; 0; 0; 0];
   [0; 0; 0; 0xf0; 0x18; 0x0c; 0x06; 0x06; 0x06; 0x06; 0x0c; 0x18; 0xf0; 0; 0; 0];
   [0; 0; 0; 0x18; 0x7e; 0x18; 0x18; 0x66; 0; 0; 0; 0; 0; 0; 0; 0];
   [0; 0; 0; 0; 0; 0x18; 0x18; 0x7e; 0x18; 0x18; 0; 0; 0; 0; 0; 0];
   [0; 0; 0; 0; 0; 0; 0; 0; 0; 0x18; 0x18; 0x18; 0x30; 0; 0; 0];
   [0; 0; 0; 0; 0; 0; 0; 0x7e; 0; 0; 0; 0; 0; 0; 0; 0];
   [0; 0; 0; 0; 0; 0; 0; 0; 0; 0; 0; 0x18; 0x18; 0; 0; 0];
   [0; 0; 0; 0x07; 0x06; 0x0c; 0x0c; 0x18; 0x18; 0x30; 0x30; 0x60; 0x60; 0; 0; 0];
   [0; 0; 0; 0x3c; 0x42; 0x42; 0x42; 0x42; 0x42; 0x42; 0x42; 0x42; 0x3c; 0; 0; 0];
   [0; 0; 0; 0x06; 0x0a; 0x12; 0x02; 0x02; 0x02; 0x02; 0x02; 0x02; 0x02; 0; 0; 0];
   [0; 0; 0; 0x7e; 0x02; 0x02; 0x02; 0x7e; 0x40; 0x40; 0x40; 0x40; 0x7e; 0; 0; 0];
   [0; 0; 0; 0x7e; 0x02; 0x02; 0x02; 0x7e; 0x02; 0x02; 0x02; 0x02; 0x7e; 0; 0; 0];
   [0; 0; 0; 0x06; 0x0a; 0x12; 0x22; 0x7f; 0x02; 0x02; 0x02; 0x02; 0x02; 0; 0; 0];
   [0; 0; 0; 0x7e; 0x40; 0x40; 0x40; 0x7e; 0x02; 0x02; 0x02; 0x02; 0x7e; 0; 0; 0];
   [0; 0; 0; 0x7e; 0x40; 0x40; 0x40; 0x7e; 0x42; 0x42; 0x42; 0x42; 0x7e; 0; 0; 0];
   [0; 0; 0; 0x7e; 0x02; 0x02; 0x02; 0x02; 0x02; 0x02; 0x02; 0x02; 0x02; 0; 0; 0];
   [0; 0; 0; 0x7e; 0x42; 0x42; 0x42; 0x7e; 0x42; 0x42; 0x42; 0x42; 0x7e; 0; 0; 0];
   [0; 0; 0; 0x7e; 0x42; 0x42; 0x42; 0x7e; 0x02; 0x02; 0x02; 0x02; 0x7e; 0; 0; 0];
   [0; 0; 0; 0; 0; 0x18; 0x18; 0; 0; 0; 0x18; 0x18; 0; 0; 0; 0];
   [0; 0; 0; 0; 0; 0x18; 0x18; 0; 0; 0x18; 0x18; 0x18; 0x30; 0; 0; 0];
   [0; 0; 0; 0; 0; 0x07; 0x1c; 0x70; 0x70; 0x1c; 0x07; 0; 0; 0; 0; 0];
   [0; 0; 0; 0; 0; 0; 0x7e; 0; 0; 0x7e; 0; 0; 0; 0; 0; 0];
   [0; 0; 0; 0; 0; 0x70; 0x1c; 0x07; 0x07; 0x1c; 0x70; 0; 0; 0; 0; 0];
   [0; 0; 0; 0x3e; 0x63; 0x43; 0x03; 0x0e; 0x0c; 0; 0; 0x0c; 0x0c; 0; 0; 0]].

Definition bl_font_upper : list (list Z) :=
  [[0; 0; 0; 0x3e; 0x41; 0x41; 0x4f; 0x49; 0x49; 0x49; 0x49; 0x49; 0x4f; 0; 0; 0];
   [0; 0; 0x08; 0x14; 0x22; 0x41; 0x41; 0x7f; 0x41; 0x41; 0x41; 0x41; 0x41; 0; 0; 0];
   [0; 0; 0x7e; 0x41; 0x41; 0x41; 0x7e; 0x42; 0x41; 0x41; 0x41; 0x41; 0x7e; 0; 0; 0];
   [0; 0; 0x3c; 0x42; 0x40; 0x40; 0x40; 0x40; 0x40; 0x40; 0x40; 0x42; 0x3c; 0; 0; 0];
   [0; 0; 0x7c; 0x42; 0x41; 0x41; 0x41; 0x41; 0x41; 0x41; 0x41; 0x42; 0x7c; 0; 0; 0];
   [0; 0; 0x7e; 0x40; 0x40; 0x40; 0x40; 0x7e; 0x40; 0x40; 0x40; 0x40; 0x7e; 0; 0; 0];
   [0; 0; 0x7e; 0x40; 0x40; 0x40; 0x40; 0x7e; 0x40; 0x40; 0x40; 0x40; 0x40; 0; 0; 0];
   [0; 0; 0x3e; 0x41; 0x40; 0x40; 0x40; 0x47; 0x41; 0x41; 0x41; 0x41; 0x3e; 0; 0; 0];
   [0; 0; 0x41; 0x41; 0x41; 0x41; 0x41; 0x7f; 0x41; 0x41; 0x41; 0x41; 0x41; 0; 0; 0];
   [0; 0; 0x1c; 0x08; 0x08; 0x08; 0x08; 0x08; 0x08; 0x08; 0x08; 0x08; 0x1c; 0; 0; 0];
   [0; 0; 0x3f; 0x01; 0x01; 0x01; 0x01; 0x01; 0x01; 0x01; 0x41; 0x41; 0x3e; 0; 0; 0];
   [0; 0; 0x41; 0x42; 0x44; 0x48; 0x50; 0x60; 0x50; 0x48; 0x44; 0x42; 0x41; 0; 0; 0];
   [0; 0; 0x40; 0x40; 0x40; 0x40; 0x40; 0x40; 0x40; 0x40; 0x40; 0x40; 0x7f; 0; 0; 0];
   [0; 0; 0x41; 0x63; 0x55; 0x49; 0x41; 0x41; 0x41; 0x41; 0x41; 0x41; 0x41; 0; 0; 0];
   [0; 0; 0x41; 0x41; 0x41; 0x61; 0x51; 0x49; 0x45; 0x43; 0x41; 0x41; 0x41; 0; 0; 0];
   [0; 0; 0x3e; 0x41; 0x41; 0x41; 0x41; 0x41; 0x41; 0x41; 0x41; 0x41; 0x3e; 0; 0; 0];
   [0; 0; 0x7e; 0x41; 0x41; 0x41; 0x41; 0x7e; 0x40; 0x40; 0x40; 0x40; 0x40; 0; 0; 0];
   [0; 0; 0x3e; 0x41; 0x41; 0x41; 0x41; 0x41; 0x41; 0x41; 0x41; 0x51; 0x49; 0x3e; 0x02; 0];
   [0; 0; 0x7e; 0x41; 0x41; 0x41; 0x41; 0x7e; 0x41; 0x41; 0x41; 0x41; 0x41; 0; 0; 0];
   [0; 0; 0x3f; 0x40; 0x40; 0x40; 0x40; 0x3e; 0x01; 0x01; 0x01; 0x01; 0x7e; 0; 0; 0];
   [0; 0; 0x7f; 0x08; 0x08; 0x08; 0x08; 0x08; 0x08; 0x08; 0x08; 0x08; 0x08; 0; 0; 0];
   [0; 0; 0x41; 0x41; 0x41; 0x41; 0x41; 0x41; 0x41; 0x41; 0x41; 0x41; 0x3e; 0; 0; 0];
   [0; 0; 0x41; 0x41; 0x41; 0x41; 0x41; 0x41; 0x41; 0x41; 0x22; 0x14; 0x08; 0; 0; 0];
   [0; 0; 0x41; 0x41; 0x41; 0x41; 0x41; 0x41; 0x41; 0x49; 0x55; 0x63; 0x41; 0; 0; 0];
   [0; 0; 0x41; 0x22; 0x14; 0x14; 0x14; 0x08; 0x14; 0x14; 0x14; 0x22; 0x41; 0; 0; 0];
   [0; 0; 0x41; 0x22; 0x14; 0x08; 0x08; 0x08; 0x08; 0x08; 0x08; 0x08; 0x08; 0; 0; 0];
   [0; 0; 0x7f; 0x01; 0x01; 0x02; 0x04; 0x08; 0x10; 0x20; 0x40; 0x40; 0x7f; 0; 0; 0];
   [0; 0; 0; 0x38; 0x20; 0x20; 0x20; 0x20; 0x20; 0x20; 0x20; 0x20; 0x38; 0; 0; 0];
   [0; 0; 0; 0x20; 0x20; 0x10; 0x10; 0x08; 0x08; 0x04; 0x04; 0x02; 0x02; 0; 0; 0];
   [0; 0; 0; 0x1c; 0x04; 0x04; 0x04; 0x04; 0x04; 0x04; 0x04; 0x04; 0x1c; 0; 0; 0];
   [0; 0; 0; 0x08; 0x14; 0x22; 0x41; 0; 0; 0; 0; 0; 0; 0; 0; 0];
   [0; 0; 0; 0; 0; 0; 0; 0; 0; 0; 0; 0; 0x7e; 0; 0; 0]].

Definition bl_font_lower : list (list Z) :=
  [[0; 0; 0x20; 0x10; 0; 0; 0; 0; 0; 0; 0; 0; 0; 0; 0; 0];
   [0; 0; 0; 0; 0; 0; 0x3c; 0x02; 0x02; 0x3e; 0x42; 0x42; 0x3e; 0; 0; 0];
   [0; 0; 0; 0; 0x40; 0x40; 0x40; 0x7c; 0x42; 0x42; 0x42; 0x42; 0x7c; 0; 0; 0];
   [0; 0; 0; 0; 0; 0; 0x3e; 0x40; 0x40; 0x40; 0x40; 0x40; 0x3e; 0; 0; 0];
   [0; 0; 0; 0; 0x02; 0x02; 0x02; 0x3e; 0x42; 0x42; 0x42; 0x42; 0x3e; 0; 0; 0];
   [0; 0; 0; 0; 0; 0; 0x3c; 0x42; 0x42; 0x7e; 0x40; 0x40; 0x3e; 0; 0; 0];
   [0; 0; 0; 0; 0x1c; 0x20; 0x20; 0x20; 0x7c; 0x20; 0x20; 0x20; 0x20; 0; 0; 0];
   [0; 0; 0; 0; 0; 0; 0x3e; 0x42; 0x42; 0x42; 0x42; 0x3e; 0x02; 0x02; 0x7c; 0];
   [0; 0; 0; 0x40; 0x40; 0x40; 0x40; 0x7c; 0x42; 0x42; 0x42; 0x42; 0x42; 0; 0; 0];
   [0; 0; 0; 0; 0; 0x08; 0x08; 0; 0x08; 0x08; 0x08; 0x08; 0x08; 0; 0; 0];
   [0; 0; 0; 0; 0; 0x04; 0x04; 0; 0x04; 0x04; 0x04; 0x04; 0x04; 0x04; 0x38; 0];
   [0; 0; 0; 0; 0x44; 0x48; 0x50; 0x60; 0x60; 0x50; 0x48; 0x44; 0x42; 0; 0; 0];
   [0; 0; 0; 0; 0x10; 0x10; 0x10; 0x10; 0x10; 0x10; 0x10; 0x10; 0x08; 0; 0; 0];
   [0; 0; 0; 0; 0; 0; 0x7e; 0x49; 0x49; 0x49; 0x49; 0x49; 0x49; 0; 0; 0];
   [0; 0; 0; 0; 0; 0; 0x7c; 0x42; 0x42; 0x42; 0x42; 0x42; 0x42; 0; 0; 0];
   [0; 0; 0; 0; 0; 0; 0x3c; 0x42; 0x42; 0x42; 0x42; 0x42; 0x3c; 0; 0; 0];
   [0; 0; 0; 0; 0; 0; 0x7c; 0x42; 0x42; 0x42; 0x42; 0x7c; 0x40; 0x40; 0x40; 0];
   [0; 0; 0; 0; 0; 0; 0x3e; 0x42; 0x42; 0x42; 0x42; 0x3e; 0x02; 0x02; 0x02; 0];
   [0; 0; 0; 0; 0; 0; 0x7c; 0x40; 0x40; 0x40; 0x40; 0x40; 0x40; 0; 0; 0];
   [0; 0; 0; 0; 0; 0; 0x3e; 0x40; 0x40; 0x3c; 0x02; 0x02; 0x7c; 0; 0; 0];
   [0; 0; 0; 0; 0x20; 0x20; 0x7e; 0x20; 0x20; 0x20; 0x20; 0x20; 0x1e; 0; 0; 0];
   [0; 0; 0; 0; 0; 0; 0x42; 0x42; 0x42; 0x42; 0x42; 0x42; 0x3e; 0; 0; 0];
   [0; 0; 0; 0; 0; 0; 0x41; 0x41; 0x22; 0x22; 0x14; 0x14; 0x08; 0; 0; 0];
   [0; 0; 0; 0; 0; 0; 0x41; 0x41; 0x41; 0x49; 0x55; 0x63; 0x41; 0; 0; 0];
   [0; 0; 0; 0; 0; 0; 0x41; 0x22; 0x14; 0x08; 0x14; 0x22; 0x41; 0; 0; 0];
   [0; 0; 0; 0; 0; 0; 0x41; 0x41; 0x41; 0x21; 0x12; 0x0c; 0x08; 0x10; 0x60; 0];
   [0; 0; 0; 0; 0; 0; 0x7f; 0x02; 0x04; 0x08; 0x10; 0x20; 0x7f; 0; 0; 0];
   [0; 0; 0; 0x1c; 0x20; 0x20; 0x20; 0x40; 0x40; 0x20; 0x20; 0x20; 0x1c; 0; 0; 0];
   [0; 0; 0x08; 0x08; 0x08; 0x08; 0x08; 0x08; 0x08; 0x08; 0x08; 0x08; 0x08; 0x08; 0; 0];
   [0; 0; 0; 0x38; 0x04; 0x04; 0x04; 0x02; 0x02; 0x04; 0x04; 0x04; 0x38; 0; 0; 0];
   [0; 0; 0; 0; 0; 0; 0; 0x24; 0x58; 0; 0; 0; 0; 0; 0; 0]].

(** Glyph 0x7f has no initialiser and is empty. *)
Definition bl_font : list (list Z) :=
  bl_font_control ++ bl_font_symbols ++ bl_font_upper ++ bl_font_lower ++ [replicate 16 0].

Definition glyph_row (c i : Z) : Z := nth (Z.to_nat i) (nth (Z.to_nat c) bl_font []) 0.
