(* ===== verification/Fb.v ===== *)
(** * The frame buffer: core/video/fb.c, core/video/alpha-blending.c,
    include/video/video.h

    The static [bl_fb] is a record that the operations take and return; pixels
    are in the machine's memory. *)
From S2P Require Import Prelude Memory Arith Status Strings Heap Font.

Record bl_video_color_mask := ColorMask { position : Z; mask_size : Z }.

Record bl_video_info := VideoInfo {
  width : Z; height : Z; pitch : Z;
  frame_buffer : Z; video_memory_size : Z;
  bits_per_pixel : Z; bytes_per_pixel : Z;
  red : bl_video_color_mask; green : bl_video_color_mask; blue : bl_video_color_mask;
  reserved : bl_video_color_mask;
}.

Record area := Area { d_x : Z; d_y : Z; d_w : Z; d_h : Z }.

Record bl_fb_t := Fb { info : bl_video_info; renderer : Z; dirty_area : area; double_buffer : Z }.

Definition with_dirty (a : area) (fb : bl_fb_t) : bl_fb_t := Fb (info fb) (renderer fb) a (double_buffer fb).
Definition with_renderer (p : Z) (fb : bl_fb_t) : bl_fb_t :=
  Fb (info fb) p (dirty_area fb) (double_buffer fb).

(** ** Colors *)
Definition COLOR_MASK (v sz : Z) : Z := Z.land v (Z.shiftl 1 sz - 1).
Definition COLOR_LSHIFT (v pos : Z) : Z := Z.shiftl v pos.
Definition COLOR_RSHIFT (v pos : Z) : Z := Z.shiftr v pos.

Definition bl_fb_prepare_color (i : bl_video_info) (r g b x : Z) : Z :=
  let put (v : Z) (m : bl_video_color_mask) :=
    COLOR_LSHIFT (COLOR_MASK (u8 v) (mask_size m)) (position m) in
  u32 (Z.lor (Z.lor (Z.lor (put r (red i)) (put g (green i))) (put b (blue i))) (put x (reserved i))).

Definition get_channel (m : bl_video_color_mask) (color : Z) : Z :=
  u8 (COLOR_MASK (COLOR_RSHIFT color (position m)) (mask_size m)).
Definition bl_fb_get_red (i : bl_video_info) (color : Z) : Z := get_channel (red i) color.
Definition bl_fb_get_green (i : bl_video_info) (color : Z) : Z := get_channel (green i) color.
Definition bl_fb_get_blue (i : bl_video_info) (color : Z) : Z := get_channel (blue i) color.
Definition bl_fb_get_reserved (i : bl_video_info) (color : Z) : Z := get_channel (reserved i) color.

(** alpha-blending.c: the blended color, and whether to ignore it. *)
Definition blend_channel (c1 c2 alpha : Z) : Z :=
  let inv := Z.lxor alpha 0xff in
  Z.shiftr (c1 * (Z.shiftl alpha 8 + alpha) + c2 * (Z.shiftl inv 8 + inv)) 16.

Definition bl_alpha_blend_color (i : bl_video_info) (color1 color2 alpha : Z) : Z * bool :=
  if alpha =? 0 then (0, true)
  else if alpha =? 0xff then (color1, false)
  else
    (bl_fb_prepare_color i
       (blend_channel (bl_fb_get_red i color1) (bl_fb_get_red i color2) alpha)
       (blend_channel (bl_fb_get_green i color1) (bl_fb_get_green i color2) alpha)
       (blend_channel (bl_fb_get_blue i color1) (bl_fb_get_blue i color2) alpha) alpha, false).

(** ** Targets and the dirty area *)
Definition bl_fb_get_target_ptr (fb : bl_fb_t) : Z :=
  if truth (renderer fb) then renderer fb
  else if truth (double_buffer fb) then double_buffer fb
  else NULL.

Definition BL_FB_INVALID_POS : Z := 4294967295.

Definition bl_fb_reset_dirty_area (fb : bl_fb_t) : bl_fb_t :=
  with_dirty (Area BL_FB_INVALID_POS BL_FB_INVALID_POS BL_FB_INVALID_POS BL_FB_INVALID_POS) fb.

(** One axis: the new size from the old position [d] and size [dn]. *)
Definition dirty_extent (d dn x n : Z) : Z :=
  if dn =? BL_FB_INVALID_POS then n
  else if x <? d then
    if u32 (x + n) <? u32 (d + dn) then u32 (d + dn - x) else n
  else
    if u32 (d + dn) <? u32 (x + n) then u32 (x + n - d) else dn.

Definition dirty_pos (d x : Z) : Z := if (x <? d) || (d =? BL_FB_INVALID_POS) then x else d.

Definition bl_fb_update_dirty_area (x y w h : Z) (fb : bl_fb_t) : bl_fb_t :=
  let d := dirty_area fb in
  with_dirty (Area (dirty_pos (d_x d) x) (dirty_pos (d_y d) y)
                (dirty_extent (d_x d) (d_w d) x w) (dirty_extent (d_y d) (d_h d) y h)) fb.

(** ** Pixels *)
Definition pixel_ptr (i : bl_video_info) (base x y : Z) : Z :=
  u32 (base + y * pitch i + x * bytes_per_pixel i).

Definition bl_fb_get_pixel_ptr (i : bl_video_info) (src x y : Z) : M Z :=
  let ptr := pixel_ptr i src x y in
  let bpp := bits_per_pixel i in
  if (bpp =? 15) || (bpp =? 16) then rd16 ptr
  else if bpp =? 24 then
    c0 ← rd8 ptr; c1 ← rd8 (ptr + 1); c2 ← rd8 (ptr + 2);
    mret (Z.lor (Z.lor c0 (Z.shiftl c1 8)) (Z.shiftl c2 16))
  else if bpp =? 32 then rd32 ptr
  else mret 0.

Definition bl_fb_get_pixel (fb : bl_fb_t) (x y : Z) : M Z :=
  bl_fb_get_pixel_ptr (info fb) (bl_fb_get_target_ptr fb) x y.

Definition bl_fb_set_pixel (fb : bl_fb_t) (color x y : Z) : M () :=
  let dst := pixel_ptr (info fb) (bl_fb_get_target_ptr fb) x y in
  let bpp := bits_per_pixel (info fb) in
  if (bpp =? 15) || (bpp =? 16) then wr16 dst (Z.land color 0xffff)
  else if bpp =? 24 then
    wr8 dst (Z.land color 0xff);;
    wr8 (dst + 1) (Z.land (Z.shiftr color 8) 0xff);;
    wr8 (dst + 2) (Z.land (Z.shiftr color 16) 0xff)
  else if bpp =? 32 then wr32 dst color
  else mret ().

(** ** Glyphs *)
Definition lookup2 (i : Z) : Z := nth (Z.to_nat i) bl_font_lookup_table2 0.
Definition lookup4 (i : Z) : Z := nth (Z.to_nat i) bl_font_lookup_table4 0.

(** Foreground where the mask is set, background elsewhere. *)
Definition merge (fg bg mask : Z) : Z := Z.lor (Z.land fg mask) (Z.land bg (not64 mask)).

(** One row of 8 pixels at 2, 3 and 4 bytes per pixel. *)
Definition blit_row2 (i : bl_video_info) (white bits src dst : Z) : M () :=
  let fg := Z.lor (Z.lor (Z.lor (u64 (Z.shiftl white 48)) (u64 (Z.shiftl white 32)))
                     (u64 (Z.shiftl white 16))) white in
  let half (mask k off : Z) : M () :=
    p0 ← bl_fb_get_pixel_ptr i src k 0;
    p1 ← bl_fb_get_pixel_ptr i src (k + 1) 0;
    p2 ← bl_fb_get_pixel_ptr i src (k + 2) 0;
    p3 ← bl_fb_get_pixel_ptr i src (k + 3) 0;
    wr64 (dst + off) (merge fg (Z.lor (Z.lor (Z.lor p0 (u64 (Z.shiftl p1 16)))
                                (u64 (Z.shiftl p2 32))) (u64 (Z.shiftl p3 48))) mask) in
  half (lookup2 (Z.land (Z.shiftr bits 4) 0xf)) 0 0;;
  half (lookup2 (Z.land bits 0xf)) 4 8.

Definition blit_row3 (i : bl_video_info) (bits src dst : Z) : M () :=
  mwhile (λ j,
    if 0 <=? j then
      let p := dst + (7 - j) * 3 in
      (if truth (Z.land bits (Z.shiftl 1 j)) then
         wr8 p 0xff;; wr8 (p + 1) 0xff;; wr8 (p + 2) 0xff
       else
         c ← bl_fb_get_pixel_ptr i src 0 0;
         wr8 p (Z.land c 0xff);;
         wr8 (p + 1) (Z.land (Z.shiftr c 8) 0xff);;
         wr8 (p + 2) (Z.land (Z.shiftr c 16) 0xff));;
      continue (j - 1)
    else break ()) 7.

Definition blit_row4 (i : bl_video_info) (white bits src dst : Z) : M () :=
  let fg := Z.lor (u64 (Z.shiftl white 32)) white in
  let pair (sh k off : Z) : M () :=
    p0 ← bl_fb_get_pixel_ptr i src k 0;
    p1 ← bl_fb_get_pixel_ptr i src (k + 1) 0;
    wr64 (dst + off) (merge fg (Z.lor (u64 (Z.shiftl p0 32)) p1)
                        (lookup4 (Z.land (Z.shiftr bits sh) 0x3))) in
  pair 6 0 0;; pair 4 2 8;; pair 2 4 16;; pair 0 6 24.

Definition bl_fb_blit_glyph (fb : bl_fb_t) (c blit_bg x y : Z) : M bl_fb_t :=
  if c <? 0x20 then mret fb
  else
    let fb := bl_fb_update_dirty_area x y BL_FONT_CHARACTER_WIDTH BL_FONT_CHARACTER_HEIGHT fb in
    let i := info fb in
    let src := pixel_ptr i blit_bg x y in
    let dst := pixel_ptr i (bl_fb_get_target_ptr fb) x y in
    let white := bl_fb_prepare_color i 0xff 0xff 0xff 0xff in
    let rows (row : Z → Z → Z → M ()) : M () :=
      mwhile (λ '(k, src, dst),
        if k <? BL_FONT_CHARACTER_HEIGHT then
          row (glyph_row c k) src dst;;
          continue (k + 1, u32 (src + pitch i), u32 (dst + pitch i))
        else break ()) (0, src, dst) in
    (if bytes_per_pixel i =? 2 then rows (blit_row2 i white)
     else if bytes_per_pixel i =? 3 then rows (blit_row3 i)
     else if bytes_per_pixel i =? 4 then rows (blit_row4 i white)
     else mret ());;
    mret fb.

(** ** Copies between buffers *)
Definition copy_rows (i : bl_video_info) (src dst n rows : Z) : M () :=
  mwhile (λ '(k, src, dst),
    if k <? rows then
      bl_memcpy dst src n;;
      continue (k + 1, u32 (src + pitch i), u32 (dst + pitch i))
    else break ()) (0, src, dst).

Definition bl_fb_update_from_double_buffer (fb : bl_fb_t) : M bl_fb_t :=
  let '(Area x y w h) := dirty_area fb in
  if (x =? BL_FB_INVALID_POS) || (y =? BL_FB_INVALID_POS) || (w =? BL_FB_INVALID_POS) ||
     (h =? BL_FB_INVALID_POS)
  then mret fb
  else
    let i := info fb in
    copy_rows i (pixel_ptr i (bl_fb_get_target_ptr fb) x y) (pixel_ptr i (frame_buffer i) x y)
      (u32 (w * bytes_per_pixel i)) h;;
    mret (bl_fb_reset_dirty_area fb).

Definition bl_fb_switch_from_renderer (fb : bl_fb_t) : M bl_fb_t :=
  if negb (truth (renderer fb)) then mret fb
  else
    let src := renderer fb in
    let fb := with_renderer NULL fb in
    let i := info fb in
    copy_rows i src (bl_fb_get_target_ptr fb) (u32 (width i * bytes_per_pixel i)) (height i);;
    mret fb.

Definition bl_fb_set_render_ptr (ptr : Z) (fb : bl_fb_t) : bl_fb_t :=
  if truth ptr then with_renderer ptr fb else fb.

(** ** Rectangles: [put] stores one pixel of [n] bytes. *)
Definition fill_rows (n : Z) (put : Z → M ()) (dst skip w h : Z) : M () :=
  mwhile (λ '(j, dst),
    if j <? h then
      dst ← mwhile (λ '(i, dst),
              if i <? w then put dst;; continue (i + 1, u32 (dst + n)) else break dst) (0, dst);
      continue (j + 1, u32 (dst + skip))
    else break ()) (0, dst).

Definition bl_fb_fill_rectangle_16bits (dst color skip w h : Z) : M () :=
  fill_rows 2 (λ p, wr16 p (Z.land color 0xffff)) dst skip w h.
Definition bl_fb_fill_rectangle_24bits (dst color skip w h : Z) : M () :=
  fill_rows 3 (λ p, wr8 p (Z.land color 0xff);;
                    wr8 (u32 (p + 1)) (Z.land (Z.shiftr color 8) 0xff);;
                    wr8 (u32 (p + 2)) (Z.land (Z.shiftr color 16) 0xff)) dst skip w h.
Definition bl_fb_fill_rectangle_32bits (dst color skip w h : Z) : M () :=
  fill_rows 4 (λ p, wr32 p color) dst skip w h.

Definition bl_fb_fill_rectangle_ptr (i : bl_video_info) (ptr color x y w h : Z) : M () :=
  if is_null ptr then mret ()
  else
    let dst := pixel_ptr i ptr x y in
    let skip := u32 (pitch i - bytes_per_pixel i * w) in
    if bytes_per_pixel i =? 2 then bl_fb_fill_rectangle_16bits dst color skip w h
    else if bytes_per_pixel i =? 3 then bl_fb_fill_rectangle_24bits dst color skip w h
    else if bytes_per_pixel i =? 4 then bl_fb_fill_rectangle_32bits dst color skip w h
    else mret ().

Definition bl_fb_fill_rectangle (fb : bl_fb_t) (color x y w h : Z) : M bl_fb_t :=
  let ptr := bl_fb_get_target_ptr fb in
  if is_null ptr then mret fb
  else
    let fb := bl_fb_update_dirty_area x y w h fb in
    bl_fb_fill_rectangle_ptr (info fb) ptr color x y w h;;
    mret fb.
