(* ===== verification/FbProofs.v ===== *)
(** * Proofs about the frame buffer *)
From S2P Require Import Prelude Memory Arith Status Strings StringsProofs Heap Font Fb.

(** ** The dirty area *)

(** One axis of the area: a segment that does not run past the last position. *)
Definition segment (d n : Z) : Prop := 0 <= d ∧ 0 <= n ∧ d + n < BL_FB_INVALID_POS.

Lemma dirty_axis d dn x n :
  segment d dn → segment x n →
  dirty_pos d x = Z.min d x ∧
  dirty_extent d dn x n = Z.max (d + dn) (x + n) - Z.min d x.
Proof.
  unfold segment, dirty_pos, dirty_extent, BL_FB_INVALID_POS. intros (? & ? & ?) (? & ? & ?).
  rewrite !(u32_small (d + dn)), !(u32_small (x + n)) by lia.
  destruct (Z.eqb_spec dn 4294967295); [lia|]. destruct (Z.eqb_spec d 4294967295); [lia|].
  rewrite orb_false_r. destruct (Z.ltb_spec x d).
  - split; [lia|]. destruct (Z.ltb_spec (x + n) (d + dn)); [rewrite u32_small; lia|lia].
  - split; [lia|]. destruct (Z.ltb_spec (d + dn) (x + n)); [rewrite u32_small; lia|lia].
Qed.

Lemma dirty_axis_empty x n :
  dirty_pos BL_FB_INVALID_POS x = x ∧ dirty_extent BL_FB_INVALID_POS BL_FB_INVALID_POS x n = n.
Proof. unfold dirty_pos, dirty_extent. by rewrite Z.eqb_refl, orb_true_r. Qed.

(** ** Colors, bit by bit *)
Lemma mask_ones sz : 0 <= sz → Z.shiftl 1 sz - 1 = Z.ones sz.
Proof. intros. rewrite Z.shiftl_1_l, Z.ones_equiv. lia. Qed.

(** A channel in a color word. *)
Definition channel_ok (m : bl_video_color_mask) : Prop :=
  0 <= position m ∧ 0 <= mask_size m <= 8 ∧ position m + mask_size m <= 32.
Definition apart (m m' : bl_video_color_mask) : Prop :=
  position m + mask_size m <= position m' ∨ position m' + mask_size m' <= position m.

Definition put_channel (m : bl_video_color_mask) (v : Z) : Z :=
  COLOR_LSHIFT (COLOR_MASK (u8 v) (mask_size m)) (position m).

Lemma put_channel_bit m v n :
  channel_ok m → 0 <= n →
  Z.testbit (put_channel m v) n =
  (position m <=? n) && (n <? position m + mask_size m) && Z.testbit (u8 v) (n - position m).
Proof.
  intros (Hp & Hs & _) Hn. unfold put_channel, COLOR_LSHIFT, COLOR_MASK. rewrite mask_ones by lia.
  rewrite Z.shiftl_spec by done. destruct (Z.leb_spec (position m) n) as [Hle|Hlt]; cycle 1.
  { by rewrite Z.testbit_neg_r by lia. }
  rewrite Z.land_spec, Z.testbit_ones_nonneg by lia.
  destruct (Z.ltb_spec (n - position m) (mask_size m)), (Z.ltb_spec n (position m + mask_size m));
    try lia; by rewrite ?andb_true_r, ?andb_false_r.
Qed.

(** What is read back from a word in which only channel [m] has bits at [m]. *)
Lemma get_put_channel m v w :
  channel_ok m →
  (∀ k, 0 <= k < mask_size m → Z.testbit w (position m + k) = Z.testbit (u8 v) k) →
  get_channel m w = u8 v mod 2 ^ mask_size m.
Proof.
  intros (Hp & Hs & Hps) Hw. unfold get_channel, COLOR_MASK, COLOR_RSHIFT.
  rewrite mask_ones, Z.land_ones by lia.
  assert (E : Z.shiftr w (position m) mod 2 ^ mask_size m = u8 v mod 2 ^ mask_size m).
  { apply Z.bits_inj'. intros n Hn. rewrite !Z.testbit_mod_pow2 by lia.
    destruct (Z.ltb_spec n (mask_size m)); [|done]. simpl.
    rewrite Z.shiftr_spec, Z.add_comm by done. by apply Hw. }
  rewrite E. pose proof (Z.mod_pos_bound (u8 v) (2 ^ mask_size m) ltac:(apply Z.pow_pos_nonneg; lia)).
  pose proof (u8_range v). apply u8_small.
  assert (2 ^ mask_size m <= 2 ^ 8) by (apply Z.pow_le_mono_r; lia). lia.
Qed.

Definition channels_ok (i : bl_video_info) : Prop :=
  channel_ok (red i) ∧ channel_ok (green i) ∧ channel_ok (blue i) ∧ channel_ok (reserved i) ∧
  apart (red i) (green i) ∧ apart (red i) (blue i) ∧ apart (red i) (reserved i) ∧
  apart (green i) (blue i) ∧ apart (green i) (reserved i) ∧ apart (blue i) (reserved i).

Lemma prepare_color_bit i r g b x n :
  0 <= n < 32 →
  Z.testbit (bl_fb_prepare_color i r g b x) n =
  Z.testbit (put_channel (red i) r) n || Z.testbit (put_channel (green i) g) n ||
  Z.testbit (put_channel (blue i) b) n || Z.testbit (put_channel (reserved i) x) n.
Proof.
  intros Hn. unfold bl_fb_prepare_color, u32. change 4294967296 with (2 ^ 32).
  rewrite Z.testbit_mod_pow2 by lia. destruct (Z.ltb_spec n 32); [|lia]. simpl.
  by rewrite !Z.lor_spec.
Qed.

(** A channel of a prepared color. *)
Lemma get_prepared i r g b x m v :
  channels_ok i →
  (m = red i ∧ v = r) ∨ (m = green i ∧ v = g) ∨ (m = blue i ∧ v = b) ∨ (m = reserved i ∧ v = x) →
  get_channel m (bl_fb_prepare_color i r g b x) = u8 v mod 2 ^ mask_size m.
Proof.
  intros (Hr & Hg & Hb & Hx & Hrg & Hrb & Hrx & Hgb & Hgx & Hbx) Hm.
  assert (Hok : channel_ok m) by (destruct Hm as [[-> _]|[[-> _]|[[-> _]|[-> _]]]]; done).
  apply get_put_channel; [done|]. intros k Hk. pose proof Hok as (Hp & Hs & Hps).
  rewrite prepare_color_bit, !put_channel_bit by (done || lia). unfold apart in *.
  destruct Hm as [[-> ->]|[[-> ->]|[[-> ->]|[-> ->]]]];
    repeat match goal with |- context [(position ?c <=? ?n) && (?n <? position ?c + mask_size ?c)] =>
      destruct (Z.leb_spec (position c) n), (Z.ltb_spec n (position c + mask_size c)); try lia end;
    cbn [andb orb]; rewrite ?orb_false_r; do 2 f_equal; lia.
Qed.

(** ** Blending *)
Lemma lxor_255 a : 0 <= a < 256 → Z.lxor a 255 = 255 - a.
Proof.
  intros Ha. assert (H : Forall (λ a, Z.lxor a 255 = 255 - a) (seqZ 0 256)).
  { by repeat constructor. }
  rewrite Forall_forall in H. apply H, elem_of_seqZ. lia.
Qed.

Lemma blend_channel_value c1 c2 a :
  0 <= a < 256 → blend_channel c1 c2 a = 257 * (c1 * a + c2 * (255 - a)) / 65536.
Proof.
  intros Ha. unfold blend_channel. rewrite lxor_255, Z.shiftr_div_pow2, !Z.shiftl_mul_pow2 by lia.
  change (2 ^ 8) with 256. change (2 ^ 16) with 65536. f_equal. ring.
Qed.

Lemma blend_channel_between c1 c2 a :
  0 <= a < 256 → 0 <= c1 < 256 → 0 <= c2 < 256 →
  Z.min c1 c2 - 1 <= blend_channel c1 c2 a <= Z.max c1 c2.
Proof.
  intros Ha H1 H2. rewrite blend_channel_value by done.
  set (lo := Z.min c1 c2). set (hi := Z.max c1 c2).
  assert (Hlo : lo * 255 <= c1 * a + c2 * (255 - a)) by (unfold lo; nia).
  assert (Hhi : c1 * a + c2 * (255 - a) <= hi * 255) by (unfold hi; nia).
  split.
  - apply Z.div_le_lower_bound; [lia|]. unfold lo in *. lia.
  - apply Z.div_le_upper_bound; [lia|]. unfold hi in *. lia.
Qed.

(** ** Rectangles *)

(** The contents of memory after [h] rows of bytes [row], a stride apart. *)
Definition rows_written (m : gmap Z Z) (dst stride : Z) (row : list Z) (h : Z) : gmap Z Z :=
  foldl (λ m j, st_bytes m (dst + j * stride) row) m (seqZ 0 h).

Lemma rows_written_snoc m dst stride row h :
  0 <= h → rows_written m dst stride row (h + 1) =
           st_bytes (rows_written m dst stride row h) (dst + h * stride) row.
Proof. intros. unfold rows_written. rewrite seqZ_app, foldl_app by lia. simpl. by rewrite Z.add_0_l. Qed.

(** A pixel store: [n] bytes [px]. *)
Definition stores (put : Z → M ()) (px : list Z) : Prop :=
  ∀ p s, in_space p (Z.of_nat (length px)) → put p s = Some ((), set_mem (st_bytes (mem s) p px) s).

Definition row_of (px : list Z) (w : Z) : list Z := concat (replicate (Z.to_nat w) px).

Lemma length_row_of px w : 0 <= w → Z.of_nat (length (row_of px w)) = Z.of_nat (length px) * w.
Proof.
  intros Hw. unfold row_of. rewrite <- (Z2Nat.id w) at 2 by done. generalize (Z.to_nat w). intros k.
  induction k as [|k IH]; simpl; [lia|]. rewrite length_app, Nat2Z.inj_add, IH. lia.
Qed.

Lemma row_of_snoc px w : 0 <= w → row_of px (w + 1) = row_of px w ++ px.
Proof.
  intros. unfold row_of. replace (Z.to_nat (w + 1)) with (Z.to_nat w + 1)%nat by lia.
  rewrite replicate_add, concat_app. simpl. by rewrite app_nil_r.
Qed.

Lemma fill_row_run put px dst w s :
  stores put px → 0 < Z.of_nat (length px) → 0 <= w < 4294967296 →
  0 <= dst → dst + Z.of_nat (length px) * w < 4294967296 →
  mwhile (λ '(i, dst),
    if i <? w then put dst;; continue (i + 1, u32 (dst + Z.of_nat (length px))) else break dst : M _)
    (0, dst) s =
  Some (dst + Z.of_nat (length px) * w, set_mem (st_bytes (mem s) dst (row_of px w)) s).
Proof.
  intros Hput Hn Hw Hd Hend. apply wp_exact. set (n := Z.of_nat (length px)) in *.
  wp_loop (λ '(i, p) t, 0 <= i <= w ∧ p = dst + n * i ∧
      t = set_mem (st_bytes (mem s) dst (row_of px i)) s) (λ '(i, _) _, w - i).
  - intros [i p] t (Hi & -> & ->). destruct (Z.ltb_spec i w).
    + wp_step. apply wp_run. eexists _, _. split; [apply Hput; unfold in_space; fold n; nia|].
      wp_step. split; [|lia]. split; [lia|]. split; [rewrite u32_small by nia; lia|].
      rewrite mem_set_mem, set_mem_set_mem, row_of_snoc, st_bytes_app, length_row_of by lia. done.
    + wp_step. replace i with w by lia. done.
  - split; [lia|]. split; [lia|]. change (row_of px 0) with (@nil Z). simpl. by rewrite set_mem_id.
  - lia.
Qed.

Lemma fill_rows_run put px dst skip w h s :
  stores put px → 0 < Z.of_nat (length px) → 0 <= w < 4294967296 → 0 <= h < 4294967296 →
  0 <= skip → 0 <= dst → dst + h * (Z.of_nat (length px) * w + skip) < 4294967296 →
  fill_rows (Z.of_nat (length px)) put dst skip w h s =
  Some ((), set_mem (rows_written (mem s) dst (Z.of_nat (length px) * w + skip) (row_of px w) h) s).
Proof.
  intros Hput Hn Hw Hh Hs Hd Hend. apply wp_exact. unfold fill_rows.
  set (n := Z.of_nat (length px)) in *. set (stride := n * w + skip) in *.
  assert (Hst : 0 <= n * w <= stride) by (unfold stride; nia).
  wp_loop (λ '(j, p) t, 0 <= j <= h ∧ p = dst + j * stride ∧
      t = set_mem (rows_written (mem s) dst stride (row_of px w) j) s) (λ '(j, _) _, h - j).
  - intros [j p] t (Hj & -> & ->). destruct (Z.ltb_spec j h).
    + wp_step. apply wp_run. eexists _, _.
      split; [apply fill_row_run; [done|done|done|nia|fold n; nia]|].
      wp_step. split; [|lia]. split; [lia|]. fold n. split; [unfold stride in *; rewrite u32_small by nia; lia|].
      rewrite mem_set_mem, set_mem_set_mem, rows_written_snoc by lia. done.
    + wp_step. by replace j with h by lia.
  - split; [lia|]. split; [lia|]. unfold rows_written. simpl. by rewrite set_mem_id.
  - lia.
Qed.

(** Reading the rows back. *)
Lemma rows_written_out m dst stride row h b :
  0 <= h → 0 <= dst → 0 <= stride → dst + h * stride <= 4294967296 →
  Z.of_nat (length row) <= stride → 0 <= b < 4294967296 →
  (∀ j, 0 <= j < h → outside (dst + j * stride) (Z.of_nat (length row)) b) →
  ld8 (rows_written m dst stride row h) b = ld8 m b.
Proof.
  intros Hh Hd Hs Hend Hrow Hb. rewrite <- (Z2Nat.id h) in * by done. revert Hend. generalize (Z.to_nat h) as k.
  intros k Hend Hout. induction k as [|k IH]; [done|].
  rewrite Nat2Z.inj_succ, <- Z.add_1_r in *. rewrite rows_written_snoc by lia.
  rewrite ld8_st_bytes_out; [|unfold in_space; nia|done|apply Hout; lia].
  apply IH; [nia|]. intros j Hj. apply Hout. lia.
Qed.

Lemma rows_written_in m dst stride row h j b :
  0 <= j < h → 0 <= dst → 0 <= stride → dst + h * stride <= 4294967296 →
  Z.of_nat (length row) <= stride → dst + j * stride <= b < dst + j * stride + Z.of_nat (length row) →
  ld8 (rows_written m dst stride row h) b = u8 (nth (Z.to_nat (b - (dst + j * stride))) row 0).
Proof.
  intros Hj Hd Hs Hend Hrow Hb. rewrite <- (Z2Nat.id h) in * by lia. revert Hj Hend. generalize (Z.to_nat h) as k.
  intros k Hj Hend. induction k as [|k IH]; [lia|].
  rewrite Nat2Z.inj_succ, <- Z.add_1_r in *. rewrite rows_written_snoc by lia.
  destruct (decide (j = Z.of_nat k)) as [->|Hne].
  - replace b with (dst + Z.of_nat k * stride + Z.of_nat (Z.to_nat (b - (dst + Z.of_nat k * stride)))) at 1 by lia.
    apply ld8_st_bytes_in; [unfold in_space; nia|]. rewrite nth_lookup.
    destruct (lookup_lt_is_Some_2 row (Z.to_nat (b - (dst + Z.of_nat k * stride)))) as [x Hx]; [lia|].
    by rewrite Hx.
  - rewrite ld8_st_bytes_out; [|unfold in_space; nia|nia|unfold outside; nia]. apply IH; nia.
Qed.

Lemma nth_row_of px w x k :
  0 <= x < w → (k < length px)%nat →
  nth (Z.to_nat (Z.of_nat (length px) * x) + k) (row_of px w) 0 = nth k px 0.
Proof.
  intros Hx Hk. unfold row_of. rewrite !nth_lookup. f_equal.
  replace (Z.to_nat w) with (Z.to_nat x + S (Z.to_nat (w - x - 1)))%nat by lia.
  rewrite replicate_add, concat_app. simpl.
  assert (Hl : length (concat (replicate (Z.to_nat x) px)) = Z.to_nat (Z.of_nat (length px) * x)).
  { pose proof (length_row_of px x ltac:(lia)) as H. unfold row_of in H. lia. }
  rewrite lookup_app_r by lia. rewrite Hl, lookup_app_l by lia. f_equal. lia.
Qed.

(** A pixel at [n] bytes: what [bl_fb_fill_rectangle_ptr] stores. *)
Definition pixel_bytes (n : nat) (color : Z) : list Z := le_split n color.

Lemma u8_land_255 x : u8 (Z.land x 255) = u8 x.
Proof. change 255 with (Z.ones 8). rewrite Z.land_ones by lia. unfold u8. change (2 ^ 8) with 256. apply Z.mod_mod. lia. Qed.

Lemma stores16 color : stores (λ p, wr16 p (Z.land color 0xffff)) (pixel_bytes 2 color).
Proof.
  intros p s Hp. unfold wr16, modify, with_mem. do 3 f_equal. unfold st, pixel_bytes. f_equal.
  cbn [le_split]. change 0xffff with (Z.ones 16). rewrite Z.land_ones by lia. change (2 ^ 16) with 65536.
  f_equal; [|f_equal]; word_lia.
Qed.

Lemma stores32 color : stores (λ p, wr32 p color) (pixel_bytes 4 color).
Proof. done. Qed.

Lemma stores24 color :
  stores (λ p, wr8 p (Z.land color 0xff);; wr8 (u32 (p + 1)) (Z.land (Z.shiftr color 8) 0xff);;
               wr8 (u32 (p + 2)) (Z.land (Z.shiftr color 16) 0xff)) (pixel_bytes 3 color).
Proof.
  intros p s Hp. change (Z.of_nat (length (pixel_bytes 3 color))) with 3 in Hp. unfold in_space in Hp.
  rewrite !u32_small by lia.
  trans (Some ((), set_mem (st8 (st8 (st8 (mem s) p (Z.land color 0xff)) (p + 1) (Z.land (Z.shiftr color 8) 0xff))
                              (p + 2) (Z.land (Z.shiftr color 16) 0xff)) s)); [done|].
  unfold pixel_bytes. cbn [le_split st_bytes]. unfold st8. rewrite !u8_land_255, !u8_idemp.
  rewrite !Z.shiftr_div_pow2, <- Z.add_assoc by lia. change (2 ^ 16) with (256 * 256).
  by rewrite <- Zdiv_Zdiv by lia.
Qed.

Lemma nth_pixel_bytes n color k :
  (k < n)%nat → u8 (nth k (pixel_bytes n color) 0) = u8 (color / 256 ^ Z.of_nat k).
Proof.
  unfold pixel_bytes. revert color k. induction n as [|n IH]; intros color k Hk; [lia|]. cbn [le_split].
  destruct k as [|k]; simpl; [by rewrite u8_idemp, Z.div_1_r|].
  rewrite IH by lia. rewrite Zdiv_Zdiv by lia. do 2 f_equal.
  rewrite <- Z.pow_succ_r by lia. f_equal. lia.
Qed.

(** Where a rectangle of the screen is in memory, without running over. *)
Definition rectangle_ok (i : bl_video_info) (ptr x y w h : Z) : Prop :=
  ptr ≠ 0 ∧ 0 <= ptr ∧ 0 <= x ∧ 0 <= y ∧ 0 <= w < 4294967296 ∧ 0 <= h < 4294967296 ∧
  (x + w) * bytes_per_pixel i <= pitch i ∧ ptr + (y + h + 1) * pitch i < 4294967296.

Definition pixel_at (i : bl_video_info) (ptr x y : Z) : Z := ptr + y * pitch i + x * bytes_per_pixel i.

Lemma fill_rectangle_rows i ptr color x y w h s n :
  bytes_per_pixel i = Z.of_nat n → (n = 2 ∨ n = 3 ∨ n = 4)%nat → rectangle_ok i ptr x y w h →
  bl_fb_fill_rectangle_ptr i ptr color x y w h s =
  Some ((), set_mem (rows_written (mem s) (pixel_at i ptr x y) (pitch i) (row_of (pixel_bytes n color) w) h) s).
Proof.
  intros Hn Hcase (Hp & Hp0 & Hx & Hy & Hw & Hh & Hpitch & Hend).
  unfold bl_fb_fill_rectangle_ptr, is_null. destruct (Z.eqb_spec ptr 0); [done|].
  assert (Hpx : pixel_ptr i ptr x y = pixel_at i ptr x y).
  { unfold pixel_ptr. apply u32_small. unfold pixel_at. nia. }
  rewrite Hpx. set (dst := pixel_at i ptr x y) in *. rewrite (u32_small (pitch i - _)) by nia.
  set (skip := pitch i - bytes_per_pixel i * w) in *.
  assert (Hdst : 0 <= dst ∧ dst + h * pitch i < 4294967296) by (unfold dst, pixel_at; nia).
  assert (Hlen : Z.of_nat (length (pixel_bytes n color)) = bytes_per_pixel i).
  { unfold pixel_bytes. rewrite length_le_split. lia. }
  assert (Hrun : ∀ put, stores put (pixel_bytes n color) →
    fill_rows (Z.of_nat n) put dst skip w h s =
    Some ((), set_mem (rows_written (mem s) dst (pitch i) (row_of (pixel_bytes n color) w) h) s)).
  { intros put Hput. pose proof (fill_rows_run put (pixel_bytes n color) dst skip w h s Hput) as H.
    rewrite Hlen, Hn in H. unfold skip in *. rewrite Hn in *.
    replace (Z.of_nat n * w + (pitch i - Z.of_nat n * w)) with (pitch i) in H by lia.
    apply H; nia. }
  destruct Hcase as [->|[->| ->]]; rewrite Hn; cbn -[fill_rows].
  - apply Hrun, stores16.
  - apply Hrun, stores24.
  - apply Hrun, stores32.
Qed.

(** ** An empty row of a glyph at 32 bits per pixel *)
Lemma merge_background fg bg : 0 <= bg < 2 ^ 64 → merge fg bg 0 = bg.
Proof.
  intros Hb. unfold merge. rewrite Z.land_0_r, Z.lor_0_l. change (not64 0) with (Z.ones 64).
  rewrite Z.land_ones by lia. by apply Z.mod_small.
Qed.

Lemma high_low p0 p1 :
  0 <= p0 < 4294967296 → 0 <= p1 < 4294967296 →
  Z.lor (u64 (Z.shiftl p0 32)) p1 = p1 + 4294967296 * p0.
Proof.
  intros H0 H1. rewrite u64_small by (rewrite Z.shiftl_mul_pow2; lia). rewrite lor_shiftl_add by lia. lia.
Qed.

(** The two pixels of a 64-bit store, low half first. *)
Lemma ld_pair m a p0 p1 :
  in_space a 8 → 0 <= p0 < 4294967296 → 0 <= p1 < 4294967296 →
  ld 4 (st 8 m a (p1 + 4294967296 * p0)) a = p1 ∧ ld 4 (st 8 m a (p1 + 4294967296 * p0)) (a + 4) = p0.
Proof.
  intros Ha H0 H1.
  assert (E : ld_bytes (st 8 m a (p1 + 4294967296 * p0)) a 8 = le_split 8 (p1 + 4294967296 * p0)).
  { apply (ld_bytes_st_bytes_in m a (le_split 8 _)); [by rewrite length_le_split|apply bytes_le_split]. }
  change 8%nat with (4 + 4)%nat in E at 2. rewrite ld_bytes_app in E. change (Z.of_nat 4) with 4 in E.
  assert (Es : le_split 8 (p1 + 4294967296 * p0) = le_split 4 p1 ++ le_split 4 p0).
  { cbn [le_split app]. repeat (f_equal; [word_lia|]). f_equal; word_lia. }
  rewrite Es in E. apply app_inj_1 in E as [E1 E2]; [|by rewrite length_ld_bytes, length_le_split].
  unfold ld. rewrite E1, E2, !le_combine_split. split; by apply Z.mod_small.
Qed.

Lemma pixel32 i src k s :
  bits_per_pixel i = 32 → bytes_per_pixel i = 4 →
  bl_fb_get_pixel_ptr i src k 0 s = Some (ld 4 (mem s) (u32 (src + 4 * k)), s).
Proof.
  intros Hb Hn. unfold bl_fb_get_pixel_ptr, pixel_ptr. rewrite Hb, Hn. simpl.
  unfold rd32, gets. do 4 f_equal. lia.
Qed.

Section BlankRow.
Context (i : bl_video_info) (s : machine) (src dst : Z).
Context (Hbits : bits_per_pixel i = 32) (Hbytes : bytes_per_pixel i = 4).
Context (Hsrc : in_space src 32) (Hdst : in_space dst 32) (Hapart : disjoint src 32 dst 32).

(** Pixel [k] of the background row. *)
Definition background_pixel (k : Z) : Z := ld 4 (mem s) (src + 4 * k).

(** Memory after some pairs: the background is still there. *)
Definition same_background (m : gmap Z Z) : Prop :=
  ∀ k, 0 <= k < 8 → ld 4 m (src + 4 * k) = background_pixel k.

Definition pair_value (k : Z) : Z := background_pixel (k + 1) + 4294967296 * background_pixel k.

Lemma same_background_st m k :
  0 <= k <= 6 → same_background m → same_background (st 8 m (dst + 4 * k) (pair_value k)).
Proof using Hsrc Hdst Hapart.
  clear Hbits Hbytes. intros Hk Hm j Hj. rewrite ld_st_other; [by apply Hm|..];
    unfold in_space, disjoint in *; simpl Z.of_nat; lia.
Qed.

Lemma pair_run fg k m :
  0 <= k <= 6 → same_background m →
  (p0 ← bl_fb_get_pixel_ptr i src k 0; p1 ← bl_fb_get_pixel_ptr i src (k + 1) 0;
   wr64 (dst + 4 * k) (merge fg (Z.lor (u64 (Z.shiftl p0 32)) p1) (lookup4 0))) (set_mem m s) =
  Some ((), set_mem (st 8 m (dst + 4 * k) (pair_value k)) s).
Proof using Hsrc Hbits Hbytes.
  clear Hapart Hdst. intros Hk Hm. unfold in_space in Hsrc.
  rewrite (bind_run _ _ _ _ _ (pixel32 i src k _ Hbits Hbytes)).
  rewrite (bind_run _ _ _ _ _ (pixel32 i src (k + 1) _ Hbits Hbytes)).
  rewrite mem_set_mem, !u32_small, !Hm by lia. change (lookup4 0) with 0.
  pose proof (ld4_range (mem s) (src + 4 * k)). pose proof (ld4_range (mem s) (src + 4 * (k + 1))).
  rewrite high_low, merge_background by (unfold background_pixel; lia). done.
Qed.

Definition blank_row_memory : gmap Z Z :=
  st 8 (st 8 (st 8 (st 8 (mem s) (dst + 4 * 0) (pair_value 0)) (dst + 4 * 2) (pair_value 2))
    (dst + 4 * 4) (pair_value 4)) (dst + 4 * 6) (pair_value 6).

Lemma blank_row_run white : blit_row4 i white 0 src dst s = Some ((), set_mem blank_row_memory s).
Proof using Hsrc Hdst Hapart Hbits Hbytes.
  assert (H0 : same_background (mem s)) by done.
  pose proof (same_background_st _ 0 ltac:(lia) H0) as H2.
  pose proof (same_background_st _ 2 ltac:(lia) H2) as H4.
  pose proof (same_background_st _ 4 ltac:(lia) H4) as H6.
  set (fg := Z.lor (u64 (Z.shiftl white 32)) white).
  rewrite <- (set_mem_id s) at 1. unfold blit_row4. fold fg. cbv zeta.
  rewrite (bind_run _ _ _ _ _ (pair_run fg 0 _ ltac:(lia) H0)).
  rewrite (bind_run _ _ _ _ _ (pair_run fg 2 _ ltac:(lia) H2)).
  rewrite (bind_run _ _ _ _ _ (pair_run fg 4 _ ltac:(lia) H4)).
  exact (pair_run fg 6 _ ltac:(lia) H6).
Qed.

Lemma blank_row_pixel k :
  0 <= k < 8 → ld 4 blank_row_memory (dst + 4 * k) = background_pixel (Z.lxor k 1).
Proof using Hdst.
  clear Hbits Hbytes Hsrc Hapart. intros Hk. unfold blank_row_memory. unfold in_space in Hdst.
  assert (Hr : ∀ j, 0 <= background_pixel j < 4294967296) by (intros; apply ld4_range).
  assert (Hpair : ∀ m j, 0 <= j <= 6 →
    ld 4 (st 8 m (dst + 4 * j) (pair_value j)) (dst + 4 * j) = background_pixel (j + 1) ∧
    ld 4 (st 8 m (dst + 4 * j) (pair_value j)) (dst + 4 * (j + 1)) = background_pixel j).
  { intros m j Hj. replace (dst + 4 * (j + 1)) with (dst + 4 * j + 4) by lia.
    apply ld_pair; [unfold in_space; lia|apply Hr|apply Hr]. }
  assert (Hoth : ∀ m j l v, 0 <= l <= 6 → 0 <= j < 8 → j < l ∨ l + 2 <= j →
    ld 4 (st 8 m (dst + 4 * l) v) (dst + 4 * j) = ld 4 m (dst + 4 * j)).
  { intros. apply ld_st_other; unfold in_space, disjoint; simpl Z.of_nat; lia. }
  assert (k = 0 ∨ k = 1 ∨ k = 2 ∨ k = 3 ∨ k = 4 ∨ k = 5 ∨ k = 6 ∨ k = 7) as Hc by lia.
  destruct Hc as [->|[->|[->|[->|[->|[->|[->| ->]]]]]]];
    rewrite ?Hoth by lia;
    [apply (Hpair _ 0)|apply (Hpair _ 0)|apply (Hpair _ 2)|apply (Hpair _ 2)|apply (Hpair _ 4)
    |apply (Hpair _ 4)|apply (Hpair _ 6)|apply (Hpair _ 6)]; lia.
Qed.
End BlankRow.

(** ** Properties *)

(** The segment [0 .. n) of positions from [d], as a set. *)
Definition covers (a : area) (x y : Z) : Prop :=
  d_x a <= x < d_x a + d_w a ∧ d_y a <= y < d_y a + d_h a.

Definition area_ok (a : area) : Prop := segment (d_x a) (d_w a) ∧ segment (d_y a) (d_h a).

(** [bl_fb_update_dirty_area] makes the dirty area the smallest rectangle
    that covers the old area and the new rectangle; after
    [bl_fb_reset_dirty_area] it is the new rectangle itself. *)
Theorem dirty_area_is_bounding_box fb x y w h :
  segment x w → segment y h → area_ok (dirty_area fb) →
  0 < w → 0 < h → 0 < d_w (dirty_area fb) → 0 < d_h (dirty_area fb) →
  let a := dirty_area (bl_fb_update_dirty_area x y w h fb) in
  area_ok a ∧
  (∀ px py, covers (dirty_area fb) px py ∨ covers (Area x y w h) px py → covers a px py) ∧
  (∀ b, (∀ px py, covers (dirty_area fb) px py ∨ covers (Area x y w h) px py → covers b px py) →
        ∀ px py, covers a px py → covers b px py) ∧
  dirty_area (bl_fb_update_dirty_area x y w h (bl_fb_reset_dirty_area fb)) = Area x y w h.
Proof.
  destruct (dirty_area fb) as [dx dy dw dh] eqn:E. intros Hx Hy [Hdx Hdy] Hw Hh Hdw Hdh a.
  simpl in *. destruct (dirty_axis dx dw x w Hdx Hx) as [Px Ex].
  destruct (dirty_axis dy dh y h Hdy Hy) as [Py Ey].
  assert (Ha : a = Area (Z.min dx x) (Z.min dy y) (Z.max (dx + dw) (x + w) - Z.min dx x)
                 (Z.max (dy + dh) (y + h) - Z.min dy y)).
  { unfold a, bl_fb_update_dirty_area. rewrite E. simpl. by rewrite Px, Ex, Py, Ey. }
  rewrite Ha. unfold area_ok, segment, covers in *. simpl. split; [lia|]. split; [intros px py; lia|]. split.
  - intros b Hb px py Hp.
    pose proof (Hb dx dy ltac:(lia)). pose proof (Hb (dx + dw - 1) (dy + dh - 1) ltac:(lia)).
    pose proof (Hb x y ltac:(lia)). pose proof (Hb (x + w - 1) (y + h - 1) ltac:(lia)). lia.
  - unfold bl_fb_update_dirty_area. simpl.
    destruct (dirty_axis_empty x w) as [-> ->]. by destruct (dirty_axis_empty y h) as [-> ->].
Qed.

Definition example_info : bl_video_info :=
  VideoInfo 8 4 32 0xfd000000 1024 32 4 (ColorMask 16 8) (ColorMask 8 8) (ColorMask 0 8) (ColorMask 24 8).
Definition example_fb : bl_fb_t := Fb example_info 0 (Area 10 20 8 16) 0x200000.

Lemma dirty_area_is_bounding_box_witness :
  let a := dirty_area (bl_fb_update_dirty_area 4 30 8 16 example_fb) in
  area_ok a ∧
  (∀ px py, covers (dirty_area example_fb) px py ∨ covers (Area 4 30 8 16) px py → covers a px py) ∧
  (∀ b, (∀ px py, covers (dirty_area example_fb) px py ∨ covers (Area 4 30 8 16) px py → covers b px py) →
        ∀ px py, covers a px py → covers b px py) ∧
  dirty_area (bl_fb_update_dirty_area 4 30 8 16 (bl_fb_reset_dirty_area example_fb)) = Area 4 30 8 16.
Proof. apply (dirty_area_is_bounding_box example_fb 4 30 8 16); by vm_compute. Defined.

(** for a mode whose channels do not overlap, a color built by
    [bl_fb_prepare_color] gives back the low bits of each component that the
    mode's masks keep. *)
Theorem color_roundtrip i r g b x :
  channels_ok i →
  let color := bl_fb_prepare_color i r g b x in
  bl_fb_get_red i color = u8 r mod 2 ^ mask_size (red i) ∧
  bl_fb_get_green i color = u8 g mod 2 ^ mask_size (green i) ∧
  bl_fb_get_blue i color = u8 b mod 2 ^ mask_size (blue i) ∧
  bl_fb_get_reserved i color = u8 x mod 2 ^ mask_size (reserved i) ∧
  0 <= color < 4294967296.
Proof.
  intros Hi color. split_and!; [apply get_prepared; tauto..|apply u32_range|apply u32_range].
Qed.

Lemma example_channels_ok : channels_ok example_info.
Proof. unfold channels_ok, channel_ok, apart. simpl. lia. Qed.

Lemma color_roundtrip_witness :
  let color := bl_fb_prepare_color example_info 0x12 0x34 0x56 0x178 in
  bl_fb_get_red example_info color = u8 0x12 mod 2 ^ mask_size (red example_info) ∧
  bl_fb_get_green example_info color = u8 0x34 mod 2 ^ mask_size (green example_info) ∧
  bl_fb_get_blue example_info color = u8 0x56 mod 2 ^ mask_size (blue example_info) ∧
  bl_fb_get_reserved example_info color = u8 0x178 mod 2 ^ mask_size (reserved example_info) ∧
  0 <= color < 4294967296.
Proof. apply (color_roundtrip example_info 0x12 0x34 0x56 0x178 example_channels_ok). Defined.

(** C37: at a mode with 8-bit channels, [bl_alpha_blend_color] keeps each visible
    component between those of the two colors, at most one below the smaller;
    it asks to ignore the result only at alpha 0 and is exact at alpha 255. *)
Theorem alpha_blend_between i color1 color2 alpha c :
  channels_ok i → mask_size c = 8 → c = red i ∨ c = green i ∨ c = blue i → 0 <= alpha < 256 →
  let (color, ignore) := bl_alpha_blend_color i color1 color2 alpha in
  (ignore = true ↔ alpha = 0) ∧ (alpha = 255 → color = color1) ∧
  (ignore = false →
   Z.min (get_channel c color1) (get_channel c color2) - 1 <= get_channel c color <=
   Z.max (get_channel c color1) (get_channel c color2)).
Proof.
  intros Hi Hc Hcase Ha. assert (Hr : ∀ w, 0 <= get_channel c w < 256) by (intros; apply u8_range).
  unfold bl_alpha_blend_color. destruct (Z.eqb_spec alpha 0) as [->|H0]; [done|].
  destruct (Z.eqb_spec alpha 0xff) as [->|H1].
  { split; [done|]. split; [done|]. pose proof (Hr color1). pose proof (Hr color2). lia. }
  split; [split; [done|lia]|]. split; [lia|]. intros _.
  pose proof (blend_channel_between _ _ alpha Ha (Hr color1) (Hr color2)) as Hb.
  rewrite (get_prepared i _ _ _ _ c (blend_channel (get_channel c color1) (get_channel c color2) alpha));
    [|done|destruct Hcase as [->|[->| ->]]; tauto].
  rewrite Hc. change (2 ^ 8) with 256. rewrite Z.mod_small by apply u8_range.
  assert (0 <= blend_channel (get_channel c color1) (get_channel c color2) alpha).
  { pose proof (Hr color1). pose proof (Hr color2). rewrite blend_channel_value by done.
    apply Z.div_pos; nia. }
  pose proof (Hr color1). pose proof (Hr color2). rewrite u8_small by lia. exact Hb.
Qed.

Lemma alpha_blend_between_witness :
  let (color, ignore) := bl_alpha_blend_color example_info 0x112233 0x445566 100 in
  (ignore = true ↔ 100 = 0) ∧ (100 = 255 → color = 0x112233) ∧
  (ignore = false →
   Z.min (get_channel (green example_info) 0x112233) (get_channel (green example_info) 0x445566) - 1 <=
   get_channel (green example_info) color <=
   Z.max (get_channel (green example_info) 0x112233) (get_channel (green example_info) 0x445566)).
Proof.
  apply (alpha_blend_between example_info 0x112233 0x445566 100 (green example_info) example_channels_ok);
    [done|right; by left|lia].
Defined.

(** C34: [bl_fb_fill_rectangle] on a target that holds the rectangle stores the
    color's bytes, low byte first, at every pixel of the rectangle, leaves every
    other byte of memory as it was, and records the rectangle as dirty. *)
Theorem fill_rectangle_fills fb color x y w h s n :
  let i := info fb in let ptr := bl_fb_get_target_ptr fb in
  bytes_per_pixel i = Z.of_nat n → (n = 2 ∨ n = 3 ∨ n = 4)%nat → rectangle_ok i ptr x y w h →
  ∃ m', bl_fb_fill_rectangle fb color x y w h s =
          Some (bl_fb_update_dirty_area x y w h fb, set_mem m' s) ∧
    (∀ px py k, x <= px < x + w → y <= py < y + h → (k < n)%nat →
       ld8 m' (pixel_at i ptr px py + Z.of_nat k) = u8 (color / 256 ^ Z.of_nat k)) ∧
    (∀ b, 0 <= b < 4294967296 →
       (∀ py, y <= py < y + h → outside (pixel_at i ptr x py) (w * bytes_per_pixel i) b) →
       ld8 m' b = ld8 (mem s) b).
Proof.
  intros i ptr Hn Hcase Hok. pose proof Hok as (Hp & Hp0 & Hx & Hy & Hw & Hh & Hpitch & Hend).
  set (dst := pixel_at i ptr x y). set (row := row_of (pixel_bytes n color) w).
  assert (Hlen : length (pixel_bytes n color) = n) by apply length_le_split.
  assert (Hrow : Z.of_nat (length row) = Z.of_nat n * w) by (unfold row; rewrite length_row_of, Hlen by lia; done).
  assert (Hdst : 0 <= dst ∧ dst + h * pitch i <= 4294967296) by (unfold dst, pixel_at; nia).
  assert (Hat : ∀ py, pixel_at i ptr x py = dst + (py - y) * pitch i) by (intros; unfold dst, pixel_at; ring).
  exists (rows_written (mem s) dst (pitch i) row h). split; [|split].
  - unfold bl_fb_fill_rectangle. fold ptr. unfold is_null. destruct (Z.eqb_spec ptr 0); [done|].
    change (info (bl_fb_update_dirty_area x y w h fb)) with i. cbv zeta.
    by rewrite (bind_run _ _ _ _ _ (fill_rectangle_rows i ptr color x y w h s n Hn Hcase Hok)).
  - intros px py k Hpx Hpy Hk.
    assert (Hpix : pixel_at i ptr px py = dst + (py - y) * pitch i + Z.of_nat n * (px - x)).
    { unfold dst, pixel_at. rewrite Hn. ring. }
    rewrite (rows_written_in _ _ _ _ _ (py - y)); [|nia|lia|nia|lia|lia|rewrite Hpix, Hrow; nia].
    replace (Z.to_nat _) with (Z.to_nat (Z.of_nat (length (pixel_bytes n color)) * (px - x)) + k)%nat
      by (rewrite Hlen, Hpix; nia).
    unfold row. rewrite nth_row_of by (rewrite ?Hlen; lia). by apply nth_pixel_bytes.
  - intros b Hb Hout. apply rows_written_out; try (done || lia || nia).
    intros j Hj. specialize (Hout (y + j) ltac:(lia)). rewrite Hat in Hout.
    replace (y + j - y) with j in Hout by lia. rewrite Hrow. by replace (Z.of_nat n * w) with (w * bytes_per_pixel i) by lia.
Qed.

Lemma fill_rectangle_fills_witness :
  let i := info example_fb in let ptr := bl_fb_get_target_ptr example_fb in
  ∃ m', bl_fb_fill_rectangle example_fb 0xc0ffee 2 1 3 2 machine0 =
          Some (bl_fb_update_dirty_area 2 1 3 2 example_fb, set_mem m' machine0) ∧
    (∀ px py k, 2 <= px < 2 + 3 → 1 <= py < 1 + 2 → (k < 4)%nat →
       ld8 m' (pixel_at i ptr px py + Z.of_nat k) = u8 (0xc0ffee / 256 ^ Z.of_nat k)) ∧
    (∀ b, 0 <= b < 4294967296 →
       (∀ py, 1 <= py < 1 + 2 → outside (pixel_at i ptr 2 py) (3 * bytes_per_pixel i) b) →
       ld8 m' b = ld8 (mem machine0) b).
Proof.
  apply (fill_rectangle_fills example_fb 0xc0ffee 2 1 3 2 machine0 4); [done|by right; right|].
  unfold rectangle_ok. vm_compute. repeat split; discriminate.
Defined.

(** at 32 bits per pixel an empty row of a glyph does not leave the
    background as it is: [blit_row4] copies it with the two pixels of every
    pair exchanged, because the first pixel goes to the high half of the store. *)
Theorem blank_glyph_row_swaps_pixels i white src dst s :
  bits_per_pixel i = 32 → bytes_per_pixel i = 4 →
  in_space src 32 → in_space dst 32 → disjoint src 32 dst 32 →
  ∃ m', blit_row4 i white 0 src dst s = Some ((), set_mem m' s) ∧
    ∀ k, 0 <= k < 8 → ld 4 m' (dst + 4 * k) = ld 4 (mem s) (src + 4 * Z.lxor k 1).
Proof.
  intros Hbits Hbytes Hsrc Hdst Hap. exists (blank_row_memory s src dst).
  split; [by apply blank_row_run|]. intros k Hk. by rewrite blank_row_pixel.
Qed.

Lemma blank_glyph_row_swaps_pixels_witness :
  ∃ m', blit_row4 example_info 0xffffffff 0 0x300000 0x200000 machine0 = Some ((), set_mem m' machine0) ∧
    ∀ k, 0 <= k < 8 → ld 4 m' (0x200000 + 4 * k) = ld 4 (mem machine0) (0x300000 + 4 * Z.lxor k 1).
Proof.
  apply (blank_glyph_row_swaps_pixels example_info 0xffffffff 0x300000 0x200000 machine0);
    [done|done|by vm_compute|by vm_compute|right; by vm_compute].
Defined.
