(* ===== verification/Ports.v ===== *)
(** * Devices behind I/O ports: include/io.h

    What the hardware answers is not code of the program: a device is a state
    with read and write functions for its ports, a parameter of the drivers.
    Drivers run in [D Dev], over the machine and the device. *)
From S2P Require Import Prelude Memory.

Record ports (Dev : Type) := Ports {
  in8 : Z → Dev → Z * Dev;
  in16 : Z → Dev → Z * Dev;
  in32 : Z → Dev → Z * Dev;
  out8 : Z → Z → Dev → Dev;     (* value, port *)
  out16 : Z → Z → Dev → Dev;
  out32 : Z → Z → Dev → Dev;
}.
Arguments in8 {Dev}. Arguments in16 {Dev}. Arguments in32 {Dev}.
Arguments out8 {Dev}. Arguments out16 {Dev}. Arguments out32 {Dev}.

Definition D (Dev A : Type) : Type := ST (machine * Dev) A.

Section Ports.
Context {Dev : Type} (io : ports Dev).

(** A command of the machine, which leaves the device alone. *)
Definition on_machine {A} (c : M A) : D Dev A := λ s,
  match c s.1 with Some (x, m) => Some (x, (m, s.2)) | None => None end.

Definition input (f : Dev → Z * Dev) : D Dev Z := λ s,
  let '(v, d) := f s.2 in Some (v, (s.1, d)).
Definition output (f : Dev → Dev) : D Dev () := λ s, Some ((), (s.1, f s.2)).

Definition bl_inb (port : Z) : D Dev Z := v ← input (in8 io port); mret (u8 v).
Definition bl_inw (port : Z) : D Dev Z := v ← input (in16 io port); mret (u16 v).
Definition bl_inl (port : Z) : D Dev Z := v ← input (in32 io port); mret (u32 v).
Definition bl_outb (v port : Z) : D Dev () := output (out8 io (u8 v) port).
Definition bl_outw (v port : Z) : D Dev () := output (out16 io (u16 v) port).
Definition bl_outl (v port : Z) : D Dev () := output (out32 io (u32 v) port).

(** [while (cond) ;] on a port. *)
Definition poll (port : Z) (busy : Z → bool) : D Dev () :=
  mwhile (λ _, v ← bl_inb port; if busy v then continue () else break ()) ().
End Ports.

(** A driver's function as a part of the program calls it that runs on the
    machine alone, with the device in the state [d] at the call. *)
Definition embed {Dev A} (d : Dev) (c : D Dev A) : M A := λ m,
  match c (m, d) with Some (x, (m', _)) => Some (x, m') | None => None end.

Lemma embed_run {Dev A} (d d' : Dev) (c : D Dev A) x m m' :
  c (m, d) = Some (x, (m', d')) → embed d c m = Some (x, m').
Proof. unfold embed. by intros ->. Qed.

(** ** Proof rules for [D]: the machine and the device apart *)
Section Rules.
Context {Dev : Type} (io : ports Dev).

Lemma wp_on_machine {A} (c : M A) (Q : A → machine * Dev → Prop) m d :
  wp c (λ x m', Q x (m', d)) m → wp (on_machine c) Q (m, d).
Proof. unfold wp, on_machine. cbn [fst snd]. by destruct (c m) as [[??]|]. Qed.

Lemma on_machine_run {A} (c : M A) x m m' (d : Dev) :
  c m = Some (x, m') → on_machine c (m, d) = Some (x, (m', d)).
Proof. unfold on_machine. cbn [fst snd]. by intros ->. Qed.

Lemma bl_inb_run port m d v d' :
  in8 io port d = (v, d') → bl_inb io port (m, d) = Some (u8 v, (m, d')).
Proof. unfold bl_inb, input, mbind, ST_bind. cbn [fst snd]. by intros ->. Qed.

Lemma bl_inw_run port m d v d' :
  in16 io port d = (v, d') → bl_inw io port (m, d) = Some (u16 v, (m, d')).
Proof. unfold bl_inw, input, mbind, ST_bind. cbn [fst snd]. by intros ->. Qed.

Lemma bl_outb_run v port m d :
  bl_outb io v port (m, d) = Some ((), (m, out8 io (u8 v) port d)).
Proof. done. Qed.
End Rules.

(** A machine command that evaluates to its result, at the front of a run. *)
Ltac run_on_machine :=
  lazymatch goal with
  | |- context [@mbind ?mm ?inst ?A ?B ?k (on_machine ?c) (?m, ?d)] =>
      let r := eval cbv [rd8 rd16 rd32 rd64 wr8 wr16 wr32 wr64 gets modify with_mem] in (c m) in
      lazymatch r with
      | Some (?x, ?m') => change (@mbind mm inst A B k (on_machine c) (m, d)) with (k x (m', d)); cbv beta
      end
  end.
