(* ===== verification/Video.v ===== *)
(** * Video drivers: core/video/video.c, [bl_fb_init] of core/video/fb.c

    A driver is a record of functions that talk to the BIOS or to the firmware,
    so they run over the device; [gop.c] and [vbe.c] provide them. *)
From S2P Require Import Prelude Memory Arith Status Strings Heap Fb Ports.

Inductive bl_video_t : Set := BL_VIDEO_TYPE_INVALID | BL_VIDEO_TYPE_VBE_GRAPHICS | BL_VIDEO_TYPE_GOP_GRAPHICS.
#[export] Instance bl_video_t_eq_dec : EqDecision bl_video_t.
Proof. solve_decision. Defined.

Record bl_video_driver (Dev : Type) := VideoDriver {
  v_type : bl_video_t;
  v_init : D Dev bl_status_t;
  v_uninit : D Dev ();
  v_set_video : D Dev bl_status_t;
  v_get_info : bl_video_info → D Dev (bl_status_t * bl_video_info);
}.
Arguments v_type {Dev}. Arguments v_init {Dev}. Arguments v_uninit {Dev}.
Arguments v_set_video {Dev}. Arguments v_get_info {Dev}.

Definition BL_VIDEO_DEFAULT_WIDTH : Z := 1024.
Definition BL_VIDEO_DEFAULT_HEIGHT : Z := 768.
Definition BL_VIDEO_DEFAULT_RED_MASK_SIZE : Z := 5.
Definition BL_VIDEO_DEFAULT_GREEN_MASK_SIZE : Z := 6.
Definition BL_VIDEO_DEFAULT_BLUE_MASK_SIZE : Z := 5.
Definition BL_VIDEO_DEFAULT_RESERVED_MASK_SIZE : Z := 0.

Section Video.
Context {Dev : Type}.

(** [set_write_combine] stands for [bl_mtrr_set_write_combine_cache] (Mtrr.v),
    which works on model-specific registers and not on memory. *)
Definition bl_fb_init (set_write_combine : Z → Z → D Dev ()) (video : option (bl_video_driver Dev))
    (fb : bl_fb_t) : D Dev (bl_status_t * bl_fb_t) :=
  match video with
  | None => mret (BL_STATUS_INVALID_PARAMETERS, fb)
  | Some video =>
      '(status, i) ← v_get_info video (info fb);
      let fb := Fb i (renderer fb) (dirty_area fb) (double_buffer fb) in
      if failed status then mret (status, fb)
      else
        set_write_combine (frame_buffer i) (video_memory_size i);;
        let fb := bl_fb_reset_dirty_area (with_renderer NULL fb) in
        p ← on_machine (bl_heap_alloc (u32 (u32 (width i * height i) * bytes_per_pixel i)));
        let fb := Fb i (renderer fb) (dirty_area fb) p in
        if is_null p then mret (BL_STATUS_MEMORY_ALLOCATION_FAILED, fb)
        else mret (BL_STATUS_SUCCESS, fb)
  end.

(** [supported] is the type of the firmware the loader is built for. *)
Definition bl_video_type_supported (supported t : bl_video_t) : bl_status_t :=
  if decide (t = supported) then BL_STATUS_SUCCESS else BL_STATUS_UNSUPPORTED.

Definition bl_video_driver_register (driver : bl_video_driver Dev) (l : list (bl_video_driver Dev)) :=
  driver :: l.

(** The first driver of the list that is supported, initialises and sets a mode. *)
Fixpoint select_driver (supported : bl_video_t) (l : list (bl_video_driver Dev)) :
    D Dev (option (bl_video_driver Dev)) :=
  match l with
  | [] => mret None
  | driver :: next =>
      if failed (bl_video_type_supported supported (v_type driver)) then select_driver supported next
      else
        status ← v_init driver;
        if failed status then select_driver supported next
        else
          status ← v_set_video driver;
          if failed status then v_uninit driver;; select_driver supported next
          else mret (Some driver)
  end.

(** [video] is the driver of an earlier probe, which a probe that finds none
    keeps. *)
Definition bl_video_driver_probe (supported : bl_video_t) (set_write_combine : Z → Z → D Dev ())
    (l : list (bl_video_driver Dev)) (video : option (bl_video_driver Dev)) (fb : bl_fb_t) :
    D Dev (bl_status_t * option (bl_video_driver Dev) * bl_fb_t) :=
  o ← select_driver supported l;
  let video := match o with Some d => Some d | None => video end in
  match video with
  | None => mret (BL_STATUS_GRAPHICS_NO_PROTOCOLS, video, fb)
  | Some _ =>
      '(status, fb) ← bl_fb_init set_write_combine video fb;
      mret (status, video, fb)
  end.
End Video.
