(* ===== verification/Bios.v ===== *)
(** * The real mode layer: arch/i386/real-mode (bios.c, bios-interrupt.S, cpu.c,
    a20.c, sys-main.c)

    The BIOS itself is not in the repository: [bios n r] is what interrupt [n]
    does to the registers [r], to memory and to the hardware.  The flags and
    [cpuid] of the processor are parameters as well. *)
From Stdlib Require Import String.
From S2P Require Import Prelude Memory Arith Status Strings Heap Print Ports.
#[local] Open Scope Z_scope.

(** ** bios.h: [struct bl_bios_registers] in memory and its contents *)
Definition sizeof_bios_registers : Z := 36.
Definition br_edi : Z := 0.
Definition br_di : Z := 0.
Definition br_esi : Z := 4.
Definition br_gs : Z := 8.
Definition br_fs : Z := 10.
Definition br_es : Z := 12.
Definition br_ds : Z := 14.
Definition br_eflags : Z := 16.
Definition br_eax : Z := 20.
Definition br_ax : Z := 20.
Definition br_al : Z := 20.
Definition br_ah : Z := 21.
Definition br_ebx : Z := 24.
Definition br_bx : Z := 24.
Definition br_bl : Z := 24.
Definition br_bh : Z := 25.
Definition br_ecx : Z := 28.
Definition br_cx : Z := 28.
Definition br_edx : Z := 32.
Definition br_dx : Z := 32.

Record bios_registers := BiosRegisters {
  r_edi : Z; r_esi : Z; r_gs : Z; r_fs : Z; r_es : Z; r_ds : Z; r_eflags : Z;
  r_eax : Z; r_ebx : Z; r_ecx : Z; r_edx : Z;
}.

(** Addresses of real mode. *)
Definition BL_BIOS_FAR_PTR_TO_ADDRESS (ptr : Z) : Z :=
  u32 (Z.shiftr (Z.land ptr 0xffff0000) 12 + Z.land ptr 0xffff).
Definition BL_BIOS_PM_TO_RM_SEGMENT (ptr : Z) : Z := Z.shiftr (Z.land ptr 0xffff0000) 4.
Definition BL_BIOS_PM_TO_RM_OFFSET (ptr : Z) : Z := Z.land ptr 0xffff.

Definition BL_X86_EFLAGS_CF : Z := Z.shiftl 1 0.
Definition BL_X86_EFLAGS_AC : Z := Z.shiftl 1 18.
Definition BL_X86_EFLAGS_ID : Z := Z.shiftl 1 21.

(** The thunk tests the pointer it stores to with [andl] before it saves the
    flags: what it saves are the flags of that test (AF is undefined, here as
    the interrupt left it). *)
Definition even_parity (v : Z) : bool :=
  negb (foldr (λ k b, xorb (Z.testbit v k) b) false (seqZ 0 8)).
Definition flags_of_test (v eflags : Z) : Z :=
  let keep := Z.ldiff eflags (Z.lor 0x001 (Z.lor 0x004 (Z.lor 0x040 (Z.lor 0x080 0x800)))) in
  Z.lor keep (Z.lor (if v =? 0 then 0x040 else 0)
               (Z.lor (if Z.testbit v 31 then 0x080 else 0) (if even_parity v then 0x004 else 0))).

(** The loads of the thunk: [ds] is set before the loads behind it, which then go
    through that segment. *)
Definition load_registers (p : Z) : M bios_registers :=
  edi ← rd32 (p + br_edi); esi ← rd32 (p + br_esi);
  gs ← rd16 (p + br_gs); fs ← rd16 (p + br_fs); es ← rd16 (p + br_es); ds ← rd16 (p + br_ds);
  let q := p + 16 * ds in
  eflags ← rd32 (q + br_eflags); eax ← rd32 (q + br_eax); ebx ← rd32 (q + br_ebx);
  ecx ← rd32 (q + br_ecx); edx ← rd32 (q + br_edx);
  mret (BiosRegisters edi esi gs fs es ds eflags eax ebx ecx edx).

Definition store_registers (p : Z) (r : bios_registers) : M () :=
  let q := p + 16 * r_ds r in
  wr32 (q + br_edi) (r_edi r);; wr32 (q + br_esi) (r_esi r);;
  wr16 (q + br_gs) (r_gs r);; wr16 (q + br_fs) (r_fs r);; wr16 (q + br_es) (r_es r);;
  wr16 (q + br_ds) (r_ds r);;
  wr32 (q + br_eax) (r_eax r);; wr32 (q + br_ebx) (r_ebx r);; wr32 (q + br_edx) (r_edx r);;
  wr32 (q + br_ecx) (r_ecx r);;
  wr32 (q + br_eflags) (flags_of_test p (r_eflags r)).

Definition bios (Dev : Type) : Type :=
  Z → bios_registers → gmap Z Z → Dev → bios_registers * (gmap Z Z * Dev).

(** The processor: its flags register and [cpuid] (eax, ebx, ecx, edx). *)
Record cpu (Dev : Type) := Cpu {
  pushfl : Dev → Z;
  popfl : Z → Dev → Dev;
  cpuid : Z → Dev → (Z * Z * Z * Z) * Dev;
}.
Arguments pushfl {Dev}. Arguments popfl {Dev}. Arguments cpuid {Dev}.

Section Bios.
Context {Dev : Type} (io : ports Dev) (int : bios Dev) (processor : cpu Dev).

Definition bl_bios_interrupt (int_num iregs oregs : Z) : D Dev () :=
  if is_null iregs then mret ()
  else
    r ← on_machine (load_registers iregs);
    out ← (λ s, let '(out, (m, d)) := int (u8 int_num) r (mem s.1) s.2 in Some (out, (set_mem m s.1, d)));
    if is_null oregs then mret () else on_machine (store_registers oregs out).

(** ** bios.c *)
Definition bl_bios_init_registers (regs : Z) : M () :=
  bl_memset regs 0 sizeof_bios_registers;;
  eflags ← rd32 (regs + br_eflags);
  wr32 (regs + br_eflags) (Z.lor eflags BL_X86_EFLAGS_CF).

(** [iregs] is the address of the local. *)
Definition bl_bios_set_video_mode (iregs mode : Z) : D Dev () :=
  on_machine (
    bl_bios_init_registers iregs;;
    wr8 (iregs + br_ah) 0;;
    wr8 (iregs + br_al) mode);;
  bl_bios_interrupt 0x10 iregs NULL.

Definition bl_bios_print_char (iregs c : Z) : D Dev () :=
  on_machine (
    bl_bios_init_registers iregs;;
    wr16 (iregs + br_bx) 0x0007;;
    wr16 (iregs + br_cx) 0x0001;;
    wr8 (iregs + br_ah) 0x0e;;
    wr8 (iregs + br_al) c);;
  bl_bios_interrupt 0x10 iregs NULL.

Definition bl_bios_print_str (iregs s : Z) : D Dev () :=
  mwhile (λ i,
    c ← on_machine (rds8 (s + i));
    if truth c then
      (if c =? 10 then bl_bios_print_char iregs 13;; bl_bios_print_char iregs 10
       else bl_bios_print_char iregs c);;
      continue (i + 1)
    else break ()) 0.

(** ** a20.c *)
Definition bl_a20_fast : D Dev () :=
  n ← bl_inb io 0x92;
  let n := u8 (Z.lor n 2) in
  let n := Z.land n 0xfe in
  bl_outb io n 0x92.

Definition bl_a20_enable : D Dev Z := bl_a20_fast;; mret 0.

(** ** cpu.c *)
Definition BL_CPUID_FUNCTION_0x0 : Z := 0x0.
Definition BL_CPUID_FUNCTION_0x1 : Z := 0x1.
Definition BL_CPUID_FUNCTION_0x1_TSC : Z := Z.shiftl 1 4.
Definition BL_CPUID_FUNCTION_0x1_MSR : Z := Z.shiftl 1 5.

(** Can the program change these flags? *)
Definition bl_cpu_eflag (flags : Z) : D Dev bool := λ s,
  let a := pushfl processor s.2 in
  let d := popfl processor (Z.lxor a flags) s.2 in
  let b := pushfl processor d in
  Some (truth (Z.land (Z.lxor a b) flags), (s.1, popfl processor a d)).

Definition bl_cpu_cpuid (function : Z) : D Dev (Z * Z * Z * Z) := λ s,
  let '((eax, ebx, ecx, edx), d) := cpuid processor function s.2 in
  Some ((u32 eax, u32 ebx, u32 ecx, u32 edx), (s.1, d)).

Definition bl_cpu_is_intel (vendor : Z) : M bool :=
  v ← gets (λ s, ld_bytes (mem s) vendor 12);
  mret (bool_decide (v = literal "GenuineIntel"%string)).

(** [vendor] is the address of the local. *)
Definition bl_cpu_valid (vendor : Z) : D Dev bl_status_t :=
  ac ← bl_cpu_eflag BL_X86_EFLAGS_AC;
  id ← (if ac : bool then bl_cpu_eflag BL_X86_EFLAGS_ID else mret false);
  if negb (id : bool) then mret BL_STATUS_UNSUPPORTED
  else
    '(_, ebx, ecx, edx) ← bl_cpu_cpuid BL_CPUID_FUNCTION_0x0;
    on_machine (wr32 vendor ebx;; wr32 (vendor + 8) ecx;; wr32 (vendor + 4) edx);;
    intel ← on_machine (bl_cpu_is_intel vendor);
    if negb intel then mret BL_STATUS_FAILURE
    else
      '(_, _, _, edx) ← bl_cpu_cpuid BL_CPUID_FUNCTION_0x1;
      if (Z.land edx BL_CPUID_FUNCTION_0x1_TSC =? 0) || (Z.land edx BL_CPUID_FUNCTION_0x1_MSR =? 0)
      then mret BL_STATUS_UNSUPPORTED
      else mret BL_STATUS_SUCCESS.

(** ** sys-main.c: with the locals of the callees, [__bl_modules_start], the
    address of [bl_mod_list], [bl_init] (Init.v), and [bl_die] of die.S. *)
Definition bl_sys_main (iregs vendor __bl_modules_start bl_mod_list : Z) (bl_init : D Dev ())
    (bl_die : D Dev ()) : D Dev () :=
  bl_bios_set_video_mode iregs 0x3;;
  on_machine (bl_print_set_output_callback true);;
  status ← bl_cpu_valid vendor;
  if failed status then
    on_machine (print_literal "CPU is invalid for OS.";; emit 10);;
    bl_die
  else
    bl_a20_enable;;
    on_machine bl_heap_init_bios;;
    on_machine (wr32 bl_mod_list __bl_modules_start);;
    bl_init;;
    bl_die.
End Bios.

(** [bl_die] halts for ever: an interrupt that wakes the processor halts it
    again. *)
Definition bl_die {Dev} : D Dev () := diverge.
