(* ===== verification/BiosProofs.v ===== *)
(** * Proofs about BIOS calls: the block of registers that a call passes *)
From Stdlib Require Import String.
From S2P Require Import Prelude Memory Regions Arith Status Strings StringsProofs Heap Print Ports Bios.
#[local] Open Scope Z_scope.

(** ** The registers in a block of 36 bytes *)
Definition field (L : list Z) (off n : nat) : Z := le_combine (take n (drop off L)).
Definition registers_of (L : list Z) : bios_registers :=
  BiosRegisters (field L 0 4) (field L 4 4) (field L 8 2) (field L 10 2) (field L 12 2) (field L 14 2)
    (field L 16 4) (field L 20 4) (field L 24 4) (field L 28 4) (field L 32 4).

Lemma field_ld m p k L off n :
  ld_bytes m p k = L → (off + n <= k)%nat → ld n m (p + Z.of_nat off) = field L off n.
Proof. intros <- H. unfold field. by rewrite slice_ld_bytes. Qed.

Lemma load_registers_run p L s :
  ld_bytes (mem s) p 36 = L → field L 14 2 = 0 → load_registers p s = Some (registers_of L, s).
Proof.
  intros HL Hds. pose proof (λ off n, field_ld (mem s) p 36 L off n HL) as Hf.
  unfold load_registers, rd32, rd16, gets, mbind, ST_bind, mret, ST_ret. cbv beta iota zeta.
  unfold br_edi, br_esi, br_gs, br_fs, br_es, br_ds, br_eflags, br_eax, br_ebx, br_ecx, br_edx, registers_of.
  change (p + 14) with (p + Z.of_nat 14). rewrite (Hf 14%nat 2%nat), Hds by lia.
  replace (p + 16 * 0) with p by lia.
  rewrite <- (Hf 0%nat 4%nat), <- (Hf 4%nat 4%nat), <- (Hf 8%nat 2%nat), <- (Hf 10%nat 2%nat),
    <- (Hf 12%nat 2%nat), <- (Hf 16%nat 4%nat), <- (Hf 20%nat 4%nat), <- (Hf 24%nat 4%nat),
    <- (Hf 28%nat 4%nat), <- (Hf 32%nat 4%nat) by lia. done.
Qed.

(** ** A block that [bl_bios_init_registers] has prepared: all 0 but for the
    carry flag and the last byte, which [bl_memset] does not reach. *)
Definition fresh_block (x : Z) : list Z := replicate 16 0 ++ [1; 0; 0; 0] ++ replicate 15 0 ++ [x].

Lemma init_registers_run p s :
  p ≠ 0 → in_space p 36 →
  ∃ m', bl_bios_init_registers p s = Some ((), set_mem m' s) ∧
    ld_bytes m' p 36 = fresh_block (ld8 (mem s) (p + 35)) ∧ keeps [(p, 36)] (mem s) m'.
Proof.
  intros Hp Hs. unfold bl_bios_init_registers.
  run_with (bl_memset_run s p 0 sizeof_bios_registers Hp Hs ltac:(done)).
  change (Z.to_nat (sizeof_bios_registers - 1)) with 35%nat. set (m1 := st_bytes (mem s) p (replicate 35 0)).
  assert (HL : ld_bytes m1 p 36 = replicate 35 0 ++ [ld8 (mem s) (p + 35)]).
  { change 36%nat with (35 + 1)%nat. rewrite ld_bytes_app. f_equal.
    - apply (ld_bytes_st_bytes_in _ _ (replicate 35 0)); [|by apply Forall_replicate].
      rewrite length_replicate. unfold in_space in *. lia.
    - cbn [ld_bytes]. unfold m1. rewrite ld8_st_bytes_out; rewrite ?length_replicate;
        [done|unfold in_space in *; lia..|unfold outside; lia]. }
  assert (H16 : ld 4 m1 (p + br_eflags) = 0) by (apply (field_ld m1 p 36 _ 16 4 HL); lia).
  eexists. split; [|split].
  - unfold mbind, ST_bind, rd32, wr32, gets, modify, with_mem. cbv beta iota.
    rewrite mem_set_mem, set_mem_set_mem, H16. reflexivity.
  - unfold st. rewrite (ld_bytes_patch m1 p 36 16), HL by first [done | apply bytes_le_split | cbn; lia]. reflexivity.
  - apply (keeps_trans _ _ m1).
    + pose proof (keeps_st_bytes (mem s) p (replicate 35 0)) as Hk. rewrite length_replicate in Hk.
      intros a Ha [Ho _]%Forall_cons. apply Hk; [unfold in_space in *; lia|done|].
      apply Forall_cons; split; [|done]. unfold outside in *. cbn [fst snd] in *. lia.
    + intros a Ha [Ho _]%Forall_cons. apply ld8_st_other; unfold in_space, outside, br_eflags in *; cbn [fst snd] in *; lia.
Qed.

(** Writes into the block. *)
Definition patch_mem (p : Z) (m : gmap Z Z) (w : nat * list Z) : gmap Z Z := st_bytes m (p + Z.of_nat w.1) w.2.

Lemma patch_block p ws m L :
  in_space p 36 → ld_bytes m p 36 = L → Forall (λ w, (w.1 + length w.2 <= 36)%nat ∧ bytes w.2) ws →
  ld_bytes (foldl (patch_mem p) m ws) p 36 = foldl patch L ws ∧ keeps [(p, 36)] m (foldl (patch_mem p) m ws).
Proof.
  intros Hp HL Hws. revert m L HL. induction Hws as [|[i l] ws [Hi Hl] Hws IH]; intros m L HL; [by split|].
  cbn [foldl]. destruct (IH (patch_mem p m (i, l)) (patch L (i, l))) as [H1 H2].
  { unfold patch_mem. cbn [fst snd] in *. by rewrite ld_bytes_patch, HL. }
  split; [done|]. eapply keeps_trans; [|done]. intros a Ha [Ho _]%Forall_cons. unfold patch_mem.
  unfold in_space, outside in *. cbn [fst snd] in *.
  apply ld8_st_bytes_out; [unfold in_space; lia|done|unfold outside; lia].
Qed.

Lemma ld_low m a : ld 2 m a = ld 4 m a mod 65536.
Proof.
  unfold ld. change 4%nat with (2 + 2)%nat. rewrite ld_bytes_app, le_combine_app, length_ld_bytes.
  pose proof (le_combine_range (ld_bytes m a 2)) as H. rewrite length_ld_bytes in H.
  change (256 ^ Z.of_nat 2) with 65536 in *. rewrite Z.mul_comm, Z.mod_add by lia. by rewrite Z.mod_small.
Qed.

(** What the thunk stores. *)
Lemma store_registers_run p out s :
  in_space p 36 → r_ds out = 0 →
  ∃ m', store_registers p out s = Some ((), set_mem m' s) ∧ keeps [(p, 36)] (mem s) m' ∧
    ld 4 m' (p + br_eax) = u32 (r_eax out) ∧ ld 2 m' (p + br_ax) = u16 (r_eax out).
Proof.
  intros Hp Hds. unfold store_registers. rewrite Hds. replace (p + 16 * 0) with p by lia.
  unfold br_edi, br_esi, br_gs, br_fs, br_es, br_ds, br_eflags, br_eax, br_ax, br_ebx, br_ecx, br_edx.
  eexists. split; [reflexivity|]. rewrite ?mem_with_mem, ?mem_set_mem. unfold in_space in Hp. split.
  - repeat (eapply keeps_st_in; [|unfold in_space; lia|left|cbn; lia..]). done.
  - match goal with |- _ ∧ ld 2 ?m' _ = _ => assert (ld 4 m' (p + 20) = u32 (r_eax out)) as E end.
    { repeat rewrite (ld_st_other 4) by field_side. apply (ld_st_same 4). field_side. }
    split; [done|]. rewrite ld_low, E. word_lia.
Qed.

(** A call with registers to store the result to. *)
Lemma interrupt_run {Dev} (int : bios Dev) n iregs oregs L m d out m1 d1 :
  iregs ≠ 0 → ld_bytes (mem m) iregs 36 = L → field L 14 2 = 0 →
  int (u8 n) (registers_of L) (mem m) d = (out, (m1, d1)) → r_ds out = 0 → oregs ≠ 0 → in_space oregs 36 →
  ∃ m2, bl_bios_interrupt int n iregs oregs (m, d) = Some ((), (set_mem m2 m, d1)) ∧ keeps [(oregs, 36)] m1 m2 ∧
    ld 4 m2 (oregs + br_eax) = u32 (r_eax out) ∧ ld 2 m2 (oregs + br_ax) = u16 (r_eax out).
Proof.
  intros Hi HL Hds Hint Hods Ho Hsp. unfold bl_bios_interrupt, is_null, NULL.
  destruct (Z.eqb_spec iregs 0); [done|]. destruct (Z.eqb_spec oregs 0); [done|].
  run_with (on_machine_run _ _ _ _ d (load_registers_run iregs L m HL Hds)).
  destruct (store_registers_run oregs out (set_mem m1 m) Hsp Hods) as (m2 & Hrun & Hk & Hr).
  exists m2. split; [|by split].
  unfold mbind, ST_bind. cbv beta. cbn [fst snd]. rewrite Hint. cbv beta iota.
  rewrite (on_machine_run _ _ _ _ d1 Hrun). by rewrite set_mem_set_mem.
Qed.
