(* ===== verification/Vbe.v ===== *)
(** * The VESA BIOS driver: modules/video/vbe/vbe.c, vbe.h

    Its functions call interrupt 0x10 with the addresses of blocks on the stack,
    which the BIOS fills in.  The code under [#if 0] is not part of the program. *)
From S2P Require Import Prelude Memory Arith Status Strings Heap Fb Ports Video Bios.

(** ** vbe.h *)
Definition BL_VBE_VERSION_2_0 : Z := 0x200.
Definition BL_VBE_VERSION_3_0 : Z := 0x300.
Definition BL_VBE_SUCCESS : Z := 0x004f.
Definition BL_VBE_VIDEO_MODES_LIST_END : Z := 0xffff.
Definition BL_VBE_BIOS_FUNCTION : Z := 0x4f.
Definition BL_VBE_BIOS_SUBFUNCTION_GET_INFO : Z := 0x00.
Definition BL_VBE_BIOS_SUBFUNCTION_GET_MODE_INFO : Z := 0x01.
Definition BL_VBE_BIOS_SUBFUNCTION_SET_MODE_INFO : Z := 0x02.
Definition BL_VBE_BIOS_SUBFUNCTION_GET_SET_DISPLAY_START : Z := 0x07.
Definition BL_VBE_MODE_ATTRIBUTES_HARDWARE_SUPPORT : Z := Z.shiftl 1 0.
Definition BL_VBE_MODE_ATTRIBUTES_COLOR_MODE : Z := Z.shiftl 1 3.
Definition BL_VBE_MODE_ATTRIBUTES_GRPHICS_MODE : Z := Z.shiftl 1 4.
Definition BL_VBE_MODE_ATTRIBUTES_LINEAR_FRAME_BUFFER : Z := Z.shiftl 1 7.
Definition BL_VBE_MEMORY_MODEL_DIRECT_COLOR : Z := 0x06.

(** [struct bl_vbe_info_block]. *)
Definition sizeof_vbe_info_block : Z := 512.
Definition vib_signature : Z := 0.
Definition vib_version : Z := 4.
Definition vib_video_modes : Z := 14.
Definition vib_total_memory : Z := 18.

(** [struct bl_vbe_mode_info_block]. *)
Definition sizeof_vbe_mode_info_block : Z := 256.
Definition mi_mode_attributes : Z := 0.
Definition mi_bytes_per_scan_line : Z := 16.
Definition mi_x_resolution : Z := 18.
Definition mi_y_resolution : Z := 20.
Definition mi_bits_per_pixel : Z := 25.
Definition mi_memory_model : Z := 27.
Definition mi_red_mask_size : Z := 31.
Definition mi_red_field_position : Z := 32.
Definition mi_green_mask_size : Z := 33.
Definition mi_green_field_position : Z := 34.
Definition mi_blue_mask_size : Z := 35.
Definition mi_blue_field_position : Z := 36.
Definition mi_reserved_mask_size : Z := 37.
Definition mi_reserved_field_position : Z := 38.
Definition mi_physical_base_address : Z := 40.

(** ** vbe.c: the addresses of the statics, of the locals and of the literal. *)
Record vbe_frame := VbeFrame {
  vbe_video_memory_size : Z;
  vbe_video_modes_count : Z;
  vbe_video_modes : Z;
  vbe_selected_mode_number : Z;
  vbe_selected_mode : Z;
  l_iregs : Z; l_oregs : Z; l_info : Z; l_info_block : Z;
  BL_VBE_INFO_BLOCK_SIGNATURE : Z;
}.

Section Vbe.
Context {Dev : Type} (int : bios Dev) (f : vbe_frame).

(** A call of function 0x4f: the registers that [args] fills in, then the
    interrupt. *)
Definition vbe_call (subfunction : Z) (args : M ()) : D Dev () :=
  on_machine (
    bl_bios_init_registers (l_iregs f);;
    wr8 (l_iregs f + br_ah) BL_VBE_BIOS_FUNCTION;;
    wr8 (l_iregs f + br_al) subfunction;;
    args);;
  bl_bios_interrupt int 0x10 (l_iregs f) (l_oregs f).

Definition vbe_ax_status : M bl_status_t :=
  ax ← rd16 (l_oregs f + br_ax);
  mret (if ax =? BL_VBE_SUCCESS then BL_STATUS_SUCCESS else BL_STATUS_FAILURE).

Definition bl_vbe_get_info (video : bl_video_info) : D Dev (bl_status_t * bl_video_info) :=
  on_machine (
    modes ← rd32 (vbe_video_modes f);
    number ← rd16 (vbe_selected_mode_number f);
    if negb (truth modes) || negb (truth number) then mret (BL_STATUS_UNSUPPORTED, video)
    else
      let m := vbe_selected_mode f in
      w ← rd16 (m + mi_x_resolution);
      h ← rd16 (m + mi_y_resolution);
      pitch ← rd16 (m + mi_bytes_per_scan_line);
      base ← rd32 (m + mi_physical_base_address);
      size ← rd32 (vbe_video_memory_size f);
      bpp ← rd8 (m + mi_bits_per_pixel);
      rp ← rd8 (m + mi_red_field_position); rm ← rd8 (m + mi_red_mask_size);
      gp ← rd8 (m + mi_green_field_position); gm ← rd8 (m + mi_green_mask_size);
      bp ← rd8 (m + mi_blue_field_position); bm ← rd8 (m + mi_blue_mask_size);
      xp ← rd8 (m + mi_reserved_field_position); xm ← rd8 (m + mi_reserved_mask_size);
      mret (BL_STATUS_SUCCESS,
        VideoInfo w h pitch base size bpp (u8 (Z.shiftr (bpp + Z.land bpp 0x7) 3))
          (ColorMask rp rm) (ColorMask gp gm) (ColorMask bp bm) (ColorMask xp xm))).

Definition bl_vbe_set_display_start (x y : Z) : D Dev bl_status_t :=
  vbe_call BL_VBE_BIOS_SUBFUNCTION_GET_SET_DISPLAY_START (
    wr8 (l_iregs f + br_bh) 0;;
    wr8 (l_iregs f + br_bl) 0;;
    wr16 (l_iregs f + br_cx) x;;
    wr16 (l_iregs f + br_dx) y);;
  on_machine vbe_ax_status.

(** Here all of eax is compared. *)
Definition bl_vbe_set_mode (mode : Z) : D Dev bl_status_t :=
  vbe_call BL_VBE_BIOS_SUBFUNCTION_SET_MODE_INFO (
    wr16 (l_iregs f + br_bx) (Z.lor (Z.shiftl 1 14) (Z.land mode 0x1ff)));;
  on_machine (
    eax ← rd32 (l_oregs f + br_eax);
    mret (if eax =? BL_VBE_SUCCESS then BL_STATUS_SUCCESS else BL_STATUS_FAILURE)).

(** The address of a block in es and di. *)
Definition block_in_es_di (block : Z) : M () :=
  wr16 (l_iregs f + br_es) (BL_BIOS_PM_TO_RM_SEGMENT block);;
  wr16 (l_iregs f + br_di) (BL_BIOS_PM_TO_RM_OFFSET block).

Definition bl_vbe_get_mode_info_block (mode block : Z) : D Dev bl_status_t :=
  if mode <? 0x100 then mret BL_STATUS_UNSUPPORTED
  else
    vbe_call BL_VBE_BIOS_SUBFUNCTION_GET_MODE_INFO (
      wr16 (l_iregs f + br_cx) mode;;
      block_in_es_di block);;
    on_machine vbe_ax_status.

(** The conditions of the loop of [bl_vbe_set_video] on a block, in its order. *)
Definition usable_mode (block : Z) : M bool :=
  x ← rd16 (block + mi_x_resolution);
  y ← rd16 (block + mi_y_resolution);
  if negb (x =? BL_VIDEO_DEFAULT_WIDTH) || negb (y =? BL_VIDEO_DEFAULT_HEIGHT) then mret false
  else
    attributes ← rd16 (block + mi_mode_attributes);
    if negb (truth (Z.land attributes BL_VBE_MODE_ATTRIBUTES_HARDWARE_SUPPORT)) ||
       negb (truth (Z.land attributes BL_VBE_MODE_ATTRIBUTES_COLOR_MODE)) ||
       negb (truth (Z.land attributes BL_VBE_MODE_ATTRIBUTES_GRPHICS_MODE)) ||
       negb (truth (Z.land attributes BL_VBE_MODE_ATTRIBUTES_LINEAR_FRAME_BUFFER)) then mret false
    else
      model ← rd8 (block + mi_memory_model);
      if negb (model =? BL_VBE_MEMORY_MODEL_DIRECT_COLOR) then mret false
      else
        bpp ← rd8 (block + mi_bits_per_pixel);
        if negb (bpp =? 15) && negb (bpp =? 16) && negb (bpp =? 24) && negb (bpp =? 32) then mret false
        else
          r ← rd8 (block + mi_red_mask_size);
          g ← rd8 (block + mi_green_mask_size);
          b ← rd8 (block + mi_blue_mask_size);
          x ← rd8 (block + mi_reserved_mask_size);
          mret ((r =? BL_VIDEO_DEFAULT_RED_MASK_SIZE) && (g =? BL_VIDEO_DEFAULT_GREEN_MASK_SIZE) &&
                (b =? BL_VIDEO_DEFAULT_BLUE_MASK_SIZE) && (x =? BL_VIDEO_DEFAULT_RESERVED_MASK_SIZE)).

(** The index of the first mode of the list whose block is usable; the block stays
    in the local [info]. *)
Definition find_mode : D Dev (option Z) :=
  mwhile (λ i,
    count ← on_machine (rd32 (vbe_video_modes_count f));
    if i <? s32 count then
      mode ← on_machine (modes ← rd32 (vbe_video_modes f); rd16 (u32 (modes + 2 * i)));
      status ← bl_vbe_get_mode_info_block mode (l_info f);
      if failed status then continue (i + 1)
      else
        usable ← on_machine (usable_mode (l_info f));
        if (usable : bool) then break (Some i) else continue (i + 1)
    else break None) 0.

Definition bl_vbe_set_video : D Dev bl_status_t :=
  modes ← on_machine (rd32 (vbe_video_modes f));
  if is_null modes then mret BL_STATUS_FAILURE
  else
    o ← find_mode;
    match o with
    | None => mret BL_STATUS_UNSUPPORTED
    | Some i =>
        on_machine (
          modes ← rd32 (vbe_video_modes f);
          mode ← rd16 (u32 (modes + 2 * i));
          wr16 (vbe_selected_mode_number f) mode;;
          bl_memcpy (vbe_selected_mode f) (l_info f) sizeof_vbe_mode_info_block);;
        number ← on_machine (rd16 (vbe_selected_mode_number f));
        status ← bl_vbe_set_mode number;
        if failed status then mret status
        else
          status ← bl_vbe_set_display_start 0 0;
          if failed status then mret status else mret BL_STATUS_SUCCESS
    end.

Definition bl_vbe_get_info_block (block : Z) : D Dev bl_status_t :=
  vbe_call BL_VBE_BIOS_SUBFUNCTION_GET_INFO (block_in_es_di block);;
  on_machine (
    ax ← rd16 (l_oregs f + br_ax);
    if negb (ax =? BL_VBE_SUCCESS) then mret BL_STATUS_FAILURE
    else
      differ ← bl_memcmp (block + vib_signature) (BL_VBE_INFO_BLOCK_SIGNATURE f) 4;
      if truth differ then mret BL_STATUS_UNSUPPORTED
      else
        version ← rd16 (block + vib_version);
        if negb (version =? BL_VBE_VERSION_2_0) && negb (version =? BL_VBE_VERSION_3_0)
        then mret BL_STATUS_UNSUPPORTED
        else mret BL_STATUS_SUCCESS).

(** The number of modes before the end mark. *)
Definition count_modes (video_modes : Z) : M Z :=
  mwhile (λ i,
    mode ← rd16 (u32 (video_modes + 2 * i));
    if mode =? BL_VBE_VIDEO_MODES_LIST_END then break i else continue (i + 1)) 0.

Definition copy_modes (video_modes : Z) : M () :=
  mwhile (λ i,
    count ← rd32 (vbe_video_modes_count f);
    if i <? s32 count then
      mode ← rd16 (u32 (video_modes + 2 * i));
      modes ← rd32 (vbe_video_modes f);
      wr16 (u32 (modes + 2 * i)) mode;;
      continue (i + 1)
    else break ()) 0.

Definition bl_vbe_init : D Dev bl_status_t :=
  status ← bl_vbe_get_info_block (l_info_block f);
  if failed status then mret status
  else
    on_machine (
      total ← rd16 (l_info_block f + vib_total_memory);
      wr32 (vbe_video_memory_size f) (u32 (Z.shiftl total 16));;
      far ← rd32 (l_info_block f + vib_video_modes);
      let video_modes := BL_BIOS_FAR_PTR_TO_ADDRESS far in
      first ← rd16 video_modes;
      if first =? BL_VBE_VIDEO_MODES_LIST_END then mret BL_STATUS_UNSUPPORTED
      else
        i ← count_modes video_modes;
        wr32 (vbe_video_modes_count f) i;;
        count ← rd32 (vbe_video_modes_count f);
        modes ← bl_heap_alloc (u32 (count * 2));
        wr32 (vbe_video_modes f) modes;;
        if is_null modes then mret BL_STATUS_MEMORY_ALLOCATION_FAILED
        else copy_modes video_modes;; mret BL_STATUS_SUCCESS).

Definition bl_vbe_uninit : D Dev () :=
  on_machine (
    modes ← rd32 (vbe_video_modes f);
    if truth modes then
      count ← rd32 (vbe_video_modes_count f);
      bl_heap_free modes (u32 (count * 2));;
      wr32 (vbe_video_modes_count f) 0;;
      wr32 (vbe_video_modes f) NULL
    else mret ()).

Definition vbe : bl_video_driver Dev :=
  VideoDriver Dev BL_VIDEO_TYPE_VBE_GRAPHICS bl_vbe_init bl_vbe_uninit bl_vbe_set_video bl_vbe_get_info.

(** [BL_MODULE_INIT]. *)
Definition vbe_module_init (l : list (bl_video_driver Dev)) : list (bl_video_driver Dev) :=
  bl_video_driver_register vbe l.
End Vbe.
