(* ===== verification/VbeProofs.v ===== *)
(** * Proofs about the VESA driver: the mode that it chooses

    What the driver relies on of the BIOS is the class [VesaBios]. *)
From S2P Require Import Prelude Memory Regions Arith Status Strings StringsProofs Heap Fb Ports Video Bios BiosProofs Vbe.

(** ** Mode information blocks as bytes *)
Definition good_mode (b : list Z) : bool :=
  (field b 18 2 =? 1024) && (field b 20 2 =? 768) &&
  Z.testbit (field b 0 2) 0 && Z.testbit (field b 0 2) 3 && Z.testbit (field b 0 2) 4 && Z.testbit (field b 0 2) 7 &&
  (field b 27 1 =? 6) &&
  ((field b 25 1 =? 15) || (field b 25 1 =? 16) || (field b 25 1 =? 24) || (field b 25 1 =? 32)) &&
  (field b 31 1 =? 5) && (field b 33 1 =? 6) && (field b 35 1 =? 5) && (field b 37 1 =? 0).

Lemma ld8_field m p L k off : ld_bytes m p k = L → (off + 1 <= k)%nat → ld8 m (p + Z.of_nat off) = field L off 1.
Proof.
  intros HL Hk. rewrite <- (field_ld m p k L off 1 HL Hk). unfold ld. cbn. rewrite Z.add_0_r.
  symmetry. apply u8_small, ld8_range.
Qed.

Lemma usable_mode_run p b s :
  ld_bytes (mem s) p 256 = b → usable_mode p s = Some (good_mode b, s).
Proof.
  intros HL. pose proof (λ off n, field_ld (mem s) p 256 b off n HL) as Hf.
  pose proof (λ off, ld8_field (mem s) p b 256 off HL) as Hf8.
  unfold usable_mode, rd16, rd8, gets, mbind, ST_bind, mret, ST_ret.
  rewrite (Hf 18%nat 2%nat ltac:(lia) : ld 2 _ (p + mi_x_resolution) = _),
    (Hf 20%nat 2%nat ltac:(lia) : ld 2 _ (p + mi_y_resolution) = _).
  unfold good_mode, BL_VIDEO_DEFAULT_WIDTH, BL_VIDEO_DEFAULT_HEIGHT.
  destruct (field b 18 2 =? 1024), (field b 20 2 =? 768); try done. cbn [negb orb andb].
  rewrite (Hf 0%nat 2%nat ltac:(lia) : ld 2 _ (p + mi_mode_attributes) = _).
  unfold BL_VBE_MODE_ATTRIBUTES_HARDWARE_SUPPORT, BL_VBE_MODE_ATTRIBUTES_COLOR_MODE,
    BL_VBE_MODE_ATTRIBUTES_GRPHICS_MODE, BL_VBE_MODE_ATTRIBUTES_LINEAR_FRAME_BUFFER, BL_VBE_MEMORY_MODEL_DIRECT_COLOR.
  rewrite !truth_land_bit by lia.
  destruct (Z.testbit _ 0), (Z.testbit _ 3), (Z.testbit _ 4), (Z.testbit _ 7); try done. cbn [negb orb andb].
  rewrite (Hf8 27%nat ltac:(lia) : ld8 _ (p + mi_memory_model) = _).
  destruct (field b 27 1 =? 6); [|done]. cbn [negb].
  rewrite (Hf8 25%nat ltac:(lia) : ld8 _ (p + mi_bits_per_pixel) = _).
  unfold BL_VIDEO_DEFAULT_RED_MASK_SIZE, BL_VIDEO_DEFAULT_GREEN_MASK_SIZE,
    BL_VIDEO_DEFAULT_BLUE_MASK_SIZE, BL_VIDEO_DEFAULT_RESERVED_MASK_SIZE.
  destruct (field b 25 1 =? 15), (field b 25 1 =? 16), (field b 25 1 =? 24), (field b 25 1 =? 32); try done;
    cbn [negb orb andb];
    by rewrite (Hf8 31%nat ltac:(lia) : ld8 _ (p + mi_red_mask_size) = _),
      (Hf8 33%nat ltac:(lia) : ld8 _ (p + mi_green_mask_size) = _),
      (Hf8 35%nat ltac:(lia) : ld8 _ (p + mi_blue_mask_size) = _),
      (Hf8 37%nat ltac:(lia) : ld8 _ (p + mi_reserved_mask_size) = _).
Qed.

(** ** The BIOS *)

(** [block_of] are the modes that it has, [mode_now] is the mode of the screen as
    set last, and [private] is memory of its own. *)
Class VesaBios {Dev : Type} (int : bios Dev) (block_of : Z → option (list Z)) (mode_now : Dev → Z)
    (private : list (Z * Z)) : Prop := VesaBiosLaws {
  vb_mode_info r m d : u16 (r_eax r) = 0x4f01 →
    let p := 16 * r_es r + u16 (r_edi r) in in_space p 256 →
    let '(out, (m', d')) := int 0x10 r m d in
    r_ds out = 0 ∧ mode_now d' = mode_now d ∧ keeps ((p, 256) :: private) m m' ∧
    match block_of (u16 (r_ecx r)) with
    | Some b => u16 (r_eax out) = BL_VBE_SUCCESS ∧ ld_bytes m' p 256 = b
    | None => u16 (r_eax out) ≠ BL_VBE_SUCCESS
    end;
  vb_set_mode r m d : u16 (r_eax r) = 0x4f02 →
    let '(out, (m', d')) := int 0x10 r m d in
    r_ds out = 0 ∧ keeps private m m' ∧
    u32 (r_eax out) / 65536 = u32 (r_eax r) / 65536 ∧
    match block_of (Z.land (r_ebx r) 0x1ff) with
    | Some _ => u16 (r_eax out) = BL_VBE_SUCCESS ∧ mode_now d' = u16 (r_ebx r)
    | None => u16 (r_eax out) ≠ BL_VBE_SUCCESS ∧ mode_now d' = mode_now d
    end;
  vb_display_start r m d : u16 (r_eax r) = 0x4f07 →
    let '(out, (m', d')) := int 0x10 r m d in
    r_ds out = 0 ∧ keeps private m m' ∧ u16 (r_eax out) = BL_VBE_SUCCESS ∧ mode_now d' = mode_now d;
}.

(** ** The calls of the driver *)
Definition call_writes (subfunction : Z) (ws : list (nat * list Z)) : list (nat * list Z) :=
  [(21%nat, [BL_VBE_BIOS_FUNCTION]); (20%nat, [subfunction])] ++ ws.
Definition call_block (subfunction : Z) (ws : list (nat * list Z)) (x : Z) : list Z :=
  foldl patch (fresh_block x) (call_writes subfunction ws).

Section Calls.
Context {Dev : Type} (int : bios Dev) (f : vbe_frame).
Context (Hi : good_region (l_iregs f, 36)) (Ho : good_region (l_oregs f, 36)).

(** A call up to the interrupt, and from there. *)
Lemma vbe_call_run sub ws args s d :
  0 <= sub < 256 →
  Forall (λ w, (w.1 + length w.2 <= 36)%nat ∧ bytes w.2) ws →
  (∀ t, args t = Some ((), set_mem (foldl (patch_mem (l_iregs f)) (mem t) ws) t)) →
  (∀ x, field (call_block sub ws x) 14 2 = 0) →
  ∃ x m0, keeps [(l_iregs f, 36)] (mem s) m0 ∧
    ∀ out m1 d1, int 0x10 (registers_of (call_block sub ws x)) m0 d = (out, (m1, d1)) → r_ds out = 0 →
    ∃ m2, vbe_call int f sub args (s, d) = Some ((), (set_mem m2 s, d1)) ∧ keeps [(l_oregs f, 36)] m1 m2 ∧
      ld 4 m2 (l_oregs f + br_eax) = u32 (r_eax out) ∧ ld 2 m2 (l_oregs f + br_ax) = u16 (r_eax out).
Proof.
  destruct Hi as [Hi0 Hi1], Ho as [Ho0 Ho1]. cbn [fst snd] in *. intros Hsub Hws Hargs Hds.
  destruct (init_registers_run (l_iregs f) s Hi0 Hi1) as (m & Hinit & HL & Hk).
  set (x := ld8 (mem s) (l_iregs f + 35)) in *. exists x.
  destruct (patch_block (l_iregs f) (call_writes sub ws) m _ Hi1 HL) as [HL' Hk'].
  { do 2 (apply Forall_cons; split; [split; [cbn; lia|apply Forall_cons; by split]|]). done. }
  exists (foldl (patch_mem (l_iregs f)) m (call_writes sub ws)).
  split; [by eapply keeps_trans|]. intros out m1 d1 Hint Hods.
  set (t := set_mem (foldl (patch_mem (l_iregs f)) m (call_writes sub ws)) s).
  destruct (interrupt_run int 0x10 (l_iregs f) (l_oregs f) (call_block sub ws x) t d out m1 d1
    Hi0 HL' (Hds x) Hint Hods Ho0 Ho1) as (m2 & Hrun & Hrest).
  exists m2. split; [|done]. unfold vbe_call. rewrite (bind_run _ _ () _ (t, d)); [|apply on_machine_run].
  - rewrite Hrun. done.
  - run_with Hinit. unfold wr8, modify, with_mem. unfold mbind, ST_bind. cbv beta iota.
    rewrite !mem_set_mem, !set_mem_set_mem, Hargs. rewrite mem_set_mem, set_mem_set_mem. done.
Qed.
End Calls.

Definition info_writes (mode block : Z) : list (nat * list Z) :=
  [(28%nat, le_split 2 mode); (12%nat, le_split 2 (BL_BIOS_PM_TO_RM_SEGMENT block));
   (0%nat, le_split 2 (BL_BIOS_PM_TO_RM_OFFSET block))].
Definition set_writes (mode : Z) : list (nat * list Z) :=
  [(24%nat, le_split 2 (Z.lor (Z.shiftl 1 14) (Z.land mode 0x1ff)))].
Definition start_writes (x y : Z) : list (nat * list Z) :=
  [(25%nat, [0]); (24%nat, [0]); (28%nat, le_split 2 x); (32%nat, le_split 2 y)].

Ltac writes_ok := repeat (apply Forall_cons; split; [split; [cbn; lia|first [apply bytes_le_split | by repeat constructor]]|]); done.

Lemma segment_offset p : 0 <= p < 1048576 →
  16 * u16 (BL_BIOS_PM_TO_RM_SEGMENT p) + u16 (BL_BIOS_PM_TO_RM_OFFSET p) = p.
Proof.
  intros. unfold BL_BIOS_PM_TO_RM_SEGMENT, BL_BIOS_PM_TO_RM_OFFSET.
  change 0xffff with (Z.ones 16). rewrite Z.land_ones by lia.
  assert (Z.land p 0xffff0000 = p / 65536 * 65536) as ->.
  { apply Z.bits_inj'. intros i Hi. change 65536 with (2 ^ 16). rewrite <- Z.shiftr_div_pow2, <- Z.shiftl_mul_pow2 by lia.
    rewrite Z.land_spec. change 0xffff0000 with (Z.shiftl (Z.ones 16) 16).
    destruct (Z.ltb_spec i 16); [rewrite !Z.shiftl_spec_low by lia; apply andb_false_r|].
    rewrite !Z.shiftl_spec_high, Z.shiftr_spec by lia. replace (i - 16 + 16) with i by lia.
    destruct (Z.ltb_spec i 32); [rewrite Z.ones_spec_low by lia; apply andb_true_r|].
    rewrite Z.ones_spec_high, andb_false_r by lia. symmetry. apply (Z.bits_above_log2 p i); [lia|].
    destruct (decide (p = 0)) as [->|]; [cbn; lia|]. apply Z.log2_lt_pow2; [lia|].
    apply (Z.lt_le_trans _ (2 ^ 20)); [lia|]. apply Z.pow_le_mono_r; lia. }
  rewrite Z.shiftr_div_pow2 by lia. change (2 ^ 4) with 16. change (2 ^ 16) with 65536. word_lia.
Qed.
Section Driver.
Context {Dev : Type} (int : bios Dev) (block_of : Z → option (list Z)) (mode_now : Dev → Z)
  (private : list (Z * Z)) `{!VesaBios int block_of mode_now private} (f : vbe_frame).
Context (Hi : good_region (l_iregs f, 36)) (Ho : good_region (l_oregs f, 36))
  (Hb : in_space (l_info f) 256) (Hb20 : l_info f < 1048576) (Hob : apart (l_oregs f, 36) (l_info f, 256)).

(** The memory that calls change. *)
Definition call_regions : list (Z * Z) := [(l_iregs f, 36); (l_oregs f, 36); (l_info f, 256)] ++ private.

Lemma get_mode_info_block_run n s d :
  0x100 <= n < 65536 →
  ∃ m d', bl_vbe_get_mode_info_block int f n (l_info f) (s, d) =
      Some (match block_of n with Some _ => BL_STATUS_SUCCESS | None => BL_STATUS_FAILURE end, (set_mem m s, d')) ∧
    keeps call_regions (mem s) m ∧ mode_now d' = mode_now d ∧
    ∀ b, block_of n = Some b → ld_bytes m (l_info f) 256 = b.
Proof.
  intros Hn.
  destruct (vbe_call_run int f Hi Ho BL_VBE_BIOS_SUBFUNCTION_GET_MODE_INFO (info_writes n (l_info f))
    (wr16 (l_iregs f + br_cx) n;; block_in_es_di f (l_info f)) s d) as (x & m0 & Hk0 & Hcall);
    [done|writes_ok| |done|].
  { intros t. unfold block_in_es_di, wr16, modify, with_mem, mbind, ST_bind. cbv beta iota.
    rewrite !mem_set_mem, !set_mem_set_mem. done. }
  set (r := registers_of _) in Hcall.
  assert (Hp : 16 * r_es r + u16 (r_edi r) = l_info f).
  { rewrite <- (segment_offset (l_info f)) by (unfold in_space in Hb; lia). unfold r, registers_of, field. cbn. word_lia. }
  assert (Hc : u16 (r_ecx r) = n) by (unfold r, registers_of, field; cbn; word_lia).
  pose proof (vb_mode_info r m0 d eq_refl) as H. cbv zeta in H. rewrite Hp, Hc in H. specialize (H Hb).
  destruct (int 0x10 r m0 d) as [out [m1 d1]] eqn:E. destruct H as (Hds & Hmode & Hk1 & H).
  destruct (Hcall out m1 d1 eq_refl Hds) as (m2 & Hrun & Hk2 & _ & Hax).
  exists m2, d1. split; [|split; [|split; [done|]]].
  - unfold bl_vbe_get_mode_info_block. destruct (Z.ltb_spec n 0x100); [lia|]. run_with Hrun.
    unfold on_machine, vbe_ax_status, rd16, gets, mbind, ST_bind, mret, ST_ret. cbn [fst snd].
    rewrite mem_set_mem, Hax. destruct (block_of n); [destruct H as [-> _]; done|].
    destruct (Z.eqb_spec (u16 (r_eax out)) BL_VBE_SUCCESS); done.
  - unfold call_regions. eapply keeps_trans; [eapply keeps_weaken; [exact Hk0|sublist]|].
    eapply keeps_trans; eapply keeps_weaken; [exact Hk1|sublist|exact Hk2|sublist].
  - intros b Hb'. rewrite Hb' in H. destruct H as [_ <-].
    apply (keeps_ld_bytes _ _ _ _ 256 Hk2 Hb). apply Forall_cons. by split.
Qed.

Lemma set_mode_run n s d :
  0 <= n < 0x200 → block_of n ≠ None →
  ∃ m d', bl_vbe_set_mode int f n (s, d) = Some (BL_STATUS_SUCCESS, (set_mem m s, d')) ∧
    keeps call_regions (mem s) m ∧ mode_now d' = 0x4000 + n.
Proof.
  intros Hn Hblock.
  assert (Hmode : Z.lor (Z.shiftl 1 14) (Z.land n 0x1ff) = 0x4000 + n).
  { change 0x1ff with (Z.ones 9). rewrite Z.land_ones, (Z.mod_small n) by lia. 
    rewrite lor_shiftl_add; lia. }
  destruct (vbe_call_run int f Hi Ho BL_VBE_BIOS_SUBFUNCTION_SET_MODE_INFO (set_writes n)
    (wr16 (l_iregs f + br_bx) (Z.lor (Z.shiftl 1 14) (Z.land n 0x1ff))) s d) as (x & m0 & Hk0 & Hcall);
    [done|writes_ok|done|done|].
  set (r := registers_of _) in Hcall.
  assert (Hbx : r_ebx r = 0x4000 + n) by (rewrite <- Hmode; unfold r, registers_of, field; cbn; rewrite Hmode; word_lia).
  pose proof (vb_set_mode r m0 d eq_refl) as H. cbv zeta in H. rewrite Hbx in H.
  destruct (int 0x10 r m0 d) as [out [m1 d1]] eqn:E. destruct H as (Hds & Hk1 & Hhigh & H).
  destruct (Hcall out m1 d1 eq_refl Hds) as (m2 & Hrun & Hk2 & Heax & _).
  assert (Z.land (0x4000 + n) 0x1ff = n) as Hnum.
  { change 0x1ff with (Z.ones 9). rewrite Z.land_ones by lia. change (2 ^ 9) with 512. Z.div_mod_to_equations; lia. }
  rewrite Hnum in H. destruct (block_of n); [|done]. destruct H as [Hax Hmode'].
  exists m2, d1. split; [|split].
  - unfold bl_vbe_set_mode. run_with Hrun.
    unfold on_machine, rd32, gets, mbind, ST_bind, mret, ST_ret. cbn [fst snd]. rewrite mem_set_mem, Heax.
    assert (u32 (r_eax out) = BL_VBE_SUCCESS) as ->; [|done].
    change (u32 (r_eax r) / 65536) with 0 in Hhigh. unfold BL_VBE_SUCCESS in *. word_lia.
  - unfold call_regions. eapply keeps_trans; [eapply keeps_weaken; [exact Hk0|sublist]|].
    eapply keeps_trans; eapply keeps_weaken; [exact Hk1|sublist|exact Hk2|sublist].
  - rewrite Hmode'. word_lia.
Qed.

Lemma set_display_start_run s d :
  ∃ m d', bl_vbe_set_display_start int f 0 0 (s, d) = Some (BL_STATUS_SUCCESS, (set_mem m s, d')) ∧
    keeps call_regions (mem s) m ∧ mode_now d' = mode_now d.
Proof.
  destruct (vbe_call_run int f Hi Ho BL_VBE_BIOS_SUBFUNCTION_GET_SET_DISPLAY_START (start_writes 0 0)
    (wr8 (l_iregs f + br_bh) 0;; wr8 (l_iregs f + br_bl) 0;; wr16 (l_iregs f + br_cx) 0;; wr16 (l_iregs f + br_dx) 0)
    s d) as (x & m0 & Hk0 & Hcall); [done|writes_ok| |done|].
  { intros t. unfold wr8, wr16, modify, with_mem, mbind, ST_bind. cbv beta iota.
    rewrite !mem_set_mem, !set_mem_set_mem. done. }
  set (r := registers_of _) in Hcall. pose proof (vb_display_start r m0 d eq_refl) as H.
  destruct (int 0x10 r m0 d) as [out [m1 d1]] eqn:E. destruct H as (Hds & Hk1 & Hax' & Hmode).
  destruct (Hcall out m1 d1 eq_refl Hds) as (m2 & Hrun & Hk2 & _ & Hax).
  exists m2, d1. split; [|split; [|done]].
  - unfold bl_vbe_set_display_start. run_with Hrun.
    unfold on_machine, vbe_ax_status, rd16, gets, mbind, ST_bind, mret, ST_ret. cbn [fst snd].
    by rewrite mem_set_mem, Hax, Hax'.
  - unfold call_regions. eapply keeps_trans; [eapply keeps_weaken; [exact Hk0|sublist]|].
    eapply keeps_trans; eapply keeps_weaken; [exact Hk1|sublist|exact Hk2|sublist].
Qed.

(** ** The list of modes *)
Definition acceptable (n : Z) : bool :=
  (0x100 <=? n) && match block_of n with Some b => good_mode b | None => false end.

Context (ms : list Z) (p : Z) (Hp : p ≠ 0).
Definition modes_regions : list (Z * Z) :=
  [(vbe_video_modes_count f, 4); (vbe_video_modes f, 4); (p, 2 * Z.of_nat (length ms))].
Context (Hspace : Forall (λ r, in_space r.1 r.2) modes_regions) (Hapart : each_apart call_regions modes_regions)
  (Hms : Forall (λ n, 0 <= n < 0x200) ms).

Definition modes_in (m : gmap Z Z) : Prop :=
  ld 4 m (vbe_video_modes_count f) = Z.of_nat (length ms) ∧ ld 4 m (vbe_video_modes f) = p ∧
  ∀ i n, ms !! i = Some n → ld 2 m (p + 2 * Z.of_nat i) = n.

Lemma modes_spaces :
  in_space (vbe_video_modes_count f) 4 ∧ in_space (vbe_video_modes f) 4 ∧ in_space p (2 * Z.of_nat (length ms)).
Proof. apply Forall_cons in Hspace as [? [? [? _]%Forall_cons]%Forall_cons]. done. Qed.

Lemma modes_in_keeps m m' : keeps call_regions m m' → modes_in m → modes_in m'.
Proof.
  destruct modes_spaces as (H1 & H2 & H3). intros Hk (Hc & Hm & Hl).
  assert (Hr : ∀ r q k, r ∈ modes_regions → in_space q (Z.of_nat k) → r.1 <= q → q + Z.of_nat k <= r.1 + r.2 →
    ld k m' q = ld k m q).
  { intros r q k Hr Hq Hr1 Hr2. apply (keeps_ld call_regions); [done|done|].
    apply Forall_forall. intros e He. pose proof (apart_each _ _ _ _ Hapart He Hr) as Ha.
    unfold apart, disjoint in *. cbn [fst snd]. lia. }
  split; [|split].
  - rewrite <- Hc. apply (Hr (vbe_video_modes_count f, 4) _ 4%nat); [left|done|cbn; lia..].
  - rewrite <- Hm. apply (Hr (vbe_video_modes f, 4) _ 4%nat); [right; left|done|cbn; lia..].
  - intros i n Hn. rewrite <- (Hl i n Hn). pose proof (lookup_lt_Some _ _ _ Hn).
    apply (Hr (p, 2 * Z.of_nat (length ms)) _ 2%nat); [right; right; left| |cbn; lia..].
    unfold in_space in *. lia.
Qed.

(** [t] is [s] but for memory that calls change. *)
Definition similar (s t : machine * Dev) : Prop :=
  t.1 = set_mem (mem t.1) s.1 ∧ keeps call_regions (mem s.1) (mem t.1) ∧ mode_now t.2 = mode_now s.2.
Lemma similar_refl s : similar s s.
Proof. split; [by rewrite set_mem_id|by split]. Qed.
Lemma similar_trans s t m d :
  similar s t → keeps call_regions (mem t.1) m → mode_now d = mode_now t.2 → similar s (set_mem m t.1, d).
Proof.
  intros (Ht & Hk & Hd) Hk' Hd'. split; [|split].
  - cbn [fst]. rewrite Ht, mem_set_mem, !set_mem_set_mem. done.
  - cbn [fst]. rewrite mem_set_mem. by eapply keeps_trans.
  - cbn [snd]. by rewrite Hd'.
Qed.

(** One mode of the loop. *)
Lemma try_mode_run i n t :
  modes_in (mem t.1) → ms !! i = Some n →
  wp (mode ← on_machine (modes ← rd32 (vbe_video_modes f); rd16 (u32 (modes + 2 * Z.of_nat i)));
      status ← bl_vbe_get_mode_info_block int f mode (l_info f);
      if failed status then continue (Z.of_nat i + 1)
      else
        usable ← on_machine (usable_mode (l_info f));
        if (usable : bool) then break (Some (Z.of_nat i)) else continue (Z.of_nat i + 1))
    (λ o u, similar t u ∧
      if acceptable n then o = inr (Some (Z.of_nat i)) ∧ block_of n = Some (ld_bytes (mem u.1) (l_info f) 256)
      else o = inl (Z.of_nat i + 1)) t.
Proof.
  destruct t as [m d]. cbn [fst]. intros (_ & Hm & Hl) Hn. destruct modes_spaces as (_ & _ & H3).
  pose proof (lookup_lt_Some _ _ _ Hn). pose proof (Forall_lookup_1 _ _ _ _ Hms Hn) as Hrange. cbv beta in Hrange.
  apply wp_bind. rewrite wp_run. exists n, (m, d). split.
  { apply on_machine_run. unfold rd32, rd16, gets, mbind, ST_bind. rewrite Hm, u32_small, (Hl i n Hn);
      [done|unfold in_space in H3; lia]. }
  unfold acceptable. destruct (Z.leb_spec 0x100 n) as [Hlow|Hlow]; cbn [andb].
  - destruct (get_mode_info_block_run n m d ltac:(lia)) as (m1 & d1 & Hrun & Hk & Hd & Hblock).
    wp_known Hrun. assert (Hsim : similar (m, d) (set_mem m1 m, d1)) by (apply (similar_trans (m, d) (m, d) m1 d1); [apply similar_refl|done..]).
    destruct (block_of n) as [b|]; cbn [failed]; [|by apply wp_ret].
    specialize (Hblock b eq_refl).
    wp_known (on_machine_run _ _ _ _ d1 (usable_mode_run (l_info f) b (set_mem m1 m) ltac:(by rewrite mem_set_mem))).
    destruct (good_mode b); apply wp_ret; [|done]. split; [done|]. cbn [fst]. by rewrite mem_set_mem, Hblock.
  - unfold bl_vbe_get_mode_info_block. destruct (Z.ltb_spec n 0x100); [|lia]. apply wp_bind, wp_ret. cbn [failed].
    apply wp_ret. split; [apply similar_refl|done].
Qed.

(** The loop finds the first acceptable mode. *)
Lemma find_mode_run s :
  modes_in (mem s.1) →
  wp (find_mode int f) (λ o t, similar s t ∧
    match list_find acceptable ms with
    | Some (i, n) => o = Some (Z.of_nat i) ∧ block_of n = Some (ld_bytes (mem t.1) (l_info f) 256)
    | None => o = None
    end) s.
Proof.
  intros Hin. destruct modes_spaces as (H1 & _ & H3). unfold find_mode.
  wp_loop (λ k t, similar s t ∧ ∃ i, k = Z.of_nat i ∧ (i <= length ms)%nat ∧ Forall (λ n, ¬ acceptable n) (take i ms))
    (λ k _, Z.of_nat (length ms) - k); [|split; [apply similar_refl|exists 0%nat; split; [done|split; [lia|constructor]]]
    |unfold in_space in H3; lia].
  intros k t (Hsim & i & -> & Hi' & Hnone). pose proof (modes_in_keeps _ _ (proj1 (proj2 Hsim)) Hin) as Hin'.
  assert (Hc : on_machine (rd32 (vbe_video_modes_count f)) t = Some (Z.of_nat (length ms), t)).
  { destruct t as [m d]. apply on_machine_run. unfold rd32, gets. destruct Hin' as [Hc _]. cbn [fst] in Hc. by rewrite Hc. }
  wp_known Hc. rewrite s32_small by (unfold in_space in H3; lia).
  destruct (Z.ltb_spec (Z.of_nat i) (Z.of_nat (length ms))) as [Hlt|Hge].
  - destruct (lookup_lt_is_Some_2 ms i ltac:(lia)) as [n Hn].
    eapply wp_mono; [exact (try_mode_run i n t Hin' Hn)|]. cbv beta. intros o u [Hu Hres].
    assert (Hsu : similar s u).
    { destruct u as [m d], Hu as (Hm & Hk & Hd). cbn [fst snd] in *. rewrite Hm. by apply (similar_trans s t). }
    destruct (acceptable n) eqn:Ha.
    + destruct Hres as [-> Hblock]. split; [done|].
      assert (list_find acceptable ms = Some (i, n)) as ->; [|done].
      apply list_find_Some. split; [done|]. split; [by rewrite Ha|]. intros j y Hj Hji.
      rewrite Forall_lookup in Hnone. apply (Hnone j). by rewrite lookup_take_lt.
    + subst o. split; [|lia]. split; [done|]. exists (S i). split; [lia|]. split; [lia|].
      rewrite (take_S_r _ _ n Hn). apply Forall_app. split; [done|]. apply Forall_singleton. intros Hf. by rewrite Ha in Hf.
  - apply wp_ret. split; [done|]. rewrite (proj2 (list_find_None acceptable ms)); [done|].
    by rewrite take_ge in Hnone by lia.
Qed.

Context (Hnum : good_region (vbe_selected_mode_number f, 2)) (Hsel : good_region (vbe_selected_mode f, 256))
  (Hinfo : l_info f ≠ 0).
Definition selection : list (Z * Z) := [(vbe_selected_mode_number f, 2); (vbe_selected_mode f, 256)].
Context (Hselection : separate selection) (Hsel1 : each_apart selection modes_regions)
  (Hsel2 : each_apart call_regions selection).

(** The number and the block of mode [n] are stored. *)
Definition selected (n : Z) (m : gmap Z Z) : Prop :=
  ld 2 m (vbe_selected_mode_number f) = n ∧ block_of n = Some (ld_bytes m (vbe_selected_mode f) 256).
Lemma selected_keeps n m m' : keeps call_regions m m' → selected n m → selected n m'.
Proof.
  intros Hk [<- Hblock]. destruct Hnum as [_ Hn], Hsel as [_ Hs]. cbn [fst snd] in *.
  assert (Ha : ∀ r, r ∈ selection → Forall (λ q, apart q r) call_regions).
  { intros r Hr. apply Forall_forall. intros q Hq. by apply (apart_each _ _ _ _ Hsel2). }
  assert (Hn' : ld 2 m' (vbe_selected_mode_number f) = ld 2 m (vbe_selected_mode_number f)).
  { apply (keeps_ld call_regions); [done|done|]. apply Ha. left. }
  split; [done|]. rewrite Hblock. f_equal. symmetry.
  apply (keeps_ld_bytes call_regions); [done|done|]. apply Ha. right. left.
Qed.

Lemma store_selection_run i n m :
  modes_in (mem m) → ms !! i = Some n → block_of n = Some (ld_bytes (mem m) (l_info f) 256) →
  ∃ m', (modes ← rd32 (vbe_video_modes f);
         mode ← rd16 (u32 (modes + 2 * Z.of_nat i));
         wr16 (vbe_selected_mode_number f) mode;;
         bl_memcpy (vbe_selected_mode f) (l_info f) sizeof_vbe_mode_info_block) m = Some (vbe_selected_mode f, set_mem m' m) ∧
    keeps selection (mem m) m' ∧ selected n m'.
Proof.
  intros (_ & Hm & Hl) Hn Hblock. destruct modes_spaces as (_ & _ & H3), Hnum as [_ Hn'], Hsel as [Hs0 Hs].
  pose proof (lookup_lt_Some _ _ _ Hn). pose proof (Forall_lookup_1 _ _ _ _ Hms Hn) as Hrange. cbv beta in Hrange.
  cbn [fst snd] in *.
  assert (Hd1 : apart (vbe_selected_mode_number f, 2) (vbe_selected_mode f, 256)).
  { apply (separate_apart selection 0 1); [done|lia|done..]. }
  assert (Hd2 : apart (l_info f, 256) (vbe_selected_mode_number f, 2)).
  { apply (apart_each _ _ _ _ Hsel2); [right; right; left|left]. }
  set (m1 := st 2 (mem m) (vbe_selected_mode_number f) n).
  exists (st_bytes m1 (vbe_selected_mode f) (ld_bytes m1 (l_info f) 256)).
  assert (Hinf : ld_bytes m1 (l_info f) 256 = ld_bytes (mem m) (l_info f) 256).
  { apply ld_bytes_st_other; unfold apart, disjoint in *; cbn [fst snd] in *; [done|done|lia]. }
  split; [|split].
  - unfold rd32, rd16, wr16, gets, modify, with_mem. unfold mbind, ST_bind. cbv beta iota.
    rewrite Hm, u32_small, (Hl i n Hn) by (unfold in_space in H3; lia). fold m1.
    rewrite bl_memcpy_run by (done || unfold in_space in *; lia). by rewrite mem_set_mem, set_mem_set_mem.
  - apply (keeps_trans _ _ m1).
    + apply (keeps_st_in _ _ _ 2 _ _ (vbe_selected_mode_number f, 2)); [apply keeps_refl|done|left|cbn; lia..].
    + eapply keeps_weaken; [apply keeps_st_bytes; by rewrite length_ld_bytes|].
      rewrite length_ld_bytes. unfold selection. sublist.
  - split.
    + rewrite ld_st_bytes_other by field_side. unfold m1. rewrite (ld_st_same 2) by done.
      change (256 ^ Z.of_nat 2) with 65536. apply Z.mod_small. lia.
    + rewrite Hblock, Hinf. f_equal. symmetry.
      pose proof (ld_bytes_st_bytes_in m1 (vbe_selected_mode f) (ld_bytes (mem m) (l_info f) 256)) as E.
      rewrite length_ld_bytes in E. apply E; [done|apply bytes_ld_bytes].
Qed.

(** C16: [bl_vbe_set_video] selects the first mode of the list, in its order, that
    the BIOS knows and that is 1024x768, in colour, graphical, with a linear frame
    buffer and 5:6:5 direct colours.  That mode is then set (with a linear frame
    buffer, bit 14), its number and its block are stored for [bl_vbe_get_info], and
    memory other than these, the locals and the BIOS's own stays as it was.  Without
    such a mode the result is [BL_STATUS_UNSUPPORTED] and the mode of the screen
    remains. *)
Theorem vbe_set_video_selects m d :
  modes_in (mem m) →
  wp (bl_vbe_set_video int f) (λ status t,
    t.1 = set_mem (mem t.1) m ∧ keeps (call_regions ++ selection) (mem m) (mem t.1) ∧
    match list_find acceptable ms with
    | Some (_, n) => status = BL_STATUS_SUCCESS ∧ mode_now t.2 = 0x4000 + n ∧
        selected n (mem t.1)
    | None => status = BL_STATUS_UNSUPPORTED ∧ mode_now t.2 = mode_now d
    end) (m, d).
Proof.
  intros Hin. pose proof Hin as (_ & Hm & _). unfold bl_vbe_set_video.
  assert (Hr : on_machine (rd32 (vbe_video_modes f)) (m, d) = Some (p, (m, d))).
  { apply on_machine_run. unfold rd32, gets. by rewrite Hm. }
  wp_known Hr. unfold is_null, NULL. destruct (Z.eqb_spec p 0) as [|_]; [done|]. apply wp_bind.
  eapply wp_mono; [exact (find_mode_run (m, d) Hin)|]. cbv beta. intros o [m1 d1] [(Hm1 & Hk1 & Hd1) Ho'].
  cbn [fst snd] in *. destruct (list_find acceptable ms) as [[i n]|] eqn:Hfind.
  - destruct Ho' as [-> Hblock]. apply list_find_Some in Hfind as (Hn & _ & _).
    pose proof (Forall_lookup_1 _ _ _ _ Hms Hn) as Hrange. cbv beta in Hrange.
    destruct (store_selection_run i n m1 (modes_in_keeps _ _ Hk1 Hin) Hn Hblock) as (m2 & Hstore & Hk2 & Hs2).
    rewrite wp_run. apply (on_machine_run _ _ _ _ d1) in Hstore.
    destruct (set_mode_run n (set_mem m2 m1) d1 Hrange) as (m3 & d3 & Hset & Hk3 & Hd3); [by rewrite Hblock|].
    destruct (set_display_start_run (set_mem m3 m1) d3) as (m4 & d4 & Hstart & Hk4 & Hd4).
    rewrite mem_set_mem in Hk3, Hk4.
    exists BL_STATUS_SUCCESS, (set_mem m4 m1, d4). split.
    + run_with Hstore. unfold rd16. run_with (on_machine_run (gets (λ s, ld 2 (mem s) (vbe_selected_mode_number f))) n
        (set_mem m2 m1) (set_mem m2 m1) d1 ltac:(unfold gets; by rewrite mem_set_mem, (proj1 Hs2))).
      run_with Hset. rewrite failed_success, set_mem_set_mem. run_with Hstart. by rewrite set_mem_set_mem.
    + cbn [fst snd]. rewrite mem_set_mem. split; [by rewrite Hm1, set_mem_set_mem|]. split.
      * do 3 (eapply keeps_trans; [|eapply keeps_weaken; [eassumption|sublist]]). eapply keeps_weaken; [done|sublist].
      * split; [done|]. split; [congruence|]. eapply selected_keeps; [done|]. by eapply selected_keeps.
  - subst o. apply wp_ret. split; [done|]. split; [|done]. eapply keeps_weaken; [done|sublist].
Qed.
End Driver.

(** ** A BIOS with the modes 0x101, of 640x480, and 0x117, on the memory of the
    example. *)
Definition toy_mode (w h : Z) : list Z :=
  foldl patch (replicate 256 0) [(0%nat, [0x99]); (18%nat, le_split 2 w); (20%nat, le_split 2 h); (25%nat, [16]);
    (27%nat, [6]); (31%nat, [5]); (33%nat, [6]); (35%nat, [5])].
Definition toy_block (n : Z) : option (list Z) :=
  if n =? 0x101 then Some (toy_mode 640 480) else if n =? 0x117 then Some (toy_mode 1024 768) else None.
Definition toy_result (r : bios_registers) (ok : bool) : bios_registers :=
  BiosRegisters (r_edi r) (r_esi r) (r_gs r) (r_fs r) (r_es r) 0 (r_eflags r)
    (r_eax r - u16 (r_eax r) + if ok then 0x4f else 0x14f) (r_ebx r) (r_ecx r) (r_edx r).
Definition toy_vesa : bios Z := λ _ r m mode,
  if u16 (r_eax r) =? 0x4f01 then
    match toy_block (u16 (r_ecx r)) with
    | Some b => (toy_result r true, (st_bytes m (16 * r_es r + u16 (r_edi r)) b, mode))
    | None => (toy_result r false, (m, mode))
    end
  else if u16 (r_eax r) =? 0x4f02 then
    match toy_block (Z.land (r_ebx r) 0x1ff) with
    | Some _ => (toy_result r true, (m, u16 (r_ebx r)))
    | None => (toy_result r false, (m, mode))
    end
  else (toy_result r true, (m, mode)).

Lemma toy_block_bytes n b : toy_block n = Some b → length b = 256%nat ∧ bytes b.
Proof.
  unfold toy_block. destruct (n =? 0x101); [|destruct (n =? 0x117)]; intros [= <-];
    (split; [done|apply (bool_decide_unpack _); by vm_compute]).
Qed.
Lemma toy_result_ax r ok : u16 (r_eax (toy_result r ok)) = if ok then 0x4f else 0x14f.
Proof. unfold toy_result. cbn [r_eax]. destruct ok; word_lia. Qed.
Lemma toy_result_high r ok : u32 (r_eax (toy_result r ok)) / 65536 = u32 (r_eax r) / 65536.
Proof. unfold toy_result. cbn [r_eax]. destruct ok; word_lia. Qed.

#[export] Instance toy_vesa_bios : VesaBios toy_vesa toy_block id [].
Proof.
  split; intros r m d H; unfold toy_vesa; rewrite H; cbn [Z.eqb Pos.eqb].
  - intros Hp. destruct (toy_block (u16 (r_ecx r))) as [b|] eqn:E.
    + destruct (toy_block_bytes _ _ E) as [Hl Hb]. split; [done|]. split; [done|]. split.
      * pose proof (keeps_st_bytes m (16 * r_es r + u16 (r_edi r)) b) as Hk. rewrite Hl in Hk. by apply Hk.
      * rewrite toy_result_ax. split; [done|].
        pose proof (ld_bytes_st_bytes_in m (16 * r_es r + u16 (r_edi r)) b) as Hk. rewrite Hl in Hk. by apply Hk.
    + rewrite toy_result_ax. split; [done|]. split; [done|]. by split; [apply keeps_refl|].
  - destruct (toy_block _); rewrite toy_result_ax, toy_result_high; do 3 (split; [done|]); by split.
  - rewrite toy_result_ax. by repeat (split; [done|]).
Qed.

Definition toy_vbe : vbe_frame := VbeFrame 0x2020 0x2000 0x2010 0x2030 0x2100 0x3000 0x3040 0x3100 0x3200 0x5000.
Definition toy_modes : list Z := [0x101; 0x117].
Definition toy_memory : gmap Z Z :=
  st 2 (st 2 (st 4 (st 4 ∅ 0x2000 2) 0x2010 0x4000) 0x4000 0x101) 0x4002 0x117.

Lemma vbe_set_video_selects_witness :
  modes_in toy_vbe toy_modes 0x4000 toy_memory ∧
  wp (bl_vbe_set_video toy_vesa toy_vbe) (λ status t, status = BL_STATUS_SUCCESS ∧ t.2 = 0x4117) (set_mem toy_memory machine0, 3).
Proof.
  assert (Hin : modes_in toy_vbe toy_modes 0x4000 toy_memory).
  { split; [by vm_compute|]. split; [by vm_compute|]. intros [|[|i]] n Hn; [injection Hn as <-; by vm_compute..|done]. }
  split; [done|].
  eapply wp_mono; [apply (vbe_set_video_selects toy_vesa toy_block id [] toy_vbe) with (ms := toy_modes) (p := 0x4000)|].
  all: unfold call_regions, selection, modes_regions; try concrete_regions; try done.
  - by repeat constructor.
  - intros x t (_ & _ & H). change (list_find _ toy_modes) with (Some (1%nat, 0x117)) in H.
    destruct H as (Hs & Hd & _). by split.
Defined.
