(* ===== verification/Pci.v ===== *)
(** * The PCI bus: core/bus/pci/pci.c, include/pci/pci.h *)
From Stdlib Require Import String.
From S2P Require Import Prelude Memory Arith Status Strings Print Ports.
#[local] Open Scope Z_scope.

Definition BL_PCI_CONFIG_REG_VENDOR_ID : Z := 0x00.
Definition BL_PCI_CONFIG_REG_DEVICE_ID : Z := 0x02.
Definition BL_PCI_CONFIG_REG_PROG_IF : Z := 0x09.
Definition BL_PCI_CONFIG_REG_SUBCLASS : Z := 0x0a.
Definition BL_PCI_CONFIG_REG_BASECLASS : Z := 0x0b.
Definition BL_PCI_CONFIG_REG_HEADER_TYPE : Z := 0x0e.
Definition BL_PCI_NBUSES : Z := 256.
Definition BL_PCI_NDEVICES : Z := 32.
Definition BL_PCI_NFUNCTIONS : Z := 8.
Definition BL_PCI_CONFIG_ADDRESS : Z := 0xcf8.
Definition BL_PCI_CONFIG_DATA : Z := 0xcfc.

Definition BL_PCI_MAKE_CONFIG_ADDRESS (bus dev func reg : Z) : Z :=
  u32 (Z.lor (Z.lor (Z.lor (Z.lor (Z.shiftl 1 31) (Z.shiftl bus 16)) (Z.shiftl dev 11))
         (Z.shiftl func 8)) reg).

Record bl_pci_index := PciIndex { bus : Z; dev : Z; func : Z }.

Section Pci.
Context {Dev : Type} (io : ports Dev).

Definition bl_pci_read_config_byte (i : bl_pci_index) (reg : Z) : D Dev Z :=
  bl_outl io (BL_PCI_MAKE_CONFIG_ADDRESS (u8 (bus i)) (u8 (dev i)) (u8 (func i)) reg)
    BL_PCI_CONFIG_ADDRESS;;
  bl_inb io (BL_PCI_CONFIG_DATA + Z.land reg 3).

Definition bl_pci_read_config_word (i : bl_pci_index) (reg : Z) : D Dev Z :=
  bl_outl io (BL_PCI_MAKE_CONFIG_ADDRESS (u8 (bus i)) (u8 (dev i)) (u8 (func i)) reg)
    BL_PCI_CONFIG_ADDRESS;;
  bl_inw io (BL_PCI_CONFIG_DATA + Z.land reg 2).

Definition bl_pci_read_config_long (i : bl_pci_index) (reg : Z) : D Dev Z :=
  bl_outl io (BL_PCI_MAKE_CONFIG_ADDRESS (u8 (bus i)) (u8 (dev i)) (u8 (func i)) reg)
    BL_PCI_CONFIG_ADDRESS;;
  bl_inl io BL_PCI_CONFIG_DATA.

Definition dump_field (name : string) (v : Z) : D Dev () :=
  on_machine (print_literal name;; bl_print_hex v).

Definition bl_pci_dump_device (i : bl_pci_index) : D Dev () :=
  vendor ← bl_pci_read_config_word i BL_PCI_CONFIG_REG_VENDOR_ID;
  device_id ← bl_pci_read_config_word i BL_PCI_CONFIG_REG_DEVICE_ID;
  class ← bl_pci_read_config_byte i BL_PCI_CONFIG_REG_BASECLASS;
  subclass ← bl_pci_read_config_byte i BL_PCI_CONFIG_REG_SUBCLASS;
  prog_if ← bl_pci_read_config_byte i BL_PCI_CONFIG_REG_PROG_IF;
  dump_field "Vendor: " vendor;;
  dump_field "  Device id: " device_id;;
  dump_field "  Class: " class;;
  dump_field "  Subclass: " subclass;;
  dump_field "  PROG-IF: " prog_if;;
  on_machine (emit 10).

(** The functions of one device, from [func] on: the hook runs on every
    function that answers; a single-function device has only function 0. *)
Definition discover_functions (hook : option (bl_pci_index → D Dev Status.bl_status_t)) (dump : bool)
    (b d : Z) : D Dev () :=
  mwhile (λ f,
    if f <? BL_PCI_NFUNCTIONS then
      let i := PciIndex b d f in
      vendor ← bl_pci_read_config_word i BL_PCI_CONFIG_REG_VENDOR_ID;
      if vendor =? 0xffff then continue (f + 1)
      else
        (if dump then bl_pci_dump_device i else mret ());;
        (match hook with Some h => h i;; mret () | None => mret () end);;
        if f =? 0 then
          header ← bl_pci_read_config_byte i BL_PCI_CONFIG_REG_HEADER_TYPE;
          if truth (Z.land header 0x80) then continue (f + 1) else break ()
        else continue (f + 1)
    else break ()) 0.

Definition bl_pci_discover_devices (hook : option (bl_pci_index → D Dev Status.bl_status_t))
    (dump : bool) : D Dev () :=
  mwhile (λ b,
    if b <? BL_PCI_NBUSES then
      mwhile (λ d,
        if d <? BL_PCI_NDEVICES then discover_functions hook dump b d;; continue (d + 1)
        else break ()) 0;;
      continue (b + 1)
    else break ()) 0.

Definition bl_pci_iterate_devices (hook : option (bl_pci_index → D Dev Status.bl_status_t)) : D Dev () :=
  bl_pci_discover_devices hook false.
Definition bl_pci_dump_devices : D Dev () := bl_pci_discover_devices None true.

(** One test of [bl_pci_check_device_class]: -1 matches everything. *)
Definition check_class (i : bl_pci_index) (want reg : Z) : D Dev bool :=
  if want =? -1 then mret true
  else v ← bl_pci_read_config_byte i reg; mret (want =? v).

Definition bl_pci_check_device_class (i : bl_pci_index) (class subclass interface : Z) :
    D Dev bl_status_t :=
  ok ← check_class i class BL_PCI_CONFIG_REG_BASECLASS;
  if negb ok then mret BL_STATUS_FAILURE
  else
    ok ← check_class i subclass BL_PCI_CONFIG_REG_SUBCLASS;
    if negb ok then mret BL_STATUS_FAILURE
    else
      ok ← check_class i interface BL_PCI_CONFIG_REG_PROG_IF;
      mret (if negb ok then BL_STATUS_FAILURE else BL_STATUS_SUCCESS).
End Pci.
