(* ===== verification/PciProofs.v ===== *)
(** * Proofs about the PCI bus: configuration addresses and the enumeration of
    the functions that answer. *)
From S2P Require Import Prelude Memory Arith Status Strings Print Ports Pci.

(** ** Configuration addresses *)

(** The place of a function on the bus, as the header's drawing gives it. *)
Definition on_bus (i : bl_pci_index) : Prop :=
  0 <= bus i < BL_PCI_NBUSES ∧ 0 <= dev i < BL_PCI_NDEVICES ∧ 0 <= func i < BL_PCI_NFUNCTIONS.

Definition config_address (i : bl_pci_index) (reg : Z) : Z :=
  BL_PCI_MAKE_CONFIG_ADDRESS (u8 (bus i)) (u8 (dev i)) (u8 (func i)) reg.

(** The drawing read back: enable, reserved, bus, device, function, register. *)
Definition address_enable (a : Z) : Z := Z.shiftr a 31.
Definition address_reserved (a : Z) : Z := Z.land (Z.shiftr a 24) 0x7f.
Definition address_index (a : Z) : bl_pci_index :=
  PciIndex (Z.land (Z.shiftr a 16) 0xff) (Z.land (Z.shiftr a 11) 0x1f) (Z.land (Z.shiftr a 8) 7).
Definition address_reg (a : Z) : Z := Z.land a 0xff.

Lemma config_address_value i reg :
  on_bus i → 0 <= reg < 256 →
  config_address i reg = 2147483648 + 65536 * bus i + 2048 * dev i + 256 * func i + reg.
Proof.
  intros (Hb & Hd & Hf) Hr. unfold BL_PCI_NBUSES, BL_PCI_NDEVICES, BL_PCI_NFUNCTIONS in *.
  unfold config_address, BL_PCI_MAKE_CONFIG_ADDRESS. rewrite !u8_small by lia.
  assert (E : Z.lor (Z.lor (Z.lor (Z.lor (Z.shiftl 1 31) (Z.shiftl (bus i) 16)) (Z.shiftl (dev i) 11))
      (Z.shiftl (func i) 8)) reg =
    Z.lor (Z.shiftl (Z.lor (Z.shiftl (Z.lor (Z.shiftl (Z.lor (Z.shiftl 1 15) (bus i)) 5) (dev i)) 3) (func i)) 8) reg).
  { rewrite !Z.shiftl_lor, !Z.shiftl_shiftl by lia. done. }
  rewrite E, !lor_shiftl_add; change (2 ^ 15) with 32768; change (2 ^ 5) with 32; change (2 ^ 3) with 8;
    change (2 ^ 8) with 256; try lia.
  rewrite u32_small; lia.
Qed.

Lemma land_ones_7 x : Z.land x 7 = x mod 8.
Proof. change 7 with (Z.ones 3). by rewrite Z.land_ones. Qed.
Lemma land_ones_31 x : Z.land x 0x1f = x mod 32.
Proof. change 0x1f with (Z.ones 5). by rewrite Z.land_ones. Qed.
Lemma land_ones_127 x : Z.land x 0x7f = x mod 128.
Proof. change 0x7f with (Z.ones 7). by rewrite Z.land_ones. Qed.

Lemma address_index_value a :
  address_index a = PciIndex (a / 65536 mod 256) (a / 2048 mod 32) (a / 256 mod 8).
Proof.
  unfold address_index. rewrite land_255, land_ones_31, land_ones_7, !Z.shiftr_div_pow2 by lia. done.
Qed.

Lemma address_decode i reg :
  on_bus i → 0 <= reg < 256 → address_index (config_address i reg) = i ∧ address_reg (config_address i reg) = reg.
Proof.
  intros Hi Hr. rewrite address_index_value. unfold address_reg. rewrite land_255, config_address_value by done.
  destruct i as [b d f]. destruct Hi as (Hb & Hd & Hf). cbn [bus dev func] in *.
  unfold BL_PCI_NBUSES, BL_PCI_NDEVICES, BL_PCI_NFUNCTIONS in *.
  set (a := 2147483648 + 65536 * b + 2048 * d + 256 * f + reg).
  assert (E1 : a / 65536 = 32768 + b) by (symmetry; apply (Z.div_unique_pos _ _ _ (2048 * d + 256 * f + reg)); lia).
  assert (E2 : a / 2048 = 1048576 + 32 * b + d) by (symmetry; apply (Z.div_unique_pos _ _ _ (256 * f + reg)); lia).
  assert (E3 : a / 256 = 8388608 + 256 * b + 8 * d + f) by (symmetry; apply (Z.div_unique_pos _ _ _ reg); lia).
  rewrite E1, E2, E3. split; [f_equal|unfold a]; word_lia.
Qed.

(** ** The bus as the enumeration sees it

    What hardware answers at the two registers the enumeration reads: [vendor]
    and [header] of every function.  An access may change the device, but not
    [view], the part of it that the hook works on. *)
Class ConfigSpace {Dev T : Type} (io : ports Dev) (vendor header : bl_pci_index → Z) (view : Dev → T) :=
  ConfigSpaceLaws {
    config_vendor i d : on_bus i →
      let '(v, d') := in16 io (BL_PCI_CONFIG_DATA + Z.land BL_PCI_CONFIG_REG_VENDOR_ID 2)
                        (out32 io (u32 (config_address i BL_PCI_CONFIG_REG_VENDOR_ID)) BL_PCI_CONFIG_ADDRESS d) in
      u16 v = vendor i ∧ view d' = view d;
    config_header i d : on_bus i →
      let '(v, d') := in8 io (BL_PCI_CONFIG_DATA + Z.land BL_PCI_CONFIG_REG_HEADER_TYPE 3)
                        (out32 io (u32 (config_address i BL_PCI_CONFIG_REG_HEADER_TYPE)) BL_PCI_CONFIG_ADDRESS d) in
      u8 v = header i ∧ view d' = view d;
  }.

Section Discovery.
Context {Dev T : Type} (io : ports Dev) (vendor header : bl_pci_index → Z) (view : Dev → T).
Context `{Hcs : !ConfigSpace io vendor header view}.
Context (h : bl_pci_index → D Dev Status.bl_status_t) (step : bl_pci_index → T → T).

(** The reference: the functions that answer, in the order of their address; a
    function 0 that answers without the multi-function bit hides the others. *)
Definition answers (i : bl_pci_index) : bool := negb (vendor i =? 0xffff).
Definition single (b d : Z) : bool :=
  answers (PciIndex b d 0) && negb (truth (Z.land (header (PciIndex b d 0)) 0x80)).

Definition functions_to (b d n : Z) : list bl_pci_index :=
  filter (λ i, answers i = true ∧ (func i = 0 ∨ single b d = false)) (PciIndex b d <$> seqZ 0 n).
Definition device_functions (b d : Z) : list bl_pci_index := functions_to b d BL_PCI_NFUNCTIONS.
Definition devices_to (b n : Z) : list bl_pci_index := flat_map (device_functions b) (seqZ 0 n).
Definition buses_to (n : Z) : list bl_pci_index :=
  flat_map (λ b, devices_to b BL_PCI_NDEVICES) (seqZ 0 n).
Definition pci_functions : list bl_pci_index := buses_to BL_PCI_NBUSES.

(** What the hook does, as far as the enumeration is concerned. *)
Definition hook_steps : Prop :=
  ∀ i m d, on_bus i → ∃ st d', h i (m, d) = Some (st, (m, d')) ∧ view d' = step i (view d).

(** The state after the hook has run on the functions [l]. *)
Definition ran (l : list bl_pci_index) (m : machine) (t : T) (s : machine * Dev) : Prop :=
  s.1 = m ∧ view s.2 = foldl (λ t i, step i t) t l.

Lemma ran_snoc l i m t m' d' :
  m' = m → view d' = step i (foldl (λ t i, step i t) t l) → ran (l ++ [i]) m t (m', d').
Proof. intros -> Hd. split; [done|]. by rewrite foldl_app. Qed.

Lemma read_vendor i m d :
  on_bus i → ∃ d', bl_pci_read_config_word io i BL_PCI_CONFIG_REG_VENDOR_ID (m, d) = Some (vendor i, (m, d')) ∧
    view d' = view d.
Proof using Hcs.
  intros Hi. pose proof (config_vendor i d Hi) as H. unfold bl_pci_read_config_word.
  fold (config_address i BL_PCI_CONFIG_REG_VENDOR_ID).
  unfold bl_outl, bl_inw, output, input, mbind, ST_bind. cbn [fst snd].
  destruct (in16 io _ _) as [v d'] eqn:E. destruct H as [<- Hv]. eauto.
Qed.

Lemma read_header i m d :
  on_bus i → ∃ d', bl_pci_read_config_byte io i BL_PCI_CONFIG_REG_HEADER_TYPE (m, d) = Some (header i, (m, d')) ∧
    view d' = view d.
Proof using Hcs.
  intros Hi. pose proof (config_header i d Hi) as H. unfold bl_pci_read_config_byte.
  fold (config_address i BL_PCI_CONFIG_REG_HEADER_TYPE).
  unfold bl_outl, bl_inb, output, input, mbind, ST_bind. cbn [fst snd].
  destruct (in8 io _ _) as [v d'] eqn:E. destruct H as [<- Hv]. eauto.
Qed.

Lemma ran_view l m t d d' : ran l m t (m, d) → view d' = view d → ran l m t (m, d').
Proof. intros [_ Hv] Hd. split; [done|]. cbn [snd] in *. by rewrite Hd. Qed.

Lemma functions_to_snoc b d n :
  0 <= n → functions_to b d (n + 1) =
    functions_to b d n ++
    (if decide (answers (PciIndex b d n) = true ∧ (n = 0 ∨ single b d = false)) then [PciIndex b d n] else []).
Proof.
  intros Hn. unfold functions_to. rewrite seqZ_app, fmap_app, filter_app by lia. by f_equal.
Qed.

Lemma single_only b d n : 0 < n → single b d = true → functions_to b d n = functions_to b d 1.
Proof.
  intros Hn Hs. rewrite <- (Z2Nat.id n) by lia. assert (Hk : (0 < Z.to_nat n)%nat) by lia. revert Hk.
  generalize (Z.to_nat n) as k. intros k Hk. induction k as [|[|k] IH]; [lia|done|].
  rewrite (Nat2Z.inj_succ (S k)), <- Z.add_1_r, functions_to_snoc, IH by lia. rewrite Hs.
  destruct (decide _) as [[_ [?|?]]|]; [lia|done|by rewrite app_nil_r].
Qed.

(** The loop over the functions of a device. *)
Lemma discover_functions_run b d l m t s :
  hook_steps → 0 <= b < BL_PCI_NBUSES → 0 <= d < BL_PCI_NDEVICES → ran l m t s →
  wp (discover_functions io (Some h) false b d) (λ _ s', ran (l ++ device_functions b d) m t s') s.
Proof using Hcs.
  intros Hh Hb Hd Hs. unfold discover_functions, device_functions.
  wp_loop (λ f s, 0 <= f <= BL_PCI_NFUNCTIONS ∧ (single b d = true → f = 0) ∧
      ran (l ++ functions_to b d f) m t s) (λ f _, BL_PCI_NFUNCTIONS - f);
    [|split; [done|]; split; [done|]; by rewrite app_nil_r|unfold BL_PCI_NFUNCTIONS; lia].
  intros f [m' dv] (Hf & Hsingle & Hran). pose proof Hran as [Hm' _]. cbn [fst] in Hm'. subst m'.
  destruct (Z.ltb_spec f BL_PCI_NFUNCTIONS); cycle 1.
  { wp_step. by replace BL_PCI_NFUNCTIONS with f by lia. }
  assert (Hi : on_bus (PciIndex b d f)) by (unfold on_bus; cbn; lia).
  wp_step. apply wp_run. destruct (read_vendor (PciIndex b d f) m dv Hi) as (d1 & Hv & Hview).
  eexists _, _. split; [exact Hv|]. pose proof (ran_view _ _ _ _ _ Hran Hview) as Hran1.
  pose proof (functions_to_snoc b d f ltac:(lia)) as Hsnoc.
  destruct (vendor (PciIndex b d f) =? 65535) eqn:Ev.
  - assert (Ha : answers (PciIndex b d f) = false) by (unfold answers; by rewrite Ev).
    wp_step. rewrite Hsnoc, Ha, decide_False, app_nil_r by (intros [? _]; done).
    split; [|lia]. split; [lia|]. split; [|done]. intros Hsi. specialize (Hsingle Hsi). subst f.
    unfold single in Hsi. by rewrite Ha in Hsi.
  - assert (Ha : answers (PciIndex b d f) = true) by (unfold answers; by rewrite Ev).
    rewrite Ha, decide_True in Hsnoc; cycle 1.
    { split; [done|]. destruct (single b d) eqn:Es; [left; by apply Hsingle|by right]. }
    wp_steps. apply wp_run. destruct (Hh (PciIndex b d f) m d1 Hi) as (st & d2 & Hhook & Hview2).
    eexists _, _. split; [exact Hhook|]. wp_steps.
    assert (Hran2 : ran (l ++ functions_to b d (f + 1)) m t (m, d2)).
    { rewrite Hsnoc, app_assoc. apply ran_snoc; [done|]. destruct Hran1 as [_ Hr]. cbn [snd] in Hr.
      by rewrite Hview2, Hr. }
    destruct (Z.eqb_spec f 0) as [->|Hf0]; cycle 1.
    { wp_step. split; [|lia]. split; [lia|]. split; [|done]. intros Hsi. by specialize (Hsingle Hsi). }
    wp_step. apply wp_run. destruct (read_header (PciIndex b d 0) m d2 Hi) as (d3 & Hhd & Hview3).
    eexists _, _. split; [exact Hhd|]. pose proof (ran_view _ _ _ _ _ Hran2 Hview3) as Hran3.
    destruct (truth (Z.land (header (PciIndex b d 0)) 128)) eqn:Eh; wp_step.
    + split; [|lia]. split; [done|]. split; [|done]. intros Hsi. unfold single in Hsi.
      by rewrite Eh, andb_false_r in Hsi.
    + rewrite single_only; [exact Hran3|done|]. unfold single. by rewrite Ha, Eh.
Qed.

Lemma flat_map_snoc {B} (g : Z → list B) n :
  0 <= n → flat_map g (seqZ 0 (n + 1)) = flat_map g (seqZ 0 n) ++ g n.
Proof.
  intros Hn. rewrite seqZ_app, flat_map_app by lia. f_equal. simpl. by rewrite app_nil_r.
Qed.

Lemma discover_devices_run m t s :
  hook_steps → ran [] m t s →
  wp (bl_pci_discover_devices io (Some h) false) (λ _ s', ran pci_functions m t s') s.
Proof using Hcs.
  intros Hh Hs. unfold bl_pci_discover_devices, pci_functions.
  apply (wp_mwhile _ (λ b s, 0 <= b <= BL_PCI_NBUSES ∧ ran (buses_to b) m t s) _
    (λ b _, BL_PCI_NBUSES - b)); [|done|done].
  intros b sb [Hb Hran]. destruct (Z.ltb_spec b BL_PCI_NBUSES); cycle 1.
  { wp_step. by replace BL_PCI_NBUSES with b by lia. }
  wp_step. eapply wp_mono.
  - apply (wp_count (discover_functions io (Some h) false b) BL_PCI_NDEVICES
      (λ d s, ran (buses_to b ++ devices_to b d) m t s)); [done| |by rewrite app_nil_r].
    intros d sd Hd Hr. unfold devices_to. rewrite flat_map_snoc, app_assoc by lia.
    apply discover_functions_run; [done|lia|done|exact Hr].
  - intros [] sd Hr. cbv beta in *. wp_step. unfold buses_to. rewrite flat_map_snoc by lia.
    split; [|lia]. split; [lia|done].
Qed.
End Discovery.

(** ** Properties *)

(** [BL_PCI_MAKE_CONFIG_ADDRESS] packs a function of the bus and a register
    into distinct fields: read back as the header draws them, enable is 1, the
    reserved bits are 0, and bus, device, function and register are the ones
    asked for.  The two lowest bits are those of the register and not 0. *)
Theorem config_address_roundtrip i reg :
  on_bus i → 0 <= reg < 256 →
  let a := BL_PCI_MAKE_CONFIG_ADDRESS (u8 (bus i)) (u8 (dev i)) (u8 (func i)) reg in
  0 <= a < 4294967296 ∧ address_enable a = 1 ∧ address_reserved a = 0 ∧ address_index a = i ∧
  address_reg a = reg ∧ Z.land a 3 = Z.land reg 3.
Proof.
  intros Hi Hr a. change a with (config_address i reg).
  destruct (address_decode i reg Hi Hr) as [Hidx Hreg]. rewrite Hidx, Hreg.
  assert (Hlow : Z.land (config_address i reg) 3 = Z.land reg 3).
  { change 3 with (Z.land 0xff 3) at 1. rewrite Z.land_assoc. unfold address_reg in Hreg. by rewrite Hreg. }
  pose proof (config_address_value i reg Hi Hr) as Hv. destruct Hi as (Hb & Hd & Hf).
  unfold BL_PCI_NBUSES, BL_PCI_NDEVICES, BL_PCI_NFUNCTIONS in *.
  split; [lia|]. unfold address_enable, address_reserved. rewrite land_ones_127, !Z.shiftr_div_pow2 by lia.
  change (2 ^ 31) with 2147483648. change (2 ^ 24) with 16777216.
  split; [symmetry; apply (Z.div_unique_pos _ _ _ (config_address i reg - 2147483648)); lia|].
  split; [|done].
  replace (config_address i reg / 16777216) with 128; [done|].
  apply (Z.div_unique_pos _ _ _ (config_address i reg - 2147483648)); lia.
Qed.

Lemma config_address_roundtrip_witness :
  let i := PciIndex 3 28 5 in
  let a := BL_PCI_MAKE_CONFIG_ADDRESS (u8 (bus i)) (u8 (dev i)) (u8 (func i)) 0x0a in
  0 <= a < 4294967296 ∧ address_enable a = 1 ∧ address_reserved a = 0 ∧ address_index a = i ∧
  address_reg a = 0x0a ∧ Z.land a 3 = Z.land 0x0a 3.
Proof. apply (config_address_roundtrip (PciIndex 3 28 5) 0x0a); [by vm_compute|lia]. Defined.

(** C18: [bl_pci_iterate_devices] ends and runs its hook once on every function
    of the bus that answers, in the order of their addresses, and on no other;
    the functions above 0 of a device whose function 0 answers without the
    multi-function bit are passed over. *)
Theorem pci_enumerates {Dev T : Type} (io : ports Dev) (vendor header : bl_pci_index → Z) (view : Dev → T)
    (h : bl_pci_index → D Dev bl_status_t) (step : bl_pci_index → T → T) m d :
  ConfigSpace io vendor header view → hook_steps view h step →
  ∃ d', bl_pci_iterate_devices io (Some h) (m, d) = Some ((), (m, d')) ∧
    view d' = foldl (λ t i, step i t) (view d) (pci_functions vendor header).
Proof.
  intros Hcs Hh.
  assert (H : wp (bl_pci_iterate_devices io (Some h))
                (λ _ s', ran view step (pci_functions vendor header) m (view d) s') (m, d)).
  { by apply discover_devices_run. }
  apply wp_run in H as ([] & [m' d'] & Hrun & Hm & Hv). cbn [fst snd] in *. subst m'. eauto.
Qed.

(** A bus with a host bridge and a three-function device, and a hook that notes
    the functions it is run on. *)
Record example_bus := Bus { selected : Z; found : list bl_pci_index }.

Definition example_vendor (i : bl_pci_index) : Z :=
  if (bus i =? 0) && (((dev i =? 0) && (func i <? 2)) || ((dev i =? 31) && (func i <? 3)))
  then 0x8086 else 0xffff.
Definition example_header (i : bl_pci_index) : Z := if dev i =? 31 then 0x80 else 0.

Definition example_ports : ports example_bus := {|
  in8 p b := (example_header (address_index (selected b)), b);
  in16 p b := (example_vendor (address_index (selected b)), b);
  in32 p b := (0, b);
  out8 v p b := b;
  out16 v p b := b;
  out32 v p b := if p =? BL_PCI_CONFIG_ADDRESS then Bus v (found b) else b;
|}.

#[export] Instance example_config_space : ConfigSpace example_ports example_vendor example_header found.
Proof.
  split; intros i d Hi; simpl; (split; [|done]); rewrite u32_small.
  - rewrite (proj1 (address_decode i BL_PCI_CONFIG_REG_VENDOR_ID Hi ltac:(done))). unfold example_vendor. by destruct (_ && _).
  - rewrite config_address_value by done. destruct Hi as (? & ? & ?).
    unfold BL_PCI_NBUSES, BL_PCI_NDEVICES, BL_PCI_NFUNCTIONS, BL_PCI_CONFIG_REG_VENDOR_ID in *. lia.
  - rewrite (proj1 (address_decode i BL_PCI_CONFIG_REG_HEADER_TYPE Hi ltac:(done))). unfold example_header. by destruct (_ =? _).
  - rewrite config_address_value by done. destruct Hi as (? & ? & ?).
    unfold BL_PCI_NBUSES, BL_PCI_NDEVICES, BL_PCI_NFUNCTIONS, BL_PCI_CONFIG_REG_HEADER_TYPE in *. lia.
Qed.

Definition example_hook (i : bl_pci_index) : D example_bus bl_status_t :=
  modify (λ s, (s.1, Bus (selected s.2) (found s.2 ++ [i])));; mret BL_STATUS_SUCCESS.

Example example_functions :
  pci_functions example_vendor example_header =
  [PciIndex 0 0 0; PciIndex 0 31 0; PciIndex 0 31 1; PciIndex 0 31 2].
Proof. by vm_compute. Qed.

Lemma pci_enumerates_witness :
  ∃ d', bl_pci_iterate_devices example_ports (Some example_hook) (machine0, Bus 0 []) = Some ((), (machine0, d')) ∧
    found d' = foldl (λ t i, t ++ [i]) [] (pci_functions example_vendor example_header).
Proof.
  apply (pci_enumerates example_ports example_vendor example_header found example_hook (λ i t, t ++ [i]));
    [apply example_config_space|]. intros i m d _. by exists BL_STATUS_SUCCESS, (Bus (selected d) (found d ++ [i])).
Defined.
