(* ===== verification/Time.v ===== *)
(** * Time: arch/i386/pit/pit.c, arch/i386/pit/time.c, firmware/uefi/time.c,
    arch/i386/include/tsc.h

    The timer chip and the processor's time stamp counter are part of the
    device.  The BIOS build measures the counter's speed with channel 2 of the
    timer and then sleeps by watching the counter; the UEFI build asks the
    firmware for a timer event.  What is proved is about a processor with a
    steady counter and a chip that does what its data sheet says. *)
From S2P Require Import Prelude Memory Arith Ports.

Definition BL_PIT_CHANNEL_2_DATA_PORT : Z := 0x42.
Definition BL_PIT_COMMAND_REGISTER : Z := 0x43.
Definition BL_PIT_COMMAND_REGISTER_CHANNEL_2 : Z := Z.shiftl 2 6.
Definition BL_PIT_COMMAND_REGISTER_ACCESS_MODE_HIGH_BYTE_ONLY : Z := Z.shiftl 2 4.
Definition BL_PIT_CONTROL_PORT : Z := 0x61.
Definition BL_PIT_CONTROL_PORT_OUT2_ON : Z := 0x20.

Section Time.
Context {Dev : Type} (io : ports Dev).
(** The instruction [rdtsc]: eax, edx. *)
Context (rdtsc : Dev → (Z * Z) * Dev).

Definition bl_rdtsc : D Dev Z := λ s,
  let '((low, high), d) := rdtsc s.2 in
  Some (Z.lor (u32 low) (u64 (Z.shiftl (u32 high) 32)), (s.1, d)).

Definition bl_pit_channel2_sleep (ticks : Z) : D Dev () :=
  bl_outb io (Z.lor BL_PIT_COMMAND_REGISTER_CHANNEL_2
                BL_PIT_COMMAND_REGISTER_ACCESS_MODE_HIGH_BYTE_ONLY) BL_PIT_COMMAND_REGISTER;;
  bl_outb io (Z.land ticks 0xff) BL_PIT_CHANNEL_2_DATA_PORT;;
  bl_outb io (Z.land (Z.shiftr ticks 8) 0xff) BL_PIT_CHANNEL_2_DATA_PORT;;
  poll io BL_PIT_CONTROL_PORT (λ v, Z.land v BL_PIT_CONTROL_PORT_OUT2_ON =? 0).

(** [bl_time_setup] gives the new value of the static [ticks_per_ms]. *)
Definition bl_time_setup : D Dev Z :=
  start ← bl_rdtsc;
  bl_pit_channel2_sleep 0x9f41;;
  now ← bl_rdtsc;
  let diff := u64 (now - start) in
  mret (Z.shiftr diff 5).

Definition bl_time_sleep (ticks_per_ms ms : Z) : D Dev Z :=
  now ← bl_rdtsc;
  let end_ := u64 (now + u64 (u64 ms * ticks_per_ms)) in
  mwhile (λ _, now ← bl_rdtsc; if now <? end_ then continue () else break ()) ();;
  mret (u64 ms).
End Time.

(** The boot services that the UEFI build uses: firmware, which the repository
    does not contain. *)
Record event_services (Dev : Type) := EventServices {
  create_event : Dev → (Z * Z) * Dev;          (* status, event *)
  set_timer : Z → Z → Dev → Z * Dev;           (* event, 100 ns units *)
  wait_for_event : Z → Dev → Z * Dev;
  close_event : Z → Dev → Z * Dev;
}.
Arguments create_event {Dev}. Arguments set_timer {Dev}.
Arguments wait_for_event {Dev}. Arguments close_event {Dev}.

(** [EFI_FAILED] of uefi.h. *)
Definition EFI_FAILED (status : Z) : bool := truth (u32 status).

Definition uefi_time_sleep {Dev} (bs : event_services Dev) (ms : Z) : D Dev Z := λ s,
  let '((status, event), d) := create_event bs s.2 in
  if EFI_FAILED status then Some (0, (s.1, d))
  else
    let '(_, d) := set_timer bs event (u64 (u64 ms * 10000)) d in
    let '(status, d) := wait_for_event bs event d in
    let '(_, d) := close_event bs event d in
    if truth (u32 status) then Some (0, (s.1, d)) else Some (u64 ms, (s.1, d)).

(** ** The timer chip

    Channel 2 of an 8254, as its data sheet has it.  A control word sets how the
    count is written and the mode, and forgets the count; a count that is written
    whole is loaded, 0 standing for 65536.  [c_load] is the count and the number of
    clock pulses there were when it was written. *)
Record pit_counter := PitCounter {
  c_access : Z; c_mode : Z; c_bcd : bool; c_low : option Z; c_load : option (Z * Z); c_gate : bool;
}.

Definition control_word (v : Z) (c : pit_counter) : pit_counter :=
  let access := Z.land (Z.shiftr v 4) 3 in
  if (Z.shiftr v 6 =? 2) && negb (access =? 0)
  then PitCounter access (Z.land (Z.shiftr v 1) 7) (negb (Z.land v 1 =? 0)) None None (c_gate c)
  else c.

Definition load_count (n pulses : Z) (c : pit_counter) : pit_counter :=
  PitCounter (c_access c) (c_mode c) (c_bcd c) None (Some (if n =? 0 then 65536 else n, pulses)) (c_gate c).
Definition count_byte (v pulses : Z) (c : pit_counter) : pit_counter :=
  if c_access c =? 1 then load_count v pulses c
  else if c_access c =? 2 then load_count (256 * v) pulses c
  else match c_low c with
       | None => PitCounter (c_access c) (c_mode c) (c_bcd c) (Some v) None (c_gate c)
       | Some low => load_count (low + 256 * v) pulses c
       end.

(** The output in mode 0, counting in binary with the gate open: low until one
    pulse more than the count has come.  Nothing is said of the other modes. *)
Definition out2 (pulses : Z) (c : pit_counter) : option bool :=
  if (c_mode c =? 0) && negb (c_bcd c) && c_gate c then
    Some match c_load c with Some (n, k) => k + n + 1 <=? pulses | None => false end
  else None.

(** ** A processor clock beside it

    [now] is the number of processor cycles since the start, [cpu] of them in a
    second; the chip has had [pit_pulses] clock pulses by then.  Reading the
    counter or the chip's status takes between [lo] and [hi] cycles and a write at
    most [hi]. *)
Definition pit_hz : Z := 1193182.
Definition pit_pulses (cpu phase t : Z) : Z := (pit_hz * t + phase) / cpu.

Class Timer {Dev : Type} (io : ports Dev) (rdtsc : Dev → (Z * Z) * Dev) (now : Dev → Z) (chip : Dev → pit_counter)
    (cpu phase lo hi : Z) : Prop := TimerLaws {
  timer_rdtsc d : let '((eax, edx), d') := rdtsc d in
    u32 eax + 4294967296 * u32 edx = u64 (now d') ∧ now d + lo <= now d' <= now d + hi ∧ chip d' = chip d;
  timer_command v d : let d' := out8 io v BL_PIT_COMMAND_REGISTER d in
    now d <= now d' <= now d + hi ∧ chip d' = control_word v (chip d);
  timer_data v d : let d' := out8 io v BL_PIT_CHANNEL_2_DATA_PORT d in
    now d <= now d' <= now d + hi ∧ chip d' = count_byte v (pit_pulses cpu phase (now d')) (chip d);
  timer_status d : let '(v, d') := in8 io BL_PIT_CONTROL_PORT d in
    now d + lo <= now d' <= now d + hi ∧ chip d' = chip d ∧
    ∀ b, out2 (pit_pulses cpu phase (now d')) (chip d) = Some b →
      (Z.land (u8 v) BL_PIT_CONTROL_PORT_OUT2_ON =? 0) = negb b;
}.

Lemma div_drop x y lo : 0 < lo → y + lo <= x → y / lo < x / lo.
Proof.
  intros Hlo H. pose proof (Z.div_le_mono (y + lo) x lo Hlo H) as E.
  replace (y + lo) with (y + 1 * lo) in E by lia. rewrite Z.div_add in E; lia.
Qed.

Section Timer.
Context {Dev : Type} (io : ports Dev) (rdtsc : Dev → (Z * Z) * Dev).
Context (now : Dev → Z) (chip : Dev → pit_counter) (cpu phase lo hi : Z).
Context `{Htm : !Timer io rdtsc now chip cpu phase lo hi}.
Context (Hlo : 0 < lo) (Hcpu : 0 < cpu).

Lemma rdtsc_run m d : 0 <= now d → now d + hi < 18446744073709551616 →
  ∃ d', bl_rdtsc rdtsc (m, d) = Some (now d', (m, d')) ∧ now d + lo <= now d' <= now d + hi ∧ chip d' = chip d.
Proof using Htm Hlo.
  intros H0 H. unfold bl_rdtsc. cbn [fst snd]. pose proof (timer_rdtsc d) as Hl.
  destruct (rdtsc d) as [[eax edx] d']. destruct Hl as (E & Hn & Hc). exists d'. split; [|done].
  rewrite (u64_small (now d')) in E by lia. do 2 f_equal.
  rewrite <- E, Z.lor_comm. pose proof (u32_range eax). pose proof (u32_range edx).
  rewrite u64_small by (rewrite Z.shiftl_mul_pow2 by lia; lia).
  change 4294967296 with (2 ^ 32) in *. rewrite lor_shiftl_add by lia. lia.
Qed.

(** Between the writing of the count and the [n]-th pulse behind it. *)
Lemma pulses_after t t' n :
  pit_pulses cpu phase t + n <= pit_pulses cpu phase t' → (n - 1) * cpu < pit_hz * (t' - t).
Proof using Hcpu. unfold pit_pulses, pit_hz. intros H. Z.div_mod_to_equations. nia. Qed.
Lemma pulses_before t t' n :
  pit_pulses cpu phase t' < pit_pulses cpu phase t + n → pit_hz * (t' - t) < n * cpu.
Proof using Hcpu. unfold pit_pulses, pit_hz. intros H. Z.div_mod_to_equations. nia. Qed.

(** The cycles in [n] pulses. *)
Definition pulse_cycles (n : Z) : Z := n * cpu / pit_hz.

Lemma high_byte_mode c :
  control_word (u8 (Z.lor BL_PIT_COMMAND_REGISTER_CHANNEL_2 BL_PIT_COMMAND_REGISTER_ACCESS_MODE_HIGH_BYTE_ONLY)) c =
  PitCounter 2 0 false None None (c_gate c).
Proof. done. Qed.

(** Waiting for the timer: the loop ends, as soon as the output is up.  The chip
    is told that only high bytes follow, so that the second byte makes the count
    anew. *)
Lemma pit_sleep_run ticks m d :
  let n := 256 * Z.land (Z.shiftr ticks 8) 0xff in
  0 < n → c_gate (chip d) = true → pulse_cycles (n + 1) + 1 < lo * Zpos while_fuel →
  ∃ d', bl_pit_channel2_sleep io ticks (m, d) = Some ((), (m, d')) ∧
    now d + pulse_cycles n <= now d' <= now d + pulse_cycles (n + 1) + 4 * hi.
Proof using Htm Hlo Hcpu.
  intros n Hn Hg Hp. set (d1 := out8 io (u8 (Z.lor BL_PIT_COMMAND_REGISTER_CHANNEL_2
    BL_PIT_COMMAND_REGISTER_ACCESS_MODE_HIGH_BYTE_ONLY)) BL_PIT_COMMAND_REGISTER d).
  set (d2 := out8 io (u8 (Z.land ticks 0xff)) BL_PIT_CHANNEL_2_DATA_PORT d1).
  set (d3 := out8 io (u8 (Z.land (Z.shiftr ticks 8) 0xff)) BL_PIT_CHANNEL_2_DATA_PORT d2).
  destruct (timer_command (u8 (Z.lor BL_PIT_COMMAND_REGISTER_CHANNEL_2
    BL_PIT_COMMAND_REGISTER_ACCESS_MODE_HIGH_BYTE_ONLY)) d) as [H1 C1].
  destruct (timer_data (u8 (Z.land ticks 0xff)) d1) as [H2 C2].
  destruct (timer_data (u8 (Z.land (Z.shiftr ticks 8) 0xff)) d2) as [H3 C3]. fold d1 d2 d3 in H1, H2, H3, C1, C2, C3.
  set (k := pit_pulses cpu phase (now d3)) in *.
  assert (HC : ∀ t, out2 t (chip d3) = Some (k + n + 1 <=? t)).
  { intros t. rewrite C3, C2, C1, high_byte_mode, Hg. unfold count_byte, load_count, out2.
    cbn [c_access c_mode c_bcd c_low c_load c_gate Z.eqb Pos.eqb negb andb].
    assert (Hb : u8 (Z.land (Z.shiftr ticks 8) 0xff) = Z.land (Z.shiftr ticks 8) 0xff).
    { apply u8_small. change 0xff with (Z.ones 8). rewrite Z.land_ones by lia. by apply Z.mod_pos_bound. }
    rewrite Hb. fold n. destruct (Z.eqb_spec n 0); [lia|done]. }
  assert (Hpoll : wp (poll io BL_PIT_CONTROL_PORT (λ v, Z.land v BL_PIT_CONTROL_PORT_OUT2_ON =? 0))
    (λ _ s, s.1 = m ∧ now d3 + pulse_cycles n <= now s.2 <= now d3 + pulse_cycles (n + 1) + hi) (m, d3)).
  { apply (wp_mwhile _ (λ _ s, s.1 = m ∧ chip s.2 = chip d3 ∧ now d3 <= now s.2 <= now d3 + pulse_cycles (n + 1))
      _ (λ _ s, (now d3 + pulse_cycles (n + 1) - now s.2) / lo)).
    - intros [] [m' dd] (Hm & Ha & Hnn). cbn [fst snd] in *. subst m'. apply wp_bind.
      unfold bl_inb. apply wp_bind. pose proof (timer_status dd) as Hs. unfold wp at 1, input. cbn [fst snd].
      destruct (in8 io BL_PIT_CONTROL_PORT dd) as [v dd']. destruct Hs as (Hr & Ha' & Hv).
      apply wp_ret. rewrite Ha in Hv. rewrite (Hv _ (HC _)).
      destruct (Z.leb_spec (k + n + 1) (pit_pulses cpu phase (now dd'))) as [E|E]; cbn [negb].
      + apply wp_ret. cbn [fst snd]. split; [done|]. split; [|lia].
        pose proof (pulses_after (now d3) (now dd') (n + 1) ltac:(fold k; lia)) as Hlow.
        assert (pulse_cycles n <= now dd' - now d3); [|lia]. unfold pulse_cycles. apply Z.div_le_upper_bound; unfold pit_hz in *; lia.
      + apply wp_ret. cbn [fst snd].
        pose proof (pulses_before (now d3) (now dd') (n + 1) ltac:(fold k; lia)) as Hup.
        assert (now dd' - now d3 <= pulse_cycles (n + 1)).
        { unfold pulse_cycles. apply Z.div_le_lower_bound; unfold pit_hz in *; lia. }
        split_and!; [done|congruence|lia|lia|apply Z.div_pos; lia|apply div_drop; lia].
    - cbn [fst snd]. assert (0 <= pulse_cycles (n + 1)) by (unfold pulse_cycles, pit_hz; apply Z.div_pos; nia).
      split_and!; [done..|lia|lia].
    - cbn [snd]. assert (0 <= pulse_cycles (n + 1)) by (unfold pulse_cycles, pit_hz; apply Z.div_pos; nia).
      replace (now d3 + pulse_cycles (n + 1) - now d3) with (pulse_cycles (n + 1)) by lia.
      split; [apply Z.div_pos; lia|]. apply Z.div_lt_upper_bound; lia. }
  apply wp_run in Hpoll as (u & [m' d'] & Hrun & Hm & Hnn). destruct u. cbn [fst snd] in *. subst m'.
  exists d'. split; [|lia]. unfold bl_pit_channel2_sleep, bl_outb, output, mbind, ST_bind. cbn [fst snd].
  exact Hrun.
Qed.

Lemma time_sleep_run ticks ms m d :
  0 <= now d → 0 <= ticks → 0 <= ms → ms * ticks < lo * Zpos while_fuel →
  now d + ms * ticks + 2 * hi < 18446744073709551616 → ms < 18446744073709551616 →
  ∃ d', bl_time_sleep rdtsc ticks ms (m, d) = Some (ms, (m, d')) ∧
    now d + ms * ticks <= now d' <= now d + ms * ticks + 2 * hi.
Proof using Htm Hlo.
  intros H0 Ht Hms Hf Hs Hms'. assert (Hp : 0 <= ms * ticks) by nia.
  assert (lo <= hi). { pose proof (timer_rdtsc d) as E. destruct (rdtsc d) as [[??]?]. lia. }
  destruct (rdtsc_run m d) as (d1 & Hr1 & Hn1 & _); [lia..|].
  set (e := now d1 + ms * ticks).
  assert (Hloop : wp (mwhile (λ _ : (), now ← bl_rdtsc rdtsc; if now <? e then continue () else break ()) ())
    (λ _ s, s.1 = m ∧ e <= now s.2 <= e + hi) (m, d1)).
  { apply (wp_mwhile _ (λ _ s, s.1 = m ∧ now d1 <= now s.2 <= e) _ (λ _ s, (e - now s.2) / lo)).
    - intros [] [m' dd] (Hm & Hn). cbn [fst snd] in *. subst m'. apply wp_bind.
      destruct (rdtsc_run m dd) as (d' & Hr & Hn' & _); [lia|unfold e in *; lia|].
      unfold wp at 1. rewrite Hr. destruct (Z.ltb_spec (now d') e); apply wp_ret; cbn [fst snd]; [|split; [done|lia]].
      split_and!; [done|lia|lia|apply Z.div_pos; lia|apply div_drop; lia].
    - cbn [fst snd]. unfold e. split_and!; [done|lia|lia].
    - cbn [snd]. replace (e - now d1) with (ms * ticks) by (unfold e; lia).
      split; [apply Z.div_pos; lia|]. apply Z.div_lt_upper_bound; lia. }
  apply wp_run in Hloop as (u & [m' d'] & Hrun & Hm & Hn). destruct u. cbn [fst snd] in *. subst m'.
  exists d'. split; [|unfold e in *; lia]. unfold bl_time_sleep. run_with Hr1.
  rewrite (u64_small ms), (u64_small (ms * ticks)), u64_small by lia. fold e. by run_with Hrun.
Qed.
End Timer.

(** The measure of a millisecond. *)
Lemma pulse_bounds cpu hi :
  1000000 <= cpu → 0 <= hi →
  0 <= pulse_cycles cpu 40704 ∧ pulse_cycles cpu 40704 <= pulse_cycles cpu 40705 < cpu - 1 ∧
  cpu <= 1000 * (pulse_cycles cpu 40704 / 32) ∧ 1000000 * ((pulse_cycles cpu 40705 + 5 * hi) / 32) <= 1067 * cpu + 157000 * hi.
Proof. intros. unfold pulse_cycles, pit_hz. Z.div_mod_to_equations. lia. Qed.

(** C32: A sleep lasts the milliseconds asked for.  On a processor with [cpu]
    cycles a second and with an 8254 whose channel 2 has its gate open,
    [bl_time_setup] ends and measures the cycles in a millisecond, and a
    [bl_time_sleep] of [ms] milliseconds with that measure ends, after at least
    [ms] thousandths of [cpu] cycles and at most 6.7 per cent more, up to the
    cycles that the port accesses take.  The surplus is the timer's: it takes the
    two bytes of the count 0x9f41 for two high bytes, so that the count is 0x9f00,
    and these 40704 pulses are 34.1 milliseconds and not the 32 that the measure is
    divided by. *)
Theorem time_sleep_lasts {Dev} (io : ports Dev) rdtsc (now : Dev → Z) (chip : Dev → pit_counter) cpu phase lo hi m d ms :
  let most := (pulse_cycles cpu 40705 + 5 * hi) / 32 in
  Timer io rdtsc now chip cpu phase lo hi → c_gate (chip d) = true →
  0 < lo → 1000000 <= cpu < lo * Zpos while_fuel → 0 <= now d → 0 <= ms < 18446744073709551616 →
  ms * most < lo * Zpos while_fuel → now d + cpu + 9 * hi + ms * most < 18446744073709551616 →
  ∃ ticks d1 d2,
    bl_time_setup io rdtsc (m, d) = Some (ticks, (m, d1)) ∧ pulse_cycles cpu 40704 / 32 <= ticks <= most ∧
    bl_time_sleep rdtsc ticks ms (m, d1) = Some (ms, (m, d2)) ∧
    ms * cpu <= 1000 * (now d2 - now d1) ∧
    1000000 * (now d2 - now d1 - 2 * hi) <= ms * (1067 * cpu + 157000 * hi).
Proof.
  intros most Htm Hg Hlo [Hcpu Hf0] H0 Hms Hf Hs. assert (Hc0 : 0 < cpu) by lia.
  assert (lo <= hi). { pose proof (timer_rdtsc d) as E. destruct (rdtsc d) as [[??]?]. lia. }
  destruct (pulse_bounds cpu hi Hcpu ltac:(lia)) as (Hp0 & Hp1 & Hlow & Hhigh). fold most in Hhigh.
  assert (Hm0 : 0 <= most) by (apply Z.div_pos; lia). assert (Hmm : 0 <= ms * most) by nia.
  destruct (rdtsc_run io rdtsc now chip cpu phase lo hi Hlo m d) as (d1 & Hr1 & Hn1 & Hc1); [lia..|].
  destruct (pit_sleep_run io rdtsc now chip cpu phase lo hi Hlo Hc0 0x9f41 m d1) as (d2 & Hr2 & Hn2);
    [done|by rewrite Hc1|change (256 * Z.land (Z.shiftr 0x9f41 8) 0xff + 1) with 40705; lia|].
  change (256 * Z.land (Z.shiftr 0x9f41 8) 0xff) with 40704 in Hn2.
  change (40704 + 1) with 40705 in Hn2.
  destruct (rdtsc_run io rdtsc now chip cpu phase lo hi Hlo m d2) as (d3 & Hr3 & Hn3 & _); [lia..|].
  set (ticks := (now d3 - now d1) / 32).
  assert (Hticks : pulse_cycles cpu 40704 / 32 <= ticks <= most) by (split; apply Z.div_le_mono; lia).
  assert (Ht0 : 0 <= ticks) by (apply Z.div_pos; lia).
  assert (Hdef : Z.shiftr (u64 (now d3 - now d1)) 5 = ticks) by (rewrite u64_small by lia; by rewrite Z.shiftr_div_pow2 by lia).
  clearbody most ticks. assert (Hle : ms * ticks <= ms * most) by nia.
  destruct (time_sleep_run io rdtsc now chip cpu phase lo hi Hlo ticks ms m d3) as (d4 & Hr4 & Hn4); [lia..|].
  exists ticks, d3, d4. split; [|split; [done|split; [done|]]].
  - unfold bl_time_setup. run_with Hr1. run_with Hr2. run_with Hr3. by rewrite Hdef.
  - assert (cpu <= 1000 * ticks ∧ 1000000 * ticks <= 1067 * cpu + 157000 * hi)
      as [E1 E2] by lia.
    apply (Z.mul_le_mono_nonneg_l _ _ ms) in E1, E2; [|lia..]. split; lia.
Qed.

(** A processor of 1 MHz, a cycle for each access. *)
Definition clock : Type := Z * pit_counter.
Definition clock_ports : ports clock :=
  Ports clock
    (λ _ d, (match out2 (pit_pulses 1000000 0 (d.1 + 1)) d.2 with Some true => 0x20 | _ => 0 end, (d.1 + 1, d.2)))
    (λ _ d, (0, d)) (λ _ d, (0, d))
    (λ v port d,
       (d.1 + 1, if port =? 0x43 then control_word v d.2
                 else if port =? 0x42 then count_byte v (pit_pulses 1000000 0 (d.1 + 1)) d.2 else d.2))
    (λ _ _ d, d) (λ _ _ d, d).
Definition clock_rdtsc (d : clock) : (Z * Z) * clock := ((d.1 + 1, (d.1 + 1) / 4294967296), (d.1 + 1, d.2)).
Definition pit0 : pit_counter := PitCounter 3 3 false None None true.

#[export] Instance clock_timer : Timer clock_ports clock_rdtsc fst snd 1000000 0 1 1.
Proof.
  split.
  - intros [t c]. unfold clock_rdtsc. cbn [fst snd]. split; [word_lia|split; [lia|done]].
  - intros v [t c]. cbn. split; [lia|done].
  - intros v [t c]. cbn [out8 clock_ports fst snd]. split; [lia|done].
  - intros [t c]. cbn [in8 clock_ports fst snd]. split; [lia|]. split; [done|]. intros b ->. by destruct b.
Qed.

Lemma time_sleep_lasts_witness :
  ∃ ticks d1 d2,
    bl_time_setup clock_ports clock_rdtsc (machine0, (0, pit0)) = Some (ticks, (machine0, d1)) ∧
    pulse_cycles 1000000 40704 / 32 <= ticks <= (pulse_cycles 1000000 40705 + 5 * 1) / 32 ∧
    bl_time_sleep clock_rdtsc ticks 3 (machine0, d1) = Some (3, (machine0, d2)) ∧
    3 * 1000000 <= 1000 * (fst d2 - fst d1) ∧
    1000000 * (fst d2 - fst d1 - 2 * 1) <= 3 * (1067 * 1000000 + 157000 * 1).
Proof.
  apply (time_sleep_lasts clock_ports clock_rdtsc fst snd 1000000 0 1 1 machine0 (0, pit0) 3);
    [exact _|done|lia|unfold while_fuel; lia|done|lia|by vm_compute|by vm_compute].
Defined.
