(* ===== verification/Uefi.v ===== *)
(** * The UEFI layer: include/uefi/uefi.h, core/firmware/uefi (tables.c, utils.c,
    console.c, heap.c, main.c)

    The firmware is not in the repository.  The code reaches it through tables of
    function pointers in memory; [firmware fn args] is what a call of the pointer
    [fn] does to memory and to the hardware, and its result.  The timer is in
    Time.v. *)
From S2P Require Import Prelude Memory Arith Status Strings Heap Print Ports Time.

(** ** uefi.h *)
Definition EFI_TRUE : Z := 1.
Definition EFI_SUCCESS : Z := 0.
Definition EFI_ERROR_STATUS (status : Z) : Z := Z.lor (Z.shiftl 1 31) status.
Definition EFI_LOAD_ERROR : Z := EFI_ERROR_STATUS 1.
Definition EFI_NOT_FOUND : Z := EFI_ERROR_STATUS 14.

(** [efi_guid_t], as its 16 bytes. *)
Definition guid (a b c : Z) (d : list Z) : list Z := le_split 4 a ++ le_split 2 b ++ le_split 2 c ++ d.
Definition EFI_EDID_DISCOVERED_PROTOCOL_GUID : list Z :=
  guid 0x1c0c34f6 0xd380 0x41fa [0xa0; 0x49; 0x8a; 0xd0; 0x6c; 0x1a; 0x66; 0xaa].
Definition EFI_EDID_ACTIVE_PROTOCOL_GUID : list Z :=
  guid 0xbd8c1056 0x9f36 0x44ec [0x92; 0xa8; 0xa6; 0x33; 0x7f; 0x81; 0x79; 0x86].
Definition EFI_GRAPHICS_OUTPUT_PROTOCOL_GUID : list Z :=
  guid 0x9042a9de 0x23dc 0x4a38 [0x96; 0xfb; 0x7a; 0xde; 0xd0; 0x80; 0x51; 0x6a].
Definition EFI_LOADED_IMAGE_PROTOCOL_GUID : list Z :=
  guid 0x5b1b31a1 0x9562 0x11d2 [0x8e; 0x3f; 0x00; 0xa0; 0xc9; 0x69; 0x72; 0x3b].
Definition EFI_FILE_INFO_ID_GUID : list Z :=
  guid 0x09576e92 0x6d3f 0x11d2 [0x8e; 0x39; 0x00; 0xa0; 0xc9; 0x69; 0x72; 0x3b].
Definition EFI_SIMPLE_FILE_SYSTEM_PROTOCOL_GUID : list Z :=
  guid 0x0964e5b22 0x6459 0x11d2 [0x8e; 0x39; 0x00; 0xa0; 0xc9; 0x69; 0x72; 0x3b].

Definition EFI_ALLOCATE_ANY_PAGES : Z := 0.
Definition EFI_LOADER_DATA : Z := 2.
Definition EFI_BY_PROTOCOL : Z := 2.
Definition EFI_OPEN_PROTOCOL_BY_HANDLE_PROTOCOL : Z := 0x00000001.
Definition EFI_OPEN_PROTOCOL_GET_PROTOCOL : Z := 0x00000002.
Definition EFI_FILE_MODE_READ : Z := 0x1.
Definition EFI_FILE_READ_ONLY : Z := 0x1.

(** Offsets in the packed tables: [struct efi_system_table], ... *)
Definition st_con_out : Z := 44.
Definition st_boot_services : Z := 60.
Definition bs_allocate_pages : Z := 32.
Definition bs_free_pages : Z := 36.
Definition bs_allocate_pool : Z := 44.
Definition bs_free_pool : Z := 48.
Definition bs_open_protocol : Z := 152.
Definition bs_locate_handle_buffer : Z := 168.
Definition bs_set_mem : Z := 192.
Definition con_reset : Z := 0.
Definition con_output_string : Z := 4.
Definition con_test_string : Z := 8.
Definition fp_open : Z := 8.
Definition fp_read : Z := 20.
Definition fp_get_info : Z := 36.
Definition sizeof_efi_file_info : Z := 144.
Definition fi_file_size : Z := 8.
Definition sfs_open_volume : Z := 8.
Definition li_device_handle : Z := 12.

Definition firmware (Dev : Type) : Type := Z → list Z → gmap Z Z → Dev → Z * (gmap Z Z * Dev).

(** The addresses of the globals of tables.c, of the locals whose address is
    taken and of the literals. *)
Record uefi_frame := UefiFrame {
  bl_image_handle : Z; bl_system_table : Z; bl_mod_list : Z;
  loc_addr : Z; loc_ptr : Z; loc_wchar : Z;
  loc_guid : Z; loc_file_info : Z; loc_buffer_size : Z; loc_file_size : Z;
  loc_loaded_image : Z; loc_fs_info : Z; loc_root_dir : Z; loc_modules_file : Z; loc_image : Z;
  lit_crlf : Z; EFI_MODULES_FILE_PATH : Z;
}.

Section Uefi.
Context {Dev : Type} (fw : firmware Dev) (f : uefi_frame).

Definition efi_call (fn : Z) (args : list Z) : D Dev Z := λ s,
  let '(r, (m, d)) := fw fn args (mem s.1) s.2 in Some (u32 r, (set_mem m s.1, d)).

(** A member function of a table. *)
Definition method (table off : Z) (args : list Z) : D Dev Z :=
  fn ← on_machine (rd32 (table + off)); efi_call fn args.

Definition boot_service (off : Z) (args : list Z) : D Dev Z :=
  st ← on_machine (rd32 (bl_system_table f));
  bs ← on_machine (rd32 (st + st_boot_services));
  method bs off args.

Definition store_guid (p : Z) (g : list Z) : M () := modify (with_mem (λ m, st_bytes m p g)).

(** ** utils.c *)
Definition bl_efi_locate_handle_buffer (type protocol search_key no_handles buffer : Z) : D Dev Z :=
  boot_service bs_locate_handle_buffer [type; protocol; search_key; no_handles; buffer].

Definition bl_efi_open_protocol (handle protocol interface attributes : Z) : D Dev Z :=
  image ← on_machine (rd32 (bl_image_handle f));
  boot_service bs_open_protocol [handle; protocol; interface; image; NULL; attributes].

Definition bl_efi_get_loaded_image (loaded_image : Z) : D Dev Z :=
  on_machine (store_guid (loc_image f) EFI_LOADED_IMAGE_PROTOCOL_GUID);;
  image ← on_machine (rd32 (bl_image_handle f));
  bl_efi_open_protocol image (loc_image f) loaded_image EFI_OPEN_PROTOCOL_GET_PROTOCOL.

(** ** console.c *)
Definition con_out_of : M Z := st ← rd32 (bl_system_table f); rd32 (st + st_con_out).

Definition bl_efi_output_string (s : Z) : D Dev () :=
  con ← on_machine con_out_of;
  status ← method con con_test_string [con; s];
  if EFI_FAILED status then mret ()
  else
    con ← on_machine con_out_of;
    method con con_output_string [con; s];;
    mret ().

Definition bl_efi_console_print_str (s : Z) : D Dev () :=
  on_machine (wr16 (loc_wchar f + 2) 0);;
  mwhile (λ i,
    c ← on_machine (rds8 (s + i));
    if truth c then
      on_machine (wr16 (loc_wchar f) (u16 c));;
      bl_efi_output_string (if c =? 10 then lit_crlf f else loc_wchar f);;
      continue (i + 1)
    else break ()) 0.

Definition bl_efi_set_console : D Dev () :=
  con ← on_machine con_out_of;
  method con con_reset [con; EFI_TRUE];;
  on_machine (bl_print_set_output_callback true).

(** ** heap.c: this build's allocator calls the firmware's. *)
Definition uefi_heap_init : D Dev () := mret ().

Definition uefi_heap_alloc (sz : Z) : D Dev Z :=
  status ← boot_service bs_allocate_pool [EFI_LOADER_DATA; sz; loc_ptr f];
  if EFI_FAILED status then mret NULL
  else
    ptr ← on_machine (rd32 (loc_ptr f));
    boot_service bs_set_mem [ptr; sz; 0];;
    ptr ← on_machine (rd32 (loc_ptr f));
    mret ptr.

Definition uefi_heap_alloc_align (sz align : Z) : D Dev Z :=
  let align := if align =? 0 then 1 else align in
  if truth (Z.land align (u32 (align - 1))) then mret NULL
  else if align <=? 0x8 then uefi_heap_alloc sz
  else
    let new_sz := u32 (BL_MEMORY_ALIGN_UP sz 0x1000) in
    status ← boot_service bs_allocate_pages
               [EFI_ALLOCATE_ANY_PAGES; EFI_LOADER_DATA; new_sz / 0x1000; loc_addr f];
    if EFI_FAILED status then mret NULL
    else
      addr ← on_machine (rd64 (loc_addr f));
      let ptr := Z.land addr 0xffffffff in
      boot_service bs_set_mem [ptr; new_sz; 0];;
      mret ptr.

Definition uefi_heap_free (ptr sz : Z) : D Dev () :=
  if is_null ptr then mret ()
  else if truth (Z.land ptr 0xfff) then boot_service bs_free_pool [ptr];; mret ()
  else
    status ← boot_service bs_free_pages [ptr; u32 (BL_MEMORY_ALIGN_UP sz 0x1000) / 0x1000];
    if status =? EFI_NOT_FOUND then boot_service bs_free_pool [ptr];; mret () else mret ().

(** ** main.c *)

(** When there is no memory for the file the status is still the success of
    [get_info]. *)
Definition bl_efi_read_file (file addr : Z) : D Dev Z :=
  on_machine (
    store_guid (loc_guid f) EFI_FILE_INFO_ID_GUID;;
    wr32 (loc_buffer_size f) sizeof_efi_file_info);;
  status ← method file fp_get_info [file; loc_guid f; loc_buffer_size f; loc_file_info f];
  if EFI_FAILED status then mret status
  else
    file_size ← on_machine (rd64 (loc_file_info f + fi_file_size));
    ptr ← uefi_heap_alloc_align (u32 file_size) 0x1000;
    if is_null ptr then mret status
    else
      file_size ← on_machine (rd64 (loc_file_info f + fi_file_size));
      on_machine (wr32 (loc_file_size f) (u32 file_size));;
      status ← method file fp_read [file; loc_file_size f; ptr];
      if EFI_FAILED status then mret status
      else on_machine (wr32 addr ptr);; mret status.

Definition bl_efi_get_boot_fs (root_dir : Z) : D Dev Z :=
  on_machine (store_guid (loc_guid f) EFI_SIMPLE_FILE_SYSTEM_PROTOCOL_GUID);;
  status ← bl_efi_get_loaded_image (loc_loaded_image f);
  if EFI_FAILED status then mret status
  else
    handle ← on_machine (image ← rd32 (loc_loaded_image f); rd32 (image + li_device_handle));
    status ← bl_efi_open_protocol handle (loc_guid f) (loc_fs_info f) EFI_OPEN_PROTOCOL_BY_HANDLE_PROTOCOL;
    if EFI_FAILED status then mret status
    else
      fs_info ← on_machine (rd32 (loc_fs_info f));
      method fs_info sfs_open_volume [fs_info; root_dir].

Definition bl_efi_get_file (path modules_file : Z) : D Dev Z :=
  status ← bl_efi_get_boot_fs (loc_root_dir f);
  if EFI_FAILED status then mret status
  else
    root_dir ← on_machine (rd32 (loc_root_dir f));
    method root_dir fp_open [root_dir; modules_file; path; EFI_FILE_MODE_READ; EFI_FILE_READ_ONLY].

Definition bl_set_efi_info (image_handle system_table : Z) : M () :=
  wr32 (bl_image_handle f) image_handle;;
  wr32 (bl_system_table f) system_table.

(** [addr] is the address of the local, [bl_init] the rest of the start (Init.v). *)
Definition bl_main (bl_init : D Dev bl_status_t) (addr image_handle system_table : Z) : D Dev Z :=
  on_machine (wr32 addr NULL);;
  on_machine (bl_set_efi_info image_handle system_table);;
  bl_efi_set_console;;
  uefi_heap_init;;
  status ← bl_efi_get_file (EFI_MODULES_FILE_PATH f) (loc_modules_file f);
  if EFI_FAILED status then mret status
  else
    file ← on_machine (rd32 (loc_modules_file f));
    status ← bl_efi_read_file file addr;
    if EFI_FAILED status then mret status
    else
      on_machine (p ← rd32 addr; wr32 (bl_mod_list f) p);;
      failure ← bl_init;
      if failed failure then mret EFI_LOAD_ERROR else mret status.
End Uefi.
