(* ===== verification/UefiProofs.v ===== *)
(** * Proofs about the UEFI build's allocator

    What the code relies on of the firmware's pool and page services is the class
    [FirmwareHeap]; the wrappers then are an allocator: blocks are aligned,
    cleared and apart, and freeing one gives exactly it back to the service that
    it came from. *)
From S2P Require Import Prelude Memory Regions Arith HeapProofs Status Strings Heap Print Ports Time Uefi.

(** The services that the allocator uses. *)
Definition heap_services : list Z :=
  [bs_allocate_pages; bs_free_pages; bs_allocate_pool; bs_free_pool; bs_set_mem].

(** A block of [n] bytes at [ptr] that is apart from the regions [rs] and from
    the blocks that the firmware has given out. *)
Definition page_regions (pages : gmap Z Z) : list (Z * Z) := (λ '(p, n), (p, 4096 * n)) <$> map_to_list pages.
Definition fresh (rs : list (Z * Z)) (pools pages : gmap Z Z) (ptr n : Z) : Prop :=
  0 < ptr ∧ in_space ptr n ∧ pools !! ptr = None ∧ pages !! ptr = None ∧
  Forall (apart (ptr, n)) (rs ++ map_to_list pools ++ page_regions pages).

(** The firmware's heap: the pool blocks with their sizes and the page blocks with
    their numbers of pages that it has given out; [fn] are the addresses of its
    services, [reserved] is memory in use otherwise. *)
Class FirmwareHeap {Dev : Type} (fw : firmware Dev) (fn : Z → Z) (reserved : list (Z * Z))
    (pools pages : Dev → gmap Z Z) : Prop := FirmwareHeapLaws {
  fh_allocate_pool sz p m d : let '(r, (m', d')) := fw (fn bs_allocate_pool) [EFI_LOADER_DATA; sz; p] m d in
    keeps [(p, 4)] m m' ∧ pages d' = pages d ∧
    if decide (u32 r = 0) then
      fresh reserved (pools d) (pages d) (ld 4 m' p) sz ∧ ld 4 m' p mod 8 = 0 ∧
      pools d' = <[ld 4 m' p := sz]> (pools d)
    else pools d' = pools d;
  fh_allocate_pages n p m d :
    let '(r, (m', d')) := fw (fn bs_allocate_pages) [EFI_ALLOCATE_ANY_PAGES; EFI_LOADER_DATA; n; p] m d in
    keeps [(p, 8)] m m' ∧ pools d' = pools d ∧
    if decide (u32 r = 0) then
      fresh reserved (pools d) (pages d) (ld 8 m' p) (4096 * n) ∧ ld 8 m' p mod 4096 = 0 ∧
      pages d' = <[ld 8 m' p := n]> (pages d)
    else pages d' = pages d;
  fh_free_pool ptr m d : is_Some (pools d !! ptr) →
    let '(r, (m', d')) := fw (fn bs_free_pool) [ptr] m d in
    m' = m ∧ pools d' = delete ptr (pools d) ∧ pages d' = pages d;
  fh_free_pages ptr n m d : let '(r, (m', d')) := fw (fn bs_free_pages) [ptr; n] m d in
    m' = m ∧ pools d' = pools d ∧
    (pages d !! ptr = Some n → u32 r = EFI_SUCCESS ∧ pages d' = delete ptr (pages d)) ∧
    (pages d !! ptr = None → u32 r = EFI_NOT_FOUND ∧ pages d' = pages d);
  fh_set_mem ptr n v m d : let '(_, (m', d')) := fw (fn bs_set_mem) [ptr; n; v] m d in
    m' = st_bytes m ptr (replicate (Z.to_nat n) v) ∧ pools d' = pools d ∧ pages d' = pages d;
}.

Section UefiHeap.
Context {Dev : Type} (fw : firmware Dev) (f : uefi_frame) (fn : Z → Z) (reserved : list (Z * Z)).
Context (pools pages : Dev → gmap Z Z) `{Hfh : !FirmwareHeap fw fn reserved pools pages}.
(** The addresses of the system table and of the boot services. *)
Context (st0 bs0 : Z).

Definition table_regions : list (Z * Z) :=
  (bl_system_table f, 4) :: (st0 + st_boot_services, 4) :: ((λ off, (bs0 + off, 4)) <$> heap_services).

Record tables (m : gmap Z Z) : Prop := Tables {
  tb_system : ld 4 m (bl_system_table f) = st0;
  tb_boot : ld 4 m (st0 + st_boot_services) = bs0;
  tb_services : Forall (λ off, ld 4 m (bs0 + off) = fn off) heap_services;
}.

Definition heap_locals : list (Z * Z) := [(loc_ptr f, 4); (loc_addr f, 8)].

(** The tables and the locals lie in memory that the firmware does not give out. *)
Record placed : Prop := Placed {
  pl_space : Forall (λ r, in_space r.1 r.2) (table_regions ++ heap_locals);
  pl_apart : each_apart heap_locals table_regions;
  pl_reserved : table_regions ++ heap_locals ⊆ reserved;
}.
Context (Hpl : placed).

Lemma tables_keep rs m m' : keeps rs m m' → each_apart rs table_regions → tables m → tables m'.
Proof using Hpl.
  intros Hk Ha [H1 H2 H3]. destruct Hpl as [Hsp _ _]. apply Forall_app in Hsp as [Hsp _].
  assert (Hld : ∀ r, r ∈ table_regions → r.2 = 4 → ld 4 m' r.1 = ld 4 m r.1).
  { intros [a n] Hr Hn. cbn [fst snd] in *. subst n. apply (keeps_ld rs); [done| |].
    - rewrite Forall_forall in Hsp. by apply (Hsp (a, 4)).
    - unfold each_apart in Ha. rewrite Forall_forall in *. intros r Hr'. specialize (Ha r Hr').
      rewrite Forall_forall in Ha. by apply Ha. }
  split.
  - rewrite <- H1. apply (Hld (_, 4)); [left|done].
  - rewrite <- H2. apply (Hld (_, 4)); [right; left|done].
  - rewrite Forall_forall in *. intros off Hoff. rewrite <- (H3 off) by done. apply (Hld (_, 4)); [|done].
    do 2 right. apply list_elem_of_fmap. by exists off.
Qed.

(** A call of one of the services. *)
Lemma boot_service_run off args m d r m' d' :
  tables (mem m) → off ∈ heap_services → fw (fn off) args (mem m) d = (r, (m', d')) →
  boot_service fw f off args (m, d) = Some (u32 r, (set_mem m' m, d')).
Proof using.
  intros [H1 H2 H3] Hoff Hfw. unfold boot_service, method.
  rewrite (bind_run _ _ st0 _ (m, d)); [|unfold on_machine; cbn; by rewrite H1].
  rewrite (bind_run _ _ bs0 _ (m, d)); [|unfold on_machine; cbn; by rewrite H2].
  rewrite Forall_forall in H3.
  rewrite (bind_run _ _ (fn off) _ (m, d)); [|unfold on_machine; cbn; by rewrite (H3 off Hoff)].
  unfold efi_call. cbn [fst snd]. by rewrite Hfw.
Qed.

Lemma fresh_apart ptr n rs po pa r : fresh rs po pa ptr n → r ∈ rs → apart (ptr, n) r.
Proof using. intros (_ & _ & _ & _ & H) Hr. rewrite Forall_forall in H. apply H, elem_of_app. by left. Qed.

Lemma fresh_tables ptr n po pa : fresh reserved po pa ptr n → each_apart [(ptr, n)] table_regions.
Proof using Hpl.
  intros H. apply Forall_cons; split; [|done]. apply Forall_forall. intros r Hr.
  apply (fresh_apart _ _ _ _ _ _ H). apply (pl_reserved Hpl), elem_of_app. by left.
Qed.

(** The locals that the services store to. *)
Lemma local_tables r m m' : r ∈ heap_locals → keeps [r] m m' → tables m → tables m'.
Proof using Hpl.
  intros Hr Hk. apply (tables_keep [r]); [done|]. apply Forall_cons; split; [|done].
  pose proof (pl_apart Hpl) as Ha. unfold each_apart in Ha. rewrite Forall_forall in Ha. by apply Ha.
Qed.

Lemma block_tables p n po pa m l :
  fresh reserved po pa p n → n = Z.of_nat (length l) → tables m → tables (st_bytes m p l).
Proof using Hpl.
  intros Hf ->. pose proof (fresh_tables _ _ _ _ Hf). destruct Hf as (_ & Hs & _).
  eapply tables_keep; [by apply keeps_st_bytes|done].
Qed.

(** What has been given out besides, of pages or from the pool. *)
Definition recorded (paged : bool) (p size : Z) (d d' : Dev) : Prop :=
  if paged then p mod 4096 = 0 ∧ pools d' = pools d ∧ pages d' = <[p := size / 4096]> (pages d)
  else p mod 8 = 0 ∧ pools d' = <[p := size]> (pools d) ∧ pages d' = pages d.

(** What an allocation gives: nothing, or a block that is recorded and cleared. *)
Definition outcome (paged : bool) (size : Z) (m m' : machine) (d d' : Dev) (p : Z) : Prop :=
  tables (mem m') ∧ keeps (heap_locals ++ [(p, size)]) (mem m) (mem m') ∧
  (p = NULL ∧ pools d' = pools d ∧ pages d' = pages d ∨
   fresh reserved (pools d) (pages d) p size ∧ ld_bytes (mem m') p (Z.to_nat size) = replicate (Z.to_nat size) 0 ∧
   recorded paged p size d d').

Lemma replicate_bytes n v : 0 <= v < 256 → bytes (replicate n v).
Proof using. intros. by apply Forall_replicate. Qed.

(** A block after the firmware has cleared it. *)
Lemma cleared p n po pa m :
  fresh reserved po pa p n → 0 <= n →
  ld_bytes (st_bytes m p (replicate (Z.to_nat n) 0)) p (Z.to_nat n) = replicate (Z.to_nat n) 0 ∧
  keeps [(p, n)] m (st_bytes m p (replicate (Z.to_nat n) 0)).
Proof using.
  intros (_ & Hs & _) Hn.
  assert (Hlen : Z.of_nat (length (replicate (Z.to_nat n) 0)) = n) by (rewrite length_replicate; lia).
  split.
  - pose proof (ld_bytes_st_bytes_in m p (replicate (Z.to_nat n) 0)) as E. rewrite Hlen, length_replicate in E.
    by apply E, replicate_bytes.
  - pose proof (keeps_st_bytes m p (replicate (Z.to_nat n) 0)) as E. rewrite Hlen in E. by apply E.
Qed.

Lemma outcome_block paged size r m m1 d d' p :
  0 <= size → r ∈ heap_locals → keeps [r] (mem m) m1 → tables m1 → fresh reserved (pools d) (pages d) p size →
  recorded paged p size d d' → outcome paged size m (set_mem (st_bytes m1 p (replicate (Z.to_nat size) 0)) m) d d' p.
Proof using Hpl.
  intros Hsz Hr Hk Ht Hf Hd. destruct (cleared p size _ _ m1 Hf Hsz) as [Hc1 Hc2].
  split; [|split].
  - eapply block_tables; [exact Hf|rewrite length_replicate; lia|done].
  - rewrite mem_set_mem. apply (keeps_trans _ _ m1).
    + apply (keeps_weaken [r]); [done|]. intros x ->%list_elem_of_singleton. apply elem_of_app. by left.
    + apply (keeps_weaken [(p, size)]); [done|]. intros x Hx. apply elem_of_app. by right.
  - right. split; [done|]. split; [|done]. exact Hc1.
Qed.

Lemma outcome_none paged size r m m1 d d' :
  r ∈ heap_locals → keeps [r] (mem m) m1 → tables m1 → pools d' = pools d → pages d' = pages d →
  outcome paged size m (set_mem m1 m) d d' NULL.
Proof using.
  intros Hr Hk Ht Hpo Hpa. split; [done|]. split; [|by left].
  rewrite mem_set_mem. apply (keeps_weaken [r]); [done|]. intros x ->%list_elem_of_singleton. apply elem_of_app. by left.
Qed.

Lemma service_in off : In off heap_services → off ∈ heap_services.
Proof using. by rewrite list_elem_of_In. Qed.

Lemma set_mem_run p n m d : tables (mem m) →
  ∃ r d', boot_service fw f bs_set_mem [p; n; 0] (m, d) =
    Some (r, (set_mem (st_bytes (mem m) p (replicate (Z.to_nat n) 0)) m, d')) ∧
    pools d' = pools d ∧ pages d' = pages d.
Proof using Hfh.
  intros Ht. pose proof (fh_set_mem p n 0 (mem m) d) as Hl.
  destruct (fw (fn bs_set_mem) [p; n; 0] (mem m) d) as [r [m' d']] eqn:E. destruct Hl as (-> & H1 & H2).
  eexists _, d'. split; [|done]. apply (boot_service_run bs_set_mem _ m d _ _ _ Ht ltac:(apply service_in; cbn; tauto) E).
Qed.

Lemma uefi_pool_run sz m d : tables (mem m) → 0 <= sz →
  ∃ p m' d', uefi_heap_alloc fw f sz (m, d) = Some (p, (m', d')) ∧ outcome false sz m m' d d' p.
Proof using Hfh Hpl.
  intros Ht Hsz. pose proof (fh_allocate_pool sz (loc_ptr f) (mem m) d) as Hl.
  destruct (fw (fn bs_allocate_pool) _ (mem m) d) as [r [m1 d1]] eqn:E. destruct Hl as (Hk & Hpa & Hl).
  assert (Hloc : (loc_ptr f, 4) ∈ heap_locals) by left. pose proof (local_tables _ _ _ Hloc Hk Ht) as Ht1.
  unfold uefi_heap_alloc.
  run_with (boot_service_run bs_allocate_pool _ m d _ _ _ Ht ltac:(apply service_in; cbn; tauto) E).
  unfold EFI_FAILED, truth. rewrite u32_idemp. case_decide as Hr.
  - rewrite Hr. cbn [Z.eqb negb]. destruct Hl as (Hf & Hal & Hpo).
    set (m1' := set_mem m1 m). run_with (on_machine_run (rd32 (loc_ptr f)) (ld 4 m1 (loc_ptr f)) m1' m1' d1 eq_refl).
    destruct (set_mem_run (ld 4 m1 (loc_ptr f)) sz m1' d1 Ht1) as (r2 & d2 & Hrun & Hpo2 & Hpa2). run_with Hrun.
    assert (Hsame : ld 4 (st_bytes m1 (ld 4 m1 (loc_ptr f)) (replicate (Z.to_nat sz) 0)) (loc_ptr f) = ld 4 m1 (loc_ptr f)).
    { apply (keeps_ld _ _ _ _ _ (proj2 (cleared _ _ _ _ m1 Hf Hsz))).
      - pose proof (pl_space Hpl) as Hs. rewrite Forall_forall in Hs. apply (Hs (loc_ptr f, 4)), elem_of_app. by right; left.
      - apply Forall_cons; split; [|done]. apply (fresh_apart _ _ _ _ _ _ Hf).
        apply (pl_reserved Hpl), elem_of_app. by right; left. }
    eexists (ld 4 m1 (loc_ptr f)), _, d2. split.
    + unfold mbind, ST_bind, on_machine, rd32, gets. cbn [fst snd]. subst m1'.
      rewrite !mem_set_mem, set_mem_set_mem, Hsame. reflexivity.
    + apply (outcome_block false sz (loc_ptr f, 4)); [done..|]. unfold recorded. by rewrite Hpo2, Hpa2.
  - destruct (Z.eqb_spec (u32 r) 0); [done|]. cbn [negb]. eexists NULL, _, d1. split; [reflexivity|].
    by apply (outcome_none false sz (loc_ptr f, 4)).
Qed.

Lemma uefi_pages_run new_sz m d : tables (mem m) → 0 < new_sz → new_sz mod 4096 = 0 →
  ∃ p m' d',
    (status ← boot_service fw f bs_allocate_pages
                [EFI_ALLOCATE_ANY_PAGES; EFI_LOADER_DATA; new_sz / 0x1000; loc_addr f];
     if EFI_FAILED status then mret NULL
     else
       addr ← on_machine (rd64 (loc_addr f));
       let ptr := Z.land addr 0xffffffff in
       boot_service fw f bs_set_mem [ptr; new_sz; 0];;
       mret ptr) (m, d) = Some (p, (m', d')) ∧ outcome true new_sz m m' d d' p.
Proof using Hfh Hpl.
  intros Ht Hsz Hmod. pose proof (fh_allocate_pages (new_sz / 0x1000) (loc_addr f) (mem m) d) as Hl.
  destruct (fw (fn bs_allocate_pages) _ (mem m) d) as [r [m1 d1]] eqn:E. destruct Hl as (Hk & Hpo & Hl).
  assert (Hloc : (loc_addr f, 8) ∈ heap_locals) by (right; left).
  pose proof (local_tables _ _ _ Hloc Hk Ht) as Ht1.
  run_with (boot_service_run bs_allocate_pages _ m d _ _ _ Ht ltac:(apply service_in; cbn; tauto) E).
  unfold EFI_FAILED, truth. rewrite u32_idemp. case_decide as Hr.
  - rewrite Hr. cbn [Z.eqb negb]. destruct Hl as (Hf & Hal & Hpa).
    replace (4096 * (new_sz / 4096)) with new_sz in Hf by (Z.div_mod_to_equations; lia).
    set (m1' := set_mem m1 m). run_with (on_machine_run (rd64 (loc_addr f)) (ld 8 m1 (loc_addr f)) m1' m1' d1 eq_refl).
    assert (Hptr : Z.land (ld 8 m1 (loc_addr f)) 0xffffffff = ld 8 m1 (loc_addr f)).
    { destruct Hf as (H0 & (H1 & _ & H2) & _). change 0xffffffff with (Z.ones 32).
      rewrite Z.land_ones by lia. apply Z.mod_small. lia. }
    destruct (set_mem_run (Z.land (ld 8 m1 (loc_addr f)) 0xffffffff) new_sz m1' d1 Ht1)
      as (r2 & d2 & Hrun & Hpo2 & Hpa2). run_with Hrun.
    rewrite Hptr in *. eexists _, _, d2. split; [reflexivity|]. subst m1'. rewrite set_mem_set_mem, mem_set_mem.
    apply (outcome_block true new_sz (loc_addr f, 8)); [lia|done..|]. unfold recorded. by rewrite Hpo2, Hpa2.
  - destruct (Z.eqb_spec (u32 r) 0); [done|]. cbn [negb]. eexists NULL, _, d1. split; [reflexivity|].
    by apply (outcome_none true new_sz (loc_addr f, 8)).
Qed.

Lemma page_round sz : 0 < sz <= 4294963200 →
  BL_MEMORY_ALIGN_UP sz 0x1000 = round_up sz 4096 ∧ sz <= round_up sz 4096 < 4294967296 ∧
  round_up sz 4096 mod 4096 = 0.
Proof using.
  intros. pose proof (round_up_spec sz 4096 ltac:(lia)) as [H1 H2].
  split; [by apply (align_up_pow2 sz 12); lia|]. split; [|done]. split; [lia|].
  unfold round_up in *. Z.div_mod_to_equations. lia.
Qed.

(** The size that a request takes: pages for an alignment above 8. *)
Definition granted (sz : Z) (paged : bool) : Z := if paged then round_up sz 4096 else sz.

(** Freeing a block that an allocation gave. *)
Lemma free_pool_run p sz po m d :
  tables (mem m) → po !! p = None → pools d = <[p := sz]> po →
  ∃ d', (boot_service fw f bs_free_pool [p];; mret ()) (m, d) = Some ((), (m, d')) ∧ pools d' = po ∧ pages d' = pages d.
Proof using Hfh.
  intros Ht Hpo H1. pose proof (fh_free_pool p (mem m) d) as Hl.
  destruct (fw (fn bs_free_pool) [p] (mem m) d) as [r [m' d']] eqn:E.
  destruct Hl as (-> & H3 & H4); [rewrite H1, lookup_insert_eq; by eexists|].
  exists d'. run_with (boot_service_run bs_free_pool _ m d _ _ _ Ht ltac:(apply service_in; cbn; tauto) E).
  by rewrite set_mem_id, H3, H4, H1, delete_insert_id.
Qed.

Lemma uefi_free_run paged p sz m d d0 :
  tables (mem m) → 0 < sz <= 4294963200 → fresh reserved (pools d0) (pages d0) p (granted sz paged) →
  recorded paged p (granted sz paged) d0 d →
  ∃ d', uefi_heap_free fw f p sz (m, d) = Some ((), (m, d')) ∧ pools d' = pools d0 ∧ pages d' = pages d0.
Proof using Hfh.
  intros Ht Hsz (Hp & _ & Hpo & Hpa & _) Hd. destruct (page_round sz Hsz) as (Hru & Hrange & _).
  unfold uefi_heap_free, is_null, NULL, truth.
  destruct (Z.eqb_spec p 0); [lia|]. change 0xfff with (Z.ones 12). rewrite (Z.land_ones p 12) by lia.
  destruct (Z.eqb_spec (p mod 2 ^ 12) 0) as [E|E]; cbn [negb].
  2:{ destruct paged; [by destruct Hd|]. destruct Hd as (_ & H1 & H2).
      destruct (free_pool_run _ _ _ m d Ht Hpo H1) as (d' & ? & ? & ?). exists d'. by rewrite <- H2. }
  rewrite Hru, u32_small by lia. set (pg := round_up sz 4096 / 0x1000).
  pose proof (fh_free_pages p pg (mem m) d) as Hl.
  destruct (fw (fn bs_free_pages) [p; pg] (mem m) d) as [r [m' d']] eqn:E'. destruct Hl as (-> & H3 & Hyes & Hno).
  run_with (boot_service_run bs_free_pages _ m d _ _ _ Ht ltac:(apply service_in; cbn; tauto) E').
  rewrite set_mem_id. destruct paged; destruct Hd as (_ & H1 & H2).
  - destruct Hyes as [-> H4]; [by rewrite H2, lookup_insert_eq|].
    exists d'. change (EFI_SUCCESS =? EFI_NOT_FOUND) with false. cbv iota. by rewrite H3, H4, H1, H2, delete_insert_id.
  - destruct Hno as [-> H4]; [by rewrite H2|]. change (EFI_NOT_FOUND =? EFI_NOT_FOUND) with true. cbv iota.
    destruct (free_pool_run p sz (pools d0) m d' Ht Hpo ltac:(by rewrite H3)) as (d'' & Hrun & H5 & H6).
    exists d''. by rewrite H6, H4.
Qed.

Lemma uefi_alloc_run sz align m d :
  tables (mem m) → 0 < sz <= 4294963200 → 0 <= align < 4294967296 → align = 0 ∨ power_of_two align →
  let paged := negb (align <=? 8) in
  ∃ p m' d', uefi_heap_alloc_align fw f sz align (m, d) = Some (p, (m', d')) ∧
    outcome paged (granted sz paged) m m' d d' p.
Proof using Hfh Hpl.
  intros Ht Hsz Hal Hp2 paged. destruct (page_round sz Hsz) as (Hru & Hrange & Hmod).
  unfold uefi_heap_alloc_align, granted. subst paged.
  set (al := if align =? 0 then 1 else align).
  assert (Hal2 : power_of_two al ∧ 0 < al < 4294967296 ∧ (al <=? 8) = (align <=? 8)).
  { subst al. destruct (Z.eqb_spec align 0) as [->|]; [split; [by exists 0|done]|].
    destruct Hp2 as [|?]; [done|]. split; [done|]. split; [lia|done]. }
  destruct Hal2 as ((k & Hk & Hal2) & Hr & ->). rewrite u32_small by lia.
  rewrite Hal2, land_pred_pow2 by done. change (truth 0) with false. cbv beta iota.
  destruct (Z.leb_spec align 8); cbn [negb].
  - apply uefi_pool_run; [done|lia].
  - rewrite Hru, u32_small by lia. apply uefi_pages_run; [done|lia|done].
Qed.

Lemma mod_pow2_le x a b : 0 <= b <= a → x mod 2 ^ a = 0 → x mod 2 ^ b = 0.
Proof using.
  intros Hb H. apply Z.mod_divide in H; [|lia]. apply Z.mod_divide; [lia|]. etrans; [|exact H].
  exists (2 ^ (a - b)). rewrite <- Z.pow_add_r by lia. f_equal. lia.
Qed.

Lemma recorded_aligned align p size d d' :
  align = 0 ∨ power_of_two align → 0 <= align → recorded (negb (align <=? 8)) p size d d' →
  p mod Z.min (Z.max 1 align) 4096 = 0.
Proof using.
  intros Hp2 H0 Hrec.
  assert (Hk : ∃ k, 0 <= k ∧ Z.max 1 align = 2 ^ k).
  { destruct Hp2 as [->|(k & Hk & ->)]; [by exists 0|]. exists k. pose proof (Z.pow_pos_nonneg 2 k). lia. }
  destruct Hk as (k & Hk & E). rewrite E.
  destruct (Z.le_gt_cases k 12).
  - rewrite Z.min_l by (change 4096 with (2 ^ 12); by apply Z.pow_le_mono_r).
    destruct (Z.leb_spec align 8); destruct Hrec as (Hal & _).
    + apply (mod_pow2_le p 3); [|done]. split; [done|]. apply Z.lt_succ_r, (Z.pow_lt_mono_r_iff 2); lia.
    + by apply (mod_pow2_le p 12).
  - assert (4096 < 2 ^ k) by (change 4096 with (2 ^ 12); apply Z.pow_lt_mono_r; lia). rewrite Z.min_r by lia.
    destruct (Z.leb_spec align 8); [lia|]. by destruct Hrec.
Qed.

(** C19: The allocator of the UEFI build, with firmware whose pool and page
    services behave: a request for a power of two as alignment gives a null
    pointer and takes nothing, or it gives a block that is aligned (to no more
    than a page), of the size asked for or more, cleared, apart from all blocks
    given out before and from the loader's own memory; freeing that block with
    the requested size gives it back to the service that it came from, so that
    what is given out is again exactly what was before. *)
Theorem uefi_heap_roundtrip sz align m d :
  tables (mem m) → 0 < sz <= 4294963200 → 0 <= align < 4294967296 → align = 0 ∨ power_of_two align →
  ∃ p m' d', uefi_heap_alloc_align fw f sz align (m, d) = Some (p, (m', d')) ∧
    (p = NULL ∧ pools d' = pools d ∧ pages d' = pages d ∨
     ∃ size, sz <= size ∧ p mod Z.min (Z.max 1 align) 4096 = 0 ∧ fresh reserved (pools d) (pages d) p size ∧
       ld_bytes (mem m') p (Z.to_nat size) = replicate (Z.to_nat size) 0 ∧
       keeps (heap_locals ++ [(p, size)]) (mem m) (mem m') ∧
       ∃ d'', uefi_heap_free fw f p sz (m', d') = Some ((), (m', d'')) ∧ pools d'' = pools d ∧ pages d'' = pages d).
Proof using Hfh Hpl.
  intros Ht Hsz Hal Hp2. destruct (uefi_alloc_run sz align m d Ht Hsz Hal Hp2) as (p & m' & d' & Hrun & Ht' & Hk & Ho).
  exists p, m', d'. split; [done|]. destruct Ho as [?|(Hf & Hz & Hrec)]; [by left|]. right.
  eexists. split; [|split; [|split; [exact Hf|split; [done|split; [done|]]]]].
  - destruct (page_round sz Hsz) as (_ & ? & _). unfold granted. destruct (negb _); lia.
  - eapply recorded_aligned; [done|lia|exact Hrec].
  - by apply (uefi_free_run (negb (align <=? 8)) p sz m' d' d).
Qed.
End UefiHeap.

(** ** A firmware with one block for each service *)
#[local] Instance outside_dec a n b k : Decision (disjoint a n b k).
Proof. unfold disjoint. apply _. Defined.
#[local] Instance fresh_dec rs po pa ptr n : Decision (fresh rs po pa ptr n).
Proof. unfold fresh, in_space, apart. apply _. Defined.

Definition toy_fn (off : Z) : Z := 0xf0000 + off.
Definition toy_frame : uefi_frame :=
  UefiFrame 0x1000 0x1004 0x1008 0x1010 0x1020 0x1030 0x1040 0x1050 0x1100 0x1104 0x1108 0x110c 0x1110 0x1114
    0x1118 0x1200 0x1210.
Definition toy_reserved : list (Z * Z) := table_regions toy_frame 0x2000 0x3000 ++ heap_locals toy_frame.

Definition toy_heap : Type := gmap Z Z * gmap Z Z.
Definition toy_firmware : firmware toy_heap := λ fn args m d,
  let '(po, pa) := d in
  let give (p n : Z) (k : nat) (addr size : Z) (d' : toy_heap) :=
    if decide (in_space p (Z.of_nat k) ∧ fresh toy_reserved po pa addr size)
    then (EFI_SUCCESS, (st k m p addr, d')) else (EFI_ERROR_STATUS 9, (m, d)) in
  match args with
  | [_; sz; p] =>
      if fn =? toy_fn bs_allocate_pool then give p sz 4%nat 0x200000 sz (<[0x200000 := sz]> po, pa)
      else (EFI_SUCCESS, (st_bytes m (* ptr *) (nth 0 args 0) (replicate (Z.to_nat sz) p), d))
  | [_; _; n; p] => give p n 8%nat 0x400000 (4096 * n) (po, <[0x400000 := n]> pa)
  | [ptr] => (EFI_SUCCESS, (m, (delete ptr po, pa)))
  | [ptr; n] =>
      match pa !! ptr with
      | None => (EFI_NOT_FOUND, (m, d))
      | Some n' => if n =? n' then (EFI_SUCCESS, (m, (po, delete ptr pa))) else (EFI_ERROR_STATUS 2, (m, d))
      end
  | _ => (EFI_ERROR_STATUS 2, (m, d))
  end.

Lemma keeps_st k m a v : in_space a (Z.of_nat k) → keeps [(a, Z.of_nat k)] m (st k m a v).
Proof.
  intros H. unfold st. pose proof (keeps_st_bytes m a (le_split k v)) as E. rewrite length_le_split in E. by apply E.
Qed.

#[local] Instance toy_firmware_heap : FirmwareHeap toy_firmware toy_fn toy_reserved fst snd.
Proof.
  split.
  - intros sz p m [po pa]. cbn -[decide fresh]. destruct (decide (_ ∧ _)) as [[H1 H2]|]; cbn -[fresh toy_reserved].
    + split; [by apply (keeps_st 4)|]. by rewrite ld_st_same by done.
    + done.
  - intros n p m [po pa]. cbn -[decide fresh]. destruct (decide (_ ∧ _)) as [[H1 H2]|]; cbn -[fresh toy_reserved Z.mul].
    + split; [by apply (keeps_st 8)|]. by rewrite ld_st_same by done.
    + done.
  - by intros ptr m [po pa] _.
  - intros ptr n m [po pa]. cbn. destruct (pa !! ptr) as [n'|] eqn:E; [|by split_and!].
    destruct (Z.eqb_spec n n') as [->|]; cbn; (split; [done|]; split; [done|]); split; intros; simplify_eq; done.
  - by intros ptr n v m [po pa].
Qed.

Definition toy_machine : machine :=
  set_mem (foldr (λ '(a, v) m, st 4 m a v) ∅
    ((0x1004, 0x2000) :: (0x203c, 0x3000) :: ((λ off, (0x3000 + off, toy_fn off)) <$> heap_services))) machine0.

Lemma uefi_heap_roundtrip_witness :
  ∃ p m' d', uefi_heap_alloc_align toy_firmware toy_frame 100 64 (toy_machine, (∅, ∅)) = Some (p, (m', d')) ∧
    (p = NULL ∧ d'.1 = ∅ ∧ d'.2 = ∅ ∨
     ∃ size, 100 <= size ∧ p mod Z.min (Z.max 1 64) 4096 = 0 ∧ fresh toy_reserved ∅ ∅ p size ∧
       ld_bytes (mem m') p (Z.to_nat size) = replicate (Z.to_nat size) 0 ∧
       keeps (heap_locals toy_frame ++ [(p, size)]) (mem toy_machine) (mem m') ∧
       ∃ d'', uefi_heap_free toy_firmware toy_frame p 100 (m', d') = Some ((), (m', d'')) ∧ d''.1 = ∅ ∧ d''.2 = ∅).
Proof.
  apply (uefi_heap_roundtrip toy_firmware toy_frame toy_fn toy_reserved fst snd 0x2000 0x3000) with (d := (∅, ∅));
    [|..|lia|lia|right; by exists 6].
  - split; [|unfold table_regions, heap_locals, heap_services; cbn [fmap list_fmap]; concrete_regions|done].
    repeat (apply Forall_cons; split; [by vm_compute|]). done.
  - split; [by vm_compute..|]. repeat (apply Forall_cons; split; [by vm_compute|]). done.
Defined.

(** The request is granted: a page is given out and taken back. *)
Example toy_grants :
  match uefi_heap_alloc_align toy_firmware toy_frame 100 64 (toy_machine, (∅, ∅)) with
  | Some (p, (_, (_, pa))) => (p, pa !! p)
  | None => (0, None)
  end = (0x400000, Some 1).
Proof. by vm_compute. Qed.

