(* ===== verification/Gop.v ===== *)
(** * The UEFI graphics driver: modules/video/uefi/gop.c

    The file does not compile: [bl_gop_get_info] stores a member that
    [struct bl_video_info] does not have, [bl_gop_set_video] calls [bl_fb_init]
    with three arguments and the driver record names members that
    [struct bl_video_driver] does not have.  What is modelled is the code that
    has a meaning: color masks, depths, the choice of a mode, the search for the
    protocol and the copy to the screen. *)
From S2P Require Import Prelude Memory Arith Status Strings Heap Fb Ports Video Time Uefi.

(** ** uefi.h *)
Definition EFI_PIXEL_RED_GREEN_BLUE_RESERVED_8_BIT_PER_COLOR : Z := 0.
Definition EFI_PIXEL_BLUE_RED_GREEN_RESERVED_8_BIT_PER_COLOR : Z := 1.
Definition EFI_PIXEL_BIT_MASK : Z := 2.
Definition EFI_BLT_BUFFER_TO_VIDEO : Z := 2.
(** [struct efi_graphics_output_mode_information] with its bit masks. *)
Definition sizeof_mode_information : Z := 36.
Definition gi_horizontal_resolution : Z := 4.
Definition gi_vertical_resolution : Z := 8.
Definition gi_pixel_format : Z := 12.
Definition gi_red_mask : Z := 16.
Definition gi_green_mask : Z := 20.
Definition gi_blue_mask : Z := 24.
Definition gi_reserved_mask : Z := 28.
(** [struct efi_graphics_output_protocol] and its mode. *)
Definition gop_query_mode : Z := 0.
Definition gop_set_mode : Z := 4.
Definition gop_blt : Z := 8.
Definition gop_mode : Z := 12.
Definition gm_max_mode : Z := 0.
Definition sizeof_blt_pixel : Z := 4.

(** ** Bit masks *)

(** The highest bit that is set, plus one; 0 when none is. *)
Definition bpp_of_masks (num : Z) : M Z :=
  mwhile (λ i,
    if 0 <=? i then
      if truth (Z.land num (u32 (Z.shiftl 1 i))) then break (i + 1) else continue (i - 1)
    else break 0) 31.

Definition bl_gop_get_bpp_bit_mask (info : Z) : M Z :=
  r ← rd32 (info + gi_red_mask); g ← rd32 (info + gi_green_mask);
  b ← rd32 (info + gi_blue_mask); x ← rd32 (info + gi_reserved_mask);
  bpp_of_masks (Z.lor (Z.lor (Z.lor r g) b) x).

Definition bl_gop_get_color_mask (mask : Z) : M bl_video_color_mask :=
  i ← mwhile (λ i,
        if 0 <=? i then
          if truth (Z.land mask (u32 (Z.shiftl 1 i))) then break i else continue (i - 1)
        else break i) 31;
  j ← mwhile (λ j,
        if 0 <=? j then
          if Z.land mask (u32 (Z.shiftl 1 j)) =? 0 then break j else continue (j - 1)
        else break j) i;
  mret (ColorMask (u8 (j + 1)) (u8 (i - j))).

Definition bl_gop_get_bpp (info : Z) : M Z :=
  format ← rd32 (info + gi_pixel_format);
  if (format =? EFI_PIXEL_RED_GREEN_BLUE_RESERVED_8_BIT_PER_COLOR) ||
     (format =? EFI_PIXEL_BLUE_RED_GREEN_RESERVED_8_BIT_PER_COLOR) then mret 32
  else if format =? EFI_PIXEL_BIT_MASK then bl_gop_get_bpp_bit_mask info
  else mret 0.

(** The addresses of the statics and of the locals. *)
Record gop_frame := GopFrame {
  gop : Z; gop_handle : Z; gop_double_buffer : Z;
  lg_active_guid : Z; lg_discovered_guid : Z; lg_active : Z; lg_discovered : Z;
  lg_info : Z; lg_gop_guid : Z; lg_no_handles : Z; lg_handles : Z;
}.

Section Gop.
Context {Dev : Type} (fw : firmware Dev) (uf : uefi_frame) (f : gop_frame).

Definition bl_gop_read_edid : D Dev bl_status_t :=
  on_machine (
    store_guid (lg_active_guid f) EFI_EDID_ACTIVE_PROTOCOL_GUID;;
    store_guid (lg_discovered_guid f) EFI_EDID_DISCOVERED_PROTOCOL_GUID);;
  handle ← on_machine (rd32 (gop_handle f));
  status ← bl_efi_open_protocol fw uf handle (lg_active_guid f) (lg_active f) EFI_OPEN_PROTOCOL_GET_PROTOCOL;
  status ← (if EFI_FAILED status then
              handle ← on_machine (rd32 (gop_handle f));
              bl_efi_open_protocol fw uf handle (lg_discovered_guid f) (lg_discovered f)
                EFI_OPEN_PROTOCOL_GET_PROTOCOL
            else mret status);
  mret (if status =? EFI_SUCCESS then BL_STATUS_SUCCESS else BL_STATUS_FAILURE).

(** What one mode of the loop of [bl_gop_set_video] contributes: its depth when it
    is a candidate. *)
Definition candidate_depth (info : Z) : M (option Z) :=
  format ← rd32 (info + gi_pixel_format);
  if negb (format =? EFI_PIXEL_BIT_MASK) then mret None
  else
    x ← rd32 (info + gi_horizontal_resolution);
    y ← rd32 (info + gi_vertical_resolution);
    if (x =? BL_VIDEO_DEFAULT_WIDTH) && (y =? BL_VIDEO_DEFAULT_HEIGHT) then
      bpp ← bl_gop_get_bpp info;
      mret (if bpp =? 0 then None else Some bpp)
    else mret None.

(** That loop: the mode it chooses, or -1. *)
Definition choose_mode : D Dev Z :=
  mwhile (λ '(i, mode, depth),
    max_mode ← on_machine (g ← rd32 (gop f); m ← rd32 (g + gop_mode); rd32 (m + gm_max_mode));
    if i <? max_mode then
      g ← on_machine (rd32 (gop f));
      status ← method fw g gop_query_mode [g; i; sizeof_mode_information; lg_info f];
      if EFI_FAILED status then continue (i + 1, mode, depth)
      else
        o ← on_machine (info ← rd32 (lg_info f); candidate_depth info);
        match o with
        | None => continue (i + 1, mode, depth)
        | Some bpp =>
            if (depth =? 0) || (depth <? bpp) then continue (i + 1, i, bpp)
            else continue (i + 1, mode, depth)
        end
    else break mode) (0, u32 (-1), 0).

(** [!gop || !gop_handle || !double_buffer]. *)
Definition gop_unready : M bool :=
  g ← rd32 (gop f); h ← rd32 (gop_handle f); b ← rd32 (gop_double_buffer f);
  mret (is_null g || is_null h || is_null b).

Definition bl_gop_buffer_to_video (x y w h : Z) : D Dev () :=
  unready ← on_machine gop_unready;
  if (unready : bool) then mret ()
  else
    g ← on_machine (rd32 (gop f));
    b ← on_machine (rd32 (gop_double_buffer f));
    method fw g gop_blt [g; b; EFI_BLT_BUFFER_TO_VIDEO; x; y; x; y; w; h;
                         BL_VIDEO_DEFAULT_WIDTH * sizeof_blt_pixel];;
    mret ().

Definition bl_gop_switch_double_buffer : D Dev () :=
  unready ← on_machine gop_unready;
  if (unready : bool) then mret ()
  else bl_gop_buffer_to_video 0 0 BL_VIDEO_DEFAULT_WIDTH BL_VIDEO_DEFAULT_HEIGHT.

(** Without any handle the status is that of the search, a success. *)
Definition bl_gop_init : D Dev bl_status_t :=
  on_machine (store_guid (lg_gop_guid f) EFI_GRAPHICS_OUTPUT_PROTOCOL_GUID);;
  status ← bl_efi_locate_handle_buffer fw uf EFI_BY_PROTOCOL (lg_gop_guid f) NULL (lg_no_handles f)
             (lg_handles f);
  if EFI_FAILED status then mret BL_STATUS_GRAPHICS_PROTOCOL_UNSUPPORTED
  else
    status ← mwhile (λ '(i, status),
      n ← on_machine (rd32 (lg_no_handles f));
      if i <? n then
        handle ← on_machine (handles ← rd32 (lg_handles f); rd32 (u32 (handles + 4 * i)));
        status ← bl_efi_open_protocol fw uf handle (lg_gop_guid f) (gop f) EFI_OPEN_PROTOCOL_GET_PROTOCOL;
        if EFI_FAILED status then continue (i + 1, status)
        else
          handle ← on_machine (handles ← rd32 (lg_handles f); rd32 (u32 (handles + 4 * i)));
          on_machine (wr32 (gop_handle f) handle);; break status
      else break status) (0, status);
    mret (if status =? EFI_SUCCESS then BL_STATUS_SUCCESS else BL_STATUS_FAILURE).

Definition bl_gop_uninit : D Dev () := mret ().
End Gop.
