(* ===== verification/GopProofs.v ===== *)
(** * Proofs about the UEFI graphics driver: color masks, and the mode that it
    chooses *)
From S2P Require Import Prelude Memory Regions Arith Status Strings Heap Fb Ports Video Time Uefi Gop.

(** ** Searching the bits of a word from the top *)
Lemma search_down {St R} (P : Z → bool) (found none : Z → R) i0 k (s : St) :
  -1 <= k <= i0 → i0 < 32 → (∀ i, k < i <= i0 → P i = false) → (0 <= k → P k = true) →
  mwhile (λ i, if 0 <=? i then if P i then break (found i) else continue (i - 1) else break (none i)) i0 s =
  Some (if 0 <=? k then found k else none k, s).
Proof.
  intros Hk H32 Hnot Hyes.
  enough (H : wp (mwhile (λ i, if 0 <=? i then if P i then break (found i) else continue (i - 1) else break (none i)) i0)
    (λ r t, r = (if 0 <=? k then found k else none k) ∧ t = s) s).
  { apply wp_run in H as (r & t & -> & -> & ->). done. }
  wp_loop (λ i t, k <= i <= i0 ∧ t = s) (λ i _, i + 1); [|split; [lia|done]|lia].
  intros i t [Hi ->]. destruct (Z.leb_spec 0 i) as [H0|H0].
  - destruct (decide (i = k)) as [->|Hne].
    + rewrite (Hyes H0). apply wp_ret. destruct (Z.leb_spec 0 k); [done|lia].
    + rewrite Hnot by lia. apply wp_ret. split; [split; [lia|done]|lia].
  - assert (i = k) as -> by lia. apply wp_ret. destruct (Z.leb_spec 0 k); [lia|done].
Qed.

Lemma land_bit_test num i : 0 <= i < 32 → truth (Z.land num (u32 (Z.shiftl 1 i))) = Z.testbit num i.
Proof.
  intros Hi. rewrite u32_small; [apply truth_land_bit; lia|]. rewrite Z.shiftl_1_l.
  split; [by apply Z.pow_nonneg|]. change 4294967296 with (2 ^ 32). apply Z.pow_lt_mono_r; lia.
Qed.

(** The depth of a set of masks: the bits up to the highest one. *)
Definition depth_of_masks (num : Z) : Z := if num =? 0 then 0 else Z.log2 num + 1.
Lemma bpp_of_masks_run num s : 0 <= num < 2 ^ 32 → bpp_of_masks num s = Some (depth_of_masks num, s).
Proof.
  intros Hn. unfold bpp_of_masks, depth_of_masks. destruct (Z.eqb_spec num 0) as [->|Hne].
  - etransitivity; [apply (search_down (λ i, truth (Z.land 0 (u32 (Z.shiftl 1 i)))) (λ i, i + 1) (λ _, 0) 31 (-1))|];
      [lia|lia|done|lia|done].
  - assert (0 <= Z.log2 num < 32) as Hl by (split; [apply Z.log2_nonneg|apply Z.log2_lt_pow2; lia]).
    etransitivity; [apply (search_down (λ i, truth (Z.land num (u32 (Z.shiftl 1 i)))) (λ i, i + 1) (λ _, 0) 31 (Z.log2 num))|].
    + lia.
    + lia.
    + intros i Hi. rewrite land_bit_test by lia. apply Z.bits_above_log2; lia.
    + intros _. rewrite land_bit_test by lia. apply Z.bit_log2. lia.
    + destruct (Z.leb_spec 0 (Z.log2 num)); [done|lia].
Qed.

Lemma lor_pow2_range a b k : 0 <= k → 0 <= a < 2 ^ k → 0 <= b < 2 ^ k → 0 <= Z.lor a b < 2 ^ k.
Proof.
  intros Hk Ha Hb. assert (0 <= Z.lor a b) by (apply Z.lor_nonneg; lia). split; [done|].
  destruct (decide (Z.lor a b = 0)); [lia|]. apply Z.log2_lt_pow2; [lia|]. rewrite Z.log2_lor by lia.
  assert (Hl : ∀ x, 0 <= x < 2 ^ k → x ≠ 0 → Z.log2 x < k) by (intros; apply Z.log2_lt_pow2; lia).
  destruct (decide (a = 0)) as [->|], (decide (b = 0)) as [->|]; [done| | |].
  - pose proof (Hl b Hb ltac:(done)). change (Z.log2 0) with 0. pose proof (Z.log2_nonneg b). lia.
  - pose proof (Hl a Ha ltac:(done)). change (Z.log2 0) with 0. pose proof (Z.log2_nonneg a). lia.
  - pose proof (Hl a Ha ltac:(done)). pose proof (Hl b Hb ltac:(done)). lia.
Qed.

(** [n] bits from bit [k] on. *)
Definition mask_bits (k n : Z) : Z := Z.shiftl (Z.ones n) k.
Lemma mask_bits_test k n i :
  0 <= k → 0 <= n → 0 <= i → Z.testbit (mask_bits k n) i = (k <=? i) && (i <? k + n).
Proof.
  intros Hk Hn Hi. unfold mask_bits. destruct (Z.leb_spec k i).
  - rewrite Z.shiftl_spec_high by lia. destruct (Z.ltb_spec i (k + n)).
    + apply Z.ones_spec_low. lia.
    + apply Z.ones_spec_high. lia.
  - by apply Z.shiftl_spec_low.
Qed.

Lemma color_mask_run k n s :
  0 <= k → 0 < n → k + n <= 32 → bl_gop_get_color_mask (mask_bits k n) s = Some (ColorMask k n, s).
Proof.
  intros Hk Hn Hkn. unfold bl_gop_get_color_mask. set (mask := mask_bits k n).
  assert (Hbit : ∀ i, 0 <= i < 32 → truth (Z.land mask (u32 (Z.shiftl 1 i))) = (k <=? i) && (i <? k + n)).
  { intros i Hi. rewrite land_bit_test by lia. apply mask_bits_test; lia. }
  rewrite (bind_run _ _ (k + n - 1) _ s).
  2: { etransitivity; [apply (search_down (λ i, truth (Z.land mask (u32 (Z.shiftl 1 i)))) (λ i, i) (λ i, i) 31 (k + n - 1))|].
    - lia.
    - lia.
    - intros i Hi. rewrite Hbit by lia. destruct (Z.ltb_spec i (k + n)); [lia|apply andb_false_r].
    - intros _. rewrite Hbit by lia. destruct (Z.leb_spec k (k + n - 1)), (Z.ltb_spec (k + n - 1) (k + n)); [done|lia..].
    - by destruct (0 <=? k + n - 1). }
  rewrite (bind_run _ _ (k - 1) _ s).
  2: { etransitivity; [apply (search_down (λ j, Z.land mask (u32 (Z.shiftl 1 j)) =? 0) (λ j, j) (λ j, j) (k + n - 1) (k - 1))|].
    - lia.
    - lia.
    - intros i Hi. specialize (Hbit i ltac:(lia)). unfold truth in Hbit. apply (f_equal negb) in Hbit. rewrite negb_involutive in Hbit. rewrite Hbit.
      destruct (Z.leb_spec k i), (Z.ltb_spec i (k + n)); [done|lia..].
    - intros Hk0. specialize (Hbit (k - 1) ltac:(lia)). unfold truth in Hbit. apply (f_equal negb) in Hbit. rewrite negb_involutive in Hbit. rewrite Hbit.
      destruct (Z.leb_spec k (k - 1)); [lia|done].
    - by destruct (0 <=? k - 1). }
  unfold mret, ST_ret. do 3 f_equal; rewrite u8_small; lia.
Qed.

(** ** The choice of a mode *)

(** The 36 bytes of a mode as words. *)
Definition info_word (b : list Z) (off : nat) : Z := le_combine (take 4 (drop off b)).
Definition candidate (b : list Z) : option Z :=
  if (info_word b 12 =? EFI_PIXEL_BIT_MASK) && (info_word b 4 =? BL_VIDEO_DEFAULT_WIDTH) &&
     (info_word b 8 =? BL_VIDEO_DEFAULT_HEIGHT)
  then
    let depth := depth_of_masks
      (Z.lor (Z.lor (Z.lor (info_word b 16) (info_word b 20)) (info_word b 24)) (info_word b 28)) in
    if depth =? 0 then None else Some depth
  else None.

Lemma candidate_depth_run p b s : ld_bytes (mem s) p 36 = b → candidate_depth p s = Some (candidate b, s).
Proof.
  intros HL.
  assert (Hf : ∀ off, (off + 4 <= 36)%nat → ld 4 (mem s) (p + Z.of_nat off) = info_word b off).
  { intros off Hoff. unfold info_word. by rewrite <- HL, slice_ld_bytes. }
  unfold candidate_depth, rd32, gets, mbind, ST_bind, mret, ST_ret, candidate.
  rewrite (Hf 12%nat ltac:(lia) : ld 4 _ (p + gi_pixel_format) = _).
  destruct (Z.eqb_spec (info_word b 12) EFI_PIXEL_BIT_MASK) as [E|]; [|done]. cbn [negb andb].
  rewrite (Hf 4%nat ltac:(lia) : ld 4 _ (p + gi_horizontal_resolution) = _),
    (Hf 8%nat ltac:(lia) : ld 4 _ (p + gi_vertical_resolution) = _).
  destruct (_ =? BL_VIDEO_DEFAULT_WIDTH), (_ =? BL_VIDEO_DEFAULT_HEIGHT); try done. cbn [andb].
  set (masks := Z.lor (Z.lor (Z.lor (info_word b 16) (info_word b 20)) (info_word b 24)) (info_word b 28)).
  assert (Hbpp : bl_gop_get_bpp p s = Some (depth_of_masks masks, s)).
  { unfold bl_gop_get_bpp, bl_gop_get_bpp_bit_mask, rd32, gets, mbind, ST_bind, mret, ST_ret.
    rewrite (Hf 12%nat ltac:(lia) : ld 4 _ (p + gi_pixel_format) = _), E.
    unfold EFI_PIXEL_RED_GREEN_BLUE_RESERVED_8_BIT_PER_COLOR, EFI_PIXEL_BLUE_RED_GREEN_RESERVED_8_BIT_PER_COLOR,
      EFI_PIXEL_BIT_MASK. cbn [Z.eqb Pos.eqb orb].
    rewrite (Hf 16%nat ltac:(lia) : ld 4 _ (p + gi_red_mask) = _), (Hf 20%nat ltac:(lia) : ld 4 _ (p + gi_green_mask) = _),
      (Hf 24%nat ltac:(lia) : ld 4 _ (p + gi_blue_mask) = _), (Hf 28%nat ltac:(lia) : ld 4 _ (p + gi_reserved_mask) = _).
    apply bpp_of_masks_run.
    assert (Hr : ∀ off, (off + 4 <= 36)%nat → 0 <= info_word b off < 2 ^ 32) by (intros off Hoff; rewrite <- Hf by done; apply ld4_range).
    unfold masks. repeat apply lor_pow2_range; first [lia | apply Hr; lia]. }
  by rewrite Hbpp.
Qed.

Lemma candidate_pos b bpp : candidate b = Some bpp → 0 < bpp.
Proof.
  unfold candidate. destruct (_ && _); [|done]. unfold depth_of_masks.
  set (masks := Z.lor _ _). destruct (Z.eqb_spec masks 0); [done|]. cbv zeta.
  pose proof (Z.log2_nonneg masks). destruct (Z.eqb_spec (Z.log2 masks + 1) 0); [done|]. intros [= <-]. lia.
Qed.

(** What the driver relies on of [QueryMode], the function [query] of the protocol
    at [g]: [modes] are the blocks of its modes, [None] where it fails.  Its third
    argument is where it stores the size of the block; [private] is memory of the
    firmware. *)
Class ModeQuery {Dev : Type} (fw : firmware Dev) (query g : Z) (modes : list (option (list Z)))
    (private : list (Z * Z)) : Prop := ModeQueryLaw {
  mq_query i o size p m d : modes !! i = Some o →
    in_space p 4 → in_space size 4 → separate ((p, 4) :: (size, 4) :: private) →
    let '(r, (m', _)) := fw query [g; Z.of_nat i; size; p] m d in
    keeps ((p, 4) :: (size, 4) :: private) m m' ∧
    match o with Some b => u32 r = EFI_SUCCESS ∧ ld_bytes m' (ld 4 m' p) 36 = b | None => u32 r ≠ EFI_SUCCESS end;
}.

Section Choice.
Context {Dev : Type} (fw : firmware Dev) (query g gm : Z) (modes : list (option (list Z)))
  (private : list (Z * Z)) `{!ModeQuery fw query g modes private} (f : gop_frame).

(** The memory that the queries change, the size among it: the driver passes it
    where the firmware expects its address. *)
Definition query_area : list (Z * Z) := (lg_info f, 4) :: (sizeof_mode_information, 4) :: private.
Definition protocol_area : list (Z * Z) :=
  [(gop f, 4); (g + gop_mode, 4); (gm + gm_max_mode, 4); (g + gop_query_mode, 4)].
Context (Hinfo : in_space (lg_info f) 4) (Hquery : separate query_area).
Context (Hspace : Forall (λ r, in_space r.1 r.2) protocol_area) (Hapart : each_apart query_area protocol_area).

Definition protocol_in (m : gmap Z Z) : Prop :=
  ld 4 m (gop f) = g ∧ ld 4 m (g + gop_mode) = gm ∧ ld 4 m (gm + gm_max_mode) = Z.of_nat (length modes) ∧
  ld 4 m (g + gop_query_mode) = query.
Lemma protocol_keeps m m' : keeps query_area m m' → protocol_in m → protocol_in m'.
Proof.
  intros Hk (H1 & H2 & H3 & H4).
  assert (Hr : ∀ a, (a, 4) ∈ protocol_area → ld 4 m' a = ld 4 m a).
  { intros a Ha. apply (keeps_ld query_area); [done| |].
    - rewrite Forall_forall in Hspace. exact (Hspace _ Ha).
    - apply Forall_forall. intros r Hr. by apply (apart_each _ _ _ _ Hapart). }
  unfold protocol_in. rewrite !Hr; [done|..]; unfold protocol_area; set_solver.
Qed.

Definition depth_at (i : nat) : option Z := o ← modes !! i; b ← o; candidate b.

(** The best of the modes below [n]: the first of those with most bits. *)
Definition best_below (n : nat) (mode depth : Z) : Prop :=
  (mode = 0xffffffff ∧ depth = 0 ∧ ∀ j, (j < n)%nat → depth_at j = None) ∨
  (∃ i, mode = Z.of_nat i ∧ (i < n)%nat ∧ depth_at i = Some depth ∧
    ∀ j bpp, (j < n)%nat → depth_at j = Some bpp → bpp <= depth ∧ ((j < i)%nat → bpp < depth)).
Lemma depth_at_pos i bpp : depth_at i = Some bpp → 0 < bpp.
Proof.
  unfold depth_at. destruct (modes !! i) as [[b|]|]; cbn; [|done..]. apply candidate_pos.
Qed.
Lemma best_below_skip n mode depth : depth_at n = None → best_below n mode depth → best_below (S n) mode depth.
Proof.
  intros Hn [(Hm & Hd & H)|(i & Hm & Hi & Hd & H)]; [left|right].
  - do 2 (split; [done|]). intros j Hj. destruct (decide (j = n)) as [->|]; [done|]. apply H. lia.
  - exists i. split; [done|]. split; [lia|]. split; [done|]. intros j bpp Hj Hb.
    destruct (decide (j = n)) as [->|]; [by rewrite Hn in Hb|]. apply H; [lia|done].
Qed.
Lemma best_below_next n mode depth bpp :
  depth_at n = Some bpp → best_below n mode depth →
  best_below (S n) (if (depth =? 0) || (depth <? bpp) then Z.of_nat n else mode)
    (if (depth =? 0) || (depth <? bpp) then bpp else depth).
Proof.
  intros Hn Hbest. pose proof (depth_at_pos _ _ Hn).
  destruct Hbest as [(-> & -> & Hnone)|(i & -> & Hi & Hd & Hbest)]; cbn [Z.eqb orb].
  - right. exists n. split; [done|]. split; [lia|]. split; [done|]. intros j b Hj Hb.
    destruct (decide (j = n)) as [->|]; [split; [rewrite Hn in Hb; by injection Hb as ->|lia]|].
    rewrite Hnone in Hb by lia. done.
  - pose proof (depth_at_pos _ _ Hd). destruct (Z.eqb_spec depth 0); [lia|]. cbn [orb].
    destruct (Z.ltb_spec depth bpp); right; [exists n|exists i]; (split; [done|]; split; [lia|]; split; [done|]).
    + intros j b Hj Hb. destruct (decide (j = n)) as [->|].
      * rewrite Hn in Hb. injection Hb as ->. split; [done|lia].
      * destruct (Hbest j b ltac:(lia) Hb). lia.
    + intros j b Hj Hb. destruct (decide (j = n)) as [->|]; [|apply Hbest; [lia|done]].
      rewrite Hn in Hb. injection Hb as ->. split; [done|lia].
Qed.

(** The query of a mode and what it says about it. *)
Lemma query_mode_run i o m d :
  protocol_in (mem m) → modes !! i = Some o →
  ∃ r m' d', method fw g gop_query_mode [g; Z.of_nat i; sizeof_mode_information; lg_info f] (m, d) =
      Some (r, (set_mem m' m, d')) ∧ keeps query_area (mem m) m' ∧
    match o with
    | Some b => EFI_FAILED r = false ∧ ld_bytes m' (ld 4 m' (lg_info f)) 36 = b
    | None => EFI_FAILED r = true
    end.
Proof.
  intros (_ & _ & _ & Hq) Ho. pose proof (mq_query i o sizeof_mode_information (lg_info f) (mem m) d Ho Hinfo ltac:(done) Hquery) as H.
  destruct (fw query [g; Z.of_nat i; sizeof_mode_information; lg_info f] (mem m) d) as [r [m' d']] eqn:E.
  destruct H as [Hk Hres]. exists (u32 r), m', d'. split; [|split; [done|]].
  - unfold method. run_with (on_machine_run (rd32 (g + gop_query_mode)) query m m d ltac:(unfold rd32, gets; by rewrite Hq)).
    unfold efi_call. cbn [fst snd]. by rewrite E.
  - assert (Hu : u32 (u32 r) = u32 r) by word_lia. unfold EFI_FAILED, truth. rewrite Hu.
    destruct o as [b|]; [destruct Hres as [-> Hb]; by split|]. by destruct (Z.eqb_spec (u32 r) 0).
Qed.

(** The state of the loop before mode [n]. *)
Definition choosing (m : machine) (x : Z * Z * Z) (t : machine * Dev) : Prop :=
  t.1 = set_mem (mem t.1) m ∧ keeps query_area (mem m) (mem t.1) ∧
  ∃ n, x.1.1 = Z.of_nat n ∧ (n <= length modes)%nat ∧ best_below n x.1.2 x.2.

(** C33: The mode that [bl_gop_set_video] chooses is the first of those with the most
    bits per pixel among the modes of 1024x768 that are described by bit masks; it
    is -1 when there is none, and modes whose query fails are skipped.  Memory
    changes only where the firmware writes (address 36 is such a place, since the
    size is passed for a pointer). *)
Theorem gop_chooses_deepest m d :
  protocol_in (mem m) →
  wp (choose_mode fw f) (λ mode t,
    t.1 = set_mem (mem t.1) m ∧ keeps query_area (mem m) (mem t.1) ∧
    ((mode = 0xffffffff ∧ ∀ j, depth_at j = None) ∨
     (∃ i depth, mode = Z.of_nat i ∧ depth_at i = Some depth ∧
        ∀ j bpp, depth_at j = Some bpp → bpp <= depth ∧ ((j < i)%nat → bpp < depth)))) (m, d).
Proof.
  intros Hin.
  assert (Hlen : 0 <= Z.of_nat (length modes) < 4294967296) by (destruct Hin as (_ & _ & <- & _); apply ld4_range).
  assert (Hend : ∀ j, (length modes <= j)%nat → depth_at j = None).
  { intros j Hj. unfold depth_at. by rewrite lookup_ge_None_2. }
  unfold choose_mode.
  wp_loop (choosing m) (λ '(i, _, _) _, Z.of_nat (length modes) - i); [| |lia].
  2: { split; [by rewrite set_mem_id|]. split; [done|]. exists 0%nat. split; [done|]. split; [lia|]. left.
       split; [done|]. split; [done|]. lia. }
  intros [[i mode] depth] [m1 d1] (Hm1 & Hk1 & n & Hi & Hn & Hbest). cbn [fst snd] in *. subst i.
  pose proof (protocol_keeps _ _ Hk1 Hin) as Hin1. destruct (Hin1) as (Hg & Hgm & Hmax & _).
  assert (Hmax' : on_machine (g ← rd32 (gop f); gm ← rd32 (g + gop_mode); rd32 (gm + gm_max_mode)) (m1, d1) =
    Some (Z.of_nat (length modes), (m1, d1))).
  { apply on_machine_run. unfold rd32, gets, mbind, ST_bind. by rewrite Hg, Hgm, Hmax. }
  wp_known Hmax'. destruct (Z.ltb_spec (Z.of_nat n) (Z.of_nat (length modes))) as [Hlt|Hge].
  2: { apply wp_ret. split; [done|]. split; [done|]. destruct Hbest as [(-> & _ & H)|(i & -> & Hi & Hd & H)]; [left|right].
       - split; [done|]. intros j. destruct (decide (j < n)%nat); [by apply H|apply Hend; lia].
       - exists i, depth. split; [done|]. split; [done|]. intros j bpp Hj.
         destruct (decide (j < n)%nat); [by apply H|]. rewrite Hend in Hj by lia. done. }
  wp_known (on_machine_run (rd32 (gop f)) g m1 m1 d1 ltac:(unfold rd32, gets; by rewrite Hg)).
  destruct (lookup_lt_is_Some_2 modes n ltac:(lia)) as [o Ho].
  destruct (query_mode_run n o m1 d1 Hin1 Ho) as (r & m2 & d2 & Hrun & Hk2 & Hres).
  wp_known Hrun.
  assert (Hnext : ∀ mode' depth', best_below (S n) mode' depth' →
    choosing m (Z.of_nat n + 1, mode', depth') (set_mem m2 m1, d2) ∧
    0 <= Z.of_nat (length modes) - (Z.of_nat n + 1) < Z.of_nat (length modes) - Z.of_nat n).
  { intros mode' depth' Hb. split; [|lia]. unfold choosing. cbn [fst snd]. rewrite mem_set_mem.
    split; [by rewrite Hm1, set_mem_set_mem|]. split; [by eapply keeps_trans|].
    exists (S n). split; [lia|]. split; [lia|done]. }
  assert (Hdepth : depth_at n = b ← o; candidate b) by (unfold depth_at; by rewrite Ho).
  destruct o as [b|]; cbn in Hdepth.
  - destruct Hres as [-> Hb].
    assert (Hcand : on_machine (info ← rd32 (lg_info f); candidate_depth info) (set_mem m2 m1, d2) =
      Some (candidate b, (set_mem m2 m1, d2))).
    { apply on_machine_run. unfold rd32, gets, mbind, ST_bind. rewrite mem_set_mem.
      apply candidate_depth_run. by rewrite mem_set_mem. }
    wp_known Hcand. destruct (candidate b) as [bpp|].
    + pose proof (best_below_next _ _ _ _ Hdepth Hbest) as Hb'.
      destruct ((depth =? 0) || (depth <? bpp)); apply wp_ret; by apply Hnext.
    + apply wp_ret, Hnext. by apply best_below_skip.
  - rewrite Hres. apply wp_ret, Hnext. by apply best_below_skip.
Qed.
End Choice.

(** ** A firmware with four modes: one that fails, one of 16 bits, one that is not
    described by masks and one of 24 bits. *)
Definition toy_info (format r g b : Z) : list Z :=
  le_split 4 0 ++ le_split 4 1024 ++ le_split 4 768 ++ le_split 4 format ++
  le_split 4 r ++ le_split 4 g ++ le_split 4 b ++ le_split 4 0 ++ le_split 4 1024.
Definition toy_infos : list (option (list Z)) :=
  [None; Some (toy_info 2 0xf800 0x7e0 0x1f); Some (toy_info 1 0 0 0); Some (toy_info 2 0xff0000 0xff00 0xff)].
Definition toy_gop : firmware () := λ fn args m d,
  match args with
  | [_; i; size; p] =>
      match toy_infos !! Z.to_nat i with
      | Some (Some b) => (EFI_SUCCESS, (st 4 (st_bytes (st 4 m size 36) 0x3000 b) p 0x3000, d))
      | _ => (EFI_LOAD_ERROR, (m, d))
      end
  | _ => (EFI_LOAD_ERROR, (m, d))
  end.

Lemma toy_info_bytes i b : toy_infos !! i = Some (Some b) → length b = 36%nat ∧ bytes b.
Proof.
  destruct i as [|[|[|[|i]]]]; intros [= <-]; (split; [done|apply (bool_decide_unpack _); by vm_compute]).
Qed.

#[export] Instance toy_gop_query : ModeQuery toy_gop 0x9000 0x1000 toy_infos [(0x3000, 36)].
Proof.
  split. intros i o size p m [] Ho Hp Hsize Hsep. unfold toy_gop. rewrite Nat2Z.id, Ho.
  destruct o as [b|]; [|by split].
  destruct (toy_info_bytes i b Ho) as [Hlen Hb].
  assert (H1 : apart (p, 4) (0x3000, 36)) by (apply (separate_apart _ 0 2 _ _ Hsep); [lia|done..]).
  assert (Hs : in_space 0x3000 36) by done.
  assert (Hs' : in_space 0x3000 (Z.of_nat (length b))) by (by rewrite Hlen).
  split.
  - eapply keeps_st_in; [|done|left|cbn; lia..]. apply (keeps_trans _ _ (st 4 m size 36)).
    + eapply keeps_st_in; [apply keeps_refl|done|right; left|cbn; lia..].
    + eapply keeps_weaken; [by apply keeps_st_bytes|]. rewrite Hlen. sublist.
  - split; [done|]. rewrite (ld_st_same 4) by done. change (0x3000 mod 256 ^ Z.of_nat 4) with 0x3000.
    rewrite ld_bytes_st_other by (unfold apart, disjoint in *; cbn [fst snd] in *; (done || lia)).
    pose proof (ld_bytes_st_bytes_in (st 4 m size 36) 0x3000 b Hs' Hb) as E. by rewrite Hlen in E.
Qed.

Definition toy_gop_frame : gop_frame := GopFrame 0x2000 0x2010 0x2020 0x2030 0x2040 0x2050 0x2060 0x2070 0x2080 0x2090 0x20a0.
Definition toy_gop_memory : gmap Z Z :=
  st 4 (st 4 (st 4 (st 4 ∅ 0x2000 0x1000) 0x100c 0x1100) 0x1100 4) 0x1000 0x9000.

Lemma gop_chooses_deepest_witness :
  protocol_in 0x9000 0x1000 0x1100 toy_infos toy_gop_frame toy_gop_memory ∧
  wp (choose_mode toy_gop toy_gop_frame) (λ mode _, mode = 3) (set_mem toy_gop_memory machine0, ()).
Proof.
  assert (Hin : protocol_in 0x9000 0x1000 0x1100 toy_infos toy_gop_frame toy_gop_memory) by (by vm_compute).
  split; [done|].
  eapply wp_mono; [apply (gop_chooses_deepest toy_gop 0x9000 0x1000 0x1100 toy_infos [(0x3000, 36)] toy_gop_frame)|].
  all: unfold query_area, protocol_area; try concrete_regions; try done.
  - cbv beta. intros mode t (_ & _ & [[_ H]|(i & depth & -> & Hi & H)]); [by specialize (H 3%nat)|].
    destruct (H 3%nat 24 eq_refl) as [H1 H2].
    destruct i as [|[|[|[|i]]]]; [by vm_compute in Hi| | by vm_compute in Hi|done|done].
    change (Some 16 = Some depth) in Hi. injection Hi as <-. lia.
Defined.
