(* ===== verification/Pata.v ===== *)
(** * The ATA disk driver: modules/storage/pata/pata.c, pata.h

    A device found on a channel is a heap object that holds its port and the
    512 bytes it identified itself with; the driver keeps a list of them and
    registers a disk for each.  The drive is a device behind ports. *)
From S2P Require Import Prelude Memory Arith Status Strings StringsProofs Heap Storage Ports Pci.

(** ** pata.h *)
Definition BL_PATA_PRIMARY_PORT : Z := 0x1f0.
Definition BL_PATA_SECONDARY_PORT : Z := 0x170.
Definition BL_PATA_REG_STATUS_ERR : Z := Z.shiftl 1 0.
Definition BL_PATA_REG_STATUS_DRQ : Z := Z.shiftl 1 3.
Definition BL_PATA_REG_STATUS_BSY : Z := Z.shiftl 1 7.
Definition BL_PATA_REG_DEVICE_SET (lba type : Z) : Z :=
  Z.lor (Z.lor (Z.lor (Z.lor (Z.shiftl 1 7) (Z.shiftl (Z.land lba 1) 6)) (Z.shiftl 1 5))
    (Z.shiftl (Z.land type 1) 4)) 0.
Definition BL_PATA_REG__READ__DPATA : Z := 0x0.
Definition BL_PATA_REG__READ__STATUS : Z := 0x7.
Definition BL_PATA_REG__WRITE__FEATURES : Z := 0x1.
Definition BL_PATA_REG__WRITE__SECTOR_COUNT : Z := 0x2.
Definition BL_PATA_REG__WRITE__LBA_LOW : Z := 0x3.
Definition BL_PATA_REG__WRITE__LBA_MID : Z := 0x4.
Definition BL_PATA_REG__WRITE__LBA_HIGH : Z := 0x5.
Definition BL_PATA_REG__WRITE__LBA48_LOW : Z := 0x3.
Definition BL_PATA_REG__WRITE__LBA48_MID : Z := 0x4.
Definition BL_PATA_REG__WRITE__LBA48_HIGH : Z := 0x5.
Definition BL_PATA_REG__WRITE__DEVICE : Z := 0x6.
Definition BL_PATA_REG__WRITE__COMMAND : Z := 0x7.
Definition BL_PATA_CMD_IDENTIFY_DEVICE : Z := 0xec.
Definition BL_PATA_CMD_READ_SECTORS : Z := 0x20.

(** [struct bl_pata_identification]: 512 bytes as the drive sends them. *)
Definition ident_sectors_lba48 : Z := 200.
Definition sizeof_identification : Z := 512.

(** [struct bl_pata_device] *)
Definition pata_io : Z := 0.
Definition pata_type : Z := 4.
Definition pata_present : Z := 8.
Definition pata_id : Z := 12.
Definition pata_next : Z := 524.
Definition sizeof_pata_device : Z := 528.

Definition BL_PCI_BASE_CLASS_STORAGE : Z := 0x01.
Definition BL_PCI_SUBCLASS_STORAGE_IDE : Z := 0x01.
Definition BL_PCI_CONFIG_REG_BAR0 : Z := 0x10.
Definition BL_PCI_CONFIG_REG_BAR1 : Z := 0x14.

Section Pata.
Context {Dev : Type} (io : ports Dev).
(** [bl_time_sleep], of the firmware the loader is built for. *)
Context (bl_time_sleep : Z → D Dev Z).
(** Where the static [bl_pata_device_list] is. *)
Context (bl_pata_device_list : Z).

Definition bl_pata_device_add (device : Z) : M () :=
  list ← rd32 bl_pata_device_list;
  wr32 (device + pata_next) list;;
  wr32 bl_pata_device_list device.

Definition bl_pata_write_reg (device reg val : Z) : D Dev () :=
  port ← on_machine (rd16 (device + pata_io));
  bl_outb io val (u16 (port + reg)).

Definition bl_pata_read_reg (device reg : Z) : D Dev Z :=
  port ← on_machine (rd16 (device + pata_io));
  bl_inb io (u16 (port + reg)).

Definition bl_pata_read_data (device : Z) : D Dev Z :=
  port ← on_machine (rd16 (device + pata_io));
  bl_inw io (u16 (port + BL_PATA_REG__READ__DPATA)).

Definition bl_pata_wait_ready (device : Z) : D Dev bl_status_t :=
  mwhile (λ timeout,
    let timeout := timeout - 1 in
    if truth timeout then
      status ← bl_pata_read_reg device BL_PATA_REG__READ__STATUS;
      if Z.land status BL_PATA_REG_STATUS_BSY =? 0 then break BL_STATUS_SUCCESS
      else bl_time_sleep 1;; continue timeout
    else break BL_STATUS_DISK_OPERATION_TIMEOUT) 100.

Definition bl_pata_buffer_read_sector (device buf : Z) : D Dev () :=
  mwhile (λ i,
    if i <? BL_STORAGE_SECTOR_SIZE / 2 then
      v ← bl_pata_read_data device;
      on_machine (wr16 (u32 (buf + 2 * i)) v);;
      continue (i + 1)
    else break ()) 0.

(** The registers are written twice, high halves first. *)
Definition pata_set_registers (device lba sectors : Z) : D Dev () :=
  bl_pata_write_reg device BL_PATA_REG__WRITE__FEATURES 0;;
  bl_pata_write_reg device BL_PATA_REG__WRITE__SECTOR_COUNT (Z.land (Z.shiftr sectors 8) 0xff);;
  bl_pata_write_reg device BL_PATA_REG__WRITE__LBA48_LOW (Z.land (Z.shiftr lba 24) 0xff);;
  bl_pata_write_reg device BL_PATA_REG__WRITE__LBA48_MID (Z.land (Z.shiftr lba 32) 0xff);;
  bl_pata_write_reg device BL_PATA_REG__WRITE__LBA48_HIGH (Z.land (Z.shiftr lba 40) 0xff);;
  bl_pata_write_reg device BL_PATA_REG__WRITE__SECTOR_COUNT (Z.land sectors 0xff);;
  bl_pata_write_reg device BL_PATA_REG__WRITE__LBA_LOW (Z.land lba 0xff);;
  bl_pata_write_reg device BL_PATA_REG__WRITE__LBA_MID (Z.land (Z.shiftr lba 8) 0xff);;
  bl_pata_write_reg device BL_PATA_REG__WRITE__LBA_HIGH (Z.land (Z.shiftr lba 16) 0xff);;
  type ← on_machine (rd32 (device + pata_type));
  bl_pata_write_reg device BL_PATA_REG__WRITE__DEVICE (BL_PATA_REG_DEVICE_SET 1 type).

(** The sectors that the drive offers go to the buffer. *)
Definition pata_transfer (device buf buf_sectors read_status : Z) : D Dev bl_status_t :=
  mwhile (λ '(i, read_status),
    if i <? buf_sectors then
      if Z.land read_status (Z.lor BL_PATA_REG_STATUS_DRQ BL_PATA_REG_STATUS_ERR)
         =? BL_PATA_REG_STATUS_ERR then break BL_STATUS_SUCCESS
      else
        bl_pata_buffer_read_sector device (u32 (buf + i * BL_STORAGE_SECTOR_SIZE));;
        status ← bl_pata_wait_ready device;
        if failed status then break status
        else
          read_status ← bl_pata_read_reg device BL_PATA_REG__READ__STATUS;
          continue (i + 1, read_status)
    else break BL_STATUS_SUCCESS) (0, read_status).

Definition bl_pata_device_command (device command buf buf_sectors lba sectors : Z) :
    D Dev bl_status_t :=
  pata_set_registers device lba sectors;;
  bl_pata_write_reg device BL_PATA_REG__WRITE__COMMAND (u8 command);;
  status ← bl_pata_wait_ready device;
  if failed status then mret status
  else
    read_status ← bl_pata_read_reg device BL_PATA_REG__READ__STATUS;
    pata_transfer device buf buf_sectors read_status.

(** [disk->data] is the device. *)
Definition bl_pata_read (data buf lba sectors : Z) : D Dev bl_status_t :=
  status ← bl_pata_device_command data BL_PATA_CMD_READ_SECTORS buf sectors lba sectors;
  if failed status then mret status else mret BL_STATUS_SUCCESS.

(** The loop that waits for the answer gives the [timeout] that is left. *)
Definition bl_pata_device_connected (device : Z) : D Dev bl_status_t :=
  type ← on_machine (rd32 (device + pata_type));
  bl_pata_write_reg device BL_PATA_REG__WRITE__DEVICE (BL_PATA_REG_DEVICE_SET 1 type);;
  bl_time_sleep 1;;
  bl_pata_write_reg device BL_PATA_REG__WRITE__COMMAND BL_PATA_CMD_IDENTIFY_DEVICE;;
  bl_time_sleep 1;;
  status ← bl_pata_read_reg device BL_PATA_REG__READ__STATUS;
  if status =? 0 then mret BL_STATUS_FAILURE
  else
    timeout ← mwhile (λ timeout,
      let timeout := timeout - 1 in
      if truth timeout then
        status ← bl_pata_read_reg device BL_PATA_REG__READ__STATUS;
        if (Z.land status BL_PATA_REG_STATUS_BSY =? 0) && truth (Z.land status BL_PATA_REG_STATUS_DRQ)
        then break timeout
        else bl_time_sleep 1;; continue timeout
      else break timeout) 50;
    mret (if negb (truth timeout) then BL_STATUS_FAILURE else BL_STATUS_SUCCESS).

Definition bl_pata_identify_device (device buf : Z) : D Dev bl_status_t :=
  bl_pata_device_command device BL_PATA_CMD_IDENTIFY_DEVICE buf 1 0 0.

Definition bl_pata_check_channel_device (type port : Z) : D Dev bl_status_t :=
  device ← on_machine (bl_heap_alloc sizeof_pata_device);
  if is_null device then mret BL_STATUS_MEMORY_ALLOCATION_FAILED
  else
    on_machine (wr32 (device + pata_type) type);;
    on_machine (wr16 (device + pata_io) port);;
    status ← bl_pata_device_connected device;
    if failed status then on_machine (bl_heap_free device sizeof_pata_device);; mret status
    else
      on_machine (wr32 (device + pata_present) 1);;
      status ← bl_pata_identify_device device (device + pata_id);
      if failed status then on_machine (bl_heap_free device sizeof_pata_device);; mret status
      else
        on_machine (bl_pata_device_add device);;
        mret BL_STATUS_SUCCESS.

Definition bl_pata_get_port (channel : Z) : Z :=
  match channel with
  | 0 => BL_PATA_PRIMARY_PORT
  | 1 => BL_PATA_SECONDARY_PORT
  | _ => -1
  end.

(** Only channels in the fixed ("compatibility") ports, and only masters. *)
Definition bl_pata_pci_initialize (i : bl_pci_index) : D Dev bl_status_t :=
  status ← bl_pci_check_device_class io i BL_PCI_BASE_CLASS_STORAGE BL_PCI_SUBCLASS_STORAGE_IDE (-1);
  if failed status then mret status
  else
    mwhile (λ channel,
      if channel <? 2 then
        let offset := channel * 2 * 4 in
        bar ← bl_pci_read_config_long io i (BL_PCI_CONFIG_REG_BAR0 + offset);
        control_bar ← bl_pci_read_config_long io i (BL_PCI_CONFIG_REG_BAR1 + offset);
        if negb (bar =? 0) || negb (control_bar =? 0) then continue (channel + 1)
        else
          status ← bl_pata_check_channel_device 0 (u16 (bl_pata_get_port channel));
          if failed status then break status else continue (channel + 1)
      else break BL_STATUS_SUCCESS) 0.

(** [BL_MODULE_INIT].  The disks are allocated; their field [partitions] is not
    set, and is what the allocated block held. *)
Definition pata_register_disks (pata_functions : bl_disk_controller_functions)
    (devices : list bl_storage_device) : M (list bl_storage_device) :=
  device ← rd32 bl_pata_device_list;
  mwhile (λ '(device, devices),
    if truth device then
      disk ← bl_heap_alloc sizeof_storage_device;
      if is_null disk then break devices
      else
        wr32 (disk + storage_type) 0;;
        wr32 (disk + storage_sector_size) BL_STORAGE_SECTOR_SIZE;;
        sectors_lba48 ← rd64 (device + pata_id + ident_sectors_lba48);
        wr64 (disk + storage_sector_count) sectors_lba48;;
        wr32 (disk + storage_data) device;;
        wr32 (disk + storage_next) NULL;;
        partitions ← rd32 (disk + storage_partitions);
        next ← rd32 (device + pata_next);
        continue (next, bl_storage_device_register
          (Disk BL_STORAGE_TYPE_HARD_DRIVE (DiskInfo BL_STORAGE_SECTOR_SIZE sectors_lba48) partitions
             (Some pata_functions) device) devices)
    else break devices) (device, devices).

Definition pata_module_init (pata_functions : bl_disk_controller_functions)
    (controllers : list bl_disk_controller_functions) (devices : list bl_storage_device) :
    D Dev (list bl_disk_controller_functions * list bl_storage_device) :=
  bl_pci_iterate_devices io (Some bl_pata_pci_initialize);;
  controller ← on_machine (bl_heap_alloc sizeof_disk_controller);
  if is_null controller then mret (controllers, devices)
  else
    devices ← on_machine (pata_register_disks pata_functions devices);
    mret (bl_disk_controller_register pata_functions controllers, devices).
End Pata.

(** The driver's functions, on a drive that is in the state [d] when they are
    called. *)
Definition pata_functions {Dev} (io : ports Dev) (bl_time_sleep : Z → D Dev Z) (d : Dev) :
    bl_disk_controller_functions :=
  DiskFunctions BL_DISK_CONTROLLER_TYPE_PATA
    (λ _ data buf lba sectors, embed d (bl_pata_read io bl_time_sleep data buf lba sectors)) None.
