(* ===== verification/PataProofs.v ===== *)
(** * Proofs about the ATA driver: what a read of a drive stores, and reads of
    the storage layer through the driver *)
From S2P Require Import Prelude Memory Arith Status Strings StringsProofs Heap.
From S2P Require Import HeapProofs HeapClient Storage StorageProofs Ports Pci Pata.

(** ** Sectors as 16-bit words *)
Definition words (image : Z → Z) (a n : Z) : list Z :=
  (λ j, le_combine (slice image (a + 2 * j) 2)) <$> seqZ 0 n.

Lemma words_cons image a n :
  0 < n → words image a n = le_combine (slice image a 2) :: words image (a + 2) (n - 1).
Proof.
  intros. unfold words. rewrite seqZ_cons by lia. cbn [fmap list_fmap]. f_equal.
  - do 2 f_equal. lia.
  - replace (Z.succ 0) with (1 + 0) by lia. replace (Z.pred n) with (n - 1) by lia.
    rewrite <- fmap_add_seqZ, <- list_fmap_compose. apply list_fmap_ext. intros i x _.
    unfold compose. do 2 f_equal. lia.
Qed.

Lemma words_nil image a n : n <= 0 → words image a n = [].
Proof. intros. unfold words. by rewrite seqZ_nil by lia. Qed.

Lemma length_words image a n : 0 <= n → Z.of_nat (length (words image a n)) = n.
Proof. intros. unfold words. rewrite length_fmap, length_seqZ. lia. Qed.

(** Storing a word behind the bytes that are already there. *)
Lemma store_word m buf image a n :
  0 <= n → st 2 (st_bytes m buf (slice image a n)) (buf + n) (le_combine (slice image (a + n) 2)) =
  st_bytes m buf (slice image a (n + 2)).
Proof.
  intros Hn. rewrite slice_app, st_bytes_app, length_slice by lia. unfold st. f_equal.
  apply (le_split_combine (slice image (a + n) 2)), bytes_slice.
Qed.

(** ** What a drive promises

    [regs] are the task file registers as last written, [data] the words that
    are left of the current transfer, [busy] how often the drive still answers
    busy: never as often as the driver asks.  READ SECTORS takes a count of 0
    for 256 and a 28-bit address. *)
Definition ata_count (regs : Z → Z) : Z := if regs 2 =? 0 then 256 else regs 2.
Definition ata_lba (regs : Z → Z) : Z :=
  regs 3 + 256 * regs 4 + 65536 * regs 5 + 16777216 * (regs 6 mod 16).

Class AtaDrive {Dev : Type} (io : ports Dev) (bl_time_sleep : Z → D Dev Z) (port : Z)
    (image : Z → Z) (sectors : Z) (regs : Dev → Z → Z) (data : Dev → list Z) (busy : Dev → Z) : Prop :=
  AtaDriveLaws {
    ata_busy d : 0 <= busy d <= 98;
    ata_write d r v : 1 <= r <= 6 → busy d = 0 → data d = [] →
      busy (out8 io v (port + r) d) = 0 ∧ data (out8 io v (port + r) d) = [] ∧
      ∀ k, regs (out8 io v (port + r) d) k = if k =? r then v else regs d k;
    ata_command d : busy d = 0 → data d = [] → truth (Z.land (regs d 6) 0x40) = true →
      ata_lba (regs d) + ata_count (regs d) <= sectors →
      data (out8 io BL_PATA_CMD_READ_SECTORS (port + 7) d) =
      words image (512 * ata_lba (regs d)) (256 * ata_count (regs d));
    ata_status d : let '(v, d') := in8 io (port + 7) d in
      data d' = data d ∧
      (busy d = 0 → Z.land (u8 v) BL_PATA_REG_STATUS_BSY = 0 ∧ busy d' = 0 ∧
        (data d ≠ [] → Z.testbit (u8 v) 3 = true)) ∧
      (0 < busy d → Z.land (u8 v) BL_PATA_REG_STATUS_BSY ≠ 0 ∧ busy d' < busy d);
    ata_data d w l : busy d = 0 → data d = w :: l →
      let '(v, d') := in16 io port d in
      u16 v = w ∧ data d' = l ∧ (Z.of_nat (length l) mod 256 ≠ 0 → busy d' = 0);
    ata_sleep ms m d : ∃ x d', bl_time_sleep ms (m, d) = Some (x, (m, d')) ∧
      data d' = data d ∧ busy d' <= busy d;
  }.

(** The driver's record of the drive: a master at [port]. *)
Definition drive_at (m : gmap Z Z) (device port : Z) : Prop :=
  in_space device sizeof_pata_device ∧ ld 2 m (device + pata_io) = port ∧
  ld 4 m (device + pata_type) = 0.

Section Pata.
Context {Dev : Type} (io : ports Dev) (bl_time_sleep : Z → D Dev Z) (port : Z).
Context (image : Z → Z) (sectors : Z) (regs : Dev → Z → Z) (data : Dev → list Z) (busy : Dev → Z).
Context `{Hata : !AtaDrive io bl_time_sleep port image sectors regs data busy}.
Context (Hport : 0 <= port < 65528).

Definition idle (d : Dev) : Prop := busy d = 0 ∧ data d = [].

Lemma write_reg_run device r v m d :
  drive_at (mem m) device port → 0 <= r <= 7 →
  bl_pata_write_reg io device r v (m, d) = Some ((), (m, out8 io (u8 v) (port + r) d)).
Proof using Hport.
  intros (_ & Hp & _) Hr. unfold bl_pata_write_reg. run_on_machine.
  rewrite Hp, u16_small by lia. done.
Qed.

Lemma read_status_run device m d :
  drive_at (mem m) device port →
  ∃ v d', bl_pata_read_reg io device BL_PATA_REG__READ__STATUS (m, d) = Some (v, (m, d')) ∧
    data d' = data d ∧
    (busy d = 0 → Z.land v BL_PATA_REG_STATUS_BSY = 0 ∧ busy d' = 0 ∧ (data d ≠ [] → Z.testbit v 3 = true)) ∧
    (0 < busy d → Z.land v BL_PATA_REG_STATUS_BSY ≠ 0 ∧ busy d' < busy d).
Proof using Hata Hport.
  intros (_ & Hp & _). unfold bl_pata_read_reg. run_on_machine.
  rewrite Hp. change BL_PATA_REG__READ__STATUS with 7. rewrite u16_small by lia.
  pose proof (ata_status d) as H. destruct (in8 io (port + 7) d) as [v d'] eqn:E.
  exists (u8 v), d'. split; [by apply bl_inb_run|done].
Qed.

(** The drive gets ready before the time is over. *)
Lemma wait_ready_run device m d :
  drive_at (mem m) device port →
  ∃ d', bl_pata_wait_ready io bl_time_sleep device (m, d) = Some (BL_STATUS_SUCCESS, (m, d')) ∧
    busy d' = 0 ∧ data d' = data d.
Proof using Hata Hport.
  intros Hd.
  assert (Hw : wp (bl_pata_wait_ready io bl_time_sleep device)
    (λ st s, st = BL_STATUS_SUCCESS ∧ s.1 = m ∧ busy s.2 = 0 ∧ data s.2 = data d) (m, d)).
  { apply (wp_mwhile _ (λ t s, s.1 = m ∧ data s.2 = data d ∧ busy s.2 <= t - 2 ∧ t <= 100) _ (λ t _, t)).
    - intros t [m' dd] (Hm & Hdat & Hb & Ht). cbn [fst snd] in *. subst m'. cbv zeta.
      pose proof (ata_busy dd) as Hr. rewrite truth_pos by lia.
      destruct (read_status_run device m dd Hd) as (v & d1 & Hrun & Hd1 & H0 & Hpos). wp_known Hrun.
      destruct (decide (busy dd = 0)) as [E|E].
      + destruct (H0 E) as (-> & Hb1 & _). apply wp_ret. cbn [fst snd]. split_and!; congruence.
      + destruct (Hpos ltac:(lia)) as (Hv & Hb1). destruct (Z.eqb_spec (Z.land v BL_PATA_REG_STATUS_BSY) 0); [done|].
        destruct (ata_sleep (io := io) 1 m d1) as (x & d2 & Hs & Hd2 & Hb2). wp_known Hs. apply wp_ret. cbn [fst snd].
        split_and!; [done|congruence|lia..].
    - cbn [fst snd]. pose proof (ata_busy d). split_and!; [done..|lia|lia].
    - unfold while_fuel. lia. }
  apply wp_run in Hw as (st & [m' d'] & Hrun & -> & Hm & Hb & Hdat). cbn [fst snd] in *. subst m'. eauto.
Qed.

(** The memory after [n] bytes of the image from byte [a] went to [buf]. *)
Definition filled (m : machine) (buf a n : Z) : machine :=
  set_mem (st_bytes (mem m) buf (slice image a n)) m.

Lemma filled_0 m buf a : filled m buf a 0 = m.
Proof. unfold filled. destruct m. done. Qed.

Lemma filled_filled m buf a n k :
  0 <= n → 0 <= k → filled (filled m buf a n) (buf + n) (a + n) k = filled m buf a (n + k).
Proof.
  intros. unfold filled. rewrite mem_set_mem, set_mem_set_mem, slice_app, st_bytes_app, length_slice by lia.
  done.
Qed.

Lemma drive_at_filled m device buf a n :
  0 <= n → in_space buf n → disjoint buf n device sizeof_pata_device →
  drive_at (mem m) device port → drive_at (mem (filled m buf a n)) device port.
Proof.
  intros Hn Hb Hdis ([? [? ?]] & Hp & Ht). unfold drive_at, filled. rewrite mem_set_mem.
  assert (Hl : Z.of_nat (length (slice image a n)) = n) by by apply length_slice.
  unfold disjoint, pata_io, pata_type, sizeof_pata_device in *.
  rewrite !ld_st_bytes_other; rewrite ?Hl; unfold in_space, disjoint in *; try done; lia.
Qed.

(** One sector: 256 words. *)
Lemma read_sector_run device buf a total m d :
  256 <= total → total mod 256 = 0 → in_space buf 512 → disjoint buf 512 device sizeof_pata_device →
  drive_at (mem m) device port → busy d = 0 → data d = words image a total →
  ∃ d', bl_pata_buffer_read_sector io device buf (m, d) = Some ((), (filled m buf a 512, d')) ∧
    data d' = words image (a + 512) (total - 256).
Proof using Hata Hport.
  intros Ht Htm Hbuf Hdis Hdrv Hb Hdat.
  assert (Hw : wp (bl_pata_buffer_read_sector io device buf)
    (λ _ s, s.1 = filled m buf a 512 ∧ data s.2 = words image (a + 512) (total - 256)) (m, d)).
  { apply (wp_mwhile _ (λ i s, 0 <= i <= 256 ∧ s.1 = filled m buf a (2 * i) ∧
      data s.2 = words image (a + 2 * i) (total - i) ∧ (i < 256 → busy s.2 = 0)) _ (λ i _, 256 - i)).
    - intros i [m' dd] (Hi & Hm & Hd & Hbi). cbn [fst snd] in *. subst m'.
      change (BL_STORAGE_SECTOR_SIZE / 2) with 256. destruct (Z.ltb_spec i 256) as [Hlt|Hge].
      2:{ assert (i = 256) as -> by lia. apply wp_ret. cbn [fst snd]. split; [done|exact Hd]. }
      rewrite words_cons in Hd by lia.
      assert (Hdrv' : drive_at (mem (filled m buf a (2 * i))) device port).
      { apply drive_at_filled; [lia|unfold in_space in *; lia|unfold disjoint in *; lia|done]. }
      pose proof (ata_data (io := io) dd _ _ (Hbi Hlt) Hd) as Hlaw.
      destruct (in16 io port dd) as [v d1] eqn:E. destruct Hlaw as (Hv & Hd1 & Hb1).
      assert (Hrd : bl_pata_read_data io device (filled m buf a (2 * i), dd) =
        Some (le_combine (slice image (a + 2 * i) 2), (filled m buf a (2 * i), d1))).
      { rewrite <- Hv. unfold bl_pata_read_data. run_on_machine. destruct Hdrv' as (_ & -> & _).
        change BL_PATA_REG__READ__DPATA with 0. rewrite Z.add_0_r, u16_small by lia.
        exact (bl_inw_run io port _ dd v d1 E). }
      wp_known Hrd. apply wp_bind, wp_on_machine, wp_modify, wp_ret. cbn [fst snd].
      split; [|lia]. split_and!; [lia..| | |].
      + unfold filled, with_mem. rewrite mem_set_mem, set_mem_set_mem, u32_small by (unfold in_space in *; lia).
        rewrite store_word by lia. do 3 f_equal. lia.
      + rewrite Hd1. f_equal; lia.
      + intros Hi'. apply Hb1. pose proof (length_words image (a + 2 * i + 2) (total - i - 1)).
        Z.div_mod_to_equations. lia.
    - cbn [fst snd]. split_and!; [lia..| | |done]; [by rewrite filled_0|rewrite Hdat; f_equal; lia].
    - unfold while_fuel. lia. }
  apply wp_run in Hw as ([] & [m' d'] & Hrun & Hm & Hd). cbn [fst snd] in *. subst m'. eauto.
Qed.

Lemma drq_no_error rs :
  Z.testbit rs 3 = true →
  (Z.land rs (Z.lor BL_PATA_REG_STATUS_DRQ BL_PATA_REG_STATUS_ERR) =? BL_PATA_REG_STATUS_ERR) = false.
Proof.
  intros H. apply Z.eqb_neq. intros E. apply (f_equal (λ x, Z.testbit x 3)) in E.
  rewrite Z.land_spec, H in E. done.
Qed.

Lemma transfer_run device buf a n rs m d :
  0 <= n → in_space buf (512 * n) → disjoint buf (512 * n) device sizeof_pata_device →
  drive_at (mem m) device port → busy d = 0 → data d = words image a (256 * n) →
  (0 < n → Z.testbit rs 3 = true) →
  ∃ d', pata_transfer io bl_time_sleep device buf n rs (m, d) =
      Some (BL_STATUS_SUCCESS, (filled m buf a (512 * n), d')) ∧ idle d'.
Proof using Hata Hport.
  intros Hn Hbuf Hdis Hdrv Hb Hdat Hrs.
  assert (Hw : wp (pata_transfer io bl_time_sleep device buf n rs)
    (λ st s, st = BL_STATUS_SUCCESS ∧ s.1 = filled m buf a (512 * n) ∧ idle s.2) (m, d)).
  { apply (wp_mwhile _ (λ '(i, rs) s, 0 <= i <= n ∧ s.1 = filled m buf a (512 * i) ∧ busy s.2 = 0 ∧
      data s.2 = words image (a + 512 * i) (256 * (n - i)) ∧ (i < n → Z.testbit rs 3 = true))
      _ (λ '(i, _) _, n - i)).
    - clear rs Hrs. intros [i rs] [m' dd] (Hi & Hm & Hbb & Hd & Hrs). cbn [fst snd] in *. subst m'.
      destruct (Z.ltb_spec i n) as [Hlt|Hge].
      2:{ assert (i = n) as -> by lia. apply wp_ret. unfold idle. cbn [fst snd]. split_and!; [done..|].
          rewrite Hd, words_nil by lia. done. }
      rewrite drq_no_error by auto. change BL_STORAGE_SECTOR_SIZE with 512.
      rewrite u32_small by (unfold in_space in *; lia).
      assert (Hdrv' : drive_at (mem (filled m buf a (512 * i))) device port).
      { apply drive_at_filled; [lia|unfold in_space in *; lia|unfold disjoint in *; lia|done]. }
      destruct (read_sector_run device (buf + i * 512) (a + 512 * i) (256 * (n - i)) (filled m buf a (512 * i)) dd)
        as (d1 & Hr1 & Hd1); [lia|Z.div_mod_to_equations; lia|unfold in_space in *; lia
          |unfold disjoint in *; lia|exact Hdrv'|done|done|].
      wp_known Hr1. replace (buf + i * 512) with (buf + 512 * i) by lia. rewrite filled_filled by lia.
      assert (Hdrv2 : drive_at (mem (filled m buf a (512 * i + 512))) device port).
      { apply drive_at_filled; [lia|unfold in_space in *; lia|unfold disjoint in *; lia|done]. }
      destruct (wait_ready_run device _ d1 Hdrv2) as (d2 & Hr2 & Hb2 & Hd2). wp_known Hr2.
      change (failed BL_STATUS_SUCCESS) with false. cbv iota.
      destruct (read_status_run device _ d2 Hdrv2) as (v & d3 & Hr3 & Hd3 & H0 & _). wp_known Hr3.
      destruct (H0 Hb2) as (_ & Hb3 & Hv). apply wp_ret. cbn [fst snd].
      split; [|lia]. split_and!; [lia|lia|f_equal; lia|done|rewrite Hd3, Hd2, Hd1; f_equal; lia|].
      intros Hlt'. apply Hv. rewrite Hd2, Hd1, words_cons by lia. done.
    - cbn [fst snd]. split_and!; [lia|lia|by rewrite Z.mul_0_r, filled_0|done| |intros; apply Hrs; lia].
      rewrite Hdat. f_equal; lia.
    - unfold while_fuel, in_space in *. lia. }
  apply wp_run in Hw as (st & [m' d'] & Hrun & -> & Hm & Hid). cbn [fst snd] in *. subst m'. eauto.
Qed.

(** The register writes: the last value of each register counts. *)
Lemma write_reg_idle device r v m d :
  drive_at (mem m) device port → idle d → 1 <= r <= 6 → 0 <= v < 256 →
  ∃ d', bl_pata_write_reg io device r v (m, d) = Some ((), (m, d')) ∧ idle d' ∧
    ∀ k, regs d' k = if k =? r then v else regs d k.
Proof using Hata Hport.
  intros Hdrv [Hb Hd] Hr Hv. eexists. split; [apply write_reg_run; [done|lia]|].
  rewrite u8_small by done. destruct (ata_write d r v Hr Hb Hd) as (? & ? & ?). done.
Qed.

Lemma set_registers_run device lba n m d :
  drive_at (mem m) device port → idle d →
  ∃ d', pata_set_registers io device lba n (m, d) = Some ((), (m, d')) ∧ idle d' ∧
    regs d' 2 = n mod 256 ∧ regs d' 3 = lba mod 256 ∧ regs d' 4 = lba / 256 mod 256 ∧
    regs d' 5 = lba / 65536 mod 256 ∧ regs d' 6 = 0xe0.
Proof using Hata Hport.
  intros Hdrv Hd.
  assert (Hb : ∀ x, 0 <= Z.land x 0xff < 256) by (intros x; rewrite land_255; apply u8_range).
  unfold pata_set_registers.
  edestruct (write_reg_idle device 1 0) as (d1 & H1 & Hd1 & R1); [exact Hdrv|exact Hd|lia|lia|run_with H1].
  edestruct (write_reg_idle device 2) as (d2 & H2 & Hd2 & R2);
    [exact Hdrv|exact Hd1|lia|apply (Hb (Z.shiftr n 8))|run_with H2].
  edestruct (write_reg_idle device 3) as (d3 & H3 & Hd3 & R3);
    [exact Hdrv|exact Hd2|lia|apply (Hb (Z.shiftr lba 24))|run_with H3].
  edestruct (write_reg_idle device 4) as (d4 & H4 & Hd4 & R4);
    [exact Hdrv|exact Hd3|lia|apply (Hb (Z.shiftr lba 32))|run_with H4].
  edestruct (write_reg_idle device 5) as (d5 & H5 & Hd5 & R5);
    [exact Hdrv|exact Hd4|lia|apply (Hb (Z.shiftr lba 40))|run_with H5].
  edestruct (write_reg_idle device 2) as (d6 & H6 & Hd6 & R6);
    [exact Hdrv|exact Hd5|lia|apply (Hb n)|run_with H6].
  edestruct (write_reg_idle device 3) as (d7 & H7 & Hd7 & R7);
    [exact Hdrv|exact Hd6|lia|apply (Hb lba)|run_with H7].
  edestruct (write_reg_idle device 4) as (d8 & H8 & Hd8 & R8);
    [exact Hdrv|exact Hd7|lia|apply (Hb (Z.shiftr lba 8))|run_with H8].
  edestruct (write_reg_idle device 5) as (d9 & H9 & Hd9 & R9);
    [exact Hdrv|exact Hd8|lia|apply (Hb (Z.shiftr lba 16))|run_with H9].
  run_on_machine. destruct (Hdrv) as (_ & _ & ->). change (BL_PATA_REG_DEVICE_SET 1 0) with 0xe0.
  edestruct (write_reg_idle device 6 0xe0) as (da & Ha & Hda & Ra); [exact Hdrv|exact Hd9|lia|lia|].
  exists da. split; [exact Ha|]. split; [done|].
  rewrite !Ra, !R9, !R8, !R7, !R6. cbn [Z.eqb Pos.eqb]. rewrite !land_255, !Z.shiftr_div_pow2 by lia. done.
Qed.

(** A read of [n] sectors from block [lba]: the drive sees the low 24 bits of
    the block number. *)
Lemma pata_read_run device buf lba n m d :
  drive_at (mem m) device port → idle d → 0 <= lba → 0 < n <= 256 →
  in_space buf (512 * n) → disjoint buf (512 * n) device sizeof_pata_device →
  lba mod 16777216 + n <= sectors →
  ∃ d', bl_pata_read io bl_time_sleep device buf lba n (m, d) =
      Some (BL_STATUS_SUCCESS, (filled m buf (512 * (lba mod 16777216)) (512 * n), d')) ∧ idle d'.
Proof using Hata Hport.
  intros Hdrv Hd Hlba Hn Hbuf Hdis Hsec.
  destruct (set_registers_run device lba n m d Hdrv Hd) as (d1 & Hr1 & [Hb1 Hd1] & R2 & R3 & R4 & R5 & R6).
  assert (HL : ata_lba (regs d1) = lba mod 16777216).
  { unfold ata_lba. rewrite R3, R4, R5, R6. change (0xe0 mod 16) with 0. Z.div_mod_to_equations. lia. }
  assert (HC : ata_count (regs d1) = n).
  { unfold ata_count. rewrite R2. destruct (decide (n = 256)) as [->|]; [done|].
    rewrite Z.mod_small by lia. by destruct (Z.eqb_spec n 0); [lia|]. }
  pose proof (ata_command d1 Hb1 Hd1) as Hcmd. rewrite R6, HL, HC in Hcmd. specialize (Hcmd eq_refl Hsec).
  pose proof (write_reg_run device 7 (u8 0x20) m d1 Hdrv ltac:(lia)) as Hr2. rewrite u8_idemp in Hr2.
  change (u8 0x20) with BL_PATA_CMD_READ_SECTORS in Hr2.
  set (d2 := out8 io BL_PATA_CMD_READ_SECTORS (port + 7) d1) in *.
  destruct (wait_ready_run device m d2 Hdrv) as (d3 & Hr3 & Hb3 & Hd3).
  destruct (read_status_run device m d3 Hdrv) as (v & d4 & Hr4 & Hd4 & H0 & _).
  destruct (H0 Hb3) as (_ & Hb4 & Hv). rewrite Hd3, Hcmd in Hv, Hd4.
  destruct (transfer_run device buf (512 * (lba mod 16777216)) n v m d4) as (d5 & Hr5 & Hid);
    [lia|done..| |].
  { intros _. apply Hv. by rewrite words_cons by lia. }
  exists d5. split; [|done]. unfold bl_pata_read.
  assert (Hcmd' : bl_pata_device_command io bl_time_sleep device BL_PATA_CMD_READ_SECTORS buf n lba n (m, d) =
    Some (BL_STATUS_SUCCESS, (filled m buf (512 * (lba mod 16777216)) (512 * n), d5))).
  { unfold bl_pata_device_command. run_with Hr1. run_with Hr2. run_with Hr3.
    change (failed BL_STATUS_SUCCESS) with false. cbv iota. run_with Hr4. exact Hr5. }
  by run_with Hcmd'.
Qed.
End Pata.

(** ** The driver as a controller of the storage layer *)
Lemma drive_at_same m m' device port :
  (∀ x, device <= x < device + sizeof_pata_device → ld8 m' x = ld8 m x) →
  drive_at m device port → drive_at m' device port.
Proof.
  intros H (Hsp & Hp & Ht). split; [done|]. unfold sizeof_pata_device, pata_io, pata_type, ld in *.
  split; [rewrite <- Hp|rewrite <- Ht]; f_equal; apply ld_bytes_ext; intros; apply H; lia.
Qed.

(** ** Properties *)

(** C11: A read of [n], up to 256, sectors from an idle master drive with the
    port commands of the driver ends, stores [n] sectors of the drive in the
    buffer, changes no other byte of memory and leaves the drive idle, ready for
    the next read.  The sectors are those from number [lba mod 2^24] on: the
    ones asked for when [lba] is below 2^24, and other ones from there on,
    because the driver writes the registers of the 48-bit protocol and then gives
    the 28-bit command, so that the drive sees the low 24 bits of the number. *)
Theorem pata_read_low_bits {Dev} (io : ports Dev) bl_time_sleep port image sectors regs data busy
    device buf lba n m d :
  AtaDrive io bl_time_sleep port image sectors regs data busy → 0 <= port < 65528 →
  drive_at (mem m) device port → busy d = 0 ∧ data d = [] →
  0 <= lba → 0 < n <= 256 → in_space buf (512 * n) →
  disjoint buf (512 * n) device sizeof_pata_device → lba mod 16777216 + n <= sectors →
  ∃ d', bl_pata_read io bl_time_sleep device buf lba n (m, d) =
      Some (BL_STATUS_SUCCESS,
        (set_mem (st_bytes (mem m) buf (slice image (512 * (lba mod 16777216)) (512 * n))) m, d')) ∧
    busy d' = 0 ∧ data d' = [].
Proof.
  intros Hata Hport Hdrv Hid Hlba Hn Hbuf Hdis Hs.
  exact (pata_read_run io bl_time_sleep port image sectors regs data busy Hport
    device buf lba n m d Hdrv Hid Hlba Hn Hbuf Hdis Hs).
Qed.

(** C8: The storage layer on the ATA driver: with an idle drive behind the
    driver, a [bl_storage_device_read] that starts in one of the first 2^24
    sectors of the drive and ends within the 128 KiB from the start of that sector
    copies exactly the bytes asked for to the buffer, gives its sector buffer back and changes nothing else that a client
    of the heap can hold.  Larger reads and later sectors are outside of what the
    driver's command can say. *)
Theorem pata_storage_read {Dev} (io : ports Dev) bl_time_sleep port image sectors regs data busy
    device disk s bs buf lba size offset d :
  AtaDrive io bl_time_sleep port image sectors regs data busy → 0 <= port < 65528 →
  busy d = 0 ∧ data d = [] →
  disk_controller disk = Some (pata_functions io bl_time_sleep d) → disk_data disk = device →
  drive_at (mem s) device port →
  stable_region s bs (cost (sector_round (offset + size))) device sizeof_pata_device →
  heap_inv s bs → readable s bs sectors buf lba size offset →
  offset + size <= 131072 → lba < 16777216 →
  ∃ s' bs', bl_storage_device_read disk buf lba size offset s = Some (BL_STATUS_SUCCESS, s') ∧
    heap_change s bs s' bs' [] [] (cost (sector_round (offset + size))) (within buf size) ∧
    ld_bytes (mem s') buf (Z.to_nat size) = slice image (512 * lba + offset) size.
Proof.
  intros Hata Hport Hid Hc Hdev Hdrv [_ Hst] Hinv Hread Hmax Hlba.
  eapply storage_change_via; [exact Hc|done|exact Hread|].
  intros b s1 bs1 n Hstep Hp Hsp Hnb Hout. destruct Hread as [Hsz Hoff _ [Hl0 _] Hdisk _ _ _].
  destruct (sector_round_spec (offset + size)) as [Hr1 Hr2]; [lia|]. fold n in Hr1, Hr2, Hdisk, Hst, Hout, Hstep.
  assert (Hn : 0 < n / 512 <= 256).
  { assert (n <= 131072); [|Z.div_mod_to_equations; lia].
    destruct (sector_round_spec 131072) as [_ _]; [lia|]. clear -Hr1 Hr2 Hmax.
    Z.div_mod_to_equations. lia. }
  assert (Hdrv1 : drive_at (mem s1) device port).
  { eapply drive_at_same; [|exact Hdrv]. intros x Hx. apply (step_frame _ _ _ _ _ _ Hstep); [|by intros []].
    by apply Hst. }
  assert (Hd : disjoint (b_data b) (512 * (n / 512)) device sizeof_pata_device).
  { rewrite Hr2. destruct (decide (b_data b + n <= device)) as [|Hn1]; [by left|].
    destruct (decide (device + sizeof_pata_device <= b_data b)) as [|Hn2]; [by right|]. exfalso.
    specialize (Hout (cost n) (Z.max device (b_data b)) ltac:(lia)).
    unfold sizeof_pata_device in *. destruct Hout; [apply Hst; lia|lia|lia]. }
  destruct (pata_read_run io bl_time_sleep port image sectors regs data busy Hport
    device (b_data b) lba (n / 512) s1 d Hdrv1 Hid Hl0 Hn ltac:(by rewrite Hr2) Hd) as (d' & Hrun & _).
  { rewrite Z.mod_small by lia. lia. }
  rewrite Hdev. cbn [ctl_read pata_functions]. rewrite (embed_run _ _ _ _ _ _ Hrun). unfold filled.
  by rewrite Hr2, Z.mod_small by lia.
Qed.

(** A drive at the primary channel that is busy twice after each command and
    once between two sectors. *)
Record drive := Drive { drive_regs : Z → Z; drive_words : list Z; drive_delay : Z }.
Definition drive_data (d : drive) : list Z := u16 <$> drive_words d.
Definition drive_busy (d : drive) : Z := Z.max 0 (Z.min 98 (drive_delay d)).
Definition drive_ports (image : Z → Z) : ports drive :=
  Ports drive
    (λ _ d, if 0 <? drive_busy d then (0x80, Drive (drive_regs d) (drive_words d) (drive_busy d - 1))
            else (0x48, d))
    (λ _ d, match drive_words d with
            | [] => (0, d)
            | w :: l => (w, Drive (drive_regs d) l (if Z.of_nat (length l) mod 256 =? 0 then 1 else 0))
            end)
    (λ _ d, (0, d))
    (λ v port d,
      if port =? 0x1f7 then
        Drive (drive_regs d)
          (words image (512 * ata_lba (drive_regs d)) (256 * ata_count (drive_regs d))) 2
      else Drive (λ k, if k =? port - 0x1f0 then v else drive_regs d k) (drive_words d) (drive_delay d))
    (λ _ _ d, d) (λ _ _ d, d).
Definition no_sleep {Dev} (ms : Z) : D Dev Z := mret ms.

Lemma words_u16 image a n : u16 <$> words image a n = words image a n.
Proof.
  unfold words. rewrite <- list_fmap_compose. apply list_fmap_ext. intros i x _. unfold compose.
  apply u16_small. change 65536 with (256 ^ Z.of_nat (length (slice image (a + 2 * x) 2))).
  apply le_combine_range.
Qed.

#[export] Instance drive_ata image sectors :
  AtaDrive (drive_ports image) no_sleep 0x1f0 image sectors drive_regs drive_data drive_busy.
Proof.
  split.
  - intros d. unfold drive_busy. lia.
  - intros d r v Hr Hb Hd. unfold drive_ports. cbn [out8]. destruct (Z.eqb_spec (0x1f0 + r) 0x1f7); [lia|].
    split; [done|]. split; [done|]. intros k. cbn [drive_regs]. by replace (0x1f0 + r - 0x1f0) with r by lia.
  - intros d _ _ _ _. cbn [drive_ports out8]. apply words_u16.
  - intros d. cbn [drive_ports in8]. destruct (Z.ltb_spec 0 (drive_busy d)) as [H|H].
    + split; [done|]. split; [lia|]. intros _. split; [by vm_compute|].
      unfold drive_busy in *. cbn [drive_delay]. lia.
    + split; [done|]. split; [|lia]. done.
  - intros d w l Hb Hd. unfold drive_data in *. cbn [drive_ports in16].
    destruct (drive_words d) as [|x l0]; [done|]. cbn [fmap list_fmap] in Hd. injection Hd as <- <-.
    split; [done|]. split; [done|]. rewrite length_fmap. intros Hl.
    unfold drive_busy. cbn [drive_delay]. by destruct (Z.eqb_spec (Z.of_nat (length l0) mod 256) 0).
  - intros ms m d. exists ms, d. done.
Qed.

Definition drive0 : drive := Drive (λ _, 0) [] 0.
Definition drive_machine : machine := set_mem (st 2 ∅ 0x1000 0x1f0) (with_heap 0x100000 0 0 machine0).

Lemma pata_read_low_bits_witness :
  let image := λ a, a / 512 in
  ∃ d', bl_pata_read (drive_ports image) no_sleep 0x1000 0x8000 16777219 2 (drive_machine, drive0) =
      Some (BL_STATUS_SUCCESS,
        (set_mem (st_bytes (mem drive_machine) 0x8000
           (slice image (512 * (16777219 mod 16777216)) (512 * 2))) drive_machine, d')) ∧
    drive_busy d' = 0 ∧ drive_data d' = [].
Proof.
  intros image. apply (pata_read_low_bits (drive_ports image) no_sleep 0x1f0 image 1024 drive_regs drive_data drive_busy);
    [exact _|lia|by vm_compute|done|lia|lia|by vm_compute|right; by vm_compute|by vm_compute].
Defined.

Lemma pata_storage_read_witness :
  let image := λ a, a / 512 in
  let disk := Disk BL_STORAGE_TYPE_HARD_DRIVE (DiskInfo 512 1024) NULL
    (Some (pata_functions (drive_ports image) no_sleep drive0)) 0x1000 in
  ∃ s' bs', bl_storage_device_read disk 0x8000 3 100 500 drive_machine = Some (BL_STATUS_SUCCESS, s') ∧
    heap_change drive_machine [] s' bs' [] [] (cost (sector_round (500 + 100))) (within 0x8000 100) ∧
    ld_bytes (mem s') 0x8000 (Z.to_nat 100) = slice image (512 * 3 + 500) 100.
Proof.
  intros image disk.
  assert (Hlow : ∀ a n, 0 <= a → 0 <= n → a + n <= 0x100000 →
    stable_region drive_machine [] (cost (sector_round (500 + 100))) a n).
  { intros a n Ha Hn H. split; [unfold in_space; lia|]. intros x Hx. split; [lia|]. left.
    change (bl_heap drive_machine) with 0x100000. lia. }
  apply (pata_storage_read (drive_ports image) no_sleep 0x1f0 image 1024 drive_regs drive_data drive_busy
    0x1000 disk drive_machine [] 0x8000 3 100 500 drive0);
    [exact _|lia|done|done|done|by vm_compute|by apply Hlow|by vm_compute| |lia|lia].
  split; try lia; [by vm_compute|by vm_compute|by apply Hlow].
Defined.
