(* ===== verification/Mmio.v ===== *)
(** * Devices with registers in memory that reach into memory themselves

    Registers that are mapped into the address space, and controllers that
    read and write the program's memory.  Both are hardware: an access to a
    register is a function of the memory and of the device's state, and
    [background] is what a controller does to memory before the program reads
    a word that it may have changed. *)
From S2P Require Import Prelude Memory Ports.

Record hardware (Dev : Type) := Hardware {
  mm_read : Z → gmap Z Z → Dev → Z * (gmap Z Z * Dev);          (* address *)
  mm_write : Z → Z → gmap Z Z → Dev → gmap Z Z * Dev;           (* value, address *)
  background : gmap Z Z → Dev → gmap Z Z * Dev;
}.
Arguments mm_read {Dev}. Arguments mm_write {Dev}. Arguments background {Dev}.

Section Mmio.
Context {Dev : Type} (hw : hardware Dev).

(** A 32-bit register. *)
Definition mm_rd32 (a : Z) : D Dev Z := λ s,
  let '(v, (m, d)) := mm_read hw a (mem s.1) s.2 in Some (u32 v, (set_mem m s.1, d)).
Definition mm_wr32 (a v : Z) : D Dev () := λ s,
  let '(m, d) := mm_write hw (u32 v) a (mem s.1) s.2 in Some ((), (set_mem m s.1, d)).

(** Registers of 8 and 16 bits. *)
Definition mm_rd8 (a : Z) : D Dev Z := v ← mm_rd32 a; mret (u8 v).
Definition mm_rd16 (a : Z) : D Dev Z := v ← mm_rd32 a; mret (u16 v).

(** A store of 64 bits: the processor makes two of it, the low half first. *)
Definition mm_wr64 (a v : Z) : D Dev () := mm_wr32 a v;; mm_wr32 (a + 4) (Z.shiftr v 32).

(** Before a word is read that the controller writes. *)
Definition refresh : D Dev () := λ s,
  let '(m, d) := background hw (mem s.1) s.2 in Some ((), (set_mem m s.1, d)).

(** [reg |= bits] and [reg &= mask]. *)
Definition mm_or32 (a bits : Z) : D Dev () := v ← mm_rd32 a; mm_wr32 a (Z.lor v bits).
Definition mm_and32 (a mask : Z) : D Dev () := v ← mm_rd32 a; mm_wr32 a (Z.land v mask).

Lemma mm_rd32_run a m d v m' d' :
  mm_read hw a (mem m) d = (v, (m', d')) → mm_rd32 a (m, d) = Some (u32 v, (set_mem m' m, d')).
Proof. unfold mm_rd32. cbn [fst snd]. by intros ->. Qed.

Lemma mm_wr32_run a v m d m' d' :
  mm_write hw (u32 v) a (mem m) d = (m', d') → mm_wr32 a v (m, d) = Some ((), (set_mem m' m, d')).
Proof. unfold mm_wr32. cbn [fst snd]. by intros ->. Qed.
End Mmio.

(** The bit field of [n] bits from bit [k] on is set to [v]. *)
Definition set_field (w k n v : Z) : Z :=
  Z.lor (Z.ldiff w (Z.shiftl (Z.ones n) k)) (Z.shiftl (Z.land v (Z.ones n)) k).
