(* ===== verification/Ahci.v ===== *)
(** * The AHCI disk driver: modules/storage/ahci/ahci.c, ahci.h

    The controller's registers are mapped to memory; commands are built in
    memory, in a slot of a port's command list and its command table, and
    the controller carries them out when the slot's bit is written. *)
From S2P Require Import Prelude Memory Arith Status Strings Heap Storage Ports Mmio Pci Pata.

(** ** ahci.h *)
Definition BL_AHCI_PCI_BAR5_RTE : Z := Z.shiftl 1 0.
Definition BL_AHCI_PCI_BAR5_TP : Z := Z.shiftl 1 1.
Definition BL_AHCI_PCI_BAR5_PF : Z := Z.shiftl 1 2.
Definition BL_AHCI_PCI_BAR5_BA : Z := 0xfffff000.
Definition BL_AHCI_CAP_NP : Z := 0x1f.
Definition BL_AHCI_CAP_NCS (cap : Z) : Z := Z.land (Z.shiftr cap 8) 0x1f.
Definition BL_AHCI_GHC_HR : Z := Z.shiftl 1 0.
Definition BL_AHCI_GHC_AE : Z := Z.shiftl 1 31.
Definition BL_AHCI_PORT_IS_TFES : Z := Z.shiftl 1 30.
Definition BL_AHCI_PORT_CMD_ST : Z := Z.shiftl 1 0.
Definition BL_AHCI_PORT_CMD_FRE : Z := Z.shiftl 1 4.
Definition BL_AHCI_PORT_CMD_FR : Z := Z.shiftl 1 14.
Definition BL_AHCI_PORT_CMD_CR : Z := Z.shiftl 1 15.
Definition BL_AHCI_PORT_TFD_STS_DRQ : Z := Z.shiftl 1 3.
Definition BL_AHCI_PORT_TFD_STS_BSY : Z := Z.shiftl 1 7.
Definition BL_AHCI_PORT_SSTS_DET_PRESENT_PHYS : Z := 0x3.
Definition BL_AHCI_PORT_STSS_DET (ssts : Z) : Z := Z.land ssts 0xf.

(** [struct bl_ahci_generic_host_control] and [bl_ahci_port_registers]. *)
Definition ghc_cap : Z := 0.
Definition ghc_ghc : Z := 4.
Definition ghc_pi : Z := 12.
Definition pr_clb : Z := 0.
Definition pr_fb : Z := 8.
Definition pr_is : Z := 16.
Definition pr_cmd : Z := 24.
Definition pr_tfd : Z := 32.
Definition pr_ssts : Z := 40.
Definition pr_serr : Z := 48.
Definition pr_sact : Z := 52.
Definition pr_ci : Z := 56.
Definition sizeof_port_registers : Z := 0x80.

(** [struct bl_ahci_command_header]: [cfl] and [w] in the first word. *)
Definition sizeof_command_header : Z := 32.
Definition ch_flags : Z := 0.
Definition ch_prdtl : Z := 2.
Definition ch_ctba : Z := 8.

(** [struct bl_ahci_prdt] and [bl_ahci_command_table]. *)
Definition BL_AHCI_PRDT_MAX_DBC : Z := 0x400000.
Definition BL_AHCI_PRDT_ENTRIES : Z := 8.
Definition sizeof_prdt : Z := 16.
Definition prdt_dba : Z := 0.
Definition prdt_dbc : Z := 12.
Definition sizeof_command_table : Z := 0x100.
Definition ct_prdt : Z := 0x80.

(** [struct bl_ahci_fis_host_to_device]: the flag [c] is the top bit of the
    second byte. *)
Definition BL_AHCI_FIS_TYPE_REGISTER_HOST_TO_DEVICE : Z := 0x27.
Definition BL_SATA_COMMAND_IDENTIFY : Z := 0xec.
Definition BL_SATA_COMMAND_READ_SECTORS_DMA_EXT : Z := 0x25.
Definition sizeof_fis_host_to_device : Z := 20.
Definition h2d_fis_type : Z := 0.
Definition h2d_flags : Z := 1.
Definition h2d_command : Z := 2.
Definition h2d_lba0 : Z := 4.
Definition h2d_lba1 : Z := 5.
Definition h2d_lba2 : Z := 6.
Definition h2d_device : Z := 7.
Definition h2d_lba3 : Z := 8.
Definition h2d_lba4 : Z := 9.
Definition h2d_lba5 : Z := 10.
Definition h2d_count0 : Z := 12.
Definition h2d_count1 : Z := 13.

Definition sizeof_received_fis : Z := 0x100.

(** [struct bl_ahci_port], [bl_ahci_controller] and [bl_ahci_device]; the
    identification has 512 bytes. *)
Definition sizeof_ahci_port : Z := 20.
Definition ap_implemented : Z := 0.
Definition ap_regs : Z := 4.
Definition ap_command_list : Z := 8.
Definition ap_command_table : Z := 12.
Definition ap_rfis : Z := 16.
Definition sizeof_ahci_controller : Z := 20.
Definition ac_ghc : Z := 0.
Definition ac_number_of_ports : Z := 4.
Definition ac_ports : Z := 8.
Definition ac_port_regs : Z := 12.
Definition ac_command_slots : Z := 16.
Definition sizeof_ahci_device : Z := 524.
Definition ad_id : Z := 0.
Definition ad_port : Z := 512.
Definition ad_controller : Z := 516.
Definition ad_next : Z := 520.

Definition BL_PCI_SUBCLASS_STORAGE_SATA : Z := 0x06.
Definition BL_PCI_PROG_IF_STORAGE_SATA_AHCI : Z := 0x01.
Definition BL_PCI_CONFIG_REG_BAR5 : Z := 0x24.

Definition prdt_sectors : Z := BL_AHCI_PRDT_MAX_DBC / BL_STORAGE_SECTOR_SIZE.

Section Ahci.
Context {Dev : Type} (io : ports Dev) (hw : hardware Dev) (bl_time_sleep : Z → D Dev Z).
(** Where the static [bl_ahci_device_list] is. *)
Context (bl_ahci_device_list : Z).

Definition bl_ahci_device_add (device : Z) : M () :=
  list ← rd32 bl_ahci_device_list;
  wr32 (device + ad_next) list;;
  wr32 bl_ahci_device_list device.

(** [device->port->regs], [->command_list] and [->command_table]. *)
Definition port_field (device field : Z) : M Z := port ← rd32 (device + ad_port); rd32 (port + field).

(** -1 when no slot is free. *)
Definition bl_ahci_find_free_command_slot (device : Z) : D Dev Z :=
  regs ← on_machine (port_field device ap_regs);
  sact ← mm_rd32 hw (regs + pr_sact);
  regs ← on_machine (port_field device ap_regs);
  ci ← mm_rd32 hw (regs + pr_ci);
  on_machine (mwhile (λ '(i, slots),
    controller ← rd32 (device + ad_controller);
    command_slots ← rd32 (controller + ac_command_slots);
    if i <? s32 command_slots then
      if Z.land slots 0x1 =? 0 then break i else continue (i + 1, Z.shiftr slots 1)
    else break (-1)) (0, Z.lor sact ci)).

Definition put_region (entry dba read_size : Z) : M () :=
  wr32 (entry + prdt_dba) dba;;
  w ← rd32 (entry + prdt_dbc);
  wr32 (entry + prdt_dbc) (set_field w 0 22 (read_size - 1));;
  w ← rd32 (entry + prdt_dbc);
  wr32 (entry + prdt_dbc) (set_field w 31 1 1).

(** The entries of the region table, each of up to 4 MiB; [count] is signed. *)
Definition fill_prdt (device slot buf sectors : Z) : M () :=
  mwhile (λ '(i, count, off),
    command_list ← port_field device ap_command_list;
    prdtl ← rd16 (command_list + slot * sizeof_command_header + ch_prdtl);
    if i <? prdtl then
      command_table ← port_field device ap_command_table;
      let entry := u32 (command_table + slot * sizeof_command_table + ct_prdt + i * sizeof_prdt) in
      let read_size := (if prdt_sectors <? u64 count then prdt_sectors else u64 count) * BL_STORAGE_SECTOR_SIZE in
      put_region entry (u32 buf + off) read_size;;
      continue (i + 1, count - prdt_sectors, u64 (off + read_size))
    else break ()) (0, sectors, 0).

(** The command in the table's first bytes. *)
Definition fill_fis (h2d command lba sectors : Z) : M () :=
  wr8 (h2d + h2d_fis_type) BL_AHCI_FIS_TYPE_REGISTER_HOST_TO_DEVICE;;
  flags ← rd8 (h2d + h2d_flags);
  wr8 (h2d + h2d_flags) (set_field flags 7 1 1);;
  wr8 (h2d + h2d_command) command;;
  if u8 command =? BL_SATA_COMMAND_READ_SECTORS_DMA_EXT then
    wr8 (h2d + h2d_lba0) (Z.land lba 0xff);;
    wr8 (h2d + h2d_lba1) (Z.land (Z.shiftr lba 8) 0xff);;
    wr8 (h2d + h2d_lba2) (Z.land (Z.shiftr lba 16) 0xff);;
    wr8 (h2d + h2d_lba3) (Z.land (Z.shiftr lba 24) 0xff);;
    wr8 (h2d + h2d_lba4) (Z.land (Z.shiftr lba 32) 0xff);;
    wr8 (h2d + h2d_lba5) (Z.land (Z.shiftr lba 40) 0xff);;
    wr8 (h2d + h2d_count0) (Z.land sectors 0xff);;
    wr8 (h2d + h2d_count1) (Z.land (Z.shiftr sectors 8) 0xff);;
    wr8 (h2d + h2d_device) (Z.shiftl 1 6)
  else mret ().

(** The slot's header, its region table and its command. *)
Definition fill_slot (device slot command buf lba sectors : Z) : M () :=
  command_list ← port_field device ap_command_list;
  let header := u32 (command_list + slot * sizeof_command_header) in
  w ← rd16 (header + ch_flags);
  wr16 (header + ch_flags) (set_field w 0 5 (sizeof_fis_host_to_device / 4));;
  w ← rd16 (header + ch_flags);
  wr16 (header + ch_flags) (set_field w 6 1 0);;
  wr16 (header + ch_prdtl) (sectors / prdt_sectors + (if 0 <? sectors mod prdt_sectors then 1 else 0));;
  command_table ← port_field device ap_command_table;
  bl_memset (u32 (command_table + slot * sizeof_command_table)) 0 sizeof_command_table;;
  fill_prdt device slot buf sectors;;
  command_table ← port_field device ap_command_table;
  fill_fis (u32 (command_table + slot * sizeof_command_table)) command lba sectors.

(** The slot's bit is set, and waited for. *)
Definition issue_command (device slot : Z) : D Dev bl_status_t :=
  let bit := Z.shiftl 1 slot in
  let read_ci : D Dev Z := regs ← on_machine (port_field device ap_regs); mm_rd32 hw (regs + pr_ci) in
  regs ← on_machine (port_field device ap_regs);
  mm_or32 hw (regs + pr_ci) bit;;
  mwhile (λ timeout,
    let timeout := timeout - 1 in
    if truth timeout then
      ci ← read_ci;
      if Z.land ci bit =? 0 then break ()
      else bl_time_sleep 1;; continue timeout
    else break ()) 100;;
  ci ← read_ci;
  if truth (Z.land ci bit) then mret BL_STATUS_DISK_OPERATION_TIMEOUT
  else
    regs ← on_machine (port_field device ap_regs);
    is_ ← mm_rd32 hw (regs + pr_is);
    mret (if truth (Z.land is_ BL_AHCI_PORT_IS_TFES) then BL_STATUS_DISK_CONTROLLER_INTERNAL_ERROR
          else BL_STATUS_SUCCESS).

Definition bl_ahci_do_command (device command buf lba sectors : Z) : D Dev bl_status_t :=
  if BL_AHCI_PRDT_ENTRIES * prdt_sectors <? sectors then mret BL_STATUS_INVALID_PARAMETERS
  else
    slot ← bl_ahci_find_free_command_slot device;
    if slot =? -1 then mret BL_STATUS_INSUFFICIENT_RESOURCES
    else
      on_machine (fill_slot device slot command buf lba sectors);;
      issue_command device slot.

(** [disk->data] is the device. *)
Definition bl_ahci_read (data buf lba sectors : Z) : D Dev bl_status_t :=
  status ← bl_ahci_do_command data BL_SATA_COMMAND_READ_SECTORS_DMA_EXT buf lba sectors;
  if failed status then mret status else mret BL_STATUS_SUCCESS.

Definition bl_ahci_identify_device (device : Z) : D Dev bl_status_t :=
  status ← bl_ahci_do_command device BL_SATA_COMMAND_IDENTIFY (device + ad_id) 0 1;
  if failed status then mret status else mret BL_STATUS_SUCCESS.

(** [&ahci->port_regs[i]] and [&ahci->ports[i]]. *)
Definition regs_at (ahci i : Z) : M Z :=
  port_regs ← rd32 (ahci + ac_port_regs); mret (u32 (port_regs + i * sizeof_port_registers)).
Definition port_at (ahci i : Z) : M Z :=
  ports ← rd32 (ahci + ac_ports); mret (u32 (ports + i * sizeof_ahci_port)).

(** The answer of the identification is not looked at. *)
Definition detect_device (ahci i : Z) : D Dev bool :=
  regs ← on_machine (regs_at ahci i);
  tfd ← mm_rd32 hw (regs + pr_tfd);
  ssts ← (if Z.land tfd (Z.lor BL_AHCI_PORT_TFD_STS_DRQ BL_AHCI_PORT_TFD_STS_BSY) =? 0
          then mm_rd32 hw (regs + pr_ssts) else mret 0);
  if (Z.land tfd (Z.lor BL_AHCI_PORT_TFD_STS_DRQ BL_AHCI_PORT_TFD_STS_BSY) =? 0) &&
     (BL_AHCI_PORT_STSS_DET ssts =? BL_AHCI_PORT_SSTS_DET_PRESENT_PHYS) then
    mm_or32 hw (regs + pr_cmd) BL_AHCI_PORT_CMD_ST;;
    device ← on_machine (bl_heap_alloc sizeof_ahci_device);
    if is_null device then mret false
    else
      port ← on_machine (port_at ahci i);
      on_machine (wr32 (device + ad_port) port);;
      on_machine (wr32 (device + ad_controller) ahci);;
      bl_ahci_identify_device device;;
      on_machine (bl_ahci_device_add device);;
      mret true
  else mret true.

(** [body] for the ports [0] to [number_of_ports - 1], until one fails. *)
Definition each_port (ahci : Z) (body : Z → D Dev (option bl_status_t)) : D Dev bl_status_t :=
  mwhile (λ i,
    number_of_ports ← on_machine (rd32 (ahci + ac_number_of_ports));
    if i <? s32 number_of_ports then
      o ← body i;
      match o with Some status => break status | None => continue (i + 1) end
    else break BL_STATUS_SUCCESS) 0.

Definition implemented (ahci i : Z) : D Dev bool :=
  port ← on_machine (port_at ahci i);
  v ← on_machine (rd32 (port + ap_implemented));
  mret (truth v).

Definition bl_ahci_detect_devices (ahci : Z) : D Dev bl_status_t :=
  each_port ahci (λ i,
    ok ← implemented ahci i;
    if negb ok then mret None
    else
      ok ← detect_device ahci i;
      mret (if ok : bool then None else Some BL_STATUS_MEMORY_ALLOCATION_FAILED)).

(** A port that is running is stopped. *)
Definition stop_port (ahci i : Z) : D Dev (option bl_status_t) :=
  ghc ← on_machine (rd32 (ahci + ac_ghc));
  pi ← mm_rd32 hw (ghc + ghc_pi);
  port ← on_machine (port_at ahci i);
  if Z.land pi (Z.shiftl 1 i) =? 0 then on_machine (wr32 (port + ap_implemented) 0);; mret None
  else
    regs ← on_machine (regs_at ahci i);
    let finish : D Dev (option bl_status_t) := on_machine (wr32 (port + ap_implemented) 1);; mret None in
    cmd ← mm_rd32 hw (regs + pr_cmd);
    if truth (Z.land cmd (Z.lor (Z.lor (Z.lor BL_AHCI_PORT_CMD_ST BL_AHCI_PORT_CMD_FRE) BL_AHCI_PORT_CMD_FR)
                                BL_AHCI_PORT_CMD_CR)) then
      mm_and32 hw (regs + pr_cmd) (Z.lnot BL_AHCI_PORT_CMD_ST);;
      bl_time_sleep 500;;
      cmd ← mm_rd32 hw (regs + pr_cmd);
      if truth (Z.land cmd BL_AHCI_PORT_CMD_CR) then mret (Some BL_STATUS_DISK_CONTROLLER_INTERNAL_ERROR)
      else
        cmd ← mm_rd32 hw (regs + pr_cmd);
        if truth (Z.land cmd BL_AHCI_PORT_CMD_FRE) then
          mm_and32 hw (regs + pr_cmd) (Z.lnot BL_AHCI_PORT_CMD_FRE);;
          bl_time_sleep 500;;
          cmd ← mm_rd32 hw (regs + pr_cmd);
          if truth (Z.land cmd BL_AHCI_PORT_CMD_FR) then mret (Some BL_STATUS_DISK_CONTROLLER_INTERNAL_ERROR)
          else finish
        else finish
    else finish.

(** The command list, the command tables and the received-FIS area of a port. *)
Definition setup_port (ahci i : Z) : D Dev (option bl_status_t) :=
  ok ← implemented ahci i;
  if negb ok then mret None
  else
    regs ← on_machine (regs_at ahci i);
    port ← on_machine (port_at ahci i);
    on_machine (wr32 (port + ap_regs) regs);;
    command_slots ← on_machine (rd32 (ahci + ac_command_slots));
    command_list ← on_machine (bl_heap_alloc_align (u32 (command_slots * sizeof_command_header)) 0x400);
    on_machine (wr32 (port + ap_command_list) command_list);;
    if is_null command_list then mret (Some BL_STATUS_MEMORY_ALLOCATION_FAILED)
    else
      mm_wr32 hw (regs + pr_clb) command_list;;
      command_slots ← on_machine (rd32 (ahci + ac_command_slots));
      command_table ← on_machine (bl_heap_alloc_align (u32 (command_slots * sizeof_command_table)) 0x400);
      on_machine (wr32 (port + ap_command_table) command_table);;
      if is_null command_table then mret (Some BL_STATUS_MEMORY_ALLOCATION_FAILED)
      else
        on_machine (mwhile (λ j,
          command_slots ← rd32 (ahci + ac_command_slots);
          if j <? s32 command_slots then
            command_list ← rd32 (port + ap_command_list);
            command_table ← rd32 (port + ap_command_table);
            wr32 (u32 (command_list + j * sizeof_command_header + ch_ctba))
              (command_table + j * sizeof_command_table);;
            continue (j + 1)
          else break ()) 0);;
        rfis ← on_machine (bl_heap_alloc_align sizeof_received_fis 0x1000);
        on_machine (wr32 (port + ap_rfis) rfis);;
        if is_null rfis then mret (Some BL_STATUS_MEMORY_ALLOCATION_FAILED)
        else
          mm_wr32 hw (regs + pr_fb) rfis;;
          mm_or32 hw (regs + pr_cmd) BL_AHCI_PORT_CMD_FRE;;
          mret None.

Definition clear_errors (ahci i : Z) : D Dev (option bl_status_t) :=
  ok ← implemented ahci i;
  (if ok : bool then
     regs ← on_machine (regs_at ahci i);
     serr ← mm_rd32 hw (regs + pr_serr);
     mm_wr32 hw (regs + pr_serr) serr
   else mret ());;
  mret None.

Definition bl_ahci_controller_init (ahci : Z) : D Dev bl_status_t :=
  ghc ← on_machine (rd32 (ahci + ac_ghc));
  mm_or32 hw (ghc + ghc_ghc) BL_AHCI_GHC_AE;;
  mm_or32 hw (ghc + ghc_ghc) BL_AHCI_GHC_HR;;
  mwhile (λ timeout,
    let timeout := timeout - 1 in
    if truth timeout then
      v ← mm_rd32 hw (ghc + ghc_ghc);
      if Z.land v BL_AHCI_GHC_HR =? 0 then break ()
      else bl_time_sleep 1;; continue timeout
    else break ()) 1000;;
  v ← mm_rd32 hw (ghc + ghc_ghc);
  if truth (Z.land v BL_AHCI_GHC_HR) then mret BL_STATUS_DISK_CONTROLLER_INTERNAL_ERROR
  else
    mm_or32 hw (ghc + ghc_ghc) BL_AHCI_GHC_AE;;
    cap ← mm_rd32 hw (ghc + ghc_cap);
    let number_of_ports := 1 + Z.land cap BL_AHCI_CAP_NP in
    on_machine (wr32 (ahci + ac_number_of_ports) number_of_ports);;
    ports ← on_machine (bl_heap_alloc (number_of_ports * sizeof_ahci_port));
    on_machine (wr32 (ahci + ac_ports) ports);;
    if is_null ports then mret BL_STATUS_MEMORY_ALLOCATION_FAILED
    else
      on_machine (wr32 (ahci + ac_port_regs) (ghc + 0x100));;
      status ← each_port ahci (stop_port ahci);
      if failed status then mret status
      else
        cap ← mm_rd32 hw (ghc + ghc_cap);
        on_machine (wr32 (ahci + ac_command_slots) (1 + BL_AHCI_CAP_NCS cap));;
        status ← each_port ahci (setup_port ahci);
        if failed status then mret status
        else
          each_port ahci (clear_errors ahci);;
          status ← bl_ahci_detect_devices ahci;
          if failed status then mret status else mret BL_STATUS_SUCCESS.

Definition bl_ahci_pci_initialize (i : bl_pci_index) : D Dev bl_status_t :=
  status ← bl_pci_check_device_class io i BL_PCI_BASE_CLASS_STORAGE BL_PCI_SUBCLASS_STORAGE_SATA
             BL_PCI_PROG_IF_STORAGE_SATA_AHCI;
  if failed status then mret status
  else
    base_address ← bl_pci_read_config_long io i BL_PCI_CONFIG_REG_BAR5;
    if truth (Z.land base_address (Z.lor (Z.lor BL_AHCI_PCI_BAR5_RTE BL_AHCI_PCI_BAR5_TP) BL_AHCI_PCI_BAR5_PF))
    then mret BL_STATUS_DISK_CONTROLLER_INTERNAL_ERROR
    else
      ahci ← on_machine (bl_heap_alloc sizeof_ahci_controller);
      if is_null ahci then mret BL_STATUS_MEMORY_ALLOCATION_FAILED
      else
        on_machine (wr32 (ahci + ac_ghc) (Z.land base_address BL_AHCI_PCI_BAR5_BA));;
        status ← bl_ahci_controller_init ahci;
        if failed status then mret status else mret BL_STATUS_SUCCESS.

(** [BL_MODULE_INIT]. *)
Definition ahci_register_disks (ahci_functions : bl_disk_controller_functions)
    (devices : list bl_storage_device) : M (list bl_storage_device) :=
  device ← rd32 bl_ahci_device_list;
  mwhile (λ '(device, devices),
    if truth device then
      disk ← bl_heap_alloc sizeof_storage_device;
      if is_null disk then break devices
      else
        wr32 (disk + storage_type) 0;;
        wr32 (disk + storage_sector_size) BL_STORAGE_SECTOR_SIZE;;
        sectors_lba48 ← rd64 (device + ad_id + ident_sectors_lba48);
        wr64 (disk + storage_sector_count) sectors_lba48;;
        wr32 (disk + storage_data) device;;
        wr32 (disk + storage_next) NULL;;
        partitions ← rd32 (disk + storage_partitions);
        next ← rd32 (device + ad_next);
        continue (next, bl_storage_device_register
          (Disk BL_STORAGE_TYPE_HARD_DRIVE (DiskInfo BL_STORAGE_SECTOR_SIZE sectors_lba48) partitions
             (Some ahci_functions) device) devices)
    else break devices) (device, devices).

Definition ahci_module_init (ahci_functions : bl_disk_controller_functions)
    (controllers : list bl_disk_controller_functions) (devices : list bl_storage_device) :
    D Dev (list bl_disk_controller_functions * list bl_storage_device) :=
  bl_pci_iterate_devices io (Some bl_ahci_pci_initialize);;
  controller ← on_machine (bl_heap_alloc sizeof_disk_controller);
  if is_null controller then mret (controllers, devices)
  else
    devices ← on_machine (ahci_register_disks ahci_functions devices);
    mret (bl_disk_controller_register ahci_functions controllers, devices).
End Ahci.

(** The driver's functions, with the hardware in the state [d] when they are
    called. *)
Definition ahci_functions {Dev} (hw : hardware Dev) (bl_time_sleep : Z → D Dev Z) (d : Dev) :
    bl_disk_controller_functions :=
  DiskFunctions BL_DISK_CONTROLLER_TYPE_AHCI
    (λ _ data buf lba sectors, embed d (bl_ahci_read hw bl_time_sleep data buf lba sectors)) None.
