(* ===== verification/AhciProofs.v ===== *)
(** * Proofs about the AHCI driver: the command that the controller finds in
    a slot, and reads of a disk behind it *)
From S2P Require Import Prelude Memory Regions Arith Status Strings StringsProofs.
From S2P Require Import Storage StorageProofs Ports Mmio Pci Pata Ahci.

(** ** Bit fields *)
Lemma set_field_bit w k n v i :
  0 <= k → 0 <= n → 0 <= i →
  Z.testbit (set_field w k n v) i =
  if decide (k <= i < k + n) then Z.testbit v (i - k) else Z.testbit w i.
Proof.
  intros Hk Hn Hi. unfold set_field.
  rewrite Z.lor_spec, Z.ldiff_spec, !Z.shiftl_spec, Z.land_spec by lia.
  destruct (decide (k <= i < k + n)) as [H|H].
  - rewrite Z.ones_spec_low by lia. by rewrite andb_false_r, andb_true_r.
  - destruct (decide (i < k)).
    + rewrite !(Z.testbit_neg_r _ (i - k)) by lia. by rewrite andb_true_r, orb_false_r.
    + rewrite Z.ones_spec_high by lia. by rewrite andb_false_r, orb_false_r, andb_true_r.
Qed.

Lemma high_bits_range x n : 0 <= n → 0 <= x → (∀ i, n <= i → Z.testbit x i = false) → x < 2 ^ n.
Proof.
  intros Hn Hx H. assert (x mod 2 ^ n = x) as E; [|rewrite <- E; apply Z.mod_pos_bound; lia].
  apply Z.bits_inj'. intros i Hi. destruct (decide (i < n)).
  - by rewrite Z.mod_pow2_bits_low by lia.
  - rewrite Z.mod_pow2_bits_high by lia. symmetry. apply H. lia.
Qed.

Lemma set_field_range w k n v b :
  0 <= k → 0 <= n → k + n <= b → 0 <= w < 2 ^ b → 0 <= set_field w k n v < 2 ^ b.
Proof.
  intros Hk Hn Hb Hw.
  assert (0 <= set_field w k n v).
  { unfold set_field. apply Z.lor_nonneg. split; [apply Z.ldiff_nonneg; lia|].
    apply Z.shiftl_nonneg, Z.land_nonneg. right. rewrite Z.ones_equiv. pose proof (Z.pow_pos_nonneg 2 n). lia. }
  split; [done|]. apply high_bits_range; [lia|done|]. intros i Hi. rewrite set_field_bit by lia.
  rewrite decide_False by lia. rewrite <- (Z.mod_small w (2 ^ b)) by done. apply Z.mod_pow2_bits_high. lia.
Qed.

(** The fields of a region's last word: the size less one, and the top bit. *)
Lemma dbc_word w n :
  0 < n <= 4194304 → Z.land (set_field (set_field w 0 22 (n - 1)) 31 1 1) (Z.ones 22) + 1 = n.
Proof.
  intros Hn. assert (Z.land (set_field (set_field w 0 22 (n - 1)) 31 1 1) (Z.ones 22) = n - 1) as ->; [|lia].
  rewrite <- (Z.mod_small (n - 1) (2 ^ 22)) at 2 by lia. rewrite <- Z.land_ones by lia.
  apply Z.bits_inj'. intros i Hi. rewrite !Z.land_spec. destruct (decide (i < 22)).
  - rewrite !set_field_bit by lia. rewrite decide_False, decide_True by lia. by rewrite Z.sub_0_r.
  - rewrite Z.ones_spec_high by lia. by rewrite !andb_false_r.
Qed.

(** ** What the controller finds in a slot *)
Record request := Request {
  rq_command : Z; rq_lba : Z; rq_count : Z; rq_regions : list (Z * Z) }.

(** The regions that the table of a command lists. *)
Definition regions_at (m : gmap Z Z) (table n : Z) : list (Z * Z) :=
  (λ i, (ld 4 m (table + 0x80 + 16 * i), Z.land (ld 4 m (table + 0x80 + 16 * i + 12)) (Z.ones 22) + 1))
    <$> seqZ 0 n.

(** A header with a command of five words that does not write to the disk. *)
Definition decode_slot (m : gmap Z Z) (list slot : Z) : option request :=
  let header := list + 32 * slot in
  let table := ld 4 m (header + 8) in
  let byte i := ld8 m (table + i) in
  if (Z.land (ld 2 m header) 31 =? 5) && negb (Z.testbit (ld 2 m header) 6) &&
     (byte 0 =? 0x27) && Z.testbit (byte 1) 7 && Z.testbit (byte 7) 6 then
    Some (Request (byte 2) (le_combine [byte 4; byte 5; byte 6; byte 8; byte 9; byte 10])
            (le_combine [byte 12; byte 13]) (regions_at m table (ld 2 m (header + 2))))
  else None.

(** Data goes to the regions one after another. *)
Fixpoint scatter (m : gmap Z Z) (rs : list (Z * Z)) (data : list Z) : gmap Z Z :=
  match rs with
  | [] => m
  | (a, n) :: rs => scatter (st_bytes m a (take (Z.to_nat n) data)) rs (drop (Z.to_nat n) data)
  end.

(** A buffer of [n] bytes from [a] on, cut into regions of 4 MiB; [k] of them. *)
Definition chunk (a n i : Z) : Z * Z := (a + 4194304 * i, Z.min 4194304 (n - 4194304 * i)).
Definition chunks (a n k : Z) : list (Z * Z) := chunk a n <$> seqZ 0 k.

Lemma chunks_cons a n k : 0 < k → chunks a n k = chunk a n 0 :: chunks (a + 4194304) (n - 4194304) (k - 1).
Proof.
  intros. unfold chunks. rewrite seqZ_cons by lia. cbn [fmap list_fmap]. f_equal.
  replace (Z.succ 0) with (1 + 0) by lia. replace (Z.pred k) with (k - 1) by lia.
  rewrite <- fmap_add_seqZ, <- list_fmap_compose. apply list_fmap_ext. intros i x _.
  unfold compose, chunk. f_equal; lia.
Qed.

Lemma scatter_nil m rs : scatter m rs [] = m.
Proof. revert m. induction rs as [|[a n] rs IH]; intros m; [done|]. cbn [scatter]. by rewrite take_nil, drop_nil. Qed.

Lemma scatter_chunks k m a data :
  let n := Z.of_nat (length data) in 
  n <= 4194304 * Z.of_nat k → scatter m (chunks a n (Z.of_nat k)) data = st_bytes m a data.
Proof.
  revert m a data. induction k as [|k IH]; intros m a data n Hn.
  - destruct data; [done|]. cbn in *. lia.
  - rewrite chunks_cons by lia. unfold chunk at 1. cbn [scatter].
    replace (Z.of_nat (S k) - 1) with (Z.of_nat k) by lia.
    destruct (decide (n <= 4194304)) as [Hs|Hs].
    + rewrite Z.min_r, take_ge, drop_ge, scatter_nil by lia. by rewrite Z.mul_0_r, Z.add_0_r.
    + rewrite Z.min_l by lia. assert (Hl : Z.of_nat (length (drop (Z.to_nat 4194304) data)) = n - 4194304)
        by (rewrite length_drop; lia).
      rewrite <- Hl, IH, Z.mul_0_r, Z.add_0_r by lia.
      rewrite <- (take_drop (Z.to_nat 4194304) data) at 3. rewrite st_bytes_app. f_equal.
      rewrite length_take. lia.
Qed.

(** ** Filling a slot *)
Lemma regions_at_snoc m t i :
  0 <= i → regions_at m t (i + 1) =
  regions_at m t i ++
    [(ld 4 m (t + 0x80 + 16 * i), Z.land (ld 4 m (t + 0x80 + 16 * i + 12)) (Z.ones 22) + 1)].
Proof. intros. unfold regions_at. rewrite seqZ_app, fmap_app by lia. by rewrite Z.add_0_l. Qed.

Lemma chunks_snoc a n k : 0 <= k → chunks a n (k + 1) = chunks a n k ++ [chunk a n k].
Proof. intros. unfold chunks. rewrite seqZ_app, fmap_app by lia. by rewrite Z.add_0_l. Qed.

Lemma regions_at_ext m m' t i :
  (∀ j, 0 <= j < i → ld 4 m' (t + 0x80 + 16 * j) = ld 4 m (t + 0x80 + 16 * j) ∧
    ld 4 m' (t + 0x80 + 16 * j + 12) = ld 4 m (t + 0x80 + 16 * j + 12)) →
  regions_at m' t i = regions_at m t i.
Proof.
  intros H. unfold regions_at. apply list_fmap_ext. intros k j [-> ?]%lookup_seqZ.
  destruct (H (0 + Z.of_nat k)) as [-> ->]; [lia|done].
Qed.

(** The entry of a region in the table. *)
Definition entry_written (m : gmap Z Z) (entry a n : Z) : gmap Z Z :=
  let m := st 4 m entry a in
  let m := st 4 m (entry + 12) (set_field (ld 4 m (entry + 12)) 0 22 (n - 1)) in
  st 4 m (entry + 12) (set_field (ld 4 m (entry + 12)) 31 1 1).

Lemma entry_written_reads m entry a n :
  in_space entry 16 → 0 <= a < 4294967296 → 0 < n <= 4194304 →
  ld 4 (entry_written m entry a n) entry = a ∧
  Z.land (ld 4 (entry_written m entry a n) (entry + 12)) (Z.ones 22) + 1 = n ∧
  keeps [(entry, 16)] m (entry_written m entry a n).
Proof.
  intros Hs Ha Hn. unfold entry_written. split; [|split].
  - past_writes. by rewrite ld4_st4_same by field_side.
  - pose proof (ld4_range (st 4 m entry a) (entry + 12)) as Hw.
    set (w := ld 4 (st 4 m entry a) (entry + 12)) in *.
    pose proof (set_field_range w 0 22 (n - 1) 32 ltac:(lia) ltac:(lia) ltac:(lia) Hw) as Hw2.
    rewrite (ld4_st4_same _ _ (set_field w 0 22 (n - 1))) by field_side.
    pose proof (set_field_range _ 31 1 1 32 ltac:(lia) ltac:(lia) ltac:(lia) Hw2) as Hw3.
    rewrite ld4_st4_same by field_side. by apply dbc_word.
  - intros b Hb [Ho _]%Forall_cons. by past_writes.
Qed.

Lemma put_region_run entry a n s :
  put_region entry a n s = Some ((), set_mem (entry_written (mem s) entry a n) s).
Proof. unfold put_region, prdt_dba, prdt_dbc. by rewrite Z.add_0_r. Qed.

Lemma port_field_run device port f s :
  ld 4 (mem s) (device + ad_port) = port → port_field device f s = Some (ld 4 (mem s) (port + f), s).
Proof. intros H. unfold port_field, rd32, gets, mbind, ST_bind. by rewrite H. Qed.

Section Driver.
Context (device port controller regs clist ctable slots : Z).

(** The driver's records of the device, its port and its controller. *)
Definition records : list (Z * Z) := [(device + ad_port, 8); (port + ap_regs, 12); (controller + ac_command_slots, 4)].
Definition recorded (m : gmap Z Z) : Prop :=
  ld 4 m (device + ad_port) = port ∧ ld 4 m (device + ad_controller) = controller ∧
  ld 4 m (port + ap_regs) = regs ∧ ld 4 m (port + ap_command_list) = clist ∧
  ld 4 m (port + ap_command_table) = ctable ∧ ld 4 m (controller + ac_command_slots) = slots.

Lemma keeps_recorded rs m m' :
  keeps rs m m' → Forall good_region records → each_apart rs records → recorded m → recorded m'.
Proof.
  intros Hk Hg Ha (H1 & H2 & H3 & H4 & H5 & H6).
  assert (∀ a n b, (a, n) ∈ records → a <= b → b + 4 <= a + n → ld 4 m' b = ld 4 m b) as E.
  { intros a n b Hin Hb1 Hb2. rewrite Forall_forall in Hg. destruct (Hg _ Hin) as [_ Hs].
    apply (keeps_ld rs); [done|field_side|]. eapply Forall_impl; [exact Ha|]. intros r Hr.
    rewrite Forall_forall in Hr. specialize (Hr _ Hin). field_side. }
  assert (∀ n i, records !! n = Some i → i ∈ records) as Hin by (intros n i; apply list_elem_of_lookup_2).
  pose proof (λ b, E _ _ b (Hin 0%nat _ eq_refl)) as E1. pose proof (λ b, E _ _ b (Hin 1%nat _ eq_refl)) as E2.
  pose proof (λ b, E _ _ b (Hin 2%nat _ eq_refl)) as E3.
  unfold recorded, ad_port, ad_controller, ap_regs, ap_command_list, ap_command_table in *.
  rewrite !E1, !E2, !E3 by lia. done.
Qed.
Context (Hrec : Forall good_region records).
Context (slot : Z).
Definition header : Z := clist + slot * sizeof_command_header.
Definition command_table : Z := ctable + slot * sizeof_command_table.
Context (Hheader : in_space header 32) (Htable : in_space command_table 256) (Htable0 : 0 < command_table).
Context (Hslot : each_apart [(header, 32); (command_table, 256)] records).
Context (Hapart : apart (header, 32) (command_table, 256)).

(** How many regions a buffer of so many sectors is cut into. *)
Definition region_count (sectors : Z) : Z := (sectors + 8191) / 8192.

Lemma table_keeps m m' :
  keeps [(command_table, 256)] m m' → recorded m → recorded m' ∧ ld 2 m' (header + ch_prdtl) = ld 2 m (header + ch_prdtl).
Proof.
  intros Hk Hr. apply Forall_cons in Hslot as [_ Hs]. split; [by eapply keeps_recorded|].
  apply (keeps_ld [(command_table, 256)]); [done|unfold ch_prdtl; field_side|]. constructor; [|done].
  unfold ch_prdtl. field_side.
Qed.

Lemma keeps_table m m' : keeps [(command_table + 0x80, 128)] m m' → keeps [(command_table, 256)] m m'.
Proof. intros H a Ha [Ho _]%Forall_cons. apply H; [done|]. constructor; [field_side|done]. Qed.

Lemma fill_prdt_run s buf sectors :
  0 <= sectors <= 65536 → in_space buf (512 * sectors) → recorded (mem s) →
  ld 2 (mem s) (header + ch_prdtl) = region_count sectors →
  ∃ m', fill_prdt device slot buf sectors s = Some ((), set_mem m' s) ∧
    regions_at m' command_table (region_count sectors) = chunks buf (512 * sectors) (region_count sectors) ∧
    keeps [(command_table + 0x80, 128)] (mem s) m'.
Proof.
  intros Hn Hbuf Hr Hk. set (k := region_count sectors) in *.
  assert (Hkr : 0 <= k <= 8 ∧ 8192 * (k - 1) < sectors <= 8192 * k) by (unfold k, region_count; Z.div_mod_to_equations; lia).
  assert (Hw : wp (fill_prdt device slot buf sectors) (λ _ t, ∃ m', t = set_mem m' s ∧
      regions_at m' command_table k = chunks buf (512 * sectors) k ∧
      keeps [(command_table + 0x80, 128)] (mem s) m') s).
  { unfold fill_prdt.
    wp_loop (λ '(i, count, off) t, ∃ m', t = set_mem m' s ∧ 0 <= i <= k ∧
        count = sectors - 8192 * i ∧ off = Z.min (4194304 * i) (512 * sectors) ∧
        regions_at m' command_table i = chunks buf (512 * sectors) i ∧
        keeps [(command_table + 0x80, 128)] (mem s) m') (λ '(i, _, _) _, k - i).
    - intros [[i count] off] t (m & -> & Hi & -> & -> & Hreg & Hkm).
      destruct (table_keeps (mem s) m) as [Hr' Hk']; [by eapply keeps_table|done|].
      rewrite Hk in Hk'. destruct Hr' as (Hp & _ & _ & Hl & Ht & _).
      wp_known (port_field_run device port ap_command_list (set_mem m s) Hp). rewrite mem_set_mem, Hl.
      wp_step. wp_step. fold header. rewrite mem_set_mem, Hk'. destruct (Z.ltb_spec i k) as [Hlt|Hge].
      2:{ wp_steps. exists m. replace k with i by lia. done. }
      wp_known (port_field_run device port ap_command_table (set_mem m s) Hp). rewrite mem_set_mem, Ht.
      fold command_table. unfold ct_prdt, sizeof_prdt. 
      set (size := Z.min 4194304 (512 * sectors - 4194304 * i)).
      assert (Hsize : (if prdt_sectors <? u64 (sectors - 8192 * i) then prdt_sectors else u64 (sectors - 8192 * i))
        * BL_STORAGE_SECTOR_SIZE = size).
      { change prdt_sectors with 8192. change BL_STORAGE_SECTOR_SIZE with 512. rewrite u64_small by lia.
        destruct (Z.ltb_spec 8192 (sectors - 8192 * i)); unfold size; lia. }
      rewrite Hsize, !u32_small by field_side. set (e := command_table + 128 + i * 16). cbv zeta.
      wp_known (put_region_run e (buf + Z.min (4194304 * i) (512 * sectors)) size (set_mem m s)).
      rewrite mem_set_mem, set_mem_set_mem. wp_steps.
      destruct (entry_written_reads m e (buf + Z.min (4194304 * i) (512 * sectors)) size)
        as (E1 & E2 & E3); [unfold e; field_side|field_side|lia|].
      split; [|lia]. eexists. split; [done|]. split; [lia|]. split; [change prdt_sectors with 8192; lia|]. split.
      { rewrite u64_small; lia. }
      set (m1 := entry_written _ _ _ _) in *. rewrite regions_at_snoc, chunks_snoc by lia. split.
      + rewrite (regions_at_ext m m1), Hreg by (intros j Hj; split;
          (apply (keeps_ld [(e, 16)]); [done|unfold e in *; field_side|]; constructor; [unfold e; field_side|done])).
        unfold chunk. replace (command_table + 128 + 16 * i) with e by (unfold e; lia). rewrite E1, E2.
        do 3 f_equal; lia.
      + eapply keeps_trans; [exact Hkm|]. intros a Ha [Ho _]%Forall_cons. apply E3; [done|].
        constructor; [unfold e; field_side|done].
    - exists (mem s). rewrite set_mem_id. split; [done|]. split; [lia|]. split; [lia|]. split; [lia|]. done.
    - unfold while_fuel. lia. }
  apply wp_run in Hw as ([] & t & Hrun & m' & -> & Hreg & Hkm). by exists m'.
Qed.

(** The bytes of a command. *)
Definition fis_at (m : gmap Z Z) (h lba sectors : Z) : Prop :=
  ld8 m (h + 0) = 0x27 ∧ Z.testbit (ld8 m (h + 1)) 7 = true ∧ ld8 m (h + 2) = 0x25 ∧
  Z.testbit (ld8 m (h + 7)) 6 = true ∧
  [ld8 m (h + 4); ld8 m (h + 5); ld8 m (h + 6); ld8 m (h + 8); ld8 m (h + 9); ld8 m (h + 10)] = le_split 6 lba ∧
  [ld8 m (h + 12); ld8 m (h + 13)] = le_split 2 sectors.

Lemma shifted_byte x k : 0 <= k → Z.land (Z.shiftr x k) 0xff = u8 (x / 2 ^ k).
Proof. intros. rewrite land_255, Z.shiftr_div_pow2 by lia. done. Qed.

Lemma le_split_6 x : le_split 6 x =
  [u8 x; u8 (x / 256); u8 (x / 65536); u8 (x / 16777216); u8 (x / 4294967296); u8 (x / 1099511627776)].
Proof.
  cbn [le_split]. rewrite !Z.div_div by lia. done.
Qed.

Lemma fill_fis_run s h lba sectors :
  in_space h 64 →
  ∃ m', fill_fis h BL_SATA_COMMAND_READ_SECTORS_DMA_EXT lba sectors s = Some ((), set_mem m' s) ∧
    fis_at m' h lba sectors ∧ keeps [(h, 64)] (mem s) m'.
Proof.
  intros Hs. unfold fill_fis. change (u8 BL_SATA_COMMAND_READ_SECTORS_DMA_EXT =? BL_SATA_COMMAND_READ_SECTORS_DMA_EXT) with true.
  cbv iota. unfold h2d_fis_type, h2d_flags, h2d_command, h2d_lba0, h2d_lba1, h2d_lba2, h2d_lba3, h2d_lba4,
    h2d_lba5, h2d_count0, h2d_count1, h2d_device, BL_AHCI_FIS_TYPE_REGISTER_HOST_TO_DEVICE.
  rewrite !shifted_byte by lia. rewrite !land_255.
  change (2 ^ 8) with 256. change (2 ^ 16) with 65536. change (2 ^ 24) with 16777216.
  change (2 ^ 32) with 4294967296. change (2 ^ 40) with 1099511627776.
  eexists. split; [done|]. unfold with_mem. rewrite ?mem_set_mem, ?set_mem_set_mem. split.
  - unfold fis_at. split_and!.
    + past_writes. by rewrite ld8_one_byte.
    + past_writes. rewrite ld8_one_byte. unfold u8. change 256 with (2 ^ 8).
      rewrite Z.mod_pow2_bits_low, set_field_bit by lia. by rewrite decide_True by lia.
    + past_writes. by rewrite ld8_one_byte.
    + past_writes. by rewrite ld8_one_byte.
    + rewrite le_split_6. repeat (apply (f_equal2 cons); [past_writes; by rewrite ld8_one_byte, u8_idemp|]). done.
    + cbn [le_split]. repeat (apply (f_equal2 cons); [past_writes; by rewrite ld8_one_byte, u8_idemp|]). done.
  - intros a Ha [Ho _]%Forall_cons. by past_writes.
Qed.

(** The words of a header. *)
Definition header_written (m : gmap Z Z) (k : Z) : gmap Z Z :=
  let m := st 2 m header (set_field (ld 2 m header) 0 5 5) in
  let m := st 2 m header (set_field (ld 2 m header) 6 1 0) in
  st 2 m (header + 2) k.

Lemma header_written_reads m k :
  0 <= k < 65536 →
  Z.land (ld 2 (header_written m k) header) 31 = 5 ∧ Z.testbit (ld 2 (header_written m k) header) 6 = false ∧
  ld 2 (header_written m k) (header + 2) = k ∧ ld 4 (header_written m k) (header + 8) = ld 4 m (header + 8) ∧
  keeps [(header, 32)] m (header_written m k).
Proof.
  intros Hk. unfold header_written. set (w := ld 2 m header).
  pose proof (ld_range 2 m header : 0 <= w < 2 ^ 16) as Hw.
  pose proof (set_field_range w 0 5 5 16 ltac:(lia) ltac:(lia) ltac:(lia) Hw) as Hw2.
  pose proof (set_field_range _ 6 1 0 16 ltac:(lia) ltac:(lia) ltac:(lia) Hw2) as Hw3.
  assert (ld 2 (st 2 m header (set_field w 0 5 5)) header = set_field w 0 5 5) as ->
    by (rewrite ld_st_same by field_side; by apply Z.mod_small).
  set (v := set_field (set_field w 0 5 5) 6 1 0) in *.
  assert (ld 2 (st 2 (st 2 (st 2 m header (set_field w 0 5 5)) header v) (header + 2) k) header = v) as ->
    by (past_writes; rewrite ld_st_same by field_side; by apply Z.mod_small).
  split_and!.
  - change 31 with (Z.ones 5). apply Z.bits_inj'. intros i Hi. rewrite Z.land_spec.
    destruct (decide (i < 5)).
    + unfold v. rewrite !set_field_bit by lia. rewrite decide_False, decide_True by lia.
      rewrite Z.ones_spec_low, andb_true_r, Z.sub_0_r by lia. done.
    + rewrite Z.ones_spec_high, andb_false_r by lia. symmetry. apply (Z.bits_above_log2 5); [lia|].
      change (Z.log2 5) with 2. lia.
  - unfold v. rewrite set_field_bit by lia. by rewrite decide_True by lia.
  - rewrite ld_st_same by field_side. by apply Z.mod_small.
  - by past_writes.
  - intros a Ha [Ho _]%Forall_cons. by past_writes.
Qed.

Lemma region_count_eq sectors :
  0 <= sectors → sectors / prdt_sectors + (if 0 <? sectors mod prdt_sectors then 1 else 0) = region_count sectors.
Proof.
  intros. change prdt_sectors with 8192. unfold region_count.
  destruct (Z.ltb_spec 0 (sectors mod 8192)); Z.div_mod_to_equations; lia.
Qed.

Lemma decode_filled m lba sectors rs :
  Z.land (ld 2 m header) 31 = 5 → Z.testbit (ld 2 m header) 6 = false →
  ld 4 m (header + ch_ctba) = command_table → regions_at m command_table (ld 2 m (header + 2)) = rs →
  fis_at m command_table lba sectors →
  decode_slot m clist slot = Some (Request 0x25 (lba mod 2 ^ 48) (sectors mod 65536) rs).
Proof.
  intros Hf1 Hf2 Hct Hreg Hfis. unfold decode_slot.
  replace (clist + 32 * slot) with header by (unfold header, sizeof_command_header; lia).
  unfold ch_ctba in Hct. rewrite Hf1, Hf2, Hct, Hreg.
  destruct Hfis as (-> & -> & -> & -> & -> & ->). by rewrite !le_combine_split.
Qed.

(** The header survives what is written to the table. *)
Lemma header_kept m m' n b :
  keeps [(command_table, 256)] m m' → header <= b → b + Z.of_nat n <= header + 32 → ld n m' b = ld n m b.
Proof.
  intros Hk Hb1 Hb2. apply (keeps_ld [(command_table, 256)]); [done|field_side|].
  constructor; [field_side|done].
Qed.

Lemma fill_slot_run s buf lba sectors :
  0 <= sectors <= 65536 → in_space buf (512 * sectors) → recorded (mem s) →
  ld 4 (mem s) (header + ch_ctba) = command_table →
  ∃ m', fill_slot device slot BL_SATA_COMMAND_READ_SECTORS_DMA_EXT buf lba sectors s = Some ((), set_mem m' s) ∧
    decode_slot m' clist slot = Some (Request 0x25 (lba mod 2 ^ 48) (sectors mod 65536)
      (chunks buf (512 * sectors) (region_count sectors))) ∧
    keeps [(header, 32); (command_table, 256)] (mem s) m'.
Proof.
  intros Hn Hbuf Hr Hct. pose proof Hr as (Hp & _ & _ & Hl & Ht & _).
  assert (Hkr : 0 <= region_count sectors <= 8) by (unfold region_count; Z.div_mod_to_equations; lia).
  destruct (header_written_reads (mem s) (region_count sectors) ltac:(lia)) as (Hf1 & Hf2 & Hf3 & Hf4 & Hk1).
  set (m1 := header_written _ _) in *.
  assert (Hh : recorded m1).
  { eapply keeps_recorded; [exact Hk1|done| |done]. by apply Forall_cons in Hslot as [? _]; constructor. }
  set (m2 := st_bytes m1 command_table (replicate 255 0)).
  assert (Hk2 : keeps [(command_table, 256)] m1 m2).
  { intros a Ha [Ho _]%Forall_cons. unfold m2. by past_writes. }
  destruct (table_keeps m1 m2 Hk2 Hh) as [Hr2 Hc2]. unfold ch_prdtl in Hc2. rewrite Hf3 in Hc2.
  destruct (fill_prdt_run (set_mem m2 s) buf sectors Hn Hbuf Hr2 Hc2) as (m3 & Hrun3 & Hreg & Hk3).
  destruct (table_keeps m2 m3 (keeps_table _ _ Hk3) Hr2) as [Hr3 Hc3]. unfold ch_prdtl in Hc3.
  destruct (fill_fis_run (set_mem m3 s) command_table lba sectors) as (m4 & Hrun4 & Hfis & Hk4); [field_side|].
  rewrite mem_set_mem, set_mem_set_mem in *.
  exists m4. split; [|split].
  - unfold fill_slot. run_with (port_field_run device port ap_command_list s Hp). rewrite Hl.
    unfold ch_flags, ch_prdtl. fold header. rewrite Z.add_0_r.
    rewrite region_count_eq, u32_small by (lia || field_side).
    unfold rd16, wr16, gets, modify, mbind, ST_bind, with_mem. cbv beta iota.
    rewrite ?mem_set_mem, ?set_mem_set_mem. change (sizeof_fis_host_to_device / 4) with 5.
    change (st 2 _ (header + 2) (region_count sectors)) with m1.
    rewrite (port_field_run device port ap_command_table (set_mem m1 s)) by apply Hh.
    destruct Hh as (_ & _ & _ & _ & Ht1 & _). rewrite mem_set_mem, Ht1. fold command_table.
    rewrite !u32_small by field_side. change sizeof_command_table with 256 at 1.
    rewrite bl_memset_run by (field_side || lia).
    rewrite set_mem_set_mem, mem_set_mem. change (Z.to_nat (256 - 1)) with 255%nat. fold m2.
    rewrite Hrun3. destruct Hr3 as (Hp3 & _ & _ & _ & Ht3 & _).
    rewrite (port_field_run device port ap_command_table (set_mem m3 s) Hp3), mem_set_mem, Ht3.
    fold command_table. rewrite u32_small by field_side. exact Hrun4.
  - assert (Hk : keeps [(command_table, 256)] m1 m4).
    { eapply keeps_trans; [exact Hk2|]. eapply keeps_trans; [apply (keeps_table _ _ Hk3)|].
      intros a Ha [Ho _]%Forall_cons. apply Hk4; [done|]. constructor; [field_side|done]. }
    assert (regions_at m4 command_table (region_count sectors) = chunks buf (512 * sectors) (region_count sectors)) as Hreg4.
    { rewrite <- Hreg. apply regions_at_ext. intros k Hk'. split;
        (apply (keeps_ld [(command_table, 64)]); [done|field_side|]; constructor; [field_side|done]). }
    apply decode_filled; unfold ch_ctba in *; rewrite ?(header_kept m1 m4 _ _ Hk) by lia; [done|done| | |done].
    + exact (eq_trans Hf4 Hct).
    + by rewrite Hf3.
  - eapply keeps_trans; [eapply keeps_weaken; [exact Hk1|sublist]|].
    eapply keeps_trans; [eapply keeps_weaken; [exact Hk2|sublist]|].
    eapply keeps_trans; [eapply keeps_weaken; [apply (keeps_table _ _ Hk3)|sublist]|].
    intros a Ha [_ [Ho _]%Forall_cons]%Forall_cons. apply Hk4; [done|]. constructor; [field_side|done].
Qed.
End Driver.

(** ** What a controller with a disk behind it promises

    [regs] is the address of the port's registers and [clist] the command list
    that they point to.  Once the bit of slot 0 is written the port is busy for
    [n] more milliseconds, never as many as the driver waits; meanwhile and
    afterwards the controller may change its own memory, [priv], and the
    regions of the command, in which it leaves the data. *)
Definition rq_sectors (r : request) : Z := if rq_count r =? 0 then 65536 else rq_count r.
Definition total (rs : list (Z * Z)) : Z := foldr (λ r t, r.2 + t) 0 rs.

(** READ DMA EXT into regions at even addresses that hold the sectors. *)
Definition good_request (sectors : Z) (r : request) : Prop :=
  rq_command r = 0x25 ∧ rq_lba r + rq_sectors r <= sectors ∧
  Forall (λ c, Z.even c.1 = true ∧ Z.even c.2 = true) (rq_regions r) ∧ total (rq_regions r) = 512 * rq_sectors r.

Definition served (image : Z → Z) (r : request) (m : gmap Z Z) : gmap Z Z :=
  scatter m (rq_regions r) (slice image (512 * rq_lba r) (512 * rq_sectors r)).

Class AhciDisk {Dev : Type} (hw : hardware Dev) (bl_time_sleep : Z → D Dev Z) (regs clist : Z)
    (image : Z → Z) (sectors : Z) (priv : list (Z * Z)) (idle : Dev → Prop)
    (busy : list (Z * Z) → gmap Z Z → Z → gmap Z Z → Dev → Prop) : Prop := AhciDiskLaws {
  ahci_sact m d : idle d → mm_read hw (regs + pr_sact) m d = (0, (m, d));
  ahci_ci m d : idle d → mm_read hw (regs + pr_ci) m d = (0, (m, d));
  ahci_is m d : idle d → ∃ v, mm_read hw (regs + pr_is) m d = (v, (m, d)) ∧ Z.testbit (u32 v) 30 = false;
  ahci_issue m d r : idle d → decode_slot m clist 0 = Some r → good_request sectors r →
    ∃ m' d' fin n, mm_write hw 1 (regs + pr_ci) m d = (m', d') ∧ 0 <= n <= 98 ∧
      busy (rq_regions r) fin n m' d' ∧ keeps priv (served image r m) fin;
  ahci_busy rs fin n m d : busy rs fin n m d →
    ∃ v m' d', mm_read hw (regs + pr_ci) m d = (v, (m', d')) ∧
      if decide (n = 0) then Z.testbit (u32 v) 0 = false ∧ m' = fin ∧ idle d'
      else Z.testbit (u32 v) 0 = true ∧ ∃ n', 0 <= n' <= n ∧ busy rs fin n' m' d';
  ahci_sleep rs fin n ms m d : busy rs fin n (mem m) d →
    ∃ x m' d' n', bl_time_sleep ms (m, d) = Some (x, (set_mem m' m, d')) ∧
      0 <= n' <= Z.max 0 (n - 1) ∧ busy rs fin n' m' d';
  ahci_keeps rs fin n m d : busy rs fin n m d → keeps (rs ++ priv) fin m;
}.

Lemma chunks_total k a n :
  4194304 * (Z.of_nat k - 1) <= n <= 4194304 * Z.of_nat k → 0 <= n → total (chunks a n (Z.of_nat k)) = n.
Proof.
  revert a n. induction k as [|k IH]; intros a n Hn H0; [replace n with 0 by lia; done|].
  rewrite chunks_cons by lia. replace (Z.of_nat (S k) - 1) with (Z.of_nat k) by lia.
  cbn [total foldr]. fold (total (chunks (a + 4194304) (n - 4194304) (Z.of_nat k))).
  destruct (decide (4194304 <= n)).
  - rewrite IH by lia. unfold chunk. cbn [snd]. lia.
  - destruct k; [|lia]. change (total (chunks _ _ (Z.of_nat 0))) with 0. unfold chunk. cbn [snd]. lia.
Qed.

Lemma chunks_even a n k :
  Z.even a = true → Z.even n = true → Forall (λ c, Z.even c.1 = true ∧ Z.even c.2 = true) (chunks a n k).
Proof.
  intros Ha Hn. unfold chunks. apply Forall_fmap, Forall_forall. intros i _. unfold compose, chunk. cbn [fst snd].
  rewrite Z.even_add, Ha, Z.even_mul. split; [done|].
  destruct (Z.min_spec 4194304 (n - 4194304 * i)) as [[_ ->]|[_ ->]]; [done|].
  by rewrite Z.even_sub, Hn, Z.even_mul.
Qed.

(** The chunks of a buffer lie in the buffer. *)
Lemma chunks_within a n k r :
  0 <= k → 4194304 * (k - 1) < n → r ∈ chunks a n k → a <= r.1 ∧ r.1 + r.2 <= a + n ∧ 0 <= r.2.
Proof.
  intros Hk Hn (i & -> & Hi)%list_elem_of_fmap. apply elem_of_seqZ in Hi. unfold chunk. cbn [fst snd]. lia.
Qed.

Section Read.
Context {Dev : Type} (hw : hardware Dev) (bl_time_sleep : Z → D Dev Z).
Context (device port controller regs clist ctable slots : Z).
Context (image : Z → Z) (sectors : Z) (priv : list (Z * Z)) (idle : Dev → Prop).
Context (busy : list (Z * Z) → gmap Z Z → Z → gmap Z Z → Dev → Prop).
Context `{!AhciDisk hw bl_time_sleep regs clist image sectors priv idle busy}.
Let rcd := recorded device port controller regs clist ctable slots.
Let recs := records device port controller.

Lemma find_slot_run m d :
  idle d → rcd (mem m) → 0 < slots < 2147483648 →
  bl_ahci_find_free_command_slot hw device (m, d) = Some (0, (m, d)).
Proof.
  intros Hi (Hp & Hc & Hr & _ & _ & Hs) Hsl. unfold bl_ahci_find_free_command_slot.
  run_with (on_machine_run _ _ _ _ d (port_field_run device port ap_regs m Hp)). rewrite Hr.
  run_with (mm_rd32_run _ _ _ _ _ _ _ (ahci_sact (mem m) d Hi)). rewrite set_mem_id.
  run_with (on_machine_run _ _ _ _ d (port_field_run device port ap_regs m Hp)). rewrite Hr.
  run_with (mm_rd32_run _ _ _ _ _ _ _ (ahci_ci (mem m) d Hi)). rewrite set_mem_id.
  apply on_machine_run, wp_exact.
  wp_loop (λ '(i, s) t, i = 0 ∧ s = 0 ∧ t = m) (λ _ _, 0 : Z); [|done|done].
  intros [i sl] t (-> & -> & ->). wp_step. wp_step. rewrite Hc. wp_step. wp_step. rewrite Hs, s32_small by lia.
  destruct (Z.ltb_spec 0 slots); [|lia]. by wp_steps.
Qed.

(** The machine's memory where the records are as they were. *)
Lemma read_ci_run m d v m' d' :
  rcd (mem m) → mm_read hw (regs + pr_ci) (mem m) d = (v, (m', d')) →
  (regs ← on_machine (port_field device ap_regs); mm_rd32 hw (regs + pr_ci)) (m, d) =
  Some (u32 v, (set_mem m' m, d')).
Proof.
  intros (Hp & _ & Hr & _) Hv. run_with (on_machine_run _ _ _ _ d (port_field_run device port ap_regs m Hp)).
  rewrite Hr. by apply mm_rd32_run.
Qed.

Lemma land_bit0 v : truth (Z.land v 1) = Z.testbit v 0.
Proof. change 1 with (Z.shiftl 1 0) at 1. by rewrite truth_land_bit. Qed.

Lemma wait_run m m1 d1 rs fin n :
  (∀ k mm dd, busy rs fin k mm dd → rcd mm) → busy rs fin n m1 d1 → 0 <= n <= 98 →
  ∃ d', mwhile (λ timeout,
      let timeout := timeout - 1 in
      if truth timeout then
        ci ← (regs ← on_machine (port_field device ap_regs); mm_rd32 hw (regs + pr_ci));
        if Z.land ci 1 =? 0 then break ()
        else bl_time_sleep 1;; continue timeout
      else break ()) 100 (set_mem m1 m, d1) = Some ((), (set_mem fin m, d')) ∧ idle d'.
Proof.
  intros Hrb Hb Hn.
  set (loop := mwhile _ 100).
  assert (Hw : wp loop (λ _ s, ∃ d', s = (set_mem fin m, d') ∧ idle d') (set_mem m1 m, d1)).
  { unfold loop. wp_loop (λ t s, ∃ k mm dd, s = (set_mem mm m, dd) ∧ busy rs fin k mm dd ∧ 0 <= k <= t - 2 ∧ t <= 100)
      (λ t _, t : Z).
    - intros t s (k & mm & dd & -> & Hbk & Hk & Ht). cbv zeta. unfold truth at 1.
      destruct (Z.eqb_spec (t - 1) 0); [lia|]. cbn [negb].
      destruct (ahci_busy _ _ _ _ _ Hbk) as (v & m2 & d2 & Hv & Hc).
      wp_known (read_ci_run (set_mem mm m) dd v m2 d2 (Hrb _ _ _ Hbk) Hv). rewrite set_mem_set_mem.
      pose proof (land_bit0 (u32 v)) as Hl. unfold truth in Hl.
      destruct (decide (k = 0)) as [->|Hk0].
      + destruct Hc as (Hbit & -> & Hid). rewrite Hbit in Hl. destruct (Z.eqb_spec (Z.land (u32 v) 1) 0); [|done].
        apply wp_ret. by exists d2.
      + destruct Hc as (Hbit & k' & Hk' & Hb'). rewrite Hbit in Hl.
        destruct (Z.eqb_spec (Z.land (u32 v) 1) 0); [done|].
        destruct (ahci_sleep rs fin k' 1 (set_mem m2 m) d2 Hb') as (x & m3 & d3 & k3 & Hs & Hk3 & Hb3).
        wp_known Hs. apply wp_ret. rewrite set_mem_set_mem. split; [|lia]. exists k3, m3, d3.
        split; [done|]. split; [done|]. lia.
    - exists n, m1, d1. split; [done|]. split; [done|]. lia.
    - unfold while_fuel. lia. }
  apply wp_run in Hw as ([] & s & Hrun & d' & -> & Hid). by exists d'.
Qed.

Lemma issue_run m d r :
  idle d → rcd (mem m) → Forall good_region recs → each_apart (rq_regions r ++ priv) recs →
  decode_slot (mem m) clist 0 = Some r → good_request sectors r → rcd (served image r (mem m)) →
  ∃ m' d', issue_command hw bl_time_sleep device 0 (m, d) = Some (BL_STATUS_SUCCESS, (set_mem m' m, d')) ∧
    idle d' ∧ keeps priv (served image r (mem m)) m'.
Proof.
  intros Hi Hr Hg Hap Hdec Hgood Hserved. pose proof Hr as (Hp & _ & Hregs & _).
  destruct (ahci_issue (mem m) d r Hi Hdec Hgood) as (m1 & d1 & fin & n & Hw & Hn & Hb & Hfin).
  assert (Hrf : rcd fin).
  { eapply keeps_recorded; [exact Hfin|done| |exact Hserved]. by apply Forall_app in Hap as [_ ?]. }
  assert (Hrb : ∀ k mm dd, busy (rq_regions r) fin k mm dd → rcd mm).
  { intros k mm dd Hb'. eapply keeps_recorded; [by eapply ahci_keeps|done..]. }
  unfold issue_command. run_with (on_machine_run _ _ _ _ d (port_field_run device port ap_regs m Hp)).
  rewrite Hregs. change (Z.shiftl 1 0) with 1.
  assert (Hor : mm_or32 hw (regs + pr_ci) 1 (m, d) = Some ((), (set_mem m1 m, d1))).
  { unfold mm_or32. run_with (mm_rd32_run _ _ _ _ _ _ _ (ahci_ci (mem m) d Hi)). rewrite set_mem_id.
    by apply mm_wr32_run. }
  run_with Hor. destruct (wait_run m m1 d1 _ fin n Hrb Hb Hn) as (d2 & Hwait & Hi2). run_with Hwait.
  run_with (read_ci_run (set_mem fin m) d2 _ _ _ Hrf (ahci_ci fin d2 Hi2)).
  change (truth (Z.land (u32 0) 1)) with false. cbv iota.
  destruct Hrf as (Hpf & _ & Hregsf & _). rewrite set_mem_set_mem.
  run_with (on_machine_run _ _ _ _ d2 (port_field_run device port ap_regs (set_mem fin m) Hpf)).
  rewrite mem_set_mem, Hregsf. destruct (ahci_is fin d2 Hi2) as (v & Hv & Hbit).
  run_with (mm_rd32_run hw (regs + pr_is) (set_mem fin m) d2 v fin d2 Hv).
  unfold BL_AHCI_PORT_IS_TFES. rewrite truth_land_bit, Hbit by lia. exists fin, d2. by rewrite set_mem_set_mem.
Qed.

Context (Hrecs : Forall good_region recs) (Hslots : 0 < slots < 2147483648).
Context (Hcl : good_region (clist, 32)) (Hct : good_region (ctable, 256)) (Hap : apart (clist, 32) (ctable, 256)).
Context (Hlist : each_apart [(clist, 32); (ctable, 256)] recs).

Lemma served_chunks m buf lba n :
  0 < n <= 65536 →
  let r := Request 0x25 (lba mod 2 ^ 48) (n mod 65536) (chunks buf (512 * n) (region_count n)) in
  rq_sectors r = n ∧ served image r m = st_bytes m buf (slice image (512 * (lba mod 2 ^ 48)) (512 * n)).
Proof.
  intros Hn r. assert (Hs : rq_sectors r = n).
  { unfold rq_sectors, r. cbn [rq_count]. destruct (decide (n = 65536)) as [->|]; [done|].
    rewrite Z.mod_small by lia. destruct (Z.eqb_spec n 0); lia. }
  split; [done|]. unfold served. rewrite Hs. cbn [rq_lba rq_regions r].
  assert (Hk : 0 <= region_count n ∧ n <= 8192 * region_count n) by (unfold region_count; Z.div_mod_to_equations; lia).
  set (data := slice image _ _).
  assert (Hl : Z.of_nat (length data) = 512 * n) by (unfold data; rewrite length_slice; lia).
  rewrite <- Hl, <- (Z2Nat.id (region_count n)) by lia. apply scatter_chunks. rewrite Z2Nat.id by lia. lia.
Qed.

Lemma chunks_apart buf n rs :
  0 < n → each_apart [(buf, 512 * n)] rs → each_apart (chunks buf (512 * n) (region_count n)) rs.
Proof.
  intros Hn [Hb _]%Forall_cons. apply Forall_forall. intros c Hc.
  apply chunks_within in Hc; [|unfold region_count; Z.div_mod_to_equations; lia..].
  eapply Forall_impl; [exact Hb|]. intros q. unfold apart, disjoint. cbn [fst snd]. lia.
Qed.

Lemma ahci_read_run m d buf lba n :
  idle d → rcd (mem m) → ld 4 (mem m) (clist + ch_ctba) = ctable →
  0 < n <= 65536 → lba mod 2 ^ 48 + n <= sectors → in_space buf (512 * n) → Z.even buf = true →
  each_apart ((buf, 512 * n) :: priv) recs → each_apart [(buf, 512 * n)] priv →
  ∃ m' d', bl_ahci_read hw bl_time_sleep device buf lba n (m, d) =
      Some (BL_STATUS_SUCCESS, (set_mem m' m, d')) ∧ idle d' ∧
    keeps ([(clist, 32); (ctable, 256); (buf, 512 * n)] ++ priv) (mem m) m' ∧
    ld_bytes m' buf (Z.to_nat (512 * n)) = slice image (512 * (lba mod 2 ^ 48)) (512 * n).
Proof.
  intros Hi Hr Hctba Hn Hs Hbuf Heven Hbr Hbp.
  assert (Eh : header clist 0 = clist) by (unfold header; lia).
  assert (Et : command_table ctable 0 = ctable) by (unfold command_table; lia).
  destruct (fill_slot_run device port controller regs clist ctable slots Hrecs 0) with (s := m) (buf := buf)
    (lba := lba) (sectors := n) as (m1 & Hrun1 & Hdec & Hk1); rewrite ?Eh, ?Et; try done; try apply Hcl; try apply Hct.
  { destruct Hct as [? ?]. field_side. }
  { lia. }
  rewrite Eh, Et in *. set (r := Request _ _ _ _) in Hdec.
  destruct (served_chunks m1 buf lba n Hn) as [Hrs Hserved]. fold r in Hrs, Hserved.
  set (data := slice image (512 * (lba mod 2 ^ 48)) (512 * n)) in *.
  assert (Hl : Z.of_nat (length data) = 512 * n) by (unfold data; rewrite length_slice; lia).
  assert (Hkb : keeps [(buf, 512 * n)] m1 (st_bytes m1 buf data)).
  { pose proof (keeps_st_bytes m1 buf data) as H. rewrite Hl in H. by apply H. }
  destruct (issue_run (set_mem m1 m) d r) as (m2 & d2 & Hrun2 & Hi2 & Hk2); try done.
  { by eapply keeps_recorded. }
  { apply Forall_app. apply Forall_cons in Hbr as [Hb Hp]. split; [|done].
    apply chunks_apart; [lia|]. by constructor. }
  { split; [done|]. rewrite Hrs. split; [done|]. split.
    - apply chunks_even; [done|]. by rewrite Z.even_mul.
    - cbn [rq_regions r]. rewrite <- (Z2Nat.id (region_count n)) by (unfold region_count; Z.div_mod_to_equations; lia).
      apply chunks_total; [|lia]. unfold region_count. Z.div_mod_to_equations. lia. }
  { rewrite mem_set_mem, Hserved. eapply keeps_recorded; [exact Hkb|done| |by eapply keeps_recorded].
    apply Forall_cons in Hbr as [Hb _]. by constructor. }
  rewrite mem_set_mem, set_mem_set_mem, Hserved in *. exists m2, d2. split; [|split; [done|split]].
  - unfold bl_ahci_read, bl_ahci_do_command. change (BL_AHCI_PRDT_ENTRIES * prdt_sectors) with 65536.
    destruct (Z.ltb_spec 65536 n); [lia|].
    unfold mbind, ST_bind. rewrite (find_slot_run m d Hi Hr Hslots). cbv beta iota.
    change (0 =? -1) with false. cbv beta iota. by rewrite (on_machine_run _ _ _ _ d Hrun1), Hrun2.
  - eapply keeps_trans; [eapply keeps_weaken; [exact Hk1|sublist]|].
    eapply keeps_trans; [eapply keeps_weaken; [exact Hkb|sublist]|]. eapply keeps_weaken; [exact Hk2|sublist].
  - assert (ld_bytes m2 buf (length data) = data) as E; [|by rewrite <- E; f_equal; lia].
    rewrite (keeps_ld_bytes _ _ _ _ _ Hk2); rewrite ?Hl; [|done|].
    + apply ld_bytes_st_bytes_in; [by rewrite Hl|apply bytes_slice].
    + apply Forall_cons in Hbp as [Hb _]. eapply Forall_impl; [exact Hb|]. intros q. apply apart_sym.
Qed.
End Read.

(** Where the driver's records, the slot, the buffer and the controller's
    memory lie. *)
Definition ahci_layout (device port controller clist ctable buf n : Z) (priv : list (Z * Z)) : Prop :=
  Forall good_region (records device port controller ++ [(clist, 32); (ctable, 256)]) ∧
  apart (clist, 32) (ctable, 256) ∧ in_space buf n ∧ Z.even buf = true ∧
  each_apart ([(clist, 32); (ctable, 256); (buf, n)] ++ priv) (records device port controller) ∧
  each_apart [(buf, n)] priv.

(** ** A disk that serves a command at once *)
Definition plain_hardware (regs clist : Z) (image : Z → Z) : hardware () :=
  Hardware () (λ _ m d, (0, (m, d)))
    (λ v a m d,
      if (a =? regs + pr_ci) && Z.testbit v 0 then
        match decode_slot m clist 0 with Some r => (served image r m, d) | None => (m, d) end
      else (m, d))
    (λ m d, (m, d)).

#[export] Instance plain_ahci regs clist image sectors :
  AhciDisk (plain_hardware regs clist image) (λ _, mret 0) regs clist image sectors [] (λ _, True)
    (λ _ fin n m _, n = 0 ∧ m = fin).
Proof.
  constructor; try done.
  - intros m d _. by exists 0.
  - intros m d r _ Hr _. cbn. rewrite Z.eqb_refl, Hr. cbn. exists (served image r m), d, (served image r m), 0.
    by split_and!.
  - intros rs fin n m d [-> ->]. by exists 0, fin, d.
  - intros rs fin n ms m d [-> <-]. exists 0, (mem m), d, 0. by rewrite set_mem_id.
  - intros rs fin n m d [-> ->]. done.
Qed.

(** ** Properties *)

(** C12: The AHCI driver reads: with a controller that carries out the command
    it finds in slot 0, [bl_ahci_read] of up to 65536 sectors into a buffer at
    an even address ends with success, has stored exactly those sectors there
    (the block number modulo 2^48) and has changed nothing but the buffer, the
    slot's header and table, and the controller's own memory.  The regions of
    the command's table cover the buffer in pieces of up to 4 MiB. *)
Theorem ahci_read_correct {Dev} (hw : hardware Dev) bl_time_sleep device port controller regs clist ctable
    slots image sectors priv idle busy m d buf lba n :
  AhciDisk hw bl_time_sleep regs clist image sectors priv idle busy →
  ahci_layout device port controller clist ctable buf (512 * n) priv →
  recorded device port controller regs clist ctable slots (mem m) → 0 < slots < 2147483648 →
  ld 4 (mem m) (clist + ch_ctba) = ctable → idle d →
  0 < n <= 65536 → lba mod 2 ^ 48 + n <= sectors →
  ∃ m' d', bl_ahci_read hw bl_time_sleep device buf lba n (m, d) =
      Some (BL_STATUS_SUCCESS, (set_mem m' m, d')) ∧ idle d' ∧
    keeps ([(clist, 32); (ctable, 256); (buf, 512 * n)] ++ priv) (mem m) m' ∧
    ld_bytes m' buf (Z.to_nat (512 * n)) = slice image (512 * (lba mod 2 ^ 48)) (512 * n).
Proof.
  intros Hdisk (Hg & Hap & Hbuf & Heven & Hrecs & Hbp) Hr Hsl Hct Hi Hn Hs.
  apply Forall_app in Hg as [Hg [Hcl [Htb _]%Forall_cons]%Forall_cons].
  apply Forall_app in Hrecs as [[H1 [H2 [H3 _]%Forall_cons]%Forall_cons]%Forall_cons Hp].
  apply (ahci_read_run hw bl_time_sleep device port controller regs clist ctable slots image sectors priv
    idle busy); try done.
  - by constructor; [|constructor; [|constructor]].
  - by constructor.
Qed.

Definition wit_ahci_image (a : Z) : Z := a mod 251.
Definition wit_ahci_machine : machine :=
  set_mem (st 4 (st 4 (st 4 (st 4 (st 4 (st 4 (st 4 ∅ (0x2000 + ad_port) 0x3000) (0x2000 + ad_controller) 0x3100)
    (0x3000 + ap_regs) 0xf0000100) (0x3000 + ap_command_list) 0x4000) (0x3000 + ap_command_table) 0x5000)
    (0x3100 + ac_command_slots) 32) (0x4000 + ch_ctba) 0x5000) machine0.

Lemma ahci_read_correct_witness :
  ∃ m' d', bl_ahci_read (plain_hardware 0xf0000100 0x4000 wit_ahci_image) (λ _, mret 0) 0x2000 0x10000 7 2
      (wit_ahci_machine, ()) = Some (BL_STATUS_SUCCESS, (set_mem m' wit_ahci_machine, d')) ∧
    ld_bytes m' 0x10000 (Z.to_nat (512 * 2)) = slice wit_ahci_image (512 * (7 mod 2 ^ 48)) (512 * 2).
Proof.
  destruct (ahci_read_correct (plain_hardware 0xf0000100 0x4000 wit_ahci_image) (λ _, mret 0) 0x2000 0x3000
    0x3100 0xf0000100 0x4000 0x5000 32 wit_ahci_image 100 [] (λ _, True) (λ _ fin n m _, n = 0 ∧ m = fin)
    wit_ahci_machine () 0x10000 7 2) as (m' & d' & Hr & _ & _ & Hd); [apply plain_ahci| | |done| |done|done|done|].
  - unfold ahci_layout, records. cbn [app]. split; [concrete_regions|]. split; [concrete_regions|].
    split; [by vm_compute|]. split; [done|]. split; concrete_regions.
  - by vm_compute.
  - by vm_compute.
  - exists m', d'. split; [exact Hr|exact Hd].
Defined.
