(* ===== verification/Keyboard.v ===== *)
(** * Keyboards: core/keyboard/keyboard.c, core/keyboard/layout.c,
    modules/keyboard/ps2-kbd/ps2-keyboard.c *)
From S2P Require Import Prelude Memory Arith Status Strings Heap Ports.

(** ** layout.c: the tables of the USB HID layout; the entries after the last
    one are 0. *)
Definition bl_keyboard_layout : list Z :=
  [0; 0; 0; 0; 97; 98; 99; 100; 101; 102; 103; 104; 105; 106; 107; 108;
   109; 110; 111; 112; 113; 114; 115; 116; 117; 118; 119; 120; 121; 122; 49; 50;
   51; 52; 53; 54; 55; 56; 57; 48; 10; 27; 8; 9; 32; 45; 61; 91;
   93; 92; 35; 59; 39; 96; 44; 46; 47].

Definition bl_keyboard_layout_shift : list Z :=
  [0; 0; 0; 0; 65; 66; 67; 68; 69; 70; 71; 72; 73; 74; 75; 76;
   77; 78; 79; 80; 81; 82; 115; 84; 85; 86; 87; 88; 89; 90; 33; 64;
   35; 36; 37; 94; 38; 42; 40; 41; 10; 27; 8; 9; 32; 95; 43; 123;
   125; 124; 126; 58; 34; 126; 60; 62; 63].

Definition bl_keyboard_layout_lookup (key : Z) : Z :=
  nth (Z.to_nat (Z.land key 0xff)) bl_keyboard_layout 0.
Definition bl_keyboard_layout_lookup_shift (key : Z) : Z :=
  nth (Z.to_nat (Z.land key 0xff)) bl_keyboard_layout_shift 0.

(** ** keyboard.c: the registries of keyboards and controllers.  [Dev] is the
    state of the hardware. *)
Inductive bl_keyboard_t : Set := BL_KEYBOARD_PS2 | BL_KEYBOARD_USB.
#[export] Instance bl_keyboard_t_eq_dec : EqDecision bl_keyboard_t.
Proof. solve_decision. Defined.

Section Registry.
Context {Dev : Type}.

(** [struct bl_keyboard]: the type and the driver's data. *)
Record bl_keyboard := Keyboard { kbd_type : bl_keyboard_t; kbd_data : Z }.

Record bl_keyboard_controller := KeyboardController {
  kc_type : bl_keyboard_t;
  kc_initialize : option (bl_keyboard → D Dev bl_status_t);
  kc_getchar : option (bl_keyboard → D Dev Z);
}.

Definition bl_keyboard_register (kbd : bl_keyboard) (l : list bl_keyboard) := kbd :: l.
Definition bl_keyboard_controller_register (c : bl_keyboard_controller)
    (l : list bl_keyboard_controller) := c :: l.

Fixpoint bl_keyboard_controller_match_type (l : list bl_keyboard_controller) (type : bl_keyboard_t) :
    option bl_keyboard_controller :=
  match l with
  | [] => None
  | c :: next => if decide (kc_type c = type) then Some c else bl_keyboard_controller_match_type next type
  end.

(** The first keyboard of the type that its controller initialises, with the
    controller it is then bound to. *)
Fixpoint bl_keyboard_scan_type (ctrls : list bl_keyboard_controller) (kbds : list bl_keyboard)
    (type : bl_keyboard_t) : D Dev (option (bl_keyboard * (bl_keyboard → D Dev Z))) :=
  match kbds with
  | [] => mret None
  | kbd :: next =>
      if decide (kbd_type kbd = type) then
        match bl_keyboard_controller_match_type ctrls type with
        | Some (KeyboardController _ (Some initialize) (Some getchar)) =>
            status ← initialize kbd;
            if failed status then bl_keyboard_scan_type ctrls next type
            else mret (Some (kbd, getchar))
        | _ => bl_keyboard_scan_type ctrls next type
        end
      else bl_keyboard_scan_type ctrls next type
  end.

(** USB keyboards first; the result is the active keyboard, the old one
    ([bl_active_kbd]) when no keyboard answers. *)
Definition bl_keyboard_init (ctrls : list bl_keyboard_controller) (kbds : list bl_keyboard)
    (bl_active_kbd : option (bl_keyboard * (bl_keyboard → D Dev Z))) :
    D Dev (bl_status_t * option (bl_keyboard * (bl_keyboard → D Dev Z))) :=
  o ← bl_keyboard_scan_type ctrls kbds BL_KEYBOARD_USB;
  match o with
  | Some k => mret (BL_STATUS_SUCCESS, Some k)
  | None =>
      o ← bl_keyboard_scan_type ctrls kbds BL_KEYBOARD_PS2;
      match o with
      | Some k => mret (BL_STATUS_SUCCESS, Some k)
      | None => mret (BL_STATUS_UNSUPPORTED, bl_active_kbd)
      end
  end.

Definition bl_keyboard_getchar (active : option (bl_keyboard * (bl_keyboard → D Dev Z))) : D Dev Z :=
  match active with
  | Some (kbd, getchar) => getchar kbd
  | None => mret (-1)
  end.
End Registry.

(** ** ps2-keyboard.c *)
Definition BL_PS2_KEYBOARD_NO_KEY : Z := -1.
Definition PS2_DATA : Z := 0x60.     (* BL_PS2_KEYBOARD_FUNCTION_DATA_OUTPUT_REGISTER *)
Definition PS2_STATUS : Z := 0x64.   (* ..._STATUS_REGISTER and ..._SEND_COMMAND *)
Definition OUTPUT_BUFFER_FULL : Z := 0x01.
Definition INPUT_BUFFER_FULL : Z := 0x02.
Definition PS2_READ_CONFIG : Z := 0x20.
Definition PS2_WRITE_CONFIG : Z := 0x60.
Definition PS2_SELF_TEST : Z := 0xaa.
Definition PS2_INTERFACE_TEST : Z := 0xab.
Definition BL_PS2_KEYBOARD_SELF_TEST_OK : Z := 0x55.
Definition BL_PS2_KEYBOARD_UNPRINTABLE_KEY : Z := 0xff000000.
Definition BL_KEY_LSHIFT : Z := 0xff000012.
Definition BL_KEY_RSHIFT : Z := 0xff000059.

(** The entries after the last one are 0. *)
Definition scan_code_set2 : list Z :=
  [0; 0; 0; 0; 0; 0; 0; 0; 0; 0; 0; 0; 0; 9; 96; 0;
   0; 0; BL_KEY_LSHIFT; 0; 0; 113; 49; 0; 0; 0; 122; 115; 97; 119; 50; 0;
   0; 99; 120; 100; 101; 52; 51; 0; 0; 32; 118; 102; 116; 114; 53; 0;
   0; 110; 98; 104; 103; 121; 54; 0; 0; 0; 109; 106; 117; 55; 56; 0;
   0; 44; 107; 105; 111; 48; 57; 0; 0; 46; 47; 108; 59; 112; 45; 0;
   0; 0; 39; 0; 91; 61; 0; 0; 0; BL_KEY_RSHIFT; 10; 93; 0; 92; 0; 0;
   0; 0; 0; 0; 0; 0; 0; 0; 0; 0; 0; 0; 0; 0; 0; 0;
   0; 0; 0; 0; 0; 0; 0; 0; 0; 0; 0; 0; 0; 0; 0; 0].

Definition scan_code_set2_with_shift : list Z :=
  [0; 0; 0; 0; 0; 0; 0; 0; 0; 0; 0; 0; 0; 9; 96; 0;
   0; 0; BL_KEY_LSHIFT; 0; 0; 81; 33; 0; 0; 0; 90; 83; 65; 87; 64; 0;
   0; 67; 88; 68; 69; 36; 35; 0; 0; 32; 86; 70; 84; 82; 37; 0;
   0; 78; 66; 72; 71; 89; 94; 0; 0; 0; 77; 74; 85; 38; 42; 0;
   0; 60; 75; 73; 79; 41; 40; 0; 0; 62; 63; 76; 58; 80; 95; 0;
   0; 0; 34; 0; 123; 43; 0; 0; 0; BL_KEY_RSHIFT; 10; 125; 0; 124; 0; 0;
   0; 0; 0; 0; 0; 0; 0; 0; 0; 0; 0; 0; 0; 0; 0; 0;
   0; 0; 0; 0; 0; 0; 0; 0; 0; 0; 0; 0; 0; 0; 0; 0].

(** The statics of [bl_ps2_keyboard_get_key]. *)
Record ps2_state := Ps2 { key_released : bool; lshift_pressed : bool; rshift_pressed : bool }.

(** What a scan code does: the new state and the key, if there is one. *)
Definition ps2_decode (st : ps2_state) (scan_code : Z) : ps2_state * Z :=
  let '(Ps2 released l r) := st in
  if scan_code =? 0xff then (st, BL_PS2_KEYBOARD_NO_KEY)
  else if scan_code =? 0xf0 then (Ps2 true l r, BL_PS2_KEYBOARD_NO_KEY)
  else
    let key := nth (Z.to_nat scan_code) scan_code_set2 0 in
    if truth (Z.land key BL_PS2_KEYBOARD_UNPRINTABLE_KEY) then
      (Ps2 false (if key =? BL_KEY_LSHIFT then negb l else l)
                 (if key =? BL_KEY_RSHIFT then negb r else r), BL_PS2_KEYBOARD_NO_KEY)
    else if negb released then
      (st, if l || r then nth (Z.to_nat scan_code) scan_code_set2_with_shift 0 else key)
    else (Ps2 false l r, BL_PS2_KEYBOARD_NO_KEY).

Section Ps2.
Context {Dev : Type} (io : ports Dev).

Definition bl_ps2_keyboard_has_output : D Dev bool :=
  v ← bl_inb io PS2_STATUS; mret (truth (Z.land v OUTPUT_BUFFER_FULL)).

Definition bl_ps2_keyboard_get_key (st : ps2_state) : D Dev (ps2_state * Z) :=
  full ← bl_ps2_keyboard_has_output;
  if negb full then mret (st, BL_PS2_KEYBOARD_NO_KEY)
  else
    scan_code ← bl_inb io PS2_DATA;
    mret (ps2_decode st scan_code).

Definition bl_ps2_keyboard_getchar (kbd : bl_keyboard) (st : ps2_state) : D Dev (ps2_state * Z) :=
  if negb (bool_decide (kbd_type kbd = BL_KEYBOARD_PS2)) then mret (st, -1)
  else
    mwhile (λ st,
      '(st, c) ← bl_ps2_keyboard_get_key st;
      if negb (c =? BL_PS2_KEYBOARD_NO_KEY) && (0 <? c) then break (st, c) else continue st) st.

Definition bl_ps2_keyboard_controller_wait_for_input : D Dev () :=
  poll io PS2_STATUS (λ v, truth (Z.land v INPUT_BUFFER_FULL)).

Definition wait_for_output : D Dev () :=
  poll io PS2_STATUS (λ v, Z.land v OUTPUT_BUFFER_FULL =? 0).

Definition bl_ps2_keyboard_command (command : Z) : D Dev () :=
  bl_outb io command PS2_STATUS;;
  wait_for_output.

Definition bl_ps2_keyboard_set_general_mode : D Dev () :=
  bl_ps2_keyboard_controller_wait_for_input;;
  bl_outb io PS2_READ_CONFIG PS2_STATUS;;
  wait_for_output;;
  c ← bl_inb io PS2_DATA;
  let c := Z.land (Z.land c (not32 1)) (not32 64) in
  bl_ps2_keyboard_controller_wait_for_input;;
  bl_outb io PS2_WRITE_CONFIG PS2_STATUS;;
  bl_outb io c PS2_DATA.

Definition bl_ps2_keyboard_interface_test : D Dev bl_status_t :=
  bl_ps2_keyboard_command PS2_INTERFACE_TEST;;
  v ← bl_inb io PS2_DATA;
  mret (if truth v then BL_STATUS_FAILURE else BL_STATUS_SUCCESS).

Definition bl_ps2_keyboard_self_test : D Dev bl_status_t :=
  bl_ps2_keyboard_command PS2_SELF_TEST;;
  v ← bl_inb io PS2_DATA;
  mret (if negb (v =? BL_PS2_KEYBOARD_SELF_TEST_OK) then BL_STATUS_FAILURE else BL_STATUS_SUCCESS).

Definition bl_ps2_keyboard_initialize (kbd : bl_keyboard) : D Dev bl_status_t :=
  status ← bl_ps2_keyboard_self_test;
  if failed status then mret status
  else
    status ← bl_ps2_keyboard_interface_test;
    if failed status then mret status
    else
      bl_ps2_keyboard_set_general_mode;;
      mret BL_STATUS_SUCCESS.
End Ps2.

(** [BL_MODULE_INIT] of the driver, which registers its controller (the two
    functions above) and one keyboard: the lists of controllers and keyboards. *)
Definition sizeof_keyboard : Z := 16.

Definition ps2_module_init {Dev} (ps2_keyboard_controller : bl_keyboard_controller (Dev := Dev))
    (ctrls : list bl_keyboard_controller) (kbds : list bl_keyboard) :
    M (list bl_keyboard_controller * list bl_keyboard) :=
  kbd ← bl_heap_alloc sizeof_keyboard;
  if is_null kbd then mret (ctrls, kbds)
  else
    mret (bl_keyboard_controller_register ps2_keyboard_controller ctrls,
          bl_keyboard_register (Keyboard BL_KEYBOARD_PS2 NULL) kbds).
