(* ===== verification/KeyboardProofs.v ===== *)
(** * Proofs about the PS/2 keyboard: what a sequence of key events is read as. *)
From S2P Require Import Prelude Memory Arith Status Strings Ports Keyboard.

(** ** Events and the scan codes (set 2) the keyboard sends for them *)
Inductive key_event : Set := Press (code : Z) | Release (code : Z).

Definition scan_codes (e : key_event) : list Z :=
  match e with Press c => [c] | Release c => [0xf0; c] end.

(** The codes of one-byte keys: 0xf0 announces a release and 0xff is no key. *)
Definition key_code (c : Z) : Prop := 0 <= c < 0xf0.
Definition code_of (e : key_event) : Z := match e with Press c => c | Release c => c end.

Definition LSHIFT_CODE : Z := 0x12.
Definition RSHIFT_CODE : Z := 0x59.

(** The keys read from a sequence of scan codes. *)
Fixpoint ps2_keys (st : ps2_state) (codes : list Z) : ps2_state * list Z :=
  match codes with
  | [] => (st, [])
  | c :: rest =>
      let '(st1, key) := ps2_decode st c in
      let '(st2, keys) := ps2_keys st1 rest in
      (st2, if key =? BL_PS2_KEYBOARD_NO_KEY then keys else key :: keys)
  end.

Lemma ps2_keys_app st l1 l2 :
  ps2_keys st (l1 ++ l2) =
  let '(st1, k1) := ps2_keys st l1 in let '(st2, k2) := ps2_keys st1 l2 in (st2, k1 ++ k2).
Proof.
  revert st. induction l1 as [|c l1 IH]; intros st; simpl; [by destruct (ps2_keys st l2)|].
  destruct (ps2_decode st c) as [st' key]. rewrite IH. destruct (ps2_keys st' l1) as [st1 k1].
  destruct (ps2_keys st1 l2) as [st2 k2]. by destruct (_ =? _).
Qed.

(** ** The reference: which shift keys are held, and what is typed *)
Record held := Held { left_held : bool; right_held : bool }.

Definition hold (h : held) (e : key_event) : held :=
  match e with
  | Press c => Held (left_held h || (c =? LSHIFT_CODE)) (right_held h || (c =? RSHIFT_CODE))
  | Release c => Held (left_held h && negb (c =? LSHIFT_CODE)) (right_held h && negb (c =? RSHIFT_CODE))
  end.

Definition is_shift (c : Z) : bool := (c =? LSHIFT_CODE) || (c =? RSHIFT_CODE).
Definition char_of (shift : bool) (c : Z) : Z :=
  nth (Z.to_nat c) (if shift then scan_code_set2_with_shift else scan_code_set2) 0.

Fixpoint typed (h : held) (es : list key_event) : held * list Z :=
  match es with
  | [] => (h, [])
  | e :: rest =>
      let '(h', keys) := typed (hold h e) rest in
      (h', match e with
           | Press c => if is_shift c then keys else char_of (left_held h || right_held h) c :: keys
           | Release _ => keys
           end)
  end.

(** The shift keys go down only when they are up, and up only when down: no
    repeated make codes. *)
Fixpoint no_repeat (h : held) (es : list key_event) : Prop :=
  match es with
  | [] => True
  | e :: rest =>
      match e with
      | Press c => (c = LSHIFT_CODE → left_held h = false) ∧ (c = RSHIFT_CODE → right_held h = false)
      | Release c => (c = LSHIFT_CODE → left_held h = true) ∧ (c = RSHIFT_CODE → right_held h = true)
      end ∧ no_repeat (hold h e) rest
  end.

Definition state_of (h : held) : ps2_state := Ps2 false (left_held h) (right_held h).

(** ** One scan code *)
(** A fact about all the codes of a table, decided by running through them. *)
Lemma all_codes (P : Z → bool) : forallb P (seqZ 0 240) = true → ∀ c, key_code c → P c = true.
Proof.
  rewrite forallb_forall. intros H c Hc. apply H, list_elem_of_In, elem_of_seqZ. unfold key_code in Hc. lia.
Qed.

Lemma decode_shift released l r c :
  key_code c → is_shift c = true →
  ps2_decode (Ps2 released l r) c =
  (Ps2 false (if c =? LSHIFT_CODE then negb l else l) (if c =? RSHIFT_CODE then negb r else r), BL_PS2_KEYBOARD_NO_KEY).
Proof.
  intros _ Hs. unfold is_shift in Hs. apply orb_true_iff in Hs as [Hc%Z.eqb_eq|Hc%Z.eqb_eq]; subst c; by destruct released.
Qed.

Lemma decode_other released l r c :
  key_code c → is_shift c = false →
  ps2_decode (Ps2 released l r) c =
  (Ps2 false l r, if released then BL_PS2_KEYBOARD_NO_KEY else char_of (l || r) c) ∧
  char_of (l || r) c ≠ BL_PS2_KEYBOARD_NO_KEY.
Proof.
  intros Hc Hs.
  pose proof (all_codes (λ c, is_shift c ||
    (negb (truth (Z.land (nth (Z.to_nat c) scan_code_set2 0) BL_PS2_KEYBOARD_UNPRINTABLE_KEY)) &&
     (0 <=? char_of true c) && (0 <=? char_of false c))) eq_refl c Hc) as H.
  cbv beta in H. rewrite Hs in H. cbn [orb] in H. apply andb_prop in H as [[H1%negb_true_iff H2]%andb_prop H3].
  apply Z.leb_le in H2, H3. split.
  - unfold ps2_decode. unfold key_code in Hc. destruct (Z.eqb_spec c 0xff); [lia|]. destruct (Z.eqb_spec c 0xf0); [lia|].
    rewrite H1. destruct released; [done|]. cbn [negb]. unfold char_of. by destruct (l || r).
  - unfold BL_PS2_KEYBOARD_NO_KEY. destruct (l || r); lia.
Qed.

Lemma decode_event h e :
  key_code (code_of e) →
  ps2_keys (state_of h) (scan_codes e) =
  (match e with
   | Press c | Release c =>
       Ps2 false (if c =? LSHIFT_CODE then negb (left_held h) else left_held h)
                 (if c =? RSHIFT_CODE then negb (right_held h) else right_held h)
   end,
   match e with
   | Press c => if is_shift c then [] else [char_of (left_held h || right_held h) c]
   | Release c => []
   end).
Proof.
  intros Hc. destruct e as [c|c]; cbn [code_of] in Hc; cbn [scan_codes ps2_keys].
  - unfold state_of. destruct (is_shift c) eqn:Es; [by rewrite decode_shift by done|].
    destruct (decode_other false (left_held h) (right_held h) c Hc Es) as [-> Hne].
    unfold is_shift in Es. apply orb_false_iff in Es as [-> ->].
    by destruct (Z.eqb_spec (char_of (left_held h || right_held h) c) BL_PS2_KEYBOARD_NO_KEY).
  - change (ps2_decode (state_of h) 240) with (Ps2 true (left_held h) (right_held h), BL_PS2_KEYBOARD_NO_KEY).
    cbn iota. destruct (is_shift c) eqn:Es; [by rewrite decode_shift by done|].
    destruct (decode_other true (left_held h) (right_held h) c Hc Es) as [-> _].
    unfold is_shift in Es. by apply orb_false_iff in Es as [-> ->].
Qed.

(** ** Properties *)

(** C36: as long as the shift keys do not repeat, the characters
    [bl_ps2_keyboard_get_key] decodes from the scan codes of a sequence of key
    presses and releases are those that were typed: one for each press of
    another key, from the shifted table exactly while a shift key is held; and
    the decoder ends in the state of the keys still held. *)
Theorem ps2_decodes_typing h es :
  Forall (λ e, key_code (code_of e)) es → no_repeat h es →
  ps2_keys (state_of h) (concat (map scan_codes es)) = (state_of (typed h es).1, (typed h es).2).
Proof.
  revert h. induction es as [|e es IH]; intros h Hes Hrep; [done|].
  apply Forall_cons in Hes as [He Hes]. destruct Hrep as [Hr Hrep]. cbn [map concat].
  rewrite ps2_keys_app, decode_event by done.
  specialize (IH (hold h e) Hes Hrep). cbn [typed]. destruct (typed (hold h e) es) as [h' keys]. cbn [fst snd] in *.
  assert (Hst : match e with Press c | Release c =>
      Ps2 false (if c =? LSHIFT_CODE then negb (left_held h) else left_held h)
                (if c =? RSHIFT_CODE then negb (right_held h) else right_held h) end = state_of (hold h e)).
  { destruct h as [l r]. destruct e as [c|c]; destruct Hr as [Hl Hrr]; unfold state_of, hold; cbn in *;
      destruct (Z.eqb_spec c LSHIFT_CODE), (Z.eqb_spec c RSHIFT_CODE); try done;
      rewrite ?orb_false_r, ?andb_true_r, ?Hl, ?Hrr by done; done. }
  rewrite Hst, IH. f_equal. destruct e as [c|c]; [|done]. by destruct (is_shift c).
Qed.

(** H, i with the left shift key held for the first letter only. *)
Lemma ps2_decodes_typing_witness :
  let h := Held false false in
  let es := [Press 0x12; Press 0x33; Release 0x33; Release 0x12; Press 0x43; Release 0x43] in
  ps2_keys (state_of h) (concat (map scan_codes es)) = (state_of (typed h es).1, (typed h es).2).
Proof.
  apply ps2_decodes_typing; [|by vm_compute; repeat split].
  by repeat constructor.
Defined.

Example typed_example :
  typed (Held false false) [Press 0x12; Press 0x33; Release 0x33; Release 0x12; Press 0x43; Release 0x43] =
  (Held false false, [72; 105]).
Proof. by vm_compute. Qed.

(** a shift key that is held down and repeats its make code is taken for
    released at every second code: after [n] make codes of the left shift key a
    letter is read in the case of an odd [n], although the key is down. *)
Theorem ps2_shift_repeat n c :
  key_code c → is_shift c = false →
  ps2_keys (state_of (Held false false)) (replicate n LSHIFT_CODE ++ [c]) =
  (state_of (Held (Nat.odd n) false), [char_of (Nat.odd n) c]).
Proof.
  intros Hc Hs. rewrite ps2_keys_app.
  assert (H : ∀ b, ps2_keys (Ps2 false b false) (replicate n LSHIFT_CODE) = (Ps2 false (xorb b (Nat.odd n)) false, [])).
  { induction n as [|n IH]; intros b; [by rewrite xorb_false_r|]. cbn [replicate ps2_keys].
    rewrite (decode_shift false b false LSHIFT_CODE) by done. cbn [Z.eqb]. change (LSHIFT_CODE =? RSHIFT_CODE) with false.
    change (LSHIFT_CODE =? LSHIFT_CODE) with true. cbv iota. rewrite IH. rewrite Nat.odd_succ, <- Nat.negb_odd.
    by destruct b, (Nat.odd n). }
  unfold state_of. cbn [left_held right_held]. rewrite H, xorb_false_l. cbn [ps2_keys].
  destruct (decode_other false (Nat.odd n) false c Hc Hs) as [-> Hne].
  rewrite orb_false_r in *. by destruct (Z.eqb_spec (char_of (Nat.odd n) c) BL_PS2_KEYBOARD_NO_KEY).
Qed.

Lemma ps2_shift_repeat_witness :
  ps2_keys (state_of (Held false false)) (replicate 2 LSHIFT_CODE ++ [0x1c]) =
  (state_of (Held (Nat.odd 2) false), [char_of (Nat.odd 2) 0x1c]).
Proof. by apply (ps2_shift_repeat 2 0x1c). Defined.
