(* ===== verification/Usb.v ===== *)
(** * The USB stack: core/bus/usb/usb.c, usb-hub.c, usb-traversal.c,
    include/usb/usb.h

    Devices, hubs and host controllers are objects in memory.  The functions of
    a host controller's driver are a record, which [funcs_at] finds at the
    address that the controller holds; they work on the machine and on the
    hardware.  Keyboards and disks that are found go to the registries of the
    other parts, which are passed along.  The code under [#if 0] is not part of
    the program. *)
From Stdlib Require Import String.
From S2P Require Import Prelude Memory Arith Status Strings Heap Storage Print Ports Keyboard.
#[local] Open Scope Z_scope.

(** ** usb.h *)
Definition BL_USB_SETUP_REQUEST_TYPE_RECIPIENT_DEVICE : Z := 0.
Definition BL_USB_SETUP_REQUEST_TYPE_RECIPIENT_INTERFACE : Z := 1.
Definition BL_USB_SETUP_REQUEST_TYPE_RECIPIENT_OTHER : Z := 3.
Definition BL_USB_SETUP_REQUEST_TYPE_STANDARD : Z := 0.
Definition BL_USB_SETUP_REQUEST_TYPE_CLASS : Z := Z.shiftl 1 5.
Definition BL_USB_SETUP_REQUEST_TYPE_HOST_TO_DEVICE : Z := 0.
Definition BL_USB_SETUP_REQUEST_TYPE_DEVICE_TO_HOST : Z := Z.shiftl 1 7.
Definition BL_USB_REQUEST_TYPE_SET_ADDRESS : Z := 0x05.
Definition BL_USB_REQUEST_TYPE_GET_DESCRIPTOR : Z := 0x06.
Definition BL_USB_REQUEST_TYPE_SET_CONFIGURATION : Z := 0x09.
Definition BL_USB_HUB_REQUEST_TYPE_GET_STATUS : Z := 0x00.
Definition BL_USB_HUB_REQUEST_TYPE_CLEAR_FEATURE : Z := 0x01.
Definition BL_USB_HUB_REQUEST_TYPE_SET_FEATURE : Z := 0x03.
Definition BL_USB_HUB_REQUEST_TYPE_GET_DESCRIPTOR : Z := 0x06.
Definition BL_USB_DESCRIPTOR_TYPE_DEVICE : Z := 0x01.
Definition BL_USB_DESCRIPTOR_TYPE_CONFIG : Z := 0x02.
Definition BL_USB_DESCRIPTOR_TYPE_STRING : Z := 0x03.
Definition BL_USB_DESCRIPTOR_TYPE_INTERFACE : Z := 0x04.
Definition BL_USB_DESCRIPTOR_TYPE_ENDPOINT : Z := 0x05.
Definition BL_USB_DESCRIPTOR_TYPE_HID : Z := 0x21.
Definition BL_USB_DESCRIPTOR_TYPE_HUB : Z := 0x29.
Definition BL_USB_HUB_PORT_STATUS_CONNECT_STATUS : Z := Z.shiftl 1 0.
Definition BL_USB_HUB_PORT_STATUS_LOW_SPEED_DEVICE : Z := Z.shiftl 1 9.
Definition BL_USB_HUB_PORT_STATUS_HIGH_SPEED_DEVICE : Z := Z.shiftl 1 10.
Definition BL_USB_HUB_PORT_CHANGE_CONNECT_STATUS : Z := Z.shiftl 1 0.
Definition BL_USB_HUB_PORT_CHANGE_RESET : Z := Z.shiftl 1 4.
Definition BL_USB_HUB_FEATURE_PORT_RESET : Z := 0x04.
Definition BL_USB_HUB_FEATURE_C_PORT_CONNECTION : Z := 0x10.
Definition BL_USB_HUB_FEATURE_C_PORT_RESET : Z := 0x14.

(** [bl_usb_speed_t], [bl_usb_device_t], [bl_usb_host_controller_t]. *)
Definition BL_USB_LOW_SPEED : Z := 0.
Definition BL_USB_FULL_SPEED : Z := 1.
Definition BL_USB_HIGH_SPEED : Z := 2.
Definition BL_USB_HUB_DEVICE : Z := 1.
Definition BL_USB_STORAGE_DEVICE : Z := 2.
Definition BL_USB_KEYBOARD_DEVICE : Z := 3.
Definition BL_USB_HC_UHCI : Z := 0.
Definition BL_USB_HC_OHCI : Z := 1.
Definition BL_USB_HC_EHCI : Z := 2.
Definition BL_USB_HC_XHCI : Z := 3.

(** [bl_usb_pid_t] and the small functions of the header. *)
Definition BL_USB_PID_TOKEN_OUT : Z := 0x1.
Definition BL_USB_PID_TOKEN_IN : Z := 0x9.
Definition bl_usb_pid_format_check (pid : Z) : Z :=
  u8 (Z.lor (Z.land pid 0xf) (Z.shiftl (Z.lnot pid) 4)).
Definition bl_usb_status_pid (data_pid : Z) : Z :=
  if data_pid =? BL_USB_PID_TOKEN_OUT then BL_USB_PID_TOKEN_IN else BL_USB_PID_TOKEN_OUT.

(** [struct bl_usb_setup_data]. *)
Definition sizeof_setup_data : Z := 8.
Definition sd_request_type : Z := 0.
Definition sd_request : Z := 1.
Definition sd_value : Z := 2.
Definition sd_index : Z := 4.
Definition sd_length : Z := 6.

Definition bl_usb_direction_pid (setup : Z) : M Z :=
  t ← rd8 (setup + sd_request_type);
  mret (if truth (Z.land t BL_USB_SETUP_REQUEST_TYPE_DEVICE_TO_HOST)
        then BL_USB_PID_TOKEN_IN else BL_USB_PID_TOKEN_OUT).

(** Every descriptor starts with its length and type. *)
Definition ds_length : Z := 0.
Definition ds_type : Z := 1.

(** [struct bl_usb_device_descriptor] and [bl_usb_configuration_descriptor]. *)
Definition sizeof_device_descriptor : Z := 18.
Definition dd_device_class : Z := 4.
Definition dd_max_packet_size : Z := 7.
Definition dd_vendor_id : Z := 8.
Definition dd_product_id : Z := 10.
Definition dd_manufacturer_str : Z := 14.
Definition dd_product_str : Z := 15.
Definition dd_serial_number_str : Z := 16.
Definition dd_configurations_count : Z := 17.
Definition sizeof_configuration_descriptor : Z := 9.
Definition cd_total_length : Z := 2.
Definition cd_interfaces_count : Z := 4.

(** [struct bl_usb_interface_descriptor], [bl_usb_endpoint_descriptor]. *)
Definition sizeof_interface_descriptor : Z := 9.
Definition id_interface_number : Z := 2.
Definition id_num_endpoints : Z := 4.
Definition id_interface_class : Z := 5.
Definition id_interface_subclass : Z := 6.
Definition id_interface_protocol : Z := 7.
Definition sizeof_endpoint_descriptor : Z := 7.
Definition ed_endpoint_address : Z := 2.
Definition ed_attributes : Z := 3.
Definition ed_max_packet_size : Z := 4.
Definition ed_interval : Z := 6.

(** [struct bl_usb_string_descriptor], [bl_usb_hub_descriptor],
    [bl_usb_hub_port_status], [bl_usb_hid_descriptor]. *)
Definition sr_code : Z := 2.
Definition sizeof_hub_descriptor : Z := 7.
Definition hd_ports : Z := 2.
Definition sizeof_hub_port_status : Z := 4.
Definition hs_port_status : Z := 0.
Definition hs_port_change : Z := 2.
Definition sizeof_hid_descriptor : Z := 9.
Definition hi_country_code : Z := 4.

(** [struct bl_usb_endpoint] and [bl_usb_interface]. *)
Definition ep_toggle : Z := 0.
Definition ep_descriptor : Z := 4.
Definition sizeof_interface : Z := 16.
Definition if_endpoints : Z := 12.

(** [struct bl_usb_device]. *)
Definition sizeof_usb_device : Z := 88.
Definition ud_address : Z := 0.
Definition ud_speed : Z := 4.
Definition ud_port : Z := 8.
Definition ud_parent_hub : Z := 12.
Definition ud_dev_desc : Z := 16.
Definition ud_config : Z := 34.
Definition ud_interfaces : Z := 44.
Definition ud_controller : Z := 48.
Definition ud_type : Z := 52.
Definition ud_specific : Z := 56.
Definition sizeof_specific : Z := 32.
Definition ud_hub : Z := 56.
Definition ud_storage_type : Z := 56.
Definition ud_storage_luns : Z := 60.
Definition ud_storage_interface : Z := 64.
Definition ud_in_endp : Z := 68.
Definition ud_out_endp : Z := 76.
Definition ud_keyboard_interface : Z := 56.
Definition ud_keyboard_hid : Z := 60.
Definition ud_keyboard_endp : Z := 72.
Definition ud_keyboard_device : Z := 84.

(** [struct bl_usb_hub], [bl_usb_host_controller], [bl_usb_traversal]. *)
Definition sizeof_hub : Z := 24.
Definition hub_ports : Z := 0.
Definition hub_devices : Z := 4.
Definition hub_port_chain : Z := 8.
Definition hub_device : Z := 16.
Definition hub_next : Z := 20.
Definition sizeof_port_chain : Z := 5.
Definition hc_type : Z := 0.
Definition hc_bus : Z := 4.
Definition hc_devices_count : Z := 8.
Definition hc_funcs : Z := 12.
Definition hc_root_hub : Z := 16.
Definition hc_next : Z := 44.
Definition sizeof_traversal : Z := 516.
Definition tr_head : Z := 0.
Definition tr_tail : Z := 4.
Definition tr_hubs : Z := 8.

(** ** usb-traversal.c: the queue of hubs *)
Definition bl_usb_traversal_is_empty (traversal : Z) : M bool :=
  head ← rd32 (traversal + tr_head);
  tail ← rd32 (traversal + tr_tail);
  mret (head =? tail).

Definition bl_usb_traversal_push (traversal hub : Z) : M () :=
  tail ← rd32 (traversal + tr_tail);
  if s32 tail <? 127 - 1 then
    wr32 (traversal + tr_tail) (tail + 1);;
    wr32 (u32 (traversal + tr_hubs + 4 * s32 tail)) hub
  else mret ().

Definition bl_usb_traversal_pop (traversal : Z) : M Z :=
  head ← rd32 (traversal + tr_head);
  tail ← rd32 (traversal + tr_tail);
  if s32 head <? s32 tail then
    wr32 (traversal + tr_head) (head + 1);;
    rd32 (u32 (traversal + tr_hubs + 4 * s32 head))
  else mret NULL.

Definition bl_usb_traversal_init : M Z :=
  traversal ← bl_heap_alloc sizeof_traversal;
  if is_null traversal then mret NULL
  else
    wr32 (traversal + tr_tail) 0;;
    wr32 (traversal + tr_head) 0;;
    mwhile (λ i,
      if i <? 127 then wr32 (traversal + tr_hubs + 4 * i) NULL;; continue (i + 1)
      else break ()) 0;;
    mret traversal.

Definition bl_usb_traversal_uninit (traversal : Z) : M () := bl_heap_free traversal sizeof_traversal.

(** ** Host controllers *)
Record bl_usb_host_controller_functions (Dev : Type) := HcFunctions {
  port_device_connected : Z → Z → D Dev Z;                 (* hc, port *)
  port_device_get_speed : Z → Z → D Dev Z;
  port_reset : Z → Z → D Dev ();
  port_init : Z → Z → Z → D Dev Z;                         (* hc, port, address: XHCI *)
  control_transfer : Z → Z → Z → Z → Z → Z → Z → D Dev bl_status_t;
    (* hc, max packet size, address, speed, setup, data, length *)
  bulk_transfer : Z → Z → Z → Z → Z → Z → Z → D Dev ();
    (* hc, address, endpoint, speed, direction, data, length *)
  interrupt_transfer : option (Z → Z → Z → Z → Z → Z → Z → D Dev Z);
  check_transfer_status : option (Z → D Dev bl_status_t);
}.
Arguments port_device_connected {Dev}. Arguments port_device_get_speed {Dev}.
Arguments port_reset {Dev}. Arguments port_init {Dev}. Arguments control_transfer {Dev}.
Arguments bulk_transfer {Dev}. Arguments interrupt_transfer {Dev}.
Arguments check_transfer_status {Dev}.

(** The addresses of the locals that the code points to and of the statics. *)
Record usb_frame := UsbFrame {
  loc_setup : Z; loc_config : Z; loc_string : Z; loc_hub_descriptor : Z;
  loc_poll_info : Z; loc_reset_info : Z; loc_speed_info : Z;
  bl_usb_buses : Z; bl_usb_host_controllers : Z; bl_root_hubs : Z;
}.

(** What the stack registers elsewhere. *)
Record registry := Registry { reg_kbds : list bl_keyboard; reg_disks : list bl_storage_device }.

Definition bl_usb_setup_data_fill (setup request_type request value index length : Z) : M () :=
  wr8 (setup + sd_request_type) request_type;;
  wr8 (setup + sd_request) request;;
  wr16 (setup + sd_value) value;;
  wr16 (setup + sd_index) index;;
  wr16 (setup + sd_length) length.

Section Usb.
Context {Dev : Type} (funcs_at : Z → option (bl_usb_host_controller_functions Dev)).
Context (bl_time_sleep : Z → D Dev Z) (f : usb_frame).
(** The disk controller that a pointer points to. *)
Context (disk_controller_at : Z → option bl_disk_controller_functions).

(** [hc->funcs], and [device->controller] with its functions. *)
Definition hc_functions (hc : Z) : D Dev (bl_usb_host_controller_functions Dev) :=
  p ← on_machine (rd32 (hc + hc_funcs));
  match funcs_at p with Some funcs => mret funcs | None => diverge end.

Definition bl_usb_control_transfer (device data request_type request value index length : Z) : D Dev () :=
  on_machine (bl_usb_setup_data_fill (loc_setup f) request_type request value index length);;
  controller ← on_machine (rd32 (device + ud_controller));
  funcs ← hc_functions controller;
  max_packet_size ← on_machine (rd8 (device + ud_dev_desc + dd_max_packet_size));
  address ← on_machine (rd32 (device + ud_address));
  speed ← on_machine (rd32 (device + ud_speed));
  control_transfer funcs controller max_packet_size address speed (loc_setup f) data length;;
  mret ().

Definition bl_usb_get_descriptor (device flags type index language data length : Z) : D Dev () :=
  bl_usb_control_transfer device data
    (Z.lor BL_USB_SETUP_REQUEST_TYPE_DEVICE_TO_HOST flags) BL_USB_REQUEST_TYPE_GET_DESCRIPTOR
    (Z.lor (Z.shiftl type 8) (Z.land index 0xff)) language length.

Definition bl_usb_bulk_transfer (device direction data length : Z) : D Dev () :=
  let endp := if truth direction then device + ud_out_endp else device + ud_in_endp in
  controller ← on_machine (rd32 (device + ud_controller));
  funcs ← hc_functions controller;
  address ← on_machine (rd32 (device + ud_address));
  speed ← on_machine (rd32 (device + ud_speed));
  bulk_transfer funcs controller address endp speed direction data length.

Definition bl_usb_interrupt_transfer (device endp data length : Z) : D Dev Z :=
  controller ← on_machine (rd32 (device + ud_controller));
  funcs ← hc_functions controller;
  address ← on_machine (rd32 (device + ud_address));
  speed ← on_machine (rd32 (device + ud_speed));
  descriptor ← on_machine (rd32 (endp + ep_descriptor));
  endpoint_address ← on_machine (rd8 (descriptor + ed_endpoint_address));
  match interrupt_transfer funcs with
  | Some transfer =>
      transfer controller address endp speed (if truth (Z.land endpoint_address 0x80) then 0 else 1)
        data length
  | None => diverge
  end.

Definition bl_usb_check_transfer_status (device info : Z) : D Dev bl_status_t :=
  controller ← on_machine (rd32 (device + ud_controller));
  funcs ← hc_functions controller;
  match check_transfer_status funcs with Some check => check info | None => diverge end.

(** ** Identification

    The walk through a configuration's descriptors: the next interface
    descriptor from [off] on, and the copies of its endpoints; both give the
    offset that is reached. *)
Definition find_interface (config_data off : Z) : M Z :=
  mwhile (λ off,
    type ← rd8 (config_data + off + ds_type);
    if negb (type =? BL_USB_DESCRIPTOR_TYPE_INTERFACE) then
      length ← rd8 (config_data + off + ds_length); continue (off + length)
    else break off) off.

Definition copy_endpoints (config_data interface slot off : Z) : M Z :=
  mwhile (λ '(j, off),
    num_endpoints ← rd8 (interface + id_num_endpoints);
    if j <? num_endpoints then
      let endpoint := u32 (config_data + off) in
      type ← rd8 (endpoint + ds_type);
      j ← (if type =? BL_USB_DESCRIPTOR_TYPE_ENDPOINT then
             endpoints ← rd32 slot;
             bl_memcpy (u32 (endpoints + j * sizeof_endpoint_descriptor)) endpoint sizeof_endpoint_descriptor;;
             mret (j + 1)
           else mret j);
      length ← rd8 (endpoint + ds_length);
      continue (j, off + length)
    else break off) (0, off).

(** The interfaces of the configuration; false when there is no memory. *)
Definition copy_interfaces (device config_data : Z) : M bool :=
  off ← rd8 (loc_config f + ds_length);
  mwhile (λ '(i, off),
    interfaces_count ← rd8 (loc_config f + cd_interfaces_count);
    if i <? interfaces_count then
      off ← find_interface config_data off;
      let interface := u32 (config_data + off) in
      interfaces ← rd32 (device + ud_interfaces);
      let target := u32 (interfaces + i * sizeof_interface) in
      bl_memcpy target interface sizeof_interface_descriptor;;
      num_endpoints ← rd8 (interface + id_num_endpoints);
      endpoints ← bl_heap_alloc (num_endpoints * sizeof_endpoint_descriptor);
      wr32 (target + if_endpoints) endpoints;;
      if is_null endpoints then break false
      else
        length ← rd8 (interface + ds_length);
        off ← copy_endpoints config_data interface (target + if_endpoints) (off + length);
        continue (i + 1, off)
    else break true) (0, off).

Definition bl_usb_identify_device (device : Z) : D Dev () :=
  on_machine (wr8 (device + ud_dev_desc + dd_max_packet_size) 0);;
  bl_usb_get_descriptor device 0 BL_USB_DESCRIPTOR_TYPE_DEVICE 0 0 (device + ud_dev_desc) 8;;
  bl_usb_get_descriptor device 0 BL_USB_DESCRIPTOR_TYPE_DEVICE 0 0 (device + ud_dev_desc)
    sizeof_device_descriptor;;
  configurations_count ← on_machine (rd8 (device + ud_dev_desc + dd_configurations_count));
  if negb (configurations_count =? 1) then mret ()
  else
    bl_usb_get_descriptor device 0 BL_USB_DESCRIPTOR_TYPE_CONFIG 0 0 (loc_config f)
      sizeof_configuration_descriptor;;
    on_machine (bl_memcpy (device + ud_config) (loc_config f) sizeof_configuration_descriptor);;
    total_length ← on_machine (rd16 (loc_config f + cd_total_length));
    config_data ← on_machine (bl_heap_alloc total_length);
    if is_null config_data then mret ()
    else
      total_length ← on_machine (rd16 (loc_config f + cd_total_length));
      bl_usb_get_descriptor device 0 BL_USB_DESCRIPTOR_TYPE_CONFIG 0 0 config_data total_length;;
      interfaces_count ← on_machine (rd8 (loc_config f + cd_interfaces_count));
      (* room for descriptors, not for struct bl_usb_interface *)
      interfaces ← on_machine (bl_heap_alloc (interfaces_count * sizeof_interface_descriptor));
      on_machine (wr32 (device + ud_interfaces) interfaces);;
      if is_null interfaces then mret ()
      else
        ok ← on_machine (copy_interfaces device config_data);
        if negb ok then mret ()
        else
          total_length ← on_machine (rd16 (loc_config f + cd_total_length));
          on_machine (bl_heap_free config_data total_length).

(** ** Printing *)
Definition bl_usb_dump_index_string (device index : Z) : D Dev () :=
  if index =? 0 then mret ()
  else
    bl_usb_get_descriptor device 0 BL_USB_DESCRIPTOR_TYPE_STRING index 0x0409 (loc_string f) 2;;
    length ← on_machine (rd8 (loc_string f + ds_length));
    desc_ptr ← on_machine (bl_heap_alloc length);
    if is_null desc_ptr then mret ()
    else
      length ← on_machine (rd8 (loc_string f + ds_length));
      bl_usb_get_descriptor device 0 BL_USB_DESCRIPTOR_TYPE_STRING index 0x0409 desc_ptr length;;
      on_machine (
        mwhile (λ i,
          length ← rd8 (loc_string f + ds_length);
          if i <? Z.quot (length - 2) 2 then
            c ← rd16 (desc_ptr + sr_code + 2 * i);
            when (truth (Z.land c 0xff)) (emit (Z.land c 0xff));;
            continue (i + 1)
          else break ()) 0;;
        emit 10;;
        length ← rd8 (loc_string f + ds_length);
        bl_heap_free desc_ptr length).

Definition dump_endpoint (endpoint : Z) : M () :=
  print_literal "Endpoint Address: ";;
  a ← rd8 (endpoint + ed_endpoint_address); bl_print_hex a;; emit 10;;
  print_literal "Attributes: ";;
  t ← rd8 (endpoint + ed_attributes); bl_print_hex t;; emit 10;;
  print_literal "Max Packet size: ";;
  n ← rd16 (endpoint + ed_max_packet_size); bl_print_hex n;; emit 10.

Definition dump_endpoints (device : Z) : M () :=
  mwhile (λ i,
    interfaces_count ← rd8 (device + ud_config + cd_interfaces_count);
    if i <? interfaces_count then
      mwhile (λ j,
        interfaces ← rd32 (device + ud_interfaces);
        let interface := u32 (interfaces + i * sizeof_interface) in
        num_endpoints ← rd8 (interface + id_num_endpoints);
        if j <? num_endpoints then
          endpoints ← rd32 (interface + if_endpoints);
          dump_endpoint (u32 (endpoints + j * sizeof_endpoint_descriptor));;
          continue (j + 1)
        else break ()) 0;;
      continue (i + 1)
    else break ()) 0.

Definition bl_usb_dump_device_info (device : Z) : D Dev () :=
  manufacturer_str ← on_machine (rd8 (device + ud_dev_desc + dd_manufacturer_str));
  bl_usb_dump_index_string device manufacturer_str;;
  product_str ← on_machine (rd8 (device + ud_dev_desc + dd_product_str));
  bl_usb_dump_index_string device product_str;;
  serial_number_str ← on_machine (rd8 (device + ud_dev_desc + dd_serial_number_str));
  bl_usb_dump_index_string device serial_number_str;;
  on_machine (dump_endpoints device).

(** The ports on the way to a hub, up to a 0. *)
Definition dump_chain (hub : Z) : M () :=
  mwhile (λ i,
    c ← rds8 (hub + hub_port_chain + i);
    if truth c then bl_print_hex (u32 c);; print_literal ".";; continue (i + 1)
    else break ()) 0.

Definition bl_usb_dump_device_id (device : Z) : M () :=
  type ← rd32 (device + ud_type);
  (if type =? BL_USB_HUB_DEVICE then print_literal "Hub - "
   else if type =? BL_USB_STORAGE_DEVICE then print_literal "Storage - "
   else if type =? BL_USB_KEYBOARD_DEVICE then print_literal "Keyboard - "
   else mret ());;
  print_literal "Address:";;
  address ← rd32 (device + ud_address);
  bl_print_hex address;;
  print_literal ". ";;
  print_literal "Port:";;
  (if type =? BL_USB_HUB_DEVICE then hub ← rd32 (device + ud_hub); dump_chain hub
   else
     parent ← rd32 (device + ud_parent_hub);
     dump_chain parent;;
     port ← rd32 (device + ud_port);
     bl_print_hex port;;
     print_literal ".");;
  print_literal " ";;
  print_literal "Vendor:";;
  vendor ← rd16 (device + ud_dev_desc + dd_vendor_id);
  bl_print_hex vendor;;
  print_literal ". ";;
  print_literal "Product:";;
  product ← rd16 (device + ud_dev_desc + dd_product_id);
  bl_print_hex product;;
  print_literal ".";; emit 10.

(** [hub->devices[i]]. *)
Definition hub_slot (hub i : Z) : M Z :=
  devices ← rd32 (hub + hub_devices); mret (u32 (devices + 4 * i)).

Definition bl_usb_dump_host_controller_devices (hc : Z) : M () :=
  traversal ← bl_usb_traversal_init;
  bl_usb_traversal_push traversal (hc + hc_root_hub);;
  mwhile (λ _,
    empty ← bl_usb_traversal_is_empty traversal;
    if empty : bool then break ()
    else
      hub ← bl_usb_traversal_pop traversal;
      mwhile (λ i,
        ports ← rd32 (hub + hub_ports);
        if i <? s32 ports then
          slot ← hub_slot hub i;
          device ← rd32 slot;
          (if is_null device then mret ()
           else
             bl_usb_dump_device_id device;;
             type ← rd32 (device + ud_type);
             if type =? BL_USB_HUB_DEVICE then
               h ← rd32 (device + ud_hub); bl_usb_traversal_push traversal h
             else mret ());;
          continue (i + 1)
        else break ()) 0;;
      continue ()) ();;
  bl_usb_traversal_uninit traversal.

Definition bl_usb_dump : M () :=
  hc ← rd32 (bl_usb_host_controllers f);
  mwhile (λ hc,
    if is_null hc then break ()
    else
      print_literal "Bus : ";;
      bus ← rd32 (hc + hc_bus);
      bl_print_hex bus;;
      type ← rd32 (hc + hc_type);
      (if type =? BL_USB_HC_UHCI then print_literal " - UHCI (1.5 Mb/s|12 Mb/s) :";; emit 10
       else if type =? BL_USB_HC_OHCI then print_literal " - OHCI (1.5 Mb/s|12 Mb/s) :";; emit 10
       else if type =? BL_USB_HC_EHCI then print_literal " - EHCI (480 Mb/s) :";; emit 10
       else if type =? BL_USB_HC_XHCI then print_literal " - XHCI (5000 Mb/s) :";; emit 10
       else mret ());;
      bl_usb_dump_host_controller_devices hc;;
      next ← rd32 (hc + hc_next);
      continue next) hc.

(** ** Hub requests: usb-hub.c *)
Definition bl_usb_hub_get_hub_descriptor (device descriptor : Z) : D Dev () :=
  bl_usb_control_transfer device descriptor
    (Z.lor (Z.lor BL_USB_SETUP_REQUEST_TYPE_RECIPIENT_DEVICE BL_USB_SETUP_REQUEST_TYPE_CLASS)
       BL_USB_SETUP_REQUEST_TYPE_DEVICE_TO_HOST)
    BL_USB_HUB_REQUEST_TYPE_GET_DESCRIPTOR (Z.shiftl BL_USB_DESCRIPTOR_TYPE_HUB 8) 0
    sizeof_hub_descriptor.

Definition bl_usb_hub_get_port_status (device port info : Z) : D Dev () :=
  bl_usb_control_transfer device info
    (Z.lor (Z.lor BL_USB_SETUP_REQUEST_TYPE_RECIPIENT_OTHER BL_USB_SETUP_REQUEST_TYPE_CLASS)
       BL_USB_SETUP_REQUEST_TYPE_DEVICE_TO_HOST)
    BL_USB_HUB_REQUEST_TYPE_GET_STATUS 0 port sizeof_hub_port_status.

Definition hub_port_feature (request device port feature : Z) : D Dev () :=
  bl_usb_control_transfer device NULL
    (Z.lor (Z.lor BL_USB_SETUP_REQUEST_TYPE_RECIPIENT_OTHER BL_USB_SETUP_REQUEST_TYPE_CLASS)
       BL_USB_SETUP_REQUEST_TYPE_HOST_TO_DEVICE)
    request feature port 0.

Definition bl_usb_hub_clear_port_feature : Z → Z → Z → D Dev () :=
  hub_port_feature BL_USB_HUB_REQUEST_TYPE_CLEAR_FEATURE.
Definition bl_usb_hub_set_port_feature : Z → Z → Z → D Dev () :=
  hub_port_feature BL_USB_HUB_REQUEST_TYPE_SET_FEATURE.

Definition bl_usb_hub_reset_port (device port : Z) : D Dev () :=
  bl_usb_hub_set_port_feature device port BL_USB_HUB_FEATURE_PORT_RESET;;
  i ← mwhile (λ i,
        if i <? 10 then
          bl_usb_hub_get_port_status device port (loc_reset_info f);;
          change ← on_machine (rd16 (loc_reset_info f + hs_port_change));
          if truth (Z.land change BL_USB_HUB_PORT_CHANGE_RESET) then break i
          else bl_time_sleep 10;; continue (i + 1)
        else break i) 0;
  if i =? 10 then mret ()
  else bl_usb_hub_clear_port_feature device port BL_USB_HUB_FEATURE_C_PORT_RESET.

Definition bl_usb_hub_get_port_device_speed (device port : Z) : D Dev Z :=
  bl_usb_hub_get_port_status device port (loc_speed_info f);;
  status ← on_machine (rd16 (loc_speed_info f + hs_port_status));
  mret (if truth (Z.land status BL_USB_HUB_PORT_STATUS_LOW_SPEED_DEVICE) then BL_USB_LOW_SPEED
        else if truth (Z.land status BL_USB_HUB_PORT_STATUS_HIGH_SPEED_DEVICE) then BL_USB_HIGH_SPEED
        else BL_USB_FULL_SPEED).

Definition bl_usb_hub_link_device (hub device port : Z) : M () :=
  wr32 (device + ud_port) port;;
  wr32 (device + ud_parent_hub) hub;;
  slot ← hub_slot hub (port - 1);
  wr32 slot device.

(** ** What a device is: usb.c *)

(** The first loop does not advance at an interface that is not the keyboard's. *)
Definition bl_usb_get_hid_info (device : Z) : D Dev bl_status_t :=
  interfaces ← on_machine (rd32 (device + ud_interfaces));
  number ← on_machine (rd32 (device + ud_keyboard_interface));
  let interface := u32 (interfaces + s32 number * sizeof_interface) in
  total_length ← on_machine (rd16 (device + ud_config + cd_total_length));
  config_data ← on_machine (bl_heap_alloc total_length);
  if is_null config_data then mret BL_STATUS_MEMORY_ALLOCATION_FAILED
  else
    total_length ← on_machine (rd16 (device + ud_config + cd_total_length));
    bl_usb_get_descriptor device 0 BL_USB_DESCRIPTOR_TYPE_CONFIG 0 0 config_data total_length;;
    on_machine (
      off ← rd8 (device + ud_config + ds_length);
      off ← mwhile (λ off,
              type ← rd8 (config_data + off + ds_type);
              if type =? BL_USB_DESCRIPTOR_TYPE_INTERFACE then
                n ← rd8 (config_data + off + id_interface_number);
                wanted ← rd8 (interface + id_interface_number);
                if n =? wanted then break off else continue off
              else length ← rd8 (config_data + off + ds_length); continue (off + length)) off;
      length ← rd8 (config_data + off + ds_length);
      off ← mwhile (λ off,
              type ← rd8 (config_data + off + ds_type);
              if type =? BL_USB_DESCRIPTOR_TYPE_HID then break off
              else length ← rd8 (config_data + off + ds_length); continue (off + length)) (off + length);
      bl_memcpy (device + ud_keyboard_hid) (u32 (config_data + off)) sizeof_hid_descriptor;;
      total_length ← rd16 (device + ud_config + cd_total_length);
      bl_heap_free config_data total_length);;
    mret BL_STATUS_SUCCESS.

(** The entries of [devices] are not set. *)
Definition bl_usb_check_hub (device : Z) : D Dev () :=
  hub ← on_machine (bl_heap_alloc sizeof_hub);
  if is_null hub then mret ()
  else
    bl_usb_hub_get_hub_descriptor device (loc_hub_descriptor f);;
    on_machine (
      ports ← rd8 (loc_hub_descriptor f + hd_ports);
      wr32 (hub + hub_ports) ports;;
      wr32 (hub + hub_device) device;;
      devices ← bl_heap_alloc (ports * sizeof_hub);
      wr32 (hub + hub_devices) devices;;
      if is_null devices then bl_heap_free hub sizeof_hub
      else
        wr32 (device + ud_type) BL_USB_HUB_DEVICE;;
        wr32 (device + ud_hub) hub;;
        parent ← rd32 (device + ud_parent_hub);
        bl_memcpy (hub + hub_port_chain) (u32 (parent + hub_port_chain)) sizeof_port_chain;;
        i ← mwhile (λ i,
              c ← rds8 (hub + hub_port_chain + i);
              if truth c then continue (i + 1) else break i) 0;
        port ← rd32 (device + ud_port);
        wr8 (hub + hub_port_chain + i) port).

Definition bl_usb_claim_keyboard (device : Z) (reg : registry) : M (bl_status_t * registry) :=
  kbd ← bl_heap_alloc sizeof_keyboard;
  if is_null kbd then mret (BL_STATUS_MEMORY_ALLOCATION_FAILED, reg)
  else
    wr32 (kbd + 0) 1;;
    wr32 (kbd + 4) device;;
    wr32 (kbd + 12) NULL;;
    wr32 (device + ud_keyboard_device) kbd;;
    mret (BL_STATUS_SUCCESS,
          Registry (bl_keyboard_register (Keyboard BL_KEYBOARD_USB device) (reg_kbds reg)) (reg_disks reg)).

(** Offset of [interfaces[i].descriptor]. *)
Definition interface_at (device i : Z) : M Z :=
  interfaces ← rd32 (device + ud_interfaces); mret (u32 (interfaces + i * sizeof_interface)).

(** The first interface for which [test] holds. *)
Definition first_interface (device : Z) (test : Z → M bool) : M (option Z) :=
  mwhile (λ i,
    interfaces_count ← rd8 (device + ud_config + cd_interfaces_count);
    if i <? interfaces_count then
      interface ← interface_at device i;
      ok ← test interface;
      if ok : bool then break (Some interface) else continue (i + 1)
    else break None) 0.

Definition bl_usb_check_keyboard (device : Z) (reg : registry) : D Dev (bl_status_t * registry) :=
  o ← on_machine (first_interface device (λ interface,
        class ← rd8 (interface + id_interface_class);
        protocol ← rd8 (interface + id_interface_protocol);
        mret ((class =? 0x3) && (protocol =? 0x1))));
  match o with
  | None => mret (BL_STATUS_USB_INVALID_DEVICE, reg)
  | Some interface =>
      on_machine (
        wr32 (device + ud_type) BL_USB_KEYBOARD_DEVICE;;
        number ← rd8 (interface + id_interface_number);
        wr32 (device + ud_keyboard_interface) number);;
      status ← bl_usb_get_hid_info device;
      if failed status then mret (status, reg) else on_machine (bl_usb_claim_keyboard device reg)
  end.

(** The fields that the function does not set are what the block held. *)
Definition bl_usb_claim_storage_device (device : Z) (reg : registry) : M (bl_status_t * registry) :=
  disk ← bl_heap_alloc sizeof_storage_device;
  if is_null disk then mret (BL_STATUS_MEMORY_ALLOCATION_FAILED, reg)
  else
    wr32 (disk + storage_type) 1;;
    wr32 (disk + storage_data) device;;
    wr32 (disk + storage_next) NULL;;
    sector_size ← rd32 (disk + storage_sector_size);
    sector_count ← rd64 (disk + storage_sector_count);
    partitions ← rd32 (disk + storage_partitions);
    controller ← rd32 (disk + storage_controller);
    mret (BL_STATUS_SUCCESS,
          Registry (reg_kbds reg)
            (bl_storage_device_register
               (Disk BL_STORAGE_TYPE_USB_DRIVE (DiskInfo sector_size sector_count) partitions
                  (disk_controller_at controller) device) (reg_disks reg))).

Definition bl_usb_check_storage_device (device : Z) (reg : registry) : M (bl_status_t * registry) :=
  o ← first_interface device (λ interface,
        class ← rd8 (interface + id_interface_class); mret (class =? 0x8));
  match o with
  | None => mret (BL_STATUS_USB_INVALID_DEVICE, reg)
  | Some interface =>
      wr32 (device + ud_type) BL_USB_STORAGE_DEVICE;;
      number ← rd8 (interface + id_interface_number);
      wr32 (device + ud_storage_interface) number;;
      bl_usb_claim_storage_device device reg
  end.

Definition bl_usb_device_register_specific_info (device : Z) (reg : registry) : D Dev registry :=
  class ← on_machine (rd8 (device + ud_dev_desc + dd_device_class));
  if class =? 0x00 then
    '(status, reg) ← bl_usb_check_keyboard device reg;
    if failed status then '(_, reg) ← on_machine (bl_usb_check_storage_device device reg); mret reg
    else mret reg
  else if class =? 0x09 then bl_usb_check_hub device;; mret reg
  else mret reg.

(** [bl_usb_identify_device] runs before the address is set, except for XHCI. *)
Definition bl_usb_device_register (hc speed : Z) : D Dev Z :=
  device ← on_machine (bl_heap_alloc sizeof_usb_device);
  if is_null device then mret NULL
  else
    on_machine (bl_memset (device + ud_specific) 0 sizeof_specific);;
    on_machine (wr32 (device + ud_speed) speed);;
    on_machine (wr32 (device + ud_controller) hc);;
    type ← on_machine (rd32 (hc + hc_type));
    (if type =? BL_USB_HC_XHCI then
       on_machine (count ← rd32 (hc + hc_devices_count); wr32 (device + ud_address) count)
     else mret ());;
    bl_usb_identify_device device;;
    controller ← on_machine (rd32 (device + ud_controller));
    type ← on_machine (rd32 (controller + hc_type));
    (if negb (type =? BL_USB_HC_XHCI) then
       on_machine (wr32 (device + ud_address) 0);;
       count ← on_machine (rd32 (controller + hc_devices_count));
       on_machine (wr32 (controller + hc_devices_count) (count + 1));;
       bl_usb_control_transfer device NULL BL_USB_SETUP_REQUEST_TYPE_HOST_TO_DEVICE
         BL_USB_REQUEST_TYPE_SET_ADDRESS (s32 (count + 1)) 0 0;;
       bl_time_sleep 2;;
       on_machine (
         controller ← rd32 (device + ud_controller);
         count ← rd32 (controller + hc_devices_count);
         wr32 (device + ud_address) count)
     else mret ());;
    bl_usb_control_transfer device NULL
      (Z.lor (Z.lor BL_USB_SETUP_REQUEST_TYPE_HOST_TO_DEVICE BL_USB_SETUP_REQUEST_TYPE_STANDARD)
         BL_USB_SETUP_REQUEST_TYPE_RECIPIENT_DEVICE)
      BL_USB_REQUEST_TYPE_SET_CONFIGURATION 1 0 0;;
    bl_usb_dump_device_info device;;
    mret device.

(** ** Hubs: usb-hub.c *)

(** A port of a hub whose connection changed. *)
Definition hub_poll_port (traversal hub i : Z) (reg : registry) : D Dev registry :=
  device ← on_machine (rd32 (hub + hub_device));
  bl_usb_hub_get_port_status device i (loc_poll_info f);;
  change ← on_machine (rd16 (loc_poll_info f + hs_port_change));
  if Z.land change BL_USB_HUB_PORT_CHANGE_CONNECT_STATUS =? 0 then mret reg
  else
    device ← on_machine (rd32 (hub + hub_device));
    bl_usb_hub_clear_port_feature device i BL_USB_HUB_FEATURE_C_PORT_CONNECTION;;
    status ← on_machine (rd16 (loc_poll_info f + hs_port_status));
    if Z.land status BL_USB_HUB_PORT_STATUS_CONNECT_STATUS =? 0 then mret reg
    else
      device ← on_machine (rd32 (hub + hub_device));
      bl_usb_hub_reset_port device i;;
      device ← on_machine (rd32 (hub + hub_device));
      speed ← bl_usb_hub_get_port_device_speed device i;
      device ← on_machine (rd32 (hub + hub_device));
      controller ← on_machine (rd32 (device + ud_controller));
      port_device ← bl_usb_device_register controller speed;
      if is_null port_device then mret reg
      else
        on_machine (bl_usb_hub_link_device hub port_device i);;
        reg ← bl_usb_device_register_specific_info port_device reg;
        on_machine (
          type ← rd32 (port_device + ud_type);
          if type =? BL_USB_HUB_DEVICE then
            h ← rd32 (port_device + ud_hub); bl_usb_traversal_push traversal h
          else mret ());;
        mret reg.

Definition bl_usb_hub_poll (hub : Z) (reg : registry) : D Dev registry :=
  traversal ← on_machine bl_usb_traversal_init;
  on_machine (bl_usb_traversal_push traversal hub);;
  reg ← mwhile (λ reg,
    empty ← on_machine (bl_usb_traversal_is_empty traversal);
    if empty : bool then break reg
    else
      hub ← on_machine (bl_usb_traversal_pop traversal);
      reg ← mwhile (λ '(i, reg),
              ports ← on_machine (rd32 (hub + hub_ports));
              if i <=? s32 ports then
                reg ← hub_poll_port traversal hub i reg; continue (i + 1, reg)
              else break reg) (1, reg);
      continue reg) reg;
  on_machine (bl_usb_traversal_uninit traversal);;
  mret reg.

(** A port of the root hub. *)
Definition root_port (hc i : Z) (reg : registry) : D Dev registry :=
  let no_device : D Dev registry :=
    on_machine (slot ← hub_slot (hc + hc_root_hub) i; wr32 slot NULL);; mret reg in
  funcs ← hc_functions hc;
  connected ← port_device_connected funcs hc i;
  if connected =? 0 then no_device
  else
    type ← on_machine (rd32 (hc + hc_type));
    speed ←
      (if type =? BL_USB_HC_XHCI then
         count ← on_machine (rd32 (hc + hc_devices_count));
         on_machine (wr32 (hc + hc_devices_count) (count + 1));;
         funcs ← hc_functions hc;
         port_init funcs hc i (s32 (count + 1))
       else
         funcs ← hc_functions hc;
         speed ← port_device_get_speed funcs hc i;
         funcs ← hc_functions hc;
         port_reset funcs hc i;;
         mret speed);
    if u32 speed =? u32 (-1) then no_device
    else
      device ← bl_usb_device_register hc speed;
      if is_null device then no_device
      else
        on_machine (bl_usb_hub_link_device (hc + hc_root_hub) device (i + 1));;
        bl_usb_device_register_specific_info device reg.

Definition bl_usb_hub_root_register (hc : Z) (reg : registry) : D Dev registry :=
  on_machine (wr32 (hc + hc_root_hub + hub_device) NULL);;
  ports ← on_machine (rd32 (hc + hc_root_hub + hub_ports));
  devices ← on_machine (bl_heap_alloc (u32 (ports * sizeof_usb_device)));
  on_machine (wr32 (hc + hc_root_hub + hub_devices) devices);;
  if is_null devices then mret reg
  else
    on_machine (bl_memset (hc + hc_root_hub + hub_port_chain) 0 sizeof_port_chain);;
    reg ← mwhile (λ '(i, reg),
            if i <? s32 ports then reg ← root_port hc i reg; continue (i + 1, reg)
            else break reg) (0, reg);
    on_machine (
      roots ← rd32 (bl_root_hubs f);
      wr32 (hc + hc_root_hub + hub_next) roots;;
      wr32 (bl_root_hubs f) (hc + hc_root_hub));;
    mret reg.

(** A port without a device has a null pointer in [devices], which is followed. *)
Definition bl_usb_poll (reg : registry) : D Dev registry :=
  root_hub ← on_machine (rd32 (bl_root_hubs f));
  mwhile (λ '(root_hub, reg),
    if is_null root_hub then break reg
    else
      reg ← mwhile (λ '(i, reg),
              ports ← on_machine (rd32 (root_hub + hub_ports));
              if i <? s32 ports then
                slot ← on_machine (hub_slot root_hub i);
                device ← on_machine (rd32 slot);
                type ← on_machine (rd32 (device + ud_type));
                if type =? BL_USB_HUB_DEVICE then
                  hub ← on_machine (rd32 (device + ud_hub));
                  reg ← bl_usb_hub_poll hub reg;
                  continue (i + 1, reg)
                else continue (i + 1, reg)
              else break reg) (0, reg);
      next ← on_machine (rd32 (root_hub + hub_next));
      continue (next, reg)) (root_hub, reg).

(** ** Set-up: usb.c *)
Definition bl_usb_setup (reg : registry) : D Dev registry :=
  hc ← on_machine (rd32 (bl_usb_host_controllers f));
  mwhile (λ '(hc, reg),
    if is_null hc then break reg
    else
      on_machine (
        buses ← rd32 (bl_usb_buses f);
        wr32 (bl_usb_buses f) (buses + 1);;
        wr32 (hc + hc_bus) (buses + 1);;
        wr32 (hc + hc_devices_count) 0);;
      reg ← bl_usb_hub_root_register hc reg;
      next ← on_machine (rd32 (hc + hc_next));
      continue (next, reg)) (hc, reg).

Definition bl_usb_host_controller_register (hc : Z) : M () :=
  list ← rd32 (bl_usb_host_controllers f);
  wr32 (hc + hc_next) list;;
  wr32 (bl_usb_host_controllers f) hc.
End Usb.
