(* ===== verification/UsbKeyboard.v ===== *)
(** * The USB keyboard driver: modules/keyboard/usb-kbd/usb-keyboard.c,
    usb-keyboard.h

    Boot-protocol keyboards: a report of eight bytes, the modifier keys first
    and the first key pressed in the third byte. *)
From S2P Require Import Prelude Memory Arith Status Strings Heap Storage Ports Keyboard Usb.

Definition BL_USB_MODIFIER_KEY_LEFT_SHIFT : Z := Z.shiftl 1 1.
Definition BL_USB_MODIFIER_KEY_RIGHT_SHIFT : Z := Z.shiftl 1 5.
Definition BL_USB_HID_REQUEST_TYPE_SET_IDLE : Z := 0x0a.
Definition BL_USB_HID_REQUEST_TYPE_SET_PROTOCOL : Z := 0x0b.

Definition bl_usb_keyboard_make_char (key modifier_key : Z) : Z :=
  if truth (Z.land modifier_key BL_USB_MODIFIER_KEY_LEFT_SHIFT) ||
     truth (Z.land modifier_key BL_USB_MODIFIER_KEY_RIGHT_SHIFT)
  then bl_keyboard_layout_lookup_shift key
  else bl_keyboard_layout_lookup key.

Section UsbKeyboard.
Context {Dev : Type} (funcs_at : Z → option (bl_usb_host_controller_functions Dev)).
Context (bl_time_sleep : Z → D Dev Z) (f : usb_frame).
(** The local [report]. *)
Context (loc_report : Z).

(** The key and the modifier keys. *)
Definition bl_usb_keyboard_wait_endpoint (device : Z) : D Dev (Z * Z) :=
  let endp := device + ud_keyboard_endp in
  info ← bl_usb_interrupt_transfer funcs_at device endp loc_report 8;
  mwhile (λ _,
    status ← bl_usb_check_transfer_status funcs_at device info;
    if bool_decide (status = BL_STATUS_USB_ACTION_NOT_FINISHED) then
      descriptor ← on_machine (rd32 (endp + ep_descriptor));
      interval ← on_machine (rd8 (descriptor + ed_interval));
      bl_time_sleep interval;;
      continue ()
    else break ()) ();;
  modifier_key ← on_machine (rd8 loc_report);
  key ← on_machine (rd8 (loc_report + 2));
  mret (key, modifier_key).

Definition bl_usb_keyboard_getchar (kbd : bl_keyboard) : D Dev Z :=
  '(key, modifier_key) ← bl_usb_keyboard_wait_endpoint (kbd_data kbd);
  mret (if truth key then bl_usb_keyboard_make_char key modifier_key else -1).

Definition keyboard_request (device interface request : Z) : D Dev () :=
  interface_number ← on_machine (rd8 (interface + id_interface_number));
  bl_usb_control_transfer funcs_at f device NULL
    (Z.lor (Z.lor BL_USB_SETUP_REQUEST_TYPE_RECIPIENT_INTERFACE BL_USB_SETUP_REQUEST_TYPE_CLASS)
       BL_USB_SETUP_REQUEST_TYPE_HOST_TO_DEVICE)
    request 0 interface_number 0.

Definition bl_usb_keyboard_set_boot_protocol (device interface : Z) : D Dev () :=
  keyboard_request device interface BL_USB_HID_REQUEST_TYPE_SET_PROTOCOL.
Definition bl_usb_keyboard_set_idle_request (device interface : Z) : D Dev () :=
  keyboard_request device interface BL_USB_HID_REQUEST_TYPE_SET_IDLE.
Definition bl_usb_keyboard_configure (device interface : Z) : D Dev () :=
  bl_usb_keyboard_set_boot_protocol device interface;;
  bl_usb_keyboard_set_idle_request device interface.

(** The first interrupt endpoint towards the host becomes the keyboard's. *)
Definition choose_endpoint (device interface : Z) : M () :=
  mwhile (λ i,
    num_endpoints ← rd8 (interface + id_num_endpoints);
    if i <? num_endpoints then
      endpoints ← rd32 (interface + if_endpoints);
      let endpoint := u32 (endpoints + i * sizeof_endpoint_descriptor) in
      address ← rd8 (endpoint + ed_endpoint_address);
      attributes ← rd8 (endpoint + ed_attributes);
      if truth (Z.land address (Z.shiftl 1 7)) && (attributes =? 0x3) then
        wr32 (device + ud_keyboard_endp + ep_toggle) 0;;
        wr32 (device + ud_keyboard_endp + ep_descriptor) endpoint;;
        break ()
      else continue (i + 1)
    else break ()) 0.

Definition bl_usb_keyboard_initialize (kbd : bl_keyboard) : D Dev bl_status_t :=
  let device := kbd_data kbd in
  controller ← on_machine (rd32 (device + ud_controller));
  funcs ← hc_functions funcs_at controller;
  match interrupt_transfer funcs, check_transfer_status funcs with
  | Some _, Some _ =>
      interfaces ← on_machine (rd32 (device + ud_interfaces));
      number ← on_machine (rd32 (device + ud_keyboard_interface));
      let interface := u32 (interfaces + s32 number * sizeof_interface) in
      class ← on_machine (rd8 (interface + id_interface_class));
      subclass ← on_machine (rd8 (interface + id_interface_subclass));
      protocol ← on_machine (rd8 (interface + id_interface_protocol));
      if negb (class =? 0x3) || negb (subclass =? 0x1) || negb (protocol =? 0x1)
      then mret BL_STATUS_USB_INVALID_DEVICE
      else
        country_code ← on_machine (rd8 (device + ud_keyboard_hid + hi_country_code));
        if negb (country_code =? 0x00) then mret BL_STATUS_USB_INVALID_DEVICE
        else
          on_machine (choose_endpoint device interface);;
          bl_usb_keyboard_configure device interface;;
          mret BL_STATUS_SUCCESS
  | _, _ => mret BL_STATUS_UNSUPPORTED
  end.

Definition usb_keyboard_controller : bl_keyboard_controller (Dev := Dev) :=
  KeyboardController BL_KEYBOARD_USB (Some bl_usb_keyboard_initialize) (Some bl_usb_keyboard_getchar).

Definition usb_keyboard_module_init (ctrls : list bl_keyboard_controller) : list bl_keyboard_controller :=
  bl_keyboard_controller_register usb_keyboard_controller ctrls.
End UsbKeyboard.
