(* ===== verification/UsbScsi.v ===== *)
(** * USB mass storage: modules/storage/usb-scsi/usb-scsi.c, usb-scsi.h

    SCSI commands in the wrappers of the bulk-only transport.  The commands and
    wrappers are packed structures on the stack, at the addresses of
    [scsi_frame].  The code under [#if 0] is not part of the program. *)
From S2P Require Import Prelude Memory Arith Status Strings Heap Storage Ports Keyboard Usb.

(** ** usb-scsi.h *)
Definition BL_SCSI_COMMAND_SENSE_DATA : Z := 0x03.
Definition BL_SCSI_COMMAND_INQUIRY : Z := 0x12.
Definition BL_SCSI_COMMAND_READ_CAPACITY10 : Z := 0x25.
Definition BL_SCSI_COMMAND_READ10 : Z := 0x28.
Definition BL_SCSI_COMMAND_READ_CAPACITY16 : Z := 0x9e.

(** [struct bl_scsi_inquiry], [bl_scsi_inquiry_data], [bl_scsi_request_sense],
    [bl_scsi_request_sense_data]. *)
Definition sizeof_inquiry : Z := 6.
Definition sizeof_inquiry_data : Z := 36.
Definition sizeof_request_sense : Z := 6.
Definition sizeof_request_sense_data : Z := 18.
Definition sc_opcode : Z := 0.
Definition sc_lun : Z := 1.
Definition sc_page_code : Z := 2.
Definition sc_reserved0 : Z := 3.
Definition sc_allocation_length : Z := 4.
Definition sc_control : Z := 5.

(** [struct bl_scsi_read10]. *)
Definition sizeof_read10 : Z := 10.
Definition r10_lba : Z := 2.
Definition r10_transfer_length : Z := 7.

(** [struct bl_scsi_read_capacity10], [..10_data], [..16], [..16_data]. *)
Definition sizeof_read_capacity10 : Z := 10.
Definition sizeof_read_capacity10_data : Z := 8.
Definition c10_lba : Z := 0.
Definition c10_block_size : Z := 4.
Definition sizeof_read_capacity16 : Z := 16.
Definition rc16_allocation_length : Z := 10.
Definition sizeof_read_capacity16_data : Z := 32.
Definition c16_lba : Z := 0.
Definition c16_block_size : Z := 8.

(** [struct bl_usb_bbb_cbw] and [bl_usb_bbb_csw]. *)
Definition BL_USB_BBB_CBW_SIGNATURE : Z := 0x43425355.
Definition sizeof_cbw : Z := 31.
Definition cbw_signature : Z := 0.
Definition cbw_tag : Z := 4.
Definition cbw_data_transfer_length : Z := 8.
Definition cbw_flags : Z := 12.
Definition cbw_lun : Z := 13.
Definition cbw_cb_length : Z := 14.
Definition cbw_cmd : Z := 15.
Definition sizeof_csw : Z := 13.

(** The locals that the code points to, and the static [tag]. *)
Record scsi_frame := ScsiFrame {
  s_cbw : Z; s_csw : Z; s_sense : Z; s_sense_data : Z; s_read10 : Z;
  s_cmd1 : Z; s_data1 : Z; s_cmd2 : Z; s_data2 : Z; s_inquiry : Z; s_inquiry_data : Z;
  s_max_lun : Z; s_tag : Z;
}.

Section UsbScsi.
Context {Dev : Type} (funcs_at : Z → option (bl_usb_host_controller_functions Dev)).
Context (f : usb_frame) (sf : scsi_frame).

Definition bl_usb_scsi_bbb_init_cbw (cbw lun direction cmd cb_length length : Z) : M () :=
  bl_memset cbw 0 sizeof_cbw;;
  wr32 (cbw + cbw_signature) BL_USB_BBB_CBW_SIGNATURE;;
  tag ← rd32 (s_tag sf);
  wr32 (s_tag sf) (tag + 1);;
  wr32 (cbw + cbw_tag) (tag + 1);;
  wr32 (cbw + cbw_data_transfer_length) length;;
  wr8 (cbw + cbw_flags) (if truth direction then 0x0 else Z.shiftl 1 7);;
  wr8 (cbw + cbw_lun) lun;;
  wr8 (cbw + cbw_cb_length) cb_length;;
  n ← rd8 (cbw + cbw_cb_length);
  bl_memcpy (cbw + cbw_cmd) cmd n;;
  mret ().

Definition bl_usb_scsi_bbb_execute_command (device direction cmd cb_length buf length : Z) :
    D Dev bl_status_t :=
  on_machine (bl_usb_scsi_bbb_init_cbw (s_cbw sf) 0 direction cmd (u8 cb_length) length);;
  bl_usb_bulk_transfer funcs_at device 1 (s_cbw sf) sizeof_cbw;;
  bl_usb_bulk_transfer funcs_at device direction buf length;;
  bl_usb_bulk_transfer funcs_at device 0 (s_csw sf) sizeof_csw;;
  mret BL_STATUS_SUCCESS.

Definition sense_command : M () :=
  bl_memset (s_sense sf) 0 sizeof_request_sense;;
  wr8 (s_sense sf + sc_opcode) BL_SCSI_COMMAND_SENSE_DATA;;
  wr8 (s_sense sf + sc_lun) (Z.shiftl 0 5);;
  wr8 (s_sense sf + sc_allocation_length) sizeof_request_sense_data.

Definition bl_usb_scsi_sense_data (device : Z) : D Dev bl_status_t :=
  on_machine sense_command;;
  bl_usb_scsi_bbb_execute_command device 0 (s_sense sf) sizeof_request_sense
    (s_sense_data sf) sizeof_request_sense_data.

(** A command and the request for sense data that follows it. *)
Definition command_and_sense (device cmd cb_length buf length : Z) : D Dev bl_status_t :=
  status ← bl_usb_scsi_bbb_execute_command device 0 cmd cb_length buf length;
  if failed status then mret status
  else
    status ← bl_usb_scsi_sense_data device;
    if failed status then mret status else mret BL_STATUS_SUCCESS.

Definition read10_command (lba sectors : Z) : M () :=
  bl_memset (s_read10 sf) 0 sizeof_read10;;
  wr8 (s_read10 sf + sc_opcode) BL_SCSI_COMMAND_READ10;;
  wr32 (s_read10 sf + r10_lba) (bytes_swap32 (Z.land lba 0xffffffff));;
  wr16 (s_read10 sf + r10_transfer_length) (bytes_swap16 (Z.land sectors 0xffff)).

Definition bl_usb_scsi_read10 (device buf lba sectors length : Z) : D Dev bl_status_t :=
  on_machine (read10_command lba sectors);;
  command_and_sense device (s_read10 sf) sizeof_read10 buf length.

(** [disk] as its sizes and its data. *)
Definition bl_usb_scsi_read (i : disk_info) (data buf lba sectors : Z) : D Dev bl_status_t :=
  status ← bl_usb_scsi_read10 data buf lba sectors (u32 (sectors * sector_size i));
  if failed status then mret status else mret BL_STATUS_SUCCESS.

(** The sizes are stored through pointers into the disk. *)
Definition bl_usb_scsi_get_size (device : Z) (i : disk_info) : D Dev (bl_status_t * disk_info) :=
  on_machine (
    bl_memset (s_cmd1 sf) 0 sizeof_read_capacity10;;
    wr8 (s_cmd1 sf + sc_opcode) BL_SCSI_COMMAND_READ_CAPACITY10;;
    wr8 (s_cmd1 sf + sc_lun) (Z.shiftl 0 5));;
  status ← command_and_sense device (s_cmd1 sf) sizeof_read_capacity10
             (s_data1 sf) sizeof_read_capacity10_data;
  if failed status then mret (status, i)
  else
    lba ← on_machine (rd32 (s_data1 sf + c10_lba));
    if lba <? 0xffffffff then
      block_size ← on_machine (rd32 (s_data1 sf + c10_block_size));
      mret (BL_STATUS_SUCCESS, DiskInfo (bytes_swap32 block_size) (u32 (bytes_swap32 lba + 1)))
    else
      on_machine (
        bl_memset (s_cmd2 sf) 0 sizeof_read_capacity16;;
        wr8 (s_cmd2 sf + sc_opcode) BL_SCSI_COMMAND_READ_CAPACITY16;;
        wr8 (s_cmd2 sf + sc_lun) (Z.shiftl 0 5);;
        wr32 (s_cmd2 sf + rc16_allocation_length) (bytes_swap32 sizeof_read_capacity16_data));;
      status ← command_and_sense device (s_cmd2 sf) sizeof_read_capacity16
                 (s_data2 sf) sizeof_read_capacity16_data;
      if failed status then mret (status, i)
      else
        lba ← on_machine (rd64 (s_data2 sf + c16_lba));
        block_size ← on_machine (rd32 (s_data2 sf + c16_block_size));
        mret (BL_STATUS_SUCCESS, DiskInfo (bytes_swap32 block_size) (u64 (bytes_swap64 lba + 1))).

Definition bl_usb_scsi_inquiry (device : Z) : D Dev bl_status_t :=
  on_machine (
    bl_memset (s_inquiry sf) 0 sizeof_inquiry;;
    wr8 (s_inquiry sf + sc_opcode) BL_SCSI_COMMAND_INQUIRY;;
    wr8 (s_inquiry sf + sc_lun) (Z.shiftl 0 5);;
    wr8 (s_inquiry sf + sc_page_code) 0;;
    wr8 (s_inquiry sf + sc_reserved0) 0;;
    wr8 (s_inquiry sf + sc_allocation_length) sizeof_inquiry_data;;
    wr8 (s_inquiry sf + sc_control) 0);;
  command_and_sense device (s_inquiry sf) sizeof_inquiry (s_inquiry_data sf) sizeof_inquiry_data.

(** The first bulk endpoint of each direction, if the field is still 0. *)
Definition choose_bulk (endp endpoint : Z) (wanted : bool) : M () :=
  descriptor ← rd32 (endp + ep_descriptor);
  if truth descriptor then mret ()
  else
    address ← rd8 (endpoint + ed_endpoint_address);
    attributes ← rd8 (endpoint + ed_attributes);
    if eqb (truth (Z.land address (Z.shiftl 1 7))) wanted && (attributes =? 0x2) then
      wr32 (endp + ep_toggle) 0;;
      wr32 (endp + ep_descriptor) endpoint
    else mret ().

Definition bl_usb_scsi_validate_device (device : Z) : M bl_status_t :=
  interfaces ← rd32 (device + ud_interfaces);
  number ← rd32 (device + ud_storage_interface);
  let interface := u32 (interfaces + s32 number * sizeof_interface) in
  class ← rd8 (interface + id_interface_class);
  subclass ← rd8 (interface + id_interface_subclass);
  if negb (class =? 0x8) || negb (subclass =? 0x6) then mret BL_STATUS_USB_INVALID_DEVICE
  else
    protocol ← rd8 (interface + id_interface_protocol);
    if negb (protocol =? 0x50) then mret BL_STATUS_USB_INVALID_DEVICE
    else
      wr32 (device + ud_storage_type) 0;;
      mwhile (λ i,
        num_endpoints ← rd8 (interface + id_num_endpoints);
        if i <? num_endpoints then
          endpoints ← rd32 (interface + if_endpoints);
          let endpoint := u32 (endpoints + i * sizeof_endpoint_descriptor) in
          choose_bulk (device + ud_in_endp) endpoint true;;
          choose_bulk (device + ud_out_endp) endpoint false;;
          continue (i + 1)
        else break ()) 0;;
      in_ ← rd32 (device + ud_in_endp + ep_descriptor);
      out ← rd32 (device + ud_out_endp + ep_descriptor);
      mret (if negb (truth in_) || negb (truth out) then BL_STATUS_USB_INVALID_DEVICE
            else BL_STATUS_SUCCESS).

Definition bl_usb_scsi_get_luns (device : Z) : D Dev () :=
  interface ← on_machine (rd32 (device + ud_storage_interface));
  bl_usb_control_transfer funcs_at f device (s_max_lun sf)
    (Z.lor (Z.lor BL_USB_SETUP_REQUEST_TYPE_DEVICE_TO_HOST BL_USB_SETUP_REQUEST_TYPE_CLASS)
       BL_USB_SETUP_REQUEST_TYPE_RECIPIENT_INTERFACE)
    0xfe 0x0 (s32 interface) 0x1;;
  max_lun ← on_machine (rd8 (s_max_lun sf));
  on_machine (wr32 (device + ud_storage_luns) max_lun).

Definition bl_usb_scsi_get_info (device : Z) (i : disk_info) : D Dev (bl_status_t * disk_info) :=
  status ← on_machine (bl_usb_scsi_validate_device device);
  if failed status then mret (status, i)
  else
    bl_usb_scsi_get_luns device;;
    status ← bl_usb_scsi_inquiry device;
    if failed status then mret (status, i) else bl_usb_scsi_get_size device i.

(** The static [bl_usb_scsi_funcs], with the hardware in the state [d] when a
    function is called (see [Ports.embed]), and [BL_MODULE_INIT]. *)
Definition bl_usb_scsi_funcs (d : Dev) : bl_disk_controller_functions :=
  DiskFunctions BL_DISK_CONTROLLER_TYPE_USB_SCSI
    (λ i data buf lba sectors, embed d (bl_usb_scsi_read i data buf lba sectors))
    (Some (λ data i, embed d (bl_usb_scsi_get_info data i))).

Definition usb_scsi_module_init (d : Dev) (controllers : list bl_disk_controller_functions) :
    M (list bl_disk_controller_functions) :=
  bl_usb_scsi ← bl_heap_alloc sizeof_disk_controller;
  if is_null bl_usb_scsi then mret controllers
  else mret (bl_disk_controller_register (bl_usb_scsi_funcs d) controllers).
End UsbScsi.
