(* ===== verification/UsbProofs.v ===== *)
(** * Proofs about the USB stack: the queue of hubs, the copies of endpoint
    descriptors, the wrapped SCSI read command *)
From S2P Require Import Prelude Memory Arith Status Strings StringsProofs Heap.
From S2P Require Import HeapProofs HeapClient Storage Ports Keyboard Usb UsbScsi.

(** ** The queue of hubs

    Abstractly: the number of hubs that were ever pushed and those that are
    still waiting.  The array is never reused: the 127th push is dropped. *)
Definition queue_at (m : gmap Z Z) (p pushed : Z) (q : list Z) : Prop :=
  in_space p sizeof_traversal ∧ 0 <= pushed <= 126 ∧ Z.of_nat (length q) <= pushed ∧
  ld 4 m (p + tr_head) = pushed - Z.of_nat (length q) ∧ ld 4 m (p + tr_tail) = pushed ∧
  ∀ i h, q !! i = Some h → ld 4 m (p + tr_hubs + 4 * (pushed - Z.of_nat (length q) + Z.of_nat i)) = h.

Inductive queue_op := Push (hub : Z) | Pop | IsEmpty.

Definition queue_code (p : Z) (o : queue_op) : M Z :=
  match o with
  | Push hub => bl_usb_traversal_push p hub;; mret 0
  | Pop => bl_usb_traversal_pop p
  | IsEmpty => b ← bl_usb_traversal_is_empty p; mret (b2z b)
  end.

Definition queue_spec (o : queue_op) (s : Z * list Z) : Z * (Z * list Z) :=
  let '(pushed, q) := s in
  match o with
  | Push hub => (0, if pushed <? 126 then (pushed + 1, q ++ [hub]) else s)
  | Pop => match q with [] => (NULL, s) | h :: q => (h, (pushed, q)) end
  | IsEmpty => (b2z (bool_decide (q = [])), s)
  end.

(** A sequence of operations and its answers. *)
Fixpoint queue_run (p : Z) (ops : list queue_op) : M (list Z) :=
  match ops with
  | [] => mret []
  | o :: ops => x ← queue_code p o; xs ← queue_run p ops; mret (x :: xs)
  end.
Fixpoint queue_answers (ops : list queue_op) (s : Z * list Z) : list Z * (Z * list Z) :=
  match ops with
  | [] => ([], s)
  | o :: ops => let '(x, s) := queue_spec o s in let '(xs, s) := queue_answers ops s in (x :: xs, s)
  end.

Definition push_ok (o : queue_op) : Prop :=
  match o with Push hub => 0 <= hub < 4294967296 | _ => True end.

(** Reading a word of a structure after another one was written. *)
Lemma ld4_st4_other m a v b :
  in_space a 4 → in_space b 4 → a + 4 <= b ∨ b + 4 <= a → ld 4 (st 4 m a v) b = ld 4 m b.
Proof. intros. by apply ld_st_other. Qed.

Ltac field_space := unfold in_space, outside, sizeof_traversal, tr_head, tr_tail, tr_hubs in *; lia.

Lemma push_run s p pushed q hub :
  queue_at (mem s) p pushed q → 0 <= hub < 4294967296 →
  ∃ m', bl_usb_traversal_push p hub s = Some ((), set_mem m' s) ∧
    (let '(pushed, q) := if pushed <? 126 then (pushed + 1, q ++ [hub]) else (pushed, q) in
     queue_at m' p pushed q) ∧
    (∀ a, 0 <= a < 4294967296 → outside p sizeof_traversal a → ld8 m' a = ld8 (mem s) a).
Proof.
  intros (Hsp & Hn & Hlen & Hh & Ht & Hq) Hhub. unfold bl_usb_traversal_push.
  unfold rd32, wr32, gets, modify, mbind, ST_bind, mret, ST_ret. cbv beta iota. rewrite Ht, s32_small by lia.
  change (127 - 1) with 126. destruct (Z.ltb_spec pushed 126) as [Hlt|Hge].
  2:{ exists (mem s). rewrite set_mem_id. split; [done|]. split; [done|]. done. }
  rewrite u32_small by field_space. eexists. split; [done|]. split; cycle 1.
  { intros a Ha Ho. unfold with_mem. rewrite ?mem_set_mem, ?set_mem_set_mem.
    rewrite !ld8_st_other; (done || field_space). }
  unfold with_mem. rewrite ?mem_set_mem, ?set_mem_set_mem. unfold queue_at. rewrite length_app. cbn [length].
  split; [done|]. split; [lia|]. split; [lia|]. split.
  { rewrite !ld4_st4_other by field_space. rewrite Hh. lia. }
  split. { rewrite ld4_st4_other, ld4_st4_same by field_space. done. }
  intros i h Hi. destruct (decide (i < length q)%nat) as [Hlt'|Hge'].
  - rewrite lookup_app_l in Hi by done. rewrite !ld4_st4_other by field_space. rewrite <- (Hq _ _ Hi).
    do 2 f_equal. lia.
  - rewrite lookup_app_r in Hi by lia. destruct (i - length q)%nat eqn:E; [|done]. injection Hi as <-.
    replace (p + tr_hubs + 4 * (pushed + 1 - Z.of_nat (length q + 1) + Z.of_nat i))
      with (p + tr_hubs + 4 * pushed) by lia.
    rewrite ld4_st4_same by field_space. done.
Qed.

Lemma pop_run s p pushed q :
  queue_at (mem s) p pushed q →
  ∃ m', bl_usb_traversal_pop p s = Some (hd NULL q, set_mem m' s) ∧ queue_at m' p pushed (tl q) ∧
    (∀ a, 0 <= a < 4294967296 → outside p sizeof_traversal a → ld8 m' a = ld8 (mem s) a).
Proof.
  intros (Hsp & Hn & Hlen & Hh & Ht & Hq). unfold bl_usb_traversal_pop.
  unfold rd32, wr32, gets, modify, mbind, ST_bind, mret, ST_ret. cbv beta iota. rewrite Hh, Ht, !s32_small by lia.
  destruct q as [|h q]; cbn [length hd tl] in *.
  { destruct (Z.ltb_spec (pushed - Z.of_nat 0) pushed); [lia|]. exists (mem s). rewrite set_mem_id.
    by split_and!. }
  destruct (Z.ltb_spec (pushed - Z.of_nat (S (length q))) pushed); [|lia].
  rewrite u32_small by field_space. unfold with_mem. rewrite ?mem_set_mem, ?set_mem_set_mem.
  eexists. split; [|split].
  - rewrite ld4_st4_other by field_space.
    pose proof (Hq 0%nat h eq_refl) as E. rewrite Z.add_0_r in E. by rewrite E.
  - unfold queue_at. split; [done|]. split; [lia|]. split; [lia|]. split.
    { rewrite ld4_st4_same by field_space. lia. }
    split. { by rewrite ld4_st4_other by field_space. }
    intros i h' Hi. pose proof (lookup_lt_Some _ _ _ Hi). rewrite ld4_st4_other by field_space.
    rewrite <- (Hq (S i) h' Hi). do 2 f_equal. lia.
  - intros a Ha Ho. rewrite ld8_st_other; (done || field_space).
Qed.

Lemma is_empty_run s p pushed q :
  queue_at (mem s) p pushed q → bl_usb_traversal_is_empty p s = Some (bool_decide (q = []), s).
Proof.
  intros (Hsp & Hn & Hlen & Hh & Ht & Hq). unfold bl_usb_traversal_is_empty.
  unfold rd32, gets, mbind, ST_bind, mret, ST_ret. rewrite Hh, Ht. do 2 f_equal.
  destruct q as [|h q]; cbn [length] in *; [rewrite bool_decide_true by done|rewrite bool_decide_false by done].
  - apply Z.eqb_eq. lia.
  - apply Z.eqb_neq. lia.
Qed.

Lemma queue_step s p pushed q o :
  queue_at (mem s) p pushed q → push_ok o →
  ∃ m', queue_code p o s = Some ((queue_spec o (pushed, q)).1, set_mem m' s) ∧
    (let '(pushed, q) := (queue_spec o (pushed, q)).2 in queue_at m' p pushed q) ∧
    (∀ a, 0 <= a < 4294967296 → outside p sizeof_traversal a → ld8 m' a = ld8 (mem s) a).
Proof.
  intros Hq Ho. destruct o as [hub| |]; cbn [queue_code queue_spec push_ok] in *.
  - destruct (push_run s p pushed q hub Hq Ho) as (m' & Hrun & Hm & Hf). exists m'. run_with Hrun. done.
  - destruct (pop_run s p pushed q Hq) as (m' & Hrun & Hm & Hf). exists m'. rewrite Hrun. by destruct q.
  - exists (mem s). pose proof (is_empty_run s p pushed q Hq) as Hrun. run_with Hrun. by rewrite set_mem_id.
Qed.

Lemma queue_refines_run ops s p pushed q :
  queue_at (mem s) p pushed q → Forall push_ok ops →
  ∃ m', queue_run p ops s = Some ((queue_answers ops (pushed, q)).1, set_mem m' s) ∧
    (let '(pushed, q) := (queue_answers ops (pushed, q)).2 in queue_at m' p pushed q) ∧
    (∀ a, 0 <= a < 4294967296 → outside p sizeof_traversal a → ld8 m' a = ld8 (mem s) a).
Proof.
  intros Hq Hops. revert s pushed q Hq. induction Hops as [|o ops Ho Hops IH]; intros s pushed q Hq.
  - exists (mem s). by rewrite set_mem_id.
  - destruct (queue_step s p pushed q o Hq Ho) as (m1 & Hrun & Hm1 & Hf1). cbn [queue_run queue_answers].
    destruct (queue_spec o (pushed, q)) as [x [n1 q1]]. cbn [fst snd] in *.
    destruct (IH (set_mem m1 s) n1 q1 Hm1) as (m2 & Hrun2 & Hm2 & Hf2).
    destruct (queue_answers ops (n1, q1)) as [xs st2]. cbn [fst snd] in *. exists m2.
    run_with Hrun. run_with Hrun2. rewrite set_mem_set_mem. split; [done|]. split; [done|].
    intros a Ha Hout. by rewrite Hf2, Hf1.
Qed.

(** A new queue is empty. *)
Lemma traversal_init_run s bs :
  heap_inv s bs → room s bs sizeof_traversal 1 →
  ∃ p s', bl_usb_traversal_init s = Some (p, s') ∧ queue_at (mem s') p 0 [].
Proof.
  intros Hinv Hroom. destruct (alloc_client s bs sizeof_traversal Hinv)
    as (b & bs' & s1 & Hal & _ & _ & _ & _ & Hp0 & Hpsp & _); [unfold sizeof_traversal; lia|done|].
  set (p := b_data b) in *. assert (Hsp : in_space p sizeof_traversal) by field_space.
  assert (Hw : wp (bl_usb_traversal_init) (λ r t, r = p ∧ ld 4 (mem t) (p + tr_head) = 0 ∧
      ld 4 (mem t) (p + tr_tail) = 0) s).
  { unfold bl_usb_traversal_init. wp_known Hal. unfold is_null. destruct (Z.eqb_spec p 0); [lia|].
    wp_steps.
    apply (wp_mwhile _ (λ i t, 0 <= i <= 127 ∧ ld 4 (mem t) (p + tr_head) = 0 ∧ ld 4 (mem t) (p + tr_tail) = 0)
      _ (λ i _, 127 - i)).
    - intros i t (Hi & Hh & Ht). destruct (Z.ltb_spec i 127).
      + wp_steps. rewrite mem_set_mem. split; [|lia]. split; [lia|]. by rewrite !ld4_st4_other by field_space.
      + wp_steps. done.
    - rewrite ?mem_set_mem, ?set_mem_set_mem. split; [lia|].
      rewrite ld4_st4_same, ld4_st4_other, ld4_st4_same by field_space. done.
    - unfold while_fuel. lia. }
  apply wp_run in Hw as (r & t & Hrun & -> & Hh & Ht). exists p, t. split; [done|].
  unfold queue_at. cbn [length]. split_and!; (done || lia || (rewrite Hh; done) || idtac).
Qed.

(** ** Endpoint descriptors

    A configuration's descriptors behind an interface: each starts with its
    length and type; the endpoints among them are copied, in order, to an array
    of 7 bytes each. *)
Definition descriptor_ok (d : list Z) : Prop := bytes d ∧ hd 0 d = Z.of_nat (length d) ∧ (2 <= length d)%nat.
Definition is_endpoint (d : list Z) : bool := nth 1 d 0 =? BL_USB_DESCRIPTOR_TYPE_ENDPOINT.
Definition endpoints_of (ds : list (list Z)) : list (list Z) := filter (λ d, is_endpoint d = true) ds.

(** The descriptors are those up to the last endpoint that is wanted; an
    endpoint's has at least 7 bytes. *)
Definition endpoint_list (ds : list (list Z)) (n : Z) : Prop :=
  Forall descriptor_ok ds ∧ Z.of_nat (length (endpoints_of ds)) = n ∧
  Forall (λ d, is_endpoint d = true → (7 <= length d)%nat) ds ∧
  (ds = [] ∨ ∃ d, last ds = Some d ∧ is_endpoint d = true).

Definition copied (ds : list (list Z)) : list Z := flat_map (take 7) (endpoints_of ds).

Lemma endpoints_of_app ds1 ds2 : endpoints_of (ds1 ++ ds2) = endpoints_of ds1 ++ endpoints_of ds2.
Proof. apply filter_app. Qed.

Lemma endpoints_of_cons d ds :
  endpoints_of (d :: ds) = if is_endpoint d then d :: endpoints_of ds else endpoints_of ds.
Proof.
  unfold endpoints_of. rewrite filter_cons. destruct (is_endpoint d);
    [by rewrite decide_True|by rewrite decide_False].
Qed.

Lemma copied_app ds1 ds2 : copied (ds1 ++ ds2) = copied ds1 ++ copied ds2.
Proof. unfold copied. by rewrite endpoints_of_app, flat_map_app. Qed.

Lemma copied_one d : copied [d] = if is_endpoint d then take 7 d else [].
Proof.
  unfold copied. rewrite endpoints_of_cons. destruct (is_endpoint d); [|done]. simpl. by rewrite app_nil_r.
Qed.

Lemma length_copied ds :
  Forall (λ d, is_endpoint d = true → (7 <= length d)%nat) ds →
  Z.of_nat (length (copied ds)) = 7 * Z.of_nat (length (endpoints_of ds)).
Proof.
  unfold copied. induction 1 as [|d ds Hd H IH]; [done|]. rewrite endpoints_of_cons.
  destruct (is_endpoint d); [|done]. cbn [flat_map length]. rewrite length_app, length_take.
  specialize (Hd eq_refl). lia.
Qed.

Lemma length_copied_prefix ds pre post n :
  endpoint_list ds n → ds = pre ++ post →
  Z.of_nat (length (copied pre)) = 7 * Z.of_nat (length (endpoints_of pre)).
Proof. intros (_ & _ & H & _) ->. apply Forall_app in H as [H _]. by apply length_copied. Qed.

(** An endpoint is still to come as long as descriptors are left. *)
Lemma endpoint_to_come ds n pre post :
  endpoint_list ds n → ds = pre ++ post →
  (post = [] ∧ Z.of_nat (length (endpoints_of pre)) = n) ∨
  (post ≠ [] ∧ Z.of_nat (length (endpoints_of pre)) < n).
Proof.
  intros (_ & Hn & _ & Hlast) ->. rewrite endpoints_of_app, length_app in Hn.
  destruct post as [|d post]; [left; split; [done|]; cbn in Hn; lia|right; split; [done|]].
  destruct Hlast as [E|(x & Hx & Hex)]; [by destruct pre|].
  rewrite last_app_cons in Hx. apply last_Some_elem_of in Hx.
  assert (x ∈ endpoints_of (d :: post)) as Hin by (by apply list_elem_of_filter).
  destruct (endpoints_of (d :: post)); [by apply not_elem_of_nil in Hin|]. cbn [length] in Hn. lia.
Qed.

Lemma ld_bytes_prefix m a l1 l2 :
  ld_bytes m a (length (l1 ++ l2)) = l1 ++ l2 →
  ld_bytes m a (length l1) = l1 ∧ ld_bytes m (a + Z.of_nat (length l1)) (length l2) = l2.
Proof.
  rewrite length_app, ld_bytes_app. intros H. apply app_inj_1 in H; [done|]. by rewrite length_ld_bytes.
Qed.

Lemma nth_ld_bytes m a d i : ld_bytes m a (length d) = d → (i < length d)%nat → ld8 m (a + Z.of_nat i) = nth i d 0.
Proof. intros Hd Hi. symmetry. apply nth_lookup_Some. rewrite <- Hd at 1. by apply lookup_ld_bytes. Qed.

Lemma descriptor_at m src ds pre d post :
  ds = pre ++ d :: post → ld_bytes m src (length (concat ds)) = concat ds →
  ld_bytes m (src + Z.of_nat (length (concat pre))) (length d) = d.
Proof.
  intros -> H. rewrite concat_app in H. cbn [concat] in H.
  apply ld_bytes_prefix in H as [_ H]. by apply ld_bytes_prefix in H as [H _].
Qed.

Lemma snoc_lengths pre (d : list Z) :
  Z.of_nat (length (concat (pre ++ [d]))) = Z.of_nat (length (concat pre)) + Z.of_nat (length d) ∧
  length (endpoints_of (pre ++ [d])) = (length (endpoints_of pre) + if is_endpoint d then 1 else 0)%nat.
Proof.
  rewrite concat_app, endpoints_of_app, !length_app, endpoints_of_cons. cbn [concat]. rewrite app_nil_r.
  split; [lia|]. by destruct (is_endpoint d).
Qed.

Lemma copy_descriptor_run t a d e :
  ld_bytes (mem t) a (length d) = d → (7 <= length d)%nat → 0 < a → 0 < e → in_space a 7 → in_space e 7 →
  bl_memcpy e a 7 t = Some (e, set_mem (st_bytes (mem t) e (take 7 d)) t).
Proof.
  intros Hd Hl Ha He Hsa Hse. rewrite bl_memcpy_run by (done || lia). do 4 f_equal.
  rewrite <- Hd at 1. change (Z.to_nat 7) with 7%nat. replace (length d) with (7 + (length d - 7))%nat by lia.
  rewrite ld_bytes_app, take_app_le, take_ge; rewrite ?length_ld_bytes; (done || lia).
Qed.

(** The memory regions of the copy: the descriptors [total] bytes from [src],
    the [7 * n] bytes of the array [e], the pointer to it, the count. *)
Record copy_regions (src total e n interface slot : Z) : Prop := CopyRegions {
  cr_src : in_space src total; cr_array : in_space e (7 * n); cr_slot : in_space slot 4;
  cr_count : 0 <= interface + id_num_endpoints < 4294967296;
  cr_nonnull : 0 < src ∧ 0 < e;
  cr_src_array : disjoint e (7 * n) src total;
  cr_slot_array : disjoint e (7 * n) slot 4;
  cr_count_array : outside e (7 * n) (interface + id_num_endpoints);
}.

Lemma copy_endpoints_run ds n config_data off interface e slot s :
  let src := config_data + off in let total := Z.of_nat (length (concat ds)) in
  endpoint_list ds n → 0 <= n < 256 → 0 <= off → 0 <= config_data → copy_regions src total e n interface slot →
  ld_bytes (mem s) src (length (concat ds)) = concat ds →
  ld8 (mem s) (interface + id_num_endpoints) = n → ld 4 (mem s) slot = e →
  copy_endpoints config_data interface slot off s =
  Some (off + total, set_mem (st_bytes (mem s) e (copied ds)) s).
Proof.
  intros src total Hds Hn Hoff Hcd [Hsrc Harr Hslot Hcnt [Hnz1 Hnz2] Hd1 Hd2 Hd3] Hbytes Hcount Hptr.
  apply wp_exact. unfold copy_endpoints.
  wp_loop (λ '(j, off') t, ∃ pre post, ds = pre ++ post ∧ j = Z.of_nat (length (endpoints_of pre)) ∧
      off' = off + Z.of_nat (length (concat pre)) ∧ t = set_mem (st_bytes (mem s) e (copied pre)) s)
    (λ '(_, off') _, off + total - off').
  - intros [j off'] t (pre & post & Hsplit & -> & -> & ->).
    pose proof (length_copied_prefix _ _ _ _ Hds Hsplit) as Hlc.
    pose proof (endpoint_to_come _ _ _ _ Hds Hsplit) as Hcome.
    assert (Hin : in_space e (Z.of_nat (length (copied pre)))) by (unfold in_space in *; lia).
    wp_step. wp_step. rewrite mem_set_mem, ld8_st_bytes_out by (done || (unfold outside in *; lia)).
    rewrite Hcount. destruct Hcome as [[-> Hj]|[Hne Hj]].
    { destruct (Z.ltb_spec (Z.of_nat (length (endpoints_of pre))) n); [lia|]. rewrite app_nil_r in Hsplit.
      subst pre. wp_steps. done. }
    destruct post as [|d post]; [done|].
    destruct (Z.ltb_spec (Z.of_nat (length (endpoints_of pre))) n); [|lia].
    assert (Hd : descriptor_ok d ∧ (is_endpoint d = true → (7 <= length d)%nat)).
    { destruct Hds as (H1 & _ & H2 & _). rewrite Hsplit in H1, H2.
      by apply Forall_app in H1 as [_ [? _]%Forall_cons]; apply Forall_app in H2 as [_ [? _]%Forall_cons]. }
    destruct Hd as [(_ & Hdh & Hdl) H7].
    assert (Htot : total = Z.of_nat (length (concat pre)) + Z.of_nat (length d) + Z.of_nat (length (concat post))).
    { unfold total. rewrite Hsplit, concat_app, length_app. cbn [concat]. rewrite length_app. lia. }
    set (a := config_data + (off + Z.of_nat (length (concat pre)))).
    set (t := set_mem (st_bytes (mem s) e (copied pre)) s).
    assert (Hda : ld_bytes (mem t) a (length d) = d).
    { unfold t. rewrite mem_set_mem, ld_bytes_st_bytes_out;
        [|done|unfold in_space in *; lia|unfold disjoint in *; lia].
      replace a with (src + Z.of_nat (length (concat pre))) by lia. by eapply descriptor_at. }
    rewrite u32_small by (unfold in_space in *; lia). fold a.
    pose proof (nth_ld_bytes _ _ _ 1 Hda ltac:(lia)) as Ht. pose proof (nth_ld_bytes _ _ _ 0 Hda ltac:(lia)) as Hl0.
    change (Z.of_nat 1) with 1 in Ht. change (Z.of_nat 0) with 0 in Hl0.
    replace (nth 0 d 0) with (Z.of_nat (length d)) in Hl0 by (by rewrite <- Hdh; destruct d).
    destruct (snoc_lengths pre d) as [Hsn1 Hsn2].
    cbv zeta. wp_step. wp_step. unfold ds_type. rewrite Ht. fold (is_endpoint d). destruct (is_endpoint d) eqn:He.
    + specialize (H7 eq_refl). wp_step. wp_step. wp_step. unfold t at 1. rewrite mem_set_mem.
      rewrite ld_st_bytes_other, Hptr by (done || (unfold in_space, disjoint in *; lia)).
      unfold sizeof_endpoint_descriptor. rewrite u32_small by (unfold in_space in *; lia).
      wp_known (copy_descriptor_run t a d (e + Z.of_nat (length (endpoints_of pre)) * 7) Hda H7 ltac:(lia)
        ltac:(lia) ltac:(unfold in_space in *; lia) ltac:(unfold in_space in *; lia)).
      assert (Hcop : st_bytes (mem t) (e + Z.of_nat (length (endpoints_of pre)) * 7) (take 7 d) =
        st_bytes (mem s) e (copied (pre ++ [d]))).
      { unfold t. rewrite mem_set_mem, copied_app, st_bytes_app, copied_one, He. f_equal. lia. }
      assert (Hl : ld8 (st_bytes (mem s) e (copied (pre ++ [d]))) (a + 0) = Z.of_nat (length d)).
      { rewrite <- Hcop, <- Hl0. apply ld8_st_bytes_out; rewrite ?length_take; unfold in_space, outside, disjoint in *; lia. }
      wp_steps. rewrite Hcop, mem_set_mem. unfold ds_length. rewrite Hl. split; [|lia].
      exists (pre ++ [d]), post. rewrite <- app_assoc, Hsn1, Hsn2. split; [done|]. split; [lia|]. split; [lia|done].
    + wp_steps. unfold ds_length. rewrite Hl0. split; [|lia]. exists (pre ++ [d]), post.
      rewrite <- app_assoc, Hsn1, Hsn2, copied_app, copied_one, He, app_nil_r.
      split; [done|]. split; [lia|]. split; [lia|done].
  - exists [], ds. split; [done|]. cbn. split; [done|]. split; [lia|]. by rewrite set_mem_id.
  - unfold in_space in *. lia.
Qed.

(** ** Properties *)

(** C27: The queue of hubs refines a list.  From a heap with room for it,
    [bl_usb_traversal_init] makes a queue, and every sequence of pushes, pops
    and tests of emptiness on it gives the answers of a first-in first-out
    list (which takes the first 126 hubs that are ever pushed and drops the
    later ones), and changes no byte outside the queue. *)
Theorem usb_queue_refines s bs :
  heap_inv s bs → room s bs sizeof_traversal 1 →
  ∃ p s', bl_usb_traversal_init s = Some (p, s') ∧
    ∀ ops, Forall push_ok ops →
      ∃ m', queue_run p ops s' = Some ((queue_answers ops (0, [])).1, set_mem m' s') ∧
        (∀ a, 0 <= a < 4294967296 → outside p sizeof_traversal a → ld8 m' a = ld8 (mem s') a).
Proof.
  intros Hinv Hroom. destruct (traversal_init_run s bs Hinv Hroom) as (p & s' & Hrun & Hq). exists p, s'.
  split; [exact Hrun|]. intros ops Hops.
  destruct (queue_refines_run ops s' p 0 [] Hq Hops) as (m' & Hr & _ & Hf). by exists m'.
Qed.

Lemma usb_queue_refines_witness :
  ∃ p s', bl_usb_traversal_init heap_empty = Some (p, s') ∧
    ∀ ops, Forall push_ok ops →
      ∃ m', queue_run p ops s' = Some ((queue_answers ops (0, [])).1, set_mem m' s') ∧
        (∀ a, 0 <= a < 4294967296 → outside p sizeof_traversal a → ld8 m' a = ld8 (mem s') a).
Proof. apply (usb_queue_refines heap_empty []); [exact heap_empty_inv|by vm_compute]. Defined.

(** The endpoints of an interface: from the descriptors behind the
    interface's own, in which those of its endpoints are mixed with others,
    the driver copies exactly the endpoint descriptors, in their order, to the
    interface's array; it stops behind the last of them and changes no other
    byte. *)
Theorem usb_endpoints_copied ds n config_data off interface e slot s :
  let src := config_data + off in let total := Z.of_nat (length (concat ds)) in
  endpoint_list ds n → 0 <= n < 256 → 0 <= off → 0 <= config_data → copy_regions src total e n interface slot →
  ld_bytes (mem s) src (length (concat ds)) = concat ds →
  ld8 (mem s) (interface + id_num_endpoints) = n → ld 4 (mem s) slot = e →
  ∃ m', copy_endpoints config_data interface slot off s = Some (off + total, set_mem m' s) ∧
    ld_bytes m' e (Z.to_nat (7 * n)) = flat_map (take 7) (filter (λ d, is_endpoint d = true) ds) ∧
    (∀ a, 0 <= a < 4294967296 → outside e (7 * n) a → ld8 m' a = ld8 (mem s) a).
Proof.
  intros src total Hds Hn Hoff Hcd Hr Hb Hc He. eexists.
  split; [by apply (copy_endpoints_run ds n config_data off interface e slot s)|].
  pose proof Hds as (Hd & Hcount & H7 & _). pose proof (length_copied ds H7) as Hl. destruct Hr as [_ Hsp _ _ _ _ _ _].
  split.
  - fold (endpoints_of ds). fold (copied ds). replace (Z.to_nat (7 * n)) with (length (copied ds)) by lia. apply ld_bytes_st_bytes_in; [rewrite Hl, Hcount; done|].
    unfold bytes, copied. apply List.Forall_flat_map, Forall_forall. intros d [_ Hin]%list_elem_of_filter.
    rewrite Forall_forall in Hd. destruct (Hd d Hin) as (Hby & _). by apply Forall_take.
  - intros a Ha Ho. apply ld8_st_bytes_out; [rewrite Hl, Hcount; done|done|]. by rewrite Hl, Hcount.
Qed.

(** An interface with two endpoints, a HID descriptor before them and an extra
    byte in the second. *)
Definition wit_descriptors : list (list Z) :=
  [[9; 0x21; 0x11; 1; 0; 1; 0x22; 63; 0]; [7; 5; 0x81; 3; 8; 0; 10]; [8; 5; 2; 2; 64; 0; 0; 99]].
Definition wit_endpoints : machine :=
  set_mem (st 4 (st8 (st_bytes ∅ 0x1009 (concat wit_descriptors)) (0x1000 + id_num_endpoints) 2) 0x2000 0x3000)
    machine0.

Lemma usb_endpoints_copied_witness :
  ∃ m', copy_endpoints 0xff7 0x1000 0x2000 18 wit_endpoints = Some (18 + 24, set_mem m' wit_endpoints) ∧
    ld_bytes m' 0x3000 (Z.to_nat (7 * 2)) =
      flat_map (take 7) (filter (λ d, is_endpoint d = true) wit_descriptors) ∧
    (∀ a, 0 <= a < 4294967296 → outside 0x3000 (7 * 2) a → ld8 m' a = ld8 (mem wit_endpoints) a).
Proof.
  apply (usb_endpoints_copied wit_descriptors 2 0xff7 18 0x1000 0x3000 0x2000 wit_endpoints); try done.
  - split; [|split; [done|split]].
    + repeat constructor; done.
    + repeat constructor; cbn; lia.
    + right. by eexists.
  - constructor; unfold in_space, disjoint, outside, id_num_endpoints; cbn; lia.
Defined.
