(* ===== verification/UsbScsiProofs.v ===== *)
(** * Proofs about USB mass storage: what a device understands of a wrapped
    command, and what a read through the bulk-only transport stores *)
From S2P Require Import Prelude Memory Arith Status Strings StringsProofs Heap.
From S2P Require Import Regions Storage StorageProofs Ports Keyboard Usb UsbScsi.

(** ** What a device reads

    A wrapper has 31 bytes and holds a command of up to 16; the numbers of a
    command have their high bytes first. *)
Definition be_combine (l : list Z) : Z := le_combine (rev l).

Inductive command := Read10 (lba sectors : Z) | RequestSense (n : Z) | OtherCommand.
Record wrapper := Wrapper {
  w_tag : Z; w_length : Z; w_from_device : bool; w_lun : Z; w_command : command }.

Definition decode_command (l : list Z) : command :=
  if nth 0 l 0 =? 0x28 then Read10 (be_combine (take 4 (drop 2 l))) (be_combine (take 2 (drop 7 l)))
  else if nth 0 l 0 =? 0x03 then RequestSense (nth 4 l 0)
  else OtherCommand.

Definition decode_wrapper (l : list Z) : option wrapper :=
  let n := nth 14 l 0 in
  if (Z.of_nat (length l) =? 31) && (le_combine (take 4 l) =? 0x43425355) && (n <=? 16) then
    Some (Wrapper (le_combine (take 4 (drop 4 l))) (le_combine (take 4 (drop 8 l)))
            (Z.testbit (nth 12 l 0) 7) (nth 13 l 0) (decode_command (take (Z.to_nat n) (drop 15 l))))
  else None.

Lemma be_combine_swap32 v : be_combine (le_split 4 (bytes_swap32 (u32 v))) = u32 v.
Proof.
  assert (∀ l, bytes l → length l = 4%nat →
    be_combine (le_split 4 (bytes_swap32 (le_combine l))) = le_combine l) as H.
  { intros l Hb Hl. destruct l as [|a [|b [|c [|d [|]]]]]; try done. rewrite bytes_swap32_spec by done.
    unfold be_combine. pose proof (le_split_combine [d; c; b; a]) as E. cbn [length] in E. rewrite E; [done|].
    unfold bytes in *. rewrite !Forall_cons in *. tauto. }
  pose proof (le_combine_split 4 v) as E. change (256 ^ Z.of_nat 4) with 4294967296 in E.
  change (v mod 4294967296) with (u32 v) in E. rewrite <- E. apply H; [apply bytes_le_split|done].
Qed.

Lemma be_combine_swap16 v : be_combine (le_split 2 (bytes_swap16 (u16 v))) = u16 v.
Proof.
  assert (∀ l, bytes l → length l = 2%nat →
    be_combine (le_split 2 (bytes_swap16 (le_combine l))) = le_combine l) as H.
  { intros l Hb Hl. destruct l as [|a [|b [|]]]; try done. rewrite bytes_swap16_spec by done.
    unfold be_combine. pose proof (le_split_combine [b; a]) as E. cbn [length] in E. rewrite E; [done|].
    unfold bytes in *. rewrite !Forall_cons in *. tauto. }
  pose proof (le_combine_split 2 v) as E. change (256 ^ Z.of_nat 2) with 65536 in E.
  change (v mod 65536) with (u16 v) in E. rewrite <- E. apply H; [apply bytes_le_split|done].
Qed.

Lemma land_32 v : Z.land v 0xffffffff = u32 v.
Proof. change 0xffffffff with (Z.ones 32). by rewrite Z.land_ones. Qed.
Lemma land_16 v : Z.land v 0xffff = u16 v.
Proof. change 0xffff with (Z.ones 16). by rewrite Z.land_ones. Qed.

(** A wrapper in memory, field by field. *)
Definition wrapper_at (m : gmap Z Z) (p tag length : Z) (cmd : list Z) : Prop :=
  ld 4 m p = 0x43425355 ∧ ld 4 m (p + 4) = u32 tag ∧ ld 4 m (p + 8) = u32 length ∧
  ld8 m (p + 12) = 128 ∧ ld8 m (p + 13) = 0 ∧ ld8 m (p + 14) = Z.of_nat (List.length cmd) ∧
  ld_bytes m (p + 15) (List.length cmd) = cmd.

Lemma decode_wrapper_at m p tag len cmd :
  wrapper_at m p tag len cmd → (length cmd <= 16)%nat →
  decode_wrapper (ld_bytes m p 31) = Some (Wrapper (u32 tag) (u32 len) true 0 (decode_command cmd)).
Proof.
  intros (Hsig & Htag & Hlen & Hfl & Hlun & Hn & Hcmd) Hl. unfold decode_wrapper.
  rewrite !nth_of_ld_bytes by lia. rewrite length_ld_bytes.
  rewrite take_ld_bytes by lia.
  change (Z.of_nat 14) with 14. change (Z.of_nat 13) with 13. change (Z.of_nat 12) with 12.
  rewrite Hn, Hfl, Hlun, Nat2Z.id, !slice_ld_bytes by lia. 
  change (le_combine (ld_bytes m p 4)) with (ld 4 m p). change (Z.of_nat 4) with 4. change (Z.of_nat 8) with 8.
  change (le_combine (ld_bytes m (p + 4) 4)) with (ld 4 m (p + 4)).
  change (le_combine (ld_bytes m (p + 8) 4)) with (ld 4 m (p + 8)). change (Z.of_nat 15) with 15.
  rewrite Hsig, Htag, Hlen, Hcmd. destruct (Z.leb_spec (Z.of_nat (length cmd)) 16); [done|lia].
Qed.

(** ** The driver's side *)
Section Driver.
Context (sf : scsi_frame).

Lemma init_cbw_run s cmd n len :
  s_cbw sf ≠ 0 → in_space (s_cbw sf) 31 → in_space (s_tag sf) 4 → apart (s_cbw sf, 31) (s_tag sf, 4) →
  cmd ≠ 0 → in_space cmd n → 0 <= n <= 16 → apart (s_cbw sf, 31) (cmd, n) → apart (s_tag sf, 4) (cmd, n) →
  ∃ m', bl_usb_scsi_bbb_init_cbw sf (s_cbw sf) 0 0 cmd n len s = Some ((), set_mem m' s) ∧
    wrapper_at m' (s_cbw sf) (ld 4 (mem s) (s_tag sf) + 1) len (ld_bytes (mem s) cmd (Z.to_nat n)) ∧
    keeps [(s_cbw sf, 31); (s_tag sf, 4)] (mem s) m'.
Proof.
  intros Hnz Hc Ht Hct Hcnz Hcmd Hn Hcc Htc. set (p := s_cbw sf) in *.
  assert (Hw : wp (bl_usb_scsi_bbb_init_cbw sf p 0 0 cmd n len) (λ _ t, ∃ m', t = set_mem m' s ∧
    wrapper_at m' p (ld 4 (mem s) (s_tag sf) + 1) len (ld_bytes (mem s) cmd (Z.to_nat n)) ∧
    keeps [(p, 31); (s_tag sf, 4)] (mem s) m') s).
  { unfold bl_usb_scsi_bbb_init_cbw, sizeof_cbw, cbw_signature, cbw_tag, cbw_data_transfer_length,
      cbw_flags, cbw_lun, cbw_cb_length, cbw_cmd.
    wp_known (bl_memset_run s p 0 31 Hnz Hc ltac:(lia)). change (Z.to_nat (31 - 1)) with 30%nat.
    wp_steps. rewrite ?mem_set_mem, ?set_mem_set_mem, Z.add_0_r, ld8_st8_eq, u8_small by lia.
    assert (ld 4 (st 4 (st_bytes (mem s) p (replicate 30 0)) p BL_USB_BBB_CBW_SIGNATURE) (s_tag sf) =
      ld 4 (mem s) (s_tag sf)) as -> by (by past_writes).
    change (if truth 0 then 0 else 1 ≪ 7) with 128.
    match goal with |- wp _ _ (set_mem ?m s) => set (m1 := m) end.
    assert (Hk : keeps [(p, 31); (s_tag sf, 4)] (mem s) m1).
    { intros a Ha [Ho1 [Ho2 _]%Forall_cons]%Forall_cons. unfold m1. by past_writes. }
    assert (Hm1 : ld_bytes m1 cmd (Z.to_nat n) = ld_bytes (mem s) cmd (Z.to_nat n)).
    { eapply keeps_ld_bytes; [exact Hk| |]; rewrite Z2Nat.id by lia; [done|by rewrite !Forall_cons]. }
    pose proof (bl_memcpy_run (set_mem m1 s) (p + 15) cmd n ltac:(field_side) Hcnz ltac:(field_side) Hcmd
      ltac:(lia)) as Hcpy.
    unfold wp at 1. rewrite Hcpy, mem_set_mem, set_mem_set_mem, Hm1. wp_steps. eexists. split; [done|].
    set (l := ld_bytes (mem s) cmd (Z.to_nat n)).
    assert (Hl : length l = Z.to_nat n) by apply length_ld_bytes. split.
    - unfold wrapper_at. rewrite Hl, Z2Nat.id by lia.
      assert (ld_bytes (st_bytes m1 (p + 15) l) (p + 15) (Z.to_nat n) = l) as ->.
      { rewrite <- Hl. apply ld_bytes_st_bytes_in; [field_side|]. unfold l. auto with memory. }
      rewrite !ld_st_bytes_other, !ld8_st_bytes_out by (rewrite ?Hl; field_side).
      unfold m1. rewrite !st8_bytes. 
      split_and!; past_writes; rewrite ?ld_st_same, ?ld8_one_byte by field_side;
        (done || by apply u8_small; lia).
    - intros a Ha Ho. rewrite ld8_st_bytes_out; [by apply Hk|..]; apply Forall_cons in Ho as [Ho1 _];
        rewrite ?Hl; field_side. }
  apply wp_run in Hw as (x & t & Hrun & m' & -> & Hat & Hk). exists m'. by destruct x.
Qed.

Lemma read10_command_run s lba sectors :
  s_read10 sf ≠ 0 → in_space (s_read10 sf) 10 →
  ∃ m', read10_command sf lba sectors s = Some ((), set_mem m' s) ∧
    decode_command (ld_bytes m' (s_read10 sf) 10) = Read10 (u32 lba) (u16 sectors) ∧
    keeps [(s_read10 sf, 10)] (mem s) m'.
Proof.
  intros Hnz Hs. set (p := s_read10 sf) in *. unfold read10_command, sizeof_read10. fold p.
  run_with (bl_memset_run s p 0 10 Hnz Hs ltac:(lia)). change (Z.to_nat (10 - 1)) with 9%nat.
  unfold sc_opcode, r10_lba, r10_transfer_length, BL_SCSI_COMMAND_READ10. rewrite land_32, land_16, Z.add_0_r.
  eexists. split; [done|]. split.
  - unfold decode_command, with_mem. rewrite ?mem_set_mem, nth_of_ld_bytes, !slice_ld_bytes by lia.
    change (Z.of_nat 0) with 0. change (Z.of_nat 2) with 2. change (Z.of_nat 7) with 7. rewrite Z.add_0_r.
    past_writes. rewrite ld8_one_byte. change (u8 40 =? 0x28) with true. cbv iota.
    rewrite !ld_bytes_st_same by field_side. by rewrite be_combine_swap32, be_combine_swap16.
  - intros a Ha [Ho _]%Forall_cons. unfold with_mem. rewrite ?mem_set_mem. by past_writes.
Qed.

Lemma sense_command_run s :
  s_sense sf ≠ 0 → in_space (s_sense sf) 6 →
  ∃ m', sense_command sf s = Some ((), set_mem m' s) ∧
    decode_command (ld_bytes m' (s_sense sf) 6) = RequestSense 18 ∧
    keeps [(s_sense sf, 6)] (mem s) m'.
Proof.
  intros Hnz Hs. set (p := s_sense sf) in *. unfold sense_command, sizeof_request_sense. fold p.
  run_with (bl_memset_run s p 0 6 Hnz Hs ltac:(lia)). change (Z.to_nat (6 - 1)) with 5%nat.
  unfold sc_opcode, sc_lun, sc_allocation_length. rewrite Z.add_0_r.
  eexists. split; [done|]. split.
  - unfold decode_command, with_mem. rewrite ?mem_set_mem, !nth_of_ld_bytes by lia.
    change (Z.of_nat 0) with 0. change (Z.of_nat 4) with 4. rewrite Z.add_0_r.
    past_writes. by rewrite !ld8_one_byte.
  - intros a Ha [Ho _]%Forall_cons. unfold with_mem. rewrite ?mem_set_mem. by past_writes.
Qed.
End Driver.

(** ** What a host controller with a disk behind it promises

    The disk takes a wrapper, then gives the data, then a status of 13 bytes.
    A driver may change its own memory, [priv], at every transfer. *)
Inductive phase := Ready | DataIn (l : list Z) | StatusIn.

Definition answers (image : Z → Z) (sector_size sectors : Z) (w : wrapper) (ph : phase) : Prop :=
  match w_command w with
  | Read10 lba n =>
      lba + n <= sectors → w_length w = n * sector_size → w_from_device w = true →
      ph = DataIn (slice image (lba * sector_size) (n * sector_size))
  | RequestSense n => 0 <= n → ∃ l, ph = DataIn l ∧ Z.of_nat (length l) = n ∧ bytes l
  | OtherCommand => True
  end.

Class ScsiDisk {Dev : Type} (funcs : bl_usb_host_controller_functions Dev)
    (hc address speed out in_ : Z) (image : Z → Z) (sector_size sectors : Z)
    (priv : list (Z * Z)) (at_phase : Dev → phase) : Prop := ScsiDiskLaws {
  scsi_command data m d w :
    at_phase d = Ready → decode_wrapper (ld_bytes (mem m) data 31) = Some w →
    ∃ m' d', bulk_transfer funcs hc address out speed 1 data 31 (m, d) = Some ((), (set_mem m' m, d')) ∧
      keeps priv (mem m) m' ∧ answers image sector_size sectors w (at_phase d');
  scsi_data data m d l :
    at_phase d = DataIn l →
    ∃ m' d', bulk_transfer funcs hc address in_ speed 0 data (Z.of_nat (length l)) (m, d) =
        Some ((), (set_mem m' m, d')) ∧
      keeps priv (st_bytes (mem m) data l) m' ∧ at_phase d' = StatusIn;
  scsi_status data m d :
    at_phase d = StatusIn →
    ∃ m' d' l, bulk_transfer funcs hc address in_ speed 0 data 13 (m, d) = Some ((), (set_mem m' m, d')) ∧
      length l = 13%nat ∧ keeps priv (st_bytes (mem m) data l) m' ∧ at_phase d' = Ready;
}.

Section Disk.
Context {Dev : Type} (funcs_at : Z → option (bl_usb_host_controller_functions Dev)) (sf : scsi_frame).
Context (funcs : bl_usb_host_controller_functions Dev) (hc address speed device : Z).
Context (image : Z → Z) (sector_size sectors : Z) (priv : list (Z * Z)) (at_phase : Dev → phase).
Context `{!ScsiDisk funcs hc address speed (device + ud_out_endp) (device + ud_in_endp)
  image sector_size sectors priv at_phase}.

(** The locals of the driver, and the fields that lead to the controller. *)
Definition stack : list (Z * Z) :=
  [(s_cbw sf, 31); (s_tag sf, 4); (s_read10 sf, 10); (s_sense sf, 6); (s_csw sf, 13); (s_sense_data sf, 18)].
Definition link : list (Z * Z) :=
  [(device + ud_address, 4); (device + ud_speed, 4); (device + ud_controller, 4); (hc + hc_funcs, 4)].

Definition linked (m : gmap Z Z) : Prop :=
  ld 4 m (device + ud_address) = address ∧ ld 4 m (device + ud_speed) = speed ∧
  ld 4 m (device + ud_controller) = hc ∧ funcs_at (ld 4 m (hc + hc_funcs)) = Some funcs.

Lemma keeps_linked rs m m' :
  keeps rs m m' → Forall good_region link → each_apart rs link → linked m → linked m'.
Proof.
  intros Hk Hg Ha (H1 & H2 & H3 & H4).
  assert (∀ a, (a, 4) ∈ link → ld 4 m' a = ld 4 m a) as E.
  { intros a Hin. rewrite Forall_forall in Hg. destruct (Hg _ Hin) as [_ Hs]. apply (keeps_ld rs); [done..|].
    eapply Forall_impl; [exact Ha|]. intros r Hr. rewrite Forall_forall in Hr. by apply Hr. }
  unfold linked. rewrite !E by (unfold link; set_solver). done.
Qed.

Lemma bulk_run m d direction data n r :
  linked (mem m) →
  bulk_transfer funcs hc address (if truth direction then device + ud_out_endp else device + ud_in_endp)
    speed direction data n (m, d) = r →
  bl_usb_bulk_transfer funcs_at device direction data n (m, d) = r.
Proof.
  intros (H1 & H2 & H3 & H4) Hr. unfold bl_usb_bulk_transfer, hc_functions.
  unfold rd32, gets, on_machine, mbind, ST_bind, mret, ST_ret. cbn [fst snd].
  rewrite H3, H4. cbn [fst snd]. rewrite H1, H2. exact Hr.
Qed.

Context (Hgood : Forall good_region (stack ++ link)) (Hsep : separate stack).
Context (Hlink : each_apart (stack ++ priv) link).

Lemma good_stack i r : stack !! i = Some r → good_region r.
Proof.
  intros H. rewrite Forall_forall in Hgood. apply Hgood, elem_of_app. left. by eapply list_elem_of_lookup_2.
Qed.
Lemma good_link : Forall good_region link.
Proof. by apply Forall_app in Hgood as [_ ?]. Qed.

Ltac part_of := unfold stack; sublist.

Lemma execute_run m d cmd n buf len (P : list Z → Prop) :
  at_phase d = Ready → linked (mem m) →
  good_region (cmd, n) → 0 <= n <= 16 → apart (s_cbw sf, 31) (cmd, n) → apart (s_tag sf, 4) (cmd, n) →
  good_region (buf, len) → each_apart [(buf, len)] link → each_apart [(buf, len)] ((s_csw sf, 13) :: priv) →
  (∀ tag ph, answers image sector_size sectors
      (Wrapper tag (u32 len) true 0 (decode_command (ld_bytes (mem m) cmd (Z.to_nat n)))) ph →
    ∃ l, ph = DataIn l ∧ Z.of_nat (length l) = len ∧ bytes l ∧ P l) →
  ∃ m' d', bl_usb_scsi_bbb_execute_command funcs_at sf device 0 cmd n buf len (m, d) =
      Some (BL_STATUS_SUCCESS, (set_mem m' m, d')) ∧
    at_phase d' = Ready ∧ keeps ((buf, len) :: stack ++ priv) (mem m) m' ∧
    P (ld_bytes m' buf (Z.to_nat len)).
Proof.
  intros Hph Hl [Hcnz Hcs] Hn Hcc Htc [Hbnz Hbs] Hbl Hbp Hans. cbn [fst snd] in *.
  pose proof (good_stack 0 _ eq_refl) as [Hwnz Hws]. pose proof (good_stack 1 _ eq_refl) as [_ Hts].
  pose proof (good_stack 4 _ eq_refl) as [_ Hsts].
  pose proof (separate_apart _ 0 1 _ _ Hsep ltac:(lia) eq_refl eq_refl) as Hwt.
  destruct (init_cbw_run sf m cmd n len Hwnz Hws Hts Hwt Hcnz Hcs Hn Hcc Htc) as (m1 & Hrun & Hat & Hk1).
  unfold bl_usb_scsi_bbb_execute_command. rewrite u8_small by lia.
  run_with (on_machine_run _ _ _ _ d Hrun).
  assert (Hk1' : keeps ((buf, len) :: stack ++ priv) (mem m) m1).
  { eapply keeps_weaken; [exact Hk1|]. part_of. }
  assert (Hall : each_apart ((buf, len) :: stack ++ priv) link).
  { by apply Forall_cons; split; [apply Forall_cons in Hbl as [? _]|]. }
  apply decode_wrapper_at in Hat; [|rewrite length_ld_bytes; lia].
  destruct (scsi_command (s_cbw sf) (set_mem m1 m) d _ Hph Hat) as (m2 & d2 & Hr2 & Hk2 & Ha2).
  apply Hans in Ha2 as (l & Hph2 & Hlen & Hby & HP). rewrite set_mem_set_mem in Hr2.
  pose proof (keeps_linked _ _ _ Hk1' good_link Hall Hl) as Hl1.
  run_with (bulk_run (set_mem m1 m) d 1 (s_cbw sf) sizeof_cbw _ Hl1 Hr2).
  assert (Hk2' : keeps ((buf, len) :: stack ++ priv) m1 m2) by (eapply keeps_weaken; [exact Hk2|part_of]).
  pose proof (keeps_linked _ _ _ Hk2' good_link Hall Hl1) as Hl2.
  destruct (scsi_data buf (set_mem m2 m) d2 l Hph2) as (m3 & d3 & Hr3 & Hk3 & Hph3).
  rewrite set_mem_set_mem, mem_set_mem, Hlen in *.
  run_with (bulk_run (set_mem m2 m) d2 0 buf len _ Hl2 Hr3).
  assert (Hk3' : keeps ((buf, len) :: stack ++ priv) m2 m3).
  { eapply keeps_trans; [|eapply keeps_weaken; [exact Hk3|part_of]].
    eapply keeps_weaken; [apply keeps_st_bytes; by rewrite Hlen|]. rewrite Hlen. part_of. }
  pose proof (keeps_linked _ _ _ Hk3' good_link Hall Hl2) as Hl3.
  destruct (scsi_status (s_csw sf) (set_mem m3 m) d3 Hph3) as (m4 & d4 & l4 & Hr4 & Hlen4 & Hk4 & Hph4).
  rewrite set_mem_set_mem, mem_set_mem in *.
  run_with (bulk_run (set_mem m3 m) d3 0 (s_csw sf) sizeof_csw _ Hl3 Hr4).
  assert (Hk4' : keeps ((s_csw sf, 13) :: priv) m3 m4).
  { eapply keeps_trans; [|eapply keeps_weaken; [exact Hk4|part_of]].
    eapply keeps_weaken; [apply keeps_st_bytes; by rewrite Hlen4|]. rewrite Hlen4. part_of. }
  exists m4, d4. split; [done|]. split; [done|]. split.
  - eapply keeps_trans; [exact Hk1'|]. eapply keeps_trans; [exact Hk2'|]. eapply keeps_trans; [exact Hk3'|].
    eapply keeps_weaken; [exact Hk4'|]. part_of.
  - assert (ld_bytes m4 buf (Z.to_nat len) = l) as ->; [|done].
    replace (Z.to_nat len) with (length l) by lia. apply Forall_cons in Hbp as [Hbp _].
    assert (∀ rs, rs ⊆ (s_csw sf, 13) :: priv → Forall (λ r, apart r (buf, Z.of_nat (length l))) rs) as Hap.
    { intros rs Hsub. rewrite Forall_forall. intros r Hr. apply apart_sym. rewrite Hlen.
      rewrite Forall_forall in Hbp. by apply Hbp, Hsub. }
    rewrite (keeps_ld_bytes _ _ _ _ _ Hk4'), (keeps_ld_bytes _ _ _ _ _ Hk3); rewrite ?Hlen; try done;
      try (rewrite <- Hlen; apply Hap; part_of).
    by apply ld_bytes_st_bytes_in; [rewrite Hlen|].
Qed.

Context (Hpriv : each_apart stack priv).

Lemma stack_elem i r : stack !! i = Some r → r ∈ stack.
Proof. apply list_elem_of_lookup_2. Qed.

Lemma sense_run m d :
  at_phase d = Ready → linked (mem m) →
  ∃ m' d', bl_usb_scsi_sense_data funcs_at sf device (m, d) = Some (BL_STATUS_SUCCESS, (set_mem m' m, d')) ∧
    at_phase d' = Ready ∧ keeps (stack ++ priv) (mem m) m'.
Proof.
  intros Hph Hl. destruct (good_stack 3 _ eq_refl) as [Hsnz Hss].
  destruct (sense_command_run sf m Hsnz Hss) as (m1 & Hrun & Hdec & Hk1).
  assert (Hk1' : keeps (stack ++ priv) (mem m) m1) by (eapply keeps_weaken; [exact Hk1|part_of]).
  unfold bl_usb_scsi_sense_data. run_with (on_machine_run _ _ _ _ d Hrun).
  assert (Hbl : each_apart [(s_sense_data sf, 18)] link).
  { constructor; [|done]. rewrite Forall_forall. intros q. apply (apart_each _ _ _ _ Hlink), elem_of_app.
    left. by apply (stack_elem 5). }
  destruct (execute_run (set_mem m1 m) d (s_sense sf) sizeof_request_sense (s_sense_data sf)
    sizeof_request_sense_data (λ _, True)) as (m2 & d2 & Hr & Hph2 & Hk2 & _); try done.
  - by eapply keeps_linked; [exact Hk1'|apply good_link|exact Hlink|].
  - apply (separate_apart _ 0 3 _ _ Hsep); [lia|done..].
  - apply (separate_apart _ 1 3 _ _ Hsep); [lia|done..].
  - by apply (good_stack 5).
  - constructor; [|done]. constructor; [apply apart_sym; apply (separate_apart _ 4 5 _ _ Hsep); [lia|done..]|].
    rewrite Forall_forall. intros q. by apply (apart_each _ _ _ _ Hpriv), (stack_elem 5).
  - intros tag ph.
    change (ld_bytes _ _ _) with (ld_bytes m1 (s_sense sf) 6). rewrite Hdec. cbn.
    intros (l & -> & Hlen & Hb); [done|]. by exists l.
  - rewrite set_mem_set_mem in Hr. exists m2, d2. split; [exact Hr|]. split; [done|].
    eapply keeps_trans; [exact Hk1'|]. eapply keeps_weaken; [exact Hk2|part_of].
Qed.

Lemma scsi_read_run i m d buf lba n :
  at_phase d = Ready → linked (mem m) → Storage.sector_size i = sector_size → 0 <= sector_size →
  0 <= n < 65536 → u32 lba + n <= sectors →
  good_region (buf, n * sector_size) → each_apart [(buf, n * sector_size)] (link ++ stack ++ priv) →
  ∃ m' d', bl_usb_scsi_read funcs_at sf i device buf lba n (m, d) =
      Some (BL_STATUS_SUCCESS, (set_mem m' m, d')) ∧
    at_phase d' = Ready ∧ keeps ((buf, n * sector_size) :: stack ++ priv) (mem m) m' ∧
    ld_bytes m' buf (Z.to_nat (n * sector_size)) = slice image (u32 lba * sector_size) (n * sector_size).
Proof.
  intros Hph Hl Hi Hss Hn Hs Hbuf Hap. destruct (good_stack 2 _ eq_refl) as [Hrnz Hrs].
  destruct (read10_command_run sf m lba n Hrnz Hrs) as (m1 & Hrun & Hdec & Hk1).
  rewrite u16_small in Hdec by lia.
  assert (Hk1' : keeps (stack ++ priv) (mem m) m1) by (eapply keeps_weaken; [exact Hk1|part_of]).
  assert (Hlen : 0 <= n * sector_size < 4294967296) by (destruct Hbuf; field_side).
  unfold bl_usb_scsi_read, bl_usb_scsi_read10. rewrite Hi, u32_small by done.
  apply Forall_cons in Hap as [Hap _]. rewrite !Forall_app in Hap. destruct Hap as (Hbl & Hbs & Hbp).
  assert (Hbst : ∀ j r, stack !! j = Some r → apart (buf, n * sector_size) r).
  { intros j r Hj. rewrite Forall_forall in Hbs. by eapply Hbs, stack_elem. }
  pose proof (keeps_linked _ _ _ Hk1' good_link Hlink Hl) as Hl1.
  destruct (execute_run (set_mem m1 m) d (s_read10 sf) sizeof_read10 buf (n * sector_size)
    (λ l, l = slice image (u32 lba * sector_size) (n * sector_size))) as (m2 & d2 & Hr & Hph2 & Hk2 & Hdata);
    try done.
  - apply (separate_apart _ 0 2 _ _ Hsep); [lia|done..].
  - apply (separate_apart _ 1 2 _ _ Hsep); [lia|done..].
  - by constructor.
  - constructor; [|done]. constructor; [by apply (Hbst 4%nat)|done].
  - intros tag ph. change (ld_bytes _ _ _) with (ld_bytes m1 (s_read10 sf) 10). rewrite Hdec. cbn.
    intros Hans. rewrite (u32_small (n * sector_size)) in Hans by done.
    specialize (Hans Hs eq_refl eq_refl). eexists. split; [exact Hans|].
    rewrite length_slice by lia. split; [done|]. split; [apply bytes_slice|done].
  - destruct (sense_run (set_mem m2 m) d2) as (m3 & d3 & Hr3 & Hph3 & Hk3); [done| |].
    { eapply keeps_linked; [exact Hk2|apply good_link| |exact Hl1]. by constructor. }
    rewrite set_mem_set_mem, mem_set_mem in *. exists m3, d3. split; [|split; [done|split]].
    + assert (Hc : command_and_sense funcs_at sf device (s_read10 sf) sizeof_read10 buf (n * sector_size)
        (set_mem m1 m, d) = Some (BL_STATUS_SUCCESS, (set_mem m3 m, d3))).
      { unfold command_and_sense. run_with Hr. rewrite failed_success. by run_with Hr3. }
      unfold mbind, ST_bind. by rewrite (on_machine_run _ _ _ _ d Hrun), Hc.
    + eapply keeps_trans; [eapply keeps_weaken; [exact Hk1'|part_of]|].
      eapply keeps_trans; [exact Hk2|]. eapply keeps_weaken; [exact Hk3|part_of].
    + rewrite <- Hdata. eapply keeps_ld_bytes; [exact Hk3| |]; rewrite Z2Nat.id by lia; [by destruct Hbuf|].
      apply Forall_app. rewrite !Forall_forall. rewrite !Forall_forall in Hbs, Hbp.
      split; intros r Hr'; apply apart_sym; auto.
Qed.
End Disk.

(** Where the locals, the device and the driver's memory lie. *)
Definition scsi_layout (sf : scsi_frame) (hc device : Z) (priv : list (Z * Z)) : Prop :=
  Forall good_region (stack sf ++ link hc device) ∧ separate (stack sf) ∧
  each_apart (stack sf ++ priv) (link hc device) ∧ each_apart (stack sf) priv.

(** ** A disk that answers at once *)
Definition reply (image : Z → Z) (sector_size : Z) (w : wrapper) : phase :=
  match w_command w with
  | Read10 lba n => DataIn (slice image (lba * sector_size) (n * sector_size))
  | RequestSense n => DataIn (replicate (Z.to_nat n) 0)
  | OtherCommand => Ready
  end.

Definition plain_transfer (image : Z → Z) (sector_size direction data : Z) : D phase () := λ '(m, d),
  if direction =? 1 then
    match decode_wrapper (ld_bytes (mem m) data 31) with
    | Some w => Some ((), (m, reply image sector_size w))
    | None => Some ((), (m, d))
    end
  else
    match d with
    | DataIn l => Some ((), (set_mem (st_bytes (mem m) data l) m, StatusIn))
    | StatusIn => Some ((), (set_mem (st_bytes (mem m) data (replicate 13 0)) m, Ready))
    | Ready => Some ((), (m, d))
    end.

Definition plain_funcs (image : Z → Z) (sector_size : Z) : bl_usb_host_controller_functions phase :=
  HcFunctions phase (λ _ _, mret 1) (λ _ _, mret BL_USB_HIGH_SPEED) (λ _ _, mret ()) (λ _ _ _, mret 0)
    (λ _ _ _ _ _ _ _, mret BL_STATUS_SUCCESS)
    (λ _ _ _ _ direction data _, plain_transfer image sector_size direction data) None None.

#[export] Instance plain_disk image sector_size sectors hc address speed out in_ :
  ScsiDisk (plain_funcs image sector_size) hc address speed out in_ image sector_size sectors [] id.
Proof.
  constructor; unfold id; cbn.
  - intros data m d w -> Hw. exists (mem m), (reply image sector_size w). rewrite Hw, set_mem_id.
    split; [done|]. split; [done|]. unfold answers, reply. destruct (w_command w); [done| |done].
    intros Hn. exists (replicate (Z.to_nat n) 0). rewrite length_replicate. split; [done|]. split; [lia|].
    by apply Forall_replicate.
  - intros data m d l ->. by eexists _, _.
  - intros data m d ->. by eexists _, _, (replicate 13 0).
Qed.

(** ** Properties *)


Definition wit_scsi_frame : scsi_frame :=
  ScsiFrame 0x1000 0x1400 0x1300 0x1500 0x1200 0x1600 0x1700 0x1800 0x1900 0x1a00 0x1b00 0x1c00 0x1100.
Definition wit_scsi_image (a : Z) : Z := a mod 251.
Definition wit_scsi_machine : machine :=
  set_mem (st 4 (st 4 ∅ (0x2000 + ud_controller) 0x3000) (0x3000 + hc_funcs) 0x9000) machine0.
Definition wit_scsi_funcs (p : Z) : option (bl_usb_host_controller_functions phase) :=
  if p =? 0x9000 then Some (plain_funcs wit_scsi_image 512) else None.

