(* ===== verification/HostController.v ===== *)
(** * Tables that a driver shares with a controller

    What the host controller drivers have in common: words that are changed in
    place, arrays of entries with a word that says whether an entry is in use,
    and the facts about them. *)
From S2P Require Import Prelude Memory Regions Arith Strings.

(** The host controller structure of usb.h and the PCI class of serial buses. *)
Definition sizeof_host_controller : Z := 48.
Definition hc_data : Z := 40.
Definition BL_PCI_BASE_CLASS_SERIAL : Z := 0x0c.

(** [bl_usb_transfer_t] and a packet identifier of usb.h, as far as they are used. *)
Definition BL_USB_TRANSFER_CONTROL : Z := 0.
Definition BL_USB_TRANSFER_BULK : Z := 1.
Definition BL_USB_PID_TOKEN_SETUP : Z := 0xd.

(** [*a |= bits] and [*a &= mask]. *)
Definition or32 (a bits : Z) : M () := v ← rd32 a; wr32 a (Z.lor v bits).
Definition and32 (a mask : Z) : M () := v ← rd32 a; wr32 a (Z.land v mask).

(** The first entry of an array that is not in use. *)
Definition alloc_entry (array size count used : Z) : M Z :=
  mwhile (λ i,
    if i <? count then
      let entry := u32 (array + i * size) in
      u ← rd32 (entry + used);
      if truth u then continue (i + 1)
      else wr32 (entry + used) 1;; break entry
    else break NULL) 0.

(** The fields of a word that are put together with [|]. *)
Lemma lor_field lo hi k : 0 <= k → 0 <= lo < 2 ^ k → Z.lor lo (Z.shiftl hi k) = lo + 2 ^ k * hi.
Proof. intros. rewrite Z.lor_comm, lor_shiftl_add by done. lia. Qed.

Lemma lor_mod_pow2 x y k : 0 <= k → Z.lor x y mod 2 ^ k = Z.lor (x mod 2 ^ k) (y mod 2 ^ k).
Proof.
  intros Hk. apply Z.bits_inj'. intros n Hn. destruct (decide (n < k)).
  - by rewrite Z.lor_spec, !Z.mod_pow2_bits_low, Z.lor_spec by done.
  - by rewrite Z.lor_spec, !Z.mod_pow2_bits_high by lia.
Qed.

Lemma or32_run a b s : or32 a b s = Some ((), set_mem (st 4 (mem s) a (Z.lor (ld 4 (mem s) a) b)) s).
Proof. done. Qed.

Lemma ld4_st4_u32 m a v : in_space a 4 → ld 4 (st 4 m a v) a = u32 v.
Proof. apply (ld_st_same 4). Qed.
Lemma u32_lor x y : u32 (Z.lor x y) = Z.lor (u32 x) (u32 y).
Proof. by apply (lor_mod_pow2 x y 32). Qed.
(** Words whose parts went through 32 bits on the way. *)
Lemma u32_parts x y v : 0 <= v < 4294967296 → y = v → u32 x = u32 y → u32 x = v.
Proof. intros Hv -> ->. by apply u32_small. Qed.
Lemma st8_st_bytes_comm m a v b l :
  in_space b (Z.of_nat (length l)) → 0 <= a < 4294967296 → outside b (Z.of_nat (length l)) a →
  st8 (st_bytes m b l) a v = st_bytes (st8 m a v) b l.
Proof.
  unfold in_space, outside. revert m b. induction l as [|c l IH]; intros m b Hb Ha Ho; [done|].
  cbn [st_bytes length] in *. rewrite IH by lia. f_equal. unfold st8. apply insert_insert_ne.
  rewrite !u32_small by lia. lia.
Qed.
Lemma st_bytes_again m a l l' :
  in_space a (Z.of_nat (length l)) → length l' = length l → st_bytes (st_bytes m a l) a l' = st_bytes m a l'.
Proof.
  unfold in_space. revert m a l'. induction l as [|c l IH]; intros m a l' Ha Hl; [by destruct l'|].
  destruct l' as [|c' l']; [done|]. cbn [st_bytes length] in *.
  rewrite st8_st_bytes_comm by (unfold in_space, outside; lia). rewrite IH by lia.
  f_equal. unfold st8. apply insert_insert_eq.
Qed.
(** [|=] on a word that was just written. *)
Lemma or32_over a b m v s :
  in_space a 4 → or32 a b (set_mem (st 4 m a v) s) = Some ((), set_mem (st 4 m a (Z.lor (u32 v) b)) s).
Proof.
  intros Ha. unfold or32, rd32, wr32, gets, modify, with_mem, mbind, ST_bind. cbv beta iota.
  rewrite ?mem_set_mem, ?set_mem_set_mem, ld4_st4_u32 by done. do 3 f_equal. unfold st.
  apply st_bytes_again; by rewrite !length_le_split.
Qed.
Lemma or32_bind {B} a b m v s (k : () → M B) :
  in_space a 4 →
  (or32 a b ≫= k) (set_mem (st 4 m a v) s) = k () (set_mem (st 4 m a (Z.lor (u32 v) b)) s).
Proof. intros. by rewrite (bind_run _ _ _ _ _ (or32_over a b m v s ltac:(done))). Qed.
Lemma ret_bind {B} s (k : () → M B) : (mret () ≫= k) s = k () s.
Proof. done. Qed.
Lemma wr32_bind {B} a v s (k : () → M B) : (wr32 a v ≫= k) s = k () (set_mem (st 4 (mem s) a v) s).
Proof. done. Qed.
Lemma keeps_st4 rs m m' a v : keeps rs m m' → in_space a 4 → (∃ r, r ∈ rs ∧ r.1 <= a ∧ a + 4 <= r.1 + r.2) →
  keeps rs m (st 4 m' a v).
Proof.
  intros Hk Ha (r & Hr & H1 & H2) b Hb Ho. rewrite ld8_st_other; [by apply Hk|done..|].
  rewrite Forall_forall in Ho. specialize (Ho r Hr). unfold outside in *. lia.
Qed.

(** ** The first entry that is not in use *)
Definition free_entries (m : gmap Z Z) (array size count used : Z) : list Z :=
  filter (λ i, ld 4 m (array + i * size + used) = 0) (seqZ 0 count).

Lemma free_entries_range m array size count used i :
  i ∈ free_entries m array size count used → 0 <= i < count ∧ ld 4 m (array + i * size + used) = 0.
Proof. intros [H1 H2]%list_elem_of_filter. apply elem_of_seqZ in H2. split; [lia|done]. Qed.

(** An array of entries with a word [used] in each. *)
Record entries (array size count used : Z) : Prop := Entries {
  en_space : in_space array (size * count);
  en_used : 0 <= used ∧ used + 4 <= size;
  en_count : 0 <= count;
  en_nonnull : 0 < array;
}.

Lemma entry_space array size count used i :
  entries array size count used → 0 <= i < count →
  array <= array + i * size ∧ array + i * size + size <= array + size * count ∧
  0 < array + i * size <= 4294967296 - size.
Proof. intros [[H1 [H2 H3]] Hu Hc Hn] Hi. split; [nia|]. split; [nia|]. nia. Qed.

Lemma alloc_entry_run array size count used s :
  entries array size count used → size * count < 4294967296 →
  alloc_entry array size count used s =
  Some match free_entries (mem s) array size count used with
       | [] => (NULL, s)
       | i :: _ => (array + i * size, set_mem (st 4 (mem s) (array + i * size + used) 1) s)
       end.
Proof.
  intros He Hlt. set (fr := free_entries (mem s) array size count used).
  assert (Hw : wp (alloc_entry array size count used) (λ r t, (r, t) =
    match fr with [] => (NULL, s)
    | i :: _ => (array + i * size, set_mem (st 4 (mem s) (array + i * size + used) 1) s) end) s).
  2:{ apply wp_run in Hw as (r & t & -> & ->). done. }
  set (P i := ld 4 (mem s) (array + i * size + used) = 0).
  unfold alloc_entry. wp_loop (λ i t, t = s ∧ 0 <= i <= count ∧ filter P (seqZ 0 i) = []) (λ i _, count - i).
  - intros i t (-> & Hi & Hnone). destruct (Z.ltb_spec i count).
    2:{ wp_steps. assert (i = count) as -> by lia. change fr with (filter P (seqZ 0 count)). rewrite Hnone. done. }
    destruct (entry_space _ _ _ _ i He ltac:(lia)) as (H1 & H2 & H3). destruct He as [Hsp Hu _ _].
    cbv zeta. rewrite u32_small by (unfold in_space in *; lia). wp_step. wp_step. unfold truth.
    destruct (seqZ_split i count ltac:(lia)) as [tl Htl].
    destruct (Z.eqb_spec (ld 4 (mem s) (array + i * size + used)) 0) as [E|E]; cbn [negb]; wp_steps.
    + change fr with (filter P (seqZ 0 count)). rewrite Htl, filter_app, Hnone, filter_cons_True by done. done.
    + split; [|lia]. split; [done|]. split; [lia|]. rewrite seqZ_app by lia.
      replace (seqZ (0 + i) 1) with [i] by done. rewrite filter_app, Hnone, filter_cons_False by done. done.
  - destruct He. done.
  - destruct He as [_ [? ?] ? _]. nia.
Qed.

Lemma filter_iff_on {A} (P Q : A → Prop) `{!∀ x, Decision (P x), !∀ x, Decision (Q x)} (l : list A) :
  (∀ x, x ∈ l → P x ↔ Q x) → filter P l = filter Q l.
Proof.
  induction l as [|x l IH]; intros Hpq; [done|]. rewrite !filter_cons.
  rewrite IH by (intros y Hy; apply Hpq; by right). pose proof (Hpq x (list_elem_of_here _ _)).
  destruct (decide (P x)), (decide (Q x)); (done || tauto).
Qed.
Lemma filter_every {A} (P : A → Prop) `{!∀ x, Decision (P x)} (l : list A) : Forall P l → filter P l = l.
Proof. induction 1 as [|x l Hx Hl IH]; [done|]. by rewrite filter_cons_True, IH. Qed.
Lemma filter_none {A} (P : A → Prop) `{!∀ x, Decision (P x)} (l : list A) :
  (∀ x, x ∈ l → ¬ P x) → filter P l = [].
Proof.
  induction l as [|x l IH]; intros Hn; [done|]. rewrite filter_cons_False by (apply Hn; left).
  apply IH. intros y Hy. apply Hn. by right.
Qed.

(** Taking the first free entry. *)
Lemma free_entries_take m m' array size count used i rest :
  free_entries m array size count used = i :: rest →
  (∀ j, 0 <= j < count → j ≠ i → ld 4 m' (array + j * size + used) = ld 4 m (array + j * size + used)) →
  ld 4 m' (array + i * size + used) ≠ 0 → free_entries m' array size count used = rest.
Proof.
  intros Hf Hsame Hi. unfold free_entries in *.
  set (P j := ld 4 m (array + j * size + used) = 0) in *.
  transitivity (filter (λ j, j ≠ i) (filter P (seqZ 0 count))).
  - rewrite list_filter_filter. apply filter_iff_on. intros j Hj%elem_of_seqZ.
    destruct (decide (j = i)) as [->|Hne]; [by split; [|intros []]|].
    rewrite Hsame by (done || lia). unfold P. by split; [|intros []].
  - assert (NoDup (filter P (seqZ 0 count))) as Hnd by apply NoDup_filter, NoDup_seqZ.
    rewrite Hf in *. apply NoDup_cons in Hnd as [Hni _]. rewrite filter_cons_False by (by intros []).
    apply filter_every. rewrite Forall_forall. by intros j Hj ->.
Qed.

(** Reading inside a region that was left alone. *)
Lemma keeps_in rs m m' q b n :
  keeps rs m m' → Forall (λ r, apart r q) rs → in_space q.1 q.2 → q.1 <= b → b + Z.of_nat n <= q.1 + q.2 →
  ld_bytes m' b n = ld_bytes m b n.
Proof.
  intros Hk Ha Hs H1 H2. apply (keeps_ld_bytes rs); [done|unfold in_space in *; lia|].
  eapply Forall_impl; [exact Ha|]. intros r Hr. unfold apart, disjoint in *. cbn [fst snd]. lia.
Qed.
Lemma keeps_ld_in rs m m' q b n :
  keeps rs m m' → Forall (λ r, apart r q) rs → in_space q.1 q.2 → q.1 <= b → b + Z.of_nat n <= q.1 + q.2 →
  ld n m' b = ld n m b.
Proof. intros. unfold ld. by erewrite keeps_in. Qed.
Lemma keeps_ld8_in rs m m' q b :
  keeps rs m m' → Forall (λ r, apart r q) rs → in_space q.1 q.2 → q.1 <= b → b + 1 <= q.1 + q.2 →
  ld8 m' b = ld8 m b.
Proof. intros. assert (ld_bytes m' b 1 = ld_bytes m b 1) as [=]; [by eapply keeps_in|done]. Qed.

(** A region inside another one lies apart from what the other one lies apart from. *)
Lemma apart_inside r r' q : apart r q → r.1 <= r'.1 → r'.1 + r'.2 <= r.1 + r.2 → apart r' q.
Proof. unfold apart, disjoint. lia. Qed.
