(* ===== verification/Uhci.v ===== *)
(** * The UHCI host controller driver: modules/usb/uhci/uhci.c, uhci.h

    Registers behind ports; a frame list, queue heads and transfer descriptors
    in memory, which the controller reads and writes on its own: [refresh] runs
    before the driver reads a word that the controller may have changed. *)
From S2P Require Import Prelude Memory Arith Status Strings Heap Storage Ports Mmio Pci Keyboard Usb HostController.

(** ** uhci.h *)
Definition BL_UHCI_PCI_BAR4_RTE : Z := 0x01.
Definition BL_UHCI_PCI_BAR4_BASE_ADDRESS : Z := 0xffe0.
Definition BL_UHCI_IO_REG_USBCMD : Z := 0x00.
Definition BL_UHCI_IO_REG_FRNUM : Z := 0x06.
Definition BL_UHCI_IO_REG_FRBASEADD : Z := 0x08.
Definition BL_UHCI_IO_REG_SOFMOD : Z := 0x0c.
Definition BL_UHCI_IO_REG_PORTSC1 : Z := 0x10.
Definition BL_UHCI_IO_REG_PORTSC2 : Z := 0x12.
Definition BL_UHCI_USBCMD_STOP : Z := 0.
Definition BL_UHCI_USBCMD_RUN : Z := Z.shiftl 1 0.
Definition BL_UHCI_USBCMD_HCRESET : Z := Z.shiftl 1 1.
Definition BL_UHCI_PORTSC_CURRENT_CONNECT_STATUS : Z := Z.shiftl 1 0.
Definition BL_UHCI_PORTSC_PORT_ENABLED : Z := Z.shiftl 1 2.
Definition BL_UHCI_PORTSC_LOW_SPEED_DEVICE : Z := Z.shiftl 1 8.
Definition BL_UHCI_PORTSC_PORT_RESET : Z := Z.shiftl 1 9.
Definition BL_UHCI_FRAME_LIST_POINTER_Q : Z := Z.shiftl 1 1.

(** [struct bl_uhci_td]. *)
Definition sizeof_td : Z := 32.
Definition td_link_pointer : Z := 0.
Definition td_control_status : Z := 4.
Definition td_token : Z := 8.
Definition td_buffer_pointer : Z := 12.
Definition td_used : Z := 16.
Definition BL_UHCI_TD_LINK_POINTER_T : Z := Z.shiftl 1 0.
Definition BL_UHCI_TD_LINK_POINTER_VF : Z := Z.shiftl 1 2.
Definition BL_UHCI_TD_LINK_POINTER : Z := Z.lnot 0xf.
Definition BL_UHCI_TD_CONTROL_STATUS_BITSTUFF_ERROR : Z := Z.shiftl 1 17.
Definition BL_UHCI_TD_CONTROL_STATUS_TIMEOUT_ERROR : Z := Z.shiftl 1 18.
Definition BL_UHCI_TD_CONTROL_STATUS_NAK_RECEIVED : Z := Z.shiftl 1 19.
Definition BL_UHCI_TD_CONTROL_STATUS_BABBLE_DETECTED : Z := Z.shiftl 1 20.
Definition BL_UHCI_TD_CONTROL_STATUS_DATA_BUFFER_ERROR : Z := Z.shiftl 1 21.
Definition BL_UHCI_TD_CONTROL_STATUS_STALLED : Z := Z.shiftl 1 22.
Definition BL_UHCI_TD_CONTROL_STATUS_ACTIVE : Z := Z.shiftl 1 23.
Definition BL_UHCI_TD_CONTROL_STATUS_LOW_SPEED_DEVICE : Z := Z.shiftl 1 26.
Definition BL_UHCI_TD_CONTROL_STATUS_ACTUAL_LENGTH (length : Z) : Z := Z.land (u32 (length - 1)) 0x7ff.
Definition BL_UHCI_TD_CONTROL_STATUS (control_status : Z) : Z := Z.land control_status 0xff0000.
Definition BL_UHCI_TD_CONTROL_STATUS_C_ERR (count : Z) : Z := Z.shiftl (Z.land count 0x3) 27.
Definition BL_UHCI_TD_TOKEN_DEVICE_ADDRESS (address : Z) : Z := Z.shiftl address 8.
Definition BL_UHCI_TD_TOKEN_ENDPOINT (endpoint : Z) : Z := Z.shiftl endpoint 15.
Definition BL_UHCI_TD_TOKEN_TOGGLE (toggle : Z) : Z := u32 (Z.shiftl toggle 19).
Definition BL_UHCI_TD_TOKEN_MAXIMUM_LENGTH (length : Z) : Z := Z.shiftl (Z.land (u32 (length - 1)) 0x7ff) 21.

(** [struct bl_uhci_qh]. *)
Definition sizeof_qh : Z := 16.
Definition qh_head_link_pointer : Z := 0.
Definition qh_element_link_pointer : Z := 4.
Definition qh_used : Z := 8.
Definition qh_original_element : Z := 12.
Definition BL_UHCI_QH_HEAD_LINK_POINTER_T : Z := Z.shiftl 1 0.
Definition BL_UHCI_QH_HEAD_LINK_POINTER_Q : Z := Z.shiftl 1 1.
Definition BL_UHCI_QH_ELEMENT_LINK_POINTER_T : Z := Z.shiftl 1 0.

(** [struct bl_uhci_controller]. *)
Definition BL_UHCI_NUM_TD : Z := 1024.
Definition BL_UHCI_NUM_QH : Z := 256.
Definition sizeof_uhci_controller : Z := 20.
Definition uc_io : Z := 0.
Definition uc_framelist_ptrs : Z := 4.
Definition uc_tds : Z := 8.
Definition uc_qhs : Z := 12.
Definition uc_next : Z := 16.

Definition BL_PCI_SUBCLASS_SERIAL_USB_UHCI : Z := 0x03.
Definition BL_PCI_PROG_IF_SERIAL_USB_UHCI : Z := 0x00.
Definition BL_PCI_CONFIG_REG_BAR4 : Z := 0x20.

Definition bl_uhci_port_to_reg (port : Z) : Z :=
  if port =? 0 then BL_UHCI_IO_REG_PORTSC1 else if port =? 1 then BL_UHCI_IO_REG_PORTSC2 else 0.

Definition bl_uhci_alloc_qh (uhci : Z) : M Z :=
  qhs ← rd32 (uhci + uc_qhs); alloc_entry qhs sizeof_qh BL_UHCI_NUM_QH qh_used.
Definition bl_uhci_alloc_td (uhci : Z) : M Z :=
  tds ← rd32 (uhci + uc_tds); alloc_entry tds sizeof_td BL_UHCI_NUM_TD td_used.

Definition bl_uhci_init_td (uhci speed pid address endpoint toggle size buffer : Z) : M Z :=
  td ← bl_uhci_alloc_td uhci;
  if is_null td then mret NULL
  else
    wr32 (td + td_link_pointer) BL_UHCI_TD_LINK_POINTER_T;;
    wr32 (td + td_control_status) (BL_UHCI_TD_CONTROL_STATUS_ACTUAL_LENGTH size);;
    or32 (td + td_control_status) BL_UHCI_TD_CONTROL_STATUS_ACTIVE;;
    (if speed =? BL_USB_LOW_SPEED
     then or32 (td + td_control_status) BL_UHCI_TD_CONTROL_STATUS_LOW_SPEED_DEVICE else mret ());;
    or32 (td + td_control_status) (BL_UHCI_TD_CONTROL_STATUS_C_ERR 3);;
    wr32 (td + td_token) (bl_usb_pid_format_check pid);;
    or32 (td + td_token) (BL_UHCI_TD_TOKEN_DEVICE_ADDRESS (u8 address));;
    or32 (td + td_token) (BL_UHCI_TD_TOKEN_ENDPOINT (u8 endpoint));;
    or32 (td + td_token) (BL_UHCI_TD_TOKEN_TOGGLE toggle);;
    or32 (td + td_token) (BL_UHCI_TD_TOKEN_MAXIMUM_LENGTH size);;
    wr32 (td + td_buffer_pointer) buffer;;
    mret td.

Definition bl_uhci_free_td_list (td : Z) : M () :=
  mwhile (λ td,
    wr32 (td + td_used) 0;;
    link_pointer ← rd32 (td + td_link_pointer);
    if truth (Z.land link_pointer BL_UHCI_TD_LINK_POINTER_T) then break ()
    else continue (Z.land link_pointer BL_UHCI_TD_LINK_POINTER)) td.

(** One more packet of a transfer, linked behind the one before. *)
Definition link_td (td_prev td : Z) : M () :=
  wr32 (td_prev + td_link_pointer) (Z.lor td BL_UHCI_TD_LINK_POINTER_VF).

Section Uhci.
Context {Dev : Type} (io : ports Dev) (hw : hardware Dev) (bl_time_sleep : Z → D Dev Z).
(** The addresses of the static [uhci_list] and of [uhci_functions]. *)
Context (uhci_list uhci_functions_ptr : Z).

Definition bl_uhci_controller_add (uhci : Z) : M () :=
  list ← rd32 uhci_list;
  wr32 (uhci + uc_next) list;;
  wr32 uhci_list uhci.

(** [BL_UHCI_REG]. *)
Definition BL_UHCI_REG (uhci reg : Z) : M Z := p ← rd16 (uhci + uc_io); mret (u16 (p + reg)).
Definition read_port (hc port : Z) : D Dev Z :=
  uhci ← on_machine (rd32 (hc + hc_data));
  r ← on_machine (BL_UHCI_REG uhci (bl_uhci_port_to_reg port)); bl_inw io r.
Definition write_port (hc port v : Z) : D Dev () :=
  uhci ← on_machine (rd32 (hc + hc_data));
  r ← on_machine (BL_UHCI_REG uhci (bl_uhci_port_to_reg port)); bl_outw io v r.

Definition bl_uhci_port_device_connected (hc port : Z) : D Dev Z :=
  v ← read_port hc port;
  mret (if truth (Z.land v BL_UHCI_PORTSC_CURRENT_CONNECT_STATUS) then 1 else 0).

Definition bl_uhci_port_device_get_speed (hc port : Z) : D Dev Z :=
  v ← read_port hc port;
  mret (if truth (Z.land v BL_UHCI_PORTSC_LOW_SPEED_DEVICE) then BL_USB_LOW_SPEED else BL_USB_FULL_SPEED).

Definition bl_uhci_port_reset (hc port : Z) : D Dev () :=
  status ← read_port hc port;
  write_port hc port (Z.lor status BL_UHCI_PORTSC_PORT_RESET);;
  bl_time_sleep 50;;
  status ← read_port hc port;
  write_port hc port (Z.land status (Z.lnot BL_UHCI_PORTSC_PORT_RESET));;
  status ← read_port hc port;
  write_port hc port (Z.lor status BL_UHCI_PORTSC_PORT_ENABLED).

(** Only a single error bit is told apart; a packet that is still active, or
    that has two bits, counts as success. *)
Definition bl_uhci_transfer_status (qh : Z) : D Dev bl_status_t :=
  refresh hw;;
  on_machine (
    element ← rd32 (qh + qh_element_link_pointer);
    control_status ← rd32 (Z.land element BL_UHCI_TD_LINK_POINTER + td_control_status);
    let s := BL_UHCI_TD_CONTROL_STATUS control_status in
    mret (if s =? BL_UHCI_TD_CONTROL_STATUS_BITSTUFF_ERROR then BL_STATUS_USB_BITSTUFF_ERROR
          else if s =? BL_UHCI_TD_CONTROL_STATUS_TIMEOUT_ERROR then BL_STATUS_USB_TIMEOUT_ERROR
          else if s =? BL_UHCI_TD_CONTROL_STATUS_NAK_RECEIVED then BL_STATUS_USB_NAK_RECEIVED
          else if s =? BL_UHCI_TD_CONTROL_STATUS_BABBLE_DETECTED then BL_STATUS_USB_BABBLE_DETECTED
          else if s =? BL_UHCI_TD_CONTROL_STATUS_DATA_BUFFER_ERROR then BL_STATUS_USB_DATA_BUFFER_ERROR
          else if s =? BL_UHCI_TD_CONTROL_STATUS_STALLED then BL_STATUS_USB_STALLED
          else BL_STATUS_SUCCESS)).

Definition bl_uhci_transfer_finished (qh : Z) : D Dev bl_status_t :=
  refresh hw;;
  element ← on_machine (rd32 (qh + qh_element_link_pointer));
  if truth (Z.land element BL_UHCI_QH_ELEMENT_LINK_POINTER_T) then
    refresh hw;;
    element ← on_machine (rd32 (qh + qh_element_link_pointer));
    if truth (Z.land element BL_UHCI_TD_LINK_POINTER) then mret BL_STATUS_USB_SHOULD_CHECK_STATUS
    else
      on_machine (
        original_element ← rd32 (qh + qh_original_element);
        bl_uhci_free_td_list original_element;;
        wr32 (qh + qh_used) 0);;
      mret BL_STATUS_SUCCESS
  else mret BL_STATUS_USB_ACTION_NOT_FINISHED.

Definition bl_uhci_check_transfer_status (info : Z) : D Dev bl_status_t :=
  status ← bl_uhci_transfer_finished info;
  if bool_decide (status = BL_STATUS_USB_SHOULD_CHECK_STATUS) then bl_uhci_transfer_status info
  else mret status.

Definition bl_uhci_check_transfer_timeout (qh timeout : Z) : D Dev bl_status_t :=
  o ← mwhile (λ timeout,
        let timeout := timeout - 1 in
        if truth timeout then
          status ← bl_uhci_transfer_finished qh;
          if negb (failed status) then break (Some status)
          else if bool_decide (status = BL_STATUS_USB_SHOULD_CHECK_STATUS) then break None
          else bl_time_sleep 1;; continue timeout
        else break None) timeout;
  match o with Some status => mret status | None => bl_uhci_transfer_status qh end.

(** The packets of a control transfer; [None] when there are too few
    descriptors, and the first packet otherwise. *)
Definition control_packets (uhci packet_size address speed setup data length : Z) : M (option Z) :=
  td_head ← bl_uhci_init_td uhci speed BL_USB_PID_TOKEN_SETUP address 0 0 sizeof_setup_data setup;
  if is_null td_head then mret None
  else
    data_pid ← bl_usb_direction_pid setup;
    o ← mwhile (λ '(td, toggle, off, length),
          if 0 <? length then
            let toggle := if truth toggle then 0 else 1 in
            let td_prev := td in
            td ← bl_uhci_init_td uhci speed data_pid address 0 toggle
                   (Z.min length packet_size) (u32 (data + off));
            if is_null td then break None
            else
              link_td td_prev td;;
              continue (td, toggle, off + packet_size, length - packet_size)
          else break (Some td)) (td_head, 0, 0, length);
    match o with
    | None => mret None
    | Some td_prev =>
        td ← bl_uhci_init_td uhci speed (bl_usb_status_pid data_pid) address 0 1 0 0;
        if is_null td then mret None
        else link_td td_prev td;; mret (Some td_head)
    end.

(** [qh->element_link_pointer = qh->original_element = td]. *)
Definition start_transfer (qh td : Z) : M () :=
  wr32 (qh + qh_original_element) td;;
  wr32 (qh + qh_element_link_pointer) td.

Definition bl_uhci_control_transfer (hc packet_size address speed setup data length : Z) :
    D Dev bl_status_t :=
  uhci ← on_machine (rd32 (hc + hc_data));
  let packet_size := if packet_size =? 0 then 8 else packet_size in
  qh ← on_machine (bl_uhci_alloc_qh uhci);
  if is_null qh then mret BL_STATUS_USB_INTERNAL_ERROR
  else
    o ← on_machine (control_packets uhci packet_size address speed setup data length);
    match o with
    | None => mret BL_STATUS_USB_INTERNAL_ERROR
    | Some td_head =>
        on_machine (start_transfer qh td_head);;
        bl_uhci_check_transfer_timeout qh 100
    end.

(** The packets of a bulk or interrupt transfer: the first one (null when
    there is none) and the toggle that is left. *)
Definition data_packets (uhci endp address speed direction data length : Z) : M (option (Z * Z)) :=
  descriptor ← rd32 (endp + ep_descriptor);
  packet_size ← rd16 (descriptor + ed_max_packet_size);
  toggle ← rd32 (endp + ep_toggle);
  let data_pid := if truth direction then BL_USB_PID_TOKEN_OUT else BL_USB_PID_TOKEN_IN in
  mwhile (λ '(td_head, td, toggle, off, length),
    if 0 <? length then
      let td_prev := td in
      descriptor ← rd32 (endp + ep_descriptor);
      endpoint_address ← rd8 (descriptor + ed_endpoint_address);
      td ← bl_uhci_init_td uhci speed data_pid address endpoint_address toggle
             (Z.min length packet_size) (u32 (data + off));
      if is_null td then break None
      else
        (if is_null td_head then mret () else link_td td_prev td);;
        continue (if is_null td_head then td else td_head, td, if truth toggle then 0 else 1,
                  off + packet_size, length - packet_size)
    else break (Some (td_head, toggle))) (NULL, NULL, toggle, 0, length).

Definition bl_uhci_bulk_interrupt_transfers (hc address endp speed direction data length : Z) : M Z :=
  uhci ← rd32 (hc + hc_data);
  qh ← bl_uhci_alloc_qh uhci;
  if is_null qh then mret NULL
  else
    o ← data_packets uhci endp address speed direction data length;
    match o with
    | None => mret NULL
    | Some (td_head, toggle) =>
        wr32 (endp + ep_toggle) toggle;;
        start_transfer qh td_head;;
        mret qh
    end.

(** A transfer that could not be built is waited for like any other. *)
Definition bl_uhci_bulk_transfer (hc address endp speed direction data length : Z) : D Dev () :=
  if length =? 0 then mret ()
  else
    qh ← on_machine (bl_uhci_bulk_interrupt_transfers hc address endp speed direction data length);
    bl_uhci_check_transfer_timeout qh 100;;
    mret ().

Definition bl_uhci_interrupt_transfer (hc address endp speed direction data length : Z) : D Dev Z :=
  if length =? 0 then mret NULL
  else
    qh ← on_machine (bl_uhci_bulk_interrupt_transfers hc address endp speed direction data length);
    descriptor ← on_machine (rd32 (endp + ep_descriptor));
    interval ← on_machine (rd8 (descriptor + ed_interval));
    bl_time_sleep interval;;
    mret qh.

(** ** Set-up *)
Definition release (uhci field size : Z) : M () :=
  p ← rd32 (uhci + field);
  if truth p then bl_heap_free p size;; wr32 (uhci + field) NULL else mret ().

Definition bl_uhci_controller_uninit (uhci : Z) : D Dev () :=
  if is_null uhci then mret ()
  else
    r ← on_machine (BL_UHCI_REG uhci BL_UHCI_IO_REG_USBCMD);
    bl_outw io BL_UHCI_USBCMD_STOP r;;
    on_machine (
      release uhci uc_framelist_ptrs 0x1000;;
      release uhci uc_qhs (BL_UHCI_NUM_QH * sizeof_qh);;
      release uhci uc_tds (BL_UHCI_NUM_TD * sizeof_td);;
      bl_heap_free uhci sizeof_uhci_controller).

(** The queue heads in a chain; of the last one only the link is set. *)
Definition chain_queue_heads (qhs : Z) : M () :=
  i ← mwhile (λ i,
        if i <? BL_UHCI_NUM_QH - 1 then
          let qh := qhs + i * sizeof_qh in
          wr32 (qh + qh_head_link_pointer) (Z.lor (u32 (qhs + (i + 1) * sizeof_qh)) BL_UHCI_QH_HEAD_LINK_POINTER_Q);;
          wr32 (qh + qh_element_link_pointer) BL_UHCI_QH_ELEMENT_LINK_POINTER_T;;
          wr32 (qh + qh_used) 0;;
          continue (i + 1)
        else break i) 0;
  wr32 (qhs + i * sizeof_qh + qh_head_link_pointer) BL_UHCI_QH_HEAD_LINK_POINTER_T.

Definition bl_uhci_init_data_structures (uhci : Z) : D Dev bl_status_t :=
  framelist_ptrs ← on_machine (bl_heap_alloc_align 0x1000 0x1000);
  on_machine (wr32 (uhci + uc_framelist_ptrs) framelist_ptrs);;
  if is_null framelist_ptrs then mret BL_STATUS_MEMORY_ALLOCATION_FAILED
  else
    qhs ← on_machine (bl_heap_alloc_align (BL_UHCI_NUM_QH * sizeof_qh) 0x1000);
    on_machine (wr32 (uhci + uc_qhs) qhs);;
    if is_null qhs then mret BL_STATUS_MEMORY_ALLOCATION_FAILED
    else
      on_machine (chain_queue_heads qhs);;
      tds ← on_machine (bl_heap_alloc_align (BL_UHCI_NUM_TD * sizeof_td) 0x1000);
      on_machine (wr32 (uhci + uc_tds) tds);;
      if is_null tds then mret BL_STATUS_MEMORY_ALLOCATION_FAILED
      else
        on_machine (
          mwhile (λ i,
            if i <? BL_UHCI_NUM_TD then wr32 (tds + i * sizeof_td + td_used) 0;; continue (i + 1)
            else break ()) 0;;
          mwhile (λ i,
            if i <? 1024 then
              wr32 (framelist_ptrs + 4 * i) (Z.lor qhs BL_UHCI_FRAME_LIST_POINTER_Q);; continue (i + 1)
            else break ()) 0);;
        r ← on_machine (BL_UHCI_REG uhci BL_UHCI_IO_REG_SOFMOD);
        bl_outb io 64 r;;
        r ← on_machine (BL_UHCI_REG uhci BL_UHCI_IO_REG_FRBASEADD);
        bl_outl io framelist_ptrs r;;
        r ← on_machine (BL_UHCI_REG uhci BL_UHCI_IO_REG_FRNUM);
        bl_outw io 0 r;;
        mret BL_STATUS_SUCCESS.

Definition bl_uhci_controller_init (uhci : Z) : D Dev bl_status_t :=
  r ← on_machine (BL_UHCI_REG uhci BL_UHCI_IO_REG_USBCMD);
  bl_outw io BL_UHCI_USBCMD_HCRESET r;;
  bl_time_sleep 50;;
  r ← on_machine (BL_UHCI_REG uhci BL_UHCI_IO_REG_USBCMD);
  bl_outw io BL_UHCI_USBCMD_STOP r;;
  status ← bl_uhci_init_data_structures uhci;
  if failed status then mret status
  else
    r ← on_machine (BL_UHCI_REG uhci BL_UHCI_IO_REG_USBCMD);
    bl_outw io BL_UHCI_USBCMD_RUN r;;
    mret BL_STATUS_SUCCESS.

Definition bl_uhci_pci_init (i : bl_pci_index) : D Dev bl_status_t :=
  status ← bl_pci_check_device_class io i BL_PCI_BASE_CLASS_SERIAL BL_PCI_SUBCLASS_SERIAL_USB_UHCI
             BL_PCI_PROG_IF_SERIAL_USB_UHCI;
  if failed status then mret status
  else
    base_address ← bl_pci_read_config_long io i BL_PCI_CONFIG_REG_BAR4;
    if (Z.land base_address BL_UHCI_PCI_BAR4_RTE =? 0) ||
       (Z.land base_address BL_UHCI_PCI_BAR4_BASE_ADDRESS =? 0) then mret BL_STATUS_USB_INVALID_DEVICE
    else
      uhci ← on_machine (bl_heap_alloc sizeof_uhci_controller);
      if is_null uhci then mret BL_STATUS_MEMORY_ALLOCATION_FAILED
      else
        on_machine (wr16 (uhci + uc_io) (Z.land base_address BL_UHCI_PCI_BAR4_BASE_ADDRESS));;
        status ← bl_uhci_controller_init uhci;
        if failed status then bl_uhci_controller_uninit uhci;; mret status
        else
          on_machine (bl_uhci_controller_add uhci);;
          mret BL_STATUS_SUCCESS.

Definition uhci_functions : bl_usb_host_controller_functions Dev :=
  HcFunctions Dev bl_uhci_port_device_connected bl_uhci_port_device_get_speed bl_uhci_port_reset
    (λ hc port _, bl_uhci_port_device_get_speed hc port)   (* the slot is shared with [port_init] *)
    bl_uhci_control_transfer bl_uhci_bulk_transfer (Some bl_uhci_interrupt_transfer)
    (Some bl_uhci_check_transfer_status).

(** [BL_MODULE_INIT], with the registry of the USB stack. *)
Definition uhci_module_init (f : usb_frame) : D Dev () :=
  bl_pci_iterate_devices io (Some bl_uhci_pci_init);;
  on_machine (
    uhci ← rd32 uhci_list;
    mwhile (λ uhci,
      if truth uhci then
        hc ← bl_heap_alloc sizeof_host_controller;
        if is_null hc then break ()
        else
          wr32 (hc + hc_type) BL_USB_HC_UHCI;;
          wr32 (hc + hc_funcs) uhci_functions_ptr;;
          wr32 (hc + hc_data) uhci;;
          wr32 (hc + hc_root_hub + hub_ports) 2;;
          bl_usb_host_controller_register f hc;;
          next ← rd32 (uhci + uc_next);
          continue next
      else break ()) uhci).
End Uhci.
