(* ===== verification/UhciProofs.v ===== *)
(** * Proofs about the UHCI driver: the packets of a transfer *)
From S2P Require Import Prelude Memory Regions Arith HeapProofs Status Strings Heap Storage Ports Mmio.
From S2P Require Import Pci Keyboard Usb HostController Uhci.

(** ** Packets and the descriptors that hold them *)

(** A packet of [pk_size] bytes; its token lets the device transfer up to
    [pk_limit], which should be as many. *)
Record packet := Packet {
  pk_pid : Z; pk_address : Z; pk_endpoint : Z; pk_toggle : Z; pk_size : Z; pk_limit : Z; pk_buffer : Z;
}.

(** The token of the controller's specification: PID and its complement, the
    device's address, the endpoint's number, which is the low part of its address,
    the data toggle, and the length as one less in 11 bits; 0x7ff is no data. *)
Definition token_of (p : packet) : Z :=
  pk_pid p + 2 ^ 4 * (15 - pk_pid p) + 2 ^ 8 * pk_address p + 2 ^ 15 * (pk_endpoint p mod 128) +
  2 ^ 19 * pk_toggle p + 2 ^ 21 * ((pk_limit p - 1) mod 2048).

(** The driver shifts the whole endpoint address into the token, so that the
    direction bit of an IN endpoint, 0x80, falls on bit 1 of the length. *)
Definition packet_ok (p : packet) : Prop :=
  0 <= pk_pid p < 16 ∧ 0 <= pk_address p < 128 ∧ 0 <= pk_endpoint p < 256 ∧ pk_endpoint p mod 128 < 16 ∧
  0 <= pk_toggle p < 2 ∧
  0 <= pk_size p < 4294967296 ∧ 0 <= pk_buffer p < 4294967296 ∧
  (pk_limit p - 1) mod 2048 = Z.lor ((pk_size p - 1) mod 2048) (2 * (pk_endpoint p / 128)).

Definition control_of (speed : Z) (p : packet) : Z :=
  (pk_size p - 1) mod 2048 + 2 ^ 23 + (if speed =? BL_USB_LOW_SPEED then 2 ^ 26 else 0) + 2 ^ 27 * 3.

(** The descriptor at [td] holds the packet and leads to [link]. *)
Definition packet_at (m : gmap Z Z) (speed td : Z) (p : packet) (link : Z) : Prop :=
  ld 4 m (td + td_link_pointer) = link ∧ ld 4 m (td + td_control_status) = control_of speed p ∧
  ld 4 m (td + td_token) = token_of p ∧ ld 4 m (td + td_buffer_pointer) = pk_buffer p ∧
  ld 4 m (td + td_used) = 1.

Lemma length_field size : Z.land (u32 (size - 1)) 0x7ff = (size - 1) mod 2048.
Proof. change 0x7ff with (Z.ones 11). rewrite Z.land_ones by lia. word_lia. Qed.

Lemma pid_field pid : 0 <= pid < 16 → bl_usb_pid_format_check pid = pid + 2 ^ 4 * (15 - pid).
Proof.
  intros. assert (∀ k, k ∈ seqZ 0 16 → bl_usb_pid_format_check k = k + 2 ^ 4 * (15 - k)) as Hall.
  { apply Forall_forall. repeat constructor. }
  apply Hall, elem_of_seqZ. lia.
Qed.

Lemma lor_swap a b c : Z.lor (Z.lor a b) c = Z.lor (Z.lor a c) b.
Proof. by rewrite <- !Z.lor_assoc, (Z.lor_comm b). Qed.

Lemma endpoint_field a e :
  0 <= e < 256 → Z.lor a (Z.shiftl e 15) = Z.lor (Z.lor a (Z.shiftl (e mod 128) 15)) (Z.shiftl (e / 128) 22).
Proof.
  intros He. rewrite <- Z.lor_assoc. f_equal.
  rewrite (lor_field _ _ 22) by (rewrite ?Z.shiftl_mul_pow2 by lia; word_lia).
  rewrite !Z.shiftl_mul_pow2 by lia. word_lia.
Qed.

Lemma token_word p :
  packet_ok p →
  Z.lor (Z.lor (Z.lor (Z.lor (bl_usb_pid_format_check (pk_pid p))
    (BL_UHCI_TD_TOKEN_DEVICE_ADDRESS (u8 (pk_address p)))) (BL_UHCI_TD_TOKEN_ENDPOINT (u8 (pk_endpoint p))))
    (BL_UHCI_TD_TOKEN_TOGGLE (pk_toggle p))) (BL_UHCI_TD_TOKEN_MAXIMUM_LENGTH (pk_size p)) = token_of p.
Proof.
  intros (Hp & Ha & He & Hem & Ht & Hs & _ & Hlim). rewrite pid_field, !u8_small by lia.
  unfold BL_UHCI_TD_TOKEN_DEVICE_ADDRESS, BL_UHCI_TD_TOKEN_ENDPOINT, BL_UHCI_TD_TOKEN_TOGGLE,
    BL_UHCI_TD_TOKEN_MAXIMUM_LENGTH.
  rewrite length_field, u32_small by (rewrite Z.shiftl_mul_pow2 by lia; lia). rewrite endpoint_field by done.
  pose proof (Z.mod_pos_bound (pk_limit p - 1) 2048 ltac:(lia)).
  rewrite (lor_swap _ (Z.shiftl _ 22)), (lor_swap _ (Z.shiftl _ 22)), <- Z.lor_assoc.
  replace (Z.lor (Z.shiftl ((pk_size p - 1) mod 2048) 21) (Z.shiftl (pk_endpoint p / 128) 22))
    with (Z.shiftl ((pk_limit p - 1) mod 2048) 21).
  2:{ rewrite Hlim, Z.shiftl_lor. f_equal. }
  rewrite (lor_field _ _ 8), (lor_field _ _ 15), (lor_field _ _ 19), (lor_field _ _ 21) by word_lia.
  unfold token_of. lia.
Qed.

Lemma control_word speed p :
  Z.lor (if speed =? BL_USB_LOW_SPEED
         then Z.lor (Z.lor (BL_UHCI_TD_CONTROL_STATUS_ACTUAL_LENGTH (pk_size p)) BL_UHCI_TD_CONTROL_STATUS_ACTIVE)
                BL_UHCI_TD_CONTROL_STATUS_LOW_SPEED_DEVICE
         else Z.lor (BL_UHCI_TD_CONTROL_STATUS_ACTUAL_LENGTH (pk_size p)) BL_UHCI_TD_CONTROL_STATUS_ACTIVE)
    (BL_UHCI_TD_CONTROL_STATUS_C_ERR 3) = control_of speed p.
Proof.
  unfold BL_UHCI_TD_CONTROL_STATUS_ACTUAL_LENGTH, BL_UHCI_TD_CONTROL_STATUS_ACTIVE,
    BL_UHCI_TD_CONTROL_STATUS_LOW_SPEED_DEVICE, BL_UHCI_TD_CONTROL_STATUS_C_ERR, control_of.
  rewrite length_field. pose proof (Z.mod_pos_bound (pk_size p - 1) 2048 ltac:(lia)).
  change (Z.land 3 0x3) with 3. destruct (speed =? BL_USB_LOW_SPEED).
  - rewrite (lor_field _ _ 23), (lor_field _ _ 26), (lor_field _ _ 27) by lia. lia.
  - rewrite (lor_field _ _ 23), (lor_field _ _ 27) by lia. lia.
Qed.

Lemma token_range p : packet_ok p → 0 <= token_of p < 4294967296.
Proof.
  intros (Hp & Ha & He & Hem & Ht & Hs & _). pose proof (Z.mod_pos_bound (pk_limit p - 1) 2048 ltac:(lia)).
  unfold token_of. word_lia.
Qed.
Lemma control_range speed p : 0 <= control_of speed p < 4294967296.
Proof.
  pose proof (Z.mod_pos_bound (pk_size p - 1) 2048 ltac:(lia)). unfold control_of.
  destruct (speed =? BL_USB_LOW_SPEED); lia.
Qed.

(** ** The descriptors of a controller *)
Section Descriptors.
Context (uhci tds speed : Z).

Definition td_region : Z * Z := (tds, sizeof_td * BL_UHCI_NUM_TD).
Definition td_at (i : Z) : Z := tds + i * sizeof_td.
Definition free_tds (m : gmap Z Z) : list Z := free_entries m tds sizeof_td BL_UHCI_NUM_TD td_used.

(** The controller's structure and the array of descriptors, aligned to 16 bytes. *)
Record controller (m : gmap Z Z) : Prop := Controller {
  co_uhci : in_space uhci sizeof_uhci_controller;
  co_tds : in_space tds (sizeof_td * BL_UHCI_NUM_TD) ∧ 0 < tds ∧ tds mod 16 = 0;
  co_apart : apart td_region (uhci, sizeof_uhci_controller);
  co_pointer : ld 4 m (uhci + uc_tds) = tds;
}.

Lemma controller_entries m : controller m → entries tds sizeof_td BL_UHCI_NUM_TD td_used.
Proof. intros [_ (? & ? & ?) _ _]. constructor; (done || unfold td_used, sizeof_td; lia). Qed.

Lemma controller_keeps m m' : controller m → keeps [td_region] m m' → controller m'.
Proof.
  intros [H1 H2 H3 H4] Hk. split; [done..|]. rewrite <- H4.
  apply (keeps_ld [td_region]); [done| |]; [|constructor; [|constructor]];
    unfold uc_tds, sizeof_uhci_controller, apart, td_region in *; cbn [fst snd] in *; field_side.
Qed.

Lemma td_at_space m i :
  controller m → 0 <= i < BL_UHCI_NUM_TD →
  0 < td_at i ∧ tds <= td_at i ∧ td_at i + sizeof_td <= tds + sizeof_td * BL_UHCI_NUM_TD <= 4294967296.
Proof. intros [_ [Hs [? ?]] _ _] Hi. unfold td_at, sizeof_td, BL_UHCI_NUM_TD, in_space in *. lia. Qed.

Lemma td_at_ne i j : i ≠ j → td_at i + sizeof_td <= td_at j ∨ td_at j + sizeof_td <= td_at i.
Proof. unfold td_at, sizeof_td. lia. Qed.

Lemma first_free_td_range m i rest : free_tds m = i :: rest → 0 <= i < BL_UHCI_NUM_TD.
Proof.
  intros Hf. apply (free_entries_range m tds sizeof_td _ td_used). unfold free_tds in Hf. rewrite Hf. left.
Qed.

(** Reads through the writes to the fields of a descriptor. *)
Ltac td_fields :=
  unfold td_link_pointer, td_control_status, td_token, td_buffer_pointer, td_used, sizeof_td in *;
  repeat first [rewrite ld4_st4_u32 by field_side | rewrite ld_st_other by field_side].

Ltac rest_of_td Hcr Hcw Htr Htw :=
  rewrite or32_bind by done; rewrite wr32_bind, mem_set_mem, set_mem_set_mem; rewrite !or32_bind by done;
  rewrite wr32_bind, mem_set_mem, set_mem_set_mem; eexists; split; [reflexivity|]; split;
  [unfold packet_at; td_fields;
   split_and!; [done|apply (u32_parts _ _ _ Hcr Hcw); by rewrite !u32_lor, !u32_idemp
               |apply (u32_parts _ _ _ Htr Htw); by rewrite !u32_lor, !u32_idemp
               |by apply u32_small|done]
  |repeat (apply keeps_st4; [|td_fields; field_side|
     eexists; split; [by apply list_elem_of_singleton|]; td_fields; cbn [fst snd]; lia]); apply keeps_refl].

Lemma init_td_run p s i rest :
  controller (mem s) → packet_ok p → free_tds (mem s) = i :: rest →
  ∃ m', bl_uhci_init_td uhci speed (pk_pid p) (pk_address p) (pk_endpoint p) (pk_toggle p) (pk_size p)
          (pk_buffer p) s = Some (td_at i, set_mem m' s) ∧
    packet_at m' speed (td_at i) p 1 ∧ keeps [(td_at i, 20)] (mem s) m'.
Proof.
  intros Hc Hp Hf. pose proof (controller_entries _ Hc) as He.
  pose proof (first_free_td_range _ _ _ Hf) as Hi.
  destruct (td_at_space _ i Hc Hi) as (H0 & _ & Hhi).
  pose proof (alloc_entry_run _ _ _ _ s He ltac:(done)) as Hal. fold (free_tds (mem s)) in Hal.
  rewrite Hf in Hal. fold (td_at i) in Hal. set (td := td_at i) in *.
  assert (in_space td 20) as Hsp by (unfold in_space, sizeof_td in *; lia).
  pose proof Hp as (_ & _ & _ & _ & _ & _ & Hbuf & _). pose proof (token_range _ Hp) as Htr.
  pose proof (control_range speed p) as Hcr.
  pose proof (control_word speed p) as Hcw. pose proof (token_word p Hp) as Htw.
  unfold bl_uhci_init_td, bl_uhci_alloc_td. rewrite (bind_run _ _ td s (set_mem (st 4 (mem s) (td + td_used) 1) s)).
  2:{ unfold rd32, gets, mbind, ST_bind. cbv beta iota. by rewrite (co_pointer _ Hc), Hal. }
  unfold is_null. destruct (Z.eqb_spec td 0); [lia|].
  assert (in_space (td + td_control_status) 4 ∧ in_space (td + td_token) 4) as [Hs4 Hs8]
    by (unfold td_control_status, td_token; field_side).
  rewrite wr32_bind, mem_set_mem, set_mem_set_mem, wr32_bind, mem_set_mem, set_mem_set_mem.
  rewrite or32_bind by done.
  revert Hcw. destruct (speed =? BL_USB_LOW_SPEED); intros Hcw.
  - rewrite or32_bind by done. rest_of_td Hcr Hcw Htr Htw.
  - rewrite ret_bind. rest_of_td Hcr Hcw Htr Htw.
Qed.

(** ** Chains of descriptors

    The descriptors [ts] hold the packets [ps], each leads to the next one, and
    the last one to none. *)
Fixpoint chain (m : gmap Z Z) (ts : list Z) (ps : list packet) : Prop :=
  match ts, ps with
  | [], [] => True
  | i :: ts', p :: ps' =>
      packet_at m speed (td_at i) p
        (match ts' with j :: _ => Z.lor (td_at j) BL_UHCI_TD_LINK_POINTER_VF | [] => BL_UHCI_TD_LINK_POINTER_T end) ∧
      chain m ts' ps'
  | _, _ => False
  end.

Definition same_td (m m' : gmap Z Z) (i : Z) : Prop := ld_bytes m' (td_at i) 20 = ld_bytes m (td_at i) 20.

Lemma same_td_field m m' i k : same_td m m' i → 0 <= k <= 16 → ld 4 m' (td_at i + k) = ld 4 m (td_at i + k).
Proof.
  intros H Hk. rewrite <- (Z2Nat.id k) by lia. unfold ld.
  rewrite <- !(slice_ld_bytes _ _ 20) by lia. by rewrite H.
Qed.

Lemma packet_at_same m m' i p link :
  same_td m m' i → packet_at m speed (td_at i) p link → packet_at m' speed (td_at i) p link.
Proof.
  intros H (H0 & H1 & H2 & H3 & H4). unfold packet_at.
  pose proof (λ k, same_td_field _ _ _ k H) as E.
  pose proof (E 0 ltac:(lia)); pose proof (E 4 ltac:(lia)); pose proof (E 8 ltac:(lia));
    pose proof (E 12 ltac:(lia)); pose proof (E 16 ltac:(lia)).
  unfold td_link_pointer, td_control_status, td_token, td_buffer_pointer, td_used in *. repeat split; congruence.
Qed.

Lemma chain_length m ts ps : chain m ts ps → length ts = length ps.
Proof.
  revert ps. induction ts as [|i ts IH]; intros [|p ps]; [done..|]. intros [_ H]. cbn. f_equal. by apply IH.
Qed.

Lemma chain_used m ts ps i : chain m ts ps → i ∈ ts → ld 4 m (td_at i + td_used) = 1.
Proof.
  revert ps. induction ts as [|j ts IH]; intros [|p ps] H Hi; try done; [by apply not_elem_of_nil in Hi|].
  destruct H as [(_ & _ & _ & _ & Hu) Hc]. apply elem_of_cons in Hi as [->|Hi]; [done|by eapply IH].
Qed.

Lemma chain_same m m' ts ps : chain m ts ps → (∀ i, i ∈ ts → same_td m m' i) → chain m' ts ps.
Proof.
  revert ps. induction ts as [|j ts IH]; intros [|p ps] H Hs; try done. destruct H as [Hp Hc]. split.
  - apply (packet_at_same m); [|done]. apply Hs. by left.
  - apply IH; [done|]. intros i Hi. apply Hs. by right.
Qed.

Lemma chain_snoc m m' ts i j ps p q :
  chain m (ts ++ [i]) (ps ++ [p]) → (∀ k, k ∈ ts → same_td m m' k) →
  packet_at m' speed (td_at i) p (Z.lor (td_at j) BL_UHCI_TD_LINK_POINTER_VF) →
  packet_at m' speed (td_at j) q BL_UHCI_TD_LINK_POINTER_T →
  chain m' (ts ++ [i; j]) (ps ++ [p; q]).
Proof.
  revert ps. induction ts as [|k ts IH]; intros ps Hc Hs Hi Hj.
  - apply chain_length in Hc as Hl. destruct ps as [|? [|? ?]]; [|done..]. by split_and!.
  - apply chain_length in Hc as Hl. rewrite length_app in Hl. destruct ps as [|r ps]; [cbn in Hl; lia|].
    destruct Hc as [Hp Hc]. split.
    + apply (packet_at_same m); [apply Hs; by left|]. by destruct ts.
    + apply IH; try done. intros x Hx. apply Hs. by right.
Qed.

Lemma keeps_same_td m0 m m' i rs :
  controller m0 → 0 <= i < BL_UHCI_NUM_TD → keeps rs m m' → Forall (λ r, apart r (td_at i, 20)) rs → same_td m m' i.
Proof.
  intros Hc Hi Hk Ha. destruct (td_at_space _ i Hc Hi) as (? & ? & ?).
  apply (keeps_ld_bytes rs); [done| |done]. unfold in_space, sizeof_td in *. lia.
Qed.
Lemma apart_tds i j n : i ≠ j → 0 <= n <= 20 → apart (td_at i, n) (td_at j, 20).
Proof. intros Hne Hn. destruct (td_at_ne i j Hne); unfold apart, disjoint, sizeof_td in *; cbn [fst snd]; lia. Qed.
Lemma keeps_td_array m0 m m' i n :
  controller m0 → 0 <= i < BL_UHCI_NUM_TD → 0 <= n <= 20 → keeps [(td_at i, n)] m m' → keeps [td_region] m m'.
Proof.
  intros Hc Hi Hn Hk a Ha Ho. apply Hk; [done|]. destruct (td_at_space _ i Hc Hi) as (? & ? & ?).
  apply Forall_cons in Ho as [Ho _]. constructor; [|done]. unfold td_region, outside, sizeof_td in *. cbn [fst snd] in *. lia.
Qed.

(** [m] differs from [m0] by a chain that was built of the first free descriptors. *)
Record built (m0 m : gmap Z Z) (ts : list Z) (ps : list packet) : Prop := Built {
  bu_keeps : keeps [td_region] m0 m;
  bu_free : free_tds m0 = ts ++ free_tds m;
  bu_chain : chain m ts ps;
}.

Lemma built_range m0 m ts ps i : built m0 m ts ps → i ∈ ts → 0 <= i < BL_UHCI_NUM_TD.
Proof.
  intros [_ Hf _] Hi. apply (free_entries_range m0 tds sizeof_td _ td_used). fold (free_tds m0).
  rewrite Hf. apply elem_of_app. by left.
Qed.
Lemma built_nodup m0 m ts ps : built m0 m ts ps → NoDup (ts ++ free_tds m).
Proof. intros [_ Hf _]. rewrite <- Hf. apply NoDup_filter, NoDup_seqZ. Qed.

Lemma built_start m0 : built m0 m0 [] [].
Proof. split; [apply keeps_refl|done|done]. Qed.

(** The descriptors that are free after the first free one was filled. *)
Lemma free_after_init m m' p i rest :
  controller m → free_tds m = i :: rest → packet_at m' speed (td_at i) p 1 → keeps [(td_at i, 20)] m m' →
  free_tds m' = rest.
Proof.
  intros Hc Hf (_ & _ & _ & _ & Hu) Hk. apply (free_entries_take m m' _ _ _ _ i rest Hf).
  - intros j Hj Hne. fold (td_at j).
    apply (same_td_field m m' j 16); [|lia]. apply (keeps_same_td m _ _ _ _ Hc Hj Hk), Forall_singleton.
    by apply apart_tds.
  - fold (td_at i). rewrite Hu. lia.
Qed.

(** A first packet, and one more behind those of a chain. *)
Lemma first_packet p s i rest :
  controller (mem s) → packet_ok p → free_tds (mem s) = i :: rest →
  ∃ m', bl_uhci_init_td uhci speed (pk_pid p) (pk_address p) (pk_endpoint p) (pk_toggle p) (pk_size p)
          (pk_buffer p) s = Some (td_at i, set_mem m' s) ∧ built (mem s) m' [i] [p].
Proof.
  intros Hc Hp Hf. destruct (init_td_run p s i rest Hc Hp Hf) as (m' & Hrun & Hpk & Hk). exists m'.
  split; [done|].
  pose proof (first_free_td_range _ _ _ Hf) as Hi.
  split; [eapply (keeps_td_array _ _ _ i 20); (done || lia)| |by split].
  rewrite Hf. cbn. f_equal. symmetry. by eapply free_after_init.
Qed.

Lemma packet_relink m i p link link' :
  packet_at m speed (td_at i) p link → in_space (td_at i) 20 → 0 <= link' < 4294967296 →
  packet_at (st 4 m (td_at i + td_link_pointer) link') speed (td_at i) p link'.
Proof.
  intros (H0 & H1 & H2 & H3 & H4) Hs Hl. unfold packet_at. td_fields. split_and!; try done. by apply u32_small.
Qed.

Lemma chain_last m ts i ps p :
  chain m (ts ++ [i]) (ps ++ [p]) → packet_at m speed (td_at i) p BL_UHCI_TD_LINK_POINTER_T.
Proof.
  revert ps. induction ts as [|k ts IH]; intros ps Hc; apply chain_length in Hc as Hl; rewrite ?length_app in Hl.
  - destruct ps as [|? [|? ?]]; [by destruct Hc|done..].
  - destruct ps as [|r ps]; [cbn in Hl; lia|]. destruct Hc as [_ Hc]. by eapply IH.
Qed.

Lemma nodup_two (ts : list Z) i j rest :
  NoDup (ts ++ i :: j :: rest) → i ≠ j ∧ ∀ k, k ∈ ts → k ≠ i ∧ k ≠ j.
Proof.
  intros (_ & Hd & Hr)%NoDup_app. apply NoDup_cons in Hr as [Hi _]. split; [set_solver|].
  intros k Hk. specialize (Hd k Hk). set_solver.
Qed.

(** Linking a descriptor changes neither the other ones nor what is free. *)
Lemma relink_same m i k link :
  controller m → 0 <= i < BL_UHCI_NUM_TD → 0 <= k < BL_UHCI_NUM_TD → k ≠ i →
  same_td m (st 4 m (td_at i + td_link_pointer) link) k.
Proof.
  intros Hc Hi Hk Hne. destruct (td_at_space _ i Hc Hi) as (? & ? & ?). destruct (td_at_space _ k Hc Hk) as (? & ? & ?).
  destruct (td_at_ne i k) as [?|?]; [done|..]; unfold same_td, td_link_pointer, sizeof_td in *;
    rewrite ld_bytes_st_other; (done || field_side).
Qed.
Lemma relink_free m i link :
  controller m → 0 <= i < BL_UHCI_NUM_TD → free_tds (st 4 m (td_at i + td_link_pointer) link) = free_tds m.
Proof.
  intros Hc Hi. apply filter_iff_on. intros k [? Hk]%elem_of_seqZ. fold (td_at k).
  destruct (td_at_space _ i Hc Hi) as (? & ? & ?). destruct (td_at_space _ k Hc ltac:(lia)) as (? & ? & ?).
  assert (i = k ∨ i ≠ k) as [->|Hne] by lia; [|destruct (td_at_ne i k Hne)];
    unfold td_used, td_link_pointer, sizeof_td in *; by rewrite ld_st_other by field_side.
Qed.
Lemma relink_keeps m i link :
  controller m → 0 <= i < BL_UHCI_NUM_TD → keeps [td_region] m (st 4 m (td_at i + td_link_pointer) link).
Proof.
  intros Hc Hi. destruct (td_at_space _ i Hc Hi) as (? & ? & ?).
  eapply (keeps_td_array m _ _ i 4); [done..|lia|]. unfold td_link_pointer, st. rewrite Z.add_0_r.
  apply (keeps_st_bytes m (td_at i) (le_split 4 link)). unfold sizeof_td in *. field_side.
Qed.

Lemma link_range m i : controller m → 0 <= i < BL_UHCI_NUM_TD →
  Z.lor (td_at i) BL_UHCI_TD_LINK_POINTER_VF = td_at i + 4 ∧ td_at i + 4 < 4294967296 ∧ td_at i mod 16 = 0.
Proof.
  intros Hc Hi. destruct (td_at_space _ i Hc Hi) as (? & ? & ?).
  assert (td_at i mod 16 = 0) as Hm.
  { destruct Hc as [_ (_ & _ & Hm) _ _]. unfold td_at, sizeof_td. word_lia. }
  split; [|split; [unfold sizeof_td in *; lia|done]].
  rewrite (Z.div_mod (td_at i) 16), Hm by lia. rewrite Z.add_0_r, Z.mul_comm.
  change 16 with (2 ^ 4). rewrite <- Z.shiftl_mul_pow2 by lia. rewrite lor_shiftl_add by done.
  by rewrite Z.shiftl_mul_pow2.
Qed.

Lemma next_packet m0 s ts i j rest ps q :
  controller m0 → packet_ok q → built m0 (mem s) (ts ++ [i]) ps → free_tds (mem s) = j :: rest →
  ∃ m1 m2, bl_uhci_init_td uhci speed (pk_pid q) (pk_address q) (pk_endpoint q) (pk_toggle q) (pk_size q)
           (pk_buffer q) s = Some (td_at j, set_mem m1 s) ∧
    link_td (td_at i) (td_at j) (set_mem m1 s) = Some ((), set_mem m2 s) ∧
    td_at j ≠ 0 ∧ built m0 m2 ((ts ++ [i]) ++ [j]) (ps ++ [q]).
Proof.
  intros Hc0 Hq Hb Hf. assert (∃ ps' p, ps = ps' ++ [p]) as (ps' & p & ->).
  { destruct ps as [|p ps' _] using rev_ind; [|by eauto]. destruct Hb as [_ _ Hb]. by destruct ts. }
  rewrite <- !app_assoc. cbn [app].
  assert (Hc : controller (mem s)) by (eapply controller_keeps; [done|apply Hb]).
  destruct (init_td_run q s j rest Hc Hq Hf) as (m1 & Hrun & Hpk & Hk).
  assert (Hi : 0 <= i < BL_UHCI_NUM_TD) by (eapply built_range; [done|apply elem_of_app; right; left]).
  pose proof (first_free_td_range _ _ _ Hf) as Hj.
  pose proof (built_nodup _ _ _ _ Hb) as Hnd. rewrite Hf, <- app_assoc in Hnd. cbn [app] in Hnd.
  apply nodup_two in Hnd as [Hij Hts]. destruct (link_range _ j Hc Hj) as (Hlink & Hlr & _).
  destruct (td_at_space _ i Hc Hi) as (Hi0 & _ & Hi1). destruct (td_at_space _ j Hc Hj) as (Hj0 & _ & Hj1).
  assert (Hk1 : keeps [td_region] (mem s) m1) by (eapply (keeps_td_array _ _ _ j 20); (done || lia)).
  assert (Hc1 : controller m1) by (by eapply controller_keeps).
  assert (Hsame : ∀ k, 0 <= k < BL_UHCI_NUM_TD → k ≠ j → same_td (mem s) m1 k).
  { intros k Hkr Hkj. apply (keeps_same_td (mem s) _ _ _ _ Hc Hkr Hk). constructor; [by apply apart_tds|done]. }
  exists m1, (st 4 m1 (td_at i + td_link_pointer) (Z.lor (td_at j) BL_UHCI_TD_LINK_POINTER_VF)).
  split; [done|]. split; [done|]. split; [lia|]. split.
  - eapply keeps_trans; [apply Hb|]. eapply keeps_trans; [done|by apply relink_keeps].
  - rewrite relink_free, (free_after_init _ _ q j rest Hc Hf Hpk Hk) by done.
    rewrite (bu_free _ _ _ _ Hb), Hf, <- !app_assoc. done.
  - eapply chain_snoc; [apply Hb| | |].
    + intros k Hkts. destruct (Hts k Hkts). assert (0 <= k < BL_UHCI_NUM_TD) as Hkr
        by (eapply built_range; [done|apply elem_of_app; by left]).
      etrans; [by apply relink_same|by apply Hsame].
    + apply packet_relink with (link := BL_UHCI_TD_LINK_POINTER_T); [|unfold in_space, sizeof_td in *; lia|lia].
      apply (packet_at_same (mem s)); [by apply Hsame|]. eapply chain_last, Hb.
    + apply (packet_at_same m1); [by apply relink_same|done].
Qed.

(** ** The packets of a transfer

    The data is cut into [pieces]; the data toggle alternates. *)
Definition piece (pid address endpoint toggle size data length i : Z) : packet :=
  let n := Z.min (length - i * size) size in
  Packet pid address endpoint ((toggle + i) mod 2) n n (u32 (data + i * size)).

Definition data_stage (pid address endpoint toggle size data length n : Z) : list packet :=
  piece pid address endpoint toggle size data length <$> seqZ 0 n.

Lemma data_stage_snoc pid address endpoint toggle size data length n :
  0 <= n → data_stage pid address endpoint toggle size data length (n + 1) =
  data_stage pid address endpoint toggle size data length n ++
    [piece pid address endpoint toggle size data length n].
Proof. intros. unfold data_stage. by rewrite seqZ_app, fmap_app by lia. Qed.

Lemma length_data_stage pid address endpoint toggle size data length n :
  0 <= n → Z.of_nat (Datatypes.length (data_stage pid address endpoint toggle size data length n)) = n.
Proof. intros. unfold data_stage. rewrite length_fmap, length_seqZ. lia. Qed.

(** What the driver's descriptor asks for instead. *)
Definition asking_more (p : packet) : packet :=
  Packet (pk_pid p) (pk_address p) (pk_endpoint p) (pk_toggle p) (pk_size p) (Z.lor (pk_size p - 1) 2 + 1) (pk_buffer p).
Definition stored (p : packet) : packet :=
  Packet (pk_pid p) (pk_address p) (pk_endpoint p) (pk_toggle p) (pk_size p)
    (if pk_endpoint p <? 128 then pk_limit p else Z.lor (pk_size p - 1) 2 + 1) (pk_buffer p).
Definition stored_stage (pid address endpoint toggle size data length n : Z) : list packet :=
  stored <$> data_stage pid address endpoint toggle size data length n.

Lemma stored_stage_snoc pid address endpoint toggle size data length n :
  0 <= n → stored_stage pid address endpoint toggle size data length (n + 1) =
  stored_stage pid address endpoint toggle size data length n ++
    [stored (piece pid address endpoint toggle size data length n)].
Proof. intros. unfold stored_stage. by rewrite data_stage_snoc, fmap_app by lia. Qed.

Lemma length_stored_stage pid address endpoint toggle size data length n :
  0 <= n → Z.of_nat (Datatypes.length (stored_stage pid address endpoint toggle size data length n)) = n.
Proof. intros. unfold stored_stage. rewrite length_fmap. by apply length_data_stage. Qed.

(** For an OUT endpoint that is the packet, and never more than two bytes more. *)
Lemma stored_stage_out pid address endpoint toggle size data length n :
  let ps := data_stage pid address endpoint toggle size data length n in
  (endpoint < 128 → stored_stage pid address endpoint toggle size data length n = ps) ∧
  (128 <= endpoint → stored_stage pid address endpoint toggle size data length n = asking_more <$> ps).
Proof.
  unfold stored_stage, data_stage. split; intros He; rewrite <- ?list_fmap_compose; apply list_fmap_ext;
    intros i j _; unfold compose, stored, asking_more, piece; cbn [pk_pid pk_address pk_endpoint pk_toggle pk_size pk_limit pk_buffer];
    destruct (Z.ltb_spec endpoint 128); (lia || done).
Qed.

Lemma lor_two_bounds x : x <= Z.lor x 2 <= x + 2.
Proof.
  assert (Hb : ∀ k, Z.testbit 2 k = (1 =? k)) by (intros k; by apply (Z.pow2_bits_eqb 1 k)).
  destruct (Z.testbit x 1) eqn:E.
  - replace (Z.lor x 2) with x; [lia|]. apply Z.bits_inj'. intros k Hk. rewrite Z.lor_spec, Hb.
    destruct (Z.eqb_spec 1 k) as [<-|]; [by rewrite E|by rewrite orb_false_r].
  - rewrite <- Z.lxor_lor, <- Z.add_nocarry_lxor; [lia|..]; apply Z.bits_inj'; intros k Hk;
      rewrite Z.land_spec, Hb, Z.bits_0; (destruct (Z.eqb_spec 1 k) as [<-|]; [by rewrite E|by rewrite andb_false_r]).
Qed.

Lemma stored_stage_limit pid address endpoint toggle size data length n p :
  p ∈ stored_stage pid address endpoint toggle size data length n → pk_size p <= pk_limit p <= pk_size p + 2.
Proof.
  unfold stored_stage, data_stage. intros (p' & -> & (i & -> & _)%list_elem_of_fmap)%list_elem_of_fmap.
  unfold stored, piece. cbn [pk_size pk_limit pk_endpoint]. destruct (endpoint <? 128); [lia|].
  pose proof (lor_two_bounds (Z.min (length - i * size) size - 1)). lia.
Qed.

Lemma stored_ok pid address endpoint toggle size data length i :
  0 <= pid < 16 → 0 <= address < 128 → 0 <= endpoint < 256 → endpoint mod 128 < 16 → 0 < size ->
  size < 2147483648 → 0 < length - i * size → packet_ok (stored (piece pid address endpoint toggle size data length i)).
Proof.
  intros. unfold packet_ok, stored, piece. cbn. pose proof (u32_range (data + i * size)).
  pose proof (Z.mod_pos_bound (toggle + i) 2 ltac:(lia)). split_and!; try lia.
  destruct (Z.ltb_spec endpoint 128).
  - rewrite (Z.div_small endpoint) by lia. by rewrite Z.mul_0_r, Z.lor_0_r.
  - replace (endpoint / 128) with 1 by word_lia. rewrite Z.add_simpl_r.
    change 2048 with (2 ^ 11). rewrite lor_mod_pow2 by lia. done.
Qed.

Lemma piece_ok pid address toggle size data length i :
  0 <= pid < 16 → 0 <= address < 128 → 0 < size -> size < 2147483648 → 0 < length - i * size →
  packet_ok (piece pid address 0 toggle size data length i).
Proof. intros. by apply (stored_ok pid address 0 toggle size data length i). Qed.

Lemma toggled k : (if truth (k mod 2) then 0 else 1) = (k + 1) mod 2.
Proof.
  rewrite <- (Z.add_mod_idemp_l k) by lia. pose proof (Z.mod_pos_bound k 2 ltac:(lia)).
  assert (k mod 2 = 0 ∨ k mod 2 = 1) as [-> | ->] by lia; done.
Qed.

Lemma init_td_none p s :
  controller (mem s) → free_tds (mem s) = [] →
  bl_uhci_init_td uhci speed (pk_pid p) (pk_address p) (pk_endpoint p) (pk_toggle p) (pk_size p) (pk_buffer p) s =
  Some (NULL, s).
Proof.
  intros Hc Hf. pose proof (alloc_entry_run _ _ _ _ s (controller_entries _ Hc) ltac:(done)) as Hal.
  fold (free_tds (mem s)) in Hal. rewrite Hf in Hal. unfold bl_uhci_init_td.
  rewrite (bind_run _ _ NULL s s); [done|]. unfold bl_uhci_alloc_td, rd32, gets, mbind, ST_bind. cbv beta iota.
  by rewrite (co_pointer _ Hc), Hal.
Qed.

(** What a function that builds a chain of [ps] leaves. *)
Definition chain_result (m0 : gmap Z Z) (ps : list packet) (r : option Z) (m : gmap Z Z) : Prop :=
  match r with
  | Some td => td = td_at (hd 0 (free_tds m0)) ∧ ∃ ts, built m0 m ts ps
  | None => keeps [td_region] m0 m ∧ (length (free_tds m0) < length ps)%nat
  end.

(** One more packet at the end of a chain, or no descriptor for it. *)
Lemma next_or_none m0 s ts i ps q :
  controller m0 → packet_ok q → built m0 (mem s) (ts ++ [i]) ps →
  (∃ j m1 m2, bl_uhci_init_td uhci speed (pk_pid q) (pk_address q) (pk_endpoint q) (pk_toggle q) (pk_size q)
      (pk_buffer q) s = Some (td_at j, set_mem m1 s) ∧ is_null (td_at j) = false ∧
    link_td (td_at i) (td_at j) (set_mem m1 s) = Some ((), set_mem m2 s) ∧
    built m0 m2 ((ts ++ [i]) ++ [j]) (ps ++ [q])) ∨
  (bl_uhci_init_td uhci speed (pk_pid q) (pk_address q) (pk_endpoint q) (pk_toggle q) (pk_size q)
      (pk_buffer q) s = Some (NULL, s) ∧ length (free_tds m0) = length ps).
Proof.
  intros Hc0 Hq Hb. destruct (free_tds (mem s)) as [|j rest] eqn:Hf.
  - right. split; [apply init_td_none; [eapply controller_keeps; [done|apply Hb]|done]|].
    rewrite (bu_free _ _ _ _ Hb), Hf, app_nil_r. eapply chain_length, Hb.
  - left. destruct (next_packet m0 s ts i j rest ps q Hc0 Hq Hb Hf) as (m1 & m2 & Hrun & Hl & Hn & Hb2).
    exists j, m1, m2. split; [done|]. split; [by apply Z.eqb_neq|]. done.
Qed.

Definition setup_packet (address setup : Z) : packet :=
  Packet BL_USB_PID_TOKEN_SETUP address 0 0 sizeof_setup_data sizeof_setup_data setup.
Definition status_packet (address data_pid : Z) : packet := Packet (bl_usb_status_pid data_pid) address 0 1 0 0 0.
Definition control_list (size address setup data len data_pid : Z) : list packet :=
  setup_packet address setup :: data_stage data_pid address 0 1 size data len (pieces size len) ++
  [status_packet address data_pid].

(** The direction that the request asks for. *)
Definition direction_of (m : gmap Z Z) (setup : Z) : Z :=
  if truth (Z.land (ld8 m (setup + sd_request_type)) BL_USB_SETUP_REQUEST_TYPE_DEVICE_TO_HOST)
  then BL_USB_PID_TOKEN_IN else BL_USB_PID_TOKEN_OUT.

Ltac as_packet H :=
  unfold setup_packet, status_packet, stored, piece in H;
  cbn [pk_pid pk_address pk_endpoint pk_toggle pk_size pk_limit pk_buffer] in H.

Lemma control_packets_run size address setup data len s :
  let pid := direction_of (mem s) setup in
  controller (mem s) → 0 < size < 2147483648 → 0 <= address < 128 → 0 <= len < 2147483648 →
  in_space setup sizeof_setup_data → apart td_region (setup, sizeof_setup_data) →
  wp (control_packets uhci size address speed setup data len)
    (λ r t, t = set_mem (mem t) s ∧ chain_result (mem s) (control_list size address setup data len pid) r (mem t)) s.
Proof.
  intros pid Hc Hsize Haddr Hlen Hsetup Hapart. unfold control_packets.
  assert (Hpid : 0 <= pid < 16) by (unfold pid, direction_of; case_match; by vm_compute).
  assert (Hsp : packet_ok (setup_packet address setup)).
  { unfold packet_ok, setup_packet, BL_USB_PID_TOKEN_SETUP, sizeof_setup_data, in_space in *. cbn. split_and!; (done || lia). }
  assert (Hst : packet_ok (status_packet address pid)).
  { unfold packet_ok, status_packet, bl_usb_status_pid, BL_USB_PID_TOKEN_IN, BL_USB_PID_TOKEN_OUT in *. cbn.
    destruct (pid =? 0x1); split_and!; (done || lia). }
  pose proof (length_data_stage pid address 0 1 size data len) as Hld. pose proof (pieces_bound size len) as Hpb.
  destruct (free_tds (mem s)) as [|i0 rest] eqn:Hf.
  { pose proof (init_td_none (setup_packet address setup) s Hc Hf) as Hn. as_packet Hn. wp_known Hn.
    change (is_null NULL) with true. cbv iota.
    wp_step. rewrite set_mem_id. split; [done|]. split; [apply keeps_refl|]. rewrite Hf. cbn. lia. }
  destruct (first_packet _ s i0 rest Hc Hsp Hf) as (m1 & Hrun1 & Hb1). as_packet Hrun1. wp_known Hrun1.
  destruct (td_at_space _ i0 Hc (first_free_td_range _ _ _ Hf)) as (H0 & _ & _).
  unfold is_null at 1. destruct (Z.eqb_spec (td_at i0) 0); [lia|].
  apply wp_bind. unfold bl_usb_direction_pid. wp_steps.
  replace (if truth _ then _ else _) with pid.
  2:{ unfold pid, direction_of. rewrite mem_set_mem.
      replace (ld8 m1 (setup + sd_request_type)) with (ld8 (mem s) (setup + sd_request_type)); [done|].
      symmetry. apply (bu_keeps _ _ _ _ Hb1); [|constructor; [|done]]; unfold sd_request_type;
        revert Hapart Hsetup; unfold apart, td_region, sizeof_setup_data; cbn [fst snd]; field_side. }
  set (packets k := setup_packet address setup :: data_stage pid address 0 1 size data len k).
  wp_loop (λ '(td, toggle, off, len') t, ∃ k ts i m, t = set_mem m s ∧ 0 <= k <= pieces size len ∧
      toggle = k mod 2 ∧ off = k * size ∧ len' = len - k * size ∧ td = td_at i ∧
      built (mem s) m (ts ++ [i]) (packets k)) (λ '(_, len') _, Z.max 0 len').
  - intros [[[td toggle] off] len'] t (k & ts & i & m & -> & Hk & -> & -> & -> & -> & Hb).
    pose proof (pieces_more size len k ltac:(lia) ltac:(lia)) as Hmore.
    destruct (Z.ltb_spec 0 (len - k * size)).
    + pose proof (piece_ok pid address 1 size data len k ltac:(lia) ltac:(lia) ltac:(lia) ltac:(lia) ltac:(lia)) as Hq.
      rewrite toggled, (Z.add_comm k 1).
      destruct (next_or_none (mem s) (set_mem m s) ts i (packets k) _ Hc Hq Hb)
        as [(j & m2 & m3 & Hrun & Hn & Hlink & Hb3)|[Hrun Hno]]; as_packet Hrun; wp_known Hrun.
      * rewrite Hn. wp_known Hlink. wp_steps. split; [|lia].
        exists (k + 1), (ts ++ [i]), j, m3. rewrite (Z.add_comm k 1). split_and!; try (done || lia).
        unfold packets. rewrite (Z.add_comm 1 k), data_stage_snoc by lia. done.
      * change (is_null NULL) with true. cbv iota. wp_steps. rewrite mem_set_mem. split; [done|].
        split; [apply Hb|]. rewrite Hno. unfold packets, control_list. cbn [length]. rewrite length_app.
        specialize (Hld k ltac:(lia)). pose proof (length_data_stage pid address 0 1 size data len (pieces size len)). cbn. lia.
    + assert (k = pieces size len) as -> by lia. wp_step.
      destruct (next_or_none (mem s) (set_mem m s) ts i (packets (pieces size len)) _ Hc Hst Hb)
        as [(j & m2 & m3 & Hrun & Hn & Hlink & Hb3)|[Hrun Hno]]; as_packet Hrun; wp_known Hrun.
      * rewrite Hn. wp_known Hlink. wp_step. rewrite mem_set_mem. split; [done|].
        split; [by rewrite Hf|by eexists].
      * change (is_null NULL) with true. cbv iota. wp_steps. rewrite mem_set_mem. split; [done|].
        split; [apply Hb|]. rewrite Hno. unfold packets, control_list. cbn [length]. rewrite length_app. cbn. lia.
  - exists 0, [], i0, m1. pose proof (Hpb ltac:(lia) ltac:(lia)). split_and!; (done || lia).
  - lia.
Qed.

(** ** Giving a chain back *)
Lemma td_chain_link m pre i post ps :
  chain m (pre ++ i :: post) ps →
  ld 4 m (td_at i + td_link_pointer) =
    match post with j :: _ => Z.lor (td_at j) BL_UHCI_TD_LINK_POINTER_VF | [] => BL_UHCI_TD_LINK_POINTER_T end.
Proof.
  revert ps. induction pre as [|k pre IH]; intros [|p ps] Hc; try done.
  - by destruct Hc as [[H _] _].
  - destruct Hc as [_ Hc]. by eapply IH.
Qed.

Lemma free_iff m k : 0 <= k < BL_UHCI_NUM_TD → k ∈ free_tds m ↔ ld 4 m (td_at k + td_used) = 0.
Proof.
  intros Hk. unfold free_tds, free_entries. rewrite list_elem_of_filter, elem_of_seqZ. fold (td_at k).
  split; [by intros []|]. intros. split; [done|lia].
Qed.

(** While the list is freed: [pre] is free again, [post] is as it was. *)
Record freeing (m mt : gmap Z Z) (pre : list Z) : Prop := Freeing {
  fr_keeps : keeps [td_region] m mt;
  fr_pre : ∀ k, k ∈ pre → ld 4 mt (td_at k + td_used) = 0;
  fr_other : ∀ k, 0 <= k < BL_UHCI_NUM_TD → k ∉ pre → same_td m mt k;
}.

Lemma freeing_step m mt pre i :
  controller m → 0 <= i < BL_UHCI_NUM_TD → (∀ k, k ∈ pre → 0 <= k < BL_UHCI_NUM_TD) → freeing m mt pre →
  let m' := st 4 mt (td_at i + td_used) 0 in
  freeing m m' (pre ++ [i]) ∧ ld 4 m' (td_at i + td_link_pointer) = ld 4 mt (td_at i + td_link_pointer).
Proof.
  intros Hc Hi Hpre [H1 H2 H3] m'. destruct (td_at_space _ i Hc Hi) as (Hi0 & Hi2 & Hi1).
  assert (Hsp : in_space (td_at i + td_used) 4) by (unfold td_used, sizeof_td in *; field_side).
  assert (Hother : ∀ k, 0 <= k < BL_UHCI_NUM_TD → k ≠ i → same_td mt m' k).
  { intros k Hk Hne. destruct (td_at_space _ k Hc Hk) as (? & ? & ?). unfold m', same_td.
    destruct (td_at_ne i k) as [?|?]; [done|..]; unfold td_used, sizeof_td in *;
      rewrite ld_bytes_st_other; (done || field_side). }
  split; [split|].
  - eapply keeps_trans; [done|]. apply (keeps_st4 _ mt mt); [apply keeps_refl|done|].
    exists td_region. split; [left|]. unfold td_region, td_used, sizeof_td in *. cbn [fst snd]. lia.
  - intros k [Hk | ->%list_elem_of_singleton]%elem_of_app; [|by unfold m'; rewrite ld4_st4_same].
    destruct (decide (k = i)) as [->|Hne]; [by unfold m'; rewrite ld4_st4_same|]. rewrite <- (H2 k Hk).
    apply (same_td_field mt m' k td_used); [|done]. apply Hother; [by apply Hpre|done].
  - intros k Hk Hn. rewrite not_elem_of_app, list_elem_of_singleton in Hn. destruct Hn as [Hn Hne].
    etrans; [by apply Hother|by apply H3].
  - unfold m', td_link_pointer. unfold td_used, sizeof_td in *. rewrite ld_st_other by field_side. done.
Qed.

Lemma link_bits m j :
  controller m → 0 <= j < BL_UHCI_NUM_TD →
  let link := Z.lor (td_at j) BL_UHCI_TD_LINK_POINTER_VF in
  truth (Z.land link BL_UHCI_TD_LINK_POINTER_T) = false ∧ Z.land link BL_UHCI_TD_LINK_POINTER = td_at j.
Proof.
  intros Hc Hj. destruct (link_range _ j Hc Hj) as (-> & _ & Hm). cbv zeta. split.
  - change BL_UHCI_TD_LINK_POINTER_T with 1. rewrite land_1_mod. unfold truth.
    replace ((td_at j + 4) mod 2) with 0; [done|]. word_lia.
  - change BL_UHCI_TD_LINK_POINTER with (Z.lnot (Z.ones 4)). rewrite <- Z.ldiff_land, Z.ldiff_ones_r by lia.
    rewrite Z.shiftl_mul_pow2, Z.shiftr_div_pow2 by lia. change (2 ^ 4) with 16. word_lia.
Qed.

(** The part of the list that is still in use. *)
Definition in_use (m : gmap Z Z) (l : list Z) : list Z := filter (λ k, ld 4 m (td_at k + td_used) ≠ 0) l.

Lemma freeing_in_use m mt pre post ps :
  chain m (pre ++ post) ps → NoDup (pre ++ post) → (∀ k, k ∈ pre ++ post → 0 <= k < BL_UHCI_NUM_TD) →
  freeing m mt pre → in_use mt (pre ++ post) = post.
Proof.
  intros Hch (_ & Hd & _)%NoDup_app Hr [_ H1 H2]. unfold in_use. rewrite filter_app.
  rewrite (filter_every _ post), (filter_none _ pre); [done| |].
  - intros k Hk. rewrite H1 by done. tauto.
  - apply Forall_forall. intros k Hk. assert (k ∉ pre) as Hn by (intros Hp; by apply (Hd k)).
    rewrite (same_td_field m mt k td_used); [|apply H2; [apply Hr, elem_of_app; by right|done]|done].
    rewrite (chain_used m _ _ k Hch); [done|]. apply elem_of_app. by right.
Qed.

Lemma free_list_run m0 m i ts ps s :
  controller m0 → built m0 m (i :: ts) ps →
  wp (bl_uhci_free_td_list (td_at i)) (λ _ t, t = set_mem (mem t) s ∧ free_tds (mem t) = free_tds m0 ∧
    keeps [td_region] m (mem t)) (set_mem m s).
Proof.
  intros Hc0 Hb. assert (Hc : controller m) by (eapply controller_keeps; [done|apply Hb]).
  assert (Hr : ∀ k, k ∈ i :: ts → 0 <= k < BL_UHCI_NUM_TD) by (intros; by eapply built_range).
  pose proof (built_nodup _ _ _ _ Hb) as [Hnd _]%NoDup_app. pose proof (bu_chain _ _ _ _ Hb) as Hch.
  unfold bl_uhci_free_td_list.
  wp_loop (λ td t, ∃ pre j post mt, i :: ts = pre ++ j :: post ∧ td = td_at j ∧ t = set_mem mt s ∧
    freeing m mt pre) (λ td t, Z.of_nat (length (in_use (mem t) (i :: ts)))).
  - intros td t (pre & j & post & mt & Hl & -> & -> & Hfr). rewrite Hl in Hr, Hnd, Hch. rewrite !Hl.
    pose proof (freeing_in_use m mt pre (j :: post) ps Hch Hnd Hr Hfr) as Hu.
    assert (Hj : 0 <= j < BL_UHCI_NUM_TD) by (apply Hr, elem_of_app; right; left).
    destruct (freeing_step m mt pre j Hc Hj) as [Hfr' Hlink]; [|done|].
    { intros k Hk. apply Hr, elem_of_app. by left. }
    set (m' := st 4 mt (td_at j + td_used) 0) in *.
    assert (Hnj : j ∉ pre) by (apply NoDup_app in Hnd as (_ & Hd & _); intros Hp; apply (Hd j Hp); left).
    rewrite (same_td_field m mt j td_link_pointer) in Hlink; [|by apply (fr_other _ _ _ Hfr)|done].
    rewrite (td_chain_link _ _ _ _ _ Hch) in Hlink. wp_steps. rewrite !mem_set_mem, set_mem_set_mem. fold m'.
    rewrite Hlink. destruct post as [|k post].
    + change (truth (Z.land BL_UHCI_TD_LINK_POINTER_T BL_UHCI_TD_LINK_POINTER_T)) with true. cbv iota. wp_step.
      rewrite mem_set_mem. split; [done|]. split; [|apply Hfr'].
      apply filter_iff_on. intros k Hk%elem_of_seqZ. fold (td_at k).
      rewrite <- (free_iff m0) by lia. rewrite (bu_free _ _ _ _ Hb), Hl, elem_of_app.
      destruct (decide (k ∈ pre ++ [j])) as [Hin|Hout]; [by rewrite (fr_pre _ _ _ Hfr' k Hin); tauto|].
      rewrite (same_td_field m m' k td_used), (free_iff m) by (done || lia || (apply (fr_other _ _ _ Hfr'); (done || lia))).
      tauto.
    + assert (Hk : 0 <= k < BL_UHCI_NUM_TD) by (apply Hr, elem_of_app; right; right; left).
      destruct (link_bits _ k Hc Hk) as [-> ->]. wp_step. rewrite mem_set_mem, Hu.
      assert (pre ++ j :: k :: post = (pre ++ [j]) ++ k :: post) as Hl' by (by rewrite <- app_assoc).
      rewrite Hl' in Hr, Hnd, Hch. rewrite Hl', (freeing_in_use m m' _ _ ps Hch Hnd Hr Hfr'). split; [|cbn [length]; lia].
      by exists (pre ++ [j]), k, post, m'.
  - exists [], i, ts, m. split_and!; try done. split; [apply keeps_refl| |done]. intros k Hk. by apply not_elem_of_nil in Hk.
  - unfold in_use. pose proof (length_filter (λ k, ld 4 m (td_at k + td_used) ≠ 0) (i :: ts)) as Hle.
    pose proof (f_equal length (bu_free _ _ _ _ Hb)) as Hlen. rewrite length_app in Hlen.
    pose proof (length_filter (λ k, ld 4 m0 (tds + k * sizeof_td + td_used) = 0) (seqZ 0 BL_UHCI_NUM_TD)) as Hle0.
    rewrite length_seqZ in Hle0. unfold free_tds, free_entries, BL_UHCI_NUM_TD in *. rewrite mem_set_mem. lia.
Qed.

(** ** Bulk and interrupt transfers *)

(** An endpoint: its descriptor [desc] asks for packets of at most [size] bytes
    and has the address [e]. *)
Definition endpoint_regions (endp desc : Z) : list (Z * Z) := [(endp, 8); (desc, sizeof_endpoint_descriptor)].
Record endpoint (m : gmap Z Z) (endp desc size e : Z) : Prop := Endpoint {
  ep_spaces : in_space endp 8 ∧ in_space desc sizeof_endpoint_descriptor;
  ep_desc : ld 4 m (endp + ep_descriptor) = desc;
  ep_size : ld 2 m (desc + ed_max_packet_size) = size;
  ep_address : ld8 m (desc + ed_endpoint_address) = e;
}.

Lemma endpoint_keeps rs m m' endp desc size e :
  endpoint m endp desc size e → keeps rs m m' → each_apart rs (endpoint_regions endp desc) →
  endpoint m' endp desc size e.
Proof.
  intros [[H1 H2] H3 H4 H5] Hk Ha.
  assert (Forall (λ r, apart r (endp, 8)) rs ∧ Forall (λ r, apart r (desc, sizeof_endpoint_descriptor)) rs) as [Ha1 Ha2].
  { apply Forall_and. eapply Forall_impl; [exact Ha|]. by intros r [Hr1 [Hr2 _]%Forall_cons]%Forall_cons. }
  split; [done|rewrite <- H3|rewrite <- H4|rewrite <- H5].
  - eapply (keeps_ld_in rs _ _ (endp, 8)); try done; unfold ep_descriptor, ed_max_packet_size, ed_endpoint_address, sizeof_endpoint_descriptor; cbn; lia.
  - eapply (keeps_ld_in rs _ _ (desc, sizeof_endpoint_descriptor)); try done; unfold ep_descriptor, ed_max_packet_size, ed_endpoint_address, sizeof_endpoint_descriptor; cbn; lia.
  - eapply (keeps_ld8_in rs _ _ (desc, sizeof_endpoint_descriptor)); try done; unfold ep_descriptor, ed_max_packet_size, ed_endpoint_address, sizeof_endpoint_descriptor; cbn; lia.
Qed.

Lemma toggled_from tog k : (if truth ((tog + k) mod 2) then 0 else 1) = (tog + (k + 1)) mod 2.
Proof. rewrite toggled. f_equal. lia. Qed.

(** The first packet or one more. *)
Lemma packet_or_none m0 s ts ps q :
  controller m0 → packet_ok q → built m0 (mem s) ts ps →
  let link j := match last ts with Some i => link_td (td_at i) (td_at j) | None => mret () end in
  (∃ j m1 m2, bl_uhci_init_td uhci speed (pk_pid q) (pk_address q) (pk_endpoint q) (pk_toggle q) (pk_size q)
      (pk_buffer q) s = Some (td_at j, set_mem m1 s) ∧ is_null (td_at j) = false ∧
    link j (set_mem m1 s) = Some ((), set_mem m2 s) ∧ built m0 m2 (ts ++ [j]) (ps ++ [q])) ∨
  (bl_uhci_init_td uhci speed (pk_pid q) (pk_address q) (pk_endpoint q) (pk_toggle q) (pk_size q)
      (pk_buffer q) s = Some (NULL, s) ∧ length (free_tds m0) = length ps).
Proof.
  intros Hc Hq Hb link. unfold link. destruct ts as [|i ts _] using rev_ind; [|rewrite last_snoc; by apply next_or_none].
  assert (Hc' : controller (mem s)) by (eapply controller_keeps; [done|apply Hb]).
  destruct Hb as [Hk Hf Hch]. destruct ps; [|done]. destruct (free_tds (mem s)) as [|j rest] eqn:Hf'.
  - right. split; [by apply init_td_none|by rewrite Hf].
  - left. destruct (first_packet q s j rest Hc' Hq Hf') as (m1 & Hrun & Hb1). exists j, m1, m1.
    destruct (td_at_space _ j Hc' (first_free_td_range _ _ _ Hf')) as (? & _ & _).
    split; [done|]. split; [apply Z.eqb_neq; lia|]. split; [done|]. destruct Hb1 as [Hk1 Hf1 Hch1].
    split; [by eapply keeps_trans|by rewrite Hf, <- Hf', Hf1|done].
Qed.

Definition bulk_pid (direction : Z) : Z := if truth direction then BL_USB_PID_TOKEN_OUT else BL_USB_PID_TOKEN_IN.

(** The pointers that the loop carries: none before the first packet. *)
Definition head_of (m0 : gmap Z Z) (ts : list Z) : Z :=
  match ts with [] => NULL | _ => td_at (hd 0 (free_tds m0)) end.
Definition last_of (ts : list Z) : Z := match last ts with Some i => td_at i | None => NULL end.

Lemma built_head m0 m i ts ps : built m0 m (i :: ts) ps → hd 0 (free_tds m0) = i.
Proof. intros [_ -> _]. done. Qed.

Lemma built_nonnull m0 m i ts ps : controller m0 → built m0 m (i :: ts) ps → is_null (td_at i) = false.
Proof.
  intros Hc Hb. apply Z.eqb_neq. destruct (td_at_space _ i Hc) as (? & _); [|lia].
  eapply built_range; [done|left].
Qed.

Lemma chain_head m0 m ts ps td :
  controller m0 → built m0 m ts ps →
  (if is_null (head_of m0 ts) then mret () else link_td (last_of ts) td) =
    match last ts with Some i => link_td (td_at i) td | None => mret () end.
Proof.
  intros Hc Hb. destruct ts as [|i ts]; [done|]. unfold head_of. rewrite (built_head _ _ _ _ _ Hb).
  rewrite (built_nonnull _ _ _ _ _ Hc Hb). unfold last_of.
  destruct (last (i :: ts)) as [k|] eqn:E; [done|]. by apply last_None in E.
Qed.

Lemma next_head m0 m ts j ps :
  controller m0 → built m0 m (ts ++ [j]) ps →
  (if is_null (head_of m0 ts) then td_at j else head_of m0 ts) = head_of m0 (ts ++ [j]).
Proof.
  intros Hc Hb. destruct ts as [|i ts]; cbn [app] in *; unfold head_of; rewrite (built_head _ _ _ _ _ Hb); [done|].
  by rewrite (built_nonnull _ _ _ _ _ Hc Hb).
Qed.

Lemma data_packets_run endp desc size e tog address direction data len s :
  let n := pieces size len in let pid := bulk_pid direction in
  controller (mem s) → endpoint (mem s) endp desc size e → 0 < size →
  0 <= e < 256 → e mod 128 < 16 → 0 <= tog < 2 → ld 4 (mem s) (endp + ep_toggle) = tog →
  0 <= address < 128 → 0 < len < 2147483648 → each_apart [td_region] (endpoint_regions endp desc) →
  wp (data_packets uhci endp address speed direction data len)
    (λ r t, t = set_mem (mem t) s ∧
       chain_result (mem s) (stored_stage pid address e tog size data len n) (fst <$> r) (mem t) ∧
       ∀ td tog', r = Some (td, tog') → tog' = (tog + n) mod 2) s.
Proof.
  intros n pid Hc He Hsize Hea Hem Htog Htg Haddr Hlen Hap. unfold data_packets.
  assert (Hpid : 0 <= pid < 16) by (unfold pid, bulk_pid; case_match; by vm_compute).
  pose proof (pieces_bound size len ltac:(lia) ltac:(lia)) as Hpb. fold n in Hpb.
  assert (Hszr : size < 65536) by (rewrite <- (ep_size _ _ _ _ _ He); apply (ld_range 2)).
  wp_steps. rewrite (ep_desc _ _ _ _ _ He), (ep_size _ _ _ _ _ He), Htg. fold (bulk_pid direction). fold pid.
  wp_loop (λ '(td_head, td, toggle, off, len') t, ∃ k ts m, t = set_mem m s ∧ 0 <= k <= n ∧
      toggle = (tog + k) mod 2 ∧ off = k * size ∧ len' = len - k * size ∧
      td_head = head_of (mem s) ts ∧ td = last_of ts ∧
      built (mem s) m ts (stored_stage pid address e tog size data len k)) (λ '(_, len') _, Z.max 0 len').
  - intros [[[[td_head td] toggle] off] len'] t (k & ts & m & -> & Hk & -> & -> & -> & -> & -> & Hb).
    pose proof (pieces_more size len k ltac:(lia) ltac:(lia)) as Hmore. fold n in Hmore.
    destruct (Z.ltb_spec 0 (len - k * size)).
    + pose proof (stored_ok pid address e tog size data len k ltac:(lia) ltac:(lia) ltac:(lia) ltac:(done) ltac:(lia)
        ltac:(lia) ltac:(lia)) as Hq.
      pose proof (endpoint_keeps _ _ _ _ _ _ _ He (bu_keeps _ _ _ _ Hb) Hap) as [_ Hd _ Ha].
      do 4 wp_step. rewrite !mem_set_mem, Hd, Ha.
      destruct (packet_or_none (mem s) (set_mem m s) ts _ _ Hc Hq Hb)
        as [(j & m2 & m3 & Hrun & Hn & Hlink & Hb3)|[Hrun Hno]]; as_packet Hrun; wp_known Hrun.
      * rewrite Hn, (chain_head _ _ _ _ _ Hc Hb). wp_known Hlink. wp_steps. split; [|lia].
        exists (k + 1), (ts ++ [j]), m3. rewrite toggled_from, stored_stage_snoc by lia.
        split_and!; try (done || lia); [by eapply next_head|].
        unfold last_of. by rewrite last_snoc.
      * change (is_null NULL) with true. cbv iota. wp_steps. rewrite mem_set_mem. split; [done|].
        split; [|done]. split; [apply Hb|]. rewrite Hno. apply Nat2Z.inj_lt. rewrite !length_stored_stage by lia. lia.
    + assert (k = n) as -> by lia. wp_step. rewrite mem_set_mem. split; [done|]. split; [|by intros ?? [=]].
      destruct ts as [|i ts]; [|split; [done|by eexists]].
      destruct Hb as [_ _ Hch]. apply chain_length in Hch. apply (f_equal Z.of_nat) in Hch.
      rewrite length_stored_stage in Hch by lia. cbn in Hch. pose proof (pieces_more size len 0). lia.
  - exists 0, [], (mem s). rewrite set_mem_id. split_and!; try (done || lia).
    rewrite Z.add_0_r, Z.mod_small; lia.
  - lia.
Qed.

Lemma built_take m0 m ts ps :
  built m0 m ts ps → ts = take (length ps) (free_tds m0) ∧ free_tds m = drop (length ps) (free_tds m0) ∧
    (length ps <= length (free_tds m0))%nat.
Proof.
  intros [_ -> Hch]. rewrite <- (chain_length _ _ _ Hch), length_app.
  rewrite take_app_length, drop_app_length. split_and!; (done || lia).
Qed.

(** Writes elsewhere change neither the descriptors nor what is known of the controller. *)
Lemma free_keeps rs m m' :
  controller m → keeps rs m m' → Forall (λ r, apart r td_region) rs → free_tds m' = free_tds m.
Proof.
  intros Hc Hk Ha. pose proof (co_tds _ Hc) as [Hsp _]. apply filter_iff_on. intros k Hr%elem_of_seqZ. fold (td_at k).
  destruct (td_at_space _ k Hc ltac:(lia)) as (? & ? & ?).
  rewrite (keeps_ld_in rs m m' td_region); [done..| | |]; unfold td_region, td_used, sizeof_td, in_space in *; cbn [fst snd]; lia.
Qed.

Lemma chain_keeps rs m0 m m' ts ps :
  controller m0 → built m0 m ts ps → keeps rs m m' → Forall (λ r, apart r td_region) rs → chain m' ts ps.
Proof.
  intros Hc Hb Hk Ha. pose proof (co_tds _ Hc) as [Hsp _]. eapply chain_same; [apply Hb|]. intros k Hkts.
  destruct (td_at_space _ k Hc) as (? & ? & ?); [by eapply built_range|].
  eapply (keeps_in rs m m' td_region); [done..| | |]; unfold td_region, sizeof_td, in_space in *; cbn [fst snd]; lia.
Qed.

Lemma controller_keeps_in rs m m' :
  controller m → keeps rs m m' → Forall (λ r, apart r (uhci, sizeof_uhci_controller)) rs → controller m'.
Proof.
  intros [H1 H2 H3 H4] Hk Ha. split; [done..|]. rewrite <- H4.
  apply (keeps_ld_in rs _ _ (uhci, sizeof_uhci_controller)); try done; unfold uc_tds, sizeof_uhci_controller; cbn; lia.
Qed.

Definition qh_region (qhs : Z) : Z * Z := (qhs, sizeof_qh * BL_UHCI_NUM_QH).
Definition free_qhs (m : gmap Z Z) (qhs : Z) : list Z := free_entries m qhs sizeof_qh BL_UHCI_NUM_QH qh_used.

(** Where the structures of a transfer lie. *)
Record transfer_layout (m : gmap Z Z) (hc qhs endp desc : Z) : Prop := TransferLayout {
  tl_hc : ld 4 m (hc + hc_data) = uhci;
  tl_qhs : ld 4 m (uhci + uc_qhs) = qhs;
  tl_space : 0 < qhs ∧ in_space qhs (sizeof_qh * BL_UHCI_NUM_QH);
  tl_tds_qhs : apart td_region (qh_region qhs);
  tl_apart : each_apart [td_region; qh_region qhs] ((uhci, sizeof_uhci_controller) :: endpoint_regions endp desc);
}.

(** The transfer that is handed to the controller: the queue head [qh] leads to
    the chain of the first free descriptors. *)
Record started (m0 m : gmap Z Z) (qh endp tog' : Z) (ps : list packet) : Prop := Started {
  st_chain : chain m (take (length ps) (free_tds m0)) ps;
  st_free : free_tds m = drop (length ps) (free_tds m0);
  st_qh : ld 4 m (qh + qh_element_link_pointer) = td_at (hd 0 (free_tds m0)) ∧
          ld 4 m (qh + qh_original_element) = td_at (hd 0 (free_tds m0)) ∧ ld 4 m (qh + qh_used) = 1;
  st_toggle : ld 4 m (endp + ep_toggle) = tog';
  st_keeps : keeps [td_region; (qh, sizeof_qh); (endp, 8)] m0 m;
}.

Lemma alloc_qh_run hc qhs endp desc s :
  transfer_layout (mem s) hc qhs endp desc →
  bl_uhci_alloc_qh uhci s =
  Some match free_qhs (mem s) qhs with
       | [] => (NULL, s)
       | q :: _ => (qhs + q * sizeof_qh, set_mem (st 4 (mem s) (qhs + q * sizeof_qh + qh_used) 1) s)
       end.
Proof.
  intros [_ Hq [H0 Hsp] _ _]. unfold bl_uhci_alloc_qh, rd32, gets, mbind, ST_bind. cbv beta iota. rewrite Hq.
  apply alloc_entry_run; [|done]. split; (done || unfold qh_used, sizeof_qh; lia).
Qed.

Lemma qh_inside hc m qhs endp desc q rest :
  transfer_layout m hc qhs endp desc → free_qhs m qhs = q :: rest →
  0 <= q < BL_UHCI_NUM_QH ∧ 0 < qhs ∧ qhs <= qhs + q * sizeof_qh ∧
  qhs + q * sizeof_qh + sizeof_qh <= qhs + sizeof_qh * BL_UHCI_NUM_QH <= 4294967296.
Proof.
  intros [_ _ [H0 Hsp] _ _] Hf. assert (0 <= q < BL_UHCI_NUM_QH) as Hq.
  { apply (free_entries_range m qhs sizeof_qh _ qh_used). unfold free_qhs in Hf. rewrite Hf. left. }
  unfold in_space, sizeof_qh, BL_UHCI_NUM_QH in *. lia.
Qed.

(** The queue head and the endpoint are written after the chain was built. *)
Lemma started_after m0 m1 m2 qh endp tog' ts ps :
  controller m0 → keeps [(qh, sizeof_qh)] m0 m1 → free_tds m1 = free_tds m0 → controller m1 →
  ld 4 m1 (qh + qh_used) = 1 → built m1 m2 ts ps → 0 <= tog' < 2 →
  0 < qh → in_space qh sizeof_qh → in_space endp 8 →
  apart (qh, sizeof_qh) td_region → apart (endp, 8) td_region → apart (qh, sizeof_qh) (endp, 8) →
  0 <= td_at (hd 0 (free_tds m0)) < 4294967296 →
  started m0 (st 4 (st 4 (st 4 m2 (endp + ep_toggle) tog') (qh + qh_original_element) (td_at (hd 0 (free_tds m0))))
    (qh + qh_element_link_pointer) (td_at (hd 0 (free_tds m0)))) qh endp tog' ps.
Proof.
  intros Hc0 Hk1 Hf1 Hc1 Hu1 Hb Ht Hqh Hqs Hes Ha1 Ha2 Ha3 Htd.
  set (td := td_at _) in *. set (m3 := st 4 _ _ _).
  assert (Hk3 : keeps [(qh, sizeof_qh); (endp, 8)] m2 m3).
  { unfold m3. apply keeps_st4; [apply keeps_st4; [apply keeps_st4; [apply keeps_refl|..]|..]|..];
      unfold ep_toggle, qh_original_element, qh_element_link_pointer, sizeof_qh in *; try field_side.
    - exists (endp, 8). split; [right; left|cbn; lia].
    - exists (qh, 16). split; [left|cbn; lia].
    - exists (qh, 16). split; [left|cbn; lia]. }
  assert (Hap : Forall (λ r, apart r td_region) [(qh, sizeof_qh); (endp, 8)])
    by (constructor; [done|by constructor]).
  destruct (built_take _ _ _ _ Hb) as (Hts & Hfr & _). rewrite Hf1 in Hts, Hfr. subst ts.
  split.
  - eapply (chain_keeps _ m1 m2); done.
  - rewrite (free_keeps [(qh, sizeof_qh); (endp, 8)] m2 m3); [done| |done..]. eapply controller_keeps; [done|apply Hb].
  - assert (ld 4 m2 (qh + qh_used) = 1) as Hu2.
    { rewrite <- Hu1. eapply (keeps_ld_in [td_region] _ _ (qh, sizeof_qh)); [apply Hb| |done|..];
        [constructor; [by apply apart_sym|done]|unfold qh_used, sizeof_qh; cbn; lia..]. }
    unfold m3, qh_element_link_pointer, qh_original_element, qh_used, ep_toggle, sizeof_qh in *.
    revert Ha3. unfold apart, disjoint. cbn [fst snd]. intros Ha3.
    repeat first [rewrite ld4_st4_same by (done || field_side) | rewrite ld_st_other by field_side]. done.
  - unfold m3, qh_element_link_pointer, qh_original_element, qh_used, ep_toggle, sizeof_qh in *.
    revert Ha3. unfold apart, disjoint. cbn [fst snd]. intros Ha3.
    repeat first [rewrite ld4_st4_same by (lia || field_side) | rewrite ld_st_other by field_side]. done.
  - eapply keeps_trans; [|eapply keeps_trans]; eapply keeps_weaken; [exact Hk1| |apply Hb| |exact Hk3|]; sublist.
Qed.

Lemma uhci_bulk_run hc qhs endp desc size e tog address direction data len q rest s :
  let ps := stored_stage (bulk_pid direction) address e tog size data len (pieces size len) in
  let qh := qhs + q * sizeof_qh in
  controller (mem s) → transfer_layout (mem s) hc qhs endp desc → endpoint (mem s) endp desc size e →
  0 < size → 0 <= e < 256 → e mod 128 < 16 → 0 <= tog < 2 → ld 4 (mem s) (endp + ep_toggle) = tog →
  0 <= address < 128 → 0 < len < 2147483648 → free_qhs (mem s) qhs = q :: rest →
  wp (bl_uhci_bulk_interrupt_transfers hc address endp speed direction data len)
    (λ r t, t = set_mem (mem t) s ∧
       if decide (length ps <= length (free_tds (mem s)))%nat
       then r = qh ∧ started (mem s) (mem t) qh endp ((tog + pieces size len) mod 2) ps
       else r = NULL ∧ keeps [td_region; (qh, sizeof_qh)] (mem s) (mem t)) s.
Proof.
  intros ps qh Hc Hl He Hsize Hea Hem Htog Htg Haddr Hlen Hq.
  destruct (qh_inside hc _ qhs endp desc q rest Hl Hq) as (Hqr & Hq0 & Hq1 & Hq2). fold qh in Hq1, Hq2.
  pose proof (alloc_qh_run hc qhs endp desc s Hl) as Hal. rewrite Hq in Hal. fold qh in Hal.
  pose proof Hl as [Hhc _ _ Htq [[_ Hte]%Forall_cons [[Hqu Hqe]%Forall_cons _]%Forall_cons]%Forall_cons].
  assert (Hin : ∀ r, apart (qh_region qhs) r → apart (qh, sizeof_qh) r).
  { intros r Hr. apply (apart_inside _ _ _ Hr); unfold qh_region; cbn [fst snd]; lia. }
  assert (Hqs : in_space qh sizeof_qh) by (unfold in_space, sizeof_qh in *; lia).
  set (s1 := set_mem (st 4 (mem s) (qh + qh_used) 1) s) in *.
  assert (Hk1 : keeps [(qh, sizeof_qh)] (mem s) (mem s1)).
  { apply keeps_st4; [apply keeps_refl|unfold qh_used, sizeof_qh in *; field_side|].
    eexists. split; [left|unfold qh_used, sizeof_qh; cbn; lia]. }
  assert (Hqt : apart (qh, sizeof_qh) td_region) by (by apply Hin, apart_sym).
  assert (Hqe' : Forall (apart (qh, sizeof_qh)) (endpoint_regions endp desc)).
  { eapply Forall_impl; [exact Hqe|]. exact Hin. }
  assert (Hc1 : controller (mem s1)).
  { eapply controller_keeps_in; [done|exact Hk1|]. constructor; [by apply Hin|done]. }
  assert (Hf1 : free_tds (mem s1) = free_tds (mem s)).
  { eapply free_keeps; [done|exact Hk1|]. by constructor. }
  assert (He1 : endpoint (mem s1) endp desc size e).
  { eapply endpoint_keeps; [done|exact Hk1|]. by constructor. }
  assert (Htg1 : ld 4 (mem s1) (endp + ep_toggle) = tog).
  { rewrite <- Htg. apply Forall_cons in Hqe' as [Hqe1 _].
    eapply (keeps_ld_in _ _ _ (endp, 8)); [exact Hk1|by constructor|apply He|unfold ep_toggle; cbn; lia..]. }
  unfold bl_uhci_bulk_interrupt_transfers. wp_step. wp_step. rewrite Hhc. wp_known Hal.
  unfold is_null at 1. destruct (Z.eqb_spec qh 0); [lia|]. wp_step.
  eapply wp_mono; [apply (data_packets_run endp desc size e tog address direction data len s1); try done|].
  { by constructor. }
  intros r t (Ht & Hres & Htoggle). rewrite Ht. unfold s1 at 1. rewrite set_mem_set_mem.
  destruct r as [[td tog']|]; cbn [fmap option_fmap option_map fst chain_result] in Hres.
  - destruct Hres as [-> [ts Hb]]. rewrite (Htoggle _ _ eq_refl). destruct (built_take _ _ _ _ Hb) as (_ & _ & Hle).
    fold ps in Hb, Hle. rewrite Hf1 in *.
    assert (∃ i, hd 0 (free_tds (mem s)) = i ∧ 0 <= i < BL_UHCI_NUM_TD) as (i & Hhd & Hi).
    { destruct ts as [|i ts]; [|exists i; rewrite <- Hf1; split; [by eapply built_head|eapply built_range; [done|left]]].
      destruct Hb as [_ _ Hch]. apply chain_length in Hch. apply (f_equal Z.of_nat) in Hch. unfold ps in Hch.
      pose proof (pieces_more size len 0 ltac:(lia) ltac:(lia)). rewrite length_stored_stage in Hch by lia. cbn in Hch. lia. }
    destruct (td_at_space _ i Hc Hi) as (? & ? & ?). unfold start_transfer. wp_steps.
    rewrite !mem_set_mem, !set_mem_set_mem. split; [done|]. rewrite decide_True by done. split; [done|].
    apply Forall_cons in Hqe' as [Hqe1 _]. apply Forall_cons in Hte as [Hte1 _].
    eapply (started_after _ (mem s1) (mem t)); try done.
    + unfold s1. rewrite mem_set_mem. apply ld4_st4_same; [unfold qh_used, sizeof_qh in *; field_side|lia].
    + apply Z.mod_pos_bound. lia.
    + lia.
    + apply He.
    + rewrite Hhd. unfold sizeof_td in *. lia.
  - destruct Hres as [Hk Hlt]. rewrite Hf1 in Hlt. wp_step. rewrite mem_set_mem. split; [done|].
    rewrite decide_False by (fold ps in Hlt; lia). split; [done|].
    eapply keeps_trans; eapply keeps_weaken; [exact Hk1| |exact Hk|]; sublist.
Qed.
End Descriptors.

(** ** Properties *)

(** C29: The packets of a control transfer: when the controller has enough free
    descriptors, the driver fills the first ones of them, linked in this order,
    with the SETUP packet, the data in pieces of the packet size (the last one
    being what is left) with the data toggle alternating from 1, and the STATUS
    packet against the direction of the data; otherwise it reports that there
    are too few.  Nothing outside the array of descriptors changes. *)
Theorem uhci_control_packets uhci tds speed size address setup data len s :
  let F := free_tds tds (mem s) in
  let ps := control_list size address setup data len (direction_of (mem s) setup) in
  controller uhci tds (mem s) → 0 < size < 2147483648 → 0 <= address < 128 → 0 <= len < 2147483648 →
  in_space setup sizeof_setup_data → apart (td_region tds) (setup, sizeof_setup_data) →
  ∃ r m', control_packets uhci size address speed setup data len s = Some (r, set_mem m' s) ∧
    keeps [td_region tds] (mem s) m' ∧
    if decide (length ps <= length F)%nat
    then r = Some (td_at tds (hd 0 F)) ∧ chain tds speed m' (take (length ps) F) ps ∧
         free_tds tds m' = drop (length ps) F
    else r = None.
Proof.
  intros F ps Hc Hsize Haddr Hlen Hsp Hap.
  pose proof (control_packets_run uhci tds speed size address setup data len s Hc Hsize Haddr Hlen Hsp Hap) as Hw.
  apply wp_run in Hw as (r & t & Hrun & Ht & Hres). rewrite Ht in Hrun. exists r, (mem t). split; [exact Hrun|].
  destruct r as [td|].
  - destruct Hres as [-> [ts Hb]]. destruct (built_take _ _ _ _ _ _ Hb) as (-> & Hf & Hle).
    split; [apply Hb|]. rewrite decide_True by done. split; [done|]. split; [apply Hb|done].
  - destruct Hres as [Hk Hlt]. split; [done|]. rewrite decide_False; [done|]. unfold ps, F. lia.
Qed.

(** A controller at 0x1000 with its descriptors at 0x10000 and queue heads at
    0x20000; a request for 18 bytes at 0x3000; an IN endpoint at 0x4000. *)
Definition wit_uhci : machine :=
  set_mem (st_bytes (st_bytes (st 4 (st 4 (st 4 (st_bytes ∅ 0x3000 [0x80; 6; 0; 1; 0; 0; 18; 0])
    (0x1000 + uc_tds) 0x10000) (0x1000 + uc_qhs) 0x20000) (0x5000 + hc_data) 0x1000)
    0x4000 [1; 0; 0; 0; 0; 0x41; 0; 0]) 0x4100 [7; 5; 0x82; 2; 64; 0; 0]) machine0.

Lemma wit_uhci_controller : controller 0x1000 0x10000 (mem wit_uhci).
Proof.
  split; [by vm_compute|split; [by vm_compute|by vm_compute]|right; by vm_compute|by vm_compute].
Qed.

Lemma uhci_control_packets_witness :
  ∃ r m', control_packets 0x1000 8 5 BL_USB_FULL_SPEED 0x3000 0x6000 18 wit_uhci = Some (r, set_mem m' wit_uhci) ∧
    keeps [td_region 0x10000] (mem wit_uhci) m' ∧
    let F := free_tds 0x10000 (mem wit_uhci) in
    let ps := control_list 8 5 0x3000 0x6000 18 (direction_of (mem wit_uhci) 0x3000) in
    if decide (length ps <= length F)%nat
    then r = Some (td_at 0x10000 (hd 0 F)) ∧ chain 0x10000 BL_USB_FULL_SPEED m' (take (length ps) F) ps ∧
         free_tds 0x10000 m' = drop (length ps) F
    else r = None.
Proof.
  apply (uhci_control_packets 0x1000 0x10000 BL_USB_FULL_SPEED 8 5 0x3000 0x6000 18 wit_uhci wit_uhci_controller);
    [lia|lia|lia|by vm_compute|right; by vm_compute].
Defined.

(** C30: Giving a chain back: after the packets of a control transfer were
    built, freeing the list that starts at the returned descriptor ends and
    leaves exactly the descriptors free that were free before. *)
Theorem uhci_chain_freed uhci tds speed size address setup data len s :
  controller uhci tds (mem s) → 0 < size < 2147483648 → 0 <= address < 128 → 0 <= len < 2147483648 →
  in_space setup sizeof_setup_data → apart (td_region tds) (setup, sizeof_setup_data) →
  pieces size len + 2 <= Z.of_nat (length (free_tds tds (mem s))) →
  ∃ td m' m'', control_packets uhci size address speed setup data len s = Some (Some td, set_mem m' s) ∧
    bl_uhci_free_td_list td (set_mem m' s) = Some ((), set_mem m'' s) ∧
    free_tds tds m'' = free_tds tds (mem s) ∧ keeps [td_region tds] (mem s) m''.
Proof.
  intros Hc Hsize Haddr Hlen Hsp Hap Hfree.
  pose proof (control_packets_run uhci tds speed size address setup data len s Hc Hsize Haddr Hlen Hsp Hap) as Hw.
  apply wp_run in Hw as (r & t & Hrun & Ht & Hres). rewrite Ht in Hrun. destruct r as [td|].
  - destruct Hres as [-> [ts Hb]]. destruct ts as [|i ts]; [by destruct Hb as [_ _ Hch]|].
    pose proof (free_list_run uhci tds speed (mem s) (mem t) i ts _ s Hc Hb) as Hw.
    rewrite (built_head _ _ _ _ _ _ _ Hb) in Hrun.
    apply wp_run in Hw as ([] & t' & Hrun' & Ht' & Hf & Hk). rewrite Ht' in Hrun'.
    exists (td_at tds i), (mem t), (mem t'). split; [exact Hrun|]. split; [exact Hrun'|]. split; [done|].
    eapply keeps_trans; [apply Hb|done].
  - destruct Hres as [_ Hlt]. unfold control_list in Hlt. cbn [length] in Hlt. rewrite length_app in Hlt.
    pose proof (pieces_bound size len ltac:(lia) ltac:(lia)).
    pose proof (length_data_stage (direction_of (mem s) setup) address 0 1 size data len (pieces size len) ltac:(lia)).
    cbn in Hlt. lia.
Qed.

Lemma uhci_chain_freed_witness :
  ∃ td m' m'', control_packets 0x1000 8 5 BL_USB_FULL_SPEED 0x3000 0x6000 18 wit_uhci =
      Some (Some td, set_mem m' wit_uhci) ∧
    bl_uhci_free_td_list td (set_mem m' wit_uhci) = Some ((), set_mem m'' wit_uhci) ∧
    free_tds 0x10000 m'' = free_tds 0x10000 (mem wit_uhci) ∧ keeps [td_region 0x10000] (mem wit_uhci) m''.
Proof.
  apply (uhci_chain_freed 0x1000 0x10000 BL_USB_FULL_SPEED 8 5 0x3000 0x6000 18 wit_uhci wit_uhci_controller);
    [lia|lia|lia|by vm_compute|right; by vm_compute|by vm_compute].
Defined.

(** C28: A bulk or interrupt transfer: with a free queue head and enough free
    descriptors, the driver returns the first free queue head, which leads to
    the chain of the first free descriptors with the data in pieces of the
    endpoint's packet size, the toggle going on from the endpoint's, and stores
    the toggle of the next packet in the endpoint; with too few descriptors it
    returns a null pointer.  Nothing else in memory changes.  To an OUT endpoint
    the descriptors hold exactly those packets.  From an IN endpoint, whose address
    is 0x80 or more, a token lets the device send up to two bytes more than the
    packet has, where bit 1 of the length less one is clear. *)
Theorem uhci_bulk_started uhci tds speed hc qhs endp desc size e tog address direction data len q rest s :
  let F := free_tds tds (mem s) in
  let ps := data_stage (bulk_pid direction) address e tog size data len (pieces size len) in
  let qh := qhs + q * sizeof_qh in
  controller uhci tds (mem s) → transfer_layout uhci tds (mem s) hc qhs endp desc →
  endpoint (mem s) endp desc size e → 0 < size <= 1280 → 0 <= e < 256 → e mod 128 < 16 → 0 <= tog < 2 →
  ld 4 (mem s) (endp + ep_toggle) = tog → 0 <= address < 128 → 0 < len < 2147483648 →
  free_qhs (mem s) qhs = q :: rest →
  ∃ r m', bl_uhci_bulk_interrupt_transfers hc address endp speed direction data len s = Some (r, set_mem m' s) ∧
    if decide (length ps <= length F)%nat
    then r = qh ∧ ∃ qs, started tds speed (mem s) m' qh endp ((tog + pieces size len) mod 2) qs ∧
      (e < 128 → qs = ps) ∧ (128 <= e → qs = asking_more <$> ps) ∧
      (∀ p, p ∈ qs → pk_size p <= pk_limit p <= pk_size p + 2)
    else r = NULL ∧ keeps [td_region tds; (qh, sizeof_qh)] (mem s) m'.
Proof.
  intros F ps qh Hc Hl He [Hsize _] Hea Hem Htog Htg Haddr Hlen Hq.
  pose proof (uhci_bulk_run uhci tds speed hc qhs endp desc size e tog address direction data len q rest s Hc Hl He Hsize
    Hea Hem Htog Htg Haddr Hlen Hq) as Hw.
  apply wp_run in Hw as (r & t & Hrun & Ht & Hres). rewrite Ht in Hrun. exists r, (mem t). split; [done|].
  assert (El : length (stored_stage (bulk_pid direction) address e tog size data len (pieces size len)) = length ps)
    by apply length_fmap.
  rewrite El in Hres. fold F in Hres. destruct (decide (length ps <= length F)%nat) as [Hle|Hle]; [|done]. destruct Hres as [-> Hst]. split; [done|].
  destruct (stored_stage_out (bulk_pid direction) address e tog size data len (pieces size len)) as [H1 H2].
  eexists. split; [exact Hst|]. split; [done|]. split; [done|]. by apply stored_stage_limit.
Qed.

Lemma uhci_bulk_started_witness :
  ∃ r m', bl_uhci_bulk_interrupt_transfers 0x5000 5 0x4000 BL_USB_FULL_SPEED 0 0x6000 130 wit_uhci =
      Some (r, set_mem m' wit_uhci) ∧
    let F := free_tds 0x10000 (mem wit_uhci) in
    let ps := data_stage (bulk_pid 0) 5 0x82 1 64 0x6000 130 (pieces 64 130) in
    if decide (length ps <= length F)%nat
    then r = 0x20000 + 0 * sizeof_qh ∧ ∃ qs,
         started 0x10000 BL_USB_FULL_SPEED (mem wit_uhci) m' (0x20000 + 0 * sizeof_qh) 0x4000 ((1 + pieces 64 130) mod 2) qs ∧
         (0x82 < 128 → qs = ps) ∧ (128 <= 0x82 → qs = asking_more <$> ps) ∧
         (∀ p, p ∈ qs → pk_size p <= pk_limit p <= pk_size p + 2)
    else r = NULL ∧ keeps [td_region 0x10000; (0x20000 + 0 * sizeof_qh, sizeof_qh)] (mem wit_uhci) m'.
Proof.
  apply (uhci_bulk_started 0x1000 0x10000 BL_USB_FULL_SPEED 0x5000 0x20000 0x4000 0x4100 64 0x82 1 5 0 0x6000 130 0
    (tail (free_qhs (mem wit_uhci) 0x20000)) wit_uhci wit_uhci_controller).
  - split; [by vm_compute|by vm_compute|by vm_compute|left; by vm_compute|].
    unfold endpoint_regions. concrete_regions.
  - split; [by vm_compute|by vm_compute|by vm_compute|by vm_compute].
  - lia.
  - lia.
  - by vm_compute.
  - lia.
  - by vm_compute.
  - lia.
  - lia.
  - by vm_compute.
Defined.
