(* ===== verification/Ohci.v ===== *)
(** * The OHCI host controller driver: modules/usb/ohci/ohci.c, ohci.h

    Registers in memory; endpoint descriptors with lists of transfer
    descriptors, which the controller reads and writes on its own: [refresh]
    runs before the driver reads a word that the controller may have changed. *)
From S2P Require Import Prelude Memory Arith Status Strings Heap Storage Ports Mmio Pci Keyboard Usb HostController.

(** ** ohci.h *)
Definition BL_OHCI_PCI_BAR0_INDICATPR : Z := Z.shiftl 1 0.
Definition BL_OHCI_PCI_BAR0_BASE_ADDRESS : Z := Z.shiftl 0xfffff 12.
Definition BL_OHCI_REG_REVISION_REV : Z := 0xff.
Definition BL_OHCI_REG_CONTROL_CLE : Z := Z.shiftl 1 4.
Definition BL_OHCI_REG_CONTROL_BLE : Z := Z.shiftl 1 5.
Definition BL_OHCI_REG_CONTROL_HCFS : Z := Z.shiftl 3 6.
Definition BL_OHCI_REG_CONTROL_IR : Z := Z.shiftl 1 8.
Definition BL_OHCI_HCFS_USB_RESET : Z := Z.shiftl 0 6.
Definition BL_OHCI_HCFS_USB_RESUME : Z := Z.shiftl 1 6.
Definition BL_OHCI_HCFS_USB_OPERATIONAL : Z := Z.shiftl 2 6.
Definition BL_OHCI_REG_COMMAND_STATUS_HCR : Z := Z.shiftl 1 0.
Definition BL_OHCI_REG_COMMAND_STATUS_CLF : Z := Z.shiftl 1 1.
Definition BL_OHCI_REG_COMMAND_STATUS_BLF : Z := Z.shiftl 1 2.
Definition BL_OHCI_REG_COMMAND_STATUS_OCR : Z := Z.shiftl 1 3.
(** The bits of the interrupt status, enable and disable registers. *)
Definition BL_OHCI_REG_INTERRUPT_SO : Z := Z.shiftl 1 0.
Definition BL_OHCI_REG_INTERRUPT_WDH : Z := Z.shiftl 1 1.
Definition BL_OHCI_REG_INTERRUPT_RD : Z := Z.shiftl 1 3.
Definition BL_OHCI_REG_INTERRUPT_UE : Z := Z.shiftl 1 4.
Definition BL_OHCI_REG_INTERRUPT_FNO : Z := Z.shiftl 1 5.
Definition BL_OHCI_REG_INTERRUPT_RHSC : Z := Z.shiftl 1 6.
Definition BL_OHCI_REG_INTERRUPT_OC : Z := Z.shiftl 1 30.
Definition BL_OHCI_REG_INTERRUPT_MIE : Z := Z.shiftl 1 31.
Definition BL_OHCI_REG_FM_INTERVAL_FI : Z := 0x3fff.
Definition BL_OHCI_REG_RH_DESCRIPTOR_A_NDP : Z := 0xff.
Definition BL_OHCI_REG_RH_PORT_STATUS_CCS : Z := Z.shiftl 1 0.
Definition BL_OHCI_REG_RH_PORT_STATUS_PES : Z := Z.shiftl 1 1.
Definition BL_OHCI_REG_RH_PORT_STATUS_PRS : Z := Z.shiftl 1 4.
Definition BL_OHCI_REG_RH_PORT_STATUS_LSDA : Z := Z.shiftl 1 9.
Definition BL_OHCI_REG_RH_PORT_STATUS_PESC : Z := Z.shiftl 1 16.
Definition BL_OHCI_REG_RH_PORT_STATUS_PRSC : Z := Z.shiftl 1 20.

(** [struct bl_ohci_registers]. *)
Definition reg_revision : Z := 0.
Definition reg_control : Z := 4.
Definition reg_command_status : Z := 8.
Definition reg_interrupt_status : Z := 12.
Definition reg_interrupt_enable : Z := 16.
Definition reg_interrupt_disable : Z := 20.
Definition reg_hcca : Z := 24.
Definition reg_control_head_ed : Z := 32.
Definition reg_control_current_ed : Z := 36.
Definition reg_bulk_head_ed : Z := 40.
Definition reg_bulk_current_ed : Z := 44.
Definition reg_fm_interval : Z := 52.
Definition reg_periodic_start : Z := 64.
Definition reg_rh_descriptor_a : Z := 72.
Definition reg_rh_port_status : Z := 84.

(** [struct bl_ohci_hcca]. *)
Definition sizeof_hcca : Z := 252.
Definition hcca_frame_number : Z := 128.
Definition hcca_done_head : Z := 132.

(** [struct bl_ohci_ed]. *)
Definition BL_OHCI_ED_FLAGS_ADDRESS : Z := 0x7f.
Definition BL_OHCI_ED_FLAGS_ENDPOINT : Z := Z.shiftl 0xf 7.
Definition BL_OHCI_ED_FLAGS_SPEED : Z := Z.shiftl 1 13.
Definition BL_OHCI_ED_FLAGS_SKIP : Z := Z.shiftl 1 14.
Definition BL_OHCI_ED_FLAGS_MPS : Z := Z.shiftl 0x7ff 16.
Definition BL_OHCI_ED_TD_HEAD_POINTER_HALTED : Z := Z.shiftl 1 0.
Definition BL_OHCI_ED_FLAGS_ADDRESS_ENDPOINT : Z := Z.lor BL_OHCI_ED_FLAGS_ADDRESS BL_OHCI_ED_FLAGS_ENDPOINT.
Definition BL_OHCI_ED_ADDRESS_ENDPOINT (address endpoint : Z) : Z :=
  Z.lor (Z.land address BL_OHCI_ED_FLAGS_ADDRESS) (Z.land (Z.shiftl endpoint 7) BL_OHCI_ED_FLAGS_ENDPOINT).
Definition BL_OHCI_ED_MPS (max_packet_size : Z) : Z := Z.land (Z.shiftl max_packet_size 16) BL_OHCI_ED_FLAGS_MPS.
Definition BL_OHCI_ED_TD_POINTER (td_pointer : Z) : Z := Z.land td_pointer (Z.lnot 0xf).
Definition sizeof_ed : Z := 16.
Definition oed_flags : Z := 0.
Definition oed_td_tail_pointer : Z := 4.
Definition oed_td_head_pointer : Z := 8.
Definition oed_next_ed : Z := 12.

(** Completion codes. *)
Definition BL_OHCI_CC_NO_ERROR : Z := 0x00.
Definition BL_OHCI_CC_CRC : Z := 0x01.
Definition BL_OHCI_CC_BIT_STUFFING : Z := 0x02.
Definition BL_OHCI_CC_DATA_TOGGLE_MISMATCH : Z := 0x03.
Definition BL_OHCI_CC_STALL : Z := 0x04.
Definition BL_OHCI_CC_DEVICE_NOT_RESPONDING : Z := 0x05.
Definition BL_OHCI_CC_PID_CHECK_FAILURE : Z := 0x06.
Definition BL_OHCI_CC_UNEXPECTED_PID : Z := 0x07.
Definition BL_OHCI_CC_DATA_OVERRUN : Z := 0x08.
Definition BL_OHCI_CC_DATA_UNDERRUN : Z := 0x09.
Definition BL_OHCI_CC_BUFFER_OVERRUN : Z := 0x0c.
Definition BL_OHCI_CC_BUFFER_UNDERRUN : Z := 0x0d.
Definition BL_OHCI_CC_NOT_ACCESSED : Z := 0x0f.

(** [struct bl_ohci_general_td]. *)
Definition BL_OHCI_TD_FLAGS_DP_SETUP : Z := Z.shiftl 0 19.
Definition BL_OHCI_TD_FLAGS_DP_OUT : Z := Z.shiftl 1 19.
Definition BL_OHCI_TD_FLAGS_DP_IN : Z := Z.shiftl 2 19.
Definition BL_OHCI_TD_FLAGS_T (data_toggle : Z) : Z := Z.shiftl (Z.lor 0x2 (Z.land data_toggle 0x1)) 24.
Definition BL_OHCI_TD_FLAGS_EC (error_count : Z) : Z := Z.shiftl (Z.land error_count 0x3) 26.
Definition BL_OHCI_TD_FLAGS_CC (condition_code : Z) : Z := Z.shiftl (Z.land condition_code 0xf) 28.
Definition BL_OHCI_TD_FLAGS_TO_CC (flags : Z) : Z := Z.land (Z.shiftr flags 28) 0xf.
Definition sizeof_general_td : Z := 32.
Definition otd_flags : Z := 0.
Definition otd_current_buffer_pointer : Z := 4.
Definition otd_next_td : Z := 8.
Definition otd_buffer_end : Z := 12.
Definition otd_used : Z := 16.
Definition otd_original_next_td : Z := 20.

(** [struct bl_ohci_controller]. *)
Definition BL_OHCI_NUM_CONTROL_EDS : Z := 128.
Definition BL_OHCI_NUM_BULK_EDS : Z := 128.
Definition BL_OHCI_NUM_GENERAL_TDS : Z := 512.
Definition sizeof_ohci_controller : Z := 24.
Definition oc_regs : Z := 0.
Definition oc_hcca : Z := 4.
Definition oc_control_eds : Z := 8.
Definition oc_bulk_eds : Z := 12.
Definition oc_tds : Z := 16.
Definition oc_next : Z := 20.

Definition BL_PCI_SUBCLASS_SERIAL_USB_OHCI : Z := 0x03.
Definition BL_PCI_PROG_IF_SERIAL_USB_OHCI : Z := 0x10.
Definition BL_PCI_CONFIG_REG_BAR0 : Z := 0x10.

(** ** Endpoint descriptors *)

(** The descriptor of the endpoint, or the first one without an endpoint, which
    is linked behind the one before it. *)
Definition bl_ohci_alloc_ed (eds count address_endpoint : Z) : M Z :=
  mwhile (λ i,
    if i <? count then
      let ed := u32 (eds + i * sizeof_ed) in
      flags ← rd32 (ed + oed_flags);
      let used := Z.land flags BL_OHCI_ED_FLAGS_ADDRESS_ENDPOINT in
      if used =? address_endpoint then break ed
      else if used =? 0 then
        (if 0 <? i then wr32 (u32 (eds + (i - 1) * sizeof_ed) + oed_next_ed) (Z.land ed (Z.lnot 0xf))
         else mret ());;
        break ed
      else continue (i + 1)
    else break NULL) 0.

Definition bl_ohci_init_ed (ohci transfer address endpoint speed max_packet_size : Z) : M Z :=
  let address_endpoint := BL_OHCI_ED_ADDRESS_ENDPOINT address endpoint in
  control_eds ← rd32 (ohci + oc_control_eds);
  bulk_eds ← rd32 (ohci + oc_bulk_eds);
  ed ← (if transfer =? BL_USB_TRANSFER_CONTROL then
          if address_endpoint =? 0 then mret control_eds
          else bl_ohci_alloc_ed control_eds BL_OHCI_NUM_CONTROL_EDS address_endpoint
        else if transfer =? BL_USB_TRANSFER_BULK then
          bl_ohci_alloc_ed bulk_eds BL_OHCI_NUM_BULK_EDS address_endpoint
        else mret NULL);
  if is_null ed then mret NULL
  else
    and32 (ed + oed_flags) (Z.lnot BL_OHCI_ED_FLAGS_ADDRESS_ENDPOINT);;
    or32 (ed + oed_flags) address_endpoint;;
    and32 (ed + oed_flags) (Z.lnot BL_OHCI_ED_FLAGS_SPEED);;
    or32 (ed + oed_flags) (if speed =? BL_USB_LOW_SPEED then BL_OHCI_ED_FLAGS_SPEED else 0);;
    and32 (ed + oed_flags) (Z.lnot BL_OHCI_ED_FLAGS_MPS);;
    or32 (ed + oed_flags) (BL_OHCI_ED_MPS max_packet_size);;
    mret ed.

(** ** Transfer descriptors *)
Definition bl_ohci_alloc_general_td (ohci : Z) : M Z :=
  tds ← rd32 (ohci + oc_tds); alloc_entry tds sizeof_general_td BL_OHCI_NUM_GENERAL_TDS otd_used.

(** The direction of a packet in the flags. *)
Definition direction_flags (pid : Z) : Z :=
  if pid =? BL_USB_PID_TOKEN_SETUP then BL_OHCI_TD_FLAGS_DP_SETUP
  else if pid =? BL_USB_PID_TOKEN_OUT then BL_OHCI_TD_FLAGS_DP_OUT
  else if pid =? BL_USB_PID_TOKEN_IN then BL_OHCI_TD_FLAGS_DP_IN
  else 0.

Definition bl_ohci_init_general_td (ohci buf length toggle pid : Z) : M Z :=
  td ← bl_ohci_alloc_general_td ohci;
  if is_null td then mret NULL
  else
    wr32 (td + otd_flags) 0;;
    or32 (td + otd_flags) (direction_flags pid);;
    or32 (td + otd_flags) (BL_OHCI_TD_FLAGS_CC BL_OHCI_CC_NOT_ACCESSED);;
    or32 (td + otd_flags) (BL_OHCI_TD_FLAGS_T toggle);;
    or32 (td + otd_flags) (BL_OHCI_TD_FLAGS_EC 3);;
    (if truth buf && (0 <? length) then
       wr32 (td + otd_current_buffer_pointer) buf;;
       wr32 (td + otd_buffer_end) (u32 (buf + (length - 1)))
     else
       wr32 (td + otd_buffer_end) 0;;
       wr32 (td + otd_current_buffer_pointer) 0);;
    wr32 (td + otd_next_td) 0;;
    mret td.

(** [td_prev->original_next_td = td_prev->next_td = td]. *)
Definition link_general_td (td_prev td : Z) : M () :=
  wr32 (td_prev + otd_next_td) td;;
  wr32 (td_prev + otd_original_next_td) td.

(** The list is a circle: it is left where it was entered. *)
Definition bl_ohci_free_td_list (ed : Z) : M () :=
  head ← rd32 (ed + oed_td_head_pointer);
  let td_head := BL_OHCI_ED_TD_POINTER head in
  mwhile (λ td,
    next_td ← rd32 (td + otd_original_next_td);
    bl_memset td 0 sizeof_general_td;;
    let td := BL_OHCI_ED_TD_POINTER next_td in
    if negb (td =? td_head) then continue td else break ()) td_head.

Definition status_of_code (cc : Z) : bl_status_t :=
  if cc =? BL_OHCI_CC_NO_ERROR then BL_STATUS_SUCCESS
  else if cc =? BL_OHCI_CC_CRC then BL_STATUS_USB_CRC_ERROR
  else if cc =? BL_OHCI_CC_BIT_STUFFING then BL_STATUS_USB_BITSTUFF_ERROR
  else if cc =? BL_OHCI_CC_DATA_TOGGLE_MISMATCH then BL_STATUS_USB_CRC_ERROR
  else if cc =? BL_OHCI_CC_STALL then BL_STATUS_USB_STALLED
  else if cc =? BL_OHCI_CC_DEVICE_NOT_RESPONDING then BL_STATUS_USB_TIMEOUT_ERROR
  else if cc =? BL_OHCI_CC_PID_CHECK_FAILURE then BL_STATUS_USB_CRC_ERROR
  else if cc =? BL_OHCI_CC_UNEXPECTED_PID then BL_STATUS_USB_BABBLE_DETECTED
  else if (cc =? BL_OHCI_CC_DATA_OVERRUN) || (cc =? BL_OHCI_CC_DATA_UNDERRUN) ||
          (cc =? BL_OHCI_CC_BUFFER_OVERRUN) || (cc =? BL_OHCI_CC_BUFFER_UNDERRUN)
  then BL_STATUS_USB_DATA_BUFFER_ERROR
  else BL_STATUS_USB_NAK_RECEIVED.

Section Ohci.
Context {Dev : Type} (io : ports Dev) (hw : hardware Dev) (bl_time_sleep : Z → D Dev Z).
(** The addresses of the static [ohci_list] and of [ohci_functions]. *)
Context (ohci_list ohci_functions_ptr : Z).

Definition bl_ohci_controller_add (ohci : Z) : M () :=
  list ← rd32 ohci_list;
  wr32 (ohci + oc_next) list;;
  wr32 ohci_list ohci.

(** ** Ports of the root hub *)
Definition port_status (hc port : Z) : D Dev Z :=
  on_machine (ohci ← rd32 (hc + hc_data); regs ← rd32 (ohci + oc_regs);
              mret (u32 (regs + reg_rh_port_status + 4 * port))).

Definition bl_ohci_port_device_connected (hc port : Z) : D Dev Z :=
  reg ← port_status hc port;
  v ← mm_rd32 hw reg;
  mret (if truth (Z.land v BL_OHCI_REG_RH_PORT_STATUS_CCS) then 1 else 0).

Definition bl_ohci_port_reset (hc port : Z) : D Dev () :=
  reg ← port_status hc port;
  mm_or32 hw reg BL_OHCI_REG_RH_PORT_STATUS_PRS;;
  bl_time_sleep 50;;
  v ← mm_rd32 hw reg;
  if Z.land v BL_OHCI_REG_RH_PORT_STATUS_PRSC =? 0 then mret ()
  else
    mm_or32 hw reg BL_OHCI_REG_RH_PORT_STATUS_PRSC;;
    mm_or32 hw reg BL_OHCI_REG_RH_PORT_STATUS_PES;;
    bl_time_sleep 10;;
    v ← mm_rd32 hw reg;
    if Z.land v BL_OHCI_REG_RH_PORT_STATUS_PES =? 0 then mret ()
    else mm_or32 hw reg BL_OHCI_REG_RH_PORT_STATUS_PESC.

Definition bl_ohci_port_device_get_speed (hc port : Z) : D Dev Z :=
  reg ← port_status hc port;
  v ← mm_rd32 hw reg;
  mret (if truth (Z.land v BL_OHCI_REG_RH_PORT_STATUS_LSDA) then BL_USB_LOW_SPEED else BL_USB_FULL_SPEED).

(** ** Waiting for a transfer *)
Definition bl_ohci_transfer_status (ed : Z) : D Dev bl_status_t :=
  refresh hw;;
  on_machine (
    head ← rd32 (ed + oed_td_head_pointer);
    flags ← rd32 (BL_OHCI_ED_TD_POINTER head + otd_flags);
    mret (status_of_code (BL_OHCI_TD_FLAGS_TO_CC flags))).

Definition bl_ohci_transfer_finished (ed : Z) : D Dev bl_status_t :=
  refresh hw;;
  head ← on_machine (rd32 (ed + oed_td_head_pointer));
  if truth (Z.land head BL_OHCI_ED_TD_HEAD_POINTER_HALTED) then mret BL_STATUS_USB_SHOULD_CHECK_STATUS
  else
    refresh hw;;
    head ← on_machine (rd32 (ed + oed_td_head_pointer));
    tail ← on_machine (rd32 (ed + oed_td_tail_pointer));
    if BL_OHCI_ED_TD_POINTER head =? BL_OHCI_ED_TD_POINTER tail then
      on_machine (or32 (ed + oed_flags) BL_OHCI_ED_FLAGS_SKIP);;
      refresh hw;;
      on_machine (bl_ohci_free_td_list ed);;
      mret BL_STATUS_SUCCESS
    else mret BL_STATUS_USB_ACTION_NOT_FINISHED.

Definition bl_ohci_check_transfer_timeout (ed timeout : Z) : D Dev bl_status_t :=
  o ← mwhile (λ timeout,
        let timeout := timeout - 1 in
        if truth timeout then
          status ← bl_ohci_transfer_finished ed;
          if negb (failed status) then break (Some status)
          else if bool_decide (status = BL_STATUS_USB_SHOULD_CHECK_STATUS) then break None
          else bl_time_sleep 1;; continue timeout
        else break None) timeout;
  match o with Some status => mret status | None => bl_ohci_transfer_status ed end.

(** ** Control transfers *)

(** The descriptors of a control transfer: the first one and the last one, or
    [None] when there are too few. *)
Definition control_tds (ohci packet_size setup data length : Z) : M (option (Z * Z)) :=
  data_pid ← bl_usb_direction_pid setup;
  let status_pid := bl_usb_status_pid data_pid in
  td_head ← bl_ohci_init_general_td ohci setup sizeof_setup_data 0 BL_USB_PID_TOKEN_SETUP;
  if is_null td_head then mret None
  else
    o ← (if length =? 0 then
           td ← bl_ohci_init_general_td ohci NULL 0 1 status_pid;
           if is_null td then mret None
           else link_general_td td_head td;; mret (Some td)
         else
           mwhile (λ '(td, toggle, off, length),
             if 0 <? length then
               let toggle := if truth toggle then 0 else 1 in
               let td_prev := td in
               td ← bl_ohci_init_general_td ohci (u32 (data + off)) (Z.min length packet_size) toggle data_pid;
               if is_null td then break None
               else
                 link_general_td td_prev td;;
                 continue (td, toggle, off + packet_size, length - packet_size)
             else break (Some td)) (td_head, 0, 0, length));
    match o with
    | None => mret None
    | Some td_prev =>
        td ← bl_ohci_init_general_td ohci NULL 0 1 status_pid;
        if is_null td then mret None
        else
          link_general_td td_prev td;;
          wr32 (td + otd_next_td) 0;;
          wr32 (td + otd_original_next_td) td_head;;
          mret (Some (td_head, td))
    end.

(** [ed] gets the list from [td_head] to [td]. *)
Definition link_transfer (ed td_head td : Z) : M () :=
  wr32 (ed + oed_td_head_pointer) td_head;;
  wr32 (ed + oed_td_tail_pointer) td;;
  and32 (ed + oed_flags) (Z.lnot BL_OHCI_ED_FLAGS_SKIP).

Definition bl_ohci_control_transfer (hc packet_size address speed setup data length : Z) : D Dev bl_status_t :=
  ohci ← on_machine (rd32 (hc + hc_data));
  let packet_size := if packet_size =? 0 then 8 else packet_size in
  ed ← on_machine (bl_ohci_init_ed ohci BL_USB_TRANSFER_CONTROL address 0 speed packet_size);
  if is_null ed then mret BL_STATUS_USB_INTERNAL_ERROR
  else
    o ← on_machine (control_tds ohci packet_size setup data length);
    match o with
    | None => mret BL_STATUS_USB_INTERNAL_ERROR
    | Some (td_head, td) =>
        on_machine (link_transfer ed td_head td);;
        regs ← on_machine (rd32 (ohci + oc_regs));
        mm_or32 hw (regs + reg_command_status) BL_OHCI_REG_COMMAND_STATUS_CLF;;
        bl_ohci_check_transfer_timeout ed 100
    end.

(** ** Bulk transfers *)

(** The data of a bulk transfer: the first descriptor, the last one and the
    toggle that is left. *)
Definition bulk_tds (ohci packet_size toggle data_pid data length : Z) : M (option (Z * Z * Z)) :=
  mwhile (λ '(td_head, td, toggle, off, length),
    if 0 <? length then
      let td_prev := td in
      td ← bl_ohci_init_general_td ohci (u32 (data + off)) (Z.min length packet_size) toggle data_pid;
      if is_null td then break None
      else
        (if is_null td_head then mret () else link_general_td td_prev td);;
        continue (if is_null td_head then td else td_head, td, if truth toggle then 0 else 1,
                  off + packet_size, length - packet_size)
    else break (Some (td_head, td, toggle))) (NULL, NULL, toggle, 0, length).

Definition bl_ohci_bulk_interrupt_prepare (ohci address endp speed direction data length : Z) : M Z :=
  descriptor ← rd32 (endp + ep_descriptor);
  packet_size ← rd16 (descriptor + ed_max_packet_size);
  toggle ← rd32 (endp + ep_toggle);
  endpoint_address ← rd8 (descriptor + ed_endpoint_address);
  ed ← bl_ohci_init_ed ohci BL_USB_TRANSFER_BULK address (Z.land endpoint_address 0xf) speed packet_size;
  if is_null ed then mret NULL
  else
    let data_pid := if truth direction then BL_USB_PID_TOKEN_OUT else BL_USB_PID_TOKEN_IN in
    o ← bulk_tds ohci packet_size toggle data_pid data length;
    match o with
    | None => mret NULL
    | Some (td_head, td_prev, toggle) =>
        let toggle := if truth toggle then 0 else 1 in
        td ← bl_ohci_init_general_td ohci NULL 0 toggle
               (if truth direction then BL_USB_PID_TOKEN_IN else BL_USB_PID_TOKEN_OUT);
        if is_null td then mret NULL
        else
          link_general_td td_prev td;;
          wr32 (td + otd_next_td) 0;;
          wr32 (td + otd_original_next_td) td_head;;
          wr32 (endp + ep_toggle) toggle;;
          link_transfer ed td_head td;;
          mret ed
    end.

Definition bl_ohci_bulk_transfer (hc address endp speed direction data length : Z) : D Dev () :=
  if length =? 0 then mret ()
  else
    ohci ← on_machine (rd32 (hc + hc_data));
    ed ← on_machine (bl_ohci_bulk_interrupt_prepare ohci address endp speed direction data length);
    regs ← on_machine (rd32 (ohci + oc_regs));
    mm_or32 hw (regs + reg_command_status) BL_OHCI_REG_COMMAND_STATUS_BLF;;
    bl_ohci_check_transfer_timeout ed 100;;
    mret ().

(** ** Set-up *)
Definition bl_ohci_controller_uninit (ohci : Z) : M () := bl_heap_free ohci sizeof_ohci_controller.

(** An endpoint descriptor at rest. *)
Definition clear_ed_pointers (ed : Z) : M () :=
  wr32 (ed + oed_td_tail_pointer) 0;;
  wr32 (ed + oed_td_head_pointer) 0;;
  wr32 (ed + oed_next_ed) 0.

Definition bl_ohci_init_data_structures (ohci : Z) : M bl_status_t :=
  hcca ← bl_heap_alloc_align sizeof_hcca 256;
  wr32 (ohci + oc_hcca) hcca;;
  if is_null hcca then mret BL_STATUS_MEMORY_ALLOCATION_FAILED
  else
    wr16 (hcca + hcca_frame_number) 0;;
    wr32 (hcca + hcca_done_head) 0;;
    tds ← bl_heap_alloc_align (sizeof_general_td * BL_OHCI_NUM_GENERAL_TDS) 16;
    wr32 (ohci + oc_tds) tds;;
    if is_null tds then mret BL_STATUS_MEMORY_ALLOCATION_FAILED
    else
      mwhile (λ i,
        if i <? BL_OHCI_NUM_GENERAL_TDS then
          bl_memset (tds + i * sizeof_general_td) 0 sizeof_general_td;; continue (i + 1)
        else break ()) 0;;
      control_eds ← bl_heap_alloc_align (sizeof_ed * BL_OHCI_NUM_CONTROL_EDS) 16;
      wr32 (ohci + oc_control_eds) control_eds;;
      if is_null control_eds then mret BL_STATUS_MEMORY_ALLOCATION_FAILED
      else
        mwhile (λ i,
          if i <? BL_OHCI_NUM_CONTROL_EDS then
            wr32 (control_eds + i * sizeof_ed + oed_flags) BL_OHCI_ED_FLAGS_SKIP;;
            clear_ed_pointers (control_eds + i * sizeof_ed);;
            continue (i + 1)
          else break ()) 0;;
        bulk_eds ← bl_heap_alloc_align (sizeof_ed * BL_OHCI_NUM_BULK_EDS) 16;
        wr32 (ohci + oc_bulk_eds) bulk_eds;;
        if is_null bulk_eds then mret BL_STATUS_MEMORY_ALLOCATION_FAILED
        else
          mwhile (λ i,
            if i <? BL_OHCI_NUM_BULK_EDS then
              wr32 (bulk_eds + i * sizeof_ed + oed_flags) BL_OHCI_ED_FLAGS_SKIP;;
              clear_ed_pointers (control_eds + i * sizeof_ed);;   (* the control descriptors, again *)
              continue (i + 1)
            else break ()) 0;;
          mret BL_STATUS_SUCCESS.

(** The controller is taken from the system management mode, or brought out of
    suspension. *)
Definition take_ownership (regs : Z) : D Dev bl_status_t :=
  let control := regs + reg_control in
  c ← mm_rd32 hw control;
  if truth (Z.land c BL_OHCI_REG_CONTROL_IR) then
    mm_or32 hw (regs + reg_command_status) BL_OHCI_REG_COMMAND_STATUS_OCR;;
    mwhile (λ timeout,
      let timeout := timeout - 1 in
      if truth timeout then
        c ← mm_rd32 hw control;
        if truth (Z.land c BL_OHCI_REG_CONTROL_IR) then bl_time_sleep 1;; continue timeout else break ()
      else break ()) 10;;
    c ← mm_rd32 hw control;
    mret (if truth (Z.land c BL_OHCI_REG_CONTROL_IR) then BL_STATUS_USB_INTERNAL_ERROR else BL_STATUS_SUCCESS)
  else
    c ← mm_rd32 hw control;
    let state := Z.land c BL_OHCI_REG_CONTROL_HCFS in
    (if state =? BL_OHCI_HCFS_USB_RESET then bl_time_sleep 10;; mret ()
     else if state =? BL_OHCI_HCFS_USB_OPERATIONAL then mret ()
     else
       mm_and32 hw control (Z.lnot BL_OHCI_REG_CONTROL_HCFS);;
       mm_or32 hw control BL_OHCI_HCFS_USB_RESUME;;
       bl_time_sleep 10;; mret ());;
    mret BL_STATUS_SUCCESS.

Definition interrupts : Z :=
  Z.lor BL_OHCI_REG_INTERRUPT_SO (Z.lor BL_OHCI_REG_INTERRUPT_WDH (Z.lor BL_OHCI_REG_INTERRUPT_RD
    (Z.lor BL_OHCI_REG_INTERRUPT_UE (Z.lor BL_OHCI_REG_INTERRUPT_FNO
      (Z.lor BL_OHCI_REG_INTERRUPT_RHSC BL_OHCI_REG_INTERRUPT_OC))))).

(** Reset, the addresses of the lists, interrupts, and the start. *)
Definition start_controller (ohci regs : Z) : D Dev () :=
  fm_interval ← mm_rd32 hw (regs + reg_fm_interval);
  mm_or32 hw (regs + reg_command_status) BL_OHCI_REG_COMMAND_STATUS_HCR;;
  bl_time_sleep 1;;
  mm_wr32 hw (regs + reg_fm_interval) fm_interval;;
  control_eds ← on_machine (rd32 (ohci + oc_control_eds));
  mm_wr32 hw (regs + reg_control_head_ed) control_eds;;
  mm_wr32 hw (regs + reg_control_current_ed) 0;;
  bulk_eds ← on_machine (rd32 (ohci + oc_bulk_eds));
  mm_wr32 hw (regs + reg_bulk_head_ed) bulk_eds;;
  mm_wr32 hw (regs + reg_bulk_current_ed) 0;;
  hcca ← on_machine (rd32 (ohci + oc_hcca));
  mm_wr32 hw (regs + reg_hcca) hcca;;
  mm_or32 hw (regs + reg_interrupt_disable) BL_OHCI_REG_INTERRUPT_MIE;;
  mm_or32 hw (regs + reg_interrupt_enable) (Z.lor BL_OHCI_REG_INTERRUPT_MIE interrupts);;
  mm_and32 hw (regs + reg_interrupt_status) (Z.lnot interrupts);;
  mm_or32 hw (regs + reg_control) (Z.lor BL_OHCI_REG_CONTROL_CLE BL_OHCI_REG_CONTROL_BLE);;
  fm_interval ← mm_rd32 hw (regs + reg_fm_interval);
  mm_wr32 hw (regs + reg_periodic_start) (9 * Z.land fm_interval BL_OHCI_REG_FM_INTERVAL_FI / 10);;
  mm_and32 hw (regs + reg_control) (Z.lnot BL_OHCI_REG_CONTROL_HCFS);;
  mm_or32 hw (regs + reg_control) BL_OHCI_HCFS_USB_OPERATIONAL.

Definition bl_ohci_controller_init (ohci : Z) : D Dev bl_status_t :=
  regs ← on_machine (rd32 (ohci + oc_regs));
  revision ← mm_rd32 hw (regs + reg_revision);
  if negb (Z.land revision BL_OHCI_REG_REVISION_REV =? 0x10) then mret BL_STATUS_USB_INVALID_DEVICE
  else
    a ← mm_rd32 hw (regs + reg_rh_descriptor_a);
    if 0xf <? Z.land a BL_OHCI_REG_RH_DESCRIPTOR_A_NDP then mret BL_STATUS_USB_INVALID_DEVICE
    else
      status ← take_ownership regs;
      if failed status then mret status
      else
        status ← on_machine (bl_ohci_init_data_structures ohci);
        if failed status then mret status
        else
          start_controller ohci regs;;
          mret BL_STATUS_SUCCESS.

Definition bl_ohci_pci_init (i : bl_pci_index) : D Dev bl_status_t :=
  status ← bl_pci_check_device_class io i BL_PCI_BASE_CLASS_SERIAL BL_PCI_SUBCLASS_SERIAL_USB_OHCI
             BL_PCI_PROG_IF_SERIAL_USB_OHCI;
  if failed status then mret status
  else
    base_address ← bl_pci_read_config_long io i BL_PCI_CONFIG_REG_BAR0;
    if truth (Z.land base_address BL_OHCI_PCI_BAR0_INDICATPR) ||
       (Z.land base_address BL_OHCI_PCI_BAR0_BASE_ADDRESS =? 0) then mret BL_STATUS_USB_INVALID_DEVICE
    else
      ohci ← on_machine (bl_heap_alloc sizeof_ohci_controller);
      if is_null ohci then mret BL_STATUS_MEMORY_ALLOCATION_FAILED
      else
        on_machine (wr32 (ohci + oc_regs) (Z.land base_address BL_OHCI_PCI_BAR0_BASE_ADDRESS));;
        status ← bl_ohci_controller_init ohci;
        if failed status then on_machine (bl_ohci_controller_uninit ohci);; mret status
        else
          on_machine (bl_ohci_controller_add ohci);;
          mret BL_STATUS_SUCCESS.

Definition ohci_functions : bl_usb_host_controller_functions Dev :=
  HcFunctions Dev bl_ohci_port_device_connected bl_ohci_port_device_get_speed bl_ohci_port_reset
    (λ hc port _, bl_ohci_port_device_get_speed hc port)   (* the slot is shared with [port_init] *)
    bl_ohci_control_transfer bl_ohci_bulk_transfer None None.

(** [BL_MODULE_INIT], with the registry of the USB stack. *)
Definition ohci_module_init (f : usb_frame) : D Dev () :=
  bl_pci_iterate_devices io (Some bl_ohci_pci_init);;
  ohci ← on_machine (rd32 ohci_list);
  mwhile (λ ohci,
    if truth ohci then
      hc ← on_machine (bl_heap_alloc sizeof_host_controller);
      if is_null hc then break ()
      else
        on_machine (
          wr32 (hc + hc_type) BL_USB_HC_OHCI;;
          wr32 (hc + hc_funcs) ohci_functions_ptr;;
          wr32 (hc + hc_data) ohci);;
        regs ← on_machine (rd32 (ohci + oc_regs));
        a ← mm_rd32 hw (regs + reg_rh_descriptor_a);
        on_machine (
          wr32 (hc + hc_root_hub + hub_ports) (Z.land a BL_OHCI_REG_RH_DESCRIPTOR_A_NDP);;
          bl_usb_host_controller_register f hc);;
        next ← on_machine (rd32 (ohci + oc_next));
        continue next
    else break ()) ohci.
End Ohci.
