(* ===== verification/Ehci.v ===== *)
(** * The EHCI host controller driver: modules/usb/ehci/ehci.c, ehci.h

    Registers in memory; a ring of queue heads with lists of transfer
    descriptors, which the controller reads and writes on its own: [refresh]
    runs before the driver reads a word that the controller may have changed. *)
From Stdlib Require Import String.
From S2P Require Import Prelude Memory Arith Status Strings Heap Storage Print Ports Mmio Pci Keyboard Usb.
From S2P Require Import HostController.
#[local] Open Scope Z_scope.

(** ** ehci.h *)
Definition BL_EHCI_PCI_BAR0_TYPE : Z := Z.shiftl 0x3 1.
Definition BL_EHCI_PCI_BAR0_TYPE_32_BIT : Z := 0.
Definition BL_EHCI_PCI_BAR0_BASE_ADDRESS : Z := Z.shiftl 0xffffff 8.
Definition BL_EHCI_PCI_SBRN : Z := 0x20.
Definition BL_EHCI_CAP_REG_HCI_VERSION : Z := 0x100.
Definition BL_EHCI_CAP_REG_HCSPARAMS_N_PORTS : Z := 0xf.
Definition cap_length : Z := 0.
Definition cap_hci_version : Z := 2.
Definition cap_hc_sparams : Z := 4.

Definition BL_EHCI_OP_REG_USBCMD_RUN_STOP : Z := Z.shiftl 1 0.
Definition BL_EHCI_OP_REG_USBCMD_HC_RESET : Z := Z.shiftl 1 1.
Definition BL_EHCI_OP_REG_USBCMD_PERIODIC_ENABLE : Z := Z.shiftl 1 4.
Definition BL_EHCI_OP_REG_USBCMD_ASYNC_ENABLE : Z := Z.shiftl 1 5.
Definition BL_EHCI_OP_REG_USBSTS_HC_HALTED : Z := Z.shiftl 1 12.
Definition BL_EHCI_OP_REG_CONFIGFLAG_HC_ROUTE : Z := Z.shiftl 1 0.
Definition BL_EHCI_OP_REG_PORTSC_CONNECT_STATUS : Z := Z.shiftl 1 0.
Definition BL_EHCI_OP_REG_PORTSC_ENABLED : Z := Z.shiftl 1 2.
Definition BL_EHCI_OP_REG_PORTSC_ENABLED_CHANGE : Z := Z.shiftl 1 3.
Definition BL_EHCI_OP_REG_PORTSC_PORT_RESET : Z := Z.shiftl 1 8.
Definition BL_EHCI_OP_REG_PORTSC_LINE_STATUS : Z := Z.shiftl 3 10.
Definition BL_EHCI_OP_REG_PORTSC_LINE_STATUS_K : Z := Z.shiftl 1 10.
Definition BL_EHCI_OP_REG_PORTSC_PORT_OWNER : Z := Z.shiftl 1 13.
Definition op_usb_cmd : Z := 0.
Definition op_usb_sts : Z := 4.
Definition op_periodic_list_base : Z := 20.
Definition op_async_list_addr : Z := 24.
Definition op_config_flag : Z := 64.
Definition op_port_sc : Z := 68.
Definition BL_EHCI_FRAME_LIST_PTR_T : Z := Z.shiftl 1 0.

(** [struct bl_ehci_qtd]. *)
Definition BL_EHCI_QTD_LINK_T : Z := Z.shiftl 1 0.
Definition BL_EHCI_QTD_TOKEN_MISSED_MICRO_FRAME : Z := Z.shiftl 1 2.
Definition BL_EHCI_QTD_TOKEN_XACTERR : Z := Z.shiftl 1 3.
Definition BL_EHCI_QTD_TOKEN_BABBLE_DETECTED : Z := Z.shiftl 1 4.
Definition BL_EHCI_QTD_TOKEN_DATA_BUFFER_ERROR : Z := Z.shiftl 1 5.
Definition BL_EHCI_QTD_TOKEN_HALTED : Z := Z.shiftl 1 6.
Definition BL_EHCI_QTD_TOKEN_ACTIVE : Z := Z.shiftl 1 7.
Definition BL_EHCI_QTD_TOKEN_PID_SETUP : Z := Z.shiftl 2 8.
Definition BL_EHCI_QTD_TOKEN_PID_OUT : Z := Z.shiftl 0 8.
Definition BL_EHCI_QTD_TOKEN_PID_IN : Z := Z.shiftl 1 8.
Definition BL_EHCI_QTD_TOKEN_CERR : Z := Z.shiftl 0x3 10.
Definition BL_EHCI_QTD_TOKEN_C_PAGE : Z := Z.shiftl 0x5 12.
Definition BL_EHCI_QTD_TOKEN_BUFFER_SIZE : Z := 0x1000.
Definition BL_EHCI_QTD_TOKEN_MAX_BUFFER_SIZE : Z := 0x5000.
Definition BL_EHCI_QTD_TOKEN_TOGGLE : Z := Z.shiftl 1 31.
Definition BL_EHCI_QTD_TOKEN_STATUS (token : Z) : Z := Z.land token 0xff.
Definition BL_EHCI_MAKE_QTD_CERR (cerr : Z) : Z := Z.land (Z.shiftl cerr 10) BL_EHCI_QTD_TOKEN_CERR.
Definition BL_EHCI_MAKE_QTD_C_PAGE (page : Z) : Z := Z.land (Z.shiftl page 12) BL_EHCI_QTD_TOKEN_C_PAGE.
Definition BL_EHCI_MAKE_QTD_BUFFER_SIZE (size : Z) : Z := Z.shiftl size 16.
Definition BL_EHCI_MAKE_QTD_TOGGLE (toggle : Z) : Z := Z.land (Z.shiftl toggle 31) BL_EHCI_QTD_TOKEN_TOGGLE.
Definition sizeof_qtd : Z := 64.
Definition qtd_next_qtd : Z := 0.
Definition qtd_alternate_next_qtd : Z := 4.
Definition qtd_token : Z := 8.
Definition qtd_buffer_pointer : Z := 12.
Definition qtd_extended_buffer_pointer : Z := 32.
Definition qtd_used : Z := 52.
Definition qtd_original_next_qtd : Z := 56.

(** [struct bl_ehci_qh]. *)
Definition BL_EHCI_QH_LINK_T : Z := Z.shiftl 1 0.
Definition BL_EHCI_QH_LINK_TYPE_QH : Z := Z.shiftl 1 1.
Definition BL_EHCI_QH_CHARS_ADDRESS : Z := 0x7f.
Definition BL_EHCI_QH_CHARS_ENDPOINT : Z := Z.shiftl 0xf 8.
Definition BL_EHCI_QH_CHARS_FULL_SPEED : Z := Z.shiftl 0 12.
Definition BL_EHCI_QH_CHARS_LOW_SPEED : Z := Z.shiftl 1 12.
Definition BL_EHCI_QH_CHARS_HIGH_SPEED : Z := Z.shiftl 2 12.
Definition BL_EHCI_QH_CHARS_DTC : Z := Z.shiftl 1 14.
Definition BL_EHCI_QH_CHARS_H : Z := Z.shiftl 1 15.
Definition BL_EHCI_QH_CHARS_MAX_PACKET_LEN : Z := Z.shiftl 0x3ff 16.
Definition BL_EHCI_QH_CHARS_C : Z := Z.shiftl 1 27.
Definition BL_EHCI_MAKE_QH_ADDRESS (address : Z) : Z := Z.land address BL_EHCI_QH_CHARS_ADDRESS.
Definition BL_EHCI_MAKE_QH_ENDPOINT (endpoint : Z) : Z := Z.land (Z.shiftl endpoint 8) BL_EHCI_QH_CHARS_ENDPOINT.
Definition BL_EHCI_MAKE_QH_MAX_PACKET_LEN (len : Z) : Z := Z.land (Z.shiftl len 16) BL_EHCI_QH_CHARS_MAX_PACKET_LEN.
Definition sizeof_qh : Z := 96.
Definition qh_link : Z := 0.
Definition qh_chars : Z := 4.
Definition qh_current_qtd : Z := 12.
Definition qh_overlay : Z := 16.
Definition qh_used : Z := 80.
Definition qh_first_qtd : Z := 84.
Definition qh_last_qtd : Z := 88.

(** [struct bl_ehci_controller]. *)
Definition BL_EHCI_NUM_QTDS : Z := 256.
Definition BL_EHCI_NUM_QHS : Z := 64.
Definition sizeof_ehci_controller : Z := 32.
Definition ec_cap_regs : Z := 0.
Definition ec_op_regs : Z := 4.
Definition ec_framelist_ptrs : Z := 12.
Definition ec_qh_head : Z := 16.
Definition ec_qhs : Z := 20.
Definition ec_qtds : Z := 24.
Definition ec_next : Z := 28.

Definition BL_PCI_SUBCLASS_SERIAL_USB_EHCI : Z := 0x03.
Definition BL_PCI_PROG_IF_SERIAL_USB_EHCI : Z := 0x20.
Definition BL_PCI_CONFIG_REG_BAR0 : Z := 0x10.
Definition BL_PCI_CONFIG_REG_60H : Z := 0x60.

(** ** Queue heads *)

(** The terminating links are cleared again with the rest of the overlay. *)
Definition bl_ehci_reset_qh (qh : Z) : M () :=
  wr32 (qh + qh_overlay + qtd_next_qtd) BL_EHCI_QTD_LINK_T;;
  wr32 (qh + qh_overlay + qtd_alternate_next_qtd) BL_EHCI_QTD_LINK_T;;
  bl_memset (qh + qh_overlay) 0 sizeof_qtd;;
  and32 (qh + qh_overlay + qtd_token) (Z.lnot BL_EHCI_QTD_TOKEN_ACTIVE);;
  or32 (qh + qh_overlay + qtd_token) BL_EHCI_QTD_TOKEN_HALTED.

Definition bl_ehci_set_qh (qh transfer address endpoint speed max_packet_length : Z) : M () :=
  or32 (qh + qh_chars) (BL_EHCI_MAKE_QH_ADDRESS address);;
  or32 (qh + qh_chars) (BL_EHCI_MAKE_QH_ENDPOINT endpoint);;
  let rest :=
    or32 (qh + qh_chars) BL_EHCI_QH_CHARS_DTC;;
    or32 (qh + qh_chars) (BL_EHCI_MAKE_QH_MAX_PACKET_LEN max_packet_length);;
    if negb (speed =? BL_USB_HIGH_SPEED) && (transfer =? BL_USB_TRANSFER_CONTROL)
    then or32 (qh + qh_chars) BL_EHCI_QH_CHARS_C else mret () in
  if speed =? BL_USB_LOW_SPEED then or32 (qh + qh_chars) BL_EHCI_QH_CHARS_LOW_SPEED;; rest
  else if speed =? BL_USB_FULL_SPEED then or32 (qh + qh_chars) BL_EHCI_QH_CHARS_FULL_SPEED;; rest
  else if speed =? BL_USB_HIGH_SPEED then or32 (qh + qh_chars) BL_EHCI_QH_CHARS_HIGH_SPEED;; rest
  else mret ().

Definition bl_ehci_link_qh (ehci qh : Z) : M () :=
  qh_head ← rd32 (ehci + ec_qh_head);
  link ← rd32 (qh_head + qh_link);
  wr32 (qh + qh_link) (Z.lor link BL_EHCI_QH_LINK_TYPE_QH);;
  wr32 (qh_head + qh_link) (Z.lor qh BL_EHCI_QH_LINK_TYPE_QH).

(** The queue head of the endpoint, or the first one without an endpoint. *)
Definition bl_ehci_alloc_qh (ehci address endpoint : Z) : M Z :=
  let qh_address := BL_EHCI_MAKE_QH_ADDRESS address in
  let qh_endpoint := BL_EHCI_MAKE_QH_ENDPOINT endpoint in
  qhs ← rd32 (ehci + ec_qhs);
  mwhile (λ i,
    if i <? BL_EHCI_NUM_QHS then
      let qh := u32 (qhs + i * sizeof_qh) in
      chars ← rd32 (qh + qh_chars);
      let a := Z.land chars BL_EHCI_QH_CHARS_ADDRESS in
      let e := Z.land chars BL_EHCI_QH_CHARS_ENDPOINT in
      if (a =? qh_address) && (e =? qh_endpoint) then break qh
      else if (a =? 0) && (e =? 0) then break qh
      else continue (i + 1)
    else break NULL) 1.

(** For a bulk transfer the queue head is a variable without a value. *)
Definition bl_ehci_init_qh (ehci transfer address endpoint speed max_packet_length : Z) : M Z :=
  qh ← (if transfer =? BL_USB_TRANSFER_CONTROL then
          if (address =? 0) && (endpoint =? 0) then rd32 (ehci + ec_qhs)
          else bl_ehci_alloc_qh ehci address endpoint
        else if transfer =? BL_USB_TRANSFER_BULK then diverge
        else mret NULL);
  if is_null qh then mret NULL
  else
    used ← rd32 (qh + qh_used);
    (if truth used then mret ()
     else
       bl_ehci_set_qh qh transfer address endpoint speed max_packet_length;;
       bl_ehci_link_qh ehci qh;;
       wr32 (qh + qh_used) 1);;
    mret qh.

(** ** Transfer descriptors *)
Definition bl_ehci_alloc_qtd (ehci : Z) : M Z :=
  qtds ← rd32 (ehci + ec_qtds); alloc_entry qtds sizeof_qtd BL_EHCI_NUM_QTDS qtd_used.

(** [TD_BUFFER_ALIGNMENT]: what is left behind the page of a buffer pointer. *)
Definition TD_BUFFER_ALIGNMENT (qtd index left : Z) : M Z :=
  p ← rd32 (qtd + qtd_buffer_pointer + 4 * index);
  mret (if negb (p mod BL_EHCI_QTD_TOKEN_BUFFER_SIZE =? 0)
        then s32 (left - u32 (BL_MEMORY_ALIGN_UP p BL_EHCI_QTD_TOKEN_BUFFER_SIZE - p))
        else left - BL_EHCI_QTD_TOKEN_BUFFER_SIZE).

(** The pointers to the pages of the buffer; the index of the loop stays 1. *)
Definition set_buffer (qtd buf length : Z) : M () :=
  or32 (qtd + qtd_token) (BL_EHCI_MAKE_QTD_BUFFER_SIZE length);;
  wr32 (qtd + qtd_buffer_pointer) buf;;
  left ← TD_BUFFER_ALIGNMENT qtd 0 length;
  let i := 1 in
  mwhile (λ left,
    if 0 <? left then
      p ← rd32 (qtd + qtd_buffer_pointer + 4 * (i - 1));
      wr32 (qtd + qtd_buffer_pointer + 4 * i) (BL_MEMORY_ALIGN_UP p BL_EHCI_QTD_TOKEN_BUFFER_SIZE);;
      left ← TD_BUFFER_ALIGNMENT qtd i left;
      continue left
    else break ()) left.

Definition token_pid (pid : Z) : Z :=
  if pid =? BL_USB_PID_TOKEN_SETUP then BL_EHCI_QTD_TOKEN_PID_SETUP
  else if pid =? BL_USB_PID_TOKEN_OUT then BL_EHCI_QTD_TOKEN_PID_OUT
  else if pid =? BL_USB_PID_TOKEN_IN then BL_EHCI_QTD_TOKEN_PID_IN
  else 0.

Definition bl_ehci_init_qtd (ehci buf length toggle pid : Z) : M Z :=
  if (BL_EHCI_QTD_TOKEN_MAX_BUFFER_SIZE <? length) || (length <? 0) then mret NULL
  else
    qtd ← bl_ehci_alloc_qtd ehci;
    if is_null qtd then mret NULL
    else
      wr32 (qtd + qtd_alternate_next_qtd) BL_EHCI_QTD_LINK_T;;
      wr32 (qtd + qtd_next_qtd) BL_EHCI_QTD_LINK_T;;
      wr32 (qtd + qtd_original_next_qtd) BL_EHCI_QTD_LINK_T;;
      wr32 (qtd + qtd_token) 0;;
      or32 (qtd + qtd_token) BL_EHCI_QTD_TOKEN_ACTIVE;;
      or32 (qtd + qtd_token) (token_pid pid);;
      or32 (qtd + qtd_token) (BL_EHCI_MAKE_QTD_CERR 3);;
      or32 (qtd + qtd_token) (BL_EHCI_MAKE_QTD_C_PAGE 0);;
      bl_memset (qtd + qtd_buffer_pointer) 0 20;;
      bl_memset (qtd + qtd_extended_buffer_pointer) 0 20;;
      (if truth buf && truth length then set_buffer qtd buf length
       else or32 (qtd + qtd_token) (BL_EHCI_MAKE_QTD_BUFFER_SIZE 0));;
      or32 (qtd + qtd_token) (BL_EHCI_MAKE_QTD_TOGGLE toggle);;
      mret qtd.

Definition bl_ehci_free_qtd_list (qh : Z) : M () :=
  bl_ehci_reset_qh qh;;
  qtd ← rd32 (qh + qh_first_qtd);
  mwhile (λ qtd,
    wr32 (qtd + qtd_used) 0;;
    next ← rd32 (qtd + qtd_original_next_qtd);
    if truth (Z.land next BL_EHCI_QTD_LINK_T) then break () else continue next) qtd.

(** [qtd_prev->original_next_qtd = qtd_prev->next_qtd = qtd]. *)
Definition link_qtd (qtd_prev qtd : Z) : M () :=
  wr32 (qtd_prev + qtd_next_qtd) qtd;;
  wr32 (qtd_prev + qtd_original_next_qtd) qtd.

Section Ehci.
Context {Dev : Type} (io : ports Dev) (hw : hardware Dev) (bl_time_sleep : Z → D Dev Z).
(** The addresses of the static [ehci_list] and of [ehci_functions]. *)
Context (ehci_list ehci_functions_ptr : Z).

Definition bl_ehci_controller_add (ehci : Z) : M () :=
  list ← rd32 ehci_list;
  wr32 (ehci + ec_next) list;;
  wr32 ehci_list ehci.

(** ** Ports *)
Definition bl_ehci_number_of_ports (ehci : Z) : D Dev Z :=
  cap_regs ← on_machine (rd32 (ehci + ec_cap_regs));
  v ← mm_rd32 hw (cap_regs + cap_hc_sparams);
  mret (Z.land v BL_EHCI_CAP_REG_HCSPARAMS_N_PORTS).

Definition port_sc (ehci port : Z) : D Dev Z :=
  on_machine (op_regs ← rd32 (ehci + ec_op_regs); mret (u32 (op_regs + op_port_sc + 4 * port))).

(** [port > bl_ehci_number_of_ports(ehci) || port < 0]. *)
Definition no_such_port (ehci port : Z) : D Dev bool :=
  n ← bl_ehci_number_of_ports ehci; mret ((n <? port) || (port <? 0)).

Definition bl_ehci_port_device_connected (hc port : Z) : D Dev Z :=
  ehci ← on_machine (rd32 (hc + hc_data));
  b ← no_such_port ehci port;
  if (b : bool) then mret 0
  else
    reg ← port_sc ehci port;
    v ← mm_rd32 hw reg;
    if truth (Z.land v BL_EHCI_OP_REG_PORTSC_CONNECT_STATUS) then
      mm_or32 hw reg BL_EHCI_OP_REG_PORTSC_CONNECT_STATUS;; mret 1
    else mret 0.

Definition bl_ehci_port_device_get_speed (hc port : Z) : D Dev Z :=
  ehci ← on_machine (rd32 (hc + hc_data));
  b ← no_such_port ehci port;
  if (b : bool) then mret (-1)
  else
    reg ← port_sc ehci port;
    v ← mm_rd32 hw reg;
    if truth (Z.land v BL_EHCI_OP_REG_PORTSC_PORT_OWNER) then mret (-1)
    else
      v ← mm_rd32 hw reg;
      if truth (Z.land v BL_EHCI_OP_REG_PORTSC_ENABLED) then mret BL_USB_HIGH_SPEED
      else
        connected ← bl_ehci_port_device_connected hc port;
        if truth connected then
          v ← mm_rd32 hw reg;
          mret (if Z.land v BL_EHCI_OP_REG_PORTSC_LINE_STATUS =? BL_EHCI_OP_REG_PORTSC_LINE_STATUS_K
                then -1 else BL_USB_HIGH_SPEED)
        else mret (-1).

(** Wait, [timeout - 1] times at most, until the bit of the register is clear. *)
Definition wait_clear (reg bit timeout : Z) : D Dev () :=
  mwhile (λ timeout,
    let timeout := timeout - 1 in
    if truth timeout then
      v ← mm_rd32 hw reg;
      if Z.land v bit =? 0 then break () else bl_time_sleep 1;; continue timeout
    else break ()) timeout.

Definition bl_ehci_port_reset (hc port : Z) : D Dev () :=
  ehci ← on_machine (rd32 (hc + hc_data));
  b ← no_such_port ehci port;
  if (b : bool) then mret ()
  else
    reg ← port_sc ehci port;
    mm_and32 hw reg (Z.lnot BL_EHCI_OP_REG_PORTSC_ENABLED);;
    wait_clear reg BL_EHCI_OP_REG_PORTSC_ENABLED 10;;
    v ← mm_rd32 hw reg;
    if truth (Z.land v BL_EHCI_OP_REG_PORTSC_ENABLED_CHANGE) then mret ()
    else
      mm_or32 hw reg BL_EHCI_OP_REG_PORTSC_PORT_RESET;;
      bl_time_sleep 50;;
      mm_and32 hw reg (Z.lnot BL_EHCI_OP_REG_PORTSC_PORT_RESET);;
      bl_time_sleep 10;;
      mm_rd32 hw reg;;
      mret ().

(** ** Waiting for a transfer *)
Definition overlay_token (qh : Z) : D Dev Z := refresh hw;; on_machine (rd32 (qh + qh_overlay + qtd_token)).

Definition bl_ehci_transfer_status (qh : Z) : D Dev bl_status_t :=
  token ← overlay_token qh;
  let s := BL_EHCI_QTD_TOKEN_STATUS token in
  mret (if s =? BL_EHCI_QTD_TOKEN_BABBLE_DETECTED then BL_STATUS_USB_BABBLE_DETECTED
        else if (s =? BL_EHCI_QTD_TOKEN_MISSED_MICRO_FRAME) || (s =? BL_EHCI_QTD_TOKEN_XACTERR) ||
                (s =? BL_EHCI_QTD_TOKEN_DATA_BUFFER_ERROR) then BL_STATUS_USB_DATA_BUFFER_ERROR
        else BL_STATUS_USB_NAK_RECEIVED).

Definition bl_ehci_transfer_finished (qh : Z) : D Dev bl_status_t :=
  token ← overlay_token qh;
  if truth (Z.land token BL_EHCI_QTD_TOKEN_HALTED) then mret BL_STATUS_USB_SHOULD_CHECK_STATUS
  else
    token ← overlay_token qh;
    if Z.land token BL_EHCI_QTD_TOKEN_ACTIVE =? 0 then
      refresh hw;;
      next ← on_machine (rd32 (qh + qh_overlay + qtd_next_qtd));
      if next =? BL_EHCI_QTD_LINK_T then
        refresh hw;;
        last ← on_machine (rd32 (qh + qh_last_qtd));
        current ← on_machine (rd32 (qh + qh_current_qtd));
        mret (if last =? current then BL_STATUS_SUCCESS else BL_STATUS_USB_ACTION_NOT_FINISHED)
      else mret BL_STATUS_USB_ACTION_NOT_FINISHED
    else mret BL_STATUS_USB_ACTION_NOT_FINISHED.

Definition bl_ehci_check_transfer_timeout (qh timeout : Z) : D Dev bl_status_t :=
  o ← mwhile (λ timeout,
        let timeout := timeout - 1 in
        if truth timeout then
          bl_time_sleep 1;;
          status ← bl_ehci_transfer_finished qh;
          if negb (failed status) then
            on_machine (bl_ehci_free_qtd_list qh);; break (Some status)
          else if bool_decide (status = BL_STATUS_USB_SHOULD_CHECK_STATUS) then break None
          else continue timeout
        else break None) timeout;
  match o with
  | Some status => mret status
  | None => on_machine (print_literal "EHCI transfer error";; emit 10);; bl_ehci_transfer_status qh
  end.

(** ** Control transfers *)

(** The descriptors of a control transfer: the first one and the last one, or
    [None] when there are too few. *)
Definition control_qtds (ehci packet_size setup data length : Z) : M (option (Z * Z)) :=
  qtd_head ← bl_ehci_init_qtd ehci setup sizeof_setup_data 0 BL_USB_PID_TOKEN_SETUP;
  if is_null qtd_head then mret None
  else if length =? 0 then
    qtd ← bl_ehci_init_qtd ehci NULL 0 1 BL_USB_PID_TOKEN_IN;
    if is_null qtd then mret None
    else link_qtd qtd_head qtd;; mret (Some (qtd_head, qtd))
  else
    o ← mwhile (λ '(qtd, toggle, off, length),
          if 0 <? length then
            let qtd_prev := qtd in
            let toggle := if truth toggle then 0 else 1 in
            pid ← bl_usb_direction_pid setup;
            qtd ← bl_ehci_init_qtd ehci (u32 (data + off)) (Z.min length packet_size) toggle pid;
            if is_null qtd then break None
            else
              link_qtd qtd_prev qtd;;
              continue (qtd, toggle, off + packet_size, length - packet_size)
          else break (Some qtd)) (qtd_head, 0, 0, length);
    match o with
    | None => mret None
    | Some qtd_prev =>
        pid ← bl_usb_direction_pid setup;
        qtd ← bl_ehci_init_qtd ehci NULL 0 1 pid;
        if is_null qtd then mret None
        else link_qtd qtd_prev qtd;; mret (Some (qtd_head, qtd))
    end.

Definition bl_ehci_control_transfer (hc packet_size address speed setup data length : Z) : D Dev bl_status_t :=
  ehci ← on_machine (rd32 (hc + hc_data));
  let packet_size := if packet_size =? 0 then 8 else packet_size in
  qh ← on_machine (bl_ehci_init_qh ehci BL_USB_TRANSFER_CONTROL address 0 speed packet_size);
  if is_null qh then mret BL_STATUS_USB_INTERNAL_ERROR
  else
    o ← on_machine (control_qtds ehci packet_size setup data length);
    match o with
    | None => mret BL_STATUS_USB_INTERNAL_ERROR
    | Some (qtd_head, qtd) =>
        on_machine (
          wr32 (qh + qh_overlay + qtd_next_qtd) qtd_head;;
          wr32 (qh + qh_first_qtd) qtd_head;;
          wr32 (qh + qh_last_qtd) qtd;;
          and32 (qh + qh_overlay + qtd_token)
            (Z.lnot (Z.lor BL_EHCI_QTD_TOKEN_HALTED BL_EHCI_QTD_TOKEN_ACTIVE)));;
        bl_ehci_check_transfer_timeout qh 100
    end.

(** ** Set-up *)
Definition bl_ehci_controller_uninit (ehci : Z) : M () :=
  if is_null ehci then mret ()
  else
    qh_head ← rd32 (ehci + ec_qh_head);
    (if truth qh_head then bl_heap_free qh_head sizeof_qh;; wr32 (ehci + ec_qh_head) NULL else mret ());;
    qhs ← rd32 (ehci + ec_qhs);
    (if truth qhs then bl_heap_free qhs (BL_EHCI_NUM_QHS * sizeof_qh);; wr32 (ehci + ec_qhs) NULL else mret ());;
    bl_heap_free ehci sizeof_ehci_controller.

(** The pool of queue heads, each a ring of its own. *)
Definition init_qhs (qhs : Z) : M () :=
  mwhile (λ i,
    if i <? BL_EHCI_NUM_QHS then
      let qh := u32 (qhs + i * sizeof_qh) in
      wr32 (qh + qh_used) 0;;
      wr32 (qh + qh_link) (Z.lor (Z.lor qh BL_EHCI_QH_LINK_TYPE_QH) BL_EHCI_QH_LINK_T);;
      bl_ehci_reset_qh qh;;
      continue (i + 1)
    else break ()) 0.

Definition init_qtds (qtds : Z) : M () :=
  mwhile (λ i,
    if i <? BL_EHCI_NUM_QTDS then
      let qtd := qtds + i * sizeof_qtd in
      wr32 (qtd + qtd_alternate_next_qtd) BL_EHCI_QTD_LINK_T;;
      wr32 (qtd + qtd_next_qtd) BL_EHCI_QTD_LINK_T;;
      wr32 (qtd + qtd_original_next_qtd) BL_EHCI_QTD_LINK_T;;
      continue (i + 1)
    else break ()) 0.

Definition bl_ehci_init_data_structures (ehci : Z) : D Dev bl_status_t :=
  framelist_ptrs ← on_machine (bl_heap_alloc_align 0x1000 0x1000);
  on_machine (wr32 (ehci + ec_framelist_ptrs) framelist_ptrs);;
  if is_null framelist_ptrs then mret BL_STATUS_MEMORY_ALLOCATION_FAILED
  else
    on_machine (mwhile (λ i,
      if i <? 1024 then wr32 (framelist_ptrs + 4 * i) BL_EHCI_FRAME_LIST_PTR_T;; continue (i + 1)
      else break ()) 0);;
    qh_head ← on_machine (bl_heap_alloc_align sizeof_qh 0x20);
    on_machine (wr32 (ehci + ec_qh_head) qh_head);;
    if is_null qh_head then mret BL_STATUS_MEMORY_ALLOCATION_FAILED
    else
      on_machine (
        wr32 (qh_head + qh_link) (Z.lor (Z.lor qh_head BL_EHCI_QH_LINK_TYPE_QH) BL_EHCI_QH_LINK_T);;
        bl_ehci_reset_qh qh_head;;
        wr32 (qh_head + qh_chars) BL_EHCI_QH_CHARS_H);;
      qhs ← on_machine (bl_heap_alloc_align (BL_EHCI_NUM_QHS * sizeof_qh) 0x20);
      on_machine (wr32 (ehci + ec_qhs) qhs);;
      if is_null qhs then mret BL_STATUS_MEMORY_ALLOCATION_FAILED
      else
        on_machine (init_qhs qhs);;
        qtds ← on_machine (bl_heap_alloc_align (BL_EHCI_NUM_QTDS * sizeof_qtd) 0x20);
        on_machine (wr32 (ehci + ec_qtds) qtds);;
        if is_null qtds then mret BL_STATUS_MEMORY_ALLOCATION_FAILED
        else
          on_machine (init_qtds qtds);;
          op_regs ← on_machine (rd32 (ehci + ec_op_regs));
          mm_wr32 hw (op_regs + op_periodic_list_base) framelist_ptrs;;
          mm_wr32 hw (op_regs + op_async_list_addr) qh_head;;
          mm_or32 hw (op_regs + op_usb_cmd)
            (Z.lor BL_EHCI_OP_REG_USBCMD_PERIODIC_ENABLE BL_EHCI_OP_REG_USBCMD_ASYNC_ENABLE);;
          mret BL_STATUS_SUCCESS.

Definition bl_ehci_controller_init (ehci : Z) : D Dev bl_status_t :=
  cap_regs ← on_machine (rd32 (ehci + ec_cap_regs));
  version ← mm_rd16 hw (cap_regs + cap_hci_version);
  if negb (version =? BL_EHCI_CAP_REG_HCI_VERSION) then mret BL_STATUS_USB_INVALID_HOST_CONTROLLER
  else
    length ← mm_rd8 hw (cap_regs + cap_length);
    let op_regs := u32 (cap_regs + length) in
    on_machine (wr32 (ehci + ec_op_regs) op_regs);;
    mm_and32 hw (op_regs + op_usb_cmd) (Z.lnot BL_EHCI_OP_REG_USBCMD_RUN_STOP);;
    bl_time_sleep 2;;
    sts ← mm_rd32 hw (op_regs + op_usb_sts);
    if Z.land sts BL_EHCI_OP_REG_USBSTS_HC_HALTED =? 0 then mret BL_STATUS_USB_INTERNAL_ERROR
    else
      mm_or32 hw (op_regs + op_usb_cmd) BL_EHCI_OP_REG_USBCMD_HC_RESET;;
      wait_clear (op_regs + op_usb_cmd) BL_EHCI_OP_REG_USBCMD_HC_RESET 50;;
      cmd ← mm_rd32 hw (op_regs + op_usb_cmd);
      if truth (Z.land cmd BL_EHCI_OP_REG_USBSTS_HC_HALTED) then mret BL_STATUS_USB_INTERNAL_ERROR
      else
        status ← bl_ehci_init_data_structures ehci;
        if failed status then mret status
        else
          mm_or32 hw (op_regs + op_config_flag) BL_EHCI_OP_REG_CONFIGFLAG_HC_ROUTE;;
          mm_or32 hw (op_regs + op_usb_cmd) BL_EHCI_OP_REG_USBCMD_RUN_STOP;;
          mret BL_STATUS_SUCCESS.

Definition bl_ehci_pci_init (i : bl_pci_index) : D Dev bl_status_t :=
  status ← bl_pci_check_device_class io i BL_PCI_BASE_CLASS_SERIAL BL_PCI_SUBCLASS_SERIAL_USB_EHCI
             BL_PCI_PROG_IF_SERIAL_USB_EHCI;
  if failed status then mret status
  else
    sbrn ← bl_pci_read_config_byte io i BL_PCI_CONFIG_REG_60H;
    if negb (sbrn =? BL_EHCI_PCI_SBRN) then mret BL_STATUS_USB_INVALID_HOST_CONTROLLER
    else
      base_address ← bl_pci_read_config_long io i BL_PCI_CONFIG_REG_BAR0;
      if negb (Z.land base_address BL_EHCI_PCI_BAR0_TYPE =? BL_EHCI_PCI_BAR0_TYPE_32_BIT)
      then mret BL_STATUS_USB_INVALID_HOST_CONTROLLER
      else
        ehci ← on_machine (bl_heap_alloc sizeof_ehci_controller);
        if is_null ehci then mret BL_STATUS_MEMORY_ALLOCATION_FAILED
        else
          on_machine (wr32 (ehci + ec_cap_regs) (Z.land base_address BL_EHCI_PCI_BAR0_BASE_ADDRESS));;
          status ← bl_ehci_controller_init ehci;
          if failed status then on_machine (bl_ehci_controller_uninit ehci);; mret status
          else
            on_machine (bl_ehci_controller_add ehci);;
            mret BL_STATUS_SUCCESS.

(** Bulk transfers have no function: a call goes through a null pointer. *)
Definition ehci_functions : bl_usb_host_controller_functions Dev :=
  HcFunctions Dev bl_ehci_port_device_connected bl_ehci_port_device_get_speed bl_ehci_port_reset
    (λ hc port _, bl_ehci_port_device_get_speed hc port)   (* the slot is shared with [port_init] *)
    bl_ehci_control_transfer (λ _ _ _ _ _ _ _, diverge) None None.

(** [BL_MODULE_INIT], with the registry of the USB stack. *)
Definition ehci_module_init (f : usb_frame) : D Dev () :=
  bl_pci_iterate_devices io (Some bl_ehci_pci_init);;
  ehci ← on_machine (rd32 ehci_list);
  mwhile (λ ehci,
    if truth ehci then
      hc ← on_machine (bl_heap_alloc sizeof_host_controller);
      if is_null hc then break ()
      else
        on_machine (
          wr32 (hc + hc_type) BL_USB_HC_EHCI;;
          wr32 (hc + hc_funcs) ehci_functions_ptr;;
          wr32 (hc + hc_data) ehci);;
        n ← bl_ehci_number_of_ports ehci;
        on_machine (
          wr32 (hc + hc_root_hub + hub_ports) n;;
          bl_usb_host_controller_register f hc);;
        next ← on_machine (rd32 (ehci + ec_next));
        continue next
    else break ()) ehci.
End Ehci.
