(* ===== verification/Xhci.v ===== *)
(** * The XHCI host controller driver: modules/usb/xhci/xhci.c, xhci.h

    Registers in memory; rings of 16-byte blocks (TRBs) for commands, events and
    transfers, and contexts of devices, which the controller reads and writes on
    its own: [refresh] runs before the driver reads what the controller may have
    written, the event ring and the output contexts. *)
From Stdlib Require Import String.
From S2P Require Import Prelude Memory Arith Status Strings Heap Storage Print Ports Mmio Pci Keyboard Usb.
From S2P Require Import HostController.
#[local] Open Scope Z_scope.

(** ** xhci.h *)
Definition BL_XHCI_PCI_BAR0_BASE_ADDRESS : Z := Z.shiftl 0xffffff 8.
Definition BL_XHCI_PCI_SBRN_2_0 : Z := 0x20.
Definition BL_XHCI_PCI_SBRN_3_0 : Z := 0x30.
Definition BL_XHCI_PCI_SBRN_3_1 : Z := 0x31.
Definition BL_XHCI_HCSPARAMS1_MAXSLOTS : Z := 0xff.
Definition BL_XHCI_HCSPARAMS1_MAXPORTS (hcsparams1 : Z) : Z := Z.land (Z.shiftr hcsparams1 24) 0xff.
Definition BL_XHCI_HCCPARAMS1_XECP (hccparams1 : Z) : Z := Z.land (Z.shiftr hccparams1 16) 0xffff.
Definition BL_XHCI_RTSOFF_RSVD : Z := Z.lnot 0x1f.
Definition BL_XHCI_DBOFF_RSVD : Z := Z.lnot 0x3.
Definition cap_caplength : Z := 0.
Definition cap_hcsparams1 : Z := 4.
Definition cap_hccparams1 : Z := 16.
Definition cap_dboff : Z := 20.
Definition cap_rtsoff : Z := 24.
Definition BL_XHCI_USBCMD_RS : Z := Z.shiftl 1 0.
Definition BL_XHCI_USBCMD_HCRST : Z := Z.shiftl 1 1.
Definition BL_XHCI_USBSTS_HCH : Z := Z.shiftl 1 0.
Definition BL_XHCI_USBSTS_CNR : Z := Z.shiftl 1 11.
Definition BL_XHCI_CONFIG_MAXSLOTSEN : Z := 0xff.
Definition op_usbcmd : Z := 0.
Definition op_usbsts : Z := 4.
Definition op_crcr : Z := 24.
Definition op_dcbaap : Z := 48.
Definition op_config : Z := 56.
Definition BL_XHCI_PORTSC_CCS : Z := Z.shiftl 1 0.
Definition BL_XHCI_PORTSC_PED : Z := Z.shiftl 1 1.
Definition BL_XHCI_PORTSC_PR : Z := Z.shiftl 1 4.
Definition BL_XHCI_PORTSC_CSC : Z := Z.shiftl 1 17.
Definition BL_XHCI_PORTSC_PRC : Z := Z.shiftl 1 21.
Definition BL_XHCI_PORTSC_PLS_U0 : Z := 0.
Definition BL_XHCI_PORTSC_PLS (portsc : Z) : Z := Z.land (Z.shiftr portsc 5) 0xf.
Definition BL_XHCI_PORTSC_PORT_SPEED (portsc : Z) : Z := Z.land (Z.shiftr portsc 10) 0xf.
Definition sizeof_port_register_set : Z := 16.
Definition BL_XHCI_USB_FULL_SPEED : Z := 1.
Definition BL_XHCI_USB_LOW_SPEED : Z := 2.
Definition BL_XHCI_USB_HIGH_SPEED : Z := 3.
Definition BL_XHCI_USB_SUPER_SPEED : Z := 4.
Definition BL_XHCI_USB_SUPER_SPEED_PLUS : Z := 5.
(** The speeds of usb.h that only this driver tells apart. *)
Definition BL_USB_SUPER_SPEED : Z := 3.
Definition BL_USB_SUPER_SPEED_PLUS : Z := 4.

(** TRBs. *)
Definition BL_XHCI_TR_TRB_NORMAL : Z := 1.
Definition BL_XHCI_TR_TRB_SETUP : Z := 2.
Definition BL_XHCI_TR_TRB_DATA : Z := 3.
Definition BL_XHCI_TR_TRB_STATUS : Z := 4.
Definition BL_XHCI_TR_TRB_LINK : Z := 6.
Definition BL_XHCI_CR_TRB_LINK : Z := 6.
Definition BL_XHCI_CR_TRB_ENABLE_SLOT : Z := 9.
Definition BL_XHCI_CR_TRB_ADDRESS_DEVICE : Z := 11.
Definition BL_XHCI_CR_TRB_CONFIGURE_ENDPOINT : Z := 12.
Definition BL_XHCI_TRB_CC_SUCCESS : Z := 1.
Definition BL_XHCI_TRB_CC (status : Z) : Z := Z.land (Z.shiftr status 24) 0xff.
Definition BL_XHCI_TRB_C : Z := Z.shiftl 1 0.
Definition BL_XHCI_TRB_TYPE (type : Z) : Z := Z.shiftl (Z.land type 0x3f) 10.
Definition BL_XHCI_TRB_SLOT_ID (control : Z) : Z := Z.land (Z.shiftr control 24) 0xff.
Definition BL_XHCI_TRB_SET_SLOT_ID (slot_id : Z) : Z := Z.shiftl (Z.land slot_id 0xff) 24.
Definition BL_XHCI_TRB_INPUT_CONTEXT_PTR_RSVD : Z := Z.lnot 0xf.
Definition BL_XHCI_TRB_PORT_ID (parameter : Z) : Z := Z.land (Z.shiftr parameter 24) 0xff.
Definition BL_XHCI_CONTROL_TRT_IN_DATA_STAGE : Z := 3.
Definition sizeof_trb : Z := 16.
Definition trb_parameter : Z := 0.
Definition trb_status : Z := 8.
Definition trb_control : Z := 12.

(** [struct bl_xhci_erst], the interrupter, the extended capabilities. *)
Definition sizeof_erst : Z := 16.
Definition erst_ring_segment_address : Z := 0.
Definition erst_ring_segment_size : Z := 8.
Definition rt_interrupters : Z := 32.
Definition int_erstsz : Z := 8.
Definition int_erstba : Z := 16.
Definition int_erdp : Z := 24.
Definition ecpr_cap_id : Z := 0.
Definition ecpr_next : Z := 1.
Definition ecpr_cap_specific : Z := 2.
Definition BL_XHCI_EXTENDED_CAPABILITY_SUPPORTED_PROTOCOL : Z := 2.
Definition sp_revision_minor : Z := 0.
Definition sp_revision_major : Z := 1.
Definition sp_name_string : Z := 2.
Definition sp_compatible_port_offset : Z := 6.
Definition sp_compatible_port_count : Z := 7.
Definition sp_protocol_defined : Z := 8.
Definition sp_protocol_slot_type : Z := 10.

(** Contexts. *)
Definition BL_XHCI_EP_STATE_RUNNING : Z := 1.
Definition BL_XHCI_EP_TYPE_NOT_VALID : Z := 0.
Definition BL_XHCI_EP_TYPE_BULK_OUT : Z := 2.
Definition BL_XHCI_EP_TYPE_CONTROL : Z := 4.
Definition BL_XHCI_EP_TYPE_BULK_IN : Z := 6.
Definition BL_XHCI_INPUT_CONTROL_CONTEXT_A (n : Z) : Z := Z.shiftl 1 n.
Definition sizeof_input_context : Z := 1056.
Definition ic_drop_context_flags : Z := 0.
Definition ic_add_context_flags : Z := 4.
Definition ic_slot : Z := 32.
Definition ic_ep_context0 : Z := 64.
Definition ic_ep_context : Z := 96.
Definition sizeof_device_context : Z := 1024.
Definition dc_ep_context : Z := 64.   (* of [ep_context[0]] *)
Definition slot_root_hub_port_number : Z := 6.
Definition slot_usb_device_address : Z := 12.
Definition sizeof_endpoint_context : Z := 32.
Definition epc_state : Z := 0.
Definition epc_streams : Z := 1.
Definition epc_interval : Z := 2.
Definition epc_type : Z := 4.
Definition epc_max_burst_size : Z := 5.
Definition epc_max_packet_size : Z := 6.
Definition epc_tr_dequeue_pointer : Z := 8.

(** [struct bl_xhci_device] and [struct bl_xhci_controller]. *)
Definition BL_XHCI_TR_TRBS : Z := 128.
Definition BL_XHCI_CR_TRBS : Z := 128.
Definition BL_XHCI_ER_TRBS : Z := 32.
Definition sizeof_xhci_device : Z := 260.
Definition xd_slot_id : Z := 0.
Definition xd_tr_enqueue : Z := 4.
Definition xd_tr : Z := 128.
Definition xd_ic : Z := 252.
Definition xd_dc : Z := 256.
Definition sizeof_xhci_controller : Z := 64.
Definition xc_cap_regs : Z := 0.
Definition xc_op_regs : Z := 4.
Definition xc_ports : Z := 8.
Definition xc_port_usb_type : Z := 12.
Definition xc_dcbaa : Z := 16.
Definition xc_command_ring : Z := 20.
Definition xc_cr_enqueue : Z := 24.
Definition xc_cr_dequeue : Z := 28.
Definition xc_erst : Z := 32.
Definition xc_event_ring : Z := 36.
Definition xc_er_dequeue : Z := 40.
Definition xc_rt_regs : Z := 44.
Definition xc_db_regs : Z := 48.
Definition xc_interrupter : Z := 52.
Definition xc_devices : Z := 56.
Definition xc_next : Z := 60.

Definition BL_PCI_SUBCLASS_SERIAL_USB_XHCI : Z := 0x03.
Definition BL_PCI_PROG_IF_SERIAL_USB_XHCI : Z := 0x30.
Definition BL_PCI_CONFIG_REG_BAR0 : Z := 0x10.
Definition BL_PCI_CONFIG_REG_60H : Z := 0x60.

(** [(bl_uint64_t)p] of a pointer: the compiler extends its sign. *)
Definition ptr64 (p : Z) : Z := u64 (s32 p).

(** Bit fields of [n] bits from bit [k] on. *)
Definition put_bits32 (a k n v : Z) : M () := w ← rd32 a; wr32 a (set_field w k n v).
Definition put_bits8 (a k n v : Z) : M () := w ← rd8 a; wr8 a (set_field w k n v).
Definition get_bits8 (a k n : Z) : M Z := w ← rd8 a; mret (Z.land (Z.shiftr w k) (Z.ones n)).

(** ** Rings *)

(** The driver's own output about a block. *)
Definition foo (trb : Z) : M () :=
  bl_print_hex trb;; print_literal " ";;
  parameter ← rd64 (trb + trb_parameter); bl_print_hex64 parameter;; print_literal " ";;
  status ← rd32 (trb + trb_status); bl_print_hex status;; print_literal " ";;
  control ← rd32 (trb + trb_control); bl_print_hex control;; emit 10.

(** [trb->template.parameter = ...; status; control]. *)
Definition put_trb (trb parameter status control : Z) : M () :=
  wr64 (trb + trb_parameter) parameter;;
  wr32 (trb + trb_status) status;;
  wr32 (trb + trb_control) control.

Definition copy_trb (trb td : Z) : M () :=
  parameter ← rd64 (td + trb_parameter); wr64 (trb + trb_parameter) parameter;;
  status ← rd32 (td + trb_status); wr32 (trb + trb_status) status;;
  control ← rd32 (td + trb_control); wr32 (trb + trb_control) control.

(** A ring of cleared blocks; the last one leads to the first. *)
Definition clear_ring (ring count : Z) : M () :=
  mwhile (λ i,
    if i <? count then bl_memset (u32 (ring + i * sizeof_trb)) 0 sizeof_trb;; continue (i + 1)
    else break ()) 0.

Definition bl_xhci_alloc_transfer_ring : M Z :=
  tr ← bl_heap_alloc_align (BL_XHCI_TR_TRBS * sizeof_trb) 0x10;
  if is_null tr then mret NULL
  else
    clear_ring tr BL_XHCI_TR_TRBS;;
    let link := tr + (BL_XHCI_TR_TRBS - 1) * sizeof_trb in
    wr64 (link + trb_parameter) (ptr64 tr);;
    or32 (link + trb_control) (BL_XHCI_TRB_TYPE BL_XHCI_TR_TRB_LINK);;
    mret tr.

(** The device at an address, as the code reaches it every time. *)
Definition xhci_device (xhci address : Z) : M Z :=
  devices ← rd32 (xhci + xc_devices); rd32 (u32 (devices + 4 * address)).

(** The block at the enqueue pointer of endpoint [n] gets what is at [td], is
    shown, and the pointer moves on. *)
Definition enqueue (xhci address n td : Z) (show : Z → M ()) : M () :=
  device ← xhci_device xhci address;
  trb ← rd32 (device + xd_tr_enqueue + 4 * n);
  copy_trb trb td;;
  show trb;;
  device ← xhci_device xhci address;
  p ← rd32 (device + xd_tr_enqueue + 4 * n);
  wr32 (device + xd_tr_enqueue + 4 * n) (u32 (p + sizeof_trb)).

(** ** The blocks of a transfer on the stack *)
Definition setup_td (td setup : Z) : M () :=
  bl_memset td 0 sizeof_trb;;
  put_bits32 (td + trb_control) 10 6 BL_XHCI_TR_TRB_SETUP;;
  put_bits32 (td + trb_control) 16 2 BL_XHCI_CONTROL_TRT_IN_DATA_STAGE;;
  put_bits32 (td + trb_status) 0 17 sizeof_setup_data;;
  put_bits32 (td + trb_control) 5 1 0;;
  put_bits32 (td + trb_control) 6 1 1;;
  bl_memcpy td setup sizeof_setup_data;;
  put_bits32 (td + trb_control) 0 1 1.

Definition data_td (td data off length packet_size : Z) : M () :=
  bl_memset td 0 sizeof_trb;;
  put_bits32 (td + trb_control) 10 6 BL_XHCI_TR_TRB_DATA;;
  put_bits32 (td + trb_control) 16 1 1;;
  put_bits32 (td + trb_status) 0 17 (Z.min length packet_size);;
  put_bits32 (td + trb_control) 4 1 0;;
  put_bits32 (td + trb_control) 5 1 0;;
  put_bits32 (td + trb_control) 6 1 0;;
  wr64 (td + trb_parameter) (u64 (ptr64 data + off));;
  put_bits32 (td + trb_control) 0 1 1.

Definition status_td (td : Z) : M () :=
  bl_memset td 0 sizeof_trb;;
  put_bits32 (td + trb_control) 10 6 BL_XHCI_TR_TRB_STATUS;;
  put_bits32 (td + trb_control) 16 1 0;;
  put_bits32 (td + trb_control) 4 1 0;;
  put_bits32 (td + trb_control) 5 1 1;;
  put_bits32 (td + trb_control) 0 1 1.

Definition normal_td (td data off length packet_size : Z) : M () :=
  bl_memset td 0 sizeof_trb;;
  put_bits32 (td + trb_control) 10 6 BL_XHCI_TR_TRB_NORMAL;;
  wr64 (td + trb_parameter) (u64 (ptr64 data + off));;
  put_bits32 (td + trb_status) 0 17 (Z.min length packet_size);;
  put_bits32 (td + trb_status) 17 5 0;;
  put_bits32 (td + trb_control) 0 1 0;;
  put_bits32 (td + trb_control) 1 1 0;;
  put_bits32 (td + trb_control) 4 1 (b2z (packet_size <? length));;
  put_bits32 (td + trb_control) 5 1 0;;
  put_bits32 (td + trb_control) 6 1 0;;
  put_bits32 (td + trb_control) 9 1 0.

(** Addresses of the blocks on the stack of the two transfer functions. *)
Record xhci_frame := XhciFrame { xf_td1 : Z; xf_td2 : Z; xf_td3 : Z; xf_td : Z }.

Section Xhci.
Context {Dev : Type} (io : ports Dev) (hw : hardware Dev) (bl_time_sleep : Z → D Dev Z).
(** The addresses of the static [bl_xhci_list] and of [bl_xhci_functions]. *)
Context (bl_xhci_list bl_xhci_functions_ptr : Z) (frame : xhci_frame).

Definition bl_xhci_controller_add (xhci : Z) : M () :=
  list ← rd32 bl_xhci_list;
  wr32 (xhci + xc_next) list;;
  wr32 bl_xhci_list xhci.

(** ** Events and commands *)
Definition bl_xhci_get_last_event (xhci : Z) : D Dev Z :=
  refresh hw;;
  on_machine (
    trb ← rd32 (xhci + xc_er_dequeue);
    control ← rd32 (trb + trb_control);
    if truth (Z.land control BL_XHCI_TRB_C) then
      wr32 (xhci + xc_er_dequeue) (u32 (trb + sizeof_trb));; mret trb
    else mret NULL).

(** The next event, or a null pointer after 19 rounds. *)
Definition wait_event (xhci : Z) : D Dev Z :=
  o ← mwhile (λ '(timeout, event),
        let timeout := timeout - 1 in
        if truth timeout then
          event ← bl_xhci_get_last_event xhci;
          if truth event then on_machine (foo event);; break event
          else bl_time_sleep 1;; continue (timeout, event)
        else break event) (20, NULL);
  mret o.

Definition bl_xhci_cr_queue_trb (xhci parameter status control : Z) : D Dev Z :=
  on_machine (trb ← rd32 (xhci + xc_cr_enqueue); put_trb trb parameter status control);;
  db_regs ← on_machine (rd32 (xhci + xc_db_regs));
  mm_wr32 hw db_regs 0;;
  event ← wait_event xhci;
  if is_null event then mret NULL
  else
    on_machine (trb ← rd32 (xhci + xc_cr_enqueue); wr32 (xhci + xc_cr_enqueue) (u32 (trb + sizeof_trb)));;
    mret event.

Definition bl_xhci_cr_enable_slot (xhci : Z) : D Dev Z :=
  event ← bl_xhci_cr_queue_trb xhci 0 0 (Z.lor (BL_XHCI_TRB_TYPE BL_XHCI_CR_TRB_ENABLE_SLOT) BL_XHCI_TRB_C);
  if is_null event then mret (-1)
  else
    on_machine (
      status ← rd32 (event + trb_status);
      if negb (BL_XHCI_TRB_CC status =? BL_XHCI_TRB_CC_SUCCESS) then mret (-1)
      else control ← rd32 (event + trb_control); mret (BL_XHCI_TRB_SLOT_ID control)).

(** A command about an input context; its outcome is not passed on. *)
Definition context_command (xhci ic slot_id type : Z) : D Dev () :=
  bl_xhci_cr_queue_trb xhci (u64 (Z.land (ptr64 ic) BL_XHCI_TRB_INPUT_CONTEXT_PTR_RSVD)) 0
    (Z.lor (Z.lor (BL_XHCI_TRB_SET_SLOT_ID slot_id) (BL_XHCI_TRB_TYPE type)) BL_XHCI_TRB_C);;
  mret ().
Definition bl_xhci_cr_address_device (xhci ic slot_id : Z) : D Dev () :=
  context_command xhci ic slot_id BL_XHCI_CR_TRB_ADDRESS_DEVICE.
Definition bl_xhci_cr_configure_endpoint (xhci ic slot_id : Z) : D Dev () :=
  context_command xhci ic slot_id BL_XHCI_CR_TRB_CONFIGURE_ENDPOINT.

(** ** Devices *)

(** The input context of a new device, whose control ring is [tr]. *)
Definition init_endpoint0 (ep tr speed : Z) : M () :=
  put_bits8 (ep + epc_type) 3 3 BL_XHCI_EP_TYPE_CONTROL;;
  (if (speed =? BL_USB_LOW_SPEED) || (speed =? BL_USB_FULL_SPEED) then wr16 (ep + epc_max_packet_size) 8
   else if speed =? BL_USB_HIGH_SPEED then wr16 (ep + epc_max_packet_size) 64
   else if (speed =? BL_USB_SUPER_SPEED) || (speed =? BL_USB_SUPER_SPEED_PLUS)
   then wr16 (ep + epc_max_packet_size) 512
   else mret ());;
  wr8 (ep + epc_max_burst_size) 0;;
  wr64 (ep + epc_tr_dequeue_pointer) (Z.lor (ptr64 tr) 1);;
  wr8 (ep + epc_interval) 0;;
  put_bits8 (ep + epc_streams) 2 5 0;;
  put_bits8 (ep + epc_streams) 0 2 0;;
  put_bits8 (ep + epc_type) 1 2 3.

(** [xhci->devices[address]] of a device in a slot. *)
Definition save_device (xhci address slot_id tr ic dc : Z) : M () :=
  device ← bl_heap_alloc sizeof_xhci_device;
  devices ← rd32 (xhci + xc_devices);
  wr32 (u32 (devices + 4 * address)) device;;
  if is_null device then mret ()
  else
    wr32 (device + xd_slot_id) slot_id;;
    wr32 (device + xd_tr) tr;;
    wr32 (device + xd_tr_enqueue) tr;;
    wr32 (device + xd_ic) ic;;
    wr32 (device + xd_dc) dc.

Definition bl_xhci_device_slot_init (xhci port slot_id speed address : Z) : D Dev () :=
  ic ← on_machine (bl_heap_alloc_align sizeof_input_context 0x10);
  if is_null ic then mret ()
  else
    on_machine (
      bl_memset ic 0 sizeof_input_context;;
      or32 (ic + ic_add_context_flags)
        (Z.lor (BL_XHCI_INPUT_CONTROL_CONTEXT_A 0) (BL_XHCI_INPUT_CONTROL_CONTEXT_A 1));;
      wr8 (ic + ic_slot + slot_root_hub_port_number) (port + 1);;
      put_bits32 (ic + ic_slot) 27 5 1);;
    tr ← on_machine bl_xhci_alloc_transfer_ring;
    if is_null tr then mret ()
    else
      on_machine (init_endpoint0 (ic + ic_ep_context0) tr speed);;
      dc ← on_machine (bl_heap_alloc_align sizeof_device_context 0x40);
      if is_null dc then mret ()
      else
        on_machine (
          bl_memset dc 0 sizeof_device_context;;
          dcbaa ← rd32 (xhci + xc_dcbaa);
          wr64 (u32 (dcbaa + 8 * slot_id)) (ptr64 dc);;
          put_bits32 (ic + ic_slot + slot_usb_device_address) 0 8 address);;
        bl_xhci_cr_address_device xhci ic slot_id;;
        on_machine (save_device xhci address slot_id tr ic dc).

(** ** Ports *)
Definition portsc (xhci port : Z) : D Dev Z :=
  on_machine (ports ← rd32 (xhci + xc_ports); mret (u32 (ports + port * sizeof_port_register_set))).

(** Some bit pattern of the port's status, read anew. *)
Definition port_is (xhci port : Z) (p : Z → bool) : D Dev bool :=
  reg ← portsc xhci port; v ← mm_rd32 hw reg; mret (p v).

(** The speed of an enabled port that is in none of the states before: [None]
    ends the function with -1. *)
Definition usb3_speed (xhci port : Z) : D Dev (option Z) :=
  on_machine (print_literal "Wow1";; emit 10);;
  enabled ← port_is xhci port (λ v, truth (Z.land v BL_XHCI_PORTSC_PED));
  if negb enabled then mret None
  else
    reset ← port_is xhci port (λ v, truth (Z.land v BL_XHCI_PORTSC_PR));
    if (reset : bool) then mret None
    else
      idle ← port_is xhci port (λ v, BL_XHCI_PORTSC_PLS v =? BL_XHCI_PORTSC_PLS_U0);
      if negb idle then mret None
      else
        on_machine (print_literal "Wow2";; emit 10);;
        reg ← portsc xhci port; v ← mm_rd32 hw reg;
        let s := BL_XHCI_PORTSC_PORT_SPEED v in
        mret (if s =? BL_XHCI_USB_SUPER_SPEED then Some BL_USB_SUPER_SPEED
              else if s =? BL_XHCI_USB_SUPER_SPEED_PLUS then Some BL_USB_SUPER_SPEED_PLUS
              else None).

Definition usb2_speed (xhci port : Z) : D Dev (option Z) :=
  reg ← portsc xhci port;
  mm_or32 hw reg BL_XHCI_PORTSC_PR;;
  bl_time_sleep 50;;
  event ← bl_xhci_get_last_event xhci;
  if is_null event then mret None
  else
    on_machine (foo event);;
    changed ← port_is xhci port (λ v, truth (Z.land v BL_XHCI_PORTSC_PRC));
    if negb changed then mret None
    else
      enabled ← port_is xhci port (λ v, truth (Z.land v BL_XHCI_PORTSC_PED));
      if negb enabled then mret None
      else
        idle ← port_is xhci port (λ v, BL_XHCI_PORTSC_PLS v =? BL_XHCI_PORTSC_PLS_U0);
        if negb idle then mret None
        else
          status ← on_machine (rd32 (event + trb_status));
          parameter ← on_machine (rd64 (event + trb_parameter));
          if negb (BL_XHCI_TRB_CC status =? BL_XHCI_TRB_CC_SUCCESS) ||
             negb (BL_XHCI_TRB_PORT_ID parameter =? port + 1) then mret None
          else
            mm_or32 hw reg BL_XHCI_PORTSC_PRC;;
            v ← mm_rd32 hw reg;
            let s := BL_XHCI_PORTSC_PORT_SPEED v in
            mret (if s =? BL_XHCI_USB_LOW_SPEED then Some BL_USB_LOW_SPEED
                  else if s =? BL_XHCI_USB_FULL_SPEED then Some BL_USB_FULL_SPEED
                  else if s =? BL_XHCI_USB_HIGH_SPEED then Some BL_USB_HIGH_SPEED
                  else None).

Definition bl_xhci_port_init (hc port address : Z) : D Dev Z :=
  xhci ← on_machine (rd32 (hc + hc_data));
  on_machine (bl_print_hex (u32 (port + 1));; emit 10);;
  types ← on_machine (rd32 (xhci + xc_port_usb_type));
  type ← on_machine (rd8 (u32 (types + port)));
  o ← (if type =? 0x3 then usb3_speed xhci port
       else if type <=? 0x2 then usb2_speed xhci port
       else mret (Some (-1)));
  match o with
  | None => mret (-1)
  | Some speed =>
      slot_id ← bl_xhci_cr_enable_slot xhci;
      if slot_id =? -1 then mret (-1)
      else bl_xhci_device_slot_init xhci port slot_id speed address;; mret speed
  end.

Definition bl_xhci_port_device_connected (hc port : Z) : D Dev Z :=
  xhci ← on_machine (rd32 (hc + hc_data));
  reg ← portsc xhci port;
  v ← mm_rd32 hw reg;
  (if truth (Z.land v BL_XHCI_PORTSC_CSC) then mm_or32 hw reg BL_XHCI_PORTSC_CSC else mret ());;
  v ← mm_rd32 hw reg;
  if truth (Z.land v BL_XHCI_PORTSC_CCS) then
    event ← bl_xhci_get_last_event xhci;
    if is_null event then on_machine (foo event);; mret 1   (* shows what is at address 0 *)
    else
      status ← on_machine (rd32 (event + trb_status));
      parameter ← on_machine (rd64 (event + trb_parameter));
      if negb (BL_XHCI_TRB_CC status =? BL_XHCI_TRB_CC_SUCCESS) ||
         negb (BL_XHCI_TRB_PORT_ID parameter =? port + 1) then mret 0
      else on_machine (foo event);; mret 1
  else mret 0.

(** ** Transfers *)

(** The data stage's blocks. *)
Definition data_stage (xhci address data length packet_size : Z) : M () :=
  mwhile (λ '(length, off),
    if 0 <? length then
      data_td (xf_td2 frame) data off length packet_size;;
      enqueue xhci address 0 (xf_td2 frame) (λ _, mret ());;
      continue (length - packet_size, off + packet_size)
    else break ()) (length, 0).

Definition ring_doorbell (xhci address target : Z) : D Dev () :=
  db_regs ← on_machine (rd32 (xhci + xc_db_regs));
  slot_id ← on_machine (device ← xhci_device xhci address; rd32 (device + xd_slot_id));
  mm_wr32 hw (u32 (db_regs + 4 * slot_id)) target.

(** The blocks of the three stages, on the transfer ring of endpoint 0. *)
Definition control_blocks (xhci address setup data length packet_size : Z) : M () :=
  setup_td (xf_td1 frame) setup;;
  enqueue xhci address 0 (xf_td1 frame) (λ _, mret ());;
  data_stage xhci address data length packet_size;;
  status_td (xf_td3 frame);;
  enqueue xhci address 0 (xf_td3 frame) (λ _, mret ()).

Definition bl_xhci_control_transfer (hc packet_size address speed setup data length : Z) : D Dev bl_status_t :=
  xhci ← on_machine (rd32 (hc + hc_data));
  max_packet_size ← on_machine (
    device ← xhci_device xhci address;
    ic ← rd32 (device + xd_ic);
    rd16 (ic + ic_ep_context0 + epc_max_packet_size));
  let packet_size := if packet_size =? 0 then max_packet_size else packet_size in
  on_machine (control_blocks xhci address setup data length packet_size);;
  ring_doorbell xhci address 1;;
  wait_event xhci;;
  mret BL_STATUS_SUCCESS.

(** The context of endpoint [ep] in a device's contexts from [first] on. *)
Definition ep_context_at (first ep : Z) : Z := u32 (first + sizeof_endpoint_context * (ep - 2)).

(** An endpoint's first transfer: its context and ring, then a command. True
    when the endpoint runs. *)
Definition open_bulk_endpoint (xhci address ep ep_context addr packet_size : Z) : D Dev bool :=
  on_machine (
    put_bits8 (ep_context + epc_type) 3 3
      (if truth (Z.land (Z.shiftr addr 7) 1) then BL_XHCI_EP_TYPE_BULK_IN else BL_XHCI_EP_TYPE_BULK_OUT);;
    wr16 (ep_context + epc_max_packet_size) packet_size;;
    wr8 (ep_context + epc_max_burst_size) 0;;
    put_bits8 (ep_context + epc_type) 1 2 3;;
    put_bits8 (ep_context + epc_streams) 2 5 0);;
  tr ← on_machine bl_xhci_alloc_transfer_ring;
  if is_null tr then mret false
  else
    on_machine (
      wr64 (ep_context + epc_tr_dequeue_pointer) (Z.lor (ptr64 tr) 1);;
      device ← xhci_device xhci address;
      wr32 (device + xd_tr + 4 * (ep - 1)) tr;;
      wr32 (device + xd_tr_enqueue + 4 * (ep - 1)) tr;;
      ic ← rd32 (device + xd_ic);
      or32 (ic + ic_add_context_flags) (BL_XHCI_INPUT_CONTROL_CONTEXT_A ep);;
      and32 (ic + ic_drop_context_flags) (Z.lnot (BL_XHCI_INPUT_CONTROL_CONTEXT_A ep));;
      put_bits32 (ic + ic_slot) 27 5 ep);;
    ic ← on_machine (device ← xhci_device xhci address; rd32 (device + xd_ic));
    slot_id ← on_machine (device ← xhci_device xhci address; rd32 (device + xd_slot_id));
    bl_xhci_cr_configure_endpoint xhci ic slot_id;;
    refresh hw;;
    on_machine (
      device ← xhci_device xhci address;
      dc ← rd32 (device + xd_dc);
      state ← get_bits8 (ep_context_at (dc + dc_ep_context) ep + epc_state) 0 3;
      mret (state =? BL_XHCI_EP_STATE_RUNNING)).

Definition bulk_blocks (xhci address ep data length packet_size : Z) : M () :=
  mwhile (λ '(length, off),
    if 0 <? length then
      normal_td (xf_td frame) data off length packet_size;;
      enqueue xhci address (ep - 1) (xf_td frame) foo;;
      continue (length - packet_size, off + packet_size)
    else break ()) (length, 0).

Definition bl_xhci_bulk_transfer (hc address endp speed direction data length : Z) : D Dev () :=
  on_machine (print_literal "Bulk";; emit 10);;
  xhci ← on_machine (rd32 (hc + hc_data));
  descriptor ← on_machine (rd32 (endp + ep_descriptor));
  addr ← on_machine (rd8 (descriptor + ed_endpoint_address));
  let ep := 2 * Z.land addr 0xf + Z.land (Z.shiftr addr 7) 1 in
  on_machine (
    print_literal "EP : ";; bl_print_hex ep;; print_literal " ";; bl_print_hex (u32 address);; emit 10);;
  packet_size ← on_machine (rd16 (descriptor + ed_max_packet_size));
  ep_context ← on_machine (
    device ← xhci_device xhci address;
    ic ← rd32 (device + xd_ic);
    mret (ep_context_at (ic + ic_ep_context) ep));
  type ← on_machine (get_bits8 (ep_context + epc_type) 3 3);
  running ← (if type =? BL_XHCI_EP_TYPE_NOT_VALID
             then open_bulk_endpoint xhci address ep ep_context addr packet_size
             else mret true);
  if negb running then mret ()
  else
    on_machine (bulk_blocks xhci address ep data length packet_size);;
    ring_doorbell xhci address ep;;
    wait_event xhci;;
    mret ().

(** ** Set-up *)
Definition bl_xhci_init_event_ring (xhci : Z) : D Dev bl_status_t :=
  ring ← on_machine (bl_heap_alloc_align (BL_XHCI_ER_TRBS * sizeof_trb) 0x40);
  on_machine (wr32 (xhci + xc_event_ring) ring);;
  if is_null ring then mret BL_STATUS_MEMORY_ALLOCATION_FAILED
  else
    on_machine (clear_ring ring BL_XHCI_ER_TRBS);;
    erst ← on_machine (bl_heap_alloc_align sizeof_erst 0x40);
    on_machine (wr32 (xhci + xc_erst) erst);;
    if is_null erst then mret BL_STATUS_MEMORY_ALLOCATION_FAILED
    else
      on_machine (
        wr64 (erst + erst_ring_segment_address) (ptr64 ring);;
        wr16 (erst + erst_ring_segment_size) BL_XHCI_ER_TRBS);;
      cap_regs ← on_machine (rd32 (xhci + xc_cap_regs));
      rtsoff ← mm_rd32 hw (cap_regs + cap_rtsoff);
      let rt_regs := u32 (cap_regs + Z.land rtsoff BL_XHCI_RTSOFF_RSVD) in
      let interrupter := u32 (rt_regs + rt_interrupters) in
      on_machine (
        wr32 (xhci + xc_rt_regs) rt_regs;;
        wr32 (xhci + xc_interrupter) interrupter);;
      mm_wr32 hw (interrupter + int_erstsz) 1;;
      address ← on_machine (rd64 (erst + erst_ring_segment_address));
      mm_wr64 hw (interrupter + int_erdp) address;;
      on_machine (wr32 (xhci + xc_er_dequeue) ring);;
      mm_wr64 hw (interrupter + int_erstba) (ptr64 erst);;
      mret BL_STATUS_SUCCESS.

Definition bl_xhci_init_command_ring (xhci : Z) : D Dev bl_status_t :=
  ring ← on_machine (bl_heap_alloc_align (BL_XHCI_CR_TRBS * sizeof_trb) 0x40);
  on_machine (wr32 (xhci + xc_command_ring) ring);;
  if is_null ring then mret BL_STATUS_MEMORY_ALLOCATION_FAILED
  else
    let link := ring + (BL_XHCI_CR_TRBS - 1) * sizeof_trb in
    on_machine (
      clear_ring ring BL_XHCI_CR_TRBS;;
      wr64 (link + trb_parameter) (Z.lor (ptr64 ring) 1);;
      or32 (link + trb_control) (BL_XHCI_TRB_TYPE BL_XHCI_CR_TRB_LINK));;
    op_regs ← on_machine (rd32 (xhci + xc_op_regs));
    mm_wr64 hw (op_regs + op_crcr) (Z.lor (ptr64 ring) 1);;
    on_machine (
      wr32 (xhci + xc_cr_dequeue) ring;;
      wr32 (xhci + xc_cr_enqueue) ring);;
    mret BL_STATUS_SUCCESS.

(** The ports that a protocol capability names get its major revision. *)
Definition mark_ports (xhci protocol : Z) : D Dev () :=
  first ← mm_rd8 hw (protocol + sp_compatible_port_offset);
  mwhile (λ i,
    offset ← mm_rd8 hw (protocol + sp_compatible_port_offset);
    count ← mm_rd8 hw (protocol + sp_compatible_port_count);
    if i <? offset + count then
      types ← on_machine (rd32 (xhci + xc_port_usb_type));
      major ← mm_rd8 hw (protocol + sp_revision_major);
      on_machine (wr8 (u32 (types + (i - 1))) major);;
      continue (i + 1)
    else break ()) first.

Definition show_protocol (protocol : Z) : D Dev () :=
  major ← mm_rd8 hw (protocol + sp_revision_major); on_machine (bl_print_hex major;; print_literal " ");;
  minor ← mm_rd8 hw (protocol + sp_revision_minor); on_machine (bl_print_hex minor;; print_literal " ");;
  name ← mm_rd32 hw (protocol + sp_name_string); on_machine (bl_print_hex name;; print_literal " ");;
  offset ← mm_rd8 hw (protocol + sp_compatible_port_offset); on_machine (bl_print_hex offset;; print_literal " ");;
  count ← mm_rd8 hw (protocol + sp_compatible_port_count); on_machine (bl_print_hex count;; print_literal " ");;
  defined ← mm_rd16 hw (protocol + sp_protocol_defined);
  on_machine (bl_print_hex (Z.land defined 0xfff);; print_literal " ");;
  psic ← mm_rd16 hw (protocol + sp_protocol_defined);
  on_machine (bl_print_hex (Z.shiftr psic 12);; print_literal " ");;
  slot_type ← mm_rd32 hw (protocol + sp_protocol_slot_type);
  on_machine (bl_print_hex (Z.land slot_type 0x1f);; emit 10).

Definition bl_xhci_get_supported_protocol (xhci : Z) : D Dev bl_status_t :=
  cap_regs ← on_machine (rd32 (xhci + xc_cap_regs));
  hccparams1 ← mm_rd32 hw (cap_regs + cap_hccparams1);
  let xecp := BL_XHCI_HCCPARAMS1_XECP hccparams1 in
  if xecp =? 0 then mret BL_STATUS_USB_INTERNAL_ERROR
  else
    hcsparams1 ← mm_rd32 hw (cap_regs + cap_hcsparams1);
    types ← on_machine (bl_heap_alloc (BL_XHCI_HCSPARAMS1_MAXPORTS hcsparams1));
    on_machine (wr32 (xhci + xc_port_usb_type) types);;
    if is_null types then mret BL_STATUS_MEMORY_ALLOCATION_FAILED
    else
      mwhile (λ ecpr,
        cap_id ← mm_rd8 hw (ecpr + ecpr_cap_id);
        (if cap_id =? BL_XHCI_EXTENDED_CAPABILITY_SUPPORTED_PROTOCOL then
           let protocol := u32 (ecpr + ecpr_cap_specific) in
           show_protocol protocol;; mark_ports xhci protocol
         else mret ());;
        next ← mm_rd8 hw (ecpr + ecpr_next);
        if truth next then
          next ← mm_rd8 hw (ecpr + ecpr_next);
          continue (u32 (ecpr + Z.shiftl next 2))
        else break BL_STATUS_SUCCESS) (u32 (cap_regs + Z.shiftl xecp 2)).

Definition bl_xhci_get_extended_capabilities (xhci : Z) : D Dev bl_status_t :=
  bl_xhci_get_supported_protocol xhci.

Definition bl_xhci_init_data_structures (xhci : Z) : D Dev bl_status_t :=
  cap_regs ← on_machine (rd32 (xhci + xc_cap_regs));
  op_regs ← on_machine (rd32 (xhci + xc_op_regs));
  hcsparams1 ← mm_rd32 hw (cap_regs + cap_hcsparams1);
  mm_or32 hw (op_regs + op_config) (Z.land hcsparams1 BL_XHCI_HCSPARAMS1_MAXSLOTS);;
  config ← mm_rd32 hw (op_regs + op_config);
  dcbaa ← on_machine (bl_heap_alloc_align ((1 + Z.land config BL_XHCI_CONFIG_MAXSLOTSEN) * 8) 0x40);
  on_machine (wr32 (xhci + xc_dcbaa) dcbaa);;
  if is_null dcbaa then mret BL_STATUS_MEMORY_ALLOCATION_FAILED
  else
    mm_wr64 hw (op_regs + op_dcbaap) (ptr64 dcbaa);;
    status ← bl_xhci_init_command_ring xhci;
    if failed status then mret status
    else
      status ← bl_xhci_init_event_ring xhci;
      if failed status then mret status
      else
        status ← bl_xhci_get_extended_capabilities xhci;
        if failed status then mret status
        else
          on_machine (wr32 (xhci + xc_ports) (u32 (op_regs + 0x400)));;
          dboff ← mm_rd32 hw (cap_regs + cap_dboff);
          on_machine (wr32 (xhci + xc_db_regs) (u32 (cap_regs + Z.land dboff BL_XHCI_DBOFF_RSVD)));;
          devices ← on_machine (bl_heap_alloc (127 * 4));
          on_machine (wr32 (xhci + xc_devices) devices);;
          if is_null devices then mret BL_STATUS_MEMORY_ALLOCATION_FAILED
          else mret BL_STATUS_SUCCESS.

(** Rounds of waiting for bits of a register to be clear. *)
Definition wait_clear (a bits rounds : Z) : D Dev () :=
  mwhile (λ timeout,
    let timeout := timeout - 1 in
    if truth timeout then
      v ← mm_rd32 hw a;
      if Z.land v bits =? 0 then break ()
      else bl_time_sleep 1;; continue timeout
    else break ()) rounds.

Definition bl_xhci_controller_init (xhci : Z) : D Dev bl_status_t :=
  cap_regs ← on_machine (rd32 (xhci + xc_cap_regs));
  length ← mm_rd8 hw (cap_regs + cap_caplength);
  let op_regs := u32 (cap_regs + length) in
  on_machine (wr32 (xhci + xc_op_regs) op_regs);;
  wait_clear (op_regs + op_usbsts) BL_XHCI_USBSTS_CNR 1000;;
  sts ← mm_rd32 hw (op_regs + op_usbsts);
  if truth (Z.land sts BL_XHCI_USBSTS_CNR) then mret BL_STATUS_USB_INTERNAL_ERROR
  else
    mm_and32 hw (op_regs + op_usbcmd) (Z.lnot BL_XHCI_USBCMD_RS);;
    bl_time_sleep 16;;
    sts ← mm_rd32 hw (op_regs + op_usbsts);
    if Z.land sts BL_XHCI_USBSTS_HCH =? 0 then mret BL_STATUS_USB_INTERNAL_ERROR
    else
      mm_or32 hw (op_regs + op_usbcmd) BL_XHCI_USBCMD_HCRST;;
      wait_clear (op_regs + op_usbcmd) BL_XHCI_USBCMD_HCRST 50;;
      cmd ← mm_rd32 hw (op_regs + op_usbcmd);
      if truth (Z.land cmd BL_XHCI_USBCMD_HCRST) then mret BL_STATUS_USB_INTERNAL_ERROR
      else
        status ← bl_xhci_init_data_structures xhci;
        if failed status then mret status
        else
          mm_or32 hw (op_regs + op_usbcmd) BL_XHCI_USBCMD_RS;;
          mret BL_STATUS_SUCCESS.

(** A controller whose initialisation failed is added like any other. *)
Definition bl_xhci_pci_init (i : bl_pci_index) : D Dev bl_status_t :=
  status ← bl_pci_check_device_class io i BL_PCI_BASE_CLASS_SERIAL BL_PCI_SUBCLASS_SERIAL_USB_XHCI
             BL_PCI_PROG_IF_SERIAL_USB_XHCI;
  if failed status then mret status
  else
    sbrn ← bl_pci_read_config_byte io i BL_PCI_CONFIG_REG_60H;
    if negb (sbrn =? BL_XHCI_PCI_SBRN_3_0) && negb (sbrn =? BL_XHCI_PCI_SBRN_3_1) &&
       negb (sbrn =? BL_XHCI_PCI_SBRN_2_0) then mret BL_STATUS_USB_INVALID_HOST_CONTROLLER
    else
      base_address ← bl_pci_read_config_long io i BL_PCI_CONFIG_REG_BAR0;
      xhci ← on_machine (bl_heap_alloc sizeof_xhci_controller);
      if is_null xhci then mret BL_STATUS_MEMORY_ALLOCATION_FAILED
      else
        on_machine (wr32 (xhci + xc_cap_regs) (Z.land base_address BL_XHCI_PCI_BAR0_BASE_ADDRESS));;
        bl_xhci_controller_init xhci;;
        on_machine (bl_xhci_controller_add xhci);;
        mret BL_STATUS_SUCCESS.

(** No interrupt transfers and no check of them. The slot of [port_init] is the
    one that the other drivers use for a port's speed; [port_reset] is null. *)
Definition bl_xhci_functions : bl_usb_host_controller_functions Dev :=
  HcFunctions Dev bl_xhci_port_device_connected
    (λ _ _, diverge)   (* would be [port_init], with a third argument the caller never gave *)
    (λ _ _, diverge) bl_xhci_port_init bl_xhci_control_transfer bl_xhci_bulk_transfer None None.

(** [BL_MODULE_INIT], with the registry of the USB stack. *)
Definition xhci_module_init (f : usb_frame) : D Dev () :=
  bl_pci_iterate_devices io (Some bl_xhci_pci_init);;
  xhci ← on_machine (rd32 bl_xhci_list);
  mwhile (λ xhci,
    if truth xhci then
      hc ← on_machine (bl_heap_alloc sizeof_host_controller);
      if is_null hc then break ()
      else
        on_machine (
          wr32 (hc + hc_type) BL_USB_HC_XHCI;;
          wr32 (hc + hc_funcs) bl_xhci_functions_ptr;;
          wr32 (hc + hc_data) xhci);;
        cap_regs ← on_machine (rd32 (xhci + xc_cap_regs));
        hcsparams1 ← mm_rd32 hw (cap_regs + cap_hcsparams1);
        on_machine (
          wr32 (hc + hc_root_hub + hub_ports) (BL_XHCI_HCSPARAMS1_MAXPORTS hcsparams1);;
          bl_usb_host_controller_register f hc);;
        next ← on_machine (rd32 (xhci + xc_next));
        continue next
    else break ()) xhci.
End Xhci.
