(* ===== verification/XhciProofs.v ===== *)
(** * Proofs about the XHCI driver: the blocks of a control transfer in the ring *)
From S2P Require Import Prelude Memory Regions Arith Status Strings StringsProofs Heap Storage Ports Mmio Pci Usb.
From S2P Require Import HostController Xhci.

(** ** Blocks *)
Record trb := Trb { t_parameter : Z; t_status : Z; t_control : Z }.
Definition holds (m : gmap Z Z) (a : Z) (t : trb) : Prop :=
  ld 8 m (a + trb_parameter) = t_parameter t ∧ ld 4 m (a + trb_status) = t_status t ∧
  ld 4 m (a + trb_control) = t_control t.

Lemma holds_keeps rs m m' a t :
  in_space a 16 → keeps rs m m' → Forall (λ r, apart r (a, 16)) rs → holds m a t → holds m' a t.
Proof.
  intros Ha Hk Hr (H1 & H2 & H3).
  assert (Hld : ∀ n off, 0 <= off → off + Z.of_nat n <= 16 → ld n m' (a + off) = ld n m (a + off)).
  { intros n off Hoff Hn. apply (keeps_ld rs); [done|unfold in_space in *; lia|].
    eapply Forall_impl; [exact Hr|]. intros r. unfold apart, disjoint. cbn [fst snd]. lia. }
  unfold holds. by rewrite !Hld by (unfold trb_parameter, trb_status, trb_control; lia).
Qed.

(** A control word: 24 bits that the driver sets, and the top byte. *)
Definition control_of (y x : Z) : Z := Z.lor y (Z.shiftl x 24).
Lemma set_field_low y x k n v :
  0 <= k → 0 <= n → k + n <= 24 → set_field (control_of y x) k n v = control_of (set_field y k n v) x.
Proof.
  intros Hk Hn Hkn. unfold set_field, control_of. apply Z.bits_inj'. intros i Hi.
  rewrite !Z.lor_spec, !Z.ldiff_spec, !Z.lor_spec. destruct (Z.ltb_spec i 24).
  - rewrite (Z.shiftl_spec_low _ 24), !orb_false_r by done. done.
  - rewrite (Z.shiftl_spec (Z.ones n) k), Z.ones_spec_high by lia. cbn [negb]. rewrite !andb_true_r.
    rewrite <- !orb_assoc. f_equal. apply orb_comm.
Qed.
Lemma trb_control_range y x : 0 <= y < 2 ^ 24 → 0 <= x < 256 → 0 <= control_of y x < 4294967296.
Proof.
  intros Hy Hx. unfold control_of. rewrite Z.lor_comm, lor_shiftl_add by lia. lia.
Qed.

(** Commands that turn the block at [td] from one into another, where [I] is true
    of memory outside of the block. *)
Definition builds (I : gmap Z Z → Prop) (td : Z) {A} (c : M A) (t t' : trb) : Prop := ∀ s,
  I (mem s) → holds (mem s) td t → ∃ m x, c s = Some (x, set_mem m s) ∧ keeps [(td, 16)] (mem s) m ∧ holds m td t'.

Section Block.
Context (td : Z) (Htd : good_region (td, 16)).
Context (I : gmap Z Z → Prop) (HI : ∀ m m', keeps [(td, 16)] m m' → I m → I m').
#[local] Abbreviation builds := (builds I).

Lemma builds_seq {A B} (c1 : M A) (c2 : M B) t t1 t2 : builds td c1 t t1 → builds td c2 t1 t2 → builds td (c1;; c2) t t2.
Proof.
  intros H1 H2 s Hi Hs. destruct (H1 s Hi Hs) as (m1 & x1 & Hr1 & Hk1 & Ht1).
  destruct (H2 (set_mem m1 s)) as (m2 & x2 & Hr2 & Hk2 & Ht2); [rewrite mem_set_mem; by eapply HI|by rewrite mem_set_mem|].
  rewrite mem_set_mem in Hk2. exists m2, x2. split; [|split; [by eapply keeps_trans|done]]. run_with Hr1. by rewrite Hr2, set_mem_set_mem.
Qed.

Ltac block_side := destruct Htd as [_ Htd']; cbn [fst snd] in *; unfold trb_parameter, trb_status, trb_control in *; field_side.

Lemma builds_control p w y x k n v :
  w = set_field y k n v → 0 <= k → 0 <= n → k + n <= 24 → 0 <= w < 2 ^ 24 → 0 <= x < 256 →
  ∀ sv, builds td (put_bits32 (td + trb_control) k n v) (Trb p sv (control_of y x)) (Trb p sv (control_of w x)).
Proof.
  intros -> Hk Hn Hkn Hw Hx sv s _ (H1 & H2 & H3). cbn [t_parameter t_status t_control] in *.
  exists (st 4 (mem s) (td + trb_control) (set_field (ld 4 (mem s) (td + trb_control)) k n v)), ().
  split; [done|]. rewrite H3, set_field_low by done.
  split; [|split; [|split]]; cbn [t_parameter t_status t_control].
  - eapply (keeps_st_in _ _ _ 4); [apply keeps_refl|block_side|left|unfold trb_control; cbn; lia..].
  - rewrite ld_st_other by block_side. done.
  - rewrite ld_st_other by block_side. done.
  - rewrite (ld_st_same 4) by block_side. apply Z.mod_small. by apply trb_control_range.
Qed.

Lemma builds_status p v c :
  builds td (put_bits32 (td + trb_status) 0 17 v) (Trb p 0 c) (Trb p (v mod 2 ^ 17) c).
Proof.
  intros s _ (H1 & H2 & H3). cbn [t_parameter t_status t_control] in *.
  assert (E : set_field 0 0 17 v = v mod 2 ^ 17).
  { unfold set_field. rewrite Z.shiftl_0_r, Z.land_ones by lia. by rewrite Z.shiftl_0_r, Z.ldiff_0_l. }
  exists (st 4 (mem s) (td + trb_status) (set_field (ld 4 (mem s) (td + trb_status)) 0 17 v)), ().
  split; [done|]. rewrite H2, E. split; [|split; [|split]]; cbn [t_parameter t_status t_control].
  - eapply (keeps_st_in _ _ _ 4); [apply keeps_refl|block_side|left|unfold trb_status; cbn; lia..].
  - rewrite ld_st_other by block_side. done.
  - rewrite (ld_st_same 4) by block_side. apply Z.mod_small.
    pose proof (Z.mod_pos_bound v (2 ^ 17) ltac:(done)). lia.
  - rewrite ld_st_other by block_side. done.
Qed.

Lemma builds_parameter p v sv c : builds td (wr64 (td + trb_parameter) (u64 v)) (Trb p sv c) (Trb (u64 v) sv c).
Proof.
  intros s _ (H1 & H2 & H3). cbn [t_parameter t_status t_control] in *.
  exists (st 8 (mem s) (td + trb_parameter) (u64 v)), (). split; [done|]. split; [|split; [|split]]; cbn [t_parameter t_status t_control].
  - eapply (keeps_st_in _ _ _ 8); [apply keeps_refl|block_side|left|unfold trb_parameter; cbn; lia..].
  - rewrite (ld_st_same 8) by block_side. apply Z.mod_small. unfold u64. by apply Z.mod_pos_bound.
  - rewrite ld_st_other by block_side. done.
  - rewrite ld_st_other by block_side. done.
Qed.

(** Clearing does not reach the last byte, the top of the control word. *)
Lemma clear_run s :
  ∃ m, bl_memset td 0 sizeof_trb s = Some (td, set_mem m s) ∧ keeps [(td, 16)] (mem s) m ∧
    holds m td (Trb 0 0 (control_of 0 (ld8 (mem s) (td + 15)))).
Proof.
  destruct Htd as [H0 Hsp]. cbn [fst snd] in *.
  pose proof (bl_memset_run s td 0 sizeof_trb H0 Hsp ltac:(done)) as Hrun.
  change (Z.to_nat (sizeof_trb - 1)) with 15%nat in Hrun. set (m := st_bytes (mem s) td (replicate 15 0)) in *.
  assert (HL : ld_bytes m td 16 = replicate 15 0 ++ [ld8 (mem s) (td + 15)]).
  { rewrite ld_bytes_snoc. f_equal.
    - apply (ld_bytes_st_bytes_in (mem s) td (replicate 15 0)); [|by apply Forall_replicate].
      rewrite length_replicate. unfold in_space in *. lia.
    - unfold m. by rewrite ld8_st_bytes_out by (rewrite ?length_replicate; unfold in_space, outside in *; lia). }
  assert (Hf : ∀ off n, (off + n <= 16)%nat → ld n m (td + Z.of_nat off) = le_combine (take n (drop off (ld_bytes m td 16)))).
  { intros off n Hn. by rewrite slice_ld_bytes. }
  exists m. split; [done|]. split; [|split; [|split]].
  - intros a Ha [Ho _]%Forall_cons. unfold outside in Ho. cbn [fst snd] in Ho.
    apply ld8_st_bytes_out; rewrite ?length_replicate; unfold in_space, outside in *; lia.
  - rewrite (Hf 0%nat 8%nat ltac:(lia) : ld 8 m (td + trb_parameter) = _), HL. done.
  - rewrite (Hf 8%nat 4%nat ltac:(lia) : ld 4 m (td + trb_status) = _), HL. done.
  - rewrite (Hf 12%nat 4%nat ltac:(lia) : ld 4 m (td + trb_control) = _), HL. cbn [t_control].
    unfold control_of. rewrite Z.lor_0_l, Z.shiftl_mul_pow2 by lia. change (2 ^ 24) with 16777216.
    change (take 4 (drop 12 (replicate 15 0 ++ [ld8 (mem s) (td + 15)]))) with [0; 0; 0; ld8 (mem s) (td + 15)].
    cbn [le_combine]. rewrite (u8_small (ld8 _ _)) by apply ld8_range. change (u8 0) with 0. lia.
Qed.

(** A whole block, from whatever was there. *)
Definition makes (c : M ()) (t : gmap Z Z → trb) : Prop := ∀ s, I (mem s) →
  ∃ m, c s = Some ((), set_mem m s) ∧ keeps [(td, 16)] (mem s) m ∧ holds m td (t (mem s)).
Lemma makes_block c (t : Z → trb) :
  (∀ x, 0 <= x < 256 → builds td c (Trb 0 0 (control_of 0 x)) (t x)) →
  makes (bl_memset td 0 sizeof_trb;; c) (λ m, t (ld8 m (td + 15))).
Proof.
  intros Hc s Hi. destruct (clear_run s) as (m & Hrun & Hk & Ht).
  destruct (Hc (ld8 (mem s) (td + 15)) (ld8_range _ _) (set_mem m s)) as (m2 & [] & Hr2 & Hk2 & Ht2);
    [rewrite mem_set_mem; by eapply HI|by rewrite mem_set_mem|].
  rewrite mem_set_mem in Hk2. exists m2. split; [|split; [by eapply keeps_trans|done]].
  run_with Hrun. by rewrite Hr2, set_mem_set_mem.
Qed.

(** The blocks as their format has them: [x] is the byte that is not cleared. *)
Definition data_trb (parameter length x : Z) : trb :=
  Trb parameter (length mod 2 ^ 17) (control_of (1 + 2 ^ 16 + 2 ^ 10 * BL_XHCI_TR_TRB_DATA) x).
Definition status_trb (x : Z) : trb := Trb 0 0 (control_of (1 + 2 ^ 5 + 2 ^ 10 * BL_XHCI_TR_TRB_STATUS) x).
Definition setup_trb (request x : Z) : trb :=
  Trb request 8 (control_of (1 + 2 ^ 6 + 2 ^ 10 * BL_XHCI_TR_TRB_SETUP + 2 ^ 16 * BL_XHCI_CONTROL_TRT_IN_DATA_STAGE) x).

Ltac build_control := eapply builds_seq; [eapply builds_control; [vm_compute; reflexivity|lia|lia|lia|by vm_compute|done]|].

Lemma data_td_makes data off length packet_size :
  makes (data_td td data off length packet_size)
    (λ m, data_trb (u64 (ptr64 data + off)) (Z.min length packet_size) (ld8 m (td + 15))).
Proof.
  apply (makes_block _ (data_trb (u64 (ptr64 data + off)) (Z.min length packet_size))). intros x Hx.
  do 2 build_control. eapply builds_seq; [apply builds_status|]. do 3 build_control.
  eapply builds_seq; [apply builds_parameter|].
  eapply builds_control; [vm_compute; reflexivity|lia|lia|lia|by vm_compute|done].
Qed.

Lemma status_td_makes : makes (status_td td) (λ m, status_trb (ld8 m (td + 15))).
Proof.
  apply (makes_block _ status_trb). intros x Hx. do 4 build_control.
  eapply builds_control; [vm_compute; reflexivity|lia|lia|lia|by vm_compute|done].
Qed.

(** The request is the first word of its block. *)
Lemma builds_copy setup request p sv c :
  (∀ m, I m → ld 8 m setup = request) → good_region (setup, 8) → builds td (bl_memcpy td setup sizeof_setup_data)
    (Trb p sv c) (Trb request sv c).
Proof.
  intros Hsetup [Hs0 Hs1] s Hi (H1 & H2 & H3). destruct Htd as [H0 Hsp]. cbn [fst snd t_parameter t_status t_control] in *.
  assert (Hrun := bl_memcpy_run s td setup sizeof_setup_data H0 Hs0 ltac:(unfold in_space, sizeof_setup_data in *; lia) Hs1 ltac:(done)).
  change (Z.to_nat sizeof_setup_data) with 8%nat in Hrun.
  eexists _, td. split; [exact Hrun|]. rewrite <- (Hsetup _ Hi). split; [|split; [|split]]; cbn [t_parameter t_status t_control].
  - intros a Ha [Ho _]%Forall_cons. unfold outside in Ho. cbn [fst snd] in Ho.
    apply ld8_st_bytes_out; rewrite ?length_ld_bytes; unfold in_space, outside in *; lia.
  - unfold ld, trb_parameter. rewrite Z.add_0_r. f_equal.
    pose proof (ld_bytes_st_bytes_in (mem s) td (ld_bytes (mem s) setup 8)) as E. rewrite length_ld_bytes in E.
    apply E; [unfold in_space in *; lia|apply bytes_ld_bytes].
  - rewrite ld_st_bytes_other by block_side. done.
  - rewrite ld_st_bytes_other by block_side. done.
Qed.

Lemma setup_td_makes setup request :
  (∀ m, I m → ld 8 m setup = request) → good_region (setup, 8) →
  makes (setup_td td setup) (λ m, setup_trb request (ld8 m (td + 15))).
Proof.
  intros Hsetup Hgood. apply (makes_block _ (setup_trb request)). intros x Hx.
  do 2 build_control. eapply builds_seq; [apply builds_status|]. do 2 build_control.
  eapply builds_seq; [by apply builds_copy|].
  eapply builds_control; [vm_compute; reflexivity|lia|lia|lia|by vm_compute|done].
Qed.
End Block.

(** ** The ring of an endpoint *)
Lemma device_run xhci address devices device s :
  in_space (devices + 4 * address) 4 → ld 4 (mem s) (xhci + xc_devices) = devices →
  ld 4 (mem s) (devices + 4 * address) = device → xhci_device xhci address s = Some (device, s).
Proof.
  intros Hsp H1 H2. unfold xhci_device, rd32, gets, mbind, ST_bind. rewrite H1, u32_small, H2; [done|].
  unfold in_space in *. lia.
Qed.

Lemma copy_run q td t s :
  in_space q 16 → in_space td 16 → apart (td, 16) (q, 16) → holds (mem s) td t →
  ∃ m, copy_trb q td s = Some ((), set_mem m s) ∧ keeps [(q, 16)] (mem s) m ∧ holds m q t.
Proof.
  intros Hq Htd Ha (T1 & T2 & T3). pose proof (ld_range 8 (mem s) (td + trb_parameter)) as R1.
  pose proof (ld_range 4 (mem s) (td + trb_status)) as R2. pose proof (ld_range 4 (mem s) (td + trb_control)) as R3.
  rewrite T1 in R1. rewrite T2 in R2. rewrite T3 in R3. unfold trb_parameter, trb_status, trb_control in *.
  exists (st 4 (st 4 (st 8 (mem s) (q + 0) (t_parameter t)) (q + 8) (t_status t)) (q + 12) (t_control t)).
  split; [|split].
  - apply wp_exact. unfold copy_trb, trb_parameter, trb_status, trb_control. wp_steps. machine_simpl.
    rewrite T1, !ld_st_other, T2, T3 by field_side. done.
  - do 3 (eapply keeps_st_in; [|by field_side|left|cbn; lia..]). apply keeps_refl.
  - unfold holds, trb_parameter, trb_status, trb_control.
    split; [|split]; past_writes; rewrite ?(ld_st_same 8), ?(ld_st_same 4) by field_side; by apply Z.mod_small.
Qed.

Section Ring.
Context (xhci address devices device n : Z) (start count : Z).
(** Where the enqueue pointer is; the pointers that lead to it; the ring's blocks. *)
Definition enqueue_slot : Z * Z := (device + xd_tr_enqueue + 4 * n, 4).
Definition device_pointers : list (Z * Z) := [(xhci + xc_devices, 4); (devices + 4 * address, 4)].
Definition ring_blocks : Z * Z := (start, sizeof_trb * count).
Context (Hspace : Forall (λ r, in_space r.1 r.2) (enqueue_slot :: ring_blocks :: device_pointers)).
Context (Hstart : 0 < start) (Hend : start + sizeof_trb * count < 4294967296) (Hslot : apart ring_blocks enqueue_slot) (Hpointers : each_apart [ring_blocks; enqueue_slot] device_pointers).

(** The blocks [l] have been put into the ring. *)
Definition ring_holds (m : gmap Z Z) (l : list trb) : Prop :=
  ld 4 m (xhci + xc_devices) = devices ∧ ld 4 m (devices + 4 * address) = device ∧
  ld 4 m (device + xd_tr_enqueue + 4 * n) = start + sizeof_trb * Z.of_nat (length l) ∧
  ∀ i t, l !! i = Some t → holds m (start + sizeof_trb * Z.of_nat i) t.

Lemma ring_spaces :
  in_space (device + xd_tr_enqueue + 4 * n) 4 ∧ in_space start (sizeof_trb * count) ∧
  in_space (xhci + xc_devices) 4 ∧ in_space (devices + 4 * address) 4.
Proof. apply Forall_cons in Hspace as [? [? [? [? _]%Forall_cons]%Forall_cons]%Forall_cons]. done. Qed.

Lemma ring_holds_keeps rs m m' l :
  keeps rs m m' → Forall (λ r, Forall (apart r) (enqueue_slot :: ring_blocks :: device_pointers)) rs →
  Z.of_nat (length l) <= count → ring_holds m l → ring_holds m' l.
Proof.
  destruct ring_spaces as (S1 & S2 & S3 & S4). intros Hk Hrs Hlen (H1 & H2 & H3 & H4).
  assert (Hld : ∀ a, (a, 4) ∈ enqueue_slot :: ring_blocks :: device_pointers → in_space a 4 → ld 4 m' a = ld 4 m a).
  { intros a Ha Hsp. apply (keeps_ld rs); [done|done|]. eapply Forall_impl; [exact Hrs|]. cbv beta. intros r Hr.
    rewrite Forall_forall in Hr. by apply Hr. }
  split; [|split; [|split]].
  - rewrite Hld; [done| |done]. unfold device_pointers. set_solver.
  - rewrite Hld; [done| |done]. unfold device_pointers. set_solver.
  - rewrite Hld; [done| |done]. left.
  - intros i t Hi. pose proof (lookup_lt_Some _ _ _ Hi). eapply holds_keeps; [|exact Hk| |by apply H4].
    + unfold in_space, sizeof_trb in *. lia.
    + eapply Forall_impl; [exact Hrs|]. cbv beta. intros r Hr. rewrite Forall_forall in Hr.
      specialize (Hr ring_blocks ltac:(right; left)). unfold apart, disjoint, ring_blocks, sizeof_trb in *.
      cbn [fst snd] in *. lia.
Qed.

Ltac block_apart := unfold apart, disjoint, enqueue_slot, ring_blocks in *; cbn [fst snd] in *; lia.

(** One more block. *)
Lemma enqueue_run td t l s :
  good_region (td, 16) → Forall (apart (td, 16)) [enqueue_slot; ring_blocks] →
  Z.of_nat (length l) < count → ring_holds (mem s) l → holds (mem s) td t →
  ∃ m, enqueue xhci address n td (λ _, mret ()) s = Some ((), set_mem m s) ∧
    keeps [ring_blocks; enqueue_slot] (mem s) m ∧ ring_holds m (l ++ [t]).
Proof.
  intros [_ Htd] Ha Hlen (H1 & H2 & H3 & H4) Ht. destruct ring_spaces as (S1 & S2 & S3 & S4).
  cbn [fst snd] in *. apply Forall_cons in Ha as [Ha1 [Ha2 _]%Forall_cons].
  set (q := start + sizeof_trb * Z.of_nat (length l)) in *. set (slot := device + xd_tr_enqueue + 4 * n) in *.
  assert (Hring : in_space q 16 ∧ start <= q ∧ q + 16 <= start + sizeof_trb * count).
  { unfold q, sizeof_trb, in_space in *. lia. }
  destruct Hring as (Hq & Hq1 & Hq2).
  destruct (copy_run q td t s Hq Htd) as (m3 & Hcopy & Hk3 & Ht3); [by block_apart|done|].
  assert (Hptr : ∀ a, (a, 4) ∈ enqueue_slot :: device_pointers → in_space a 4 → ld 4 m3 a = ld 4 (mem s) a).
  { intros a Hin Hsp. apply (keeps_ld [(q, 16)]); [done|done|]. constructor; [|done].
    apply elem_of_cons in Hin as [[= ->]|Hin]; [by block_apart|].
    pose proof (apart_each _ _ _ _ Hpointers (list_elem_of_here _ _) Hin). by block_apart. }
  exists (st 4 m3 slot (u32 (q + sizeof_trb))). split; [|split].
  - apply wp_exact. unfold enqueue. wp_known (device_run xhci address devices device s S4 H1 H2). fold slot. wp_step. wp_step. rewrite H3.
    wp_known Hcopy. wp_step. wp_step. wp_known (device_run xhci address devices device (set_mem m3 s) S4
      (eq_trans (Hptr _ ltac:(right; left) S3) H1) (eq_trans (Hptr _ ltac:(right; right; left) S4) H2)).
    fold slot. wp_steps. machine_simpl. rewrite Hptr, H3; [done|left|done].
  - eapply (keeps_st_in _ _ _ 4); [|done|right; left|cbn; lia..]. intros a Ha [Ho _]%Forall_cons.
    apply Hk3; [done|]. constructor; [|done]. unfold outside, ring_blocks in *. cbn [fst snd] in *. lia.
  - assert (Hfar : ∀ r, r ∈ device_pointers → apart enqueue_slot r).
    { intros r Hr. eapply apart_each; [exact Hpointers|right; left|done]. }
    assert (Hk : keeps [(slot, 4)] m3 (st 4 m3 slot (u32 (q + sizeof_trb)))).
    { eapply (keeps_st_in _ _ _ 4); [apply keeps_refl|done|left|cbn; lia..]. }
    split; [|split; [|split]].
    + rewrite ld_st_other, Hptr, H1; [done|right; left|done|done|done|]. specialize (Hfar _ ltac:(left)). block_apart.
    + rewrite ld_st_other, Hptr, H2; [done|right; right; left|done|done|done|]. specialize (Hfar _ ltac:(right; left)). block_apart.
    + fold slot. rewrite (ld_st_same 4), length_app by done. unfold q, sizeof_trb in *. cbn [length] in *.
      rewrite u32_small, Z.mod_small by lia. lia.
    + intros i u Hi. apply lookup_app_Some in Hi as [Hi|[Hi Hu]].
      * pose proof (lookup_lt_Some _ _ _ Hi). eapply holds_keeps; [|exact Hk|constructor; [|done]|].
        { unfold in_space, sizeof_trb in *. lia. }
        { clear Hk. unfold apart, disjoint, enqueue_slot, ring_blocks, sizeof_trb in *. cbn [fst snd] in *. lia. }
        eapply holds_keeps; [|exact Hk3|constructor; [|done]|by apply H4].
        { unfold in_space, sizeof_trb in *. lia. }
        { unfold apart, disjoint, q, sizeof_trb in *. cbn [fst snd] in *. lia. }
      * apply list_lookup_singleton_Some in Hu as [Hu <-]. replace i with (length l) by lia. fold q.
        eapply holds_keeps; [done|exact Hk| |done]. constructor; [|done]. block_apart.
Qed.
End Ring.

(** ** The stages of a control transfer *)
Definition data_blocks (data size length x n : Z) : list trb :=
  (λ i, data_trb (u64 (ptr64 data + i * size)) (Z.min (length - i * size) size) x) <$> seqZ 0 n.
(** The blocks, where [x1], [x2] and [x3] are what is left of the stack. *)
Definition control_trbs (request data size length x1 x2 x3 : Z) : list trb :=
  setup_trb request x1 :: data_blocks data size length x2 (pieces size length) ++ [status_trb x3].

Lemma data_blocks_snoc data size length x n :
  0 <= n → data_blocks data size length x (n + 1) = data_blocks data size length x n ++
    [data_trb (u64 (ptr64 data + n * size)) (Z.min (length - n * size) size) x].
Proof. intros. unfold data_blocks. by rewrite seqZ_app, fmap_app by lia. Qed.
Lemma length_data_blocks data size length x n :
  0 <= n → Z.of_nat (Datatypes.length (data_blocks data size length x n)) = n.
Proof. intros. unfold data_blocks. rewrite length_fmap, length_seqZ. lia. Qed.

(** The byte that is not cleared is still there. *)
Lemma top_byte m td p v y x :
  in_space td 16 → 0 <= y < 2 ^ 24 → 0 <= x < 256 → holds m td (Trb p v (control_of y x)) → ld8 m (td + 15) = x.
Proof.
  intros Htd Hy Hx (_ & _ & H). cbn [t_control] in H. unfold control_of in H.
  rewrite Z.lor_comm, lor_shiftl_add in H by lia. unfold ld, trb_control in H. cbn [ld_bytes le_combine] in H.
  replace (td + 12 + 1 + 1 + 1) with (td + 15) in H by lia.
  pose proof (u8_range (ld8 m (td + 12))). pose proof (u8_range (ld8 m (td + 12 + 1))).
  pose proof (u8_range (ld8 m (td + 12 + 1 + 1))). rewrite (u8_small (ld8 m (td + 15))) in H by apply ld8_range. lia.
Qed.

Section Stages.
Context (xhci address devices device : Z) (start count : Z) (frame : xhci_frame) (setup : Z).
#[local] Abbreviation td1 := (xf_td1 frame).
#[local] Abbreviation td2 := (xf_td2 frame).
#[local] Abbreviation td3 := (xf_td3 frame).
#[local] Abbreviation ring := (ring_blocks start count).
#[local] Abbreviation slot := (enqueue_slot device 0).
#[local] Abbreviation pointers := (device_pointers xhci address devices).
#[local] Abbreviation ring_holds := (ring_holds xhci address devices device 0 start).

(** Everything that the transfer reads and writes. *)
Definition stage_regions : list (Z * Z) :=
  [(td1, 16); (td2, 16); (td3, 16); (setup, sizeof_setup_data); ring; slot] ++ pointers.
Context (Hgood : Forall good_region stage_regions) (Hsep : separate stage_regions).
Context (Hend : start + sizeof_trb * count < 4294967296).

Lemma stage_good r : r ∈ stage_regions → good_region r.
Proof. rewrite Forall_forall in Hgood. apply Hgood. Qed.
Lemma stage_apart i j r q : (i < j)%nat → stage_regions !! i = Some r → stage_regions !! j = Some q → apart r q.
Proof. by apply separate_apart. Qed.

Lemma stage_space : Forall (λ r, in_space r.1 r.2) (slot :: ring :: pointers).
Proof. repeat constructor; apply stage_good; unfold stage_regions; set_solver. Qed.
Lemma stage_start : 0 < start.
Proof. destruct (stage_good ring) as [H0 H]; [unfold stage_regions; set_solver|]. unfold in_space in H. cbn in *. lia. Qed.
Lemma stage_pointers : each_apart [ring; slot] pointers.
Proof.
  apply Forall_cons; split; [|apply Forall_cons; split; [|apply Forall_nil_2]]; apply Forall_forall; intros r Hr;
    apply list_elem_of_In in Hr; destruct Hr as [<-|[<-|[]]];
    [apply (stage_apart 4 6)|apply (stage_apart 4 7)|apply (stage_apart 5 6)|apply (stage_apart 5 7)]; (done || lia).
Qed.
Lemma stage_slot : apart ring slot.
Proof. apply (stage_apart 4 5); (done || lia). Qed.
#[local] Hint Resolve stage_space stage_start stage_pointers stage_slot : core.

(** Building a block on the stack and putting it into the ring. *)
Lemma stage_run td i (I : gmap Z Z → Prop) c t l s :
  stage_regions !! i = Some (td, 16) → (i < 3)%nat → makes td I c t → I (mem s) →
  ring_holds (mem s) l → Z.of_nat (length l) < count →
  ∃ m1 m2, c s = Some ((), set_mem m1 s) ∧
    enqueue xhci address 0 td (λ _, mret ()) (set_mem m1 s) = Some ((), set_mem m2 s) ∧
    keeps [(td, 16); ring; slot] (mem s) m2 ∧ ring_holds m2 (l ++ [t (mem s)]) ∧ holds m2 td (t (mem s)).
Proof.
  intros Hi Hlt Hmakes HI Hring Hlen.
  assert (Hfar : Forall (apart (td, 16)) ([slot; ring] ++ pointers)).
  { apply Forall_forall. intros r Hr. assert (∃ j, (4 <= j)%nat ∧ stage_regions !! j = Some r) as (j & Hj & Hr').
    { apply list_elem_of_In in Hr. cbn in Hr. destruct Hr as [<-|[<-|[<-|[<-|[]]]]];
        [exists 5%nat|exists 4%nat|exists 6%nat|exists 7%nat]; split; (done || lia). }
    eapply (stage_apart i j); [lia|done|done]. }
  destruct (Hmakes s HI) as (m1 & Hrun1 & Hk1 & Ht1).
  assert (Hring1 : ring_holds m1 l).
  { eapply (ring_holds_keeps xhci address devices device 0 start count); eauto using Forall_cons_2, Forall_nil_2; lia. }
  pose proof Hfar as [F1 [F2 _]%Forall_cons]%Forall_cons.
  destruct (enqueue_run xhci address devices device 0 start count ltac:(eauto) ltac:(eauto) Hend
    ltac:(eauto) ltac:(eauto) td (t (mem s)) l (set_mem m1 s))
    as (m2 & Hrun2 & Hk2 & Hring2); [|by repeat apply Forall_cons_2|done..|].
  { apply stage_good. by eapply list_elem_of_lookup_2. }
  rewrite set_mem_set_mem in Hrun2. exists m1, m2. split; [done|]. split; [done|]. split; [|split; [done|]].
  - eapply keeps_trans; eapply keeps_weaken; [exact Hk1|sublist|exact Hk2|sublist].
  - eapply holds_keeps; [|exact Hk2|repeat apply Forall_cons_2; by try apply apart_sym|done].
    apply (stage_good (td, 16)). by eapply list_elem_of_lookup_2.
Qed.

#[local] Abbreviation written td := [(td, 16); ring; slot].
Lemma data_stage_run data size length l s :
  0 < size → 0 <= length → length + size <= 2147483648 → ring_holds (mem s) l → Z.of_nat (Datatypes.length l) + pieces size length <= count →
  wp (data_stage frame xhci address data length size) (λ _ t, t = set_mem (mem t) s ∧ keeps (written td2) (mem s) (mem t) ∧
    ring_holds (mem t) (l ++ data_blocks data size length (ld8 (mem s) (td2 + 15)) (pieces size length))) s.
Proof.
  intros Hsize Hlength Hfit Hring Hroom. set (x := ld8 (mem s) (td2 + 15)).
  assert (Htd2 : good_region (td2, 16)) by (apply stage_good; right; left).
  wp_loop (λ '(length', off) t, ∃ k m, t = set_mem m s ∧ 0 <= k <= pieces size length ∧ length' = length - k * size ∧
    off = k * size ∧ keeps (written td2) (mem s) m ∧ ring_holds m (l ++ data_blocks data size length x k) ∧
    ld8 m (td2 + 15) = x) (λ '(length', _) _, Z.max 0 length').
  - intros [length' off] t (k & m & -> & Hk & -> & -> & Hkeep & Hr & Hx).
    pose proof (pieces_more size length k Hsize ltac:(lia)) as Hmore.
    destruct (Z.ltb_spec 0 (length - k * size)).
    + destruct (stage_run td2 1 (λ _, True) _ _ _ (set_mem m s) eq_refl ltac:(lia)
        (data_td_makes td2 Htd2 _ (λ _ _ _ _, Logic.I) data (k * size) (length - k * size) size) Logic.I Hr)
        as (m1 & m2 & Hrun1 & Hrun2 & Hk2 & Hr2 & Ht2).
      { rewrite length_app. pose proof (length_data_blocks data size length x k ltac:(lia)). lia. }
      wp_known Hrun1. wp_known Hrun2. wp_step. rewrite !mem_set_mem, Hx in *.
      split; [|lia]. exists (k + 1), m2. split_and!; try (done || lia).
      * by eapply keeps_trans.
      * by rewrite data_blocks_snoc, app_assoc by lia.
      * eapply top_byte; [apply Htd2| |apply (ld8_range (mem s))|exact Ht2]. by vm_compute.
    + wp_step. rewrite mem_set_mem. assert (k = pieces size length) as <- by lia. done.
  - exists 0, (mem s). pose proof (pieces_bound size length ltac:(lia) ltac:(lia)). rewrite set_mem_id.
    split_and!; try (done || lia || apply keeps_refl). by rewrite app_nil_r.
  - lia.
Qed.

(** The memory of the transfer that is not the ring's is what it was. *)
Lemma stage_keeps i j td r m m' b n :
  (i < 3)%nat → (j < 4)%nat → i ≠ j → stage_regions !! i = Some (td, 16) → stage_regions !! j = Some r →
  keeps (written td) m m' → r.1 <= b → b + Z.of_nat n <= r.1 + r.2 → ld_bytes m' b n = ld_bytes m b n.
Proof.
  intros Hi Hj Hij Htd Hr Hk Hb Hn. pose proof (stage_good _ (list_elem_of_lookup_2 _ _ _ Hr)) as [_ Hsp].
  assert (Hin : ∀ q, apart q r → apart q (b, Z.of_nat n)) by (unfold apart, disjoint; cbn [fst snd]; lia).
  eapply keeps_ld_bytes; [exact Hk|unfold in_space in *; lia|].
  repeat apply Forall_cons_2; [apply Hin..|apply Forall_nil_2].
  - destruct (decide (i < j)%nat); [by apply (stage_apart i j)|apply apart_sym, (stage_apart j i); (done || lia)].
  - apply apart_sym, (stage_apart j 4); (done || lia).
  - apply apart_sym, (stage_apart j 5); (done || lia).
Qed.
Lemma stage_byte i j td td' m m' :
  (i < 3)%nat → (j < 3)%nat → i ≠ j → stage_regions !! i = Some (td, 16) → stage_regions !! j = Some (td', 16) →
  keeps (written td) m m' → ld8 m' (td' + 15) = ld8 m (td' + 15).
Proof.
  intros Hi Hj Hij Htd Htd' Hk.
  pose proof (stage_keeps i j td _ m m' (td' + 15) 1 Hi ltac:(lia) Hij Htd Htd' Hk ltac:(cbn; lia) ltac:(cbn; lia)) as E.
  by injection E.
Qed.

Lemma control_blocks_run data size length l s :
  0 < size → 0 <= length → length + size <= 2147483648 → ring_holds (mem s) l →
  Z.of_nat (Datatypes.length l) + pieces size length + 2 <= count →
  wp (control_blocks frame xhci address setup data length size) (λ _ t, t = set_mem (mem t) s ∧
    keeps [(td1, 16); (td2, 16); (td3, 16); ring; slot] (mem s) (mem t) ∧
    ring_holds (mem t) (l ++ control_trbs (ld 8 (mem s) setup) data size length (ld8 (mem s) (td1 + 15))
      (ld8 (mem s) (td2 + 15)) (ld8 (mem s) (td3 + 15)))) s.
Proof.
  intros Hsize Hlength Hfit Hring Hroom. pose proof (pieces_bound size length Hsize ltac:(lia)) as Hpieces.
  assert (Hgood' : ∀ i r, stage_regions !! i = Some r → good_region r).
  { intros i r Hi. eapply stage_good, list_elem_of_lookup_2, Hi. }
  set (request := ld 8 (mem s) setup). set (I m := ld 8 m setup = request). unfold control_blocks.
  assert (HI : ∀ m m', keeps [(td1, 16)] m m' → I m → I m').
  { intros m m' Hk. unfold I, ld. intros <-. f_equal.
    apply (stage_keeps 0 3 td1 (setup, 8)); try done; try (cbn; lia). eapply keeps_weaken; [exact Hk|sublist]. }
  destruct (stage_run td1 0 I _ _ l s eq_refl ltac:(lia)
    (setup_td_makes td1 (Hgood' 0%nat _ eq_refl) I HI setup request ltac:(done) (Hgood' 3%nat _ eq_refl)) eq_refl Hring ltac:(lia))
    as (m1 & m2 & Hrun1 & Hrun2 & Hk2 & Hr2 & _).
  wp_known Hrun1. wp_known Hrun2. apply wp_bind.
  eapply wp_mono;
    [apply (data_stage_run data size length (l ++ [setup_trb request (ld8 (mem s) (td1 + 15))])); [done|done|done|by rewrite mem_set_mem|]|].
  { rewrite length_app. cbn. lia. }
  rewrite mem_set_mem. intros _ t (Ht & Hk3 & Hr3). rewrite Ht. set (m3 := mem t) in *. clearbody m3. clear Ht t.
  rewrite set_mem_set_mem. rewrite (stage_byte 0 1 td1 td2 (mem s) m2) in Hr3 by (done || lia).
  set (blocks := data_blocks _ _ _ _ _) in Hr3.
  destruct (stage_run td3 2 (λ _, True) _ _ _ (set_mem m3 s) eq_refl ltac:(lia)
    (status_td_makes td3 (Hgood' 2%nat _ eq_refl) _ (λ _ _ _ _, Logic.I)) Logic.I Hr3) as (m4 & m5 & Hrun4 & Hrun5 & Hk5 & Hr5 & _).
  { pose proof (length_data_blocks data size length (ld8 (mem s) (td2 + 15)) (pieces size length) ltac:(lia)).
    rewrite !length_app. unfold blocks. cbn [Datatypes.length]. lia. }
  wp_known Hrun4. apply wp_exact in Hrun5. eapply wp_mono; [exact Hrun5|].
  intros _ t [_ ->]. rewrite !set_mem_set_mem, mem_set_mem in *. split; [done|]. split.
  - eapply keeps_trans; [|eapply keeps_trans]; eapply keeps_weaken; [exact Hk2|sublist|exact Hk3|sublist|exact Hk5|sublist].
  - rewrite (stage_byte 1 2 td2 td3 m2 m3), (stage_byte 0 2 td1 td3 (mem s) m2) in Hr5 by (done || lia).
    by rewrite <- !app_assoc in Hr5.
Qed.
End Stages.

(** ** Properties *)

(** The packet size of endpoint 0, as the device's input context has it. *)
Definition context_packet_size (m : gmap Z Z) (device : Z) : Z :=
  ld 2 m (ld 4 m (device + xd_ic) + ic_ep_context0 + epc_max_packet_size).

(** C31: The blocks of a control transfer: the driver puts, one after another
    from the enqueue pointer on, a setup block that carries the 8 bytes of the
    request, one data block for each piece of the data (its address, and the
    packet size or what is left of the data), and a status block that interrupts,
    and moves the enqueue pointer behind them; every block has its cycle bit
    set, and the blocks that were in the ring stay.  Only the ring, the pointer
    and the blocks on the stack change, and what the driver does next is to ring
    the doorbell and wait.  (The top byte of a block's control word is what was
    on the stack: clearing a block stops one byte short.) *)
Theorem xhci_control_transfer_blocks {Dev : Type} (hw : hardware Dev) bl_time_sleep frame hc xhci address devices device
    start count packet_size speed setup data length l s d :
  let m := mem s in
  let size := if packet_size =? 0 then context_packet_size m device else packet_size in
  ld 4 m (hc + hc_data) = xhci → ring_holds xhci address devices device 0 start m l →
  Forall good_region (stage_regions xhci address devices device start count frame setup) →
  separate (stage_regions xhci address devices device start count frame setup) →
  start + sizeof_trb * count < 4294967296 →
  0 < size → 0 <= length → length + size <= 2147483648 →
  Z.of_nat (Datatypes.length l) + pieces size length + 2 <= count →
  ∃ m', bl_xhci_control_transfer hw bl_time_sleep frame hc packet_size address speed setup data length (s, d) =
      (ring_doorbell hw xhci address 1;; wait_event hw bl_time_sleep xhci;; mret Status.BL_STATUS_SUCCESS)
        (set_mem m' s, d) ∧
    keeps [(xf_td1 frame, 16); (xf_td2 frame, 16); (xf_td3 frame, 16); ring_blocks start count; enqueue_slot device 0] m m' ∧
    ring_holds xhci address devices device 0 start m' (l ++ control_trbs (ld 8 m setup) data size length
      (ld8 m (xf_td1 frame + 15)) (ld8 m (xf_td2 frame + 15)) (ld8 m (xf_td3 frame + 15))).
Proof.
  intros m size Hhc Hring Hgood Hsep Hend Hsize Hlength Hfit Hroom.
  pose proof (control_blocks_run xhci address devices device start count frame setup Hgood Hsep Hend data size length l s
    Hsize Hlength Hfit Hring Hroom) as Hrun.
  apply wp_run in Hrun as ([] & t & Hrun & Ht & Hk & Hr). rewrite Ht in Hrun. exists (mem t). split; [|done].
  destruct Hring as (H1 & H2 & _). unfold bl_xhci_control_transfer.
  assert (Hhc' : on_machine (rd32 (hc + hc_data)) (s, d) = Some (xhci, (s, d))) by (apply on_machine_run; by rewrite <- Hhc).
  run_with Hhc'. assert (Hsp : in_space (devices + 4 * address) 4).
  { rewrite Forall_forall in Hgood. apply (Hgood (devices + 4 * address, 4)). unfold stage_regions, device_pointers. set_solver. }
  assert (Hmax : (device ← xhci_device xhci address; ic ← rd32 (device + xd_ic);
    rd16 (ic + ic_ep_context0 + epc_max_packet_size)) s = Some (context_packet_size m device, s)).
  { by run_with (device_run xhci address devices device s Hsp H1 H2). }
  run_with (on_machine_run _ _ _ _ d Hmax). fold size. by run_with (on_machine_run _ _ _ _ d Hrun).
Qed.

(** A controller at 0x2000 with device 1 at 0x4000, whose ring at 0x6000 has room
    for 127 blocks and holds one; the blocks of the stack from 0x7010 on, with
    0xAA in them, the request for 18 bytes at 0x7800, packets of 8 bytes. *)
Definition wit_frame : xhci_frame := XhciFrame 0x7010 0x7020 0x7030 0x7040.
Definition wit_xhci_words : list (Z * Z) :=
  [(0x1000 + hc_data, 0x2000); (0x2000 + xc_devices, 0x3000); (0x3004, 0x4000); (0x4000 + xd_ic, 0x5000);
   (0x4000 + xd_tr_enqueue, 0x6010); (0x6000, 0x1234); (0x6008, 8); (0x600c, 0xaa000001);
   (0x5000 + ic_ep_context0 + 4, 0x00080000)].
Definition wit_xhci : machine :=
  set_mem (foldr (λ p m, st 4 m p.1 p.2)
    (st_bytes (st_bytes ∅ 0x7010 (replicate 64 0xaa)) 0x7800 [0x80; 6; 0; 1; 0; 0; 18; 0]) wit_xhci_words) machine0.
Definition idle_hardware : hardware () := Hardware () (λ a m d, (ld 4 m a, (m, d))) (λ v a m d, (st 4 m a v, d)) (λ m d, (m, d)).

Lemma xhci_control_transfer_blocks_witness :
  let sleep : Z → D () Z := λ _, mret 0 in
  ∃ m', bl_xhci_control_transfer idle_hardware sleep wit_frame 0x1000 0 1 BL_USB_HIGH_SPEED 0x7800 0x80009000 18 (wit_xhci, ()) =
      (ring_doorbell idle_hardware 0x2000 1 1;; wait_event idle_hardware sleep 0x2000;; mret Status.BL_STATUS_SUCCESS)
        (set_mem m' wit_xhci, ()) ∧
    keeps [(0x7010, 16); (0x7020, 16); (0x7030, 16); ring_blocks 0x6000 127; enqueue_slot 0x4000 0] (mem wit_xhci) m' ∧
    ring_holds 0x2000 1 0x3000 0x4000 0 0x6000 m' (Trb 0x1234 8 0xaa000001 ::
      control_trbs (ld 8 (mem wit_xhci) 0x7800) 0x80009000 8 18 0xaa 0xaa 0xaa).
Proof.
  intros sleep.
  apply (xhci_control_transfer_blocks idle_hardware sleep wit_frame 0x1000 0x2000 1 0x3000 0x4000 0x6000 127 0
    BL_USB_HIGH_SPEED 0x7800 0x80009000 18 [Trb 0x1234 8 0xaa000001] wit_xhci ()).
  - by vm_compute.
  - split; [by vm_compute|split; [by vm_compute|split; [by vm_compute|]]].
    intros [|i] t Hi; [injection Hi as <-; repeat split; by vm_compute|done].
  - repeat constructor; by vm_compute.
  - unfold stage_regions, device_pointers. concrete_regions.
  - by vm_compute.
  - by vm_compute.
  - done.
  - by vm_compute.
  - by vm_compute.
Defined.
