(* ===== verification/Mtrr.v ===== *)
(** * Write-combining memory: core/arch/i386/mtrr/mtrr.c, include/msr.h

    The model-specific registers are a map; [cpuid] is a function of the
    processor.  Both are parameters of the machine, not code. *)
From S2P Require Import Prelude Memory Arith.

Definition BL_MSR_MTRR : Z := 0xfe.
Definition BL_MSR_MTRR_PHYSBASEN (n : Z) : Z := 0x200 + n * 2.
Definition BL_MSR_MTRR_PHYSMASKN (n : Z) : Z := 0x201 + n * 2.
Definition BL_MSR_MTRR_VCNT : Z := 0xff.
Definition BL_MSR_MTRR_WC : Z := 1024.
Definition BL_MSR_MTRR_PHYSMASK_V : Z := 2048.

Record cpuid_result := Cpuid { eax : Z; ebx : Z; ecx : Z; edx : Z }.

(** Registers: 64-bit values; [rdmsr] splits them in two halves. *)
Abbreviation msrs := (gmap Z Z).
Definition MS (A : Type) : Type := ST msrs A.

Definition bl_rdmsr (msr : Z) : MS (Z * Z) :=
  gets (λ r, let v := u64 (default 0 (r !! msr)) in (u32 v, Z.shiftr v 32)).
Definition bl_wrmsr (msr low high : Z) : MS () :=
  modify (λ r, <[msr := Z.lor (Z.shiftl (u32 high) 32) (u32 low)]> r).

(** The physical mask of a range, and the entry that is written. *)
Definition new_physbase (ptr addrmask : Z) : Z := Z.lor (Z.land ptr addrmask) 1.
Definition new_physmask (size addrmask : Z) : Z :=
  Z.lor (Z.land (not64 (u64 (size - 1))) addrmask) BL_MSR_MTRR_PHYSMASK_V.

Definition bl_mtrr_set_entry (i ptr size addrmask : Z) : MS () :=
  let b := new_physbase ptr addrmask in
  bl_wrmsr (BL_MSR_MTRR_PHYSBASEN i) (Z.land b 0xffffffff) (u32 (Z.shiftr b 32));;
  let m := new_physmask size addrmask in
  bl_wrmsr (BL_MSR_MTRR_PHYSMASKN i) (Z.land m 0xffffffff) (u32 (Z.shiftr m 32)).

(** True when the range may be set although this valid entry exists. *)
Definition bl_mtrr_check_range_overlap (ptr size addrmask physbase physmask : Z) : bool :=
  let base := Z.land physbase (not64 0xfff) in
  if Z.land physbase 1 =? 0 then true
  else if ptr <? base then true
  else if u64 (base + 1 + Z.land addrmask (not64 (Z.land physmask (not64 0xfff)))) <? u64 (ptr + size)
  then true
  else false.

(** [BL_MEMORY_ALIGN_UP] on 64-bit operands. *)
Definition ALIGN_UP64 (addr align : Z) : Z :=
  Z.land (u64 (addr + align - 1)) (not64 (u64 (align - 1))).

(** The scan of the valid entries: [None] when one forbids the new range, else
    the first free entry, or -1. *)
Definition scan_entries (vcnt ptr size addrmask : Z) : MS (option Z) :=
  mwhile (λ '(i, free_entry),
    if i <? vcnt then
      '(low, high) ← bl_rdmsr (BL_MSR_MTRR_PHYSMASKN i);
      let physmask := Z.lor (Z.shiftl high 32) low in
      if truth (Z.land physmask BL_MSR_MTRR_PHYSMASK_V) then
        '(low, high) ← bl_rdmsr (BL_MSR_MTRR_PHYSBASEN i);
        let physbase := Z.lor (Z.shiftl high 32) low in
        if negb (bl_mtrr_check_range_overlap ptr size addrmask physbase physmask) then break None
        else continue (i + 1, free_entry)
      else continue (i + 1, if free_entry =? -1 then i else free_entry)
    else break (Some free_entry)) (0, -1).

Section Mtrr.
Context (bl_cpu_cpuid : Z → cpuid_result).

Definition address_mask : Z :=
  if 0x80000008 <=? eax (bl_cpu_cpuid 0x80000000)
  then Z.shiftl 1 (Z.land (eax (bl_cpu_cpuid 0x80000008)) 0xff) - 1
  else Z.shiftl 1 36 - 1.

Definition bl_mtrr_set_write_combine_cache (ptr size : Z) : MS () :=
  if Z.land (edx (bl_cpu_cpuid 1)) 4096 =? 0 then mret ()
  else
    '(low, _) ← bl_rdmsr BL_MSR_MTRR;
    if Z.land low BL_MSR_MTRR_WC =? 0 then mret ()
    else
      let vcnt := Z.land low BL_MSR_MTRR_VCNT in
      if (vcnt =? 0) || (8 <? vcnt) then mret ()
      else
        let ptr := ALIGN_UP64 ptr 0x1000 in
        let size := ALIGN_UP64 size 0x1000 in
        if truth (Z.land size (u64 (size - 1))) then mret ()
        else if (0x1000 <? size) && negb (ptr =? ALIGN_UP64 ptr size) then mret ()
        else
          o ← scan_entries vcnt ptr size address_mask;
          match o with
          | None => mret ()
          | Some free_entry =>
              if negb (free_entry =? -1) then bl_mtrr_set_entry free_entry ptr size address_mask
              else mret ()
          end.
End Mtrr.

(** ** What the processor makes of an entry

    The processor's manual: an entry whose valid bit is set gives its type to the
    addresses that agree with its base at the bits of its mask. *)
Definition reg (r : msrs) (msr : Z) : Z := u64 (default 0 (r !! msr)).
Definition entry_base (r : msrs) (i : Z) : Z := reg r (BL_MSR_MTRR_PHYSBASEN i).
Definition entry_mask (r : msrs) (i : Z) : Z := reg r (BL_MSR_MTRR_PHYSMASKN i).
Definition entry_valid (r : msrs) (i : Z) : bool := Z.testbit (entry_mask r i) 11.
Definition entry_type (r : msrs) (i : Z) : Z := Z.land (entry_base r i) 0xff.
Definition field (x : Z) : Z := Z.land x (not64 0xfff).
Definition entry_matches (r : msrs) (i a : Z) : Prop :=
  Z.land a (field (entry_mask r i)) = Z.land (field (entry_base r i)) (field (entry_mask r i)).

(** ** Bits *)
Lemma not64_bit x j : 0 <= j < 64 → Z.testbit (not64 x) j = negb (Z.testbit x j).
Proof.
  intros Hj. unfold not64, u64. change 18446744073709551616 with (2 ^ 64).
  rewrite Z.mod_pow2_bits_low by lia. apply Z.lnot_spec. lia.
Qed.

Lemma range_bit n x j : 0 <= x < 2 ^ n → 0 <= n <= j → Z.testbit x j = false.
Proof. intros Hx Hj. rewrite <- (Z.mod_small x (2 ^ n)) by done. apply Z.mod_pow2_bits_high. lia. Qed.

Lemma ones_bit n j : 0 <= n → 0 <= j → Z.testbit (2 ^ n - 1) j = (j <? n).
Proof.
  intros. replace (2 ^ n - 1) with (Z.ones n) by (rewrite Z.ones_equiv; lia). by apply Z.testbit_ones_nonneg.
Qed.

Lemma field_bit x j : 0 <= j < 64 → Z.testbit (field x) j = (12 <=? j) && Z.testbit x j.
Proof.
  intros Hj. unfold field. rewrite Z.land_spec, not64_bit by done. change 0xfff with (2 ^ 12 - 1).
  rewrite ones_bit, andb_comm by lia. by destruct (Z.ltb_spec j 12), (Z.leb_spec 12 j); try lia.
Qed.

(** The mask of a range of [2 ^ k] bytes, among addresses of [n] bits. *)
Lemma new_physmask_bit k n j :
  0 <= k → 0 <= n <= 64 → 0 <= j < 64 →
  Z.testbit (new_physmask (2 ^ k) (2 ^ n - 1)) j = ((k <=? j) && (j <? n)) || (j =? 11).
Proof.
  intros Hk Hn Hj. unfold new_physmask. rewrite Z.lor_spec, Z.land_spec, not64_bit, ones_bit by lia.
  unfold u64. change 18446744073709551616 with (2 ^ 64). rewrite Z.mod_pow2_bits_low, ones_bit by lia.
  unfold BL_MSR_MTRR_PHYSMASK_V. change 2048 with (2 ^ 11). rewrite Z.pow2_bits_eqb by lia.
  rewrite (Z.eqb_sym 11). do 2 f_equal. by destruct (Z.ltb_spec j k), (Z.leb_spec k j); try lia.
Qed.

Lemma new_physbase_bit ptr n j :
  0 <= n → 1 <= j → Z.testbit (new_physbase ptr (2 ^ n - 1)) j = Z.testbit ptr j && (j <? n).
Proof.
  intros Hn Hj. unfold new_physbase. rewrite Z.lor_spec, Z.land_spec, ones_bit by lia.
  change 1 with (2 ^ 0). rewrite Z.pow2_bits_eqb by lia. destruct (Z.eqb_spec 0 j); [lia|]. by rewrite orb_false_r.
Qed.

Lemma physmask_range size n : 0 <= n <= 63 → 0 <= new_physmask size (2 ^ n - 1) < 2 ^ 64.
Proof.
  intros Hn. assert (H0 : 0 <= new_physmask size (2 ^ n - 1)).
  { unfold new_physmask. apply Z.lor_nonneg. split; [|done]. apply Z.land_nonneg. left. apply u64_range. }
  split; [done|]. destruct (Z.eq_dec (new_physmask size (2 ^ n - 1)) 0) as [->|]; [done|].
  apply Z.log2_lt_pow2; [lia|]. apply Z.nle_gt. intros Hl.
  assert (Hb : Z.testbit (new_physmask size (2 ^ n - 1)) (Z.log2 (new_physmask size (2 ^ n - 1))) = true)
    by (apply Z.bit_log2; lia).
  revert Hb Hl. generalize (Z.log2 (new_physmask size (2 ^ n - 1))). intros j Hb Hl. unfold new_physmask in Hb.
  rewrite Z.lor_spec, Z.land_spec, ones_bit in Hb by lia. destruct (Z.ltb_spec j n); [lia|].
  rewrite andb_false_r in Hb. unfold BL_MSR_MTRR_PHYSMASK_V in Hb. change 2048 with (2 ^ 11) in Hb.
  rewrite Z.pow2_bits_eqb in Hb by lia. cbn [orb] in Hb. apply Z.eqb_eq in Hb. lia.
Qed.

Lemma physbase_range ptr n : 0 <= n <= 63 → 0 <= new_physbase ptr (2 ^ n - 1) < 2 ^ 64.
Proof.
  intros Hn. unfold new_physbase. replace (2 ^ n - 1) with (Z.ones n) by (rewrite Z.ones_equiv; lia).
  rewrite Z.land_ones by lia. pose proof (Z.mod_pos_bound ptr (2 ^ n) ltac:(apply Z.pow_pos_nonneg; lia)) as Hm.
  assert (2 ^ n <= 2 ^ 63) by (apply Z.pow_le_mono_r; lia).
  split; [apply Z.lor_nonneg; lia|]. set (x := ptr mod 2 ^ n) in *.
  pose proof (Z.add_lor_land x 1). pose proof (Z.land_nonneg x 1). change (2 ^ 64) with (2 * 2 ^ 63).
  assert (1 < 2 ^ 63) by done. lia.
Qed.

(** ** Registers, one entry at a time *)
Lemma shiftr_mod_join v : 0 <= v < 2 ^ 64 → Z.lor (Z.shiftl (Z.shiftr v 32) 32) (u32 v) = v.
Proof.
  intros Hv. rewrite lor_shiftl_add, Z.shiftr_div_pow2 by (lia || apply u32_range).
  unfold u32. change (2 ^ 32) with 4294967296. pose proof (Z.div_mod v 4294967296). lia.
Qed.

Lemma split_word v :
  0 <= v < 2 ^ 64 →
  Z.lor (Z.shiftl (u32 (u32 (Z.shiftr v 32))) 32) (u32 (Z.land v 0xffffffff)) = v.
Proof.
  intros Hv. change 0xffffffff with (Z.ones 32). rewrite Z.land_ones by lia. change (2 ^ 32) with 4294967296.
  fold (u32 v). rewrite !u32_idemp, (u32_small (Z.shiftr v 32)); [by apply shiftr_mod_join|].
  rewrite Z.shiftr_div_pow2 by lia. change (2 ^ 64) with (4294967296 * 4294967296) in Hv.
  change (2 ^ 32) with 4294967296. Z.div_mod_to_equations; lia.
Qed.

Lemma rdmsr_run msr r : bl_rdmsr msr r = Some ((u32 (reg r msr), Z.shiftr (reg r msr) 32), r).
Proof. done. Qed.

Lemma rdmsr_join r msr : Z.lor (Z.shiftl (Z.shiftr (reg r msr) 32) 32) (u32 (reg r msr)) = reg r msr.
Proof. apply shiftr_mod_join, u64_range. Qed.

(** The registers after [bl_mtrr_set_entry]. *)
Definition entry_written (i ptr size n : Z) (r : msrs) : msrs :=
  <[BL_MSR_MTRR_PHYSMASKN i := new_physmask size (2 ^ n - 1)]>
    (<[BL_MSR_MTRR_PHYSBASEN i := new_physbase ptr (2 ^ n - 1)]> r).

Lemma set_entry_run i ptr size n r :
  0 <= n <= 63 → bl_mtrr_set_entry i ptr size (2 ^ n - 1) r = Some ((), entry_written i ptr size n r).
Proof.
  intros Hn. unfold entry_written.
  rewrite <- (split_word (new_physmask size (2 ^ n - 1))) by (by apply physmask_range).
  by rewrite <- (split_word (new_physbase ptr (2 ^ n - 1))) by (by apply physbase_range).
Qed.

(** What such an entry says: write-combining for the addresses of the range. *)
Definition write_combines (r : msrs) (i lo sz n : Z) : Prop :=
  entry_valid r i = true ∧ entry_type r i = 1 ∧
  ∀ a, 0 <= a < 2 ^ n → entry_matches r i a ↔ lo <= a < lo + sz.

Lemma clear_low x k m :
  0 <= k <= m → 0 <= x < 2 ^ m → m <= 64 →
  ∀ w, (∀ j, 0 <= j < 64 → Z.testbit w j = (k <=? j) && (j <? m)) → 0 <= w < 2 ^ 64 →
  Z.land x w = x / 2 ^ k * 2 ^ k.
Proof.
  intros Hk Hx Hm w Hw Hr. rewrite <- Z.shiftl_mul_pow2, <- Z.shiftr_div_pow2 by lia.
  apply Z.bits_inj'. intros j Hj. rewrite Z.land_spec, Z.shiftl_spec by done.
  destruct (Z.ltb_spec j 64) as [Hj64|Hj64]; cycle 1.
  { rewrite (range_bit 64 w) by lia. rewrite andb_false_r, Z.shiftr_spec by lia.
    symmetry. rewrite Z.sub_add. apply (range_bit m); lia. }
  rewrite Hw by lia. destruct (Z.leb_spec k j).
  - rewrite Z.shiftr_spec, Z.sub_add by lia. destruct (Z.ltb_spec j m); [by rewrite andb_true_r|].
    rewrite (range_bit m x) by lia. done.
  - rewrite andb_false_r, Z.testbit_neg_r by lia. done.
Qed.

Lemma entry_written_combines i k q n r :
  12 <= k <= n → n <= 52 → 0 <= q → (q + 1) * 2 ^ k <= 2 ^ n →
  write_combines (entry_written i (q * 2 ^ k) (2 ^ k) n r) i (q * 2 ^ k) (2 ^ k) n.
Proof.
  intros Hk Hn Hq Hend. assert (Hpk : 0 < 2 ^ k) by (apply Z.pow_pos_nonneg; lia).
  set (p := q * 2 ^ k) in *. set (r' := entry_written i p (2 ^ k) n r).
  assert (Hmask : entry_mask r' i = new_physmask (2 ^ k) (2 ^ n - 1)).
  { unfold entry_mask, reg, r', entry_written. rewrite lookup_insert_eq. apply Z.mod_small, physmask_range. lia. }
  assert (Hbase : entry_base r' i = new_physbase p (2 ^ n - 1)).
  { unfold entry_base, reg, r', entry_written. rewrite lookup_insert_ne by (unfold BL_MSR_MTRR_PHYSMASKN, BL_MSR_MTRR_PHYSBASEN; lia).
    rewrite lookup_insert_eq. apply Z.mod_small, physbase_range. lia. }
  unfold write_combines, entry_valid, entry_type, entry_matches. rewrite Hmask, Hbase.
  split; [by rewrite new_physmask_bit, orb_true_r by lia|]. split.
  - apply Z.bits_inj'. intros j Hj. rewrite Z.land_spec. change 0xff with (2 ^ 8 - 1). rewrite ones_bit by lia.
    destruct (decide (j = 0)) as [->|Hj0].
    + unfold new_physbase. rewrite Z.lor_spec. by rewrite orb_true_r.
    + rewrite new_physbase_bit by lia. change 1 with (2 ^ 0). rewrite Z.pow2_bits_eqb by lia.
      destruct (Z.eqb_spec 0 j); [lia|]. destruct (Z.ltb_spec j 8); [|by rewrite andb_false_r].
      unfold p. by rewrite Z.mul_pow2_bits_low by lia.
  - intros a Ha. set (w := field (new_physmask (2 ^ k) (2 ^ n - 1))).
    assert (Hw : ∀ j, 0 <= j < 64 → Z.testbit w j = (k <=? j) && (j <? n)).
    { intros j Hj. unfold w. rewrite field_bit, new_physmask_bit by lia.
      destruct (Z.leb_spec 12 j), (Z.leb_spec k j), (Z.eqb_spec j 11); try lia; by rewrite ?orb_false_r. }
    assert (Hwr : 0 <= w < 2 ^ 64).
    { unfold w, field. pose proof (physmask_range (2 ^ k) n ltac:(lia)) as Hr.
      rewrite Z.land_comm. split; [apply Z.land_nonneg; right; lia|].
      destruct Hr as [H0 H1]. revert H0 H1. generalize (new_physmask (2 ^ k) (2 ^ n - 1)). intros v H0 H1.
      rewrite <- (Z.mod_small v (2 ^ 64)) by lia. rewrite <- Z.land_ones, Z.land_assoc, Z.land_ones by lia.
      apply Z.mod_pos_bound. lia. }
    rewrite (clear_low a k n) by (done || lia).
    assert (Hf : Z.land (field (new_physbase p (2 ^ n - 1))) w = p).
    { trans (Z.land p w); [|rewrite (clear_low p k n) by (done || nia); unfold p; rewrite Z.div_mul by lia; done].
      apply Z.bits_inj'. intros j Hj. rewrite !Z.land_spec. destruct (Z.ltb_spec j 64); cycle 1.
      { by rewrite (range_bit 64 w), !andb_false_r by lia. }
      rewrite Hw, field_bit by lia. destruct (Z.leb_spec k j); [|by rewrite !andb_false_r].
      rewrite new_physbase_bit by lia. destruct (Z.leb_spec 12 j); [|lia]. destruct (j <? n); by rewrite ?andb_false_r, ?andb_true_r. }
    rewrite Hf. unfold p. pose proof (Z.div_mod a (2 ^ k) ltac:(lia)). pose proof (Z.mod_pos_bound a (2 ^ k) Hpk).
    split; [lia|]. intros Hin. f_equal. symmetry. apply (Z.div_unique_pos _ _ _ (a - q * 2 ^ k)); lia.
Qed.

(** ** The choice of an entry *)
Definition page_up (x : Z) : Z := (x + 4095) / 4096 * 4096.

Lemma align_up64 x k :
  0 <= k <= 52 → 0 <= x → x + 2 ^ k <= 2 ^ 60 → ALIGN_UP64 x (2 ^ k) = (x + 2 ^ k - 1) / 2 ^ k * 2 ^ k.
Proof.
  intros Hk Hx Hend. assert (2 ^ 0 <= 2 ^ k <= 2 ^ 52) by (split; apply Z.pow_le_mono_r; lia). change (2 ^ 0) with 1 in *.
  change (2 ^ 52) with 4503599627370496 in *. change (2 ^ 60) with 1152921504606846976 in *.
  unfold ALIGN_UP64. rewrite !u64_small by lia.
  apply (clear_low _ k 64); [lia|change (2 ^ 64) with 18446744073709551616; lia|lia| |apply u64_range].
  intros j Hj. rewrite not64_bit, ones_bit by lia. destruct (Z.ltb_spec j k), (Z.leb_spec k j), (Z.ltb_spec j 64); lia || done.
Qed.

(** An entry that is write-combining and contains the range. *)
Definition blocks (r : msrs) (p z mask i : Z) : bool :=
  entry_valid r i && negb (bl_mtrr_check_range_overlap p z mask (entry_base r i) (entry_mask r i)).

(** The first free entry, unless an entry blocks the range. *)
Definition first_free (r : msrs) (vcnt : Z) : option Z := List.find (λ i, negb (entry_valid r i)) (seqZ 0 vcnt).
Definition free_entry (r : msrs) (vcnt p z mask : Z) : option Z :=
  if existsb (blocks r p z mask) (seqZ 0 vcnt) then None else first_free r vcnt.

Definition entry_or_minus1 (o : option Z) : Z := match o with Some i => i | None => -1 end.

Lemma valid_bit r i : truth (Z.land (entry_mask r i) BL_MSR_MTRR_PHYSMASK_V) = entry_valid r i.
Proof. exact (truth_land_bit (entry_mask r i) 11 ltac:(lia)). Qed.

Lemma first_free_range r n i : first_free r n = Some i → 0 <= i < n ∧ entry_valid r i = false.
Proof.
  intros H. apply find_some in H as [Hin Hv]. apply list_elem_of_In, elem_of_seqZ in Hin.
  split; [lia|]. by apply negb_true_iff in Hv.
Qed.

Lemma scan_entries_run vcnt p z mask r :
  0 <= vcnt <= 8 →
  scan_entries vcnt p z mask r =
  Some (if existsb (blocks r p z mask) (seqZ 0 vcnt) then None else Some (entry_or_minus1 (first_free r vcnt)), r).
Proof.
  intros Hn. set (res := if existsb _ _ then None else _).
  enough (H : wp (scan_entries vcnt p z mask) (λ o r', o = res ∧ r' = r) r).
  { apply wp_run in H as (o & r' & Hrun & -> & ->). done. }
  unfold scan_entries.
  apply (wp_mwhile _ (λ '(i, fe) r', r' = r ∧ 0 <= i <= vcnt ∧ existsb (blocks r p z mask) (seqZ 0 i) = false ∧
      fe = entry_or_minus1 (first_free r i)) _ (λ '(i, _) _, vcnt - i)); [|by split; [|split; [lia|]]|unfold while_fuel; lia].
  intros [i fe] r' (-> & Hi & Hb & ->). destruct (Z.ltb_spec i vcnt); cycle 1.
  { wp_step. assert (i = vcnt) as -> by lia. unfold res. by rewrite Hb. }
  destruct (seqZ_split i vcnt ltac:(lia)) as [tl Hsplit].
  assert (Hsnoc : seqZ 0 (i + 1) = seqZ 0 i ++ [i]) by (by rewrite seqZ_app by lia).
  wp_step. apply wp_run. eexists _, _. split; [apply rdmsr_run|]. cbv beta iota zeta. rewrite rdmsr_join. fold (entry_mask r i).
  rewrite valid_bit. destruct (entry_valid r i) eqn:Ev.
  - wp_step. apply wp_run. eexists _, _. split; [apply rdmsr_run|]. cbv beta iota zeta. rewrite rdmsr_join. fold (entry_base r i).
    assert (Hbl : blocks r p z mask i = negb (bl_mtrr_check_range_overlap p z mask (entry_base r i) (entry_mask r i)))
      by (unfold blocks; by rewrite Ev).
    rewrite <- Hbl. destruct (blocks r p z mask i) eqn:Eb; wp_step.
    + split; [|done]. unfold res. by rewrite Hsplit, existsb_app, Hb, orb_false_l; simpl; rewrite Eb.
    + split; [|lia]. split; [done|]. split; [lia|]. rewrite Hsnoc, existsb_app, Hb. simpl. rewrite Eb. split; [done|].
      unfold first_free. rewrite Hsnoc, find_app. simpl. rewrite Ev. simpl. by destruct (List.find _ _).
  - assert (Eb : blocks r p z mask i = false) by (unfold blocks; by rewrite Ev).
    wp_step. split; [|lia]. split; [done|]. split; [lia|]. rewrite Hsnoc, existsb_app, Hb. simpl. rewrite Eb. split; [done|].
    unfold first_free. rewrite Hsnoc, find_app. simpl. rewrite Ev. destruct (List.find _ (seqZ 0 i)) as [k|] eqn:Ef; [|done].
    apply (first_free_range r i k) in Ef as [? _]. simpl. by destruct (Z.eqb_spec k (-1)); [lia|].
Qed.

(** ** Properties *)

(** The processor has write-combining range registers, [range_count] of them. *)
Definition range_count (r : msrs) : Z := Z.land (u32 (reg r BL_MSR_MTRR)) BL_MSR_MTRR_VCNT.
Definition has_ranges (cpuid : Z → cpuid_result) (r : msrs) : bool :=
  negb (Z.land (edx (cpuid 1)) 4096 =? 0) && negb (Z.land (u32 (reg r BL_MSR_MTRR)) BL_MSR_MTRR_WC =? 0) &&
  negb ((range_count r =? 0) || (8 <? range_count r)).

(** The entry that a request for [z] bytes at [p] gets. *)
Definition granted (cpuid : Z → cpuid_result) (r : msrs) (p z : Z) : option Z :=
  if has_ranges cpuid r && (Z.land z (z - 1) =? 0) && (p mod z =? 0)
  then free_entry r (range_count r) p z (address_mask cpuid) else None.

Lemma page_up_spec x : 0 <= x → 0 <= page_up x ∧ x <= page_up x < x + 4096 ∧ (page_up x) mod 4096 = 0.
Proof.
  intros Hx. unfold page_up. rewrite Z.mod_mul by lia. pose proof (Z.div_mod (x + 4095) 4096 ltac:(lia)).
  pose proof (Z.mod_pos_bound (x + 4095) 4096 ltac:(lia)). lia.
Qed.

Lemma align_test k p :
  12 <= k <= 52 → 0 <= p → p + 2 ^ k <= 2 ^ 60 →
  (p =? ALIGN_UP64 p (2 ^ k)) = (p mod 2 ^ k =? 0).
Proof.
  intros Hk Hp Hend. rewrite align_up64 by lia. assert (Hpk : 0 < 2 ^ k) by (apply Z.pow_pos_nonneg; lia).
  pose proof (Z.div_mod (p + 2 ^ k - 1) (2 ^ k) ltac:(lia)). pose proof (Z.mod_pos_bound (p + 2 ^ k - 1) (2 ^ k) Hpk).
  pose proof (Z.div_mod p (2 ^ k) ltac:(lia)) as Hd.
  destruct (Z.eqb_spec (p mod 2 ^ k) 0) as [E|E]; apply Z.eqb_eq || apply Z.eqb_neq.
  - enough ((p + 2 ^ k - 1) / 2 ^ k = p / 2 ^ k) as -> by lia.
    symmetry. apply (Z.div_unique_pos _ _ _ (2 ^ k - 1)); lia.
  - intros Heq. apply E. rewrite Heq. apply Z.mod_mul. lia.
Qed.

(** C21: for a range of at least one byte inside the physical address space,
    [bl_mtrr_set_write_combine_cache] ends and either leaves all registers as
    they were (no support, a size that is not a power of two, a start that is
    not aligned to it, a write-combining entry that contains the range, or no
    free entry), or sets the first free entry, and only that one, so that it
    gives the write-combining type to exactly the addresses of the range,
    rounded up to pages. *)
Theorem mtrr_write_combine cpuid n ptr size r :
  address_mask cpuid = 2 ^ n - 1 → 12 <= n <= 52 →
  0 <= ptr → 0 < size → page_up ptr + page_up size <= 2 ^ n →
  ∃ r', bl_mtrr_set_write_combine_cache cpuid ptr size r = Some ((), r') ∧
    match granted cpuid r (page_up ptr) (page_up size) with
    | None => r' = r
    | Some i => 0 <= i < 8 ∧ entry_valid r i = false ∧ write_combines r' i (page_up ptr) (page_up size) n ∧
        ∀ msr, msr ≠ BL_MSR_MTRR_PHYSBASEN i → msr ≠ BL_MSR_MTRR_PHYSMASKN i → r' !! msr = r !! msr
    end.
Proof.
  intros Hmask Hn Hptr Hsize Hend.
  destruct (page_up_spec ptr Hptr) as (Hp0 & Hp & Hpm). destruct (page_up_spec size ltac:(lia)) as (Hz0 & Hz & Hzm).
  assert (H52 : 2 ^ n <= 2 ^ 52) by (apply Z.pow_le_mono_r; lia). change (2 ^ 52) with 4503599627370496 in H52.
  assert (H60 : 2 ^ 60 = 1152921504606846976) by done.
  assert (Hap : ALIGN_UP64 ptr 4096 = page_up ptr).
  { change 4096 with (2 ^ 12). rewrite align_up64 by (change (2 ^ 12) with 4096; lia). unfold page_up.
    change (2 ^ 12) with 4096. do 2 f_equal. lia. }
  assert (Haz : ALIGN_UP64 size 4096 = page_up size).
  { change 4096 with (2 ^ 12). rewrite align_up64 by (change (2 ^ 12) with 4096; lia). unfold page_up.
    change (2 ^ 12) with 4096. do 2 f_equal. lia. }
  set (p := page_up ptr) in *. set (z := page_up size) in *.
  unfold granted, has_ranges, bl_mtrr_set_write_combine_cache. rewrite Hmask, Hap, Haz.
  destruct (Z.land (edx (cpuid 1)) 4096 =? 0); [by exists r|].
  rewrite (bind_run _ _ _ _ _ (rdmsr_run BL_MSR_MTRR r)). cbv beta iota zeta. cbn [negb andb].
  destruct (Z.land (u32 (reg r BL_MSR_MTRR)) BL_MSR_MTRR_WC =? 0); [by exists r|]. cbn [negb andb].
  fold (range_count r). destruct ((range_count r =? 0) || (8 <? range_count r)) eqn:Ev; [by exists r|]. cbn [negb andb].
  apply orb_false_iff in Ev as [Ev0%Z.eqb_neq Ev8%Z.ltb_ge].
  assert (Hv : 0 <= range_count r <= 8).
  { split; [|done]. unfold range_count. apply Z.land_nonneg. right. done. }
  rewrite (u64_small (z - 1)) by lia. unfold truth. destruct (Z.eqb_spec (Z.land z (z - 1)) 0) as [Epow|]; [|by exists r].
  cbn [negb andb]. destruct (land_pred_zero z ltac:(lia) Epow) as (k & Hk & Ezk).
  assert (Hk12 : 12 <= k).
  { destruct (decide (12 <= k)); [done|]. assert (2 ^ k <= 2 ^ 11) by (apply Z.pow_le_mono_r; lia).
    change (2 ^ 11) with 2048 in *. assert (z mod 4096 = z) by (apply Z.mod_small; lia). lia. }
  assert (Hkn : k <= n).
  { destruct (decide (k <= n)); [done|]. assert (2 ^ n < 2 ^ k) by (apply Z.pow_lt_mono_r; lia). lia. }
  assert (Etest : (0x1000 <? z) && negb (p =? ALIGN_UP64 p z) = negb (p mod z =? 0)).
  { rewrite Ezk, align_test by lia. destruct (Z.ltb_spec 0x1000 (2 ^ k)); [done|].
    replace (2 ^ k) with 4096 by (assert (2 ^ 12 <= 2 ^ k) by (apply Z.pow_le_mono_r; lia);
      change (2 ^ 12) with 4096 in *; lia). by rewrite Hpm. }
  rewrite Etest. destruct (Z.eqb_spec (p mod z) 0) as [Emod|]; [|by exists r]. cbn [negb].
  rewrite (bind_run _ _ _ _ _ (scan_entries_run (range_count r) p z (2 ^ n - 1) r Hv)). unfold free_entry.
  destruct (existsb _ _); [by exists r|]. destruct (first_free r (range_count r)) as [i|] eqn:Ef; [|by exists r].
  apply first_free_range in Ef as [Hi Hinv]. unfold entry_or_minus1. destruct (Z.eqb_spec i (-1)); [lia|]. cbn [negb].
  rewrite set_entry_run by lia. eexists. split; [done|]. split; [lia|]. split; [done|]. split.
  - assert (Hpq : p = p / z * z) by (pose proof (Z.div_mod p z ltac:(lia)); lia). rewrite Hpq, Ezk.
    apply entry_written_combines; [lia|lia|apply Z.div_pos; lia|rewrite <- Ezk; lia].
  - intros msr Hb Hm. unfold entry_written. by rewrite !lookup_insert_ne by done.
Qed.

(** A processor with 36 address bits, two entries of which the first is taken. *)
Definition example_cpuid (f : Z) : cpuid_result := Cpuid (if f =? 0x80000000 then 0x80000004 else 0) 0 0 0x1000.
Definition example_msrs : msrs := <[0xfe := 0x402]> (<[0x201 := 0xf80000800]> (<[0x200 := 6]> ∅)).

Lemma mtrr_write_combine_witness :
  ∃ r', bl_mtrr_set_write_combine_cache example_cpuid 0xfd000000 0x1000000 example_msrs = Some ((), r') ∧
    match granted example_cpuid example_msrs (page_up 0xfd000000) (page_up 0x1000000) with
    | None => r' = example_msrs
    | Some i => 0 <= i < 8 ∧ entry_valid example_msrs i = false ∧
        write_combines r' i (page_up 0xfd000000) (page_up 0x1000000) 36 ∧
        ∀ msr, msr ≠ BL_MSR_MTRR_PHYSBASEN i → msr ≠ BL_MSR_MTRR_PHYSMASKN i → r' !! msr = example_msrs !! msr
    end.
Proof. apply (mtrr_write_combine example_cpuid 36); [done|lia|lia|lia|by vm_compute]. Defined.

Example granted_example :
  granted example_cpuid example_msrs (page_up 0xfd000000) (page_up 0x1000000) = Some 1.
Proof. by vm_compute. Qed.
