(* ===== verification/Relocate.v ===== *)
(** * Self-relocation of the UEFI image: core/arch/i386/uefi/relocate-ia32.c

    Adds the load address to every word that an R_386_RELATIVE entry of the
    dynamic section's table names. *)
From S2P Require Import Prelude Memory Elf.

Definition EFI_SUCCESS : Z := 0.
Definition EFI_LOAD_ERROR : Z := 0x80000001.
Definition EFI_INVALID_PARAMETER : Z := 0x80000002.
Definition MZ_DOS_MAGIC : Z := 0x5a4d.
Definition DT_NULL : Z := 0.
Definition DT_REL : Z := 17.
Definition DT_RELSZ : Z := 18.
Definition DT_RELENT : Z := 19.
Definition R_386_RELATIVE : Z := 8.
Definition sizeof_Elf32_Dyn : Z := 8.

(** The scan of the dynamic section: the table, its size, its entry size. *)
Definition scan_dynamic (base_address entry : Z) : M (Z * Z * Z) :=
  mwhile (λ '(i, (reloc, relocs_size, entry_size)),
    let dyn := u32 (entry + sizeof_Elf32_Dyn * i) in
    tag ← rd32 dyn;
    if tag =? DT_NULL then break (reloc, relocs_size, entry_size)
    else
      v ← rd32 (dyn + 4);
      continue (i + 1,
        if tag =? DT_REL then (u32 (base_address + v), relocs_size, entry_size)
        else if tag =? DT_RELSZ then (reloc, v, entry_size)
        else if tag =? DT_RELENT then (reloc, relocs_size, v)
        else (reloc, relocs_size, entry_size))) (0, (0, 0, 0)).

Definition apply_relative (base_address rel : Z) : M () :=
  info ← rd32 (rel + r_info);
  if ELF32_R_TYPE info =? R_386_RELATIVE then
    offset ← rd32 (rel + r_offset);
    let addr := u32 (base_address + offset) in
    v ← rd32 addr;
    wr32 addr (v + base_address)
  else mret ().

Definition bl_efi_relocate_self (base_address entry : Z) : M Z :=
  magic ← rd16 base_address;
  if negb (magic =? MZ_DOS_MAGIC) then mret EFI_INVALID_PARAMETER
  else
    '(reloc, relocs_size, entry_size) ← scan_dynamic base_address entry;
    if (reloc =? 0) || (entry_size =? 0) || negb (entry_size =? sizeof_Elf32_Rel) then
      mret EFI_LOAD_ERROR
    else
      mwhile (λ i,
        if i <? relocs_size / entry_size then
          apply_relative base_address (u32 (reloc + sizeof_Elf32_Rel * i));;
          continue (i + 1)
        else break ()) 0;;
      mret EFI_SUCCESS.

(** ** The dynamic section *)
Definition dyn_tag (m : gmap Z Z) (entry i : Z) : Z := ld 4 m (entry + sizeof_Elf32_Dyn * i).
Definition dyn_value (m : gmap Z Z) (entry i : Z) : Z := ld 4 m (entry + sizeof_Elf32_Dyn * i + 4).

(** [n] entries and the terminator. *)
Record dynamic_section (m : gmap Z Z) (entry n : Z) : Prop := DynamicSection {
  dyn_room : 0 <= entry ∧ 0 <= n ∧ entry + sizeof_Elf32_Dyn * (n + 1) < 4294967296;
  dyn_end : dyn_tag m entry n = DT_NULL;
  dyn_before i : 0 <= i < n → dyn_tag m entry i ≠ DT_NULL;
}.

(** The value of the last of the first [n] entries with tag [t], or 0. *)
Definition last_value (m : gmap Z Z) (entry t n : Z) : Z :=
  foldl (λ v i, if dyn_tag m entry i =? t then dyn_value m entry i else v) 0 (seqZ 0 n).
Definition table_of (m : gmap Z Z) (base_address entry n : Z) : Z :=
  foldl (λ v i, if dyn_tag m entry i =? DT_REL then u32 (base_address + dyn_value m entry i) else v) 0 (seqZ 0 n).

Lemma scan_dynamic_run base_address entry n s :
  dynamic_section (mem s) entry n →
  scan_dynamic base_address entry s =
  Some ((table_of (mem s) base_address entry n, last_value (mem s) entry DT_RELSZ n,
         last_value (mem s) entry DT_RELENT n), s).
Proof.
  intros [Hroom Hend Hbefore]. unfold sizeof_Elf32_Dyn in Hroom. apply wp_exact. unfold scan_dynamic.
  apply (wp_mwhile _ (λ '(i, x) t, t = s ∧ 0 <= i <= n ∧
    x = (table_of (mem s) base_address entry i, last_value (mem s) entry DT_RELSZ i,
         last_value (mem s) entry DT_RELENT i)) _ (λ '(i, _) _, n - i));
    [|split; [done|]; split; [lia|done]|unfold while_fuel; lia].
  intros [i [[reloc size] ent]] t (-> & Hi & [= -> -> ->]).
  rewrite (u32_small (entry + sizeof_Elf32_Dyn * i)) by (unfold sizeof_Elf32_Dyn; lia).
  wp_step. wp_step. fold (dyn_tag (mem s) entry i). destruct (Z.eqb_spec (dyn_tag (mem s) entry i) DT_NULL) as [E|E].
  - wp_step. split; [|done]. destruct (decide (i = n)) as [->|]; [done|]. by destruct (Hbefore i ltac:(lia)).
  - assert (i < n) by (destruct (decide (i = n)) as [->|]; [done|lia]).
    wp_step. wp_step. fold (dyn_value (mem s) entry i). wp_step. split; [|lia]. split; [done|]. split; [lia|].
    unfold table_of, last_value. rewrite !foldl_seqZ_snoc by lia. cbv beta.
    destruct (Z.eqb_spec (dyn_tag (mem s) entry i) DT_REL), (Z.eqb_spec (dyn_tag (mem s) entry i) DT_RELSZ),
      (Z.eqb_spec (dyn_tag (mem s) entry i) DT_RELENT); try done; unfold DT_REL, DT_RELSZ, DT_RELENT in *; lia.
Qed.

(** ** The relocations *)
Definition rel_info (m : gmap Z Z) (reloc i : Z) : Z := ld 4 m (reloc + sizeof_Elf32_Rel * i + r_info).
Definition rel_target (m : gmap Z Z) (base_address reloc i : Z) : Z :=
  u32 (base_address + ld 4 m (reloc + sizeof_Elf32_Rel * i + r_offset)).

(** The words that the first [n] entries of the table name. *)
Definition targets (m : gmap Z Z) (base_address reloc n : Z) : list Z :=
  map (rel_target m base_address reloc)
    (filter (λ i, ELF32_R_TYPE (rel_info m reloc i) = R_386_RELATIVE) (seqZ 0 n)).

(** One relocation, and all of them. *)
Definition add_base (base_address : Z) (m : gmap Z Z) (a : Z) : gmap Z Z := st 4 m a (ld 4 m a + base_address).
Definition relocated (base_address : Z) (m : gmap Z Z) (l : list Z) : gmap Z Z := foldl (add_base base_address) m l.

(** Words that do not overlap, away from the region [lo, lo + len). *)
Definition separate (l : list Z) (lo len : Z) : Prop :=
  Forall (λ a, in_space a 4 ∧ disjoint a 4 lo len) l ∧
  ∀ i j a b, l !! i = Some a → l !! j = Some b → i ≠ j → disjoint a 4 b 4.

Lemma separate_snoc l a lo len : separate (l ++ [a]) lo len → separate l lo len.
Proof.
  intros [Hl Hd]. apply Forall_app in Hl as [Hl _]. split; [done|]. intros i j x y Hi Hj Hne.
  apply (Hd i j); [by apply lookup_app_l_Some..|done].
Qed.

Lemma relocated_other base_address m l lo len b n :
  separate l lo len → lo <= b → b + Z.of_nat n <= lo + len → in_space b (Z.of_nat n) →
  ld n (relocated base_address m l) b = ld n m b.
Proof.
  intros [Hl _] Hlo Hhi Hb. unfold relocated. revert m. induction Hl as [|a l [Ha Hd] Hl IH]; intros m; [done|].
  simpl. rewrite IH. unfold add_base. apply ld_st_other; [done|done|]. unfold disjoint in *. simpl Z.of_nat. lia.
Qed.

Lemma targets_snoc m base_address reloc n :
  0 <= n → targets m base_address reloc (n + 1) =
    targets m base_address reloc n ++
    (if decide (ELF32_R_TYPE (rel_info m reloc n) = R_386_RELATIVE) then [rel_target m base_address reloc n] else []).
Proof.
  intros. unfold targets. rewrite seqZ_app, filter_app, map_app by lia. f_equal.
  change (seqZ (0 + n) 1) with [n]. destruct (decide _) as [E|E].
  - by rewrite filter_cons_True.
  - by rewrite filter_cons_False.
Qed.

Lemma targets_prefix m base_address reloc n k :
  0 <= n → 0 <= k → ∃ l, targets m base_address reloc (n + k) = targets m base_address reloc n ++ l.
Proof. intros. unfold targets. rewrite seqZ_app, filter_app, map_app by lia. eauto. Qed.

Lemma separate_app l1 l2 lo len : separate (l1 ++ l2) lo len → separate l1 lo len.
Proof.
  induction l2 as [|a l2 IH] using rev_ind; [by rewrite app_nil_r|].
  rewrite app_assoc. intros H. by apply IH, (separate_snoc _ a).
Qed.

Section Apply.
Context (base_address reloc n : Z) (s : machine).
Context (Hroom : in_space reloc (sizeof_Elf32_Rel * n)) (Hn : 0 <= n).
Context (Hsep : separate (targets (mem s) base_address reloc n) reloc (sizeof_Elf32_Rel * n)).

(** Memory after the first [i] entries. *)
Definition after (i : Z) : gmap Z Z := relocated base_address (mem s) (targets (mem s) base_address reloc i).

Lemma table_unchanged i b :
  0 <= i <= n → reloc <= b → b + 4 <= reloc + sizeof_Elf32_Rel * n → ld 4 (after i) b = ld 4 (mem s) b.
Proof using Hroom Hsep.
  intros Hi Hlo Hhi. unfold in_space in Hroom.
  apply (relocated_other _ _ _ reloc (sizeof_Elf32_Rel * n)); [|lia|simpl; lia|unfold in_space; simpl; lia].
  destruct (targets_prefix (mem s) base_address reloc i (n - i)) as [l Hl]; [lia|lia|].
  replace (i + (n - i)) with n in Hl by lia. rewrite Hl in Hsep. by apply separate_app in Hsep.
Qed.

Lemma apply_relative_run i :
  0 <= i < n →
  apply_relative base_address (u32 (reloc + sizeof_Elf32_Rel * i)) (set_mem (after i) s) =
  Some ((), set_mem (after (i + 1)) s).
Proof using Hroom Hsep Hn.
  intros Hi. pose proof Hroom as Hr. unfold in_space, sizeof_Elf32_Rel in Hr. apply wp_exact. unfold apply_relative.
  rewrite u32_small by (unfold sizeof_Elf32_Rel; lia). wp_step. wp_step. rewrite mem_set_mem.
  rewrite table_unchanged by (unfold sizeof_Elf32_Rel, r_info; lia). fold (rel_info (mem s) reloc i).
  assert (Hs : after (i + 1) = relocated base_address (mem s) (targets (mem s) base_address reloc i ++
      if decide (ELF32_R_TYPE (rel_info (mem s) reloc i) = R_386_RELATIVE) then [rel_target (mem s) base_address reloc i] else []))
    by (unfold after; by rewrite targets_snoc by lia).
  rewrite Hs. destruct (Z.eqb_spec (ELF32_R_TYPE (rel_info (mem s) reloc i)) R_386_RELATIVE) as [E|E].
  - rewrite decide_True by done. do 2 wp_step. rewrite mem_set_mem, table_unchanged by (unfold sizeof_Elf32_Rel, r_offset; lia).
    fold (rel_target (mem s) base_address reloc i). wp_steps. rewrite mem_set_mem. split; [done|].
    unfold relocated. by rewrite foldl_app, set_mem_set_mem.
  - rewrite decide_False, app_nil_r by done. by wp_step.
Qed.
End Apply.

(** The contents of a word named once, after all relocations. *)
Lemma relocated_word base_address m l lo len a :
  separate l lo len → a ∈ l → ld 4 (relocated base_address m l) a = u32 (ld 4 m a + base_address).
Proof.
  intros Hs Ha. apply list_elem_of_lookup in Ha as [k Hk]. revert k m Hs Hk. unfold relocated.
  induction l as [|b l IH]; intros k m [Hl Hd] Hk; [done|]. simpl.
  apply Forall_cons in Hl as [[Hb _] Hl].
  assert (Hd' : ∀ i j x y, l !! i = Some x → l !! j = Some y → i ≠ j → disjoint x 4 y 4).
  { intros i j x y Hi Hj Hne. apply (Hd (S i) (S j)); [done|done|lia]. }
  destruct k as [|k]; simpl in Hk.
  - injection Hk as ->. change (foldl _ ?x l) with (relocated base_address x l).
    rewrite (relocated_other _ _ _ a 4); [|split; [|exact Hd']|lia|simpl; lia|done].
    + unfold add_base. by rewrite ld_st_same.
    + apply Forall_lookup. intros j x Hx. rewrite Forall_lookup in Hl. destruct (Hl j x Hx) as [Hx1 _]. split; [done|].
      pose proof (Hd O (S j) a x eq_refl Hx ltac:(lia)) as H. unfold disjoint in *. lia.
  - rewrite (IH k); [|by split|done]. f_equal. f_equal. unfold add_base.
    pose proof (Hd (S k) O a b Hk eq_refl ltac:(lia)) as H.
    apply ld_st_other; [done| |unfold disjoint in *; simpl; lia].
    rewrite Forall_lookup in Hl. by destruct (Hl k a Hk).
Qed.

Lemma relocated_byte base_address m l lo len b :
  separate l lo len → 0 <= b < 4294967296 → (∀ a, a ∈ l → outside a 4 b) →
  ld8 (relocated base_address m l) b = ld8 m b.
Proof.
  intros [Hl _] Hb Hout. unfold relocated. revert m. induction Hl as [|a l [Ha _] Hl IH]; intros m; [done|].
  simpl. rewrite IH by (intros x Hx; apply Hout; by right). unfold add_base. apply ld8_st_other; [done|done|].
  apply Hout. by left.
Qed.

(** ** Properties *)

(** An image whose dynamic section names a relocation table of [count] entries. *)
Record relocatable (m : gmap Z Z) (base_address entry n reloc count : Z) : Prop := Relocatable {
  re_magic : ld 2 m base_address = MZ_DOS_MAGIC;
  re_dynamic : dynamic_section m entry n;
  re_table : table_of m base_address entry n = reloc;
  re_size : last_value m entry DT_RELSZ n / sizeof_Elf32_Rel = count;
  re_entry : last_value m entry DT_RELENT n = sizeof_Elf32_Rel;
  re_room : reloc ≠ 0 ∧ 0 <= count < 4294967296 ∧ in_space reloc (sizeof_Elf32_Rel * count);
  re_separate : separate (targets m base_address reloc count) reloc (sizeof_Elf32_Rel * count);
}.

(** C15: on an image whose dynamic section names a well-formed relocation table,
    [bl_efi_relocate_self] ends with success; every word that an R_386_RELATIVE
    entry names holds its old value plus the load address, and every other byte
    of memory is as it was. *)
Theorem efi_relocate_correct base_address entry n reloc count s :
  relocatable (mem s) base_address entry n reloc count →
  ∃ m', bl_efi_relocate_self base_address entry s = Some (EFI_SUCCESS, set_mem m' s) ∧
    (∀ a, a ∈ targets (mem s) base_address reloc count → ld 4 m' a = u32 (ld 4 (mem s) a + base_address)) ∧
    (∀ b, 0 <= b < 4294967296 → (∀ a, a ∈ targets (mem s) base_address reloc count → outside a 4 b) →
       ld8 m' b = ld8 (mem s) b).
Proof.
  intros [Hmagic Hdyn Htable Hsize Hentry (Hne & Hcount & Hroom) Hsep].
  exists (after base_address reloc s count). split; [|split].
  - apply wp_exact. unfold bl_efi_relocate_self. wp_steps. rewrite Hmagic. simpl negb. cbv iota.
    wp_step. apply wp_run. eexists _, _. split; [by apply scan_dynamic_run|]. cbv beta iota zeta.
    rewrite Htable, Hentry. destruct (Z.eqb_spec reloc 0); [done|]. simpl orb. cbv iota.
    change (sizeof_Elf32_Rel =? 0) with false. rewrite Hsize. simpl negb. cbv iota.
    wp_step. eapply wp_mono; [apply (wp_count _ count (λ i t, t = set_mem (after base_address reloc s i) s))|].
    + lia.
    + intros i t Hi ->. apply wp_run. eexists _, _.
      split; [by apply apply_relative_run with (n := count); [| lia | |]|done].
    + unfold after, targets. simpl. by rewrite set_mem_id.
    + intros [] t ->. by wp_step.
  - intros a Ha. by eapply relocated_word.
  - intros b Hb Hout. by eapply relocated_byte.
Qed.

(** An image at 0x1000: its dynamic section at 0x1010 names two relocations at
    0x1040, for the words at 0x1080 and 0x1090. *)
Definition example_image : gmap Z Z :=
  st_bytes ∅ 0x1000
    ([0x4d; 0x5a] ++ replicate 14 0 ++
     concat (map (le_split 4) [17; 0x40; 18; 16; 19; 8; 0; 0]) ++ replicate 16 0 ++
     concat (map (le_split 4) [0x80; 8; 0x90; 0x108])).

Lemma efi_relocate_correct_witness :
  let s := set_mem example_image machine0 in
  ∃ m', bl_efi_relocate_self 0x1000 0x1010 s = Some (EFI_SUCCESS, set_mem m' s) ∧
    (∀ a, a ∈ targets (mem s) 0x1000 0x1040 2 → ld 4 m' a = u32 (ld 4 (mem s) a + 0x1000)) ∧
    (∀ b, 0 <= b < 4294967296 → (∀ a, a ∈ targets (mem s) 0x1000 0x1040 2 → outside a 4 b) →
       ld8 m' b = ld8 (mem s) b).
Proof.
  apply (efi_relocate_correct 0x1000 0x1010 3 0x1040 2 (set_mem example_image machine0)).
  split; [by vm_compute| |by vm_compute|by vm_compute|by vm_compute| |].
  - split; [by vm_compute|by vm_compute|]. intros i Hi.
    assert (i = 0 ∨ i = 1 ∨ i = 2) as [->|[->| ->]] by lia; by vm_compute.
  - by vm_compute.
  - assert (E : targets (mem (set_mem example_image machine0)) 0x1000 0x1040 2 = [0x1080; 0x1090]) by (by vm_compute).
    rewrite E. clear E. unfold separate, in_space, disjoint, sizeof_Elf32_Rel. split.
    + rewrite !Forall_cons, Forall_nil. lia.
    + intros [|[|i]] [|[|j]] a b Ha Hb Hne; simpl in *; try done;
        injection Ha as <-; injection Hb as <-; lia.
Defined.
