(* ===== verification/Screen.v ===== *)
(** * The text screen: core/video/screen.c

    Characters go to video memory at 0xb8000, two bytes per cell; [bl_rows] and
    [bl_cols] are the position, which the functions take and return. *)
From S2P Require Import Prelude Memory Arith Strings Print Ports.

Definition bl_vidmem : Z := 0xb8000.
Definition bl_vidport : Z := 0x3d4.

Record screen := Screen { bl_rows : Z; bl_cols : Z }.

(** The position after a character, and the cell it is stored in. *)
Definition screen_cell (p : screen) : Z := u32 (bl_vidmem + (bl_cols p + 80 * bl_rows p) * 2).

Definition screen_advance (c : Z) (p : screen) : screen :=
  if c =? 10 then Screen (bl_rows p + 1) 0
  else if 80 <=? bl_cols p + 1 then Screen (bl_rows p + 1) 0
  else Screen (bl_rows p) (bl_cols p + 1).

Definition screen_putc (c : Z) (p : screen) : M screen :=
  (if c =? 10 then mret () else wr8 (screen_cell p) c);;
  mret (screen_advance c p).

Section Screen.
Context {Dev : Type} (io : ports Dev).

Definition set_cursor (p : screen) : D Dev () :=
  let pos := (bl_cols p + 80 * bl_rows p) * 2 in
  bl_outb io 14 bl_vidport;;
  bl_outb io (Z.land 0xff (Z.shiftr pos 9)) (bl_vidport + 1);;
  bl_outb io 15 bl_vidport;;
  bl_outb io (Z.land 0xff (Z.shiftr pos 1)) (bl_vidport + 1).

Definition bl_screen_puts (s : Z) (p : screen) : D Dev screen :=
  p ← on_machine (mwhile (λ '(s, p),
        c ← rds8 s;
        if truth c then p ← screen_putc c p; continue (s + 1, p) else break p) (s, p));
  set_cursor p;;
  mret p.

(** [bl_screen_puts] on a local one-character string or a literal. *)
Definition screen_chars (l : list Z) (p : screen) : D Dev screen :=
  p ← on_machine (foldr (λ c k p, p ← screen_putc c p; k p) mret l p);
  set_cursor p;;
  mret p.

Definition bl_screen_puthex (number : Z) (p : screen) : D Dev screen :=
  if number =? 0 then screen_chars [48] p
  else
    mwhile (λ '(bits, was_not_zero, p),
      if 0 <=? bits then
        let digit := Z.land (Z.shiftr number bits) 15 in
        if (digit =? 0) && negb was_not_zero then continue (bits - 4, was_not_zero, p)
        else
          p ← screen_chars [hex_digit digit] p;
          continue (bits - 4, (if digit =? 0 then was_not_zero else true), p)
      else break p) (60, false, p).

Definition bl_screen_puts_field (s inf : Z) (p : screen) : D Dev screen :=
  p ← bl_screen_puts s p;
  p ← screen_chars [32; 58; 32] p;
  p ← bl_screen_puts inf p;
  screen_chars [10] p.

Definition bl_screen_puthex_field (s number : Z) (p : screen) : D Dev screen :=
  p ← bl_screen_puts s p;
  p ← screen_chars [32; 58; 32] p;
  p ← bl_screen_puthex number p;
  screen_chars [10] p.
End Screen.
