(* ===== verification/Gui.v ===== *)
(** * The graphical shell: core/gui/gui-app.c, core/gui/bitmap.c, include/gui/gui.h

    [struct bl_gui] is a record; the two character vectors are heap blocks.
    The prompt's dimensions are never set by the program. *)
From Stdlib Require Import String.
From S2P Require Import Prelude Memory Arith Status Strings Heap Print Font Fb.
#[local] Open Scope Z_scope.

Record bl_gui_shell_line := Line { line : Z; column : Z }.
Record bl_gui_shell_content := Content {
  updated_line : bl_gui_shell_line; current_line : bl_gui_shell_line; vector : Z;
}.

Record bl_gui := Gui {
  background : Z;
  shell_x : Z; shell_y : Z; shell_w : Z; shell_h : Z;
  rows : Z; cols : Z;
  should_scroll : bool;
  active : bool;                      (* the index of the page in use *)
  page0 : bl_gui_shell_content; page1 : bl_gui_shell_content;
}.
Definition sizeof_gui : Z := 100.

Definition active_page (g : bl_gui) : bl_gui_shell_content := if active g then page1 g else page0 g.
Definition set_page (which : bool) (p : bl_gui_shell_content) (g : bl_gui) : bl_gui :=
  Gui (background g) (shell_x g) (shell_y g) (shell_w g) (shell_h g) (rows g) (cols g)
    (should_scroll g) (active g) (if which then page0 g else p) (if which then p else page1 g).
Definition set_active_page (p : bl_gui_shell_content) (g : bl_gui) : bl_gui := set_page (active g) p g.
Definition set_scroll (b : bool) (g : bl_gui) : bl_gui :=
  Gui (background g) (shell_x g) (shell_y g) (shell_w g) (shell_h g) (rows g) (cols g)
    b (active g) (page0 g) (page1 g).
Definition swap_active (g : bl_gui) : bl_gui :=
  Gui (background g) (shell_x g) (shell_y g) (shell_w g) (shell_h g) (rows g) (cols g)
    (should_scroll g) (negb (active g)) (page0 g) (page1 g).

(** ** bitmap.c *)
Definition bl_bitmap_set_background_image_default (fb : bl_fb_t) : M bl_fb_t :=
  let x := width (info fb) in
  let y := height (info fb) in
  mwhile (λ '(j, fb),
    if j <? 3 then
      fb ← mwhile (λ '(i, fb),
             if i <? 32 then
               let color := bl_fb_prepare_color (info fb)
                 (if j =? 0 then 0x7f else i * 2) (if j =? 1 then 0x7f else i)
                 (if j =? 2 then 0x7f else i) 0x7f in
               fb ← bl_fb_fill_rectangle fb color (u32 (i * (x / 32))) (u32 (j * (y / 3))) (x / 32) (y / 3);
               continue (i + 1, fb)
             else break fb) (0, fb);
      continue (j + 1, fb)
    else break fb) (0, fb).

(** The status, the new background pointer and the frame buffer. *)
Definition bl_bitmap_set_background (fb : bl_fb_t) : M (bl_status_t * Z * bl_fb_t) :=
  p ← bl_heap_alloc (u32 (u32 (width (info fb) * height (info fb)) * bytes_per_pixel (info fb)));
  if is_null p then mret (BL_STATUS_MEMORY_ALLOCATION_FAILED, p, fb)
  else
    fb ← bl_bitmap_set_background_image_default (bl_fb_set_render_ptr p fb);
    mret (BL_STATUS_SUCCESS, p, fb).

(** The rectangle of the shell, blended over the background. *)
Definition blend_area (fb : bl_fb_t) (x y w h : Z) : M () :=
  let i := info fb in
  mwhile (λ a,
    if a <? w then
      mwhile (λ b,
        if b <? h then
          old ← bl_fb_get_pixel fb (u32 (a + x)) (u32 (b + y));
          let '(color, _) := bl_alpha_blend_color i (bl_fb_prepare_color i 0xf 0xf 0xf 0xf) old 0xa0 in
          bl_fb_set_pixel fb color (u32 (a + x)) (u32 (b + y));;
          continue (b + 1)
        else break ()) 0;;
      continue (a + 1)
    else break ()) 0.

Definition shell_dimensions (i : bl_video_info) : Z * Z * Z * Z :=
  let h := u32 (height i * 9) / 10 in
  (width i / 20, height i / 20, u32 (width i * 9) / 10, u32 (h - h mod BL_FONT_CHARACTER_HEIGHT)).

Definition bl_bitmap_set_shell_dimensions (fb : bl_fb_t) : M (Z * Z * Z * Z) :=
  let '(x, y, w, h) := shell_dimensions (info fb) in
  blend_area fb x y w h;;
  mret (x, y, w, h).

Definition prompt_dimensions (i : bl_video_info) : Z * Z * Z * Z :=
  (width i / 20, u32 (height i * 16) / 20, u32 (width i * 9) / 10, height i / 10).

Definition bl_bitmap_set_prompt_dimensions (fb : bl_fb_t) : M (Z * Z * Z * Z) :=
  let '(x, y, w, h) := prompt_dimensions (info fb) in
  blend_area fb x y w h;;
  mret (x, y, w, h).

Definition vector_size (rows cols : Z) : Z := u32 (u32 (rows + 1) * cols).

Definition bl_bitmap_reset_page_vector (page : bl_gui_shell_content) (rows cols : Z) :
    M bl_gui_shell_content :=
  if is_null (vector page) then mret page
  else
    bl_memset (vector page) 0 (vector_size rows cols);;
    mret (Content (Line 0 0) (Line 0 0) (vector page)).

Definition bl_bitmap_init_page_vector (page : bl_gui_shell_content) (rows cols : Z) :
    M (bl_status_t * bl_gui_shell_content) :=
  p ← bl_heap_alloc (vector_size rows cols);
  let page := Content (updated_line page) (current_line page) p in
  if is_null p then mret (BL_STATUS_MEMORY_ALLOCATION_FAILED, page)
  else
    page ← bl_bitmap_reset_page_vector page rows cols;
    mret (BL_STATUS_SUCCESS, page).

(** ** gui-app.c *)
Definition bl_gui_app_shell_pos (g : bl_gui) (l : bl_gui_shell_line) : Z :=
  u32 (line l * cols g + column l).

Definition bl_gui_app_swap_pages (g : bl_gui) : M bl_gui :=
  let g := swap_active g in
  page ← bl_bitmap_reset_page_vector (active_page g) (rows g) (cols g);
  mret (set_active_page page g).

(** Where the next character goes: the position after a character is stored,
    and after a line is ended. *)
Definition next_column (p : bl_gui_shell_content) : bl_gui_shell_content :=
  Content (updated_line p) (Line (line (current_line p)) (u32 (column (current_line p) + 1))) (vector p).
Definition next_line (p : bl_gui_shell_content) : bl_gui_shell_content :=
  Content (updated_line p) (Line (u32 (line (current_line p) + 1)) 0) (vector p).

(** One character [c]: it is stored when it is not a newline and the line has
    room; otherwise the line is ended, and the character is dropped. *)
Definition gui_put (g : bl_gui) (c : Z) : M bl_gui :=
  let page := active_page g in
  if (u32 (column (current_line page) + 1) <? cols g) && negb (c =? 10) then
    wr8 (u32 (vector page + bl_gui_app_shell_pos g (current_line page))) c;;
    mret (set_active_page (next_column page) g)
  else
    let page := next_line page in
    let g := set_active_page page g in
    if line (current_line page) =? rows g then bl_gui_app_swap_pages (set_scroll true g)
    else mret g.

Definition bl_gui_app_update_pages (g : bl_gui) (s : Z) : M bl_gui :=
  if is_null s || is_null (vector (page0 g)) || is_null (vector (page1 g)) then mret g
  else
    mwhile (λ '(i, g),
      c ← rds8 (s + i);
      if truth c then g ← gui_put g c; continue (i + 1, g) else break g) (0, g).

(** The glyph of the cell at [pos]. *)
Definition blit_cell (g : bl_gui) (fb : bl_fb_t) (c pos : Z) : M bl_fb_t :=
  q ← udiv pos (cols g);
  r ← umod pos (cols g);
  bl_fb_blit_glyph fb c (background g)
    (u32 (shell_x g + r * BL_FONT_CHARACTER_WIDTH)) (u32 (shell_y g + q * BL_FONT_CHARACTER_HEIGHT)).

Definition bl_gui_app_clean_shell_screen (g : bl_gui) (fb : bl_fb_t) : M bl_fb_t :=
  let end_pos := bl_gui_app_shell_pos g (Line (u32 (rows g - 1)) (u32 (cols g - 1))) in
  mwhile (λ '(pos, fb),
    if pos <? end_pos then
      fb ← blit_cell g fb 32 pos;
      continue (u32 (pos + 1), fb)
    else break fb) (0, fb).

Definition bl_gui_app_flush_page_buffers (g : bl_gui) (fb : bl_fb_t) : M (bl_gui * bl_fb_t) :=
  if is_null (vector (page0 g)) || is_null (vector (page1 g)) then mret (g, fb)
  else
    '(g, fb) ←
      (if should_scroll g then
         let g := set_scroll false g in
         fb ← bl_gui_app_clean_shell_screen g fb;
         mret (g, fb)
       else mret (g, fb));
    let page := active_page g in
    let end_pos := bl_gui_app_shell_pos g (current_line page) in
    fb ← mwhile (λ '(pos, fb),
           if pos <? end_pos then
             c ← rds8 (u32 (vector page + pos));
             fb ← blit_cell g fb c pos;
             let pos := u32 (pos + 1) in
             c ← rds8 (u32 (vector page + pos));
             if truth c then continue (pos, fb)
             else
               r ← umod pos (cols g);
               continue (u32 (pos + (cols g - r)), fb)
           else break fb) (bl_gui_app_shell_pos g (updated_line page), fb);
    mret (set_active_page (Content (current_line page) (current_line page) (vector page)) g, fb).

Definition bl_gui_app_print_str (gui_prepared : bool) (g : bl_gui) (fb : bl_fb_t) (s : Z) :
    M (bl_gui * bl_fb_t) :=
  g ← bl_gui_app_update_pages g s;
  '(g, fb) ← bl_gui_app_flush_page_buffers g fb;
  if gui_prepared then fb ← bl_fb_update_from_double_buffer fb; mret (g, fb)
  else mret (g, fb).

(** [newline], [space] and [prologue] are the addresses of the literals; the
    prologue, with its terminator, has 25 bytes. *)
Definition bl_gui_app_print_prologue (newline space prologue : Z) (g : bl_gui) (fb : bl_fb_t) :
    M (bl_gui * bl_fb_t) :=
  '(g, fb) ← bl_gui_app_print_str false g fb newline;
  '(g, fb) ← mwhile (λ '(i, g, fb),
      if i <? u32 (cols g - 25) / 2 then
        '(g, fb) ← bl_gui_app_print_str false g fb space;
        continue (i + 1, g, fb)
      else break (g, fb)) (0, g, fb);
  bl_gui_app_print_str false g fb prologue.

(** What [bl_gui_app] points to when [bl_gui_app_setup] returns early: the fields
    that are not set yet are indeterminate, here 0. *)
Definition unfinished_gui (background : Z) : bl_gui :=
  let blank := Content (Line 0 0) (Line 0 0) NULL in
  Gui background 0 0 0 0 0 0 false false blank blank.

(** [bl_gui_app_setup]: the new [bl_gui_app] and the frame buffer. *)
Definition bl_gui_app_setup (newline space prologue : Z) (bl_gui_app : option bl_gui) (fb : bl_fb_t) :
    M (option bl_gui * bl_fb_t) :=
  match bl_gui_app with
  | Some g => mret (Some g, fb)
  | None =>
      app ← bl_heap_alloc sizeof_gui;
      if is_null app then mret (None, fb)
      else
        '(status, bg, fb) ← bl_bitmap_set_background fb;
        if failed status then mret (Some (unfinished_gui bg), fb)
        else
          '(x, y, w, h) ← bl_bitmap_set_shell_dimensions fb;
          let nrows := h / BL_FONT_CHARACTER_HEIGHT in
          let ncols := w / BL_FONT_CHARACTER_WIDTH in
          let blank := Content (Line 0 0) (Line 0 0) NULL in
          '(status, p0) ← bl_bitmap_init_page_vector blank nrows ncols;
          if failed status then mret (Some (Gui bg x y w h nrows ncols false false p0 blank), fb)
          else
            '(status, p1) ← bl_bitmap_init_page_vector blank nrows ncols;
            if failed status then mret (Some (Gui bg x y w h nrows ncols false false p0 p1), fb)
            else
              let g := Gui bg x y w h nrows ncols false false p0 p1 in
              bl_print_set_output_callback true;;
              fb ← bl_fb_switch_from_renderer fb;
              '(g, fb) ← bl_gui_app_print_prologue newline space prologue g fb;
              fb ← bl_fb_update_from_double_buffer fb;
              mret (Some g, fb)
  end.
