(* ===== verification/GuiProofs.v ===== *)
(** * Proofs about the graphical shell: the cursor and the character vectors. *)
From S2P Require Import Prelude Memory Arith Status Strings StringsProofs Heap Print Font Fb Gui.

(** ** The invariant of the pages *)
Definition page_size (g : bl_gui) : Z := (rows g + 1) * cols g.

Definition page_ok (g : bl_gui) (p : bl_gui_shell_content) : Prop :=
  0 < vector p ∧ in_space (vector p) (page_size g) ∧
  0 <= line (current_line p) < rows g ∧ 0 <= column (current_line p) < cols g.

(** Both vectors have room for a page, and the cursor of the page in use is on
    it; the other page's cursor is reset before it is used. *)
Definition gui_ok (g : bl_gui) : Prop :=
  0 < rows g ∧ 0 < cols g ∧ page_size g < 4294967296 ∧ page_ok g (active_page g) ∧
  0 < vector (active_page (swap_active g)) ∧ in_space (vector (active_page (swap_active g))) (page_size g).

(** The bytes of the two vectors. *)
Definition in_vectors (g : bl_gui) (b : Z) : Prop :=
  ¬ outside (vector (active_page g)) (page_size g) b ∨
  ¬ outside (vector (active_page (swap_active g))) (page_size g) b.

Lemma active_set p g : active_page (set_active_page p g) = p.
Proof. unfold active_page, set_active_page, set_page. simpl. by destruct (active g). Qed.
Lemma other_set p g : active_page (swap_active (set_active_page p g)) = active_page (swap_active g).
Proof. unfold active_page, set_active_page, set_page, swap_active. simpl. by destruct (active g). Qed.
Lemma set_geometry p g : rows (set_active_page p g) = rows g ∧ cols (set_active_page p g) = cols g.
Proof. done. Qed.
Lemma swap_twice g : active_page (swap_active (swap_active g)) = active_page g.
Proof. unfold active_page, swap_active. simpl. by destruct (active g). Qed.

Lemma vector_size_exact g :
  0 < rows g → 0 < cols g → page_size g < 4294967296 → vector_size (rows g) (cols g) = page_size g.
Proof.
  intros. unfold vector_size, page_size in *. assert (rows g + 1 <= (rows g + 1) * cols g) by nia.
  rewrite (u32_small (rows g + 1)) by lia. apply u32_small. nia.
Qed.

(** Where a character goes, inside the vector. *)
Lemma position_bound g p :
  page_ok g p → page_size g < 4294967296 →
  bl_gui_app_shell_pos g (current_line p) = line (current_line p) * cols g + column (current_line p) ∧
  0 <= bl_gui_app_shell_pos g (current_line p) < rows g * cols g.
Proof.
  intros (Hv & Hs & Hl & Hc) Hsz. unfold bl_gui_app_shell_pos, page_size in *.
  rewrite u32_small; nia.
Qed.

(** ** The three outcomes of a character *)
Lemma gui_put_stored g c s :
  gui_ok g → c ≠ 10 → column (current_line (active_page g)) + 1 < cols g →
  gui_put g c s =
  Some (set_active_page (next_column (active_page g)) g,
        set_mem (st8 (mem s) (vector (active_page g) + bl_gui_app_shell_pos g (current_line (active_page g))) c) s).
Proof.
  intros (Hr & Hc & Hsz & Hp & _) Hn Hcol. pose proof Hp as (Hv & Hs & Hl & Hcc). unfold gui_put.
  rewrite u32_small by (unfold page_size in *; nia). destruct (Z.ltb_spec (column (current_line (active_page g)) + 1) (cols g)); [|lia].
  destruct (Z.eqb_spec c 10); [done|]. destruct (position_bound g _ Hp Hsz) as [_ Hpos].
  unfold in_space, page_size in *. by rewrite u32_small by nia.
Qed.

Lemma gui_put_next_line g c s :
  gui_ok g → (c = 10 ∨ column (current_line (active_page g)) + 1 = cols g) →
  line (current_line (active_page g)) + 1 < rows g →
  gui_put g c s = Some (set_active_page (next_line (active_page g)) g, s).
Proof.
  intros (Hr & Hc & Hsz & Hp & _) Hn Hline. pose proof Hp as (Hv & Hs & Hl & Hcc). unfold gui_put.
  rewrite (u32_small (column _ + 1)) by (unfold page_size in *; nia).
  assert (E : (column (current_line (active_page g)) + 1 <? cols g) && negb (c =? 10) = false).
  { destruct Hn as [->| ->]; [by rewrite andb_false_r|by rewrite Z.ltb_irrefl]. }
  rewrite E. destruct (set_geometry (next_line (active_page g)) g) as [-> _]. change (line (current_line (next_line (active_page g)))) with (u32 (line (current_line (active_page g)) + 1)).
  rewrite u32_small by (unfold page_size in *; nia).
  destruct (Z.eqb_spec (line (current_line (active_page g)) + 1) (rows g)); [lia|]. done.
Qed.

Lemma gui_put_scroll g c s :
  gui_ok g → (c = 10 ∨ column (current_line (active_page g)) + 1 = cols g) →
  line (current_line (active_page g)) + 1 = rows g →
  let other := active_page (swap_active g) in
  ∃ g', gui_put g c s =
    Some (g', set_mem (st_bytes (mem s) (vector other) (replicate (Z.to_nat (page_size g - 1)) 0)) s) ∧
    should_scroll g' = true ∧ active g' = negb (active g) ∧ rows g' = rows g ∧ cols g' = cols g ∧
    active_page g' = Content (Line 0 0) (Line 0 0) (vector other) ∧
    vector (active_page (swap_active g')) = vector (active_page g).
Proof.
  intros (Hr & Hc & Hsz & Hp & Ho & Hos) Hn Hline other. pose proof Hp as (Hv & Hs & Hl & Hcc). unfold gui_put.
  rewrite (u32_small (column _ + 1)) by (unfold page_size in *; nia).
  assert (E : (column (current_line (active_page g)) + 1 <? cols g) && negb (c =? 10) = false).
  { destruct Hn as [->| ->]; [by rewrite andb_false_r|by rewrite Z.ltb_irrefl]. }
  rewrite E. destruct (set_geometry (next_line (active_page g)) g) as [-> _]. change (line (current_line (next_line (active_page g)))) with (u32 (line (current_line (active_page g)) + 1)).
  rewrite u32_small by (unfold page_size in *; nia). rewrite Hline, Z.eqb_refl. unfold bl_gui_app_swap_pages.
  set (g1 := set_active_page (next_line (active_page g)) g).
  assert (Eo : active_page (swap_active (set_scroll true g1)) = other).
  { unfold other, g1, set_scroll, swap_active, set_active_page, set_page, active_page. simpl. by destruct (active g). }
  assert (Hreset : bl_bitmap_reset_page_vector other (rows g) (cols g) s =
    Some (Content (Line 0 0) (Line 0 0) (vector other),
      set_mem (st_bytes (mem s) (vector other) (replicate (Z.to_nat (page_size g - 1)) 0)) s)).
  { unfold bl_bitmap_reset_page_vector, is_null. destruct (Z.eqb_spec (vector other) 0); [unfold other in *; lia|].
    rewrite vector_size_exact by done.
    rewrite (bind_run _ _ _ _ _ (bl_memset_run s (vector other) 0 (page_size g) ltac:(lia) Hos ltac:(unfold page_size in *; nia))).
    done. }
  change (rows (swap_active (set_scroll true g1))) with (rows g). change (cols (swap_active (set_scroll true g1))) with (cols g).
  rewrite Eo, (bind_run _ _ _ _ _ Hreset). eexists. split; [done|]. split; [done|]. split; [done|]. split; [done|].
  split; [done|]. split; [apply active_set|]. rewrite other_set, swap_twice.
  unfold g1, set_scroll, set_active_page, set_page, active_page. simpl. by destruct (active g).
Qed.

Lemma gui_ok_advance g p :
  gui_ok g → vector p = vector (active_page g) → 0 <= line (current_line p) < rows g →
  0 <= column (current_line p) < cols g → gui_ok (set_active_page p g).
Proof.
  intros (Hr & Hc & Hsz & (Hv & Hs & _) & Ho & Hos) Ev Hl Hcol. unfold gui_ok, page_ok.
  rewrite active_set, other_set, Ev. done.
Qed.

(** A store into a vector leaves the bytes of neither vector alone. *)
Lemma gui_frame_store g c s b :
  gui_ok g → 0 <= b < 4294967296 → ¬ in_vectors g b →
  ld8 (st8 (mem s) (vector (active_page g) + bl_gui_app_shell_pos g (current_line (active_page g))) c) b = ld8 (mem s) b.
Proof.
  intros (Hr & Hc & Hsz & Hp & _) Hb Hno. destruct (position_bound g _ Hp Hsz) as [_ Hpos].
  destruct Hp as (Hv & Hs & _). unfold in_space, in_vectors, outside, page_size in *.
  apply ld8_st8_ne; [nia|done|]. intros E. apply Hno. left. nia.
Qed.

Lemma gui_frame_clear g s b :
  gui_ok g → 0 <= b < 4294967296 → ¬ in_vectors g b →
  ld8 (st_bytes (mem s) (vector (active_page (swap_active g))) (replicate (Z.to_nat (page_size g - 1)) 0)) b = ld8 (mem s) b.
Proof.
  intros (Hr & Hc & Hsz & Hp & Ho & Hos) Hb Hno. assert (0 < page_size g) by (unfold page_size; nia).
  unfold in_space, in_vectors, outside in *.
  apply ld8_st_bytes_out; unfold in_space, outside; rewrite ?length_replicate; lia.
Qed.

(** ** Properties *)

(** C35: a character given to the shell page ends, whatever it is; it keeps the
    cursor on the page and the page's geometry, and stores nothing outside the
    two character vectors. *)
Theorem gui_put_keeps_bounds g c s :
  gui_ok g →
  ∃ g' s', gui_put g c s = Some (g', s') ∧ gui_ok g' ∧ rows g' = rows g ∧ cols g' = cols g ∧
    ∀ b, 0 <= b < 4294967296 → ¬ in_vectors g b → ld8 (mem s') b = ld8 (mem s) b.
Proof.
  intros Hg. pose proof Hg as (Hr & Hc & Hsz & (Hv & Hs & Hl & Hcol) & Ho & Hos).
  destruct (decide (c ≠ 10 ∧ column (current_line (active_page g)) + 1 < cols g)) as [[Hn Hlt]|Hend].
  { rewrite gui_put_stored by done. eexists _, _. split; [done|]. split; [|split; [done|split; [done|]]].
    - apply gui_ok_advance; [done|done|done|]. cbn [next_column current_line column]. rewrite u32_small; unfold page_size in *; nia.
    - intros b Hb Hno. by apply gui_frame_store. }
  assert (Hn : c = 10 ∨ column (current_line (active_page g)) + 1 = cols g) by lia.
  destruct (decide (line (current_line (active_page g)) + 1 < rows g)) as [Hlt|Hge].
  { rewrite gui_put_next_line by done. eexists _, _. split; [done|]. split; [|done].
    apply gui_ok_advance; [done|done| |simpl; lia]. cbn [next_line current_line line]. rewrite u32_small; unfold page_size in *; nia. }
  destruct (gui_put_scroll g c s Hg Hn ltac:(lia)) as (g' & Hrun & _ & _ & Er & Ec & Ea & Eo).
  rewrite Hrun. eexists _, _. split; [done|]. split; [|split; [done|split; [done|]]].
  - unfold gui_ok, page_ok, page_size. rewrite Ea, Eo, Er, Ec. simpl. split_and!; try done; lia.
  - intros b Hb Hno. by apply gui_frame_clear.
Qed.

(** An 80 by 25 shell. *)
Definition example_gui : bl_gui :=
  Gui 0 0 0 640 400 25 80 false false (Content (Line 0 0) (Line 24 79) 0x10000) (Content (Line 0 0) (Line 0 0) 0x20000).

Lemma example_gui_ok : gui_ok example_gui.
Proof. unfold gui_ok, page_ok, in_space, page_size. simpl. lia. Qed.

Lemma gui_put_keeps_bounds_witness :
  ∃ g' s', gui_put example_gui 65 machine0 = Some (g', s') ∧ gui_ok g' ∧ rows g' = rows example_gui ∧
    cols g' = cols example_gui ∧
    ∀ b, 0 <= b < 4294967296 → ¬ in_vectors example_gui b → ld8 (mem s') b = ld8 (mem machine0) b.
Proof. apply (gui_put_keeps_bounds example_gui 65 machine0 example_gui_ok). Defined.

(** a character that meets the last column is not shown anywhere: at a full
    line, printing [c] and then [d] does what printing a newline and then [d]
    does. *)
Theorem gui_drops_wrapped_character g c d s :
  gui_ok g → column (current_line (active_page g)) + 1 = cols g → line (current_line (active_page g)) + 1 < rows g →
  (g ← gui_put g c; gui_put g d) s = (g ← gui_put g 10; gui_put g d) s.
Proof.
  intros Hg Hcol Hline.
  rewrite (bind_run _ _ _ _ _ (gui_put_next_line g c s Hg (or_intror Hcol) Hline)).
  by rewrite (bind_run _ _ _ _ _ (gui_put_next_line g 10 s Hg (or_introl eq_refl) Hline)).
Qed.

Definition example_gui_wrap : bl_gui :=
  Gui 0 0 0 640 400 25 80 false false (Content (Line 0 0) (Line 3 79) 0x10000) (Content (Line 0 0) (Line 0 0) 0x20000).

Lemma gui_drops_wrapped_character_witness :
  (g ← gui_put example_gui_wrap 65; gui_put g 66) machine0 = (g ← gui_put example_gui_wrap 10; gui_put g 66) machine0.
Proof.
  apply (gui_drops_wrapped_character example_gui_wrap 65 66 machine0); [|done|done].
  unfold gui_ok, page_ok, in_space, page_size. simpl. lia.
Defined.
