(* ===== verification/Shell.v ===== *)
(** * The shell: core/shell/command.c, core/shell/shell.c and the commands

    The argument vectors are static memory; the commands and what they print
    are those of the program.  What [bl_pci_dump_devices] and [bl_usb_dump]
    print is a parameter: they work on devices. *)
From Stdlib Require Import String.
From S2P Require Import Prelude Memory Arith Status Strings Heap Storage Tokens Print Fs.
#[local] Open Scope Z_scope.

Definition BL_COMMAND_TOTAL : Z := 6.
Definition BL_ARGUMENTS : Z := 4.
Definition BL_SHELL_BUFFER_LENGTH : Z := 32.

(** [bl_arguments], [bl_argv], the delimiter and the static [bl_last_result]. *)
Record command_env := CommandEnv {
  bl_arguments : Z; bl_argv : Z; bl_command_delimiter : Z; bl_last_result : Z;
  dump_pci : M (); dump_usb : M ();
}.

Definition argument (e : command_env) (i : Z) : Z :=
  u32 (bl_arguments e + i * (BL_SHELL_BUFFER_LENGTH + 1)).

(** ** The commands *)
Definition bl_command_help (e : command_env) (argc argv : Z) : M Z := mret 0.
Definition bl_command_true (e : command_env) (argc argv : Z) : M Z := mret 0.
Definition bl_command_false (e : command_env) (argc argv : Z) : M Z := mret 1.
Definition bl_command_last_result (e : command_env) (argc argv : Z) : M Z :=
  r ← rd32 (bl_last_result e); bl_print_hex r;; mret 0.
Definition bl_command_pci_list (e : command_env) (argc argv : Z) : M Z := dump_pci e;; mret 0.
Definition bl_command_usb_list (e : command_env) (argc argv : Z) : M Z := dump_usb e;; mret 0.

(** [struct bl_command_info]: the address of the name, and the function. *)
Record bl_command_info := CommandInfo { command : Z; execute : command_env → Z → Z → M Z }.

Definition bl_commands (names : Z → Z) : list bl_command_info :=
  [CommandInfo (names 0) bl_command_help; CommandInfo (names 1) bl_command_true;
   CommandInfo (names 2) bl_command_false; CommandInfo (names 3) bl_command_last_result;
   CommandInfo (names 4) bl_command_pci_list; CommandInfo (names 5) bl_command_usb_list].

(** ** command.c *)
Definition bl_command_setup (e : command_env) : M () :=
  bl_memset (bl_arguments e) 0 (BL_ARGUMENTS * (BL_SHELL_BUFFER_LENGTH + 1));;
  mwhile (λ i,
    if i <? BL_ARGUMENTS then wr32 (bl_argv e + 4 * i) (argument e i);; continue (i + 1)
    else break ()) 0.

(** The tokens of the command line into the argument vectors: [argc]. *)
Definition split_arguments (e : command_env) (part : Z) : M Z :=
  mwhile (λ '(argc, part),
    if is_null part then break argc
    else if argc =? BL_ARGUMENTS then break argc
    else
      bl_strncpy (argument e argc) part BL_SHELL_BUFFER_LENGTH;;
      part ← bl_strtok NULL (bl_command_delimiter e);
      continue (argc + 1, part)) (0, part).

(** The first command of the table with that name is run. *)
Fixpoint find_command (e : command_env) (l : list bl_command_info) (argc : Z) : M bool :=
  match l with
  | [] => mret false
  | c :: next =>
      argv0 ← rd32 (bl_argv e);
      d ← bl_strncmp argv0 (command c) BL_SHELL_BUFFER_LENGTH;
      if negb (truth d) then
        emit 10;;
        r ← execute c e argc (bl_argv e);
        wr32 (bl_last_result e) r;;
        mret true
      else find_command e next argc
  end.

Definition bl_command_run (e : command_env) (commands : list bl_command_info) (line : Z) : M () :=
  len ← bl_strlen line;
  if len =? 0 then mret ()
  else
    copy_command ← bl_strndup line len;
    if is_null copy_command then mret ()
    else
      part ← bl_strtok copy_command (bl_command_delimiter e);
      argc ← split_arguments e part;
      found ← find_command e commands argc;
      if found : bool then mret () else bl_heap_free copy_command len.

(** ** shell.c: the disk, the partition and the file system in use *)
Record shell_state := Shell {
  operated_fs_handle : Z; disk_index : Z; operated_disk : option bl_storage_device;
  partition_index : Z; operated_partition : Z;
}.

Definition print_index (i : Z) : M () :=
  emit 91;;
  (if negb (i =? -1) then bl_print_hex (u32 i) else mret ());;
  emit 93.

Definition bl_shell_print_prompt (st : shell_state) : M () :=
  emit 10;;
  print_index (disk_index st);;
  print_index (partition_index st);;
  print_literal "> "%string.

Definition bl_shell_set_disk (devices : list bl_storage_device) (index : Z) (st : shell_state) :
    shell_state :=
  if disk_index st =? index then st
  else
    match bl_storage_device_get index devices with
    | None => st
    | Some disk => Shell (operated_fs_handle st) index (Some disk) (partition_index st) NULL
    end.

(** [disk_ptr] is the address under which file systems know the disk. *)
Definition bl_shell_set_partition (bl_fs_list : list bl_fs) (disk_ptr : bl_storage_device → Z)
    (index : Z) (st : shell_state) : M shell_state :=
  let none := Shell (operated_fs_handle st) (disk_index st) (operated_disk st)
                (partition_index st) NULL in
  match operated_disk st with
  | None => mret none
  | Some disk =>
      if partition_index st =? index then mret st
      else
        partition ← bl_storage_partition_get disk index;
        if is_null partition then mret none
        else
          handle ← bl_fs_try_mount bl_fs_list (disk_ptr disk) partition;
          let st := Shell handle (disk_index st) (operated_disk st) (partition_index st)
                      (operated_partition st) in
          if is_null handle then mret st
          else mret (Shell handle (disk_index st) (operated_disk st) index partition)
  end.

(** What [bl_storage_dump_devices] prints for one disk. *)
Definition dump_disk (d : bl_storage_device) : M () :=
  print_literal "Disk: "%string;;
  print_literal "Sectors: "%string;;
  bl_print_hex64 (sector_count (disk_inf d));;
  emit 32;;
  print_literal "Sector size: "%string;;
  bl_print_hex (sector_size (disk_inf d));;
  emit 32;;
  print_literal "Total size (bytes): "%string;;
  bl_print_hex64 (u64 (sector_size (disk_inf d) * sector_count (disk_inf d)));;
  emit 10.

Definition bl_storage_dump_devices (devices : list bl_storage_device) : M () :=
  foldr (λ d k, dump_disk d;; k) (mret ()) devices.

(** storage-list.c; the table of commands names it only under [#if 0]. *)
Definition shell_storage_list (devices : list bl_storage_device) (argc argv : Z) : M Z :=
  bl_storage_dump_devices devices;; mret 0.

Definition bl_shell_entry_point (e : command_env) (devices : list bl_storage_device)
    (bl_fs_list : list bl_fs) (disk_ptr : bl_storage_device → Z) (pfile home : Z) (st : shell_state) :
    M shell_state :=
  bl_command_setup e;;
  bl_storage_dump_devices devices;;
  let st := bl_shell_set_disk devices 1 st in
  st ← bl_shell_set_partition bl_fs_list disk_ptr 1 st;
  bl_file_open pfile bl_fs_list (operated_fs_handle st) home;;
  bl_shell_print_prompt st;;
  mret st.
