(* ===== verification/ShellProofs.v ===== *)
(** * Proofs about the shell: what a command line runs *)
From Stdlib Require Import String.
From S2P Require Import Prelude Memory Regions Arith Status Strings StringsProofs Heap HeapProofs HeapClient.
From S2P Require Import Storage Tokens TokensProofs Print Fs Shell.
#[local] Open Scope Z_scope.
#[local] Open Scope list_scope.

(** ** The argument vectors *)
Section Arguments.
Context (e : command_env) (dl : list Z) (P L : Z).
Definition vectors_size : Z := BL_ARGUMENTS * (BL_SHELL_BUFFER_LENGTH + 1).
Context (Hvec : good_region (bl_arguments e, vectors_size)) (Hline : 0 < P ∧ 0 <= L).
Context (Hdis : disjoint P (L + 2) (bl_arguments e) vectors_size)
  (Hdelim1 : disjoint (bl_command_delimiter e) (Z.of_nat (length dl) + 1) P (L + 2))
  (Hdelim2 : disjoint (bl_command_delimiter e) (Z.of_nat (length dl) + 1) (bl_arguments e) vectors_size).

(** The vectors hold the words, cut after 32 characters. *)
Definition args_hold (ws : list (list Z)) (m : gmap Z Z) : Prop :=
  ∀ (i : nat) w, ws !! i = Some w → cstr m (argument e (Z.of_nat i)) (take 32 w).
(** The bytes behind 32 characters, which nothing writes. *)
Definition ends_clear (m : gmap Z Z) : Prop := ∀ i, 0 <= i < 4 → ld8 m (argument e i + 32) = 0.

Lemma argument_at i : 0 <= i < 4 → argument e i = bl_arguments e + 33 * i ∧ 0 < argument e i ∧ argument e i + 33 <= bl_arguments e + vectors_size.
Proof.
  intros Hi. destruct Hvec as [H0 H1]. unfold argument, vectors_size, BL_ARGUMENTS, BL_SHELL_BUFFER_LENGTH, in_space in *.
  cbn [fst snd] in *. rewrite u32_small by lia. lia.
Qed.

(** A word copied to a vector. *)
Lemma vector_cstr m a w :
  0 < a → a + 33 <= 4294967296 → ld8 m (a + 32) = 0 → Forall (λ c, 0 < c < 256) w →
  cstr (st_bytes m a (take 32 (w ++ [0]))) a (take 32 w).
Proof.
  intros Ha Hend Hz Hw. destruct (decide (length w < 32)%nat).
  - rewrite (take_ge w), (take_ge (w ++ [0])) by (rewrite ?length_app; cbn; lia). apply cstr_st_bytes; [done|lia|done].
  - rewrite (take_app_le w) by lia. assert (Hl : length (take 32 w) = 32%nat) by (rewrite length_take; lia).
    split_and!; [done|lia|by apply Forall_take| |].
    + intros i c Hi. pose proof (lookup_lt_Some _ _ _ Hi). rewrite (ld8_st_bytes_in _ _ _ _ c); [|unfold in_space; lia|done].
      apply u8_small. pose proof (char_lookup _ _ _ (Forall_take _ _ _ Hw) Hi). lia.
    + rewrite Hl. rewrite ld8_st_bytes_out; [done|unfold in_space; lia..|unfold outside; lia].
Qed.

(** Memory outside of the line and of the vectors. *)
Definition shell_areas : list (Z * Z) := [(P, L + 2); (bl_arguments e, vectors_size)].

Lemma cstr_keeps m m' p l :
  keeps shell_areas m m' → disjoint p (Z.of_nat (length l) + 1) P (L + 2) →
  disjoint p (Z.of_nat (length l) + 1) (bl_arguments e) vectors_size → cstr m p l → cstr m' p l.
Proof.
  intros Hk H1 H2 Hs. pose proof Hs as (Hp & Hend & _). revert Hs. apply cstr_ext. intros i Hi. symmetry.
  apply Hk; [lia|]. unfold shell_areas, disjoint, outside, vectors_size, BL_ARGUMENTS, BL_SHELL_BUFFER_LENGTH in *.
  repeat (apply Forall_cons; split; [cbn; lia|]). constructor.
Qed.

(** One word into the next free vector. *)
Lemma fill_vector_run done_ w t s :
  (length done_ < 4)%nat → args_hold done_ (mem s) → ends_clear (mem s) →
  cstr (mem s) t w → P <= t → t + Z.of_nat (length w) <= P + L →
  ∃ m, bl_strncpy (argument e (Z.of_nat (length done_))) t BL_SHELL_BUFFER_LENGTH s =
      Some (argument e (Z.of_nat (length done_)), set_mem m s) ∧
    keeps [(bl_arguments e, vectors_size)] (mem s) m ∧ args_hold (done_ ++ [w]) m ∧ ends_clear m.
Proof.
  intros Hlen Hargs Hclear Ht HtP HtL.
  destruct (argument_at (Z.of_nat (length done_)) ltac:(lia)) as (Ha & Ha0 & Hend).
  destruct Hvec as [_ Hsp]. cbn [fst snd] in Hsp. set (a := argument e (Z.of_nat (length done_))) in *.
  unfold vectors_size, BL_ARGUMENTS, BL_SHELL_BUFFER_LENGTH, disjoint, in_space in *.
  set (k := take 32 (w ++ [0])).
  assert (Hk : (length k <= 32)%nat) by (unfold k; rewrite length_take; lia).
  exists (st_bytes (mem s) a k). split; [|split; [|split]].
  - unfold k. change 32%nat with (Z.to_nat 32). apply bl_strncpy_run; [done|lia|lia|unfold in_space; lia|unfold disjoint; lia].
  - intros b Hb [Ho _]%Forall_cons. unfold outside in Ho. cbn [fst snd] in Ho.
    apply ld8_st_bytes_out; [unfold in_space; lia|done|unfold outside; lia].
  - intros i w' Hi. apply lookup_app_Some in Hi as [Hi|[Hi Hw]].
    + pose proof (lookup_lt_Some _ _ _ Hi). destruct (argument_at (Z.of_nat i) ltac:(lia)) as (Hi1 & Hi2 & Hi3).
      generalize (Hargs i w' Hi). apply cstr_ext. intros x Hx. symmetry.
      assert (Hw' : (length (take 32 w') <= 32)%nat) by (rewrite length_take; lia).
      apply ld8_st_bytes_out; [unfold in_space; lia|lia|unfold outside; lia].
    + apply list_lookup_singleton_Some in Hw as [Hi0 <-]. assert (i = length done_) as -> by lia.
      apply vector_cstr; [done|lia|apply Hclear; lia|apply Ht].
  - intros i Hi. destruct (argument_at i Hi) as (Hi1 & Hi2 & Hi3).
    rewrite ld8_st_bytes_out; [by apply Hclear|unfold in_space; lia|lia|unfold outside; lia].
Qed.

(** The state of the loop: the words [done_] are in the vectors, the others are
    still in the line. *)
Definition splitting (s0 : machine) (ws : list (list Z)) (x : Z * Z) (s : machine) : Prop :=
  ∃ done_ todo q rest, ws = done_ ++ todo ∧ x.1 = Z.of_nat (length done_) ∧ (length done_ <= 4)%nat ∧
    args_hold done_ (mem s) ∧ ends_clear (mem s) ∧ cstr (mem s) (bl_command_delimiter e) dl ∧
    keeps shell_areas (mem s0) (mem s) ∧ s = with_strtok q (set_mem (mem s) s0) ∧
    match todo with
    | [] => x.2 = NULL
    | w :: todo => x.2 ≠ NULL ∧ cstr (mem s) x.2 w ∧ P <= x.2 ∧ x.2 + Z.of_nat (length w) <= P + L ∧
        pending q rest (mem s) ∧ inside P L q rest ∧ words dl rest = todo
    end.

(** The next word, with what has been split off before. *)
Lemma next_part_run s0 ws done_ todo a q rest s :
  ws = done_ ++ todo → (length done_ <= 4)%nat → args_hold done_ (mem s) → ends_clear (mem s) →
  cstr (mem s) (bl_command_delimiter e) dl → keeps shell_areas (mem s0) (mem s) →
  (∃ q', s = with_strtok q' (set_mem (mem s) s0)) → continues a q s →
  pending q rest (mem s) → inside P L q rest → words dl rest = todo →
  ∃ part s', bl_strtok a (bl_command_delimiter e) s = Some (part, s') ∧
    splitting s0 ws (Z.of_nat (length done_), part) s'.
Proof.
  intros Hws Hlen Hargs Hclear Hdl Hk [q0 Hs] Ha Hp Hin Hwords. destruct todo as [|w todo].
  - destruct (split_first dl rest) as [H|(pre & tok & more & -> & Hpre & Hne & Htok & Hmore)];
      [|by rewrite words_split in Hwords].
    exists NULL, (with_strtok (q + Z.of_nat (length rest)) s).
    split; [by apply (strtok_no_word s a _ dl q rest); [|apply Hp|..]|].
    exists done_, [], (q + Z.of_nat (length rest)), []. do 7 (split; [done|]). split; [|done].
    change (mem (with_strtok _ s)) with (mem s). rewrite Hs at 1. done.
  - destruct (strtok_word s a _ dl P L q rest w todo Hdl Hp Hin Ha Hwords)
      as (t & b & q' & rest' & Hrun & Hb & HtP & HtL & _ & Ht & Hp' & Hin' & Hwords').
    exists t, (with_strtok q' (set_mem (st8 (mem s) b 0) s)). split; [done|].
    set (m' := st8 (mem s) b 0) in *. change (mem (with_strtok q' (set_mem m' s))) with m' in *.
    assert (Hkeep : keeps [(P, L + 2)] (mem s) m').
    { intros x Hx [Ho _]%Forall_cons. unfold outside in Ho. cbn [fst snd] in Ho. apply ld8_st8_ne; [|done|]; [|lia].
      destruct Hp as [(? & ? & _) _]. destruct Hin as [? [?|[-> ?]]]; [lia|done]. }
    assert (Hkeep' : keeps shell_areas (mem s) m') by (eapply keeps_weaken; [exact Hkeep|unfold shell_areas; sublist]).
    exists done_, (w :: todo), q', rest'. split; [done|]. split; [done|]. split; [done|]. split; [|split; [|split; [|split; [|split]]]].
    + intros i w' Hi. pose proof (lookup_lt_Some _ _ _ Hi).
      destruct (argument_at (Z.of_nat i) ltac:(lia)) as (Hi1 & Hi2 & Hi3).
      generalize (Hargs i w' Hi). apply cstr_ext. intros x Hx. symmetry.
      assert (Hw' : (length (take 32 w') <= 32)%nat) by (rewrite length_take; lia).
      destruct Hvec as [_ Hsp]. unfold vectors_size, BL_ARGUMENTS, BL_SHELL_BUFFER_LENGTH, disjoint, in_space in *. cbn [fst snd] in *.
      apply Hkeep; [lia|]. apply Forall_cons; split; [unfold outside; cbn; lia|constructor].
    + intros i Hi. destruct (argument_at i Hi) as (Hi1 & Hi2 & Hi3).
      destruct Hvec as [_ Hsp]. unfold vectors_size, BL_ARGUMENTS, BL_SHELL_BUFFER_LENGTH, disjoint, in_space in *. cbn [fst snd] in *.
      rewrite Hkeep; [by apply Hclear|lia|]. apply Forall_cons; split; [unfold outside; cbn; lia|constructor].
    + by apply (cstr_keeps (mem s) m').
    + by eapply keeps_trans.
    + rewrite Hs at 1. done.
    + cbn [snd]. destruct Ht as (Ht0 & Ht). split; [unfold NULL; lia|]. by split.
Qed.

Lemma keeps_vectors s0 s m :
  keeps shell_areas (mem s0) (mem s) → keeps [(bl_arguments e, vectors_size)] (mem s) m → keeps shell_areas (mem s0) m.
Proof. intros H1 H2. eapply keeps_trans; [exact H1|]. eapply keeps_weaken; [exact H2|unfold shell_areas; sublist]. Qed.

(** What lies in the line is not touched by the vectors. *)
Lemma pending_keeps q rest m m' :
  keeps [(bl_arguments e, vectors_size)] m m' → inside P L q rest → pending q rest m → pending q rest m'.
Proof.
  intros Hk [HPq Hin] [Hs Hz]. pose proof Hs as (Hq & Hend & _).
  assert (Hld : ∀ x, q <= x < 4294967296 → x <= P + L + 1 → ld8 m' x = ld8 m x).
  { intros x Hx Hx'. apply Hk; [lia|]. apply Forall_cons; split; [|constructor].
    unfold outside, disjoint in *. cbn [fst snd]. lia. }
  split.
  - revert Hs. apply cstr_ext. intros i Hi. symmetry. apply Hld; [lia|]. destruct Hin as [?|[-> ?]]; cbn in *; lia.
  - intros Hne. destruct (Hz Hne) as [H1 H2]. split; [done|]. rewrite <- H2. apply Hld; [lia|].
    destruct Hin as [?|[-> ?]]; [lia|done].
Qed.

Lemma split_arguments_run s0 line :
  L = Z.of_nat (length line) → pending P line (mem s0) → ends_clear (mem s0) →
  cstr (mem s0) (bl_command_delimiter e) dl →
  wp (part ← bl_strtok P (bl_command_delimiter e); split_arguments e part) (λ argc s,
    argc = Z.min 4 (Z.of_nat (length (words dl line))) ∧ args_hold (take 4 (words dl line)) (mem s) ∧
    keeps shell_areas (mem s0) (mem s) ∧ ∃ q, s = with_strtok q (set_mem (mem s) s0)) s0.
Proof.
  intros HL Hp Hclear Hdl. set (ws := words dl line).
  destruct (next_part_run s0 ws [] ws P P line s0) as (part & s1 & Hrun & Hsplit); try done.
  { cbn. lia. }
  { exists (bl_strtok_str s0). by rewrite set_mem_id; destruct s0. }
  { by left. }
  { split; [lia|left; lia]. }
  wp_known Hrun. unfold split_arguments.
  wp_loop (splitting s0 ws) (λ '(argc, _) _, 4 - argc); [|exact Hsplit|lia].
  intros [argc part'] s (done_ & todo & q & rest & Hws & Hargc & Hlen & Hargs & Hcl & Hd & Hk & Hs & Htodo). cbn [fst snd] in *.
  subst argc. destruct todo as [|w todo].
  - subst part'. apply wp_ret. rewrite app_nil_r in Hws. rewrite Hws.
    split; [lia|]. rewrite take_ge by lia. split; [done|]. split; [done|by exists q].
  - destruct Htodo as (Hne & Ht & HtP & HtL & Hpend & Hin & Hrest).
    unfold is_null. destruct (Z.eqb_spec part' 0); [done|].
    destruct (Z.eqb_spec (Z.of_nat (length done_)) BL_ARGUMENTS) as [E|E]; unfold BL_ARGUMENTS in E.
    + apply wp_ret. rewrite Hws, length_app. split; [cbn; lia|]. rewrite take_app_length' by lia.
      split; [done|]. split; [done|by exists q].
    + destruct (fill_vector_run done_ w part' s ltac:(lia) Hargs Hcl Ht HtP HtL) as (m & Hcopy & Hkv & Hargs' & Hcl').
      wp_known Hcopy.
      assert (Hk' : keeps shell_areas (mem s0) m) by (by eapply keeps_vectors).
      destruct (next_part_run s0 ws (done_ ++ [w]) todo NULL q rest (set_mem m s)) as (part2 & s2 & Hrun2 & Hsplit2); rewrite ?mem_set_mem; try done.
      { by rewrite <- app_assoc. }
      { rewrite length_app. cbn. lia. }
      { by apply (cstr_keeps (mem s0) m). }
      { exists q. rewrite Hs at 1. done. }
      { right. split; [done|]. rewrite Hs. done. }
      { by eapply pending_keeps. }
      wp_known Hrun2. rewrite length_app in Hsplit2. apply wp_ret. split; [|lia].
      replace (Z.of_nat (length done_) + 1) with (Z.of_nat (length done_ + length [w])) by (cbn; lia). done.
Qed.
End Arguments.

(** ** Running a command *)

Lemma bind_assoc_run {A B C} (c : M A) (k : A → M B) (g : B → M C) s :
  (x ← c; y ← k x; g y) s = (y ← (x ← c; k x); g y) s.
Proof. unfold mbind, ST_bind. by destruct (c s) as [[??]|]. Qed.

(** What a command that was found does. *)
Definition execute_command (e : command_env) (c : bl_command_info) (argc : Z) : M () :=
  emit 10;; r ← execute c e argc (bl_argv e); wr32 (bl_last_result e) r.

Lemma find_command_run e (name : bl_command_info → list Z) cs argc w s :
  Forall (λ c, cstr (mem s) (command c) (name c)) cs → ld 4 (mem s) (bl_argv e) = argument e 0 →
  cstr (mem s) (argument e 0) (take 32 w) →
  find_command e cs argc s =
  match List.find (λ c, bool_decide (take 32 (name c) = take 32 w)) cs with
  | Some c => (execute_command e c argc;; mret true) s
  | None => Some (false, s)
  end.
Proof.
  intros Hcs Hargv Hw. induction Hcs as [|c cs Hc Hcs IH]; [done|]. cbn [find_command List.find].
  rewrite (bind_run _ _ (argument e 0) _ s) by (unfold rd32, gets; by rewrite Hargv).
  rewrite (bind_run _ _ _ _ _ (bl_strncmp_run s (argument e 0) (command c) (take 32 w) (name c) BL_SHELL_BUFFER_LENGTH Hw Hc ltac:(done))).
  change (Z.to_nat BL_SHELL_BUFFER_LENGTH) with 32%nat. rewrite take_take, Nat.min_id.
  destruct Hw as (_ & _ & Hw & _), Hc as (_ & _ & Hc & _).
  destruct (str_diff_id_zero (take 32 w) (take 32 (name c)) Hw (Forall_take _ _ _ Hc)) as [H1 H2].
  unfold truth. rewrite negb_involutive. case_bool_decide as E.
  - rewrite (H2 (eq_sym E)). cbn [Z.eqb]. unfold execute_command. unfold mbind, ST_bind.
    destruct (emit 10 s) as [[? s1]|]; [|done]. destruct (execute c e argc (bl_argv e) s1) as [[? s2]|]; [|done]. done.
  - destruct (Z.eqb_spec (str_diff id (take 32 w) (take 32 (name c))) 0) as [E'|]; [|exact IH].
    by destruct (E (eq_sym (H1 E'))).
Qed.

Lemma heap_free_returns p n s : ∃ s', bl_heap_free p n s = Some ((), s').
Proof.
  unfold bl_heap_free. destruct (truth (Z.land p (BL_HEAP_MEM_ALIGN - 1))); [by eexists|].
  unfold rd32, gets, mbind, ST_bind. destruct (_ =? BL_HEAP_BLOCK_HEAD_USED_MAGIC); by eexists.
Qed.

(** A region of the program that neither the heap nor the vectors reach. *)
Definition fixed_region (e : command_env) (s : machine) (bs : list block) (g a n : Z) : Prop :=
  stable_region s bs g a n ∧ disjoint a n (bl_arguments e) vectors_size.

(** The shell's static data: the vectors, their pointers, the delimiter and the
    table of commands with the names [name]. *)
Record shell_data (e : command_env) (dl : list Z) (name : bl_command_info → list Z) (commands : list bl_command_info)
    (s : machine) (bs : list block) (g : Z) : Prop := ShellData {
  sd_vectors : good_region (bl_arguments e, vectors_size) ∧ stable_region s bs g (bl_arguments e) vectors_size;
  sd_clear : ends_clear e (mem s);
  sd_argv : ld 4 (mem s) (bl_argv e) = argument e 0 ∧ fixed_region e s bs g (bl_argv e) 4;
  sd_delimiter : cstr (mem s) (bl_command_delimiter e) dl ∧
    fixed_region e s bs g (bl_command_delimiter e) (Z.of_nat (length dl) + 1);
  sd_names : Forall (λ c, cstr (mem s) (command c) (name c) ∧
    fixed_region e s bs g (command c) (Z.of_nat (length (name c)) + 1)) commands;
}.

(** The line is copied and split; then the command is looked up. *)
Lemma split_line_run e dl name commands s bs line l w ws :
  heap_inv s bs → cstr (mem s) line l → let n := Z.of_nat (length l) + 1 in let g := cost n + 1 in
  stable_region s bs g line n → heap_end s bs + cost n < 4294967296 →
  shell_data e dl name commands s bs g → words dl l = w :: ws →
  ∃ P s1, args_hold e (take 4 (w :: ws)) (mem s1) ∧
    (∀ a, stable s bs g a → outside (bl_arguments e) vectors_size a → ld8 (mem s1) a = ld8 (mem s) a) ∧
    bl_command_run e commands line s =
    (found ← find_command e commands (Z.min 4 (Z.of_nat (length (w :: ws))));
     if found : bool then mret () else bl_heap_free P (Z.of_nat (length l))) s1.
Proof.
  intros Hinv Hl n g Hline Hroom [[Hv Hvs] Hclear [Hargv Hargvr] [Hdl Hdlr] Hnames] Hwords.
  destruct (strdup_run s bs line l Hinv Hl Hline Hroom) as (b & s0 & Hdup & Hn & Hend & Hcopy & Hbehind & Hst).
  fold n g in Hst, Hbehind, Hend. set (P := b_data b) in *. pose proof Hcopy as (HP & _).
  assert (Hfar : ∀ a k, 0 < k → stable_region s bs g a k → disjoint a k P (Z.of_nat (length l) + 2)).
  { intros a k Hk [_ Hr]. unfold disjoint. destruct (Hst a (Hr a ltac:(lia))) as [Ho _]. unfold outside in Ho.
    destruct (decide (a + k <= P)); [lia|]. destruct (decide (P <= a)); [lia|].
    destruct (Hst P (Hr P ltac:(lia))) as [Ho' _]. unfold outside in Ho'. lia. }
  assert (Hsame : ∀ p s', stable_region s bs g p (Z.of_nat (length s') + 1) → cstr (mem s) p s' → cstr (mem s0) p s').
  { intros p s' [_ Hr]. apply cstr_ext. intros i Hi. symmetry. apply Hst, Hr. lia. }
  assert (Hclear0 : ends_clear e (mem s0)).
  { intros i Hi. destruct (argument_at e Hv i Hi) as (H1 & H2 & H3). rewrite <- (Hclear i Hi).
    apply Hst, Hvs. unfold vectors_size, BL_ARGUMENTS, BL_SHELL_BUFFER_LENGTH in *. lia. }
  assert (Hne : Z.of_nat (length l) ≠ 0) by (destruct l; [done|cbn; lia]).
  assert (Hpend : pending P l (mem s0)).
  { split; [done|]. intros _. split; [lia|]. rewrite <- Hbehind. f_equal. unfold n. lia. }
  destruct Hdlr as [Hdlr Hdlv], Hargvr as [Hargvr Hargvv].
  assert (Hd1 : disjoint P (Z.of_nat (length l) + 2) (bl_arguments e) vectors_size).
  { destruct (Hfar (bl_arguments e) vectors_size eq_refl Hvs); [by right|by left]. }
  pose proof (Hfar (bl_command_delimiter e) (Z.of_nat (length dl) + 1) ltac:(lia) Hdlr) as Hd2.
  assert (Hline' : 0 < P ∧ 0 <= Z.of_nat (length l)) by lia.
  pose proof (split_arguments_run e dl P (Z.of_nat (length l)) Hv Hline' Hd1 Hd2 Hdlv
    s0 l eq_refl Hpend Hclear0 (Hsame _ _ Hdlr Hdl)) as Hsplit.
  rewrite Hwords in Hsplit. apply wp_run in Hsplit as (argc & s1 & Hrun & -> & Hargs & Hk & _).
  set (argc := Z.min 4 (Z.of_nat (length (w :: ws)))) in *.
  assert (Hframe : ∀ a, stable s bs g a → outside (bl_arguments e) vectors_size a → ld8 (mem s1) a = ld8 (mem s) a).
  { intros a Ha Ho. destruct (Hst a Ha) as [Ho' Heq]. rewrite <- Heq. apply Hk; [apply Ha|].
    unfold shell_areas. apply Forall_cons; split; [unfold n, outside in *; cbn; lia|].
    apply Forall_cons; split; [done|constructor]. }
  exists P, s1. split; [done|]. split; [done|].
  unfold bl_command_run. run_with (bl_strlen_run _ _ _ Hl). destruct (Z.eqb_spec (Z.of_nat (length l)) 0); [done|].
  rewrite (bind_run _ _ P _ s0) by (by rewrite strndup_whole). unfold is_null. destruct (Z.eqb_spec P 0); [lia|].
  rewrite bind_assoc_run. by run_with Hrun.
Qed.

(** C22: A command line is split into words at the delimiters; the first four, cut after
    32 characters, become the arguments, and the first command of the table whose
    name is the first word (both up to 32 characters) is executed with them; when
    there is none the call just returns.  That the tokenizer stops behind the last
    word is due to the second NUL that [bl_strndup] stores.  Static memory other than
    the argument vectors is as before when the command starts. *)
Theorem shell_runs_command e dl name commands s bs line l w ws :
  heap_inv s bs → cstr (mem s) line l → let n := Z.of_nat (length l) + 1 in let g := cost n + 1 in
  stable_region s bs g line n → heap_end s bs + cost n < 4294967296 →
  shell_data e dl name commands s bs g → words dl l = w :: ws →
  ∃ s1, args_hold e (take 4 (w :: ws)) (mem s1) ∧
    (∀ a, stable s bs g a → outside (bl_arguments e) vectors_size a → ld8 (mem s1) a = ld8 (mem s) a) ∧
    match List.find (λ c, bool_decide (take 32 (name c) = take 32 w)) commands with
    | Some c => bl_command_run e commands line s = execute_command e c (Z.min 4 (Z.of_nat (length (w :: ws)))) s1
    | None => ∃ s2, bl_command_run e commands line s = Some ((), s2)
    end.
Proof.
  intros Hinv Hl n g Hline Hroom Hdata Hwords.
  destruct (split_line_run e dl name commands s bs line l w ws Hinv Hl Hline Hroom Hdata Hwords)
    as (P & s1 & Hargs & Hframe & Hrun).
  destruct Hdata as [_ _ [Hargv Hargvr] _ Hnames].
  set (argc := Z.min 4 (Z.of_nat (length (w :: ws)))) in *.
  assert (Hpoint : ∀ a k x, fixed_region e s bs g a k → a <= x < a + k → ld8 (mem s1) x = ld8 (mem s) x).
  { intros a k x [[_ Hr] Hd] Hx. apply Hframe; [by apply Hr|]. unfold disjoint, outside in *. lia. }
  exists s1. split; [done|]. split; [done|].
  assert (Hfind : find_command e commands argc s1 = match List.find (λ c, bool_decide (take 32 (name c) = take 32 w)) commands with
    | Some c => (execute_command e c argc;; mret true) s1 | None => Some (false, s1) end).
  { apply find_command_run.
    - eapply Forall_impl; [exact Hnames|]. cbv beta. intros c [Hc Hr]. revert Hc. apply cstr_ext. intros i Hi. symmetry.
      apply (Hpoint _ _ _ Hr). lia.
    - rewrite <- Hargv. unfold ld. f_equal. apply ld_bytes_ext. intros i Hi. apply (Hpoint (bl_argv e) 4); [done|lia].
    - by apply (Hargs 0%nat). }
  rewrite Hrun. destruct (List.find _ commands) as [c|] eqn:Efind.
  - unfold mbind at 1, ST_bind at 1. rewrite Hfind. unfold mbind, ST_bind.
    by destruct (execute_command e c argc s1) as [[[] ?]|].
  - run_with Hfind. apply heap_free_returns.
Qed.

(** The line " false a", with the names of the commands at 0x3000. *)
Definition example_names : list (list Z) :=
  literal <$> ["help"; "true"; "false"; "last-result"; "pci-list"; "usb-list"]%string.
Definition example_name (c : bl_command_info) : list Z :=
  default [] (example_names !! Z.to_nat ((command c - 0x3000) / 16)).
Definition example_env : command_env := CommandEnv 0x4000 0x5000 0x2000 0x6000 (mret ()) (mret ()).
Definition example_line : list Z := literal " false a".
Definition example_shell : machine :=
  set_mem (foldl (λ m '(a, l), st_bytes m a (l ++ [0])) (st 4 ∅ 0x5000 0x4000)
    ([(0x1000, example_line); (0x2000, [32])] ++ imap (λ i l, (0x3000 + 16 * Z.of_nat i, l)) example_names)) heap_empty.

Lemma shell_runs_command_witness :
  words [32] example_line = [literal "false"; literal "a"] ∧
  ∃ s1, args_hold example_env [literal "false"; literal "a"] (mem s1) ∧
    bl_command_run example_env (bl_commands (λ i, 0x3000 + 16 * i)) 0x1000 example_shell =
    execute_command example_env (CommandInfo 0x3020 bl_command_false) 2 s1.
Proof.
  assert (Hst : ∀ g a n, 0 <= a → 0 <= n → a + n <= 0x100000 → stable_region example_shell [] g a n).
  { intros g a n Ha Hn Hend. split; [unfold in_space; lia|]. intros y Hy. split; [lia|]. left.
    change (bl_heap example_shell) with 0x100000. lia. }
  assert (Hfix : ∀ g a n, 0 <= a → 0 <= n → a + n <= 0x4000 ∨ 0x5000 <= a → a + n <= 0x100000 →
    fixed_region example_env example_shell [] g a n).
  { intros g a n Ha Hn Ho Hend. split; [by apply Hst|]. unfold disjoint. change (bl_arguments example_env) with 0x4000.
    change vectors_size with 132. lia. }
  split; [by vm_compute|].
  destruct (shell_runs_command example_env [32] example_name (bl_commands (λ i, 0x3000 + 16 * i)) example_shell []
    0x1000 example_line (literal "false") [literal "a"]) as (s1 & Hargs & _ & Hrun).
  - by vm_compute.
  - apply cstr_here_ok. by vm_compute.
  - apply Hst; by vm_compute.
  - by vm_compute.
  - split.
    + split; [by vm_compute|apply Hst; by vm_compute].
    + intros i Hi. assert (i = 0 ∨ i = 1 ∨ i = 2 ∨ i = 3) as [->|[->|[->| ->]]] by lia; by vm_compute.
    + split; [by vm_compute|]. apply Hfix; [done|done|by right|by vm_compute].
    + split; [apply cstr_here_ok; by vm_compute|]. apply Hfix; [done|by vm_compute|by left|by vm_compute].
    + unfold bl_commands. repeat (apply Forall_cons; split;
        [split; [apply cstr_here_ok; by vm_compute|apply Hfix; [done|by vm_compute|by left|by vm_compute]]|]). constructor.
  - by vm_compute.
  - exists s1. split; [exact Hargs|exact Hrun].
Defined.
