(* ===== verification/Init.v ===== *)
(** * Start-up: core/init.c

    The order in which the parts are set up, and what ends the start early.  The
    entry functions of the modules are parameters of the loader (Elf.v); what
    they registered in the lists of the core is [registered]. *)
From Stdlib Require Import String.
From S2P Require Import Prelude Memory Arith Status Strings Heap Storage Print Fs Elf.
From S2P Require Import Fb Ports Video Gui Keyboard Usb Shell.
#[local] Open Scope Z_scope.

Record registered (Dev : Type) := Registered {
  r_video_drivers : list (bl_video_driver Dev);
  r_usb : registry;
  r_disk_controllers : list bl_disk_controller_functions;
  r_partition_tables : list partition_table;
  r_file_systems : list bl_fs;
}.
Arguments r_video_drivers {Dev}. Arguments r_usb {Dev}. Arguments r_disk_controllers {Dev}.
Arguments r_partition_tables {Dev}. Arguments r_file_systems {Dev}.

(** What the parts take as parameters. *)
Record init_env (Dev : Type) := InitEnv {
  i_time_setup : D Dev ();                     (* of the firmware's build, Time.v *)
  i_time_sleep : Z → D Dev Z;
  i_loader : loader_env;
  i_registered : registered Dev;
  i_video_type : bl_video_t;
  i_write_combine : Z → Z → D Dev ();
  lit_newline : Z; lit_space : Z; lit_prologue : Z;
  i_funcs_at : Z → option (bl_usb_host_controller_functions Dev);
  i_usb_frame : usb_frame;
  i_disk_controller_at : Z → option bl_disk_controller_functions;
  i_commands : command_env;
  i_disk_ptr : bl_storage_device → Z;
  i_pfile : Z; lit_home : Z;
}.
Arguments i_time_setup {Dev}. Arguments i_time_sleep {Dev}. Arguments i_loader {Dev}.
Arguments i_registered {Dev}. Arguments i_video_type {Dev}. Arguments i_write_combine {Dev}.
Arguments lit_newline {Dev}. Arguments lit_space {Dev}. Arguments lit_prologue {Dev}.
Arguments i_funcs_at {Dev}. Arguments i_usb_frame {Dev}. Arguments i_disk_controller_at {Dev}.
Arguments i_commands {Dev}. Arguments i_disk_ptr {Dev}. Arguments i_pfile {Dev}. Arguments lit_home {Dev}.

(** The statics of the parts after the start. *)
Record boot_state := BootState {
  b_fb : bl_fb_t; b_gui : option bl_gui; b_usb : registry; b_disks : list bl_storage_device;
  b_shell : shell_state;
}.

Section Init.
Context {Dev : Type} (e : init_env Dev).

Definition print_line (s : string) : M () := print_literal s;; emit 10.

(** [s] holds the statics before. *)
Definition bl_init (s : boot_state) : D Dev (bl_status_t * boot_state) :=
  let r := i_registered e in
  i_time_setup e;;
  status ← on_machine (bl_loader_init (i_loader e));
  if failed status then mret (status, s)
  else
    '(_, _, fb) ← bl_video_driver_probe (i_video_type e) (i_write_combine e) (r_video_drivers r) None (b_fb s);
    '(gui, fb) ← on_machine (bl_gui_app_setup (lit_newline e) (lit_space e) (lit_prologue e) (b_gui s) fb);
    on_machine (print_line "[1] Setting USB.");;
    reg ← bl_usb_setup (i_funcs_at e) (i_time_sleep e) (i_usb_frame e) (i_disk_controller_at e) (r_usb r);
    on_machine (print_line "[2] Checking storage devices.");;
    '(status, disks) ← on_machine (bl_storage_probe (r_disk_controllers r) (r_partition_tables r) (reg_disks reg));
    if failed status then
      on_machine (print_line "Unproper storage settings.");;
      mret (status, BootState fb gui reg disks (b_shell s))
    else
      on_machine (print_line "Initialization complete !");;
      shell ← on_machine (bl_shell_entry_point (i_commands e) disks (r_file_systems r) (i_disk_ptr e)
                            (i_pfile e) (lit_home e) (b_shell s));
      mret (BL_STATUS_SUCCESS, BootState fb gui reg disks shell).
End Init.
